(* ===== verification/_CoqProject ===== *)
-Q . S2P
Prelude.v
Float64.v
Ring.v
Streams.v
Text.v
Orphans.v
Channel.v
Convention.v
Layout.v
Process.v
Source.v
SourceIO.v
Arm.v
ArmLive.v
FactrLaunch.v
System.v
Session.v
SessionSafety.v
Collect.v
Keyboard.v
Brain.v
Policy.v
Eval.v
EvalLive.v
Json.v
FactrClient.v
FactrNode.v
Recorder.v
Observe.v
PolicyClient.v
SkillFile.v
SkillRun.v
Nodes.v
Dashboard.v
SessionIO.v
NativeRt.v
Calibration.v
CalibFile.v
LiveView.v
Horizon.v
Downloads.v
Storage.v
ViewerStreams.v
ViewerScene.v
PlotStore.v
Consumers.v
Operator.v
Geometry.v
Kinematics.v
CameraSource.v
MeshFiles.v
RobotView.v
SceneModel.v
ViewerFiles.v
Replay.v
ReplayView.v
RerunReplay.v
Mirror.v
Blueprints.v
ControlPage.v
StoragePage.v
CalibPage.v
StatusPage.v
Servers.v
Facade.v
