(* ===== verification/Prelude.v ===== *)
(** * dual-flexiv-control: a verification development

    The program drives two Flexiv arms.  One process per device publishes telemetry in
    shared-memory rings; a consumer process (teleoperated collection, policy evaluation or a
    skill) reads those rings and posts setpoints and commands to the arms through rings of
    its own; a session daemon (or a one-shot orchestrator) starts, supervises and stops all
    of them, and a supervisor runs the FACTR leader servers the operator moves by hand.  All
    source paths below are relative to [src/dual_flexiv_control/].

    ** Files, in dependency order

    - [Prelude] (this file): Python exceptions as values, the error monad [res], the state
      monad [ST] (a routine returns, raises, or is [Running] when its inputs are used up),
      ordered dictionaries, slices, reachability, the hint database [dfc].
    - [Float64]: binary64 arithmetic, executable, on the Standard Library's [SpecFloat].
    - [Ring]: [streams/ring.py].  Layout of a segment, [append] as one operation and store by
      store, [last] as a reader whose loads interleave with the producer's stores.
    - [Streams]: [streams/spec.py], [streams/registry.py], [streams/stream.py].  Names,
      manifests, discovery, waiting, writers and readers, cleanup, over a world of names,
      segments and directories.
    - [Text]: the string functions the code uses: prefixes, splits, decimal integers, sorting.
    - [Orphans]: [orphans.py].  What the reaper kills and unlinks, with /proc and /dev/shm as
      inputs.
    - [Channel]: [control/channel.py], [control/message.py].  Setpoint packing, the action
      space, horizon estimates, opcodes, the command cursor.
    - [Convention]: [control/convention.py].  Leader-to-follower joint conversion and gripper
      normalisation, over a class of numbers with a binary64 and a rational instance.
    - [Layout]: [layout.py].  The state and action vectors of the dataset and the policies.
    - [Process]: [process.py], [proprio.py], [cameras.py].  Rate limiter, producer life cycle.
    - [Source], [SourceIO]: [interfaces/flexiv/source.py], [states.py].  The calls made to the robot
      SDK, the joint-jump gate, the gripper's pacing, the hardware-free source; opening, reading and
      closing.
    - [Arm]: [interfaces/flexiv/interface.py].  The arm process: idle, bootstrap, control loop
      with watchdog, deadmen and commands, clean-up, native hand-over.  [ArmLive]: its
      termination once the system shuts down.
    - [FactrLaunch]: [interfaces/factr/launch.py].  The leader servers' state machine.
    - [System]: [system.py].  Node construction, the supervising loop, shutdown escalation.
    - [Session], [SessionSafety]: [session.py].  The daemon's state, one definition per handler
      and per supervision step, the serving loop; then its invariants and gates, proved over
      every state reachable by operations, process exits and shared-memory activity.
    - [Collect]: [collection/features.py], [collection/loop.py], the leader freshness rules of
      [interfaces/factr/interface.py].  Frames, teleoperation, episodes.  [Keyboard]:
      [collection/keyboard.py], the operator's keys.
    - [Brain]: [brain/brain.py].  The consumer's readers and control channels over the world of
      [Streams], and the teleoperation step of the plain brain node.
    - [Policy]: [policy/adapter.py].  Index projections of states and action chunks.
    - [Eval]: [policy/loop.py].  The policy rollout.  [EvalLive]: it reaches its horizon.
    - [Json]: JSON documents, Python's conversions of them and numpy arrays read from them.
    - [FactrClient], [FactrNode]: [interfaces/factr/client.py], [interface.py].  The clients of the
      leader servers (a receiver thread and its callers over latest-value caches), and the
      producer that converts, publishes and sends the followers' torque back.
    - [Recorder]: [collection/recorder.py].  The gate in front of a dataset on disk.
    - [Observe]: the dataset schema ([FrameBuilder.features]), [policy/observation.py] and the
      requests of [policy/adapter.py].  [PolicyClient]: [policy/client.py], the wire format, both
      transports, the remote and the stand-still policy.
    - [SkillFile], [SkillRun]: [skills.py].  Skill files, teaching from an episode, the replay loop.
    - [Nodes]: the process wrappers [CollectionNode.run], [EvalNode.run], [SkillNode.run] and
      [BrainNode.run] over [Brain].
    - [Dashboard]: [dashboard/session.py], [dashboard/runner.py].  The dashboard's client of the
      session daemon: life cycle, commands, state view, launches, alerts.
    - [SessionIO]: the daemon's edges in [session.py]: the input listener and the signal handlers, the
      state file written in steps others interleave with, the whole of [serve] and [main].
    - [NativeRt]: [interfaces/flexiv/native_rt.py].  Launching the real-time controller and
      reading its outcome.
    - [Calibration], [CalibFile]: [dashboard/calibration.py].  The pose-set fit of a leader's
      offsets and signs, the model-home conversion, capture, and the edit of the YAML file.
    - [LiveView]: [dashboard/arms.py], [dashboard/cameras.py].  Live streams, arm, leader and
      camera status, the cached configuration, depth clouds.
    - [Horizon]: the viewer hooks of [policy/loop.py].  The paths predicted from an action chunk, their
      publication, and what [LiveView] reads back.
    - [Downloads], [Storage]: [dashboard/downloads.py], [dashboard/storage.py].  Serving episode
      videos; finding, listing and deleting recorded datasets.
    - [ViewerStreams], [ViewerScene], [PlotStore]: [visualization/schema.py], [viser/consumer.py],
      [viser/view.py], [plotly_dash/consumer.py], [plotly_dash/view.py].  The stream consumers of
      the 3D viewer and of the plots: discovery, readers, drawing decisions, buffers.  The two
      consumers share one loop over an interface, the class [Sink] with its laws.  [Consumers]: the
      construction and the start of the two processes.
    - [Operator]: [dashboard/ssh_hosts.py], [launch.py], [factr_servers.py], [logs.py], [tasks.py],
      [policy_servers.py].  What the operator has on disk or types at launch.
    - [Geometry], [Kinematics]: [visualization/geometry.py] over the real numbers.  Rotations,
      mounts, camera poses; robot descriptions, mesh placement, forward kinematics.
    - [CameraSource]: [interfaces/zed/], [interfaces/realsense/].  Real and simulated cameras.
    - [MeshFiles], [RobotView]: [dashboard/robot_view.py].  The OBJ, MTL and STL loaders; what is
      logged to draw the robots, and what a viewer renders of it.
    - [SceneModel], [ViewerFiles]: [viser/scene.py], [viser/client.py].  The Viser scene as trees of
      frames with every operation on them; the patched web client and its cache, cached meshes.
    - [Replay], [ReplayView], [RerunReplay]: [viser/replay.py], [dashboard/replay.py].  Reading a
      recorded episode back into joints, commands, grippers and images; its replay in the Viser
      scene with slider and play threads; its replay as a Rerun recording.
    - [Mirror], [Blueprints]: the run panel and the mirror thread of [dashboard/runner.py], and the
      viewer layouts of [dashboard/blueprints.py] they select.
    - [ControlPage], [StoragePage], [CalibPage], [StatusPage]: [dashboard/app.py].  The launch form,
      buttons, keys and alerts; selection, deletion and replay of episodes; the calibration page's
      drafts; the status rows.  A page is a function of the widgets' values and of the state that
      Streamlit keeps between runs of the script.
    - [Servers]: [dashboard/viewer.py], [viser/service.py], [plotly_dash/service.py],
      [rerun/service.py], [dashboard/editor.py].  Ports, recordings, singletons, the launcher.
    - [Facade]: the rest of [dashboard/runner.py].  What the run facade tells the viewers, the lazily
      loaded Rerun backend, the mirror's thread.

    ** What the theorems show

    - Shared memory.  No read is torn and every read is fresh under any interleaving with the
      producer ([Ring.seqlock_read_sound], [seqlock_read_fresh]); rings, streams and control
      channels refine append-only logs ([ring_append_last], [append_refines_stores],
      [Streams.stream_write_read], [Brain.control_delivers]); commands are delivered exactly
      once, and losses are counted ([Channel.cursor_exactly_once], [cursor_loss_report]);
      segments are released on every path ([Process.producer_releases],
      [Streams.cleanup_sub_reclaims], [Brain.close_releases]).
    - Who may move an arm.  Only a start or switch asked for by the user puts an arm in
      control, after every gate, and exactly the permitted sides
      ([SessionSafety.control_is_user_initiated], [start_passes_gates], [eval_all_or_nothing]); a
      replaced arm finds on its queue at most what the drain could not take out
      ([respawned_arm_idle]); an arm in control
      moves only on fresh setpoints within its limits and always ends stopped
      ([Arm.session_motion_justified], [session_always_stops], [idle_arm_is_readonly],
      [Source.joint_command_gated]) and ends after a shutdown, within a fixed number of observations
      or when the connection time-out has passed ([ArmLive.arm_shutdown_terminates]); consumers post no fabricated target
      ([Collect.teleop_targets_real], [Eval.rollout_posts_justified]); stopping reaches every
      arm ([Brain.stop_reaches_arms], [SessionSafety.dropout_stops_run]).
      A consumer hands the arms back and releases its streams however it ends
      ([Nodes.consumer_hands_back]); a skill moves only after the arms were near its start, and
      ends ([SkillRun.skill_posts_gated], [skill_run_ends]); the stand-still policy asks for no
      motion ([PolicyClient.hold_stands_still]).
    - Leaders.  Positions handed on are the leader's own, of the right length and fresh; every
      published vector fits its declared stream; feedback to a leader is fresh, negated and sent
      once ([FactrClient.reading_is_fresh], [FactrNode.poll_fits_streams],
      [FactrNode.feedback_sent_once], [FactrClient.feedback_reaches_all]).
    - Data.  The setpoint, action and state codecs, the policy wire format and the skill files are
      lossless (up to single precision where the code rounds); chunks are decoded and executed
      exactly as configured ([Channel.setpoint_roundtrip], [Layout.action_roundtrip],
      [PolicyClient.wire_roundtrip], [SkillFile.save_load_roundtrip], [Policy.decode_exact],
      [Eval.rollout_executes_chunks], [EvalLive.rollout_completes]); frames match the declared
      schema, recorded episodes are never deleted or mixed with another schema, and no half-saved
      episode is kept ([Observe.frame_conforms], [Recorder.recorder_spares_episodes],
      [Collect.dataset_discipline]).
    - Processes.  No process outlives a shutdown unsignalled, a saving recorder is spared, the
      leaders are never respawned unattended and are interrupted before anything harsher
      ([System], [FactrLaunch]); the reaper spares what a live process owns
      ([Orphans.sweep_spares_live], [sweep_shm_is_filter]); a crash-looping daemon is respawned at
      most three times, and launches and restarts respect a running episode
      ([Dashboard.crash_loop_bounded], [launch_gated], [ensure_spares_runs]); the published session
      state agrees with the daemon ([SessionSafety.session_state_agrees]), and the dashboard reads it
      whole under any interleaving with its writing ([SessionIO.dashboard_sees_session]); commands
      arrive once and in order, a shutdown ends the daemon, and one daemon owns a runtime directory
      ([commands_arrive], [shutdown_ends_serve], [second_session_refused]).

    - Views.  The native controller's outcome is reported as it was and it is stopped
      ([NativeRt.controller_outcome], [controller_stops]).  A calibration recovers the true offsets
      and signs from the poses and is saved whole or not at all ([Calibration.pose_fit_recovers],
      [CalibFile.calibration_save_atomic]), and what a session of the page sends to be saved was solved
      from the poses held and agrees with the live conversion
      ([CalibPage.saved_calibration_converts]).  A status row is never drawn from a
      stale sample ([StatusPage.arm_row_fresh]), the mirror poses only robots whose data is
      published now, and the rendered tip of an arm stands at the forward kinematics of its
      measured angles ([Mirror.mirror_shows_live], [RobotView.drawn_arms_follow],
      [Kinematics.fk_rigid], [Geometry.orientation_roundtrip], [mounts_consistent]).  Viewers close
      every reader they open and no point is plotted twice or out of order
      ([ViewerStreams.viewer_releases], [PlotStore.plots_in_order], [packets_counted_once]); a
      camera publishes whole frames or nothing ([CameraSource.camera_samples_whole],
      [zed_open_settles]).  Each model of the 3D viewer stands where the streams say or is hidden
      or marked stale ([SceneModel.viewer_shows_streams], [scaled_model_uniform]); a predicted path is
      shown as the policy's chunk gives it, and announcing it disturbs nothing
      ([Horizon.predicted_path_shown], [horizon_hooks_harmless]); every plotted row
      has its panel ([Blueprints.mirror_rows_viewed]); meshes load as whole triangles of the file's
      own vertices ([MeshFiles.obj_triangles]).
    - Replay.  An episode is read back as it was recorded ([Replay.replay_shows_recorded]); no
      interleaving of loads, slider and play threads mixes episodes, and an undisturbed play reaches
      the end ([ReplayView.replay_shows_one_episode], [playback_reaches_end]); both viewers draw the
      same arms ([RerunReplay.replays_agree]).
    - Pages.  An enabled launch button sends one request, which the daemon accepts exactly when the
      names in it are plain, keys and toggles send
      what they say, reset spares a run ([ControlPage.launch_button_accepted], [c_key_only_starts],
      [toggle_sends_safely], [reset_services_restarts]); only confirmed deletions happen, and the
      replay panel names what it shows ([StoragePage.deletions_confirmed],
      [replay_panel_names_episode]); a viewer port is reported up only when it answers, and serves
      one episode ([Servers.serve_checked_answers], [endpoint_serves_one_episode]).
    - Files.  Only registered files are served, byte for byte; episodes are deleted together or the
      dataset is left as it was, unless the second rename of the swap is refused ([Downloads.downloads_confined], [download_roundtrip],
      [Storage.delete_episodes_atomic]); host lists, rig options, servo settings and server
      metadata are read as documented ([Operator]).

    ** Conventions of the model

    A blocking loop consumes one observation of a tape per iteration: clocks, the stop event,
    what other processes did.  A theorem about a loop is about every tape, and a routine
    whose tape is used up is [Running], which no theorem mistakes for a result.  The loops of
    [Arm] recurse on fuel and are started with one unit per observation left, so the fuel
    never runs out before the tape.  The ring's reader makes its four retries ([READ_RETRIES]).
    Dictionaries keep insertion order; machine integers that can be large are [Z]; numpy's
    element casts are a parameter with the facts used as hypotheses.  Operator messages are
    constructors instead of texts, and log output is left out unless code depends on it.
    The robot SDK, Hydra's composition, the network and LeRobot are not in the repository:
    what the code asks of them is logged, what they answer is an input.  Msgpack is the class
    [PolicyClient.Msgpack]: its two functions with the documented laws, and an instance that
    satisfies them.  Strings are ASCII text: character tests of other scripts are outside the
    model.  Poses are real numbers, so the theorems about them ask for finite samples.

    ** Not modelled

    Left out: markup, texts and layout of the dashboard's pages, the command-line entry points, the
    maintenance and hardware scripts, the training-side policy server, the C++ controller (its exit
    status is an input of [Arm]), the rounding of the viewers' geometry, and the configuration
    dataclasses that no modelled code reads: these have no state of the program's own.  Third-party
    packages (robot and camera SDKs, websockets, requests, msgpack, torch, LeRobot, Hydra, Viser,
    Dash, Rerun, Streamlit, trimesh) are inputs. *)

From Stdlib Require Export ZArith Lia Bool.
From stdpp Require Export base gmap strings option.
From stdpp Require Export list.

(** ** Python exceptions and the error monad

    The source signals every failure with a Python exception.  An operation that
    can raise returns [res A]; [exn] has one constructor per exception class the
    modelled code raises or catches. *)

Inductive exn :=
  | ValueError
  | KeyError
  | IndexError
  | TypeError
  | RuntimeError
  | TimeoutError
  | FileExistsError
  | FileNotFoundError
  | OSError
  | OverflowError
  | WebSocketException
  | RequestException
  | TimeoutExpired
  | SystemExit
  | AttachAborted
  | SafetyHalt
  | PolicyError
  | PolicyUnavailable
  | FactrError
  | RecorderUnavailable
  | OtherError.

Inductive res (A : Type) :=
  | Ok (a : A)
  | Raise (e : exn).

Arguments Ok {A} a.
Arguments Raise {A} e.

Declare Scope dfc_scope.
Delimit Scope dfc_scope with dfc.
Open Scope dfc_scope.

Definition res_bind {A B} (c : res A) (k : A -> res B) : res B :=
  match c with Ok a => k a | Raise e => Raise e end.

Definition res_map {A B} (f : A -> B) (c : res A) : res B :=
  match c with Ok a => Ok (f a) | Raise e => Raise e end.

Notation "'let?' x ':=' c 'in' k" := (res_bind c (fun x => k))
  (at level 10, x pattern, c at level 100, k at level 200,
   format "'let?'  x  ':='  c  'in' '//' k") : dfc_scope.

(** [option] lookups that raise when the key is absent (a Python subscript). *)
Definition of_option {A} (e : exn) (o : option A) : res A :=
  match o with Some a => Ok a | None => Raise e end.

(** A sequence of fallible computations, left to right (a Python loop or
    comprehension whose body may raise: the first exception wins). *)
Fixpoint mapM_res {A B} (f : A -> res B) (l : list A) : res (list B) :=
  match l with
  | [] => Ok []
  | x :: l =>
      let? y := f x in
      let? ys := mapM_res f l in
      Ok (y :: ys)
  end.

Fixpoint foldM_res {A S} (f : S -> A -> res S) (l : list A) (s : S) : res S :=
  match l with
  | [] => Ok s
  | x :: l => let? s' := f s x in foldM_res f l s'
  end.

(** ** Tactics *)

(** Split the [res] and [option] binds of a hypothesis into their steps. *)
Ltac res_simp :=
  repeat match goal with
  | H : res_bind ?c _ = Ok _ |- _ =>
      let E := fresh "E" in destruct c eqn:E; simpl in H; [| discriminate H]
  | H : Ok _ = Ok _ |- _ => injection H as H; subst
  | H : Ok _ = Ok _ |- _ => injection H as H
  | H : Raise _ = Ok _ |- _ => discriminate H
  | H : Ok _ = Raise _ |- _ => discriminate H
  | H : of_option _ ?o = Ok _ |- _ =>
      let E := fresh "E" in destruct o eqn:E; simpl in H; [| discriminate H]
  end.

Lemma mapM_res_Forall2 {A B} (f : A -> res B) l l' :
  mapM_res f l = Ok l' -> Forall2 (fun x y => f x = Ok y) l l'.
Proof.
  revert l'. induction l as [|x l IH]; intros l'; simpl; [by intros [= <-]|].
  intros H. res_simp. constructor; auto.
Qed.

Lemma foldM_res_inv {A T} (P : T -> Prop) (f : T -> A -> res T) l s s' :
  (forall s x s', x ∈ l -> f s x = Ok s' -> P s -> P s') ->
  foldM_res f l s = Ok s' -> P s -> P s'.
Proof.
  revert s. induction l as [|x l IH]; intros s Hf H; simpl in H; [by simplify_eq|].
  res_simp. intros Hs. eapply IH; [|exact H|].
  - intros. eapply Hf; [by right|done..].
  - eapply Hf; [left|done..].
Qed.

Lemma mapM_res_total_rel {A B} (f : A -> res B) (Q : A -> B -> Prop) l :
  (forall x, x ∈ l -> exists y, f x = Ok y /\ Q x y) -> exists ys, mapM_res f l = Ok ys /\ Forall2 Q l ys.
Proof.
  induction l as [|x l IH]; intros H; [by exists []|]. cbn [mapM_res].
  destruct (H x ltac:(left)) as (y & -> & Hy). cbn [res_bind].
  destruct IH as (ys & -> & Hys); [intros; apply H; by right|]. exists (y :: ys). split; [done|by constructor].
Qed.

Lemma mapM_res_ok {A B} (f : A -> res B) l : (forall x, x ∈ l -> exists y, f x = Ok y) ->
  exists ys, mapM_res f l = Ok ys /\ length ys = length l.
Proof.
  intros H. destruct (mapM_res_total_rel f (fun _ _ => True) l) as (ys & -> & Hys).
  - intros x Hx. destruct (H x Hx) as (y & ->). by eexists.
  - exists ys. split; [done|]. symmetry. by eapply Forall2_length.
Qed.

Lemma foldM_each {A T} (f : T -> A -> res T) l s s' : foldM_res f l s = Ok s' ->
  Forall (fun x => exists s1 s2, f s1 x = Ok s2) l.
Proof.
  revert s. induction l as [|x l IH]; intros s H; [constructor|]. cbn in H. destruct (f s x) as [s1|] eqn:E; [|done].
  constructor; [by eauto|by eapply IH].
Qed.

(** Case analysis on the scrutinee of the first [if] or [match] of the goal. *)
Ltac case_goal :=
  match goal with
  | |- context [if ?b then _ else _] => let E := fresh "E" in destruct b eqn:E
  | |- context [match ?x with _ => _ end] => let E := fresh "E" in destruct x eqn:E
  end.

Create HintDb dfc.

(** ** Ordered dictionaries

    A Python [dict] keeps insertion order, and the source iterates over its
    dictionaries, so they are association lists: [dset] overwrites in place or
    appends, as [d[k] = v] does. *)

Section dict.
Context {K V : Type} `{EqDecision K}.

Fixpoint dget (k : K) (d : list (K * V)) : option V :=
  match d with
  | [] => None
  | (k', v) :: d => if decide (k = k') then Some v else dget k d
  end.

Fixpoint dset (k : K) (v : V) (d : list (K * V)) : list (K * V) :=
  match d with
  | [] => [(k, v)]
  | (k', v') :: d =>
      if decide (k = k') then (k', v) :: d else (k', v') :: dset k v d
  end.

Fixpoint ddel (k : K) (d : list (K * V)) : list (K * V) :=
  match d with
  | [] => []
  | (k', v') :: d => if decide (k = k') then d else (k', v') :: ddel k d
  end.

Definition dmem (k : K) (d : list (K * V)) : bool :=
  match dget k d with Some _ => true | None => false end.

Definition dkeys (d : list (K * V)) : list K := d.*1.

Lemma dget_dset_eq k v d : dget k (dset k v d) = Some v.
Proof.
  induction d as [|[k' v'] d IH]; simpl; [by rewrite decide_True|].
  destruct (decide (k = k')); simpl; [by rewrite decide_True|].
  by rewrite decide_False.
Qed.

Lemma dget_dset_ne k k' v d : k' ≠ k -> dget k' (dset k v d) = dget k' d.
Proof.
  intros Hne. induction d as [|[k1 v1] d IH]; simpl; [by rewrite decide_False|].
  destruct (decide (k = k1)) as [->|]; simpl; [by rewrite !decide_False|].
  by rewrite IH.
Qed.

Lemma dget_In k v d : dget k d = Some v -> (k, v) ∈ d.
Proof.
  induction d as [|[k' v'] d IH]; simpl; [done|].
  destruct (decide (k = k')) as [->|]; intros; simplify_eq; [left|right]; auto.
Qed.

Lemma dget_key k v d : dget k d = Some v -> k ∈ dkeys d.
Proof. intros H%dget_In. by apply (list_elem_of_fmap_2 fst) in H. Qed.

Lemma dget_None k d : dget k d = None <-> k ∉ dkeys d.
Proof.
  induction d as [|[k' v'] d IH]; simpl.
  - split; [intros _; apply not_elem_of_nil|done].
  - rewrite not_elem_of_cons, <-IH. destruct (decide (k = k')); [split; [done|by intros []] | by split; [|intros []]].
Qed.

Lemma dget_NoDup k v d : NoDup (dkeys d) -> (k, v) ∈ d -> dget k d = Some v.
Proof.
  induction d as [|[k' v'] d IH]; simpl; [set_solver|].
  intros [Hn Hd]%list.NoDup_cons [Heq|Hin]%elem_of_cons; simplify_eq.
  - by rewrite decide_True.
  - rewrite decide_False; [auto|]. intros ->. apply Hn.
    by apply (list_elem_of_fmap_2 fst) in Hin.
Qed.

Lemma dkeys_dset_mem k v d : k ∈ dkeys d -> dkeys (dset k v d) = dkeys d.
Proof.
  induction d as [|[k' v'] d IH]; simpl; [set_solver|].
  destruct (decide (k = k')) as [->|]; [done|].
  intros [?|?]%elem_of_cons; [done|]. simpl. by rewrite IH.
Qed.

Lemma dkeys_dset_new k v d : k ∉ dkeys d -> dset k v d = d ++ [(k, v)].
Proof.
  induction d as [|[k' v'] d IH]; simpl; [done|].
  intros [? ?]%not_elem_of_cons. rewrite decide_False by done. by rewrite IH.
Qed.

Lemma elem_of_dkeys_dset k k' v d : k' ∈ dkeys (dset k v d) <-> k' = k \/ k' ∈ dkeys d.
Proof.
  destruct (decide (k ∈ dkeys d)) as [Hin|Hn].
  - rewrite dkeys_dset_mem by done. set_solver.
  - rewrite dkeys_dset_new by done. unfold dkeys. rewrite fmap_app. set_solver.
Qed.

Lemma NoDup_dset k v d : NoDup (dkeys d) -> NoDup (dkeys (dset k v d)).
Proof.
  intros Hd. destruct (decide (k ∈ dkeys d)) as [Hin|Hn].
  - by rewrite dkeys_dset_mem.
  - rewrite dkeys_dset_new by done. unfold dkeys. rewrite fmap_app.
    apply list.NoDup_app. split_and!; [done|set_solver|]. apply list.NoDup_singleton.
Qed.

Lemma dmem_true k d : dmem k d = true <-> k ∈ dkeys d.
Proof.
  unfold dmem. destruct (dget k d) eqn:E.
  - split; [|done]. intros _. by eapply dget_key.
  - split; [done|]. by apply dget_None in E.
Qed.

Lemma dmem_false k d : dmem k d = false <-> k ∉ dkeys d.
Proof. rewrite <-dmem_true. by destruct (dmem k d). Qed.

Lemma dget_ddel_ne k k' d : k' ≠ k -> dget k' (ddel k d) = dget k' d.
Proof.
  intros Hne. induction d as [|[k1 v1] d IH]; simpl; [done|].
  destruct (decide (k = k1)) as [->|]; simpl.
  - by rewrite decide_False.
  - by rewrite IH.
Qed.

Lemma elem_of_dkeys_ddel k k' d : k' ∈ dkeys (ddel k d) -> k' ∈ dkeys d.
Proof.
  induction d as [|[k1 v1] d IH]; simpl; [done|].
  destruct (decide (k = k1)); simpl; set_solver.
Qed.

Lemma dget_ddel_eq k d : NoDup (dkeys d) -> dget k (ddel k d) = None.
Proof.
  induction d as [|[k1 v1] d IH]; simpl; [done|].
  intros [Hn Hd]%list.NoDup_cons. destruct (decide (k = k1)) as [->|]; simpl.
  - by apply dget_None.
  - rewrite decide_False by done. auto.
Qed.

Lemma ddel_NoDup k d : NoDup (dkeys d) -> NoDup (dkeys (ddel k d)).
Proof.
  induction d as [|[k1 v1] d IH]; simpl; [done|]. intros [Hn Hd]%list.NoDup_cons.
  destruct (decide (k = k1)); [done|]. simpl. apply list.NoDup_cons. split; [|by apply IH].
  intros Hin. apply Hn. by apply elem_of_dkeys_ddel in Hin.
Qed.
End dict.

#[export] Hint Resolve dget_dset_eq NoDup_dset : dfc.

(** ** Slices

    [slice l s e] is Python's [l[s:e]] for non-negative bounds. *)
Definition slice {A} (l : list A) (s e : nat) : list A := take (e - s) (drop s l).

(** [splice l s xs] is the slice assignment [l[s:s+len(xs)] = xs] inside bounds. *)
Definition splice {A} (l : list A) (s : nat) (xs : list A) : list A :=
  take s l ++ xs ++ drop (s + length xs) l.

Section slices.
Context {A : Type}.
Implicit Types l xs : list A.

Lemma length_slice l s e : e <= length l -> length (slice l s e) = e - s.
Proof. intros. unfold slice. rewrite length_take, length_drop. lia. Qed.

Lemma length_splice l s xs :
  s + length xs <= length l -> length (splice l s xs) = length l.
Proof. intros. unfold splice. rewrite !length_app, length_take, length_drop. lia. Qed.

Lemma lookup_splice_in l s xs i :
  s + length xs <= length l -> s <= i < s + length xs ->
  splice l s xs !! i = xs !! (i - s).
Proof.
  intros Hl Hi. unfold splice. rewrite lookup_app_r; rewrite length_take; [|lia].
  rewrite lookup_app_l by lia. f_equal. lia.
Qed.

Lemma lookup_splice_out l s xs i :
  s + length xs <= length l -> i < s \/ s + length xs <= i ->
  splice l s xs !! i = l !! i.
Proof.
  intros Hl [Hi|Hi]; unfold splice.
  - rewrite lookup_app_l by (rewrite length_take; lia). by rewrite lookup_take_lt.
  - rewrite lookup_app_r; rewrite length_take; [|lia].
    rewrite lookup_app_r by lia. rewrite lookup_drop. f_equal. lia.
Qed.

Lemma slice_splice_eq l s xs :
  s + length xs <= length l -> slice (splice l s xs) s (s + length xs) = xs.
Proof.
  intros Hl. unfold slice, splice.
  rewrite drop_app_ge by (rewrite length_take; lia).
  rewrite length_take, (min_l s) by lia. rewrite Nat.sub_diag, drop_0.
  rewrite take_app_le by lia. apply take_ge. lia.
Qed.

Lemma lookup_slice l s e i :
  i < e - s -> slice l s e !! i = l !! (s + i).
Proof. intros. unfold slice. rewrite lookup_take_lt by lia. by rewrite lookup_drop. Qed.

Lemma slice_ext l l' s e :
  length l = length l' -> e <= length l ->
  (forall i, s <= i < e -> l !! i = l' !! i) -> slice l s e = slice l' s e.
Proof.
  intros Hl He H. apply list_eq. intros i.
  destruct (decide (i < e - s)).
  - rewrite !lookup_slice by lia. apply H. lia.
  - rewrite !lookup_ge_None_2; [done| |]; rewrite length_slice; lia.
Qed.

Lemma slice_splice_disjoint l s xs a b :
  s + length xs <= length l -> b <= length l ->
  b <= s \/ s + length xs <= a -> slice (splice l s xs) a b = slice l a b.
Proof.
  intros Hl Hb Hd. apply slice_ext; rewrite ?length_splice by done; [done..|].
  intros i Hi. apply lookup_splice_out; lia.
Qed.
End slices.

(** Python's [sum] over naturals. *)
Definition nsum (l : list nat) : nat := foldr Nat.add 0 l.

Lemma nsum_app l k : nsum (l ++ k) = nsum l + nsum k.
Proof. induction l; simpl; [done|]. rewrite IHl. lia. Qed.

(** ** Stateful code

    A stateful Python routine is a function of its state.  It returns, raises, or
    is still [Running] when the observations it was given are exhausted (the model of
    a blocking loop is fed one observation per iteration). *)

Inductive outcome (A : Type) :=
  | Returned (a : A)
  | Raised (e : exn)
  | Running.

Arguments Returned {A} a.
Arguments Raised {A} e.
Arguments Running {A}.

Definition ST (S A : Type) : Type := S -> S * outcome A.

Section effects.
Context {S : Type}.

#[global] Instance st_ret : MRet (ST S) := fun A a s => (s, Returned a).
#[global] Instance st_bind : MBind (ST S) := fun A B k m s =>
  match m s with
  | (s', Returned a) => k a s'
  | (s', Raised e) => (s', Raised e)
  | (s', Running) => (s', Running)
  end.

Definition st_raise {A} (e : exn) : ST S A := fun s => (s, Raised e).
Definition st_running {A} : ST S A := fun s => (s, Running).
Definition st_get : ST S S := fun s => (s, Returned s).
Definition st_modify (f : S -> S) : ST S unit := fun s => (f s, Returned tt).
Definition st_lift {A} (c : res A) : ST S A := fun s =>
  match c with Ok a => (s, Returned a) | Raise e => (s, Raised e) end.

(** [try: m finally: f], for a cleanup [f] that does not raise. *)
Definition try_finally {A} (m : ST S A) (f : S -> S) : ST S A := fun s =>
  match m s with
  | (s', Running) => (s', Running)
  | (s', o) => (f s', o)
  end.

(** [try: m except <those accepted by p>: h]. *)
Definition try_except {A} (m : ST S A) (h : exn -> option (ST S A)) : ST S A := fun s =>
  match m s with
  | (s', Raised e) => match h e with Some k => k s' | None => (s', Raised e) end
  | r => r
  end.

(** Inversion of a routine that returned. *)
Lemma bind_returned {A B} (m : ST S A) (k : A -> ST S B) s s' b :
  (m ≫= k) s = (s', Returned b) -> exists a s1, m s = (s1, Returned a) /\ k a s1 = (s', Returned b).
Proof. unfold mbind, st_bind. destruct (m s) as [s1 [a|e|]]; try done. eauto. Qed.

Lemma lift_returned {A} (c : res A) (s s' : S) x : st_lift c s = (s', Returned x) -> c = Ok x /\ s' = s.
Proof. unfold st_lift. by destruct c; intros [= <- <-]. Qed.

(** An assertion about the states a routine goes through: every way of ending (or of
    being suspended) from a state satisfying [P] satisfies [P]. *)
Definition keeps {A} (P : S -> Prop) (m : ST S A) : Prop := forall s, P s -> P (m s).1.

Lemma keeps_ret {A} P (a : A) : keeps P (mret a).
Proof. by intros s. Qed.
Lemma keeps_raise {A} P e : keeps P (@st_raise A e).
Proof. by intros s. Qed.
Lemma keeps_running {A} P : keeps P (@st_running A).
Proof. by intros s. Qed.
Lemma keeps_get P : keeps P st_get.
Proof. by intros s. Qed.
Lemma keeps_lift {A} P (c : res A) : keeps P (st_lift c).
Proof. intros s. unfold st_lift. by destruct c. Qed.
Lemma keeps_modify P f : (forall s, P s -> P (f s)) -> keeps P (st_modify f).
Proof. intros Hf s. apply Hf. Qed.
Lemma keeps_bind {A B} P (m : ST S A) (k : A -> ST S B) :
  keeps P m -> (forall a, keeps P (k a)) -> keeps P (m ≫= k).
Proof.
  intros Hm Hk s Hs. unfold mbind, st_bind. specialize (Hm s Hs).
  destruct (m s) as [s' [a|e|]]; simpl in *; [by apply Hk|done|done].
Qed.
(** The same with a fact [Q] about the value passed on. *)
Lemma keeps_bind_val {A B} P (Q : A -> Prop) (m : ST S A) (k : A -> ST S B) :
  keeps P m -> (forall s s' a, m s = (s', Returned a) -> Q a) -> (forall a, Q a -> keeps P (k a)) ->
  keeps P (m ≫= k).
Proof.
  intros Hm HQ Hk s Hs. unfold mbind, st_bind. specialize (Hm s Hs). specialize (HQ s).
  destruct (m s) as [s' [a|e|]]; simpl in *; [apply (Hk a); eauto|done|done].
Qed.
Lemma keeps_lift_bind {A B} P (c : res A) (k : A -> ST S B) :
  (forall a, c = Ok a -> keeps P (k a)) -> keeps P (st_lift c ≫= k).
Proof.
  intros Hk s Hs. unfold mbind, st_bind, st_lift. destruct c as [a|e]; simpl; [by apply Hk|done].
Qed.
Lemma keeps_try_except {A} P (m : ST S A) h :
  keeps P m -> (forall e k, h e = Some k -> keeps P k) -> keeps P (try_except m h).
Proof.
  intros Hm Hh s Hs. unfold try_except. specialize (Hm s Hs).
  destruct (m s) as [s' [a|e|]]; simpl in *; [done| |done].
  destruct (h e) as [k|] eqn:E; [by apply (Hh e)|done].
Qed.

(** A routine that does not block: from a state satisfying [P] it returns or raises, in a
    state satisfying [P]. *)
Definition settles {A} (P : S -> Prop) (m : ST S A) : Prop :=
  forall s, P s -> P (m s).1 /\ (m s).2 ≠ Running.

Lemma settles_ret {A} P (a : A) : settles P (mret a).
Proof. by intros s. Qed.
Lemma settles_raise {A} P e : settles P (@st_raise A e).
Proof. by intros s. Qed.
Lemma settles_get P : settles P st_get.
Proof. by intros s. Qed.
Lemma settles_lift {A} P (c : res A) : settles P (st_lift c).
Proof. intros s. unfold st_lift. by destruct c. Qed.
Lemma settles_modify P f : (forall s, P s -> P (f s)) -> settles P (st_modify f).
Proof. intros Hf s Hs. split; [by apply Hf|done]. Qed.
Lemma settles_bind {A B} P (m : ST S A) (k : A -> ST S B) :
  settles P m -> (forall a, settles P (k a)) -> settles P (m ≫= k).
Proof.
  intros Hm Hk s Hs. unfold mbind, st_bind. destruct (Hm s Hs) as [H1 H2].
  destruct (m s) as [s' [a|e|]]; simpl in *; [by apply Hk|done|done].
Qed.
Lemma settles_try_except {A} P (m : ST S A) h :
  settles P m -> (forall e k, h e = Some k -> settles P k) -> settles P (try_except m h).
Proof.
  intros Hm Hh s Hs. unfold try_except. destruct (Hm s Hs) as [H1 H2].
  destruct (m s) as [s' [a|e|]]; simpl in *; [done| |done].
  destruct (h e) as [k|] eqn:E; [by apply (Hh e)|done].
Qed.

(** A triple over an invariant [P]: what is returned satisfies [Q], what is raised [E]. *)
Definition triple {A} (P : S -> Prop) (m : ST S A) (Q : A -> Prop) (E : exn -> Prop) : Prop :=
  forall s, P s -> P (m s).1 /\
    match (m s).2 with Returned a => Q a | Raised e => E e | Running => True end.

Lemma triple_ret {A} P (a : A) (Q : A -> Prop) E : Q a -> triple P (mret a) Q E.
Proof. by intros H s. Qed.
Lemma triple_raise {A} P (Q : A -> Prop) (E : exn -> Prop) e : E e -> triple P (st_raise e) Q E.
Proof. by intros H s. Qed.
Lemma triple_modify P f E : (forall s, P s -> P (f s)) -> triple P (st_modify f) (fun _ => True) E.
Proof. intros H s Hs. split; [by apply H|done]. Qed.
Lemma triple_bind {A B} P (m : ST S A) (k : A -> ST S B) Q R E :
  triple P m Q E -> (forall a, Q a -> triple P (k a) R E) -> triple P (m ≫= k) R E.
Proof.
  intros Hm Hk s Hs. unfold mbind, st_bind. destruct (Hm s Hs) as [H1 H2].
  destruct (m s) as [s' [a|e|]]; simpl in *; [by apply Hk|done|done].
Qed.
Lemma triple_get_bind {B} P (k : S -> ST S B) R E :
  (forall s, P s -> triple P (k s) R E) -> triple P (st_get ≫= k) R E.
Proof. intros Hk s Hs. by apply Hk. Qed.
Lemma triple_lift_bind {A B} P (c : res A) (k : A -> ST S B) R E :
  (forall e, c = Raise e -> E e) -> (forall a, c = Ok a -> triple P (k a) R E) ->
  triple P (st_lift c ≫= k) R E.
Proof.
  intros He Hk s Hs. unfold mbind, st_bind, st_lift. destruct c as [a|e]; simpl; [by apply Hk|eauto].
Qed.
Lemma triple_weaken {A} P (m : ST S A) (Q Q' : A -> Prop) (E E' : exn -> Prop) :
  triple P m Q E -> (forall a, Q a -> Q' a) -> (forall e, E e -> E' e) -> triple P m Q' E'.
Proof.
  intros Hm HQ HE s Hs. destruct (Hm s Hs) as [H1 H2]. split; [done|]. destruct (m s).2; eauto.
Qed.
Lemma triple_try_except {A} P (m : ST S A) h Q E E' :
  triple P m Q E -> (forall e, E e -> match h e with Some k => triple P k Q E' | None => E' e end) ->
  triple P (try_except m h) Q E'.
Proof.
  intros Hm Hh s Hs. unfold try_except. destruct (Hm s Hs) as [H1 H2].
  destruct (m s) as [s' [a|e|]]; simpl in *; [done| |done].
  specialize (Hh e H2). destruct (h e) as [k|]; [by apply Hh|done].
Qed.
End effects.

#[export] Hint Resolve settles_ret settles_raise settles_get settles_lift settles_bind : dfc.
#[export] Hint Resolve keeps_ret keeps_raise keeps_running keeps_get keeps_lift keeps_bind : dfc.

(** ** Executions

    Reflexive transitive closure of a step relation and its invariant rule. *)
Section steps.
Context {S : Type} (step : S -> S -> Prop).

Inductive steps : S -> S -> Prop :=
  | steps_refl s : steps s s
  | steps_cons s1 s2 s3 : step s1 s2 -> steps s2 s3 -> steps s1 s3.

Lemma steps_one s1 s2 : step s1 s2 -> steps s1 s2.
Proof. intros. econstructor; [done|constructor]. Qed.

Lemma steps_trans s1 s2 s3 : steps s1 s2 -> steps s2 s3 -> steps s1 s3.
Proof. induction 1; [done|]. intros. econstructor; eauto. Qed.

Lemma steps_inv (P : S -> Prop) :
  (forall s s', step s s' -> P s -> P s') ->
  forall s s', steps s s' -> P s -> P s'.
Proof. intros Hp s s'. induction 1; eauto. Qed.
End steps.

#[export] Hint Constructors steps : dfc.
