(* ===== verification/Float64.v ===== *)
(** * IEEE binary64 numbers

    Python's [float] and numpy's [float64] are IEEE binary64.  Values are the
    Standard Library's executable [spec_float] at precision 53 and exponent range
    1024: rounding, infinities, signed zeros and NaN are those of the source, and
    everything evaluates.  [float]-valued comparisons are boolean, and false on NaN. *)

From Stdlib Require Import SpecFloat.
From S2P Require Import Prelude.
Local Open Scope Z_scope.

Definition f64 := spec_float.

#[export] Instance f64_eq_dec : EqDecision f64.
Proof. intros x y. unfold Decision. repeat decide equality. Defined.

#[export] Instance f64_inhabited : Inhabited f64 := populate (S754_zero false).

Definition fadd : f64 -> f64 -> f64 := SFadd 53 1024.
Definition fsub : f64 -> f64 -> f64 := SFsub 53 1024.
Definition fmul : f64 -> f64 -> f64 := SFmul 53 1024.
Definition fdiv : f64 -> f64 -> f64 := SFdiv 53 1024.
Definition fsqrt : f64 -> f64 := SFsqrt 53 1024.
Definition fopp : f64 -> f64 := SFopp.
Definition fabs : f64 -> f64 := SFabs.
Definition flt : f64 -> f64 -> bool := SFltb.
Definition fle : f64 -> f64 -> bool := SFleb.
Definition feq : f64 -> f64 -> bool := SFeqb.

Definition f0 : f64 := S754_zero false.
(** [float(z)]: correctly rounded. *)
Definition f_of_Z (z : Z) : f64 := binary_normalize 53 1024 z 0 false.
Definition f1 : f64 := f_of_Z 1.
(** A decimal literal [n / d]: the nearest double when [n] and [d] are exact. *)
Definition fdec (n d : Z) : f64 := fdiv (f_of_Z n) (f_of_Z d).

Definition is_nan (x : f64) : bool := match x with S754_nan => true | _ => false end.
(** [math.isfinite] / [np.isfinite]. *)
Definition is_finite (x : f64) : bool :=
  match x with S754_zero _ | S754_finite _ _ _ => true | _ => false end.

(** [int(x)]: truncation toward zero; NaN and infinities raise. *)
Definition f_trunc (x : f64) : option Z :=
  match x with
  | S754_zero _ => Some 0
  | S754_finite s m e =>
      let v := if 0 <=? e then Z.pos m * 2 ^ e else Z.pos m / 2 ^ (- e) in
      Some (if s then - v else v)
  | _ => None
  end.

(** [int(round(x))]: round half to even. *)
Definition f_round (x : f64) : option Z :=
  match x with
  | S754_zero _ => Some 0
  | S754_finite s m e =>
      let v :=
        if 0 <=? e then Z.pos m * 2 ^ e
        else
          let d := 2 ^ (- e) in
          let q := Z.pos m / d in
          let r := Z.pos m mod d in
          match Z.compare (2 * r) d with
          | Lt => q
          | Gt => q + 1
          | Eq => if Z.even q then q else q + 1
          end in
      Some (if s then - v else v)
  | _ => None
  end.

(** Python's two-argument [max(a, b)] and [min(a, b)]: the first argument wins
    unless the second compares strictly beyond it. *)
Definition pmax (a b : f64) : f64 := if flt a b then b else a.
Definition pmin (a b : f64) : f64 := if flt b a then b else a.

(** [np.clip(x, lo, hi)]: NaN propagates. *)
Definition np_clip (x lo hi : f64) : f64 :=
  if is_nan x then x
  else let y := if flt x lo then lo else x in if flt hi y then hi else y.

(** [np.max] of a non-empty array: NaN propagates. *)
Definition np_max2 (a b : f64) : f64 :=
  if is_nan a then a else if is_nan b then b else if flt a b then b else a.

Fixpoint np_max_from (a : f64) (l : list f64) : f64 :=
  match l with [] => a | x :: l => np_max_from (np_max2 a x) l end.

(** [None] is the [ValueError] of a zero-size reduction. *)
Definition np_max (l : list f64) : option f64 :=
  match l with [] => None | x :: l => Some (np_max_from x l) end.

(** ** Order *)

Lemma fcompare_refl (x : f64) : is_nan x = false -> SFcompare x x = Some Eq.
Proof.
  destruct x as [s|s| |s m e]; simpl; try done; intros _; destruct s; try done;
    rewrite Z.compare_refl, ?(Pos.compare_cont_refl m Eq); done.
Qed.

Lemma fcompare_antisym (x y : f64) :
  SFcompare y x = match SFcompare x y with Some c => Some (CompOpp c) | None => None end.
Proof.
  destruct x as [s|s| |s m e], y as [s'|s'| |s' m' e']; simpl; try done;
    try (destruct s; done); try (destruct s'; done); try (destruct s, s'; done).
  rewrite (Z.compare_antisym e e').
  pose proof (Pos.compare_cont_antisym m m' Eq) as Hm. simpl in Hm.
  destruct s, s'; simpl; try done; destruct (e ?= e'); simpl; try done;
    rewrite <-Hm; by rewrite ?CompOpp_involutive.
Qed.

Lemma fcompare_nan (x y : f64) :
  SFcompare x y = None <-> is_nan x = true \/ is_nan y = true.
Proof.
  destruct x, y; simpl; try (split; [done|by intros []]); split; auto.
Qed.

Lemma fle_refl (x : f64) : is_nan x = false -> fle x x = true.
Proof. intros H. unfold fle, SFleb. by rewrite fcompare_refl. Qed.

Lemma flt_fle (x y : f64) : flt x y = true -> fle x y = true.
Proof. unfold flt, fle, SFltb, SFleb. by destruct (SFcompare x y) as [[]|]. Qed.

Lemma flt_not_fle (x y : f64) : flt x y = true -> fle y x = false.
Proof.
  unfold flt, fle, SFltb, SFleb. rewrite (fcompare_antisym x y).
  by destruct (SFcompare x y) as [[]|].
Qed.

Lemma not_flt_fle (x y : f64) :
  is_nan x = false -> is_nan y = false -> flt x y = false -> fle y x = true.
Proof.
  intros Hx Hy. unfold flt, fle, SFltb, SFleb. rewrite (fcompare_antisym x y).
  destruct (SFcompare x y) as [[]|] eqn:E; try done.
  apply fcompare_nan in E as [?|?]; congruence.
Qed.

Lemma not_fle_flt (x y : f64) :
  is_nan x = false -> is_nan y = false -> fle x y = false -> flt y x = true.
Proof.
  intros Hx Hy. unfold flt, fle, SFltb, SFleb. rewrite (fcompare_antisym x y).
  destruct (SFcompare x y) as [[]|] eqn:E; try done.
  apply fcompare_nan in E as [?|?]; congruence.
Qed.

Lemma flt_nan_l (x y : f64) : is_nan x = true -> flt x y = false.
Proof. by destruct x. Qed.

Lemma flt_nan_r (x y : f64) : is_nan y = true -> flt x y = false.
Proof. by destruct x, y. Qed.

Lemma fle_not_nan (x y : f64) : fle x y = true -> is_nan x = false /\ is_nan y = false.
Proof. by destruct x, y. Qed.

#[export] Hint Resolve fle_refl flt_fle : dfc.

(** Python's [min(hi, max(lo, x))] lands in [lo, hi] for every [x], NaN included. *)
Lemma pclamp_bounds (lo hi x : f64) :
  fle lo hi = true ->
  fle lo (pmin hi (pmax lo x)) = true /\ fle (pmin hi (pmax lo x)) hi = true.
Proof.
  intros Hb. destruct (fle_not_nan _ _ Hb) as [Hlo Hhi].
  unfold pmin. destruct (flt (pmax lo x) hi) eqn:E.
  - split; [|by apply flt_fle]. unfold pmax in *. destruct (flt lo x) eqn:E'; auto with dfc.
  - split; [done|auto with dfc].
Qed.

(** [np.clip] lands in [lo, hi] unless its argument is NaN, which it returns. *)
Lemma np_clip_bounds (lo hi x : f64) :
  fle lo hi = true -> is_nan x = false ->
  fle lo (np_clip x lo hi) = true /\ fle (np_clip x lo hi) hi = true.
Proof.
  intros Hb Hx. destruct (fle_not_nan _ _ Hb) as [Hlo Hhi].
  unfold np_clip. rewrite Hx. destruct (flt x lo) eqn:E1.
  - destruct (flt hi lo) eqn:E2; [|auto with dfc].
    apply flt_not_fle in E2. congruence.
  - apply not_flt_fle in E1; [|done..]. destruct (flt hi x) eqn:E2; [auto with dfc|].
    split; [done|by apply not_flt_fle].
Qed.

Lemma np_clip_nan (lo hi x : f64) : is_nan x = true -> np_clip x lo hi = x.
Proof. unfold np_clip. by intros ->. Qed.

(** Non-NaN values are ordered lexicographically by (class, exponent, mantissa). *)
Definition fkey (x : f64) : Z * Z * Z :=
  match x with
  | S754_infinity true => (-2, 0, 0)
  | S754_finite true m e => (-1, - e, Z.neg m)
  | S754_zero _ | S754_nan => (0, 0, 0)
  | S754_finite false m e => (1, e, Z.pos m)
  | S754_infinity false => (2, 0, 0)
  end.

Definition key_le (a b : Z * Z * Z) : Prop :=
  a.1.1 < b.1.1 \/ (a.1.1 = b.1.1 /\ (a.1.2 < b.1.2 \/ (a.1.2 = b.1.2 /\ a.2 <= b.2))).

Lemma fle_key (x y : f64) :
  is_nan x = false -> is_nan y = false -> fle x y = true <-> key_le (fkey x) (fkey y).
Proof.
  unfold fle, SFleb, key_le. destruct x as [s|s| |s m e], y as [s'|s'| |s' m' e']; simpl; try done;
    intros _ _; try (destruct s; simpl); try (destruct s'; simpl); try (split; [lia|done]);
    try (split; [done|lia]).
  - change (Pos.compare_cont Eq m m') with (Pos.compare m m').
    destruct (Z.compare_spec e e'); simpl; [|split; [done|lia]|split; [lia|done]].
    destruct (Pos.compare_spec m m'); simpl; split; intros; try done; lia.
  - change (Pos.compare_cont Eq m m') with (Pos.compare m m').
    destruct (Z.compare_spec e e'); simpl; [|split; [lia|done]|split; [done|lia]].
    destruct (Pos.compare_spec m m'); simpl; split; intros; try done; lia.
Qed.

Lemma fle_trans (x y z : f64) : fle x y = true -> fle y z = true -> fle x z = true.
Proof.
  intros Hxy Hyz. destruct (fle_not_nan _ _ Hxy), (fle_not_nan _ _ Hyz).
  apply fle_key in Hxy; [|done..]. apply fle_key in Hyz; [|done..].
  apply fle_key; [done..|]. unfold key_le in *. lia.
Qed.

(** A non-NaN [np.max] bounds every element, and is one of them. *)
Lemma fsub_fadd x y : fsub x y = fadd x (fopp y).
Proof.
  unfold fsub, fadd, fopp. destruct x as [sx|sx| |sx mx ex], y as [sy|sy| |sy my ey]; simpl; try done;
    by destruct sx, sy.
Qed.

Lemma np_max_from_bound (l : list f64) (a m : f64) :
  np_max_from a l = m -> is_nan m = false ->
  is_nan a = false /\ fle a m = true /\ Forall (fun x => fle x m = true) l.
Proof.
  revert a. induction l as [|x l IH]; intros a; simpl; [intros -> Hm; auto with dfc|].
  intros Hm Hn. destruct (IH _ Hm Hn) as (Hn2 & Hle & Hl). unfold np_max2 in Hn2, Hle.
  destruct (is_nan a) eqn:Ea; [congruence|]. destruct (is_nan x) eqn:Ex; [congruence|].
  destruct (flt a x) eqn:E.
  - split_and!; [done| |by constructor]. eapply fle_trans; [by apply flt_fle|done].
  - split_and!; [done|done|]. constructor; [|done].
    eapply fle_trans; [|exact Hle]. by apply not_flt_fle.
Qed.

Lemma np_max_bound (l : list f64) (m : f64) :
  np_max l = Some m -> is_nan m = false -> Forall (fun x => fle x m = true) l.
Proof.
  destruct l as [|x l]; simpl; [done|]. intros [= Hm] Hn.
  destruct (np_max_from_bound _ _ _ Hm Hn) as (_ & ? & ?). by constructor.
Qed.

Lemma np_max_from_nan (l : list f64) (a : f64) :
  is_nan (np_max_from a l) = true -> is_nan a = true \/ Exists (fun x => is_nan x = true) l.
Proof.
  revert a. induction l as [|x l IH]; intros a; simpl; [by left|].
  intros [Hn|Hn]%IH; [|by right; right]. unfold np_max2 in Hn.
  destruct (is_nan a) eqn:Ea; [by left|]. destruct (is_nan x) eqn:Ex; [by right; left|].
  right. left. destruct (flt a x); congruence.
Qed.

Lemma np_max_nan (l : list f64) (m : f64) :
  np_max l = Some m -> is_nan m = true -> Exists (fun x => is_nan x = true) l.
Proof.
  destruct l as [|x l]; simpl; [done|]. intros [= <-] [Hn|Hn]%np_max_from_nan; [by left|by right].
Qed.

(** Integers of moderate size convert exactly: sample values used by the models. *)
Lemma f_round_small :
  Forall (fun z => f_round (f_of_Z z) = Some z) [0; 1; 2; 3; 4].
Proof. repeat constructor. Qed.
