(* ===== verification/Ring.v ===== *)
(** * The shared-memory ring buffer ([streams/ring.py])

    One [SharedRingBuffer] is a segment with a header, a per-slot sequence stamp,
    a per-slot timestamp and a per-slot payload row.  This file models

    - the segment layout ([_shm_size] and the region offsets of [__init__]),
      [create] and [attach];
    - [append] as the producer executes it, and the same publication as a machine
      of single stores ([pstep]), so that a reader can run between any two stores;
    - [last] and [latest] as sequences of single loads, each taking place at its
      own instant of a producer execution (the seqlock read with its retries).

    Loads and stores are atomic and in program order, as [ring.py] documents for
    aligned 8-byte accesses on x86-64 (one writer: total store order and
    sequential consistency agree).  The payload store is the exception: while it
    runs, the row may hold anything. *)

From S2P Require Import Prelude.
Local Open Scope Z_scope.

(** ** Element types and the header *)

Inductive dtype := Float32 | Float64 | UInt8 | UInt16.

#[export] Instance dtype_eq_dec : EqDecision dtype.
Proof. solve_decision. Defined.

Definition itemsize (d : dtype) : Z :=
  match d with Float32 => 4 | Float64 => 8 | UInt8 => 1 | UInt16 => 2 end.

(** [_DTYPE_TO_CODE] / [_CODE_TO_DTYPE]. *)
Definition dtype_to_code (d : dtype) : Z :=
  match d with Float32 => 0 | Float64 => 1 | UInt8 => 2 | UInt16 => 3 end.

Definition code_to_dtype (c : Z) : option dtype :=
  if Z.eqb c 0 then Some Float32
  else if Z.eqb c 1 then Some Float64
  else if Z.eqb c 2 then Some UInt8
  else if Z.eqb c 3 then Some UInt16
  else None.

Definition HEADER_LEN : Z := 8.
Definition H_MAGIC : nat := 0.
Definition H_VERSION : nat := 1.
Definition H_CAPACITY : nat := 2.
Definition H_DIM : nat := 3.
Definition H_DTYPE_CODE : nat := 4.
Definition H_WRITE_COUNT : nat := 5.

(** [_MAGIC = 0x44464252_52494E47 & 0x7FFFFFFFFFFFFFFF]. *)
Definition MAGIC : Z := Z.land 0x4446425252494E47 0x7FFFFFFFFFFFFFFF.
Definition VERSION : Z := 1.
Definition READ_RETRIES : nat := 4.

(** ** Segment layout *)

Definition shm_size (capacity dim item : Z) : Z :=
  (HEADER_LEN + 2 * capacity) * 8 + capacity * dim * item.

Definition seq_off : Z := HEADER_LEN * 8.
Definition ts_off (capacity : Z) : Z := seq_off + capacity * 8.
Definition data_off (capacity : Z) : Z := ts_off capacity + capacity * 8.

(** ** The segment and the ring object *)

Section ring.
Context {V : Type} `{Inhabited V}.
(** The element cast [np.ascontiguousarray(vec, dtype=self._dtype)]. *)
Context (cast : dtype -> V -> V).

Record segment := Segment {
  header : list Z;
  stamps : list Z;
  times : list Z;
  rows : list (list V);
}.

Record ring := Ring {
  shm : segment;
  capacity : Z;
  dim : Z;
  rdtype : dtype;
}.

(** A batch of recent samples, oldest first ([Samples]). *)
Record samples := Samples {
  s_data : list (list V);
  s_t_ns : list Z;
  s_seq : list Z;
  s_overrun : bool;
}.

Definition samples_n (s : samples) : nat := length (s_data s).
Definition newest (s : samples) : option (list V) := list.last (s_data s).
Definition newest_t_ns (s : samples) : option Z := list.last (s_t_ns s).

(** [_empty]. *)
Definition empty_samples : samples := Samples [] [] [] false.

Definition write_count (m : segment) : Z := header m !!! H_WRITE_COUNT.

Definition set_stamp (m : segment) (slot : nat) (v : Z) : segment :=
  Segment (header m) (<[slot := v]> (stamps m)) (times m) (rows m).
Definition set_time (m : segment) (slot : nat) (v : Z) : segment :=
  Segment (header m) (stamps m) (<[slot := v]> (times m)) (rows m).
Definition set_row (m : segment) (slot : nat) (v : list V) : segment :=
  Segment (header m) (stamps m) (times m) (<[slot := v]> (rows m)).
Definition set_count (m : segment) (v : Z) : segment :=
  Segment (<[H_WRITE_COUNT := v]> (header m)) (stamps m) (times m) (rows m).

(** [np.dtype(name)] restricted to the dtypes the ring supports. *)
Definition dtype_of_name (name : string) : option dtype :=
  if String.eqb name "float32" then Some Float32
  else if String.eqb name "float64" then Some Float64
  else if String.eqb name "uint8" then Some UInt8
  else if String.eqb name "uint16" then Some UInt16
  else None.

(** [SharedRingBuffer.__init__]: validate the magic and read the geometry. *)
Definition ring_init (m : segment) : res ring :=
  if negb (header m !!! H_MAGIC =? MAGIC) then Raise ValueError
  else
    let? d := of_option KeyError (code_to_dtype (header m !!! H_DTYPE_CODE)) in
    Ok (Ring m (header m !!! H_CAPACITY) (header m !!! H_DIM) d).

(** The stores of [SharedRingBuffer.create], in order, over the zero-filled
    pages of a new segment ([blank] is the all-zero element). *)
Definition create_segment (blank : V) (cap dm : Z) (d : dtype) : segment :=
  let h := replicate (Z.to_nat HEADER_LEN) 0 in
  let h := <[H_CAPACITY := cap]> h in
  let h := <[H_DIM := dm]> h in
  let h := <[H_DTYPE_CODE := dtype_to_code d]> h in
  let h := <[H_VERSION := VERSION]> h in
  let h := <[H_WRITE_COUNT := 0]> h in
  let sq := replicate (Z.to_nat cap) (-1) in
  let h := <[H_MAGIC := MAGIC]> h in
  Segment h sq (replicate (Z.to_nat cap) 0)
    (replicate (Z.to_nat cap) (replicate (Z.to_nat dm) blank)).

Definition ring_create (blank : V) (cap dm : Z) (dname : string) : res ring :=
  match dtype_of_name dname with
  | None => Raise ValueError
  | Some d => ring_init (create_segment blank cap dm d)
  end.

(** [SharedRingBuffer.attach]: the constructor over the mapped segment. *)
Definition ring_attach (m : segment) : res ring := ring_init m.

(** [SharedRingBuffer.append]. *)
Definition append (r : ring) (vec : list V) (t : Z) : res (ring * Z) :=
  let vec := cast (rdtype r) <$> vec in
  if negb (Z.of_nat (length vec) =? dim r) then Raise ValueError
  else
    let m := shm r in
    let idx := write_count m in
    let slot := Z.to_nat (idx mod capacity r) in
    let m := set_stamp m slot (-1) in
    let m := set_row m slot vec in
    let m := set_time m slot t in
    let m := set_stamp m slot idx in
    let m := set_count m (idx + 1) in
    Ok (Ring m (capacity r) (dim r) (rdtype r), idx).

(** ** The producer, one store at a time *)

Inductive pc :=
  | Idle
  | Writing (vec : list V) (t idx : Z)
  | Stamping (vec : list V) (t idx : Z)
  | Publishing (vec : list V) (t idx : Z)
  | Counting (vec : list V) (t idx : Z).

(** [hist] is ghost state: every sample whose [append] has started. *)
Record pstate := PState { mem : segment; ctl : pc; hist : list (list V * Z) }.

Definition slot_of (cap idx : Z) : nat := Z.to_nat (idx mod cap).

Inductive pstep (cap dm : Z) : pstate -> pstate -> Prop :=
  | p_invalidate m h vec t :
      Z.of_nat (length vec) = dm ->
      pstep cap dm (PState m Idle h)
        (PState (set_stamp m (slot_of cap (write_count m)) (-1))
           (Writing vec t (write_count m)) (h ++ [(vec, t)]))
  | p_torn m h vec t idx row :
      Z.of_nat (length row) = dm ->
      pstep cap dm (PState m (Writing vec t idx) h)
        (PState (set_row m (slot_of cap idx) row) (Writing vec t idx) h)
  | p_row m h vec t idx :
      pstep cap dm (PState m (Writing vec t idx) h)
        (PState (set_row m (slot_of cap idx) vec) (Stamping vec t idx) h)
  | p_time m h vec t idx :
      pstep cap dm (PState m (Stamping vec t idx) h)
        (PState (set_time m (slot_of cap idx) t) (Publishing vec t idx) h)
  | p_publish m h vec t idx :
      pstep cap dm (PState m (Publishing vec t idx) h)
        (PState (set_stamp m (slot_of cap idx) idx) (Counting vec t idx) h)
  | p_count m h vec t idx :
      pstep cap dm (PState m (Counting vec t idx) h)
        (PState (set_count m (idx + 1)) Idle h).

(** ** The reader, one load at a time

    [μ n] is the segment at instant [n]; the [k]-th load of the read happens at
    instant [clk k]. *)

Definition read_stamps (μ : nat -> segment) (clk : nat -> nat) (k : nat)
    (slots : list nat) : list Z :=
  imap (fun i s => stamps (μ (clk (k + i)%nat)) !!! s) slots.

Definition read_times (μ : nat -> segment) (clk : nat -> nat) (k : nat)
    (slots : list nat) : list Z :=
  imap (fun i s => times (μ (clk (k + i)%nat)) !!! s) slots.

(** A fancy-indexed copy loads every element of every row separately. *)
Definition read_rows (μ : nat -> segment) (clk : nat -> nat) (k dm : nat)
    (slots : list nat) : list (list V) :=
  imap (fun i s =>
    (fun j => (rows (μ (clk (k + i * dm + j)%nat)) !!! s) !!! j) <$> List.seq 0 dm)
    slots.

(** One plus the position of the last [false] ([bad[-1] + 1]), or 0. *)
Fixpoint after_last_bad (ok : list bool) : nat :=
  match ok with
  | [] => 0
  | b :: ok =>
      match after_last_bad ok with
      | O => if b then 0 else 1
      | S n => S (S n)
      end
  end.

Inductive attempt_result :=
  | Return (s : samples)
  | Retry (last_ok : option samples).

(** One iteration of the retry loop of [last]; also the next load number. *)
Definition attempt (μ : nat -> segment) (clk : nat -> nat) (cap : Z) (dm : nat)
    (kreq : Z) (k : nat) : attempt_result * nat :=
  let wc := write_count (μ (clk k)) in
  if wc <=? 0 then (Return empty_samples, S k)
  else
    let n := Z.min kreq (Z.min cap wc) in
    let gidx := seqZ (wc - n) n in
    let slots := slot_of cap <$> gidx in
    let k1 := S k in
    let s1 := read_stamps μ clk k1 slots in
    let k2 := (k1 + length slots)%nat in
    let dat := read_rows μ clk k2 dm slots in
    let k3 := (k2 + length slots * dm)%nat in
    let ts := read_times μ clk k3 slots in
    let k4 := (k3 + length slots)%nat in
    let s2 := read_stamps μ clk k4 slots in
    let k5 := (k4 + length slots)%nat in
    let ok := zip_with andb (zip_with Z.eqb s1 gidx) (zip_with Z.eqb s2 gidx) in
    if forallb id ok then (Return (Samples dat ts gidx false), k5)
    else
      let start := after_last_bad ok in
      (Retry (if (Z.of_nat start <? n)
              then Some (Samples (drop start dat) (drop start ts) (drop start gidx) true)
              else None), k5).

Fixpoint last_loop (μ : nat -> segment) (clk : nat -> nat) (cap : Z) (dm : nat)
    (kreq : Z) (retries k : nat) (last_ok : option samples) : samples :=
  match retries with
  | O => default empty_samples last_ok
  | S retries =>
      match attempt μ clk cap dm kreq k with
      | (Return s, _) => s
      | (Retry None, k') => last_loop μ clk cap dm kreq retries k' last_ok
      | (Retry (Some s), k') => last_loop μ clk cap dm kreq retries k' (Some s)
      end
  end.

(** [SharedRingBuffer.last] run by a reader whose first load is number [0]. *)
Definition last (μ : nat -> segment) (clk : nat -> nat) (cap dm kreq : Z) : samples :=
  if kreq <=? 0 then empty_samples
  else last_loop μ clk cap (Z.to_nat dm) kreq READ_RETRIES 0 None.

(** The same read while the producer does not move. *)
Definition ring_last (r : ring) (kreq : Z) : samples :=
  last (fun _ => shm r) (fun _ => 0%nat) (capacity r) (dim r) kreq.

Definition latest (r : ring) : samples := ring_last r 1.
End ring.

Arguments segment V : clear implicits.
Arguments ring V : clear implicits.
Arguments samples V : clear implicits.
Arguments pstate V : clear implicits.
Arguments pc V : clear implicits.

(** ** Invariant of the producer machine *)

Section seqlock.
Context {V : Type} `{Inhabited V}.
Context (cap dm : Z) (Hcap : 0 < cap) (Hdm : 0 <= dm).
Implicit Types (m : segment V) (s : pstate V) (h : list (list V * Z)).

Record seg_ok m : Prop := {
  ok_header : length (header m) = Z.to_nat HEADER_LEN;
  ok_stamps : length (stamps m) = Z.to_nat cap;
  ok_times : length (times m) = Z.to_nat cap;
  ok_rows : length (rows m) = Z.to_nat cap;
}.

(** A stamped slot holds exactly the sample its stamp names. *)
Definition stamped_ok m h : Prop :=
  forall slot g, stamps m !! slot = Some g -> g ≠ -1 ->
    0 <= g /\ slot = slot_of cap g /\
    exists v t, h !! Z.to_nat g = Some (v, t) /\ Z.of_nat (length v) = dm /\
      rows m !! slot = Some v /\ times m !! slot = Some t.

Definition in_flight m h (v : list V) (t idx : Z) : Prop :=
  idx = write_count m /\ 0 <= idx /\ Z.of_nat (length h) = idx + 1 /\
  h !! Z.to_nat idx = Some (v, t) /\ Z.of_nat (length v) = dm.

Definition ctl_ok m h (c : pc V) : Prop :=
  match c with
  | Idle => write_count m = Z.of_nat (length h)
  | Writing v t idx =>
      in_flight m h v t idx /\ stamps m !! slot_of cap idx = Some (-1)
  | Stamping v t idx =>
      in_flight m h v t idx /\ stamps m !! slot_of cap idx = Some (-1) /\
      rows m !! slot_of cap idx = Some v
  | Publishing v t idx =>
      in_flight m h v t idx /\ stamps m !! slot_of cap idx = Some (-1) /\
      rows m !! slot_of cap idx = Some v /\ times m !! slot_of cap idx = Some t
  | Counting v t idx =>
      in_flight m h v t idx /\ stamps m !! slot_of cap idx = Some idx
  end.

Definition ring_inv s : Prop :=
  seg_ok (mem s) /\ stamped_ok (mem s) (hist s) /\ ctl_ok (mem s) (hist s) (ctl s).

Lemma slot_of_lt idx : (slot_of cap idx < Z.to_nat cap)%nat.
Proof. unfold slot_of. pose proof (Z.mod_pos_bound idx cap Hcap). lia. Qed.

Lemma seg_ok_set_stamp m i v : seg_ok m -> seg_ok (set_stamp m i v).
Proof. intros []. split; simpl; rewrite ?length_insert; done. Qed.
Lemma seg_ok_set_time m i v : seg_ok m -> seg_ok (set_time m i v).
Proof. intros []. split; simpl; rewrite ?length_insert; done. Qed.
Lemma seg_ok_set_row m i v : seg_ok m -> seg_ok (set_row m i v).
Proof. intros []. split; simpl; rewrite ?length_insert; done. Qed.
Lemma seg_ok_set_count m v : seg_ok m -> seg_ok (set_count m v).
Proof. intros []. split; simpl; rewrite ?length_insert; done. Qed.

Hint Resolve seg_ok_set_stamp seg_ok_set_time seg_ok_set_row seg_ok_set_count : dfc.

Lemma write_count_set_count m v : seg_ok m -> write_count (set_count m v) = v.
Proof.
  intros [Hh _ _ _]. unfold write_count. simpl.
  apply list_lookup_total_insert_eq. rewrite Hh. unfold H_WRITE_COUNT, HEADER_LEN. lia.
Qed.

(** Changing a slot whose stamp is dirty keeps every stamped slot intact. *)
Lemma stamped_ok_dirty m m' h slot :
  stamps m !! slot = Some (-1) -> stamps m' = stamps m ->
  (forall i, i ≠ slot -> rows m' !! i = rows m !! i /\ times m' !! i = times m !! i) ->
  stamped_ok m h -> stamped_ok m' h.
Proof.
  intros Hd Hs Hoth Hok i g Hi Hg. rewrite Hs in Hi.
  destruct (decide (i = slot)) as [->|Hne]; [congruence|].
  destruct (Hoth i Hne) as [-> ->]. by apply Hok.
Qed.

Lemma stamped_ok_invalidate m h x slot :
  stamped_ok m h -> stamped_ok (set_stamp m slot (-1)) (h ++ [x]).
Proof.
  intros Hok i g Hi Hg. simpl in *.
  apply list_lookup_insert_Some in Hi as [(-> & <- & _)|[_ Hi]]; [done|].
  destruct (Hok i g Hi Hg) as (? & ? & v & t & Hh & ?).
  split_and!; [done..|]. exists v, t. split; [|done]. by apply lookup_app_l_Some.
Qed.

Lemma pstep_inv s s' : pstep cap dm s s' -> ring_inv s -> ring_inv s'.
Proof.
  destruct 1 as [m h vec t Hl|m h vec t idx row Hl|m h vec t idx|m h vec t idx
                |m h vec t idx|m h vec t idx];
    intros (Hseg & Hst & Hc); unfold ring_inv; simpl in *;
    pose proof Hseg as [Lh Ls Lt Lr].
  - split_and!; [auto with dfc|by apply stamped_ok_invalidate| |].
    + unfold in_flight. rewrite length_app. simpl.
      split_and!; [done|lia|lia| |done].
      apply lookup_app_Some. right. rewrite Hc. split; [lia|].
      by rewrite Nat2Z.id, Nat.sub_diag.
    + apply list_lookup_insert_eq. rewrite Ls. apply slot_of_lt.
  - destruct Hc as [Hf Hd]. split_and!; auto with dfc.
    eapply (stamped_ok_dirty m); [done|done| |done].
    intros i Hi. simpl. by rewrite list_lookup_insert_ne by done.
  - destruct Hc as [Hf Hd]. split_and!; auto with dfc.
    + eapply (stamped_ok_dirty m); [done|done| |done].
      intros i Hi. simpl. by rewrite list_lookup_insert_ne by done.
    + apply list_lookup_insert_eq. rewrite Lr. apply slot_of_lt.
  - destruct Hc as (Hf & Hd & Hr). split_and!; auto with dfc.
    + eapply (stamped_ok_dirty m); [done|done| |done].
      intros i Hi. simpl. by rewrite list_lookup_insert_ne by done.
    + apply list_lookup_insert_eq. rewrite Lt. apply slot_of_lt.
  - destruct Hc as (Hf & Hd & Hr & Ht). split_and!; auto with dfc.
    + intros i g Hi Hg. simpl in *.
      apply list_lookup_insert_Some in Hi as [(<- & <- & _)|[_ Hi]]; [|by apply Hst].
      destruct Hf as (? & ? & ? & Hh & ?). split_and!; [done..|]. by exists vec, t.
    + apply list_lookup_insert_eq. rewrite Ls. apply slot_of_lt.
  - destruct Hc as ((? & ? & Hlen & ? & ?) & Hd).
    split_and!; [auto with dfc|by apply Hst|].
    rewrite write_count_set_count by done. lia.
Qed.

(** ** Executions *)

Definition ring_start (blank : V) (d : dtype) : pstate V :=
  PState (create_segment blank cap dm d) Idle [].

(** At each instant the producer makes one store or does nothing. *)
Definition execution (σ : nat -> pstate V) : Prop :=
  (exists blank d, σ 0%nat = ring_start blank d) /\
  forall n, σ (S n) = σ n \/ pstep cap dm (σ n) (σ (S n)).

Definition monotone_clock (clk : nat -> nat) : Prop :=
  forall i j, (i <= j)%nat -> (clk i <= clk j)%nat.

Lemma ring_start_inv blank d : ring_inv (ring_start blank d).
Proof.
  split_and!; [split; simpl; rewrite ?length_insert, ?length_replicate; done| |done].
  intros i g Hi Hg. simpl in Hi. apply lookup_replicate in Hi as [-> _]. done.
Qed.

Lemma execution_inv σ n : execution σ -> ring_inv (σ n).
Proof.
  intros [(b & d & H0) Hs]. induction n as [|n IH].
  - rewrite H0. apply ring_start_inv.
  - destruct (Hs n) as [->|Hp]; [done|]. by eapply pstep_inv.
Qed.

Lemma pstep_hist s s' : pstep cap dm s s' -> hist s `prefix_of` hist s'.
Proof. destruct 1; simpl; try done. by apply prefix_app_r. Qed.

Lemma pstep_count s s' :
  ring_inv s -> pstep cap dm s s' -> write_count (mem s) <= write_count (mem s').
Proof.
  intros (Hseg & _ & Hc). destruct 1; simpl in *; try done.
  rewrite write_count_set_count by done. destruct Hc as ((-> & _) & _). lia.
Qed.

Lemma execution_mono σ a b :
  execution σ -> (a <= b)%nat ->
  hist (σ a) `prefix_of` hist (σ b) /\ write_count (mem (σ a)) <= write_count (mem (σ b)).
Proof.
  intros He Hab. induction Hab as [|b Hab [IH1 IH2]]; [done|].
  pose proof (proj2 He b) as [->|Hp]; [done|].
  pose proof (pstep_hist _ _ Hp). pose proof (pstep_count _ _ (execution_inv _ b He) Hp).
  split; [by etrans|lia].
Qed.

(** ** A stamp never comes back

    Once a slot has been invalidated after carrying stamp [g], it never carries
    [g] again: so two equal observations of a stamp enclose an interval during
    which the slot was not touched. *)

Definition retired s (slot : nat) (g : Z) : Prop :=
  g < Z.of_nat (length (hist s)) /\ stamps (mem s) !! slot ≠ Some g /\
  match ctl s with
  | Idle => True
  | Writing _ _ idx | Stamping _ _ idx | Publishing _ _ idx | Counting _ _ idx => idx ≠ g
  end.

Lemma stamp_bound s slot g :
  ring_inv s -> stamps (mem s) !! slot = Some g -> g ≠ -1 ->
  0 <= g < Z.of_nat (length (hist s)).
Proof.
  intros (_ & Hst & _) Hs Hg. destruct (Hst slot g Hs Hg) as (? & _ & v & t & Hl & _).
  apply lookup_lt_Some in Hl. lia.
Qed.

Lemma retired_step s s' slot g :
  0 <= g -> ring_inv s -> pstep cap dm s s' -> retired s slot g -> retired s' slot g.
Proof.
  intros Hg (Hseg & _ & Hc) Hp (Hlt & Hne & Hcl).
  destruct Hp; unfold retired; simpl in *; try (split_and!; done).
  - rewrite length_app. simpl. split_and!; [lia| |lia].
    rewrite list_lookup_insert_Some. intros [(_ & ? & _)|[_ ?]]; [lia|done].
  - split_and!; [done| |done].
    rewrite list_lookup_insert_Some. intros [(_ & ? & _)|[_ ?]]; done.
Qed.

Lemma live_step s s' slot g :
  0 <= g -> ring_inv s -> pstep cap dm s s' ->
  stamps (mem s) !! slot = Some g ->
  stamps (mem s') !! slot = Some g \/ retired s' slot g.
Proof.
  intros Hg Hinv Hp Hs. pose proof (stamp_bound _ _ _ Hinv Hs ltac:(lia)) as Hb.
  destruct Hinv as (Hseg & _ & Hc). destruct Hp; simpl in *; auto.
  - destruct (decide (slot_of cap (write_count m) = slot)) as [<-|Hn].
    + right. unfold retired. simpl. rewrite length_app. simpl. split_and!; [lia| |lia].
      rewrite list_lookup_insert_eq; [intros ?; simplify_eq; lia|].
      by apply lookup_lt_Some in Hs.
    + left. by rewrite list_lookup_insert_ne.
  - left. rewrite list_lookup_insert_ne; [done|].
    intros <-. destruct Hc as (_ & Hd & _). rewrite Hd in Hs. simplify_eq. lia.
Qed.

Lemma live_or_retired σ a b slot g :
  execution σ -> (a <= b)%nat -> 0 <= g ->
  stamps (mem (σ a)) !! slot = Some g ->
  stamps (mem (σ b)) !! slot = Some g \/ retired (σ b) slot g.
Proof.
  intros He Hab Hg Ha. induction Hab as [|b Hab IH]; [by left|].
  pose proof (execution_inv _ b He) as Hinv.
  destruct (proj2 He b) as [->|Hp]; [done|].
  destruct IH as [Hl|Hr]; [by eapply live_step|].
  right. by eapply retired_step.
Qed.

Lemma retired_forever σ a b slot g :
  execution σ -> (a <= b)%nat -> 0 <= g -> retired (σ a) slot g -> retired (σ b) slot g.
Proof.
  intros He Hab Hg Ha. induction Hab as [|b Hab IH]; [done|].
  destruct (proj2 He b) as [->|Hp]; [done|].
  eapply retired_step; eauto using execution_inv.
Qed.

Lemma stamp_stable σ a b c slot g :
  execution σ -> (a <= c)%nat -> (c <= b)%nat -> 0 <= g ->
  stamps (mem (σ a)) !! slot = Some g -> stamps (mem (σ b)) !! slot = Some g ->
  stamps (mem (σ c)) !! slot = Some g.
Proof.
  intros He Hac Hcb Hg Ha Hb.
  destruct (live_or_retired σ a c slot g) as [?|Hr]; [done..|].
  apply (retired_forever σ c b) in Hr as (_ & Hr & _); done.
Qed.

(** ** What a read returns *)

(** Sample [g] of the stream, as published at some instant. *)
Definition recorded (σ : nat -> pstate V) (g : Z) (v : list V) (t : Z) : Prop :=
  0 <= g /\ exists n, hist (σ n) !! Z.to_nat g = Some (v, t).

Lemma recorded_unique σ g v t v' t' :
  execution σ -> recorded σ g v t -> recorded σ g v' t' -> v = v' /\ t = t'.
Proof.
  intros He (_ & n & Hn) (_ & n' & Hn').
  destruct (Nat.le_ge_cases n n') as [Hle|Hle];
    destruct (execution_mono σ _ _ He Hle) as [Hp _].
  - pose proof (prefix_lookup_Some _ _ _ _ Hn Hp). simplify_eq. done.
  - pose proof (prefix_lookup_Some _ _ _ _ Hn' Hp). simplify_eq. done.
Qed.

Record batch_ok (σ : nat -> pstate V) (b : samples V) : Prop := {
  batch_data_len : length (s_data b) = length (s_seq b);
  batch_time_len : length (s_t_ns b) = length (s_seq b);
  batch_rows : forall i g, s_seq b !! i = Some g ->
    exists v t, recorded σ g v t /\ s_data b !! i = Some v /\ s_t_ns b !! i = Some t;
  batch_gapless : exists g0, s_seq b = seqZ g0 (Z.of_nat (length (s_seq b)));
}.

Lemma batch_ok_empty σ : batch_ok σ empty_samples.
Proof. split; [done|done|done|by exists 0]. Qed.

Lemma drop_seqZ n g l :
  drop n (seqZ g (Z.of_nat l)) = seqZ (g + Z.of_nat n) (Z.of_nat (l - n)).
Proof.
  apply list_eq. intros i. rewrite lookup_drop.
  destruct (decide (n + i < l)%nat).
  - rewrite !lookup_seqZ_lt by lia. f_equal. lia.
  - rewrite !lookup_seqZ_ge by lia. done.
Qed.

Lemma batch_ok_drop σ b n ov :
  batch_ok σ b ->
  batch_ok σ (Samples (drop n (s_data b)) (drop n (s_t_ns b)) (drop n (s_seq b)) ov).
Proof.
  intros [Hd Ht Hr [g0 Hg]]. split; simpl; rewrite ?length_drop; [lia|lia| |].
  - intros i g. rewrite !lookup_drop. apply Hr.
  - exists (g0 + Z.of_nat n). rewrite Hg at 1. by rewrite drop_seqZ.
Qed.

Lemma after_last_bad_spec ok i :
  (after_last_bad ok <= i)%nat -> (i < length ok)%nat -> ok !! i = Some true.
Proof.
  revert i. induction ok as [|b ok IH]; intros i Hle Hlt; simpl in *; [lia|].
  destruct (after_last_bad ok) as [|n] eqn:E.
  - destruct i as [|i]; simpl; [destruct b; [done|lia]|]. apply IH; lia.
  - destruct i as [|i]; [lia|]. simpl. apply IH; lia.
Qed.

Lemma stamps_lookup_total σ n slot :
  execution σ -> (slot < Z.to_nat cap)%nat ->
  stamps (mem (σ n)) !! slot = Some (stamps (mem (σ n)) !!! slot).
Proof.
  intros He Hs. apply list_lookup_lookup_total_lt.
  destruct (execution_inv σ n He) as ([_ -> _ _] & _). done.
Qed.

(** A slot whose stamp reads [g] holds the row and time of sample [g]. *)
Lemma stamped_slot σ n slot g :
  execution σ -> 0 <= g -> stamps (mem (σ n)) !! slot = Some g ->
  exists v t, recorded σ g v t /\ Z.of_nat (length v) = dm /\
    rows (mem (σ n)) !!! slot = v /\ times (mem (σ n)) !!! slot = t.
Proof.
  intros He Hg Hs. destruct (execution_inv σ n He) as (_ & Hst & _).
  destruct (Hst slot g Hs ltac:(lia)) as (_ & _ & v & t & Hh & Hl & Hr & Ht).
  exists v, t. split_and!; [split; [done|by exists n]|done| |];
    by apply list_lookup_total_correct.
Qed.

(** Two equal stamps around a copy make the copy exact, whatever the producer
    did in between. *)
Lemma enclosed_copy σ clk (a b slot : nat) g (at_row : nat -> nat) (at_time : nat) :
  execution σ -> monotone_clock clk -> 0 <= g -> (slot < Z.to_nat cap)%nat ->
  stamps (mem (σ (clk a))) !!! slot = g -> stamps (mem (σ (clk b))) !!! slot = g ->
  (forall j, (j < Z.to_nat dm)%nat -> (a <= at_row j <= b)%nat) ->
  (a <= at_time <= b)%nat ->
  exists v t, recorded σ g v t /\
    ((fun j => (rows (mem (σ (clk (at_row j)))) !!! slot) !!! j) <$>
       List.seq 0 (Z.to_nat dm)) = v /\
    times (mem (σ (clk at_time))) !!! slot = t.
Proof.
  intros He Hm Hg Hsl Ha Hb Hrow Htime.
  assert (Hstab : forall k, (a <= k <= b)%nat ->
            stamps (mem (σ (clk k))) !! slot = Some g).
  { intros k [Hk1 Hk2]. apply (stamp_stable σ (clk a) (clk b)); auto.
    - rewrite (stamps_lookup_total σ) by done. by rewrite Ha.
    - rewrite (stamps_lookup_total σ) by done. by rewrite Hb. }
  destruct (stamped_slot σ _ _ _ He Hg (Hstab at_time Htime)) as (v & t & Hrec & Hl & _ & Ht).
  exists v, t. split_and!; [done| |done].
  apply list_eq_same_length with (n := Z.to_nat dm);
    [rewrite ?length_fmap, ?length_seq; lia..|].
  intros j x y Hj Hx Hy. rewrite list_lookup_fmap, lookup_seq_lt in Hx by done.
  simpl in Hx. injection Hx as <-.
  destruct (stamped_slot σ _ _ _ He Hg (Hstab _ (Hrow j Hj))) as (v' & t' & Hrec' & _ & Hr & _).
  destruct (recorded_unique σ g v t v' t' He Hrec Hrec') as [<- _].
  rewrite Hr. by apply list_lookup_total_correct.
Qed.

(** ** Soundness of one attempt *)

(** The arrays one attempt copies, by name. *)
Definition att_n (σ : nat -> pstate V) clk (kreq : Z) (k : nat) : Z :=
  Z.min kreq (Z.min cap (write_count (mem (σ (clk k))))).
Definition att_gidx (σ : nat -> pstate V) clk (kreq : Z) (k : nat) : list Z :=
  seqZ (write_count (mem (σ (clk k))) - att_n σ clk kreq k) (att_n σ clk kreq k).

Definition whole_batch (σ : nat -> pstate V) clk (kreq : Z) (k : nat) (ov : bool) : samples V :=
  let slots := slot_of cap <$> att_gidx σ clk kreq k in
  let k2 := (S k + length slots)%nat in
  let k3 := (k2 + length slots * Z.to_nat dm)%nat in
  Samples (read_rows (mem ∘ σ) clk k2 (Z.to_nat dm) slots)
    (read_times (mem ∘ σ) clk k3 slots) (att_gidx σ clk kreq k) ov.

Definition att_ok (σ : nat -> pstate V) clk (kreq : Z) (k : nat) : list bool :=
  let gidx := att_gidx σ clk kreq k in
  let slots := slot_of cap <$> gidx in
  let k4 := (S k + length slots + length slots * Z.to_nat dm + length slots)%nat in
  zip_with andb (zip_with Z.eqb (read_stamps (mem ∘ σ) clk (S k) slots) gidx)
    (zip_with Z.eqb (read_stamps (mem ∘ σ) clk k4 slots) gidx).

Lemma length_att_ok σ clk kreq k :
  length (att_ok σ clk kreq k) = length (att_gidx σ clk kreq k).
Proof.
  unfold att_ok, read_stamps. rewrite !length_zip_with, !length_imap, !length_fmap. lia.
Qed.

Lemma att_ok_stamps σ clk kreq k i g :
  att_gidx σ clk kreq k !! i = Some g -> att_ok σ clk kreq k !! i = Some true ->
  let l := length (att_gidx σ clk kreq k) in
  stamps (mem (σ (clk (S k + i)%nat))) !!! slot_of cap g = g /\
  stamps (mem (σ (clk (S k + l + l * Z.to_nat dm + l + i)%nat))) !!! slot_of cap g = g.
Proof.
  intros Hg Hok. unfold att_ok, read_stamps in Hok.
  rewrite lookup_zip_with in Hok. rewrite !lookup_zip_with, !list_lookup_imap in Hok.
  rewrite list_lookup_fmap, Hg, length_fmap in Hok. simpl in Hok.
  injection Hok as [H1%Z.eqb_eq H2%Z.eqb_eq]%andb_true_iff. done.
Qed.

(** A validated position of an attempt holds the sample its index names. *)
Lemma attempt_row σ clk kreq k i g ov :
  execution σ -> monotone_clock clk -> 0 < kreq ->
  att_gidx σ clk kreq k !! i = Some g -> att_ok σ clk kreq k !! i = Some true ->
  exists v t, recorded σ g v t /\ s_data (whole_batch σ clk kreq k ov) !! i = Some v /\
    s_t_ns (whole_batch σ clk kreq k ov) !! i = Some t.
Proof.
  intros He Hm Hk Hg Hok. pose proof (lookup_lt_Some _ _ _ Hg) as Hi.
  pose proof Hg as Hg'. apply lookup_seqZ in Hg' as [Hgi _].
  assert (0 <= g) by (unfold att_n in Hgi; lia).
  destruct (att_ok_stamps _ _ _ _ _ _ Hg Hok) as [H1 H2]. simpl in H1, H2.
  set (l := length (att_gidx σ clk kreq k)) in *.
  destruct (enclosed_copy σ clk _ _ (slot_of cap g) g
    (fun j => (S k + l + i * Z.to_nat dm + j)%nat)
    (S k + l + l * Z.to_nat dm + i)%nat He Hm ltac:(lia) (slot_of_lt g) H1 H2)
    as (v & t & Hrec & Hrow & Ht); [intros j Hj; nia|lia|].
  exists v, t. unfold whole_batch, read_rows, read_times. simpl.
  rewrite !list_lookup_imap, !list_lookup_fmap, Hg, length_fmap. simpl.
  split_and!; [done|by rewrite <-Hrow|by rewrite <-Ht].
Qed.

Lemma whole_batch_drop_ok σ clk kreq k ov n :
  execution σ -> monotone_clock clk -> 0 < kreq ->
  (forall i, (n <= i)%nat -> (i < length (att_ok σ clk kreq k))%nat ->
     att_ok σ clk kreq k !! i = Some true) ->
  let b := whole_batch σ clk kreq k ov in
  batch_ok σ (Samples (drop n (s_data b)) (drop n (s_t_ns b)) (drop n (s_seq b)) ov).
Proof.
  intros He Hm Hk Hall b.
  assert (length (s_data b) = length (s_seq b)) as Hd.
  { unfold b, whole_batch, read_rows. simpl. by rewrite length_imap, length_fmap. }
  assert (length (s_t_ns b) = length (s_seq b)) as Ht.
  { unfold b, whole_batch, read_times. simpl. by rewrite length_imap, length_fmap. }
  split.
  - change (length (drop n (s_data b)) = length (drop n (s_seq b))).
    by rewrite !length_drop, Hd.
  - change (length (drop n (s_t_ns b)) = length (drop n (s_seq b))).
    by rewrite !length_drop, Ht.
  - intros i g. simpl. rewrite !lookup_drop. intros Hg.
    apply (attempt_row σ clk kreq k _ _ ov); try done.
    apply Hall; [lia|]. rewrite length_att_ok. by eapply lookup_lt_Some.
  - simpl. rewrite length_drop. unfold att_gidx. eexists. rewrite <-(Z2Nat.id (att_n σ clk kreq k)) at 2.
    + rewrite drop_seqZ. f_equal. rewrite length_seqZ. done.
    + unfold att_n. assert (0 <= write_count (mem (σ (clk k)))); [|lia].
      pose proof (execution_mono σ 0 (clk k) He ltac:(lia)) as [_ Hw].
      destruct He as [(bl & d & Hs0) _]. rewrite Hs0 in Hw. simpl in Hw.
      unfold write_count in Hw at 1. simpl in Hw. lia.
Qed.

Lemma attempt_sound σ clk kreq k :
  execution σ -> monotone_clock clk -> 0 < kreq ->
  match (attempt (mem ∘ σ) clk cap (Z.to_nat dm) kreq k).1 with
  | Return b | Retry (Some b) => batch_ok σ b
  | Retry None => True
  end.
Proof.
  intros He Hm Hk. unfold attempt.
  destruct (write_count _ <=? 0); [apply batch_ok_empty|]. cbv zeta.
  change (zip_with andb _ _) with (att_ok σ clk kreq k).
  destruct (forallb id _) eqn:Hall; simpl.
  - apply (whole_batch_drop_ok σ clk kreq k false 0 He Hm Hk).
    intros i _ Hi. rewrite forallb_forall in Hall.
    apply lookup_lt_is_Some in Hi as [x Hx]. rewrite Hx. f_equal.
    apply (Hall x). apply list_elem_of_In. by eapply list_elem_of_lookup_2.
  - destruct (_ <? _); [|done].
    apply (whole_batch_drop_ok σ clk kreq k true _ He Hm Hk).
    apply after_last_bad_spec.
Qed.

Lemma last_loop_sound σ clk kreq retries k o :
  execution σ -> monotone_clock clk -> 0 < kreq ->
  (forall b, o = Some b -> batch_ok σ b) ->
  batch_ok σ (last_loop (mem ∘ σ) clk cap (Z.to_nat dm) kreq retries k o).
Proof.
  intros He Hm Hk. revert k o. induction retries as [|r IH]; intros k o Ho; simpl.
  - destruct o; simpl; [by apply Ho|apply batch_ok_empty].
  - pose proof (attempt_sound σ clk kreq k He Hm Hk) as Ha.
    destruct (attempt _ _ _ _ _ _) as [[b|[b|]] k']; simpl in Ha; [done| |by apply IH].
    apply IH. by intros ? [= <-].
Qed.
End seqlock.

(** ** The abstract contract of a ring

    [ring_repr r h]: the ring [r] is the bounded memory of the stream [h] of all
    samples ever published; the newest [capacity] of them are readable. *)

Section contract.
Context {V : Type} `{Inhabited V}.
Context (cast : dtype -> V -> V).
Implicit Types (r : ring V) (h : list (list V * Z)).

Record ring_repr r h : Prop := {
  repr_cap : 0 < capacity r;
  repr_dim : 0 <= dim r;
  repr_seg : seg_ok (capacity r) (shm r);
  repr_count : write_count (shm r) = Z.of_nat (length h);
  repr_width : Forall (fun x => Z.of_nat (length x.1) = dim r) h;
  repr_window : forall g v t, h !! Z.to_nat g = Some (v, t) ->
    0 <= g -> Z.of_nat (length h) - capacity r <= g ->
    stamps (shm r) !! slot_of (capacity r) g = Some g /\
    rows (shm r) !! slot_of (capacity r) g = Some v /\
    times (shm r) !! slot_of (capacity r) g = Some t;
}.

(** The newest [n] entries of the stream. *)
Definition newest_of (n : nat) h : list (list V * Z) := drop (length h - n) h.

Lemma ring_create_inv blank cap dm name r :
  ring_create blank cap dm name = Ok r ->
  exists d, dtype_of_name name = Some d /\ r = Ring (create_segment blank cap dm d) cap dm d.
Proof.
  unfold ring_create. destruct (dtype_of_name name) as [d|]; [|done].
  intros Hr. exists d. split; [done|]. unfold ring_init in Hr. simpl in Hr.
  by destruct d; injection Hr as <-.
Qed.

Lemma ring_repr_create blank cap dm name r :
  0 < cap -> 0 <= dm -> ring_create blank cap dm name = Ok r -> ring_repr r [].
Proof.
  intros Hc Hd (d & _ & ->)%ring_create_inv.
  split; simpl; try done. split; simpl; rewrite ?length_insert, ?length_replicate; done.
Qed.

Lemma slot_of_inj cap g g' :
  0 < cap -> slot_of cap g = slot_of cap g' -> Z.abs (g - g') < cap -> g = g'.
Proof.
  intros Hc Hs Ha. unfold slot_of in Hs.
  pose proof (Z.mod_pos_bound g cap Hc). pose proof (Z.mod_pos_bound g' cap Hc).
  assert (g mod cap = g' mod cap) as Hm by lia.
  pose proof (Z.div_mod g cap ltac:(lia)). pose proof (Z.div_mod g' cap ltac:(lia)).
  destruct (Z.lt_trichotomy (g / cap) (g' / cap)) as [?|[Hq|?]]; [nia|congruence|nia].
Qed.

Lemma append_ok r vec t r' idx :
  append cast r vec t = Ok (r', idx) ->
  Z.of_nat (length vec) = dim r /\ idx = write_count (shm r) /\
  capacity r' = capacity r /\ dim r' = dim r /\ rdtype r' = rdtype r /\
  shm r' = set_count (set_stamp (set_time (set_row
    (set_stamp (shm r) (slot_of (capacity r) idx) (-1))
    (slot_of (capacity r) idx) (cast (rdtype r) <$> vec))
    (slot_of (capacity r) idx) t) (slot_of (capacity r) idx) idx) (idx + 1).
Proof.
  unfold append. rewrite length_fmap. destruct (negb _) eqn:E; [done|].
  intros [= <- <-]. apply negb_false_iff, Z.eqb_eq in E. done.
Qed.

(** One [append] extends the stream by one sample and returns its index. *)
Lemma append_repr r h vec t r' idx :
  ring_repr r h -> append cast r vec t = Ok (r', idx) ->
  idx = Z.of_nat (length h) /\ ring_repr r' (h ++ [(cast (rdtype r) <$> vec, t)]).
Proof.
  intros [Hc Hd [Lh Ls Lt Lr] Hw Hf Hwin] (Hl & -> & Ec & Ed & _ & Es)%append_ok.
  rewrite Hw in Es |- *. split; [done|].
  pose proof (slot_of_lt _ Hc (Z.of_nat (length h))) as Hslot.
  split; rewrite ?Ec, ?Ed; try done.
  - rewrite Es. repeat (apply seg_ok_set_count || apply seg_ok_set_stamp
      || apply seg_ok_set_time || apply seg_ok_set_row). done.
  - rewrite Es, length_app. simpl. unfold write_count. simpl.
    rewrite list_lookup_total_insert_eq; [lia|]. rewrite Lh. compute. lia.
  - apply Forall_app. split; [done|]. apply Forall_singleton. simpl. by rewrite length_fmap.
  - intros g v t' Hg Hg0 Hgw. rewrite length_app in Hgw. simpl in Hgw. rewrite Es. simpl.
    apply lookup_app_Some in Hg as [Hg|[Hge Hg]].
    + pose proof (lookup_lt_Some _ _ _ Hg).
      destruct (Hwin g v t' Hg Hg0 ltac:(lia)) as (H1 & H2 & H3).
      assert (slot_of (capacity r) (Z.of_nat (length h)) ≠ slot_of (capacity r) g).
      { intros E%slot_of_inj; lia. }
      by rewrite !list_lookup_insert_ne.
    + apply list_lookup_singleton_Some in Hg as [Hg0' [= <- <-]].
      assert (g = Z.of_nat (length h)) as -> by lia.
      rewrite !list_lookup_insert_eq; rewrite ?length_insert; try lia. done.
Qed.

(** A read of an idle ring is exact: the newest [min k capacity count] samples. *)
Definition read_len r h (kreq : Z) : nat :=
  Z.to_nat (Z.min kreq (Z.min (capacity r) (Z.of_nat (length h)))).

Definition read_of r h (kreq : Z) : samples V :=
  let n := read_len r h kreq in
  Samples (newest_of n h).*1 (newest_of n h).*2
    (seqZ (Z.of_nat (length h - n)) (Z.of_nat n)) false.

Lemma newest_of_lookup n h i :
  (n <= length h)%nat -> newest_of n h !! i = h !! (length h - n + i)%nat.
Proof. intros. unfold newest_of. by rewrite lookup_drop. Qed.

Lemma row_copy (l : list V) n :
  length l = n -> (fun j => l !!! j) <$> List.seq 0 n = l.
Proof.
  intros <-. apply list_eq. intros i. rewrite list_lookup_fmap.
  destruct (l !! i) as [x|] eqn:E.
  - rewrite lookup_seq_lt by (by eapply lookup_lt_Some). simpl.
    by rewrite (list_lookup_total_correct _ _ _ E).
  - rewrite lookup_seq_ge by (by apply lookup_ge_None). done.
Qed.

Lemma imap_fun {X Y} (f : X -> Y) (l : list X) : imap (fun _ => f) l = f <$> l.
Proof. exact (imap_const f l). Qed.

(** Column [f] of the slots of the window is column [p] of the stream. *)
Lemma window_column {X} r h n (f : nat -> X) (p : list V * Z -> X) (q : nat) :
  ring_repr r h -> n = Z.of_nat q -> (q <= length h)%nat -> n <= capacity r ->
  (forall g v t, h !! Z.to_nat g = Some (v, t) -> 0 <= g ->
     Z.of_nat (length h) - capacity r <= g -> f (slot_of (capacity r) g) = p (v, t)) ->
  imap (fun _ => f) (slot_of (capacity r) <$> seqZ (Z.of_nat (length h) - n) n) =
    p <$> newest_of q h.
Proof.
  intros Hr -> Hq Hn Hf. rewrite imap_fun, <-list_fmap_compose.
  apply list_eq. intros i. rewrite !list_lookup_fmap, newest_of_lookup by done.
  destruct (decide (i < q)%nat) as [Hi|Hi].
  - rewrite lookup_seqZ_lt by lia. simpl.
    destruct (h !! (length h - q + i)%nat) as [[v t]|] eqn:E; simpl.
    + f_equal. apply Hf; [|lia..]. rewrite <-E. f_equal. lia.
    + apply lookup_ge_None in E. lia.
  - rewrite lookup_seqZ_ge by lia. rewrite lookup_ge_None_2 by lia. done.
Qed.

Lemma ring_last_exact r h kreq :
  ring_repr r h -> 0 < kreq -> ring_last r kreq = read_of r h kreq.
Proof.
  intros Hr Hk. pose proof Hr as [Hc Hd _ Hw Hf Hwin].
  unfold ring_last, last. destruct (kreq <=? 0) eqn:E; [lia|]. clear E.
  unfold READ_RETRIES, last_loop, attempt. rewrite Hw.
  destruct (Z.of_nat (length h) <=? 0) eqn:E.
  { apply Z.leb_le in E. destruct h; [|simpl in E; lia]. unfold read_of, read_len. simpl.
    replace (Z.to_nat _) with 0%nat by lia. done. }
  clear E. cbv zeta. set (n := Z.min kreq _). set (q := read_len r h kreq).
  assert (n = Z.of_nat q) as Hn by (unfold q, read_len; lia).
  assert (q <= length h)%nat as Hq by (unfold q, read_len; lia).
  unfold read_stamps, read_rows, read_times.
  assert (forall g v t, h !! Z.to_nat g = Some (v, t) -> 0 <= g ->
     Z.of_nat (length h) - capacity r <= g ->
     stamps (shm r) !!! slot_of (capacity r) g = g) as Hst.
  { intros g v t Hg H0 Hgw. destruct (Hwin g v t Hg H0 Hgw) as (H1 & _).
    by apply list_lookup_total_correct. }
  assert (imap (fun _ s => stamps (shm r) !!! s)
    (slot_of (capacity r) <$> seqZ (Z.of_nat (length h) - n) n) =
    seqZ (Z.of_nat (length h) - n) n) as Hs.
  { rewrite imap_fun, <-list_fmap_compose. apply list_eq. intros i.
    rewrite list_lookup_fmap. destruct (decide (Z.of_nat i < n)).
    - rewrite !lookup_seqZ_lt by lia. simpl. f_equal.
      destruct (h !! Z.to_nat (Z.of_nat (length h) - n + Z.of_nat i)) as [[v t]|] eqn:E.
      + apply (Hst _ v t); [done|lia..].
      + apply lookup_ge_None in E. lia.
    - by rewrite !lookup_seqZ_ge by lia. }
  rewrite !Hs. rewrite (proj2 (forallb_forall id _)).
  2: { intros b Hb%list_elem_of_In%list_elem_of_lookup. destruct Hb as [i Hi].
       rewrite !lookup_zip_with in Hi.
       destruct (seqZ (Z.of_nat (length h) - n) n !! i) as [g|]; simpl in Hi; [|done].
       rewrite Z.eqb_refl in Hi. simpl in Hi. by injection Hi as <-. }
  unfold read_of. fold q. f_equal.
  - apply (window_column r h n _ fst q); try done; [lia|].
    intros g v t Hg H0 Hgw. destruct (Hwin g v t Hg H0 Hgw) as (_ & H2 & _).
    rewrite (list_lookup_total_correct _ _ _ H2). apply row_copy.
    pose proof (Forall_lookup_1 _ _ _ _ Hf Hg) as Hl. simpl in *. lia.
  - apply (window_column r h n _ snd q); try done; [lia|].
    intros g v t Hg H0 Hgw. destruct (Hwin g v t Hg H0 Hgw) as (_ & _ & H3).
    by apply list_lookup_total_correct.
  - f_equal; lia.
Qed.
End contract.

(** ** Theorems *)

Section theorems.
Context {V : Type} `{Inhabited V}.

Lemma last_loop_fresh cap dm (Hc : 0 < cap) (Hd : 0 <= dm) σ clk kreq retries k
    (o : option (samples V)) lo :
  execution cap dm σ -> monotone_clock clk -> 0 < kreq ->
  lo <= write_count (mem (σ (clk k))) ->
  let fresh b := forall g, list.last (s_seq b) = Some g ->
    lo - 1 <= g /\ (s_overrun b = false ->
      Z.of_nat (length (s_seq b)) = Z.min kreq (Z.min cap (g + 1))) in
  (forall b, o = Some b -> fresh b) ->
  fresh (last_loop (mem ∘ σ) clk cap (Z.to_nat dm) kreq retries k o).
Proof.
  intros He Hm Hk Hlo fresh. revert k o Hlo.
  assert (fresh empty_samples) as Hempty by (by intros g).
  induction retries as [|rt IH]; intros k o Hlo Ho; simpl.
  { destruct o; simpl; [by apply Ho|done]. }
  unfold attempt. destruct (write_count _ <=? 0) eqn:E; [done|]. apply Z.leb_gt in E.
  cbv zeta. set (wc := write_count ((mem ∘ σ) (clk k))) in *.
  assert (lo <= wc) as Hlo' by done.
  set (n := Z.min kreq (Z.min cap wc)). set (ok := zip_with andb _ _).
  assert (forall d ov, ov = true \/ d = 0%nat ->
    forall dat ts, fresh (Samples dat ts (drop d (seqZ (wc - n) n)) ov)) as Hfr.
  { intros d ov Hov dat ts g Hg. simpl in *.
    rewrite last_lookup, lookup_drop, length_drop, length_seqZ in Hg.
    apply lookup_seqZ in Hg as [-> Hlt]. split; [lia|].
    intros ->. destruct Hov as [?| ->]; [done|]. rewrite drop_0, length_seqZ. lia. }
  destruct (forallb id ok).
  { rewrite <-(drop_0 (seqZ (wc - n) n)). apply Hfr. by right. }
  assert (forall j, (k <= j)%nat -> lo <= write_count (mem (σ (clk j)))) as Hnext.
  { intros j Hj. etrans; [exact Hlo'|]. eapply (execution_mono cap dm Hc); auto. }
  destruct (_ <? _).
  - apply IH; [apply Hnext; lia|]. intros b [= <-]. apply Hfr. by left.
  - apply IH; [apply Hnext; lia|done].
Qed.

(** C5: No read is torn.  For every interleaving of one reader's loads with the
    single producer's stores, every row a [last] returns carries consecutive
    sequence numbers, and the row and time at sequence number [g] are exactly
    the payload and timestamp that were published as sample [g]. *)
Theorem seqlock_read_sound (cap dm kreq : Z) (σ : nat -> pstate V) (clk : nat -> nat)
    (Hcap : 0 < cap) (Hdm : 0 <= dm)
    (Hexec : execution cap dm σ) (Hclk : monotone_clock clk) :
  batch_ok σ (last (mem ∘ σ) clk cap dm kreq).
Proof.
  unfold last. destruct (kreq <=? 0) eqn:E; [apply batch_ok_empty|].
  apply Z.leb_gt in E. by apply last_loop_sound.
Qed.

(** Reads are fresh and complete.  The newest row of a non-empty read is at
    least as new as the newest sample published before the read began, and a
    read that does not report an overrun returns the full
    [min k (min capacity count)] samples ending there. *)
Theorem seqlock_read_fresh (cap dm kreq : Z) (σ : nat -> pstate V) (clk : nat -> nat)
    (g : Z) (Hcap : 0 < cap) (Hdm : 0 <= dm)
    (Hexec : execution cap dm σ) (Hclk : monotone_clock clk)
    (Hlast : list.last (s_seq (last (mem ∘ σ) clk cap dm kreq)) = Some g) :
  write_count (mem (σ (clk 0%nat))) - 1 <= g /\
  (s_overrun (last (mem ∘ σ) clk cap dm kreq) = false ->
   Z.of_nat (length (s_seq (last (mem ∘ σ) clk cap dm kreq))) =
     Z.min kreq (Z.min cap (g + 1))).
Proof.
  unfold last in *. destruct (kreq <=? 0) eqn:E; [done|]. apply Z.leb_gt in E.
  refine (last_loop_fresh cap dm Hcap Hdm σ clk kreq READ_RETRIES 0 None _
    Hexec Hclk E (Z.le_refl _) _ g Hlast). done.
Qed.

(** Refinement of the bounded-history contract.  A ring that holds the
    stream [h] accepts a sample of its dimension, hands back its sequence
    number, then holds the stream extended by it, and an idle read of the
    newest [k] returns exactly the newest samples of that stream, in order. *)
Theorem ring_append_last (cast : dtype -> V -> V) (r : ring V) h vec t kreq
    (Hrepr : ring_repr r h) (Hlen : Z.of_nat (length vec) = dim r) (Hk : 0 < kreq) :
  exists r', append cast r vec t = Ok (r', Z.of_nat (length h)) /\
    ring_repr r' (h ++ [(cast (rdtype r) <$> vec, t)]) /\
    ring_last r' kreq = read_of r' (h ++ [(cast (rdtype r) <$> vec, t)]) kreq.
Proof.
  destruct (append cast r vec t) as [[r' idx]|e] eqn:E.
  - destruct (append_repr cast r h vec t r' idx Hrepr E) as [-> Hr'].
    exists r'. split_and!; [done|done|]. by apply ring_last_exact.
  - unfold append in E. rewrite length_fmap, Hlen, Z.eqb_refl in E. done.
Qed.

(** [append] is a run of the store-by-store producer: the atomic operation
    the other components use is one of the executions the reader is proved
    against. *)
Theorem append_refines_stores (cast : dtype -> V -> V) (r : ring V) h vec t r' idx
    (Hok : append cast r vec t = Ok (r', idx)) :
  steps (pstep (capacity r) (dim r)) (PState (shm r) Idle h)
    (PState (shm r') Idle (h ++ [(cast (rdtype r) <$> vec, t)])).
Proof.
  apply append_ok in Hok as (Hl & Hi & _ & _ & _ & ->).
  eapply steps_cons.
  { apply (p_invalidate _ _ _ _ (cast (rdtype r) <$> vec) t). by rewrite length_fmap. }
  rewrite <-Hi.
  eapply steps_cons; [apply p_row|]. eapply steps_cons; [apply p_time|].
  eapply steps_cons; [apply p_publish|]. eapply steps_cons; [apply p_count|].
  constructor.
Qed.

(** A created segment is attachable by any consumer with the geometry it was
    created with: magic, capacity, dimension and dtype survive the header. *)
Theorem create_attach_roundtrip (blank : V) (cap dm : Z) (name : string) (r : ring V)
    (Hok : ring_create blank cap dm name = Ok r) :
  ring_attach (shm r) = Ok r /\ capacity r = cap /\ dim r = dm /\
  dtype_of_name name = Some (rdtype r) /\ write_count (shm r) = 0 /\
  Forall (eq (-1)) (stamps (shm r)).
Proof.
  apply ring_create_inv in Hok as (d & Hd & ->). simpl.
  split_and!; try done; [by destruct d|]. by apply Forall_replicate.
Qed.
End theorems.

(** The regions of a segment are 8-byte aligned, disjoint, in order, and
    exactly fill the allocated size. *)
Theorem segment_layout (cap dm : Z) (d : dtype) (Hcap : 0 < cap) (Hdm : 0 < dm) :
  HEADER_LEN * 8 = seq_off /\ seq_off < ts_off cap /\ ts_off cap < data_off cap /\
  data_off cap + cap * dm * itemsize d = shm_size cap dm (itemsize d) /\
  seq_off mod 8 = 0 /\ ts_off cap mod 8 = 0 /\ data_off cap mod 8 = 0.
Proof.
  unfold data_off, ts_off, seq_off, shm_size, HEADER_LEN.
  split_and!; try lia;
    (replace (8 * 8) with (8 * 8 + 0 * 8) by lia; rewrite ?Z.mod_add; try done; try lia).
Qed.

(** ** Witnesses *)

(** A producer that runs two whole appends, then a reader between the stores. *)
Definition demo_segment : segment Z := create_segment 0 2 1 Float64.

Definition demo_states : list (pstate Z) :=
  let m0 := demo_segment in
  let m1 := set_stamp m0 0 (-1) in
  let m2 := set_row m1 0 [7] in
  let m3 := set_time m2 0 100 in
  let m4 := set_stamp m3 0 0 in
  let m5 := set_count m4 1 in
  let h := [([7], 100)] in
  [PState m0 Idle []; PState m1 (Writing [7] 100 0) h; PState m2 (Stamping [7] 100 0) h;
   PState m3 (Publishing [7] 100 0) h; PState m4 (Counting [7] 100 0) h; PState m5 Idle h].

Definition demo_run (n : nat) : pstate Z :=
  default (PState (set_count (set_stamp (set_time (set_row
    (set_stamp demo_segment 0 (-1)) 0 [7]) 0 100) 0 0) 1) Idle [([7], 100)]) (demo_states !! n).

Lemma demo_run_execution : execution 2 1 demo_run.
Proof.
  split; [by exists 0, Float64|]. intros n.
  destruct n as [|[|[|[|[|n]]]]]; unfold demo_run; simpl.
  - right. exact (p_invalidate 2 1 demo_segment [] [7] 100 eq_refl).
  - right. exact (p_row 2 1 _ _ [7] 100 0).
  - right. exact (p_time 2 1 _ _ [7] 100 0).
  - right. exact (p_publish 2 1 _ _ [7] 100 0).
  - right. exact (p_count 2 1 _ _ [7] 100 0).
  - left. by destruct n.
Qed.

Lemma seqlock_read_sound_witness :
  last (mem ∘ demo_run) (fun k => (k + 5)%nat) 2 1 1 = Samples [[7]] [100] [0] false /\
  batch_ok demo_run (last (mem ∘ demo_run) (fun k => (k + 5)%nat) 2 1 1).
Proof.
  split; [vm_compute; reflexivity|].
  apply (seqlock_read_sound 2 1 1 demo_run (fun k => (k + 5)%nat));
    [lia|lia|apply demo_run_execution|intros i j; lia].
Defined.

Lemma seqlock_read_fresh_witness :
  let s := last (mem ∘ demo_run) (fun k => (k + 5)%nat) 2 1 4 in
  write_count (mem (demo_run 5)) - 1 <= 0 /\
  (s_overrun s = false -> Z.of_nat (length (s_seq s)) = Z.min 4 (Z.min 2 (0 + 1))).
Proof.
  apply (seqlock_read_fresh 2 1 4 demo_run (fun k => (k + 5)%nat) 0);
    [lia|lia|apply demo_run_execution|intros i j; lia|vm_compute; reflexivity].
Defined.

Definition demo_ring : ring Z := Ring demo_segment 2 1 Float64.

Lemma demo_ring_created : ring_create 0 2 1 "float64" = Ok demo_ring.
Proof. reflexivity. Qed.

Lemma ring_append_last_witness :
  exists r', append (fun _ x => x) demo_ring [7] 100 = Ok (r', 0) /\
    ring_repr r' [([7], 100)] /\ ring_last r' 3 = read_of r' [([7], 100)] 3.
Proof.
  apply (ring_append_last (fun _ x => x) demo_ring [] [7] 100 3);
    [apply (ring_repr_create 0 2 1 "float64"); [lia|lia|reflexivity]|reflexivity|lia].
Defined.

Lemma append_refines_stores_witness :
  exists r', steps (pstep 2 1) (PState demo_segment Idle []) (PState (shm r') Idle [([7], 100)]).
Proof.
  eexists. eapply (append_refines_stores (fun _ x => x) demo_ring [] [7] 100 _ 0).
  reflexivity.
Defined.

Lemma create_attach_roundtrip_witness : ring_attach demo_segment = Ok demo_ring.
Proof.
  apply (create_attach_roundtrip 0 2 1 "float64" demo_ring). reflexivity.
Defined.

Lemma segment_layout_witness : data_off 4 + 4 * 7 * itemsize Float64 = shm_size 4 7 8.
Proof. apply (segment_layout 4 7 Float64); lia. Defined.
