(* ===== verification/Streams.v ===== *)
(** * Streams: specs, the manifest registry and the role-typed wrappers

    Models [streams/spec.py], [streams/registry.py] and [streams/stream.py] over a
    world that holds the POSIX shared-memory names, the segments they were created
    with (a mapping outlives the unlinking of its name, so segments are a store of
    their own and names point into it) and the manifest directories.  A directory is
    an association list in listing order: [glob] promises no order, and no theorem
    depends on one.  A manifest that is not JSON (a torn or foreign file) is [None].
    File-system failures of [publish] are an input of the operation. *)

From Stdlib Require Import Ascii String.
From S2P Require Import Prelude Float64 Ring.
Local Open Scope string_scope.
Local Open Scope Z_scope.

(** ** [spec.py] *)

Record StreamSpec := MkSpec {
  sp_name : string;
  sp_dim : Z;
  sp_capacity : Z;
  sp_dtype : string;
  sp_rate_hz : option f64;
}.

Definition ALLOWED_DTYPES : list string := ["float32"; "float64"; "uint8"; "uint16"].

(** [StreamSpec.__post_init__]. *)
Definition stream_spec (s : StreamSpec) : res StreamSpec :=
  if decide (sp_name s = "") then Raise ValueError
  else if sp_dim s <=? 0 then Raise ValueError
  else if sp_capacity s <=? 0 then Raise ValueError
  else if negb (bool_decide (sp_dtype s ∈ ALLOWED_DTYPES)) then Raise ValueError
  else Ok s.

(** ** Names *)

Definition in_range (lo hi c : ascii) : bool :=
  (nat_of_ascii lo <=? nat_of_ascii c)%nat && (nat_of_ascii c <=? nat_of_ascii hi)%nat.

Definition safe_char (c : ascii) : bool :=
  in_range "A" "Z" c || in_range "a" "z" c || in_range "0" "9" c || Ascii.eqb c "_".

(** [re.sub("[^A-Za-z0-9_]+", "_", name)]: each maximal unsafe run becomes one
    underscore.  Strings are UTF-8 bytes; every byte of a non-ASCII character is
    unsafe, so runs of characters and runs of bytes agree. *)
Fixpoint sanitize_from (in_run : bool) (s : string) : string :=
  match s with
  | EmptyString => EmptyString
  | String c s =>
      if safe_char c then String c (sanitize_from false s)
      else if in_run then sanitize_from true s
      else String "_" (sanitize_from true s)
  end.

Definition sanitize (name : string) : string := sanitize_from false name.

Definition shm_name_for (run_id stream_name : string) : string :=
  ("dfc_" +:+ sanitize run_id +:+ "_" +:+ sanitize stream_name).

Fixpoint all_safe (s : string) : bool :=
  match s with EmptyString => true | String c s => safe_char c && all_safe s end.

(** ** Manifests *)

(** The scalar JSON values a manifest holds. *)
Inductive jval :=
  | JNull
  | JBool (b : bool)
  | JInt (z : Z)
  | JFloat (x : f64)
  | JStr (s : string).

#[export] Instance jval_eq_dec : EqDecision jval.
Proof. solve_decision. Defined.

(** Python's [int(s)] on a string: an optional sign and decimal digits. *)
Fixpoint digits_from (acc : Z) (s : string) : option Z :=
  match s with
  | EmptyString => Some acc
  | String c s =>
      if in_range "0" "9" c
      then digits_from (acc * 10 + (Z.of_nat (nat_of_ascii c) - 48)) s
      else None
  end.

Definition int_of_string (s : string) : option Z :=
  match s with
  | String "-" (String c s) => Z.opp <$> digits_from 0 (String c s)
  | String "+" (String c s) => digits_from 0 (String c s)
  | String c s => digits_from 0 (String c s)
  | EmptyString => None
  end.

Definition py_int (v : jval) : res Z :=
  match v with
  | JInt z => Ok z
  | JBool b => Ok (if b then 1 else 0)
  | JFloat x => of_option (if is_nan x then ValueError else OtherError) (f_trunc x)
  | JStr s => of_option ValueError (int_of_string s)
  | JNull => Raise TypeError
  end.

Record RegistryEntry := Entry {
  e_name : jval;
  e_shm_name : jval;
  e_dim : Z;
  e_capacity : Z;
  e_dtype : jval;
  e_rate_hz : jval;
  e_pid : Z;
}.

Definition to_json (e : RegistryEntry) : list (string * jval) :=
  [("name", e_name e); ("shm_name", e_shm_name e); ("dim", JInt (e_dim e));
   ("capacity", JInt (e_capacity e)); ("dtype", e_dtype e);
   ("rate_hz", e_rate_hz e); ("pid", JInt (e_pid e))].

Definition field (k : string) (d : list (string * jval)) : res jval :=
  of_option KeyError (dget k d).

Definition from_json (d : list (string * jval)) : res RegistryEntry :=
  let? name := field "name" d in
  let? shm_name := field "shm_name" d in
  let? dm := (let? v := field "dim" d in py_int v) in
  let? cap := (let? v := field "capacity" d in py_int v) in
  let? dt := field "dtype" d in
  let? rate := field "rate_hz" d in
  let? pid := (let? v := field "pid" d in py_int v) in
  Ok (Entry name shm_name dm cap dt rate pid).

(** ** The world *)

(** A directory: file stem to parsed content, in listing order. *)
Definition dir := list (string * option (list (string * jval))).

Record world := World {
  names : gmap string nat;                  (* /dev/shm *)
  heap : list (segment f64);                (* every segment ever created *)
  dirs : list ((string * string) * dir);    (* (run_id, sub) to its manifests *)
}.

Definition dir_of (w : world) (run sub : string) : option dir := dget (run, sub) (dirs w).
Definition set_dir (w : world) (run sub : string) (d : dir) : world :=
  World (names w) (heap w) (dset (run, sub) d (dirs w)).

(** ** [StreamRegistry] *)

Record registry := Registry { r_run : string; r_sub : string }.

Definition entry_of (s : StreamSpec) (shm_name : string) (pid : Z) : RegistryEntry :=
  Entry (JStr (sp_name s)) (JStr shm_name) (sp_dim s) (sp_capacity s) (JStr (sp_dtype s))
    (match sp_rate_hz s with Some r => JFloat r | None => JNull end) pid.

(** [publish]; [io_ok] is whether the file system accepts the write. *)
Definition publish (io_ok : bool) (w : world) (g : registry) (s : StreamSpec)
    (shm_name : string) (pid : Z) : res (world * RegistryEntry) :=
  if negb io_ok then Raise OtherError
  else
    let d := default [] (dir_of w (r_run g) (r_sub g)) in
    let e := entry_of s shm_name pid in
    Ok (set_dir w (r_run g) (r_sub g) (dset (sanitize (sp_name s)) (Some (to_json e)) d), e).

Definition reg_remove (w : world) (g : registry) (name : string) : world :=
  match dir_of w (r_run g) (r_sub g) with
  | None => w
  | Some d => set_dir w (r_run g) (r_sub g) (ddel (sanitize name) d)
  end.

(** One manifest of a listing: [None] is the [continue] of the loops. *)
Definition load_manifest (c : option (list (string * jval))) : res (option RegistryEntry) :=
  match c with
  | None => Ok None
  | Some j =>
      match from_json j with
      | Ok e => Ok (Some e)
      | Raise KeyError => Ok None
      | Raise x => Raise x
      end
  end.

Definition discover_step (out : list (jval * RegistryEntry))
    (f : string * option (list (string * jval))) : res (list (jval * RegistryEntry)) :=
  let? o := load_manifest f.2 in
  Ok (match o with None => out | Some e => dset (e_name e) e out end).

Definition discover_dir (d : dir) : res (list (jval * RegistryEntry)) :=
  foldM_res discover_step d [].

Definition discover (w : world) (g : registry) : res (list (jval * RegistryEntry)) :=
  match dir_of w (r_run g) (r_sub g) with
  | None => Ok []
  | Some d => discover_dir d
  end.

Definition reg_get (w : world) (g : registry) (name : string) : res (option RegistryEntry) :=
  res_map (dget (JStr name)) (discover w g).

(** One poll of [wait_for]: the world it lists, the stop flag, the clock. *)
Record poll := Poll { po_world : world; po_stop : bool; po_now : f64 }.

(** [wait_for]: [None] means it is still waiting after the polls given. *)
Fixpoint wait_for_loop (g : registry) (wanted : list string) (deadline : f64)
    (polls : list poll) : option (res (list (string * RegistryEntry))) :=
  match polls with
  | [] => None
  | p :: polls =>
      match discover (po_world p) g with
      | Raise e => Some (Raise e)
      | Ok found =>
          if forallb (fun n => dmem (JStr n) found) wanted
          then Some (mapM_res (fun n => res_map (pair n) (of_option KeyError (dget (JStr n) found)))
                       wanted)
          else if po_stop p then Some (Raise AttachAborted)
          else if fle deadline (po_now p) then Some (Raise TimeoutError)
          else wait_for_loop g wanted deadline polls
      end
  end.

Definition wait_for (g : registry) (wanted : list string) (start timeout_s : f64)
    (polls : list poll) : option (res (list (string * RegistryEntry))) :=
  wait_for_loop g wanted (fadd start timeout_s) polls.

(** ** Shared memory names *)

(** [SharedMemory(create=True)] followed by the ring initialisation. *)
Definition shm_create (w : world) (name : string) (cap dm : Z) (dt : string) : res (world * nat) :=
  match dtype_of_name dt with
  | None => Raise ValueError
  | Some _ =>
      match names w !! name with
      | Some _ => Raise FileExistsError
      | None =>
          let? r := ring_create f0 cap dm dt in
          let i := length (heap w) in
          Ok (World (<[name := i]> (names w)) (heap w ++ [shm r])%list (dirs w), i)
      end
  end.

Definition shm_unlink (w : world) (name : string) : world :=
  World (delete name (names w)) (heap w) (dirs w).

(** ** [StreamWriter] and [StreamReader] *)

Record StreamWriter := Writer { w_seg : nat; w_shm_name : string; w_spec : StreamSpec }.
Record StreamReader := Reader { rd_seg : nat; rd_entry : RegistryEntry }.

(** [StreamWriter.create]: the world is returned on failure too. *)
Definition writer_create (io_ok : bool) (w : world) (s : StreamSpec) (run_id : string)
    (g : registry) (pid : Z) : world * res StreamWriter :=
  let shm_name := shm_name_for run_id (sp_name s) in
  match shm_create w shm_name (sp_capacity s) (sp_dim s) (sp_dtype s) with
  | Raise e => (w, Raise e)
  | Ok (w', seg) =>
      match publish io_ok w' g s shm_name pid with
      | Raise e => (shm_unlink w' shm_name, Raise e)
      | Ok (w'', _) => (w'', Ok (Writer seg shm_name s))
      end
  end.

(** The ring object of a mapped segment. *)
Definition mapped_ring (w : world) (seg : nat) : res (ring f64) :=
  let? m := of_option OtherError (heap w !! seg) in ring_init m.

Section write.
(** The element cast of the segment's dtype. *)
Context (cast : dtype -> f64 -> f64).

Definition writer_write (w : world) (wr : StreamWriter) (vec : list f64) (t_ns : Z) :
    res (world * Z) :=
  let? r := mapped_ring w (w_seg wr) in
  let? a := append cast r vec t_ns in
  Ok (World (names w) (<[w_seg wr := shm a.1]> (heap w)) (dirs w), a.2).
End write.

Definition writer_unlink (w : world) (wr : StreamWriter) : world := shm_unlink w (w_shm_name wr).

Definition reader_attach (w : world) (e : RegistryEntry) : res StreamReader :=
  match e_shm_name e with
  | JStr n =>
      let? seg := of_option FileNotFoundError (names w !! n) in
      let? _ := mapped_ring w seg in
      Ok (Reader seg e)
  | _ => Raise TypeError
  end.

Definition reader_last (w : world) (rd : StreamReader) (k : Z) : res (samples f64) :=
  let? r := mapped_ring w (rd_seg rd) in Ok (ring_last r k).

(** ** Cleanup *)

(** [SharedMemory(name, create=False)] and [unlink], counted. *)
Definition unlink_entry (w : world) (e : RegistryEntry) : res (world * Z) :=
  match e_shm_name e with
  | JStr n =>
      match names w !! n with
      | Some _ => Ok (shm_unlink w n, 1)
      | None => Ok (w, 0)
      end
  | _ => Raise TypeError
  end.

(** The loop body of [cleanup_sub] on one manifest, with the entry's deletion. *)
Definition cleanup_sub_step (run sub : string) (acc : world * Z)
    (f : string * option (list (string * jval))) : res (world * Z) :=
  let? o := load_manifest f.2 in
  match o with
  | None => Ok acc
  | Some e =>
      let? u := unlink_entry acc.1 e in
      let w := u.1 in
      Ok (set_dir w run sub (ddel f.1 (default [] (dir_of w run sub))), acc.2 + u.2)
  end.

Definition cleanup_sub (w : world) (run sub : string) : res (world * Z) :=
  match dir_of w run sub with
  | None => Ok (w, 0)
  | Some d => foldM_res (cleanup_sub_step run sub) d (w, 0)
  end.

(** The loop body of [cleanup_run]: unlink only. *)
Definition cleanup_run_step (acc : world * Z)
    (f : string * option (list (string * jval))) : res (world * Z) :=
  let? o := load_manifest f.2 in
  match o with
  | None => Ok acc
  | Some e => let? u := unlink_entry acc.1 e in Ok (u.1, acc.2 + u.2)
  end.

(** The manifests below the run root, over all its subdirectories ([rglob]). *)
Definition run_files (w : world) (run : string) : dir :=
  concat (snd <$> List.filter (fun x => bool_decide (x.1.1 = run)) (dirs w)).

(** [cleanup_run]; the tree below the run root is removed. *)
Definition cleanup_run (w : world) (run : string) : res (world * Z) :=
  let? a := foldM_res cleanup_run_step (run_files w run) (w, 0) in
  Ok (World (names a.1) (heap a.1)
        (List.filter (fun x => negb (bool_decide (x.1.1 = run))) (dirs a.1)), a.2).

(** ** Names: lemmas *)

Lemma sanitize_from_safe b s : all_safe (sanitize_from b s) = true.
Proof.
  revert b. induction s as [|c s IH]; intros b; simpl; [done|].
  destruct (safe_char c) eqn:E; simpl; [by rewrite E, IH|]. destruct b; simpl; auto.
Qed.

Lemma sanitize_from_id b s : all_safe s = true -> sanitize_from b s = s.
Proof.
  revert b. induction s as [|c s IH]; intros b; simpl; [done|].
  intros [-> ?]%andb_true_iff. by rewrite IH.
Qed.

Lemma all_safe_append s t : all_safe (s +:+ t) = all_safe s && all_safe t.
Proof. induction s as [|c s IH]; simpl; [done|]. by rewrite IH, andb_assoc. Qed.

(** ** Discovery: lemmas *)

Lemma from_to_json e : from_json (to_json e) = Ok e.
Proof. by destruct e. Qed.

(** What a listing says about a logical name. *)
Definition lookup_dir (d : dir) (n : string) : option RegistryEntry :=
  match dget (sanitize n) d with
  | Some c =>
      match load_manifest c with
      | Ok (Some e) => if decide (e_name e = JStr n) then Some e else None
      | _ => None
      end
  | None => None
  end.

(** Every file of a directory is unreadable or was published under its stem. *)
Definition file_wf (stem : string) (c : option (list (string * jval))) : Prop :=
  load_manifest c = Ok None \/
  exists e n sn, load_manifest c = Ok (Some e) /\ e_name e = JStr n /\ stem = sanitize n /\
    e_shm_name e = JStr sn.

Definition dir_wf (d : dir) : Prop :=
  NoDup (dkeys d) /\ forall stem c, (stem, c) ∈ d -> file_wf stem c.

Lemma dir_wf_nil : dir_wf [].
Proof. split; [apply NoDup_nil_2|intros ? ? []%not_elem_of_nil]. Qed.

Lemma dir_wf_cons stem c d :
  dir_wf ((stem, c) :: d) -> file_wf stem c /\ (stem ∉ dkeys d) /\ dir_wf d.
Proof.
  intros [Hn Hf]. simpl in Hn. apply list.NoDup_cons in Hn as [Hs Hn].
  split_and!; [apply Hf; left|done|split; [done|]]. intros; apply Hf; by right.
Qed.

Lemma dget_stem_None (d : dir) stem : stem ∉ dkeys d -> dget stem d = None.
Proof. intros. by apply dget_None. Qed.

Lemma discover_fold d out :
  dir_wf d -> exists out', foldM_res discover_step d out = Ok out' /\
    forall n, dget (JStr n) out' =
      match lookup_dir d n with Some e => Some e | None => dget (JStr n) out end.
Proof.
  revert out. induction d as [|[stem c] d IH]; intros out Hwf; [by exists out|].
  apply dir_wf_cons in Hwf as (Hf & Hs & Hwf). simpl. unfold discover_step at 1. simpl.
  destruct Hf as [Hl|(e & m & sn & Hl & Hm & -> & _)]; rewrite Hl; simpl.
  - destruct (IH out Hwf) as (out' & E & Hout). exists out'. split; [done|].
    intros n. rewrite Hout. unfold lookup_dir. simpl.
    destruct (decide (sanitize n = stem)) as [->|]; [|done].
    by rewrite (dget_stem_None d) by done; rewrite Hl.
  - destruct (IH (dset (e_name e) e out) Hwf) as (out' & E & Hout).
    exists out'. split; [done|]. intros n. rewrite Hout, Hm. unfold lookup_dir. simpl.
    destruct (decide (sanitize n = sanitize m)) as [Hnm|Hnm].
    + rewrite Hnm, (dget_stem_None d) by done. rewrite Hl, Hm.
      destruct (decide (JStr m = JStr n)) as [[= ->]|Hne]; [by rewrite dget_dset_eq|].
      by rewrite dget_dset_ne by congruence.
    + rewrite dget_dset_ne by congruence. done.
Qed.

Definition registry_wf (w : world) : Prop := forall run sub d, dir_of w run sub = Some d -> dir_wf d.

Definition reg_dir (w : world) (g : registry) : dir := default [] (dir_of w (r_run g) (r_sub g)).

Lemma reg_dir_wf w g : registry_wf w -> dir_wf (reg_dir w g).
Proof.
  intros Hw. unfold reg_dir. destruct (dir_of w (r_run g) (r_sub g)) as [d|] eqn:E; simpl.
  - by eapply Hw.
  - apply dir_wf_nil.
Qed.

Lemma reg_get_spec w g n : registry_wf w -> reg_get w g n = Ok (lookup_dir (reg_dir w g) n).
Proof.
  intros Hw. unfold reg_get, discover.
  destruct (dir_of w (r_run g) (r_sub g)) as [d|] eqn:E; unfold reg_dir; rewrite E; [|done].
  unfold discover_dir. destruct (discover_fold d [] (Hw _ _ _ E)) as (out & -> & Hout).
  simpl. rewrite Hout. by destruct (lookup_dir d n).
Qed.

Lemma load_to_json e : load_manifest (Some (to_json e)) = Ok (Some e).
Proof. unfold load_manifest. by rewrite from_to_json. Qed.

Lemma dir_wf_publish d s sn pid :
  dir_wf d -> dir_wf (dset (sanitize (sp_name s)) (Some (to_json (entry_of s sn pid))) d).
Proof.
  intros [Hn Hf]. split; [by apply NoDup_dset|]. intros stem c Hin.
  apply dget_NoDup in Hin; [|by apply NoDup_dset].
  destruct (decide (stem = sanitize (sp_name s))) as [->|Hne].
  - rewrite dget_dset_eq in Hin. injection Hin as <-. right.
    exists (entry_of s sn pid), (sp_name s), sn. rewrite load_to_json. done.
  - rewrite dget_dset_ne in Hin by done. apply Hf. by apply dget_In.
Qed.

Lemma dir_of_set w run sub d run' sub' :
  dir_of (set_dir w run sub d) run' sub' =
    if decide ((run', sub') = (run, sub)) then Some d else dir_of w run' sub'.
Proof.
  unfold dir_of, set_dir. simpl. destruct (decide _) as [->|Hne].
  - apply dget_dset_eq.
  - by apply dget_dset_ne.
Qed.

Lemma registry_wf_set w run sub d : registry_wf w -> dir_wf d -> registry_wf (set_dir w run sub d).
Proof.
  intros Hw Hd run' sub' d'. rewrite dir_of_set. destruct (decide _); intros; simplify_eq; eauto.
Qed.

Lemma publish_ok io w g s sn pid w' e :
  publish io w g s sn pid = Ok (w', e) ->
  e = entry_of s sn pid /\ names w' = names w /\ heap w' = heap w /\
  w' = set_dir w (r_run g) (r_sub g)
         (dset (sanitize (sp_name s)) (Some (to_json e)) (reg_dir w g)).
Proof. unfold publish. destruct io; simpl; [|done]. intros [= <- <-]. done. Qed.

Lemma reg_dir_set w g d : reg_dir (set_dir w (r_run g) (r_sub g) d) g = d.
Proof. unfold reg_dir. by rewrite dir_of_set, decide_True. Qed.

Lemma publish_wf io w g s sn pid w' e :
  registry_wf w -> publish io w g s sn pid = Ok (w', e) -> registry_wf w'.
Proof.
  intros Hw (-> & _ & _ & ->)%publish_ok. apply registry_wf_set; [done|].
  by apply dir_wf_publish, reg_dir_wf.
Qed.

Lemma lookup_dir_dset d s e n :
  e_name e = JStr (sp_name s) ->
  lookup_dir (dset (sanitize (sp_name s)) (Some (to_json e)) d) n =
    if decide (n = sp_name s) then Some e
    else if decide (sanitize n = sanitize (sp_name s)) then None
    else lookup_dir d n.
Proof.
  intros He. unfold lookup_dir. destruct (decide (n = sp_name s)) as [->|Hne].
  - rewrite dget_dset_eq, load_to_json, He. by rewrite decide_True.
  - destruct (decide (sanitize n = sanitize (sp_name s))) as [->|Hs].
    + rewrite dget_dset_eq, load_to_json, He. rewrite decide_False; [done|congruence].
    + by rewrite dget_dset_ne.
Qed.

(** ** Segments: lemmas *)

(** The stream carried by a segment. *)
Definition stream_repr (w : world) (seg : nat) (r : ring f64) (h : list (list f64 * Z)) : Prop :=
  mapped_ring w seg = Ok r /\ ring_repr r h.

Lemma ring_init_ok (m : segment f64) r : ring_init m = Ok r -> shm r = m.
Proof.
  unfold ring_init. destruct (negb _); [done|]. intros H. res_simp. done.
Qed.

Lemma ring_init_append cast (m : segment f64) r vec t r' idx :
  ring_init m = Ok r -> append cast r vec t = Ok (r', idx) -> ring_init (shm r') = Ok r'.
Proof.
  intros Hi Ha. pose proof (ring_init_ok _ _ Hi) as Hm.
  apply append_ok in Ha as (_ & _ & Hc & Hd & Ht & Hs).
  destruct r' as [m' c' d' t']. simpl in *. subst c' d' t'.
  unfold ring_init in *. rewrite Hs. simpl. rewrite !list_lookup_total_insert_ne by done.
  rewrite Hm. destruct (negb _); [done|].
  destruct (code_to_dtype _); simpl in *; [|done]. injection Hi as <-. done.
Qed.

Lemma mapped_ring_ok w seg r : mapped_ring w seg = Ok r -> heap w !! seg = Some (shm r).
Proof.
  unfold mapped_ring. intros H. res_simp. apply ring_init_ok in H. by subst.
Qed.

Lemma writer_write_ok cast w wr vec t w' idx :
  writer_write cast w wr vec t = Ok (w', idx) ->
  exists r r', mapped_ring w (w_seg wr) = Ok r /\ append cast r vec t = Ok (r', idx) /\
    mapped_ring w' (w_seg wr) = Ok r' /\ names w' = names w /\ dirs w' = dirs w /\
    forall seg, seg ≠ w_seg wr -> mapped_ring w' seg = mapped_ring w seg.
Proof.
  unfold writer_write. intros H. destruct (mapped_ring w (w_seg wr)) as [r|] eqn:Er; [|done].
  simpl in H. destruct (append cast r vec t) as [[r' i]|] eqn:Ea; [|done]. simpl in H.
  injection H as <- <-. exists r, r'. simpl.
  pose proof (mapped_ring_ok _ _ _ Er) as Hh.
  unfold mapped_ring in Er. rewrite Hh in Er. simpl in Er.
  split_and!; try done; unfold mapped_ring; simpl.
  - rewrite list_lookup_insert_eq by (by eapply lookup_lt_Some). simpl.
    by eapply ring_init_append.
  - intros seg Hne. by rewrite list_lookup_insert_ne.
Qed.

Lemma shm_create_ok w name cap dm dt w' seg :
  shm_create w name cap dm dt = Ok (w', seg) ->
  names w !! name = None /\ names w' = <[name := seg]> (names w) /\ dirs w' = dirs w /\
  exists r, ring_create f0 cap dm dt = Ok r /\ mapped_ring w' seg = Ok r.
Proof.
  unfold shm_create. destruct (dtype_of_name dt) eqn:Ed; [|done].
  destruct (names w !! name) eqn:E; [done|].
  destruct (ring_create f0 cap dm dt) as [r|] eqn:Er; simpl; [|done].
  intros [= <- <-]. simpl. split_and!; try done. exists r. split; [done|].
  unfold mapped_ring. simpl. rewrite lookup_app_r by lia. rewrite Nat.sub_diag. simpl.
  apply ring_create_inv in Er as (d0 & _ & ->). unfold ring_init. by destruct d0.
Qed.

(** ** Waiting and cleaning: lemmas *)

Lemma mapM_res_found (found : list (jval * RegistryEntry)) ns :
  forallb (fun n => dmem (JStr n) found) ns = true ->
  exists l, mapM_res (fun n => res_map (pair n) (of_option KeyError (dget (JStr n) found))) ns = Ok l
    /\ l.*1 = ns /\ forall n e, (n, e) ∈ l -> dget (JStr n) found = Some e.
Proof.
  induction ns as [|n ns IH]; simpl; [intros _; exists []; split_and!; set_solver|].
  intros [Hm Hr]%andb_true_iff. destruct (IH Hr) as (l & -> & Hl & Hin).
  unfold dmem in Hm. destruct (dget (JStr n) found) as [e|] eqn:E; [|done]. simpl.
  exists ((n, e) :: l). simpl. split_and!; [done|by f_equal|].
  intros n' e' [Heq|?]%elem_of_cons; [by injection Heq as -> ->|auto].
Qed.

(** The names a directory's manifests claim. *)
Definition claimed (d : dir) (sn : string) : Prop :=
  exists stem c e, (stem, c) ∈ d /\ load_manifest c = Ok (Some e) /\ e_shm_name e = JStr sn.

Lemma unlink_entry_names w e sn w' k :
  e_shm_name e = JStr sn -> unlink_entry w e = Ok (w', k) ->
  names w' = delete sn (names w) /\ heap w' = heap w /\ dirs w' = dirs w /\ 0 <= k <= 1.
Proof.
  intros He. unfold unlink_entry. rewrite He.
  destruct (names w !! sn) eqn:E; intros [= <- <-]; simpl; split_and!; try done; try lia.
  by rewrite delete_id.
Qed.

Lemma unlink_entry_total w e sn :
  e_shm_name e = JStr sn -> exists w' k, unlink_entry w e = Ok (w', k).
Proof. intros He. unfold unlink_entry. rewrite He. destruct (names w !! sn); eauto. Qed.

Lemma cleanup_sub_fold run sub d w k :
  (forall stem c, (stem, c) ∈ d -> file_wf stem c) ->
  exists w' k', foldM_res (cleanup_sub_step run sub) d (w, k) = Ok (w', k') /\
    heap w' = heap w /\
    (forall sn, names w' !! sn = names w !! sn \/ (names w' !! sn = None /\ claimed d sn)) /\
    (forall sn, claimed d sn -> names w' !! sn = None) /\
    (forall run' sub', (run', sub') ≠ (run, sub) -> dir_of w' run' sub' = dir_of w run' sub').
Proof.
  revert w k. induction d as [|[stem c] d IH]; intros w k Hf; simpl.
  - exists w, k. split_and!; try done; [by left|]. by intros sn (? & ? & ? & []%not_elem_of_nil & _).
  - assert (forall s' c', (s', c') ∈ d -> file_wf s' c') as Hf' by (intros; apply Hf; by right).
    assert (forall sn, claimed d sn -> claimed ((stem, c) :: d) sn) as Hmono.
    { intros sn (s' & c' & e' & ? & ?). exists s', c', e'. split; [by right|done]. }
    unfold cleanup_sub_step at 1. simpl.
    destruct (Hf stem c ltac:(left)) as [Hl|(e & n & sn & Hl & _ & _ & Hsn)]; rewrite Hl; simpl.
    + destruct (IH w k Hf') as (w' & k' & -> & Hh & Hn & Hc & Hd). exists w', k'.
      split_and!; try done.
      * intros sn. destruct (Hn sn) as [?|[? ?]]; auto.
      * intros sn (s' & c' & e' & [Heq|Hin]%elem_of_cons & Hl' & Hs').
        -- injection Heq as -> ->. rewrite Hl in Hl'. done.
        -- apply Hc. by exists s', c', e'.
    + destruct (unlink_entry_total w e sn Hsn) as (w1 & k1 & E1). rewrite E1. simpl.
      destruct (unlink_entry_names _ _ _ _ _ Hsn E1) as (Hn1 & Hh1 & Hd1 & _).
      match goal with |- context [foldM_res _ d (?W, ?K)] =>
        destruct (IH W K Hf') as (w' & k' & -> & Hh & Hn & Hc & Hd) end.
      simpl in *. exists w', k'. rewrite Hn1 in Hn. split_and!; [done|congruence| | |].
      * intros sn'. destruct (decide (sn' = sn)) as [->|Hne].
        -- right. split; [|exists stem, c, e; by split_and!; [left|..]].
           destruct (Hn sn) as [->|[? _]]; [apply lookup_delete_eq|done].
        -- destruct (Hn sn') as [->|[? ?]]; [left; by rewrite lookup_delete_ne|right; auto].
      * intros sn' (s' & c' & e' & [Heq|Hin]%elem_of_cons & Hl' & Hs').
        -- injection Heq as -> ->. rewrite Hl in Hl'. injection Hl' as <-.
           rewrite Hsn in Hs'. injection Hs' as <-.
           destruct (Hn sn) as [->|[? _]]; [apply lookup_delete_eq|done].
        -- apply Hc. by exists s', c', e'.
      * intros run' sub' Hne. rewrite Hd by done. rewrite dir_of_set, decide_False by done.
        unfold dir_of. by rewrite Hd1.
Qed.

(** ** Properties *)

(** Shared-memory names are safe tokens: every run id and stream name, however
    hierarchical, maps to a segment name over [A-Za-z0-9_] only (no slash), and
    sanitising is the identity on safe names, hence idempotent. *)
Theorem shm_name_safe (run_id name : string) :
  all_safe (shm_name_for run_id name) = true /\
  sanitize (sanitize name) = sanitize name /\
  (all_safe name = true -> sanitize name = name).
Proof.
  pose proof (sanitize_from_safe false name) as Hn. unfold shm_name_for.
  rewrite !all_safe_append. unfold sanitize. rewrite !sanitize_from_safe.
  split_and!; [done|by apply sanitize_from_id|by apply sanitize_from_id].
Qed.

Lemma shm_name_safe_witness : sanitize (shm_name_for "run 1" "right/tau") = "dfc_run_1_right_tau".
Proof.
  replace "dfc_run_1_right_tau" with (shm_name_for "run 1" "right/tau") by reflexivity.
  apply (shm_name_safe "run 1" (shm_name_for "run 1" "right/tau")). reflexivity.
Defined.

(** Publishing a stream makes exactly it discoverable: [get] returns the entry
    that was published, every stream with another manifest file is unaffected, a
    different name that sanitises to the same file is evicted, and the registry
    stays well formed. *)
Theorem publish_discover (io : bool) (w : world) (g : registry) (s : StreamSpec)
    (sn : string) (pid : Z) (w' : world) (e : RegistryEntry)
    (Hwf : registry_wf w) (Hpub : publish io w g s sn pid = Ok (w', e)) :
  registry_wf w' /\ e = entry_of s sn pid /\
  reg_get w' g (sp_name s) = Ok (Some e) /\
  (forall n, sanitize n ≠ sanitize (sp_name s) -> reg_get w' g n = reg_get w g n) /\
  (forall n, n ≠ sp_name s -> sanitize n = sanitize (sp_name s) -> reg_get w' g n = Ok None).
Proof.
  pose proof (publish_wf _ _ _ _ _ _ _ _ Hwf Hpub) as Hwf'.
  apply publish_ok in Hpub as (-> & _ & _ & Hw').
  split; [done|]. split; [done|].
  assert (forall n, reg_get w' g n =
    Ok (if decide (n = sp_name s) then Some (entry_of s sn pid)
        else if decide (sanitize n = sanitize (sp_name s)) then None
        else lookup_dir (reg_dir w g) n)) as Hget.
  { intros n. rewrite reg_get_spec by done. rewrite Hw', reg_dir_set. f_equal.
    by apply lookup_dir_dset. }
  split_and!.
  - rewrite Hget. by rewrite decide_True.
  - intros n Hn. rewrite Hget, reg_get_spec by done.
    rewrite decide_False by (intros ->; done). by rewrite decide_False.
  - intros n Hn Hs. rewrite Hget. by rewrite decide_False, decide_True.
Qed.

Definition demo_spec : StreamSpec := MkSpec "right/tau" 2 4 "float64" (Some f1).
Definition demo_registry : registry := Registry "run1" "streams".
Definition empty_world : world := World ∅ [] [].

Lemma empty_world_wf : registry_wf empty_world.
Proof. by intros run sub d. Qed.

Lemma publish_discover_witness : exists w',
  publish true empty_world demo_registry demo_spec "dfc_run1_right_tau" 42 =
    Ok (w', entry_of demo_spec "dfc_run1_right_tau" 42) /\
  reg_get w' demo_registry "right/tau" = Ok (Some (entry_of demo_spec "dfc_run1_right_tau" 42)).
Proof.
  eexists. split; [reflexivity|].
  eapply (publish_discover true empty_world demo_registry demo_spec "dfc_run1_right_tau" 42);
    [apply empty_world_wf|reflexivity].
Defined.

(** Creating a writer is all or nothing.  If it raises, no shared-memory name
    and no manifest is left behind; if it succeeds, the stream is discoverable, and
    attaching the discovered entry maps the very segment the writer owns, empty and
    with the geometry of the spec. *)
Theorem writer_create_atomic (io : bool) (w : world) (s : StreamSpec) (run : string)
    (g : registry) (pid : Z) (w' : world) (out : res StreamWriter)
    (Hwf : registry_wf w) (Hspec : stream_spec s = Ok s)
    (Hnew : writer_create io w s run g pid = (w', out)) :
  match out with
  | Raise _ => names w' = names w /\ dirs w' = dirs w
  | Ok wr =>
      exists e rd r, reg_get w' g (sp_name s) = Ok (Some e) /\ reader_attach w' e = Ok rd /\
        rd_seg rd = w_seg wr /\ stream_repr w' (w_seg wr) r [] /\
        Ring.capacity r = sp_capacity s /\ Ring.dim r = sp_dim s
  end.
Proof.
  unfold writer_create in Hnew. set (sn := shm_name_for run (sp_name s)) in *.
  destruct (shm_create w sn _ _ _) as [[w1 seg]|] eqn:Ec; [|by injection Hnew as <- <-].
  apply shm_create_ok in Ec as (Hfresh & Hn1 & Hd1 & r & Hr & Hm).
  destruct (publish io w1 g s sn pid) as [[w2 e]|] eqn:Ep; injection Hnew as <- <-.
  - assert (registry_wf w1) as Hwf1.
    { intros ru su d. unfold dir_of. rewrite Hd1. apply Hwf. }
    pose proof (publish_wf _ _ _ _ _ _ _ _ Hwf1 Ep) as Hwf2.
    apply publish_ok in Ep as (-> & Hn2 & Hh2 & Hw2).
    assert (mapped_ring w2 seg = Ok r) as Hm2 by (unfold mapped_ring; by rewrite Hh2).
    exists (entry_of s sn pid), (Reader seg (entry_of s sn pid)), r. simpl.
    rewrite reg_get_spec by done. rewrite Hw2 at 1. rewrite reg_dir_set.
    rewrite (lookup_dir_dset _ s) by done. rewrite decide_True by done.
    assert (0 < sp_capacity s /\ 0 < sp_dim s) as [Hc Hd].
    { unfold stream_spec in Hspec. destruct (decide _); [done|].
      destruct (sp_dim s <=? 0) eqn:?; [done|]. destruct (sp_capacity s <=? 0) eqn:?; [done|]. lia. }
    split_and!; [done| |done| | |].
    + unfold reader_attach. simpl. rewrite Hn2, Hn1, lookup_insert_eq. simpl. by rewrite Hm2.
    + split; [done|]. eapply ring_repr_create; [| |exact Hr]; lia.
    + by apply ring_create_inv in Hr as (? & _ & ->).
    + by apply ring_create_inv in Hr as (? & _ & ->).
  - simpl. split; [|done]. rewrite Hn1. by apply delete_insert_id.
Qed.

Lemma writer_create_atomic_witness : exists w' wr e rd,
  writer_create true empty_world demo_spec "run1" demo_registry 42 = (w', Ok wr) /\
  reg_get w' demo_registry "right/tau" = Ok (Some e) /\ reader_attach w' e = Ok rd.
Proof.
  destruct (writer_create true empty_world demo_spec "run1" demo_registry 42) as [w' [wr|]] eqn:E;
    [|vm_compute in E; discriminate].
  destruct (writer_create_atomic true empty_world demo_spec "run1" demo_registry 42 w' (Ok wr))
    as (e & rd & r & H1 & H2 & _); [apply empty_world_wf|reflexivity|exact E|].
  exists w', wr, e, rd. split; [reflexivity|]. split; [exact H1|exact H2].
Defined.

(** End to end through shared memory: writing one sample extends the stream that
    every reader of the segment sees by exactly that sample, a reader's [last(k)]
    returns the newest [k] in order, and every other segment is untouched. *)
Theorem stream_write_read (cast : dtype -> f64 -> f64) (w : world) (wr : StreamWriter)
    (rd : StreamReader) (vec : list f64) (t k : Z) (r : ring f64) h (w' : world) (idx : Z)
    (Hrepr : stream_repr w (w_seg wr) r h) (Hsame : rd_seg rd = w_seg wr) (Hk : 0 < k)
    (Hok : writer_write cast w wr vec t = Ok (w', idx)) :
  idx = Z.of_nat (length h) /\
  exists r', stream_repr w' (w_seg wr) r' (h ++ [(cast (rdtype r) <$> vec, t)])%list /\
    reader_last w' rd k = Ok (read_of r' (h ++ [(cast (rdtype r) <$> vec, t)])%list k) /\
    (forall rd', rd_seg rd' ≠ w_seg wr -> reader_last w' rd' k = reader_last w rd' k).
Proof.
  destruct Hrepr as [Hm Hr].
  apply writer_write_ok in Hok as (r0 & r' & Hm0 & Ha & Hm' & _ & _ & Hother).
  rewrite Hm in Hm0. injection Hm0 as <-.
  destruct (append_repr cast r h vec t r' idx Hr Ha) as [-> Hr'].
  split; [done|]. exists r'. split_and!; [by split| |].
  - unfold reader_last. rewrite Hsame, Hm'. simpl. by rewrite (ring_last_exact r' _ k Hr' Hk).
  - intros rd' Hne. unfold reader_last. by rewrite Hother.
Qed.

Definition demo_write : res (world * Z) :=
  match writer_create true empty_world demo_spec "run1" demo_registry 42 with
  | (w, Ok wr) => writer_write (fun _ x => x) w wr [f0; f1] 100
  | (_, Raise e) => Raise e
  end.

Lemma stream_write_read_witness : exists w' idx r',
  demo_write = Ok (w', idx) /\ idx = 0 /\ stream_repr w' 0 r' [([f0; f1], 100)].
Proof.
  destruct (writer_create true empty_world demo_spec "run1" demo_registry 42) as [w [wr|]] eqn:E;
    [|vm_compute in E; discriminate].
  destruct (writer_write (fun _ x => x) w wr [f0; f1] 100) as [[w' idx]|] eqn:Ew;
    [|vm_compute in E; injection E as <- <-; vm_compute in Ew; discriminate].
  assert (w_seg wr = 0%nat) as Hseg by (vm_compute in E; injection E as <- <-; reflexivity).
  assert (stream_repr w 0 (Ring (create_segment f0 4 2 Float64) 4 2 Float64) []) as Hrep.
  { split; [vm_compute in E; injection E as <- <-; reflexivity|].
    apply (ring_repr_create f0 4 2 "float64"); [lia|lia|reflexivity]. }
  edestruct (stream_write_read (fun _ x => x) w wr (Reader 0 (entry_of demo_spec "" 0))
    [f0; f1] 100 1 (Ring (create_segment f0 4 2 Float64) 4 2 Float64) []) as (Hi & r' & Hr' & _);
    [by rewrite Hseg|by rewrite Hseg|lia|exact Ew|].
  exists w', idx, r'. split; [unfold demo_write; rewrite E; exact Ew|]. split; [exact Hi|].
  rewrite Hseg in Hr'. exact Hr'.
Defined.

(** Waiting for streams.  A successful wait returns exactly the requested names,
    each with the entry discovered at the same poll; [AttachAborted] is raised only
    when a stop was requested and [TimeoutError] only once the deadline is reached;
    and the wait never outlives its deadline: a poll whose clock has reached it ends it. *)
Theorem wait_for_outcome (g : registry) (ns : list string) (start timeout : f64)
    (polls : list poll)
    (Hwf : Forall (fun p => registry_wf (po_world p)) polls) :
  match wait_for g ns start timeout polls with
  | Some (Ok l) =>
      exists p, p ∈ polls /\ l.*1 = ns /\
        forall n e, (n, e) ∈ l -> reg_get (po_world p) g n = Ok (Some e)
  | Some (Raise AttachAborted) => exists p, p ∈ polls /\ po_stop p = true
  | Some (Raise TimeoutError) =>
      exists p, p ∈ polls /\ fle (fadd start timeout) (po_now p) = true
  | Some (Raise _) => False
  | None => Forall (fun p => fle (fadd start timeout) (po_now p) = false) polls
  end.
Proof.
  unfold wait_for. induction Hwf as [|p polls Hp Hwf IH]; simpl; [done|].
  assert (forall (P : poll -> Prop), (exists q, q ∈ polls /\ P q) -> exists q, q ∈ p :: polls /\ P q)
    as Hmono by (intros P (q & ? & ?); exists q; split; [by right|done]).
  destruct (discover (po_world p) g) as [found|e] eqn:Ed.
  - destruct (forallb _ ns) eqn:Ef.
    + destruct (mapM_res_found _ _ Ef) as (l & -> & Hl & Hin).
      exists p. split_and!; [left|done|]. intros n e Hne. unfold reg_get. rewrite Ed. simpl.
      by rewrite (Hin _ _ Hne).
    + destruct (po_stop p) eqn:Es; [exists p; split; [left|done]|].
      destruct (fle _ (po_now p)) eqn:El; [exists p; split; [left|done]|].
      destruct (wait_for_loop g ns _ polls) as [[l|[]]|]; auto.
  - pose proof (reg_get_spec (po_world p) g "" Hp) as Hg. unfold reg_get in Hg. by rewrite Ed in Hg.
Qed.

Lemma wait_for_outcome_witness :
  wait_for demo_registry ["right/tau"] f0 f1 [Poll empty_world false f0; Poll empty_world false f1]
    = Some (Raise TimeoutError) /\
  exists p, p ∈ [Poll empty_world false f0; Poll empty_world false f1] /\
    fle (fadd f0 f1) (po_now p) = true.
Proof.
  split; [vm_compute; reflexivity|].
  apply (wait_for_outcome demo_registry ["right/tau"] f0 f1
    [Poll empty_world false f0; Poll empty_world false f1]).
  constructor; [apply empty_world_wf|constructor; [apply empty_world_wf|constructor]].
Defined.

(** Reclaiming a crashed consumer's channels: [cleanup_sub] removes every
    shared-memory name its manifests claim and no other, and leaves every other
    manifest directory (the telemetry of live producers) as it was. *)
Theorem cleanup_sub_reclaims (w : world) (run sub : string) (Hwf : registry_wf w) :
  exists w' k, cleanup_sub w run sub = Ok (w', k) /\ heap w' = heap w /\
    (forall sn, claimed (default [] (dir_of w run sub)) sn -> names w' !! sn = None) /\
    (forall sn, ~ claimed (default [] (dir_of w run sub)) sn -> names w' !! sn = names w !! sn) /\
    (forall run' sub', (run', sub') ≠ (run, sub) -> dir_of w' run' sub' = dir_of w run' sub').
Proof.
  unfold cleanup_sub. destruct (dir_of w run sub) as [d|] eqn:E; simpl.
  - destruct (cleanup_sub_fold run sub d w 0 (proj2 (Hwf _ _ _ E))) as (w' & k & Ef & Hh & Hn & Hc & Hd).
    exists w', k. split_and!; try done. intros sn Hsn. destruct (Hn sn) as [?|[_ ?]]; done.
  - exists w, 0. split_and!; try done. by intros sn (? & ? & ? & []%not_elem_of_nil & _).
Qed.

Definition demo_world : world :=
  (writer_create true empty_world demo_spec "run1" (Registry "run1" "control") 42).1.

Lemma demo_world_wf : registry_wf demo_world.
Proof.
  intros run sub d. unfold dir_of.
  change (dirs demo_world) with [(("run1", "control"), dset "right_tau"
    (Some (to_json (entry_of demo_spec "dfc_run1_right_tau" 42))) [])].
  simpl. destruct (decide _); [|done]. intros [= <-].
  exact (dir_wf_publish [] demo_spec "dfc_run1_right_tau" 42 dir_wf_nil).
Qed.

Lemma cleanup_sub_reclaims_witness :
  names demo_world !! "dfc_run1_right_tau" = Some 0%nat /\
  exists w' k, cleanup_sub demo_world "run1" "control" = Ok (w', k) /\
    names w' !! "dfc_run1_right_tau" = None.
Proof.
  split; [reflexivity|].
  destruct (cleanup_sub_reclaims demo_world "run1" "control" demo_world_wf)
    as (w' & k & E & _ & Hc & _).
  exists w', k. split; [exact E|]. apply Hc.
  exists "right_tau", (Some (to_json (entry_of demo_spec "dfc_run1_right_tau" 42))),
    (entry_of demo_spec "dfc_run1_right_tau" 42).
  split; [left|split; reflexivity].
Defined.
