(* ===== verification/Text.v ===== *)
(** * Python text primitives

    The [str] operations the modelled modules use: splitting, the digit test, substring
    search, decimal printing and the greedy character-class runs of their regular
    expressions.  Strings are byte strings; on the ASCII names, tags and command lines the
    code handles, bytes and characters agree. *)

From Stdlib Require Import Ascii String.
From S2P Require Import Prelude Float64 Ring Streams.
Local Open Scope string_scope.
Local Open Scope Z_scope.

(** ** Characters *)

Definition digit_char (c : ascii) : bool := in_range "0" "9" c.
(** [[0-9a-f]]. *)
Definition hex_char (c : ascii) : bool := digit_char c || in_range "a" "f" c.
(** [[A-Za-z0-9]]. *)
Definition alnum_char (c : ascii) : bool :=
  in_range "A" "Z" c || in_range "a" "z" c || digit_char c.

(** ** Strings *)

Fixpoint all_chars (p : ascii -> bool) (s : string) : bool :=
  match s with EmptyString => true | String c s => p c && all_chars p s end.

(** [str.isdigit]. *)
Definition py_isdigit (s : string) : bool :=
  negb (bool_decide (s = "")) && all_chars digit_char s.

(** [int(s)] on a string of digits: beyond 4300 digits Python refuses. *)
Definition int_of_digits (s : string) : res Z :=
  if (4300 <? String.length s)%nat then Raise ValueError
  else of_option ValueError (digits_from 0 s).

(** The longest prefix of characters in a class, and the rest. *)
Fixpoint span (p : ascii -> bool) (s : string) : string * string :=
  match s with
  | EmptyString => ("", "")
  | String c t => if p c then let r := span p t in (String c r.1, r.2) else ("", s)
  end.

(** Exactly [n] characters in a class. *)
Fixpoint span_n (n : nat) (p : ascii -> bool) (s : string) : option (string * string) :=
  match n, s with
  | O, _ => Some ("", s)
  | S n, String c t =>
      if p c then r ← span_n n p t; Some (String c r.1, r.2) else None
  | S _, EmptyString => None
  end.

(** [s.removeprefix], failing when the prefix is absent. *)
Fixpoint strip_prefix (pre s : string) : option string :=
  match pre, s with
  | EmptyString, _ => Some s
  | String a pre, String b s => if Ascii.eqb a b then strip_prefix pre s else None
  | String _ _, EmptyString => None
  end.

Definition starts_with (pre s : string) : bool :=
  match strip_prefix pre s with Some _ => true | None => false end.

(** [needle in s]. *)
Fixpoint contains (needle s : string) : bool :=
  starts_with needle s ||
  match s with EmptyString => false | String _ t => contains needle t end.

(** [s.split(sep)] for a one-character separator: never empty. *)
Fixpoint py_split (sep : ascii) (s : string) : list string :=
  match s with
  | EmptyString => [""]
  | String c t =>
      if Ascii.eqb c sep then "" :: py_split sep t
      else match py_split sep t with
           | [] => [String c ""]
           | x :: xs => String c x :: xs
           end
  end.

(** [sep.join(l)]. *)
Fixpoint py_join (sep : string) (l : list string) : string :=
  match l with
  | [] => ""
  | [x] => x
  | x :: l => x +:+ sep +:+ py_join sep l
  end.

(** ** Decimal printing *)

Definition digit_of (n : Z) : ascii := ascii_of_nat (Z.to_nat (48 + n)).

Fixpoint dec_go (fuel : nat) (n : Z) (acc : string) : string :=
  match fuel with
  | O => acc
  | S fuel =>
      let acc := String (digit_of (n mod 10)) acc in
      if n <? 10 then acc else dec_go fuel (n / 10) acc
  end.

(** [str(n)].  The number of decimal digits is at most the number of binary ones. *)
Definition str_of_int (n : Z) : string :=
  if n <? 0 then String "-" (dec_go (S (Z.to_nat (Z.log2 (- n)))) (- n) "")
  else dec_go (S (Z.to_nat (Z.log2 n))) n "".

(** ** Lemmas *)

Lemma digit_of_spec n : 0 <= n < 10 ->
  digit_char (digit_of n) = true /\ Z.of_nat (nat_of_ascii (digit_of n)) - 48 = n.
Proof.
  intros H.
  assert (Forall (fun d => digit_char (digit_of d) = true /\ Z.of_nat (nat_of_ascii (digit_of d)) - 48 = d)
    (seqZ 0 10)) as Hall by (repeat constructor).
  rewrite Forall_forall in Hall. apply Hall, elem_of_seqZ. lia.
Qed.

Lemma dec_go_digits fuel n acc :
  0 <= n < 2 ^ Z.of_nat fuel -> (0 < fuel)%nat ->
  digits_from 0 (dec_go fuel n acc) = digits_from n acc.
Proof.
  revert n acc. induction fuel as [|fuel IH]; intros n acc Hn Hf; [lia|]. cbn [dec_go].
  assert (0 <= n mod 10 < 10) as Hm by (apply Z.mod_pos_bound; lia).
  destruct (digit_of_spec _ Hm) as [Hd Hv]. unfold digit_char in Hd.
  assert (forall a, digits_from a (String (digit_of (n mod 10)) acc) =
    digits_from (a * 10 + n mod 10) acc) as Hstep by (intros a; simpl; by rewrite Hd, Hv).
  destruct (Z.ltb_spec n 10).
  - rewrite Hstep. f_equal. rewrite Z.mod_small; lia.
  - pose proof (Z.div_mod n 10 ltac:(lia)).
    assert (0 <= n / 10 < 2 ^ Z.of_nat fuel /\ (0 < fuel)%nat) as [Hq Hf'].
    { rewrite Nat2Z.inj_succ, Z.pow_succ_r in Hn by lia. split.
      - split; [apply Z.div_pos; lia|apply Z.div_lt_upper_bound; lia].
      - destruct fuel; [change (2 ^ Z.of_nat 0) with 1 in Hn|]; lia. }
    rewrite (IH _ _ Hq Hf'), Hstep. f_equal. lia.
Qed.

Lemma fuel_log2 n : 0 <= n -> 0 <= n < 2 ^ Z.of_nat (S (Z.to_nat (Z.log2 n))).
Proof.
  intros Hn. split; [done|]. rewrite Nat2Z.inj_succ, Z2Nat.id by apply Z.log2_nonneg.
  destruct (decide (n = 0)) as [->|]; [done|]. apply Z.log2_spec. lia.
Qed.

(** Printing then reading a natural number. *)
Lemma str_of_int_digits n : 0 <= n -> digits_from 0 (str_of_int n) = Some n.
Proof.
  intros Hn. unfold str_of_int. destruct (Z.ltb_spec n 0); [lia|].
  rewrite dec_go_digits; [done|by apply fuel_log2|lia].
Qed.

Lemma dec_go_all fuel n acc : 0 <= n ->
  all_chars digit_char acc = true -> all_chars digit_char (dec_go fuel n acc) = true.
Proof.
  revert n acc. induction fuel as [|fuel IH]; intros n acc Hn Ha; [done|]. cbn [dec_go].
  destruct (digit_of_spec (n mod 10)) as [Hd _]; [apply Z.mod_pos_bound; lia|].
  assert (all_chars digit_char (String (digit_of (n mod 10)) acc) = true)
    by (cbn [all_chars]; by rewrite Hd, Ha).
  destruct (n <? 10); [done|]. apply IH; [apply Z.div_pos; lia|done].
Qed.

Lemma dec_go_length fuel n acc :
  (String.length (dec_go fuel n acc) <= fuel + String.length acc)%nat /\
  ((0 < fuel)%nat -> dec_go fuel n acc ≠ "").
Proof.
  revert n acc. induction fuel as [|fuel IH]; intros n acc; [simpl; split; lia|]. cbn [dec_go].
  destruct (n <? 10); [simpl; split; [lia|done]|].
  destruct (IH (n / 10) (String (digit_of (n mod 10)) acc)) as [Hl Hne]. cbn [String.length] in Hl.
  split; [lia|]. intros _. destruct fuel; [done|]. apply Hne. lia.
Qed.

Lemma str_of_int_isdigit n : 0 <= n -> py_isdigit (str_of_int n) = true.
Proof.
  intros Hn. unfold str_of_int, py_isdigit. destruct (Z.ltb_spec n 0); [lia|].
  rewrite dec_go_all by done. rewrite bool_decide_false; [done|].
  apply dec_go_length. lia.
Qed.

Lemma int_of_str_of_int n : 0 <= n < 2 ^ 4299 -> int_of_digits (str_of_int n) = Ok n.
Proof.
  intros Hn. unfold int_of_digits. rewrite str_of_int_digits by lia.
  destruct (Nat.ltb_spec 4300 (String.length (str_of_int n))) as [Hl|]; [|done]. exfalso.
  unfold str_of_int in Hl. destruct (Z.ltb_spec n 0); [lia|].
  destruct (dec_go_length (S (Z.to_nat (Z.log2 n))) n "") as [Hle _]. cbn [String.length] in Hle.
  assert (Z.log2 n <= 4299).
  { destruct (decide (n = 0)) as [->|]; [vm_compute; discriminate|].
    apply Z.lt_le_incl, Z.log2_lt_pow2; lia. }
  lia.
Qed.

Lemma str_app_assoc (a b c : string) : (a +:+ b) +:+ c = a +:+ (b +:+ c).
Proof. induction a as [|x a IH]; [done|]. exact (f_equal (String x) IH). Qed.

Lemma all_chars_app p a b : all_chars p (a +:+ b) = all_chars p a && all_chars p b.
Proof. induction a as [|x a IH]; simpl; [done|]. by rewrite IH, andb_assoc. Qed.

Lemma span_app p a c t : all_chars p a = true -> p c = false ->
  span p (a +:+ String c t) = (a, String c t).
Proof.
  intros Ha Hc. induction a as [|x a IH]; simpl in *; [by rewrite Hc|].
  apply andb_true_iff in Ha as [-> Ha]. by rewrite (IH Ha).
Qed.

Lemma span_sound p s : s = (span p s).1 +:+ (span p s).2 /\ all_chars p (span p s).1 = true.
Proof.
  induction s as [|c s [IH1 IH2]]; [done|]. simpl. destruct (p c) eqn:E; simpl; [|done].
  rewrite E, IH2. split; [exact (f_equal (String c) IH1)|done].
Qed.

Lemma span_n_app p a t : all_chars p a = true -> span_n (String.length a) p (a +:+ t) = Some (a, t).
Proof.
  intros Ha. induction a as [|x a IH]; simpl in *; [by destruct t|].
  apply andb_true_iff in Ha as [-> Ha]. by rewrite (IH Ha).
Qed.

Lemma strip_prefix_app a b : strip_prefix a (a +:+ b) = Some b.
Proof. induction a as [|x a IH]; [by destruct b|]. simpl. rewrite Ascii.eqb_refl. exact IH. Qed.

Lemma strip_prefix_Some a s t : strip_prefix a s = Some t -> s = a +:+ t.
Proof.
  revert s. induction a as [|x a IH]; intros [|y s]; simpl; try (by intros [= <-]).
  destruct (Ascii.eqb x y) eqn:E; [|done]. apply Ascii.eqb_eq in E as ->. intros H.
  exact (f_equal (String y) (IH _ H)).
Qed.

Lemma py_split_nonempty c s : py_split c s ≠ [].
Proof. destruct s; simpl; [done|]. destruct (Ascii.eqb _ _); [done|]. by destruct (py_split _ _). Qed.

Lemma py_split_join c s : py_join (String c "") (py_split c s) = s.
Proof.
  induction s as [|x s IH]; [done|]. simpl. destruct (Ascii.eqb x c) eqn:E.
  - apply Ascii.eqb_eq in E as ->. pose proof (py_split_nonempty c s).
    destruct (py_split c s) eqn:Es; [done|]. rewrite <-IH. done.
  - pose proof (py_split_nonempty c s). destruct (py_split c s) as [|y ys] eqn:Es; [done|].
    destruct ys; simpl in *; by rewrite <-IH.
Qed.

(** ** Sorting *)

(** Stable insertion sort: [sorted(l, key=...)] as an order on the elements. *)
Section sort.
Context {A : Type} (le : A -> A -> bool).

Fixpoint insert_sorted (x : A) (l : list A) : list A :=
  match l with
  | [] => [x]
  | y :: l => if le x y then x :: y :: l else y :: insert_sorted x l
  end.

Definition py_sorted (l : list A) : list A := foldr insert_sorted [] l.

Lemma insert_sorted_perm x l : insert_sorted x l ≡ₚ x :: l.
Proof.
  induction l as [|y l IH]; simpl; [done|]. destruct (le x y); [done|].
  rewrite IH. by apply Permutation_swap.
Qed.

Lemma py_sorted_perm l : py_sorted l ≡ₚ l.
Proof. induction l as [|x l IH]; simpl; [done|]. by rewrite insert_sorted_perm, IH. Qed.

Lemma elem_of_py_sorted x l : x ∈ py_sorted l <-> x ∈ l.
Proof. by rewrite py_sorted_perm. Qed.
End sort.
