(* ===== verification/Orphans.v ===== *)
(** * Orphans: the reaper of processes and shared memory a dead supervisor left behind

    Models [orphans.py] (and [make_run_id] of [system.py], whose ids it parses back): the
    liveness probe, the two detectors, the scan of /proc, the SIGTERM/SIGKILL escalation and
    the two stale-data sweeps over the world of [Streams].

    What the operating system answers is an input ([env]): the /proc listing with the raw
    contents of each process's files, the probe results while scanning and while sweeping,
    which signals and unlinks succeed, and the (clock, probe) pairs the grace loop sees.
    The signals delivered and the world are the state ([host]).  A pid outside a C int makes
    [os.kill] raise [OverflowError], which is not an [OSError]. *)

From Stdlib Require Import Ascii String.
From S2P Require Import Prelude Float64 Ring Streams Text.
Local Open Scope string_scope.
Local Open Scope Z_scope.

(** ** Names *)

Definition ENV_TAG : string := "DFC_SUPERVISOR_PID".

(** [make_run_id] of [system.py]; [hex8] is the truncated uuid. *)
Definition make_run_id (pid : Z) (hex8 : string) : string := str_of_int pid +:+ "_" +:+ hex8.

(** [tag_supervisor]: the environment entry the children inherit. *)
Definition tag_supervisor (pid : Z) : string := ENV_TAG +:+ "=" +:+ str_of_int pid.

(** The common part of the three expressions: [(\d+)_([0-9a-f]{8})], and the rest. *)
Definition run_stamp (s : string) : option (string * string * string) :=
  let d := span digit_char s in
  if bool_decide (d.1 = "") then None
  else r ← strip_prefix "_" d.2;
       h ← span_n 8 hex_char r;
       Some (d.1, h.1, h.2).

(** [_SHM_RE.match]: the two groups. *)
Definition shm_re (name : string) : option (string * string) :=
  r ← strip_prefix "dfc_" name;
  m ← run_stamp r;
  _ ← strip_prefix "_" m.2;
  Some m.1.

(** [_RUN_DIR_RE.match]: [$] also matches before a final newline. *)
Definition newline : string := String (ascii_of_nat 10) "".
Definition run_dir_re (entry : string) : option (string * string) :=
  m ← run_stamp entry;
  if bool_decide (m.2 = "") || bool_decide (m.2 = newline) then Some m.1 else None.

(** One match of [_MAPS_RE] at the start of [s]: its group and what follows the match. *)
Definition maps_match (s : string) : option (string * string) :=
  r ← strip_prefix "/dev/shm/dfc_" s;
  m ← run_stamp r;
  rest ← strip_prefix "_" m.2;
  Some (m.1.1, rest).

(** [_MAPS_RE.findall]: each match or each character consumed takes one unit of fuel, so
    the length of the text is enough. *)
Fixpoint maps_findall (fuel : nat) (s : string) : list string :=
  match fuel, s with
  | O, _ | _, EmptyString => []
  | S fuel, String _ t =>
      match maps_match s with
      | Some (g, rest) => g :: maps_findall fuel rest
      | None => maps_findall fuel t
      end
  end.

(** ** Liveness *)

Inductive probe := Delivered | NoSuchProcess | NotPermitted.

Definition MAX_PID : Z := 2147483647.

Section liveness.
Context (probe_of : Z -> probe).

(** [pid_alive]. *)
Definition pid_alive (pid : jval) : res bool :=
  match py_int pid with
  | Raise TypeError | Raise ValueError => Ok false
  | Raise e => Raise e
  | Ok pid =>
      if pid <=? 0 then Ok false
      else if MAX_PID <? pid then Raise OverflowError
      else match probe_of pid with
           | NoSuchProcess => Ok false
           | NotPermitted => Ok true
           | Delivered => Ok true
           end
  end.

Definition alive (pid : Z) : res bool := pid_alive (JInt pid).
End liveness.

(** ** Detection *)

Record ProcRecord := MkProc {
  p_pid : Z;
  p_tag : option string;
  p_cmdline : list string;
  p_mapped_creators : list Z;
}.

Inductive reason := Tagged | Legacy.

#[export] Instance reason_eq_dec : EqDecision reason.
Proof. solve_decision. Defined.

(** [any(f(x) for x in l)]: stops at the first truth. *)
Fixpoint any_res {A} (f : A -> res bool) (l : list A) : res bool :=
  match l with
  | [] => Ok false
  | x :: l => let? b := f x in if b then Ok true else any_res f l
  end.

(** [classify_orphan]. *)
Definition classify_orphan (self_pid : Z) (alive : Z -> res bool) (r : ProcRecord)
    : res (option reason) :=
  if p_pid r =? self_pid then Ok None
  else match p_tag r with
  | Some tag =>
      if negb (py_isdigit tag) then Ok None
      else let? sup := int_of_digits tag in
           let? a := alive sup in
           Ok (if negb a then Some Tagged else None)
  | None =>
      if negb (existsb (contains "spawn_main") (p_cmdline r)) then Ok None
      else if bool_decide (p_mapped_creators r = []) then Ok None
      else let? a := any_res alive (p_mapped_creators r) in
           Ok (if a then None else Some Legacy)
  end.

(** The files of one /proc entry; [None] is an [OSError] on that access. *)
Record procfs := ProcFs {
  pf_uid : option Z;
  pf_environ : option string;
  pf_cmdline : option string;
  pf_maps : option string;
}.

Definition nul : ascii := "000"%char.

(** The loop over the environment entries: the first one with the tag. *)
Definition environ_tag (environ : string) : option string :=
  head (omap (strip_prefix (ENV_TAG +:+ "=")) (py_split nul environ)).

Definition mapped_creators (maps : string) : res (list Z) :=
  let? ms := mapM_res int_of_digits (maps_findall (String.length maps) maps) in
  Ok (py_sorted Z.leb (remove_dups ms)).

(** [_read_proc_record]. *)
Definition read_proc_record (uid pid : Z) (fs : procfs) : res (option ProcRecord) :=
  match pf_uid fs with
  | None => Ok None
  | Some u =>
      if negb (u =? uid) then Ok None
      else match pf_environ fs, pf_cmdline fs, pf_maps fs with
      | Some environ, Some cmdline, Some maps =>
          let? creators := mapped_creators maps in
          Ok (Some (MkProc pid (environ_tag environ)
            (List.filter (fun a => negb (bool_decide (a = ""))) (py_split nul cmdline))
            creators))
      | _, _, _ => Ok None
      end
  end.

(** ** The environment and the state *)

(** What the grace loop of [kill_orphans] reads in one iteration. *)
Record kpoll := KPoll { kp_now : f64; kp_probe : Z -> probe }.

Record env := Env {
  en_self : Z;
  en_uid : Z;
  en_proc : option (list (string * procfs));
  en_scan : Z -> probe;
  en_sweep : Z -> probe;
  en_kill_ok : bool -> Z -> bool;
  en_start : f64;
  en_polls : list kpoll;
  en_shm_ok : bool;
  en_unlink_ok : string -> bool;
  en_entries : option (list (string * bool));
}.

Inductive signal := SIGTERM | SIGKILL.

Record host := Host { h_world : world; h_sent : list (signal * Z) }.

Definition with_h_world (w : world) (h : host) : host := Host w (h_sent h).
Definition send (s : signal) (pid : Z) (h : host) : host := Host (h_world h) (h_sent h ++ [(s, pid)])%list.

(** ** Scanning *)

(** The loop body of [find_orphans]. *)
Definition find_orphans_step (e : env) (include_legacy : bool)
    (out : list (ProcRecord * reason)) (entry : string * procfs)
    : res (list (ProcRecord * reason)) :=
  if negb (py_isdigit entry.1) then Ok out
  else let? pid := int_of_digits entry.1 in
       let? o := read_proc_record (en_uid e) pid entry.2 in
       match o with
       | None => Ok out
       | Some rec =>
           let? why := classify_orphan (en_self e) (alive (en_scan e)) rec in
           match why with
           | None => Ok out
           | Some Legacy => Ok (if include_legacy then out ++ [(rec, Legacy)] else out)%list
           | Some Tagged => Ok (out ++ [(rec, Tagged)])%list
           end
       end.

Definition find_orphans (e : env) (include_legacy : bool) : res (list (ProcRecord * reason)) :=
  let? entries := of_option OSError (en_proc e) in
  foldM_res (find_orphans_step e include_legacy) entries [].

(** ** Reaping *)

Definition ORPHAN_GRACE_S : f64 := f_of_Z 5.

(** [os.kill(pid, sig)] for a real signal. *)
Definition os_kill (e : env) (s : signal) (pid : Z) : ST host bool := fun h =>
  if MAX_PID <? pid then (h, Raised OverflowError)
  else if en_kill_ok e (match s with SIGTERM => true | SIGKILL => false end) pid
       then (send s pid h, Returned true) else (h, Returned false).

(** The SIGTERM pass: the pids it reached. *)
Fixpoint term_all (e : env) (pids : list Z) : ST host (list Z) :=
  match pids with
  | [] => mret []
  | pid :: pids =>
      ok ← os_kill e SIGTERM pid;
      killed ← term_all e pids;
      mret (if ok : bool then pid :: killed else killed)
  end.

(** [[pid for pid in remaining if pid_alive(pid)]]. *)
Fixpoint filter_res {A} (f : A -> res bool) (l : list A) : res (list A) :=
  match l with
  | [] => Ok []
  | x :: l => let? b := f x in let? r := filter_res f l in Ok (if b then x :: r else r)
  end.

(** The grace loop; the sleep is the passage to the next observation. *)
Fixpoint grace_loop (deadline : f64) (remaining : list Z) (polls : list kpoll) : ST host (list Z) :=
  match remaining with
  | [] => mret []
  | _ :: _ =>
      match polls with
      | [] => st_running
      | p :: polls =>
          if flt (kp_now p) deadline
          then remaining ← st_lift (filter_res (alive (kp_probe p)) remaining);
               grace_loop deadline remaining polls
          else mret remaining
      end
  end.

(** The SIGKILL pass over the survivors. *)
Fixpoint kill_all (e : env) (pids : list Z) : ST host unit :=
  match pids with
  | [] => mret tt
  | pid :: pids => _ ← os_kill e SIGKILL pid; kill_all e pids
  end.

Definition kill_orphans (e : env) (pids : list Z) : ST host (list Z) :=
  killed ← term_all e pids;
  remaining ← grace_loop (fadd (en_start e) ORPHAN_GRACE_S) killed (en_polls e);
  _ ← kill_all e remaining;
  mret killed.

(** ** Stale data *)

(** A counting loop: an exception keeps what the earlier iterations did. *)
Fixpoint st_fold {A} (f : Z -> A -> ST host Z) (l : list A) (k : Z) : ST host Z :=
  match l with
  | [] => mret k
  | x :: l => k ← f k x; st_fold f l k
  end.

(** The loop body of [sweep_stale_shm]. *)
Definition sweep_shm_step (e : env) (keep : list string) (removed : Z) (name : string)
    : ST host Z :=
  match shm_re name with
  | None => mret removed
  | Some (pid, hex8) =>
      if bool_decide (pid +:+ "_" +:+ hex8 ∈ keep) then mret removed
      else n ← st_lift (int_of_digits pid);
           a ← st_lift (alive (en_sweep e) n);
           if a : bool then mret removed
           else if en_unlink_ok e name
                then _ ← st_modify (fun h => with_h_world (shm_unlink (h_world h) name) h);
                     mret (removed + 1)
                else mret removed
  end.

Definition sweep_stale_shm (e : env) (keep : list string) : ST host Z :=
  if negb (en_shm_ok e) then mret 0
  else h ← st_get; st_fold (sweep_shm_step e keep) (map_to_list (names (h_world h))).*1 0.

(** One manifest of [cleanup_run], as a step of the host. *)
Definition reclaim_manifest (removed : Z) (f : string * option (list (string * jval))) : ST host Z :=
  h ← st_get;
  a ← st_lift (cleanup_run_step (h_world h, removed) f);
  _ ← st_modify (with_h_world a.1);
  mret a.2.

(** The removal of the run's tree. *)
Definition rmtree (run : string) (w : world) : world :=
  World (names w) (heap w) (List.filter (fun x => negb (bool_decide (x.1.1 = run))) (dirs w)).

(** [cleanup_run] of [streams/registry.py] on the host. *)
Definition reclaim_run (run : string) : ST host Z :=
  h ← st_get;
  k ← st_fold reclaim_manifest (run_files (h_world h) run) 0;
  _ ← st_modify (fun h => with_h_world (rmtree run (h_world h)) h);
  mret k.

(** The loop body of [sweep_stale_run_dirs]; [entry.2] is [os.path.isdir]. *)
Definition sweep_dirs_step (e : env) (keep : list string) (cleaned : Z)
    (entry : string * bool) : ST host Z :=
  match run_dir_re entry.1 with
  | None => mret cleaned
  | Some (pid, _) =>
      if bool_decide (entry.1 ∈ keep) then mret cleaned
      else n ← st_lift (int_of_digits pid);
           a ← st_lift (alive (en_sweep e) n);
           if a : bool then mret cleaned
           else if negb entry.2 then mret cleaned
           else _ ← reclaim_run entry.1; mret (cleaned + 1)
  end.

Definition sweep_stale_run_dirs (e : env) (keep : list string) : ST host Z :=
  match en_entries e with
  | None => mret 0
  | Some entries => st_fold (sweep_dirs_step e keep) entries 0
  end.

(** [sweep]: best effort, every exception is logged and dropped. *)
Definition sweep (e : env) (keep : list string) (include_legacy : bool) : ST host unit :=
  try_except
    (orphans ← st_lift (find_orphans e include_legacy);
     _ ← (if bool_decide (orphans = []) then mret [] else kill_orphans e ((p_pid ∘ fst) <$> orphans));
     _ ← sweep_stale_shm e keep;
     _ ← sweep_stale_run_dirs e keep;
     mret tt)
    (fun _ => Some (mret tt)).

(** ** The run id stamped into names *)

Definition hex8_ok (h : string) : Prop := String.length h = 8%nat /\ all_chars hex_char h = true.

Lemma run_stamp_make pid hex8 rest : 0 <= pid -> hex8_ok hex8 ->
  run_stamp (make_run_id pid hex8 +:+ rest) = Some (str_of_int pid, hex8, rest).
Proof.
  intros Hp [Hl Hh]. unfold run_stamp, make_run_id. rewrite !str_app_assoc.
  pose proof (str_of_int_isdigit pid Hp) as Hd. unfold py_isdigit in Hd.
  apply andb_true_iff in Hd as [Hne Hd]. apply negb_true_iff, bool_decide_eq_false in Hne.
  change ("_" +:+ hex8 +:+ rest) with (String "_" (hex8 +:+ rest)).
  rewrite span_app by done. cbn [fst snd]. rewrite bool_decide_false by done.
  cbn [strip_prefix]. rewrite Ascii.eqb_refl. cbn -[span_n].
  rewrite <-Hl, span_n_app by done. done.
Qed.

Lemma safe_run_id pid hex8 : 0 <= pid -> hex8_ok hex8 -> sanitize (make_run_id pid hex8) = make_run_id pid hex8.
Proof.
  intros Hp [_ Hh]. apply sanitize_from_id. unfold make_run_id. rewrite !all_safe_append.
  pose proof (str_of_int_isdigit pid Hp) as Hd. apply andb_true_iff in Hd as [_ Hd].
  assert (forall p s, (forall c, p c = true -> safe_char c = true) ->
    all_chars p s = true -> all_safe s = true) as Hall.
  { intros p s Hc. induction s as [|c s IH]; simpl; [done|].
    intros [Hc1 Hs]%andb_true_iff. by rewrite (Hc _ Hc1), IH. }
  assert (forall c, hex_char c = true -> safe_char c = true) as Hx
    by (intros [[][][][][][][][]]; vm_compute; congruence).
  rewrite (Hall digit_char _ ltac:(intros c Hc; apply Hx; unfold hex_char; by rewrite Hc) Hd).
  by rewrite (Hall hex_char _ Hx Hh).
Qed.

Lemma shm_re_make pid hex8 stream : 0 <= pid -> hex8_ok hex8 ->
  shm_re (shm_name_for (make_run_id pid hex8) stream) = Some (str_of_int pid, hex8).
Proof.
  intros Hp Hh. unfold shm_re, shm_name_for. rewrite safe_run_id by done.
  rewrite strip_prefix_app. cbn -[strip_prefix]. rewrite run_stamp_make by done.
  cbn -[strip_prefix]. by rewrite strip_prefix_app.
Qed.

Lemma run_dir_re_make pid hex8 : 0 <= pid -> hex8_ok hex8 ->
  run_dir_re (make_run_id pid hex8) = Some (str_of_int pid, hex8).
Proof.
  intros Hp Hh. unfold run_dir_re. pose proof (run_stamp_make pid hex8 "" Hp Hh) as E.
  assert (forall s, s +:+ "" = s) as Hnil by (intros s; induction s as [|c s IH]; [done|]; exact (f_equal (String c) IH)).
  rewrite Hnil in E. by rewrite E.
Qed.

(** ** Detection: lemmas *)

(** What makes a process provably an orphan. *)
Definition provable_orphan (self : Z) (alive : Z -> res bool) (r : ProcRecord) (why : reason) : Prop :=
  p_pid r ≠ self /\
  match why with
  | Tagged => exists tag sup, p_tag r = Some tag /\ py_isdigit tag = true /\
      int_of_digits tag = Ok sup /\ alive sup = Ok false
  | Legacy => p_tag r = None /\ (exists a, a ∈ p_cmdline r /\ contains "spawn_main" a = true) /\
      p_mapped_creators r ≠ [] /\ Forall (fun c => alive c = Ok false) (p_mapped_creators r)
  end.

Lemma any_res_false {A} (f : A -> res bool) l :
  any_res f l = Ok false <-> Forall (fun x => f x = Ok false) l.
Proof.
  induction l as [|x l IH]; simpl; [by split|]. rewrite Forall_cons, <-IH.
  destruct (f x) as [[]|]; simpl; naive_solver.
Qed.

Lemma existsb_elem {A} (f : A -> bool) l : existsb f l = true <-> exists a, a ∈ l /\ f a = true.
Proof. rewrite existsb_exists. setoid_rewrite list_elem_of_In. done. Qed.

Lemma classify_spec self al r why :
  classify_orphan self al r = Ok (Some why) <-> provable_orphan self al r why.
Proof.
  unfold classify_orphan, provable_orphan.
  destruct (Z.eqb_spec (p_pid r) self); [split; [done|by intros [? _]]|].
  destruct (p_tag r) as [tag|].
  - split.
    + destruct (py_isdigit tag) eqn:Ed; simpl; [|done]. intros H. res_simp.
      destruct (al _) as [[]|] eqn:Ea; simplify_eq/=. eauto 10.
    + destruct why; [|by intros (_ & ? & _)]. intros (_ & t & sup & [= <-] & -> & -> & Ha).
      simpl. by rewrite Ha.
  - split.
    + destruct (existsb _ _) eqn:Ee; simpl; [|done]. case_bool_decide; [done|]. intros H'. res_simp.
      destruct (any_res _ _) as [[]|] eqn:Ea; simplify_eq/=. apply existsb_elem in Ee.
      by apply any_res_false in Ea.
    + destruct why; [by intros (_ & ? & ? & ? & _)|].
      intros (_ & _ & Hex%existsb_elem & Hne & Hall%any_res_false).
      by rewrite Hex, bool_decide_false, Hall.
Qed.

(** The entries of the listing a scan reads. *)
Definition scanned (e : env) (entry : string * procfs) (r : ProcRecord) : Prop :=
  exists pid, py_isdigit entry.1 = true /\ int_of_digits entry.1 = Ok pid /\
    read_proc_record (en_uid e) pid entry.2 = Ok (Some r).

Lemma find_orphans_step_spec e lg out en out1 :
  find_orphans_step e lg out en = Ok out1 ->
  forall r why, (r, why) ∈ out1 <-> (r, why) ∈ out \/ (scanned e en r /\
    provable_orphan (en_self e) (alive (en_scan e)) r why /\ (why = Legacy -> lg = true)).
Proof.
  unfold find_orphans_step, scanned. intros H r why. rewrite <-classify_spec.
  destruct (py_isdigit en.1) eqn:Ed; simpl in H.
  2:{ injection H as <-. split; [by left|]. by intros [?|((? & ? & _) & _)]. }
  destruct (int_of_digits en.1) as [pid|] eqn:Ei; simpl in H; [|done].
  destruct (read_proc_record _ pid _) as [[rec|]|] eqn:Er; simpl in H; [| |done].
  2:{ injection H as <-. split; [by left|]. intros [?|((p & _ & [= <-] & Hr) & _)]; congruence. }
  assert ((exists p, true = true /\ Ok pid = Ok p /\
    read_proc_record (en_uid e) p en.2 = Ok (Some r)) <-> rec = r) as ->.
  { split; [|intros ->; eauto]. intros (p & _ & [= <-] & Hr). congruence. }
  destruct (classify_orphan _ _ rec) as [[[]|]|] eqn:Ec; simpl in H; [| | |done];
    injection H as <-.
  - rewrite elem_of_app, list_elem_of_singleton. split.
    + intros [?|[= -> ->]]; [by left|right]. by split_and!.
    + intros [?|(-> & Hc & _)]; [by left|right]. congruence.
  - destruct lg; rewrite ?elem_of_app, ?list_elem_of_singleton; (split; [|]).
    + intros [?|[= -> ->]]; [by left|right]. by split_and!.
    + intros [?|(-> & Hc & _)]; [by left|right]. congruence.
    + by left.
    + intros [?|(-> & Hc & Hl)]; [done|]. rewrite Ec in Hc. injection Hc as <-. by discriminate Hl.
  - split; [by left|]. intros [?|(-> & Hc & _)]; [done|congruence].
Qed.

Lemma find_orphans_fold e lg entries out out' :
  foldM_res (find_orphans_step e lg) entries out = Ok out' ->
  forall r why, (r, why) ∈ out' <-> (r, why) ∈ out \/
    exists entry, entry ∈ entries /\ scanned e entry r /\
      provable_orphan (en_self e) (alive (en_scan e)) r why /\ (why = Legacy -> lg = true).
Proof.
  revert out. induction entries as [|en entries IH]; intros out; simpl.
  { intros [= ->] r why. split; [by left|]. intros [?|(? & []%not_elem_of_nil & _)]; done. }
  intros H r why. destruct (find_orphans_step e lg out en) as [out1|] eqn:E1; [|done].
  rewrite (IH _ H r why), (find_orphans_step_spec _ _ _ _ _ E1). split.
  - intros [[?|Hs]|(en' & Hin & Hs)]; [by left| |]; right; [exists en|exists en'];
      (split; [set_solver|done]).
  - intros [?|(en' & [->|Hin]%elem_of_cons & Hs)]; [by left; left|by left; right|right; eauto].
Qed.

(** ** Reaping: lemmas *)

Definition lives (pr : Z -> probe) (pid : Z) : bool :=
  (0 <? pid) && match pr pid with NoSuchProcess => false | _ => true end.

Lemma alive_lives pr pid : pid <= MAX_PID -> alive pr pid = Ok (lives pr pid).
Proof.
  intros H. unfold alive, pid_alive, lives. simpl.
  destruct (Z.leb_spec pid 0), (Z.ltb_spec 0 pid); try lia; [done|].
  destruct (Z.ltb_spec MAX_PID pid); [lia|]. by destruct (pr pid).
Qed.

Definition can_term (e : env) (pid : Z) : bool := en_kill_ok e true pid.
Definition can_kill (e : env) (pid : Z) : bool := en_kill_ok e false pid.

Lemma filter_res_lives pr l : Forall (fun p => p <= MAX_PID) l ->
  filter_res (alive pr) l = Ok (List.filter (lives pr) l).
Proof.
  induction 1 as [|p l Hp Hl IH]; simpl; [done|]. rewrite alive_lives by done. simpl.
  rewrite IH. simpl. by destruct (lives pr p).
Qed.

Lemma term_all_spec e pids w sent : Forall (fun p => p <= MAX_PID) pids ->
  term_all e pids (Host w sent) =
    (Host w (sent ++ (pair SIGTERM <$> List.filter (can_term e) pids))%list,
     Returned (List.filter (can_term e) pids)).
Proof.
  intros Hp. revert sent. induction Hp as [|p l Hp Hl IH]; intros sent; cbn -[Z.ltb MAX_PID].
  { by rewrite app_nil_r. }
  unfold mbind, st_bind, os_kill. destruct (Z.ltb_spec MAX_PID p); [lia|]. change (en_kill_ok e true p) with (can_term e p).
  destruct (can_term e p); unfold send; simpl; rewrite IH; simpl; [|done].
  by rewrite <-app_assoc.
Qed.

Lemma kill_all_spec e pids w sent : Forall (fun p => p <= MAX_PID) pids ->
  kill_all e pids (Host w sent) =
    (Host w (sent ++ (pair SIGKILL <$> List.filter (can_kill e) pids))%list, Returned tt).
Proof.
  intros Hp. revert sent. induction Hp as [|p l Hp Hl IH]; intros sent; cbn -[Z.ltb MAX_PID].
  { by rewrite app_nil_r. }
  unfold mbind, st_bind, os_kill. destruct (Z.ltb_spec MAX_PID p); [lia|]. change (en_kill_ok e false p) with (can_kill e p).
  destruct (can_kill e p); unfold send; simpl; rewrite IH; simpl; [|done].
  by rewrite <-app_assoc.
Qed.

(** The survivors of the polls of the grace period. *)
Definition survive (polls : list kpoll) (pid : Z) : bool := forallb (fun p => lives (kp_probe p) pid) polls.

Lemma Forall_filter_le (f : Z -> bool) l :
  Forall (fun p => p <= MAX_PID) l -> Forall (fun p => p <= MAX_PID) (List.filter f l).
Proof. induction 1; simpl; [constructor|]. destruct (f _); [by constructor|done]. Qed.

Lemma filter_andb {A} (f g : A -> bool) l :
  List.filter g (List.filter f l) = List.filter (fun x => f x && g x) l.
Proof.
  induction l as [|x l IH]; simpl; [done|]. destruct (f x); simpl; [|done].
  destruct (g x); by rewrite IH.
Qed.

Lemma filter_true {A} (l : list A) : List.filter (fun _ => true) l = l.
Proof. induction l; simpl; congruence. Qed.

Lemma grace_loop_spec dl rem during p after h :
  Forall (fun x => x <= MAX_PID) rem ->
  Forall (fun q => flt (kp_now q) dl = true) during -> flt (kp_now p) dl = false ->
  grace_loop dl rem (during ++ p :: after)%list h = (h, Returned (List.filter (survive during) rem)).
Proof.
  intros Hr Hd Hp. revert rem Hr. induction Hd as [|q during Hq Hd IH]; intros rem Hr.
  - unfold survive. simpl. rewrite filter_true. destruct rem; simpl; [done|]. by rewrite Hp.
  - destruct rem as [|x rem]; [done|]. remember (x :: rem) as l eqn:El.
    assert (grace_loop dl l ((q :: during) ++ p :: after)%list h =
      grace_loop dl (List.filter (lives (kp_probe q)) l) (during ++ p :: after)%list h) as ->.
    { rewrite El. cbn [grace_loop app]. rewrite Hq. rewrite <-El, filter_res_lives by done. done. }
    rewrite IH by by apply Forall_filter_le. rewrite filter_andb. done.
Qed.

(** Nothing a reaping does touches the world, and it signals only the given pids. *)
Definition only_to (pids : list Z) (h h' : host) : Prop :=
  h_world h' = h_world h /\
  forall s p, (s, p) ∈ h_sent h' -> (s, p) ∈ h_sent h \/ p ∈ pids.

Lemma os_kill_only e s p pids h0 : p ∈ pids -> keeps (only_to pids h0) (os_kill e s p).
Proof.
  intros Hp h [Hw Hs]. unfold os_kill. destruct (_ <? _); [done|]. destruct (en_kill_ok _ _ _); [|done].
  split; [done|]. simpl. intros s' p' [?|Hin]%elem_of_app; [auto|].
  apply list_elem_of_singleton in Hin as [= -> ->]. by right.
Qed.

Lemma term_all_only e l pids h0 : l ⊆ pids -> keeps (only_to pids h0) (term_all e l).
Proof.
  induction l as [|p l IH]; intros Hl; [apply keeps_ret|]. simpl.
  apply keeps_bind; [apply os_kill_only; set_solver|]. intros ok.
  apply keeps_bind; [apply IH; set_solver|]. intros. apply keeps_ret.
Qed.

Lemma kill_all_only e l pids h0 : l ⊆ pids -> keeps (only_to pids h0) (kill_all e l).
Proof.
  induction l as [|p l IH]; intros Hl; [apply keeps_ret|]. simpl.
  apply keeps_bind; [apply os_kill_only; set_solver|]. intros ok. apply IH. set_solver.
Qed.

Lemma term_all_subset e l h h' killed : term_all e l h = (h', Returned killed) -> killed ⊆ l.
Proof.
  revert h h' killed. induction l as [|p l IH]; intros h h' killed; simpl; [by intros [= _ <-]|].
  unfold mbind, st_bind. destruct (os_kill e SIGTERM p h) as [h1 [ok| |]]; try done.
  destruct (term_all e l h1) as [h2 [k| |]] eqn:E; try done. intros [= _ <-].
  apply IH in E. destruct ok; set_solver.
Qed.

Lemma filter_res_subset {A} (f : A -> res bool) l r : filter_res f l = Ok r -> r ⊆ l.
Proof.
  revert r. induction l as [|x l IH]; intros r; simpl; [by intros [= <-]|].
  destruct (f x) as [b|]; simpl; [|done]. destruct (filter_res f l) as [r'|]; simpl; [|done].
  intros [= <-]. specialize (IH _ eq_refl). destruct b; set_solver.
Qed.

Lemma grace_loop_state dl polls rem h :
  (grace_loop dl rem polls h).1 = h /\
  forall r, (grace_loop dl rem polls h).2 = Returned r -> r ⊆ rem.
Proof.
  revert rem. induction polls as [|p polls IH]; intros [|x rem]; simpl; try (split; [done|by intros r [= <-]]).
  destruct (flt _ dl); [|split; [done|by intros r [= <-]]].
  change (let? b := alive (kp_probe p) x in let? r := filter_res (alive (kp_probe p)) rem in
    Ok (if b then x :: r else r)) with (filter_res (alive (kp_probe p)) (x :: rem)).
  unfold mbind, st_bind, st_lift. destruct (filter_res _ (x :: rem)) as [l|] eqn:E; [|by split].
  destruct (IH l) as [H1 H2]. split; [done|]. intros r Hr.
  etrans; [by apply H2|by eapply filter_res_subset].
Qed.

Lemma kill_orphans_only e pids h0 : keeps (only_to pids h0) (kill_orphans e pids).
Proof.
  unfold kill_orphans. apply (keeps_bind_val _ (fun k => k ⊆ pids)).
  { by apply term_all_only. } { intros h h' a. apply term_all_subset. }
  intros killed Hk. apply (keeps_bind_val _ (fun r => r ⊆ pids)).
  { intros h Hh. by rewrite (proj1 (grace_loop_state _ _ _ _)). }
  { intros h h' r E. etrans; [|exact Hk]. eapply (proj2 (grace_loop_state _ _ _ _)). by rewrite E. }
  intros r Hr. apply keeps_bind; [by apply kill_all_only|]. intros. apply keeps_ret.
Qed.

(** ** Stale data: lemmas *)

Lemma st_fold_keeps {A} P (f : Z -> A -> ST host Z) l k :
  (forall k x, x ∈ l -> keeps P (f k x)) -> keeps P (st_fold f l k).
Proof.
  revert k. induction l as [|x l IH]; intros k Hf; [apply keeps_ret|]. simpl.
  apply keeps_bind; [apply Hf; left|]. intros. apply IH. intros. apply Hf. by right.
Qed.

(** A manifest of another run naming the segment. *)
Definition foreign_claim (w : world) (run sn : string) : Prop :=
  exists x, x ∈ dirs w /\ x.1.1 ≠ run /\ claimed x.2 sn.

(** What survives of run [run] and segment [sn], relative to a first world and signal log: the
    manifests, and the segment if no other run's manifest names it. *)
Definition spared (w0 : world) (sent : list (signal * Z)) (run sn : string) (h : host) : Prop :=
  h_sent h = sent /\ (~ foreign_claim w0 run sn -> names (h_world h) !! sn = names w0 !! sn) /\
  (forall x, x ∈ dirs (h_world h) -> x ∈ dirs w0) /\
  (forall sub, dir_of (h_world h) run sub = dir_of w0 run sub).

Lemma spared_unlink w0 sent run sn n h :
  (~ foreign_claim w0 run sn -> n ≠ sn) -> spared w0 sent run sn h -> spared w0 sent run sn (with_h_world (shm_unlink (h_world h) n) h).
Proof.
  intros Hne (Hs & Hn & Hd & Hr). unfold spared, shm_unlink, with_h_world, dir_of in *. simpl.
  split_and!; try done. intros Hf. rewrite lookup_delete_ne; auto.
Qed.

Lemma sweep_shm_spared e keep w0 sent run sn pid hex8 k name :
  shm_re sn = Some (pid, hex8) ->
  pid +:+ "_" +:+ hex8 ∈ keep \/ (exists n, int_of_digits pid = Ok n /\ alive (en_sweep e) n = Ok true) ->
  keeps (spared w0 sent run sn) (sweep_shm_step e keep k name).
Proof.
  intros Hsn Hpr. unfold sweep_shm_step. destruct (shm_re name) as [[p x]|] eqn:E; [|apply keeps_ret].
  case_bool_decide as Hk; [apply keeps_ret|]. apply keeps_lift_bind. intros n Hn.
  apply keeps_lift_bind. intros [] Ha; [apply keeps_ret|]. destruct (en_unlink_ok e name); [|apply keeps_ret].
  apply keeps_bind; [|intros; apply keeps_ret]. apply keeps_modify. intros h. apply spared_unlink.
  intros _ ->. rewrite Hsn in E. injection E as <- <-. destruct Hpr as [?|(n' & Hn' & Ha')]; [done|].
  congruence.
Qed.

Lemma reclaim_manifest_spared w0 sent run sn k f :
  (~ foreign_claim w0 run sn -> ~ (exists m, load_manifest f.2 = Ok (Some m) /\ e_shm_name m = JStr sn)) ->
  keeps (spared w0 sent run sn) (reclaim_manifest k f).
Proof.
  intros Hf h Hh. unfold reclaim_manifest, mbind, st_bind, st_get, st_lift, cleanup_run_step. simpl.
  destruct (load_manifest f.2) as [[m|]|] eqn:El; simpl; [|by destruct h|done].
  unfold unlink_entry. destruct (e_shm_name m) as [| | | |n] eqn:Em; simpl; try done.
  destruct (names (h_world h) !! n) eqn:En; simpl; [|by destruct h].
  apply spared_unlink; [|done]. intros Hc ->. apply (Hf Hc). eauto.
Qed.

Lemma elem_of_run_files w run f : f ∈ run_files w run <->
  exists x, x ∈ dirs w /\ x.1.1 = run /\ f ∈ x.2.
Proof.
  unfold run_files. rewrite list_elem_of_In, in_concat. split.
  - intros (d & Hd & Hf). apply list_elem_of_In, list_elem_of_fmap in Hd as (x & -> & Hx).
    apply list_elem_of_In, filter_In in Hx as [Hx Hr]. apply bool_decide_eq_true in Hr.
    exists x. by rewrite !list_elem_of_In.
  - intros (x & Hx & Hr & Hf). exists x.2. rewrite <-!list_elem_of_In. split; [|done].
    apply list_elem_of_fmap. exists x. split; [done|]. apply list_elem_of_In, filter_In.
    rewrite <-list_elem_of_In. by rewrite bool_decide_true.
Qed.

Lemma dget_filter_run run run' sub (ds : list ((string * string) * dir)) : run' ≠ run ->
  dget (run, sub) (List.filter (fun x => negb (bool_decide (x.1.1 = run'))) ds) = dget (run, sub) ds.
Proof.
  intros Hne. induction ds as [|[[r s] d] ds IH]; simpl; [done|].
  case_bool_decide as Hr; simpl; [|by rewrite IH]. rewrite IH, decide_False; [done|congruence].
Qed.

Lemma reclaim_run_spared w0 sent run sn run' :
  run' ≠ run -> keeps (spared w0 sent run sn) (reclaim_run run').
Proof.
  intros Hne h Hh. unfold reclaim_run. unfold mbind at 1, st_bind at 1, st_get. 
  pose proof Hh as (_ & _ & Hd & _). revert h Hh Hd.
  assert (forall fs, (forall f, f ∈ fs -> exists x, x ∈ dirs w0 /\ x.1.1 = run' /\ f ∈ x.2) ->
    keeps (spared w0 sent run sn) (k ← st_fold reclaim_manifest fs 0;
      _ ← st_modify (fun h => with_h_world (rmtree run' (h_world h)) h); mret k)) as Hk.
  { intros fs Hfs. apply keeps_bind.
    - apply st_fold_keeps. intros k f Hin. apply reclaim_manifest_spared. intros Hf (m & Hl & Hm).
      destruct (Hfs f Hin) as (x & Hx & Hr & Hfx). apply Hf. exists x. split_and!; [done|congruence|].
      destruct f as [st c]. by exists st, c, m.
    - intros k. apply keeps_bind; [|intros; apply keeps_ret]. apply keeps_modify.
      intros h (Hs & Hn & Hd & Hr). unfold spared, rmtree, dir_of in *. simpl. split_and!; try done.
      + intros x [Hx _]%list_elem_of_In%filter_In. apply Hd. by apply list_elem_of_In.
      + intros sub. by rewrite dget_filter_run. }
  intros h Hh Hd. apply Hk; [|done]. intros f (x & Hx & Hr & Hin)%elem_of_run_files. eauto.
Qed.

Lemma pid_digits pid : 0 < pid <= MAX_PID -> int_of_digits (str_of_int pid) = Ok pid.
Proof.
  unfold MAX_PID. intros Hp. apply int_of_str_of_int. split; [lia|].
  apply (Z.le_lt_trans _ (2 ^ 32)); [lia|by apply Z.pow_lt_mono_r].
Qed.

Lemma sweep_dirs_spared e keep w0 sent pid hex8 sn k entry :
  0 < pid <= MAX_PID -> hex8_ok hex8 ->
  make_run_id pid hex8 ∈ keep \/ alive (en_sweep e) pid = Ok true ->
  keeps (spared w0 sent (make_run_id pid hex8) sn) (sweep_dirs_step e keep k entry).
Proof.
  intros Hp Hx Hpr. unfold sweep_dirs_step.
  destruct (run_dir_re entry.1) as [[p x]|] eqn:E; [|apply keeps_ret].
  case_bool_decide as Hk; [apply keeps_ret|]. apply keeps_lift_bind. intros n Hn.
  apply keeps_lift_bind. intros [] Ha; [apply keeps_ret|]. destruct (negb entry.2); [apply keeps_ret|].
  apply keeps_bind; [|intros; apply keeps_ret]. apply reclaim_run_spared.
  intros Heq. rewrite Heq, run_dir_re_make in E by (done || lia). injection E as <- <-.
  rewrite pid_digits in Hn by done.
  injection Hn as <-. destruct Hpr as [?|?]; [by rewrite Heq in Hk|congruence].
Qed.

Lemma sweep_spared e keep lg h pid hex8 stream :
  let run := make_run_id pid hex8 in let sn := shm_name_for run stream in
  0 < pid <= MAX_PID -> hex8_ok hex8 ->
  run ∈ keep \/ alive (en_sweep e) pid = Ok true ->
  (~ foreign_claim (h_world h) run sn -> names (h_world (sweep e keep lg h).1) !! sn = names (h_world h) !! sn) /\
  (forall sub, dir_of (h_world (sweep e keep lg h).1) run sub = dir_of (h_world h) run sub).
Proof.
  intros run sn Hp Hx Hpr.
  assert (forall sent, keeps (spared (h_world h) sent run sn)
    (_ ← sweep_stale_shm e keep; _ ← sweep_stale_run_dirs e keep; mret tt)) as Hdata.
  { intros sent. apply keeps_bind; [|intros _; apply keeps_bind; [|intros; apply keeps_ret]].
    - unfold sweep_stale_shm. destruct (negb _); [apply keeps_ret|].
      apply keeps_bind; [apply keeps_get|]. intros h1. apply st_fold_keeps. intros k name _.
      apply (sweep_shm_spared _ _ _ _ _ _ (str_of_int pid) hex8); [apply shm_re_make; [lia|done]|].
      destruct Hpr as [?|?]; [by left|right]. exists pid. by rewrite pid_digits.
    - unfold sweep_stale_run_dirs. destruct (en_entries e); [|apply keeps_ret].
      apply st_fold_keeps. intros. by apply sweep_dirs_spared. }
  assert (keeps (fun h' => exists sent, spared (h_world h) sent run sn h') (sweep e keep lg)) as Hs.
  { unfold sweep. apply keeps_try_except; [|intros ? ? [= <-]; apply keeps_ret].
    apply keeps_bind; [apply keeps_lift|]. intros os. apply keeps_bind.
    - case_bool_decide; [apply keeps_ret|]. intros h1 (sent & _ & Hn & Hd & Hr).
      destruct (kill_orphans_only e ((p_pid ∘ fst) <$> os) h1 h1) as [Hw _]; [by split; [|left]|].
      exists (h_sent (kill_orphans e ((p_pid ∘ fst) <$> os) h1).1). unfold spared. by rewrite Hw.
    - intros _ h1 (sent & Hh1). exists sent. by apply Hdata. }
  destruct (Hs h) as (sent & _ & Hn & _ & Hd); [|by split].
  by exists (h_sent h).
Qed.

Lemma sweep_data_sent e keep sent : keeps (fun h => h_sent h = sent)
  (_ ← sweep_stale_shm e keep; _ ← sweep_stale_run_dirs e keep; mret tt).
Proof.
  assert (forall f k, keeps (fun h => h_sent h = sent) (reclaim_manifest k f)) as Hm.
  { intros f k h Hh. unfold reclaim_manifest, mbind, st_bind, st_get, st_lift. simpl.
    by destruct (cleanup_run_step _ _). }
  apply keeps_bind; [|intros _; apply keeps_bind; [|intros; apply keeps_ret]].
  - unfold sweep_stale_shm. destruct (negb _); [apply keeps_ret|].
    apply keeps_bind; [apply keeps_get|]. intros h1. apply st_fold_keeps. intros k name _.
    unfold sweep_shm_step. repeat (case_goal || apply keeps_ret || apply keeps_bind ||
      apply keeps_lift || (intros ?)); done.
  - unfold sweep_stale_run_dirs. destruct (en_entries e); [|apply keeps_ret].
    apply st_fold_keeps. intros k en _. unfold sweep_dirs_step.
    destruct (run_dir_re en.1) as [[]|]; [|apply keeps_ret]. case_bool_decide; [apply keeps_ret|].
    apply keeps_lift_bind; intros n _. apply keeps_lift_bind; intros [] _; [apply keeps_ret|].
    destruct (negb en.2); [apply keeps_ret|]. apply keeps_bind; [|intros; apply keeps_ret].
    unfold reclaim_run. apply keeps_bind; [apply keeps_get|]. intros h1.
    apply keeps_bind; [apply st_fold_keeps; auto|]. intros z. apply keeps_bind; [|intros; apply keeps_ret].
    by apply keeps_modify.
Qed.

(** Every signal a sweep sends goes to a process found to be an orphan. *)
Lemma sweep_signals e keep lg h s p :
  (s, p) ∈ h_sent (sweep e keep lg h).1 -> (s, p) ∈ h_sent h \/
  exists entries entry r why, en_proc e = Some entries /\ entry ∈ entries /\ scanned e entry r /\
    p_pid r = p /\ provable_orphan (en_self e) (alive (en_scan e)) r why /\ (why = Legacy -> lg = true).
Proof.
  unfold sweep, try_except. unfold mbind at 1, st_bind at 1. unfold st_lift.
  destruct (find_orphans e lg) as [os|x] eqn:Ef; [|by left]. 
  set (m := (if bool_decide (os = []) then mret [] else kill_orphans e ((p_pid ∘ fst) <$> os)) : ST host (list Z)).
  assert (only_to ((p_pid ∘ fst) <$> os) h (m h).1) as [_ Hk].
  { subst m. case_bool_decide; [by split; [|left]|]. by apply kill_orphans_only; split; [|left]. }
  unfold mbind at 1, st_bind at 1. intros Hin.
  assert ((s, p) ∈ h_sent (m h).1) as Hin'.
  { destruct (m h) as [h1 [ks|x|]]; simpl in *; try done.
    pose proof (sweep_data_sent e keep (h_sent h1) h1 eq_refl) as Hd. simpl in Hd.
    destruct ((_ ← sweep_stale_shm e keep; _ ← sweep_stale_run_dirs e keep; mret tt) h1) as [h2 [| |]];
      simpl in *; by rewrite Hd in Hin. }
  destruct (Hk _ _ Hin') as [?|Hp]; [by left|right]. apply list_elem_of_fmap in Hp as ([r why] & -> & Hr).
  unfold find_orphans in Ef. destruct (en_proc e) as [entries|]; [|done]. simpl in Ef.
  apply (find_orphans_fold _ _ _ _ _ Ef) in Hr as [[]%not_elem_of_nil|(entry & He & Hs & Hpo & Hl)].
  by exists entries, entry, r, why.
Qed.

(** ** Reclaiming as a filter *)

(** A segment name that is debris: stamped by a dead creator and not kept. *)
Definition stale (e : env) (keep : list string) (name : string) : bool :=
  match shm_re name with
  | None => false
  | Some (pid, hex8) =>
      negb (bool_decide (pid +:+ "_" +:+ hex8 ∈ keep)) &&
      match int_of_digits pid with Ok n => negb (lives (en_sweep e) n) | Raise _ => false end
  end.

(** Names whose embedded pid the code can probe. *)
Definition probeable (name : string) : Prop :=
  forall pid hex8, shm_re name = Some (pid, hex8) -> exists n, int_of_digits pid = Ok n /\ n <= MAX_PID.

Lemma sweep_shm_step_spec e keep k name h :
  probeable name -> (forall n, en_unlink_ok e n = true) ->
  sweep_shm_step e keep k name h =
    (if stale e keep name then with_h_world (shm_unlink (h_world h) name) h else h,
     Returned (k + if stale e keep name then 1 else 0)).
Proof.
  intros Hp Hu. unfold sweep_shm_step, stale.
  destruct (shm_re name) as [[p x]|] eqn:E; simpl; [|by rewrite Z.add_0_r].
  case_bool_decide; simpl; [by rewrite Z.add_0_r|].
  destruct (Hp p x E) as (n & -> & Hn). unfold mbind, st_bind, st_lift.
  rewrite alive_lives by done. destruct (lives (en_sweep e) n); simpl; [by rewrite Z.add_0_r|].
  by rewrite Hu.
Qed.

Lemma sweep_shm_fold e keep ns k h :
  Forall probeable ns -> (forall n, en_unlink_ok e n = true) -> exists k' h',
  st_fold (sweep_shm_step e keep) ns k h = (h', Returned k') /\ h_sent h' = h_sent h /\
  dirs (h_world h') = dirs (h_world h) /\ heap (h_world h') = heap (h_world h) /\
  k' = k + Z.of_nat (length (List.filter (stale e keep) ns)) /\
  (forall sn, names (h_world h') !! sn =
     if bool_decide (sn ∈ ns) && stale e keep sn then None else names (h_world h) !! sn).
Proof.
  intros Hp Hu. revert k h. induction Hp as [|n ns Hn Hns IH]; intros k h; simpl.
  { exists k, h. split_and!; try done. cbn. lia. }
  unfold mbind at 1, st_bind at 1. rewrite sweep_shm_step_spec by done. simpl.
  match goal with |- context [st_fold _ ns ?K ?H] => destruct (IH K H) as (k' & h' & -> & Hs & Hd & Hh & Hk & Hl) end.
  exists k', h'. rewrite Hs, Hd, Hh, Hk. split_and!; try (by destruct (stale e keep n)).
  { destruct (stale e keep n); simpl; lia. }
  intros sn. rewrite Hl. destruct (decide (sn = n)) as [->|Hne].
  - rewrite (bool_decide_true (n ∈ n :: ns)) by left. simpl. destruct (stale e keep n) eqn:Es.
    + rewrite andb_true_r. simpl. rewrite lookup_delete_eq. by destruct (bool_decide _).
    + by rewrite andb_false_r.
  - assert (bool_decide (sn ∈ n :: ns) = bool_decide (sn ∈ ns)) as -> by (apply bool_decide_ext; set_solver).
    destruct (_ && _); [done|]. destruct (stale e keep n); [|done]. simpl. by rewrite lookup_delete_ne.
Qed.

(** ** Properties *)

(** The segment sweep equals a filter.  When every stamped pid is in range and unlinking
    works, [sweep_stale_shm] removes exactly the names stamped by a dead creator outside the
    kept runs (foreign names, live creators and kept runs keep theirs), counts them, and
    touches neither the mapped memory nor the manifests. *)
Theorem sweep_shm_is_filter (e : env) (keep : list string) (h : host)
    (Hshm : en_shm_ok e = true) (Hu : forall n, en_unlink_ok e n = true)
    (Hp : forall sn, is_Some (names (h_world h) !! sn) -> probeable sn) :
  exists h' k, sweep_stale_shm e keep h = (h', Returned k) /\
    names (h_world h') = filter (fun x => stale e keep x.1 = false) (names (h_world h)) /\
    k = Z.of_nat (length (List.filter (stale e keep) (map_to_list (names (h_world h))).*1)) /\
    heap (h_world h') = heap (h_world h) /\ dirs (h_world h') = dirs (h_world h) /\
    h_sent h' = h_sent h.
Proof.
  unfold sweep_stale_shm. rewrite Hshm. simpl. unfold mbind, st_bind, st_get.
  assert (forall sn, sn ∈ (map_to_list (names (h_world h))).*1 <-> is_Some (names (h_world h) !! sn)) as Hk.
  { intros sn. rewrite list_elem_of_fmap. split.
    - intros ([n i] & -> & Hi%elem_of_map_to_list). by exists i.
    - intros [i Hi%elem_of_map_to_list]. by exists (sn, i). }
  destruct (sweep_shm_fold e keep (map_to_list (names (h_world h))).*1 0 h) as (k & h' & E & Hs & Hd & Hh & -> & Hl).
  { apply Forall_forall. intros sn Hsn. apply Hp. by apply Hk. } { done. }
  exists h', (0 + Z.of_nat (length (List.filter (stale e keep) (map_to_list (names (h_world h))).*1))).
  split_and!; try done. apply map_eq. intros sn. rewrite Hl.
  destruct (names (h_world h) !! sn) as [i|] eqn:Ei.
  - rewrite bool_decide_true by (apply Hk; eauto). simpl. symmetry. destruct (stale e keep sn) eqn:Est.
    + apply map_lookup_filter_None. right. intros x _. simpl. congruence.
    + by apply map_lookup_filter_Some.
  - symmetry. destruct (_ && _); apply map_lookup_filter_None; by left.
Qed.

(** C25: A sweep protects every live run.  For a run whose supervisor is alive, whatever else is
    on the machine: its manifests are untouched; none of its segments is unlinked, unless a manifest
    of another run claims that very name; and every signal sent goes to another process that was
    scanned and is provably orphaned, not to the reaper itself and not to a process tagged with this
    supervisor.  Only the sweep at boot acts on the legacy evidence: a periodic one signals a process
    only if its own tag names a dead supervisor. *)
Theorem sweep_spares_live (e : env) (keep : list string) (lg : bool) (h : host) (pid : Z) (hex8 : string)
    (Hpid : 0 < pid <= MAX_PID) (Hhex : hex8_ok hex8)
    (Hscan : alive (en_scan e) pid = Ok true) (Hsweep : alive (en_sweep e) pid = Ok true) :
  let run := make_run_id pid hex8 in let h' := (sweep e keep lg h).1 in
  (forall sub, dir_of (h_world h') run sub = dir_of (h_world h) run sub) /\
  (forall stream, ~ foreign_claim (h_world h) run (shm_name_for run stream) ->
     names (h_world h') !! shm_name_for run stream = names (h_world h) !! shm_name_for run stream) /\
  (forall s p, (s, p) ∈ h_sent h' -> (s, p) ∈ h_sent h \/
     exists entries entry r why, en_proc e = Some entries /\ entry ∈ entries /\ scanned e entry r /\
       p_pid r = p /\ p ≠ en_self e /\ provable_orphan (en_self e) (alive (en_scan e)) r why /\
       (lg = false -> why = Tagged) /\ p_tag r ≠ Some (str_of_int pid)).
Proof.
  simpl. split_and!.
  - by apply (sweep_spared e keep lg h pid hex8 ""); auto.
  - intros stream. by apply sweep_spared; auto.
  - intros s p Hin. destruct (sweep_signals _ _ _ _ _ _ Hin) as
      [?|(es & en & r & why & He & Hen & Hs & Hp & Hpo & Hlg)]; [by left|right].
    exists es, en, r, why. split_and!; try done.
    + destruct Hpo as [Hne _]. congruence.
    + intros ->. destruct why; [done|]. by specialize (Hlg eq_refl).
    + intros Ht. destruct Hpo as [_ Hpo]. destruct why.
      * destruct Hpo as (t & n & Ht' & _ & Hn & Ha). rewrite Ht in Ht'. injection Ht' as <-.
        rewrite pid_digits in Hn by done. congruence.
      * destruct Hpo as [? _]. congruence.
Qed.

(** The reaping escalates and ends.  With pids in range and a clock that passes the
    deadline at poll [p], [kill_orphans] returns the pids SIGTERM reached; the signals it
    sent are those SIGTERMs, in order, followed by SIGKILLs to exactly the reachable ones
    that were still alive at every poll of the grace period. *)
Theorem kill_orphans_escalates (e : env) (pids : list Z) (h : host) (during : list kpoll)
    (p : kpoll) (after : list kpoll) (Hp : Forall (fun x => x <= MAX_PID) pids)
    (Hpolls : en_polls e = (during ++ p :: after)%list)
    (Hd : Forall (fun q => flt (kp_now q) (fadd (en_start e) ORPHAN_GRACE_S) = true) during)
    (Hexp : flt (kp_now p) (fadd (en_start e) ORPHAN_GRACE_S) = false) :
  let killed := List.filter (can_term e) pids in
  kill_orphans e pids h =
    (Host (h_world h) (h_sent h ++ (pair SIGTERM <$> killed) ++
       (pair SIGKILL <$> List.filter (can_kill e) (List.filter (survive during) killed)))%list,
     Returned killed).
Proof.
  destruct h as [w sent]. simpl. unfold kill_orphans, mbind, st_bind.
  rewrite term_all_spec by done. rewrite Hpolls.
  rewrite grace_loop_spec by (done || by apply Forall_filter_le).
  rewrite kill_all_spec by by do 2 apply Forall_filter_le. by rewrite <-app_assoc.
Qed.

Lemma grace_loop_settles dl rem polls :
  Exists (fun q => flt (kp_now q) dl = false) polls -> settles (fun _ => True) (grace_loop dl rem polls).
Proof.
  intros Hx. revert rem. induction Hx as [q polls Hq|q polls Hx IH]; intros [|x rem];
    try apply settles_ret; cbn [grace_loop].
  - rewrite Hq. apply settles_ret.
  - destruct (flt _ dl); [|apply settles_ret]. apply settles_bind; [apply settles_lift|]. intros. apply IH.
Qed.

Lemma st_fold_settles {A} (f : Z -> A -> ST host Z) l k :
  (forall k x, settles (fun _ => True) (f k x)) -> settles (fun _ => True) (st_fold f l k).
Proof. intros Hf. revert k. induction l; intros k; simpl; [apply settles_ret|]. by apply settles_bind. Qed.

Lemma os_kill_settles e s p : settles (fun _ => True) (os_kill e s p).
Proof. intros h _. unfold os_kill. destruct (_ <? _); [done|]. by destruct (en_kill_ok _ _ _). Qed.

Ltac settle :=
  repeat (assumption || case_goal || apply settles_ret || apply settles_lift || apply settles_get || apply settles_modify ||
    apply st_fold_settles || apply os_kill_settles || apply settles_bind || (intros ?)); try done.

(** Housekeeping cannot take the session down.  Whatever /proc, the file system and the
    signals do - unreadable processes, foreign or out-of-range names, failing unlinks - a
    sweep returns normally as soon as the clock of its grace loop passes the deadline. *)
Theorem sweep_never_raises (e : env) (keep : list string) (lg : bool) (h : host)
    (Hclock : Exists (fun q => flt (kp_now q) (fadd (en_start e) ORPHAN_GRACE_S) = false) (en_polls e)) :
  (sweep e keep lg h).2 = Returned tt.
Proof.
  unfold sweep. match goal with |- (try_except ?m ?k h).2 = _ => assert (settles (fun _ => True) m) as Hm end.
  { apply settles_bind; [apply settles_lift|]. intros os. apply settles_bind.
    - case_bool_decide; [apply settles_ret|]. unfold kill_orphans.
      assert (forall l, settles (fun _ => True) (term_all e l)) as Ht by (induction l; simpl; settle).
      assert (forall l, settles (fun _ => True) (kill_all e l)) as Hk by (induction l; simpl; settle).
      apply settles_bind; [apply Ht|]. intros k. apply settles_bind; [by apply grace_loop_settles|].
      intros r. apply settles_bind; [apply Hk|]. intros. apply settles_ret.
    - intros _. apply settles_bind; [|intros; apply settles_bind; [|intros; apply settles_ret]].
      + unfold sweep_stale_shm, sweep_shm_step. settle.
      + unfold sweep_stale_run_dirs, sweep_dirs_step, reclaim_run, reclaim_manifest. settle. }
  destruct (Hm h I) as [_ Hr]. unfold try_except. revert Hr.
  match goal with |- (?r).2 ≠ Running -> _ => destruct r as [h1 [[]|x|]] end; done.
Qed.

(** ** Witnesses *)

(** Supervisor 100 is alive, 200 is dead; process 300 belonged to 200, process 301 to 100. *)
Definition demo_probe (p : Z) : probe :=
  if bool_decide (p ∈ [100; 300; 301]) then Delivered else NoSuchProcess.
Definition demo_proc (sup : Z) : procfs :=
  ProcFs (Some 1000) (Some ("A=b" +:+ String nul (tag_supervisor sup))) (Some "python") (Some "").
Definition demo_env : env :=
  Env 400 1000 (Some [("300", demo_proc 200); ("301", demo_proc 100); ("self", demo_proc 200)])
    demo_probe demo_probe (fun _ _ => true) f0
    [KPoll f1 demo_probe; KPoll (f_of_Z 6) demo_probe] true (fun _ => true)
    (Some [("100_0123abcd", true); ("200_0123abcd", true)]).
Definition demo_host : host :=
  Host (World {["dfc_100_0123abcd_left_q" := 0%nat; "dfc_200_0123abcd_left_q" := 1%nat;
               "other" := 2%nat]} [] []) [].

Lemma demo_sweep : sweep demo_env [] false demo_host =
  (Host (World {["dfc_100_0123abcd_left_q" := 0%nat; "other" := 2%nat]} [] [])
     [(SIGTERM, 300); (SIGKILL, 300)], Returned tt).
Proof. vm_compute. reflexivity. Qed.

Lemma sweep_spares_live_witness :
  names (h_world (sweep demo_env [] false demo_host).1) !! "dfc_100_0123abcd_left_q" = Some 0%nat.
Proof.
  destruct (sweep_spares_live demo_env [] false demo_host 100 "0123abcd") as (_ & Hn & _);
    [vm_compute; split; [reflexivity|discriminate]|split; reflexivity|reflexivity|reflexivity|].
  change "dfc_100_0123abcd_left_q" with (shm_name_for (make_run_id 100 "0123abcd") "left/q").
  rewrite (Hn "left/q" ltac:(intros (x & Hx & _); vm_compute in Hx; inversion Hx)). reflexivity.
Defined.

Lemma sweep_shm_is_filter_witness : exists h', sweep_stale_shm demo_env [] demo_host = (h', Returned 1) /\
  names (h_world h') !! "dfc_200_0123abcd_left_q" = None.
Proof.
  destruct (sweep_shm_is_filter demo_env [] demo_host eq_refl (fun _ => eq_refl)) as (h' & k & E & Hn & Hk & _).
  { intros sn [i Hi] pid hex8 Hs. revert Hi Hs. simpl.
    rewrite !lookup_insert_Some, lookup_singleton_Some.
    intros [[<- _]|[_ [[<- _]|[_ [<- _]]]]] Hs; vm_compute in Hs; try discriminate Hs; injection Hs as <- <-.
    - exists 100. split; [vm_compute; reflexivity|discriminate].
    - exists 200. split; [vm_compute; reflexivity|discriminate]. }
  exists h'. vm_compute in Hk. subst k. split; [exact E|]. rewrite Hn. vm_compute. reflexivity.
Defined.

Lemma kill_orphans_escalates_witness :
  kill_orphans demo_env [300; 302] demo_host =
    (Host (h_world demo_host) [(SIGTERM, 300); (SIGTERM, 302); (SIGKILL, 300)], Returned [300; 302]).
Proof.
  refine (eq_trans (kill_orphans_escalates demo_env [300; 302] demo_host [KPoll f1 demo_probe]
    (KPoll (f_of_Z 6) demo_probe) [] _ eq_refl _ eq_refl) _).
  - repeat constructor; vm_compute; discriminate.
  - repeat constructor.
  - vm_compute. reflexivity.
Defined.

Lemma sweep_never_raises_witness : (sweep demo_env [] true demo_host).2 = Returned tt.
Proof. apply sweep_never_raises. right. left. reflexivity. Defined.

(** A segment whose stamped number exceeds a C int stops the whole pass: [pid_alive] raises
    [OverflowError], [sweep] drops it, and debris listed after the name stays. *)
Lemma oversized_stamp_blocks : exists h,
  sweep_stale_shm demo_env [] h = (h, Raised OverflowError) /\
  stale demo_env [] "dfc_200_0123abcd_left_q" = true /\
  is_Some (names (h_world (sweep demo_env [] false h).1) !! "dfc_200_0123abcd_left_q").
Proof.
  exists (Host (World {["dfc_200_0123abcd_left_q" := 1%nat; "dfc_9999999999_0123abcd_x" := 0%nat]} [] []) []).
  vm_compute. split_and!; [reflexivity|reflexivity|eexists; reflexivity].
Qed.
