(* ===== verification/Channel.v ===== *)
(** * Control channels: naming, setpoint packing, opcodes, the command cursor

    Models [control/channel.py], [control/message.py] and the control part of
    [configs.py].  Numpy vectors are lists of binary64 values; a Python [dict] is an
    ordered association list; a subscript of a missing key raises [KeyError]. *)

From Stdlib Require Import String.
From S2P Require Import Prelude Float64 Ring Streams.
Local Open Scope string_scope.
Local Open Scope Z_scope.

(** ** Configuration ([configs.py]) *)

Record ControlChannelCfg := ChannelCfg {
  setpoint_capacity : Z;
  command_capacity : Z;
  command_dim : Z;
  ch_dtype : string;
  ch_rate_hz : f64;
  deadman_ms : f64;
  deadman_hard_ms : f64;
}.

(** [ControlChannelCfg.__post_init__]. *)
Definition channel_cfg (c : ControlChannelCfg) : res ControlChannelCfg :=
  if negb (flt f0 (deadman_ms c)) then Raise ValueError
  else if negb (flt (deadman_ms c) (deadman_hard_ms c)) then Raise ValueError
  else Ok c.

Record JointImpedanceCfg := JointImpedance {
  K_q : list f64;
  Z_q : list f64;
  K_q_fraction : option f64;
}.

Record CartesianImpedanceCfg := CartesianImpedance { K_x : list f64; Z_x : list f64 }.

Record ForceControlFrameCfg := ForceControlFrame { root_coord : string; T_in_root : list f64 }.

(** [ControlCfg]: dims of the command fields are naturals. *)
Record ControlCfg := Control {
  kind : string;
  mode : string;
  send_fn : string;
  command : list (string * nat);
  streamed : list string;
  channel : ControlChannelCfg;
  joint_impedance : option JointImpedanceCfg;
  cartesian_impedance : option CartesianImpedanceCfg;
  force_control_axes : option (list bool);
  force_control_frame : option ForceControlFrameCfg;
  force_axis_max_linear_vel : option (list f64);
}.

(** ** Names and specs *)

Definition SETPOINT : string := "setpoint".
Definition COMMAND : string := "command".
Definition GRIPPER : string := "gripper".

Definition control_channel_name (side leaf : string) : string :=
  ("cmd/" +:+ side +:+ "/" +:+ leaf).

Definition gripper_channel_name (side : string) : string := control_channel_name side GRIPPER.

Definition gripper_spec (side : string) (ch : ControlChannelCfg) : res StreamSpec :=
  stream_spec (MkSpec (gripper_channel_name side) 1 (setpoint_capacity ch) (ch_dtype ch)
                 (Some (ch_rate_hz ch))).

Definition field_dim (c : ControlCfg) (f : string) : res nat := of_option KeyError (dget f (command c)).

Definition setpoint_dim (c : ControlCfg) : res nat :=
  let? ds := mapM_res (field_dim c) (streamed c) in Ok (nsum ds).

(** The slices of [streamed_layout], from offset [off] on. *)
Fixpoint layout_from (c : ControlCfg) (off : nat) (fs : list string) :
    res (list (string * (nat * nat))) :=
  match fs with
  | [] => Ok []
  | f :: fs =>
      let? d := field_dim c f in
      let? rest := layout_from c (off + d)%nat fs in
      Ok ((f, (off, (off + d)%nat)) :: rest)
  end.

Definition streamed_layout (c : ControlCfg) : res (list (string * (nat * nat))) :=
  layout_from c 0 (streamed c).

Definition pack_streamed (c : ControlCfg) (fields : list (string * list f64)) : res (list f64) :=
  let? parts := mapM_res (fun f => of_option KeyError (dget f fields)) (streamed c) in
  Ok (concat parts).

(** The dict comprehension of [slice_streamed]. *)
Definition slice_streamed (c : ControlCfg) (v : list f64) : res (list (string * list f64)) :=
  let? ls := streamed_layout c in
  Ok (foldl (fun d x => dset x.1 (slice v x.2.1 x.2.2) d) [] ls).

(** ** The action space of a control kind *)

Definition ACTION_PRIMARY : list (string * string) :=
  [("qpos", "q_d"); ("qvel", "dq_d"); ("end_effector", "pose_d");
   ("eef_vel", "twist_d"); ("force", "wrench_d")].

Definition ABSOLUTE_FIELDS : list string := ["q_d"; "pose_d"].

Definition is_absolute (f : string) : bool := bool_decide (f ∈ ABSOLUTE_FIELDS).

Definition action_field (c : ControlCfg) : res string :=
  of_option ValueError (dget (kind c) ACTION_PRIMARY).

Definition action_dim (c : ControlCfg) : res nat :=
  let? f := action_field c in field_dim c f.

Definition action_hold_fields (c : ControlCfg) : res (list string) :=
  let? primary := action_field c in
  Ok (List.filter (fun f => negb (String.eqb f primary) && is_absolute f) (streamed c)).

(** One field of the setpoint [pack_action] assembles. *)
Definition action_value (c : ControlCfg) (primary : string) (value : list f64)
    (held : list (string * list f64)) (f : string) : res (list f64) :=
  if String.eqb f primary then Ok value
  else if is_absolute f then of_option ValueError (dget f held)
  else let? d := field_dim c f in Ok (replicate d f0).

Definition pack_action (c : ControlCfg) (value : list f64)
    (held : list (string * list f64)) : res (list f64) :=
  let? primary := action_field c in
  let? fields := foldM_res (fun d f =>
      let? v := action_value c primary value held f in Ok (dset f v d)) (streamed c) [] in
  pack_streamed c fields.

(** ** Chunk horizon estimates *)

Inductive horizon := HorizonQ | HorizonEef.

#[export] Instance horizon_eq_dec : EqDecision horizon.
Proof. solve_decision. Defined.

Definition HORIZON_KIND : list (string * horizon) :=
  [("qpos", HorizonQ); ("qvel", HorizonQ); ("end_effector", HorizonEef); ("eef_vel", HorizonEef)].

Definition HORIZON_BASE : list (string * string) := [("qvel", "q"); ("eef_vel", "eef")].

Definition horizon_kind (c : ControlCfg) : option horizon := dget (kind c) HORIZON_KIND.

Definition horizon_signals (c : ControlCfg) : list string :=
  match dget (kind c) HORIZON_BASE with Some s => [s] | None => [] end.

(** Numpy broadcasting of two vectors. *)
Definition np_add (a b : list f64) : res (list f64) :=
  if (length a =? length b)%nat then Ok (zip_with fadd a b)
  else match a, b with
  | [x], _ => Ok (fadd x <$> b)
  | _, [y] => Ok ((fun x => fadd x y) <$> a)
  | _, _ => Raise ValueError
  end.

(** [np.cumsum(chunk, axis=0)]: running column sums. *)
Fixpoint cumsum_from (acc : list f64) (rows : list (list f64)) : list (list f64) :=
  match rows with
  | [] => []
  | r :: rows => let acc := zip_with fadd acc r in acc :: cumsum_from acc rows
  end.

Definition cumsum (rows : list (list f64)) : list (list f64) :=
  match rows with [] => [] | r :: rows => r :: cumsum_from r rows end.

(** [base[None, :] + np.cumsum(chunk, axis=0) * dt]. *)
Definition integrate (base : list f64) (chunk : list (list f64)) (dt : f64) :
    res (list (list f64)) :=
  mapM_res (fun r => np_add base ((fun x => fmul x dt) <$> r)) (cumsum chunk).

(** A chunk argument: one row, or a matrix. *)
Inductive chunk := Chunk1 (row : list f64) | Chunk2 (rows : list (list f64)).

Definition chunk_rows (k : chunk) : list (list f64) :=
  match k with Chunk1 r => [r] | Chunk2 rs => rs end.

Definition estimate_chunk_trajectory (c : ControlCfg) (k : chunk) (dt : f64)
    (measured : list (string * list f64)) : res (option (horizon * list (list f64))) :=
  match horizon_kind c with
  | None => Ok None
  | Some _ =>
      let rows := chunk_rows k in
      if (length rows =? 0)%nat then Raise ValueError
      else if String.eqb (kind c) "qpos" then Ok (Some (HorizonQ, rows))
      else if String.eqb (kind c) "qvel" then
        match dget "q" measured with
        | None => Ok None
        | Some q0 => let? p := integrate q0 rows dt in Ok (Some (HorizonQ, p))
        end
      else if String.eqb (kind c) "end_effector" then Ok (Some (HorizonEef, take 3 <$> rows))
      else
        match dget "eef" measured with
        | None => Ok None
        | Some pose =>
            let? p := integrate (take 3 pose) (take 3 <$> rows) dt in Ok (Some (HorizonEef, p))
        end
  end.

Definition estimate_chunk_end (c : ControlCfg) (k : chunk) (dt : f64)
    (measured : list (string * list f64)) : res (option (horizon * list f64)) :=
  let? e := estimate_chunk_trajectory c k dt measured in
  match e with
  | None => Ok None
  | Some (h, path) => let? r := of_option IndexError (list.last path) in Ok (Some (h, r))
  end.

(** [control_specs]. *)
Definition control_specs (side : string) (c : ControlCfg) : res (list (string * StreamSpec)) :=
  let ch := channel c in
  let? d := setpoint_dim c in
  let? s := stream_spec (MkSpec (control_channel_name side SETPOINT) (Z.of_nat d)
              (setpoint_capacity ch) (ch_dtype ch) (Some (ch_rate_hz ch))) in
  let? k := stream_spec (MkSpec (control_channel_name side COMMAND) (command_dim ch)
              (command_capacity ch) (ch_dtype ch) (Some (ch_rate_hz ch))) in
  Ok [(SETPOINT, s); (COMMAND, k)].

(** ** Opcodes ([message.py]) *)

Inductive CommandKind := NONE | HOME | STOP | SWITCH_MODE | SERVO_ON.

#[export] Instance CommandKind_eq_dec : EqDecision CommandKind.
Proof. solve_decision. Defined.

Definition kind_code (k : CommandKind) : Z :=
  match k with NONE => 0 | HOME => 1 | STOP => 2 | SWITCH_MODE => 3 | SERVO_ON => 4 end.

(** [CommandKind(z)]. *)
Definition kind_of_code (z : Z) : res CommandKind :=
  if z =? 0 then Ok NONE else if z =? 1 then Ok HOME else if z =? 2 then Ok STOP
  else if z =? 3 then Ok SWITCH_MODE else if z =? 4 then Ok SERVO_ON else Raise ValueError.

Definition CMD_KIND_IDX : nat := 0.
Definition CMD_ARG0_IDX : nat := 1.

Record ControlCommand := Command { cmd_kind : CommandKind; cmd_args : list f64 }.

Definition encode (c : ControlCommand) (dm : nat) : res (list f64) :=
  if (dm <? CMD_ARG0_IDX + length (cmd_args c))%nat then Raise ValueError
  else
    let v := replicate dm f0 in
    let v := <[CMD_KIND_IDX := f_of_Z (kind_code (cmd_kind c))]> v in
    Ok (splice v CMD_ARG0_IDX (cmd_args c)).

Definition decode (vec : list f64) : res ControlCommand :=
  let? x := of_option IndexError (vec !! CMD_KIND_IDX) in
  let? z := of_option (if is_nan x then ValueError else OtherError) (f_round x) in
  let? k := kind_of_code z in
  Ok (Command k (drop CMD_ARG0_IDX vec)).

(** ** [CommandCursor] *)

Definition cursor_init (head : samples f64) : Z := default (-1) (list.last (s_seq head)).

Record drained := Drained {
  dr_rows : list (list f64);
  dr_cursor : Z;
  dr_lost : option Z;   (* the logged loss count *)
}.

Definition drain_new (cursor : Z) (batch : samples f64) : drained :=
  match s_seq batch, list.last (s_seq batch) with
  | first :: _, Some last =>
      Drained (snd <$> List.filter (fun x => cursor <? x.1) (zip (s_seq batch) (s_data batch)))
        last (if (0 <=? cursor) && (cursor + 1 <? first) then Some (first - cursor - 1) else None)
  | _, _ => Drained [] cursor None
  end.

(** The arm's end of the command channel, on a ring at rest. *)
Definition cursor_attach (r : ring f64) : Z := cursor_init (latest r).
Definition cursor_drain (cursor : Z) (r : ring f64) : drained :=
  drain_new cursor (ring_last r (capacity r)).

(** ** Packing: lemmas *)

Definition widths_ok (c : ControlCfg) (fs : list string) (vs : list (list f64)) : Prop :=
  Forall2 (fun f v => dget f (command c) = Some (length v)) fs vs.

Lemma widths_dims c fs vs :
  widths_ok c fs vs -> mapM_res (field_dim c) fs = Ok (length <$> vs).
Proof.
  induction 1 as [|f v fs vs Hf _ IH]; simpl; [done|].
  unfold field_dim at 1. rewrite Hf. simpl. by rewrite IH.
Qed.

Lemma length_concat {A} (vs : list (list A)) : length (concat vs) = nsum (length <$> vs).
Proof. induction vs as [|v vs IH]; simpl; [done|]. by rewrite length_app, IH. Qed.

(** Assigning to fresh keys in turn builds the zipped dictionary. *)
Lemma foldl_dset_zip {A} (fs : list string) (vs : list A) (acc : list (string * A)) :
  length fs = length vs -> NoDup fs -> (forall f, f ∈ fs -> f ∉ dkeys acc) ->
  foldl (fun d x => dset x.1 x.2 d) acc (zip fs vs) = (acc ++ zip fs vs)%list.
Proof.
  revert vs acc. induction fs as [|f fs IH]; intros [|v vs] acc Hl Hn Hd; try done; simpl.
  - by rewrite app_nil_r.
  - simpl in Hl. apply list.NoDup_cons in Hn as [Hf Hn].
    rewrite dkeys_dset_new by (apply Hd; left). rewrite IH.
    + by rewrite <-app_assoc.
    + lia.
    + done.
    + intros g Hg. unfold dkeys. rewrite fmap_app. intros [Hin|Hin]%elem_of_app.
      * exact (Hd g ltac:(by right) Hin).
      * simpl in Hin. apply list_elem_of_singleton in Hin. by subst.
Qed.

Lemma dget_zip {A} (fs : list string) (vs : list A) i f v :
  NoDup fs -> fs !! i = Some f -> vs !! i = Some v -> dget f (zip fs vs) = Some v.
Proof.
  revert vs i. induction fs as [|g fs IH]; intros [|w vs] [|i] Hn Hf Hv; simplify_eq/=; try done.
  - by rewrite decide_True.
  - apply list.NoDup_cons in Hn as [Hg Hn]. rewrite decide_False; [by eapply IH|].
    intros ->. apply Hg. by eapply list_elem_of_lookup_2.
Qed.

Lemma layout_slices c fs vs pre acc :
  widths_ok c fs vs ->
  exists ls, layout_from c (length pre) fs = Ok ls /\
    foldl (fun d x => dset x.1 (slice (pre ++ concat vs)%list x.2.1 x.2.2) d) acc ls =
    foldl (fun d x => dset x.1 x.2 d) acc (zip fs vs).
Proof.
  intros Hw. revert pre acc. induction Hw as [|f v fs vs Hf Hw IH]; intros pre acc; simpl.
  - by exists [].
  - unfold field_dim. rewrite Hf. simpl.
    destruct (IH (pre ++ v)%list (dset f v acc)) as (ls & El & Efold).
    rewrite length_app in El. rewrite El. simpl. eexists. split; [done|]. simpl.
    rewrite <-app_assoc in Efold. rewrite <-Efold. f_equal. f_equal.
    unfold slice. rewrite drop_app_length.
    replace (length pre + length v - length pre)%nat with (length v) by lia.
    by rewrite take_app_length.
Qed.

Lemma slice_streamed_concat c vs :
  widths_ok c (streamed c) vs -> NoDup (streamed c) ->
  slice_streamed c (concat vs) = Ok (zip (streamed c) vs).
Proof.
  intros Hw Hn. unfold slice_streamed, streamed_layout.
  destruct (layout_slices c (streamed c) vs [] [] Hw) as (ls & El & Ef).
  simpl in El. rewrite El. simpl. simpl in Ef. rewrite Ef. f_equal.
  rewrite foldl_dset_zip; [done| |done|set_solver].
  by apply Forall2_length in Hw.
Qed.

Lemma mapM_dget_zip (fs : list string) (vs : list (list f64)) :
  NoDup fs -> length fs = length vs ->
  mapM_res (fun f => of_option KeyError (dget f (zip fs vs))) fs = Ok vs.
Proof.
  intros Hn Hl.
  assert (forall gs ws, (forall i g w, gs !! i = Some g -> ws !! i = Some w ->
    dget g (zip fs vs) = Some w) -> length gs = length ws ->
    mapM_res (fun f => of_option KeyError (dget f (zip fs vs))) gs = Ok ws) as Hgen.
  { induction gs as [|g gs IH]; intros [|w ws] Hg Hlen; try done. simpl.
    rewrite (Hg 0%nat g w eq_refl eq_refl). simpl. rewrite (IH ws); [done| |simpl in Hlen; lia].
    intros i g' w' ? ?. by apply (Hg (S i)). }
  apply Hgen; [|done]. intros i g w. by apply dget_zip.
Qed.

Lemma pack_streamed_zip c vs :
  NoDup (streamed c) -> length (streamed c) = length vs ->
  pack_streamed c (zip (streamed c) vs) = Ok (concat vs).
Proof. intros Hn Hl. unfold pack_streamed. by rewrite mapM_dget_zip. Qed.

(** What [pack_action] puts in each field. *)
Definition action_slot (c : ControlCfg) (p : string) (value : list f64)
    (held : list (string * list f64)) (f : string) : list f64 :=
  match action_value c p value held f with Ok v => v | Raise _ => [] end.

(** The inputs of [pack_action] fit the command schema. *)
Definition action_fits (c : ControlCfg) (p : string) (value : list f64)
    (held : list (string * list f64)) : Prop :=
  Forall (fun f => exists v, action_value c p value held f = Ok v /\
                     dget f (command c) = Some (length v)) (streamed c).

Lemma action_fold_ok c p value held fs acc :
  (forall f, f ∈ fs -> exists v, action_value c p value held f = Ok v) ->
  foldM_res (fun d f => let? v := action_value c p value held f in Ok (dset f v d)) fs acc =
  Ok (foldl (fun d x => dset x.1 x.2 d) acc (zip fs (action_slot c p value held <$> fs))).
Proof.
  revert acc. induction fs as [|f fs IH]; intros acc Hf; simpl; [done|].
  destruct (Hf f ltac:(left)) as [v Hv]. unfold action_slot at 1. rewrite Hv. simpl.
  apply IH. intros; apply Hf; by right.
Qed.

Lemma action_fold_raise c p value held fs acc e :
  foldM_res (fun d f => let? v := action_value c p value held f in Ok (dset f v d)) fs acc
    = Raise e -> exists f, f ∈ fs /\ action_value c p value held f = Raise e.
Proof.
  revert acc. induction fs as [|f fs IH]; intros acc; simpl; [done|].
  destruct (action_value c p value held f) as [v|e'] eqn:Ev; simpl.
  - intros (g & ? & ?)%IH. exists g. split; [by right|done].
  - intros [= ->]. exists f. split; [left|done].
Qed.

Lemma action_fits_widths c p value held :
  action_fits c p value held -> widths_ok c (streamed c) (action_slot c p value held <$> streamed c).
Proof.
  unfold action_fits, widths_ok. induction 1 as [|f fs (v & Hv & Hd) _ IH]; simpl; constructor; [|done].
  unfold action_slot. by rewrite Hv.
Qed.

(** Inputs that fit are packed, to the channel's width. *)
Lemma pack_action_fits c p value held :
  action_field c = Ok p -> NoDup (streamed c) -> action_fits c p value held ->
  let v := concat (action_slot c p value held <$> streamed c) in
  pack_action c value held = Ok v /\ setpoint_dim c = Ok (length v).
Proof.
  intros Hp Hn Hfit v. subst v. set (vs := action_slot c p value held <$> streamed c).
  pose proof (action_fits_widths _ _ _ _ Hfit) as Hw. fold vs in Hw.
  pose proof (Forall2_length _ _ _ Hw) as Hl. split.
  - unfold pack_action. rewrite Hp. simpl. rewrite action_fold_ok.
    + simpl. fold vs. rewrite foldl_dset_zip by (done || set_solver). by apply pack_streamed_zip.
    + intros f Hf. unfold action_fits in Hfit. rewrite Forall_forall in Hfit.
      destruct (Hfit f Hf) as (v & Hv & _). eauto.
  - unfold setpoint_dim. rewrite (widths_dims c _ vs) by done. simpl. by rewrite length_concat.
Qed.

(** ** Opcodes: lemmas *)

Lemma kind_code_roundtrip k :
  exists z, f_round (f_of_Z (kind_code k)) = Some z /\ kind_of_code z = Ok k.
Proof. destruct k; eexists; split; reflexivity. Qed.

(** ** The cursor: lemmas *)

Lemma filter_seq_drop {A} (c g : Z) (l : list A) :
  snd <$> List.filter (fun x => c <? x.1) (zip (seqZ g (Z.of_nat (length l))) l) =
  drop (Z.to_nat (c + 1 - g)) l.
Proof.
  revert g. induction l as [|x l IH]; intros g; [by rewrite drop_nil|].
  rewrite seqZ_cons by (simpl; lia).
  replace (Z.pred (Z.of_nat (length (x :: l)))) with (Z.of_nat (length l)) by (simpl; lia).
  specialize (IH (Z.succ g)). cbn [zip zip_with List.filter fst].
  destruct (c <? g) eqn:E.
  - rewrite fmap_cons. setoid_rewrite IH. replace (Z.to_nat (c + 1 - g)) with 0%nat by lia. simpl.
    replace (Z.to_nat (c + 1 - Z.succ g)) with 0%nat by lia. by rewrite drop_0.
  - setoid_rewrite IH. replace (Z.to_nat (c + 1 - g)) with (S (Z.to_nat (c + 1 - Z.succ g))) by lia. done.
Qed.

Lemma last_seqZ g (n : nat) : (0 < n)%nat -> list.last (seqZ g (Z.of_nat n)) = Some (g + Z.of_nat n - 1).
Proof.
  intros Hn. rewrite last_lookup, length_seqZ, lookup_seqZ_lt by lia. f_equal. lia.
Qed.

(** A drain returns the retained commands beyond the cursor, and moves it to the head. *)
Lemma cursor_drain_spec r h c :
  ring_repr r h -> -1 <= c < Z.of_nat (length h) ->
  let lo := Z.of_nat (length h) - Z.min (capacity r) (Z.of_nat (length h)) in
  let d := cursor_drain c r in
  dr_rows d = drop (Z.to_nat (Z.max (c + 1) lo)) h.*1 /\
  dr_cursor d = Z.of_nat (length h) - 1 /\
  dr_lost d = (if (0 <=? c) && (c + 1 <? lo) then Some (lo - c - 1) else None).
Proof.
  intros Hr Hc lo d. pose proof (repr_cap _ _ Hr) as Hcap. subst d. unfold cursor_drain.
  rewrite (ring_last_exact r h) by done.
  unfold read_of, drain_new. cbn [s_seq s_data].
  set (n := read_len r h (capacity r)).
  assert (Hn : Z.of_nat n = Z.min (capacity r) (Z.of_nat (length h)))
    by (unfold n, read_len; lia).
  assert (Z.of_nat (length h - n) = lo) as Hlo by lia. rewrite Hlo.
  destruct (decide (length h = 0)%nat) as [E|E].
  - assert (n = 0%nat) as -> by lia. simpl. split_and!; [|lia|].
    + symmetry. apply drop_ge. rewrite length_fmap. lia.
    + replace (c + 1 <? lo) with false by lia. by rewrite andb_false_r.
  - assert (0 < n)%nat by lia. rewrite (last_seqZ lo n) by lia.
    destruct (seqZ lo (Z.of_nat n)) as [|first rest] eqn:Es.
    { apply (f_equal length) in Es. rewrite length_seqZ in Es. simpl in Es. lia. }
    assert (first = lo) as ->.
    { rewrite seqZ_cons in Es by lia. by injection Es. }
    rewrite <-Es. simpl. split_and!; [|lia|done].
    assert (Hl : n = length (newest_of n h).*1)
      by (rewrite length_fmap; unfold newest_of; rewrite length_drop; lia).
    rewrite Hl at 1. rewrite filter_seq_drop. unfold newest_of.
    rewrite !fmap_drop, drop_drop. f_equal. lia.
Qed.

(** The channel's life as the arm sees it: the brain posts a batch of commands,
    then the arm drains, repeatedly. *)
Fixpoint post_all (r : ring f64) (cmds : list (list f64 * Z)) : res (ring f64) :=
  match cmds with
  | [] => Ok r
  | (v, t) :: cmds => let? a := append (fun _ x => x) r v t in post_all a.1 cmds
  end.

Fixpoint cursor_rounds (r : ring f64) (c : Z) (batches : list (list (list f64 * Z))) :
    res (list (list f64)) :=
  match batches with
  | [] => Ok []
  | b :: batches =>
      let? r' := post_all r b in
      let d := cursor_drain c r' in
      let? rest := cursor_rounds r' (dr_cursor d) batches in
      Ok (dr_rows d ++ rest)%list
  end.

Lemma post_all_repr r h b r' :
  ring_repr r h -> post_all r b = Ok r' -> ring_repr r' (h ++ b)%list /\ capacity r' = capacity r.
Proof.
  revert r h. induction b as [|[v t] b IH]; intros r h Hr Hp; simpl in Hp.
  - injection Hp as <-. by rewrite app_nil_r.
  - destruct (append _ r v t) as [[r1 i]|] eqn:Ea; [|done]. simpl in Hp.
    destruct (append_repr _ r h v t r1 i Hr Ea) as [_ Hr1]. rewrite list_fmap_id in Hr1.
    destruct (IH r1 _ Hr1 Hp) as [Hr' Hc]. rewrite <-app_assoc in Hr'. split; [done|].
    apply append_ok in Ea. destruct Ea as (_ & _ & ? & _). congruence.
Qed.

Lemma post_all_ok r b :
  Forall (fun x => Z.of_nat (length x.1) = dim r) b -> exists r', post_all r b = Ok r' /\ dim r' = dim r.
Proof.
  intros Hb. revert r Hb. induction b as [|[v t] b IH]; intros r Hb; simpl; [by exists r|].
  apply Forall_cons in Hb as [Hv Hb]. simpl in Hv.
  unfold append. rewrite length_fmap, Hv, Z.eqb_refl. cbn [negb res_bind fst].
  match goal with |- context [post_all ?R b] => destruct (IH R Hb) as (r' & Hp & Hd) end.
  by exists r'.
Qed.

Lemma cursor_rounds_exact r h c batches :
  ring_repr r h -> c = Z.of_nat (length h) - 1 ->
  Forall (fun b => Z.of_nat (length b) <= capacity r /\
                   Forall (fun x => Z.of_nat (length x.1) = dim r) b) batches ->
  cursor_rounds r c batches = Ok (concat batches).*1.
Proof.
  intros Hr Hc Hb. revert r h c Hr Hc Hb.
  induction batches as [|b batches IH]; intros r h c Hr Hc Hb; simpl; [done|].
  apply Forall_cons in Hb as [[Hlen Hw] Hb].
  destruct (post_all_ok r b Hw) as (r' & Hp & Hd). rewrite Hp. simpl.
  destruct (post_all_repr r h b r' Hr Hp) as [Hr' Hcap'].
  assert (dr_rows (cursor_drain c r') = b.*1 /\ dr_cursor (cursor_drain c r') =
    Z.of_nat (length (h ++ b)%list) - 1) as [Hrows Hcur].
  { assert (-1 <= c < Z.of_nat (length (h ++ b)%list) \/ length (h ++ b)%list = 0%nat) as [Hx|Hx].
    { rewrite length_app. lia. }
    - pose proof (cursor_drain_spec r' (h ++ b) c Hr' Hx) as (Hrows & Hcur & _).
      split; [|done]. rewrite Hrows, Hcap', fmap_app, Hc.
      pose proof (repr_cap _ _ Hr). rewrite length_app in *.
      replace (Z.to_nat _) with (length h.*1) by (rewrite length_fmap; lia).
      apply drop_app_length.
    - rewrite length_app in Hx. assert (h = [] /\ b = []) as [-> ->].
      { destruct h, b; simpl in Hx; try done; lia. }
      unfold cursor_drain. rewrite (ring_last_exact r' _ _ Hr') by apply (repr_cap _ _ Hr').
      unfold read_of, read_len. rewrite Hc.
      simpl. replace (Z.to_nat _) with 0%nat by (pose proof (repr_cap _ _ Hr'); lia). done. }
  rewrite Hrows, Hcur. rewrite (IH r' (h ++ b)%list); [|done|done|].
  - simpl. by rewrite fmap_app.
  - rewrite Hcap', Hd. done.
Qed.

Lemma cursor_attach_head r h : ring_repr r h -> cursor_attach r = Z.of_nat (length h) - 1.
Proof.
  intros Hr. unfold cursor_attach, cursor_init, latest.
  rewrite (ring_last_exact r h 1 Hr) by lia. unfold read_of. simpl.
  pose proof (repr_cap _ _ Hr). set (n := read_len r h 1).
  assert (Z.of_nat n = Z.min 1 (Z.of_nat (length h))) by (unfold n, read_len; lia).
  destruct (decide (n = 0%nat)) as [->|Hn]; simpl; [lia|].
  rewrite last_seqZ by lia. simpl. lia.
Qed.

(** ** Properties *)

(** C27: Reliable command delivery.  A cursor attached to a command channel, drained
    after every batch of at most [capacity] commands, yields each command posted after
    the attach exactly once and in order, and none posted before it. *)
Theorem cursor_exactly_once (r : ring f64) h (batches : list (list (list f64 * Z)))
    (Hr : ring_repr r h)
    (Hb : Forall (fun b => Z.of_nat (length b) <= capacity r /\
                   Forall (fun x => Z.of_nat (length x.1) = dim r) b) batches) :
  cursor_rounds r (cursor_attach r) batches = Ok (concat batches).*1.
Proof. apply (cursor_rounds_exact r h); [done|by apply cursor_attach_head|done]. Qed.

Definition demo_channel : ring f64 := Ring (create_segment f0 2 1 Float64) 2 1 Float64.

Lemma demo_channel_repr : ring_repr demo_channel [].
Proof. apply (ring_repr_create f0 2 1 "float64"); [lia|lia|reflexivity]. Qed.

Lemma cursor_exactly_once_witness :
  cursor_rounds demo_channel (cursor_attach demo_channel)
    [[([f0], 1); ([f1], 2)]; []; [([f1], 3)]; [([f0], 4); ([f0], 5)]] =
  Ok [[f0]; [f1]; [f1]; [f0]; [f0]].
Proof.
  apply (cursor_exactly_once demo_channel [] [[([f0], 1); ([f1], 2)]; []; [([f1], 3)];
    [([f0], 4); ([f0], 5)]] demo_channel_repr).
  repeat (constructor || split); simpl; lia.
Defined.

(** A lapped command queue.  A drain always returns exactly the commands beyond the
    cursor that the ring still holds; when some were overwritten, their exact number is
    reported, unless the cursor is still at its initial value -1, in which case the loss
    is silent. *)
Theorem cursor_loss_report (r : ring f64) h (c : Z)
    (Hr : ring_repr r h) (Hc : -1 <= c < Z.of_nat (length h)) :
  let lo := Z.of_nat (length h) - Z.min (capacity r) (Z.of_nat (length h)) in
  let d := cursor_drain c r in
  dr_rows d = drop (Z.to_nat (Z.max (c + 1) lo)) h.*1 /\
  dr_cursor d = Z.of_nat (length h) - 1 /\
  (dr_lost d = Some (lo - c - 1) <-> 0 <= c /\ c + 1 < lo) /\
  (c = -1 -> dr_lost d = None).
Proof.
  intros lo d. destruct (cursor_drain_spec r h c Hr Hc) as (Hrows & Hcur & Hlost).
  split; [done|]. split; [done|]. unfold d. rewrite Hlost. fold lo.
  destruct (0 <=? c) eqn:E1, (c + 1 <? lo) eqn:E2; simpl;
    (split; [split|]); intros; try done; lia.
Qed.

Definition lapped_channel : res (ring f64) := post_all demo_channel [([f0], 1); ([f1], 2); ([f1], 3)].

Lemma cursor_loss_report_witness : exists r, lapped_channel = Ok r /\
  dr_rows (cursor_drain (-1) r) = [[f1]; [f1]] /\ dr_lost (cursor_drain (-1) r) = None.
Proof.
  destruct (post_all demo_channel [([f0], 1); ([f1], 2); ([f1], 3)]) as [r|] eqn:E;
    [|vm_compute in E; discriminate].
  exists r. split; [exact E|].
  destruct (post_all_repr _ _ _ _ demo_channel_repr E) as [Hr Hcap].
  destruct (cursor_loss_report r _ (-1) Hr ltac:(simpl; lia)) as (Hrows & _ & _ & Hl).
  split; [|apply Hl; reflexivity]. rewrite Hrows, Hcap. reflexivity.
Defined.

(** The setpoint codec is lossless: slicing a packed setpoint vector gives back the
    streamed fields by name, and the vector has exactly the channel's width. *)
Theorem setpoint_roundtrip (c : ControlCfg) (vs : list (list f64))
    (Hn : NoDup (streamed c)) (Hw : widths_ok c (streamed c) vs) :
  exists v, pack_streamed c (zip (streamed c) vs) = Ok v /\
    setpoint_dim c = Ok (length v) /\
    slice_streamed c v = Ok (zip (streamed c) vs).
Proof.
  exists (concat vs). split_and!.
  - apply pack_streamed_zip; [done|]. by eapply Forall2_length.
  - unfold setpoint_dim. rewrite (widths_dims c _ vs) by done. simpl. by rewrite length_concat.
  - by apply slice_streamed_concat.
Qed.

Definition demo_channel_cfg : ControlChannelCfg :=
  ChannelCfg 8 64 8 "float64" (f_of_Z 50) (f_of_Z 100) (f_of_Z 500).

(** A two-joint [qpos] control and the [force] control schema. *)
Definition demo_qpos : ControlCfg :=
  Control "qpos" "NRT_JOINT_POSITION" "SendJointPosition"
    [("q_d", 2%nat); ("dq_d", 2%nat); ("dq_max", 2%nat)] ["q_d"; "dq_d"] demo_channel_cfg
    None None None None None.

Definition demo_force : ControlCfg :=
  Control "force" "NRT_CARTESIAN_MOTION_FORCE" "SendCartesianMotionForce"
    [("pose_d", 2%nat); ("wrench_d", 1%nat)] ["pose_d"; "wrench_d"] demo_channel_cfg
    None None None None None.

Lemma setpoint_roundtrip_witness : exists v,
  pack_streamed demo_qpos [("q_d", [f1; f0]); ("dq_d", [f0; f0])] = Ok v /\
  setpoint_dim demo_qpos = Ok (length v) /\
  slice_streamed demo_qpos v = Ok [("q_d", [f1; f0]); ("dq_d", [f0; f0])].
Proof.
  apply (setpoint_roundtrip demo_qpos [[f1; f0]; [f0; f0]]).
  - vm_compute. repeat constructor; set_solver.
  - repeat constructor.
Defined.

(** A policy action becomes a complete setpoint for every control kind: the vector
    has the channel's width, the primary field is the action itself, every other
    absolute target is the measured value to hold, and feedforward fields are zero. *)
Theorem pack_action_complete (c : ControlCfg) (p : string) (value : list f64)
    (held : list (string * list f64))
    (Hp : action_field c = Ok p) (Hn : NoDup (streamed c)) (Hfit : action_fits c p value held) :
  exists v fields, pack_action c value held = Ok v /\ setpoint_dim c = Ok (length v) /\
    slice_streamed c v = Ok fields /\
    forall f, f ∈ streamed c -> dget f fields = Some (
      if String.eqb f p then value
      else if is_absolute f then default [] (dget f held)
      else replicate (default 0%nat (dget f (command c))) f0).
Proof.
  set (vs := action_slot c p value held <$> streamed c).
  pose proof (action_fits_widths _ _ _ _ Hfit) as Hw. fold vs in Hw.
  destruct (pack_action_fits c p value held Hp Hn Hfit) as [Hpk Hsd]. fold vs in Hpk, Hsd.
  exists (concat vs), (zip (streamed c) vs). split_and!; [done|done|by apply slice_streamed_concat|].
  intros f Hf. apply list_elem_of_lookup in Hf as [i Hi].
  erewrite dget_zip; [|done|done|unfold vs; by rewrite list_lookup_fmap, Hi].
  unfold action_slot, action_value. destruct (String.eqb f p); [done|].
  destruct (is_absolute f); [by destruct (dget f held)|].
  unfold field_dim. by destruct (dget f (command c)).
Qed.

Lemma pack_action_complete_witness : exists v fields,
  pack_action demo_force [f1] [("pose_d", [f0; f1])] = Ok v /\
  setpoint_dim demo_force = Ok (length v) /\ slice_streamed demo_force v = Ok fields /\
  forall f, f ∈ streamed demo_force -> dget f fields = Some (
      if String.eqb f "wrench_d" then [f1]
      else if is_absolute f then default [] (dget f [("pose_d", [f0; f1])])
      else replicate (default 0%nat (dget f (command demo_force))) f0).
Proof.
  apply (pack_action_complete demo_force "wrench_d" [f1] [("pose_d", [f0; f1])]).
  - reflexivity.
  - vm_compute. repeat constructor; set_solver.
  - repeat constructor; eexists; split; reflexivity.
Defined.

(** Opcodes survive the channel: decoding an encoded command gives its kind back and
    its arguments followed only by the zero padding, and encoding fails exactly when the
    arguments do not fit the channel width. *)
Theorem opcode_roundtrip (c : ControlCommand) (dm : nat) :
  match encode c dm with
  | Ok v => length v = dm /\ decode v =
      Ok (Command (cmd_kind c) (cmd_args c ++ replicate (dm - 1 - length (cmd_args c)) f0)%list)
  | Raise e => e = ValueError /\ (dm < 1 + length (cmd_args c))%nat
  end.
Proof.
  unfold encode, CMD_ARG0_IDX. destruct (dm <? 1 + length (cmd_args c))%nat eqn:E.
  - apply Nat.ltb_lt in E. done.
  - apply Nat.ltb_ge in E. destruct dm as [|dm]; [simpl in E; lia|].
    unfold CMD_KIND_IDX. cbn [replicate]. cbn [insert list_insert].
    destruct (kind_code_roundtrip (cmd_kind c)) as (z & Hz & Hk).
    unfold splice. cbn [take drop Nat.add app]. rewrite take_0. cbn [app].
    split.
    + cbn [length]. rewrite length_app, length_drop, length_replicate. simpl in E. lia.
    + unfold decode, CMD_KIND_IDX, CMD_ARG0_IDX. cbn [lookup list_lookup of_option res_bind].
      rewrite Hz. cbn [of_option res_bind]. rewrite Hk. cbn [res_bind drop].
      rewrite drop_0, drop_replicate. simpl. by rewrite Nat.sub_0_r.
Qed.
