(* ===== verification/Convention.v ===== *)
(** * The leader to follower joint convention

    Models [control/convention.py].  The arithmetic is a class [Num] with two
    instances: binary64 (what the code computes, including numpy's floored modulus)
    and the rationals, on which the exact statements about angles are proved.  The
    unit conversions of the rational instance are arbitrary functions: no statement
    depends on the value of pi. *)

From Stdlib Require Import SpecFloat QArith Qround Lqa.
From S2P Require Import Prelude Float64 Streams.
Local Open Scope string_scope.
Local Open Scope Z_scope.

Class Num (A : Type) := {
  nadd : A -> A -> A;
  nsub : A -> A -> A;
  nneg : A -> A;
  nmod : A -> A -> A;        (* Python's and numpy's floored modulus *)
  n180 : A;
  n360 : A;
  ndegrees : A -> A;
  nradians : A -> A;
}.

(** ** binary64 *)

(** C's [fmod] on binary64, exact: the remainder has the sign of the dividend. *)
Definition fmod (a b : f64) : f64 :=
  match a, b with
  | S754_nan, _ | _, S754_nan | S754_infinity _, _ | _, S754_zero _ => S754_nan
  | S754_zero s, _ => S754_zero s
  | S754_finite s m e, S754_infinity _ => a
  | S754_finite s m e, S754_finite _ m' e' =>
      let e0 := Z.min e e' in
      let r := (Z.pos m * 2 ^ (e - e0)) mod (Z.pos m' * 2 ^ (e' - e0)) in
      binary_normalize 53 1024 (if s then - r else r) e0 s
  end.

Definition fsign (x : f64) : bool :=
  match x with S754_zero s | S754_infinity s | S754_finite s _ _ => s | S754_nan => false end.

(** numpy's [remainder]: [fmod], moved to the sign of the divisor. *)
Definition np_remainder (a b : f64) : f64 :=
  let r := fmod a b in
  if is_nan r then r
  else if feq r f0 then S754_zero (fsign b)
  else if negb (Bool.eqb (flt b f0) (flt r f0)) then fadd r b
  else r.

(** [numpy.pi]: 884279719003555 * 2^-48. *)
Definition NPY_PI : f64 := S754_finite false 7074237752028440 (-51).

#[export] Instance num_f64 : Num f64 := {
  nadd := fadd;
  nsub := fsub;
  nneg := fopp;
  nmod := np_remainder;
  n180 := f_of_Z 180;
  n360 := f_of_Z 360;
  ndegrees x := fmul x (fdiv (f_of_Z 180) NPY_PI);
  nradians x := fmul x (fdiv NPY_PI (f_of_Z 180));
}.

(** ** Rationals *)

Definition Qmod (x y : Q) : Q := (x - y * inject_Z (Qfloor (x / y)))%Q.

Definition num_Q (degrees radians : Q -> Q) : Num Q := {|
  nadd := Qplus;
  nsub := Qminus;
  nneg := Qopp;
  nmod := Qmod;
  n180 := 180%Q;
  n360 := 360%Q;
  ndegrees := degrees;
  nradians := radians;
|}.

(** ** The convention *)

Record JointConventionCfg (A : Type) := Convention {
  offsets_deg : list A;
  sign_flip_joints : list Z;
  drop_trailing : Z;
  gripper_open : option A;
  gripper_closed : option A;
}.

Arguments Convention {A}.
Arguments offsets_deg {A}.
Arguments sign_flip_joints {A}.
Arguments drop_trailing {A}.
Arguments gripper_open {A}.
Arguments gripper_closed {A}.

Section convention.
Context {A : Type} `{Num A}.

(** [l[:e]] for a possibly negative [e]. *)
Definition py_upto (l : list A) (e : Z) : list A :=
  take (Z.to_nat (if e <? 0 then Z.of_nat (length l) + e else e)) l.

(** [l[j] = f(l[j])], with Python's negative indices. *)
Definition py_update (f : A -> A) (l : list A) (j : Z) : res (list A) :=
  let n := Z.of_nat (length l) in
  let i := if j <? 0 then j + n else j in
  if (i <? 0) || (n <=? i) then Raise IndexError else Ok (alter f (Z.to_nat i) l).

(** Sum of two vectors under numpy broadcasting. *)
Definition vec_add (a b : list A) : res (list A) :=
  if (length a =? length b)%nat then Ok (zip_with nadd a b)
  else match a, b with
  | [x], _ => Ok (nadd x <$> b)
  | _, [y] => Ok ((fun x => nadd x y) <$> a)
  | _, _ => Raise ValueError
  end.

(** [(d + 180.0) % 360.0 - 180.0]. *)
Definition wrap_deg (d : A) : A := nsub (nmod (nadd d n180) n360) n180.

Definition drop_gripper (q : list A) (conv : JointConventionCfg A) : list A :=
  if drop_trailing conv =? 0 then q
  else py_upto q (Z.of_nat (length q) - drop_trailing conv).

(** The target in degrees, before the conversion back to radians. *)
Definition convert_deg (q_leader_rad : list A) (conv : JointConventionCfg A) : res (list A) :=
  let q := drop_gripper q_leader_rad conv in
  let? deg := vec_add (ndegrees <$> q) (take (length q) (offsets_deg conv)) in
  let? deg := foldM_res (fun d j => py_update nneg d j) (sign_flip_joints conv) deg in
  Ok (wrap_deg <$> deg).

Definition convert_factr_to_rizon (q_leader_rad : list A) (conv : JointConventionCfg A) :
    res (list A) := res_map (fmap nradians) (convert_deg q_leader_rad conv).

Definition offsets_from_straight_pose (q_leader_rad : list A) (conv : JointConventionCfg A) :
    list A :=
  (fun x => wrap_deg (nneg (ndegrees x))) <$> drop_gripper q_leader_rad conv.
End convention.

(** [normalize_gripper]; Python floats, [min(1.0, max(0.0, frac))]. *)
Definition normalize_gripper (raw : f64) (conv : JointConventionCfg f64) : f64 :=
  match gripper_open conv, gripper_closed conv with
  | Some lo, Some hi =>
      if feq lo hi then raw
      else pmin f1 (pmax f0 (fdiv (fsub raw lo) (fsub hi lo)))
  | _, _ => raw
  end.

(** ** Exact wrapping: lemmas *)

Section exact.
Context (degrees radians : Q -> Q).
#[local] Existing Instance num_Q.
Local Instance nq : Num Q := num_Q degrees radians.

Lemma Qfloor_unique (x : Q) (z : Z) :
  (inject_Z z <= x)%Q -> (x < inject_Z (z + 1))%Q -> Qfloor x = z.
Proof.
  intros Hl Hu. pose proof (Qfloor_le x) as Hf. pose proof (Qlt_floor x) as Hf'.
  assert (inject_Z z < inject_Z (Qfloor x + 1))%Q as H1 by (eapply Qle_lt_trans; eassumption).
  assert (inject_Z (Qfloor x) < inject_Z (z + 1))%Q as H2 by (eapply Qle_lt_trans; eassumption).
  rewrite <-Zlt_Qlt in H1, H2. lia.
Qed.

Lemma Qmod_360_unique (x r : Q) (k : Z) :
  (x == 360 * inject_Z k + r)%Q -> (0 <= r)%Q -> (r < 360)%Q -> (Qmod x 360 == r)%Q.
Proof.
  intros Hx Hr0 Hr1. unfold Qmod.
  assert (Qfloor (x / 360) = k) as ->.
  { apply Qfloor_unique.
    - apply Qle_shift_div_l; [done|]. lra.
    - apply Qlt_shift_div_r; [done|]. rewrite inject_Z_plus. change (inject_Z 1) with 1%Q. lra. }
  lra.
Qed.

Lemma Qmod_360_range (x : Q) :
  exists k, (Qmod x 360 == x - 360 * inject_Z k)%Q /\ (0 <= Qmod x 360 < 360)%Q.
Proof.
  exists (Qfloor (x / 360)). split; [done|]. unfold Qmod.
  pose proof (Qfloor_le (x / 360)) as Hl. pose proof (Qlt_floor (x / 360)) as Hu.
  rewrite inject_Z_plus in Hu. change (inject_Z 1) with 1%Q in Hu.
  assert (x == 360 * (x / 360))%Q as Hx by (field; done). lra.
Qed.

Lemma wrap_deg_range (d : Q) :
  (-(180) <= wrap_deg d < 180)%Q /\ exists k, (wrap_deg d == d - 360 * inject_Z k)%Q.
Proof.
  unfold wrap_deg. simpl. destruct (Qmod_360_range (d + 180)) as (k & Hk & Hr).
  split; [lra|]. exists k. lra.
Qed.

(** Angles that differ by whole turns have one canonical representative. *)
Lemma wrap_deg_periodic (d e : Q) (k : Z) :
  (e == d + 360 * inject_Z k)%Q -> (wrap_deg e == wrap_deg d)%Q.
Proof.
  intros He. unfold wrap_deg. simpl. destruct (Qmod_360_range (d + 180)) as (j & Hj & Hr).
  assert (Qmod (e + 180) 360 == Qmod (d + 180) 360)%Q as ->; [|lra].
  apply (Qmod_360_unique _ _ (k + j)); [|lra|lra]. rewrite inject_Z_plus. lra.
Qed.

Lemma wrap_deg_whole (d : Q) (k : Z) : (d == 360 * inject_Z k)%Q -> (wrap_deg d == 0)%Q.
Proof.
  intros Hd. unfold wrap_deg. simpl.
  assert (Qmod (d + 180) 360 == 180)%Q as ->; [|lra].
  apply (Qmod_360_unique _ _ k); lra.
Qed.

Definition whole_turn (x : Q) : Prop := exists k, (x == 360 * inject_Z k)%Q.

Lemma whole_turn_opp x : whole_turn x -> whole_turn (- x).
Proof. intros [k Hk]. exists (- k). rewrite inject_Z_opp. lra. Qed.

Lemma flips_whole (l : list Q) js l' :
  Forall whole_turn l -> foldM_res (fun d j => py_update Qopp d j) js l = Ok l' ->
  Forall whole_turn l'.
Proof.
  revert l. induction js as [|j js IH]; intros l Hl; simpl; [by intros [= <-]|].
  unfold py_update at 1. destruct (_ || _); simpl; [done|]. apply IH.
  apply Forall_alter; [done|]. intros x _ Hx. by apply whole_turn_opp.
Qed.

Lemma flips_length (l : list Q) js l' :
  foldM_res (fun d j => py_update Qopp d j) js l = Ok l' -> length l' = length l.
Proof.
  revert l. induction js as [|j js IH]; intros l; simpl; [by intros [= <-]|].
  unfold py_update at 1. destruct (_ || _); simpl; [done|].
  intros ->%IH. apply length_alter.
Qed.

Lemma flips_total (l : list Q) js :
  Forall (fun j => - Z.of_nat (length l) <= j < Z.of_nat (length l)) js ->
  exists l', foldM_res (fun d j => py_update Qopp d j) js l = Ok l'.
Proof.
  revert l. induction js as [|j js IH]; intros l Hj; simpl; [by exists l|].
  apply Forall_cons in Hj as [Hj Hjs]. unfold py_update at 1.
  set (n := Z.of_nat (length l)) in *. set (i := if j <? 0 then j + n else j).
  assert (0 <= i < n) by (unfold i; destruct (j <? 0) eqn:?; lia).
  replace ((i <? 0) || (n <=? i)) with false by lia. simpl. apply IH.
  by rewrite length_alter.
Qed.

(** Adding the calibration offsets leaves whole turns on every joint. *)
Lemma straight_offsets_whole (q : list Q) :
  Forall whole_turn (zip_with Qplus (degrees <$> q)
    ((fun x => wrap_deg (Qopp (degrees x))) <$> q)).
Proof.
  induction q as [|x q IH]; simpl; constructor; [|done].
  destruct (wrap_deg_range (Qopp (degrees x))) as [_ [k Hk]].
  exists (- k). rewrite inject_Z_opp. rewrite Hk. lra.
Qed.
End exact.

(** ** Properties *)

(** No follower target carries encoder turns: in exact arithmetic every converted
    joint lies in [-180, 180) degrees and differs from the offset, sign-corrected leader
    angle by whole turns only. *)
Theorem convert_canonical (degrees radians : Q -> Q) (q : list Q) (conv : JointConventionCfg Q)
    (out : list Q) (Hok : @convert_deg Q (num_Q degrees radians) q conv = Ok out) :
  exists deg, length out = length deg /\
    Forall2 (fun o d => (-(180) <= o < 180)%Q /\ exists k, (o == d - 360 * inject_Z k)%Q) out deg /\
    (let? d0 := @vec_add Q (num_Q degrees radians) (degrees <$> drop_gripper q conv)
                  (take (length (drop_gripper q conv)) (offsets_deg conv)) in
     foldM_res (fun d j => py_update Qopp d j) (sign_flip_joints conv) d0) = Ok deg.
Proof.
  unfold convert_deg in Hok. simpl in Hok.
  destruct (vec_add _ _) as [d0|] eqn:E0; [|done]. simpl in Hok.
  destruct (foldM_res _ _ d0) as [deg|] eqn:E1; [|done]. injection Hok as <-.
  exists deg. split; [by rewrite length_fmap|]. split; [|done].
  apply Forall2_fmap_l, Forall_Forall2_diag, Forall_true. intros d. apply wrap_deg_range.
Qed.

(** Calibrating on the straight pose works: with the offsets solved from a leader
    sample, converting that same sample gives exactly zero on every joint, whatever the
    sign flips. *)
Theorem calibration_inverse (degrees radians : Q -> Q) (q : list Q) (conv : JointConventionCfg Q)
    (Hflips : Forall (fun j => - Z.of_nat (length (drop_gripper q conv)) <= j
                               < Z.of_nat (length (drop_gripper q conv))) (sign_flip_joints conv)) :
  let offs := @offsets_from_straight_pose Q (num_Q degrees radians) q conv in
  let conv' := Convention offs (sign_flip_joints conv) (drop_trailing conv)
                 (gripper_open conv) (gripper_closed conv) in
  exists out, @convert_deg Q (num_Q degrees radians) q conv' = Ok out /\
    length out = length (drop_gripper q conv) /\ Forall (fun x => x == 0)%Q out.
Proof.
  intros offs conv'. set (qa := drop_gripper q conv).
  assert (drop_gripper q conv' = qa) as Hqa by done.
  assert (length offs = length qa) as Hlo by (unfold offs, offsets_from_straight_pose; by rewrite length_fmap).
  unfold convert_deg. rewrite Hqa. cbn [offsets_deg conv']. rewrite take_ge by lia.
  unfold vec_add. rewrite length_fmap, Hlo, Nat.eqb_refl. cbn [res_bind].
  pose proof (straight_offsets_whole degrees radians qa) as Hw.
  set (d0 := zip_with nadd _ offs).
  assert (length d0 = length qa) as Hl0 by (unfold d0; rewrite length_zip_with, length_fmap; lia).
  destruct (flips_total d0 (sign_flip_joints conv)) as [d1 Hd1]; [by rewrite Hl0|].
  cbn [sign_flip_joints conv']. change (nneg) with Qopp. rewrite Hd1. simpl.
  eexists. split; [done|]. split.
  - rewrite length_fmap, <-Hl0. by eapply flips_length.
  - apply Forall_fmap. eapply Forall_impl; [eapply flips_whole; [exact Hw|exact Hd1]|].
    intros x [k Hk]. exact (wrap_deg_whole degrees radians x k Hk).
Qed.

Definition demo_convention : JointConventionCfg Q := Convention [10%Q; 20%Q] [1; -2] 1 None None.

Lemma convert_canonical_witness :
  @convert_deg Q (num_Q id id) [400%Q; 30%Q; 1%Q] demo_convention = Ok [(-50)%Q; (-50)%Q] /\
  exists deg, length deg = 2%nat /\
    Forall2 (fun o d => (-(180) <= o < 180)%Q /\ exists k, (o == d - 360 * inject_Z k)%Q)
      [(-50)%Q; (-50)%Q] deg.
Proof.
  assert (Hok : @convert_deg Q (num_Q id id) [400%Q; 30%Q; 1%Q] demo_convention
    = Ok [(-50)%Q; (-50)%Q]) by (vm_compute; reflexivity).
  split; [exact Hok|].
  destruct (convert_canonical id id [400%Q; 30%Q; 1%Q] demo_convention _ Hok) as (deg & Hl & Hf & _).
  exists deg. split; [symmetry; exact Hl|exact Hf].
Defined.

Lemma calibration_inverse_witness :
  exists out, @convert_deg Q (num_Q id id) [400%Q; 30%Q; 1%Q]
      (Convention [(-40)%Q; (-30)%Q] [1; -2] 1 None None) = Ok out /\
    length out = 2%nat /\ Forall (fun x => x == 0)%Q out.
Proof.
  apply (calibration_inverse id id [400%Q; 30%Q; 1%Q] demo_convention).
  repeat constructor; simpl; lia.
Defined.

(** The gripper fraction is always in [0, 1] once both endpoints are calibrated and
    differ, for every raw reading including NaN and infinities, in binary64; an
    uncalibrated convention passes the raw value through. *)
Theorem gripper_fraction_bounds (raw : f64) (conv : JointConventionCfg f64) :
  match gripper_open conv, gripper_closed conv with
  | Some lo, Some hi =>
      feq lo hi = false ->
      fle f0 (normalize_gripper raw conv) = true /\ fle (normalize_gripper raw conv) f1 = true
  | _, _ => normalize_gripper raw conv = raw
  end.
Proof.
  unfold normalize_gripper. destruct (gripper_open conv), (gripper_closed conv); try done.
  intros ->. by apply pclamp_bounds.
Qed.

Lemma gripper_fraction_bounds_witness :
  let conv := Convention [] [] 1 (Some f0) (Some f1) in
  fle f0 (normalize_gripper S754_nan conv) = true /\
  fle (normalize_gripper S754_nan conv) f1 = true.
Proof.
  apply (gripper_fraction_bounds S754_nan (Convention [] [] 1 (Some f0) (Some f1))).
  reflexivity.
Defined.

(** In binary64 the wrapped angle can be exactly 180.0: a tiny negative angle sum
    rounds up to 360.0 after the modulus, so the half-open range [-180, 180) of the
    documentation is closed on the machine. *)
Theorem float_wrap_reaches_180 :
  wrap_deg (fsub (fopp (f_of_Z 180)) (fdec 1 35184372088832)) = f_of_Z 180.
Proof. vm_compute. reflexivity. Qed.
