(* ===== verification/Layout.v ===== *)
(** * The canonical state/action vector layout

    Models [layout.py]: the layout object is a record of the lists and dictionaries
    its constructor fills, in iteration order.  State and action vectors are packed
    in single precision ([np.float32]) and split back in double precision. *)

From Stdlib Require Import SpecFloat String Ascii Sorting.Permutation.
From stdpp Require Import pretty.
From S2P Require Import Prelude Float64 Streams Channel.
Local Open Scope string_scope.
Local Open Scope nat_scope.

Definition signed (s : bool) (m : positive) : Z := if s then Z.neg m else Z.pos m.

(** [np.float32(x)] seen as a binary64 value: round to binary32, then widen. *)
Definition f32 (x : f64) : f64 :=
  match x with
  | S754_finite s m e =>
      match binary_normalize 24 128 (signed s m) e s with
      | S754_finite s m e => binary_normalize 53 1024 (signed s m) e s
      | y => y
      end
  | _ => x
  end.

(** What the layout reads of an arm's configuration. *)
Record ArmShape := Arm { arm_streams : list (string * nat); arm_control : ControlCfg }.

(** ** Side order *)

(** [str] comparison: lexicographic on bytes. *)
Fixpoint str_leb (a b : string) : bool :=
  match a, b with
  | EmptyString, _ => true
  | String _ _, EmptyString => false
  | String x a, String y b =>
      if (nat_of_ascii x <? nat_of_ascii y)%nat then true
      else if (nat_of_ascii y <? nat_of_ascii x)%nat then false
      else str_leb a b
  end.

Definition side_rank (side : string) : nat :=
  if String.eqb side "left" then 0 else if String.eqb side "right" then 1 else 99.

Definition side_leb (a b : string) : bool :=
  if side_rank a <? side_rank b then true
  else if side_rank b <? side_rank a then false
  else str_leb a b.

Fixpoint insert_side (x : string) (l : list string) : list string :=
  match l with
  | [] => [x]
  | y :: l => if side_leb x y then x :: y :: l else y :: insert_side x l
  end.

(** [sorted(mapping, key=lambda side: (order.get(side, 99), side))]. *)
Definition sorted_sides {A} (mapping : list (string * A)) : list string :=
  foldr insert_side [] (dkeys mapping).

(** ** Decimal suffixes of the names *)

Definition nat_str (n : nat) : string := pretty (N.of_nat n).

Definition indexed (stem : string) (dm : nat) : list string :=
  (fun i => stem +:+ "." +:+ nat_str i) <$> List.seq 0 dm.

(** ** The layout object *)

Record DFCStateActionLayout := Layout {
  state_signals : list string;
  state_sides : list string;
  sides : list string;
  state_names : list string;
  action_names : list string;
  state_map : list ((string * string) * (nat * nat));   (* [_state], [_state_blocks] *)
  field_map : list (string * string);                   (* [_field] *)
  primary_map : list (string * (nat * nat));            (* [_primary] *)
  gripper_map : list (string * nat);                    (* [_gripper] *)
  state_dim : nat;
  action_dim : nat;
}.

(** The (side, signal) pairs of the nested loop, in order. *)
Definition state_keys (ss sigs : list string) : list (string * string) :=
  ss ≫= (fun side => pair side <$> sigs).

Definition signal_dim (arms : list (string * ArmShape)) (k : string * string) : res nat :=
  let? arm := of_option KeyError (dget k.1 arms) in
  of_option ValueError (dget k.2 (arm_streams arm)).

(** The state loop: accumulated names, slices and offset. *)
Definition state_step (arms : list (string * ArmShape))
    (acc : list string * list ((string * string) * (nat * nat)) * nat)
    (k : string * string) :
    res (list string * list ((string * string) * (nat * nat)) * nat) :=
  let '(nms, blocks, off) := acc in
  let? d := signal_dim arms k in
  Ok ((nms ++ indexed (k.1 +:+ "." +:+ k.2) d)%list, dset k (off, off + d) blocks, off + d).

Record action_acc := ActAcc {
  aa_names : list string;
  aa_field : list (string * string);
  aa_primary : list (string * (nat * nat));
  aa_gripper : list (string * nat);
  aa_off : nat;
}.

(** The action loop. *)
Definition action_step (arms : list (string * ArmShape)) (a : action_acc) (side : string) :
    res action_acc :=
  let? arm := of_option KeyError (dget side arms) in
  let? f := action_field (arm_control arm) in
  let? d := Channel.action_dim (arm_control arm) in
  Ok (ActAcc
        (aa_names a ++ indexed (side +:+ "." +:+ f) d ++ [side +:+ ".gripper"])%list
        (dset side f (aa_field a))
        (dset side (aa_off a, aa_off a + d) (aa_primary a))
        (dset side (aa_off a + d) (aa_gripper a))
        (aa_off a + d + 1)).

(** [DFCStateActionLayout.__init__] (and [from_arms]). *)
Definition from_arms (arms : list (string * ArmShape)) (sigs action_sides : list string) :
    res DFCStateActionLayout :=
  if existsb (fun s => negb (dmem s arms)) action_sides then Raise ValueError
  else
    let ss := sorted_sides arms in
    let acts := List.filter (fun s => bool_decide (s ∈ action_sides)) ss in
    let? st := foldM_res (state_step arms) (state_keys ss sigs) ([], [], 0) in
    let? a := foldM_res (action_step arms) acts (ActAcc [] [] [] [] 0) in
    Ok (Layout sigs ss acts st.1.1 (aa_names a) st.1.2 (aa_field a) (aa_primary a)
          (aa_gripper a) st.2 (aa_off a)).

(** [DFCStateActionLayout.bimanual_qpos]. *)
Definition bimanual_qpos : DFCStateActionLayout :=
  Layout ["q"] ["left"; "right"] ["left"; "right"]
    (indexed "left.q" 7 ++ indexed "right.q" 7)%list
    (indexed "left.q_d" 7 ++ ["left.gripper"] ++ indexed "right.q_d" 7 ++ ["right.gripper"])%list
    [(("left", "q"), (0, 7)); (("right", "q"), (7, 14))]
    [("left", "q_d"); ("right", "q_d")]
    [("left", (0, 7)); ("right", (8, 15))]
    [("left", 7); ("right", 15)] 14 16.

Definition state_stream_names (l : DFCStateActionLayout) : list string :=
  (fun b => b.1.1 +:+ "/" +:+ b.1.2) <$> state_map l.

Definition state_slice (l : DFCStateActionLayout) (side signal : string) : res (nat * nat) :=
  of_option KeyError (dget (side, signal) (state_map l)).
Definition layout_field (l : DFCStateActionLayout) (side : string) : res string :=
  of_option KeyError (dget side (field_map l)).
Definition primary_slice (l : DFCStateActionLayout) (side : string) : res (nat * nat) :=
  of_option KeyError (dget side (primary_map l)).
Definition gripper_index (l : DFCStateActionLayout) (side : string) : res nat :=
  of_option KeyError (dget side (gripper_map l)).
Definition action_dof (l : DFCStateActionLayout) (side : string) : res nat :=
  let? s := primary_slice l side in Ok (s.2 - s.1).

Definition state_to_action_joint_slices (l : DFCStateActionLayout) :
    res (list ((nat * nat) * (nat * nat))) :=
  foldM_res (fun acc side =>
    match dget (side, "q") (state_map l) with
    | None => Ok acc
    | Some s =>
        let? f := layout_field l side in
        if String.eqb f "q_d" then let? p := primary_slice l side in Ok (acc ++ [(s, p)])%list
        else Ok acc
    end) (sides l) [].

(** One state block written into the vector. *)
Definition pack_state_step (values : list ((string * string) * list f64)) (st : list f64)
    (b : (string * string) * (nat * nat)) : res (list f64) :=
  let? value := of_option KeyError (dget b.1 values) in
  let value := f32 <$> value in
  if negb (length value =? b.2.2 - b.2.1) then Raise ValueError
  else Ok (splice st b.2.1 value).

Definition pack_state (l : DFCStateActionLayout) (values : list ((string * string) * list f64)) :
    res (list f64) :=
  foldM_res (pack_state_step values) (state_map l) (replicate (state_dim l) f0).

Definition pack_action_step (l : DFCStateActionLayout) (primary : list (string * list f64))
    (gripper : list (string * f64)) (act : list f64) (side : string) : res (list f64) :=
  let? value := of_option KeyError (dget side primary) in
  let value := f32 <$> value in
  let? s := primary_slice l side in
  if negb (length value =? s.2 - s.1) then Raise ValueError
  else
    let? g := gripper_index l side in
    Ok (<[g := f32 (default f0 (dget side gripper))]> (splice act s.1 value)).

Definition pack_action (l : DFCStateActionLayout) (primary : list (string * list f64))
    (gripper : list (string * f64)) : res (list f64) :=
  foldM_res (pack_action_step l primary gripper) (sides l) (replicate (action_dim l) f0).

(** One side of a split action: the field, its values, the gripper. *)
Record side_action := SideAction { sa_field : string; sa_value : list f64; sa_gripper : f64 }.

Definition split (l : DFCStateActionLayout) (act : list f64) : res (list (string * side_action)) :=
  if negb (length act =? action_dim l) then Raise ValueError
  else
    mapM_res (fun side =>
      let? f := layout_field l side in
      let? s := primary_slice l side in
      let? g := gripper_index l side in
      let? x := of_option IndexError (act !! g) in
      Ok (side, SideAction f (slice act s.1 s.2) x)) (sides l).

(** ** Lemmas *)

Lemma insert_side_perm x l : Permutation (insert_side x l) (x :: l).
Proof.
  induction l as [|y l IH]; simpl; [done|]. destruct (side_leb x y); [done|].
  rewrite IH. constructor.
Qed.

Lemma sorted_sides_perm {A} (m : list (string * A)) : Permutation (sorted_sides m) (dkeys m).
Proof.
  unfold sorted_sides. induction (dkeys m) as [|k ks IH]; simpl; [done|].
  by rewrite insert_side_perm, IH.
Qed.

Lemma length_indexed stem d : length (indexed stem d) = d.
Proof. unfold indexed. by rewrite length_fmap, length_seq. Qed.

Lemma splice_splice (l : list f64) off a b :
  off + length a + length b <= length l ->
  splice (splice l off a) (off + length a) b = splice l off (a ++ b)%list.
Proof.
  intros Hl. unfold splice. rewrite length_app.
  rewrite take_app_ge by (rewrite length_take; lia).
  rewrite length_take, (min_l off) by lia.
  replace (off + length a - off) with (length a) by lia. rewrite take_app_length.
  rewrite drop_app_ge by (rewrite length_take; lia).
  rewrite length_take, (min_l off) by lia.
  replace (off + length a + length b - off) with (length a + length b) by lia.
  rewrite drop_app_ge by lia. rewrite drop_drop, <-!app_assoc. do 4 f_equal. lia.
Qed.

Lemma splice_one (l : list f64) i x : i < length l -> splice l i [x] = <[i := x]> l.
Proof.
  intros Hi. rewrite insert_take_drop by done. unfold splice. simpl.
  by replace (i + 1) with (S i) by lia.
Qed.

Lemma splice_all (l a : list f64) : length a = length l -> splice l 0 a = a.
Proof. intros Hl. unfold splice. simpl. rewrite drop_ge by lia. apply app_nil_r. Qed.

(** Sides [ss] occupy consecutive blocks of widths [d + 1] from [off] to the end. *)
Fixpoint tiled (l : DFCStateActionLayout) (off : nat) (ss : list string) (ds : list nat) : Prop :=
  match ss, ds with
  | [], [] => off = action_dim l
  | s :: ss, d :: ds =>
      dget s (primary_map l) = Some (off, off + d) /\ dget s (gripper_map l) = Some (off + d) /\
      is_Some (dget s (field_map l)) /\ tiled l (off + d + 1) ss ds
  | _, _ => False
  end.

Lemma action_step_frame arms ss a a' k :
  foldM_res (action_step arms) ss a = Ok a' -> k ∉ ss ->
  dget k (aa_primary a') = dget k (aa_primary a) /\
  dget k (aa_gripper a') = dget k (aa_gripper a) /\
  dget k (aa_field a') = dget k (aa_field a).
Proof.
  revert a. induction ss as [|s ss IH]; intros a; simpl; [by intros [= <-]|].
  intros H [Hne Hk]%not_elem_of_cons. res_simp.
  destruct (IH _ H Hk) as (-> & -> & ->). unfold action_step in E. res_simp. simpl.
  by rewrite !dget_dset_ne.
Qed.

Lemma action_fold_tiled arms ss a a' (l : DFCStateActionLayout) :
  foldM_res (action_step arms) ss a = Ok a' -> NoDup ss ->
  primary_map l = aa_primary a' -> gripper_map l = aa_gripper a' -> field_map l = aa_field a' ->
  action_dim l = aa_off a' -> length (aa_names a) = aa_off a ->
  length (aa_names a') = aa_off a' /\
  exists ds, tiled l (aa_off a) ss ds /\
    Forall2 (fun s d => exists arm, dget s arms = Some arm /\
      Channel.action_dim (arm_control arm) = Ok d) ss ds.
Proof.
  intros H Hn Hp Hg Hf Hd. revert a H. induction Hn as [|s ss Hs Hn IH]; intros a H Hlen.
  - simpl in H. injection H as <-. split; [done|]. by exists [].
  - simpl in H. destruct (action_step arms a s) as [a1|] eqn:E; [|done]. simpl in H.
    destruct (action_step_frame _ _ _ _ s H Hs) as (Fp & Fg & Ff).
    unfold action_step in E. destruct (dget s arms) as [arm|] eqn:Earm; [|done]. simpl in E.
    destruct (action_field (arm_control arm)) as [f|] eqn:Ef; [|done]. simpl in E.
    destruct (Channel.action_dim (arm_control arm)) as [d|] eqn:Ed; [|done]. simpl in E.
    injection E as <-. simpl in *.
    destruct (IH _ H) as [Hl (ds & Ht & Hds)].
    { simpl. rewrite !length_app, length_indexed. simpl. lia. }
    split; [done|]. exists (d :: ds). split; [|constructor; eauto].
    simpl in *. rewrite Hp, Hg, Hf, Fp, Fg, Ff, !dget_dset_eq. eauto.
Qed.

Lemma from_arms_ok arms sigs acts l :
  from_arms arms sigs acts = Ok l ->
  exists a, foldM_res (action_step arms) (sides l) (ActAcc [] [] [] [] 0) = Ok a /\
    sides l = List.filter (fun s => bool_decide (s ∈ acts)) (sorted_sides arms) /\
    action_names l = aa_names a /\ field_map l = aa_field a /\ primary_map l = aa_primary a /\
    gripper_map l = aa_gripper a /\ action_dim l = aa_off a /\
    foldM_res (state_step arms) (state_keys (sorted_sides arms) sigs) ([], [], 0) =
      Ok (state_names l, state_map l, state_dim l).
Proof.
  unfold from_arms. destruct (existsb _ _); [done|]. intros H. res_simp. simpl.
  exists a0. split_and!; try done. by destruct a as [[? ?] ?].
Qed.

Lemma NoDup_filter_list {A} (f : A -> bool) (l : list A) : NoDup l -> NoDup (List.filter f l).
Proof. rewrite !NoDup_ListNoDup. apply List.NoDup_filter. Qed.

(** The values each side contributes to an action vector. *)
Definition side_block (primary : list (string * list f64)) (gripper : list (string * f64))
    (side : string) : list f64 :=
  ((f32 <$> default [] (dget side primary)) ++ [f32 (default f0 (dget side gripper))])%list.

Definition block_fits (primary : list (string * list f64)) (s : string) (d : nat) : Prop :=
  exists v, dget s primary = Some v /\ length v = d.

Definition blocks (primary : list (string * list f64)) (gripper : list (string * f64))
    (ss : list string) : list f64 := concat (side_block primary gripper <$> ss).

Lemma pack_action_tiled l primary gripper ss ds off act :
  tiled l off ss ds -> Forall2 (block_fits primary) ss ds -> length act = action_dim l ->
  off + length (blocks primary gripper ss) = action_dim l /\
  foldM_res (pack_action_step l primary gripper) ss act =
    Ok (splice act off (blocks primary gripper ss)).
Proof.
  intros Ht Hf. revert off act Ht.
  induction Hf as [|s d ss ds (v & Hv & Hd) Hf IH]; intros off act Ht Ha; simpl in *.
  - subst off. split; [unfold blocks; simpl; lia|]. unfold blocks, splice. simpl.
    by rewrite Nat.add_0_r, take_drop.
  - destruct Ht as (Hp & Hg & _ & Ht).
    assert (Hb : length (side_block primary gripper s) = d + 1).
    { unfold side_block. rewrite Hv. simpl. rewrite length_app, length_fmap. simpl. lia. }
    pose proof (IH (off + d + 1) act Ht Ha) as [Hend _].
    assert (Hlb : length (blocks primary gripper (s :: ss)) =
      d + 1 + length (blocks primary gripper ss)).
    { unfold blocks. simpl. rewrite length_app, Hb. done. }
    split; [lia|]. unfold pack_action_step at 1, primary_slice, gripper_index.
    rewrite Hv, Hp, Hg. simpl. rewrite length_fmap.
    replace (length v =? off + d - off) with true by (symmetry; apply Nat.eqb_eq; lia). simpl.
    rewrite <-splice_one by (rewrite length_splice; rewrite ?length_fmap; lia).
    replace (off + d) with (off + length (f32 <$> v)) by (rewrite length_fmap; lia).
    rewrite splice_splice by (rewrite length_fmap; simpl; lia).
    assert (((f32 <$> v) ++ [f32 (default f0 (dget s gripper))])%list =
      side_block primary gripper s) as -> by (unfold side_block; by rewrite Hv).
    destruct (IH (off + d + 1) (splice act off (side_block primary gripper s)) Ht) as [_ ->].
    { rewrite length_splice; lia. }
    f_equal. replace (off + d + 1) with (off + length (side_block primary gripper s)) by lia.
    rewrite splice_splice by lia. done.
Qed.

Lemma slice_app_mid (pre a b post : list f64) off e :
  off = length pre -> e = length pre + length a ->
  slice (pre ++ (a ++ b) ++ post)%list off e = a.
Proof.
  intros -> ->. unfold slice. rewrite drop_app_length, <-app_assoc.
  replace (length pre + length a - length pre) with (length a) by lia. apply take_app_length.
Qed.

Lemma split_tiled l primary gripper ss ds pre :
  tiled l (length pre) ss ds -> Forall2 (block_fits primary) ss ds ->
  mapM_res (fun side =>
      let? f := layout_field l side in
      let? s := primary_slice l side in
      let? g := gripper_index l side in
      let? x := of_option IndexError ((pre ++ blocks primary gripper ss)%list !! g) in
      Ok (side, SideAction f (slice (pre ++ blocks primary gripper ss)%list s.1 s.2) x)) ss =
  Ok ((fun s => (s, SideAction (default "" (dget s (field_map l)))
          (f32 <$> default [] (dget s primary)) (f32 (default f0 (dget s gripper))))) <$> ss).
Proof.
  intros Ht Hf. revert pre Ht.
  induction Hf as [|s d ss ds (v & Hv & Hd) Hf IH]; intros pre Ht; simpl in *; [done|].
  destruct Ht as (Hp & Hg & [f Hff] & Ht).
  assert (Hblk : blocks primary gripper (s :: ss) =
    (((f32 <$> v) ++ [f32 (default f0 (dget s gripper))]) ++ blocks primary gripper ss)%list).
  { unfold blocks. simpl. unfold side_block at 1. by rewrite Hv. }
  unfold layout_field at 1, primary_slice at 1, gripper_index at 1. rewrite Hff, Hp, Hg. simpl.
  rewrite Hblk. rewrite lookup_app_r by lia.
  replace (length pre + d - length pre) with (length (f32 <$> v)) by (rewrite length_fmap; lia).
  rewrite <-app_assoc. cbn [app]. rewrite list_lookup_middle by done. simpl.
  specialize (IH (pre ++ (f32 <$> v) ++ [f32 (default f0 (dget s gripper))])%list).
  rewrite !length_app, length_fmap in IH. simpl in IH.
  replace (length pre + (length v + 1)) with (length pre + d + 1) in IH by lia.
  specialize (IH Ht). rewrite <-!app_assoc in IH. simpl in IH. rewrite IH. simpl.
  rewrite Hv. simpl. do 4 f_equal.
  unfold slice. rewrite drop_app_length.
  replace (length pre + d - length pre) with (length (f32 <$> v)) by (rewrite length_fmap; lia).
  apply take_app_length.
Qed.

(** ** State packing: lemmas *)

Definition state_value (values : list ((string * string) * list f64)) (k : string * string) :
    list f64 := f32 <$> default [] (dget k values).

Lemma state_step_ok arms nms bl off k st :
  state_step arms (nms, bl, off) k = Ok st ->
  exists d, signal_dim arms k = Ok d /\ st.1.2 = dset k (off, off + d) bl /\ st.2 = off + d.
Proof.
  unfold state_step. destruct (signal_dim arms k) as [d|]; [|done]. intros [= <-]. by exists d.
Qed.

(** The state slices are consecutive, in key order. *)
Lemma state_fold_blocks arms ks nms bl off nms' bl' off' :
  foldM_res (state_step arms) ks (nms, bl, off) = Ok (nms', bl', off') ->
  NoDup ks -> (forall k, k ∈ ks -> k ∉ dkeys bl) ->
  exists ds, mapM_res (signal_dim arms) ks = Ok ds /\ off' = off + nsum ds /\
    bl' = (bl ++ zip ks (imap (fun i d => (off + nsum (take i ds), off + nsum (take i ds) + d)) ds))%list.
Proof.
  intros H Hn. revert nms bl off H. induction Hn as [|k ks Hk Hn IH]; intros nms bl off H Hd.
  - simpl in H. injection H as <- <- <-. exists []. simpl. rewrite app_nil_r. split_and!; [done|lia|done].
  - simpl in H. destruct (signal_dim arms k) as [d|] eqn:Ed; [|done]. simpl in H.
    apply IH in H as (ds & Hm & Ho & Hb).
    + exists (d :: ds). simpl. rewrite Ed. simpl. rewrite Hm. simpl. split_and!; [done|lia|].
      rewrite Hb, dkeys_dset_new by (apply Hd; left). rewrite <-app_assoc. simpl.
      do 2 f_equal; [f_equal; f_equal; lia|]. f_equal. apply imap_ext. intros i x _. simpl.
      f_equal; lia.
    + intros k' Hk'. rewrite elem_of_dkeys_dset. intros [->|Hin]; [done|].
      exact (Hd k' ltac:(by right) Hin).
Qed.

Lemma NoDup_state_keys ss sigs : NoDup ss -> NoDup sigs -> NoDup (state_keys ss sigs).
Proof.
  intros Hs Hg. unfold state_keys. induction Hs as [|s ss Hn Hs IH]; simpl; [constructor|].
  apply list.NoDup_app. split_and!; [|intros [a b] Hin|done].
  - apply list.NoDup_fmap; [intros x y; congruence|done].
  - apply list_elem_of_fmap in Hin as (x & [= -> ->] & _).
    intros (s' & Hp & Hs')%list_elem_of_bind.
    apply list_elem_of_fmap in Hp as (y & [= -> ->] & _). done.
Qed.

Lemma pack_state_blocks values ks ds off st total :
  Forall2 (fun k d => exists v, dget k values = Some v /\ length v = d) ks ds ->
  length st = total -> off + nsum ds <= total ->
  length (concat (state_value values <$> ks)) = nsum ds /\
  foldM_res (pack_state_step values)
   (zip ks (imap (fun i d => (off + nsum (take i ds), off + nsum (take i ds) + d)) ds)) st =
  Ok (splice st off (concat (state_value values <$> ks))).
Proof.
  intros Hf. revert off st. induction Hf as [|k d ks ds (v & Hv & Hd) Hf IH]; intros off st Hs Ho.
  - simpl. split; [done|]. unfold splice. simpl. by rewrite Nat.add_0_r, take_drop.
  - cbn [nsum foldr] in Ho. fold (nsum ds) in Ho. simpl. unfold pack_state_step at 1. simpl.
    rewrite Hv. simpl. rewrite length_fmap.
    replace (length v =? off + 0 + d - (off + 0)) with true by (symmetry; apply Nat.eqb_eq; lia).
    simpl. rewrite Nat.add_0_r.
    assert (Hlv : length (state_value values k) = d)
      by (unfold state_value; rewrite Hv; simpl; by rewrite length_fmap).
    destruct (IH (off + d) (splice st off (f32 <$> v))) as [Hl Hfold].
    { rewrite length_splice; [done|]. rewrite length_fmap. lia. }
    { lia. }
    split; [rewrite length_app, Hlv; exact (f_equal (Nat.add d) Hl)|].
    assert (state_value values k = f32 <$> v) as Hval by (unfold state_value; by rewrite Hv).
    rewrite Hval in Hlv |- *.
    match type of Hfold with foldM_res _ ?Z _ = _ =>
      match goal with |- foldM_res _ ?Z' _ = _ => replace Z' with Z; [rewrite Hfold|] end end.
    + f_equal. rewrite <-Hlv. apply splice_splice.
      match goal with |- context [length (concat ?X)] =>
        change (length (concat X)) with (length (concat (state_value values <$> ks))) end. lia.
    + f_equal. apply imap_ext. intros i x _. simpl. f_equal; lia.
Qed.

(** ** Properties *)

(** The layout an arm configuration induces tiles its action vector: the sides are
    the requested ones, each owning a contiguous primary block of its control's action
    width followed by its gripper slot, the blocks leave no gap and no overlap from 0 to
    the action dimension, and there is one name per entry. *)
Theorem layout_tiles (arms : list (string * ArmShape)) (sigs acts : list string)
    (l : DFCStateActionLayout)
    (Hkeys : NoDup (dkeys arms)) (Hok : from_arms arms sigs acts = Ok l) :
  NoDup (sides l) /\ (forall s, s ∈ sides l <-> s ∈ acts /\ s ∈ dkeys arms) /\
  length (action_names l) = action_dim l /\
  exists ds, tiled l 0 (sides l) ds /\
    Forall2 (fun s d => exists arm, dget s arms = Some arm /\
      Channel.action_dim (arm_control arm) = Ok d) (sides l) ds.
Proof.
  apply from_arms_ok in Hok as (a & Ha & Hs & Hn & Hf & Hp & Hg & Hd & _).
  assert (NoDup (sides l)) as Hnd.
  { rewrite Hs. apply NoDup_filter_list. by rewrite (sorted_sides_perm arms). }
  split; [done|]. split.
  - intros s. rewrite Hs, list_elem_of_In, List.filter_In, <-list_elem_of_In, bool_decide_eq_true.
    rewrite (sorted_sides_perm arms). tauto.
  - destruct (action_fold_tiled arms (sides l) _ a l Ha Hnd Hp Hg Hf Hd eq_refl) as [Hl Ht].
    rewrite Hn, Hd. split; [done|exact Ht].
Qed.

(** A 7-joint [qpos] control. *)
Definition rizon_qpos : ControlCfg :=
  Control "qpos" "NRT_JOINT_POSITION" "SendJointPosition"
    [("q_d", 7); ("dq_d", 7)] ["q_d"; "dq_d"] demo_channel_cfg
    None None None None None.

Definition rizon_arm : ArmShape := Arm [("q", 7); ("tau", 7)] rizon_qpos.
Definition rizon_pair : list (string * ArmShape) := [("right", rizon_arm); ("left", rizon_arm)].

Lemma rizon_pair_NoDup : NoDup (dkeys rizon_pair).
Proof. vm_compute. repeat constructor; set_solver. Qed.

Lemma layout_tiles_witness : exists ds, tiled bimanual_qpos 0 ["left"; "right"] ds.
Proof.
  destruct (layout_tiles rizon_pair ["q"] ["left"; "right"] bimanual_qpos rizon_pair_NoDup)
    as (_ & _ & _ & ds & Ht & _); [vm_compute; reflexivity|].
  exists ds. exact Ht.
Defined.

(** Packing an action and splitting it recovers, for every commanded side, its field
    name, its primary values and its gripper value (in single precision; a side without
    a gripper value gets 0), and nothing else. *)
Theorem action_roundtrip (arms : list (string * ArmShape)) (sigs acts : list string)
    (l : DFCStateActionLayout) (primary : list (string * list f64))
    (gripper : list (string * f64))
    (Hkeys : NoDup (dkeys arms)) (Hok : from_arms arms sigs acts = Ok l)
    (Hfit : forall s, s ∈ sides l -> exists arm d v, dget s arms = Some arm /\
       Channel.action_dim (arm_control arm) = Ok d /\ dget s primary = Some v /\ length v = d) :
  exists v, pack_action l primary gripper = Ok v /\ length v = action_dim l /\
    split l v = Ok ((fun s => (s, SideAction (default "" (dget s (field_map l)))
          (f32 <$> default [] (dget s primary)) (f32 (default f0 (dget s gripper))))) <$> sides l).
Proof.
  pose proof Hok as Hok'. apply from_arms_ok in Hok as (a & Ha & Hs & _ & Hf & Hp & Hg & Hd & _).
  assert (NoDup (sides l)) as Hnd.
  { rewrite Hs. apply NoDup_filter_list. by rewrite (sorted_sides_perm arms). }
  destruct (action_fold_tiled arms (sides l) _ a l Ha Hnd Hp Hg Hf Hd eq_refl) as [_ (ds & Ht & Hds)].
  assert (Forall2 (block_fits primary) (sides l) ds) as Hbf.
  { apply Forall2_same_length_lookup. split; [by eapply Forall2_length|]. intros i s d Hs' Hd'.
    destruct (Forall2_lookup_lr _ _ _ _ _ _ Hds Hs' Hd') as (arm & Harm & Hdim).
    destruct (Hfit s (list_elem_of_lookup_2 _ _ _ Hs')) as (arm' & d' & v & ? & ? & ? & ?).
    exists v. split; congruence. }
  destruct (pack_action_tiled l primary gripper (sides l) ds 0 (replicate (action_dim l) f0) Ht Hbf)
    as [Hlen Hpack]; [apply length_replicate|].
  simpl in Hlen. unfold pack_action. rewrite Hpack.
  rewrite splice_all by (rewrite length_replicate; exact Hlen).
  eexists. split; [done|]. split; [done|]. unfold split.
  rewrite Hlen, Nat.eqb_refl. simpl.
  exact (split_tiled l primary gripper (sides l) ds [] Ht Hbf).
Qed.

Lemma action_roundtrip_witness : exists v,
  pack_action bimanual_qpos [("left", replicate 7 f1); ("right", replicate 7 f0)] [("left", f1)] = Ok v
  /\ length v = 16 /\
  split bimanual_qpos v = Ok [("left", SideAction "q_d" (replicate 7 f1) f1);
                              ("right", SideAction "q_d" (replicate 7 f0) f0)].
Proof.
  apply (action_roundtrip rizon_pair ["q"] ["left"; "right"] bimanual_qpos
    [("left", replicate 7 f1); ("right", replicate 7 f0)] [("left", f1)] rizon_pair_NoDup);
    [vm_compute; reflexivity|].
  intros s [->|[->|[]%not_elem_of_nil]%elem_of_cons]%elem_of_cons;
    eexists rizon_arm, 7, _; split_and!; reflexivity.
Defined.

(** The packed state vector is the concatenation of the measured blocks in
    (side, signal) order, in single precision, and fills the state dimension exactly. *)
Theorem state_packing (arms : list (string * ArmShape)) (sigs acts : list string)
    (l : DFCStateActionLayout) (values : list ((string * string) * list f64))
    (Hkeys : NoDup (dkeys arms)) (Hsigs : NoDup sigs) (Hok : from_arms arms sigs acts = Ok l)
    (Hfit : forall k d, k ∈ state_keys (sorted_sides arms) sigs -> signal_dim arms k = Ok d ->
       exists v, dget k values = Some v /\ length v = d) :
  exists v, pack_state l values = Ok v /\ length v = state_dim l /\
    v = concat (state_value values <$> state_keys (sorted_sides arms) sigs).
Proof.
  apply from_arms_ok in Hok as (_ & _ & _ & _ & _ & _ & _ & _ & Hst).
  set (ks := state_keys (sorted_sides arms) sigs) in *.
  assert (NoDup ks) as Hnd.
  { apply NoDup_state_keys; [by rewrite (sorted_sides_perm arms)|done]. }
  apply state_fold_blocks in Hst as (ds & Hm & Ho & Hb); [|done|intros ? _ []%not_elem_of_nil].
  simpl in Ho, Hb.
  assert (Forall2 (fun k d => exists v, dget k values = Some v /\ length v = d) ks ds) as Hf.
  { apply mapM_res_Forall2 in Hm. apply Forall2_same_length_lookup.
    split; [by eapply Forall2_length|]. intros i k d Hk Hd.
    apply Hfit; [by eapply list_elem_of_lookup_2|]. by eapply Forall2_lookup_lr in Hm. }
  destruct (pack_state_blocks values ks ds 0 (replicate (state_dim l) f0) (state_dim l) Hf)
    as [Hlen Hpack]; [apply length_replicate|lia|].
  exists (concat (state_value values <$> ks)). split_and!; [|lia|done].
  unfold pack_state. rewrite Hb. simpl. simpl in Hpack. rewrite Hpack.
  by rewrite splice_all by (rewrite length_replicate; lia).
Qed.

Lemma state_packing_witness : exists v,
  pack_state bimanual_qpos [(("right", "q"), replicate 7 f0); (("left", "q"), replicate 7 f1)] = Ok v
  /\ length v = 14 /\ v = (replicate 7 f1 ++ replicate 7 f0)%list.
Proof.
  apply (state_packing rizon_pair ["q"] ["left"; "right"] bimanual_qpos
    [(("right", "q"), replicate 7 f0); (("left", "q"), replicate 7 f1)] rizon_pair_NoDup).
  - repeat constructor; set_solver.
  - vm_compute. reflexivity.
  - change (state_keys (sorted_sides rizon_pair) ["q"]) with [("left", "q"); ("right", "q")].
    intros k d Hk Hd.
    assert (k = ("left", "q") \/ k = ("right", "q")) as [-> | ->] by set_solver;
      vm_compute in Hd; injection Hd as <-; eexists; split; reflexivity.
Defined.

(** The hard-coded two-arm layout is the one its configuration induces: for any left
    and right arms streaming a 7-wide [q] under a 7-joint [qpos] control, listed in
    either order, the general constructor returns exactly [bimanual_qpos]. *)
Theorem bimanual_qpos_general (ls rs : list (string * nat)) (lc rc : ControlCfg)
    (arms : list (string * ArmShape))
    (Horder : arms = [("left", Arm ls lc); ("right", Arm rs rc)] \/
              arms = [("right", Arm rs rc); ("left", Arm ls lc)])
    (Hls : dget "q" ls = Some 7) (Hrs : dget "q" rs = Some 7)
    (Hlk : kind lc = "qpos") (Hrk : kind rc = "qpos")
    (Hlc : dget "q_d" (command lc) = Some 7) (Hrc : dget "q_d" (command rc) = Some 7) :
  from_arms arms ["q"] ["left"; "right"] = Ok bimanual_qpos.
Proof.
  assert (forall c, kind c = "qpos" -> dget "q_d" (command c) = Some 7 ->
    action_field c = Ok "q_d" /\ Channel.action_dim c = Ok 7) as Hact.
  { intros c Hk Hc. unfold Channel.action_dim, action_field. rewrite Hk. simpl.
    unfold field_dim. by rewrite Hc. }
  destruct (Hact lc Hlk Hlc) as [Lf Ld], (Hact rc Hrk Hrc) as [Rf Rd].
  destruct Horder as [-> | ->]; unfold from_arms; simpl;
    unfold state_step, signal_dim, action_step; simpl; rewrite Hls; simpl; rewrite Hrs; simpl;
    rewrite Lf, Ld; simpl; rewrite Rf, Rd; reflexivity.
Qed.

Lemma bimanual_qpos_general_witness :
  from_arms rizon_pair ["q"] ["left"; "right"] = Ok bimanual_qpos.
Proof.
  apply (bimanual_qpos_general [("q", 7); ("tau", 7)] [("q", 7); ("tau", 7)] rizon_qpos rizon_qpos
    rizon_pair); [right; reflexivity|reflexivity..].
Defined.
