(* ===== verification/Process.v ===== *)
(** * Processes: pacing, stream declarations, the producer loop

    Models [process.py], [proprio.py] and [cameras.py].  The clock readings of a
    rate limiter and the polls of a producer's source are inputs; the producer acts on
    the shared-memory and manifest world of [Streams]. *)

From Stdlib Require Import String.
From S2P Require Import Prelude Float64 Ring Streams.
Local Open Scope string_scope.
Local Open Scope Z_scope.

(** ** [RateLimiter] *)

Record RateLimiter := Limiter { period : f64; spin_margin : f64; next_tick : option f64 }.

Definition rate_limiter (hz spin : f64) : res RateLimiter :=
  if fle hz f0 then Raise ValueError else Ok (Limiter (fdiv f1 hz) spin None).

Definition rate_reset (r : RateLimiter) (now : f64) : RateLimiter :=
  Limiter (period r) (spin_margin r) (Some (fadd now (period r))).

(** [sleep]: the clock at [reset] (when never reset), before sleeping and at the end;
    returns the requested sleep, if any. *)
Definition rate_sleep (r : RateLimiter) (now0 now1 now2 : f64) : RateLimiter * option f64 :=
  let r := match next_tick r with None => rate_reset r now0 | Some _ => r end in
  let target := default f0 (next_tick r) in
  let remaining := fsub target now1 in
  let slept := if flt (spin_margin r) remaining then Some (fsub remaining (spin_margin r)) else None in
  let next := fadd target (period r) in
  let next := if flt next now2 then fadd now2 (period r) else next in
  (Limiter (period r) (spin_margin r) (Some next), slept).

(** ** Stream declarations *)

Record StreamCfg := StreamC {
  sc_dim : Z; sc_dtype : string; sc_capacity : Z; sc_rate_hz : f64; sc_dummy : bool;
}.

Definition PROPRIO_SIGNALS : list string :=
  ["q"; "dq"; "tau"; "tau_ext"; "wrench"; "eef"; "eef_vel"].

Definition stream_name (side signal : string) : string := (side +:+ "/" +:+ signal).

Definition proprio_stream_names (side : string) : list string := stream_name side <$> PROPRIO_SIGNALS.

Definition streams_to_specs (prefix : string) (cfg : list (string * StreamCfg)) :
    res (list StreamSpec) :=
  mapM_res (fun x => stream_spec (MkSpec (prefix +:+ "/" +:+ x.1) (sc_dim x.2) (sc_capacity x.2)
                       (sc_dtype x.2) (Some (sc_rate_hz x.2)))) cfg.

(** ** Camera views *)

Record CameraCfg := Camera {
  cam_width : Z; cam_height : Z; cam_fps : f64; cam_capacity : Z; cam_views : list string;
}.

Definition CAMERA_NS : string := "cam".
Definition RGB_VIEWS : list string := ["left"; "right"; "color"].
Definition VIEW_DEPTH : string := "depth".

Definition view_channels (view : string) : res Z :=
  if bool_decide (view ∈ RGB_VIEWS) then Ok 3
  else if String.eqb view VIEW_DEPTH then Ok 1 else Raise ValueError.

Definition view_dtype (view : string) : res string :=
  if bool_decide (view ∈ RGB_VIEWS) then Ok "uint8"
  else if String.eqb view VIEW_DEPTH then Ok "float32" else Raise ValueError.

Definition view_shape (cam : CameraCfg) (view : string) : res (list Z) :=
  if String.eqb view VIEW_DEPTH then Ok [cam_height cam; cam_width cam]
  else let? c := view_channels view in Ok [cam_height cam; cam_width cam; c].

Definition camera_prefix (name : string) : string := (CAMERA_NS +:+ "/" +:+ name).
Definition camera_stream_name (name view : string) : string := (camera_prefix name +:+ "/" +:+ view).

Definition camera_spec (name : string) (cam : CameraCfg) (view : string) : res StreamSpec :=
  let? c := view_channels view in
  let? dt := view_dtype view in
  stream_spec (MkSpec (camera_stream_name name view) (cam_height cam * cam_width cam * c)
                 (cam_capacity cam) dt (Some (cam_fps cam))).

Definition camera_streams_to_specs (name : string) (cam : CameraCfg) : res (list StreamSpec) :=
  mapM_res (camera_spec name cam) (cam_views cam).

Definition camera_stream_names (cameras : list (string * CameraCfg)) : list string :=
  cameras ≫= (fun x => camera_stream_name x.1 <$> cam_views x.2).

(** A reshaped frame: the sample with its shape; numpy raises when the sizes differ. *)
Definition reshape_frame (vec : list f64) (cam : CameraCfg) (view : string) :
    res (list Z * list f64) :=
  let? s := view_shape cam view in
  if Z.of_nat (length vec) =? foldr Z.mul 1 s then Ok (s, vec) else Raise ValueError.

(** ** [StreamProducerNode] *)

Record producer := Producer {
  pd_world : world;
  pd_writers : list (string * StreamWriter);
}.

(** One tick of the run loop: the stop flag, what [poll] does, the stamp. *)
Record ptick := PTick {
  pt_stop : bool;
  pt_poll : res (option (list (string * list f64)));
  pt_ns : Z;
}.

Section producer.
Context (cast : dtype -> f64 -> f64) (run_id : string) (reg : registry) (pid : Z).

(** [self._writers[spec.name] = StreamWriter.create(...)]. *)
Definition producer_declare (io_ok : string -> bool) (s : StreamSpec) : ST producer unit := fun p =>
  match writer_create (io_ok (sp_name s)) (pd_world p) s run_id reg pid with
  | (w, Ok wr) => (Producer w (dset (sp_name s) wr (pd_writers p)), Returned tt)
  | (w, Raise e) => (Producer w (pd_writers p), Raised e)
  end.

Fixpoint producer_declares (io_ok : string -> bool) (specs : list StreamSpec) : ST producer unit :=
  match specs with
  | [] => mret tt
  | s :: specs => producer_declare io_ok s ;; producer_declares io_ok specs
  end.

Fixpoint producer_write (t_ns : Z) (sample : list (string * list f64)) : ST producer unit :=
  match sample with
  | [] => mret tt
  | (name, vec) :: sample => fun p =>
      match dget name (pd_writers p) with
      | None => (p, Raised KeyError)
      | Some wr =>
          match writer_write cast (pd_world p) wr vec t_ns with
          | Raise e => (p, Raised e)
          | Ok (w, _) => producer_write t_ns sample (Producer w (pd_writers p))
          end
      end
  end.

Fixpoint producer_loop (ticks : list ptick) : ST producer unit :=
  match ticks with
  | [] => st_running
  | t :: ticks =>
      if pt_stop t then mret tt
      else
        sample ← st_lift (pt_poll t);
        (match sample with
         | Some ((_ :: _) as s) => producer_write (pt_ns t) s
         | _ => mret tt
         end) ;;
        producer_loop ticks
  end.

(** [_teardown]: release every stream created so far. *)
Definition teardown_step (w : world) (x : string * StreamWriter) : world :=
  reg_remove (writer_unlink w x.2) reg x.1.

Definition producer_teardown (p : producer) : producer :=
  Producer (foldl teardown_step (pd_world p) (pd_writers p)) (pd_writers p).

(** [run]: declare, open, loop, and tear down on every exit. *)
Definition producer_run (io_ok : string -> bool) (specs : res (list StreamSpec))
    (open_source : res unit) (ticks : list ptick) : ST producer unit :=
  try_finally
    (ss ← st_lift specs;
     producer_declares io_ok ss ;;
     st_lift open_source ;;
     producer_loop ticks)
    producer_teardown.
End producer.

(** [run_node]: the exit status of a node's process and whether it raised the shared
    stop event. *)
Definition run_node {A} (o : outcome A) (stop_event : bool) : option (bool * Z) :=
  match o with
  | Running => None
  | Returned _ => Some (stop_event, 0)
  | Raised _ => Some (true, 1)
  end.

(** ** Lemmas *)

Section producer_lemmas.
Context (cast : dtype -> f64 -> f64) (run_id : string) (reg : registry) (pid : Z).
Context (base : gmap string nat).

Definition shm_names (ws : list (string * StreamWriter)) : list string := (fun x => w_shm_name x.2) <$> ws.

(** Without the names it owns, a producer's world has the names it started from. *)
Record owns (p : producer) : Prop := {
  own_names : foldr delete (names (pd_world p)) (shm_names (pd_writers p)) = base;
  own_keys : forall k wr, dget k (pd_writers p) = Some wr ->
    is_Some (names (pd_world p) !! shm_name_for run_id k);
}.

Lemma writer_create_names io w s g w' o :
  writer_create io w s run_id g pid = (w', o) ->
  match o with
  | Ok wr => names w !! shm_name_for run_id (sp_name s) = None /\
      w_shm_name wr = shm_name_for run_id (sp_name s) /\
      exists i, names w' = <[shm_name_for run_id (sp_name s) := i]> (names w)
  | Raise _ => names w' = names w
  end.
Proof.
  unfold writer_create. destruct (shm_create _ _ _ _ _) as [[w1 seg]|] eqn:Ec.
  - apply shm_create_ok in Ec as (Hf & Hn & _ & _).
    destruct (publish _ _ _ _ _ _) as [[w2 e]|] eqn:Ep; intros [= <- <-].
    + apply publish_ok in Ep as (_ & Hn2 & _). split_and!; [done|done|]. exists seg. congruence.
    + simpl. rewrite Hn. by apply delete_insert_id.
  - by intros [= <- <-].
Qed.

Lemma declare_owns io s : keeps owns (producer_declare run_id reg pid io s).
Proof.
  intros p [Hn Hk]. unfold producer_declare.
  destruct (writer_create _ _ _ _ _ _) as [w [wr|e]] eqn:Ec;
    apply writer_create_names in Ec; simpl.
  - destruct Ec as (Hf & Hwn & i & Hi).
    assert (sp_name s ∉ dkeys (pd_writers p)) as Hnew.
    { intros Hin. destruct (dget (sp_name s) (pd_writers p)) as [wr'|] eqn:E.
      - destruct (Hk _ _ E). congruence.
      - by apply dget_None in E. }
    split; simpl.
    + rewrite dkeys_dset_new by done. unfold shm_names. rewrite fmap_app, foldr_app. simpl.
      rewrite Hwn, Hi, delete_insert_id by done. done.
    + intros k wr'. rewrite Hi. destruct (decide (k = sp_name s)) as [->|Hne].
      * intros _. by rewrite lookup_insert_eq.
      * rewrite dget_dset_ne by done. intros Hd.
        destruct (decide (shm_name_for run_id k = shm_name_for run_id (sp_name s))) as [->|?].
        -- by rewrite lookup_insert_eq.
        -- rewrite lookup_insert_ne by done. by eapply Hk.
  - split; simpl; rewrite Ec; done.
Qed.

Lemma declares_owns io specs : keeps owns (producer_declares run_id reg pid io specs).
Proof.
  induction specs as [|s specs IH]; simpl; [apply keeps_ret|].
  apply keeps_bind; [apply declare_owns|intros _; exact IH].
Qed.

Lemma write_owns t sample : keeps owns (producer_write cast t sample).
Proof.
  induction sample as [|[n v] sample IH]; simpl; [apply keeps_ret|]. intros p Hp.
  destruct (dget n (pd_writers p)) as [wr|]; [|done].
  destruct (writer_write cast (pd_world p) wr v t) as [[w i]|] eqn:Ew; [|done].
  apply IH. apply writer_write_ok in Ew as (r & r' & _ & _ & _ & Hn & _).
  destruct Hp as [H1 H2]. split; simpl; by rewrite Hn.
Qed.

Lemma loop_owns ticks : keeps owns (producer_loop cast ticks).
Proof.
  induction ticks as [|t ticks IH]; simpl; [apply keeps_running|].
  destruct (pt_stop t); [apply keeps_ret|].
  apply keeps_bind; [apply keeps_lift|]. intros o.
  apply keeps_bind; [|intros _; exact IH].
  destruct o as [[|x s]|]; [apply keeps_ret|apply write_owns|apply keeps_ret].
Qed.

Lemma names_teardown ws w :
  names (foldl (teardown_step reg) w ws) = foldr delete (names w) (rev (shm_names ws)).
Proof.
  revert w. induction ws as [|x ws IH]; intros w; simpl; [done|].
  rewrite IH. unfold shm_names. simpl. rewrite foldr_app. simpl. f_equal.
  unfold teardown_step, reg_remove. by destruct (dir_of _ _ _).
Qed.

Lemma foldr_delete_lookup (m : gmap string nat) l k :
  foldr delete m l !! k = if decide (k ∈ l) then None else m !! k.
Proof.
  induction l as [|x l IH]; simpl; [done|].
  destruct (decide (k = x)) as [->|Hne].
  - rewrite lookup_delete_eq. by rewrite decide_True by left.
  - rewrite lookup_delete_ne, IH by done.
    destruct (decide (k ∈ l)), (decide (k ∈ x :: l)); set_solver.
Qed.

Lemma foldr_delete_rev (m : gmap string nat) l : foldr delete m (rev l) = foldr delete m l.
Proof.
  apply map_eq. intros k. rewrite !foldr_delete_lookup.
  destruct (decide (k ∈ l)) as [H|H], (decide (k ∈ rev l)) as [H'|H']; try done;
    rewrite !list_elem_of_In, <-in_rev in H'; rewrite list_elem_of_In in H; done.
Qed.
End producer_lemmas.

(** ** Properties *)

(** A producer releases what it allocates: whenever its run ends (normal stop, a
    failed allocation or publish part-way, a source that does not open, a poll or write
    that raises), the shared-memory names are exactly those that existed before it ran. *)
Theorem producer_releases (cast : dtype -> f64 -> f64) (run_id : string) (reg : registry)
    (pid : Z) (io_ok : string -> bool) (specs : res (list StreamSpec)) (open_source : res unit)
    (ticks : list ptick) (w : world) :
  match producer_run cast run_id reg pid io_ok specs open_source ticks (Producer w []) with
  | (_, Running) => True
  | (p, _) => names (pd_world p) = names w
  end.
Proof.
  unfold producer_run, try_finally.
  assert (keeps (owns run_id (names w)) (
     ss ← st_lift specs;
     producer_declares run_id reg pid io_ok ss ;;
     st_lift open_source ;; producer_loop cast ticks)) as Hk.
  { apply keeps_bind; [apply keeps_lift|intros ss]. apply keeps_bind; [apply declares_owns|intros _].
    apply keeps_bind; [apply keeps_lift|intros _]. apply loop_owns. }
  specialize (Hk (Producer w [])).
  destruct ((_ : ST producer unit) (Producer w [])) as [p o]; simpl in Hk.
  destruct Hk as [Hn _]; [by split|].
  destruct o; try done; simpl; by rewrite names_teardown, foldr_delete_rev.
Qed.

(** Every camera stream carries whole frames: the declared dimension of a view is the
    product of the shape its consumers reshape to, so a sample of that width reshapes
    without error, for every camera geometry and view the specs accept. *)
Theorem camera_frames_fit (name view : string) (cam : CameraCfg) (s : StreamSpec)
    (vec : list f64)
    (Hspec : camera_spec name cam view = Ok s) (Hlen : Z.of_nat (length vec) = sp_dim s) :
  exists shape, view_shape cam view = Ok shape /\ sp_dim s = foldr Z.mul 1 shape /\
    reshape_frame vec cam view = Ok (shape, vec).
Proof.
  unfold camera_spec in Hspec. destruct (view_channels view) as [c|] eqn:Ec; [|done]. simpl in Hspec.
  destruct (view_dtype view) as [dt|]; [|done]. simpl in Hspec.
  assert (sp_dim s = cam_height cam * cam_width cam * c) as Hd.
  { unfold stream_spec in Hspec. destruct (decide _); [done|].
    repeat (destruct (_ <=? 0); [done|]). destruct (negb _); [done|]. by injection Hspec as <-. }
  assert (exists shape, view_shape cam view = Ok shape /\ sp_dim s = foldr Z.mul 1 shape)
    as (shape & Hs & Hp).
  { unfold view_shape. destruct (String.eqb view VIEW_DEPTH) eqn:Ed.
    - eexists. split; [done|]. simpl. apply String.eqb_eq in Ed. subst view.
      unfold view_channels in Ec. simpl in Ec. injection Ec as <-. lia.
    - rewrite Ec. simpl. eexists. split; [done|]. simpl. lia. }
  exists shape. split_and!; [done|done|]. unfold reshape_frame. rewrite Hs. simpl.
  rewrite Hlen, Hp, Z.eqb_refl. done.
Qed.

Definition demo_camera : CameraCfg := Camera 2 2 f1 4 ["left"; "depth"].

Lemma camera_frames_fit_witness : exists shape,
  view_shape demo_camera "left" = Ok shape /\ 12 = foldr Z.mul 1 shape /\
  reshape_frame (replicate 12 f0) demo_camera "left" = Ok (shape, replicate 12 f0).
Proof.
  apply (camera_frames_fit "wrist" "left" demo_camera
    (MkSpec "cam/wrist/left" 12 4 "uint8" (Some f1)) (replicate 12 f0)); reflexivity.
Defined.
