(* ===== verification/Source.v ===== *)
(** * The arm's data source

    Models [interfaces/flexiv/source.py] and [states.py].  The vendor SDK is not part
    of the repository: what the code asks of it is a list of calls (their arguments
    are what the theorems are about) and what it answers is an input.  This file
    holds the control half of both sources; opening, reading and closing are in
    [SourceIO]. *)

From Stdlib Require Import SpecFloat String.
From S2P Require Import Prelude Float64 Streams Channel Convention.
Local Open Scope string_scope.
Local Open Scope Z_scope.

(** ** Robot states ([states.py]) *)

Record RobotStates := States {
  rs_q : list f64;
  rs_dq : list f64;
  rs_tau : list f64;
  rs_tau_ext : list f64;
  rs_wrench_tcp : list f64;
  rs_wrench_world : list f64;
  rs_tcp_pose : list f64;
  rs_tcp_vel : list f64;
}.

Definition map_states (rs : RobotStates) (wrench_frame : string) : res (list (string * list f64)) :=
  let? wrench := (if String.eqb wrench_frame "local" then Ok (rs_wrench_tcp rs)
                  else if String.eqb wrench_frame "world" then Ok (rs_wrench_world rs)
                  else Raise KeyError) in
  Ok [("q", rs_q rs); ("dq", rs_dq rs); ("tau", rs_tau rs); ("tau_ext", rs_tau_ext rs);
      ("wrench", wrench); ("eef", rs_tcp_pose rs); ("eef_vel", rs_tcp_vel rs)].

(** ** Pose integration *)

(** Hamilton product of two [[qw, qx, qy, qz]] quaternions. *)
Definition quat_mult (a b : list f64) : res (list f64) :=
  match a, b with
  | [aw; ax; ay; az], [bw; bx; by_; bz] =>
      Ok [fsub (fsub (fsub (fmul aw bw) (fmul ax bx)) (fmul ay by_)) (fmul az bz);
          fsub (fadd (fadd (fmul aw bx) (fmul ax bw)) (fmul ay bz)) (fmul az by_);
          fadd (fadd (fsub (fmul aw by_) (fmul ax bz)) (fmul ay bw)) (fmul az bx);
          fadd (fsub (fadd (fmul aw bz) (fmul ax by_)) (fmul ay bx)) (fmul az bw)]
  | _, _ => Raise ValueError
  end.

(** The 2-norm, squares summed left to right. *)
Definition np_norm (v : list f64) : f64 := fsqrt (foldl (fun s x => fadd s (fmul x x)) f0 v).

Definition scale (v : list f64) (k : f64) : list f64 := (fun x => fmul x k) <$> v.

Definition integrate_pose (pose twist : list f64) (dt : f64) : res (list f64) :=
  let? pos := np_add (take 3 pose) (scale (take 3 twist) dt) in
  let q := slice pose 3 7 in
  let w := slice twist 3 6 in
  let? w0 := of_option IndexError (w !! 0%nat) in
  let? w1 := of_option IndexError (w !! 1%nat) in
  let? w2 := of_option IndexError (w !! 2%nat) in
  let? qd := quat_mult [f0; w0; w1; w2] q in
  let qdot := (fun x => fmul (fdec 1 2) x) <$> qd in
  let? qn := np_add q (scale qdot dt) in
  let n := np_norm qn in
  let qn := if flt (fdec 1 1000000000) n then (fun x => fdiv x n) <$> qn else q in
  Ok (pos ++ qn)%list.

(** ** Configuration *)

Record ControlCoeffsCfg := Coeffs {
  max_contact_wrench : option (list f64);
  null_space_posture : option (list f64);
  joint_stiffness_scale : f64;
  max_joint_vel : f64;
  max_joint_acc : f64;
  max_linear_vel : f64;
  max_angular_vel : f64;
  max_linear_acc : f64;
  max_angular_acc : f64;
}.

Record GripperCfg := GripperC {
  g_enabled : bool;
  g_name : string;
  g_velocity : f64;
  g_force : f64;
  g_move_rate_hz : f64;
  g_deadband : f64;
  g_init_on_start : bool;
  g_open_width : option f64;
  g_closed_width : option f64;
}.

(** ** Calls into the SDK *)

Inductive rdk_call :=
  | ClearFault
  | Enable
  | Stop
  | SwitchMode (m : string)
  | MoveJ (target_deg : list f64)
  | SetCartesianImpedance (K Z : list f64)
  | SetMaxContactWrench (w : list f64)
  | SetNullSpacePosture (q : list f64)
  | SetForceControlAxis (axes : list bool) (max_vel : list f64)
  | SetForceControlFrame (coord : string) (T : list f64)
  | SetJointImpedance (K Z : list f64)
  | SendJointPosition (q dq dq_max ddq_max : list f64)
  | SendCartesianMotionForce (pose wrench twist : list f64) (lv av la aa : f64)
  | GripperEnable (name : string)
  | GripperInit
  | GripperMove (width vel force : f64)
  | GripperStop.

(** Calls that move the arm. *)
Definition is_motion (c : rdk_call) : bool :=
  match c with
  | MoveJ _ | SendJointPosition _ _ _ _ | SendCartesianMotionForce _ _ _ _ _ _ _ => true
  | _ => false
  end.

(** ** [FlexivSource] *)

(** The gripper handle and its cached mapping. *)
Record grip_state := Grip {
  gr_open_w : f64;
  gr_closed_w : f64;
  gr_vel : f64;
  gr_force : f64;
  gr_min_period_ns : Z;
  gr_deadband : f64;
  gr_last_val : option f64;
  gr_last_send_ns : Z;
}.

(** [robot] is whether the connection object exists (set by a successful [open]). *)
Record FlexivSource := MkSource {
  robot : bool;
  dof : nat;
  control_target : option (list f64);
  gripper : option grip_state;
}.

Definition set_target (s : FlexivSource) (t : list f64) : FlexivSource :=
  MkSource (robot s) (dof s) (Some t) (gripper s).
Definition set_gripper (s : FlexivSource) (g : option grip_state) : FlexivSource :=
  MkSource (robot s) (dof s) (control_target s) g.

(** [_apply_coeffs]: the setter calls of the active mode, in order.  [K_q_nom] is the
    connected robot's nominal stiffness. *)
Definition apply_coeffs (K_q_nom : list f64) (c : ControlCfg) (k : ControlCoeffsCfg) :
    res (list rdk_call) :=
  let opt {A} (o : option A) (f : A -> rdk_call) := match o with Some x => [f x] | None => [] end in
  if String.eqb (mode c) "NRT_CARTESIAN_MOTION_FORCE" then
    Ok (opt (cartesian_impedance c) (fun i => SetCartesianImpedance (K_x i) (Z_x i)) ++
        opt (max_contact_wrench k) SetMaxContactWrench ++
        opt (null_space_posture k) SetNullSpacePosture ++
        opt (force_control_axes c) (fun a =>
          SetForceControlAxis a (match force_axis_max_linear_vel c with
                                 | Some ((_ :: _) as v) => v
                                 | _ => [f1; f1; f1] end)) ++
        opt (force_control_frame c) (fun f => SetForceControlFrame (root_coord f) (T_in_root f)))%list
  else if String.eqb (mode c) "NRT_JOINT_IMPEDANCE" then
    match joint_impedance c with
    | None => Ok []
    | Some imp =>
        let s := joint_stiffness_scale k in
        if negb (flt f0 s && fle s f1) then Raise ValueError
        else
          let kq := match K_q_fraction imp with
                    | Some fr => (fun x => fmul (fmul s fr) x) <$> K_q_nom
                    | None => (fun x => fmul s x) <$> K_q imp
                    end in
          Ok [SetJointImpedance kq (Z_q imp)]
    end
  else Ok [].

(** [np.abs(a - b)] under broadcasting ([a - b] is [a + (-b)] in IEEE arithmetic). *)
Definition abs_diff (a b : list f64) : res (list f64) :=
  let? d := np_add a (fopp <$> b) in Ok (fabs <$> d).

(** The L-inf safety gate of the joint kinds. *)
Definition safety_gate (safety_check : bool) (tolerance : f64) (q_d q : list f64) : res unit :=
  if safety_check then
    let? d := abs_diff q_d q in
    let? err := of_option ValueError (np_max d) in
    if flt tolerance err then Raise SafetyHalt else Ok tt
  else Ok tt.

Definition field_or (fields : list (string * list f64)) (f : string) (d : list f64) : list f64 :=
  default d (dget f fields).

(** The source and the calls it has made so far, in order. *)
Record source_io := SourceIo { io_src : FlexivSource; io_calls : list rdk_call }.

(** [self._control_target = t]. *)
Definition commit (t : list f64) : ST source_io unit :=
  st_modify (fun x => SourceIo (set_target (io_src x) t) (io_calls x)).
Definition rdk (c : rdk_call) : ST source_io unit :=
  st_modify (fun x => SourceIo (io_src x) (io_calls x ++ [c])).

(** [send_control], statement by statement. *)
Definition send_control (c : ControlCfg) (k : ControlCoeffsCfg)
    (fields : list (string * list f64)) (rs : RobotStates) (dt : f64)
    (safety_check : bool) (tolerance : f64) : ST source_io unit :=
  let need f := st_lift (of_option KeyError (dget f fields)) in
  let target := (x ← st_get; st_lift (of_option TypeError (control_target (io_src x)))) in
  let cart pose wrench twist := rdk (SendCartesianMotionForce pose wrench twist
      (max_linear_vel k) (max_angular_vel k) (max_linear_acc k) (max_angular_acc k)) in
  let zeros6 := replicate 6 f0 in
  x ← st_get;
  let n := dof (io_src x) in
  if String.eqb (kind c) "qpos" || String.eqb (kind c) "qvel" then
    d ← (if String.eqb (kind c) "qpos" then
           q_d ← need "q_d";
           mret (q_d, field_or fields "dq_d" (replicate n f0))
         else
           dq_d ← need "dq_d";
           t ← target;
           q_d ← st_lift (np_add t (scale dq_d dt));
           mret (q_d, dq_d));
    st_lift (safety_gate safety_check tolerance d.1 (rs_q rs)) ;;
    (if String.eqb (kind c) "qvel" then commit d.1 else mret tt) ;;
    rdk (SendJointPosition d.1 d.2 (replicate n (max_joint_vel k)) (replicate n (max_joint_acc k)))
  else if String.eqb (kind c) "eef_vel" then
    twist ← need "twist_d";
    t ← target;
    pose ← st_lift (integrate_pose t twist dt);
    commit pose ;;
    cart pose zeros6 twist
  else if String.eqb (kind c) "end_effector" then
    pose ← need "pose_d";
    cart pose zeros6 (field_or fields "twist_d" zeros6)
  else
    pose ← (match dget "pose_d" fields with Some p => mret p | None => target end);
    w ← need "wrench_d";
    cart pose w zeros6.
Arguments send_control : simpl never.

(** ** Gripper *)

Record GripperParams := Params {
  p_min_width : f64; p_max_width : f64;
  p_min_vel : f64; p_max_vel : f64;
  p_min_force : f64; p_max_force : f64;
}.

(** [setup_gripper]: [enable_ok] is whether [Enable] succeeded; [None] for [params]
    means homing or reading the parameters raised. *)
Definition setup_gripper (cfg : GripperCfg) (enable_ok : bool) (params : option GripperParams)
    (s : FlexivSource) : FlexivSource * bool * list rdk_call :=
  match gripper s with
  | Some _ => (s, true, [])
  | None =>
      if negb (g_enabled cfg) || String.eqb (g_name cfg) "" then (s, false, [])
      else
        let calls := (GripperEnable (g_name cfg) ::
                      if enable_ok && g_init_on_start cfg then [GripperInit] else []) in
        match (if enable_ok then params else None) with
        | None => (s, false, calls)
        | Some p =>
            let period := f_trunc (fdiv (f_of_Z 1000000000)
                            (pmax (fdec 1 1000) (g_move_rate_hz cfg))) in
            (set_gripper s (Some (Grip (default (p_max_width p) (g_open_width cfg))
               (default (p_min_width p) (g_closed_width cfg))
               (np_clip (g_velocity cfg) (p_min_vel p) (p_max_vel p))
               (np_clip (g_force cfg) (p_min_force p) (p_max_force p))
               (default 0 period) (g_deadband cfg) None 0)), true, calls)
        end
  end.

(** [send_gripper]: a [Move] unless throttled or inside the deadband. *)
Definition send_gripper (value : f64) (now_ns : Z) (s : FlexivSource) :
    FlexivSource * list rdk_call :=
  match gripper s with
  | None => (s, [])
  | Some g =>
      let value := np_clip value f0 f1 in
      let skip := match gr_last_val g with
                  | None => false
                  | Some v =>
                      (now_ns - gr_last_send_ns g <? gr_min_period_ns g) ||
                      flt (fabs (fsub value v)) (gr_deadband g)
                  end in
      if skip then (s, [])
      else
        let width := fadd (gr_open_w g) (fmul value (fsub (gr_closed_w g) (gr_open_w g))) in
        (set_gripper s (Some (Grip (gr_open_w g) (gr_closed_w g) (gr_vel g) (gr_force g)
            (gr_min_period_ns g) (gr_deadband g) (Some value) now_ns)),
         [GripperMove width (gr_vel g) (gr_force g)])
  end.

Definition stop_gripper (s : FlexivSource) : FlexivSource * list rdk_call :=
  match gripper s with
  | None => (s, [])
  | Some _ => (set_gripper s None, [GripperStop])
  end.

(** [stop]. *)
Definition source_stop (s : FlexivSource) : list rdk_call := if robot s then [Stop] else [].

(** [start_control] after the bootstrap: the mode switch and the integrator baseline;
    [_apply_coeffs] follows. *)
Definition start_control_mode (c : ControlCfg) (rs : RobotStates) (s : FlexivSource) :
    res (FlexivSource * rdk_call) :=
  if String.eqb (kind c) "qpos" then Ok (s, SwitchMode (mode c))
  else if String.eqb (kind c) "qvel" then Ok (set_target s (rs_q rs), SwitchMode (mode c))
  else if String.eqb (kind c) "end_effector" || String.eqb (kind c) "eef_vel" ||
          String.eqb (kind c) "force"
  then Ok (set_target s (rs_tcp_pose rs), SwitchMode "NRT_CARTESIAN_MOTION_FORCE")
  else Raise ValueError.

(** ** [FakeFlexivSource]: the control half *)

Record FakeFlexivSource := MkFake {
  fk_ctrl : bool;
  fk_mode : string;
  fk_tracked_q : option (list f64);
  fk_tracked_pose : option (list f64);
  fk_target : option (list f64);
  fk_gripper_ready : bool;
  fk_last_gripper : option f64;
}.

Definition fake_stop (s : FakeFlexivSource) : FakeFlexivSource :=
  MkFake false "IDLE" (fk_tracked_q s) (fk_tracked_pose s) (fk_target s)
    (fk_gripper_ready s) (fk_last_gripper s).

Definition fake_start_control (c : ControlCfg) (first : list (string * list f64))
    (rs : RobotStates) (s : FakeFlexivSource) : res FakeFlexivSource :=
  if String.eqb (kind c) "qpos" then
    let? q := of_option KeyError (dget "q_d" first) in
    Ok (MkFake true (mode c) (Some q) (fk_tracked_pose s) (fk_target s)
          (fk_gripper_ready s) (fk_last_gripper s))
  else if String.eqb (kind c) "qvel" then
    Ok (MkFake true (mode c) (Some (rs_q rs)) (fk_tracked_pose s) (Some (rs_q rs))
          (fk_gripper_ready s) (fk_last_gripper s))
  else
    Ok (MkFake true "NRT_CARTESIAN_MOTION_FORCE" (Some (rs_q rs)) (Some (rs_tcp_pose rs))
          (Some (rs_tcp_pose rs)) (fk_gripper_ready s) (fk_last_gripper s)).

Definition fake_send_control (c : ControlCfg) (fields : list (string * list f64)) (dt : f64)
    (s : FakeFlexivSource) : res FakeFlexivSource :=
  let need f := of_option KeyError (dget f fields) in
  let upd q p t := MkFake (fk_ctrl s) (fk_mode s) q p t (fk_gripper_ready s) (fk_last_gripper s) in
  if String.eqb (kind c) "qpos" then
    let? q := need "q_d" in Ok (upd (Some q) (fk_tracked_pose s) (fk_target s))
  else if String.eqb (kind c) "qvel" then
    let? t := of_option TypeError (fk_target s) in
    let? dq := need "dq_d" in
    let? q := np_add t (scale dq dt) in
    Ok (upd (Some q) (fk_tracked_pose s) (Some q))
  else if String.eqb (kind c) "eef_vel" then
    let? t := of_option TypeError (fk_target s) in
    let? tw := need "twist_d" in
    let? p := integrate_pose t tw dt in
    Ok (upd (fk_tracked_q s) (Some p) (Some p))
  else if String.eqb (kind c) "end_effector" then
    let? p := need "pose_d" in Ok (upd (fk_tracked_q s) (Some p) (fk_target s))
  else
    match dget "pose_d" fields with
    | Some p => Ok (upd (fk_tracked_q s) (Some p) (fk_target s))
    | None => Ok s
    end.

Definition fake_setup_gripper (cfg : GripperCfg) (s : FakeFlexivSource) : FakeFlexivSource * bool :=
  if negb (g_enabled cfg) || String.eqb (g_name cfg) "" then (s, false)
  else (MkFake (fk_ctrl s) (fk_mode s) (fk_tracked_q s) (fk_tracked_pose s) (fk_target s)
          true (fk_last_gripper s), true).

Definition fake_send_gripper (value : f64) (s : FakeFlexivSource) : FakeFlexivSource :=
  if fk_gripper_ready s then
    MkFake (fk_ctrl s) (fk_mode s) (fk_tracked_q s) (fk_tracked_pose s) (fk_target s)
      true (Some (np_clip value f0 f1))
  else s.

Definition fake_stop_gripper (s : FakeFlexivSource) : FakeFlexivSource :=
  MkFake (fk_ctrl s) (fk_mode s) (fk_tracked_q s) (fk_tracked_pose s) (fk_target s)
    false (fk_last_gripper s).

(** ** Lemmas *)

(** An elapsed safety gate: every joint within tolerance, or a NaN among the errors. *)
Lemma safety_gate_ok tol q_d q :
  is_nan tol = false -> safety_gate true tol q_d q = Ok tt ->
  exists d, abs_diff q_d q = Ok d /\
    (Forall (fun x => fle x tol = true) d \/ Exists (fun x => is_nan x = true) d).
Proof.
  intros Ht. unfold safety_gate. destruct (abs_diff q_d q) as [d|]; simpl; [|done].
  destruct (np_max d) as [err|] eqn:Em; simpl; [|done].
  destruct (flt tol err) eqn:E; [done|]. intros _. exists d. split; [done|].
  destruct (is_nan err) eqn:En; [right; by eapply np_max_nan|left].
  eapply Forall_impl; [by eapply np_max_bound|]. intros x Hx.
  eapply fle_trans; [exact Hx|]. by apply not_flt_fle.
Qed.

Lemma safety_gate_unit b tol q_d q u : safety_gate b tol q_d q = Ok u -> safety_gate b tol q_d q = Ok tt.
Proof. by destruct u. Qed.

Definition joint_kind (c : ControlCfg) : bool := String.eqb (kind c) "qpos" || String.eqb (kind c) "qvel".

(** Run a routine of [source_io] branch by branch. *)
Ltac io_run H :=
  unfold mbind, st_bind, mret, st_ret, st_get, st_lift, st_modify, commit, rdk in H; simpl in H;
  repeat (match type of H with
          | context [match ?x with _ => _ end] =>
              lazymatch x with context [match _ with _ => _ end] => fail | _ => destruct x eqn:?; simpl in H end
          end; try done).

(** Whatever the kind: a command either goes out as one call, or an exception leaves the
    source and the wire as they were. *)
Lemma send_control_cases c k fields rs dt chk tol s :
  (exists e, send_control c k fields rs dt chk tol (SourceIo s []) = (SourceIo s [], Raised e)) \/
  (exists s' cl, send_control c k fields rs dt chk tol (SourceIo s []) = (SourceIo s' [cl], Returned tt)).
Proof.
  destruct (send_control c k fields rs dt chk tol (SourceIo s [])) as [io o] eqn:E.
  unfold send_control in E. io_run E; injection E as <- <-; first [left; by eexists|right; by eexists _, _].
Qed.

(** What a sent command leaves in the integrator: what it was, or the target just sent. *)
Definition call_target (cl : rdk_call) : option (list f64) :=
  match cl with
  | SendJointPosition q _ _ _ => Some q
  | SendCartesianMotionForce p _ _ _ _ _ _ => Some p
  | _ => None
  end.

Lemma send_control_target c k fields rs dt chk tol s s' cl :
  send_control c k fields rs dt chk tol (SourceIo s []) = (SourceIo s' [cl], Returned tt) ->
  is_motion cl = true /\ call_target cl ≠ None /\
  (s' = s \/ exists t, call_target cl = Some t /\ s' = set_target s t).
Proof.
  intros E. unfold send_control in E. io_run E; injection E as <- <-; (split_and!; [done|done|]);
    first [by left|right; by eexists].
Qed.

(** A joint command that was sent passed the gate. *)
Lemma send_control_joint c k fields rs dt chk tol s s' call :
  joint_kind c = true ->
  send_control c k fields rs dt chk tol (SourceIo s []) = (SourceIo s' [call], Returned tt) ->
  exists q dq, call = SendJointPosition q dq (replicate (dof s) (max_joint_vel k))
                        (replicate (dof s) (max_joint_acc k)) /\
    safety_gate chk tol q (rs_q rs) = Ok tt /\
    (kind c = "qpos" -> dget "q_d" fields = Some q /\ s' = s) /\
    (kind c = "qvel" -> dget "dq_d" fields = Some dq /\ s' = set_target s q /\
       exists t, control_target s = Some t /\ np_add t (scale dq dt) = Ok q).
Proof.
  intros Hk. unfold joint_kind in Hk. intros H. unfold send_control in H.
  unfold mbind, st_bind, st_get in H. simpl in H. rewrite Hk in H.
  destruct (String.eqb_spec (kind c) "qpos") as [Eq|Eq].
  - rewrite Eq in *. io_run H. injection H as <- <-. eexists _, _. split; [done|].
    split; [by match goal with H : safety_gate _ _ _ _ = Ok ?u |- _ => destruct u end|]. split; [|done].
    intros _. split; [|done]. by destruct (dget "q_d" fields); simplify_eq/=.
  - simpl in Hk. apply String.eqb_eq in Hk. rewrite Hk in *. io_run H. injection H as <- <-.
    eexists _, _. split; [done|].
    split; [by match goal with H : safety_gate _ _ _ _ = Ok ?u |- _ => destruct u end|]. split; [done|].
    intros _. destruct (dget "dq_d" fields), (control_target s); simplify_eq/=. eauto.
Qed.

(** A sequence of [send_gripper] calls and the moves it makes, with their times. *)
Fixpoint drive_gripper (s : FlexivSource) (inputs : list (f64 * Z)) : list (Z * f64 * rdk_call) :=
  match inputs with
  | [] => []
  | (v, t) :: inputs =>
      let r := send_gripper v t s in
      ((fun c => (t, np_clip v f0 f1, c)) <$> r.2) ++ drive_gripper r.1 inputs
  end.

(** The moves respect the throttle and the deadband from a last command [v0] at [t0]. *)
Fixpoint paced (period : Z) (deadband : f64) (prev : option (Z * f64))
    (moves : list (Z * f64 * rdk_call)) : Prop :=
  match moves with
  | [] => True
  | (t, v, _) :: moves =>
      match prev with
      | None => True
      | Some (t0, v0) => period <= t - t0 /\ flt (fabs (fsub v v0)) deadband = false
      end /\ paced period deadband (Some (t, v)) moves
  end.

Lemma drive_gripper_paced inputs s g :
  gripper s = Some g ->
  paced (gr_min_period_ns g) (gr_deadband g)
    ((fun v => (gr_last_send_ns g, v)) <$> gr_last_val g) (drive_gripper s inputs).
Proof.
  revert s g. induction inputs as [|[v t] inputs IH]; intros s g Hg; simpl; [done|].
  unfold send_gripper. rewrite Hg.
  destruct (gr_last_val g) as [v0|] eqn:Ev.
  - destruct ((t - gr_last_send_ns g <? gr_min_period_ns g) || flt _ (gr_deadband g)) eqn:E.
    + simpl. pose proof (IH s g Hg) as H. rewrite Ev in H. exact H.
    + simpl. apply orb_false_iff in E as [Et Ed]. split; [split; [lia|done]|].
      apply (IH (set_gripper s (Some (Grip (gr_open_w g) (gr_closed_w g) (gr_vel g) (gr_force g)
        (gr_min_period_ns g) (gr_deadband g) (Some (np_clip v f0 f1)) t))) _ eq_refl).
  - simpl. split; [done|].
    apply (IH (set_gripper s (Some (Grip (gr_open_w g) (gr_closed_w g) (gr_vel g) (gr_force g)
      (gr_min_period_ns g) (gr_deadband g) (Some (np_clip v f0 f1)) t))) _ eq_refl).
Qed.

Lemma np_max_from_elem l : forall a, np_max_from a l ∈ a :: l.
Proof.
  induction l as [|x l IH]; intros a; simpl; [set_solver|]. specialize (IH (np_max2 a x)).
  unfold np_max2 in *. repeat case_match; set_solver.
Qed.

Lemma np_max_elem l m : np_max l = Some m -> m ∈ l.
Proof. destruct l; [done|]. intros [= <-]. apply np_max_from_elem. Qed.

Lemma np_add_error a b e : np_add a b = Raise e -> e = ValueError.
Proof. unfold np_add. repeat case_match; congruence. Qed.

(** A safety halt: the target was computed and some joint error exceeds the tolerance. *)
Lemma safety_gate_halt b tol q_d q :
  safety_gate b tol q_d q = Raise SafetyHalt ->
  exists d x, abs_diff q_d q = Ok d /\ x ∈ d /\ flt tol x = true.
Proof.
  unfold safety_gate. destruct b; [|done]. unfold abs_diff.
  destruct (np_add q_d (fopp <$> q)) as [d|e] eqn:Ed; simpl; [|intros [= ->]; by apply np_add_error in Ed].
  destruct (np_max (fabs <$> d)) as [err|] eqn:Em; simpl; [|done]. destruct (flt tol err) eqn:El; [|done].
  intros _. eexists _, err. split; [done|]. split; [by apply np_max_elem|done].
Qed.

Lemma send_control_halt c k fields rs dt chk tol s :
  joint_kind c = true ->
  send_control c k fields rs dt chk tol (SourceIo s []) = (SourceIo s [], Raised SafetyHalt) ->
  exists q d x, abs_diff q (rs_q rs) = Ok d /\ x ∈ d /\ flt tol x = true /\
    (kind c = "qpos" -> dget "q_d" fields = Some q) /\
    (kind c = "qvel" -> exists t dq, control_target s = Some t /\ dget "dq_d" fields = Some dq /\
       np_add t (scale dq dt) = Ok q).
Proof.
  intros Hk. unfold joint_kind in Hk. intros H. unfold send_control in H.
  unfold mbind, st_bind, st_get in H. simpl in H. rewrite Hk in H.
  destruct (String.eqb_spec (kind c) "qpos") as [Eq|Eq].
  - rewrite Eq in *. destruct (dget "q_d" fields) as [q|] eqn:E1; io_run H; simplify_eq/=.
    destruct (safety_gate_halt _ _ _ _ Heqr) as (d & x & ? & ? & ?). by exists q, d, x.
  - simpl in Hk. apply String.eqb_eq in Hk. rewrite Hk in *.
    destruct (dget "dq_d" fields) as [dq|] eqn:E1, (control_target s) as [t|] eqn:E2;
      io_run H; rewrite ?E2 in *; simplify_eq/=.
    + destruct (safety_gate_halt _ _ _ _ Heqr1) as (d & x & ? & ? & ?).
      eexists _, d, x. split_and!; try done. eauto.
    + by apply np_add_error in Heqr0.
Qed.

(** ** Properties *)


Definition demo_states (q : list f64) : RobotStates := States q [] [] [] [] [] [] [].
Definition demo_coeffs : ControlCoeffsCfg :=
  Coeffs None None f1 (f_of_Z 2) (f_of_Z 3) f1 f1 f1 f1.
Definition demo_source : FlexivSource := MkSource true 2 None None.

Definition demo_qvel : ControlCfg :=
  Control "qvel" (mode demo_qpos) (send_fn demo_qpos) (command demo_qpos) ["dq_d"] (channel demo_qpos)
    None None None None None.


(** A NaN setpoint is within every tolerance: the gate compares [err > tolerance], which
    is false when the error is NaN, and the command is sent. *)
Theorem nan_setpoint_passes_gate (k : ControlCoeffsCfg) (dt tol : f64) (s : FlexivSource) :
  send_control demo_qpos k [("q_d", [S754_nan; f1])] (demo_states [f0; f1]) dt true tol (SourceIo s []) =
  (SourceIo s [SendJointPosition [S754_nan; f1] (replicate (dof s) f0)
           (replicate (dof s) (max_joint_vel k)) (replicate (dof s) (max_joint_acc k))], Returned tt).
Proof.
  unfold send_control, safety_gate, abs_diff. simpl. by destruct tol.
Qed.

(** The gripper is never flooded: however fast the control loop runs, successive
    [Move] commands of a session are at least the configured period apart and differ by
    at least the deadband; only the first is unconditional. *)
Theorem gripper_paced (s : FlexivSource) (g : grip_state) (inputs : list (f64 * Z))
    (Hg : gripper s = Some g) (Hfresh : gr_last_val g = None) :
  paced (gr_min_period_ns g) (gr_deadband g) None (drive_gripper s inputs).
Proof.
  pose proof (drive_gripper_paced inputs s g Hg) as H. by rewrite Hfresh in H.
Qed.

Definition demo_gripper : FlexivSource :=
  (setup_gripper (GripperC true "g" f1 f1 (f_of_Z 10) (fdec 1 100) true None None) true
     (Some (Params f0 f1 f0 f1 f0 f1)) demo_source).1.1.

Lemma gripper_paced_witness :
  length (drive_gripper demo_gripper [(f0, 0); (f1, 5); (f1, 100000000); (f1, 300000000)]) = 2%nat /\
  paced 100000000 (fdec 1 100) None
    (drive_gripper demo_gripper [(f0, 0); (f1, 5); (f1, 100000000); (f1, 300000000)]).
Proof.
  split; [vm_compute; reflexivity|].
  apply (gripper_paced demo_gripper (Grip f1 f0 f1 f1 100000000 (fdec 1 100) None 0));
    [vm_compute; reflexivity|reflexivity].
Defined.
