(* ===== verification/SourceIO.v ===== *)
(** * Opening and reading an arm's source

    Models the rest of [interfaces/flexiv/source.py]: how a connection to a robot is opened, its states
    and status are read and it is closed, and the states the hardware-free source makes up.  The SDK is a
    log of calls and the answers it gives; sine and cosine are parameters. *)

From Stdlib Require Import SpecFloat String.
From S2P Require Import Prelude Float64 Streams Channel Convention Source.
Local Open Scope string_scope.
Local Open Scope list_scope.
Local Open Scope Z_scope.

(** ** Opening *)

Inductive open_call := AskFault | ClearFault | AskConnected | AskOperational | EnableArm.

(** One poll of a waiting loop: the answer, and the clock read after a refusal. *)
Record poll := Poll { po_answer : bool; po_now : f64 }.

(** What the SDK and the clock answer. *)
Record open_answers := Answers {
  oa_fault : bool;
  oa_cleared : bool;                 (* [ClearFault()] *)
  oa_start : f64;                    (* the clock when the deadline is set *)
  oa_connected : list poll;
  oa_operational : bool;             (* the first [operational()] *)
  oa_enabling : list poll;
}.

(** [while not ask(): if now > deadline: raise TimeoutError]. *)
Fixpoint await (ask : open_call) (deadline : f64) (l : list poll) : list open_call * outcome unit :=
  match l with
  | [] => ([], Running)
  | p :: l =>
      if po_answer p then ([ask], Returned tt)
      else if flt deadline (po_now p) then ([ask], Raised TimeoutError)
      else let r := await ask deadline l in (ask :: r.1, r.2)
  end.

(** [FlexivSource.open]: the calls made, and how it ends. *)
Definition source_open (require_operational : bool) (connect_timeout_s : f64) (a : open_answers) : list open_call * outcome unit :=
  let faulted := if oa_fault a then [AskFault; ClearFault] else [AskFault] in
  if oa_fault a && negb (oa_cleared a) then (faulted, Raised RuntimeError)
  else
    let deadline := fadd (oa_start a) connect_timeout_s in
    let c := await AskConnected deadline (oa_connected a) in
    match c.2 with
    | Returned _ =>
        if require_operational then
          if oa_operational a then (faulted ++ c.1 ++ [AskOperational], Returned tt)
          else let o := await AskOperational deadline (oa_enabling a) in
               (faulted ++ c.1 ++ [AskOperational; EnableArm] ++ o.1, o.2)
        else (faulted ++ c.1, Returned tt)
    | o => (faulted ++ c.1, o)
    end.

(** [self._robot] after it: a handle only when it returned. *)
Definition opened (dof : nat) (r : list open_call * outcome unit) : FlexivSource :=
  MkSource (match r.2 with Returned _ => true | _ => false end) dof None None.

(** [read_status]: the operational state, the E-stop (inverted), the servos and the mode. *)
Definition source_read_status (operational_status : Z) (estop_released operational : bool) (mode : Z) : list f64 :=
  [f_of_Z operational_status; if estop_released then f0 else f1; if operational then f1 else f0; f_of_Z mode].

(** [close]: the gripper is released and the handle dropped; the robot itself is not stopped. *)
Definition source_close (s : FlexivSource) : FlexivSource * list rdk_call :=
  let r := stop_gripper s in (MkSource false (dof r.1) None None, r.2).

(** ** The hardware-free source *)

Definition SIM_STATUS : list f64 := [f1; f0; f1; f1].
Definition SIM_MODE_CODES : list (string * f64) :=
  [("IDLE", f1); ("NRT_JOINT_IMPEDANCE", f_of_Z 4); ("NRT_JOINT_POSITION", f_of_Z 6); ("NRT_CARTESIAN_MOTION_FORCE", f_of_Z 10)].

(** [_rdk_mode_code]; [sdk] is the SDK's table, when it can be imported. *)
Definition rdk_mode_code (sdk : option (string -> option f64)) (name : string) : f64 :=
  match sdk ≫= (fun f => f name) with
  | Some v => v
  | None => default f0 (dget name SIM_MODE_CODES)
  end.

Definition fake_read_status (sdk : option (string -> option f64)) (s : FakeFlexivSource) : list f64 :=
  <[3%nat := rdk_mode_code sdk (fk_mode s)]> SIM_STATUS.

Section fake_read.
Context (sin cos : f64 -> f64).

(** [k * f(a * t + phase)], element by element. *)
Definition wave (k a t : f64) (f : f64 -> f64) (phase : list f64) : list f64 := (fun p => fmul k (f (fadd (fmul a t) p))) <$> phase.
Definition wave1 (k t : f64) (f : f64 -> f64) (phase : list f64) : list f64 := (fun p => fmul k (f (fadd t p))) <$> phase.

(** [FakeFlexivSource.read] at time [t] since it was opened. *)
Definition fake_read (dof : nat) (phase : list f64) (t : f64) (s : FakeFlexivSource) : res RobotStates :=
  match fk_ctrl s, fk_tracked_q s with
  | true, Some tracked =>
      let? q := np_add tracked (wave1 (fdec 1 10000) t sin phase) in
      let z := replicate dof f0 in
      Ok (States q z z z (replicate 6 f0) (replicate 6 f0)
            (default [fdec 1 2; f0; fdec 4 10; f1; f0; f0; f0] (fk_tracked_pose s)) (replicate 6 f0))
  | _, _ =>
      let wrench := [sin t; cos t; fmul (fdec 1 2) (sin (fmul (f_of_Z 2) t)); f0; f0; f0] in
      Ok (States (wave1 (fdec 1 2) t sin phase) (wave1 (fdec 1 2) t cos phase) (wave (f_of_Z 2) (fdec 1 2) t sin phase)
            (wave (fdec 3 4) (fdec 8 10) t sin phase) wrench wrench
            [fadd (fdec 1 2) (fmul (fdec 5 100) (sin t)); fmul (fdec 5 100) (cos t); fdec 4 10; f1; f0; f0; f0]
            [fmul (fdec 5 100) (cos t); fmul (fdec (-5) 100) (sin t); f0; f0; f0; f0])
  end.
End fake_read.

(** ** Lemmas *)

Lemma await_calls ask deadline l c : c ∈ (await ask deadline l).1 -> c = ask.
Proof.
  induction l as [|p l IH]; cbn; [by intros ?%elem_of_nil|].
  destruct (po_answer p); [by intros ?%list_elem_of_singleton|]. destruct (flt _ _); [by intros ?%list_elem_of_singleton|].
  intros [->|H]%elem_of_cons; [done|by apply IH].
Qed.

Lemma await_ends ask deadline l : (await ask deadline l).2 = Returned tt \/ (await ask deadline l).2 = Raised TimeoutError \/
  (await ask deadline l).2 = Running /\ Forall (fun p => po_answer p = false /\ flt deadline (po_now p) = false) l.
Proof.
  induction l as [|p l IH]; cbn; [by right; right|]. destruct (po_answer p) eqn:Ea; [by left|].
  destruct (flt deadline (po_now p)) eqn:Ef; [by right; left|].
  destruct IH as [H|[H|[H HF]]]; [by left|by right; left|]. right; right. split; [done|]. by constructor.
Qed.

(** Opening for reading never releases the brakes; it ends once the deadline has passed, with a handle, a
    fault that could not be cleared or a time-out. *)
Lemma open_read_only timeout a :
  (EnableArm ∉ (source_open false timeout a).1) /\
  (forall p, p ∈ oa_connected a -> flt (fadd (oa_start a) timeout) (po_now p) = true -> (source_open false timeout a).2 <> Running) /\
  ((source_open false timeout a).2 = Returned tt -> AskConnected ∈ (source_open false timeout a).1).
Proof.
  unfold source_open. set (dl := fadd _ _). set (fl := if oa_fault a then _ else _).
  assert (Hf : EnableArm ∉ fl) by (unfold fl; destruct (oa_fault a); by rewrite list_elem_of_In; cbn; intuition discriminate).
  destruct (oa_fault a && negb (oa_cleared a)); [done|].
  pose proof (await_calls AskConnected dl (oa_connected a)) as Hc. pose proof (await_ends AskConnected dl (oa_connected a)) as He.
  destruct (await AskConnected dl (oa_connected a)) as [cs o] eqn:E. cbn in *.
  assert (Hn : EnableArm ∉ fl ++ cs) by (intros [?|H%Hc]%elem_of_app; done).
  destruct o as [[]|x|]; cbn; (split; [exact Hn|]); (split; [|try done]).
  - done.
  - intros _. apply elem_of_app. right. clear -E. revert cs E. induction (oa_connected a) as [|p l IH]; intros cs E; cbn in E; [done|].
    destruct (po_answer p); [injection E as <-; by left|]. destruct (flt dl (po_now p)); [done|].
    destruct (await AskConnected dl l) as [c1 o1]. injection E as <- _. by left.
  - done.
  - intros p Hp Hl. destruct He as [?|[?|[_ HF]]]; [done|done|]. rewrite Forall_forall in HF. destruct (HF p Hp) as [_ H]. congruence.
Qed.

#[local] Opaque fdec f_of_Z fmul fadd.

(** The made-up states have the shape of a robot's: [dof] joints, a pose of seven, twists and wrenches of
    six; and the status has the four entries the arm process publishes around its own. *)
Lemma fake_read_shape sin cos dof phase t s rs :
  length phase = dof -> (forall q, fk_tracked_q s = Some q -> length q = dof) -> (forall p, fk_tracked_pose s = Some p -> length p = 7%nat) ->
  fake_read sin cos dof phase t s = Ok rs ->
  length (rs_q rs) = dof /\ length (rs_dq rs) = dof /\ length (rs_tau rs) = dof /\ length (rs_tau_ext rs) = dof /\
  length (rs_tcp_pose rs) = 7%nat /\ length (rs_tcp_vel rs) = 6%nat /\ length (rs_wrench_tcp rs) = 6%nat /\ length (rs_wrench_world rs) = 6%nat.
Proof.
  assert (Hl : forall (f : f64 -> f64), length (f <$> phase) = length phase) by (intros f; apply length_fmap).
  intros Hp Hq Hpose H. unfold fake_read, wave, wave1 in H. destruct (fk_ctrl s), (fk_tracked_q s) as [q|];
    try (injection H as <-; cbn [rs_q rs_dq rs_tau rs_tau_ext rs_tcp_pose rs_tcp_vel rs_wrench_tcp rs_wrench_world length];
         rewrite !Hl; done).
  destruct (np_add q _) as [q'|] eqn:E; cbn [res_bind] in H; [|done]. injection H as <-.
  cbn [rs_q rs_dq rs_tau rs_tau_ext rs_tcp_pose rs_tcp_vel rs_wrench_tcp rs_wrench_world]. rewrite !length_replicate.
  unfold np_add in E. rewrite Hl, Hp, (Hq q eq_refl), Nat.eqb_refl in E. injection E as <-.
  rewrite length_zip_with, Hl, (Hq q eq_refl), Hp, Nat.min_id. split_and!; try done.
  destruct (fk_tracked_pose s) as [p|]; [by apply Hpose|done].
Qed.

Lemma status_shapes sdk s st er op m : length (fake_read_status sdk s) = 4%nat /\ length (source_read_status st er op m) = 4%nat.
Proof. split; [apply length_insert|reflexivity]. Qed.
