(* ===== verification/Arm.v ===== *)
(** * The arm process: the idle / control state machine

    Models [interfaces/flexiv/interface.py].  Each iteration of a loop of the source
    (waiting for channels, waiting for the first setpoint, the bootstrap move, the
    merged control loop, the idle loop) consumes one observation from a tape: the stop
    flag, the clock, the robot's answers and what the control channels hold.  A routine
    whose tape is exhausted is [Running].  The calls made to the robot and the telemetry
    ticks are appended to a log, in order. *)

From Stdlib Require Import String.
From S2P Require Import Prelude Float64 Ring Streams Channel Convention Process Source.
Local Open Scope string_scope.
Local Open Scope Z_scope.

Record ArmCfg := ArmC {
  ac_side : string;
  ac_dof : nat;
  ac_wrench_frame : string;
  ac_control : ControlCfg;
  ac_control_enabled : bool;
  ac_control_rate_hz : f64;
  ac_safety_check : bool;
  ac_tolerance : f64;
  ac_attach_timeout_s : f64;
  ac_eager_enable : bool;
  ac_rt_streaming : bool;
  ac_gripper : GripperCfg;
  ac_streams : list (string * StreamCfg);
  ac_sim : bool;   (* runtime.sim *)
}.

Record EnterControl := Enter {
  ec_coeffs : ControlCoeffsCfg;
  ec_control : option ControlCfg;
  ec_phase : string;
}.

Definition STATUS_SIGNAL : string := "status".
Definition STATUS_DIM : Z := 5.
Definition STATUS_RATE_HZ : f64 := f_of_Z 10.

(** What the environment shows during one iteration. *)
Record obs := Obs {
  o_stop : bool;                     (* stop_event.is_set() *)
  o_t_ns : Z;                        (* time.monotonic_ns() *)
  o_now : f64;                       (* time.monotonic() *)
  o_read : res RobotStates;          (* source.read() *)
  o_status : res (list f64);         (* source.read_status() *)
  o_fault : bool;                    (* robot.fault() *)
  o_clear_ok : bool;                 (* robot.ClearFault() *)
  o_operational : bool;              (* robot.operational() *)
  o_reached : bool;                  (* primitive_states()["reachedTarget"] == 1 *)
  o_K_q_nom : list f64;              (* robot.info().K_q_nom *)
  o_found : res (list (jval * RegistryEntry));  (* control_reg.discover() *)
  o_attach : res unit;               (* StreamReader.attach *)
  o_commands : samples f64;          (* the command channel's last(capacity) *)
  o_setpoint : samples f64;          (* the setpoint channel's latest() *)
  o_gripper : samples f64;           (* the gripper channel's latest() *)
  o_grip_entry : bool;               (* the gripper channel is registered *)
  o_grip_enable : bool;
  o_grip_params : option GripperParams;
  o_grip_move : res unit;            (* Gripper.Move *)
  o_controller : res unit;           (* find_controller, controller_args *)
  o_native : res Z;                  (* run_controller: exit status *)
  o_open : res unit;                 (* source.open() *)
  o_msg : option EnterControl;       (* the session queue *)
}.

(** The source object: a robot connection or the simulated one. *)
Inductive source := Real (s : FlexivSource) | Fake (s : FakeFlexivSource).

Inductive event :=
  | Call (c : rdk_call)
  | Telemetry (t_ns : Z) (status : list f64).

Record arm := ArmSt {
  control_active : bool;
  status_cache : option (list f64);
  status_next_ns : Z;
  src : option source;
  cursor : Z;
  tape : list obs;
  log : list event;
}.

Definition set_active (b : bool) (a : arm) : arm :=
  ArmSt b (status_cache a) (status_next_ns a) (src a) (cursor a) (tape a) (log a).
Definition set_status (c : option (list f64)) (t : Z) (a : arm) : arm :=
  ArmSt (control_active a) c t (src a) (cursor a) (tape a) (log a).
Definition set_src (s : option source) (a : arm) : arm :=
  ArmSt (control_active a) (status_cache a) (status_next_ns a) s (cursor a) (tape a) (log a).
Definition set_cursor (c : Z) (a : arm) : arm :=
  ArmSt (control_active a) (status_cache a) (status_next_ns a) (src a) c (tape a) (log a).
Definition set_tape (t : list obs) (a : arm) : arm :=
  ArmSt (control_active a) (status_cache a) (status_next_ns a) (src a) (cursor a) t (log a).
Definition add_log (es : list event) (a : arm) : arm :=
  ArmSt (control_active a) (status_cache a) (status_next_ns a) (src a) (cursor a) (tape a)
    (log a ++ es)%list.

Definition call (c : rdk_call) : ST arm unit := st_modify (add_log [Call c]).
Definition calls (cs : list rdk_call) : ST arm unit := st_modify (add_log (Call <$> cs)).

Definition skip : ST arm unit := mret tt.
Definition when (b : bool) (m : ST arm unit) : ST arm unit := if b then m else skip.

(** The environment's next observation. *)
Definition observe : ST arm obs := fun a =>
  match tape a with
  | [] => (a, Running)
  | o :: t => (set_tape t a, Returned o)
  end.

Section interface.
Context (cfg : ArmCfg).

Definition the_source : ST arm source :=
  a ← st_get;
  match src a with Some s => mret s | None => st_raise TypeError end.

(** [declare_streams]. *)
Definition declare_streams : res (list StreamSpec) :=
  let? specs := streams_to_specs (ac_side cfg) (ac_streams cfg) in
  let? st := stream_spec (MkSpec (ac_side cfg +:+ "/" +:+ STATUS_SIGNAL) STATUS_DIM 64 "float64"
               (Some STATUS_RATE_HZ)) in
  Ok (specs ++ [st])%list.

(** [_status_signal]: the cached robot status around the live control flag. *)
Definition status_vector (cache : list f64) (active : bool) : list f64 :=
  (take 2 cache ++ [if active then f1 else f0] ++ slice cache 2 4)%list.

Definition status_signal (now_ns : Z) (read : res (list f64)) : ST arm (list f64) := fun a =>
  let refresh := match status_cache a with None => true | Some _ => status_next_ns a <=? now_ns end in
  let a' :=
    if refresh then
      let c := match read, status_cache a with
               | Ok v, _ => v
               | Raise _, Some c => c
               | Raise _, None => replicate 4 f0
               end in
      set_status (Some c) (now_ns + 100000000) a
    else a in
  (a', Returned (status_vector (default [] (status_cache a')) (control_active a'))).

(** [_write_telemetry]. *)
Definition write_telemetry (o : obs) : ST arm RobotStates :=
  _ ← the_source;
  rs ← st_lift (o_read o);
  _ ← st_lift (map_states rs (ac_wrench_frame cfg));
  st ← status_signal (o_t_ns o) (o_status o);
  st_modify (add_log [Telemetry (o_t_ns o) st]) ;;
  mret rs.

(** [_drain_commands]: true if a STOP was requested. *)
Fixpoint scan_commands (rows : list (list f64)) : res bool :=
  match rows with
  | [] => Ok false
  | r :: rows =>
      let? c := decode r in
      if decide (cmd_kind c = STOP) then Ok true else scan_commands rows
  end.

Definition drain_commands (o : obs) : ST arm bool :=
  a ← st_get;
  let d := drain_new (cursor a) (o_commands o) in
  st_modify (set_cursor (dr_cursor d)) ;;
  st_lift (scan_commands (dr_rows d)).

(** ** Bootstrap *)

(** [enter_control]: clear faults, enable, wait until operational. *)
Fixpoint await_operational (fuel : nat) (deadline : f64) : ST arm unit :=
  match fuel with
  | O => st_running
  | S fuel =>
      o ← observe;
      if o_operational o then mret tt
      else if flt deadline (o_now o) then st_raise TimeoutError
      else await_operational fuel deadline
  end.

Definition CONNECT_TIMEOUT_S : f64 := f_of_Z 30.

Definition enter_control : ST arm unit :=
  s ← the_source;
  match s with
  | Fake _ => mret tt
  | Real _ =>
      o ← observe;
      when (o_fault o) (call ClearFault ;; when (negb (o_clear_ok o)) (st_raise RuntimeError)) ;;
      call Enable ;;
      a ← st_get;
      await_operational (length (tape a)) (fadd (o_now o) CONNECT_TIMEOUT_S)
  end.

(** [_await_channels]: [None] when a shutdown was requested meanwhile. *)
Fixpoint await_channels (fuel : nat) (deadline : f64) : ST arm (option obs) :=
  match fuel with
  | O => st_running
  | S fuel =>
      o ← observe;
      if o_stop o then mret None
      else
        found ← st_lift (o_found o);
        if dmem (JStr (control_channel_name (ac_side cfg) SETPOINT)) found &&
           dmem (JStr (control_channel_name (ac_side cfg) COMMAND)) found
        then mret (Some o)
        else if flt deadline (o_now o) then st_raise TimeoutError
        else (write_telemetry o ;; await_channels fuel deadline)
  end.

(** [_await_first_setpoint]. *)
Fixpoint await_first_setpoint (fuel : nat) (deadline : f64) : ST arm (option (list f64)) :=
  match fuel with
  | O => st_running
  | S fuel =>
      o ← observe;
      if o_stop o then mret None
      else
        stop ← drain_commands o;
        if (stop : bool) then mret None
        else
          match newest (o_setpoint o) with
          | Some v => mret (Some v)
          | None =>
              if flt deadline (o_now o) then mret None
              else (write_telemetry o ;; await_first_setpoint fuel deadline)
          end
  end.

(** The [abort] predicate of the bootstrap. *)
Definition abort (o : obs) : ST arm bool :=
  write_telemetry o ;;
  if o_stop o then mret true else drain_commands o.

(** The polling loop of [_bootstrap_movej]. *)
Fixpoint await_movej (fuel : nat) : ST arm bool :=
  match fuel with
  | O => st_running
  | S fuel =>
      o ← observe;
      ab ← abort o;
      if (ab : bool) then mret false
      else if o_reached o then mret true
      else await_movej fuel
  end.

Definition bootstrap_movej (q_d_rad : list f64) : ST arm bool :=
  call (SwitchMode "NRT_PRIMITIVE_EXECUTION") ;;
  call (MoveJ (ndegrees <$> q_d_rad)) ;;
  a ← st_get;
  await_movej (length (tape a)).

(** [start_control] of either source. *)
Definition start_control (c : ControlCfg) (k : ControlCoeffsCfg)
    (first : list (string * list f64)) (rs : RobotStates) : ST arm bool :=
  s ← the_source;
  match s with
  | Fake f =>
      f' ← st_lift (fake_start_control c first rs f);
      st_modify (set_src (Some (Fake f'))) ;;
      mret true
  | Real _ =>
      ok ← (if String.eqb (kind c) "qpos" then
              q ← st_lift (of_option KeyError (dget "q_d" first));
              bootstrap_movej q
            else mret true);
      if negb ok then mret false
      else
        o ← observe;
        s ← the_source;
        match s with
        | Fake _ => st_raise TypeError
        | Real s =>
            r ← st_lift (start_control_mode c rs s);
            st_modify (set_src (Some (Real r.1))) ;;
            call r.2 ;;
            cs ← st_lift (apply_coeffs (o_K_q_nom o) c k);
            calls cs ;;
            mret true
        end
  end.

(** [setup_gripper] of either source. *)
Definition setup_grip : ST arm bool :=
  s ← the_source;
  match s with
  | Fake f =>
      let r := fake_setup_gripper (ac_gripper cfg) f in
      st_modify (set_src (Some (Fake r.1))) ;; mret r.2
  | Real s =>
      o ← observe;
      let '(s', ok, cs) := setup_gripper (ac_gripper cfg) (o_grip_enable o) (o_grip_params o) s in
      st_modify (set_src (Some (Real s'))) ;; calls cs ;; mret ok
  end.

(** Let the real source act: its calls are logged, its new state is kept also when it raises. *)
Definition source_do {A} (m : ST source_io A) (s : FlexivSource) : ST arm A := fun a =>
  let r := m (SourceIo s []) in
  (add_log (Call <$> io_calls r.1) (set_src (Some (Real (io_src r.1))) a), r.2).

(** [send_control] of either source. *)
Definition send (c : ControlCfg) (k : ControlCoeffsCfg) (fields : list (string * list f64))
    (rs : RobotStates) (dt : f64) : ST arm unit :=
  s ← the_source;
  match s with
  | Fake f => f' ← st_lift (fake_send_control c fields dt f); st_modify (set_src (Some (Fake f')))
  | Real s => source_do (send_control c k fields rs dt (ac_safety_check cfg) (ac_tolerance cfg)) s
  end.

Definition stop_grip (a : arm) : arm :=
  match src a with
  | Some (Real s) =>
      let r := stop_gripper s in add_log (Call <$> r.2) (set_src (Some (Real r.1)) a)
  | Some (Fake f) => set_src (Some (Fake (fake_stop_gripper f))) a
  | None => a
  end.

(** One gripper step of the control loop: [false] when a failure disables it. *)
Definition grip_step (o : obs) : ST arm bool :=
  match newest (o_gripper o) with
  | Some (v :: _) =>
      s ← the_source;
      match s with
      | Fake f => st_modify (set_src (Some (Fake (fake_send_gripper v f)))) ;; mret true
      | Real s =>
          let r := send_gripper v (o_t_ns o) s in
          match r.2, o_grip_move o with
          | [], _ => mret true
          | cs, Ok _ => st_modify (set_src (Some (Real r.1))) ;; calls cs ;; mret true
          | cs, Raise _ => calls cs ;; st_modify stop_grip ;; mret false
          end
      end
  | Some [] => st_modify stop_grip ;; mret false
  | None => mret true
  end.

(** ** The merged control loop *)

Inductive loop_exit := Shutdown | RobotFault | StopCommand | HardDeadman | Halted.

(** [int(ms * 1e6)]. *)
Definition deadman_ns (ms : f64) : res Z :=
  let x := fmul ms (f_of_Z 1000000) in
  of_option (if is_nan x then ValueError else OtherError) (f_trunc x).

(** [fault] of either source: the simulated one never faults. *)
Definition source_fault (o : obs) : ST arm bool :=
  s ← the_source;
  mret (match s with Real _ => o_fault o | Fake _ => false end).

(** One tick: [inl] leaves the loop, [inr] goes on with the gripper on or off. *)
Definition control_tick (c : ControlCfg) (k : ControlCoeffsCfg) (soft hard : Z) (grip : bool)
    (o : obs) : ST arm (loop_exit + bool) :=
  if o_stop o then mret (inl Shutdown)
  else
    rs ← write_telemetry o;
    fault ← source_fault o;
    if (fault : bool) then mret (inl RobotFault)
    else
      stop ← drain_commands o;
      if (stop : bool) then mret (inl StopCommand)
      else
        match newest (o_setpoint o), newest_t_ns (o_setpoint o) with
        | Some v, Some ts =>
            let age := o_t_ns o - ts in
            if hard <? age then mret (inl HardDeadman)
            else if soft <? age then mret (inr grip)
            else
              fields ← st_lift (slice_streamed c v);
              r ← try_except (send c k fields rs (fdiv f1 (ac_control_rate_hz cfg)) ;; mret true)
                    (fun e => match e with SafetyHalt => Some (mret false) | _ => None end);
              if negb r then mret (inl Halted)
              else if grip then (g ← grip_step o; mret (inr g))
              else mret (inr false)
        | _, _ => mret (inr grip)
        end.

Fixpoint control_loop (fuel : nat) (c : ControlCfg) (k : ControlCoeffsCfg) (soft hard : Z)
    (grip : bool) : ST arm loop_exit :=
  match fuel with
  | O => st_running
  | S fuel =>
      o ← observe;
      r ← control_tick c k soft hard grip o;
      match r with
      | inl e => mret e
      | inr g => control_loop fuel c k soft hard g
      end
  end.

(** ** Native hand-over *)

(** [_uses_native_rt]. *)
Definition uses_native_rt (a : arm) (c : ControlCfg) : bool :=
  ac_rt_streaming cfg && negb (ac_sim cfg) &&
  match src a with Some (Real _) => true | _ => false end &&
  String.eqb (kind c) "qpos" && String.eqb (mode c) "NRT_JOINT_POSITION".

(** [close_source]. *)
Definition close_source (a : arm) : arm := set_src None (stop_grip a).

(** [open_source]: a fresh source object. *)
Definition fresh_source : source :=
  if ac_sim cfg || (negb (length (ac_streams cfg) =? 0)%nat &&
                    forallb (fun x => sc_dummy x.2) (ac_streams cfg))
  then Fake (MkFake false "IDLE" None None None false None)
  else Real (MkSource false (ac_dof cfg) None None).

(** [open] of either source. *)
Definition connect (s : source) : source :=
  match s with
  | Real s => Real (MkSource true (dof s) (control_target s) (gripper s))
  | Fake f => Fake f
  end.

Definition open_source (o : obs) : ST arm unit :=
  st_modify (set_src (Some fresh_source)) ;;
  match fresh_source with
  | Fake _ => skip
  | Real _ => st_lift (o_open o) ;; st_modify (set_src (Some (connect fresh_source)))
  end.

(** [try: run_controller finally: open_source]. *)
Definition run_then_reopen (o : obs) : ST arm unit := fun a =>
  match open_source o a with
  | (a', Raised e) => (a', Raised e)
  | (a', Running) => (a', Running)
  | (a', Returned _) =>
      (a', match o_native o with
           | Raise e => Raised e
           | Ok rc => if rc =? 0 then Returned tt else Raised RuntimeError
           end)
  end.

(** [_run_native_rt]. *)
Definition run_native_rt : ST arm unit :=
  o ← observe;
  st_lift (o_controller o) ;;
  st_modify close_source ;;
  run_then_reopen o.

(** ** The control session *)

(** The preflight check of the first joint target. *)
Definition preflight (c : ControlCfg) (first : list (string * list f64)) (rs : RobotStates) :
    res unit :=
  if String.eqb (kind c) "qpos" then
    let? q := of_option KeyError (dget "q_d" first) in
    let? d := abs_diff q (rs_q rs) in
    let? worst := of_option ValueError (np_max d) in
    if ac_safety_check cfg && flt (ac_tolerance cfg) worst then Raise RuntimeError else Ok tt
  else Ok tt.

(** The body of [_control_session] inside its [try]. *)
Definition session_body (c : ControlCfg) (k : ControlCoeffsCfg) : ST arm (option loop_exit) :=
  a ← st_get;
  let native := uses_native_rt a c in
  when (ac_eager_enable cfg && negb native) enter_control ;;
  o0 ← observe;
  a ← st_get;
  ch ← await_channels (length (tape a)) (fadd (o_now o0) (ac_attach_timeout_s cfg));
  match ch with
  | None => mret None
  | Some o =>
      st_lift (o_attach o) ;;
      st_modify (set_cursor (cursor_init (o_commands o))) ;;
      let grip := g_enabled (ac_gripper cfg) && o_grip_entry o && negb native in
      (if native then
         a ← st_get;
         first ← await_first_setpoint (length (tape a)) (fadd (o_now o) (ac_attach_timeout_s cfg));
         match first with
         | None => mret None
         | Some _ => run_native_rt ;; mret None
         end
       else
         when (negb (ac_eager_enable cfg)) enter_control ;;
         o1 ← observe;
         a ← st_get;
         first ← await_first_setpoint (length (tape a)) (fadd (o_now o1) (ac_attach_timeout_s cfg));
         match first with
         | None => mret None
         | Some v =>
             fields ← st_lift (slice_streamed c v);
             o2 ← observe;
             rs ← st_lift (o_read o2);
             st_lift (preflight c fields rs) ;;
             started ← start_control c k fields rs;
             if negb started then mret None
             else
               g ← (if grip then setup_grip else mret false);
               _ ← st_lift (rate_limiter (ac_control_rate_hz cfg) f0);
               soft ← st_lift (deadman_ns (deadman_ms (channel c)));
               hard ← st_lift (deadman_ns (deadman_hard_ms (channel c)));
               a ← st_get;
               e ← control_loop (length (tape a)) c k soft hard g;
               mret (Some e)
         end)
  end.

(** The [finally] of [_control_session]. *)
Definition session_cleanup (a : arm) : arm :=
  let a := stop_grip (set_active false a) in
  match src a with
  | None => a
  | Some (Real s) => add_log (Call <$> source_stop s) a
  | Some (Fake f) => set_src (Some (Fake (fake_stop f))) a
  end.

Definition control_session (k : ControlCoeffsCfg) (control : option ControlCfg) :
    ST arm (option loop_exit) :=
  let c := default (ac_control cfg) control in
  st_modify (set_active true) ;;
  try_finally (session_body c k) session_cleanup.

(** [_run_session_loop]. *)
Fixpoint session_loop (fuel : nat) : ST arm unit :=
  match fuel with
  | O => st_running
  | S fuel =>
      o ← observe;
      if o_stop o then mret tt
      else
        match o_msg o with
        | Some m =>
            try_except (control_session (ec_coeffs m) (ec_control m))
              (fun e => match e with TimeoutError => Some (mret None) | _ => None end) ;;
            session_loop fuel
        | None => write_telemetry o ;; session_loop fuel
        end
  end.

(** [run] of a control-enabled arm once its streams are published: one session in
    one-shot hosting ([queue = false]), the session loop otherwise; the source is
    closed on every exit. *)
Definition arm_run (queue : bool) (coeffs : ControlCoeffsCfg) : ST arm unit :=
  try_finally
    (o ← observe;
     open_source o ;;
     if queue then (a ← st_get; session_loop (length (tape a)))
     else (control_session coeffs None ;; mret tt))
    close_source.
End interface.

(** ** Reasoning about what is logged *)

Lemma status_signal_frame now_ns read a : exists a' v,
  status_signal now_ns read a = (a', Returned v) /\ log a' = log a /\ tape a' = tape a.
Proof.
  unfold status_signal. eexists _, _. split; [done|].
  by destruct (match status_cache a with Some _ => _ | None => _ end).
Qed.

(** A step that neither consumes an observation nor logs. *)
Ltac silent :=
  split; [assumption || (split; simpl; [tauto|lia])|exists []; split; [by rewrite app_nil_r|done]].

(** A step from a state satisfying [Ha] that logs [es]. *)
Ltac logs Ha es :=
  split; [destruct Ha as [? ?]; split; simpl; [assumption|rewrite ?length_app; lia]|exists es; split; [try done|]].

Section emits.
Context (T : list obs) (n0 : nat) (P : list event -> event -> Prop).

(** Each event satisfies [P] together with those since position [n0] of the log before it. *)
Fixpoint chain (L es : list event) : Prop :=
  match es with
  | [] => True
  | e :: es => P (drop n0 L) e /\ chain (L ++ [e])%list es
  end.

Lemma chain_app L es es' : chain L es -> chain (L ++ es)%list es' -> chain L (es ++ es')%list.
Proof.
  revert L. induction es as [|e es IH]; intros L; simpl; [by rewrite app_nil_r|].
  intros [He Hes] H. split; [done|]. apply IH; [done|]. by rewrite <-app_assoc.
Qed.

Lemma chain_all L es : Forall (fun e => forall L, P L e) es -> chain L es.
Proof. intros H. revert L. induction H; simpl; auto. Qed.

Lemma chain_lookup L es i e :
  n0 = length L -> chain L es -> es !! i = Some e -> P (take i es) e.
Proof.
  intros Hn. enough (Hg : forall pre, chain (L ++ pre)%list es -> es !! i = Some e -> P (pre ++ take i es)%list e).
  { intros Hc. apply (Hg []). by rewrite app_nil_r. }
  revert i. induction es as [|x es IH]; intros [|i] pre; simpl; try done.
  - intros [Hx _] [= <-]. rewrite app_nil_r. by rewrite Hn, drop_app_length in Hx.
  - intros [_ Hc] He. rewrite <-app_assoc in Hc. specialize (IH i (pre ++ [x])%list Hc He).
    by rewrite <-app_assoc in IH.
Qed.

(** The states considered: the tape lies in [T], the log is past [n0]. *)
Definition inside (a : arm) : Prop := (forall o, o ∈ tape a -> o ∈ T) /\ (n0 <= length (log a))%nat.

(** From a state satisfying [Q], [m] only appends events satisfying [P]. *)
Definition emits_if {A} (Q : arm -> Prop) (m : ST arm A) : Prop := forall a, Q a -> inside a ->
  inside (m a).1 /\ exists es, log (m a).1 = (log a ++ es)%list /\ chain (log a) es.

Definition emits {A} (m : ST arm A) : Prop := emits_if (fun _ => True) m.

Lemma emits_if_of {A} Q (m : ST arm A) : emits m -> emits_if Q m.
Proof. intros Hm a _. by apply Hm. Qed.

Lemma emits_logged a a' es :
  inside a -> (forall o, o ∈ tape a' -> o ∈ T) -> log a' = (log a ++ es)%list -> chain (log a) es ->
  inside a' /\ exists es, log a' = (log a ++ es)%list /\ chain (log a) es.
Proof.
  intros [_ Hn] Ht Hl Hc. split; [|by exists es]. split; [done|]. rewrite Hl, length_app. lia.
Qed.

Lemma emits_silent a a' :
  inside a -> tape a' = tape a -> log a' = log a ->
  inside a' /\ exists es, log a' = (log a ++ es)%list /\ chain (log a) es.
Proof. intros Hi Ht Hl. apply (emits_logged a a' []); [done|rewrite Ht; apply Hi|by rewrite app_nil_r|done]. Qed.

Lemma emits_trans a a1 a2 :
  (exists es, log a1 = (log a ++ es)%list /\ chain (log a) es) ->
  (exists es, log a2 = (log a1 ++ es)%list /\ chain (log a1) es) ->
  exists es, log a2 = (log a ++ es)%list /\ chain (log a) es.
Proof.
  intros (es & Hl & Hp) (es' & Hl' & Hp'). exists (es ++ es')%list.
  split; [by rewrite Hl', Hl, app_assoc|]. apply chain_app; [done|]. by rewrite <-Hl.
Qed.

Lemma emits_if_pure {A} Q (m : ST arm A) :
  (forall a, Q a -> tape (m a).1 = tape a /\ log (m a).1 = log a) -> emits_if Q m.
Proof. intros Hm a HQ Ha. destruct (Hm a HQ) as [H1 H2]. by apply emits_silent. Qed.

Lemma emits_pure {A} (m : ST arm A) :
  (forall a, tape (m a).1 = tape a /\ log (m a).1 = log a) -> emits m.
Proof. intros Hm. by apply emits_if_pure. Qed.

Lemma emits_ret {A} (x : A) : emits (mret x).
Proof. by apply emits_pure. Qed.
Lemma emits_raise {A} e : emits (@st_raise arm A e).
Proof. by apply emits_pure. Qed.
Lemma emits_running {A} : emits (@st_running arm A).
Proof. by apply emits_pure. Qed.
Lemma emits_get : emits st_get.
Proof. by apply emits_pure. Qed.
Lemma emits_lift {A} (c : res A) : emits (st_lift c).
Proof. apply emits_pure. intros a. unfold st_lift. by destruct c. Qed.
Lemma emits_modify f : (forall a, tape (f a) = tape a /\ log (f a) = log a) -> emits (st_modify f).
Proof. intros Hf. apply emits_pure. intros a. apply Hf. Qed.

(** Sequencing, with an assertion on what the first part returns and where it ends. *)
Lemma emits_if_seq {A B} Q (R : A -> arm -> Prop) (m : ST arm A) (k : A -> ST arm B) :
  emits_if Q m -> (forall a a' x, Q a -> inside a -> inside a' -> m a = (a', Returned x) -> R x a') ->
  (forall x, emits_if (R x) (k x)) -> emits_if Q (m ≫= k).
Proof.
  intros Hm Hr Hk a HQ Ha. unfold mbind, st_bind. destruct (Hm a HQ Ha) as [Hi He].
  specialize (Hr a). destruct (m a) as [a' [x|e|]]; simpl in *; [|done|done].
  destruct (Hk x a' (Hr a' x HQ Ha Hi eq_refl) Hi) as [Hi' He']. split; [done|]. by eapply emits_trans.
Qed.

Lemma emits_bind {A B} (m : ST arm A) (k : A -> ST arm B) :
  emits m -> (forall x, emits (k x)) -> emits (m ≫= k).
Proof. intros Hm Hk. by apply (emits_if_seq _ (fun _ _ => True)). Qed.

(** What is returned satisfies [R]. *)
Lemma emits_bind_post {A B} (m : ST arm A) (k : A -> ST arm B) (R : A -> Prop) :
  emits m -> (forall a a' x, inside a -> m a = (a', Returned x) -> R x) ->
  (forall x, R x -> emits (k x)) -> emits (m ≫= k).
Proof.
  intros Hm Hr Hk. apply (emits_if_seq _ (fun x _ => R x)); [done|by eauto|].
  intros x a HR Ha. by apply (Hk x HR).
Qed.

(** An assertion is kept by the first part and used by the second. *)
Lemma emits_if_bind {A B} Q (m : ST arm A) (k : A -> ST arm B) :
  emits_if Q m -> keeps Q m -> (forall x, emits_if Q (k x)) -> emits_if Q (m ≫= k).
Proof.
  intros Hm Hq Hk. apply (emits_if_seq _ (fun _ => Q)); [done| |done].
  intros a a' x HQ _ _ E. specialize (Hq a HQ). by rewrite E in Hq.
Qed.

Lemma emits_if_bind_any {A B} Q (m : ST arm A) (k : A -> ST arm B) :
  emits_if Q m -> (forall x, emits (k x)) -> emits_if Q (m ≫= k).
Proof. intros Hm Hk. by apply (emits_if_seq _ (fun _ _ => True)). Qed.

Lemma emits_lift_bind {A B} Q (c : res A) (k : A -> ST arm B) :
  (forall x, c = Ok x -> emits_if Q (k x)) -> emits_if Q (st_lift c ≫= k).
Proof.
  intros Hk. destruct c as [x|e]; [by apply Hk|]. by apply emits_if_pure.
Qed.

Lemma emits_observe {B} Q (k : obs -> ST arm B) :
  (forall a t, Q a -> Q (set_tape t a)) -> (forall o, o ∈ T -> emits_if Q (k o)) -> emits_if Q (observe ≫= k).
Proof.
  intros HQt Hk a HQ Ha. unfold mbind, st_bind, observe. destruct (tape a) as [|o t] eqn:E; simpl.
  - by apply emits_silent.
  - destruct Ha as [Ht Hn]. rewrite E in Ht.
    destruct (Hk o (Ht o ltac:(left)) (set_tape t a)) as [Hi He]; [by apply HQt|split; [set_solver|done]|done].
Qed.

Lemma emits_if_except {A} Q (m : ST arm A) h :
  emits_if Q m -> (forall e k, h e = Some k -> emits k) -> emits_if Q (try_except m h).
Proof.
  intros Hm Hh a HQ Ha. unfold try_except. destruct (Hm a HQ Ha) as [Hi He].
  destruct (m a) as [a' [x|e|]]; simpl in *; [done| |done].
  destruct (h e) as [k|] eqn:E; [|done].
  destruct (Hh e k E a' I Hi) as [Hi' He']. split; [done|]. by eapply emits_trans.
Qed.

Lemma emits_finally {A} (m : ST arm A) f :
  emits m -> emits (st_modify f) -> emits (try_finally m f).
Proof.
  intros Hm Hf a _ Ha. unfold try_finally. destruct (Hm a I Ha) as [Hi He].
  destruct (m a) as [a' o]; simpl in *. destruct (Hf a' I Hi) as [Hi' He']. simpl in *.
  destruct o; simpl; (split; [done|]); [by eapply emits_trans..|done].
Qed.

Lemma emits_calls cs : Forall (fun c => forall L, P L (Call c)) cs -> emits (calls cs).
Proof.
  intros Hc a _ Ha. eapply (emits_logged a _ (Call <$> cs)); [done|apply Ha|done|].
  by apply chain_all, Forall_fmap.
Qed.

Lemma emits_call c : (forall L, P L (Call c)) -> emits (call c).
Proof. intros Hc a _ Ha. by eapply (emits_logged a _ [Call c]); [|apply Ha|..]. Qed.

(** Events that move nothing are always allowed. *)
Context (Hquiet : forall L e, match e with Call c => is_motion c = false | _ => True end -> P L e).

Lemma quiet_call L c : is_motion c = false -> P L (Call c).
Proof. intros. by apply Hquiet. Qed.

Lemma emits_source : emits the_source.
Proof.
  apply emits_bind; [apply emits_get|]. intros a. destruct (src a); [apply emits_ret|apply emits_raise].
Qed.

Lemma emits_telemetry cfg o : emits (write_telemetry cfg o).
Proof.
  apply emits_bind; [apply emits_source|intros _]. apply emits_bind; [apply emits_lift|intros rs].
  apply emits_bind; [apply emits_lift|intros _]. apply emits_bind.
  - apply emits_pure. intros a.
    by destruct (status_signal_frame (o_t_ns o) (o_status o) a) as (a' & v & -> & Hl & Ht).
  - intros st. apply emits_bind; [|intros _; apply emits_ret].
    intros a _ Ha. eapply (emits_logged a _ [Telemetry (o_t_ns o) st]); [done|apply Ha|done|].
    split; [by apply Hquiet|done].
Qed.

Lemma emits_drain o : emits (drain_commands o).
Proof.
  apply emits_bind; [apply emits_get|intros a]. apply emits_bind; [by apply emits_modify|intros _].
  apply emits_lift.
Qed.

Lemma emits_when b m : emits m -> emits (when b m).
Proof. destruct b; [done|]. intros _. apply emits_ret. Qed.

Lemma emits_stop_grip : emits (st_modify stop_grip).
Proof.
  intros a _ Ha. unfold st_modify, stop_grip. simpl.
  destruct (src a) as [[s|f]|]; simpl; [|silent..].
  logs Ha (Call <$> (stop_gripper s).2).
  unfold stop_gripper. destruct (gripper s); simpl; [|done]. split; [by apply quiet_call|done].
Qed.
End emits.

(** Decompose a routine into its binds and close the silent parts. *)
Ltac emits_step :=
  lazymatch goal with
  | |- emits _ _ _ (mret _) => apply emits_ret
  | |- emits _ _ _ (st_raise _) => apply emits_raise
  | |- emits _ _ _ st_running => apply emits_running
  | |- emits _ _ _ st_get => apply emits_get
  | |- emits _ _ _ (st_lift _) => apply emits_lift
  | |- emits _ _ _ the_source => apply emits_source
  | |- emits _ _ _ (write_telemetry _ _) => apply emits_telemetry; solve [eauto]
  | |- emits _ _ _ (drain_commands _) => apply emits_drain
  | |- emits _ _ _ (st_modify stop_grip) => apply emits_stop_grip; solve [eauto]
  | |- emits _ _ _ (st_modify _) => apply emits_modify; by intros []
  | |- emits _ _ _ (call _) => apply emits_call; solve [eauto]
  | |- emits _ _ _ (when _ _) => apply emits_when
  | |- emits _ _ _ skip => apply emits_ret
  | |- emits _ _ _ (observe ≫= _) =>
      let o := fresh "o" in let Ho := fresh "Ho" in apply emits_observe; [done|intros o Ho; fold_emits]
  | |- emits _ _ _ (st_lift _ ≫= _) =>
      let x := fresh "x" in let Hx := fresh "Hx" in apply emits_lift_bind; intros x Hx; fold_emits
  | |- emits _ _ _ (start_control _ _ _ _ _ ≫= _) => fail
  | |- emits _ _ _ (await_first_setpoint _ _ _ ≫= _) => fail
  | |- emits _ _ _ (_ ≫= _) =>
      let x := fresh "x" in apply emits_bind; [| intros x]
  | |- emits _ _ _ (match ?b with _ => _ end) => let E := fresh "E" in destruct b eqn:E
  | H : emits _ _ _ ?m |- emits _ _ _ ?m => exact H
  end
with fold_emits :=
  lazymatch goal with |- emits_if ?T ?n ?P (fun _ => True) ?m => change (emits T n P m) end.
Ltac emits_auto := repeat emits_step.

Lemma telemetry_frame cfg o a : exists es,
  log (write_telemetry cfg o a).1 = (log a ++ es)%list /\ tape (write_telemetry cfg o a).1 = tape a /\
  Forall (fun e => match e with Telemetry _ _ => True | Call _ => False end) es.
Proof.
  unfold write_telemetry, the_source, mbind, st_bind, st_get, st_lift. simpl.
  destruct (src a); simpl; [|exists []; by rewrite app_nil_r].
  destruct (o_read o) as [rs|]; simpl; [|exists []; by rewrite app_nil_r].
  destruct (map_states rs _); simpl; [|exists []; by rewrite app_nil_r].
  destruct (match status_cache a with Some _ => status_next_ns a <=? o_t_ns o | None => true end);
    eexists; (split; [done|]); (split; [done|]); by repeat constructor.
Qed.

Section session_emits.
Context (cfg : ArmCfg) (T : list obs) (n0 : nat) (c : ControlCfg) (k : ControlCoeffsCfg).

(** Where the integrator of a source can stand after the session events [L]: in position
    control it is not used; otherwise at a position read from the robot, or at the target of
    an earlier command of the session. *)
Definition integrator_ok (L : list event) (s : FlexivSource) : Prop :=
  kind c = "qpos" \/
  exists t, control_target s = Some t /\
    ((exists o rs, o ∈ T /\ o_read o = Ok rs /\
        t = if String.eqb (kind c) "qvel" then rs_q rs else rs_tcp_pose rs) \/
     (exists cl, Call cl ∈ L /\ call_target cl = Some t)).

(** A streamed command is justified by an observed tick: not stopping, no fault, a
    setpoint no older than the soft deadman, whose slices the safety-gated send path
    turned into exactly this command. *)
Definition actuation_ok (L : list event) (cl : rdk_call) : Prop :=
  exists o rs v ts soft fields s s',
    o ∈ T /\ o_stop o = false /\ o_fault o = false /\ o_read o = Ok rs /\
    newest (o_setpoint o) = Some v /\ newest_t_ns (o_setpoint o) = Some ts /\
    deadman_ns (deadman_ms (channel c)) = Ok soft /\ o_t_ns o - ts <= soft /\
    slice_streamed c v = Ok fields /\ integrator_ok L s /\
    send_control c k fields rs (fdiv f1 (ac_control_rate_hz cfg)) (ac_safety_check cfg)
      (ac_tolerance cfg) (SourceIo s []) = (SourceIo s' [cl], Returned tt).

(** A bootstrap target: the joint position of a setpoint found on the channel while no
    shutdown was asked for, in position control, and with the check on within the tolerance
    of a position read from the robot (or with a NaN among the joint errors). *)
Definition bootstrap_ok (target : list f64) : Prop :=
  exists o v fields q o' rs,
    o ∈ T /\ o_stop o = false /\ newest (o_setpoint o) = Some v /\ slice_streamed c v = Ok fields /\
    kind c = "qpos" /\ dget "q_d" fields = Some q /\ target = ndegrees <$> q /\
    o' ∈ T /\ o_read o' = Ok rs /\
    exists d, abs_diff q (rs_q rs) = Ok d /\
      (ac_safety_check cfg = true -> is_nan (ac_tolerance cfg) = false ->
       Forall (fun x => fle x (ac_tolerance cfg) = true) d \/ Exists (fun x => is_nan x = true) d).

Definition motion_ok (L : list event) (e : event) : Prop :=
  match e with
  | Call (MoveJ t) => bootstrap_ok t
  | Call cl => is_motion cl = true -> actuation_ok L cl
  | Telemetry _ _ => True
  end.

Abbreviation emitsM := (emits T n0 motion_ok).
Abbreviation emitsM_if := (emits_if T n0 motion_ok).

Lemma motion_ok_quiet L e :
  match e with Call cl => is_motion cl = false | _ => True end -> motion_ok L e.
Proof. destruct e as [[]|]; simpl; congruence. Qed.
#[local] Hint Resolve motion_ok_quiet : core.

Lemma emits_operational fuel d : emitsM (await_operational fuel d).
Proof. induction fuel as [|fuel IH]; simpl; emits_auto. Qed.

Lemma emits_enter : emitsM enter_control.
Proof.
  unfold enter_control. emits_auto.
  apply emits_operational.
Qed.

Lemma emits_channels fuel d : emitsM (await_channels cfg fuel d).
Proof. induction fuel as [|fuel IH]; simpl; emits_auto. Qed.

Lemma emits_first fuel d : emitsM (await_first_setpoint cfg fuel d).
Proof. induction fuel as [|fuel IH]; simpl; emits_auto. Qed.

(** A first setpoint was seen on the channel, with no shutdown asked for. *)
Definition setpoint_seen (v : list f64) : Prop :=
  exists o, o ∈ T /\ o_stop o = false /\ newest (o_setpoint o) = Some v.

Lemma telemetry_tape o a : tape (write_telemetry cfg o a).1 = tape a.
Proof.
  unfold write_telemetry, the_source, mbind, st_bind, st_get, st_lift. simpl.
  destruct (src a); simpl; [|done]. destruct (o_read o); simpl; [|done].
  destruct (map_states _ _); simpl; [|done]. by destruct (match status_cache a with Some _ => _ | None => _ end).
Qed.

Lemma first_seen fuel d : forall a a' x, (forall o, o ∈ tape a -> o ∈ T) ->
  await_first_setpoint cfg fuel d a = (a', Returned (Some x)) -> setpoint_seen x.
Proof.
  induction fuel as [|fuel IH]; intros a a' x Ha; [done|]. simpl.
  intros (o & a1 & Ho & H)%bind_returned. unfold observe in Ho.
  destruct (tape a) as [|o' t] eqn:Et; [done|]. injection Ho as <- ->.
  destruct (o_stop o) eqn:Es; [done|]. apply bind_returned in H as (b & a2 & Hd & H).
  assert (Ht2 : tape a2 = t).
  { unfold drain_commands, mbind, st_bind, st_get, st_modify, st_lift in Hd. simpl in Hd.
    destruct (scan_commands _); simplify_eq. done. }
  destruct b; [done|]. destruct (newest (o_setpoint o)) as [v|] eqn:Ev.
  - injection H as <- <-. exists o. split_and!; [apply Ha; set_solver|done|done].
  - destruct (flt d (o_now o)); [done|]. apply bind_returned in H as (rs & a3 & Hw & H).
    eapply IH; [|exact H]. pose proof (telemetry_tape o a2) as Ht3. rewrite Hw in Ht3. simpl in Ht3.
    intros y Hy. apply Ha. rewrite Ht3, Ht2 in Hy. by right.
Qed.

Lemma emits_movej fuel : emitsM (await_movej cfg fuel).
Proof. induction fuel as [|fuel IH]; simpl; emits_auto. unfold abort. emits_auto. Qed.

Lemma preflight_qpos fields rs q :
  preflight cfg c fields rs = Ok tt -> kind c = "qpos" -> dget "q_d" fields = Some q ->
  exists d, abs_diff q (rs_q rs) = Ok d /\
    (ac_safety_check cfg = true -> is_nan (ac_tolerance cfg) = false ->
     Forall (fun x => fle x (ac_tolerance cfg) = true) d \/ Exists (fun x => is_nan x = true) d).
Proof.
  unfold preflight. intros H Hk Hq. rewrite Hk, Hq in H. simpl in H.
  destruct (abs_diff q (rs_q rs)) as [d|] eqn:Ed; simpl in H; [|done]. exists d. split; [done|].
  intros Hc Ht. rewrite Hc in H. destruct (np_max d) as [err|] eqn:Em; simpl in H; [|done].
  destruct (flt (ac_tolerance cfg) err) eqn:El; [done|].
  destruct (safety_gate_ok (ac_tolerance cfg) q (rs_q rs) Ht) as (d' & Hd' & Hb).
  { unfold safety_gate. rewrite Ed. simpl. rewrite Em. simpl. by rewrite El. }
  rewrite Ed in Hd'. by injection Hd' as <-.
Qed.

(** What the bootstrap knows of its first target. *)
Definition first_ok (fields : list (string * list f64)) (rs : RobotStates) : Prop :=
  (exists v, setpoint_seen v /\ slice_streamed c v = Ok fields) /\
  (exists o', o' ∈ T /\ o_read o' = Ok rs) /\ preflight cfg c fields rs = Ok tt.

Lemma emits_bootstrap fields rs q :
  first_ok fields rs -> kind c = "qpos" -> dget "q_d" fields = Some q ->
  emitsM (bootstrap_movej cfg q).
Proof.
  intros ((v & (o & Ho & Hs & Hv) & Hf) & (o' & Ho' & Hr) & Hp) Hk Hq. unfold bootstrap_movej.
  apply emits_bind; [emits_auto|intros _]. apply emits_bind; [|intros _].
  - apply emits_call. intros L. simpl. exists o, v, fields, q, o', rs. split_and!; try done.
    by eapply preflight_qpos.
  - emits_auto. apply emits_movej.
Qed.

Lemma apply_coeffs_quiet nom cs :
  apply_coeffs nom c k = Ok cs -> Forall (fun cl => forall L, motion_ok L (Call cl)) cs.
Proof.
  unfold apply_coeffs. destruct (String.eqb (mode c) "NRT_CARTESIAN_MOTION_FORCE").
  - intros [= <-]. repeat apply Forall_app_2;
      [destruct (cartesian_impedance c)|destruct (max_contact_wrench k)
      |destruct (null_space_posture k)|destruct (force_control_axes c)
      |destruct (force_control_frame c)]; repeat constructor; done.
  - destruct (String.eqb (mode c) "NRT_JOINT_IMPEDANCE"); [|intros [= <-]; constructor].
    destruct (joint_impedance c); [|intros [= <-]; constructor].
    destruct (negb _); [done|]. intros [= <-]. by repeat constructor.
Qed.

Lemma start_control_mode_switch rs s r :
  start_control_mode c rs s = Ok r -> exists m, r.2 = SwitchMode m.
Proof.
  unfold start_control_mode. destruct (String.eqb (kind c) "qpos"); [intros [= <-]; by eexists|].
  destruct (String.eqb (kind c) "qvel"); [intros [= <-]; by eexists|].
  destruct (_ || _ || _); [intros [= <-]; by eexists|done].
Qed.

Lemma emits_start fields rs : first_ok fields rs -> emitsM (start_control cfg c k fields rs).
Proof.
  intros Hp. unfold start_control. emits_auto.
  - destruct (dget "q_d" fields) eqn:Eq; [|done]. injection Hx as ->.
    eapply emits_bootstrap; [done|by apply String.eqb_eq|done].
  - apply emits_call. intros L. apply motion_ok_quiet. by apply start_control_mode_switch in Hx as [m ->].
  - apply emits_calls. by eapply apply_coeffs_quiet.
Qed.

(** The integrator of the arm's source stands where it may. *)
Definition tracked (a : arm) : Prop :=
  (n0 <= length (log a))%nat /\
  match src a with Some (Real s) => integrator_ok (drop n0 (log a)) s | _ => True end.

Lemma integrator_ok_more L L' s : (forall e, e ∈ L -> e ∈ L') -> integrator_ok L s -> integrator_ok L' s.
Proof.
  intros Hs [Hk|(t & Ht & [Hr|(cl & Hcl & Htc)])]; [by left|right; exists t..]; (split; [done|]); [by left|].
  right. eauto.
Qed.

Lemma elem_of_drop_app (L es : list event) e : e ∈ drop n0 L -> e ∈ drop n0 (L ++ es)%list.
Proof. rewrite drop_app. set_solver. Qed.

Lemma tracked_fake a a' f :
  src a' = Some (Fake f) -> log a' = log a -> tracked a -> tracked a'.
Proof. unfold tracked. intros -> -> [Hn _]. done. Qed.

(** Logging more, or touching another part of the source, does not matter. *)
Lemma tracked_log a a' es :
  src a' = src a -> log a' = (log a ++ es)%list -> tracked a -> tracked a'.
Proof.
  unfold tracked. intros -> -> [Hn Ht]. split; [rewrite length_app; lia|]. destruct (src a) as [[s|]|]; [|done..].
  eapply integrator_ok_more; [|exact Ht]. intros e. apply elem_of_drop_app.
Qed.

Lemma tracked_target a a' s s' es :
  src a = Some (Real s) -> src a' = Some (Real s') -> control_target s' = control_target s ->
  log a' = (log a ++ es)%list -> tracked a -> tracked a'.
Proof.
  unfold tracked. intros -> -> Hc -> [Hn Ht]. split; [rewrite length_app; lia|].
  unfold integrator_ok in *. rewrite Hc.
  eapply integrator_ok_more; [|exact Ht]. intros e. apply elem_of_drop_app.
Qed.

(** A control mode is started with the integrator at what was just read. *)
Lemma start_tracked fields rs a a' o :
  o ∈ T -> o_read o = Ok rs -> (n0 <= length (log a'))%nat ->
  start_control cfg c k fields rs a = (a', Returned true) -> tracked a'.
Proof.
  intros Ho Hr Hn H. split; [done|]. clear Hn. revert H. unfold start_control. intros (s & a1 & Hs & H)%bind_returned. destruct s as [s|f].
  - apply bind_returned in H as (ok & a2 & _ & H). destruct ok; [|done]. simpl in H.
    apply bind_returned in H as (o2 & a3 & _ & H). apply bind_returned in H as (s2 & a4 & _ & H).
    destruct s2 as [s2|]; [|done]. apply bind_returned in H as (r & a5 & [Hm ->]%lift_returned & H).
    apply bind_returned in H as ([] & a6 & [= <-] & H). apply bind_returned in H as ([] & a7 & [= <-] & H).
    apply bind_returned in H as (cs & a8 & [_ ->]%lift_returned & H).
    apply bind_returned in H as ([] & a9 & [= <-] & H). injection H as <-. simpl.
    unfold start_control_mode in Hm. unfold integrator_ok.
    destruct (String.eqb_spec (kind c) "qpos"); [by left|]. right.
    destruct (String.eqb (kind c) "qvel"); [|destruct (_ || _ || _); [|done]]; injection Hm as <-;
      (eexists; split; [done|]); left; eauto.
  - apply bind_returned in H as (f' & a2 & _ & H). apply bind_returned in H as ([] & a3 & [= <-] & H).
    by injection H as <-.
Qed.

Lemma emits_setup_grip : emitsM (setup_grip cfg).
Proof.
  unfold setup_grip. emits_auto. apply emits_calls.
  unfold setup_gripper in E0. destruct (gripper s).
  - injection E0 as <- <- <-. constructor.
  - destruct (negb _ || _); [injection E0 as <- <- <-; constructor|].
    destruct (if o_grip_enable o then o_grip_params o else None); injection E0 as <- <- <-;
      constructor; try done; destruct (_ && _); by repeat constructor.
Qed.

Lemma setup_grip_tracked : keeps tracked (setup_grip cfg).
Proof.
  intros a Ht. unfold setup_grip, the_source, mbind, st_bind, st_get. simpl.
  destruct (src a) as [[s|f]|] eqn:Es; simpl; [|by eapply (tracked_fake a)|done].
  unfold observe. destruct (tape a) as [|o t]; [done|]. simpl.
  destruct (setup_gripper (ac_gripper cfg) (o_grip_enable o) (o_grip_params o) s) as [[s' ok] cs] eqn:Eg. simpl.
  eapply (tracked_target a _ s s' (Call <$> cs)); [done|done| |done|done].
  unfold setup_gripper in Eg. repeat case_match; simplify_eq; done.
Qed.

Lemma emits_grip_step o : emitsM (grip_step o).
Proof.
  assert (forall v t s, Forall (fun cl => forall L, motion_ok L (Call cl)) (send_gripper v t s).2) as Hq.
  { intros v t s. unfold send_gripper. destruct (gripper s) as [g|]; [|constructor].
    simpl. destruct (match gr_last_val g with Some _ => _ | None => _ end); by repeat constructor. }
  unfold grip_step. emits_auto; apply emits_calls; rewrite <-E2; apply Hq.
Qed.

Lemma stop_grip_tracked a : tracked a -> tracked (stop_grip a).
Proof.
  intros Ht. unfold stop_grip. destruct (src a) as [[s|f]|] eqn:Es; [|by eapply (tracked_fake a)|done].
  eapply (tracked_target a _ s); [done|done| |done|done]. unfold stop_gripper. by destruct (gripper s).
Qed.

Lemma grip_step_tracked o : keeps tracked (grip_step o).
Proof.
  intros a Ht. unfold grip_step. destruct (newest (o_gripper o)) as [[|v l]|]; [by apply stop_grip_tracked| |done].
  unfold the_source, mbind, st_bind, st_get. simpl. destruct (src a) as [[s|f]|] eqn:Es; simpl; [|by eapply (tracked_fake a)|done].
  assert (Hc : control_target (send_gripper v (o_t_ns o) s).1 = control_target s).
  { unfold send_gripper. repeat case_match; done. }
  destruct (send_gripper v (o_t_ns o) s) as [s' cs]. simpl in *.
  destruct cs as [|cl cs]; [done|]. destruct (o_grip_move o); simpl.
  - by eapply (tracked_target a _ s s').
  - apply stop_grip_tracked. by eapply (tracked_log a).
Qed.

Lemma telemetry_read o a a' rs :
  write_telemetry cfg o a = (a', Returned rs) -> o_read o = Ok rs.
Proof.
  unfold write_telemetry, the_source, mbind, st_bind, st_get, st_lift.
  destruct (src a); simpl; [|done]. destruct (o_read o) as [r|]; simpl; [|done].
  destruct (map_states r _); simpl; [|done]. unfold status_signal. simpl. by intros [= _ <-].
Qed.

Lemma telemetry_src o a : src (write_telemetry cfg o a).1 = src a.
Proof.
  unfold write_telemetry, the_source, mbind, st_bind, st_get, st_lift. simpl.
  destruct (src a) eqn:Es; simpl; [|done]. destruct (o_read o); simpl; [|done].
  destruct (map_states _ _); simpl; [|done].
  destruct (match status_cache a with Some _ => _ | None => _ end); exact Es.
Qed.

Lemma telemetry_tracked o : keeps tracked (write_telemetry cfg o).
Proof.
  intros a Ht. destruct (telemetry_frame cfg o a) as (es & Hl & _).
  by eapply tracked_log; [apply telemetry_src|exact Hl|].
Qed.

Lemma drain_tracked o : keeps tracked (drain_commands o).
Proof.
  intros a Ht. unfold drain_commands, mbind, st_bind, st_get, st_modify, st_lift. simpl.
  by destruct (scan_commands _).
Qed.

(** The robot, if there is one, reported no fault at this tick. *)
Definition fault_free (o : obs) (a : arm) : Prop :=
  match src a with Some (Real _) => o_fault o = false | _ => True end.

Lemma emits_send fields rs o v ts soft :
  o ∈ T -> o_stop o = false -> o_read o = Ok rs -> newest (o_setpoint o) = Some v ->
  newest_t_ns (o_setpoint o) = Some ts -> deadman_ns (deadman_ms (channel c)) = Ok soft ->
  o_t_ns o - ts <= soft -> slice_streamed c v = Ok fields ->
  emitsM_if (fun a => tracked a /\ fault_free o a)
    (send cfg c k fields rs (fdiv f1 (ac_control_rate_hz cfg))).
Proof.
  intros. intros a [[_ Ht] HQ] Ha. set (dt := fdiv f1 (ac_control_rate_hz cfg)).
  assert (Hdt : dt = fdiv f1 (ac_control_rate_hz cfg)) by done. clearbody dt.
  unfold send, the_source, mbind, st_bind, st_get, st_lift, fault_free, tracked in *.
  destruct (src a) as [[s|f]|] eqn:Es; simpl.
  - unfold source_do.
    destruct (send_control_cases c k fields rs dt (ac_safety_check cfg)
      (ac_tolerance cfg) s) as [(e & E)|(s' & cl & E)]; rewrite E; simpl.
    + by logs Ha (@nil event).
    + logs Ha [Call cl]. split; [|done].
      assert (actuation_ok (drop n0 (log a)) cl) as Hok
        by (exists o, rs, v, ts, soft, fields, s, s'; rewrite Hdt in E; done).
      unfold motion_ok. destruct cl; try (intros _; exact Hok).
      exfalso. apply send_control_target in E as (_ & Hc & _). by apply Hc.
  - destruct (fake_send_control _ _ _ f); simpl; silent.
  - silent.
Qed.

Lemma send_tracked fields rs dt : keeps tracked (send cfg c k fields rs dt).
Proof.
  intros a Ht. unfold send, the_source, mbind, st_bind, st_get. simpl.
  destruct (src a) as [[s|f]|] eqn:Es; simpl;
    [|unfold st_lift; destruct (fake_send_control _ _ _ _); [by eapply (tracked_fake a)|done]|done].
  unfold source_do.
  destruct (send_control_cases c k fields rs dt (ac_safety_check cfg)
    (ac_tolerance cfg) s) as [(e & E)|(s' & cl & E)]; rewrite E; simpl.
  - by eapply (tracked_log a _ []).
  - apply send_control_target in E as (_ & _ & [->|(t & Hct & ->)]).
    + by eapply (tracked_log a _ [Call cl]).
    + destruct Ht as [Hn _]. split; simpl; [rewrite length_app; lia|]. right. exists t. split; [done|]. right.
      exists cl. split; [|done]. rewrite drop_app_le by done. set_solver.
Qed.

(** Past the fault check, whatever follows runs in a fault-free state. *)
Lemma emits_fault_cut o (m : ST arm (loop_exit + bool)) :
  emitsM_if (fun a => tracked a /\ fault_free o a) m ->
  emitsM_if tracked (f ← source_fault o; if (f : bool) then mret (inl RobotFault) else m).
Proof.
  intros Hm a Ht Ha. unfold source_fault, the_source, mbind, st_bind, st_get. simpl.
  destruct (src a) as [[s|f]|] eqn:Es; simpl; [destruct (o_fault o) eqn:Ef; simpl|..].
  - silent.
  - apply Hm; [|done]. split; [done|]. unfold fault_free. by rewrite Es.
  - apply Hm; [|done]. split; [done|]. unfold fault_free. by rewrite Es.
  - silent.
Qed.

Lemma emits_tick soft hard grip o :
  o ∈ T -> deadman_ns (deadman_ms (channel c)) = Ok soft ->
  emitsM_if tracked (control_tick cfg c k soft hard grip o).
Proof.
  intros Ho Hsoft. unfold control_tick. destruct (o_stop o) eqn:Estop; [apply emits_if_of; emits_auto|].
  apply (emits_if_seq _ _ _ _ (fun rs a => tracked a /\ o_read o = Ok rs));
    [apply emits_if_of, emits_telemetry; eauto| |].
  { intros a a' rs Ht _ _ E. split; [|by eapply telemetry_read].
    pose proof (telemetry_tracked o a Ht) as Hk. by rewrite E in Hk. }
  intros rs. intros a [Ht Hrs]. revert a Ht. apply emits_fault_cut.
  apply emits_if_bind; [apply emits_if_of, emits_drain| |].
  { intros a [Ht Hf]. split; [by apply drain_tracked|].
    unfold drain_commands, mbind, st_bind, st_get, st_modify, st_lift. simpl. by destruct (scan_commands _). }
  intros [|]; [apply emits_if_of; emits_auto|].
  destruct (newest (o_setpoint o)) as [v|] eqn:Ev; [|apply emits_if_of; emits_auto].
  destruct (newest_t_ns (o_setpoint o)) as [ts|] eqn:Et; [|apply emits_if_of; emits_auto].
  destruct (hard <? _); [apply emits_if_of; emits_auto|].
  destruct (soft <? _) eqn:Eage; [apply emits_if_of; emits_auto|].
  apply emits_lift_bind. intros fields Esl. apply emits_if_bind_any.
  - apply emits_if_except.
    + apply emits_if_bind_any; [|intros _; emits_auto].
      eapply emits_send; eauto. apply Z.ltb_ge in Eage. lia.
    + intros e m. destruct e; intros [= <-]; emits_auto.
  - intros r. emits_auto. apply emits_grip_step.
Qed.

(** A tick leaves the integrator where it may stand. *)
Lemma tick_tracked soft hard grip o : keeps tracked (control_tick cfg c k soft hard grip o).
Proof.
  unfold control_tick. destruct (o_stop o); [by auto with dfc|].
  apply keeps_bind; [apply telemetry_tracked|intros rs]. apply keeps_bind.
  { unfold source_fault, the_source. apply keeps_bind; [|auto with dfc].
    apply keeps_bind; [auto with dfc|]. intros a. destruct (src a); auto with dfc. }
  intros [|]; [auto with dfc|]. apply keeps_bind; [apply drain_tracked|]. intros [|]; [auto with dfc|].
  destruct (newest (o_setpoint o)); [|auto with dfc]. destruct (newest_t_ns (o_setpoint o)); [|auto with dfc].
  destruct (hard <? _); [auto with dfc|]. destruct (soft <? _); [auto with dfc|].
  apply keeps_bind; [auto with dfc|intros fields]. apply keeps_bind.
  - apply keeps_try_except; [apply keeps_bind; [apply send_tracked|auto with dfc]|].
    intros e m. destruct e; intros [= <-]; auto with dfc.
  - intros [|]; simpl; [|auto with dfc]. destruct grip; [|auto with dfc].
    apply keeps_bind; [apply grip_step_tracked|auto with dfc].
Qed.

Lemma emits_loop fuel soft hard grip :
  deadman_ns (deadman_ms (channel c)) = Ok soft ->
  emitsM_if tracked (control_loop cfg fuel c k soft hard grip).
Proof.
  intros Hs. revert grip. induction fuel as [|fuel IH]; intros grip; simpl; [apply emits_if_of; emits_auto|].
  apply emits_observe; [done|]. intros o Ho. apply emits_if_bind; [by apply emits_tick|apply tick_tracked|].
  intros [e|g]; [apply emits_if_of; emits_auto|apply IH].
Qed.

Lemma emits_native : emitsM (run_native_rt cfg).
Proof.
  unfold run_native_rt. emits_auto.
  - unfold close_source. intros a _ Ha. exact (emits_stop_grip T n0 motion_ok motion_ok_quiet a I Ha).
  - intros a _ Ha. unfold run_then_reopen, open_source, mbind, st_bind, st_modify. simpl.
    destruct (fresh_source cfg); simpl; [|silent].
    unfold mbind, st_bind, st_lift. destruct (o_open o); simpl; silent.
Qed.

(** From the start of a control mode on. *)
Lemma emits_started fields rs grip :
  first_ok fields rs ->
  emitsM (started ← start_control cfg c k fields rs;
          if negb started then mret None
          else
            g ← (if grip : bool then setup_grip cfg else mret false);
            _ ← st_lift (rate_limiter (ac_control_rate_hz cfg) f0);
            soft ← st_lift (deadman_ns (deadman_ms (channel c)));
            hard ← st_lift (deadman_ns (deadman_hard_ms (channel c)));
            a ← st_get;
            e ← control_loop cfg (length (tape a)) c k soft hard g;
            mret (Some e)).
Proof.
  intros Hf. pose proof Hf as (_ & (o' & Ho' & Hr) & _).
  apply (emits_if_seq _ _ _ _ (fun ok a => ok = true -> tracked a)); [by apply emits_start| |].
  { intros a a' x _ _ [_ Hn] E ->. by eapply start_tracked. }
  intros [|]; simpl; [|apply emits_if_of; emits_auto].
  intros a Ht. specialize (Ht eq_refl). revert a Ht.
  apply (emits_if_bind _ _ _ tracked).
  - apply emits_if_of. destruct grip; [apply emits_setup_grip|emits_auto].
  - destruct grip; [apply setup_grip_tracked|apply keeps_ret].
  - intros g. do 3 (apply emits_lift_bind; intros ? ?).
    apply emits_if_bind; [apply emits_if_of; emits_auto|apply keeps_get|]. intros a1.
    apply emits_if_bind_any; [by apply emits_loop|]. intros e. emits_auto.
Qed.

Lemma emits_first_then {B} fuel d (k' : option (list f64) -> ST arm B) :
  emitsM (k' None) -> (forall v, setpoint_seen v -> emitsM (k' (Some v))) ->
  emitsM (await_first_setpoint cfg fuel d ≫= k').
Proof.
  intros H1 H2. apply (emits_bind_post _ _ _ _ _ (fun x => forall v, x = Some v -> setpoint_seen v)).
  - apply emits_first.
  - intros a a' x [Ha _] E v ->. by eapply first_seen.
  - intros [v|] Hv; auto.
Qed.

Lemma emits_body : emitsM (session_body cfg c k).
Proof.
  unfold session_body. emits_auto; eauto using emits_enter, emits_channels.
  - apply emits_first_then; [emits_auto|]. intros v Hv. emits_auto. apply emits_native.
  - apply emits_first_then; [emits_auto|]. intros v Hv. emits_auto.
    apply emits_started. split; [by eauto|]. split; [by eauto|]. by match goal with H : preflight _ _ _ _ = Ok ?u |- _ => destruct u end.
Qed.

Lemma emits_cleanup : emitsM (st_modify session_cleanup).
Proof.
  intros a _ Ha. unfold st_modify, session_cleanup. simpl.
  destruct (emits_stop_grip T n0 motion_ok motion_ok_quiet (set_active false a) I Ha) as [Hi He]. simpl in *.
  destruct (src (stop_grip (set_active false a))) as [[s|f]|]; simpl; [|by split..].
  destruct He as (es & Hl & Hp).
  logs Hi (es ++ (Call <$> source_stop s))%list; [by rewrite Hl, app_assoc|].
  apply chain_app; [done|]. unfold source_stop. destruct (robot s); simpl; [|done]. by split.
Qed.
End session_emits.

(** ** Properties *)

(** C3: Every exit from a control session leaves the arm stopped and idle: whether the
    session returned or raised, and wherever it was, the control flag is down, the gripper
    is released, a connected robot's last call is [Stop], and the simulated robot is out
    of its control mode. *)
Theorem session_always_stops (cfg : ArmCfg) (k : ControlCoeffsCfg) (control : option ControlCfg)
    (a : arm) :
  match control_session cfg k control a with
  | (_, Running) => True
  | (a', _) =>
      control_active a' = false /\
      match src a' with
      | None => True
      | Some (Real s) =>
          gripper s = None /\ (robot s = true -> list.last (log a') = Some (Call Stop))
      | Some (Fake f) => fk_ctrl f = false /\ fk_mode f = "IDLE" /\ fk_gripper_ready f = false
      end
  end.
Proof.
  unfold control_session, mbind, st_bind, st_modify, try_finally.
  destruct (session_body cfg (default (ac_control cfg) control) k (set_active true a)) as [a1 o].
  assert (forall b, let b' := session_cleanup b in control_active b' = false /\
    match src b' with
    | None => True
    | Some (Real s) => gripper s = None /\ (robot s = true -> list.last (log b') = Some (Call Stop))
    | Some (Fake f) => fk_ctrl f = false /\ fk_mode f = "IDLE" /\ fk_gripper_ready f = false
    end) as Hc.
  { intros b. unfold session_cleanup, stop_grip. simpl.
    destruct (src b) as [[s|f]|] eqn:Es; simpl; rewrite ?Es; simpl;
      [|done|by rewrite Es].
    split; [done|]. unfold stop_gripper. destruct (gripper s) as [g|] eqn:Eg; simpl;
      (split; [done|]); unfold source_stop; simpl; intros Hr; rewrite Hr;
      apply (last_snoc (Call Stop)). }
  destruct o; [apply Hc|apply Hc|done].
Qed.


Lemma idle_loop_quiet cfg fuel a :
  Forall (fun o => o_msg o = None) (tape a) ->
  exists es, log (session_loop cfg fuel a).1 = (log a ++ es)%list /\
    Forall (fun e => match e with Telemetry _ _ => True | Call _ => False end) es.
Proof.
  revert a. induction fuel as [|fuel IH]; intros a Hm; simpl; [exists []; by rewrite app_nil_r|].
  unfold mbind, st_bind, observe. destruct (tape a) as [|o t] eqn:Et; simpl;
    [exists []; by rewrite app_nil_r|].
  apply Forall_cons in Hm as [Ho Hm]. destruct (o_stop o); simpl; [exists []; by rewrite app_nil_r|].
  rewrite Ho. unfold mbind, st_bind.
  destruct (telemetry_frame cfg o (set_tape t a)) as (es & Hl & Htp & Hq). simpl in Hl, Htp.
  destruct (write_telemetry cfg o (set_tape t a)) as [a1 [rs|e|]]; simpl in *; [|by eauto..].
  destruct (IH a1) as (es' & Hl' & Hq'); [by rewrite Htp|].
  exists (es ++ es')%list. split; [by rewrite Hl', Hl, app_assoc|by apply Forall_app_2].
Qed.

(** C14: An idle arm is read-only: as long as no session message arrives, the session loop
    makes no robot call of any kind, only telemetry, for any number of ticks. *)
Theorem idle_arm_is_readonly (cfg : ArmCfg) (fuel : nat) (a : arm)
    (Hidle : Forall (fun o => o_msg o = None) (tape a)) :
  exists es, log (session_loop cfg fuel a).1 = (log a ++ es)%list /\
    Forall (fun e => match e with Telemetry _ _ => True | Call _ => False end) es.
Proof. by apply idle_loop_quiet. Qed.

(** The status stream tells the truth about control: each published status vector of a
    four-element robot status has the declared width, its third element is the live control
    flag, and the robot itself is asked at most every 100 ms. *)
Theorem status_vector_live (a a' : arm) (now_ns : Z) (read : res (list f64)) (v : list f64)
    (Hcache : forall c, status_cache a = Some c -> length c = 4%nat)
    (Hread : forall c, read = Ok c -> length c = 4%nat)
    (Hok : status_signal now_ns read a = (a', Returned v)) :
  Z.of_nat (length v) = STATUS_DIM /\ v !! 2%nat = Some (if control_active a then f1 else f0) /\
  (status_next_ns a' <> status_next_ns a -> status_next_ns a' = now_ns + 100000000) /\
  (now_ns < status_next_ns a -> status_cache a <> None -> a' = a) /\
  (forall c, status_cache a' = Some c -> length c = 4%nat).
Proof.
  unfold status_signal in Hok. injection Hok as <- <-.
  set (refresh := match status_cache a with None => true | Some _ => _ end).
  set (a' := if refresh then _ else a).
  assert (exists c, status_cache a' = Some c /\ length c = 4%nat) as (c & Hc & Hlen).
  { subst a' refresh. destruct (status_cache a) as [c|] eqn:Ec.
    - destruct (_ <=? _); [|eauto]. simpl. eexists. split; [done|]. destruct read; auto.
    - simpl. eexists. split; [done|]. destruct read; auto. }
  assert (control_active a' = control_active a) as Hact by (subst a'; by destruct refresh).
  rewrite Hc, Hact. simpl. destruct c as [|x0 [|x1 [|x2 [|x3 [|]]]]]; simpl in Hlen; try lia.
  split_and!; [done|done| | |].
  - subst a'. by destruct refresh.
  - intros Hlt Hne. subst a' refresh. destruct (status_cache a); [|done].
    replace (_ <=? now_ns) with false by (symmetry; apply Z.leb_gt; lia). done.
  - intros c' [= <-]. done.
Qed.

Definition demo_arm_cfg : ArmCfg :=
  ArmC "left" 2 "local" demo_qpos true (f_of_Z 200) true (fdec 1 2) (f_of_Z 10) true true
    (GripperC false "" f1 f1 f1 f0 true None None) [("q", StreamC 2 "float64" 64 f1 false)] false.

Definition demo_obs (o_msg : option EnterControl) : obs :=
  Obs false 5 f1 (Ok (demo_states [f0; f0])) (Ok [f1; f0; f1; f1]) false true true true []
    (Ok []) (Ok tt) empty_samples empty_samples empty_samples false true None (Ok tt) (Ok tt) (Ok 0)
    (Ok tt) o_msg.

Definition demo_arm (t : list obs) : arm :=
  ArmSt false None 0 (Some (Real (MkSource true 2 None None))) (-1) t [].

Lemma idle_arm_is_readonly_witness :
  length (log (session_loop demo_arm_cfg 2 (demo_arm [demo_obs None; demo_obs None])).1) = 2%nat /\
  exists es, log (session_loop demo_arm_cfg 2 (demo_arm [demo_obs None; demo_obs None])).1 = es /\
    Forall (fun e => match e with Telemetry _ _ => True | Call _ => False end) es.
Proof.
  split; [vm_compute; reflexivity|].
  apply (idle_arm_is_readonly demo_arm_cfg 2 (demo_arm [demo_obs None; demo_obs None])).
  repeat constructor.
Defined.

Lemma status_vector_live_witness :
  let r := status_signal 5 (Ok [f1; f0; f1; f1]) (demo_arm []) in
  r.2 = Returned [f1; f0; f0; f1; f1] /\ Z.of_nat (length [f1; f0; f0; f1; f1]) = STATUS_DIM.
Proof.
  split; [reflexivity|].
  apply (status_vector_live (demo_arm []) (status_signal 5 (Ok [f1; f0; f1; f1]) (demo_arm [])).1 5 (Ok [f1; f0; f1; f1]) [f1; f0; f0; f1; f1]);
    [intros c Hc; discriminate Hc|intros c [= <-]; reflexivity|reflexivity].
Defined.
