(* ===== verification/ArmLive.v ===== *)
(** * The arm process ends when it is told to

    Termination of the loops of [Arm.v] once the environment asks for a shutdown: every
    waiting loop of a control session is left at the first such observation, so that an arm
    process consumes a bounded number of them. *)

From Stdlib Require Import String.
From S2P Require Import Prelude Float64 Ring Streams Channel Process Source Arm.
Local Open Scope nat_scope.

(** ** Routines that do not wait *)

Definition still {A} (m : ST arm A) : Prop := forall T, settles (fun a => tape a = T) m.

Lemma still_modify f : (forall a, tape (f a) = tape a) -> still (st_modify f).
Proof. intros Hf T. apply settles_modify. intros a <-. apply Hf. Qed.

Lemma still_bind {A B} (m : ST arm A) (k : A -> ST arm B) : still m -> (forall x, still (k x)) -> still (m ≫= k).
Proof. intros Hm Hk T. apply settles_bind; [apply Hm|]. intros x. apply Hk. Qed.

Lemma still_except {A} (m : ST arm A) h :
  still m -> (forall e k, h e = Some k -> still k) -> still (try_except m h).
Proof. intros Hm Hh T. apply settles_try_except; [apply Hm|]. intros e k Hk. by apply (Hh e). Qed.

Lemma still_ret {A} (x : A) : still (mret x).
Proof. intros T. apply settles_ret. Qed.
Lemma still_raise {A} e : still (@st_raise arm A e).
Proof. intros T. apply settles_raise. Qed.
Lemma still_get : still st_get.
Proof. intros T. apply settles_get. Qed.
Lemma still_lift {A} (c : res A) : still (st_lift c).
Proof. intros T. apply settles_lift. Qed.

Lemma stop_grip_tape a : tape (stop_grip a) = tape a.
Proof. unfold stop_grip. destruct (src a) as [[]|] eqn:E; simpl; by rewrite ?E. Qed.

Lemma still_status t r : still (status_signal t r).
Proof. intros T a Ha. destruct (status_signal_frame t r a) as (a' & v & -> & _ & Ht). simpl. by rewrite Ht. Qed.

(** Decompose a routine that does not wait. *)
Ltac still_step :=
  lazymatch goal with
  | |- still (mret _) => apply still_ret
  | |- still skip => apply still_ret
  | |- still (st_raise _) => apply still_raise
  | |- still st_get => apply still_get
  | |- still (st_lift _) => apply still_lift
  | |- still (status_signal _ _) => apply still_status
  | |- still (st_modify stop_grip) => apply still_modify, stop_grip_tape
  | |- still (st_modify _) => apply still_modify; by intros []
  | |- still (call _) => apply still_modify; by intros []
  | |- still (calls _) => apply still_modify; by intros []
  | |- still the_source => unfold the_source
  | |- still (when ?b _) => unfold when; destruct b
  | |- still (try_except _ _) => apply still_except
  | |- still (_ ≫= _) => apply still_bind; [|intros ?]
  | |- still (match ?x with _ => _ end) => destruct x
  | |- still _ => solve [eauto]
  end.
Ltac still_auto := repeat still_step.

Section live.
Context (cfg : ArmCfg).

(** [T0]: the observations up to some moment after the stop event was set. *)
Context (T0 : list obs) (HT0 : exists x o, T0 = (x ++ [o])%list /\ o_stop o = true).

(** A later observation: the stop event is set, and the robot is operational or the time-out
    of [enter_control] has passed for every observation of [T0] (its polling loop watches
    the robot and its own deadline, not the stop event). *)
Definition closing (o : obs) : Prop :=
  o_stop o = true /\
  (o_operational o = true \/
   forall o0, o0 ∈ T0 -> flt (fadd (o_now o0) CONNECT_TIMEOUT_S) (o_now o) = true).

(** The tape is the end of [T0] followed by [n] or more closing observations; [ready] has
    some of [T0] left; [spent] has only closing ones. *)
Definition reserve (n : nat) (a : arm) : Prop :=
  exists t1 t2, tape a = (t1 ++ t2)%list /\ t1 `suffix_of` T0 /\ n <= length t2 /\ Forall closing t2.

Definition ready (n : nat) (a : arm) : Prop :=
  exists o t1 t2, tape a = (o :: t1 ++ t2)%list /\ (o :: t1) `suffix_of` T0 /\ n <= length t2 /\ Forall closing t2.

Definition spent (n : nat) (a : arm) : Prop := n <= length (tape a) /\ Forall closing (tape a).

(** [m] ends with at most [k] of the closing observations. *)
Definition ends_at {A} (k : nat) (m : ST arm A) (n : nat) (a : arm) : Prop :=
  (m a).2 ≠ Running /\ tape (m a).1 `suffix_of` tape a /\ (reserve n (m a).1 \/ spent (n - k) (m a).1).

Definition ends {A} (k : nat) (m : ST arm A) : Prop := forall n a, k <= n -> reserve n a -> ends_at k m n a.

(** The same from a state with some of [T0] left. *)
Definition ends_ready {A} (k : nat) (m : ST arm A) : Prop := forall n a, k <= n -> ready n a -> ends_at k m n a.

Lemma reserve_tape n a a' : tape a' = tape a -> reserve n a -> reserve n a'.
Proof. intros E (t1 & t2 & H). exists t1, t2. by rewrite E. Qed.

Lemma reserve_weaken n n' a : n' <= n -> reserve n a -> reserve n' a.
Proof. intros Hn (t1 & t2 & ? & ? & ? & ?). exists t1, t2. split_and!; [done|done|lia|done]. Qed.

Lemma ready_reserve n a : ready n a -> reserve n a.
Proof. intros (o & t1 & t2 & ? & ? & ? & ?). by exists (o :: t1), t2. Qed.

Lemma ready_tape n a a' : tape a' = tape a -> ready n a -> ready n a'.
Proof. intros E (o & t1 & t2 & H). exists o, t1, t2. by rewrite E. Qed.

Lemma spent_reserve n a : spent n a -> reserve n a.
Proof. intros [? ?]. exists [], (tape a). split_and!; [done|apply suffix_nil|done|done]. Qed.

Lemma reserve_length n a : reserve n a -> n <= length (tape a).
Proof. intros (t1 & t2 & -> & _ & ? & _). rewrite length_app. lia. Qed.

Lemma ends_mono {A} k k' (m : ST arm A) : k <= k' -> ends k m -> ends k' m.
Proof.
  intros Hk Hm n a Hn Hr. destruct (Hm n a ltac:(lia) Hr) as (H1 & H2 & [H3|[H3 H4]]); split_and!; auto.
  right. split; [lia|done].
Qed.

(** A routine that neither waits nor observes. *)
Lemma ends_settles {A} (m : ST arm A) : (forall T, settles (fun a => tape a = T) m) -> ends 0 m.
Proof.
  intros Hm n a _ Hr. destruct (Hm (tape a) a eq_refl) as [H1 H2]. split_and!; [done|by rewrite H1|].
  left. by eapply reserve_tape.
Qed.

Lemma ends_at_next {A B} k1 k2 (m : ST arm A) (m' : ST arm B) n a a1 x :
  k1 + k2 <= n -> ends_at k1 m n a -> m a = (a1, Returned x) -> ends k2 m' ->
  (m' a1).2 ≠ Running /\ tape (m' a1).1 `suffix_of` tape a /\
  (reserve n (m' a1).1 \/ spent (n - (k1 + k2)) (m' a1).1).
Proof.
  intros Hn (H1 & H2 & H3) E Hk. rewrite E in H1, H2, H3. simpl in *. destruct H3 as [H3|H3].
  - destruct (Hk n a1 ltac:(lia) H3) as (H4 & H5 & H6). split_and!; [done|by etrans|].
    destruct H6 as [?|[? ?]]; [by left|]. right. split; [lia|done].
  - destruct (Hk (n - k1) a1 ltac:(lia) (spent_reserve _ _ H3)) as (H4 & H5 & H6).
    split_and!; [done|by etrans|]. right. destruct H3 as [_ Hf]. split.
    + destruct H6 as [?%reserve_length|[? _]]; lia.
    + destruct H5 as [t Et]. rewrite Et in Hf. by apply Forall_app in Hf as [_ ?].
Qed.

Lemma ends_at_bind {A B} k1 k2 (m : ST arm A) (k : A -> ST arm B) n a :
  k1 + k2 <= n -> ends_at k1 m n a -> (forall x, ends k2 (k x)) -> ends_at (k1 + k2) (m ≫= k) n a.
Proof.
  intros Hn Hm Hk. unfold ends_at, mbind, st_bind. destruct (m a) as [a1 [x|e|]] eqn:E.
  - by eapply ends_at_next.
  - destruct Hm as (H1 & H2 & H3). rewrite E in H1, H2, H3. simpl in *. split_and!; [done|done|].
    destruct H3 as [?|[? ?]]; [by left|]. right. split; [lia|done].
  - destruct Hm as [Hm _]. by rewrite E in Hm.
Qed.

Lemma ends_bind {A B} k1 k2 (m : ST arm A) (k : A -> ST arm B) :
  ends k1 m -> (forall x, ends k2 (k x)) -> ends (k1 + k2) (m ≫= k).
Proof. intros Hm Hk n a Hn Hr. apply ends_at_bind; [done|apply Hm; [lia|done]|done]. Qed.

Lemma ends_ready_bind {A B} k1 k2 (m : ST arm A) (k : A -> ST arm B) :
  ends_ready k1 m -> (forall x, ends k2 (k x)) -> ends_ready (k1 + k2) (m ≫= k).
Proof. intros Hm Hk n a Hn Hr. apply ends_at_bind; [done|apply Hm; [lia|done]|done]. Qed.

Lemma ends_bind0 {A B} k (m : ST arm A) (f : A -> ST arm B) :
  ends 0 m -> (forall x, ends k (f x)) -> ends k (m ≫= f).
Proof. intros. by apply (ends_bind 0 k). Qed.

Lemma ends_at_except {A} k (m : ST arm A) h n a :
  k <= n -> ends_at k m n a -> (forall e m', h e = Some m' -> ends 0 m') -> ends_at k (try_except m h) n a.
Proof.
  intros Hn (H1 & H2 & H3) Hh. unfold ends_at, try_except.
  destruct (m a) as [a1 [x|e|]]; simpl in *; [done| |done].
  destruct (h e) as [m'|] eqn:E; [|done].
  assert (Hc : ends_at k (fun _ => (a1, Returned tt)) n a) by by split_and!.
  rewrite <-(Nat.add_0_r k). by eapply (ends_at_next k 0 _ m'); [lia|exact Hc|reflexivity|eauto].
Qed.

Lemma ends_at_finally {A} k (m : ST arm A) (f : arm -> arm) n a :
  ends_at k m n a -> (forall a, tape (f a) = tape a) -> ends_at k (try_finally m f) n a.
Proof.
  intros (H1 & H2 & H3) Hf. unfold ends_at, try_finally.
  assert (Hx : tape (f (m a).1) `suffix_of` tape a /\ (reserve n (f (m a).1) \/ spent (n - k) (f (m a).1))).
  { rewrite Hf. split; [done|]. unfold spent. rewrite Hf.
    destruct H3 as [H3|H3]; [left; eapply reserve_tape; [apply Hf|done]|by right]. }
  destruct (m a) as [a1 [x|e|]]; simpl in *; [by split|by split|done].
Qed.

(** One observation: an ordinary one, or the first of the reserve. *)
Lemma reserve_cons n a : 1 <= n -> reserve n a -> exists o t, tape a = o :: t /\
  (forall a', tape a' = t -> (reserve n a' /\ (o_stop o = false -> ready n a')) \/ (closing o /\ spent (n - 1) a')).
Proof.
  intros Hn (t1 & t2 & E & Hs & Hl & Hf). destruct t1 as [|o t1].
  - destruct t2 as [|o t2]; simpl in *; [lia|]. exists o, t2. split; [done|]. intros a' E'. right.
    apply Forall_cons in Hf as [? ?]. split; [done|]. split; rewrite E'; [lia|done].
  - exists o, (t1 ++ t2)%list. split; [done|]. intros a' E'. left.
    assert (Hs' : t1 `suffix_of` T0) by by apply suffix_cons_l in Hs. split; [by exists t1, t2|].
    (* [T0] does not end with an observation that is not stopping *)
    intros Ho. destruct t1 as [|o1 t1]; [|by exists o1, t1, t2].
    exfalso. destruct HT0 as (x & y & Ex & Hy). destruct Hs as [z Ez]. rewrite Ez in Ex.
    apply app_inj_tail in Ex as [_ ->]. congruence.
Qed.

Lemma ends_observe : ends 1 observe.
Proof.
  intros n a Hn Hr. destruct (reserve_cons n a Hn Hr) as (o & t & E & Hx). unfold ends_at, observe. rewrite E. simpl.
  split_and!; [done|by exists [o]|]. destruct (Hx (set_tape t a) eq_refl) as [[? _]|[_ ?]]; [by left|by right].
Qed.

(** A polling loop: each iteration observes, then either ends without waiting or goes on with
    the tape as it is, and always ends on a closing observation. *)
Lemma ends_poll {A X} (loop : nat -> X -> ST arm A) (step : obs -> X -> (X -> ST arm A) -> ST arm A) :
  (forall fuel x, loop (S fuel) x = (o ← observe; step o x (loop fuel))) ->
  (forall o x m a, ((step o x m a).2 ≠ Running /\ tape (step o x m a).1 = tape a) \/
     (~ closing o /\ exists x' a', tape a' = tape a /\ step o x m a = m x' a')) ->
  forall x, ends 1 (fun a => loop (length (tape a)) x a).
Proof.
  intros Hloop Hstep x n a Hn Hr. unfold ends_at. remember (length (tape a)) as fuel eqn:Ef. revert x a Ef Hr.
  induction fuel as [|fuel IH]; intros x a Ef Hr; [apply reserve_length in Hr; lia|].
  destruct (reserve_cons n a Hn Hr) as (o & t & E & Hx). rewrite Hloop.
  unfold ends_at, mbind, st_bind, observe. rewrite E. simpl in Ef. rewrite E in Ef. simpl in Ef.
  destruct (Hstep o x (loop fuel) (set_tape t a)) as [[H1 H2]|(Hnc & x' & a' & H2 & ->)]; simpl in H2.
  - split_and!; [done|rewrite H2; by exists [o]|].
    destruct (Hx _ H2) as [[? _]|[_ ?]]; [by left|by right].
  - assert (Hr' : reserve n a') by (destruct (Hx a' H2) as [[? _]|[? _]]; done).
    destruct (IH x' a' ltac:(rewrite H2; lia) Hr') as (H3 & H4 & H5). split_and!; [done| |done].
    etrans; [exact H4|]. rewrite H2. by exists [o].
Qed.

Lemma still_telemetry o : still (write_telemetry cfg o).
Proof. unfold write_telemetry. still_auto. Qed.

Lemma still_drain o : still (drain_commands o).
Proof. unfold drain_commands. still_auto. Qed.

Lemma still_send c k fields rs dt : still (send cfg c k fields rs dt).
Proof.
  unfold send. still_auto. intros T a Ha. unfold source_do.
  destruct (send_control_cases c k fields rs dt (ac_safety_check cfg) (ac_tolerance cfg) s)
    as [(e & ->)|(s' & cl & ->)]; done.
Qed.

Lemma still_grip o : still (grip_step o).
Proof. unfold grip_step. cbv zeta. still_auto. Qed.

Lemma still_tick c k soft hard grip o : still (control_tick cfg c k soft hard grip o).
Proof.
  unfold control_tick, source_fault.
  pose proof (still_telemetry o). pose proof (still_drain o). pose proof (still_grip o).
  pose proof (still_send c k) as Hs. still_auto. intros e m He. destruct e; simplify_eq. apply still_ret.
Qed.

(** ** The waiting loops *)

Lemma tick_closing c k soft hard grip o a : closing o -> control_tick cfg c k soft hard grip o a = (a, Returned (inl Shutdown)).
Proof. intros [Hs _]. unfold control_tick. by rewrite Hs. Qed.

Lemma ends_control_loop c k soft hard grip :
  ends 1 (fun a => control_loop cfg (length (tape a)) c k soft hard grip a).
Proof.
  apply (ends_poll (fun fuel g => control_loop cfg fuel c k soft hard g)
    (fun o g m => r ← control_tick cfg c k soft hard g o; match r with inl e => mret e | inr g => m g end));
    [done|].
  intros o g m a. unfold mbind, st_bind.
  destruct (still_tick c k soft hard g o (tape a) a eq_refl) as [H1 H2].
  destruct (control_tick cfg c k soft hard g o a) as [a1 [[e|g']|e|]] eqn:Et; simpl in *; [by left| |by left|done].
  right. split; [|by exists g', a1]. intros Hc. by rewrite tick_closing in Et.
Qed.

Lemma ends_movej : ends 1 (fun a => await_movej cfg (length (tape a)) a).
Proof.
  apply (ends_poll (fun fuel (_ : unit) => await_movej cfg fuel)
    (fun o _ m => ab ← abort cfg o; if (ab : bool) then mret false else if o_reached o then mret true else m tt));
    [done| |exact tt].
  intros o [] m a. assert (Hab : still (abort cfg o)).
  { unfold abort. pose proof (still_telemetry o). pose proof (still_drain o). still_auto. }
  destruct (Hab (tape a) a eq_refl) as [H1 H2]. unfold mbind, st_bind.
  destruct (abort cfg o a) as [a1 [[]|e|]] eqn:Ea; simpl in *; [by left| |by left|done].
  destruct (o_reached o); [by left|]. right. split; [|by exists tt, a1].
  intros [Hs _]. unfold abort in Ea. rewrite Hs in Ea. unfold mbind, st_bind in Ea.
  by destruct (write_telemetry cfg o a) as [? []].
Qed.

Lemma ends_first d : ends 1 (fun a => await_first_setpoint cfg (length (tape a)) d a).
Proof.
  apply (ends_poll (fun fuel (_ : unit) => await_first_setpoint cfg fuel d)
    (fun o _ m => if o_stop o then mret None else
       stop ← drain_commands o;
       if (stop : bool) then mret None
       else match newest (o_setpoint o) with
            | Some v => mret (Some v)
            | None => if flt d (o_now o) then mret None else (write_telemetry cfg o ;; m tt)
            end)); [done| |exact tt].
  intros o [] m a. destruct (o_stop o) eqn:Es; [by left|].
  assert (Hnc : ~ closing o) by (intros [? _]; congruence). unfold mbind, st_bind.
  destruct (still_drain o (tape a) a eq_refl) as [H1 H2].
  destruct (drain_commands o a) as [a1 [[]|e|]]; simpl in *; [by left| |by left|done].
  destruct (newest (o_setpoint o)); [by left|]. destruct (flt d (o_now o)); [by left|].
  destruct (still_telemetry o (tape a) a1 H1) as [H3 H4].
  destruct (write_telemetry cfg o a1) as [a2 [rs|e|]]; simpl in *; [|by left|done].
  right. split; [done|]. exists tt, a2. by rewrite H3.
Qed.

Lemma ends_channels d : ends 1 (fun a => await_channels cfg (length (tape a)) d a).
Proof.
  apply (ends_poll (fun fuel (_ : unit) => await_channels cfg fuel d)
    (fun o _ m => if o_stop o then mret None else
       found ← st_lift (o_found o);
       if dmem (JStr (control_channel_name (ac_side cfg) SETPOINT)) found &&
          dmem (JStr (control_channel_name (ac_side cfg) COMMAND)) found
       then mret (Some o)
       else if flt d (o_now o) then st_raise TimeoutError
       else (write_telemetry cfg o ;; m tt))); [done| |exact tt].
  intros o [] m a. destruct (o_stop o) eqn:Es; [by left|].
  assert (Hnc : ~ closing o) by (intros [? _]; congruence). unfold mbind, st_bind, st_lift.
  destruct (o_found o) as [found|]; [|by left]. destruct (_ && _); [by left|].
  destruct (flt d (o_now o)); [by left|].
  destruct (still_telemetry o (tape a) a eq_refl) as [H3 H4].
  destruct (write_telemetry cfg o a) as [a2 [rs|e|]]; simpl in *; [|by left|done].
  right. split; [done|]. exists tt, a2. by rewrite H3.
Qed.

Lemma ends_operational o0 :
  o0 ∈ T0 -> ends 1 (fun a => await_operational (length (tape a)) (fadd (o_now o0) CONNECT_TIMEOUT_S) a).
Proof.
  intros Ho0. set (d := fadd _ _). apply (ends_poll (fun fuel (_ : unit) => await_operational fuel d)
    (fun o _ m => if o_operational o then mret tt
       else if flt d (o_now o) then st_raise TimeoutError else m tt)); [done| |exact tt].
  intros o [] m a. destruct (o_operational o) eqn:Eo; [by left|].
  destruct (flt d (o_now o)) eqn:El; [by left|]. right. split; [|by exists tt, a].
  intros [_ [?|Hd]]; [congruence|]. specialize (Hd o0 Ho0). fold d in Hd. congruence.
Qed.

(** Channels are only found before the end of [T0]. *)
Lemma channels_ready n d fuel : 1 <= n -> forall a a' o, reserve n a ->
  await_channels cfg fuel d a = (a', Returned (Some o)) -> ready n a'.
Proof.
  intros Hn. induction fuel as [|fuel IH]; intros a a' o Hr; [done|]. simpl.
  destruct (reserve_cons n a Hn Hr) as (o1 & t & E & Hx). unfold mbind at 1, st_bind at 1, observe. rewrite E.
  destruct (o_stop o1) eqn:Es; [done|]. unfold mbind at 1, st_bind at 1, st_lift.
  assert (Hrd : forall a', tape a' = t -> ready n a').
  { intros b Eb. destruct (Hx b Eb) as [[_ H]|[[H _] _]]; [auto|congruence]. }
  destruct (o_found o1) as [found|]; [|done]. destruct (_ && _).
  - intros [= <- <-]. by apply Hrd.
  - destruct (flt d (o_now o1)); [done|]. unfold mbind, st_bind.
    destruct (still_telemetry o1 t (set_tape t a) eq_refl) as [Ht _].
    destruct (write_telemetry cfg o1 (set_tape t a)) as [a2 [rs|e|]]; simpl in *; [|done|done].
    apply IH. by apply ready_reserve, Hrd.
Qed.

(** ** A control session, the session loop, the process *)

Lemma ends_still {A} k (m : ST arm A) : still m -> ends k m.
Proof. intros Hm. apply (ends_mono 0); [lia|]. by apply ends_settles. Qed.

(** A loop started with as much fuel as there are observations, then [K]. *)
Lemma ends_loop_bind {A B} k1 k2 (m : nat -> ST arm A) (K : A -> ST arm B) :
  ends k1 (fun a => m (length (tape a)) a) -> (forall x, ends k2 (K x)) ->
  ends (k1 + k2) (a ← st_get; x ← m (length (tape a)); K x).
Proof. intros Hm HK. exact (ends_bind k1 k2 (fun a => m (length (tape a)) a) K Hm HK). Qed.

Lemma ends_ready_of {A} k (m : ST arm A) : ends k m -> ends_ready k m.
Proof. intros Hm n a Hn Hr. apply Hm; [done|]. by apply ready_reserve. Qed.

Lemma ends_ready_still {A B} k (m : ST arm A) (K : A -> ST arm B) :
  still m -> (forall x, ends_ready k (K x)) -> ends_ready k (m ≫= K).
Proof.
  intros Hm HK n a Hn Hr. destruct (Hm (tape a) a eq_refl) as [H1 H2]. unfold ends_at, mbind, st_bind.
  destruct (m a) as [a1 [x|e|]]; simpl in *; [| |done].
  - destruct (HK x n a1 Hn) as (H3 & H4 & H5); [by eapply ready_tape|]. rewrite H1 in H4. done.
  - split_and!; [done|by rewrite H1|]. left. eapply reserve_tape; [exact H1|]. by apply ready_reserve.
Qed.

Lemma ends_ready_observe {B} k (K : obs -> ST arm B) :
  (forall o, o ∈ T0 -> ends k (K o)) -> ends_ready k (observe ≫= K).
Proof.
  intros HK n a Hn (o & t1 & t2 & E & Hs & Hl & Hf). unfold ends_at, mbind, st_bind, observe. rewrite E. simpl.
  assert (Ho : o ∈ T0) by (destruct Hs as [z ->]; set_solver).
  destruct (HK o Ho n (set_tape (t1 ++ t2) a) Hn) as (H1 & H2 & H3).
  { exists t1, t2. split_and!; [done|by apply suffix_cons_l in Hs|done|done]. }
  split_and!; [done| |done]. etrans; [exact H2|]. by exists [o].
Qed.

Lemma ends_enter : ends_ready 1 enter_control.
Proof.
  unfold enter_control. apply ends_ready_still; [still_auto|].
  intros [s|f]; [|apply ends_ready_of, ends_still; still_auto].
  apply ends_ready_observe. intros o Ho.
  apply ends_bind0; [apply ends_still; still_auto|]. intros _.
  apply ends_bind0; [apply ends_still; still_auto|]. intros _. exact (ends_operational o Ho).
Qed.

(** Waiting for the channels, then going on with some of [T0] left. *)
Lemma ends_channels_then {B} k d (K : option obs -> ST arm B) :
  ends k (K None) -> (forall o, ends_ready k (K (Some o))) ->
  ends (1 + k) (a ← st_get; x ← await_channels cfg (length (tape a)) d; K x).
Proof.
  intros HN HS n a Hn Hr. pose proof (ends_channels d n a ltac:(lia) Hr) as Hc.
  pose proof (channels_ready n d (length (tape a)) ltac:(lia) a) as Hrd.
  unfold ends_at, mbind, st_bind, st_get.
  destruct (await_channels cfg (length (tape a)) d a) as [a1 [[o|]|e|]] eqn:E.
  - destruct Hc as (_ & H2 & _). rewrite E in H2. simpl in H2.
    destruct (HS o n a1 ltac:(lia) (Hrd a1 o Hr eq_refl)) as (H4 & H5 & H6). split_and!; [done|by etrans|].
    destruct H6 as [?|[? ?]]; [by left|]. right. split; [lia|done].
  - by apply (ends_at_next 1 k (fun a => await_channels cfg (length (tape a)) d a) _ n a a1 None).
  - destruct Hc as (H1 & H2 & H3). rewrite E in H1, H2, H3. simpl in *. split_and!; [done|done|].
    destruct H3 as [?|[? ?]]; [by left|]. right. split; [lia|done].
  - destruct Hc as [Hc _]. by rewrite E in Hc.
Qed.

Lemma still_reopen o : still (run_then_reopen cfg o).
Proof.
  intros T a Ha. assert (Hop : still (open_source cfg o)) by (unfold open_source; still_auto).
  unfold run_then_reopen. destruct (Hop T a Ha) as [H1 H2].
  destruct (open_source cfg o a) as [a1 [[]|e|]]; simpl in *; [|done..].
  split; [done|]. destruct (o_native o) as [rc|]; [by destruct (rc =? 0)%Z|done].
Qed.

Lemma ends_native : ends 1 (run_native_rt cfg).
Proof.
  unfold run_native_rt. apply (ends_bind 1 0); [apply ends_observe|]. intros o. apply ends_still.
  pose proof (still_reopen o). still_auto. apply still_modify. intros a. apply stop_grip_tape.
Qed.

Lemma ends_start c k first rs : ends 2 (start_control cfg c k first rs).
Proof.
  unfold start_control. apply ends_bind0; [apply ends_still; still_auto|]. intros [s|f]; [|apply ends_still; still_auto].
  apply (ends_bind 1 1).
  - destruct (String.eqb (kind c) "qpos"); [|apply ends_still; still_auto].
    apply ends_bind0; [apply ends_still; still_auto|]. intros q. unfold bootstrap_movej.
    apply ends_bind0; [apply ends_still; still_auto|]. intros _.
    apply ends_bind0; [apply ends_still; still_auto|]. intros _. exact ends_movej.
  - intros [|]; cbn [negb]; [|apply ends_still; still_auto]. apply (ends_bind 1 0); [apply ends_observe|]. intros o.
    apply ends_still. still_auto.
Qed.

Lemma ends_setup : ends 1 (setup_grip cfg).
Proof.
  unfold setup_grip. apply ends_bind0; [apply ends_still; still_auto|]. intros [s|f]; [|apply ends_still; cbv zeta; still_auto].
  apply (ends_bind 1 0); [apply ends_observe|]. intros o. apply ends_still.
  destruct (setup_gripper _ _ _ _) as [[? ?] ?]. still_auto.
Qed.

(** From the first setpoint on. *)
Lemma ends_engage c k grip v : ends 5
  (fields ← st_lift (slice_streamed c v);
   o2 ← observe;
   rs ← st_lift (o_read o2);
   st_lift (preflight cfg c fields rs) ;;
   started ← start_control cfg c k fields rs;
   if negb started then mret None
   else
     g ← (if grip : bool then setup_grip cfg else mret false);
     _ ← st_lift (rate_limiter (ac_control_rate_hz cfg) f0);
     soft ← st_lift (deadman_ns (deadman_ms (channel c)));
     hard ← st_lift (deadman_ns (deadman_hard_ms (channel c)));
     a ← st_get;
     e ← control_loop cfg (length (tape a)) c k soft hard g;
     mret (Some e)).
Proof.
  apply ends_bind0; [apply ends_still; still_auto|]. intros fields.
  apply (ends_bind 1 4); [apply ends_observe|]. intros o2.
  apply ends_bind0; [apply ends_still; still_auto|]. intros rs.
  apply ends_bind0; [apply ends_still; still_auto|]. intros _.
  apply (ends_bind 2 2); [apply ends_start|]. intros [|]; cbn [negb]; [|apply ends_still; still_auto].
  apply (ends_bind 1 1); [destruct grip; [apply ends_setup|apply ends_still; still_auto]|]. intros g.
  do 3 (apply ends_bind0; [apply ends_still; still_auto|intros ?]).
  apply (ends_loop_bind 1 0 (fun n => control_loop cfg n c k _ _ g)); [apply ends_control_loop|].
  intros e. apply ends_still. still_auto.
Qed.

Lemma ends_ready_mono {A} k k' (m : ST arm A) : k <= k' -> ends_ready k m -> ends_ready k' m.
Proof.
  intros Hk Hm n a Hn Hr. destruct (Hm n a ltac:(lia) Hr) as (H1 & H2 & [H3|[H3 H4]]); split_and!; auto.
  right. split; [lia|done].
Qed.

(** [enter_control] if asked for. *)
Lemma ends_when_enter b : ends_ready 1 (when b enter_control).
Proof. destruct b; [apply ends_enter|]. apply ends_ready_of, ends_still. still_auto. Qed.

Lemma ends_body c k : ends_ready 11 (session_body cfg c k).
Proof.
  unfold session_body. apply ends_ready_still; [still_auto|]. intros a0. cbv zeta.
  apply (ends_ready_bind 1 10); [apply ends_when_enter|]. intros _.
  apply (ends_bind 1 9); [apply ends_observe|]. intros o0.
  apply (ends_channels_then 8); [apply ends_still; still_auto|]. intros o.
  do 2 (apply ends_ready_still; [still_auto|intros _]).
  destruct (uses_native_rt cfg a0 c).
  - apply (ends_ready_mono 2); [lia|]. apply ends_ready_of.
    apply (ends_loop_bind 1 1 (fun n => await_first_setpoint cfg n _)); [apply ends_first|].
    intros [v|]; [|apply ends_still; still_auto]. apply (ends_bind 1 0); [apply ends_native|]. intros _.
    apply ends_still. still_auto.
  - apply (ends_ready_bind 1 7); [apply ends_when_enter|]. intros _.
    apply (ends_bind 1 6); [apply ends_observe|]. intros o1.
    apply (ends_loop_bind 1 5 (fun n => await_first_setpoint cfg n _)); [apply ends_first|].
    intros [v|]; [apply ends_engage|apply ends_still; still_auto].
Qed.

Lemma session_cleanup_tape a : tape (session_cleanup a) = tape a.
Proof.
  unfold session_cleanup. cbv zeta.
  destruct (src (stop_grip (set_active false a))) as [[]|]; simpl; by rewrite stop_grip_tape.
Qed.

Lemma ends_session k control : ends_ready 11 (control_session cfg k control).
Proof.
  unfold control_session. cbv zeta. apply ends_ready_still; [still_auto|]. intros _ n a Hn Hr.
  apply ends_at_finally; [by apply ends_body|apply session_cleanup_tape].
Qed.

Lemma ends_session_loop fuel : forall n a, 12 <= n -> reserve n a -> length (tape a) <= fuel ->
  (session_loop cfg fuel a).2 ≠ Running.
Proof.
  induction fuel as [|fuel IH]; intros n a Hn Hr Hf; [apply reserve_length in Hr; lia|].
  destruct (reserve_cons n a ltac:(lia) Hr) as (o & t & E & Hx). simpl. unfold mbind, st_bind, observe. rewrite E.
  rewrite E in Hf. simpl in Hf. destruct (o_stop o) eqn:Es; [done|].
  assert (Hr1 : forall a', tape a' = t -> ready n a').
  { intros a' E'. destruct (Hx a' E') as [[_ H]|[[? _] _]]; [auto|congruence]. }
  destruct (o_msg o) as [m|].
  - assert (Hs : ends_at 11 (try_except (control_session cfg (ec_coeffs m) (ec_control m))
      (fun e => match e with TimeoutError => Some (mret None) | _ => None end)) n (set_tape t a)).
    { apply ends_at_except; [lia|apply ends_session; [lia|by apply Hr1]|].
      intros e m' He. destruct e; simplify_eq. apply ends_still. still_auto. }
    destruct Hs as (H1 & H2 & H3).
    destruct (try_except _ _ (set_tape t a)) as [a1 [x|e|]]; simpl in *; [|done|done].
    destruct H3 as [H3|[H3 H4]]; [eapply IH; [exact Hn|exact H3|apply suffix_length in H2; lia]|].
    (* only closing observations are left: the loop stops at the next one *)
    destruct fuel as [|fuel]; [apply suffix_length in H2; lia|]. simpl. unfold mbind, st_bind, observe.
    destruct (tape a1) as [|o1 t1]; simpl in *; [lia|]. apply Forall_cons in H4 as [[Hs1 _] _]. by rewrite Hs1.
  - destruct (still_telemetry o t (set_tape t a) eq_refl) as [H1 H2].
    destruct (write_telemetry cfg o (set_tape t a)) as [a1 [rs|e|]]; simpl in *; [|done|done].
    eapply IH; [exact Hn|by apply ready_reserve, Hr1|rewrite H1; lia].
Qed.

(** The body of [run] inside its [try], started with at least two observations of [T0]. *)
Lemma run_body_ends (queue : bool) coeffs a o1 o2 t1 t2 :
  tape a = (o1 :: o2 :: t1 ++ t2)%list -> (o2 :: t1) `suffix_of` T0 -> 12 <= length t2 -> Forall closing t2 ->
  ((o ← observe;
    open_source cfg o ;;
    if queue then (a ← st_get; session_loop cfg (length (tape a)))
    else (control_session cfg coeffs None ;; mret tt)) a).2 ≠ Running.
Proof.
  intros Et Hs Hl Hf. unfold mbind at 1, st_bind at 1, observe. rewrite Et.
  assert (Hop : still (open_source cfg o1)) by (unfold open_source; still_auto).
  unfold mbind at 1, st_bind at 1.
  destruct (Hop (o2 :: t1 ++ t2)%list (set_tape (o2 :: t1 ++ t2)%list a) eq_refl) as [H1 H2].
  destruct (open_source cfg o1 (set_tape (o2 :: t1 ++ t2)%list a)) as [a1 [[]|e|]]; simpl in *; [|done|done].
  assert (Hr1 : ready 12 a1) by (by exists o2, t1, t2).
  destruct queue; [eapply (ends_session_loop _ 12); [lia|by apply ready_reserve|done]|].
  destruct (ends_session coeffs None 12 a1 ltac:(lia) Hr1) as (H4 & _). unfold mbind, st_bind.
  by destruct (control_session cfg coeffs None a1) as [a2 [x|e|]].
Qed.
End live.

(** C15: An arm process ends when it is told to: whatever it was doing (idle, waiting for its
    channels or for the first setpoint, moving to the start pose, in the control loop, handing
    over to the native controller), once the stop event is set it ends, by returning or
    raising, and its robot connection is closed.  [u2] are twelve observations made after the
    stop event was set, and after two others were; if the robot is operational these are
    enough.  A robot that does not become operational can hold the process up, in
    [enter_control], which watches the robot and its time-out but not the stop event: then
    the clock has to be past that time-out of 30 s, counted from every earlier observation. *)
Theorem arm_shutdown_terminates (cfg : ArmCfg) (queue : bool) (coeffs : ControlCoeffsCfg) (a : arm)
    (t u1 u2 : list obs) (Htape : tape a = (t ++ u1 ++ u2)%list)
    (Hstop : Forall (fun o => o_stop o = true) (u1 ++ u2)) (Hu1 : 2 <= length u1) (Hu2 : 12 <= length u2)
    (Hoper : Forall (fun o => o_operational o = true \/
       forall o0, o0 ∈ t ++ u1 -> flt (fadd (o_now o0) CONNECT_TIMEOUT_S) (o_now o) = true) u2) :
  (arm_run cfg queue coeffs a).2 ≠ Running /\ src (arm_run cfg queue coeffs a).1 = None.
Proof.
  apply Forall_app in Hstop as [Hs1 Hs2].
  assert (HT0 : exists x o, (t ++ u1)%list = (x ++ [o])%list /\ o_stop o = true).
  { destruct (exists_last (l := u1)) as (x & o & ->); [by destruct u1; simpl in *; [lia|]|].
    exists (t ++ x)%list, o. split; [by rewrite app_assoc|]. by apply Forall_app in Hs1 as [_ [? _]%Forall_cons]. }
  assert (Hcl : Forall (closing (t ++ u1)) u2).
  { apply Forall_forall. intros o Ho. rewrite Forall_forall in Hs2, Hoper. split; auto. }
  assert (exists o1 o2 t1, (t ++ u1)%list = o1 :: o2 :: t1) as (o1 & o2 & t1 & Et).
  { destruct t as [|o1 [|o2 t]], u1 as [|o3 [|o4 u1]]; simpl in *; try lia; eauto. }
  pose proof (run_body_ends cfg (t ++ u1) HT0 queue coeffs a o1 o2 t1 u2) as Hb.
  unfold arm_run, try_finally.
  match type of Hb with _ -> _ -> _ -> _ -> ?r.2 ≠ _ => destruct r as [a1 [x|e|]] end; simpl in *; [by split|by split|].
  exfalso. apply Hb; [by rewrite Htape, app_assoc, Et| |done|done|done]. rewrite Et. by exists [o1].
Qed.

(** An arm told to enter control while the system is about to shut down. *)
Definition closing_obs : obs :=
  Obs true 5 f1 (Ok (demo_states [f0; f0])) (Ok [f1; f0; f1; f1]) false true true true []
    (Ok []) (Ok tt) empty_samples empty_samples empty_samples false true None (Ok tt) (Ok tt) (Ok 0%Z)
    (Ok tt) None.

Definition enter_obs : obs :=
  demo_obs (Some (Enter demo_coeffs None "collection"%string)).

Lemma arm_shutdown_terminates_witness :
  (arm_run demo_arm_cfg true demo_coeffs
     (demo_arm ([demo_obs None; enter_obs; demo_obs None] ++ replicate 2 closing_obs ++
                replicate 12 closing_obs)%list)).2 ≠ Running.
Proof.
  refine (proj1 (arm_shutdown_terminates demo_arm_cfg true demo_coeffs
    (demo_arm ([demo_obs None; enter_obs; demo_obs None] ++ replicate 2 closing_obs ++
               replicate 12 closing_obs)%list)
    [demo_obs None; enter_obs; demo_obs None] (replicate 2 closing_obs) (replicate 12 closing_obs) eq_refl _ _ _ _)).
  - repeat constructor.
  - simpl. lia.
  - simpl. lia.
  - apply Forall_forall. intros o Ho. apply elem_of_replicate in Ho as [-> _]. left. reflexivity.
Defined.
