(* ===== verification/FactrLaunch.v ===== *)
(** * The FACTR-Server process supervisor

    Models [interfaces/factr/launch.py].  Processes are identified by fresh numbers;
    which of them are alive, the clocks and whether a spawn succeeds are inputs of each
    operation.  Spawns and signals are logged in order. *)

From Stdlib Require Import String.
From S2P Require Import Prelude Float64.
Local Open Scope string_scope.
Local Open Scope nat_scope.

Inductive sup_state := OFF | COUNTDOWN | RUNNING | STOPPING.

#[export] Instance sup_state_eq_dec : EqDecision sup_state.
Proof. solve_decision. Defined.

Inductive unit_kind := Teleop | Api.

#[export] Instance unit_kind_eq_dec : EqDecision unit_kind.
Proof. solve_decision. Defined.

(** [_ServerUnit]. *)
Record ServerUnit := SUnit {
  u_name : string;
  u_kind : unit_kind;
  u_side : option string;
  u_proc : option nat;
  u_spawned_at : f64;
  u_announced_down : bool;
}.

Inductive signal := SIGINT | SIGTERM | SIGKILL.

#[export] Instance signal_eq_dec : EqDecision signal.
Proof. solve_decision. Defined.

Inductive sup_event :=
  | Spawned (name : string) (pid : nat)
  | Signalled (s : signal) (pid : nat).

Record LaunchCfg := Launch {
  lc_calib_delay_s : f64;
  lc_stop_grace_s : f64;
}.

Record supervisor := Sup {
  s_cfg : LaunchCfg;
  s_units : list ServerUnit;
  s_state : sup_state;
  s_deadline : option f64;
  s_countdown_ends : option f64;
  s_terminated : bool;
  s_next_pid : nat;
  s_log : list sup_event;
}.

(** What an operation sees: the monotonic and wall clocks, the live processes, and
    which units can be spawned. *)
Record fenv := FEnv {
  fe_now : f64;
  fe_wall : f64;
  fe_alive : nat -> bool;
  fe_spawn_ok : string -> bool;
}.

Definition API_RESPAWN_S : f64 := f_of_Z 10.
Definition TERM_GRACE_S : f64 := f_of_Z 2.
Definition SHUTDOWN_SLACK_S : f64 := f_of_Z 5.

Definition unit_alive (e : fenv) (u : ServerUnit) : bool :=
  match u_proc u with Some p => fe_alive e p | None => false end.

Definition set_proc (u : ServerUnit) (p : option nat) (t : f64) : ServerUnit :=
  SUnit (u_name u) (u_kind u) (u_side u) p t false.
Definition set_announced (u : ServerUnit) (b : bool) : ServerUnit :=
  SUnit (u_name u) (u_kind u) (u_side u) (u_proc u) (u_spawned_at u) b.

(** [FactrServerSupervisor.__init__]: [leaders] are the calibrated sides, when given. *)
Definition sup_init (cfg : LaunchCfg) (sides : list string) (leaders : option (list string)) :
    res supervisor :=
  if match leaders with
     | None => false
     | Some ls => existsb (fun s => negb (bool_decide (s ∈ ls))) sides
     end
  then Raise ValueError
  else Ok (Sup cfg
    (((fun s => SUnit ("teleop:" +:+ s) Teleop (Some s) None f0 false) <$> sides) ++
     [SUnit "api" Api None None f0 false])%list OFF None None false 0 []).

Definition set_units (s : supervisor) (us : list ServerUnit) : supervisor :=
  Sup (s_cfg s) us (s_state s) (s_deadline s) (s_countdown_ends s) (s_terminated s)
    (s_next_pid s) (s_log s).
Definition add_events (s : supervisor) (es : list sup_event) : supervisor :=
  Sup (s_cfg s) (s_units s) (s_state s) (s_deadline s) (s_countdown_ends s) (s_terminated s)
    (s_next_pid s) (s_log s ++ es)%list.

(** [_to_off]: forget the processes. *)
Definition to_off (s : supervisor) : supervisor :=
  Sup (s_cfg s) ((fun u => SUnit (u_name u) (u_kind u) (u_side u) None (u_spawned_at u) false) <$> s_units s)
    OFF None None false (s_next_pid s) (s_log s).

(** [_spawn_unit] on the unit at index [i]; the exception of a failed spawn propagates. *)
Definition spawn_unit (e : fenv) (s : supervisor) (i : nat) : supervisor * bool :=
  match s_units s !! i with
  | None => (s, true)
  | Some u =>
      if fe_spawn_ok e (u_name u) then
        (Sup (s_cfg s) (<[i := set_proc u (Some (s_next_pid s)) (fe_now e)]> (s_units s))
           (s_state s) (s_deadline s) (s_countdown_ends s) (s_terminated s) (S (s_next_pid s))
           (s_log s ++ [Spawned (u_name u) (s_next_pid s)])%list, true)
      else (s, false)
  end.

Fixpoint spawn_units (e : fenv) (s : supervisor) (idx : list nat) : supervisor * bool :=
  match idx with
  | [] => (s, true)
  | i :: idx =>
      match spawn_unit e s i with
      | (s', true) => spawn_units e s' idx
      | (s', false) => (s', false)
      end
  end.

(** [_spawn_all]. *)
Definition spawn_all (e : fenv) (s : supervisor) : supervisor * bool :=
  match spawn_units e s (List.seq 0 (length (s_units s))) with
  | (s', true) =>
      (Sup (s_cfg s') (s_units s') RUNNING None None (s_terminated s') (s_next_pid s') (s_log s'), true)
  | r => r
  end.

(** ** Commands *)

Inductive sup_reply :=
  | AlreadyCounting | StillStopping | AlreadyLaunched | CountdownArmed
  | AlreadyStarted | Started | Cancelled | NotRunning | AlreadyStopping | StoppingNow.

Definition request_start (e : fenv) (s : supervisor) : supervisor * (bool * sup_reply) :=
  match s_state s with
  | COUNTDOWN => (s, (false, AlreadyCounting))
  | STOPPING => (s, (false, StillStopping))
  | RUNNING => (s, (false, AlreadyLaunched))
  | OFF =>
      let delay := pmax f0 (lc_calib_delay_s (s_cfg s)) in
      (Sup (s_cfg s) (s_units s) COUNTDOWN (Some (fadd (fe_now e) delay))
         (Some (fadd (fe_wall e) delay)) (s_terminated s) (s_next_pid s) (s_log s),
       (true, CountdownArmed))
  end.

(** [start_now]: the second component is [None] when a spawn raised. *)
Definition start_now (e : fenv) (s : supervisor) : supervisor * option (bool * sup_reply) :=
  match s_state s with
  | COUNTDOWN | RUNNING | STOPPING => (s, Some (false, AlreadyStarted))
  | OFF =>
      match spawn_all e s with
      | (s', true) => (s', Some (true, Started))
      | (s', false) => (s', None)
      end
  end.

(** The signals [sig] to every live unit. *)
Definition signal_alive (e : fenv) (sg : signal) (us : list ServerUnit) : list sup_event :=
  us ≫= (fun u => match u_proc u with
                  | Some p => if fe_alive e p then [Signalled sg p] else []
                  | None => []
                  end).

Definition request_stop (e : fenv) (s : supervisor) : supervisor * (bool * sup_reply) :=
  match s_state s with
  | COUNTDOWN => (to_off s, (true, Cancelled))
  | OFF => (s, (false, NotRunning))
  | STOPPING => (s, (false, AlreadyStopping))
  | RUNNING =>
      (Sup (s_cfg s) (s_units s) STOPPING (Some (fadd (fe_now e) (lc_stop_grace_s (s_cfg s))))
         (s_countdown_ends s) false (s_next_pid s)
         (s_log s ++ signal_alive e SIGINT (s_units s))%list,
       (true, StoppingNow))
  end.

(** ** Supervision *)

(** [_tend_running], one unit; [false] when respawning the relay raised. *)
Definition tend_unit (e : fenv) (s : supervisor) (i : nat) : supervisor * bool :=
  match s_units s !! i with
  | None => (s, true)
  | Some u =>
      if unit_alive e u then (set_units s (<[i := set_announced u false]> (s_units s)), true)
      else
        let s := set_units s (<[i := set_announced u true]> (s_units s)) in
        if bool_decide (u_kind u = Api) && fle API_RESPAWN_S (fsub (fe_now e) (u_spawned_at u))
        then spawn_unit e s i
        else (s, true)
  end.

Fixpoint tend_units (e : fenv) (s : supervisor) (idx : list nat) : supervisor * bool :=
  match idx with
  | [] => (s, true)
  | i :: idx =>
      match tend_unit e s i with
      | (s', true) => tend_units e s' idx
      | (s', false) => (s', false)
      end
  end.

(** [_tend_stopping]. *)
Definition tend_stopping (e : fenv) (s : supervisor) : supervisor :=
  if negb (existsb (unit_alive e) (s_units s)) then to_off s
  else if match s_deadline s with Some d => flt (fe_now e) d | None => false end then s
  else if negb (s_terminated s) then
    Sup (s_cfg s) (s_units s) (s_state s) (Some (fadd (fe_now e) TERM_GRACE_S))
      (s_countdown_ends s) true (s_next_pid s)
      (s_log s ++ signal_alive e SIGTERM (s_units s))%list
  else to_off (add_events s (signal_alive e SIGKILL (s_units s))).

Definition tend (e : fenv) (s : supervisor) : supervisor * bool :=
  match s_state s with
  | OFF => (s, true)
  | COUNTDOWN =>
      if match s_deadline s with Some d => fle d (fe_now e) | None => true end
      then spawn_all e s else (s, true)
  | RUNNING => tend_units e s (List.seq 0 (length (s_units s)))
  | STOPPING => (tend_stopping e s, true)
  end.

(** [shutdown]: the waiting loop sees one environment per iteration; [None] means it is
    still waiting. *)
Fixpoint shutdown_wait (cap : f64) (envs : list fenv) (s : supervisor) : option supervisor :=
  match s_state s with
  | STOPPING =>
      match envs with
      | [] => None
      | e :: envs =>
          if flt (fe_now e) cap then shutdown_wait cap envs (tend e s).1
          else Some (to_off (add_events s (signal_alive e SIGKILL (s_units s))))
      end
  | _ => Some s
  end.

Definition shutdown (e : fenv) (envs : list fenv) (s : supervisor) : option supervisor :=
  match s_state s with
  | COUNTDOWN => Some (to_off s)
  | OFF => Some s
  | _ =>
      let s := match s_state s with RUNNING => (request_stop e s).1 | _ => s end in
      let cap := fadd (fadd (fadd (fe_now e) (lc_stop_grace_s (s_cfg s))) TERM_GRACE_S)
                   SHUTDOWN_SLACK_S in
      shutdown_wait cap envs s
  end.

(** ** Status *)

Inductive unit_status := UState (s : sup_state) | UDown.

Definition unit_state (e : fenv) (s : supervisor) (u : ServerUnit) : unit_status :=
  match s_state s with
  | OFF => UState OFF
  | COUNTDOWN => UState COUNTDOWN
  | st => if unit_alive e u then UState (match st with STOPPING => STOPPING | _ => RUNNING end)
          else UDown
  end.

Record sup_status := Status {
  ss_state : sup_state;
  ss_countdown_ends : option f64;
  ss_units : list (string * unit_status);
  ss_down : list string;
}.

(** [status]: the names down, in unit order (the source sorts them for display). *)
Definition status (e : fenv) (s : supervisor) : sup_status :=
  Status (s_state s)
    (match s_state s with COUNTDOWN => s_countdown_ends s | _ => None end)
    ((fun u => (u_name u, unit_state e s u)) <$> s_units s)
    (u_name <$> List.filter (fun u => bool_decide (s_state s = RUNNING) && negb (unit_alive e u))
       (s_units s)).

(** ** The supervisor under a sequence of operations *)

Inductive sup_op := OpStart | OpStartNow | OpStop | OpTend.

Definition run_op (op : sup_op) (e : fenv) (s : supervisor) : supervisor * bool :=
  match op with
  | OpStart => ((request_start e s).1, true)
  | OpStartNow => ((start_now e s).1, true)
  | OpStop => ((request_stop e s).1, true)
  | OpTend => tend e s
  end.

(** The daemon catches a failing boot start but not a failing [tend], which ends it. *)
Fixpoint run_ops (ops : list (sup_op * fenv)) (s : supervisor) : supervisor :=
  match ops with
  | [] => s
  | (op, e) :: ops =>
      match run_op op e s with
      | (s', true) => run_ops ops s'
      | (s', false) => s'
      end
  end.

(** ** Lemmas *)

(** Names and kinds never change. *)
Definition shape (s : supervisor) : list (string * unit_kind) :=
  (fun u => (u_name u, u_kind u)) <$> s_units s.

Lemma shape_insert (us : list ServerUnit) (i : nat) u u' :
  us !! i = Some u -> (u_name u', u_kind u') = (u_name u, u_kind u) ->
  (fun u => (u_name u, u_kind u)) <$> <[i := u']> us = (fun u => (u_name u, u_kind u)) <$> us.
Proof.
  intros Hu He. rewrite list_fmap_insert, He. apply list_insert_id. by rewrite list_lookup_fmap, Hu.
Qed.

Lemma shape_to_off s : shape (to_off s) = shape s.
Proof. unfold shape, to_off. simpl. rewrite <-list_fmap_compose. by apply list_fmap_ext. Qed.

Lemma shape_spawn_unit e s i : shape (spawn_unit e s i).1 = shape s.
Proof.
  unfold spawn_unit. destruct (s_units s !! i) as [u|] eqn:E; [|done].
  destruct (fe_spawn_ok e (u_name u)); [|done]. by apply (shape_insert _ _ u).
Qed.

Lemma shape_spawn_units e s idx : shape (spawn_units e s idx).1 = shape s.
Proof.
  revert s. induction idx as [|i idx IH]; intros s; simpl; [done|].
  pose proof (shape_spawn_unit e s i) as Hs. destruct (spawn_unit e s i) as [s' []]; simpl in *; [|done].
  by rewrite IH.
Qed.

Lemma shape_spawn_all e s : shape (spawn_all e s).1 = shape s.
Proof.
  unfold spawn_all. pose proof (shape_spawn_units e s (List.seq 0 (length (s_units s)))) as Hs.
  by destruct (spawn_units e s _) as [s' []].
Qed.

Lemma shape_tend_unit e s i : shape (tend_unit e s i).1 = shape s.
Proof.
  unfold tend_unit. destruct (s_units s !! i) as [u|] eqn:E; [|done].
  destruct (unit_alive e u); [by apply (shape_insert _ _ u)|].
  destruct (_ && _); [rewrite shape_spawn_unit|]; by apply (shape_insert _ _ u).
Qed.

Lemma shape_tend_units e s idx : shape (tend_units e s idx).1 = shape s.
Proof.
  revert s. induction idx as [|i idx IH]; intros s; simpl; [done|].
  pose proof (shape_tend_unit e s i) as Hs. destruct (tend_unit e s i) as [s' []]; simpl in *; [|done].
  by rewrite IH.
Qed.

Lemma shape_run_op op e s : shape (run_op op e s).1 = shape s.
Proof.
  destruct op; simpl.
  - unfold request_start. by destruct (s_state s).
  - unfold start_now. destruct (s_state s); try done. pose proof (shape_spawn_all e s).
    by destruct (spawn_all e s) as [s' []].
  - unfold request_stop. destruct (s_state s); try done. apply shape_to_off.
  - unfold tend. destruct (s_state s); [done| |apply shape_tend_units|].
    + destruct (match s_deadline s with Some _ => _ | None => _ end); [apply shape_spawn_all|done].
    + simpl. unfold tend_stopping. destruct (negb (existsb _ _)); [apply shape_to_off|].
      destruct (match s_deadline s with Some _ => _ | None => _ end); [done|].
      destruct (negb _); [done|]. by rewrite shape_to_off.
Qed.

(** Spawns of a name in a log. *)
Definition is_spawn (n : string) (ev : sup_event) : bool :=
  match ev with Spawned m _ => String.eqb m n | Signalled _ _ => false end.
Definition spawns (n : string) (l : list sup_event) : nat := length (List.filter (is_spawn n) l).

Lemma spawns_app n l k : spawns n (l ++ k)%list = spawns n l + spawns n k.
Proof. unfold spawns. by rewrite List.filter_app, length_app. Qed.

Lemma spawns_signals n e sg us : spawns n (signal_alive e sg us) = 0.
Proof.
  unfold signal_alive. induction us as [|u us IH]; [done|]. rewrite bind_cons, spawns_app, IH.
  destruct (u_proc u); [|done]. by destruct (fe_alive e _).
Qed.

Definition named (s : supervisor) (n : string) (i : nat) : Prop := exists k, shape s !! i = Some (n, k).

Lemma spawns_spawn_unit n e s i :
  spawns n (s_log (spawn_unit e s i).1) <= spawns n (s_log s) + 1 /\
  (~ named s n i -> spawns n (s_log (spawn_unit e s i).1) = spawns n (s_log s)).
Proof.
  unfold spawn_unit. destruct (s_units s !! i) as [u|] eqn:E; [|simpl; lia].
  destruct (fe_spawn_ok e (u_name u)); simpl; [|lia]. rewrite spawns_app.
  assert (spawns n [Spawned (u_name u) (s_next_pid s)] = if String.eqb (u_name u) n then 1 else 0)
    as -> by (unfold spawns; simpl; by destruct (String.eqb (u_name u) n)).
  destruct (String.eqb (u_name u) n) eqn:En; [|split; [lia|intros; lia]].
  split; [lia|]. intros Hn. exfalso. apply Hn. apply String.eqb_eq in En. exists (u_kind u).
  unfold shape. by rewrite list_lookup_fmap, E, <-En.
Qed.

Lemma spawns_spawn_units n e s idx :
  NoDup idx -> (forall i j, named s n i -> named s n j -> i = j) ->
  spawns n (s_log (spawn_units e s idx).1) <= spawns n (s_log s) + 1 /\
  ((forall i, i ∈ idx -> ~ named s n i) ->
   spawns n (s_log (spawn_units e s idx).1) = spawns n (s_log s)).
Proof.
  intros Hn Huniq. revert s Huniq. induction Hn as [|i idx Hi Hn IH]; intros s Huniq; simpl; [lia|].
  pose proof (spawns_spawn_unit n e s i) as [H1 H2]. pose proof (shape_spawn_unit e s i) as Hsh.
  assert (forall j, named (spawn_unit e s i).1 n j <-> named s n j) as Hnm
    by (intros j; unfold named; by rewrite Hsh).
  destruct (spawn_unit e s i) as [s' b] eqn:E; simpl in *.
  destruct b; simpl; [|split; [lia|intros Hf; apply H2; apply Hf; left]].
  destruct (IH s') as [I1 I2]; [intros a c; rewrite !Hnm; apply Huniq|]. split.
  - assert (named s n i \/ ~ named s n i) as Hd.
    { unfold named. destruct (shape s !! i) as [[m k]|] eqn:Es.
      - destruct (decide (m = n)) as [->|Hne]; [left; eauto|right; intros [k' Hk']; congruence].
      - right. by intros [k' Hk']. }
    destruct Hd as [Hd|Hd].
    + rewrite I2; [lia|]. intros j Hj. rewrite Hnm. intros Hj'.
      by rewrite (Huniq i j Hd Hj') in Hi.
    + rewrite H2 in I1 by done. lia.
  - intros Hf. rewrite I2, H2; [done|apply Hf; left|]. intros j Hj. rewrite Hnm. apply Hf. by right.
Qed.

Lemma spawns_tend_unit n e s i :
  (forall k, (n, k) ∈ shape s -> k = Teleop) ->
  spawns n (s_log (tend_unit e s i).1) = spawns n (s_log s).
Proof.
  intros Hk. unfold tend_unit. destruct (s_units s !! i) as [u|] eqn:E; [|done].
  destruct (unit_alive e u); [done|]. destruct (bool_decide _) eqn:Eb; simpl; [|done].
  apply bool_decide_eq_true in Eb. destruct (fle _ _); [|done].
  set (s1 := set_units s _).
  assert (shape s1 = shape s) as Hs1 by (by apply (shape_insert _ _ u)).
  rewrite (proj2 (spawns_spawn_unit n e s1 i)); [done|].
  unfold named. rewrite Hs1. intros [k Hk']. unfold shape in Hk'.
  rewrite list_lookup_fmap, E in Hk'. simpl in Hk'. injection Hk' as Hn _.
  assert (u_kind u = Teleop); [|congruence]. apply Hk. unfold shape.
  apply list_elem_of_fmap. exists u. split; [by rewrite Hn|by eapply list_elem_of_lookup_2].
Qed.

Lemma spawns_tend_units n e s idx :
  (forall k, (n, k) ∈ shape s -> k = Teleop) ->
  spawns n (s_log (tend_units e s idx).1) = spawns n (s_log s).
Proof.
  revert s. induction idx as [|i idx IH]; intros s Hk; simpl; [done|].
  pose proof (spawns_tend_unit n e s i Hk) as H1. pose proof (shape_tend_unit e s i) as H2.
  destruct (tend_unit e s i) as [s' []]; simpl in *; [|done]. rewrite IH; [done|by rewrite H2].
Qed.

Lemma spawns_spawn_all n e s :
  NoDup (shape s).*1 -> spawns n (s_log (spawn_all e s).1) <= spawns n (s_log s) + 1.
Proof.
  intros Hn. unfold spawn_all.
  destruct (spawns_spawn_units n e s (List.seq 0 (length (s_units s)))) as [H _].
  - apply NoDup_ListNoDup, List.seq_NoDup.
  - intros i j [k Hi] [k' Hj]. eapply NoDup_lookup; [exact Hn| |];
      rewrite list_lookup_fmap; [by rewrite Hi|by rewrite Hj].
  - by destruct (spawn_units e s _) as [s' []].
Qed.

(** Whether an operation is an operator's (or the daemon boot's) start. *)
Definition is_start (op : sup_op) : bool :=
  match op with OpStart | OpStartNow => true | OpStop | OpTend => false end.

Definition counting (s : supervisor) : nat := if decide (s_state s = COUNTDOWN) then 1 else 0.

Lemma state_spawn_units e s idx : s_state (spawn_units e s idx).1 = s_state s.
Proof.
  revert s. induction idx as [|i idx IH]; intros s; simpl; [done|].
  assert (s_state (spawn_unit e s i).1 = s_state s) as Hs.
  { unfold spawn_unit. destruct (s_units s !! i); [|done]. by destruct (fe_spawn_ok e _). }
  destruct (spawn_unit e s i) as [s' []]; simpl in *; [by rewrite IH|done].
Qed.

Lemma state_tend_units e s idx : s_state (tend_units e s idx).1 = s_state s.
Proof.
  revert s. induction idx as [|i idx IH]; intros s; simpl; [done|].
  assert (s_state (tend_unit e s i).1 = s_state s) as Hs.
  { unfold tend_unit. destruct (s_units s !! i) as [u|]; [|done].
    destruct (unit_alive e u); [done|]. destruct (_ && _); [|done].
    unfold spawn_unit. simpl. destruct (_ !! i); [|done]. by destruct (fe_spawn_ok e _). }
  destruct (tend_unit e s i) as [s' []]; simpl in *; [by rewrite IH|done].
Qed.

(** One operation spends at most one start. *)
Lemma run_op_budget n op e s s' b :
  NoDup (shape s).*1 -> (forall k, (n, k) ∈ shape s -> k = Teleop) ->
  run_op op e s = (s', b) ->
  spawns n (s_log s') + (if b then counting s' else 0) <=
    spawns n (s_log s) + counting s + (if is_start op then 1 else 0).
Proof.
  intros Hn Hk Hop. unfold counting. pose proof (spawns_spawn_all n e s Hn) as Hsp.
  destruct op; simpl in *.
  - injection Hop as <- <-. unfold request_start. destruct (s_state s) eqn:E; simpl; rewrite ?E; simpl; lia.
  - injection Hop as <- <-. unfold start_now.
    destruct (s_state s) eqn:E; simpl; rewrite ?E; simpl; try lia.
    unfold spawn_all in *. pose proof (state_spawn_units e s (List.seq 0 (length (s_units s)))) as Hst.
    destruct (spawn_units e s _) as [s2 []]; simpl in *; [|rewrite Hst, E; simpl]; lia.
  - injection Hop as <- <-. unfold request_stop.
    destruct (s_state s) eqn:E; simpl; rewrite ?E; simpl; try lia.
    rewrite spawns_app, spawns_signals. lia.
  - unfold tend in Hop. destruct (s_state s) eqn:E; simpl.
    + injection Hop as <- <-. rewrite E. simpl. lia.
    + destruct (match s_deadline s with Some _ => _ | None => _ end).
      * rewrite Hop in Hsp. simpl in Hsp. destruct b; [|lia].
        assert (s_state s' = RUNNING) as ->; [|simpl; lia].
        unfold spawn_all in Hop. by destruct (spawn_units e s _) as [s'' []]; injection Hop as <-.
      * injection Hop as <- <-. rewrite E. simpl. lia.
    + pose proof (spawns_tend_units n e s (List.seq 0 (length (s_units s))) Hk) as H1.
      pose proof (state_tend_units e s (List.seq 0 (length (s_units s)))) as H2.
      rewrite Hop in H1, H2. simpl in *. rewrite H2, E. simpl. destruct b; lia.
    + injection Hop as <- <-. unfold tend_stopping. destruct (negb (existsb _ _)); simpl; [lia|].
      destruct (match s_deadline s with Some _ => _ | None => _ end); [rewrite E; simpl; lia|].
      destruct (negb _); simpl.
      * rewrite E, spawns_app, spawns_signals. simpl. lia.
      * rewrite spawns_app, spawns_signals. lia.
Qed.

Lemma run_ops_budget n ops s :
  NoDup (shape s).*1 -> (forall k, (n, k) ∈ shape s -> k = Teleop) ->
  spawns n (s_log (run_ops ops s)) <=
    spawns n (s_log s) + counting s + length (List.filter (fun x => is_start x.1) ops).
Proof.
  revert s. induction ops as [|[op e] ops IH]; intros s Hn Hk; simpl; [lia|].
  destruct (run_op op e s) as [s' b] eqn:E.
  pose proof (run_op_budget n op e s s' b Hn Hk E) as Hb.
  pose proof (shape_run_op op e s) as Hs. rewrite E in Hs. simpl in Hs.
  destruct b; [specialize (IH s'); rewrite Hs in IH; specialize (IH Hn Hk)|];
    destruct (is_start op); simpl; lia.
Qed.

(** ** Stopping: lemmas *)

Lemma elem_signal_alive e sg us sg' p :
  Signalled sg' p ∈ signal_alive e sg us <->
  sg' = sg /\ exists u, u ∈ us /\ u_proc u = Some p /\ fe_alive e p = true.
Proof.
  unfold signal_alive. rewrite list_elem_of_bind. split.
  - intros (u & Hin & Hu). destruct (u_proc u) as [q|] eqn:Eq; [|by apply not_elem_of_nil in Hin].
    destruct (fe_alive e q) eqn:Ea; [|by apply not_elem_of_nil in Hin].
    apply list_elem_of_singleton in Hin. injection Hin as -> ->. eauto.
  - intros (-> & u & Hu & Hp & Ha). exists u. rewrite Hp, Ha. split; [left|done].
Qed.

(** Successive [tend]s. *)
Fixpoint run_tends (envs : list fenv) (s : supervisor) : supervisor :=
  match envs with [] => s | e :: envs => run_tends envs (tend e s).1 end.

(** Escalation from a state whose live processes were interrupted only touches those. *)
Lemma tend_stopping_escalates e0 e s :
  s_state s = STOPPING -> (forall p, fe_alive e p = true -> fe_alive e0 p = true) ->
  exists es, s_log (tend_stopping e s) = (s_log s ++ es)%list /\
    (forall sg p, Signalled sg p ∈ es ->
       exists u, u ∈ s_units s /\ u_proc u = Some p /\ fe_alive e0 p = true) /\
    (s_units (tend_stopping e s) = s_units s /\ s_state (tend_stopping e s) = STOPPING \/
     s_state (tend_stopping e s) = OFF).
Proof.
  intros Hs Ha. unfold tend_stopping. destruct (negb (existsb _ _)).
  - exists []. rewrite app_nil_r. split_and!; [done|set_solver|by right].
  - destruct (match s_deadline s with Some _ => _ | None => _ end).
    + exists []. rewrite app_nil_r. split_and!; [done|set_solver|by left].
    + destruct (negb _); simpl; eexists; (split; [done|]); split;
        [|by left| |by right]; intros sg p (_ & u & ? & ? & ?)%elem_signal_alive; eauto.
Qed.

Lemma run_tends_off envs s : s_state s = OFF -> run_tends envs s = s.
Proof.
  intros Hs. induction envs as [|e envs IH]; simpl; [done|]. unfold tend. by rewrite Hs.
Qed.

Lemma run_tends_escalates e0 envs s :
  s_state s = STOPPING ->
  Forall (fun e => forall p, fe_alive e p = true -> fe_alive e0 p = true) envs ->
  exists es, s_log (run_tends envs s) = (s_log s ++ es)%list /\
    forall sg p, Signalled sg p ∈ es ->
      exists u, u ∈ s_units s /\ u_proc u = Some p /\ fe_alive e0 p = true.
Proof.
  intros Hs Ha. revert s Hs. induction Ha as [|e envs He Ha IH]; intros s Hs; simpl.
  - exists []. rewrite app_nil_r. split; [done|set_solver].
  - unfold tend. rewrite Hs. simpl.
    destruct (tend_stopping_escalates e0 e s Hs He) as (es & Hl & Hes & [[Hu Hst]|Hst]).
    + destruct (IH _ Hst) as (es' & Hl' & Hes'). exists (es ++ es')%list.
      split; [by rewrite Hl', Hl, app_assoc|]. rewrite Hu in Hes'.
      intros sg p [?|?]%elem_of_app; eauto.
    + rewrite run_tends_off by done. eauto.
Qed.

(** ** Properties *)

(** C19: A leader is never re-energised behind the operator's back: whatever sequence of
    starts, stops and supervision beats happens, and however often its process dies, a
    teleop process is spawned at most once per explicit start. *)
Theorem teleop_spawns_bounded (cfg : LaunchCfg) (sides : list string)
    (leaders : option (list string)) (s : supervisor) (side : string)
    (ops : list (sup_op * fenv))
    (Hinit : sup_init cfg sides leaders = Ok s) (Hnodup : NoDup sides) :
  spawns ("teleop:" +:+ side) (s_log (run_ops ops s)) <=
    length (List.filter (fun x => is_start x.1) ops).
Proof.
  unfold sup_init in Hinit. destruct (match leaders with Some _ => _ | None => _ end); [done|].
  injection Hinit as <-.
  match goal with |- spawns ?n (s_log (run_ops ops ?S)) <= _ =>
    pose proof (run_ops_budget n ops S) as Hb end.
  unfold shape, counting in Hb. simpl in Hb.
  rewrite fmap_app, fmap_app, <-!list_fmap_compose in Hb. simpl in Hb.
  apply Hb; clear Hb.
  - apply list.NoDup_app. split_and!.
    + apply list.NoDup_fmap; [|done]. intros a b Hab. simpl in Hab. by injection Hab.
    + intros x (s0 & -> & _)%list_elem_of_fmap. simpl. intros H%list_elem_of_singleton. discriminate.
    + apply list.NoDup_singleton.
  - intros k [Hin|Hin]%elem_of_app.
    + apply list_elem_of_fmap in Hin as (s0 & Heq & _). simpl in Heq. by injection Heq.
    + simpl in Hin. apply list_elem_of_singleton in Hin. simpl in Hin. discriminate.
Qed.

Definition demo_env (now : Z) : fenv := FEnv (f_of_Z now) f0 (fun _ => false) (fun _ => true).

Lemma teleop_spawns_bounded_witness : exists s,
  sup_init (Launch f0 f1) ["left"; "right"] None = Ok s /\
  spawns "teleop:left" (s_log (run_ops [(OpStartNow, demo_env 0); (OpTend, demo_env 60);
    (OpTend, demo_env 120)] s)) <= 1.
Proof.
  eexists. split; [reflexivity|].
  apply (teleop_spawns_bounded (Launch f0 f1) ["left"; "right"] None _ "left"
    [(OpStartNow, demo_env 0); (OpTend, demo_env 60); (OpTend, demo_env 120)]); [reflexivity|].
  repeat constructor; set_solver.
Defined.

(** SIGINT always comes first, because it is the only stop that de-energises the
    servos: stopping a running group interrupts every live process at once, and every
    later escalation (SIGTERM, SIGKILL) hits only processes that were interrupted, as long
    as dead processes stay dead. *)
Theorem stop_interrupts_first (s : supervisor) (e0 : fenv) (envs : list fenv)
    (Hrun : s_state s = RUNNING)
    (Hdead : Forall (fun e => forall p, fe_alive e p = true -> fe_alive e0 p = true) envs) :
  let s1 := (request_stop e0 s).1 in
  (forall u p, u ∈ s_units s -> u_proc u = Some p -> fe_alive e0 p = true ->
     Signalled SIGINT p ∈ s_log s1) /\
  exists es, s_log (run_tends envs s1) = (s_log s1 ++ es)%list /\
    forall sg p, Signalled sg p ∈ es -> Signalled SIGINT p ∈ s_log s1.
Proof.
  intros s1. subst s1. unfold request_stop. rewrite Hrun. cbn [fst].
  assert (forall u p, u ∈ s_units s -> u_proc u = Some p -> fe_alive e0 p = true ->
    Signalled SIGINT p ∈ (s_log s ++ signal_alive e0 SIGINT (s_units s))%list) as Hint.
  { intros u p Hu Hp Ha. apply elem_of_app. right. apply elem_signal_alive. eauto. }
  split; [done|].
  match goal with |- exists es, s_log (run_tends envs ?S) = _ /\ _ =>
    destruct (run_tends_escalates e0 envs S eq_refl Hdead) as (es & Hl & Hes) end.
  exists es. split; [done|]. intros sg p Hp. destruct (Hes sg p Hp) as (u & Hu & Hpu & Ha).
  by apply (Hint u).
Qed.

Definition demo_running : supervisor :=
  Sup (Launch f0 f1) [SUnit "teleop:left" Teleop (Some "left") (Some 0) f0 false] RUNNING None None
    false 1 [Spawned "teleop:left" 0].
Definition demo_live (now : Z) : fenv := FEnv (f_of_Z now) f0 (fun _ => true) (fun _ => true).

Lemma stop_interrupts_first_witness :
  Signalled SIGINT 0 ∈ s_log (request_stop (demo_live 0) demo_running).1 /\
  exists es, s_log (run_tends [demo_live 0; demo_live 5; demo_live 9]
      (request_stop (demo_live 0) demo_running).1) =
    (s_log (request_stop (demo_live 0) demo_running).1 ++ es)%list.
Proof.
  destruct (stop_interrupts_first demo_running (demo_live 0)
    [demo_live 0; demo_live 5; demo_live 9]) as [H1 (es & H2 & _)].
  - reflexivity.
  - repeat constructor; done.
  - split; [|exists es; exact H2]. eapply H1; [left|reflexivity|reflexivity].
Defined.

(** Shutting the supervisor down always ends: once the clock passes the grace windows
    it is OFF and has let go of every process, from any state. *)
Theorem shutdown_reaches_off (s : supervisor) (e : fenv) (envs : list fenv)
    (Hclock : exists e', e' ∈ envs /\
       flt (fe_now e') (fadd (fadd (fadd (fe_now e) (lc_stop_grace_s (s_cfg s))) TERM_GRACE_S)
              SHUTDOWN_SLACK_S) = false) :
  exists s', shutdown e envs s = Some s' /\ s_state s' = OFF.
Proof.
  assert (forall cap envs s, s_state s = STOPPING ->
    (exists e', e' ∈ envs /\ flt (fe_now e') cap = false) ->
    exists s', shutdown_wait cap envs s = Some s' /\ s_state s' = OFF) as Hwait.
  { intros cap. induction envs0 as [|e1 es IH]; intros s0 Hs (e' & Hin & Hlt).
    - by apply not_elem_of_nil in Hin.
    - simpl. rewrite Hs. destruct (flt (fe_now e1) cap) eqn:E; [|eauto].
      apply elem_of_cons in Hin as [->|Hin]; [congruence|]. unfold tend. rewrite Hs. simpl.
      destruct (tend_stopping_escalates e1 e1 s0 Hs) as (_ & _ & _ & [[_ Hst]|Hst]); [done| |].
      + apply IH; eauto.
      + exists (tend_stopping e1 s0). split; [|done]. destruct es; simpl; by rewrite Hst. }
  unfold shutdown. destruct (s_state s) eqn:E; eauto.
  - apply Hwait; [unfold request_stop; by rewrite E|].
    unfold request_stop. rewrite E. exact Hclock.
Qed.

Lemma shutdown_reaches_off_witness : exists s',
  shutdown (demo_live 0) [demo_live 0; demo_live 100] demo_running = Some s' /\ s_state s' = OFF.
Proof.
  apply (shutdown_reaches_off demo_running (demo_live 0) [demo_live 0; demo_live 100]).
  exists (demo_live 100). split; [right; left|vm_compute; reflexivity].
Defined.

(** A failed launch can strand an energised leader: when the countdown fires and the
    second spawn raises, the first teleop is running but the state is still COUNTDOWN, and
    the daemon's teardown forgets it without any signal. *)
Theorem failed_spawn_strands_teleop :
  let u n := SUnit n Teleop None None f0 false in
  let s := Sup (Launch f0 f1) [u "teleop:left"; u "teleop:right"] COUNTDOWN (Some f0) None false 0 [] in
  let e := FEnv f1 f0 (fun _ => true) (fun n => String.eqb n "teleop:left") in
  exists s', tend e s = (s', false) /\ s_log s' = [Spawned "teleop:left" 0] /\
    s_state s' = COUNTDOWN /\ shutdown e [] s' = Some (to_off s') /\ s_log (to_off s') = s_log s'.
Proof. eexists. split_and!; reflexivity. Qed.
