(* ===== verification/System.v ===== *)
(** * The orchestrator: node selection, supervision and shutdown escalation

    Models [system.py].  A process is a number; the operating system's record of the
    processes that have exited, with their exit codes, is explicit, and what exits during
    each bounded wait is an input.  The list of slices of a cooperative wait is what the
    wait sees before its deadline: running past its end is reaching the deadline. *)

From Stdlib Require Import String Ascii.
From S2P Require Import Prelude Float64 Ring Streams Channel Process Source Arm FactrLaunch.
Local Open Scope string_scope.
Local Open Scope nat_scope.

(** ** Configuration *)

Record PolicyCfg := Policy {
  pc_kind : string;
  pc_host : string;
  pc_port : Z;
  pc_control : ControlCfg;
}.

Record FactrServerCfg := FServer { fs_host : string; fs_port : Z; fs_request_timeout_s : f64 }.

Record Config := MkConfig {
  cf_phase : string;                               (* runtime.phase *)
  cf_sim : bool;                                   (* runtime.sim *)
  cf_duration_s : option f64;                      (* runtime.duration_s *)
  cf_save_grace_s : f64;                           (* runtime.save_grace_s *)
  cf_arms : list (string * ArmCfg);
  cf_cameras : list (string * (string * CameraCfg)); (* with its backend *)
  cf_task_collection : ControlCoeffsCfg;           (* task.collection.coeffs *)
  cf_task_eval : ControlCoeffsCfg;                 (* task.eval.coeffs *)
  cf_skill : ControlCoeffsCfg;                     (* skill.coeffs *)
  cf_policy : PolicyCfg;
  cf_servers : list (string * FactrServerCfg);     (* factr.servers *)
  cf_leaders : list string;                        (* the sides of factr.leaders *)
  cf_max_age_s : f64;                              (* factr.max_age_s *)
  cf_launch_enabled : bool;                        (* factr.launch.enabled *)
  cf_teleop_modules : list string;                 (* the sides of factr.launch.teleop_modules *)
  cf_launch : LaunchCfg;
}.

Definition active_coeffs (c : Config) : res ControlCoeffsCfg :=
  if String.eqb (cf_phase c) "skill" then Ok (cf_skill c)
  else if String.eqb (cf_phase c) "collection" then Ok (cf_task_collection c)
  else if String.eqb (cf_phase c) "eval" then Ok (cf_task_eval c)
  else Raise ValueError.

(** ** Nodes *)

Inductive node :=
  | FlexivNode (side : string) (a : ArmCfg) (k : ControlCoeffsCfg) (session : bool)
  | ZedNode (name : string) (c : CameraCfg)
  | RealSenseNode (name : string) (c : CameraCfg)
  | FactrNode.

Definition node_name (n : node) : string :=
  match n with
  | FlexivNode side _ _ _ => "flexiv:" +:+ side
  | ZedNode name _ => "zed:" +:+ name
  | RealSenseNode name _ => "realsense:" +:+ name
  | FactrNode => "factr"
  end.

Definition lower_char (c : ascii) : ascii :=
  let n := Ascii.nat_of_ascii c in
  if (65 <=? n) && (n <=? 90) then Ascii.ascii_of_nat (n + 32) else c.
Fixpoint lower (s : string) : string :=
  match s with EmptyString => EmptyString | String c s => String (lower_char c) (lower s) end.

Definition camera_node (x : string * (string * CameraCfg)) : res node :=
  let '(name, (backend, cam)) := x in
  if String.eqb (lower backend) "zed" then Ok (ZedNode name cam)
  else if String.eqb (lower backend) "realsense" then Ok (RealSenseNode name cam)
  else Raise ValueError.

(** [session_sides] are the keys of [session_qs]. *)
Definition build_hardware_nodes (c : Config) (session_sides : list string) : res (list node) :=
  let? k := active_coeffs c in
  let? cams := mapM_res camera_node (cf_cameras c) in
  Ok (((fun x => FlexivNode x.1 x.2 k (bool_decide (x.1 ∈ session_sides))) <$> cf_arms c) ++ cams ++
      (if decide (cf_servers c = []) then [] else [FactrNode]))%list.

(** A consumer node: its process name and, for a skill, the sides it drives. *)
Record consumer := Consumer { cn_name : string; cn_drive_sides : option (list string) }.

(** The constructors of the three consumers: a skill is loaded from its file first, so its
    construction can fail. *)
Record consumers := Consumers {
  skill_node : Config -> res consumer;
  collection_node : Config -> res consumer;
  eval_node : Config -> res consumer;
}.

Definition build_consumer (b : consumers) (c : Config) : res consumer :=
  let? _ := active_coeffs c in
  if String.eqb (cf_phase c) "skill" then skill_node b c
  else if String.eqb (cf_phase c) "collection" then collection_node b c
  else eval_node b c.

(** ** Processes *)

Record os := Os {
  exited : list (nat * Z);            (* exit codes of the processes that are gone *)
  signals : list (signal * nat);      (* signals sent, in order *)
}.

Definition is_alive (o : os) (p : nat) : bool := negb (dmem p (exited o)).
Definition exitcode (o : os) (p : nat) : option Z := dget p (exited o).

Definition exit_one (l : list (nat * Z)) (x : nat * Z) : list (nat * Z) :=
  if dmem x.1 l then l else (l ++ [x])%list.

(** Processes exit on their own; an exit code never changes. *)
Definition exits (o : os) (new : list (nat * Z)) : os :=
  Os (foldl exit_one (exited o) new) (signals o).

Definition send (sg : signal) (p : nat) (o : os) : os := Os (exited o) (signals o ++ [(sg, p)])%list.

(** One slice of a cooperative wait: the clock before it, the [force] event, what exits
    during its [join(timeout=0.25)]. *)
Record wait_slice := Slice { sl_now : f64; sl_force : bool; sl_exits : list (nat * Z) }.

Record waits := Waits {
  w_start : f64;                      (* time.monotonic() at the start *)
  w_slices : list wait_slice;
  w_term : list (list (nat * Z));     (* exits during each join after SIGTERM *)
  w_kill : list (list (nat * Z));     (* exits during each join after SIGKILL *)
}.

Fixpoint join_coop (deadline : f64) (p : nat) (o : os) (sl : list wait_slice) :
    os * list wait_slice :=
  match sl with
  | [] => (o, [])
  | s :: rest =>
      if is_alive o p && flt (sl_now s) deadline then
        if sl_force s then (o, sl)
        else join_coop deadline p (exits o (sl_exits s)) rest
      else (o, sl)
  end.

Fixpoint join_coops (deadline : f64) (ps : list nat) (o : os) (sl : list wait_slice) :
    os * list wait_slice :=
  match ps with
  | [] => (o, sl)
  | p :: ps => let '(o', sl') := join_coop deadline p o sl in join_coops deadline ps o' sl'
  end.

Definition terminate_alive (ps : list nat) (o : os) : os :=
  foldl (fun o p => if is_alive o p then send SIGTERM p o else o) o ps.

Fixpoint join_each (ps : list nat) (o : os) (ws : list (list (nat * Z))) : os :=
  match ps with
  | [] => o
  | p :: ps =>
      if is_alive o p then join_each ps (exits o (default [] (head ws))) (tail ws)
      else join_each ps o ws
  end.

Fixpoint kill_each (ps : list nat) (o : os) (ws : list (list (nat * Z))) : os :=
  match ps with
  | [] => o
  | p :: ps =>
      if is_alive o p
      then kill_each ps (exits (send SIGKILL p o) (default [] (head ws))) (tail ws)
      else kill_each ps o ws
  end.

(** [_escalate]. *)
Definition escalate (ps : list nat) (cooperative_s : f64) (w : waits) (o : os) : os :=
  let deadline := fadd (w_start w) cooperative_s in
  let o := (join_coops deadline ps o (w_slices w)).1 in
  let o := terminate_alive ps o in
  let o := join_each ps o (w_term w) in
  kill_each ps o (w_kill w).

Definition RECORDING_NODE : string := "collection".
Definition HARDWARE_GRACE_S : f64 := f_of_Z 5.

(** [_shutdown] of named processes; [w] and [w'] are the two escalations' waits. *)
Definition find_saver (procs : list (string * nat)) : option nat := dget RECORDING_NODE procs.

Definition hardware_of (procs : list (string * nat)) : list nat :=
  List.filter (fun p => negb (bool_decide (find_saver procs = Some p))) procs.*2.

Definition shutdown (procs : list (string * nat)) (save_grace_s : f64) (w w' : waits) (o : os) : os :=
  let o := escalate (hardware_of procs) HARDWARE_GRACE_S w o in
  match find_saver procs with
  | Some p => escalate [p] save_grace_s w' o
  | None => o
  end.

(** ** [run_system] *)

Record sup_obs := SupObs { so_stop : bool; so_now : f64; so_exits : list (nat * Z) }.

Definition first_dead (o : os) (procs : list (string * nat)) : option (string * nat) :=
  List.find (fun p => negb (is_alive o p.2)) procs.

(** The supervise loop; [None]: still supervising.  The result carries the crashed node. *)
Fixpoint supervise (deadline : option f64) (procs : list (string * nat)) (o : os)
    (tape : list sup_obs) : option (os * option (string * Z)) :=
  match tape with
  | [] => None
  | ob :: tape =>
      let o := exits o (so_exits ob) in
      if so_stop ob then Some (o, None)
      else if match deadline with Some d => fle d (so_now ob) | None => false end then Some (o, None)
      else match first_dead o procs with
      | Some (name, p) =>
          Some (o, match exitcode o p with
                   | Some c => if (c =? 0)%Z then None else Some (name, c)
                   | None => None
                   end)
      | None => supervise deadline procs o tape
      end
  end.

Definition run_system (duration_s : option f64) (save_grace_s start : f64) (run_id : string)
    (procs : list (string * nat)) (tape : list sup_obs) (w w' : waits) (o : os) (m : world) :
    option (os * res world * option (string * Z)) :=
  let deadline := fadd start <$> duration_s in
  match supervise deadline procs o tape with
  | None => None
  | Some (o, crashed) =>
      let o := shutdown procs save_grace_s w w' o in
      Some (o, res_map fst (cleanup_run m run_id), crashed)
  end.

(** ** Lemmas on processes *)

Lemma exits_alive o new p : is_alive (exits o new) p = true -> is_alive o p = true.
Proof.
  unfold is_alive, exits. simpl. generalize (exited o). induction new as [|x new IH]; intros l; simpl; [done|].
  intros H%IH. unfold exit_one in H. destruct (dmem x.1 l); [done|].
  apply negb_true_iff, dmem_false in H. apply negb_true_iff, dmem_false.
  unfold dkeys in *. rewrite fmap_app in H. set_solver.
Qed.

(** [later o o'] : time has passed from [o] to [o'], no signal was sent. *)
Definition later (o o' : os) : Prop :=
  signals o' = signals o /\ forall p, is_alive o' p = true -> is_alive o p = true.

Lemma later_refl o : later o o.
Proof. done. Qed.
Lemma later_exits o new : later o (exits o new).
Proof. split; [done|]. intros p. apply exits_alive. Qed.
Lemma later_trans o1 o2 o3 : later o1 o2 -> later o2 o3 -> later o1 o3.
Proof. intros [H1 H2] [H3 H4]. split; [congruence|auto]. Qed.

#[export] Hint Resolve later_refl later_exits : dfc.

Lemma join_coop_later dl p sl : forall o, later o (join_coop dl p o sl).1.
Proof.
  induction sl as [|s sl IH]; intros o; simpl; [auto with dfc|].
  destruct (is_alive o p && flt (sl_now s) dl); [|auto with dfc].
  destruct (sl_force s); [auto with dfc|]. eapply later_trans; [apply later_exits|apply IH].
Qed.

Lemma join_coops_later dl ps : forall o sl, later o (join_coops dl ps o sl).1.
Proof.
  induction ps as [|p ps IH]; intros o sl; simpl; [auto with dfc|].
  pose proof (join_coop_later dl p sl o) as H. destruct (join_coop dl p o sl) as [o' sl'].
  eapply later_trans; [exact H|apply IH].
Qed.

Lemma join_each_later ps : forall o ws, later o (join_each ps o ws).
Proof.
  induction ps as [|p ps IH]; intros o ws; simpl; [auto with dfc|].
  destruct (is_alive o p); [|apply IH]. eapply later_trans; [apply later_exits|apply IH].
Qed.

Lemma terminate_alive_signals ps : forall o,
  exited (terminate_alive ps o) = exited o /\
  signals (terminate_alive ps o) =
    (signals o ++ ((fun p => (SIGTERM, p)) <$> List.filter (is_alive o) ps))%list.
Proof.
  unfold terminate_alive. induction ps as [|p ps IH]; intros o; simpl.
  - by rewrite app_nil_r.
  - destruct (is_alive o p) eqn:E; [|apply IH].
    destruct (IH (send SIGTERM p o)) as [-> ->]. simpl. split; [done|].
    by rewrite <-app_assoc.
Qed.

Lemma kill_each_signals ps : forall o ws, exists killed,
  signals (kill_each ps o ws) = (signals o ++ ((fun p => (SIGKILL, p)) <$> killed))%list /\
  (forall p, p ∈ killed -> p ∈ ps /\ is_alive o p = true) /\
  (forall p, p ∈ ps -> is_alive (kill_each ps o ws) p = true -> p ∈ killed) /\
  (forall p, is_alive (kill_each ps o ws) p = true -> is_alive o p = true).
Proof.
  induction ps as [|p ps IH]; intros o ws; simpl.
  - exists []. rewrite app_nil_r. set_solver.
  - destruct (is_alive o p) eqn:E.
    + destruct (IH (exits (send SIGKILL p o) (default [] (head ws))) (tail ws))
        as (k & H1 & H2 & H3 & H4).
      assert (Hmono : forall q, is_alive (exits (send SIGKILL p o) (default [] (head ws))) q = true ->
        is_alive o q = true) by (intros q Hq%exits_alive; done).
      exists (p :: k). split_and!.
      * rewrite H1. simpl. by rewrite <-app_assoc.
      * intros q [->|Hq]%elem_of_cons; [set_solver|]. destruct (H2 q Hq). split; [set_solver|auto].
      * intros q [->|Hq]%elem_of_cons Ha; [set_solver|]. apply elem_of_cons. auto.
      * auto.
    + destruct (IH o ws) as (k & H1 & H2 & H3 & H4). exists k. split_and!; [done|set_solver| |done].
      intros q [->|Hq]%elem_of_cons Ha; [|auto]. apply H4 in Ha. congruence.
Qed.

(** What the two last rounds of [escalate] do to a process: [o1] is the state when the
    cooperative window is over. *)
Lemma escalate_signals ps coop w o :
  let o1 := (join_coops (fadd (w_start w) coop) ps o (w_slices w)).1 in
  exists killed,
    signals (escalate ps coop w o) =
      (signals o ++ ((fun p => (SIGTERM, p)) <$> List.filter (is_alive o1) ps) ++
       ((fun p => (SIGKILL, p)) <$> killed))%list /\
    (forall p, p ∈ killed -> p ∈ ps /\ is_alive o1 p = true) /\
    (forall p, p ∈ ps -> is_alive (escalate ps coop w o) p = true -> p ∈ killed) /\
    (forall p, is_alive (escalate ps coop w o) p = true -> is_alive o1 p = true).
Proof.
  intros o1. unfold escalate.
  pose proof (join_coops_later (fadd (w_start w) coop) ps o (w_slices w)) as [Hs1 Ha1].
  fold o1 in Hs1, Ha1 |- *. destruct (terminate_alive_signals ps o1) as [He Hs2].
  pose proof (join_each_later ps (terminate_alive ps o1) (w_term w)) as [Hs3 Ha3].
  set (o3 := join_each ps (terminate_alive ps o1) (w_term w)) in *.
  assert (H31 : forall p, is_alive o3 p = true -> is_alive o1 p = true).
  { intros p Hp%Ha3. unfold is_alive in *. by rewrite He in Hp. }
  destruct (kill_each_signals ps o3 (w_kill w)) as (k & H1 & H2 & H3 & H4).
  exists k. split_and!.
  - by rewrite H1, Hs3, Hs2, Hs1, <-app_assoc.
  - intros p [? ?]%H2. auto.
  - done.
  - auto.
Qed.

(** Whoever is signalled outlived the cooperative window. *)
Lemma escalate_sent ps coop w o :
  exists sent, signals (escalate ps coop w o) = (signals o ++ sent)%list /\
    forall sg p, (sg, p) ∈ sent ->
      p ∈ ps /\ is_alive (join_coops (fadd (w_start w) coop) ps o (w_slices w)).1 p = true.
Proof.
  destruct (escalate_signals ps coop w o) as (k & H1 & H2 & _ & _). eexists. split; [exact H1|].
  intros sg p [(q & [= _ ->] & Hq)%list_elem_of_fmap|(q & [= _ ->] & Hq)%list_elem_of_fmap]%elem_of_app.
  - by rewrite list_elem_of_In, filter_In, <-list_elem_of_In in Hq.
  - by apply H2.
Qed.

(** A process still alive after its cooperative join was not abandoned early: the wait
    was forced, or its deadline had passed. *)
Lemma join_coop_deadline dl p sl : forall o,
  let '(o', sl') := join_coop dl p o sl in
  is_alive o' p = true ->
  match sl' with [] => True | s :: _ => sl_force s = true \/ flt (sl_now s) dl = false end.
Proof.
  induction sl as [|s sl IH]; intros o; simpl; [done|].
  destruct (is_alive o p) eqn:Ea, (flt (sl_now s) dl) eqn:El; simpl; [|by eauto|congruence|congruence].
  destruct (sl_force s) eqn:Ef; [by auto|apply IH].
Qed.

(** ** Properties *)

(** C20: The escalation leaves no orphan unanswered: after it, every process is gone or has
    been sent SIGTERM and later SIGKILL; nobody who unwound within the cooperative window
    is signalled, and a SIGKILL is always preceded by a SIGTERM to the same process. *)
Theorem escalate_no_orphan (ps : list nat) (coop : f64) (w : waits) (o : os) :
  let o1 := (join_coops (fadd (w_start w) coop) ps o (w_slices w)).1 in
  let o' := escalate ps coop w o in
  exists term kill,
    signals o' = (signals o ++ ((fun p => (SIGTERM, p)) <$> term) ++
                  ((fun p => (SIGKILL, p)) <$> kill))%list /\
    (forall p, p ∈ ps -> is_alive o' p = false \/ p ∈ term /\ p ∈ kill) /\
    (forall p, p ∈ term -> p ∈ ps /\ is_alive o1 p = true) /\
    (forall p, p ∈ kill -> p ∈ term).
Proof.
  intros o1 o'. destruct (escalate_signals ps coop w o) as (k & H1 & H2 & H3 & H4).
  fold o1 o' in H1, H2, H3, H4.
  assert (Hf : forall p, p ∈ List.filter (is_alive o1) ps <-> p ∈ ps /\ is_alive o1 p = true).
  { intros p. rewrite !list_elem_of_In, filter_In. done. }
  exists (List.filter (is_alive o1) ps), k. split_and!; [done| | |].
  - intros p Hp. destruct (is_alive o' p) eqn:E; [right|by left]. split; [|auto]. apply Hf. auto.
  - intros p. apply Hf.
  - intros p Hp. apply Hf. auto.
Qed.

(** Shutting down, the recording consumer is escalated last and on its own window: the
    signals are first those to the hardware, then those to it, and it is only signalled
    when it outlived its save grace, with the wait forced or the grace over. *)
Theorem shutdown_spares_saver (procs : list (string * nat)) (grace : f64) (w w' : waits) (o : os) :
  exists hw sv,
    signals (shutdown procs grace w w' o) = (signals o ++ hw ++ sv)%list /\
    (forall sg p, (sg, p) ∈ hw -> find_saver procs ≠ Some p) /\
    (forall sg p, (sg, p) ∈ sv ->
       find_saver procs = Some p /\
       let o1 := escalate (hardware_of procs) HARDWARE_GRACE_S w o in
       let '(o2, rest) := join_coop (fadd (w_start w') grace) p o1 (w_slices w') in
       is_alive o2 p = true /\
       match rest with
       | [] => True
       | s :: _ => sl_force s = true \/ flt (sl_now s) (fadd (w_start w') grace) = false
       end).
Proof.
  unfold shutdown. set (o1 := escalate (hardware_of procs) HARDWARE_GRACE_S w o).
  destruct (escalate_sent (hardware_of procs) HARDWARE_GRACE_S w o) as (hw & H1 & H2).
  fold o1 in H1. exists hw.
  assert (Hhw : forall sg p, (sg, p) ∈ hw -> find_saver procs ≠ Some p).
  { intros sg p [Hp _]%H2. unfold hardware_of in Hp. rewrite list_elem_of_In, filter_In in Hp.
    destruct Hp as [_ Hn]. by apply negb_true_iff, bool_decide_eq_false in Hn. }
  destruct (find_saver procs) as [s|] eqn:Es.
  - destruct (escalate_sent [s] grace w' o1) as (sv & H1' & H2'). exists sv.
    split_and!; [by rewrite H1', H1, <-app_assoc|exact Hhw|].
    intros sg p Hin. apply H2' in Hin as [->%list_elem_of_singleton Ha].
    pose proof (join_coop_deadline (fadd (w_start w') grace) s (w_slices w') o1) as Hd.
    simpl in Ha. destruct (join_coop (fadd (w_start w') grace) s o1 (w_slices w')) as [o2 rest] eqn:Ej.
    split; [done|]. simpl in Ha. split; [exact Ha|exact (Hd Ha)].
  - exists []. rewrite app_nil_r. split_and!; [exact H1|exact Hhw|].
    intros sg p Hin. by apply not_elem_of_nil in Hin.
Qed.

(** A one-shot run ends in every case with its processes shut down and the run's
    shared memory reclaimed; it reports a crash exactly when an iteration that found the
    stop event clear saw a first dead process with a non-zero exit code, and a node that
    raises the stop event before it dies goes unreported. *)
Theorem run_system_outcome (duration_s : option f64) (grace start : f64) (run_id : string)
    (procs : list (string * nat)) (tape : list sup_obs) (w w' : waits) (o o' : os)
    (m : world) (m' : res world) (crash : option (string * Z))
    (Hrun : run_system duration_s grace start run_id procs tape w w' o m = Some (o', m', crash)) :
  m' = res_map fst (cleanup_run m run_id) /\
  exists o1 ob, ob ∈ tape /\ o' = shutdown procs grace w w' o1 /\
    match crash with
    | Some (name, c) =>
        c ≠ 0%Z /\ so_stop ob = false /\
        exists p, first_dead o1 procs = Some (name, p) /\ exitcode o1 p = Some c
    | None =>
        so_stop ob = true \/ (exists s, duration_s = Some s /\ fle (fadd start s) (so_now ob) = true) \/
        exists name p, first_dead o1 procs = Some (name, p) /\ exitcode o1 p = Some 0%Z
    end.
Proof.
  unfold run_system in Hrun.
  destruct (supervise (fadd start <$> duration_s) procs o tape) as [[o1 cr]|] eqn:E; [|done].
  injection Hrun as <- <- <-. split; [done|]. revert o E.
  induction tape as [|ob tape IH]; intros o; simpl; [done|].
  destruct (so_stop ob) eqn:Es.
  { intros [= <- <-]. exists (exits o (so_exits ob)), ob. split_and!; [set_solver|done|auto]. }
  destruct (match fadd start <$> duration_s with Some d => fle d (so_now ob) | None => false end) eqn:Ed.
  { intros [= <- <-]. exists (exits o (so_exits ob)), ob. split_and!; [set_solver|done|].
    destruct duration_s; simpl in Ed; [eauto|done]. }
  destruct (first_dead (exits o (so_exits ob)) procs) as [[name p]|] eqn:Ef.
  - assert (exists c, exitcode (exits o (so_exits ob)) p = Some c) as [c Hc].
    { apply List.find_some in Ef as [_ Hd]. simpl in Hd.
      unfold is_alive, dmem in Hd. unfold exitcode. destruct (dget p _); [eauto|done]. }
    rewrite Hc. intros [= <- <-]. exists (exits o (so_exits ob)), ob.
    split_and!; [set_solver|done|]. destruct (c =? 0)%Z eqn:E0; [|split_and!; [lia|done|eauto]].
    apply Z.eqb_eq in E0 as ->. right. right. eauto.
  - intros H%IH. destruct H as (o2 & ob2 & ? & ? & ?). exists o2, ob2. split_and!; [set_solver|done|done].
Qed.

Definition demo_waits : waits := Waits f0 [] [] [].

Lemma run_system_outcome_witness :
  run_system None f1 f0 "r" [("flexiv:left", 0); ("collection", 1)]
    [SupObs false f0 []; SupObs false f1 [(1, 3%Z)]] demo_waits demo_waits (Os [] [])
    (World ∅ [] []) =
    Some (Os [(1, 3%Z)] [(SIGTERM, 0); (SIGKILL, 0)], Ok (World ∅ [] []), Some ("collection", 3%Z)) /\
  exists o1 p, first_dead o1 [("flexiv:left", 0); ("collection", 1)] = Some ("collection", p) /\
    exitcode o1 p = Some 3%Z.
Proof.
  split; [by vm_compute|].
  destruct (run_system_outcome None f1 f0 "r" [("flexiv:left", 0); ("collection", 1)]
    [SupObs false f0 []; SupObs false f1 [(1, 3%Z)]] demo_waits demo_waits (Os [] [])
    _ (World ∅ [] []) _ (Some ("collection", 3%Z)) eq_refl) as [_ (o1 & ob & _ & _ & _ & _ & p & Hf & Hc)].
  by exists o1, p.
Defined.

(** A node whose [run] raised sets the shared stop event before it exits: the supervising
    loop then ends without looking at the processes, and the crash is not reported. *)
Example crash_behind_stop_event :
  run_system None f1 f0 "r" [("collection", 1)] [SupObs true f1 [(1, 1%Z)]] demo_waits demo_waits
    (Os [] []) (World ∅ [] []) = Some (Os [(1, 1%Z)] [], Ok (World ∅ [] []), None).
Proof. by vm_compute. Qed.
