(* ===== verification/Session.v ===== *)
(** * The session daemon

    Models [session.py]: the command protocol, the run lifecycle with its start gates, the
    queued start, and the supervision of arms, cameras and the leader processes.

    The daemon's state holds the operating system's process table and the shared-memory
    world, both of which the other processes change between two operations; an operation
    reads the clocks and the outside world (configuration composition, network probes,
    HTTP answers) from an [env].  A clock is read once per operation. *)

From Stdlib Require Import String Ascii.
From stdpp Require Import pretty.
From S2P Require Import Prelude Float64 Ring Streams Orphans Channel Process Source Arm FactrLaunch System.
Local Open Scope string_scope.
Local Open Scope nat_scope.

(** ** Protocol helpers *)

Inductive phase := COLLECTION | EVAL | SKILL.
Inductive mode := VIEWING | InPhase (p : phase) | SAVING.

#[export] Instance phase_eq_dec : EqDecision phase.
Proof. solve_decision. Defined.
#[export] Instance mode_eq_dec : EqDecision mode.
Proof. solve_decision. Defined.

Definition phase_name (p : phase) : string :=
  match p with COLLECTION => "collection" | EVAL => "eval" | SKILL => "skill" end.

Definition cmd := list (string * jval).

(** [cmd.get(k)]. *)
Definition get (k : string) (c : cmd) : jval := default JNull (dget k c).

Definition phase_of (v : jval) : option phase :=
  match v with
  | JStr s => if String.eqb s "collection" then Some COLLECTION
              else if String.eqb s "eval" then Some EVAL
              else if String.eqb s "skill" then Some SKILL else None
  | _ => None
  end.

(** Python truth. *)
Definition truthy (v : jval) : bool :=
  match v with
  | JNull => false
  | JBool b => b
  | JInt z => negb (z =? 0)%Z
  | JFloat x => negb (feq x f0)
  | JStr s => negb (String.eqb s "")
  end.

Definition is_skill (v : jval) : bool := bool_decide (phase_of v = Some SKILL).

(** The task of a command: a skill run without one takes the default. *)
Definition task_of (c : cmd) : jval :=
  if is_skill (get "phase" c) && negb (truthy (get "task" c)) then JStr "default" else get "task" c.

(** A non-empty string of letters, digits and [._-].  Strings here are ASCII text: the code's
    [str.isalnum] also accepts the letters and digits of other scripts, which are outside the model. *)
Definition name_char (c : ascii) : bool := safe_char c || Ascii.eqb c "." || Ascii.eqb c "-".

Fixpoint all_name (s : string) : bool :=
  match s with EmptyString => true | String c s => name_char c && all_name s end.

Definition plain_name (v : jval) : bool :=
  match v with JStr s => negb (String.eqb s "") && all_name s | _ => false end.

(** [isinstance(port, int) and 0 < port < 65536]: a Python bool is an int. *)
Definition port_ok (v : jval) : bool :=
  match v with
  | JInt z => (0 <? z)%Z && (z <? 65536)%Z
  | JBool b => b
  | _ => false
  end.

Definition is_none (v : jval) : bool := bool_decide (v = JNull).

Inductive bad_field := BadPhase | BadSkill | NoSkill | BadPort | BadHost | BadPolicy.

Definition validate_start (c : cmd) : option bad_field :=
  let ph := get "phase" c in
  if bool_decide (phase_of ph = None) || negb (truthy (task_of c)) then Some BadPhase
  else
    let skill_name := get "skill" c in
    if negb (is_none skill_name) && negb (plain_name skill_name) then Some BadSkill
    else if is_skill ph && negb (truthy skill_name) then Some NoSkill
    else if negb (is_none (get "port" c)) && negb (port_ok (get "port" c)) then Some BadPort
    else if negb (is_none (get "host" c)) && negb (plain_name (get "host" c)) then Some BadHost
    else if negb (is_none (get "policy" c)) && negb (plain_name (get "policy" c)) then Some BadPolicy
    else None.

Inductive outcome_kind := Saved | Stopped | Finished | StoppedError | Crashed.

Definition classify_outcome (p : phase) (exitcode : option Z) (stopping : bool) : outcome_kind :=
  match exitcode with
  | Some 0%Z =>
      if stopping then match p with COLLECTION => Saved | _ => Stopped end else Finished
  | _ => if stopping then StoppedError else Crashed
  end.

(** [o.partition("=")]: what precedes the first [=], and what follows it. *)
Fixpoint partition_eq (s : string) : string * string :=
  match s with
  | EmptyString => ("", "")
  | String c s =>
      if Ascii.eqb c "=" then ("", s)
      else let '(k, v) := partition_eq s in (String c k, v)
  end.

(** [k.lstrip("+~")]. *)
Fixpoint lstrip (s : string) : string :=
  match s with
  | EmptyString => ""
  | String c s' => if Ascii.eqb c "+" || Ascii.eqb c "~" then lstrip s' else s
  end.

Definition key_of (o : string) : string := lstrip (partition_eq o).1.

Definition run_overrides (session_overrides : list string) (task phase : string)
    (extra : list string) : list string :=
  let pinned := ("task" :: "runtime.phase" :: (key_of <$> extra))%list in
  (List.filter (fun o => negb (bool_decide (key_of o ∈ pinned))) session_overrides ++
   [("task=" +:+ task); ("runtime.phase=" +:+ phase)] ++ extra)%list.

Fixpoint override_value (overrides : list string) (key : string) : option string :=
  match overrides with
  | [] => None
  | o :: os => if String.eqb (key_of o) key then Some (partition_eq o).2 else override_value os key
  end.

(** Why a follower must not be commanded. *)
Inductive blocker :=
  | StatusUnavailable
  | InvalidTelemetry
  | EStopPressed
  | Unrecognized (code : Z)
  | NotReady (name : string).

(** [op_name] is [flexivrdk.OperationalStatus(code).name], when the SDK knows the code. *)
Definition follower_control_blocker (op_name : Z -> option string) (status : option (list f64)) :
    option blocker :=
  match status with
  | None => Some StatusUnavailable
  | Some (c :: es :: _) =>
      if negb (is_finite c && is_finite es) then Some InvalidTelemetry
      else if fle (fdec 1 2) es then Some EStopPressed
      else
        let code := default 0%Z (f_trunc c) in
        match op_name code with
        | None => Some (Unrecognized code)
        | Some name =>
            if String.eqb name "READY" || String.eqb name "NOT_ENABLED" then None
            else Some (NotReady name)
        end
  | Some _ => Some StatusUnavailable
  end.

(** ** The daemon's state *)

Inductive message :=
  | MBadStart (f : bad_field)
  | MRunActive
  | MQueued (busy : list string)
  | MCamerasDown (booting_only : bool) (names : list string)
  | MArmsDown (booting_only : bool) (names : list string)
  | MStartFailed (x : exn)
  | MPolicyUnreachable (host : string) (port : Z)
  | MLeadersStale (sides : list string) (servers_off : bool)
  | MLeadersLimp (sides : list string)
  | MNoDriveableSide (skill : jval)
  | MCommandedDown (sides : list string)
  | MDryRun (blockers : list (string * blocker))
  | MSwitchStopping | MSwitchWaiting
  | MAbandoned | MCancelled | MNothingToStop
  | MUnknownArm (side : jval) | MReconnectDuringRun | MReconnectBusy | MReconnecting
  | MUnknownCamera (name : jval) | MRespawnDuringRun | MRespawning
  | MNotManaged | MLaunchDuringRun | MStopDuringCollection | MServers (r : sup_reply)
  | MSim | MNoServers
  | MGravComp (enable : bool) (ok failed : list string) (halted : bool)
  | MForceFeedback (enable : bool) (ok failed : list string)
  | MTeleopDied (names : list string)
  | MDroppedOut (side : string) | MArmDied (side : string)
  | MUnknownCommand (kind : jval).

Record run_outcome := RunOutcome {
  ro_seq : nat; ro_phase : phase; ro_task : jval; ro_kind : outcome_kind; ro_exitcode : option Z;
}.

(** [SessionState], less the constants of the session. *)
Record SessionState := MkState {
  ss_mode : mode;
  ss_task : option jval;
  ss_phase : option phase;
  ss_run_seq : nat;
  ss_started : option f64;
  ss_message : option message;
  ss_last : option run_outcome;
  ss_cameras_down : list string;
  ss_arms_down : list string;
  ss_pending : option (jval * jval * jval);
  ss_servers : option sup_status;
}.

Record ActiveRun := MkRun {
  r_phase : phase;
  r_task : jval;
  r_proc : nat;
  r_stop_event : bool;
  r_command_sides : list string;
  r_stopping : bool;
  r_watchdog_armed : bool;
  r_active_sides : list string;
}.

Record PendingStart := MkPending { p_cmd : cmd; p_deadline : option f64 }.

Record ArmUnit := MkArm {
  au_name : string;
  au_side : string;
  au_streams : list string;       (* the streams its node declares *)
  au_proc : nat;
  au_spawned_at : f64;
  au_announced_down : bool;
  au_reaped : bool;
}.

Record CameraUnit := MkCamera {
  cu_name : string;
  cu_cam_name : string;
  cu_views : list string;
  cu_proc : nat;
  cu_spawned_at : f64;
  cu_announced_down : bool;
  cu_stalled_since : option f64;
}.

Record FactrUnit := MkFactr {
  fu_streams : list string;
  fu_proc : nat;
  fu_spawned_at : f64;
  fu_announced_down : bool;
}.

Inductive devent :=
  | EvSpawn (name : string) (pid : nat)
  | EvStopEvent (pid : nat)                       (* the process's own stop event is set *)
  | EvEnter (side : string) (m : EnterControl)    (* put on the side's session queue *)
  | EvPost (side route : string).

Record daemon := MkDaemon {
  d_cfg : Config;
  d_overrides : list string;
  d_run_id : string;
  d_qs : list (string * list EnterControl);
  d_arms : list ArmUnit;
  d_cameras : list CameraUnit;
  d_factr : option FactrUnit;
  d_servers : option supervisor;
  d_run : option ActiveRun;
  d_pending : option PendingStart;
  d_state : SessionState;
  d_shutdown : bool;                (* _fatal == "shutdown" *)
  d_os : os;
  d_world : world;
  d_next : nat;
  d_file : option SessionState;     (* session.json *)
  d_log : list devent;
  d_left : list (string * list EnterControl);  (* what the last drain of a side's queue left in it *)
}.

(** What an operation sees of the outside. *)
Record env := Env {
  e_now : f64;                                  (* time.monotonic() *)
  e_wall : f64;                                 (* time.time() *)
  e_mono_ns : Z;                                (* time.monotonic_ns() *)
  e_compose : list string -> res Config;        (* Hydra *)
  e_consumers : consumers;
  e_tcp : string -> Z -> bool;                  (* a connection is accepted *)
  e_op_name : Z -> option string;               (* flexivrdk.OperationalStatus *)
  e_post : string -> string -> bool;            (* POST to a side's route answers 200 *)
  e_grav : string -> option bool;               (* a side's grav_comp_enabled, when it answers *)
  e_fenv : fenv;
  e_waits : waits;
  e_get : string -> nat -> bool;                (* the k-th get_nowait of a drain of a side's queue answers *)
  e_float_str : f64 -> string;                  (* str of a float *)
}.

Definition D := ST daemon.

(** *** Field updates *)

Definition with_state (f : SessionState -> SessionState) (d : daemon) : daemon :=
  MkDaemon (d_cfg d) (d_overrides d) (d_run_id d) (d_qs d) (d_arms d) (d_cameras d) (d_factr d)
    (d_servers d) (d_run d) (d_pending d) (f (d_state d)) (d_shutdown d) (d_os d) (d_world d)
    (d_next d) (d_file d) (d_log d) (d_left d).
Definition with_qs (f : list (string * list EnterControl) -> list (string * list EnterControl))
    (d : daemon) : daemon :=
  MkDaemon (d_cfg d) (d_overrides d) (d_run_id d) (f (d_qs d)) (d_arms d) (d_cameras d) (d_factr d)
    (d_servers d) (d_run d) (d_pending d) (d_state d) (d_shutdown d) (d_os d) (d_world d)
    (d_next d) (d_file d) (d_log d) (d_left d).
Definition with_arms (f : list ArmUnit -> list ArmUnit) (d : daemon) : daemon :=
  MkDaemon (d_cfg d) (d_overrides d) (d_run_id d) (d_qs d) (f (d_arms d)) (d_cameras d) (d_factr d)
    (d_servers d) (d_run d) (d_pending d) (d_state d) (d_shutdown d) (d_os d) (d_world d)
    (d_next d) (d_file d) (d_log d) (d_left d).
Definition with_cameras (f : list CameraUnit -> list CameraUnit) (d : daemon) : daemon :=
  MkDaemon (d_cfg d) (d_overrides d) (d_run_id d) (d_qs d) (d_arms d) (f (d_cameras d)) (d_factr d)
    (d_servers d) (d_run d) (d_pending d) (d_state d) (d_shutdown d) (d_os d) (d_world d)
    (d_next d) (d_file d) (d_log d) (d_left d).
Definition with_factr (u : option FactrUnit) (d : daemon) : daemon :=
  MkDaemon (d_cfg d) (d_overrides d) (d_run_id d) (d_qs d) (d_arms d) (d_cameras d) u
    (d_servers d) (d_run d) (d_pending d) (d_state d) (d_shutdown d) (d_os d) (d_world d)
    (d_next d) (d_file d) (d_log d) (d_left d).
Definition with_servers (u : option supervisor) (d : daemon) : daemon :=
  MkDaemon (d_cfg d) (d_overrides d) (d_run_id d) (d_qs d) (d_arms d) (d_cameras d) (d_factr d)
    u (d_run d) (d_pending d) (d_state d) (d_shutdown d) (d_os d) (d_world d)
    (d_next d) (d_file d) (d_log d) (d_left d).
Definition with_run (r : option ActiveRun) (d : daemon) : daemon :=
  MkDaemon (d_cfg d) (d_overrides d) (d_run_id d) (d_qs d) (d_arms d) (d_cameras d) (d_factr d)
    (d_servers d) r (d_pending d) (d_state d) (d_shutdown d) (d_os d) (d_world d)
    (d_next d) (d_file d) (d_log d) (d_left d).
Definition with_pending (p : option PendingStart) (d : daemon) : daemon :=
  MkDaemon (d_cfg d) (d_overrides d) (d_run_id d) (d_qs d) (d_arms d) (d_cameras d) (d_factr d)
    (d_servers d) (d_run d) p (d_state d) (d_shutdown d) (d_os d) (d_world d)
    (d_next d) (d_file d) (d_log d) (d_left d).
Definition with_os (f : os -> os) (d : daemon) : daemon :=
  MkDaemon (d_cfg d) (d_overrides d) (d_run_id d) (d_qs d) (d_arms d) (d_cameras d) (d_factr d)
    (d_servers d) (d_run d) (d_pending d) (d_state d) (d_shutdown d) (f (d_os d)) (d_world d)
    (d_next d) (d_file d) (d_log d) (d_left d).
Definition with_world (w : world) (d : daemon) : daemon :=
  MkDaemon (d_cfg d) (d_overrides d) (d_run_id d) (d_qs d) (d_arms d) (d_cameras d) (d_factr d)
    (d_servers d) (d_run d) (d_pending d) (d_state d) (d_shutdown d) (d_os d) w
    (d_next d) (d_file d) (d_log d) (d_left d).
Definition with_shutdown (d : daemon) : daemon :=
  MkDaemon (d_cfg d) (d_overrides d) (d_run_id d) (d_qs d) (d_arms d) (d_cameras d) (d_factr d)
    (d_servers d) (d_run d) (d_pending d) (d_state d) true (d_os d) (d_world d)
    (d_next d) (d_file d) (d_log d) (d_left d).
Definition with_file (f : option SessionState) (d : daemon) : daemon :=
  MkDaemon (d_cfg d) (d_overrides d) (d_run_id d) (d_qs d) (d_arms d) (d_cameras d) (d_factr d)
    (d_servers d) (d_run d) (d_pending d) (d_state d) (d_shutdown d) (d_os d) (d_world d)
    (d_next d) f (d_log d) (d_left d).
Definition with_event (x : devent) (d : daemon) : daemon :=
  MkDaemon (d_cfg d) (d_overrides d) (d_run_id d) (d_qs d) (d_arms d) (d_cameras d) (d_factr d)
    (d_servers d) (d_run d) (d_pending d) (d_state d) (d_shutdown d) (d_os d) (d_world d)
    (d_next d) (d_file d) (d_log d ++ [x])%list (d_left d).
Definition with_next (d : daemon) : daemon :=
  MkDaemon (d_cfg d) (d_overrides d) (d_run_id d) (d_qs d) (d_arms d) (d_cameras d) (d_factr d)
    (d_servers d) (d_run d) (d_pending d) (d_state d) (d_shutdown d) (d_os d) (d_world d)
    (S (d_next d)) (d_file d) (d_log d) (d_left d).
Definition with_left (f : list (string * list EnterControl) -> list (string * list EnterControl))
    (d : daemon) : daemon :=
  MkDaemon (d_cfg d) (d_overrides d) (d_run_id d) (d_qs d) (d_arms d) (d_cameras d) (d_factr d)
    (d_servers d) (d_run d) (d_pending d) (d_state d) (d_shutdown d) (d_os d) (d_world d)
    (d_next d) (d_file d) (d_log d) (f (d_left d)).

Definition set_mode (m : mode) (s : SessionState) : SessionState :=
  MkState m (ss_task s) (ss_phase s) (ss_run_seq s) (ss_started s) (ss_message s) (ss_last s)
    (ss_cameras_down s) (ss_arms_down s) (ss_pending s) (ss_servers s).
Definition set_msg (m : option message) (s : SessionState) : SessionState :=
  MkState (ss_mode s) (ss_task s) (ss_phase s) (ss_run_seq s) (ss_started s) m (ss_last s)
    (ss_cameras_down s) (ss_arms_down s) (ss_pending s) (ss_servers s).
Definition set_cameras_down (l : list string) (s : SessionState) : SessionState :=
  MkState (ss_mode s) (ss_task s) (ss_phase s) (ss_run_seq s) (ss_started s) (ss_message s)
    (ss_last s) l (ss_arms_down s) (ss_pending s) (ss_servers s).
Definition set_arms_down (l : list string) (s : SessionState) : SessionState :=
  MkState (ss_mode s) (ss_task s) (ss_phase s) (ss_run_seq s) (ss_started s) (ss_message s)
    (ss_last s) (ss_cameras_down s) l (ss_pending s) (ss_servers s).
Definition set_ss_pending (p : option (jval * jval * jval)) (s : SessionState) : SessionState :=
  MkState (ss_mode s) (ss_task s) (ss_phase s) (ss_run_seq s) (ss_started s) (ss_message s)
    (ss_last s) (ss_cameras_down s) (ss_arms_down s) p (ss_servers s).
Definition set_ss_servers (p : option sup_status) (s : SessionState) : SessionState :=
  MkState (ss_mode s) (ss_task s) (ss_phase s) (ss_run_seq s) (ss_started s) (ss_message s)
    (ss_last s) (ss_cameras_down s) (ss_arms_down s) (ss_pending s) p.

Definition set_message (m : message) : D unit := st_modify (with_state (set_msg (Some m))).
Definition reads {A} (f : daemon -> res A) : D A := fun d => st_lift (f d) d.

(** ** What the streams say *)

Definition streams_registry (d : daemon) : registry := Registry (d_run_id d) "streams".

(** The newest sample of a stream, or [None] when it is absent or cannot be read; only a
    failure of the registry lookup itself escapes. *)
Definition newest_sample (d : daemon) (name : string) : res (option (list f64 * Z)) :=
  let? entry := reg_get (d_world d) (streams_registry d) name in
  Ok (match entry with
      | None => None
      | Some en =>
          match (let? rd := reader_attach (d_world d) en in reader_last (d_world d) rd 1) with
          | Ok s => match newest s, newest_t_ns s with
                    | Some v, Some t => Some (v, t)
                    | _, _ => None
                    end
          | Raise _ => None
          end
      end).

Definition arm_status (d : daemon) (side : string) : res (option (list f64)) :=
  res_map (option_map fst) (newest_sample d (side +:+ "/status")).

(** [vec is not None and len(vec) >= 3 and vec[2] >= 0.5]. *)
Definition in_control (v : option (list f64)) : bool :=
  match v with
  | Some (_ :: _ :: c :: _) => fle (fdec 1 2) c
  | _ => false
  end.

Definition arms_still_in_control (d : daemon) : res (list string) :=
  let? l := mapM_res (fun side => res_map (fun v => (side, in_control v)) (arm_status d side))
              (dkeys (d_qs d)) in
  Ok (List.filter snd l).*1.

(** An age in nanoseconds against a bound in seconds times 1e9: Python compares an int
    with a float exactly. *)
Definition Z_lt_f (z : Z) (x : f64) : bool :=
  match x with
  | SpecFloat.S754_nan => false
  | SpecFloat.S754_infinity s => negb s
  | SpecFloat.S754_zero _ => (z <? 0)%Z
  | SpecFloat.S754_finite s m ex =>
      let v := if s then Z.neg m else Z.pos m in
      if (0 <=? ex)%Z then (z <? v * 2 ^ ex)%Z else (z * 2 ^ (- ex) <? v)%Z
  end.

Definition fresh_within (d : daemon) (now_ns : Z) (name : string) (bound : f64) : res bool :=
  res_map (fun s => match s with
                    | Some (_, t) => Z_lt_f (now_ns - t) (fmul bound (f_of_Z 1000000000))
                    | None => false
                    end) (newest_sample d name).

Definition ARM_FRESH_S : f64 := f_of_Z 20.
Definition CAMERA_FRESH_S : f64 := f_of_Z 5.
Definition ARM_RESPAWN_S : f64 := f_of_Z 20.
Definition ARM_BOOT_GRACE_S : f64 := f_of_Z 45.
Definition ARM_KILL_GRACE_S : f64 := f_of_Z 2.
Definition CAMERA_RESPAWN_S : f64 := f_of_Z 30.
Definition CAMERA_BOOT_GRACE_S : f64 := f_of_Z 20.
Definition CAMERA_KILL_GRACE_S : f64 := f_of_Z 2.
Definition PENDING_WINDDOWN_S : f64 := f_of_Z 20.

Definition arm_fresh (e : env) (u : ArmUnit) (d : daemon) : res bool :=
  fresh_within d (e_mono_ns e) (au_side u +:+ "/status") ARM_FRESH_S.

Definition camera_producing (e : env) (u : CameraUnit) (d : daemon) : res bool :=
  match cu_views u with
  | [] => Ok true
  | v :: _ => fresh_within d (e_mono_ns e) (camera_stream_name (cu_cam_name u) v) CAMERA_FRESH_S
  end.

Definition factr_stream_name (side : string) : string := "factr/" +:+ side.

Definition raw_factr_stream_name (side : string) : string := "factr/raw/" +:+ side.

Definition TELEMETRY_VECTOR_FIELDS : list string :=
  ["raw_q_rad"; "model_q_rad"; "model_dq_rad_s"; "home_error_rad"; "joint_offsets_rad";
   "model_signs"; "limit_torque_nm"; "null_torque_nm"; "gravity_torque_nm";
   "friction_torque_nm"; "force_feedback_torque_nm"; "applied_torque_nm"].
Definition TELEMETRY_SCALAR_FIELDS : list string :=
  ["stamp_monotonic_ns"; "grav_comp_gain"; "grav_comp_gain_target"; "force_feedback_gain";
   "force_feedback_gain_target"].

Definition factr_telemetry_stream_name (side field : string) : string :=
  "factr/telemetry/" +:+ side +:+ "/" +:+ field.

(** The names [FactrInterface.declare_streams] declares. *)
Definition factr_streams (sides : list string) : list string :=
  sides ≫= (fun side => ([factr_stream_name side; raw_factr_stream_name side] ++
    (factr_telemetry_stream_name side <$> TELEMETRY_VECTOR_FIELDS) ++
    (factr_telemetry_stream_name side <$> TELEMETRY_SCALAR_FIELDS))%list).

(** [_factr_stale_sides]. *)
Definition factr_stale_sides (e : env) (d : daemon) : res (list string) :=
  match d_factr d with
  | None => Ok []
  | Some _ =>
      let? l := mapM_res (fun side => res_map (fun b => (side, negb b))
                   (fresh_within d (e_mono_ns e) (factr_stream_name side) (cf_max_age_s (d_cfg d))))
                  (dkeys (cf_servers (d_cfg d))) in
      Ok (List.filter snd l).*1
  end.

(** [_factr_grav_comp_disabled_sides]: an unreachable server counts as disabled. *)
Definition factr_grav_comp_disabled_sides (e : env) (d : daemon) : list string :=
  if cf_sim (d_cfg d) then []
  else List.filter (fun side => negb (default false (e_grav e side))) (dkeys (cf_servers (d_cfg d))).

Fixpoint insert_sorted (x : string) (l : list string) : list string :=
  match l with
  | [] => [x]
  | y :: l' => if String.leb x y then x :: l else y :: insert_sorted x l'
  end.
Definition sorted (l : list string) : list string := foldr insert_sorted [] l.

(** [_down_sides]. *)
Definition down_sides (d : daemon) : list string :=
  au_side <$> List.filter (fun u => bool_decide (au_name u ∈ ss_arms_down (d_state d))) (d_arms d).

(** ** Starting a run *)

Definition set_control_enabled (b : bool) (a : ArmCfg) : ArmCfg :=
  ArmC (ac_side a) (ac_dof a) (ac_wrench_frame a) (ac_control a) b (ac_control_rate_hz a)
    (ac_safety_check a) (ac_tolerance a) (ac_attach_timeout_s a) (ac_eager_enable a)
    (ac_rt_streaming a) (ac_gripper a) (ac_streams a) (ac_sim a).

Definition set_arms (l : list (string * ArmCfg)) (c : Config) : Config :=
  MkConfig (cf_phase c) (cf_sim c) (cf_duration_s c) (cf_save_grace_s c) l (cf_cameras c)
    (cf_task_collection c) (cf_task_eval c) (cf_skill c) (cf_policy c) (cf_servers c)
    (cf_leaders c) (cf_max_age_s c) (cf_launch_enabled c) (cf_teleop_modules c) (cf_launch c).

(** [str(v)] as the f-strings of the overrides format it. *)
Definition py_str (e : env) (v : jval) : string :=
  match v with
  | JNull => "None"
  | JBool b => if b then "True" else "False"
  | JInt z => pretty z
  | JFloat x => e_float_str e x
  | JStr s => s
  end.

(** Gate on [state.cameras_down] and [state.arms_down]; a skill run is exempt. *)
Definition device_gate (d : daemon) (p : phase) : option message :=
  let s := d_state d in
  if bool_decide (ss_cameras_down s ≠ []) && bool_decide (p ≠ SKILL) then
    Some (MCamerasDown
      (forallb (fun u => negb (cu_announced_down u))
         (List.filter (fun u => bool_decide (cu_name u ∈ ss_cameras_down s)) (d_cameras d)))
      (ss_cameras_down s))
  else if bool_decide (ss_arms_down s ≠ []) && bool_decide (p ≠ SKILL) then
    Some (MArmsDown
      (forallb (fun u => negb (au_announced_down u))
         (List.filter (fun u => bool_decide (au_name u ∈ ss_arms_down s)) (d_arms d)))
      (ss_arms_down s))
  else None.

Definition extra_overrides (e : env) (c : cmd) (p : phase) : list string :=
  let opt (k o : string) := if is_none (get k c) then [] else [(o +:+ "=" +:+ py_str e (get k c))] in
  (opt "policy" "policy" ++ opt "host" "policy.host" ++ opt "port" "policy.port" ++
   (match p with SKILL => [("skill.name=" +:+ py_str e (get "skill" c))] | _ => [] end))%list.

(** The control-enabled followers of an eval that must not be commanded. *)
Definition blockers_of (e : env) (d : daemon) (c : Config) : res (list (string * blocker)) :=
  let? l := mapM_res (fun x : string * ArmCfg =>
              res_map (fun st => (x.1, follower_control_blocker (e_op_name e) st)) (arm_status d x.1))
            (List.filter (fun x => ac_control_enabled x.2) (cf_arms c)) in
  Ok (omap (fun x : string * option blocker => option_map (pair x.1) x.2) l).

(** The body of the [try]: the run's configuration (made observation-only by any unsafe
    follower), its coefficients and its consumer. *)
Record plan := MkPlan {
  pl_config : Config;
  pl_blockers : list (string * blocker);
  pl_coeffs : ControlCoeffsCfg;
  pl_consumer : consumer;
}.

Definition plan_run (e : env) (d : daemon) (c : cmd) (p : phase) : res plan :=
  let? cfg := e_compose e (run_overrides (d_overrides d) (py_str e (task_of c)) (phase_name p)
                             (extra_overrides e c p)) in
  let? bl := match p with EVAL => blockers_of e d cfg | _ => Ok [] end in
  let cfg := match bl with
             | [] => cfg
             | _ => set_arms ((fun x => (x.1, set_control_enabled false x.2)) <$> cf_arms cfg) cfg
             end in
  let? k := active_coeffs cfg in
  let? n := build_consumer (e_consumers e) cfg in
  Ok (MkPlan cfg bl k n).

(** [preflight_run]. *)
Definition preflight_run (e : env) (cfg : Config) (p : phase) : option message :=
  match p with
  | EVAL =>
      let pol := cf_policy cfg in
      if String.eqb (pc_kind pol) "remote" && negb (e_tcp e (pc_host pol) (pc_port pol))
      then Some (MPolicyUnreachable (pc_host pol) (pc_port pol)) else None
  | _ => None
  end.

(** The preflight together with the leader gates of a collection. *)
Definition refusal_of (e : env) (d : daemon) (cfg : Config) (p : phase) : res (option message) :=
  match preflight_run e cfg p, p with
  | Some m, _ => Ok (Some m)
  | None, COLLECTION =>
      let? stale := factr_stale_sides e d in
      Ok (match stale with
          | _ :: _ => Some (MLeadersStale stale
                        (match d_servers d with Some s => bool_decide (s_state s = OFF) | None => false end))
          | [] =>
              match factr_grav_comp_disabled_sides e d with
              | [] => None
              | limp => Some (MLeadersLimp limp)
              end
          end)
  | None, _ => Ok None
  end.

Definition commandable (d : daemon) (cfg : Config) : list string :=
  (List.filter (fun x => ac_control_enabled x.2 && dmem x.1 (d_qs d)) (cf_arms cfg)).*1.

Record launch := MkLaunch {
  l_phase : phase; l_label : jval; l_plan : plan; l_sides : list string;
}.

Inductive decision :=
  | Refuse (m : message)
  | Hold (busy : list string)
  | Launch_run (l : launch).

(** [_handle_start] up to the point where it acts. *)
Definition start_decision (e : env) (d : daemon) (c : cmd) : res decision :=
  match validate_start c, phase_of (get "phase" c) with
  | Some f, _ => Ok (Refuse (MBadStart f))
  | None, None => Ok (Refuse (MBadStart BadPhase))
  | None, Some p =>
      match d_run d with
      | Some _ => Ok (Refuse MRunActive)
      | None =>
          let? busy := arms_still_in_control d in
          match busy with
          | _ :: _ => Ok (Hold busy)
          | [] =>
              match device_gate d p with
              | Some m => Ok (Refuse m)
              | None =>
                  match plan_run e d c p with
                  | Raise x => Ok (Refuse (MStartFailed x))
                  | Ok pl =>
                      let cfg := pl_config pl in
                      let? refusal := refusal_of e d cfg p in
                      match refusal with
                      | Some m => Ok (Refuse m)
                      | None =>
                          let all := commandable d cfg in
                          let sides := match cn_drive_sides (pl_consumer pl) with
                                       | None => all
                                       | Some ds => List.filter (fun s => bool_decide (s ∈ ds)) all
                                       end in
                          if bool_decide (cn_drive_sides (pl_consumer pl) ≠ None) &&
                             bool_decide (sides = [])
                          then Ok (Refuse (MNoDriveableSide (get "skill" c)))
                          else
                            let down := List.filter (fun s => bool_decide (s ∈ sides)) (down_sides d) in
                            match down with
                            | _ :: _ => Ok (Refuse (MCommandedDown (sorted down)))
                            | [] =>
                                Ok (Launch_run (MkLaunch p
                                  (match p with SKILL => get "skill" c | _ => task_of c end) pl sides))
                            end
                      end
                  end
              end
          end
      end
  end.

Definition set_pending (c : cmd) (deadline : option f64) : D unit :=
  st_modify (fun d => with_state (set_ss_pending (Some (get "phase" c, get "task" c, get "skill" c)))
    (with_pending (Some (MkPending c deadline)) d)).

Definition clear_pending : D unit :=
  st_modify (fun d => with_state (set_ss_pending None) (with_pending None d)).

(** [session_qs[side].put(msg)]. *)
Definition enter_control (side : string) (m : EnterControl) (d : daemon) : daemon :=
  with_event (EvEnter side m)
    (with_qs (fun q => dset side (default [] (dget side q) ++ [m])%list q) d).

(** Start a process: its number. *)
Definition spawn (name : string) : D nat := fun d =>
  (with_event (EvSpawn name (d_next d)) (with_next d), Returned (d_next d)).

Definition launch_run (e : env) (l : launch) : D unit :=
  let pl := l_plan l in
  let msg := Enter (pl_coeffs pl) (Some (pc_control (cf_policy (pl_config pl)))) (phase_name (l_phase l)) in
  st_modify (fun d => foldl (fun d side => enter_control side msg d) d (l_sides l));;
  pid ← spawn (cn_name (pl_consumer pl));
  st_modify (fun d =>
    with_state (fun s => MkState (InPhase (l_phase l)) (Some (l_label l)) (Some (l_phase l))
        (S (ss_run_seq s)) (Some (e_wall e))
        (match pl_blockers pl with [] => None | bl => Some (MDryRun bl) end) (ss_last s)
        (ss_cameras_down s) (ss_arms_down s) (ss_pending s) (ss_servers s))
      (with_run (Some (MkRun (l_phase l) (l_label l) pid false (l_sides l) false false [])) d));;
  clear_pending.

Definition handle_start (e : env) (c : cmd) : D unit :=
  dec ← reads (fun d => start_decision e d c);
  match dec with
  | Refuse m => set_message m
  | Hold busy =>
      set_pending c (Some (fadd (e_now e) PENDING_WINDDOWN_S));;
      set_message (MQueued (sorted busy))
  | Launch_run l => launch_run e l
  end.

(** ** Stopping, switching, queued starts *)

Definition stop_run (r : ActiveRun) : ActiveRun :=
  MkRun (r_phase r) (r_task r) (r_proc r) true (r_command_sides r) true (r_watchdog_armed r)
    (r_active_sides r).

Definition handle_stop : D unit :=
  d ← st_get;
  let cancelled := match d_pending d with Some _ => true | None => false end in
  (if cancelled then clear_pending else mret tt);;
  match d_run d with
  | None => set_message (if cancelled then MCancelled else MNothingToStop)
  | Some r =>
      if r_stopping r then mret tt
      else st_modify (fun d => with_event (EvStopEvent (r_proc r))
             (with_state (set_mode SAVING) (with_run (Some (stop_run r)) d)))
  end.

Definition handle_switch (e : env) (c : cmd) : D unit :=
  match validate_start c with
  | Some f => set_message (MBadStart f)
  | None =>
      d ← st_get;
      match d_run d with
      | Some _ =>
          handle_stop;;
          set_pending c None;;
          set_message MSwitchStopping
      | None =>
          busy ← reads arms_still_in_control;
          match busy with
          | [] => handle_start e c
          | _ =>
              set_pending c (Some (fadd (e_now e) PENDING_WINDDOWN_S));;
              set_message MSwitchWaiting
          end
      end
  end.

Definition tend_pending (e : env) : D bool :=
  d ← st_get;
  match d_pending d, d_run d with
  | Some p, None =>
      let deadline := default (fadd (e_now e) PENDING_WINDDOWN_S) (p_deadline p) in
      st_modify (with_pending (Some (MkPending (p_cmd p) (Some deadline))));;
      busy ← reads arms_still_in_control;
      match busy with
      | _ :: _ =>
          if flt (e_now e) deadline then mret false
          else clear_pending;; set_message MAbandoned;; mret true
      | [] => clear_pending;; handle_start e (p_cmd p);; mret true
      end
  | _, _ => mret false
  end.

(** ** Replacing hardware nodes *)

(** [_sweep_node_streams]. *)
Definition sweep_stream (run_id : string) (w : world) (name : string) : world :=
  reg_remove (shm_unlink w (shm_name_for run_id name)) (Registry run_id "streams") name.

Definition sweep_node_streams (streams : list string) : D unit :=
  st_modify (fun d => with_world (foldl (sweep_stream (d_run_id d)) (d_world d) streams) d).

(** The loop of [get_nowait]: it takes messages out until the queue is empty or a get fails,
    on [queue.Empty] (a multiprocessing queue may raise it with messages still on their way)
    or on any other exception; what it leaves. *)
Fixpoint undrained {A} (answers : nat -> bool) (k : nat) (q : list A) : list A :=
  match q with
  | [] => []
  | _ :: q' => if answers k then undrained answers (S k) q' else q
  end.

(** [_drain_session_q]: a side without a queue has nothing to drain. *)
Definition drain_session_q (e : env) (side : string) : D unit :=
  st_modify (fun d =>
    match dget side (d_qs d) with
    | None => with_left (dset side []) d
    | Some q =>
        let rest := undrained (e_get e side) 0 q in
        with_left (dset side rest) (with_qs (dset side rest) d)
    end).

Definition set_arm (i : nat) (f : ArmUnit -> ArmUnit) : D unit :=
  st_modify (with_arms (alter f i)).
Definition set_camera (i : nat) (f : CameraUnit -> CameraUnit) : D unit :=
  st_modify (with_cameras (alter f i)).

Definition arm_flags (announced reaped : bool) (u : ArmUnit) : ArmUnit :=
  MkArm (au_name u) (au_side u) (au_streams u) (au_proc u) (au_spawned_at u) announced reaped.
Definition arm_fresh_proc (pid : nat) (now : f64) (u : ArmUnit) : ArmUnit :=
  MkArm (au_name u) (au_side u) (au_streams u) pid now (au_announced_down u) false.

Definition camera_flags (announced : bool) (stalled : option f64) (u : CameraUnit) : CameraUnit :=
  MkCamera (cu_name u) (cu_cam_name u) (cu_views u) (cu_proc u) (cu_spawned_at u) announced stalled.
Definition camera_fresh_proc (pid : nat) (now : f64) (u : CameraUnit) : CameraUnit :=
  MkCamera (cu_name u) (cu_cam_name u) (cu_views u) pid now (cu_announced_down u) None.

Definition camera_streams (u : CameraUnit) : list string :=
  camera_stream_name (cu_cam_name u) <$> cu_views u.

(** The stop event of a process is set, then it is escalated. *)
Definition kill_proc (e : env) (p : nat) (grace : f64) : D unit :=
  st_modify (fun d => with_os (escalate [p] grace (e_waits e)) (with_event (EvStopEvent p) d)).

Fixpoint find_index {A} (f : A -> bool) (l : list A) : option nat :=
  match l with
  | [] => None
  | x :: l => if f x then Some 0 else option_map S (find_index f l)
  end.

(** [unit = self._make_arm_unit(node)] and the fields taken over from it. *)
Definition respawn_arm (e : env) (i : nat) (name : string) : D unit :=
  pid ← spawn name;
  set_arm i (arm_fresh_proc pid (e_now e)).

Definition handle_reconnect_arm (e : env) (c : cmd) : D unit :=
  let side := get "side" c in
  d ← st_get;
  match (i ← find_index (fun u => bool_decide (JStr (au_side u) = side)) (d_arms d);
         pair i <$> d_arms d !! i) with
  | None => set_message (MUnknownArm side)
  | Some (i, u) =>
      match d_run d, d_pending d with
      | None, None =>
          busy ← reads arms_still_in_control;
          if bool_decide (au_side u ∈ busy) then set_message MReconnectBusy
          else
            (if is_alive (d_os d) (au_proc u) then kill_proc e (au_proc u) ARM_KILL_GRACE_S
             else mret tt);;
            sweep_node_streams (au_streams u);;
            drain_session_q e (au_side u);;
            respawn_arm e i (au_name u);;
            set_message MReconnecting
      | _, _ => set_message MReconnectDuringRun
      end
  end.

Definition respawn_camera (e : env) (i : nat) (u : CameraUnit) : D unit :=
  sweep_node_streams (camera_streams u);;
  pid ← spawn (cu_name u);
  set_camera i (camera_fresh_proc pid (e_now e)).

Definition handle_respawn_camera (e : env) (c : cmd) : D unit :=
  let name := get "name" c in
  d ← st_get;
  match (i ← find_index (fun u => bool_decide (JStr (cu_name u) = name)) (d_cameras d);
         pair i <$> d_cameras d !! i) with
  | None => set_message (MUnknownCamera name)
  | Some (i, u) =>
      if match d_run d with Some r => bool_decide (r_phase r ≠ SKILL) | None => false end
      then set_message MRespawnDuringRun
      else
        (if is_alive (d_os d) (cu_proc u) then kill_proc e (cu_proc u) CAMERA_KILL_GRACE_S
         else mret tt);;
        respawn_camera e i u;;
        set_message MRespawning
  end.

(** ** The leader servers *)

Definition put_servers (e : env) (s : supervisor) : D unit :=
  st_modify (fun d => with_state (set_ss_servers (Some (status (e_fenv e) s))) (with_servers (Some s) d)).

Definition handle_start_factr (e : env) : D unit :=
  d ← st_get;
  match d_servers d with
  | None => set_message MNotManaged
  | Some s =>
      match d_run d, d_pending d with
      | None, None =>
          let '(s', (_, r)) := request_start (e_fenv e) s in
          set_message (MServers r);; put_servers e s'
      | _, _ => set_message MLaunchDuringRun
      end
  end.

Definition in_collection (d : daemon) : bool :=
  match d_run d with Some r => bool_decide (r_phase r = COLLECTION) | None => false end.

Definition handle_stop_factr (e : env) : D unit :=
  d ← st_get;
  match d_servers d with
  | None => set_message MNotManaged
  | Some s =>
      if in_collection d then set_message MStopDuringCollection
      else
        let '(s', (_, r)) := request_stop (e_fenv e) s in
        set_message (MServers r);; put_servers e s'
  end.

(** The fan-out of a bodyless POST to every server; the sides that answered 200. *)
Definition route (verb what side : string) : string :=
  "/" +:+ verb +:+ "_" +:+ what +:+ "_" +:+ side.

Definition post_all (what verb : string) : D unit :=
  st_modify (fun d => foldl (fun d side => with_event (EvPost side (route verb what side)) d) d
                        (dkeys (cf_servers (d_cfg d)))).

Definition posted (e : env) (d : daemon) (what verb : string) (want : bool) : list string :=
  List.filter (fun side => eqb (e_post e side (route verb what side)) want)
    (dkeys (cf_servers (d_cfg d))).

Definition verb_of (enable : bool) : string := if enable then "enable" else "disable".

Definition handle_grav_comp (e : env) (enable : bool) : D unit :=
  d ← st_get;
  if cf_sim (d_cfg d) then set_message MSim
  else if bool_decide (cf_servers (d_cfg d) = []) then set_message MNoServers
  else
    post_all "grav_comp" (verb_of enable);;
    let halt := negb enable && in_collection d &&
                match d_run d with Some r => negb (r_stopping r) | None => false end in
    (if halt then handle_stop else mret tt);;
    set_message (MGravComp enable (posted e d "grav_comp" (verb_of enable) true)
                   (posted e d "grav_comp" (verb_of enable) false) halt).

Definition handle_force_feedback (e : env) (enable : bool) : D unit :=
  d ← st_get;
  if cf_sim (d_cfg d) then set_message MSim
  else if bool_decide (cf_servers (d_cfg d) = []) then set_message MNoServers
  else
    post_all "force_feedback" (verb_of enable);;
    set_message (MForceFeedback enable (posted e d "force_feedback" (verb_of enable) true)
                   (posted e d "force_feedback" (verb_of enable) false)).

#[export] Instance sup_status_eq_dec : EqDecision sup_status.
Proof. assert (EqDecision unit_status) by solve_decision. solve_decision. Defined.

(** [_tend_factr_servers]; a failing spawn ends the daemon. *)
Definition tend_factr_servers (e : env) : D bool :=
  d ← st_get;
  match d_servers d with
  | None => mret false
  | Some s =>
      let '(s', ok) := tend (e_fenv e) s in
      st_modify (with_servers (Some s'));;
      if negb ok then st_raise OtherError
      else
        let st := status (e_fenv e) s' in
        let prev := ss_servers (d_state d) in
        if bool_decide (Some st = prev) then mret false
        else
          let was_down := match prev with Some q => ss_down q | None => [] end in
          let teleops := sorted (List.filter (fun n => negb (bool_decide (n ∈ was_down)) &&
                                     String.prefix "teleop:" n) (ss_down st)) in
          (if in_collection d && match d_run d with Some r => negb (r_stopping r) | None => false end &&
              bool_decide (teleops ≠ [])
           then set_message (MTeleopDied teleops) else mret tt);;
          st_modify (with_state (set_ss_servers (Some st)));;
          mret true
  end.

(** ** Supervision *)

(** [_reap_consumer]. *)
Definition reap_consumer : D bool :=
  d ← st_get;
  match d_run d with
  | None => mret false
  | Some r =>
      if is_alive (d_os d) (r_proc r) then mret false
      else
        let code := exitcode (d_os d) (r_proc r) in
        let last := RunOutcome (ss_run_seq (d_state d)) (r_phase r) (r_task r)
                      (classify_outcome (r_phase r) code (r_stopping r)) code in
        st_modify (with_state (fun s => MkState (ss_mode s) (ss_task s) (ss_phase s) (ss_run_seq s)
          (ss_started s) (ss_message s) (Some last) (ss_cameras_down s) (ss_arms_down s)
          (ss_pending s) (ss_servers s)));;
        swept ← reads (fun d => cleanup_sub (d_world d) (d_run_id d) "control");
        st_modify (fun d => with_run None (with_state (fun s =>
          MkState VIEWING None None (ss_run_seq s) None (ss_message s) (ss_last s)
            (ss_cameras_down s) (ss_arms_down s) (ss_pending s) (ss_servers s))
          (with_world swept.1 d)));;
        mret true
  end.

Definition set_run (r : ActiveRun) : D unit := st_modify (with_run (Some r)).

Definition run_watch (armed : bool) (active : list string) (r : ActiveRun) : ActiveRun :=
  MkRun (r_phase r) (r_task r) (r_proc r) (r_stop_event r) (r_command_sides r) (r_stopping r)
    armed active.

(** The loop of [_watch_arm_dropout] over the commanded sides: the sides now known to be in
    control, or the side that dropped out.  The set [active_sides] is a list. *)
Fixpoint watch_sides (status : string -> res (option (list f64))) (armed : bool)
    (active : list string) (sides : list string) : res (list string * option string) :=
  match sides with
  | [] => Ok (active, None)
  | side :: sides =>
      let? v := status side in
      if in_control v then
        watch_sides status armed
          (if bool_decide (side ∈ active) then active else side :: active) sides
      else if armed && bool_decide (side ∈ active) then Ok (active, Some side)
      else watch_sides status armed active sides
  end.

Definition watch_arm_dropout : D unit :=
  d ← st_get;
  match d_run d with
  | None => mret tt
  | Some r =>
      if r_stopping r || bool_decide (r_command_sides r = []) then mret tt
      else
        w ← reads (fun d => watch_sides (arm_status d) (r_watchdog_armed r) (r_active_sides r)
                              (r_command_sides r));
        let '(active, dropped) := w in
        match dropped with
        | Some side =>
            set_run (run_watch (r_watchdog_armed r) active r);;
            set_message (MDroppedOut side);;
            handle_stop
        | None =>
            set_run (run_watch (r_watchdog_armed r ||
                       forallb (fun s => bool_decide (s ∈ active)) (r_command_sides r)) active r)
        end
  end.

(** [_reap_dead_arm]. *)
Definition reap_dead_arm (e : env) (i : nat) (u : ArmUnit) : D unit :=
  set_arm i (arm_flags true true);;
  sweep_node_streams (au_streams u);;
  drain_session_q e (au_side u);;
  d ← st_get;
  match d_run d with
  | None => mret tt
  | Some r =>
      if r_stopping r then mret tt
      else if bool_decide (au_side u ∈ r_command_sides r) || bool_decide (r_phase r ≠ SKILL) then
        set_message (MArmDied (au_side u));;
        handle_stop
      else mret tt
  end.

(** One arm of [_tend_arms]: its name when it is down. *)
Definition tend_arm (e : env) (i : nat) : D (list string) :=
  d ← st_get;
  match d_arms d !! i with
  | None => mret []
  | Some u =>
      if is_alive (d_os d) (au_proc u) then
        fresh ← reads (arm_fresh e u);
        if fresh || flt (fsub (e_now e) (au_spawned_at u)) ARM_BOOT_GRACE_S then
          (if (fresh : bool) then set_arm i (arm_flags false (au_reaped u)) else mret tt);;
          mret (if fresh then [] else [au_name u])
        else
          set_arm i (arm_flags true (au_reaped u));;
          mret [au_name u]
      else
        (if au_reaped u then mret tt else reap_dead_arm e i u);;
        d ← st_get;
        (if match d_run d with Some _ => true | None => false end ||
            flt (fsub (e_now e) (au_spawned_at u)) ARM_RESPAWN_S
         then mret tt
         else respawn_arm e i (au_name u));;
        mret [au_name u]
  end.

Fixpoint tend_each (f : nat -> D (list string)) (idx : list nat) : D (list string) :=
  match idx with
  | [] => mret []
  | i :: idx =>
      a ← f i;
      b ← tend_each f idx;
      mret (a ++ b)%list
  end.

Definition tend_arms (e : env) : D bool :=
  d ← st_get;
  down ← tend_each (tend_arm e) (List.seq 0 (length (d_arms d)));
  let down := sorted down in
  d ← st_get;
  if bool_decide (down = ss_arms_down (d_state d)) then mret false
  else st_modify (with_state (set_arms_down down));; mret true.

Definition tend_camera (e : env) (i : nat) : D (list string) :=
  d ← st_get;
  match d_cameras d !! i with
  | None => mret []
  | Some u =>
      let alive := is_alive (d_os d) (cu_proc u) in
      producing ← (if alive then reads (camera_producing e u) else mret false);
      if producing || (alive && flt (fsub (e_now e) (cu_spawned_at u)) CAMERA_BOOT_GRACE_S) then
        (if (producing : bool) then set_camera i (camera_flags false None) else mret tt);;
        mret (if producing then [] else [cu_name u])
      else
        let since := default (e_now e) (cu_stalled_since u) in
        set_camera i (camera_flags true (if alive then Some since else cu_stalled_since u));;
        (if alive then
           if flt (fsub (e_now e) since) CAMERA_RESPAWN_S then mret tt
           else kill_proc e (cu_proc u) CAMERA_KILL_GRACE_S;; respawn_camera e i u
         else if flt (fsub (e_now e) (cu_spawned_at u)) CAMERA_RESPAWN_S then mret tt
         else respawn_camera e i u);;
        mret [cu_name u]
  end.

Definition tend_cameras (e : env) : D bool :=
  d ← st_get;
  down ← tend_each (tend_camera e) (List.seq 0 (length (d_cameras d)));
  let down := sorted down in
  d ← st_get;
  if bool_decide (down = ss_cameras_down (d_state d)) then mret false
  else st_modify (with_state (set_cameras_down down));; mret true.

Definition tend_factr (e : env) : D unit :=
  d ← st_get;
  match d_factr d with
  | None => mret tt
  | Some u =>
      if is_alive (d_os d) (fu_proc u) then
        st_modify (with_factr (Some (MkFactr (fu_streams u) (fu_proc u) (fu_spawned_at u) false)))
      else
        st_modify (with_factr (Some (MkFactr (fu_streams u) (fu_proc u) (fu_spawned_at u) true)));;
        if flt (fsub (e_now e) (fu_spawned_at u)) CAMERA_RESPAWN_S then mret tt
        else
          sweep_node_streams (fu_streams u);;
          pid ← spawn "factr";
          st_modify (with_factr (Some (MkFactr (fu_streams u) pid (e_now e) true)))
  end.

(** ** The command loop *)

Definition handle_command (e : env) (c : cmd) : D unit :=
  let kind := get "cmd" c in
  let named s := bool_decide (kind = JStr s) in
  if named "start" then handle_start e c
  else if named "switch" then handle_switch e c
  else if named "stop" then handle_stop
  else if named "reconnect_arm" then handle_reconnect_arm e c
  else if named "respawn_camera" then handle_respawn_camera e c
  else if named "start_factr" then handle_start_factr e
  else if named "stop_factr" then handle_stop_factr e
  else if named "enable_grav_comp" then handle_grav_comp e true
  else if named "disable_grav_comp" then handle_grav_comp e false
  else if named "enable_force_feedback" then handle_force_feedback e true
  else if named "disable_force_feedback" then handle_force_feedback e false
  else set_message (MUnknownCommand kind).

(** [_drain_commands] on the commands the queue holds, each with what it sees. *)
Fixpoint drain_commands (changed : bool) (cmds : list (env * cmd)) : D bool :=
  match cmds with
  | [] => mret changed
  | (e, c) :: cmds =>
      if bool_decide (get "cmd" c = JStr "shutdown") then st_modify with_shutdown;; mret true
      else handle_command e c;; drain_commands true cmds
  end.

Definition STATUS_POLL_S : f64 := fdec 1 2.
Definition HEARTBEAT_S : f64 := f1.

(** The local clocks of [serve]. *)
Record clocks := Clocks {
  last_beat : f64; last_status_poll : f64; last_hw_tend : f64; last_orphan_sweep : f64;
}.

Definition ORPHAN_SWEEP_S : f64 := f_of_Z 300.

(** The periodic orphan sweep: tagged processes only, sparing this session's own run.  What it
    signals are processes of dead supervisors, which are not the daemon's. *)
Definition periodic_sweep (oe : Orphans.env) : D unit := fun d =>
  let r := Orphans.sweep oe [d_run_id d] false (Orphans.Host (d_world d) []) in
  (with_world (Orphans.h_world r.1) d, r.2).

Definition whenever (b : bool) (m : D bool) : D bool := if b then m else mret false.

(** One turn of the supervise loop; the result is the clocks, or [None] to leave it. *)
Definition serve_tick (cmds : list (env * cmd)) (e : env) (oe : Orphans.env) (k : clocks) : D (option clocks) :=
  c1 ← drain_commands false cmds;
  d ← st_get;
  if d_shutdown d then mret None
  else
    c2 ← reap_consumer;
    c3 ← tend_pending e;
    d ← st_get;
    let poll := match d_run d with
                | Some _ => fle STATUS_POLL_S (fsub (e_now e) (last_status_poll k))
                | None => false
                end in
    (if poll then watch_arm_dropout else mret tt);;
    let hw := fle f1 (fsub (e_now e) (last_hw_tend k)) in
    c4 ← whenever hw (tend_cameras e);
    c5 ← whenever hw (tend_arms e);
    (if hw then tend_factr e else mret tt);;
    c6 ← whenever hw (tend_factr_servers e);
    let due := fle ORPHAN_SWEEP_S (fsub (e_now e) (last_orphan_sweep k)) in
    (if due then periodic_sweep oe else mret tt);;
    let beat := (c1 || c2 || c3 || c4 || c5 || c6) || fle HEARTBEAT_S (fsub (e_now e) (last_beat k)) in
    (if beat then st_modify (fun d => with_file (Some (d_state d)) d) else mret tt);;
    mret (Some (Clocks (if beat then e_now e else last_beat k)
                  (if poll then e_now e else last_status_poll k)
                  (if hw then e_now e else last_hw_tend k)
                  (if due then e_now e else last_orphan_sweep k))).

(** [_teardown]; [w1] is the wait on the consumer, [w2] and [w3] those of the hardware
    shutdown, [fes] the supervisor's beats; [None] while that is still waiting. *)
Definition teardown (w1 w2 w3 : waits) (e : env) (fes : list fenv) (d : daemon) :
    option (daemon * res unit) :=
  let d := match d_run d with
           | None => d
           | Some r =>
               with_run None (with_os (escalate [r_proc r] (cf_save_grace_s (d_cfg d)) w1)
                 (with_event (EvStopEvent (r_proc r)) d))
           end in
  let d := match d_servers d with
           | Some s => with_servers (Some (request_stop (e_fenv e) s).1) d
           | None => d
           end in
  let procs := (((fun u => (au_name u, au_proc u)) <$> d_arms d) ++
                ((fun u => (cu_name u, cu_proc u)) <$> d_cameras d) ++
                (match d_factr d with Some u => [("factr", fu_proc u)] | None => [] end))%list in
  let d := foldl (fun d p => with_event (EvStopEvent p) d) d procs.*2 in
  let d := with_os (System.shutdown procs f0 w2 w3) d in
  match match d_servers d with
        | Some s => option_map Some (FactrLaunch.shutdown (e_fenv e) fes s)
        | None => Some None
        end with
  | None => None
  | Some s =>
      let d := with_servers s d in
      match cleanup_run (d_world d) (d_run_id d) with
      | Raise x => Some (d, Raise x)
      | Ok (w, _) => Some (with_file None (with_world w d), Ok tt)
      end
  end.

(** ** Boot *)

(** [_make_factr_server_supervisor]. *)
Definition make_supervisor (c : Config) : res (option supervisor) :=
  if negb (cf_launch_enabled c) || cf_sim c then Ok None
  else
    match List.filter (fun s => bool_decide (s ∈ cf_teleop_modules c)) (dkeys (cf_servers c)) with
    | [] => Ok None
    | sides => res_map Some (sup_init (cf_launch c) sides (Some (cf_leaders c)))
    end.

(** [SessionDaemon.__init__]. *)
Definition daemon_init (fe : fenv) (c : Config) (overrides : list string) (run_id : string)
    (next : nat) (o : os) (w : world) : res daemon :=
  let? sup := make_supervisor c in
  let qs := (fun x : string * ArmCfg => (x.1, [])) <$>
              List.filter (fun x => ac_control_enabled x.2) (cf_arms c) in
  Ok (MkDaemon c overrides run_id qs [] [] None sup None None
        (MkState VIEWING None None 0 None None None [] [] None (status fe <$> sup))
        false o w next None [] []).

Definition names_of (r : res (list StreamSpec)) : list string :=
  match r with Ok l => sp_name <$> l | Raise _ => [] end.

(** [start_hardware]: one unit per node, in the order of the nodes. *)
Definition boot_node (e : env) (n : node) : D unit :=
  match n with
  | FlexivNode side a _ _ =>
      pid ← spawn (node_name n);
      st_modify (with_arms (fun l => l ++ [MkArm (node_name n) side (names_of (declare_streams a)) pid
                                             (e_now e) false false])%list)
  | ZedNode name cam | RealSenseNode name cam =>
      pid ← spawn (node_name n);
      st_modify (with_cameras (fun l => l ++ [MkCamera (node_name n) name (cam_views cam) pid
                                                (e_now e) false None])%list)
  | FactrNode =>
      pid ← spawn (node_name n);
      st_modify (fun d => with_factr (Some (MkFactr
        (factr_streams (dkeys (cf_servers (d_cfg d)))) pid (e_now e) false)) d)
  end.

Fixpoint boot_nodes (e : env) (ns : list node) : D unit :=
  match ns with
  | [] => mret tt
  | n :: ns => boot_node e n;; boot_nodes e ns
  end.

Definition start_hardware (e : env) : D unit :=
  ns ← reads (fun d => build_hardware_nodes (d_cfg d) (dkeys (d_qs d)));
  boot_nodes e ns.

(** The prologue of [serve]: a failing automatic start of the leaders is survived. *)
Definition serve_start (e : env) : D unit :=
  start_hardware e;;
  d ← st_get;
  match d_servers d with
  | None => mret tt
  | Some s => put_servers e (start_now (e_fenv e) s).1
  end;;
  st_modify (fun d => with_file (Some (d_state d)) d).

(** ** Executions

    The operations of the daemon interleaved with what the other processes do: exit,
    change the shared memory, take a message off a session queue. *)
Inductive op :=
  | OpCommand (e : env) (c : cmd)
  | OpReap
  | OpPending (e : env)
  | OpWatch
  | OpTendCameras (e : env)
  | OpTendArms (e : env)
  | OpTendFactr (e : env)
  | OpTendServers (e : env)
  | OpWrite
  | OpExits (new : list (nat * Z))
  | OpWorld (w : world)
  | OpTake (side : string).

Definition run_op (o : op) : D unit :=
  match o with
  | OpCommand e c => handle_command e c
  | OpReap => reap_consumer;; mret tt
  | OpPending e => tend_pending e;; mret tt
  | OpWatch => watch_arm_dropout
  | OpTendCameras e => tend_cameras e;; mret tt
  | OpTendArms e => tend_arms e;; mret tt
  | OpTendFactr e => tend_factr e
  | OpTendServers e => tend_factr_servers e;; mret tt
  | OpWrite => st_modify (fun d => with_file (Some (d_state d)) d)
  | OpExits new => st_modify (with_os (fun o => exits o new))
  | OpWorld w => st_modify (with_world w)
  | OpTake side =>
      st_modify (with_qs (fun q => match dget side q with Some l => dset side (tail l) q | None => q end))
  end.

(** The states a booted daemon goes through; an operation that raises ends it. *)
Inductive reach : daemon -> Prop :=
  | reach_boot e c overrides run_id next o w d d' :
      daemon_init (e_fenv e) c overrides run_id next o w = Ok d ->
      NoDup (dkeys (cf_arms c)) ->
      serve_start e d = (d', Returned tt) ->
      reach d'
  | reach_op d d' o : reach d -> run_op o d = (d', Returned tt) -> reach d'.
