(* ===== verification/SessionSafety.v ===== *)
(** * Properties of the session daemon

    Invariants of every reachable state of [Session.v], the gates of a start, the
    switch, the watchdog and the supervision of arms. *)

From Stdlib Require Import String.
From S2P Require Import Prelude Float64 Ring Streams Orphans Channel Process Source Arm FactrLaunch System Session.
Local Open Scope string_scope.
Local Open Scope nat_scope.

(** ** Overrides *)

Lemma override_value_app l l' k :
  (forall o, o ∈ l -> key_of o ≠ k) -> override_value (l ++ l')%list k = override_value l' k.
Proof.
  induction l as [|o l IH]; intros H; simpl; [done|].
  rewrite (proj2 (String.eqb_neq _ _)) by (apply H; set_solver). apply IH. set_solver.
Qed.

Lemma override_value_filter f l l' k :
  (forall o, key_of o = k -> f o = true) ->
  override_value (List.filter f l ++ l')%list k =
    match override_value l k with Some v => Some v | None => override_value l' k end.
Proof.
  intros Hf. induction l as [|o l IH]; simpl; [done|].
  destruct (String.eqb (key_of o) k) eqn:E.
  - rewrite Hf by (by apply String.eqb_eq). simpl. by rewrite E.
  - destruct (f o); simpl; rewrite ?E; done.
Qed.

(** A run's overrides pin its own choices: whatever the session was launched with (with
    or without [+] or [~] markers), the task, the phase and each per-run extra resolve to
    the run's value, and every other key keeps the session's. *)
Theorem run_overrides_pin (session : list string) (task phase : string) (extra : list string)
    (Hfree : ("task" ∉ (key_of <$> extra)) /\ ("runtime.phase" ∉ (key_of <$> extra))) :
  let os := run_overrides session task phase extra in
  override_value os "task" = Some task /\
  override_value os "runtime.phase" = Some phase /\
  (forall k, k ∈ (key_of <$> extra) -> override_value os k = override_value extra k) /\
  (forall k, k ∉ ("task" :: "runtime.phase" :: (key_of <$> extra)) ->
     override_value os k = override_value session k).
Proof.
  destruct Hfree as [Ht Hp]. intros os. unfold os, run_overrides.
  set (pinned := ("task" :: "runtime.phase" :: (key_of <$> extra))%list).
  assert (Hdrop : forall k, k ∈ pinned -> forall o,
    o ∈ List.filter (fun o => negb (bool_decide (key_of o ∈ pinned))) session -> key_of o ≠ k).
  { intros k Hk o Ho Heq. subst k. rewrite list_elem_of_In, filter_In in Ho.
    destruct Ho as [_ Ho]. by apply negb_true_iff, bool_decide_eq_false in Ho. }
  assert (Hown : forall k, k ≠ "task" -> k ≠ "runtime.phase" ->
    forall o, o ∈ [("task=" +:+ task); ("runtime.phase=" +:+ phase)] -> key_of o ≠ k).
  { intros k H1 H2 o [->|[->|[]%not_elem_of_nil]%elem_of_cons]%elem_of_cons; unfold key_of; simpl; congruence. }
  split_and!.
  - rewrite override_value_app by (apply Hdrop; set_solver). done.
  - rewrite override_value_app by (apply Hdrop; set_solver). done.
  - intros k Hk. rewrite !override_value_app; [done|apply Hown; set_solver|apply Hdrop; set_solver].
  - intros k Hk. rewrite override_value_filter.
    2:{ intros o ->. by apply negb_true_iff, bool_decide_eq_false. }
    destruct (override_value session k) eqn:E; [done|].
    rewrite override_value_app by (apply Hown; set_solver).
    rewrite <-(app_nil_r extra), override_value_app; [done|].
    intros o Ho Heq. apply Hk. subst k. do 2 right. by apply list_elem_of_fmap_2.
Qed.

Lemma run_overrides_pin_witness :
  override_value (run_overrides ["rig=bimanual"; "+policy.port=8000"; "~task=old"] "pour" "eval"
    ["policy.port=9001"]) "policy.port" = Some "9001".
Proof.
  destruct (run_overrides_pin ["rig=bimanual"; "+policy.port=8000"; "~task=old"] "pour" "eval"
    ["policy.port=9001"]) as (_ & _ & H & _); [vm_compute; set_solver|].
  rewrite H; [reflexivity|vm_compute; set_solver].
Defined.

(** ** Reasoning about daemon operations

    [wp m Q d]: if [m] returns from [d], its result and final state satisfy [Q]. *)
Definition wp {A} (m : D A) (Q : A -> daemon -> Prop) (d : daemon) : Prop :=
  match m d with (d', Returned a) => Q a d' | _ => True end.

Section wp_rules.
Implicit Types d : daemon.

Lemma wp_ret {A} (a : A) Q d : Q a d -> wp (mret a) Q d.
Proof. done. Qed.
Lemma wp_bind {A B} (m : D A) (k : A -> D B) Q d :
  wp m (fun a d' => wp (k a) Q d') d -> wp (m ≫= k) Q d.
Proof. unfold wp, mbind, st_bind. by destruct (m d) as [d' [a|x|]]. Qed.
Lemma wp_get Q d : Q d d -> wp st_get Q d.
Proof. done. Qed.
Lemma wp_modify f Q d : Q tt (f d) -> wp (st_modify f) Q d.
Proof. done. Qed.
Lemma wp_reads {A} (f : daemon -> res A) Q d :
  (forall a, f d = Ok a -> Q a d) -> wp (reads f) Q d.
Proof. unfold wp, reads, st_lift. destruct (f d) eqn:E; simpl; auto. Qed.
Lemma wp_raise {A} x (Q : A -> daemon -> Prop) d : wp (st_raise x) Q d.
Proof. done. Qed.
Lemma wp_mono {A} (m : D A) (Q R : A -> daemon -> Prop) d :
  wp m Q d -> (forall a d', Q a d' -> R a d') -> wp m R d.
Proof. unfold wp. destruct (m d) as [d' [a|x|]]; auto. Qed.
Lemma wp_elim {A} (m : D A) Q d d' a : wp m Q d -> m d = (d', Returned a) -> Q a d'.
Proof. unfold wp. intros H E. by rewrite E in H. Qed.
End wp_rules.

Ltac wp_step :=
  lazymatch goal with
  | |- wp (mret _) _ _ => apply wp_ret
  | |- wp (_ ≫= _) _ _ => apply wp_bind
  | |- wp st_get _ _ => apply wp_get
  | |- wp (st_modify _) _ _ => apply wp_modify
  | |- wp (set_message _) _ _ => apply wp_modify
  | |- wp (set_arm _ _) _ _ => apply wp_modify
  | |- wp (set_camera _ _) _ _ => apply wp_modify
  | |- wp (set_run _) _ _ => apply wp_modify
  | |- wp clear_pending _ _ => apply wp_modify
  | |- wp (set_pending _ _) _ _ => apply wp_modify
  | |- wp (sweep_node_streams _) _ _ => apply wp_modify
  | |- wp (kill_proc _ _ _) _ _ => apply wp_modify
  | |- wp (put_servers _ _) _ _ => apply wp_modify
  | |- wp (spawn _) _ _ => red; simpl
  | |- wp (reads _) _ _ => apply wp_reads; intros ? ?
  | |- wp (st_raise _) _ _ => apply wp_raise
  | |- wp (if ?b then _ else _) _ _ => let E := fresh "E" in destruct b eqn:E
  | |- wp (match ?x with _ => _ end) _ _ => let E := fresh "E" in destruct x eqn:E
  | |- wp (let '(_, _) := ?x in _) _ _ => let E := fresh "E" in destruct x eqn:E
  end.
Ltac wp_go := repeat (cbn beta zeta; wp_step).

(** ** The invariant *)

(** [session.json] tells the truth about the run. *)
Definition mode_ok (d : daemon) : Prop :=
  let s := d_state d in
  match d_run d with
  | None => ss_mode s = VIEWING /\ ss_phase s = None /\ ss_task s = None
  | Some r =>
      ss_mode s = (if r_stopping r then SAVING else InPhase (r_phase r)) /\
      ss_phase s = Some (r_phase r) /\ ss_task s = Some (r_task r) /\ r_stop_event r = r_stopping r
  end.

Definition pending_ok (d : daemon) : Prop :=
  ss_pending (d_state d) =
    (fun p => (get "phase" (p_cmd p), get "task" (p_cmd p), get "skill" (p_cmd p))) <$> d_pending d.

Definition queue (d : daemon) (side : string) : list EnterControl := default [] (dget side (d_qs d)).

(** What the last drain of a side's queue could not take out of it. *)
Definition left_over (d : daemon) (side : string) : list EnterControl := default [] (dget side (d_left d)).

(** Nothing was queued for a side since its queue was drained: it holds no more than the tail
    of it that the drain left. *)
Definition cleared (d : daemon) (side : string) : Prop := queue d side `suffix_of` left_over d side.

(** An arm already reaped is dead, and nothing waits for it but what its drain left. *)
Definition reaped_idle (d : daemon) : Prop :=
  forall u, u ∈ d_arms d -> au_reaped u = true ->
    is_alive (d_os d) (au_proc u) = false /\ cleared d (au_side u).

(** ... and it is reported down, so no start can command it. *)
Definition reaped_down (d : daemon) : Prop :=
  forall u, u ∈ d_arms d -> au_reaped u = true -> au_name u ∈ ss_arms_down (d_state d).

Definition Inv (d : daemon) : Prop :=
  mode_ok d /\ pending_ok d /\ reaped_idle d /\ reaped_down d.

(** *** Facts the preservation proofs share *)

Lemma escalate_alive ps coop w o p : is_alive (escalate ps coop w o) p = true -> is_alive o p = true.
Proof.
  intros H. destruct (escalate_signals ps coop w o) as (_ & _ & _ & _ & H4).
  by apply H4, join_coops_later in H.
Qed.

Lemma alive_false_mono o o' p :
  (is_alive o' p = true -> is_alive o p = true) -> is_alive o p = false -> is_alive o' p = false.
Proof. destruct (is_alive o' p); [|done]. intros H Hp. rewrite H in Hp; done. Qed.

Lemma elem_of_insert_sorted x y l : y ∈ insert_sorted x l <-> y = x \/ y ∈ l.
Proof.
  induction l as [|z l IH]; simpl; [set_solver|]. destruct (String.leb x z); set_solver.
Qed.

Lemma elem_of_sorted y l : y ∈ sorted l <-> y ∈ l.
Proof. induction l as [|x l IH]; simpl; [done|]. rewrite elem_of_insert_sorted. set_solver. Qed.

(** Putting messages on queues of other sides leaves a side's queue alone. *)
Lemma enter_controls_queue sides m d side :
  side ∉ sides -> queue (foldl (fun d s => enter_control s m d) d sides) side = queue d side.
Proof.
  revert d. induction sides as [|s sides IH]; intros d Hn; simpl; [done|].
  apply not_elem_of_cons in Hn as [Hne Hn]. rewrite IH by done.
  unfold queue, enter_control. simpl. by rewrite dget_dset_ne.
Qed.

(** Everything else is untouched. *)
Lemma enter_controls_frame sides m d :
  let d' := foldl (fun d s => enter_control s m d) d sides in
  d_arms d' = d_arms d /\ d_os d' = d_os d /\ d_state d' = d_state d /\ d_run d' = d_run d /\
  d_pending d' = d_pending d /\ d_cfg d' = d_cfg d /\ d_left d' = d_left d /\
  d_log d' = (d_log d ++ ((fun s => EvEnter s m) <$> sides))%list.
Proof.
  revert d. induction sides as [|s sides IH]; intros d; simpl; [by rewrite app_nil_r|].
  destruct (IH (enter_control s m d)) as (-> & -> & -> & -> & -> & -> & -> & ->). simpl.
  split_and!; [done..|]. by rewrite <-app_assoc.
Qed.

Lemma filter_mem (l l' : list string) x :
  x ∈ List.filter (fun s => bool_decide (s ∈ l')) l <-> x ∈ l /\ x ∈ l'.
Proof. by rewrite list_elem_of_In, filter_In, <-list_elem_of_In, bool_decide_eq_true. Qed.

(** The sides a consumer is given: all that can be commanded, or the taught ones. *)
Definition narrowed (d : daemon) (pl : plan) : list string :=
  match cn_drive_sides (pl_consumer pl) with
  | None => commandable d (pl_config pl)
  | Some ds => List.filter (fun s => bool_decide (s ∈ ds)) (commandable d (pl_config pl))
  end.

(** A start that launches has passed every gate. *)
Lemma launch_inv e d c l :
  start_decision e d c = Ok (Launch_run l) ->
  validate_start c = None /\ phase_of (get "phase" c) = Some (l_phase l) /\ d_run d = None /\
  arms_still_in_control d = Ok [] /\ device_gate d (l_phase l) = None /\
  plan_run e d c (l_phase l) = Ok (l_plan l) /\
  refusal_of e d (pl_config (l_plan l)) (l_phase l) = Ok None /\
  l_sides l = narrowed d (l_plan l) /\
  (forall ds, cn_drive_sides (pl_consumer (l_plan l)) = Some ds -> l_sides l ≠ []) /\
  (forall side, side ∈ l_sides l -> side ∉ down_sides d).
Proof.
  unfold start_decision. intros H.
  destruct (validate_start c) eqn:E1; [done|]. destruct (phase_of (get "phase" c)) as [p|] eqn:E2; [|done].
  destruct (d_run d) eqn:E3; [done|]. res_simp. destruct a as [|]; [|done].
  destruct (device_gate d p) eqn:E5; [done|]. destruct (plan_run e d c p) as [pl|] eqn:E6; [|done].
  res_simp. destruct a as [|]; [done|]. fold (narrowed d pl) in H.
  destruct (bool_decide (cn_drive_sides (pl_consumer pl) ≠ None) && bool_decide (narrowed d pl = [])) eqn:E8;
    [done|].
  destruct (List.filter _ (down_sides d)) eqn:E9; [|done]. injection H as <-. simpl.
  split_and!; [done..| |].
  - intros ds Hds Hn. rewrite Hds, Hn in E8. done.
  - intros side Hs Hd. assert (Hf : side ∈ List.filter (fun s => bool_decide (s ∈ narrowed d pl)) (down_sides d))
      by by apply filter_mem.
    rewrite E9 in Hf. by apply not_elem_of_nil in Hf.
Qed.

Lemma reaped_is_down d u :
  reaped_down d -> u ∈ d_arms d -> au_reaped u = true -> au_side u ∈ down_sides d.
Proof.
  intros Hd Hu Hr. unfold down_sides. apply list_elem_of_fmap_2.
  rewrite list_elem_of_In, filter_In, <-list_elem_of_In. split; [done|].
  apply bool_decide_eq_true. auto.
Qed.

(** *** Preservation *)

Lemma launch_run_inv e d c l :
  start_decision e d c = Ok (Launch_run l) -> Inv d -> wp (launch_run e l) (fun _ => Inv) d.
Proof.
  intros Hl (Hm & Hp & Hi & Hd). apply launch_inv in Hl as (_ & _ & _ & _ & _ & _ & _ & _ & _ & Hnd).
  unfold launch_run. wp_go.
  set (msg := Enter _ _ _). set (d1 := foldl _ d (l_sides l)).
  destruct (enter_controls_frame (l_sides l) msg d) as (Ha & Ho & Hs & _ & _ & _ & Hlf & _). fold d1 in Ha, Ho, Hs, Hlf.
  split_and!; [done|done| |].
  - intros u Hu Hr. simpl in *. rewrite Ha in Hu. destruct (Hi u Hu Hr) as [Hdead Hq]. split.
    + simpl. by rewrite Ho.
    + unfold cleared, left_over in *. simpl. rewrite Hlf.
      enough (Hsame : queue d1 (au_side u) = queue d (au_side u)) by (unfold queue in *; simpl; by rewrite Hsame).
      apply enter_controls_queue. intros Hin. apply (Hnd _ Hin). by apply reaped_is_down.
  - intros u Hu Hr. simpl in *. rewrite Ha in Hu. rewrite Hs. auto.
Qed.

Lemma handle_start_inv e c d : Inv d -> wp (handle_start e c) (fun _ => Inv) d.
Proof.
  intros HI. unfold handle_start. wp_go.
  - exact HI.
  - destruct HI as (Hm & Hp & Hi & Hd). by split_and!.
  - by eapply launch_run_inv.
Qed.

(** What [handle_stop] does: the queued start is dropped and the run, if any, is told to stop. *)
Lemma handle_stop_run d d' o r :
  handle_stop d = (d', o) -> d_run d = Some r ->
  o = Returned tt /\ d_pending d' = None /\
  (exists r', d_run d' = Some r' /\ r_stopping r' = true /\ r_proc r' = r_proc r /\
     r_phase r' = r_phase r /\ (r_stopping r = false -> r' = stop_run r)) /\
  (r_stopping r = false -> EvStopEvent (r_proc r) ∈ d_log d' /\ ss_mode (d_state d') = SAVING) /\
  ss_message (d_state d') = ss_message (d_state d).
Proof.
  intros H Hr. unfold handle_stop, mbind, st_bind, st_get in H. rewrite Hr in H.
  destruct (d_pending d) eqn:Ep, (r_stopping r) eqn:Es; injection H as <- <-; simpl;
    (split_and!; [done|done|eexists; split_and!; [first [exact Hr|reflexivity]|done..]| |done]);
    first [done|intros _; split; [set_solver|done]].
Qed.

(** Stopping touches the run, the queued start and the message only. *)
Definition same_hw (d d' : daemon) : Prop :=
  d_arms d' = d_arms d /\ d_os d' = d_os d /\ d_qs d' = d_qs d /\ d_left d' = d_left d /\
  ss_arms_down (d_state d') = ss_arms_down (d_state d).

Lemma handle_stop_core d : mode_ok d -> pending_ok d ->
  wp handle_stop (fun _ d' => mode_ok d' /\ pending_ok d' /\ same_hw d d') d.
Proof.
  intros Hm Hp. unfold handle_stop, wp, mbind, st_bind, st_get.
  unfold mode_ok in Hm. unfold pending_ok in Hp.
  destruct (d_pending d) eqn:Ep, (d_run d) as [r|] eqn:Er; simpl; try destruct (r_stopping r) eqn:Es;
    (split_and!; [unfold mode_ok; simpl; rewrite ?Er; rewrite ?Es; simpl; tauto|
                  unfold pending_ok; simpl; by rewrite ?Ep|done]).
Qed.

Lemma same_hw_reaped d d' : same_hw d d' ->
  (reaped_idle d -> reaped_idle d') /\ (reaped_down d -> reaped_down d').
Proof.
  intros (Ha & Ho & Hq & Hl & Hn). unfold reaped_idle, reaped_down, cleared, queue, left_over.
  by rewrite Ha, Ho, Hq, Hl, Hn.
Qed.

Lemma handle_stop_inv d : Inv d -> wp handle_stop (fun _ => Inv) d.
Proof.
  intros (Hm & Hp & Hi & Hd). eapply wp_mono; [by apply handle_stop_core|].
  intros _ d' (? & ? & [H1 H2]%same_hw_reaped). by split_and!; auto.
Qed.

Lemma set_pending_inv c dl d : Inv d -> wp (set_pending c dl) (fun _ => Inv) d.
Proof. intros (Hm & Hp & Hi & Hd). by wp_go. Qed.

Lemma clear_pending_inv d : Inv d -> wp clear_pending (fun _ => Inv) d.
Proof. intros (Hm & Hp & Hi & Hd). by wp_go. Qed.

Lemma handle_switch_inv e c d : Inv d -> wp (handle_switch e c) (fun _ => Inv) d.
Proof.
  intros HI. unfold handle_switch. wp_go; try exact HI.
  - eapply wp_mono; [by apply handle_stop_inv|]. intros [] d' HI'.
    destruct HI' as (Hm & Hp & Hi & Hd). by wp_go.
  - by apply handle_start_inv.
  - destruct HI as (Hm & Hp & Hi & Hd). by split_and!.
Qed.

Lemma tend_pending_inv e d : Inv d -> wp (tend_pending e) (fun _ => Inv) d.
Proof.
  intros HI. pose proof HI as (Hm & Hp & Hi & Hd). unfold tend_pending. wp_go; try exact HI.
  - eapply wp_mono; [apply handle_start_inv; by split_and!|]. intros [] d' HI'. by wp_go.
  - unfold pending_ok in Hp. rewrite E in Hp. by split_and!.
  - by split_and!.
Qed.

Lemma reap_consumer_inv d : Inv d -> wp reap_consumer (fun _ => Inv) d.
Proof.
  intros HI. pose proof HI as (Hm & Hp & Hi & Hd). unfold reap_consumer. wp_go; try exact HI.
  by split_and!.
Qed.

(** Recording what the watchdog has seen changes nothing the invariant speaks of. *)
Lemma set_watch_inv d r armed active :
  d_run d = Some r -> Inv d -> Inv (with_run (Some (run_watch armed active r)) d).
Proof.
  intros Hr (Hm & Hp & Hi & Hd). unfold mode_ok in Hm. rewrite Hr in Hm. by split_and!.
Qed.

Lemma watch_arm_dropout_inv d : Inv d -> wp watch_arm_dropout (fun _ => Inv) d.
Proof.
  intros HI. unfold watch_arm_dropout. wp_go; try exact HI.
  - apply handle_stop_inv. by apply (set_watch_inv d).
  - by apply set_watch_inv.
Qed.

(** *** Hardware units *)

(** The part of the state the supervision of one arm may not disturb. *)
Lemma alter_elem (f : ArmUnit -> ArmUnit) i (l : list ArmUnit) u :
  u ∈ alter f i l -> u ∈ l \/ exists u0, l !! i = Some u0 /\ u = f u0.
Proof.
  intros [j Hj]%list_elem_of_lookup. destruct (decide (i = j)) as [->|Hne].
  - rewrite list_lookup_alter_eq in Hj. destruct (l !! j) as [u0|] eqn:E; [|done].
    simpl in Hj. simplify_eq. right. eauto.
  - rewrite list_lookup_alter_ne in Hj by done. left. by eapply list_elem_of_lookup_2.
Qed.

Lemma alter_same {A} i (l : list A) : alter id i l = l.
Proof.
  apply list_eq. intros j. rewrite list_lookup_alter. destruct (decide (i = j)) as [->|]; [|done].
  by destruct (l !! j).
Qed.

(** The invariant without the report of arms down, which [tend_arms] makes last. *)
Definition Inv' (d : daemon) : Prop := mode_ok d /\ pending_ok d /\ reaped_idle d.

Lemma respawn_arm_inv e i name d : Inv' d -> wp (respawn_arm e i name) (fun _ => Inv') d.
Proof.
  intros (Hm & Hp & Hi). unfold respawn_arm. wp_go. split_and!; [done|done|].
  intros u [Hu|(u0 & Hu0 & ->)]%alter_elem Hr; [by apply Hi|done].
Qed.

(** A drain whose gets all answer empties the queue; in general a tail of it is left. *)
Lemma undrained_all {A} ans k (q : list A) : (forall n, ans n = true) -> undrained ans k q = [].
Proof. intros H. revert k. induction q as [|x q IH]; intros k; simpl; [done|]. by rewrite H. Qed.

Lemma undrained_drop {A} ans (q : list A) : forall k, exists n, undrained ans k q = drop n q /\
  (forall i, i < n -> ans (k + i) = true) /\ (n < length q -> ans (k + n) = false).
Proof.
  induction q as [|x q IH]; intros k; simpl.
  { exists 0. split_and!; [done|lia|simpl; lia]. }
  destruct (ans k) eqn:E.
  - destruct (IH (S k)) as (n & -> & Hlt & Hn). exists (S n). split_and!; [done| |].
    + intros [|i] Hi; [by rewrite Nat.add_0_r|]. rewrite Nat.add_succ_r. apply Hlt. lia.
    + intros Hl. rewrite Nat.add_succ_r. apply Hn. lia.
  - exists 0. split_and!; [done|lia|]. intros _. by rewrite Nat.add_0_r.
Qed.

(** What a drain does: the queue keeps what was not taken out, and that is on record. *)
Definition drained (e : env) (side : string) (d d' : daemon) : Prop :=
  (forall s, queue d' s = if decide (s = side) then undrained (e_get e side) 0 (queue d side) else queue d s) /\
  (forall s, left_over d' s =
     if decide (s = side) then undrained (e_get e side) 0 (queue d side) else left_over d s) /\
  d_arms d' = d_arms d /\ d_os d' = d_os d /\ d_run d' = d_run d /\ d_pending d' = d_pending d /\
  d_state d' = d_state d /\ d_log d' = d_log d /\ d_next d' = d_next d.

Lemma drain_session_q_ok e side d : wp (drain_session_q e side) (fun _ => drained e side d) d.
Proof.
  unfold drain_session_q. wp_go. unfold drained, queue, left_over.
  destruct (dget side (d_qs d)) as [q|] eqn:E; simpl;
    (split; [|split; [|done]]); intros s; case_decide; subst;
    rewrite ?dget_dset_eq, ?dget_dset_ne by done; by rewrite ?E.
Qed.

Lemma drained_cleared e side d d' s : drained e side d d' -> cleared d s -> cleared d' s.
Proof.
  intros (Hq & Hl & _) Hc. unfold cleared in *. rewrite Hq, Hl. by case_decide.
Qed.

Lemma drained_side e side d d' : drained e side d d' -> cleared d' side.
Proof. intros (Hq & Hl & _). unfold cleared. rewrite Hq, Hl. by rewrite !decide_True by done. Qed.

Lemma drained_empty e side d d' s : drained e side d d' -> queue d s = [] -> queue d' s = [].
Proof. intros (Hq & _) Hs. rewrite Hq. case_decide as Hd; [|done]. subst. by rewrite Hs. Qed.

Lemma drained_all e side d d' :
  drained e side d d' -> (forall k, e_get e side k = true) -> queue d' side = [].
Proof. intros (Hq & _) Ha. rewrite Hq, decide_True by done. by apply undrained_all. Qed.

Lemma drained_inv e side d d' : drained e side d d' -> Inv' d -> Inv' d'.
Proof.
  intros Hd (Hm & Hp & Hi). pose proof Hd as (_ & _ & Ha & Ho & Hr & Hpe & Hs & _). split_and!.
  - unfold mode_ok in *. by rewrite Hr, Hs.
  - unfold pending_ok in *. by rewrite Hpe, Hs.
  - intros u Hu Hre. rewrite Ho. rewrite Ha in Hu. destruct (Hi u Hu Hre) as [? Hc].
    split; [done|]. by eapply drained_cleared.
Qed.

(** A side's queue once its arm has a new process: what the last drain left, and nothing if
    that drain's gets all answered. *)
Definition came_back (e : env) (u : ArmUnit) (d' : daemon) : Prop :=
  cleared d' (au_side u) /\
  (au_reaped u = false -> (forall k, e_get e (au_side u) k = true) -> queue d' (au_side u) = []).

(** Nothing new waits for any side. *)
Definition no_new (d d' : daemon) : Prop :=
  forall s, (cleared d s -> cleared d' s) /\ (queue d s = [] -> queue d' s = []).

Lemma no_new_refl d : no_new d d.
Proof. done. Qed.
Lemma no_new_trans d1 d2 d3 : no_new d1 d2 -> no_new d2 d3 -> no_new d1 d3.
Proof. intros H1 H2 s. destruct (H1 s), (H2 s). auto. Qed.

(** [tended e i l d d']: arm [i] has been looked after and [l] reported for it. *)
Definition tended (e : env) (i : nat) (l : list string) (d d' : daemon) : Prop :=
  Inv' d' /\ d_os d' = d_os d /\ length (d_arms d') = length (d_arms d) /\
  (forall j, j ≠ i -> d_arms d' !! j = d_arms d !! j) /\
  (forall u, d_arms d' !! i = Some u -> au_reaped u = true -> au_name u ∈ l) /\
  no_new d d' /\
  (forall u u', d_arms d !! i = Some u -> d_arms d' !! i = Some u' -> au_proc u' ≠ au_proc u ->
     is_alive (d_os d) (au_proc u) = false /\ au_side u' = au_side u /\ came_back e u d').

Lemma came_back_new e u d d' : no_new d d' -> came_back e u d -> came_back e u d'.
Proof. intros H [Hc Hq]. destruct (H (au_side u)) as [H1 H2]. split; auto. Qed.

(** The one-shot cleanup of a dead arm leaves it reaped and its queue drained. *)
Lemma reap_dead_arm_ok e i u d :
  Inv' d -> d_arms d !! i = Some u -> is_alive (d_os d) (au_proc u) = false ->
  wp (reap_dead_arm e i u) (fun _ d' =>
    Inv' d' /\ d_arms d' = alter (arm_flags true true) i (d_arms d) /\ d_os d' = d_os d /\
    came_back e u d' /\ no_new d d') d.
Proof.
  intros (Hm & Hp & Hi) Hu Hdead. unfold reap_dead_arm. do 4 (cbn beta; wp_step). cbn beta. apply wp_bind.
  set (d1 := with_world _ _). eapply wp_mono; [apply drain_session_q_ok|]. intros [] d2 Hdr.
  assert (Hnew : no_new d d2).
  { intros s. split; [by apply (drained_cleared e (au_side u) d1)|by apply (drained_empty e (au_side u) d1)]. }
  assert (Hback : came_back e u d2).
  { split; [by eapply drained_side|]. intros _ Hall. by eapply drained_all. }
  pose proof Hdr as (_ & _ & Ha2 & Ho2 & Hr2 & Hp2 & Hs2 & _).
  assert (Hok : mode_ok d2 /\ pending_ok d2).
  { unfold mode_ok, pending_ok. rewrite Hr2, Hs2, Hp2. by split. }
  assert (Hi2 : reaped_idle d2).
  { intros v Hv Hr. rewrite Ho2. rewrite Ha2 in Hv. apply alter_elem in Hv as [Hv|(u0 & Hu0 & ->)].
    - destruct (Hi v Hv Hr). split; [done|]. by apply Hnew.
    - rewrite Hu in Hu0. injection Hu0 as <-. split; [done|]. apply Hback. }
  assert (Hall : forall d3, mode_ok d3 -> pending_ok d3 -> same_hw d2 d3 ->
    Inv' d3 /\ d_arms d3 = alter (arm_flags true true) i (d_arms d) /\ d_os d3 = d_os d /\
    came_back e u d3 /\ no_new d d3).
  { intros d3 Hm3 Hp3 Hs. pose proof (same_hw_reaped _ _ Hs) as [Hr3 _].
    destruct Hs as (Ha & Ho & Hqs & Hlf & _). unfold came_back, no_new, cleared, queue, left_over in *.
    rewrite Hqs, Hlf. split; [split_and!; auto|]. split_and!; [by rewrite Ha, Ha2|by rewrite Ho, Ho2|apply Hback|apply Hback|exact Hnew]. }
  destruct Hok as [Hm2 Hpe2]. clear - Hall Hm2 Hpe2. wp_go; try (by apply Hall).
  eapply wp_mono; [apply handle_stop_core; [exact Hm2|exact Hpe2]|]. intros [] d3 (? & ? & ?). by apply Hall.
Qed.

Lemma tend_arm_ok e i d : Inv' d -> wp (tend_arm e i) (fun l => tended e i l d) d.
Proof.
  intros HI. pose proof HI as (Hm & Hp & Hi). unfold tend_arm. do 2 (cbn beta; wp_step). cbn beta.
  assert (Hsame : forall l, (forall u, d_arms d !! i = Some u -> au_reaped u = false) -> tended e i l d d).
  { intros l Hr. split; [done|]. split_and!; [done|done|done|intros u Hu Hv; by rewrite (Hr u Hu) in Hv|done|].
    intros u u' Hu Hu'. by simplify_eq. }
  wp_step; [|wp_go; apply Hsame; intros u Hu; congruence]. rename a into u.
  destruct (is_alive (d_os d) (au_proc u)) eqn:Ea.
  - assert (Hr : au_reaped u = false).
    { destruct (au_reaped u) eqn:Er; [|done].
      destruct (Hi u) as [Hd _]; [by eapply list_elem_of_lookup_2|done|congruence]. }
    assert (Hset : forall l b, tended e i l d (with_arms (alter (arm_flags b (au_reaped u)) i) d)).
    { intros l b. split_and!; simpl.
      - split_and!; [done|done|]. intros v [Hv|(u0 & Hu0 & ->)]%alter_elem Hv'; [by apply Hi|].
        simpl in Hv'. congruence.
      - done.
      - apply length_alter.
      - intros j Hj. by apply list_lookup_alter_ne.
      - intros v. rewrite list_lookup_alter_eq, E. intros [= <-]. simpl. congruence.
      - done.
      - intros v v' Hv. rewrite list_lookup_alter_eq, Hv. by intros [= <-]. }
    wp_go; try apply Hset. apply Hsame. intros v Hv. by simplify_eq.
  - apply wp_bind. apply (wp_mono _ (fun _ d' => Inv' d' /\ d_os d' = d_os d /\
      came_back e u d' /\ no_new d d' /\
      exists f, d_arms d' = alter f i (d_arms d) /\ (forall v, au_name (f v) = au_name v /\
        au_side (f v) = au_side v /\ au_proc (f v) = au_proc v))).
    { destruct (au_reaped u) eqn:Er.
      - wp_go. split_and!; [done|done|split; [by apply (Hi u); [eapply list_elem_of_lookup_2|]|congruence]|done|].
        exists id. split; [by rewrite alter_same|done].
      - eapply wp_mono; [by apply reap_dead_arm_ok|]. intros _ d' (? & ? & ? & ? & ?).
        split_and!; [done..|]. by exists (arm_flags true true). }
    intros [] d1 (HI1 & Ho1 & Hq1 & Hqs1 & f & Ha1 & Hf).
    assert (Ht : forall d2 g, Inv' d2 -> d_arms d2 = alter g i (d_arms d1) -> d_os d2 = d_os d1 -> no_new d1 d2 ->
      (forall v, au_name (g v) = au_name v /\ au_side (g v) = au_side v) -> tended e i [au_name u] d d2).
    { intros d2 g HI2 Ha2 Ho2 Hqs2 Hg. split_and!.
      - done.
      - congruence.
      - by rewrite Ha2, Ha1, !length_alter.
      - intros j Hj. by rewrite Ha2, Ha1, !list_lookup_alter_ne by done.
      - intros v. rewrite Ha2, Ha1, !list_lookup_alter_eq, E. intros [= <-] _.
        destruct (Hg (f u)) as [-> _], (Hf u) as [-> _]. set_solver.
      - by eapply no_new_trans.
      - intros v v'. rewrite Ha2, Ha1, !list_lookup_alter_eq, E. intros [= <-] [= <-] _.
        destruct (Hg (f u)) as [_ ->], (Hf u) as (_ & -> & _). split_and!; [done|done|].
        by apply (came_back_new e u d1). }
    wp_go.
    + apply (Ht d1 id); [done|by rewrite alter_same|done|done|done].
    + pose proof (respawn_arm_inv e i (au_name u) d1 HI1) as Hr. unfold respawn_arm in *. wp_go.
      by eapply (Ht _ (arm_fresh_proc (d_next d1) (e_now e))).
Qed.

Lemma tend_each_ok e idx : forall d, NoDup idx -> Inv' d ->
  wp (tend_each (tend_arm e) idx) (fun l d' =>
    Inv' d' /\ d_os d' = d_os d /\ length (d_arms d') = length (d_arms d) /\
    (forall j, j ∉ idx -> d_arms d' !! j = d_arms d !! j) /\
    (forall j u, j ∈ idx -> d_arms d' !! j = Some u -> au_reaped u = true -> au_name u ∈ l) /\
    no_new d d' /\
    (forall j u u', d_arms d !! j = Some u -> d_arms d' !! j = Some u' -> au_proc u' ≠ au_proc u ->
       is_alive (d_os d) (au_proc u) = false /\ au_side u' = au_side u /\ came_back e u d')) d.
Proof.
  induction idx as [|i idx IH]; intros d Hnd HI; simpl.
  { wp_go. split; [done|]. split_and!; [done..|set_solver|done|]. intros j u u' Hu Hu'. by simplify_eq. }
  apply list.NoDup_cons in Hnd as [Hi Hnd]. apply wp_bind. eapply wp_mono; [by apply tend_arm_ok|].
  intros l1 d1 (HI1 & Ho1 & Hl1 & Hj1 & Hr1 & Hq1 & Hp1). apply wp_bind.
  eapply wp_mono; [by apply IH|]. intros l2 d2 (HI2 & Ho2 & Hl2 & Hj2 & Hr2 & Hq2 & Hp2). wp_go.
  split; [done|]. split_and!.
  - congruence.
  - congruence.
  - intros j [Hj ?]%not_elem_of_cons. rewrite Hj2, Hj1; done.
  - intros j u [->|Hj]%elem_of_cons Hu Hr; apply elem_of_app; [left|right; eauto].
    rewrite Hj2 in Hu by done. eauto.
  - by eapply no_new_trans.
  - intros j u u' Hu Hu' Hne. destruct (decide (j = i)) as [->|Hne'].
    + rewrite Hj2 in Hu' by done. destruct (Hp1 u u' Hu Hu' Hne) as (? & ? & ?). split_and!; [done|done|].
      by apply (came_back_new e u d1).
    + rewrite <-(Hj1 j Hne') in Hu. destruct (Hp2 j u u' Hu Hu' Hne) as (? & ? & ?).
      rewrite Ho1 in *. auto.
Qed.

Lemma tend_arms_ok e d : Inv' d ->
  wp (tend_arms e) (fun _ d' => Inv d' /\ no_new d d' /\
    (forall j u u', d_arms d !! j = Some u -> d_arms d' !! j = Some u' -> au_proc u' ≠ au_proc u ->
       is_alive (d_os d) (au_proc u) = false /\ au_side u' = au_side u /\ came_back e u d')) d.
Proof.
  intros HI. unfold tend_arms. do 2 (cbn beta; wp_step). apply wp_bind.
  eapply wp_mono; [apply tend_each_ok; [|done]|].
  { apply NoDup_ListNoDup, seq_NoDup. }
  intros l d1 ((Hm & Hp & Hi) & Ho & Hl & _ & Hr & Hnew & Hproc).
  assert (Hdown : forall u, u ∈ d_arms d1 -> au_reaped u = true -> au_name u ∈ sorted l).
  { intros u [j Hj]%list_elem_of_lookup Hu. apply elem_of_sorted. eapply Hr; [|done|done].
    apply elem_of_seq. apply lookup_lt_Some in Hj. lia. }
  wp_go.
  - apply bool_decide_eq_true in E. split; [|done]. split_and!; [done..|].
    intros u Hu Hu'. rewrite <-E. auto.
  - split; [|done]. by split_and!.
Qed.

(** Processes exiting, on their own or under an escalation, keep the invariant. *)
Lemma with_os_inv f d :
  (forall p, is_alive (f (d_os d)) p = true -> is_alive (d_os d) p = true) -> Inv d -> Inv (with_os f d).
Proof.
  intros Hf (Hm & Hp & Hi & Hd). split_and!; [done|done| |done].
  intros u Hu Hr. destruct (Hi u Hu Hr) as [Ha Hq]. split; [|done].
  by eapply alive_false_mono; [apply Hf|].
Qed.

Lemma kill_proc_inv e p g d : Inv d -> Inv (with_os (escalate [p] g (e_waits e)) (with_event (EvStopEvent p) d)).
Proof. intros HI. apply with_os_inv; [|exact HI]. intros q. apply escalate_alive. Qed.

Lemma find_index_spec {A} (f : A -> bool) l : forall i x,
  find_index f l = Some i -> l !! i = Some x -> f x = true.
Proof.
  induction l as [|y l IH]; intros i x; simpl; [done|].
  destruct (f y) eqn:E; [intros [= <-] [= ->]; done|].
  destruct (find_index f l) as [k|] eqn:Ek; simpl; [|done]. intros [= <-]. simpl. by apply IH.
Qed.

Lemma handle_reconnect_arm_ok e c d : Inv d ->
  wp (handle_reconnect_arm e c) (fun _ d' => Inv d' /\
    (forall j u u', d_arms d !! j = Some u -> d_arms d' !! j = Some u' -> au_proc u' ≠ au_proc u ->
       d_run d = None /\ d_pending d = None /\ JStr (au_side u) = get "side" c /\
       au_side u' = au_side u /\
       queue d' (au_side u) = undrained (e_get e (au_side u)) 0 (queue d (au_side u)))) d.
Proof.
  intros HI. unfold handle_reconnect_arm. do 2 (cbn beta; wp_step). cbn beta.
  assert (Hsame : forall d', d_arms d' = d_arms d -> Inv d' -> Inv d' /\
    (forall j u u', d_arms d !! j = Some u -> d_arms d' !! j = Some u' -> au_proc u' ≠ au_proc u ->
       d_run d = None /\ d_pending d = None /\ JStr (au_side u) = get "side" c /\
       au_side u' = au_side u /\
       queue d' (au_side u) = undrained (e_get e (au_side u)) 0 (queue d (au_side u)))).
  { intros d' Ha HI'. split; [done|]. intros j u u'. rewrite Ha. intros. simplify_eq. }
  destruct (find_index _ (d_arms d)) as [i|] eqn:Ei; simpl; [|wp_go; by apply Hsame].
  destruct (d_arms d !! i) as [u|] eqn:Eu; simpl; [|wp_go; by apply Hsame].
  assert (Hside : JStr (au_side u) = get "side" c).
  { by eapply bool_decide_eq_true_1, (find_index_spec _ _ _ _ Ei Eu). }
  destruct (d_run d) eqn:Er; [wp_go; by apply Hsame|].
  destruct (d_pending d) eqn:Ep; [wp_go; by apply Hsame|].
  do 2 (cbn beta; wp_step). cbn beta. wp_step; [wp_go; by apply Hsame|]. apply wp_bind.
  apply (wp_mono _ (fun _ d1 => Inv d1 /\ d_arms d1 = d_arms d /\ d_qs d1 = d_qs d)).
  { wp_go; [split; [by apply kill_proc_inv|done]|done]. }
  intros [] d1 ((Hm1 & Hp1 & Hi1 & Hd1) & Ha1 & Hqs1). do 2 (cbn beta; wp_step). cbn beta. apply wp_bind.
  set (d2 := with_world _ d1). eapply wp_mono; [apply drain_session_q_ok|]. intros [] d3 Hdr.
  assert (HI3 : Inv' d3) by (eapply drained_inv; [exact Hdr|by split_and!]).
  destruct HI3 as (Hm3 & Hp3 & Hi3). destruct Hdr as (Hq3 & _ & Ha3 & _ & _ & _ & Hs3 & _).
  unfold respawn_arm. wp_go. split.
  - split_and!; [done|done| |]; (intros v [Hv|(u0 & Hu0 & ->)]%alter_elem Hr; [|done]).
    + by apply Hi3.
    + simpl. rewrite Hs3. apply Hd1; [|done]. simpl in Hv. by rewrite Ha3 in Hv.
  - intros j v v' Hv. simpl. rewrite Ha3. unfold d2. simpl. rewrite Ha1. destruct (decide (i = j)) as [->|Hne].
    + rewrite list_lookup_alter_eq, Eu. intros [= <-] _. rewrite Eu in Hv. injection Hv as <-.
      split_and!; [done..|]. specialize (Hq3 (au_side u)). rewrite decide_True in Hq3 by done.
      unfold queue in *. simpl in *. by rewrite Hq3, Hqs1.
    + rewrite list_lookup_alter_ne by done. intros. simplify_eq.
Qed.

(** Operations that only touch cameras, leaders, messages and the shared memory. *)
Lemma respawn_camera_inv e i u d : Inv d -> wp (respawn_camera e i u) (fun _ => Inv) d.
Proof. intros HI. unfold respawn_camera. wp_go. exact HI. Qed.

Lemma handle_respawn_camera_inv e c d : Inv d -> wp (handle_respawn_camera e c) (fun _ => Inv) d.
Proof.
  intros HI. unfold handle_respawn_camera. do 2 (cbn beta; wp_step). cbn beta.
  destruct (find_index _ (d_cameras d)) as [i|]; simpl; [|wp_go; exact HI].
  destruct (d_cameras d !! i) as [u|]; simpl; [|wp_go; exact HI].
  wp_step; [wp_go; exact HI|]. apply wp_bind. apply (wp_mono _ (fun _ => Inv)).
  { wp_go; [by apply kill_proc_inv|exact HI]. }
  intros [] d1 HI1. apply wp_bind. eapply wp_mono; [by apply respawn_camera_inv|].
  intros [] d2 HI2. wp_go. exact HI2.
Qed.

Lemma tend_camera_inv e i d : Inv d -> wp (tend_camera e i) (fun _ => Inv) d.
Proof.
  intros HI. unfold tend_camera. do 2 (cbn beta; wp_step). cbn beta.
  wp_step; [|wp_go; exact HI]. apply wp_bind. apply (wp_mono _ (fun _ => Inv)).
  { wp_go; exact HI. }
  intros p d1 HI1. cbn beta zeta. wp_step; [wp_go; exact HI1|]. do 2 (cbn beta; wp_step). cbn beta.
  apply wp_bind. apply (wp_mono _ (fun _ => Inv)); [|intros [] d2 HI2; wp_go; exact HI2].
  wp_go; try exact HI1; apply respawn_camera_inv; first [exact HI1|by apply kill_proc_inv].
Qed.

Lemma tend_cameras_inv e d : Inv d -> wp (tend_cameras e) (fun _ => Inv) d.
Proof.
  intros HI. unfold tend_cameras. do 2 (cbn beta; wp_step). apply wp_bind. apply (wp_mono _ (fun _ => Inv)).
  - generalize (List.seq 0 (length (d_cameras d))). intros idx. revert d HI.
    induction idx as [|i idx IH]; intros d HI; simpl; [exact HI|]. apply wp_bind.
    eapply wp_mono; [by apply tend_camera_inv|]. intros l d1 HI1. apply wp_bind.
    eapply wp_mono; [by apply IH|]. intros l2 d2 HI2. exact HI2.
  - intros l d1 HI1. wp_go; exact HI1.
Qed.

Lemma post_all_inv what verb d : Inv d -> wp (post_all what verb) (fun _ => Inv) d.
Proof.
  intros HI. unfold post_all. wp_go. revert HI. generalize (dkeys (cf_servers (d_cfg d))).
  intros l. revert d. induction l as [|s l IH]; intros d HI; simpl; [done|]. apply IH. exact HI.
Qed.

Lemma handle_grav_comp_inv e b d : Inv d -> wp (handle_grav_comp e b) (fun _ => Inv) d.
Proof.
  intros HI. unfold handle_grav_comp. do 2 (cbn beta; wp_step). cbn beta.
  wp_step; [wp_go; exact HI|]. wp_step; [wp_go; exact HI|]. apply wp_bind.
  eapply wp_mono; [by apply post_all_inv|]. intros [] d1 HI1. cbn beta zeta. apply wp_bind.
  apply (wp_mono _ (fun _ => Inv)); [|intros [] d2 HI2; wp_go; exact HI2].
  wp_step; [by apply handle_stop_inv|exact HI1].
Qed.

Lemma handle_force_feedback_inv e b d : Inv d -> wp (handle_force_feedback e b) (fun _ => Inv) d.
Proof.
  intros HI. unfold handle_force_feedback. do 2 (cbn beta; wp_step). cbn beta.
  wp_step; [wp_go; exact HI|]. wp_step; [wp_go; exact HI|]. apply wp_bind.
  eapply wp_mono; [by apply post_all_inv|]. intros [] d1 HI1. wp_go. exact HI1.
Qed.

Lemma factr_ops_inv e d : Inv d ->
  wp (handle_start_factr e) (fun _ => Inv) d /\ wp (handle_stop_factr e) (fun _ => Inv) d /\
  wp (tend_factr e) (fun _ => Inv) d /\ wp (tend_factr_servers e) (fun _ => Inv) d.
Proof.
  intros HI. unfold handle_start_factr, handle_stop_factr, tend_factr, tend_factr_servers.
  split_and!; wp_go; exact HI.
Qed.

Lemma handle_command_inv e c d : Inv d -> wp (handle_command e c) (fun _ => Inv) d.
Proof.
  intros HI. pose proof (factr_ops_inv e d HI) as (? & ? & _ & _). unfold handle_command.
  cbn beta zeta. repeat (wp_step; [|]);
    eauto using handle_start_inv, handle_switch_inv, handle_stop_inv, handle_respawn_camera_inv,
      handle_grav_comp_inv, handle_force_feedback_inv.
  eapply wp_mono; [by apply handle_reconnect_arm_ok|]. by intros _ d' [HI' _].
Qed.

(** *** Boot and executions *)

Lemma boot_nodes_inv e ns : forall d, Inv d -> wp (boot_nodes e ns) (fun _ => Inv) d.
Proof.
  induction ns as [|n ns IH]; intros d HI; simpl; [exact HI|]. apply wp_bind.
  apply (wp_mono _ (fun _ => Inv)); [|intros [] d1 HI1; by apply IH].
  destruct HI as (Hm & Hp & Hi & Hd).
  destruct n; unfold boot_node; wp_go; (split_and!; [done|done|intros u|intros u]); simpl;
    first [intros [Hu| ->%list_elem_of_singleton]%elem_of_app Hr; [by eauto|done] | by eauto].
Qed.

Lemma serve_start_inv e d : Inv d -> wp (serve_start e) (fun _ => Inv) d.
Proof.
  intros HI. unfold serve_start, start_hardware. do 3 (cbn beta; wp_step).
  apply (wp_mono _ (fun _ => Inv)); [by apply boot_nodes_inv|]. intros [] d1 HI1.
  wp_go; exact HI1.
Qed.

Lemma daemon_init_inv fe c ov run_id next o w d :
  daemon_init fe c ov run_id next o w = Ok d -> Inv d.
Proof.
  unfold daemon_init. intros H. res_simp. split_and!; [done|done| |]; intros u Hu; by apply not_elem_of_nil in Hu.
Qed.

Lemma run_op_inv o d d' : Inv d -> run_op o d = (d', Returned tt) -> Inv d'.
Proof.
  intros HI. apply (wp_elim _ (fun _ => Inv)). pose proof (factr_ops_inv) as Hf. destruct o; simpl.
  - by apply handle_command_inv.
  - apply wp_bind. eapply wp_mono; [by apply reap_consumer_inv|]. intros b d1 HI1. exact HI1.
  - apply wp_bind. eapply wp_mono; [by apply tend_pending_inv|]. intros b d1 HI1. exact HI1.
  - by apply watch_arm_dropout_inv.
  - apply wp_bind. eapply wp_mono; [by apply tend_cameras_inv|]. intros b d1 HI1. exact HI1.
  - destruct HI as (Hm & Hp & Hi & Hd). apply wp_bind.
    eapply wp_mono; [apply tend_arms_ok; by split_and!|]. intros b d1 [HI1 _]. exact HI1.
  - by apply Hf.
  - apply wp_bind. eapply wp_mono; [by apply Hf|]. intros b d1 HI1. exact HI1.
  - wp_go. exact HI.
  - wp_go. apply with_os_inv; [|done]. intros p. apply exits_alive.
  - wp_go. exact HI.
  - wp_go. destruct HI as (Hm & Hp & Hi & Hd). split_and!; [done|done| |done].
    intros u Hu Hr. destruct (Hi u Hu Hr) as [Ha Hq]. split; [done|]. unfold cleared, left_over, queue in *. simpl.
    destruct (dget side (d_qs d)) as [l|] eqn:El; [|done].
    destruct (decide (au_side u = side)) as [<-|]; [|by rewrite dget_dset_ne].
    rewrite dget_dset_eq. rewrite El in Hq. simpl in *. destruct l; [done|]. by apply suffix_cons_l in Hq.
Qed.

Lemma reach_inv d : reach d -> Inv d.
Proof.
  induction 1 as [e c ov run_id next o w d d' Hinit _ Hboot|d d' o _ IH Hop].
  - eapply (wp_elim (serve_start e) (fun _ => Inv)); [|done]. apply serve_start_inv. by eapply daemon_init_inv.
  - by eapply run_op_inv.
Qed.

(** A turn of the supervise loop is a sequence of these operations. *)
Lemma reach_then {A B} (m : D A) (k : A -> D B) (o : op) (Q : B -> daemon -> Prop) d :
  reach d -> run_op o = (m ≫= fun _ => mret tt) -> (forall a d', reach d' -> wp (k a) Q d') ->
  wp (m ≫= k) Q d.
Proof.
  intros Hr Ho Hk. apply wp_bind. unfold wp at 1. destruct (m d) as [d' [a|x|]] eqn:E; [|done|done].
  apply Hk. eapply (reach_op d d' o); [done|]. rewrite Ho. unfold mbind, st_bind. by rewrite E.
Qed.

Lemma drain_commands_reach cmds : forall b d, reach d -> wp (drain_commands b cmds) (fun _ d' =>
  d_shutdown d' = true \/ reach d') d.
Proof.
  induction cmds as [|[e c] cmds IH]; intros b d Hr; simpl; [by right|].
  destruct (bool_decide (get "cmd" c = JStr "shutdown")); [by left|].
  apply wp_bind. unfold wp at 1. destruct (handle_command e c d) as [d1 [[]|x|]] eqn:E; [|done|done].
  apply IH. by apply (reach_op d d1 (OpCommand e c)).
Qed.

Lemma reach_unit (m : D unit) (o : op) d : reach d -> run_op o = m -> wp m (fun _ => reach) d.
Proof.
  intros Hr Ho. unfold wp. destruct (m d) as [d' [[]|x|]] eqn:E; [|done|done].
  apply (reach_op d d' o); [done|]. by rewrite Ho.
Qed.

Lemma reach_whenever (b : bool) (m : D bool) (o : op) d :
  reach d -> run_op o = (m ≫= fun _ => mret tt) -> wp (whenever b m) (fun _ => reach) d.
Proof.
  intros Hr Ho. unfold whenever. destruct b; [|exact Hr].
  unfold wp. destruct (m d) as [d' [a|x|]] eqn:E; [|done|done].
  apply (reach_op d d' o); [done|]. rewrite Ho. unfold mbind, st_bind. by rewrite E.
Qed.

Lemma periodic_sweep_reach oe d : reach d -> wp (periodic_sweep oe) (fun _ => reach) d.
Proof.
  intros Hr. unfold wp, periodic_sweep. destruct (Orphans.sweep _ _ _ _) as [h [[]|x|]]; [|done|done]. cbn.
  by apply (reach_op d _ (OpWorld (Orphans.h_world h))).
Qed.

Lemma serve_tick_reach cmds e oe k d :
  reach d -> wp (serve_tick cmds e oe k) (fun r d' => r = None \/ reach d') d.
Proof.
  intros Hr. unfold serve_tick. apply wp_bind.
  eapply wp_mono; [by apply drain_commands_reach|]. intros c1 d1 Hd1. do 2 (cbn beta; wp_step). cbn beta.
  destruct (d_shutdown d1) eqn:Es; [by left|]. destruct Hd1 as [|Hr1]; [congruence|].
  apply (reach_then _ _ OpReap); [done|done|]. intros c2 d2 Hr2.
  apply (reach_then _ _ (OpPending e)); [done|done|]. intros c3 d3 Hr3.
  do 2 (cbn beta; wp_step). cbn beta zeta. apply wp_bind. apply (wp_mono _ (fun _ => reach)).
  { wp_step; [by apply (reach_unit _ OpWatch)|exact Hr3]. }
  intros [] d4 Hr4. cbn beta. apply wp_bind.
  eapply wp_mono; [by apply (reach_whenever _ _ (OpTendCameras e))|]. intros c4 d5 Hr5. apply wp_bind.
  eapply wp_mono; [by apply (reach_whenever _ _ (OpTendArms e))|]. intros c5 d6 Hr6. apply wp_bind.
  apply (wp_mono _ (fun _ => reach)).
  { wp_step; [by apply (reach_unit _ (OpTendFactr e))|exact Hr6]. }
  intros [] d7 Hr7. apply wp_bind.
  eapply wp_mono; [by apply (reach_whenever _ _ (OpTendServers e))|]. intros c6 d8' Hr8'. cbn beta zeta.
  apply wp_bind. apply (wp_mono _ (fun _ => reach)).
  { wp_step; [by apply periodic_sweep_reach|exact Hr8']. }
  intros [] d8 Hr8. cbn beta zeta. apply wp_bind. apply (wp_mono _ (fun _ => reach)).
  { wp_step; [by apply (reach_unit _ OpWrite)|exact Hr8]. }
  intros [] d9 Hr9. by right.
Qed.

(** ** A small rig to exercise the properties on *)

Definition demo_config (phase : string) : Config :=
  MkConfig phase false None f1 [("left", demo_arm_cfg)] [] demo_coeffs demo_coeffs demo_coeffs
    (Policy "remote" "localhost" 8000 demo_qpos) [] [] f1 false [] (Launch f0 f1).

Definition demo_nodes : consumers :=
  let node name (c : Config) := Ok (Consumer name None) in
  Consumers (node "skill") (node "collection") (node "eval").

(** The rig at second [t]; code 1 is the READY status. *)
Definition demo_at (phase : string) (t : Z) : env :=
  Env (f_of_Z t) (f_of_Z t) (t * 1000000000) (fun _ => Ok (demo_config phase)) demo_nodes
    (fun _ _ => true) (fun c => if (c =? 1)%Z then Some "READY" else Some "FAULT")
    (fun _ _ => true) (fun _ => Some true) (FEnv f0 f0 (fun _ => true) (fun _ => true))
    demo_waits (fun _ _ => true) (fun _ => "").

Definition demo_booted : daemon :=
  match daemon_init (FEnv f0 f0 (fun _ => true) (fun _ => true)) (demo_config "collection") [] "run1" 0
          (Os [] []) empty_world with
  | Ok d => (serve_start (demo_at "collection" 0) d).1
  | Raise _ => MkDaemon (demo_config "collection") [] "" [] [] [] None None None None
                 (MkState VIEWING None None 0 None None None [] [] None None) false (Os [] [])
                 empty_world 0 None [] []
  end.

Definition demo_start (phase : string) : cmd :=
  [("cmd", JStr "start"); ("phase", JStr phase); ("task", JStr "pour")].

Lemma reach_next d o : reach d -> (run_op o d).2 = Returned tt -> reach (run_op o d).1.
Proof.
  intros Hr Ho. destruct (run_op o d) as [d' r] eqn:E. simpl in *. subst. by eapply reach_op.
Qed.

Fixpoint demo_run_ops (ops : list op) (d : daemon) : daemon :=
  match ops with [] => d | o :: ops => demo_run_ops ops (run_op o d).1 end.

Fixpoint all_returned (ops : list op) (d : daemon) : bool :=
  match ops with
  | [] => true
  | o :: ops => match run_op o d with (d', Returned _) => all_returned ops d' | _ => false end
  end.

Lemma reach_ops ops : forall d, reach d -> all_returned ops d = true -> reach (demo_run_ops ops d).
Proof.
  induction ops as [|o ops IH]; intros d Hr; simpl; [done|].
  destruct (run_op o d) as [d' [[]|x|]] eqn:E; [|done|done]. intros Hall. simpl. apply IH; [|done].
  by eapply reach_op.
Qed.

Lemma demo_booted_reach : reach demo_booted.
Proof.
  eapply (reach_boot (demo_at "collection" 0) (demo_config "collection") [] "run1" 0 (Os [] []) empty_world).
  - reflexivity.
  - apply (bool_decide_eq_true_1 _). vm_compute. reflexivity.
  - vm_compute. reflexivity.
Qed.

(** A collection is started, then its consumer and its arm die. *)
Definition demo_ops : list op :=
  [OpCommand (demo_at "collection" 1) (demo_start "collection"); OpExits [(1, 1%Z); (0, 1%Z)]; OpReap].

(** ** Properties *)

(** The state file tells the truth about the session: in every reachable state the mode
    is VIEWING exactly when no run is active, SAVING exactly when the run is stopping (its
    stop event is then set), the phase and task shown are the run's, and the queued start
    shown is the one held. *)
Theorem session_state_agrees (d : daemon) (Hd : reach d) :
  mode_ok d /\ pending_ok d /\
  (ss_mode (d_state d) = VIEWING <-> d_run d = None) /\
  (ss_mode (d_state d) = SAVING <-> exists r, d_run d = Some r /\ r_stopping r = true).
Proof.
  apply reach_inv in Hd as (Hm & Hp & _). do 2 (split; [done|]). unfold mode_ok in Hm.
  destruct (d_run d) as [r|].
  - destruct Hm as (-> & _). destruct (r_stopping r) eqn:Es; split; split; try done; [by eauto|].
    intros (r' & [= <-] & Hs). congruence.
  - destruct Hm as (-> & _). split; [done|]. split; [done|]. by intros (r' & ? & _).
Qed.

Lemma session_state_agrees_witness :
  let d := demo_run_ops (take 1 demo_ops) demo_booted in
  ss_mode (d_state d) = InPhase COLLECTION /\ mode_ok d.
Proof.
  intros d. split; [vm_compute; reflexivity|]. apply session_state_agrees.
  apply reach_ops; [apply demo_booted_reach|vm_compute; reflexivity].
Defined.

(** C10: What a replaced arm can find on its session queue.  A drain takes messages out with
    [get_nowait] until one fails, so it leaves a tail of the queue, and nothing when every get
    answers.  A reconnect happens only with no run active or queued, and leaves on the queue
    exactly what its drain could not take out.  Supervision only replaces a dead process, and
    nothing is queued between the drain at the arm's death and its replacement: the queue then
    holds at most what that drain left, and is empty if it was empty after the drain or the
    gets of a drain made now all answer.  So with a queue that answers, no message of an
    earlier start can put the new process in control. *)
Theorem respawned_arm_idle (d : daemon) (Hd : reach d) (e : env) (c : cmd) :
  (forall d' b, tend_arms e d = (d', Returned b) ->
     forall j u u', d_arms d !! j = Some u -> d_arms d' !! j = Some u' -> au_proc u' ≠ au_proc u ->
       is_alive (d_os d) (au_proc u) = false /\
       queue d' (au_side u') `suffix_of` left_over d' (au_side u') /\
       (au_reaped u = true -> queue d (au_side u) `suffix_of` left_over d (au_side u)) /\
       (au_reaped u = true -> queue d (au_side u) = [] -> queue d' (au_side u') = []) /\
       (au_reaped u = false -> (forall k, e_get e (au_side u) k = true) -> queue d' (au_side u') = [])) /\
  (forall d', handle_reconnect_arm e c d = (d', Returned tt) ->
     forall j u u', d_arms d !! j = Some u -> d_arms d' !! j = Some u' -> au_proc u' ≠ au_proc u ->
       d_run d = None /\ d_pending d = None /\
       exists n, queue d' (au_side u') = drop n (queue d (au_side u)) /\
         (n < length (queue d (au_side u)) -> e_get e (au_side u) n = false)).
Proof.
  apply reach_inv in Hd. pose proof Hd as (Hm & Hp & Hi & _). split.
  - intros d' b Ht j u u' Hu Hu' Hne. eapply wp_elim in Ht; [|apply (tend_arms_ok e d); by split_and!].
    destruct Ht as (_ & Hnew & Ht). destruct (Ht j u u' Hu Hu' Hne) as (? & -> & Hc & Hall).
    split_and!; [done|exact Hc| | |done].
    + intros Hr. by apply (Hi u); [eapply list_elem_of_lookup_2|].
    + intros _. apply Hnew.
  - intros d' Ht j u u' Hu Hu' Hne. eapply wp_elim in Ht; [|apply (handle_reconnect_arm_ok e c d Hd)].
    destruct Ht as [_ Ht]. destruct (Ht j u u' Hu Hu' Hne) as (? & ? & _ & -> & ->).
    do 2 (split; [done|]).
    destruct (undrained_drop (e_get e (au_side u)) (queue d (au_side u)) 0) as (n & -> & _ & Hn). eauto.
Qed.

Lemma respawned_arm_idle_witness :
  let d := demo_run_ops demo_ops demo_booted in
  let d' := (tend_arms (demo_at "collection" 100) d).1 in
  length (queue d "left") = 1 /\ au_proc <$> (d_arms d' !! 0) = Some 2 /\ queue d' "left" = [].
Proof.
  intros d d'. split; [vm_compute; reflexivity|]. split; [vm_compute; reflexivity|].
  destruct (respawned_arm_idle d) with (e := demo_at "collection" 100) (c := @nil (string * jval)) as [H _].
  { apply reach_ops; [apply demo_booted_reach|vm_compute; reflexivity]. }
  destruct (H d' true) with (j := 0) (u := MkArm "flexiv:left" "left" ["left/q"; "left/status"] 0 f0 false false)
    (u' := MkArm "flexiv:left" "left" ["left/q"; "left/status"] 2 (f_of_Z 100) true false)
    as (_ & _ & _ & _ & He); [vm_compute; reflexivity..|vm_compute; discriminate|].
  apply He; reflexivity.
Defined.

(** When the queue does not answer the drain, the message of an earlier start does wait for
    the replaced arm. *)
Definition demo_refusing (e : env) : env :=
  Env (e_now e) (e_wall e) (e_mono_ns e) (e_compose e) (e_consumers e) (e_tcp e) (e_op_name e) (e_post e)
    (e_grav e) (e_fenv e) (e_waits e) (fun _ _ => false) (e_float_str e).

Lemma undrained_message_waits :
  let d' := (tend_arms (demo_refusing (demo_at "collection" 100)) (demo_run_ops demo_ops demo_booted)).1 in
  au_proc <$> (d_arms d' !! 0) = Some 2 /\ length (queue d' "left") = 1.
Proof. vm_compute. done. Qed.

(** *** Starting *)

Definition enter_message (l : launch) : EnterControl :=
  Enter (pl_coeffs (l_plan l)) (Some (pc_control (cf_policy (pl_config (l_plan l)))))
    (phase_name (l_phase l)).

(** Each told side gets one message, the others none. *)
Lemma enter_controls_queues sides m d side :
  NoDup sides ->
  queue (foldl (fun d s => enter_control s m d) d sides) side =
    if decide (side ∈ sides) then (queue d side ++ [m])%list else queue d side.
Proof.
  revert d. induction sides as [|s sides IH]; intros d Hnd; simpl; [done|].
  apply list.NoDup_cons in Hnd as [Hs Hnd]. rewrite IH by done.
  destruct (decide (side = s)) as [->|Hne].
  - rewrite decide_False, decide_True by set_solver. unfold queue, enter_control. simpl. by rewrite dget_dset_eq.
  - rewrite (decide_ext (side ∈ s :: sides) (side ∈ sides)) by set_solver.
    unfold queue, enter_control. simpl. by rewrite dget_dset_ne.
Qed.

(** What a launch does. *)
Lemma launch_run_result e l d : exists d',
  launch_run e l d = (d', Returned tt) /\
  d_log d' = (d_log d ++ ((fun s => EvEnter s (enter_message l)) <$> l_sides l) ++
              [EvSpawn (cn_name (pl_consumer (l_plan l))) (d_next d)])%list /\
  d_run d' = Some (MkRun (l_phase l) (l_label l) (d_next d) false (l_sides l) false false []) /\
  d_qs d' = d_qs (foldl (fun d s => enter_control s (enter_message l) d) d (l_sides l)).
Proof.
  unfold launch_run, mbind, st_bind, st_modify, spawn, clear_pending. simpl.
  destruct (enter_controls_frame (l_sides l) (enter_message l) d) as (_ & _ & _ & _ & _ & _ & _ & Hlog).
  assert (Hn : forall sides d, d_next (foldl (fun d s => enter_control s (enter_message l) d) d sides) = d_next d).
  { induction sides; intros d0; simpl; [done|]. by rewrite IHsides. }
  eexists. split; [reflexivity|]. simpl. fold (enter_message l). rewrite Hn, Hlog, <-app_assoc. done.
Qed.

Lemma arms_busy_none d side :
  arms_still_in_control d = Ok [] -> side ∈ dkeys (d_qs d) ->
  exists st, arm_status d side = Ok st /\ in_control st = false.
Proof.
  unfold arms_still_in_control. intros H Hs. res_simp. apply mapM_res_Forall2 in E.
  apply list_elem_of_lookup in Hs as [i Hi].
  destruct (Forall2_lookup_l _ _ _ _ _ E Hi) as (x & Hx & He).
  destruct (arm_status d side) as [st|]; simpl in He; [|done]. exists st. split; [done|].
  destruct (in_control st) eqn:Ec; [|done]. injection He as <-.
  assert (Hin : (side, true) ∈ List.filter snd a) by
    (rewrite list_elem_of_In, filter_In, <-list_elem_of_In; split; [by eapply list_elem_of_lookup_2|done]).
  apply (list_elem_of_fmap_2 fst) in Hin. rewrite H in Hin. by apply not_elem_of_nil in Hin.
Qed.

Lemma blockers_nil e d cfg side a :
  blockers_of e d cfg = Ok [] -> (side, a) ∈ cf_arms cfg -> ac_control_enabled a = true ->
  exists st, arm_status d side = Ok st /\ follower_control_blocker (e_op_name e) st = None.
Proof.
  unfold blockers_of. intros H Hin He. res_simp. apply mapM_res_Forall2 in E.
  assert (Hf : (side, a) ∈ List.filter (fun x => ac_control_enabled x.2) (cf_arms cfg)) by
    by rewrite list_elem_of_In, filter_In, <-list_elem_of_In.
  apply list_elem_of_lookup in Hf as [i Hi]. destruct (Forall2_lookup_l _ _ _ _ _ E Hi) as (x & Hx & Hv).
  simpl in Hv. destruct (arm_status d side) as [st|]; simpl in Hv; [|done]. exists st. split; [done|].
  destruct (follower_control_blocker (e_op_name e) st) as [b|] eqn:Eb; [|done]. injection Hv as <-.
  assert (Hb : (side, b) ∈ omap (fun x : string * option blocker => option_map (pair x.1) x.2) a0)
    by (apply list_elem_of_omap; exists (side, Some b); split; [by eapply list_elem_of_lookup_2|done]).
  rewrite H in Hb. by apply not_elem_of_nil in Hb.
Qed.

(** Safe followers give no blocker. *)
Lemma blockers_none e d cfg bl :
  blockers_of e d cfg = Ok bl ->
  (forall side a, (side, a) ∈ cf_arms cfg -> ac_control_enabled a = true ->
     exists st, arm_status d side = Ok st /\ follower_control_blocker (e_op_name e) st = None) ->
  bl = [].
Proof.
  unfold blockers_of. intros H Hsafe. res_simp. apply mapM_res_Forall2 in E.
  assert (Hall : Forall (fun x => x.2 = None) a).
  { apply list.Forall_forall. intros x [i Hi]%list_elem_of_lookup.
    destruct (Forall2_lookup_r _ _ _ _ _ E Hi) as ([side c] & Hc & Hv). simpl in Hv.
    apply list_elem_of_lookup_2 in Hc. rewrite list_elem_of_In, filter_In, <-list_elem_of_In in Hc.
    destruct (Hsafe side c) as (st & Hst & Hb); [apply Hc..|]. rewrite Hst in Hv. simpl in Hv.
    injection Hv as <-. by rewrite Hb. }
  clear - Hall. induction Hall as [|[side o] l Ho _ IH]; [done|]. simpl in Ho |- *. by rewrite Ho.
Qed.

Lemma commandable_disabled d cfg :
  commandable d (set_arms ((fun x => (x.1, set_control_enabled false x.2)) <$> cf_arms cfg) cfg) = [].
Proof.
  unfold commandable. simpl. induction (cf_arms cfg) as [|x l IH]; simpl; [done|]. exact IH.
Qed.

Lemma narrowed_commandable d pl side : side ∈ narrowed d pl -> side ∈ commandable d (pl_config pl).
Proof. unfold narrowed. destruct (cn_drive_sides (pl_consumer pl)); [|done]. by intros [? _]%filter_mem. Qed.

(** What a plan is made of. *)
Lemma plan_inv e d c p pl :
  plan_run e d c p = Ok pl -> exists cfg0,
    e_compose e (run_overrides (d_overrides d) (py_str e (task_of c)) (phase_name p)
                   (extra_overrides e c p)) = Ok cfg0 /\
    active_coeffs (pl_config pl) = Ok (pl_coeffs pl) /\
    (p = EVAL -> blockers_of e d cfg0 = Ok (pl_blockers pl)) /\
    (pl_blockers pl = [] -> pl_config pl = cfg0) /\
    (pl_blockers pl ≠ [] -> commandable d (pl_config pl) = []) /\
    (p ≠ EVAL -> pl_blockers pl = []) /\
    build_consumer (e_consumers e) (pl_config pl) = Ok (pl_consumer pl).
Proof.
  unfold plan_run. intros H. res_simp. exists a. simpl. split; [done|]. split; [done|]. split_and!;
    [by intros ->|by intros ->| | |done].
  - intros Hb. destruct a0; [done|]. apply commandable_disabled.
  - intros Hp. destruct p; congruence.
Qed.

Lemma commandable_iff d cfg side :
  side ∈ commandable d cfg <-> exists a, (side, a) ∈ cf_arms cfg /\ ac_control_enabled a = true /\
    side ∈ dkeys (d_qs d).
Proof.
  unfold commandable. rewrite list_elem_of_fmap. split.
  - intros ([s a] & -> & Hin). rewrite list_elem_of_In, filter_In, <-list_elem_of_In in Hin.
    destruct Hin as [Hin Hb]. apply andb_true_iff in Hb as [Ha Hq]. exists a. split_and!; [done|done|by apply dmem_true].
  - intros (a & Hin & Ha & Hq). exists (side, a). split; [done|].
    rewrite list_elem_of_In, filter_In, <-list_elem_of_In. simpl. rewrite Ha. split; [done|]. by apply dmem_true.
Qed.

Lemma narrowed_iff d pl side :
  side ∈ narrowed d pl <-> side ∈ commandable d (pl_config pl) /\
    (forall ds, cn_drive_sides (pl_consumer pl) = Some ds -> side ∈ ds).
Proof.
  unfold narrowed. destruct (cn_drive_sides (pl_consumer pl)) as [ds|].
  - rewrite filter_mem. split; [intros [? ?]|intros [? H]]; split; auto. by intros ? [= <-].
  - by split; [|intros [? _]].
Qed.

Lemma filter_NoDup {A} (f : A -> bool) (l : list A) : NoDup l -> NoDup (List.filter f l).
Proof. rewrite !NoDup_ListNoDup. apply List.NoDup_filter. Qed.

Lemma filter_fst_NoDup {V} (f : string * V -> bool) (l : list (string * V)) :
  NoDup l.*1 -> NoDup (List.filter f l).*1.
Proof.
  induction l as [|x l IH]; simpl; [done|]. rewrite list.NoDup_cons. intros [Hx Hl].
  destruct (f x); simpl; [|auto]. apply list.NoDup_cons. split; [|auto].
  intros (y & Hy & Hin)%list_elem_of_fmap. apply Hx. rewrite Hy. apply list_elem_of_fmap_2.
  rewrite list_elem_of_In, filter_In, <-list_elem_of_In in Hin. by destruct Hin.
Qed.

Lemma narrowed_NoDup d pl : NoDup (cf_arms (pl_config pl)).*1 -> NoDup (narrowed d pl).
Proof.
  intros H. assert (NoDup (commandable d (pl_config pl))) by by apply filter_fst_NoDup.
  unfold narrowed. destruct (cn_drive_sides _); [by apply filter_NoDup|done].
Qed.

Lemma device_gate_none d p :
  device_gate d p = None -> p ≠ SKILL -> ss_cameras_down (d_state d) = [] /\ ss_arms_down (d_state d) = [].
Proof.
  unfold device_gate. intros H Hp. rewrite (bool_decide_true _ Hp), !andb_true_r in H.
  destruct (bool_decide (ss_cameras_down _ ≠ [])) eqn:E1; [done|].
  destruct (bool_decide (ss_arms_down _ ≠ [])) eqn:E2; [done|].
  apply bool_decide_eq_false in E1, E2. split; by apply dec_stable.
Qed.

Lemma refusal_none e d cfg p :
  refusal_of e d cfg p = Ok None ->
  (p = COLLECTION -> factr_stale_sides e d = Ok [] /\ factr_grav_comp_disabled_sides e d = []) /\
  (p = EVAL -> pc_kind (cf_policy cfg) = "remote" ->
     e_tcp e (pc_host (cf_policy cfg)) (pc_port (cf_policy cfg)) = true).
Proof.
  unfold refusal_of. intros H. split; intros ->; simpl in H.
  - res_simp. destruct a; [|done]. destruct (factr_grav_comp_disabled_sides e d); [done|done].
  - intros Hk. rewrite Hk in H. simpl in H. by destruct (e_tcp e _ _).
Qed.

(** An arm that a run may command: the composed configuration gives it control, the daemon
    holds a session queue for it, the consumer drives it (a skill names its sides), and for an
    eval every follower with control reports a status that permits it. *)
Definition permitted (e : env) (d : daemon) (cfg : Config) (p : phase) (drives : option (list string))
    (side : string) : Prop :=
  (exists a, (side, a) ∈ cf_arms cfg /\ ac_control_enabled a = true) /\
  side ∈ dkeys (d_qs d) /\
  (forall ds, drives = Some ds -> side ∈ ds) /\
  (p = EVAL -> forall s a, (s, a) ∈ cf_arms cfg -> ac_control_enabled a = true ->
     exists st, arm_status d s = Ok st /\ follower_control_blocker (e_op_name e) st = None).

(** The sides of a plan are the permitted ones of the configuration Hydra composed. *)
Lemma narrowed_permitted e d c p pl cfg0 :
  plan_run e d c p = Ok pl ->
  e_compose e (run_overrides (d_overrides d) (py_str e (task_of c)) (phase_name p) (extra_overrides e c p)) = Ok cfg0 ->
  forall side, side ∈ narrowed d pl <-> permitted e d cfg0 p (cn_drive_sides (pl_consumer pl)) side.
Proof.
  intros Hpl Hc side. destruct (plan_inv _ _ _ _ _ Hpl) as (cfg & Hc' & _ & Hbl & Hnil & Hsome & Hne & _).
  rewrite Hc in Hc'. injection Hc' as <-. rewrite narrowed_iff, commandable_iff. unfold permitted. split.
  - intros [(a & Ha & He & Hq) Hds].
    assert (Hb : pl_blockers pl = []).
    { destruct (pl_blockers pl) eqn:Eb; [done|].
      assert (Hin : side ∈ commandable d (pl_config pl)) by (apply commandable_iff; eauto).
      rewrite Hsome in Hin by done. by apply not_elem_of_nil in Hin. }
    rewrite (Hnil Hb) in Ha. split_and!; [by eauto|done|done|]. intros Hev s b Hs Hsb.
    apply (blockers_nil e d cfg0 s b); [by rewrite (Hbl Hev), Hb|done|done].
  - intros ((a & Ha & He) & Hq & Hds & Hev).
    assert (Hb : pl_blockers pl = []).
    { destruct (decide (p = EVAL)) as [->|Hp]; [|by apply Hne].
      eapply blockers_none; [by apply Hbl|]. by apply Hev. }
    rewrite (Hnil Hb). split; [|done]. eauto.
Qed.

(** C2: A start either only queues itself or changes a message, or it launches, and then it
    has passed every gate: no run was active and no arm was still in control; for anything
    but a skill every camera and arm was up; a collection had fresh leader streams and
    energised leaders, a remote policy answered.  The sides told to enter control are exactly
    the permitted ones of the configuration composed for the run: configured for control, with
    a session queue, among the sides the consumer drives and, for an eval, only if every
    follower with control reports a status that permits it; each of them is up and not in
    control.  Each gets exactly one message more on its queue, with the phase's coefficients,
    and every other queue is left as it was. *)
Theorem start_passes_gates (e : env) (c : cmd) (d d' : daemon)
    (Hdict : forall ov cfg, e_compose e ov = Ok cfg -> NoDup (cf_arms cfg).*1)
    (Hstart : handle_start e c d = (d', Returned tt)) :
  (d_run d' = d_run d /\ d_qs d' = d_qs d /\ d_log d' = d_log d) \/
  exists l cfg,
    d_run d = None /\ arms_still_in_control d = Ok [] /\
    phase_of (get "phase" c) = Some (l_phase l) /\
    e_compose e (run_overrides (d_overrides d) (py_str e (task_of c)) (phase_name (l_phase l))
                   (extra_overrides e c (l_phase l))) = Ok cfg /\
    build_consumer (e_consumers e) (pl_config (l_plan l)) = Ok (pl_consumer (l_plan l)) /\
    (l_sides l ≠ [] -> pl_config (l_plan l) = cfg) /\
    (l_phase l ≠ SKILL -> ss_cameras_down (d_state d) = [] /\ ss_arms_down (d_state d) = []) /\
    (l_phase l = COLLECTION -> factr_stale_sides e d = Ok [] /\ factr_grav_comp_disabled_sides e d = []) /\
    (l_phase l = EVAL -> pc_kind (cf_policy (pl_config (l_plan l))) = "remote" ->
       e_tcp e (pc_host (cf_policy (pl_config (l_plan l)))) (pc_port (cf_policy (pl_config (l_plan l)))) = true) /\
    (forall side, side ∈ l_sides l <->
       permitted e d cfg (l_phase l) (cn_drive_sides (pl_consumer (l_plan l))) side) /\
    NoDup (l_sides l) /\
    (forall side, side ∈ l_sides l ->
       (side ∉ down_sides d) /\ exists st, arm_status d side = Ok st /\ in_control st = false) /\
    active_coeffs (pl_config (l_plan l)) = Ok (pl_coeffs (l_plan l)) /\
    (forall side, queue d' side =
       if decide (side ∈ l_sides l) then (queue d side ++ [enter_message l])%list else queue d side) /\
    d_log d' = (d_log d ++ ((fun s => EvEnter s (enter_message l)) <$> l_sides l) ++
                [EvSpawn (cn_name (pl_consumer (l_plan l))) (d_next d)])%list /\
    d_run d' = Some (MkRun (l_phase l) (l_label l) (d_next d) false (l_sides l) false false []).
Proof.
  unfold handle_start, reads, mbind, st_bind, st_lift in Hstart.
  destruct (start_decision e d c) as [dec|] eqn:Ed; [|done].
  destruct dec as [m|busy|l]; [left; by injection Hstart as <-..|]. right. exists l.
  destruct (launch_run_result e l d) as (d1 & Hl & Hlog & Hrun & Hqs). rewrite Hl in Hstart. injection Hstart as <-.
  apply launch_inv in Ed as (_ & Hph & Hr & Hbusy & Hgate & Hpl & Href & Hsides & _ & Hdown).
  destruct (refusal_none _ _ _ _ Href) as [Hc Hev].
  destruct (plan_inv _ _ _ _ _ Hpl) as (cfg0 & Hcfg & Hk & _ & Hnil & Hsome & _ & Hcons). exists cfg0.
  assert (Hperm : forall side, side ∈ l_sides l <->
    permitted e d cfg0 (l_phase l) (cn_drive_sides (pl_consumer (l_plan l))) side).
  { intros side. rewrite Hsides. by apply (narrowed_permitted e d c (l_phase l)). }
  assert (Hsame : l_sides l ≠ [] -> pl_config (l_plan l) = cfg0).
  { intros Hne. apply Hnil. destruct (pl_blockers (l_plan l)) eqn:Eb; [done|]. exfalso. apply Hne.
    rewrite Hsides. unfold narrowed. rewrite Hsome by done. by destruct (cn_drive_sides _). }
  assert (Hnd : NoDup (l_sides l)).
  { destruct (decide (l_sides l = [])) as [->|Hne]; [apply list.NoDup_nil; done|]. rewrite Hsides. apply narrowed_NoDup.
    rewrite Hsame by done. by eapply Hdict. }
  split_and!; try done.
  - by apply device_gate_none.
  - intros side Hs. split; [auto|]. apply Hperm in Hs as (_ & Hq & _). by apply arms_busy_none.
  - intros side. unfold queue. rewrite Hqs. by apply enter_controls_queues.
Qed.

Lemma start_passes_gates_witness :
  let d' := (handle_start (demo_at "collection" 1) (demo_start "collection") demo_booted).1 in
  r_command_sides <$> d_run d' = Some ["left"] /\
  exists m, queue d' "left" = (queue demo_booted "left" ++ [m])%list /\ queue d' "right" = [].
Proof.
  intros d'. split; [vm_compute; reflexivity|].
  destruct (start_passes_gates (demo_at "collection" 1) (demo_start "collection") demo_booted d')
    as [(Hr & _)|(l & cfg & _ & _ & _ & _ & _ & _ & _ & _ & _ & _ & _ & _ & _ & Hq & _ & Hrun)].
  - intros ov cfg [= <-]. apply NoDup_singleton.
  - vm_compute. reflexivity.
  - exfalso. vm_compute in Hr. discriminate Hr.
  - assert (Hs : r_command_sides <$> d_run d' = Some ["left"]) by (vm_compute; reflexivity).
    rewrite Hrun in Hs. injection Hs as Hs. exists (enter_message l). rewrite Hs in Hq. split.
    + exact (Hq "left").
    + exact (Hq "right").
Defined.

(** C9: One unsafe follower makes the whole eval observation-only: if any control-enabled arm
    of the composed run has an E-stop, a fault, an unknown or unreadable status, then an eval
    that launches commands no arm at all, and says so. *)
Theorem eval_all_or_nothing (e : env) (d : daemon) (c : cmd) (l : launch) (cfg : Config)
    (side : string) (a : ArmCfg) (st : option (list f64))
    (Hphase : get "phase" c = JStr "eval")
    (Hcompose : e_compose e (run_overrides (d_overrides d) (py_str e (task_of c)) "eval"
                               (extra_overrides e c EVAL)) = Ok cfg)
    (Harm : (side, a) ∈ cf_arms cfg) (Hctl : ac_control_enabled a = true)
    (Hst : arm_status d side = Ok st)
    (Hunsafe : follower_control_blocker (e_op_name e) st ≠ None)
    (Hlaunch : start_decision e d c = Ok (Launch_run l)) :
  l_sides l = [] /\ pl_blockers (l_plan l) ≠ [] /\
  forall d', handle_start e c d = (d', Returned tt) ->
    d_qs d' = d_qs d /\ ss_message (d_state d') = Some (MDryRun (pl_blockers (l_plan l))).
Proof.
  pose proof Hlaunch as Hl. apply launch_inv in Hl as (_ & Hph & _ & _ & _ & Hpl & _ & Hsides & _ & _).
  rewrite Hphase in Hph. injection Hph as Hph. rewrite <-Hph in Hpl.
  destruct (plan_inv _ _ _ _ _ Hpl) as (cfg0 & Hc0 & _ & Hbl & _ & Hsome & _). simpl in Hc0.
  rewrite Hcompose in Hc0. injection Hc0 as <-.
  assert (Hb : pl_blockers (l_plan l) ≠ []).
  { intros Hn. rewrite Hn in Hbl. destruct (blockers_nil e d cfg side a (Hbl eq_refl) Harm Hctl) as (st' & ? & ?).
    congruence. }
  assert (Hno : l_sides l = []).
  { rewrite Hsides. destruct (narrowed d (l_plan l)) as [|s ss] eqn:En; [done|].
    assert (Hs : s ∈ narrowed d (l_plan l)) by (rewrite En; set_solver).
    apply narrowed_commandable in Hs. rewrite Hsome in Hs by done. by apply not_elem_of_nil in Hs. }
  split_and!; [done|done|]. intros d' Hd'.
  unfold handle_start, reads, mbind, st_bind, st_lift in Hd'. rewrite Hlaunch in Hd'. unfold launch_run in Hd'.
  rewrite Hno in Hd'. injection Hd' as <-. simpl. destruct (pl_blockers (l_plan l)); done.
Qed.

Lemma eval_all_or_nothing_witness :
  let e := demo_at "eval" 1 in
  exists l, start_decision e demo_booted (demo_start "eval") = Ok (Launch_run l) /\ l_sides l = [].
Proof.
  intros e. eexists. split; [vm_compute; reflexivity|].
  apply (eval_all_or_nothing e demo_booted (demo_start "eval") _ (demo_config "eval") "left" demo_arm_cfg None);
    [reflexivity|reflexivity|apply list_elem_of_singleton; reflexivity|reflexivity|vm_compute; reflexivity|
     discriminate|vm_compute; reflexivity].
Defined.

(** *** Who can put an arm in control *)

Definition is_enter (x : devent) : bool := match x with EvEnter _ _ => true | _ => false end.

(** Since the log was [A], nobody was told to enter control. *)
Definition quiet (A : list devent) (d : daemon) : Prop :=
  exists new, d_log d = (A ++ new)%list /\ Forall (fun x => is_enter x = false) new.

Lemma quiet_event A x d : is_enter x = false -> quiet A d -> quiet A (with_event x d).
Proof.
  intros Hx (new & Hl & Hq). exists (new ++ [x])%list. simpl. rewrite Hl, app_assoc. split; [done|].
  apply Forall_app. auto.
Qed.

Ltac quiet_ok := first [assumption|match goal with H : quiet ?A ?d |- quiet ?A _ =>
  first [exact H|apply (quiet_event A _ d); [reflexivity|exact H]] end].
Ltac quiet_go := wp_go; try quiet_ok.

Create HintDb quiet.

Lemma handle_stop_quiet A d : quiet A d -> wp handle_stop (fun _ => quiet A) d.
Proof. intros H. unfold handle_stop. quiet_go. Qed.

Lemma kill_proc_quiet A e p g d : quiet A d -> wp (kill_proc e p g) (fun _ => quiet A) d.
Proof. intros H. unfold kill_proc. quiet_go. Qed.

Lemma respawn_arm_quiet A e i n d : quiet A d -> wp (respawn_arm e i n) (fun _ => quiet A) d.
Proof. intros H. unfold respawn_arm. quiet_go. Qed.

Lemma drain_session_q_quiet A e s d : quiet A d -> wp (drain_session_q e s) (fun _ => quiet A) d.
Proof. intros H. unfold drain_session_q. wp_go. by destruct (dget s (d_qs d)). Qed.

Lemma respawn_camera_quiet A e i u d : quiet A d -> wp (respawn_camera e i u) (fun _ => quiet A) d.
Proof. intros H. unfold respawn_camera. quiet_go. Qed.

Lemma post_all_quiet A what verb d : quiet A d -> wp (post_all what verb) (fun _ => quiet A) d.
Proof.
  intros H. unfold post_all. wp_go. revert H. generalize (dkeys (cf_servers (d_cfg d))). intros l.
  revert d. induction l as [|s l IH]; intros d H; simpl; [done|]. apply IH. by apply quiet_event.
Qed.

#[local] Hint Resolve handle_stop_quiet kill_proc_quiet respawn_arm_quiet drain_session_q_quiet
  respawn_camera_quiet post_all_quiet : quiet.

(** One step of a sequence: what precedes the bind is quiet. *)
Lemma quiet_bind {X Y} A (m : D X) (k : X -> D Y) d :
  wp m (fun _ => quiet A) d -> (forall x d', quiet A d' -> wp (k x) (fun _ => quiet A) d') ->
  wp (m ≫= k) (fun _ => quiet A) d.
Proof. intros Hm Hk. apply wp_bind. eapply wp_mono; [exact Hm|]. intros x d' H. by apply Hk. Qed.

Lemma handle_reconnect_arm_quiet A e c d : quiet A d -> wp (handle_reconnect_arm e c) (fun _ => quiet A) d.
Proof.
  intros H. unfold handle_reconnect_arm. do 2 (cbn beta; wp_step). cbn beta.
  wp_step; [|quiet_go]. wp_step. wp_step; [quiet_go|]. wp_step; [quiet_go|].
  do 2 (cbn beta; wp_step). cbn beta. wp_step; [quiet_go|].
  apply quiet_bind; [wp_step; [by eauto with quiet|exact H]|]. intros [] d1 H1.
  do 2 (cbn beta; wp_step). cbn beta. apply quiet_bind; [by eauto with quiet|]. intros [] d2 H2.
  apply quiet_bind; [by eauto with quiet|]. intros [] d3 H3. quiet_go.
Qed.

Lemma handle_respawn_camera_quiet A e c d : quiet A d -> wp (handle_respawn_camera e c) (fun _ => quiet A) d.
Proof.
  intros H. unfold handle_respawn_camera. do 2 (cbn beta; wp_step). cbn beta.
  wp_step; [|quiet_go]. wp_step. wp_step; [quiet_go|].
  apply quiet_bind; [wp_step; [by eauto with quiet|exact H]|]. intros [] d1 H1.
  apply quiet_bind; [by eauto with quiet|]. intros [] d2 H2. quiet_go.
Qed.

Lemma handle_grav_comp_quiet A e b d : quiet A d -> wp (handle_grav_comp e b) (fun _ => quiet A) d.
Proof.
  intros H. unfold handle_grav_comp. do 2 (cbn beta; wp_step). cbn beta.
  wp_step; [quiet_go|]. wp_step; [quiet_go|].
  apply quiet_bind; [by eauto with quiet|]. intros [] d1 H1. cbn beta zeta.
  apply quiet_bind; [wp_step; [by eauto with quiet|exact H1]|]. intros [] d2 H2. quiet_go.
Qed.

Lemma handle_force_feedback_quiet A e b d : quiet A d -> wp (handle_force_feedback e b) (fun _ => quiet A) d.
Proof.
  intros H. unfold handle_force_feedback. do 2 (cbn beta; wp_step). cbn beta.
  wp_step; [quiet_go|]. wp_step; [quiet_go|].
  apply quiet_bind; [by eauto with quiet|]. intros [] d1 H1. quiet_go.
Qed.

Lemma reap_dead_arm_quiet A e i u d : quiet A d -> wp (reap_dead_arm e i u) (fun _ => quiet A) d.
Proof.
  intros H. unfold reap_dead_arm. apply quiet_bind; [exact H|]. intros [] d1 H1.
  apply quiet_bind; [exact H1|]. intros [] d2 H2. apply quiet_bind; [by eauto with quiet|]. intros [] d3 H3.
  quiet_go. by apply handle_stop_quiet.
Qed.

Lemma tend_arm_quiet A e i d : quiet A d -> wp (tend_arm e i) (fun _ => quiet A) d.
Proof.
  intros H. unfold tend_arm. do 2 (cbn beta; wp_step). cbn beta. wp_step; [|quiet_go].
  wp_step; [quiet_go|]. apply quiet_bind; [wp_step; [exact H|by apply reap_dead_arm_quiet]|].
  intros [] d1 H1. do 2 (cbn beta; wp_step). cbn beta.
  apply quiet_bind; [wp_step; [exact H1|by eauto with quiet]|]. intros [] d2 H2. quiet_go.
Qed.

Lemma tend_camera_quiet A e i d : quiet A d -> wp (tend_camera e i) (fun _ => quiet A) d.
Proof.
  intros H. unfold tend_camera. do 2 (cbn beta; wp_step). cbn beta. wp_step; [|quiet_go].
  apply quiet_bind; [wp_go; exact H|]. intros p d1 H1. cbn beta zeta. wp_step; [quiet_go|].
  apply quiet_bind; [exact H1|]. intros [] d2 H2. apply quiet_bind; [|intros [] d3 H3; quiet_go].
  do 2 wp_step; [exact H2| |exact H2|by eauto with quiet].
  apply quiet_bind; [by eauto with quiet|]. intros [] d3 H3. by eauto with quiet.
Qed.

Lemma tend_each_quiet A f idx : (forall i d, quiet A d -> wp (f i) (fun _ => quiet A) d) ->
  forall d, quiet A d -> wp (tend_each f idx) (fun _ => quiet A) d.
Proof.
  intros Hf. induction idx as [|i idx IH]; intros d H; simpl; [exact H|].
  apply quiet_bind; [by apply Hf|]. intros l d1 H1. apply quiet_bind; [by apply IH|]. intros l' d2 H2. exact H2.
Qed.

(** A start is quiet, or launches. *)
Lemma handle_start_quiet e c d :
  wp (handle_start e c) (fun _ d' => quiet (d_log d) d' \/ exists l,
    start_decision e d c = Ok (Launch_run l) /\
    d_log d' = (d_log d ++ ((fun s => EvEnter s (enter_message l)) <$> l_sides l) ++
                [EvSpawn (cn_name (pl_consumer (l_plan l))) (d_next d)])%list) d.
Proof.
  assert (Hq : quiet (d_log d) d) by (exists []; by rewrite app_nil_r).
  unfold handle_start. do 2 (cbn beta; wp_step). cbn beta. wp_step.
  - left. exact Hq.
  - wp_go. left. exact Hq.
  - destruct (launch_run_result e l d) as (d' & Hl & Hlog & _ & _). unfold wp. rewrite Hl. right. eauto.
Qed.

(** The start an operation may fire. *)
Definition fires (o : op) (d : daemon) (e : env) (c : cmd) : Prop :=
  match o with
  | OpCommand e' c' => e' = e /\ c' = c /\ (get "cmd" c = JStr "start" \/ get "cmd" c = JStr "switch")
  | OpPending e' => e' = e /\ exists p, d_pending d = Some p /\ p_cmd p = c
  | _ => False
  end.

Definition quiet_or_fires (o : op) (d d' : daemon) : Prop :=
  quiet (d_log d) d' \/ exists e c l, fires o d e c /\ start_decision e d c = Ok (Launch_run l) /\
    d_log d' = (d_log d ++ ((fun s => EvEnter s (enter_message l)) <$> l_sides l) ++
                [EvSpawn (cn_name (pl_consumer (l_plan l))) (d_next d)])%list.

Lemma run_op_quiet o d d' : run_op o d = (d', Returned tt) -> quiet_or_fires o d d'.
Proof.
  assert (Hq : quiet (d_log d) d) by (exists []; by rewrite app_nil_r).
  set (P := fun _ : unit => quiet_or_fires o d). apply (wp_elim _ P).
  assert (Hl : forall A (m : D A), wp m (fun _ => quiet (d_log d)) d -> wp (m ≫= fun _ => mret tt) P d).
  { intros A m Hm. apply wp_bind. eapply wp_mono; [exact Hm|]. intros a d1 H1. by left. }
  assert (Hl' : forall (m : D unit), wp m (fun _ => quiet (d_log d)) d -> wp m P d).
  { intros m Hm. eapply wp_mono; [exact Hm|]. intros a d1 H1. by left. }
  destruct o; cbn [run_op].
  - unfold handle_command. cbn beta zeta. wp_step; [|wp_step].
    + eapply wp_mono; [apply handle_start_quiet|]. apply bool_decide_eq_true in E.
      intros [] d1 [?|(l & ? & ?)]; [by left|]. right. exists e, c, l. split_and!; [by simpl; auto|done|done].
    + apply bool_decide_eq_true in E0. unfold handle_switch. wp_step; [by apply Hl'|].
      do 2 (cbn beta; wp_step). cbn beta. wp_step.
      * apply Hl'. apply quiet_bind; [by apply handle_stop_quiet|]. intros [] d1 H1. quiet_go.
      * do 2 (cbn beta; wp_step). cbn beta. wp_step; [|wp_go; by left].
        eapply wp_mono; [apply handle_start_quiet|].
        intros [] d1 [?|(l & ? & ?)]; [by left|]. right. exists e, c, l. split_and!; [by simpl; auto|done|done].
    + apply Hl'. repeat (wp_step; [|]);
        eauto using handle_stop_quiet, handle_reconnect_arm_quiet, handle_respawn_camera_quiet,
          handle_grav_comp_quiet, handle_force_feedback_quiet;
        unfold handle_start_factr, handle_stop_factr; quiet_go.
  - apply Hl. unfold reap_consumer. quiet_go.
  - apply wp_bind. unfold tend_pending. do 2 (cbn beta; wp_step). cbn beta.
    wp_step; [|wp_go; by left]. wp_step; [wp_go; by left|]. do 4 (cbn beta; wp_step). cbn beta.
    wp_step; [|wp_go; by left]. do 2 (cbn beta; wp_step). cbn beta. apply wp_bind.
    eapply wp_mono; [apply handle_start_quiet|]. intros [] d1 [H1|(l & Hd & Hlog)]; [by left|].
    right. exists e, (p_cmd p), l. split_and!; [by simpl; eauto|exact Hd|exact Hlog].
  - apply Hl'. unfold watch_arm_dropout. quiet_go. by apply handle_stop_quiet.
  - apply Hl. unfold tend_cameras. do 2 (cbn beta; wp_step). cbn beta.
    apply quiet_bind; [apply tend_each_quiet; [intros; by apply tend_camera_quiet|done]|].
    intros l d1 H1. quiet_go.
  - apply Hl. unfold tend_arms. do 2 (cbn beta; wp_step). cbn beta.
    apply quiet_bind; [apply tend_each_quiet; [intros; by apply tend_arm_quiet|done]|].
    intros l d1 H1. quiet_go.
  - apply Hl'. unfold tend_factr. quiet_go.
  - apply Hl. unfold tend_factr_servers. quiet_go.
  - by left.
  - by left.
  - by left.
  - by left.
Qed.

(** C1: Entering control is always user-initiated: the only operations that tell an arm to
    enter control are a start or switch command, or the firing of the start queued by one,
    and then the start passed its gates, no run was active and the side is among those it
    commands.  Supervision, reconnects, respawns and leader commands never do. *)
Theorem control_is_user_initiated (o : op) (d d' : daemon) (new : list devent) (side : string)
    (m : EnterControl)
    (Hop : run_op o d = (d', Returned tt))
    (Hnew : d_log d' = (d_log d ++ new)%list)
    (Henter : EvEnter side m ∈ new) :
  exists e c l, fires o d e c /\ start_decision e d c = Ok (Launch_run l) /\
    d_run d = None /\ side ∈ l_sides l /\ m = enter_message l.
Proof.
  destruct (run_op_quiet o d d' Hop) as [(new' & Hl & Hq)|(e & c & l & Hf & Hd & Hl)].
  - rewrite Hnew in Hl. apply app_inv_head in Hl as <-. rewrite Forall_forall in Hq.
    by apply Hq in Henter.
  - exists e, c, l. rewrite Hnew in Hl. apply app_inv_head in Hl as ->.
    pose proof Hd as (_ & _ & Hr & _)%launch_inv.
    apply elem_of_app in Henter as [(s & [= -> ->] & Hs)%list_elem_of_fmap|Hin]; [by split_and!|].
    by apply list_elem_of_singleton in Hin.
Qed.

Lemma control_is_user_initiated_witness :
  let o := OpCommand (demo_at "collection" 1) (demo_start "collection") in
  exists m e c l, d_log (run_op o demo_booted).1 =
    (d_log demo_booted ++ [EvEnter "left" m; EvSpawn "collection" 1])%list /\
    fires o demo_booted e c /\ "left" ∈ l_sides l.
Proof.
  intros o.
  assert (Hl : exists m, d_log (run_op o demo_booted).1 =
    (d_log demo_booted ++ [EvEnter "left" m; EvSpawn "collection" 1])%list)
    by (eexists; vm_compute; reflexivity).
  destruct Hl as [m Hl]. exists m.
  destruct (control_is_user_initiated o demo_booted (run_op o demo_booted).1
    [EvEnter "left" m; EvSpawn "collection" 1] "left" m) as (e & c & l & Hf & _ & _ & Hs & _).
  - vm_compute. reflexivity.
  - exact Hl.
  - left.
  - exists e, c, l. split_and!; [exact Hl|exact Hf|exact Hs].
Defined.

(** *** The dropout watchdog *)

Lemma watch_sides_ok status armed sides : forall active active' dropped,
  watch_sides status armed active sides = Ok (active', dropped) ->
  (forall s, s ∈ active -> s ∈ active') /\
  (forall s, s ∈ active' -> s ∈ active \/ exists st, status s = Ok st /\ in_control st = true) /\
  match dropped with
  | Some s => armed = true /\ s ∈ sides /\ s ∈ active' /\ exists st, status s = Ok st /\ in_control st = false
  | None => forall s st, s ∈ sides -> status s = Ok st ->
      (in_control st = true -> s ∈ active') /\ (in_control st = false -> armed = true -> s ∉ active)
  end.
Proof.
  induction sides as [|s sides IH]; intros active active' dropped; simpl; intros H.
  { injection H as <- <-. split_and!; [done|by left|]. intros s st Hs. by apply not_elem_of_nil in Hs. }
  res_simp. destruct (in_control a) eqn:Ei.
  - apply IH in H as (H1 & H2 & H3). case_bool_decide as Hin.
    + split_and!; [done|done|]. destruct dropped; [set_solver|]. intros s' st Hs' Hst.
      apply elem_of_cons in Hs' as [->|Hs']; [|by eapply H3]. rewrite E in Hst. injection Hst as <-.
      split; [auto|congruence].
    + split_and!; [set_solver| |].
      * intros s' [[->|?]%elem_of_cons|?]%H2; [right; by eauto|by left|by right].
      * destruct dropped; [set_solver|]. intros s' st Hs' Hst.
        apply elem_of_cons in Hs' as [->|Hs'].
        -- rewrite E in Hst. injection Hst as <-. split; [set_solver|congruence].
        -- destruct (H3 s' st Hs' Hst) as [? H4]. split; [done|]. set_solver.
  - destruct (armed && bool_decide (s ∈ active)) eqn:Ea.
    + injection H as <- <-. apply andb_true_iff in Ea as [-> Ha]. apply bool_decide_eq_true in Ha.
      split_and!; [done|by left|done|set_solver|done|by eauto].
    + apply IH in H as (H1 & H2 & H3). split_and!; [done|done|]. destruct dropped; [set_solver|].
      intros s' st Hs' Hst. apply elem_of_cons in Hs' as [->|Hs']; [|by eapply H3].
      rewrite E in Hst. injection Hst as <-. split; [congruence|]. intros _ ->.
      simpl in Ea. by apply bool_decide_eq_false in Ea.
Qed.

(** C18: The dropout watchdog: while a run is live, the watchdog arms only once every
    commanded side has been seen in control, never before; when it is armed and a commanded
    side seen in control reports otherwise, the run is stopped (stop event set, SAVING); and
    it stops a run for no other reason. *)
Theorem dropout_stops_run (d d' : daemon) (r : ActiveRun)
    (Hrun : d_run d = Some r) (Hlive : r_stopping r = false) (Hsides : r_command_sides r ≠ [])
    (Hwatch : watch_arm_dropout d = (d', Returned tt)) :
  exists r', d_run d' = Some r' /\
  (r_stopping r' = true <->
     r_watchdog_armed r = true /\ exists side st, side ∈ r_command_sides r /\ side ∈ r_active_sides r /\
       arm_status d side = Ok st /\ in_control st = false) /\
  (r_stopping r' = true -> r_stop_event r' = true /\ ss_mode (d_state d') = SAVING) /\
  (r_watchdog_armed r' = true ->
     r_watchdog_armed r = true \/ forall side, side ∈ r_command_sides r -> side ∈ r_active_sides r') /\
  (forall side, side ∈ r_active_sides r' ->
     side ∈ r_active_sides r \/ exists st, arm_status d side = Ok st /\ in_control st = true).
Proof.
  unfold watch_arm_dropout, mbind, st_bind, st_get in Hwatch. rewrite Hrun, Hlive in Hwatch.
  rewrite bool_decide_false in Hwatch by done. simpl in Hwatch. unfold reads, st_lift in Hwatch.
  destruct (watch_sides _ _ _ _) as [[active dropped]|] eqn:Ew; [|done].
  apply watch_sides_ok in Ew as (H1 & H2 & H3). destruct dropped as [side|].
  - destruct H3 as (Harm & Hs & Ha & st & Hst & Hic).
    assert (Hold : side ∈ r_active_sides r).
    { destruct (H2 side Ha) as [?|(st' & ? & ?)]; [done|congruence]. }
    match type of Hwatch with handle_stop ?D = _ =>
      destruct (handle_stop_run D d' _ (run_watch (r_watchdog_armed r) active r) Hwatch eq_refl)
        as (_ & _ & (r' & Hr' & _ & _ & _ & Heq) & Hstop & _) end.
    destruct (Hstop Hlive) as [_ Hmode]. rewrite (Heq Hlive) in Hr'. exists (stop_run (run_watch (r_watchdog_armed r) active r)).
    split_and!; [done| |done|by left|exact H2]. split; [|done]. intros _. split; [done|]. exists side, st.
    by split_and!.
  - injection Hwatch as <-. eexists. split; [reflexivity|]. simpl. split_and!; [|congruence| |exact H2].
    + split; [congruence|]. intros [Harm (side & st & Hs & Ha & Hst & Hic)].
      destruct (H3 side st Hs Hst) as [_ Hn]. by destruct (Hn Hic Harm).
    + intros [?|Hall]%orb_true_iff; [by left|right]. intros side Hs.
      rewrite forallb_forall in Hall. specialize (Hall side). rewrite <-list_elem_of_In in Hall.
      by apply Hall, bool_decide_eq_true in Hs.
Qed.

(** A run with its watchdog armed whose arm no longer publishes. *)
Definition demo_armed : daemon :=
  with_run (Some (MkRun COLLECTION (JStr "pour") 1 false ["left"] false true ["left"])) demo_booted.

Lemma dropout_stops_run_witness :
  exists r', d_run (watch_arm_dropout demo_armed).1 = Some r' /\ r_stopping r' = true.
Proof.
  destruct (dropout_stops_run demo_armed (watch_arm_dropout demo_armed).1
    (MkRun COLLECTION (JStr "pour") 1 false ["left"] false true ["left"])) as (r' & Hr & Hiff & _);
    [reflexivity|reflexivity|discriminate|vm_compute; reflexivity|].
  exists r'. split; [exact Hr|]. apply Hiff. split; [reflexivity|]. exists "left", None.
  split_and!; [left|left|vm_compute; reflexivity|reflexivity].
Defined.

(** *** Switching *)

(** A switch is a stop followed by a start: while a run is active the switch stops it
    and holds the new start; the held start does nothing until that run has been reaped, is
    dropped by a stop, and is resolved (fired through the normal start, or abandoned after
    its deadline) as soon as no run is active, unless an arm is still winding down within
    the deadline. *)
Theorem switch_lifecycle (e : env) (c : cmd) (d : daemon) :
  (forall d' r, handle_switch e c d = (d', Returned tt) -> validate_start c = None -> d_run d = Some r ->
     d_pending d' = Some (MkPending c None) /\
     exists r', d_run d' = Some r' /\ r_stopping r' = true /\ r_proc r' = r_proc r) /\
  (forall r, d_run d = Some r -> tend_pending e d = (d, Returned false)) /\
  (forall d', handle_stop d = (d', Returned tt) -> d_pending d' = None) /\
  (forall p busy, d_run d = None -> d_pending d = Some p -> arms_still_in_control d = Ok busy ->
     let deadline := default (fadd (e_now e) PENDING_WINDDOWN_S) (p_deadline p) in
     let d0 := with_pending (Some (MkPending (p_cmd p) (Some deadline))) d in
     tend_pending e d =
       match busy with
       | [] => (clear_pending;; handle_start e (p_cmd p);; mret true) d0
       | _ => if flt (e_now e) deadline then (d0, Returned false)
              else (clear_pending;; set_message MAbandoned;; mret true) d0
       end).
Proof.
  split_and!.
  - intros d' r Hs Hv Hr. unfold handle_switch, mbind, st_bind, st_get in Hs. rewrite Hv, Hr in Hs.
    destruct (handle_stop d) as [d1 o1] eqn:E.
    destruct (handle_stop_run d d1 o1 r E Hr) as (-> & _ & (r' & Hr' & ? & ? & _) & _).
    injection Hs as <-. split; [done|]. exists r'. by split_and!.
  - intros r Hr. unfold tend_pending, mbind, st_bind, st_get. rewrite Hr. by destruct (d_pending d).
  - intros d' Hs. unfold handle_stop, mbind, st_bind, st_get in Hs.
    destruct (d_pending d) eqn:Ep, (d_run d) as [r|] eqn:Er; try destruct (r_stopping r);
      injection Hs as <-; done.
  - intros p busy Hr Hp Hb deadline d0. unfold tend_pending, mbind, st_bind, st_get. rewrite Hp, Hr.
    unfold st_modify at 1, reads, st_lift. fold deadline d0.
    change (arms_still_in_control d0) with (arms_still_in_control d). rewrite Hb.
    destruct busy; [done|]. by destruct (flt (e_now e) deadline).
Qed.

(** The watchdog's stop is not a change the loop publishes at once: within the heartbeat
    period [session.json] still shows the mode before it. *)
Example dropout_not_published :
  let d := (serve_tick [] (demo_at "collection" 1) Orphans.demo_env (Clocks f1 f0 f1 f0) demo_armed).1 in
  ss_mode (d_state d) = SAVING /\ ss_mode <$> d_file d = Some VIEWING.
Proof. by vm_compute. Qed.
