(* ===== verification/Collect.v ===== *)
(** * The collection loop: teleoperation and recording

    Models [collection/features.py] ([FrameBuilder]), [collection/loop.py]
    ([CollectionLoop]) and the leader freshness rules of [interfaces/factr/interface.py].
    Each tick sees one observation: the leaders' samples, the stream snapshot, the operator's
    keys and the stop event.  What is posted to the arms and to the dataset is logged. *)

From Stdlib Require Import String.
From S2P Require Import Prelude Float64 Ring Streams Channel Convention Layout Process Source Arm Session.
Local Open Scope string_scope.
Local Open Scope nat_scope.

(** ** Leaders *)

(** [fresh_leader_positions]: [latest] is the newest sample and its stamp of a stream the
    consumer has attached, [None] when it is not subscribed or empty. *)
Definition fresh_leader_positions (latest : string -> option (list f64 * Z)) (max_age_ns now_ns : Z)
    (servers : list string) : list (string * list f64) :=
  omap (fun side =>
    match latest (factr_stream_name side) with
    | Some (v, t) => if (max_age_ns <? now_ns - t)%Z then None else Some (side, v)
    | None => None
    end) servers.

(** One poll of [wait_leaders_fresh]. *)
Record leader_poll := LeaderPoll {
  lp_stop : bool; lp_fresh : list (string * list f64); lp_now : f64;
}.

(** [wait_leaders_fresh]; [None]: still waiting. *)
Fixpoint wait_leaders_loop (servers : list string) (deadline : f64) (polls : list leader_poll) :
    option (res unit) :=
  match polls with
  | [] => None
  | p :: polls =>
      if lp_stop p then Some (Ok tt)
      else if forallb (fun s => dmem s (lp_fresh p)) servers then Some (Ok tt)
      else if flt deadline (lp_now p) then Some (Raise FactrError)
      else wait_leaders_loop servers deadline polls
  end.

Definition wait_leaders_fresh (servers : list string) (start timeout_s : f64)
    (polls : list leader_poll) : option (res unit) :=
  match servers with [] => Some (Ok tt) | _ => wait_leaders_loop servers (fadd start timeout_s) polls end.

(** ** [FrameBuilder] *)

(** A camera view exported as an image: feature key, stream, shape. *)
Record image := Image { im_key : string; im_stream : string; im_shape : list Z }.

Record FrameBuilder := Builder {
  fb_layout : DFCStateActionLayout;
  fb_factr_streams : list string;
  fb_images : list image;
  fb_instruction : string;
}.

Definition image_of (name : string) (cam : CameraCfg) (rgb : list string) (view : string) : res image :=
  let suffix := match rgb with [_] => "" | _ => "_" +:+ view end in
  let? shape := view_shape cam view in
  Ok (Image ("observation.images." +:+ name +:+ suffix) (camera_stream_name name view) shape).

Definition camera_images (x : string * CameraCfg) : res (list image) :=
  let rgb := List.filter (fun v => bool_decide (v ∈ RGB_VIEWS)) (cam_views x.2) in
  mapM_res (image_of x.1 x.2 rgb) rgb.

(** [FrameBuilder.__init__]. *)
Definition frame_builder (arms : list (string * ArmShape)) (teleop_sides : list string)
    (cameras : list (string * CameraCfg)) (instruction : string) (state_signals : list string) :
    res FrameBuilder :=
  let? l := from_arms arms state_signals teleop_sides in
  let? images := mapM_res camera_images cameras in
  Ok (Builder l (sides l ≫= (fun side => [factr_stream_name side; raw_factr_stream_name side]))
        (concat images) instruction).

Definition stream_names (b : FrameBuilder) : list string :=
  (state_stream_names (fb_layout b) ++ fb_factr_streams b ++ (im_stream <$> fb_images b))%list.

(** A snapshot: the newest sample of each subscribed stream, when it has one. *)
Definition snapshot := list (string * option (list f64)).

Definition newest_in (s : snapshot) (name : string) : option (list f64) :=
  match dget name s with Some (Some v) => Some v | _ => None end.

Definition missing_streams (b : FrameBuilder) (s : snapshot) : list string :=
  List.filter (fun n => negb (bool_decide (is_Some (newest_in s n)))) (stream_names b).

(** [actions_from_leaders]: joint targets and gripper values of the sides that have a
    leader sample. *)
Definition actions_from_leaders (b : FrameBuilder) (leaders : list (string * list f64)) :
    res (list (string * list f64) * list (string * f64)) :=
  foldM_res (fun acc side =>
    match dget side leaders with
    | None => Ok acc
    | Some raw =>
        let? d := action_dof (fb_layout b) side in
        Ok (dset side (take d raw) acc.1, dset side (default f0 (list.last raw)) acc.2)
    end) (sides (fb_layout b)) ([], []).

Record frame := Frame {
  fr_state : list f64;
  fr_action : list f64;
  fr_task : string;
  fr_factr : list (string * list f64);          (* observation.factr.<side> *)
  fr_factr_raw : list (string * list f64);      (* observation.factr_raw.<side> *)
  fr_images : list (string * (list Z * list f64));
}.

(** The values of a list of streams; [None] as soon as one has no sample. *)
Definition all_newest {A} (s : snapshot) (l : list (A * string)) : option (list (A * list f64)) :=
  mapM (fun x : A * string => pair x.1 <$> newest_in s x.2) l.

Definition reshape (shape : list Z) (v : list f64) : res (list Z * list f64) :=
  if (Z.of_nat (length v) =? foldr Z.mul 1 shape)%Z then Ok (shape, v) else Raise ValueError.

(** The images, in order: a view without a sample ends the tick, a sample that does not have
    its view's size raises. *)
Fixpoint build_images (s : snapshot) (l : list image) :
    res (option (list (string * (list Z * list f64)))) :=
  match l with
  | [] => Ok (Some [])
  | i :: l =>
      match newest_in s (im_stream i) with
      | None => Ok None
      | Some v =>
          let? f := reshape (im_shape i) v in
          let? r := build_images s l in
          Ok (cons (im_key i, f) <$> r)
      end
  end.

Definition single (x : string * list f64) : string * list f64 := (x.1, f32 <$> x.2).

(** [build]: [None] when a stream has no sample yet. *)
Definition build (b : FrameBuilder) (s : snapshot) (q_d : list (string * list f64))
    (gripper : list (string * f64)) : res (option frame) :=
  let l := fb_layout b in
  let keys := state_keys (state_sides l) (state_signals l) in
  match all_newest s ((fun k => (k, (k.1 +:+ "/" +:+ k.2))) <$> keys) with
  | None => Ok None
  | Some vals =>
      let? state := pack_state l vals in
      if existsb (fun side => negb (dmem side q_d)) (sides l) then Ok None
      else
        let? action := Layout.pack_action l q_d gripper in
        match all_newest s ((fun side => (side, factr_stream_name side)) <$> sides l),
              all_newest s ((fun side => (side, raw_factr_stream_name side)) <$> sides l) with
        | Some conv, Some raw =>
            let? images := build_images s (fb_images b) in
            Ok (Frame state action (fb_instruction b) (single <$> conv) (single <$> raw) <$> images)
        | _, _ => Ok None
        end
  end.

(** ** [CollectionLoop] *)

Inductive posting :=
  | Setpoint (side : string) (v : list f64)         (* brain.command *)
  | GripperTarget (side : string) (x : f64)         (* brain.command_gripper *)
  | AddFrame (f : frame)
  | SaveEpisode
  | DiscardEpisode
  | Finalize.

Inductive key := END | DISCARD | KSTOP.

Record tick_obs := TickObs {
  to_stop : bool;                                   (* stop_event.is_set() before the tick *)
  to_leaders : list (string * list f64);
  to_snapshot : snapshot;
  to_keys : list key;
}.

Record collection := Collection {
  cl_last_qd : list (string * list f64);
  cl_last_grip : list (string * f64);
  cl_last_missing : list string;
  cl_episodes_done : nat;
  cl_stop : bool;                                   (* set by the operator *)
  cl_log : list posting;
}.

Definition C := ST collection.

Definition post (x : posting) : C unit :=
  st_modify (fun c => Collection (cl_last_qd c) (cl_last_grip c) (cl_last_missing c)
    (cl_episodes_done c) (cl_stop c) (cl_log c ++ [x])%list).

Section loop.
Context (b : FrameBuilder) (command_arms : list (string * ControlCfg)) (num_episodes : nat)
  (operator_paced : bool).

(** Fill one recorded side: the fresh reading is remembered; without one, the last known
    reading, or zeros before the first. *)
Definition fill_side (side : string)
    (acc : list (string * list f64) * list (string * f64)) :
    C (list (string * list f64) * list (string * f64)) := fun c =>
  match dget side acc.1 with
  | Some q =>
      let g := default f0 (dget side acc.2) in
      (Collection (dset side q (cl_last_qd c)) (dset side g (cl_last_grip c)) (cl_last_missing c)
         (cl_episodes_done c) (cl_stop c) (cl_log c), Returned acc)
  | None =>
      match dget side (cl_last_qd c), action_dof (fb_layout b) side with
      | Some q, _ => (c, Returned (dset side q acc.1, dset side (default f0 (dget side (cl_last_grip c))) acc.2))
      | None, Ok d => (c, Returned (dset side (replicate d f0) acc.1,
                                    dset side (default f0 (dget side (cl_last_grip c))) acc.2))
      | None, Raise x => (c, Raised x)
      end
  end.

Fixpoint fill_sides (ss : list string) (acc : list (string * list f64) * list (string * f64)) :
    C (list (string * list f64) * list (string * f64)) :=
  match ss with
  | [] => mret acc
  | s :: ss => acc' ← fill_side s acc; fill_sides ss acc'
  end.

(** The setpoint ring's width check on a posted vector ([Brain.command]). *)
Definition accepted (ctrl : ControlCfg) (v : list f64) : res (list f64) :=
  let? d := setpoint_dim ctrl in
  if length v =? d then Ok v else Raise ValueError.

(** Command one arm: only with a target that some leader sample produced. *)
Definition command_arm (x : string * ControlCfg) (acts : list (string * list f64) * list (string * f64)) :
    C unit :=
  let '(side, ctrl) := x in
  c ← st_get;
  if negb (dmem side (cl_last_qd c)) then mret tt
  else
    (if String.eqb (kind ctrl) "qpos" then
       q ← st_lift (of_option KeyError (dget side acts.1));
       v ← st_lift (pack_streamed ctrl [("q_d", q); ("dq_d", replicate (length q) f0)]);
       v ← st_lift (accepted ctrl v);
       post (Setpoint side v)
     else mret tt);;
    g ← st_lift (of_option KeyError (dget side acts.2));
    post (GripperTarget side g).

Fixpoint command_all (l : list (string * ControlCfg))
    (acts : list (string * list f64) * list (string * f64)) : C unit :=
  match l with
  | [] => mret tt
  | x :: l => command_arm x acts;; command_all l acts
  end.

Definition collect_tick (o : tick_obs) : C bool :=
  acts0 ← st_lift (actions_from_leaders b (to_leaders o));
  acts ← fill_sides (sides (fb_layout b)) acts0;
  command_all command_arms acts;;
  f ← st_lift (build b (to_snapshot o) acts.1 acts.2);
  match f with
  | None =>
      st_modify (fun c => Collection (cl_last_qd c) (cl_last_grip c)
        (missing_streams b (to_snapshot o)) (cl_episodes_done c) (cl_stop c) (cl_log c));;
      mret false
  | Some f => post (AddFrame f);; mret true
  end.

(** [_save]. *)
Definition save (frames_in_ep : nat) : C nat :=
  match frames_in_ep with
  | 0 => mret 0
  | _ =>
      post SaveEpisode;;
      st_modify (fun c => Collection (cl_last_qd c) (cl_last_grip c) (cl_last_missing c)
        (S (cl_episodes_done c)) (cl_stop c) (cl_log c));;
      mret 0
  end.

Definition handle_key (k : key) (frames : nat) : C nat :=
  match k with
  | END => save frames
  | DISCARD => post DiscardEpisode;; mret 0
  | KSTOP =>
      st_modify (fun c => Collection (cl_last_qd c) (cl_last_grip c) (cl_last_missing c)
        (cl_episodes_done c) true (cl_log c));;
      mret frames
  end.

Fixpoint handle_keys (ks : list key) (frames : nat) : C nat :=
  match ks with
  | [] => mret frames
  | k :: ks => frames' ← handle_key k frames; handle_keys ks frames'
  end.

(** The loop: it ends with the frames of the episode in progress, which the [finally]
    clause needs also when a tick raises. *)
Fixpoint collect_loop (tape : list tick_obs) (frames : nat) (c : collection) :
    collection * nat * outcome unit :=
  match tape with
  | [] => (c, frames, Running)
  | o :: tape =>
      if to_stop o || cl_stop c || (num_episodes <=? cl_episodes_done c) then (c, frames, Returned tt)
      else
        match collect_tick o c with
        | (c', Returned rec) =>
            let frames := if rec then S frames else frames in
            match handle_keys (if operator_paced then to_keys o else []) frames c' with
            | (c'', Returned frames') => collect_loop tape frames' c''
            | (c'', Raised x) => (c'', frames, Raised x)
            | (c'', Running) => (c'', frames, Running)
            end
        | (c', Raised x) => (c', frames, Raised x)
        | (c', Running) => (c', frames, Running)
        end
  end.

(** The [finally] clause: a run without an operator saves what accrued, one with an operator
    drops an unfinished episode; the dataset is finalised. *)
Definition finish (frames : nat) : C unit :=
  (if operator_paced then
     match frames with 0 => mret tt | _ => post DiscardEpisode end
   else save frames;; mret tt);;
  post Finalize.

Definition collect_run (tape : list tick_obs) (c : collection) : collection * outcome unit :=
  match collect_loop tape 0 c with
  | (c', frames, Running) => (c', Running)
  | (c', frames, o) => ((finish frames c').1, o)
  end.
End loop.

Definition collection_init : collection := Collection [] [] [] 0 false [].

(** ** Lemmas *)

(** What a side's target is after the observations [seen]: the newest leader sample. *)
Definition last_sample (side : string) (seen : list tick_obs) : option (list f64) :=
  foldl (fun acc o => match dget side (to_leaders o) with Some r => Some r | None => acc end) None seen.

Lemma last_sample_snoc side seen o :
  last_sample side (seen ++ [o])%list =
    match dget side (to_leaders o) with Some r => Some r | None => last_sample side seen end.
Proof. unfold last_sample. by rewrite foldl_app. Qed.

Lemma last_sample_seen side seen r :
  last_sample side seen = Some r -> exists o, o ∈ seen /\ dget side (to_leaders o) = Some r.
Proof.
  induction seen as [|o seen IH] using rev_ind; [done|]. rewrite last_sample_snoc.
  destruct (dget side (to_leaders o)) eqn:E.
  - intros [= ->]. exists o. set_solver.
  - intros (o' & ? & ?)%IH. exists o'. set_solver.
Qed.

Section facts.
Context (b : FrameBuilder) (command_arms : list (string * ControlCfg)).
Hypothesis Hnd : NoDup (sides (fb_layout b)).

Let acc := (list (string * list f64) * list (string * f64))%type.

(** The targets computed from the fresh samples. *)
Lemma actions_from_leaders_ok leaders acts :
  actions_from_leaders b leaders = Ok acts ->
  forall side, dget side acts.1 =
    if decide (side ∈ sides (fb_layout b)) then
      match dget side leaders, action_dof (fb_layout b) side with
      | Some raw, Ok d => Some (take d raw)
      | _, _ => None
      end
    else None.
Proof.
  unfold actions_from_leaders. revert Hnd. generalize (sides (fb_layout b)). intros ss Hss.
  assert (Hgen : forall a a' : acc, foldM_res (fun acc side =>
    match dget side leaders with
    | None => Ok acc
    | Some raw => let? d := action_dof (fb_layout b) side in
        Ok (dset side (take d raw) acc.1, dset side (default f0 (list.last raw)) acc.2)
    end) ss a = Ok a' -> (forall s, s ∈ ss -> dget s a.1 = None) ->
    forall side, dget side a'.1 = if decide (side ∈ ss) then
      match dget side leaders, action_dof (fb_layout b) side with
      | Some raw, Ok d => Some (take d raw) | _, _ => None end else dget side a.1).
  { induction ss as [|s ss IH]; intros a a' H Ha side; simpl in H.
    { injection H as <-. by rewrite decide_False by apply not_elem_of_nil. }
    apply list.NoDup_cons in Hss as [Hs Hss]. specialize (IH Hss).
    assert (Hother : forall s', s' ∈ ss -> s' ≠ s) by set_solver.
    destruct (dget s leaders) as [raw|] eqn:Er.
    - res_simp. apply (fun H1 H2 => IH _ _ H1 H2 side) in H.
      2:{ intros s' Hs'. simpl. rewrite dget_dset_ne by auto. set_solver. }
      rewrite H. simpl. destruct (decide (side ∈ ss)); destruct (decide (side ∈ s :: ss)) as [Hin|Hn];
        [done|set_solver| |].
      + assert (side = s) as -> by set_solver. by rewrite dget_dset_eq, Er, E0.
      + rewrite dget_dset_ne by set_solver. done.
    - apply (fun H1 H2 => IH _ _ H1 H2 side) in H; [|set_solver]. rewrite H.
      destruct (decide (side ∈ ss)); destruct (decide (side ∈ s :: ss)) as [Hin|Hn]; [done|set_solver| |done].
      assert (side = s) as -> by set_solver. rewrite Er. apply Ha. set_solver. }
  intros H side. rewrite (Hgen _ _ H) by done. done.
Qed.

(** Filling the recorded sides: what is remembered and what the tick uses. *)
Lemma fill_sides_ok ss : NoDup ss -> forall (a a' : acc) c c',
  fill_sides b ss a c = (c', Returned a') ->
  cl_log c' = cl_log c /\ cl_episodes_done c' = cl_episodes_done c /\ cl_stop c' = cl_stop c /\
  (forall side, dget side (cl_last_qd c') =
     if decide (side ∈ ss) then match dget side a.1 with Some q => Some q | None => dget side (cl_last_qd c) end
     else dget side (cl_last_qd c)) /\
  (forall side, side ∉ ss -> dget side a'.1 = dget side a.1) /\
  (forall side, side ∈ ss -> exists q, dget side a'.1 = Some q /\
     match dget side (cl_last_qd c') with
     | Some q' => q = q'
     | None => exists d, action_dof (fb_layout b) side = Ok d /\ q = replicate d f0
     end).
Proof.
  induction ss as [|s ss IH]; intros Hss a a' c c' H; simpl in H.
  { injection H as <- <-. split_and!; try done. intros side Hs. by apply not_elem_of_nil in Hs. }
  apply list.NoDup_cons in Hss as [Hs Hss]. unfold mbind, st_bind in H.
  destruct (fill_side b s a c) as [c1 [a1|x|]] eqn:E1; [|done|done].
  apply IH in H as (Hl & He & Hst & Hq & Hout & Hin); [|done].
  assert (Hone : cl_log c1 = cl_log c /\ cl_episodes_done c1 = cl_episodes_done c /\ cl_stop c1 = cl_stop c /\
    (forall side, dget side (cl_last_qd c1) = if decide (side = s) then
       match dget s a.1 with Some q => Some q | None => dget s (cl_last_qd c) end else dget side (cl_last_qd c)) /\
    (forall side, side ≠ s -> dget side a1.1 = dget side a.1) /\
    exists q, dget s a1.1 = Some q /\ match dget s (cl_last_qd c1) with
      | Some q' => q = q' | None => exists d, action_dof (fb_layout b) s = Ok d /\ q = replicate d f0 end).
  { unfold fill_side in E1. destruct (dget s a.1) as [q|] eqn:Ea.
    - injection E1 as <- <-. simpl. split_and!; try done.
      + intros side. case_decide; [subst; by rewrite dget_dset_eq|by rewrite dget_dset_ne].
      + exists q. by rewrite dget_dset_eq.
    - destruct (dget s (cl_last_qd c)) as [q|] eqn:Eq; [|destruct (action_dof (fb_layout b) s) as [d|] eqn:Ed; [|done]];
        injection E1 as <- <-; simpl; split_and!; try done;
        try (intros side; case_decide; [subst; by rewrite Eq|done]);
        try (intros side Hne; by rewrite dget_dset_ne);
        rewrite dget_dset_eq, Eq; eauto. }
  destruct Hone as (Hl1 & He1 & Hst1 & Hq1 & Hout1 & q & Hqs & Hqv).
  split_and!; [congruence|congruence|congruence| | |].
  - intros side. rewrite Hq, Hq1. destruct (decide (side = s)) as [->|Hne].
    + rewrite decide_False by done. rewrite decide_True by set_solver. done.
    + rewrite Hout1 by done. destruct (decide (side ∈ ss)); destruct (decide (side ∈ s :: ss)); set_solver.
  - intros side Hn. rewrite Hout, Hout1 by set_solver. done.
  - intros side [->|Hs']%elem_of_cons; [|by apply Hin]. exists q. rewrite Hout by done. split; [done|].
    rewrite Hq, decide_False by done. done.
Qed.

Definition is_dataset (x : posting) : bool :=
  match x with AddFrame _ | SaveEpisode | DiscardEpisode | Finalize => true | _ => false end.

Definition zeros_like (q : list f64) : list f64 := replicate (length q) f0.

(** Only setpoints satisfying [P] and gripper targets have been posted since [c0]. *)
Definition posted (P : string -> list f64 -> Prop) (c0 c : collection) : Prop :=
  cl_last_qd c = cl_last_qd c0 /\ cl_episodes_done c = cl_episodes_done c0 /\ cl_stop c = cl_stop c0 /\
  exists new, cl_log c = (cl_log c0 ++ new)%list /\ Forall (fun x => is_dataset x = false) new /\
    forall side v, Setpoint side v ∈ new -> P side v.

Lemma posted_refl P c : posted P c c.
Proof.
  split_and!; try done. exists []. rewrite app_nil_r. split_and!; [done|done|].
  intros side v Hs. by apply not_elem_of_nil in Hs.
Qed.

Lemma post_keeps P c0 x :
  is_dataset x = false -> (forall side v, x = Setpoint side v -> P side v) -> keeps (posted P c0) (post x).
Proof.
  intros Hx HP c (H1 & H2 & H3 & new & H4 & H5 & H6). split_and!; try done. exists (new ++ [x])%list.
  simpl. rewrite H4, app_assoc. split_and!; [done|apply Forall_app; auto|].
  intros side v [?|?%list_elem_of_singleton]%elem_of_app; [auto|]. by apply HP.
Qed.

Lemma accepted_same ctrl v w : accepted ctrl v = Ok w -> v = w.
Proof. unfold accepted. intros H. res_simp. destruct (length v =? a); by simplify_eq. Qed.

Lemma command_arm_keeps P c0 s ctrl (acts : acc) :
  (forall q v, is_Some (dget s (cl_last_qd c0)) -> dget s acts.1 = Some q ->
     pack_streamed ctrl [("q_d", q); ("dq_d", zeros_like q)] = Ok v -> P s v) ->
  keeps (posted P c0) (command_arm (s, ctrl) acts).
Proof.
  intros HP c Hc. unfold command_arm, mbind at 1, st_bind at 1, st_get.
  destruct (dmem s (cl_last_qd c)) eqn:Ed; simpl; [|exact Hc].
  assert (His : is_Some (dget s (cl_last_qd c0))).
  { destruct Hc as (<- & _). unfold dmem in Ed. by destruct (dget s (cl_last_qd c)). }
  revert c Ed Hc. cut (keeps (posted P c0) ((if String.eqb (kind ctrl) "qpos" then
      q ← st_lift (of_option KeyError (dget s acts.1));
      v ← st_lift (pack_streamed ctrl [("q_d", q); ("dq_d", replicate (length q) f0)]);
      v ← st_lift (accepted ctrl v);
      post (Setpoint s v) else mret tt);;
    g ← st_lift (of_option KeyError (dget s acts.2)); post (GripperTarget s g))).
  { intros Hk c _ Hc. by apply Hk. }
  apply keeps_bind.
  - destruct (String.eqb (kind ctrl) "qpos"); [|apply keeps_ret].
    apply keeps_lift_bind. intros q Hq. apply keeps_lift_bind. intros v Hv.
    apply keeps_lift_bind. intros v' <-%accepted_same. apply post_keeps; [done|].
    intros side w [= <- <-]. destruct (dget s acts.1) eqn:Eq; simpl in Hq; [|done]. simplify_eq. by eapply HP.
  - intros []. apply keeps_lift_bind. intros g _. by apply post_keeps.
Qed.

Lemma command_all_keeps P c0 (acts : acc) l :
  (forall s ctrl q v, (s, ctrl) ∈ l -> is_Some (dget s (cl_last_qd c0)) -> dget s acts.1 = Some q ->
     pack_streamed ctrl [("q_d", q); ("dq_d", zeros_like q)] = Ok v -> P s v) ->
  keeps (posted P c0) (command_all l acts).
Proof.
  induction l as [|[s ctrl] l IH]; intros HP; simpl; [apply keeps_ret|]. apply keeps_bind.
  - apply command_arm_keeps. intros q v. apply HP. set_solver.
  - intros _. apply IH. intros s' ctrl' q v Hin. apply HP. set_solver.
Qed.

(** The remembered targets are the newest leader samples of the recorded sides. *)
Definition remembers (seen : list tick_obs) (c : collection) : Prop :=
  forall side, dget side (cl_last_qd c) =
    if decide (side ∈ sides (fb_layout b)) then
      match last_sample side seen, action_dof (fb_layout b) side with
      | Some raw, Ok d => Some (take d raw)
      | _, _ => None
      end
    else None.

(** A setpoint posted after [seen]: the newest leader sample of the side, packed. *)
Definition real_target (seen : list tick_obs) (side : string) (v : list f64) : Prop :=
  exists ctrl raw d, (side, ctrl) ∈ command_arms /\ last_sample side seen = Some raw /\
    action_dof (fb_layout b) side = Ok d /\
    pack_streamed ctrl [("q_d", take d raw); ("dq_d", zeros_like (take d raw))] = Ok v.

(** A frame recorded after [seen]: its action holds, for every recorded side, the newest
    leader sample, or zeros while there was none. *)
Definition recorded_action (seen : list tick_obs) (f : frame) : Prop :=
  exists acts : acc, Layout.pack_action (fb_layout b) acts.1 acts.2 = Ok (fr_action f) /\
    forall side, side ∈ sides (fb_layout b) -> exists d, action_dof (fb_layout b) side = Ok d /\
      dget side acts.1 = Some (match last_sample side seen with
                               | Some raw => take d raw
                               | None => replicate d f0
                               end).

(** Every position-controlled arm of a recorded side with a sample got a setpoint. *)
Definition commanded (seen : list tick_obs) (new : list posting) : Prop :=
  forall side ctrl raw d, (side, ctrl) ∈ command_arms -> kind ctrl = "qpos" -> side ∈ sides (fb_layout b) ->
    last_sample side seen = Some raw -> action_dof (fb_layout b) side = Ok d -> exists v, Setpoint side v ∈ new.

Lemma fill_sides_log ss (a : acc) c0 :
  keeps (fun c => cl_log c = cl_log c0 /\ cl_episodes_done c = cl_episodes_done c0 /\ cl_stop c = cl_stop c0)
    (fill_sides b ss a).
Proof.
  revert a. induction ss as [|s ss IH]; intros a; simpl; [apply keeps_ret|]. apply keeps_bind; [|done].
  intros c Hc. unfold fill_side. repeat case_match; exact Hc.
Qed.

Lemma build_action snap (acts : acc) f :
  build b snap acts.1 acts.2 = Ok (Some f) -> Layout.pack_action (fb_layout b) acts.1 acts.2 = Ok (fr_action f).
Proof.
  unfold build. destruct (all_newest snap _); [|done]. intros H. res_simp.
  destruct (existsb _ _); [done|]. res_simp. do 2 (destruct (all_newest snap _); [|done]). res_simp.
  destruct a1; [|done]. simpl in *. by simplify_eq.
Qed.

(** After the fill: what is remembered, and what each recorded side is given. *)
Lemma fill_remembers seen o acts0 acts c c1 :
  remembers seen c -> actions_from_leaders b (to_leaders o) = Ok acts0 ->
  fill_sides b (sides (fb_layout b)) acts0 c = (c1, Returned acts) ->
  remembers (seen ++ [o])%list c1 /\
  forall side, side ∈ sides (fb_layout b) -> exists d q, action_dof (fb_layout b) side = Ok d /\
    dget side acts.1 = Some q /\
    q = match last_sample side (seen ++ [o])%list with Some raw => take d raw | None => replicate d f0 end.
Proof.
  intros Hrem Ha Hf. apply fill_sides_ok in Hf as (_ & _ & _ & Hq & _ & Hin); [|done].
  assert (Hr : remembers (seen ++ [o])%list c1).
  { intros side. rewrite Hq, last_sample_snoc, (actions_from_leaders_ok _ _ Ha). rewrite (Hrem side).
    destruct (decide (side ∈ sides (fb_layout b))); [|done].
    destruct (dget side (to_leaders o)), (action_dof (fb_layout b) side); try done.
    by destruct (last_sample side seen). }
  split; [done|]. intros side Hs. destruct (Hin side Hs) as (q & Hq1 & Hq2).
  pose proof (Hr side) as Hrs. rewrite decide_True in Hrs by done. rewrite Hrs in Hq2.
  destruct (last_sample side (seen ++ [o])%list) as [raw|] eqn:El.
  - destruct (action_dof (fb_layout b) side) as [d|x] eqn:Ed; [by exists d, q|].
    destruct Hq2 as (d & ? & _). done.
  - destruct Hq2 as (d & Hd & ->). rewrite Hd. by eexists d, _.
Qed.

(** Nothing of a tick waits. *)
Lemma fill_sides_settles ss (a : acc) c : (fill_sides b ss a c).2 ≠ Running.
Proof.
  revert a c. induction ss as [|s ss IH]; intros a c; simpl; [done|]. unfold mbind, st_bind.
  assert (Hs : (fill_side b s a c).2 ≠ Running) by (unfold fill_side; repeat case_match; done).
  destruct (fill_side b s a c) as [c1 [a1|x|]]; [apply IH|done|done].
Qed.

Lemma command_all_settles (acts : acc) l c : (command_all l acts c).2 ≠ Running.
Proof.
  assert (Hs : settles (fun _ => True) (command_all l acts)).
  { induction l as [|[s ctrl] l IH]; simpl; [auto with dfc|]. apply settles_bind; [|done].
    apply settles_bind; [auto with dfc|]. intros c0. destruct (negb _); [auto with dfc|].
    assert (Hp : forall x, settles (fun _ : collection => True) (post x)) by (intros x; by apply settles_modify).
    apply settles_bind; [|intros; apply settles_bind; auto with dfc].
    destruct (String.eqb _ _); [|auto with dfc].
    do 3 (apply settles_bind; [auto with dfc|intros ?]). apply Hp. }
  by apply Hs.
Qed.

Lemma post_grows x c c' : post x c = (c', Returned tt) ->
  cl_last_qd c' = cl_last_qd c /\ cl_log c' = (cl_log c ++ [x])%list.
Proof. by intros [= <-]. Qed.

Lemma command_arm_posts s ctrl (acts : acc) c c' :
  command_arm (s, ctrl) acts c = (c', Returned tt) ->
  cl_last_qd c' = cl_last_qd c /\ exists new, cl_log c' = (cl_log c ++ new)%list /\
  (kind ctrl = "qpos" -> is_Some (dget s (cl_last_qd c)) -> exists v, Setpoint s v ∈ new).
Proof.
  unfold command_arm. intros (c0 & c1 & [= <- <-] & H)%bind_returned.
  destruct (dmem s (cl_last_qd c)) eqn:Ed; simpl in H.
  2:{ injection H as <-. split; [done|]. exists []. rewrite app_nil_r. split; [done|].
      intros _ [q Hq]. unfold dmem in Ed. by rewrite Hq in Ed. }
  apply bind_returned in H as ([] & c2 & H1 & H).
  apply bind_returned in H as (g & c3 & [_ ->]%lift_returned & [Hq3 Hl3]%post_grows).
  destruct (String.eqb_spec (kind ctrl) "qpos") as [Hk|Hk].
  - apply bind_returned in H1 as (q & c4 & [_ ->]%lift_returned & H1).
    apply bind_returned in H1 as (v & c4 & [_ ->]%lift_returned & H1).
    apply bind_returned in H1 as (w & c4 & [_ ->]%lift_returned & [Hq4 Hl4]%post_grows).
    split; [congruence|]. eexists. rewrite Hl3, Hl4, <-app_assoc. split; [done|]. intros _ _. exists w. set_solver.
  - injection H1 as <-. split; [congruence|]. by eexists.
Qed.

(** A round of commands that returned has posted a setpoint to every position-controlled arm
    with a remembered target. *)
Lemma command_all_posts (acts : acc) l : forall c c',
  command_all l acts c = (c', Returned tt) ->
  cl_last_qd c' = cl_last_qd c /\ exists new, cl_log c' = (cl_log c ++ new)%list /\
  forall s ctrl, (s, ctrl) ∈ l -> kind ctrl = "qpos" -> is_Some (dget s (cl_last_qd c)) ->
    exists v, Setpoint s v ∈ new.
Proof.
  induction l as [|[s ctrl] l IH]; intros c c' H; simpl in H.
  { injection H as <-. split; [done|]. exists []. rewrite app_nil_r. split; [done|].
    intros s ctrl Hin. by apply not_elem_of_nil in Hin. }
  apply bind_returned in H as ([] & c1 & (Hq1 & n1 & Hl1 & H1)%command_arm_posts & (Hq2 & n2 & Hl2 & H2)%IH).
  split; [congruence|]. exists (n1 ++ n2)%list. split; [by rewrite Hl2, Hl1, app_assoc|].
  intros s' ctrl' [[= -> ->]|Hin]%elem_of_cons Hk Hs.
  - destruct (H1 Hk Hs) as [v ?]. exists v. set_solver.
  - rewrite <-Hq1 in Hs. destruct (H2 s' ctrl' Hin Hk Hs) as [v ?]. exists v. set_solver.
Qed.

Lemma collect_tick_ok seen o c c' r :
  remembers seen c -> collect_tick b command_arms o c = (c', r) ->
  cl_episodes_done c' = cl_episodes_done c /\ cl_stop c' = cl_stop c /\
  exists new, cl_log c' = (cl_log c ++ new)%list /\
    (forall side v, Setpoint side v ∈ new -> real_target (seen ++ [o])%list side v) /\
    match r with
    | Returned true => exists new0 f, new = (new0 ++ [AddFrame f])%list /\
        Forall (fun x => is_dataset x = false) new0 /\ recorded_action (seen ++ [o])%list f
    | _ => Forall (fun x => is_dataset x = false) new
    end /\
    r ≠ Running /\
    (forall rec, r = Returned rec -> remembers (seen ++ [o])%list c' /\ commanded (seen ++ [o])%list new).
Proof.
  intros Hrem H. unfold collect_tick, mbind at 1, st_bind at 1, st_lift at 1 in H.
  destruct (actions_from_leaders b (to_leaders o)) as [acts0|x] eqn:Ea.
  2:{ injection H as <- <-. split_and!; try done. exists []. rewrite app_nil_r. split_and!; try done.
      intros side v Hs. by apply not_elem_of_nil in Hs. }
  unfold mbind at 1, st_bind at 1 in H.
  pose proof (fill_sides_log (sides (fb_layout b)) acts0 c c) as Hlog.
  pose proof (fill_sides_settles (sides (fb_layout b)) acts0 c) as Hset.
  destruct (fill_sides b (sides (fb_layout b)) acts0 c) as [c1 r1] eqn:Ef. simpl in Hlog.
  destruct Hlog as (Hl1 & He1 & Hs1); [done|].
  destruct r1 as [acts|x|]; [| |done].
  2: injection H as <- <-; split_and!; try done; exists []; rewrite app_nil_r; split_and!; try done;
       intros side v Hs; by apply not_elem_of_nil in Hs.
  destruct (fill_remembers seen o acts0 acts c c1 Hrem Ea Ef) as [Hr1 Hacts].
  unfold mbind at 1, st_bind at 1 in H.
  assert (Hcmd : keeps (posted (real_target (seen ++ [o])%list) c1) (command_all command_arms acts)).
  { apply command_all_keeps. intros s ctrl q v Hin [q' Hq'] Hq Hv. rewrite (Hr1 s) in Hq'.
    destruct (decide (s ∈ sides (fb_layout b))) as [Hs|]; [|done].
    destruct (Hacts s Hs) as (d & q'' & Hd & Hq'' & Heq). rewrite Hd in Hq'.
    destruct (last_sample s (seen ++ [o])%list) as [raw|] eqn:El; [|done].
    exists ctrl, raw, d. simplify_eq. by split_and!. }
  specialize (Hcmd c1 (posted_refl _ c1)).
  pose proof (command_all_posts acts command_arms c1) as Hposts.
  pose proof (command_all_settles acts command_arms c1) as Hsc.
  destruct (command_all command_arms acts c1) as [c2 r2] eqn:Ec. simpl in Hcmd.
  destruct Hcmd as (Hq2 & He2 & Hs2 & new & Hl2 & Hd2 & Hn2).
  assert (Hr2 : remembers (seen ++ [o])%list c2) by (intros side; rewrite Hq2; apply Hr1).
  destruct r2 as [[]|x|]; [| |done].
  2: injection H as <- <-; split_and!; [congruence|congruence|]; exists new; rewrite <-Hl1; by split_and!.
  assert (Hcom : commanded (seen ++ [o])%list new).
  { intros side ctrl raw d Hin Hk Hs Hraw Hd. destruct (Hposts c2 eq_refl) as (_ & new' & Hl' & Hall).
    rewrite Hl2 in Hl'. apply app_inv_head in Hl' as <-. apply (Hall side ctrl); [done|done|].
    rewrite (Hr1 side), decide_True, Hraw, Hd by done. by eexists. }
  rewrite Hl1 in Hl2. unfold mbind at 1, st_bind at 1, st_lift at 1 in H.
  destruct (build b (to_snapshot o) acts.1 acts.2) as [[f|]|x] eqn:Eb; injection H as <- <-; simpl;
    (split_and!; [congruence|congruence|]).
  - exists (new ++ [AddFrame f])%list. split_and!; [by rewrite Hl2, app_assoc| | |done|].
    + intros side v [?|?%list_elem_of_singleton]%elem_of_app; [auto|done].
    + exists new, f. split_and!; [done|done|]. exists acts. split; [by apply build_action in Eb|].
      intros side Hs. destruct (Hacts side Hs) as (d & q & Hd & Hq & ->). by exists d.
    + intros rec _. split; [done|]. intros side ctrl raw d H1 H2 H3 H4 H5.
      destruct (Hcom side ctrl raw d H1 H2 H3 H4 H5) as [v ?]. exists v. set_solver.
  - exists new. by split_and!.
  - exists new. by split_and!.
Qed.

(** Saving, discarding and stopping leave targets and setpoints alone. *)
Definition same_targets (c0 c : collection) : Prop :=
  cl_last_qd c = cl_last_qd c0 /\
  exists new, cl_log c = (cl_log c0 ++ new)%list /\
    Forall (fun x => x = SaveEpisode \/ x = DiscardEpisode \/ x = Finalize) new.

Lemma same_targets_refl c : same_targets c c.
Proof. split; [done|]. exists []. by rewrite app_nil_r. Qed.

Lemma same_targets_post c0 x :
  x = SaveEpisode \/ x = DiscardEpisode \/ x = Finalize -> keeps (same_targets c0) (post x).
Proof.
  intros Hx c (H1 & new & H2 & H3). split; [done|]. exists (new ++ [x])%list. simpl.
  rewrite H2, app_assoc. split; [done|]. apply Forall_app. auto.
Qed.

Lemma save_targets c0 n : keeps (same_targets c0) (save n).
Proof.
  destruct n; simpl; [apply keeps_ret|]. apply keeps_bind; [by apply same_targets_post; auto|].
  intros _. apply keeps_bind; [|intros _; apply keeps_ret]. apply keeps_modify. intros c Hc. exact Hc.
Qed.

Lemma handle_keys_targets c0 ks : forall n, keeps (same_targets c0) (handle_keys ks n).
Proof.
  induction ks as [|k ks IH]; intros n; simpl; [apply keeps_ret|]. apply keeps_bind; [|done].
  destruct k; simpl; [apply save_targets| |].
  - apply keeps_bind; [by apply same_targets_post; auto|]. intros _. apply keeps_ret.
  - apply keeps_bind; [|intros _; apply keeps_ret]. apply keeps_modify. intros c Hc. exact Hc.
Qed.

Lemma finish_targets c0 op n : keeps (same_targets c0) (finish op n).
Proof.
  apply keeps_bind; [|intros _; by apply same_targets_post; auto].
  destruct op; [destruct n; [apply keeps_ret|by apply same_targets_post; auto]|].
  apply keeps_bind; [apply save_targets|]. intros _. apply keeps_ret.
Qed.

Lemma same_targets_remembers seen c0 c : same_targets c0 c -> remembers seen c0 -> remembers seen c.
Proof. intros [Hq _] Hr side. rewrite Hq. apply Hr. Qed.

Lemma handle_keys_settles ks n c : (handle_keys ks n c).2 ≠ Running.
Proof.
  revert n c. induction ks as [|k ks IH]; intros n c; simpl; [done|]. unfold mbind at 1, st_bind at 1.
  destruct k; simpl; [destruct n|..]; apply IH.
Qed.

Lemma collect_tick_settles o c : (collect_tick b command_arms o c).2 ≠ Running.
Proof.
  unfold collect_tick, mbind at 1, st_bind at 1, st_lift at 1.
  destruct (actions_from_leaders b (to_leaders o)) as [acts0|x]; [|done]. unfold mbind at 1, st_bind at 1.
  pose proof (fill_sides_settles (sides (fb_layout b)) acts0 c) as H1.
  destruct (fill_sides b (sides (fb_layout b)) acts0 c) as [c1 [acts|x|]]; [|done|done].
  unfold mbind at 1, st_bind at 1. pose proof (command_all_settles acts command_arms c1) as H2.
  destruct (command_all command_arms acts c1) as [c2 [[]|x|]]; [|done|done].
  unfold mbind at 1, st_bind at 1, st_lift. by destruct (build b _ _ _) as [[f|]|x].
Qed.

(** What one tick adds to the log after the observations [seen]. *)
Definition tick_log (seen : list tick_obs) (new : list posting) : Prop :=
  (forall side v, Setpoint side v ∈ new -> real_target seen side v) /\
  (forall f, AddFrame f ∈ new -> recorded_action seen f).

(** One iteration of the loop. *)
Lemma collect_one num op seen o frames c c' frames' r :
  remembers seen c -> collect_loop b command_arms num op [o] frames c = (c', frames', r) ->
  exists new, cl_log c' = (cl_log c ++ new)%list /\ tick_log (seen ++ [o])%list new /\
    (r = Running -> remembers (seen ++ [o])%list c' /\ commanded (seen ++ [o])%list new).
Proof.
  intros Hrs H. simpl in H.
  destruct (to_stop o || cl_stop c || (num <=? cl_episodes_done c)).
  { injection H as <- <- <-. exists []. rewrite app_nil_r. split_and!; [done| |done].
    split; [intros ? ? Hin|intros ? Hin]; by apply not_elem_of_nil in Hin. }
  destruct (collect_tick b command_arms o c) as [c1 r1] eqn:Et.
  apply (collect_tick_ok seen) in Et as (_ & _ & new & Hlog & Hset & Hdata & Hrun & Hrem); [|done].
  assert (Hnodata : forall l : list posting, Forall (fun x => is_dataset x = false) l -> forall f, AddFrame f ∉ l).
  { intros l Hf f Hin. rewrite Forall_forall in Hf. by apply Hf in Hin. }
  assert (Htl : tick_log (seen ++ [o])%list new).
  { split; [done|]. intros f Hin. destruct r1 as [[]|x|]; try (by apply Hnodata in Hin).
    destruct Hdata as (new0 & f1 & -> & Hd & Hrec). apply elem_of_app in Hin as [Hin|Hin]; [by apply Hnodata in Hin|].
    apply list_elem_of_singleton in Hin. by injection Hin as ->. }
  destruct r1 as [rec|x|]; [| |done].
  2: { injection H as <- <- <-. by exists new. }
  destruct (Hrem rec eq_refl) as [Hrem' Hcom].
  pose proof (handle_keys_targets c1 (if op then to_keys o else []) (if rec then S frames else frames) c1
    (same_targets_refl c1)) as Hk.
  pose proof (handle_keys_settles (if op then to_keys o else []) (if rec then S frames else frames) c1) as Hks.
  destruct (handle_keys _ _ c1) as [c2 r2] eqn:Ek. simpl in Hk, Hks.
  pose proof Hk as (_ & extra & Hlog2 & Hex). rewrite Forall_forall in Hex.
  assert (c' = c2 /\ (r = Running -> remembers (seen ++ [o])%list c2)) as [-> Hrem2].
  { destruct r2 as [frames2|x|]; [| |done]; injection H as <- <- <-; (split; [done|]); [|done].
    intros _. by eapply same_targets_remembers. }
  exists (new ++ extra)%list. rewrite Hlog2, Hlog, app_assoc. split; [done|]. split.
  - split; [intros side v|intros f]; intros [Hin|Hin]%elem_of_app; try (by apply Htl);
      apply Hex in Hin as [|[|]]; done.
  - intros Hrr. split; [auto|]. intros side ctrl raw d H1 H2 H3 H4 H5.
    destruct (Hcom side ctrl raw d H1 H2 H3 H4 H5) as [v ?]. exists v. set_solver.
Qed.

(** The loop over a longer tape: it goes on from where it was still running. *)
Lemma collect_loop_app num op t1 t2 : forall frames c,
  collect_loop b command_arms num op (t1 ++ t2) frames c =
    match collect_loop b command_arms num op t1 frames c with
    | (c', frames', Running) => collect_loop b command_arms num op t2 frames' c'
    | r => r
    end.
Proof.
  induction t1 as [|o t1 IH]; intros frames c; simpl; [done|].
  destruct (to_stop o || cl_stop c || (num <=? cl_episodes_done c)); [done|].
  pose proof (collect_tick_settles o c) as Ht. destruct (collect_tick b command_arms o c) as [c1 [rec|x|]]; [|done|done].
  pose proof (handle_keys_settles (if op then to_keys o else []) (if rec then S frames else frames) c1) as Hk.
  destruct (handle_keys _ _ c1) as [c2 [n|x|]]; [apply IH|done|done].
Qed.

(** While the loop runs, the remembered targets are the newest samples. *)
Lemma collect_loop_remembers num op t : forall c frames,
  collect_loop b command_arms num op t 0 collection_init = (c, frames, Running) -> remembers t c.
Proof.
  induction t as [|o t IH] using rev_ind; intros c frames H.
  { injection H as <- <-. intros side. simpl. by case_decide. }
  rewrite collect_loop_app in H.
  destruct (collect_loop b command_arms num op t 0 collection_init) as [[c1 n1] r1] eqn:E. destruct r1; try done.
  destruct (collect_one num op t o n1 c1 _ _ _ (IH _ _ eq_refl) H) as (new & _ & _ & Hr). by apply Hr.
Qed.
End facts.

Lemma frame_builder_nodup arms teleop cams instr sigs b :
  NoDup (dkeys arms) -> frame_builder arms teleop cams instr sigs = Ok b -> NoDup (sides (fb_layout b)).
Proof.
  intros Hnd H. unfold frame_builder in H. res_simp. simpl.
  apply from_arms_ok in E as (_ & _ & -> & _). apply NoDup_filter_list. by rewrite (sorted_sides_perm arms).
Qed.

(** ** The dataset discipline *)

(** Frames of the episode in progress. *)
Definition open_frames (l : list posting) : nat :=
  foldl (fun n x => match x with
                    | AddFrame _ => S n
                    | SaveEpisode | DiscardEpisode => 0
                    | _ => n
                    end) 0 l.

Definition count (f : posting -> bool) (l : list posting) : nat := length (List.filter f l).
Definition is_save (x : posting) : bool := match x with SaveEpisode => true | _ => false end.
Definition is_discard (x : posting) : bool := match x with DiscardEpisode => true | _ => false end.
Definition is_final (x : posting) : bool := match x with Finalize => true | _ => false end.

(** No episode is saved empty. *)
Definition saves_nonempty (l : list posting) : Prop :=
  forall pre suf, l = (pre ++ SaveEpisode :: suf)%list -> 0 < open_frames pre.

Lemma open_frames_snoc l x :
  open_frames (l ++ [x])%list =
    match x with AddFrame _ => S (open_frames l) | SaveEpisode | DiscardEpisode => 0 | _ => open_frames l end.
Proof. unfold open_frames. by rewrite foldl_app. Qed.

Lemma count_snoc f l x : count f (l ++ [x])%list = count f l + (if f x then 1 else 0).
Proof. unfold count. rewrite List.filter_app, length_app. simpl. by destruct (f x). Qed.

Lemma saves_nonempty_snoc l x :
  saves_nonempty l -> (x = SaveEpisode -> 0 < open_frames l) -> saves_nonempty (l ++ [x])%list.
Proof.
  intros Hl Hx pre suf Heq. destruct suf as [|y suf] using rev_ind.
  - apply app_inj_tail in Heq as [<- ->]. auto.
  - rewrite app_comm_cons, app_assoc in Heq. apply app_inj_tail in Heq as [-> _]. by eapply Hl.
Qed.

(** [tidy op num frames c]: [frames] is the size of the episode in progress, and the
    episodes done are the saves made. *)
Definition tidy (op : bool) (num frames : nat) (c : collection) : Prop :=
  open_frames (cl_log c) = frames /\ count is_save (cl_log c) = cl_episodes_done c /\
  count is_final (cl_log c) = 0 /\ saves_nonempty (cl_log c) /\ cl_episodes_done c <= num /\
  (op = false -> cl_episodes_done c = 0 /\ count is_discard (cl_log c) = 0).

Lemma neutral_log l new :
  Forall (fun x => is_dataset x = false) new ->
  open_frames (l ++ new)%list = open_frames l /\ count is_save (l ++ new)%list = count is_save l /\
  count is_final (l ++ new)%list = count is_final l /\ count is_discard (l ++ new)%list = count is_discard l /\
  (saves_nonempty l -> saves_nonempty (l ++ new)%list).
Proof.
  revert l. induction new as [|x new IH]; intros l Hn; [by rewrite app_nil_r|].
  apply Forall_cons in Hn as [Hx Hn].
  replace (l ++ x :: new)%list with ((l ++ [x]) ++ new)%list by (by rewrite <-app_assoc).
  destruct (IH (l ++ [x])%list Hn) as (-> & -> & -> & -> & Hs). rewrite open_frames_snoc, !count_snoc.
  destruct x; simpl in *; try done; (split_and!; [done|lia|lia|lia|]); intros Hl; apply Hs;
    by apply saves_nonempty_snoc.
Qed.

Lemma handle_keys_tidy op num ks : forall frames c c' frames' r,
  op = true -> tidy op (if frames =? 0 then num else num - 1) frames c -> 1 <= num ->
  handle_keys ks frames c = (c', r) -> r = Returned frames' -> tidy op num frames' c'.
Proof.
  induction ks as [|k ks IH]; intros frames c c' frames' r Hop Ht Hn H Hr; simpl in H.
  { injection H as <- <-. injection Hr as <-. destruct Ht as (? & ? & ? & ? & Hle & ?). split_and!; try done.
    destruct (frames =? 0); lia. }
  unfold mbind at 1, st_bind at 1 in H. destruct Ht as (Hf & Hs & Hfin & Hne & Hle & Hnop).
  destruct k; simpl in H.
  - destruct frames as [|n]; simpl in H.
    + eapply (IH 0); [done| |done|exact H|exact Hr]. by split_and!.
    + eapply (IH 0); [done| |done|exact H|exact Hr]. subst op. simpl in *.
      split_and!; simpl; rewrite ?open_frames_snoc, ?count_snoc; simpl; try lia.
      apply saves_nonempty_snoc; [done|]. lia.
  - eapply (IH 0); [done| |done|exact H|exact Hr]. subst op.
    split_and!; simpl; rewrite ?open_frames_snoc, ?count_snoc; simpl; try lia.
    + by apply saves_nonempty_snoc.
    + destruct (frames =? 0); lia.
  - eapply (IH frames); [done| |done|exact H|exact Hr]. by split_and!.
Qed.

Lemma tick_tidy b arms (Hnd : NoDup (sides (fb_layout b))) op num seen o frames c c' r :
  remembers b seen c -> tidy op num frames c -> collect_tick b arms o c = (c', r) ->
  cl_episodes_done c' = cl_episodes_done c /\ cl_stop c' = cl_stop c /\
  tidy op num (match r with Returned true => S frames | _ => frames end) c'.
Proof.
  intros Hr (Hf & Hs & Hfin & Hne & Hle & Hop) Ht.
  apply (collect_tick_ok b arms Hnd seen) in Ht as (He & Hst & new & Hl & _ & Hd & _); [|done].
  split_and!; [done|done|]. unfold tidy. rewrite He, Hl.
  assert (Hneutral : Forall (fun x => is_dataset x = false) new -> tidy op num frames c').
  { intros Hn. destruct (neutral_log (cl_log c) new Hn) as (H1 & H2 & H3 & H4 & H5).
    unfold tidy. rewrite He, Hl, H1, H2, H3, H4. split_and!; auto. }
  destruct r as [[]|x|]; try (destruct (Hneutral Hd) as (? & ? & ? & ? & ? & ?); rewrite He, Hl in *; by split_and!).
  destruct Hd as (new0 & f & -> & Hd & _).
  destruct (neutral_log (cl_log c) new0 Hd) as (H1 & H2 & H3 & H4 & H5).
  rewrite app_assoc, open_frames_snoc, !count_snoc, H1, H2, H3, H4. simpl.
  split_and!; [lia|lia|lia|by apply saves_nonempty_snoc; auto|done|].
  intros Ho. destruct (Hop Ho). lia.
Qed.

Lemma tidy_weaken op num num' frames c : num <= num' -> tidy op num frames c -> tidy op num' frames c.
Proof. intros Hle (? & ? & ? & ? & ? & ?). split_and!; try done. lia. Qed.

Lemma collect_loop_tidy b arms (Hnd : NoDup (sides (fb_layout b))) op num tape :
  1 <= num -> forall seen frames c c' frames' r,
  remembers b seen c -> tidy op num frames c ->
  collect_loop b arms num op tape frames c = (c', frames', r) -> r ≠ Running ->
  tidy op num frames' c'.
Proof.
  intros Hn. induction tape as [|o tape IH]; intros seen frames c c' frames' r Hr Ht H Hnr; simpl in H.
  { by injection H as <- <- <-. }
  destruct (to_stop o || cl_stop c || (num <=? cl_episodes_done c)) eqn:Eg.
  { by injection H as <- <- <-. }
  apply orb_false_iff in Eg as [_ Eg]. apply Nat.leb_gt in Eg.
  destruct (collect_tick b arms o c) as [c1 r1] eqn:Et.
  assert (Ht' : tidy op (num - 1) frames c) by (destruct Ht as (? & ? & ? & ? & ? & ?); split_and!; try done; lia).
  destruct (tick_tidy b arms Hnd op (num - 1) seen o frames c c1 r1 Hr Ht' Et) as (He & Hst & Ht1).
  apply (collect_tick_ok b arms Hnd seen) in Et as (_ & _ & new & _ & _ & _ & _ & Hrem); [|done].
  destruct r1 as [rec|x|]; [|injection H as <- <- <-; by eapply tidy_weaken; [|exact Ht1]; lia|by injection H as <- <- <-].
  destruct (Hrem rec eq_refl) as [Hrem' _].
  assert (Ht1' : tidy op (num - 1) (if rec then S frames else frames) c1) by (by destruct rec).
  pose proof (handle_keys_targets c1 (if op then to_keys o else []) (if rec then S frames else frames) c1
    (same_targets_refl c1)) as Hk.
  destruct (handle_keys _ _ c1) as [c2 r2] eqn:Ek. simpl in Hk.
  pose proof (same_targets_remembers b (seen ++ [o])%list c1 c2 Hk) as Hk2.
  assert (exists f2, r2 = Returned f2 /\ tidy op num f2 c2) as (f2 & -> & Ht2).
  { assert (exists f2, r2 = Returned f2) as [f2 ->].
    { clear -Ek. revert Ek. generalize (if op then to_keys o else []) (if rec then S frames else frames).
      intros ks n. revert n c1. induction ks as [|k ks IH]; intros n c1; simpl; [intros [= <- <-]; by eauto|].
      unfold mbind at 1, st_bind at 1. destruct k; simpl; [destruct n; simpl| |]; apply IH. }
    exists f2. split; [done|]. destruct op.
    - eapply handle_keys_tidy; [done| |exact Hn|exact Ek|done].
      eapply tidy_weaken; [|exact Ht1']. destruct (_ =? 0); lia.
    - simpl in Ek. injection Ek as <- <-. eapply tidy_weaken; [|exact Ht1']. lia. }
  exact (IH (seen ++ [o])%list f2 c2 c' frames' r (Hk2 Hrem') Ht2 H Hnr).
Qed.

(** ** Properties *)

(** C6: Teleoperation never fabricates a target and never lags: the setpoints a collection
    posts at its [k]-th tick are, per side, the newest leader sample among the observations up
    to and including that tick, packed for the side's control; a side without a sample is
    never commanded, and as long as the loop goes on every position-controlled arm of a
    recorded side with a sample is commanded at every tick.  An action recorded at the [k]-th
    tick holds, per side, that same newest sample (or zeros before the first).  What follows
    the last tick only saves, discards or finalises. *)
Theorem teleop_targets_real (arms : list (string * ArmShape)) (teleop : list string)
    (cams : list (string * CameraCfg)) (instr : string) (sigs : list string) (b : FrameBuilder)
    (command_arms : list (string * ControlCfg)) (num : nat) (op : bool) (tape : list tick_obs)
    (Hkeys : NoDup (dkeys arms)) (Hb : frame_builder arms teleop cams instr sigs = Ok b) :
  let after k := collect_loop b command_arms num op (take k tape) 0 collection_init in
  (forall k, k < length tape -> exists new,
     cl_log (after (S k)).1.1 = (cl_log (after k).1.1 ++ new)%list /\
     (forall side v, Setpoint side v ∈ new -> exists ctrl raw d,
        (side, ctrl) ∈ command_arms /\ last_sample side (take (S k) tape) = Some raw /\
        action_dof (fb_layout b) side = Ok d /\
        pack_streamed ctrl [("q_d", take d raw); ("dq_d", zeros_like (take d raw))] = Ok v) /\
     (forall f, AddFrame f ∈ new -> recorded_action b (take (S k) tape) f) /\
     ((after (S k)).2 = Running ->
      forall side ctrl raw d, (side, ctrl) ∈ command_arms -> kind ctrl = "qpos" -> side ∈ sides (fb_layout b) ->
        last_sample side (take (S k) tape) = Some raw -> action_dof (fb_layout b) side = Ok d ->
        exists v, Setpoint side v ∈ new)) /\
  exists tail, cl_log (collect_run b command_arms num op tape collection_init).1 =
      (cl_log (after (length tape)).1.1 ++ tail)%list /\
    Forall (fun x => x = SaveEpisode \/ x = DiscardEpisode \/ x = Finalize) tail.
Proof.
  intros after. pose proof (frame_builder_nodup _ _ _ _ _ _ Hkeys Hb) as Hnd. split.
  - intros k Hk. destruct (lookup_lt_is_Some_2 tape k Hk) as [o Ho]. unfold after.
    rewrite (take_S_r _ _ _ Ho), collect_loop_app.
    destruct (collect_loop b command_arms num op (take k tape) 0 collection_init) as [[c n] r] eqn:E.
    destruct r as [u|x|].
    1-2: exists []; simpl; rewrite app_nil_r; split_and!; try done; [intros ? ? Hin|intros ? Hin];
      by apply not_elem_of_nil in Hin.
    pose proof (collect_loop_remembers b command_arms Hnd num op _ _ _ E) as Hr.
    destruct (collect_loop b command_arms num op [o] n c) as [[c' n'] r'] eqn:E1.
    destruct (collect_one b command_arms Hnd num op _ _ _ _ _ _ _ Hr E1) as (new & Hl & [H1 H2] & H3).
    exists new. split_and!; [done|exact H1|exact H2|]. intros Hr'. by apply H3.
  - unfold after, collect_run. rewrite firstn_all.
    destruct (collect_loop b command_arms num op tape 0 collection_init) as [[c n] r]. simpl.
    pose proof (finish_targets c op n c (same_targets_refl c)) as (_ & tail & Hl & Hf).
    destruct r; simpl; [by exists tail|by exists tail|]. exists []. by rewrite app_nil_r.
Qed.


Definition demo_builder : res FrameBuilder :=
  frame_builder [("left", Layout.Arm [("q", 2)] demo_qpos)] ["left"] [] "pour" ["q"].

Definition demo_tick (leaders : list (string * list f64)) : tick_obs :=
  TickObs false leaders [("left/q", Some [f0; f0]); ("factr/left", Some [f0; f0; f0]);
                         ("factr/raw/left", Some [f0; f0; f0])] [].

(** One tick before the leader speaks, one with a sample, one after it dropped out. *)
Definition demo_tape : list tick_obs :=
  [demo_tick []; demo_tick [("left", [f1; f1; f0])]; demo_tick [];
   TickObs true [] [] []].

Lemma demo_keys : NoDup (dkeys [("left", Layout.Arm [("q", 2)] demo_qpos)]).
Proof. apply (bool_decide_eq_true_1 _). vm_compute. reflexivity. Qed.

Lemma teleop_targets_real_witness :
  exists b, demo_builder = Ok b /\
  let after k := collect_loop b [("left", demo_qpos)] 1 false (take k demo_tape) 0 collection_init in
  exists new, cl_log (after 2).1.1 = (cl_log (after 1).1.1 ++ new)%list /\
    exists v, Setpoint "left" v ∈ new.
Proof.
  eexists. split; [vm_compute; reflexivity|]. intros after.
  destruct (teleop_targets_real [("left", Layout.Arm [("q", 2)] demo_qpos)] ["left"] [] "pour" ["q"] _
    [("left", demo_qpos)] 1 false demo_tape demo_keys eq_refl) as [H _].
  destruct (H 1 ltac:(simpl; lia)) as (new & Hl & _ & _ & Hc). exists new. split; [exact Hl|].
  apply (Hc ltac:(vm_compute; reflexivity) "left" demo_qpos [f1; f1; f0] 2);
    [by left|reflexivity|by left|vm_compute; reflexivity|vm_compute; reflexivity].
Defined.

