(* ===== verification/Keyboard.v ===== *)
(** * Operator keys

    Models [collection/keyboard.py] ([EpisodeControl]): the terminal's mode, the background reader
    and the queue of events the collection loop drains.  What the terminal calls do (whether
    standard input is a terminal, whether the mode can be read and set, whether the thread starts)
    is an input. *)

From Stdlib Require Import Ascii String.
From S2P Require Import Prelude Float64 Ring Streams Channel Convention Layout Process Source Arm Session Collect.
Local Open Scope string_scope.
Local Open Scope nat_scope.
Local Open Scope list_scope.

(** [_KEYMAP]: return, newline, space; r; q, escape. *)
Definition KEYMAP (c : ascii) : option key :=
  let n := nat_of_ascii c in
  if bool_decide (n ∈ [10; 13; 32]) then Some END
  else if bool_decide (n ∈ [114; 82]) then Some DISCARD
  else if bool_decide (n ∈ [113; 81; 27]) then Some KSTOP
  else None.

(** Terminal attributes: cooked or cbreak, or anything else a user had set. *)
Inductive tty_mode := Cbreak | Mode (n : nat).

Record control := Control {
  kc_events : list key;
  kc_reader : bool;                  (* the reader thread was started *)
  kc_stop : bool;
  kc_restore : option tty_mode;
  kc_active : bool;
  kc_tty : tty_mode;                 (* the terminal's current mode *)
}.

(** [EpisodeControl.__init__]. *)
Definition episode_control (stdin_is_tty : bool) (mode : tty_mode) : control :=
  Control [] false false None stdin_is_tty mode.

(** What entering meets. *)
Record tty_env := TtyEnv { te_getattr : bool; te_setcbreak : bool; te_thread : bool; te_restore : bool }.

(** [_enable_cbreak]; [false]: a call raised. *)
Definition enable_cbreak (e : tty_env) (k : control) : control * bool :=
  if negb (te_getattr e) then (k, false)
  else
    let k := Control (kc_events k) (kc_reader k) (kc_stop k) (Some (kc_tty k)) (kc_active k) (kc_tty k) in
    if te_setcbreak e
    then (Control (kc_events k) (kc_reader k) (kc_stop k) (kc_restore k) (kc_active k) Cbreak, true)
    else (k, false).

(** [_disable_cbreak]: best effort. *)
Definition disable_cbreak (e : tty_env) (k : control) : control :=
  match kc_restore k with
  | None => k
  | Some saved =>
      Control (kc_events k) (kc_reader k) (kc_stop k) None (kc_active k) (if te_restore e then saved else kc_tty k)
  end.

(** [__enter__]. *)
Definition keys_enter (e : tty_env) (k : control) : control :=
  if negb (kc_active k) then k
  else
    let '(k1, ok) := enable_cbreak e k in
    if ok && te_thread e
    then Control (kc_events k1) true (kc_stop k1) (kc_restore k1) (kc_active k1) (kc_tty k1)
    else disable_cbreak e
           (Control (kc_events k1) (kc_reader k1) (kc_stop k1) (kc_restore k1) false (kc_tty k1)).

(** [__exit__]. *)
Definition keys_exit (e : tty_env) (k : control) : control :=
  disable_cbreak e (Control (kc_events k) (kc_reader k) true (kc_restore k) (kc_active k) (kc_tty k)).

(** One character handled by the reader ([_reader]): ignored once stopped or never started.  (A read
    that is already blocked when the control is left may queue one more event; nothing polls then.) *)
Definition read_char (c : ascii) (k : control) : control :=
  if kc_reader k && negb (kc_stop k) then
    match KEYMAP c with
    | Some ev => Control (kc_events k ++ [ev]) (kc_reader k) (kc_stop k) (kc_restore k) (kc_active k) (kc_tty k)
    | None => k
    end
  else k.

(** [poll]. *)
Definition keys_poll (k : control) : control * list key :=
  (Control [] (kc_reader k) (kc_stop k) (kc_restore k) (kc_active k) (kc_tty k), kc_events k).

(** What happens between entering and leaving: characters and polls. *)
Inductive key_step := KChar (c : ascii) | KPoll.

Fixpoint keys_run (steps : list key_step) (k : control) : control * list key :=
  match steps with
  | [] => (k, [])
  | KChar c :: steps => keys_run steps (read_char c k)
  | KPoll :: steps =>
      let '(k, out) := keys_poll k in let r := keys_run steps k in (r.1, out ++ r.2)
  end.

Definition chars (steps : list key_step) : list ascii :=
  omap (fun s => match s with KChar c => Some c | KPoll => None end) steps.

Lemma keys_run_spec steps k : let r := keys_run steps k in
  kc_restore r.1 = kc_restore k /\ kc_tty r.1 = kc_tty k /\ kc_reader r.1 = kc_reader k /\ kc_stop r.1 = kc_stop k /\
  kc_active r.1 = kc_active k /\
  (kc_reader k && negb (kc_stop k) = true -> r.2 ++ kc_events r.1 = kc_events k ++ omap KEYMAP (chars steps)) /\
  (kc_reader k && negb (kc_stop k) = false -> r.2 ++ kc_events r.1 = kc_events k).
Proof.
  revert k. induction steps as [|[c|] steps IH]; intros k; cbn zeta.
  - cbn. split_and!; try done. by rewrite app_nil_r.
  - cbn [keys_run]. destruct (IH (read_char c k)) as (H1 & H2 & H3 & H4 & H5 & H6 & H7). unfold read_char in *.
    destruct (kc_reader k && negb (kc_stop k)) eqn:E; [|rewrite E in *; split_and!; try done; by intros].
    destruct (KEYMAP c) as [ev|] eqn:Ec; cbn [kc_restore kc_tty kc_reader kc_stop kc_active kc_events] in *;
      rewrite E in *; split_and!; try done; intros _; rewrite H6 by done; cbn; rewrite Ec; [|done].
    by rewrite <-app_assoc.
  - cbn [keys_run keys_poll]. set (k' := Control [] _ _ _ _ _). destruct (IH k') as (H1 & H2 & H3 & H4 & H5 & H6 & H7).
    cbn [fst snd]. subst k'. cbn [kc_restore kc_tty kc_reader kc_stop kc_active kc_events] in *.
    split_and!; try done; intros Hk; rewrite <-app_assoc; [rewrite H6|rewrite H7]; try done. by rewrite app_nil_r.
Qed.

(** the operator's keys.  Whatever the terminal calls do, the terminal is back in the mode it had
    when the control is left (if restoring works at all), key control stays active only with the
    reader running; and while it runs, the events drained by the polls, in order, together with
    those still queued, are exactly the mapped keys typed, each once. *)
Theorem keys_exact (tty : bool) (mode : tty_mode) (e e' : tty_env) (steps : list key_step) :
  let k := keys_enter e (episode_control tty mode) in
  let r := keys_run steps k in
  let k' := keys_exit e' r.1 in
  (te_restore e = true -> te_restore e' = true -> kc_tty k' = mode) /\ kc_restore k' = None /\
  kc_active k' = kc_active k /\
  (kc_active k = true -> kc_tty k = Cbreak /\ r.2 ++ kc_events k' = omap KEYMAP (chars steps)) /\
  (kc_active k = false -> r.2 = [] /\ (te_restore e = true -> kc_tty k = mode)).
Proof.
  cbn zeta. unfold keys_exit. set (k := keys_enter e (episode_control tty mode)).
  assert (kc_events k = [] /\ kc_stop k = false /\
    (kc_active k = true /\ kc_reader k = true /\ kc_restore k = Some mode /\ kc_tty k = Cbreak \/
     kc_active k = false /\ kc_reader k = false /\ kc_restore k = None /\ (te_restore e = true -> kc_tty k = mode)))
    as (Hev & Hst & Hk).
  { unfold k, keys_enter, episode_control, enable_cbreak, disable_cbreak. cbn.
    destruct tty; cbn; [|split_and!; try done; by right].
    destruct (te_getattr e); cbn; [|split_and!; try done; by right].
    destruct (te_setcbreak e); cbn; [destruct (te_thread e); cbn|];
      (split_and!; [done|done|]); [by left|right|right]; split_and!; try done; by intros ->. }
  destruct (keys_run_spec steps k) as (H1 & H2 & H3 & H4 & H5 & H6 & H7).
  set (r := keys_run steps k) in *. unfold disable_cbreak. cbn [kc_restore].
  destruct Hk as [(Ha & Hr & Hre & Ht)|(Ha & Hr & Hre & Ht)]; rewrite H1, Hre; cbn; rewrite ?H2, ?H5, ?Ha.
  - split_and!; try done; [by intros _ ->|]. intros _. split; [done|]. rewrite H6 by (by rewrite Hr, Hst).
    by rewrite Hev.
  - split_and!; try done; [intros He _; by apply Ht|]. intros _. split; [|done].
    specialize (H7 ltac:(by rewrite Hr)). rewrite Hev in H7. by apply app_nil in H7 as [? _].
Qed.
