(* ===== verification/Brain.v ===== *)
(** * The brain: the consumers' end of the streams and of the control channels

    Models [Brain] and [BrainNode.process] of [brain/brain.py] over the world of streams: it
    reads telemetry, and owns and writes the control channels the arms attach to.  The
    manifest writes that fail, the process id and the clock of each write are inputs. *)

From Stdlib Require Import String.
From S2P Require Import Prelude Float64 Ring Streams Channel Layout Source Arm Session Collect.
Local Open Scope string_scope.
Local Open Scope Z_scope.

Record brain := MkBrain {
  b_world : world;
  b_readers : list (string * StreamReader);
  b_setpoint_writers : list (string * StreamWriter);
  b_command_writers : list (string * StreamWriter);
  b_gripper_writers : list (string * StreamWriter);
}.

Definition set_world (b : brain) (w : world) : brain :=
  MkBrain w (b_readers b) (b_setpoint_writers b) (b_command_writers b) (b_gripper_writers b).

(** [default_stream_names]. *)
Definition default_stream_names (arms : list (string * ArmShape)) : list string :=
  arms ≫= (fun x => (fun sig => x.1 +:+ "/" +:+ sig.1) <$> arm_streams x.2).

Definition leader_stream_names (servers : list string) : list string := factr_stream_name <$> servers.

Definition B := ST brain.

(** [Brain.__init__] on a given world. *)
Definition new_brain (w : world) : brain := MkBrain w [] [] [] [].

(** One iteration of the loop of [attach]. *)
Definition attach_one (entries : list (string * RegistryEntry)) (name : string) : B unit := fun b =>
  match (let? e := of_option KeyError (dget name entries) in reader_attach (b_world b) e) with
  | Raise x => (b, Raised x)
  | Ok rd =>
      (MkBrain (b_world b) (dset name rd (b_readers b)) (b_setpoint_writers b) (b_command_writers b)
         (b_gripper_writers b), Returned tt)
  end.

Fixpoint attach_all (entries : list (string * RegistryEntry)) (ns : list string) : B unit :=
  match ns with
  | [] => mret tt
  | n :: ns => attach_one entries n;; attach_all entries ns
  end.

(** [attach]. *)
Definition attach (g : registry) (ns : list string) (start timeout_s : f64) (polls : list poll) : B unit :=
  match wait_for g ns start timeout_s polls with
  | None => st_running
  | Some (Raise x) => st_raise x
  | Some (Ok entries) => attach_all entries ns
  end.

(** [last], [latest]. *)
Definition brain_last (b : brain) (name : string) (k : Z) : res (samples f64) :=
  let? rd := of_option KeyError (dget name (b_readers b)) in
  reader_last (b_world b) rd k.

Definition brain_latest (b : brain) (name : string) : res (samples f64) := brain_last b name 1.

(** [observe]. *)
Definition observe_all (b : brain) : res (list (string * samples f64)) :=
  mapM_res (fun x => let? s := reader_last (b_world b) x.2 1 in Ok (x.1, s)) (b_readers b).

(** ** Control channels *)

(** The three channels of a side and the dictionary that holds their writers. *)
Inductive leaf := LSetpoint | LCommand | LGripper.

#[export] Instance leaf_eq_dec : EqDecision leaf.
Proof. solve_decision. Defined.

Definition leaf_name (l : leaf) : string :=
  match l with LSetpoint => SETPOINT | LCommand => COMMAND | LGripper => GRIPPER end.

Definition writers (l : leaf) (b : brain) : list (string * StreamWriter) :=
  match l with
  | LSetpoint => b_setpoint_writers b
  | LCommand => b_command_writers b
  | LGripper => b_gripper_writers b
  end.

(** [self._<leaf>_writers[side] = wr]. *)
Definition keep (l : leaf) (side : string) (wr : StreamWriter) (b : brain) : brain :=
  let put k := if decide (k = l) then dset side wr (writers k b) else writers k b in
  MkBrain (b_world b) (b_readers b) (put LSetpoint) (put LCommand) (put LGripper).

Section control.
Context (cast : dtype -> f64 -> f64) (io : string -> bool) (pid : Z).

(** Create one writer and file it with [keep]. *)
Definition open_writer (g : registry) (s : StreamSpec) (keep : StreamWriter -> brain -> brain) : B unit :=
  fun b =>
    match writer_create (io (sp_name s)) (b_world b) s (r_run g) g pid with
    | (w, Ok wr) => (keep wr (set_world b w), Returned tt)
    | (w, Raise x) => (set_world b w, Raised x)
    end.

(** One side of [open_control]: the gripper mailbox first. *)
Definition open_side (g : registry) (side : string) (specs : list (string * StreamSpec)) : B unit :=
  (match dget GRIPPER specs with
   | Some s => open_writer g s (keep LGripper side)
   | None => mret tt
   end);;
  s ← st_lift (of_option KeyError (dget SETPOINT specs));
  open_writer g s (keep LSetpoint side);;
  k ← st_lift (of_option KeyError (dget COMMAND specs));
  open_writer g k (keep LCommand side).

Fixpoint open_control (g : registry) (specs_by_side : list (string * list (string * StreamSpec))) : B unit :=
  match specs_by_side with
  | [] => mret tt
  | (side, specs) :: rest => open_side g side specs;; open_control g rest
  end.

(** The channels of the control-enabled arms: side, control, whether it has a gripper. *)
Definition side_specs (x : string * (ControlCfg * bool)) : res (string * list (string * StreamSpec)) :=
  let '(side, (ctrl, grip)) := x in
  let? specs := control_specs side ctrl in
  if grip then let? s := gripper_spec side (channel ctrl) in Ok (side, dset GRIPPER s specs)
  else Ok (side, specs).

Definition channel_specs (arms : list (string * (ControlCfg * bool))) :
    res (list (string * list (string * StreamSpec))) := mapM_res side_specs arms.

(** A write through one of the brain's writers. *)
Definition brain_write (wr : StreamWriter) (vec : list f64) (t : Z) : B unit := fun b =>
  match writer_write cast (b_world b) wr vec t with
  | Ok (w, _) => (set_world b w, Returned tt)
  | Raise x => (b, Raised x)
  end.

(** [command]. *)
Definition brain_command (side : string) (setpoint : list f64) (t : Z) : B unit :=
  b ← st_get;
  wr ← st_lift (of_option KeyError (dget side (b_setpoint_writers b)));
  brain_write wr setpoint t.

(** [send_command]. *)
Definition send_command (side : string) (c : ControlCommand) (t : Z) : B unit :=
  b ← st_get;
  wr ← st_lift (of_option KeyError (dget side (b_command_writers b)));
  v ← st_lift (encode c (Z.to_nat (sp_dim (w_spec wr))));
  brain_write wr v t.

(** [command_gripper]: a no-op without a gripper channel. *)
Definition command_gripper (side : string) (x : f64) (t : Z) : B unit :=
  b ← st_get;
  match dget side (b_gripper_writers b) with
  | None => mret tt
  | Some wr => brain_write wr [x] t
  end.

(** [stop_arms]: an arm whose write fails does not keep the others from being stopped. *)
Definition stop_one (wr : StreamWriter) (t : Z) : B unit :=
  try_except
    (v ← st_lift (encode (Command STOP []) (Z.to_nat (sp_dim (w_spec wr)))); brain_write wr v t)
    (fun _ => Some (mret tt)).

Fixpoint stop_each (l : list (string * StreamWriter)) (t : Z) : B unit :=
  match l with
  | [] => mret tt
  | x :: l => stop_one x.2 t;; stop_each l t
  end.

Definition stop_arms (t : Z) : B unit := b ← st_get; stop_each (b_command_writers b) t.

(** [close]. *)
Definition unlink_writers (l : list (string * StreamWriter)) (w : world) : world :=
  foldl (fun w x => writer_unlink w x.2) w l.

Definition brain_close (b : brain) : brain :=
  new_brain (unlink_writers (b_gripper_writers b)
    (unlink_writers (b_command_writers b) (unlink_writers (b_setpoint_writers b) (b_world b)))).

(** ** [BrainNode.process] *)

(** The leaders' newest fresh positions, read through the brain. *)
Definition leader_sample (b : brain) (name : string) : option (list f64 * Z) :=
  match brain_latest b name with
  | Ok s => match newest s, newest_t_ns s with Some v, Some t => Some (v, t) | _, _ => None end
  | Raise _ => None
  end.

(** One arm of [process]: side, control, dof. *)
Definition process_arm (leaders : list (string * list f64)) (t : Z) (x : string * (ControlCfg * nat)) : B unit :=
  let '(side, (ctrl, dof)) := x in
  match dget side leaders with
  | None => mret tt
  | Some q =>
      if negb (String.eqb (kind ctrl) "qpos") then mret tt
      else
        let q_d := take dof q in
        v ← st_lift (pack_streamed ctrl [("q_d", q_d); ("dq_d", replicate (length q_d) f0)]);
        brain_command side v t;;
        match list.last q with
        | None => mret tt
        | Some g => command_gripper side g t
        end
  end.

Fixpoint process_arms (leaders : list (string * list f64)) (t : Z)
    (teleop : list (string * (ControlCfg * nat))) : B unit :=
  match teleop with
  | [] => mret tt
  | x :: teleop => process_arm leaders t x;; process_arms leaders t teleop
  end.

Definition process (servers : list string) (max_age_ns now_ns t : Z)
    (teleop : list (string * (ControlCfg * nat))) : B unit :=
  match teleop, servers with
  | [], _ | _, [] => mret tt
  | _, _ =>
      b ← st_get;
      process_arms (fresh_leader_positions (leader_sample b) max_age_ns now_ns servers) t teleop
  end.
End control.

(** ** Open streams *)

(** Stream [s] is published in [g], its name maps the writer's segment, which holds [h]. *)
Record open_stream (w : world) (g : registry) (s : StreamSpec) (wr : StreamWriter) (r : ring f64)
    (h : list (list f64 * Z)) : Prop := {
  os_entry : exists e, reg_get w g (sp_name s) = Ok (Some e) /\ e_shm_name e = JStr (w_shm_name wr);
  os_name : names w !! w_shm_name wr = Some (w_seg wr);
  os_shm : w_shm_name wr = shm_name_for (r_run g) (sp_name s);
  os_spec : w_spec wr = s;
  os_repr : stream_repr w (w_seg wr) r h;
  os_dim : Ring.dim r = sp_dim s;
  os_cap : Ring.capacity r = sp_capacity s;
  os_dtype : dtype_of_name (sp_dtype s) = Some (rdtype r);
}.

Lemma reg_get_dirs w w' g n : dirs w' = dirs w -> reg_get w' g n = reg_get w g n.
Proof. intros Hd. unfold reg_get, discover, dir_of. by rewrite Hd. Qed.

(** What an arm gets by attaching an open stream. *)
Lemma open_attach w g s wr r h k : open_stream w g s wr r h -> 0 < k ->
  exists e rd, reg_get w g (sp_name s) = Ok (Some e) /\ reader_attach w e = Ok rd /\
    rd_seg rd = w_seg wr /\ reader_last w rd k = Ok (read_of r h k).
Proof.
  intros [(e & He & Hs) Hn _ _ [Hm Hr] _ _ _] Hk. exists e, (Reader (w_seg wr) e).
  unfold reader_attach. rewrite Hs, Hn. simpl. rewrite Hm. simpl. split_and!; try done.
  unfold reader_last. simpl. rewrite Hm. simpl. by rewrite (ring_last_exact _ _ _ Hr Hk).
Qed.

Lemma shm_name_inj run n n' : shm_name_for run n ≠ shm_name_for run n' -> sanitize n ≠ sanitize n'.
Proof. unfold shm_name_for. intros Hne E. by rewrite E in Hne. Qed.

Lemma stream_spec_pos s : stream_spec s = Ok s -> 0 < sp_capacity s /\ 0 < sp_dim s.
Proof.
  unfold stream_spec. destruct (decide _); [done|].
  destruct (sp_dim s <=? 0) eqn:?; [done|]. destruct (sp_capacity s <=? 0) eqn:?; [done|]. lia.
Qed.

(** Creating a writer opens its stream and keeps every other one open. *)
Lemma create_open io w s g pid w' wr :
  registry_wf w -> stream_spec s = Ok s -> writer_create io w s (r_run g) g pid = (w', Ok wr) ->
  registry_wf w' /\ (exists r, open_stream w' g s wr r []) /\
  forall s2 wr2 r2 h2, open_stream w g s2 wr2 r2 h2 ->
    open_stream w' g s2 wr2 r2 h2 /\ w_seg wr2 ≠ w_seg wr.
Proof.
  intros Hwf Hs Hnew. unfold writer_create in Hnew. set (sn := shm_name_for _ _) in *.
  destruct (shm_create w sn _ _ _) as [[w1 seg]|] eqn:Ec; [|done].
  assert (Hseg : seg = length (heap w) /\ exists m, heap w1 = (heap w ++ [m])%list).
  { unfold shm_create in Ec. destruct (dtype_of_name _); [|done]. destruct (names w !! sn); [done|].
    destruct (ring_create _ _ _ _); [|done]. simpl in Ec. injection Ec as <- <-. eauto. }
  destruct Hseg as [Hseg [m Hheap]].
  apply shm_create_ok in Ec as (Hfresh & Hn1 & Hd1 & r & Hr & Hm).
  destruct (publish io w1 g s sn pid) as [[w2 e]|] eqn:Ep; [|done]. injection Hnew as <- <-.
  assert (Hwf1 : registry_wf w1) by (intros ru su d; unfold dir_of; rewrite Hd1; apply Hwf).
  pose proof (publish_wf _ _ _ _ _ _ _ _ Hwf1 Ep) as Hwf2.
  apply publish_ok in Ep as (-> & Hn2 & Hh2 & Hw2).
  assert (Hget : forall n, reg_get w2 g n = Ok (if decide (n = sp_name s) then Some (entry_of s sn pid)
    else if decide (sanitize n = sanitize (sp_name s)) then None else lookup_dir (reg_dir w1 g) n)).
  { intros n. rewrite reg_get_spec by done. rewrite Hw2, reg_dir_set. f_equal. by apply lookup_dir_dset. }
  destruct (stream_spec_pos _ Hs) as [Hc Hd]. split; [done|]. split.
  - exists r. destruct (ring_create_inv _ _ _ _ _ Hr) as (d & Hdt & Er). split; simpl; try done.
    + exists (entry_of s sn pid). rewrite Hget, decide_True by done. done.
    + by rewrite Hn2, Hn1, lookup_insert_eq.
    + split; [unfold mapped_ring; by rewrite Hh2|]. eapply ring_repr_create; [| |exact Hr]; lia.
    + by rewrite Er.
    + by rewrite Er.
    + by rewrite Er.
  - intros s2 wr2 r2 h2 [(e2 & He2 & Hsn2) On Oshm Ospec [Om Orr] Od Oc Ot].
    assert (Hne : w_shm_name wr2 ≠ sn) by (intros E; rewrite E, Hfresh in On; done).
    assert (Hsan : sanitize (sp_name s2) ≠ sanitize (sp_name s)).
    { apply (shm_name_inj (r_run g)). by rewrite <-Oshm. }
    pose proof (mapped_ring_ok _ _ _ Om) as Hlt%lookup_lt_Some.
    split; [|simpl; lia]. split; try done.
    + exists e2. split; [|done]. rewrite Hget, decide_False by (intros E; by rewrite E in Hsan).
      rewrite decide_False by done. rewrite <-He2, reg_get_spec by done.
      unfold reg_dir, dir_of. by rewrite Hd1.
    + by rewrite Hn2, Hn1, lookup_insert_ne.
    + split; [|done]. unfold mapped_ring in *. rewrite Hh2, Hheap, lookup_app_l by done. done.
Qed.

(** Writing extends the written stream and keeps every other segment. *)
Lemma write_open cast w g s wr r h v t :
  open_stream w g s wr r h ->
  if Z.of_nat (length v) =? sp_dim s then
    exists w' i r', writer_write cast w wr v t = Ok (w', i) /\
      open_stream w' g s wr r' (h ++ [(cast (rdtype r) <$> v, t)])%list /\ dirs w' = dirs w /\
      forall s2 wr2 r2 h2, w_seg wr2 ≠ w_seg wr -> open_stream w g s2 wr2 r2 h2 ->
        open_stream w' g s2 wr2 r2 h2
  else writer_write cast w wr v t = Raise ValueError.
Proof.
  intros [(e & He & Hsn) On Oshm Ospec [Om Orr] Od Oc Ot].
  destruct (Z.eqb_spec (Z.of_nat (length v)) (sp_dim s)) as [Hl|Hl].
  - destruct (writer_write cast w wr v t) as [[w' i]|x] eqn:Ew.
    + apply writer_write_ok in Ew as (r0 & r' & Hm0 & Ha & Hm' & Hn & Hd & Hother).
      rewrite Om in Hm0. injection Hm0 as <-.
      destruct (append_repr cast r h v t r' i Orr Ha) as [_ Hr'].
      apply append_ok in Ha as (_ & _ & Ec & Ed & Et & _).
      exists w', i, r'. split; [done|]. split; [|split; [done|]].
      * split; try done; [|by rewrite Hn|congruence..]. exists e. by rewrite (reg_get_dirs _ _ _ _ Hd).
      * intros s2 wr2 r2 h2 Hne [(e2 & He2 & Hsn2) On2 ? ? [Om2 ?] ? ? ?]. split; try done.
        -- exists e2. by rewrite (reg_get_dirs _ _ _ _ Hd).
        -- by rewrite Hn.
        -- split; [|done]. by rewrite Hother.
    + exfalso. unfold writer_write in Ew. rewrite Om in Ew. simpl in Ew. unfold append in Ew.
      rewrite length_fmap, Od, Hl, Z.eqb_refl in Ew. done.
  - unfold writer_write. rewrite Om. simpl. unfold append. rewrite length_fmap, Od.
    apply Z.eqb_neq in Hl. by rewrite Hl.
Qed.

(** ** The contract: one log per channel *)

Definition chan := (string * leaf)%type.
Definition logs := string -> leaf -> list (list f64 * Z).

Definition no_log : logs := fun _ _ => [].

Definition log_add (side : string) (l : leaf) (x : list f64 * Z) (h : logs) : logs := fun side' l' =>
  if decide ((side', l') = (side, l)) then (h side' l' ++ [x])%list else h side' l'.

Lemma log_add_eq side l x h : log_add side l x h side l = (h side l ++ [x])%list.
Proof. unfold log_add. by rewrite decide_True. Qed.

Lemma log_add_ne side l x h side' l' : (side', l') ≠ (side, l) -> log_add side l x h side' l' = h side' l'.
Proof. intros. unfold log_add. by rewrite decide_False. Qed.

(** The channels a table of specs opens, in order. *)
Definition leaf_chan (side : string) (specs : list (string * StreamSpec)) (l : leaf) : list (chan * StreamSpec) :=
  match dget (leaf_name l) specs with Some s => [((side, l), s)] | None => [] end.

Definition side_chans (x : string * list (string * StreamSpec)) : list (chan * StreamSpec) :=
  (leaf_chan x.1 x.2 LGripper ++ leaf_chan x.1 x.2 LSetpoint ++ leaf_chan x.1 x.2 LCommand)%list.

Definition channels (specs_by_side : list (string * list (string * StreamSpec))) : list (chan * StreamSpec) :=
  specs_by_side ≫= side_chans.

(** The brain's writers are exactly the channels [cs], each open and holding its log. *)
Record wired (g : registry) (cs : list (chan * StreamSpec)) (h : logs) (b : brain) : Prop := {
  wi_wf : registry_wf (b_world b);
  wi_open : forall side l s, ((side, l), s) ∈ cs -> exists wr r,
    dget side (writers l b) = Some wr /\ open_stream (b_world b) g s wr r (h side l);
  wi_only : forall side l wr, dget side (writers l b) = Some wr -> exists s, ((side, l), s) ∈ cs;
  wi_seg : forall side l wr side' l' wr', dget side (writers l b) = Some wr ->
    dget side' (writers l' b) = Some wr' -> w_seg wr = w_seg wr' -> (side, l) = (side', l');
  wi_keys : forall l, NoDup (dkeys (writers l b));
}.

Lemma writers_keep l side wr b l' :
  writers l' (keep l side wr b) = if decide (l' = l) then dset side wr (writers l' b) else writers l' b.
Proof. by destruct l, l'. Qed.

Lemma writers_world l b w : writers l (set_world b w) = writers l b.
Proof. by destruct l. Qed.

Lemma wired_new g w : registry_wf w -> wired g [] no_log (new_brain w).
Proof.
  intros Hw. split; try done.
  - by intros side l s []%not_elem_of_nil.
  - by intros side [].
  - by intros side [].
  - intros []; apply NoDup_nil_2.
Qed.

Lemma open_writer_wired io pid g cs h side l s b b' :
  wired g cs h b -> (side, l) ∉ cs.*1 -> h side l = [] -> stream_spec s = Ok s ->
  open_writer io pid g s (keep l side) b = (b', Returned tt) -> wired g (cs ++ [((side, l), s)])%list h b'.
Proof.
  intros [Hwf Hop Hon Hsg Hk] Hnew Hh Hs. unfold open_writer.
  destruct (writer_create _ _ _ _ _ _) as [w [wr|]] eqn:Ec; [|done]. intros [= <-].
  destruct (create_open _ _ _ _ _ _ _ Hwf Hs Ec) as (Hwf' & (r & Hr) & Hold).
  assert (Hfresh : dget side (writers l b) = None).
  { destruct (dget side (writers l b)) as [wr0|] eqn:E; [|done]. exfalso.
    destruct (Hon _ _ _ E) as [s0 Hin]. apply Hnew. by apply (list_elem_of_fmap_2 fst) in Hin. }
  assert (Hget : forall side' l', dget side' (writers l' (keep l side wr (set_world b w))) =
    if decide ((side', l') = (side, l)) then Some wr else dget side' (writers l' b)).
  { intros side' l'. rewrite writers_keep, writers_world. destruct (decide (l' = l)) as [->|Hl].
    - destruct (decide (side' = side)) as [->|Hsd].
      + rewrite decide_True by done. apply dget_dset_eq.
      + rewrite decide_False by congruence. by apply dget_dset_ne.
    - by rewrite decide_False by congruence. }
  assert (Hworld : b_world (keep l side wr (set_world b w)) = w) by done.
  assert (Hseg : forall side' l' wr', dget side' (writers l' b) = Some wr' -> w_seg wr' ≠ w_seg wr).
  { intros side' l' wr' E. destruct (Hon _ _ _ E) as [s' Hin]. destruct (Hop _ _ _ Hin) as (wr2 & r2 & E2 & Ho).
    rewrite E in E2. injection E2 as <-. by apply (Hold _ _ _ _ Ho). }
  split; rewrite ?Hworld; [done| | | |].
  - intros side' l' s' [Hin|Hin%list_elem_of_singleton]%elem_of_app.
    + destruct (Hop _ _ _ Hin) as (wr' & r' & E' & Ho). exists wr', r'. rewrite Hget, decide_False.
      * split; [done|]. by apply Hold.
      * intros [= -> ->]. by rewrite Hfresh in E'.
    + simplify_eq. exists wr, r. rewrite Hget, decide_True by done. by rewrite Hh.
  - intros side' l' wr'. rewrite Hget. destruct (decide _) as [E|E]; [|intros E'; destruct (Hon _ _ _ E') as [s' ?]].
    + intros [= <-]. simplify_eq. exists s. set_solver.
    + exists s'. set_solver.
  - intros s1 l1 w1 s2 l2 w2. rewrite !Hget.
    destruct (decide ((s1, l1) = _)) as [E1|E1], (decide ((s2, l2) = _)) as [E2|E2]; intros H1 H2 H3.
    + congruence.
    + simplify_eq. exfalso. by eapply Hseg.
    + simplify_eq. exfalso. by eapply Hseg.
    + by eapply Hsg.
  - intros l'. rewrite writers_keep, writers_world. destruct (decide _); [by apply NoDup_dset|done].
Qed.

Definition valid_specs (specs : list (string * StreamSpec)) : Prop :=
  forall l s, dget l specs = Some s -> stream_spec s = Ok s.

Lemma open_leaf_wired io pid g cs side specs l b b' :
  wired g cs no_log b -> (side, l) ∉ cs.*1 -> valid_specs specs ->
  (match dget (leaf_name l) specs with Some s => open_writer io pid g s (keep l side) | None => mret tt end) b =
    (b', Returned tt) ->
  wired g (cs ++ leaf_chan side specs l)%list no_log b'.
Proof.
  intros Hw Hn Hv. unfold leaf_chan. destruct (dget (leaf_name l) specs) as [s|] eqn:E.
  - intros H. eapply open_writer_wired; eauto.
  - intros [= <-]. by rewrite app_nil_r.
Qed.

Lemma leaf_chan_keys side specs l c : c ∈ (leaf_chan side specs l).*1 -> c = (side, l).
Proof. unfold leaf_chan. destruct (dget _ _); simpl; [by intros ?%list_elem_of_singleton|by intros []%not_elem_of_nil]. Qed.

Lemma open_side_wired io pid g cs side specs b b' :
  wired g cs no_log b -> (forall l, (side, l) ∉ cs.*1) -> valid_specs specs ->
  open_side io pid g side specs b = (b', Returned tt) ->
  wired g (cs ++ side_chans (side, specs))%list no_log b'.
Proof.
  intros Hw Hn Hv H. unfold open_side in H.
  apply bind_returned in H as ([] & b1 & H1 & H).
  apply (open_leaf_wired _ _ _ cs _ _ LGripper _ _ Hw (Hn _) Hv) in H1.
  apply bind_returned in H as (s & b2 & [Hs ->]%lift_returned & H).
  apply bind_returned in H as ([] & b3 & H2 & H).
  apply bind_returned in H as (k & b4 & [Hk ->]%lift_returned & H3).
  destruct (dget SETPOINT specs) as [s'|] eqn:Es; simpl in Hs; [|done]. injection Hs as ->.
  destruct (dget COMMAND specs) as [k'|] eqn:Ek; simpl in Hk; [|done]. injection Hk as ->.
  assert (Hfr : forall l, l ≠ LGripper -> (side, l) ∉ (cs ++ leaf_chan side specs LGripper)%list.*1).
  { intros l Hl. rewrite fmap_app, not_elem_of_app. split; [done|]. intros E%leaf_chan_keys. congruence. }
  assert (H2' : wired g ((cs ++ leaf_chan side specs LGripper) ++ leaf_chan side specs LSetpoint)%list no_log b3).
  { eapply (open_leaf_wired io pid); [done|by apply Hfr|done|]. simpl. by rewrite Es. }
  replace (cs ++ side_chans (side, specs))%list with
    (((cs ++ leaf_chan side specs LGripper) ++ leaf_chan side specs LSetpoint) ++ leaf_chan side specs LCommand)%list
    by (unfold side_chans; simpl; by rewrite !app_assoc).
  eapply (open_leaf_wired io pid); [done| |done|simpl; by rewrite Ek].
  rewrite fmap_app, not_elem_of_app. split; [by apply Hfr|]. intros E%leaf_chan_keys. congruence.
Qed.

Lemma side_chans_keys x c : c ∈ (side_chans x).*1 -> c.1 = x.1.
Proof.
  unfold side_chans. rewrite !fmap_app, !elem_of_app. by intros [E|[E|E]]; apply leaf_chan_keys in E as ->.
Qed.

Lemma open_control_wired io pid g specs : forall cs b b',
  wired g cs no_log b -> NoDup (dkeys specs) -> (forall side l, side ∈ dkeys specs -> (side, l) ∉ cs.*1) ->
  Forall (fun x => valid_specs x.2) specs ->
  open_control io pid g specs b = (b', Returned tt) -> wired g (cs ++ channels specs)%list no_log b'.
Proof.
  induction specs as [|[side sp] specs IH]; intros cs b b' Hw Hnd Hfr Hv H; simpl in H.
  { injection H as <-. by rewrite app_nil_r. }
  apply bind_returned in H as ([] & b1 & H1 & H). simpl in Hnd.
  apply list.NoDup_cons in Hnd as [Hns Hnd]. apply Forall_cons in Hv as [Hv1 Hv].
  replace (cs ++ channels ((side, sp) :: specs))%list with
    ((cs ++ side_chans (side, sp)) ++ channels specs)%list by (by rewrite <-app_assoc).
  eapply IH; [|done| |done|exact H].
  - eapply open_side_wired; [done| |done|exact H1]. intros l. apply Hfr. left.
  - intros side' l Hin. rewrite fmap_app, not_elem_of_app. split; [apply Hfr; by right|].
    intros E%side_chans_keys. simpl in E. subst. done.
Qed.

(** ** Posting *)

Inductive brain_op :=
  | OpCommand (side : string) (v : list f64) (t : Z)
  | OpSend (side : string) (c : ControlCommand) (t : Z)
  | OpGripper (side : string) (x : f64) (t : Z)
  | OpStopArms (t : Z).

Section posting.
Context (cast : dtype -> f64 -> f64).

Definition run_op (o : brain_op) : B unit :=
  match o with
  | OpCommand side v t => brain_command cast side v t
  | OpSend side c t => send_command cast side c t
  | OpGripper side x t => command_gripper cast side x t
  | OpStopArms t => stop_arms cast t
  end.

(** A sequence of posts; a post that raises leaves the brain as it was. *)
Definition run_ops (ops : list brain_op) (b : brain) : brain := foldl (fun b o => (run_op o b).1) b ops.

(** What an element becomes in a channel of spec [s]. *)
Definition stored (s : StreamSpec) (v : list f64) : list f64 :=
  match dtype_of_name (sp_dtype s) with Some d => cast d <$> v | None => v end.

(** The abstract effect of a post on the logs of the channels [cs]. *)
Definition post_log (cs : list (chan * StreamSpec)) (side : string) (l : leaf) (v : StreamSpec -> res (list f64))
    (t : Z) (h : logs) : logs :=
  match dget (side, l) cs with
  | Some s =>
      match v s with
      | Ok v => if Z.of_nat (length v) =? sp_dim s then log_add side l (stored s v, t) h else h
      | Raise _ => h
      end
  | None => h
  end.

Definition encoded (c : ControlCommand) (s : StreamSpec) : res (list f64) := encode c (Z.to_nat (sp_dim s)).

(** [stop_arms] posts STOP on every command channel. *)
Definition stop_logs (cs : list (chan * StreamSpec)) (t : Z) (h : logs) : logs := fun side l =>
  post_log cs side LCommand (encoded (Command STOP [])) t h side l.

Definition op_log (cs : list (chan * StreamSpec)) (h : logs) (o : brain_op) : logs :=
  match o with
  | OpCommand side v t => post_log cs side LSetpoint (fun _ => Ok v) t h
  | OpSend side c t => post_log cs side LCommand (encoded c) t h
  | OpGripper side x t => post_log cs side LGripper (fun _ => Ok [x]) t h
  | OpStopArms t => stop_logs cs t h
  end.

Definition ops_log (cs : list (chan * StreamSpec)) (ops : list brain_op) : logs := foldl (op_log cs) no_log ops.

Lemma wired_ext g cs h h' b :
  (forall side l, h side l = h' side l) -> wired g cs h b -> wired g cs h' b.
Proof.
  intros He [H1 H2 H3 H4 H5]. split; try done. intros side l s Hin. rewrite <-He. by apply H2.
Qed.

Lemma chan_writer g cs h b side l :
  wired g cs h b ->
  match dget (side, l) cs with
  | Some s => exists wr r, dget side (writers l b) = Some wr /\ open_stream (b_world b) g s wr r (h side l)
  | None => dget side (writers l b) = None
  end.
Proof.
  intros [_ H2 H3 _ _]. destruct (dget (side, l) cs) as [s|] eqn:E.
  - by apply H2, dget_In.
  - destruct (dget side (writers l b)) as [wr|] eqn:Ew; [|done]. exfalso.
    destruct (H3 _ _ _ Ew) as [s Hin]. apply dget_None in E. apply E.
    by apply (list_elem_of_fmap_2 fst) in Hin.
Qed.

(** The effect of a write on the wiring. *)
Lemma write_wired g cs h b side l s wr v t :
  wired g cs h b -> dget (side, l) cs = Some s -> dget side (writers l b) = Some wr ->
  exists b' r, brain_write cast wr v t b = (b', r) /\ wired g cs (post_log cs side l (fun _ => Ok v) t h) b' /\
    forall l', writers l' b' = writers l' b.
Proof.
  intros Hw Hs Hwr. unfold brain_write, post_log. rewrite Hs.
  pose proof (chan_writer _ _ _ _ side l Hw) as Hc. rewrite Hs in Hc.
  destruct Hc as (wr' & r & Ewr & Ho). rewrite Hwr in Ewr. injection Ewr as <-.
  pose proof (write_open cast _ _ _ _ _ _ v t Ho) as Hx.
  destruct (Z.of_nat (length v) =? sp_dim s); [|rewrite Hx; by exists b, (Raised ValueError)].
  destruct Hx as (w' & i & r' & -> & Ho' & Hd & Hother).
  exists (set_world b w'), (Returned tt). split; [done|]. split; [|intros; apply writers_world].
  destruct Hw as [H1 H2 H3 H4 H5]. split; simpl.
  - intros ru su d. unfold dir_of. rewrite Hd. apply H1.
  - intros side' l' s' Hin. destruct (H2 _ _ _ Hin) as (wr2 & r2 & E2 & Ho2).
    rewrite writers_world. destruct (decide ((side', l') = (side, l))) as [E|Hne].
    + injection E as -> ->. rewrite Hwr in E2. injection E2 as <-. exists wr, r'. split; [done|].
      rewrite log_add_eq. unfold stored. rewrite (os_dtype _ _ _ _ _ _ Ho).
      assert (s' = s) as -> by (by rewrite <-(os_spec _ _ _ _ _ _ Ho2), (os_spec _ _ _ _ _ _ Ho)). done.
    + exists wr2, r2. rewrite log_add_ne by done. split; [done|]. apply Hother; [|done].
      intros Hseg. apply Hne. by eapply H4.
  - intros side' l' wr'. rewrite writers_world. apply H3.
  - intros *. rewrite !writers_world. apply H4.
  - intros l'. rewrite writers_world. apply H5.
Qed.

Lemma post_wired g cs h b side l (v : StreamSpec -> res (list f64)) t :
  wired g cs h b -> forall b' r,
  (match dget side (writers l b) with
   | Some wr => match v (w_spec wr) with Ok x => brain_write cast wr x t b | Raise e => (b, Raised e) end
   | None => (b, r)
   end) = (b', r) -> wired g cs (post_log cs side l v t h) b' /\ forall l', writers l' b' = writers l' b.
Proof.
  intros Hw b' r. pose proof (chan_writer _ _ _ _ side l Hw) as Hc.
  destruct (dget (side, l) cs) as [s|] eqn:Es.
  - destruct Hc as (wr & rr & Ewr & Ho). rewrite Ewr, (os_spec _ _ _ _ _ _ Ho).
    destruct (v s) as [x|e] eqn:Ev.
    + intros H. destruct (write_wired g cs h b side l s wr x t Hw Es Ewr) as (b1 & r1 & E1 & H1 & H2).
      rewrite H in E1. injection E1 as <- <-. split; [|done]. eapply wired_ext; [|exact H1].
      intros. unfold post_log. by rewrite Es, Ev.
    + intros [= <- _]. split; [|done]. eapply wired_ext; [|exact Hw]. intros. unfold post_log. by rewrite Es, Ev.
  - rewrite Hc. intros [= <-]. split; [|done]. eapply wired_ext; [|exact Hw]. intros. unfold post_log. by rewrite Es.
Qed.

(** STOP posted so far, on the channels of the sides [ss]. *)
Definition stopped (cs : list (chan * StreamSpec)) (ss : list string) (t : Z) (h : logs) : logs := fun side l =>
  if decide (side ∈ ss) then stop_logs cs t h side l else h side l.

Lemma post_log_other cs side l v t h side' l' :
  (side', l') ≠ (side, l) -> post_log cs side l v t h side' l' = h side' l'.
Proof.
  intros Hne. unfold post_log. destruct (dget (side, l) cs); [|done]. destruct (v s); [|done].
  destruct (_ =? _); [|done]. by apply log_add_ne.
Qed.

Lemma post_log_at cs side l v t h h' :
  h side l = h' side l -> post_log cs side l v t h side l = post_log cs side l v t h' side l.
Proof.
  intros E. unfold post_log. destruct (dget (side, l) cs); [|done]. destruct (v s); [|done].
  destruct (_ =? _); [|done]. by rewrite !log_add_eq, E.
Qed.

Lemma stop_each_wired g cs t l : forall h b done_,
  wired g cs (stopped cs done_ t h) b -> NoDup (l.*1) -> (forall x, x ∈ l -> x.1 ∉ done_) ->
  (forall side wr, (side, wr) ∈ l -> dget side (writers LCommand b) = Some wr) ->
  wired g cs (stopped cs (done_ ++ l.*1)%list t h) (stop_each cast l t b).1 /\
  (stop_each cast l t b).2 = Returned tt.
Proof.
  induction l as [|[side wr] l IH]; intros h b done_ Hw Hnd Hfr Hin.
  { simpl. by rewrite app_nil_r. }
  rewrite fmap_cons in *. change (stop_each cast ((side, wr) :: l) t) with (stop_one cast wr t;; stop_each cast l t).
  apply list.NoDup_cons in Hnd as [Hns Hnd].
  assert (Hwr : dget side (writers LCommand b) = Some wr) by (apply Hin; left).
  assert (H1 : exists b1, stop_one cast wr t b = (b1, Returned tt) /\
    wired g cs (post_log cs side LCommand (encoded (Command STOP [])) t (stopped cs done_ t h)) b1 /\
    forall l', writers l' b1 = writers l' b).
  { destruct (match encoded (Command STOP []) (w_spec wr) with
      | Ok x => brain_write cast wr x t b | Raise e => (b, Raised e) end) as [b1 r1] eqn:Eb.
    destruct (post_wired g cs _ b side LCommand (encoded (Command STOP [])) t Hw b1 r1) as [Hw1 Hs1].
    { by rewrite Hwr. }
    exists b1. split; [|done]. unfold stop_one, try_except, mbind, st_bind, st_lift. fold (encoded (Command STOP []) (w_spec wr)).
    assert (Hnr : r1 ≠ Running).
    { destruct (encoded _ _); [|by simplify_eq]. unfold brain_write in Eb.
      destruct (writer_write _ _ _ _ _) as [[]|]; by simplify_eq. }
    destruct (encoded (Command STOP []) (w_spec wr)) as [x|e]; [rewrite Eb|by simplify_eq].
    by destruct r1 as [[]|e|]. }
  destruct H1 as (b1 & E1 & Hw1 & Hs1). unfold mbind, st_bind. rewrite E1.
  replace (done_ ++ (side, wr).1 :: l.*1)%list with ((done_ ++ [side]) ++ l.*1)%list by (by rewrite <-app_assoc).
  apply IH; [|done| |].
  - eapply wired_ext; [|exact Hw1]. intros side' l'. unfold stopped at 2.
    destruct (decide (side' ∈ (done_ ++ [side])%list)) as [Hd|Hd].
    + apply elem_of_app in Hd as [Hd|Hd%list_elem_of_singleton].
      * rewrite post_log_other; [unfold stopped; by rewrite decide_True|].
        intros [= -> ->]. eapply (Hfr (side, wr)); [left|done].
      * subst side'. unfold stop_logs. destruct (decide (l' = LCommand)) as [->|Hl].
        -- apply post_log_at. unfold stopped. rewrite decide_False; [done|]. apply (Hfr (side, wr)). left.
        -- rewrite !post_log_other by congruence. unfold stopped. rewrite decide_False; [done|].
           apply (Hfr (side, wr)). left.
    + rewrite post_log_other by set_solver. unfold stopped. rewrite decide_False; [done|]. set_solver.
  - intros x Hx. rewrite not_elem_of_app. split; [apply Hfr; by right|].
    intros E%list_elem_of_singleton. apply Hns. simpl. rewrite <-E. exact (list_elem_of_fmap_2 fst _ _ Hx).
  - intros side' wr' Hin'. rewrite Hs1. apply Hin. by right.
Qed.

Lemma run_op_wired g cs h b o : wired g cs h b -> wired g cs (op_log cs h o) (run_op o b).1.
Proof.
  intros Hw. destruct o as [side v t|side c t|side x t|t]; simpl.
  - unfold brain_command, mbind, st_bind, st_get, st_lift, of_option.
    pose proof (post_wired g cs h b side LSetpoint (fun _ => Ok v) t Hw) as Hp. simpl in Hp.
    destruct (dget side (b_setpoint_writers b)) as [wr|]; [|by eapply (Hp b (Raised KeyError))].
    destruct (brain_write cast wr v t b) as [b' r]. by eapply Hp.
  - unfold send_command, mbind, st_bind, st_get, st_lift, of_option.
    pose proof (post_wired g cs h b side LCommand (encoded c) t Hw) as Hp. simpl in Hp. unfold encoded at 1 in Hp.
    destruct (dget side (b_command_writers b)) as [wr|]; [|by eapply (Hp b (Raised KeyError))].
    destruct (encode c _) as [v|e]; [|by eapply (Hp b (Raised e))].
    destruct (brain_write cast wr v t b) as [b' r]. by eapply Hp.
  - unfold command_gripper, mbind, st_bind, st_get.
    pose proof (post_wired g cs h b side LGripper (fun _ => Ok [x]) t Hw) as Hp. simpl in Hp.
    destruct (dget side (b_gripper_writers b)) as [wr|]; [|by eapply (Hp b (Returned tt))].
    destruct (brain_write cast wr [x] t b) as [b' r]. by eapply Hp.
  - unfold stop_arms, mbind, st_bind, st_get.
    destruct (stop_each_wired g cs t (b_command_writers b) h b []) as [H1 _].
    + eapply wired_ext; [|exact Hw]. intros. unfold stopped. by rewrite decide_False by apply not_elem_of_nil.
    + apply (wi_keys _ _ _ _ Hw LCommand).
    + intros. apply not_elem_of_nil.
    + intros side wr Hin. apply dget_NoDup; [apply (wi_keys _ _ _ _ Hw LCommand)|done].
    + eapply wired_ext; [|exact H1]. intros side l. unfold stopped. simpl. destruct (decide _) as [|Hn]; [done|].
      unfold stop_logs. destruct (decide (l = LCommand)) as [->|]; [|by rewrite post_log_other by congruence].
      unfold post_log. destruct (dget (side, LCommand) cs) as [s|] eqn:E; [|done]. exfalso.
      pose proof (chan_writer _ _ _ _ side LCommand Hw) as Hc. rewrite E in Hc.
      destruct Hc as (wr & _ & Hg & _). apply Hn. by eapply dget_key.
Qed.

Lemma run_ops_wired g cs ops : forall h b, wired g cs h b -> wired g cs (foldl (op_log cs) h ops) (run_ops ops b).
Proof.
  induction ops as [|o ops IH]; intros h b Hw; simpl; [done|]. by apply IH, run_op_wired.
Qed.
End posting.

(** ** Releasing *)

Lemma create_names io w s run g pid w' out :
  writer_create io w s run g pid = (w', out) ->
  match out with
  | Ok wr => names w !! w_shm_name wr = None /\ names w' = <[w_shm_name wr := w_seg wr]> (names w)
  | Raise _ => names w' = names w
  end.
Proof.
  unfold writer_create. set (sn := shm_name_for _ _).
  destruct (shm_create w sn _ _ _) as [[w1 seg]|] eqn:Ec; [|by intros [= <- <-]].
  apply shm_create_ok in Ec as (Hf & Hn1 & _ & _).
  destruct (publish io w1 g s sn pid) as [[w2 e]|] eqn:Ep; intros [= <- <-].
  - apply publish_ok in Ep as (_ & Hn2 & _). simpl. split; [done|]. by rewrite Hn2, Hn1.
  - simpl. rewrite Hn1. by apply delete_insert_id.
Qed.

(** The names beyond those of [w0] are the ones the brain's writers own. *)
Definition owns_names (w0 : world) (b : brain) : Prop :=
  (forall n, names (b_world b) !! n = names w0 !! n \/
     exists side l wr, dget side (writers l b) = Some wr /\ w_shm_name wr = n) /\
  forall side l wr, (side, wr) ∈ writers l b -> names w0 !! w_shm_name wr = None.

Lemma elem_of_dset {K V} `{EqDecision K} (k : K) (v : V) d x : x ∈ dset k v d -> x = (k, v) \/ x ∈ d.
Proof.
  induction d as [|[k' v'] d IH]; simpl; [rewrite list_elem_of_singleton; auto|].
  destruct (decide (k = k')) as [->|]; rewrite !elem_of_cons; [tauto|]. intros [?|?%IH]; tauto.
Qed.

Lemma open_writer_owns io pid w0 g s side l b :
  owns_names w0 b -> dget side (writers l b) = None ->
  let b' := (open_writer io pid g s (keep l side) b).1 in
  owns_names w0 b' /\
  forall side' l', (side', l') ≠ (side, l) -> dget side' (writers l' b') = dget side' (writers l' b).
Proof.
  intros [Ho Hf] Hn. unfold open_writer. destruct (writer_create _ _ _ _ _ _) as [w [wr|x]] eqn:Ec;
    apply create_names in Ec; simpl; [|split; [split|intros; by rewrite writers_world]].
  - destruct Ec as [Hfresh Hnew].
    assert (Hother : forall side' l', (side', l') ≠ (side, l) ->
      dget side' (writers l' (keep l side wr (set_world b w))) = dget side' (writers l' b)).
    { intros side' l' Hne. rewrite writers_keep, writers_world. destruct (decide (l' = l)) as [->|]; [|done].
      apply dget_dset_ne. congruence. }
    split; [|done]. split.
    + intros n. change (b_world (keep l side wr (set_world b w))) with w. rewrite Hnew.
      destruct (decide (n = w_shm_name wr)) as [->|Hne].
      * right. exists side, l, wr. split; [|done].
        rewrite writers_keep, decide_True, writers_world by done. apply dget_dset_eq.
      * rewrite lookup_insert_ne by done. destruct (Ho n) as [E|(sd & lf & wr' & E & Hwn)]; [by left|].
        right. exists sd, lf, wr'. split; [|done]. rewrite Hother; [done|]. congruence.
    + intros side' l' wr'. rewrite writers_keep, writers_world.
      destruct (decide (l' = l)) as [->|]; [|by apply Hf].
      intros [E|?]%elem_of_dset; [injection E as -> ->|by eapply Hf].
      destruct (Ho (w_shm_name wr)) as [<-|(sd & lf & wr' & E & <-)]; [done|]. by eapply Hf, dget_In.
  - intros n. simpl. rewrite Ec. destruct (Ho n) as [?|(sd & lf & wr' & E & Hwn)]; [by left|].
    right. exists sd, lf, wr'. by rewrite writers_world.
  - intros side' l' wr'. rewrite writers_world. apply Hf.
Qed.

(** A step that opens channels of [side] only, from a state where it has none of the leaves [ls]. *)
Definition opens (w0 : world) (side : string) (ls : list leaf) (m : B unit) : Prop := forall b,
  owns_names w0 b -> (forall l, l ∈ ls -> dget side (writers l b) = None) ->
  owns_names w0 (m b).1 /\ forall side' l', side' ≠ side \/ l' ∉ ls ->
    dget side' (writers l' (m b).1) = dget side' (writers l' b).

Lemma opens_writer io pid w0 g s side l : opens w0 side [l] (open_writer io pid g s (keep l side)).
Proof.
  intros b Ho Hn. destruct (open_writer_owns io pid w0 g s side l b Ho) as [H1 H2]; [apply Hn; left|].
  split; [done|]. intros side' l' Hne. apply H2. intros [= -> ->]. destruct Hne as [|Hne]; [done|].
  apply Hne. left.
Qed.

Lemma opens_bind w0 side l1 l2 m k : opens w0 side l1 m -> opens w0 side l2 k ->
  (forall l, l ∈ l1 -> l ∉ l2) -> opens w0 side (l1 ++ l2)%list (m;; k).
Proof.
  intros Hm Hk Hd b Ho Hn. unfold mbind, st_bind.
  destruct (Hm b Ho) as [H1 H2]; [intros; apply Hn; set_solver|].
  destruct (m b) as [b1 [[]|e|]]; simpl in *; [|split; [done|]; intros; apply H2; set_solver..].
  destruct (Hk b1 H1) as [H3 H4].
  { intros l Hl. rewrite H2; [apply Hn; set_solver|]. right. intros Hin. by apply (Hd l). }
  split; [done|]. intros side' l' Hne. rewrite H4, H2; [done|set_solver..].
Qed.

Lemma opens_lift {A} w0 side ls (c : res A) (k : A -> B unit) :
  (forall a, opens w0 side ls (k a)) -> opens w0 side ls (a ← st_lift c; k a).
Proof. intros Hk b Ho Hn. unfold mbind, st_bind, st_lift. destruct c; [by apply Hk|done]. Qed.

Lemma opens_side io pid w0 g side specs :
  opens w0 side [LGripper; LSetpoint; LCommand] (open_side io pid g side specs).
Proof.
  unfold open_side. change [LGripper; LSetpoint; LCommand] with ([LGripper] ++ [LSetpoint; LCommand])%list.
  apply opens_bind; [|apply opens_lift; intros s|set_solver].
  - destruct (dget GRIPPER specs); [apply opens_writer|by intros b].
  - change [LSetpoint; LCommand] with ([LSetpoint] ++ [LCommand])%list.
    apply opens_bind; [apply opens_writer|apply opens_lift; intros k; apply opens_writer|set_solver].
Qed.

Lemma open_control_owns io pid w0 g specs : forall b,
  owns_names w0 b -> NoDup (dkeys specs) -> (forall side l, side ∈ dkeys specs -> dget side (writers l b) = None) ->
  owns_names w0 (open_control io pid g specs b).1.
Proof.
  induction specs as [|[side sp] specs IH]; intros b Ho Hnd Hn; [done|].
  change (open_control io pid g ((side, sp) :: specs)) with (open_side io pid g side sp;; open_control io pid g specs).
  simpl in Hnd. apply list.NoDup_cons in Hnd as [Hns Hnd].
  destruct (opens_side io pid w0 g side sp b Ho) as [H1 H2]; [intros; apply Hn; left|].
  unfold mbind, st_bind. destruct (open_side io pid g side sp b) as [b1 [[]|e|]]; simpl in *; [|done..].
  apply IH; [done|done|]. intros side' l Hin. rewrite H2; [apply Hn; by right|]. left. intros ->. done.
Qed.

Lemma unlink_writers_names l : forall w n,
  names (unlink_writers l w) !! n = if decide (n ∈ w_shm_name <$> l.*2) then None else names w !! n.
Proof.
  induction l as [|[side wr] l IH]; intros w n.
  { rewrite decide_False; [done|]. apply not_elem_of_nil. }
  change (unlink_writers ((side, wr) :: l) w) with (unlink_writers l (writer_unlink w wr)).
  rewrite IH, !fmap_cons. simpl. destruct (decide (n ∈ w_shm_name <$> l.*2)) as [Hin|Hin].
  - rewrite decide_True; [done|by right].
  - destruct (decide (n = w_shm_name wr)) as [->|Hne].
    + rewrite decide_True by left. apply lookup_delete_eq.
    + rewrite decide_False by (rewrite not_elem_of_cons; done). by rewrite lookup_delete_ne.
Qed.

Lemma close_owned w0 b : owns_names w0 b -> names (b_world (brain_close b)) = names w0.
Proof.
  intros [Ho Hw]. apply map_eq. intros n. unfold brain_close. simpl. rewrite !unlink_writers_names.
  assert (Hin : forall l, n ∈ w_shm_name <$> (writers l b).*2 -> names w0 !! n = None).
  { intros l (wr & -> & [[side wr'] [E Hin]]%list_elem_of_fmap)%list_elem_of_fmap. simpl in E. subst.
    by eapply Hw. }
  destruct (decide _) as [E|E1]; [by rewrite (Hin LGripper E)|].
  destruct (decide _) as [E|E2]; [by rewrite (Hin LCommand E)|].
  destruct (decide _) as [E|E3]; [by rewrite (Hin LSetpoint E)|].
  destruct (Ho n) as [->|(side & l & wr & Hg & <-)]; [done|]. exfalso.
  apply dget_In in Hg. apply (list_elem_of_fmap_2 snd) in Hg. apply (list_elem_of_fmap_2 w_shm_name) in Hg.
  by destruct l.
Qed.

(** Posting touches neither the writers nor the names. *)
Definition posts_only (b b' : brain) : Prop :=
  names (b_world b') = names (b_world b) /\ forall l, writers l b' = writers l b.

Lemma write_posts cast b0 wr v t : keeps (posts_only b0) (brain_write cast wr v t).
Proof.
  intros b [Hn Hw]. unfold brain_write. destruct (writer_write cast (b_world b) wr v t) as [[w i]|] eqn:E; [|done].
  apply writer_write_ok in E as (? & ? & _ & _ & _ & E & _). split; simpl; [congruence|].
  intros l. by rewrite writers_world.
Qed.

Lemma run_op_posts cast b0 o : keeps (posts_only b0) (run_op cast o).
Proof.
  destruct o as [side v t|side c t|side x t|t]; simpl.
  - unfold brain_command. eauto using write_posts with dfc.
  - unfold send_command. eauto using write_posts with dfc.
  - unfold command_gripper. apply keeps_bind; [apply keeps_get|]. intros b.
    destruct (dget _ _); [apply write_posts|apply keeps_ret].
  - unfold stop_arms. apply keeps_bind; [apply keeps_get|]. intros b.
    induction (b_command_writers b) as [|x l IH]; simpl; [apply keeps_ret|].
    apply keeps_bind; [|done]. apply keeps_try_except; [eauto using write_posts with dfc|].
    intros e k [= <-]. apply keeps_ret.
Qed.

Lemma run_ops_posts cast ops : forall b0 b, posts_only b0 b -> posts_only b0 (run_ops cast ops b).
Proof. induction ops as [|o ops IH]; intros b0 b Hb; simpl; [done|]. by apply IH, run_op_posts. Qed.

Lemma encode_stop dm : (0 < dm)%nat -> exists v, encode (Command STOP []) dm = Ok v /\ length v = dm /\
  v !! 0%nat = Some (f_of_Z (kind_code STOP)).
Proof.
  intros Hd. unfold encode, CMD_ARG0_IDX, CMD_KIND_IDX.
  destruct (dm <? _)%nat eqn:E; [apply Nat.ltb_lt in E; simpl in E; lia|]. eexists. split; [done|].
  split.
  - rewrite length_splice; rewrite length_insert, length_replicate; simpl; lia.
  - rewrite lookup_splice_out by (rewrite ?length_insert, ?length_replicate; simpl; lia).
    apply list_lookup_insert_eq. rewrite length_replicate. lia.
Qed.

Lemma decode_stop row : row !! 0%nat = Some (f_of_Z (kind_code STOP)) ->
  exists args, decode row = Ok (Command STOP args).
Proof.
  intros H. unfold decode, CMD_KIND_IDX. rewrite H. cbn [of_option res_bind].
  destruct (kind_code_roundtrip STOP) as (z & Hz & Hk). rewrite Hz. cbn [of_option res_bind].
  rewrite Hk. simpl. eauto.
Qed.

Lemma scan_stop rows row :
  Forall (fun r => exists c, decode r = Ok c) rows -> row ∈ rows ->
  (exists args, decode row = Ok (Command STOP args)) -> scan_commands rows = Ok true.
Proof.
  intros Hd Hin Hs. induction Hd as [|r rows (c & Hc) Hd IH]; [by apply not_elem_of_nil in Hin|]. simpl.
  rewrite Hc. simpl. destruct (decide (cmd_kind c = STOP)); [done|].
  apply elem_of_cons in Hin as [<-|Hin]; [|by apply IH]. destruct Hs as [args Hs]. rewrite Hc in Hs. by simplify_eq.
Qed.

Lemma stream_spec_ok s s' : stream_spec s = Ok s' -> s' = s.
Proof. unfold stream_spec. repeat case_goal; intros H; by simplify_eq. Qed.

Lemma channel_specs_ok arms specs :
  channel_specs arms = Ok specs -> dkeys specs = dkeys arms /\ Forall (fun x => valid_specs x.2) specs.
Proof.
  intros H%mapM_res_Forall2. induction H as [|[side [ctrl grip]] y arms specs Hy _ [IH1 IH2]]; [done|].
  unfold side_specs, control_specs in Hy.
  destruct (setpoint_dim ctrl) as [d|]; [|done]. simpl in Hy.
  destruct (stream_spec (MkSpec (control_channel_name side SETPOINT) _ _ _ _)) as [s1|] eqn:E1; [|done]. simpl in Hy.
  destruct (stream_spec (MkSpec (control_channel_name side COMMAND) _ _ _ _)) as [s2|] eqn:E2; [|done]. simpl in Hy.
  pose proof (stream_spec_ok _ _ E1) as H1. pose proof (stream_spec_ok _ _ E2) as H2. rewrite <-H1 in E1. rewrite <-H2 in E2.
  assert (Hbase : valid_specs [(SETPOINT, s1); (COMMAND, s2)]).
  { intros l s. simpl. destruct (decide _); [by intros [= <-]|]. destruct (decide _); [by intros [= <-]|done]. }
  destruct grip; [|injection Hy as <-; simpl; rewrite IH1; auto].
  destruct (gripper_spec side (channel ctrl)) as [s3|] eqn:E3; simpl in Hy; [|done]. injection Hy as <-.
  simpl. rewrite IH1. split; [done|]. constructor; [|done]. simpl.
  unfold gripper_spec in E3. pose proof (stream_spec_ok _ _ E3) as H3. rewrite <-H3 in E3.
  intros l s. simpl. destruct (decide _); [by intros [= <-]|]. destruct (decide _); [by intros [= <-]|].
  destruct (decide _); [by intros [= <-]|done].
Qed.

Lemma opened_wired io pid g specs w b :
  registry_wf w -> NoDup (dkeys specs) -> Forall (fun x => valid_specs x.2) specs ->
  open_control io pid g specs (new_brain w) = (b, Returned tt) -> wired g (channels specs) no_log b.
Proof.
  intros Hwf Hnd Hv Ho. apply (open_control_wired io pid g specs [] (new_brain w)); try done.
  - by apply wired_new.
  - intros. apply not_elem_of_nil.
Qed.

(** ** Properties *)

(** C7: The control channels deliver: once the brain has opened them, whatever it posts, an arm
    that looks a channel up in the control registry and attaches it reads exactly the last
    samples posted to that channel and accepted by it, in order: nothing posted to another
    side or channel, and nothing a refused post would have written. *)
Theorem control_delivers (cast : dtype -> f64 -> f64) (io : string -> bool) (pid : Z) (g : registry)
    (arms : list (string * (ControlCfg * bool))) (specs : list (string * list (string * StreamSpec)))
    (w : world) (b : brain) (ops : list brain_op)
    (side : string) (l : leaf) (s : StreamSpec) (k : Z)
    (Hwf : registry_wf w) (Hnd : NoDup (dkeys arms)) (Hspecs : channel_specs arms = Ok specs)
    (Hopen : open_control io pid g specs (new_brain w) = (b, Returned tt))
    (Hchan : dget (side, l) (channels specs) = Some s) (Hk : 0 < k) :
  let w' := b_world (run_ops cast ops b) in
  let h := ops_log cast (channels specs) ops side l in
  exists e rd batch, reg_get w' g (sp_name s) = Ok (Some e) /\ reader_attach w' e = Ok rd /\
    reader_last w' rd k = Ok batch /\
    s_data batch = (newest_of (Z.to_nat (Z.min k (Z.min (sp_capacity s) (Z.of_nat (length h))))) h).*1.
Proof.
  destruct (channel_specs_ok _ _ Hspecs) as [Hkeys Hv]. rewrite <-Hkeys in Hnd.
  intros w' h. pose proof (opened_wired _ _ _ _ _ _ Hwf Hnd Hv Hopen) as Hw.
  apply (run_ops_wired cast g (channels specs) ops) in Hw. apply (chan_writer _ _ _ _ side l) in Hw.
  rewrite Hchan in Hw. destruct Hw as (wr & r & _ & Ho).
  destruct (open_attach _ _ _ _ _ _ k Ho Hk) as (e & rd & H1 & H2 & _ & H3).
  exists e, rd, (read_of r h k). split_and!; try done. unfold read_of, read_len. simpl.
  by rewrite (os_cap _ _ _ _ _ _ Ho).
Qed.

(** C8: Stopping reaches every arm: after [stop_arms], an arm attached to its command channel,
    wherever its cursor stands, drains a batch that ends with a STOP; if the commands pending
    before it are well formed, scanning them tells the arm to leave its control session. *)
Theorem stop_reaches_arms (cast : dtype -> f64 -> f64) (io : string -> bool) (pid : Z) (g : registry)
    (arms : list (string * (ControlCfg * bool))) (specs : list (string * list (string * StreamSpec)))
    (w : world) (b : brain) (ops : list brain_op)
    (side : string) (s : StreamSpec) (t c : Z)
    (Hcast : forall d, cast d (f_of_Z (kind_code STOP)) = f_of_Z (kind_code STOP))
    (Hwf : registry_wf w) (Hnd : NoDup (dkeys arms)) (Hspecs : channel_specs arms = Ok specs)
    (Hopen : open_control io pid g specs (new_brain w) = (b, Returned tt))
    (Hchan : dget (side, LCommand) (channels specs) = Some s)
    (Hcursor : -1 <= c <= Z.of_nat (length (ops_log cast (channels specs) ops side LCommand)) - 1) :
  let w' := b_world (run_ops cast (ops ++ [OpStopArms t])%list b) in
  exists e rd batch row args, reg_get w' g (sp_name s) = Ok (Some e) /\ reader_attach w' e = Ok rd /\
    reader_last w' rd (sp_capacity s) = Ok batch /\
    list.last (dr_rows (drain_new c batch)) = Some row /\ decode row = Ok (Command STOP args) /\
    (Forall (fun r => exists cmd, decode r = Ok cmd) (dr_rows (drain_new c batch)) ->
       scan_commands (dr_rows (drain_new c batch)) = Ok true).
Proof.
  destruct (channel_specs_ok _ _ Hspecs) as [Hkeys Hv]. rewrite <-Hkeys in Hnd.
  intros w'. pose proof (opened_wired _ _ _ _ _ _ Hwf Hnd Hv Hopen) as Hw.
  apply (run_ops_wired cast g (channels specs) (ops ++ [OpStopArms t])%list) in Hw.
  fold (ops_log cast (channels specs) (ops ++ [OpStopArms t])%list) in Hw.
  apply (chan_writer _ _ _ _ side LCommand) in Hw. rewrite Hchan in Hw. destruct Hw as (wr & r & _ & Ho).
  assert (Hspec : 0 < sp_capacity s /\ 0 < sp_dim s).
  { apply dget_In, list_elem_of_bind in Hchan as (x & Hx & Hin). rewrite Forall_forall in Hv.
    specialize (Hv _ Hin). unfold side_chans, leaf_chan in Hx. rewrite !elem_of_app in Hx.
    apply stream_spec_pos. destruct Hx as [Hx|[Hx|Hx]]; destruct (dget _ _) eqn:E;
      try (by apply not_elem_of_nil in Hx); apply list_elem_of_singleton in Hx; simplify_eq. by eapply Hv. }
  destruct (encode_stop (Z.to_nat (sp_dim s)) ltac:(lia)) as (v & Hv1 & Hv2 & Hv3).
  set (h := ops_log cast (channels specs) ops side LCommand) in *.
  assert (Hlog : ops_log cast (channels specs) (ops ++ [OpStopArms t])%list side LCommand =
    (h ++ [(stored cast s v, t)])%list).
  { unfold ops_log. rewrite foldl_app. simpl. unfold stop_logs, post_log. rewrite Hchan. unfold encoded. rewrite Hv1.
    rewrite (proj2 (Z.eqb_eq _ _)) by lia. apply log_add_eq. }
  rewrite Hlog in Ho. set (row := stored cast s v) in *.
  destruct (open_attach _ _ _ _ _ _ (sp_capacity s) Ho ltac:(lia)) as (e & rd & H1 & H2 & _ & H3).
  destruct (os_repr _ _ _ _ _ _ Ho) as [_ Hr]. pose proof (os_cap _ _ _ _ _ _ Ho) as Hcap.
  destruct (cursor_drain_spec r _ c Hr) as (Hrows & _ & _); [rewrite length_app; simpl; lia|].
  unfold cursor_drain in Hrows. rewrite (ring_last_exact _ _ _ Hr), Hcap in Hrows by lia.
  assert (Hdec : exists args, decode row = Ok (Command STOP args)).
  { apply decode_stop. unfold row, stored. destruct (dtype_of_name _) as [d|]; [|done].
    rewrite list_lookup_fmap, Hv3. simpl. by rewrite Hcast. }
  assert (Hlast : list.last (dr_rows (drain_new c (read_of r (h ++ [(row, t)])%list (sp_capacity s)))) = Some row).
  { rewrite Hrows, fmap_app, drop_app_le; [apply list.last_snoc|].
    rewrite length_fmap, length_app. simpl. lia. }
  destruct Hdec as [args Hdec]. exists e, rd, (read_of r (h ++ [(row, t)])%list (sp_capacity s)), row, args.
  split_and!; try done. intros Hall. eapply scan_stop; [done| |by eexists].
  apply last_Some in Hlast as (l' & ->). set_solver.
Qed.

(** The brain leaves no shared memory behind: whether opening the control channels succeeded
    or failed half-way, and whatever was posted since, closing it leaves exactly the
    shared-memory names that existed before, and no reader or writer. *)
Theorem close_releases (cast : dtype -> f64 -> f64) (io : string -> bool) (pid : Z) (g : registry)
    (arms : list (string * (ControlCfg * bool))) (specs : list (string * list (string * StreamSpec)))
    (w : world) (ops : list brain_op) (Hnd : NoDup (dkeys arms)) (Hspecs : channel_specs arms = Ok specs) :
  let b := run_ops cast ops (open_control io pid g specs (new_brain w)).1 in
  names (b_world (brain_close b)) = names w /\ b_readers (brain_close b) = [] /\
  forall l, writers l (brain_close b) = [].
Proof.
  rewrite <-(proj1 (channel_specs_ok _ _ Hspecs)) in Hnd.
  intros b. split; [|split; [done|by intros []]]. apply close_owned.
  assert (Ho : owns_names w (open_control io pid g specs (new_brain w)).1).
  { apply open_control_owns; [|done|by intros side []].
    split; [by left|]. by intros side [] wr []%not_elem_of_nil. }
  destruct (run_ops_posts cast ops _ _ (conj eq_refl (fun _ => eq_refl)) :
    posts_only (open_control io pid g specs (new_brain w)).1 b) as [Hn Hw].
  destruct Ho as [Ho Hf]. split.
  - intros n. rewrite Hn. destruct (Ho n) as [?|(sd & l & wr & E & ?)]; [by left|]. right. exists sd, l, wr. by rewrite Hw.
  - intros sd l wr. rewrite Hw. apply Hf.
Qed.

(** ** A concrete rig *)

Definition demo_arms : list (string * (ControlCfg * bool)) := [("left", (demo_qpos, true)); ("right", (demo_qpos, false))].
Definition demo_control : registry := Registry "run1" "control".

Definition demo_specs : list (string * list (string * StreamSpec)) :=
  match channel_specs demo_arms with Ok l => l | Raise _ => [] end.

Definition demo_open : brain := (open_control (fun _ => true) 42 demo_control demo_specs (new_brain empty_world)).1.

Definition demo_posts : list brain_op :=
  [OpCommand "left" [f1; f0; f0; f0] 1; OpCommand "right" [f0; f0; f0; f0] 2; OpCommand "left" [f1] 3;
   OpGripper "left" f1 4; OpGripper "right" f1 5].

Lemma demo_arms_NoDup : NoDup (dkeys demo_arms).
Proof. apply (bool_decide_eq_true_1 _). vm_compute. reflexivity. Qed.

Lemma control_delivers_witness : exists s e rd batch,
  dget ("left", LSetpoint) (channels demo_specs) = Some s /\
  let w := b_world (run_ops (fun _ x => x) demo_posts demo_open) in
  reg_get w demo_control (sp_name s) = Ok (Some e) /\ reader_attach w e = Ok rd /\
  reader_last w rd 1 = Ok batch /\ s_data batch = [[f1; f0; f0; f0]].
Proof.
  destruct (dget ("left", LSetpoint) (channels demo_specs)) as [s|] eqn:Es; [|vm_compute in Es; discriminate].
  destruct (control_delivers (fun _ x => x) (fun _ => true) 42 demo_control demo_arms demo_specs empty_world
    demo_open demo_posts "left" LSetpoint s 1 empty_world_wf demo_arms_NoDup) as (e & rd & batch & H1 & H2 & H3 & H4).
  - vm_compute. reflexivity.
  - vm_compute. reflexivity.
  - exact Es.
  - lia.
  - exists s, e, rd, batch. split; [reflexivity|]. cbv zeta. split; [exact H1|]. split; [exact H2|].
    split; [exact H3|]. rewrite H4. vm_compute in Es. injection Es as <-. vm_compute. reflexivity.
Defined.

Lemma stop_reaches_arms_witness : exists s e rd batch,
  dget ("right", LCommand) (channels demo_specs) = Some s /\
  let w := b_world (run_ops (fun _ x => x) (demo_posts ++ [OpStopArms 9])%list demo_open) in
  reg_get w demo_control (sp_name s) = Ok (Some e) /\ reader_attach w e = Ok rd /\
  reader_last w rd (sp_capacity s) = Ok batch /\
  exists row args, list.last (dr_rows (drain_new (-1) batch)) = Some row /\ decode row = Ok (Command STOP args).
Proof.
  destruct (dget ("right", LCommand) (channels demo_specs)) as [s|] eqn:Es; [|vm_compute in Es; discriminate].
  destruct (stop_reaches_arms (fun _ x => x) (fun _ => true) 42 demo_control demo_arms demo_specs empty_world
    demo_open demo_posts "right" s 9 (-1)) as (e & rd & batch & row & args & H1 & H2 & H3 & H4 & H5 & _).
  - reflexivity.
  - exact empty_world_wf.
  - exact demo_arms_NoDup.
  - vm_compute. reflexivity.
  - vm_compute. reflexivity.
  - exact Es.
  - vm_compute. split; discriminate.
  - exists s, e, rd, batch. split; [reflexivity|]. cbv zeta. split; [exact H1|]. split; [exact H2|].
    split; [exact H3|]. exists row, args. split; [exact H4|exact H5].
Defined.

(** The second side's manifest cannot be written: what was opened is released. *)
Lemma close_releases_witness :
  let io n := negb (String.eqb n "cmd/right/command") in
  let b := (open_control io 42 demo_control demo_specs (new_brain empty_world)).1 in
  names (b_world b) !! "dfc_run1_cmd_right_setpoint" = Some 3%nat /\
  names (b_world (brain_close b)) = ∅.
Proof.
  intros io b. split; [vm_compute; reflexivity|].
  apply (close_releases (fun _ x => x) io 42 demo_control demo_arms demo_specs empty_world [] demo_arms_NoDup).
  vm_compute. reflexivity.
Defined.
