(* ===== verification/Policy.v ===== *)
(** * Policy endpoints: the projection of actions

    Models [OpenPIEndpointAdapter] of [policy/adapter.py] (the state it sends and the action
    chunk it decodes) and the action half of [AcmeEndpointAdapter].  Index lists come from
    configuration as integers; a vector or chunk is a list or a list of rows. *)

From Stdlib Require Import String.
From S2P Require Import Prelude Float64 Layout.
Local Open Scope nat_scope.

Record IndexCopy := Copy { ic_source : list Z; ic_target : list Z }.
Record IndexConstant := Constant { ik_target : list Z; ik_value : f64 }.

(** [_indices]. *)
Definition index_ok (size : nat) (v : Z) : res nat :=
  if (v <? 0)%Z || (Z.of_nat size <=? v)%Z then Raise PolicyError else Ok (Z.to_nat v).

Definition indices (vals : list Z) (size : nat) : res (list nat) :=
  let? l := mapM_res (index_ok size) vals in
  if bool_decide (NoDup l) then Ok l else Raise PolicyError.

(** [_pairs]. *)
Definition pairs (c : IndexCopy) (source_size target_size : nat) : res (list nat * list nat) :=
  let? source := indices (ic_source c) source_size in
  let? target := indices (ic_target c) target_size in
  if length source =? length target then Ok (source, target) else Raise PolicyError.

(** [_claim]. *)
Definition claim (mapped target : list nat) : res (list nat) :=
  if existsb (fun t => bool_decide (t ∈ mapped)) target then Raise PolicyError
  else Ok (mapped ++ target).

(** [v[source]] and [v[target] = xs] for valid, distinct indices. *)
Definition gather (v : list f64) (idx : list nat) : list f64 := (fun i => default f0 (v !! i)) <$> idx.

Fixpoint scatter (v : list f64) (idx : list nat) (xs : list f64) : list f64 :=
  match idx, xs with
  | t :: idx, x :: xs => scatter (<[t := x]> v) idx xs
  | _, _ => v
  end.

(** The indices assigned so far and the rows. *)
Record projection := Proj { pj_mapped : list nat; pj_rows : list (list f64) }.

(** A copy of columns from [src], one source row per output row. *)
Definition copy_step (size dim : nat) (src : list (list f64)) (p : projection) (c : IndexCopy) :
    res projection :=
  let? st := pairs c size dim in
  let? m := claim (pj_mapped p) st.2 in
  Ok (Proj m (zip_with (fun out s => scatter out st.2 (gather s st.1)) (pj_rows p) src)).

(** A constant in the given columns of every row. *)
Definition constant_step (dim : nat) (cast : f64 -> f64) (p : projection) (k : IndexConstant) :
    res projection :=
  let? target := indices (ik_target k) dim in
  let? m := claim (pj_mapped p) target in
  Ok (Proj m ((fun out => scatter out target (replicate (length target) (cast (ik_value k)))) <$> pj_rows p)).

(** Every index of the output must be assigned. *)
Definition complete (dim : nat) (p : projection) : res (list (list f64)) :=
  if forallb (fun i => bool_decide (i ∈ pj_mapped p)) (List.seq 0 dim) then Ok (pj_rows p)
  else Raise PolicyError.

(** ** [encode_request]: the state vector *)

Record OpenPIVector := PIVector {
  pv_dim : Z; pv_slices : list IndexCopy; pv_constants : list IndexConstant;
}.

Definition encode_state (cfg : OpenPIVector) (state : list f64) : res (list f64) :=
  let dfc := f32 <$> state in
  if (pv_dim cfg <? 0)%Z then Raise PolicyError
  else if (pv_dim cfg =? 0)%Z then Ok dfc
  else
    let dim := Z.to_nat (pv_dim cfg) in
    let? p := foldM_res (copy_step (length dfc) dim [dfc]) (pv_slices cfg)
                (Proj [] [replicate dim f0]) in
    let? p := foldM_res (constant_step dim f32) (pv_constants cfg) p in
    let? rows := complete dim p in
    of_option PolicyError (head rows).

(** ** [decode_actions] *)

Record OpenPIActions := PIActions {
  pa_dim : Z;
  pa_slices : list IndexCopy;
  pa_state_holds : list IndexCopy;
  pa_constants : list IndexConstant;
}.

(** A response's array under the configured key: its dimension count is 1, 2 or other. *)
Inductive ndarray :=
  | Array1 (row : list f64)
  | Array2 (width : nat) (rows : list (list f64))
  | Array3 (blocks : list (nat * list (list f64)))
  | ArrayOther.

Definition as_rows (a : ndarray) : res (nat * list (list f64)) :=
  match a with
  | Array1 row => Ok (length row, [row])
  | Array2 w rows => match rows with [] => Raise PolicyError | _ => Ok (w, rows) end
  | _ => Raise PolicyError
  end.

(** [last_state] is the state of the newest encoded request. *)
Definition decode_actions (cfg : OpenPIActions) (last_state : option (list f64))
    (response : option ndarray) : res (list (list f64)) :=
  let? a := of_option PolicyError response in
  let? wr := as_rows a in
  let '(width, raw) := wr in
  if (pa_dim cfg <? 0)%Z then Raise PolicyError
  else if (pa_dim cfg =? 0)%Z then Ok raw
  else
    let dim := Z.to_nat (pa_dim cfg) in
    let? p := foldM_res (copy_step width dim raw) (pa_slices cfg)
                (Proj [] (replicate (length raw) (replicate dim f0))) in
    let? p := match pa_state_holds cfg with
              | [] => Ok p
              | holds =>
                  let? st := of_option PolicyError last_state in
                  foldM_res (copy_step (length st) dim (replicate (length raw) st)) holds p
              end in
    let? p := foldM_res (constant_step dim id) (pa_constants cfg) p in
    complete dim p.

(** [AcmeEndpointAdapter.decode_actions]. *)
Definition acme_decode (response : option ndarray) : res (list (list f64)) :=
  let? a := of_option PolicyError response in
  let? a := match a with
            | Array3 [(w, rows)] => Ok (Array2 w rows)
            | Array3 _ => Raise PolicyError
            | x => Ok x
            end in
  let? wr := as_rows a in Ok wr.2.

(** ** Lemmas *)

Lemma scatter_spec idx : forall v xs,
  NoDup idx -> length idx = length xs -> Forall (fun t => t < length v) idx ->
  length (scatter v idx xs) = length v /\
  (forall k t x, idx !! k = Some t -> xs !! k = Some x -> scatter v idx xs !! t = Some x) /\
  (forall j, j ∉ idx -> scatter v idx xs !! j = v !! j).
Proof.
  induction idx as [|t idx IH]; intros v xs Hnd Hl Hb; destruct xs as [|x xs]; simpl in *; try lia; [done|].
  apply list.NoDup_cons in Hnd as [Ht Hnd]. apply Forall_cons in Hb as [Hlt Hb].
  destruct (IH (<[t := x]> v) xs Hnd) as (H1 & H2 & H3); [lia|by rewrite length_insert|].
  rewrite length_insert in H1. split_and!; [done| |].
  - intros [|k] t' x' Ht' Hx'; simpl in *; simplify_eq; [|by eapply H2].
    rewrite H3 by done. by apply list_lookup_insert_eq.
  - intros j [Hne Hj]%not_elem_of_cons. rewrite H3 by done. by apply list_lookup_insert_ne.
Qed.

Lemma indices_ok vals size l :
  indices vals size = Ok l -> l = (Z.to_nat <$> vals) /\ NoDup l /\ Forall (fun t => t < size) l.
Proof.
  unfold indices. intros H. res_simp. destruct (bool_decide (NoDup a)) eqn:En; [|done]. res_simp.
  apply bool_decide_eq_true in En. apply mapM_res_Forall2 in E. split_and!; [|done|].
  - clear En. induction E as [|v t vs ts Hv _ IH]; simpl; [done|]. rewrite IH. f_equal.
    unfold index_ok in Hv. destruct (_ || _); [done|]. by injection Hv.
  - clear En. induction E as [|v t vs ts Hv _ IH]; constructor; [|done]. unfold index_ok in Hv.
    destruct ((v <? 0)%Z || (Z.of_nat size <=? v)%Z) eqn:Eb; [done|]. injection Hv as <-. lia.
Qed.

Lemma claim_ok mapped target m :
  claim mapped target = Ok m -> m = mapped ++ target /\ forall t, t ∈ target -> t ∉ mapped.
Proof.
  unfold claim. destruct (existsb _ target) eqn:E; [done|]. intros [= <-]. split; [done|].
  intros t Ht Hm. assert (existsb (fun t => bool_decide (t ∈ mapped)) target = true); [|congruence].
  apply existsb_exists. exists t. rewrite <-list_elem_of_In. split; [done|]. by apply bool_decide_eq_true.
Qed.

Section project.
Context (dim n : nat).

(** The rows have the output's shape and no index is assigned twice. *)
Definition proj_ok (p : projection) : Prop :=
  NoDup (pj_mapped p) /\ Forall (fun t => t < dim) (pj_mapped p) /\ length (pj_rows p) = n /\
  Forall (fun r => length r = dim) (pj_rows p).

(** A step that assigns the columns [tgt] and establishes [sets] of every row. *)
Definition assigns (tgt : list nat) (sets : nat -> list f64 -> Prop) (p p' : projection) : Prop :=
  proj_ok p' /\ pj_mapped p' = pj_mapped p ++ tgt /\
  forall i out out', pj_rows p !! i = Some out -> pj_rows p' !! i = Some out' ->
    (forall j, j ∈ pj_mapped p -> out' !! j = out !! j) /\ sets i out'.

Section items.
Context {I : Type} (step : projection -> I -> res projection) (tgt : I -> list nat)
  (sets : I -> nat -> list f64 -> Prop).
Hypothesis Hlocal : forall c i out out',
  (forall j, j ∈ tgt c -> out' !! j = out !! j) -> sets c i out -> sets c i out'.
Hypothesis Hstep : forall p c p', proj_ok p -> step p c = Ok p' -> assigns (tgt c) (sets c) p p'.

Lemma steps_assign items : forall p p', proj_ok p -> foldM_res step items p = Ok p' ->
  assigns (items ≫= tgt) (fun i out => forall c, c ∈ items -> sets c i out) p p'.
Proof.
  induction items as [|c items IH]; intros p p' Hp H; simpl in H.
  { injection H as <-. split; [done|]. simpl. rewrite app_nil_r. split; [done|].
    intros i out out' Ho Ho'. simplify_eq. split; [done|]. intros c Hc. by apply not_elem_of_nil in Hc. }
  res_simp. apply Hstep in E as (Hp1 & Hm1 & Hr1); [|done].
  apply IH in H as (Hp2 & Hm2 & Hr2); [|done]. split; [done|]. simpl. split; [by rewrite Hm2, Hm1, app_assoc|].
  intros i out out' Ho Ho'. destruct (pj_rows a !! i) as [o1|] eqn:E1.
  2:{ apply lookup_ge_None in E1. apply lookup_lt_Some in Ho. destruct Hp as (_ & _ & Hn & _), Hp1 as (_ & _ & Hn' & _). lia. }
  destruct (Hr1 i out o1 Ho E1) as [Hk1 Hs1]. destruct (Hr2 i o1 out' E1 Ho') as [Hk2 Hs2].
  rewrite Hm1 in Hk2. split.
  - intros j Hj. rewrite Hk2 by set_solver. auto.
  - intros c' [->|Hc]%elem_of_cons; [|auto]. eapply Hlocal; [|exact Hs1]. intros j Hj. apply Hk2. set_solver.
Qed.
End items.

Definition targets (c : IndexCopy) : list nat := Z.to_nat <$> ic_target c.
Definition const_targets (k : IndexConstant) : list nat := Z.to_nat <$> ik_target k.

(** What a copy from the row [src i] establishes. *)
Definition copied (src : list (list f64)) (c : IndexCopy) (i : nat) (out : list f64) : Prop :=
  forall k s t r, ic_source c !! k = Some s -> ic_target c !! k = Some t -> src !! i = Some r ->
    out !! Z.to_nat t = r !! Z.to_nat s.

Definition held_at (cast : f64 -> f64) (k : IndexConstant) (i : nat) (out : list f64) : Prop :=
  forall t, t ∈ ik_target k -> out !! Z.to_nat t = Some (cast (ik_value k)).

Lemma new_mapped mapped target m :
  NoDup mapped -> Forall (fun t => t < dim) mapped -> NoDup target -> Forall (fun t => t < dim) target ->
  claim mapped target = Ok m -> NoDup m /\ Forall (fun t => t < dim) m /\ m = mapped ++ target.
Proof.
  intros H1 H2 H3 H4 [-> Hd]%claim_ok. split_and!; [|by apply Forall_app|done].
  apply list.NoDup_app. split_and!; [done| |done]. intros t Ht Ht'. by apply (Hd t).
Qed.

Lemma copy_step_ok size src p c p' :
  Forall (fun r => length r = size) src -> length src = n ->
  proj_ok p -> copy_step size dim src p c = Ok p' -> assigns (targets c) (copied src c) p p'.
Proof.
  intros Hsrc Hn (Hnd & Hb & Hr & Hrl) H. unfold copy_step in H. res_simp. unfold pairs in E. res_simp.
  apply indices_ok in E1 as (-> & Hsn & Hsb). apply indices_ok in E2 as (-> & Htn & Htb).
  destruct (_ =? _) eqn:El; [|done]. res_simp. simpl in *. apply Nat.eqb_eq in El.
  apply (new_mapped (pj_mapped p)) in E0 as (Hnd' & Hb' & ->); [|done..].
  assert (Hrow : forall i out s, pj_rows p !! i = Some out -> src !! i = Some s ->
    length (scatter out (targets c) (gather s (Z.to_nat <$> ic_source c))) = dim /\
    (forall j, j ∈ pj_mapped p -> scatter out (targets c) (gather s (Z.to_nat <$> ic_source c)) !! j = out !! j) /\
    copied src c i (scatter out (targets c) (gather s (Z.to_nat <$> ic_source c)))).
  { intros i out s Ho Hs. pose proof (Forall_lookup_1 _ _ _ _ Hrl Ho) as Hlo.
    pose proof (Forall_lookup_1 _ _ _ _ Hsrc Hs) as Hls. simpl in Hlo, Hls.
    destruct (scatter_spec (targets c) out (gather s (Z.to_nat <$> ic_source c))) as (H1 & H2 & H3);
      [done|unfold gather; by rewrite length_fmap|by rewrite Hlo|].
    split_and!; [congruence| |].
    - intros j Hj. apply H3. intros Hj'. apply list.NoDup_app in Hnd' as (_ & Hd & _). by apply (Hd j).
    - intros k s' t r Hs' Ht Hr'. assert (r = s) as -> by congruence.
      assert (Z.to_nat s' < length s) as Hlt.
      { rewrite Hls. apply (Forall_lookup_1 _ _ k _ Hsb). by rewrite list_lookup_fmap, Hs'. }
      destruct (lookup_lt_is_Some_2 s _ Hlt) as [x Hx]. rewrite Hx.
      apply (H2 k); [by unfold targets; rewrite list_lookup_fmap, Ht|].
      unfold gather. by rewrite !list_lookup_fmap, Hs'; simpl; rewrite Hx. }
  split_and!; [|done|].
  - split_and!; [done|done|simpl; rewrite length_zip_with; lia|]. simpl. apply Forall_lookup. intros i out'.
    rewrite lookup_zip_with. destruct (pj_rows p !! i) as [out|] eqn:Eo; simpl; [|done].
    destruct (src !! i) as [s|] eqn:Es; simpl; [|done]. intros [= <-]. by apply (Hrow i).
  - simpl. intros i out out' Ho. rewrite lookup_zip_with, Ho. simpl.
    destruct (src !! i) as [s|] eqn:Es; simpl; [|done]. intros [= <-]. by apply (Hrow i).
Qed.

Lemma constant_step_ok cast p k p' :
  proj_ok p -> constant_step dim cast p k = Ok p' -> assigns (const_targets k) (held_at cast k) p p'.
Proof.
  intros (Hnd & Hb & Hr & Hrl) H. unfold constant_step in H. res_simp.
  apply indices_ok in E as (-> & Htn & Htb).
  apply (new_mapped (pj_mapped p)) in E0 as (Hnd' & Hb' & ->); [|done..].
  fold (const_targets k) in *. set (xs := replicate _ _).
  assert (Hrow : forall out, length out = dim ->
    length (scatter out (const_targets k) xs) = dim /\
    (forall j, j ∈ pj_mapped p -> scatter out (const_targets k) xs !! j = out !! j) /\
    (forall i, held_at cast k i (scatter out (const_targets k) xs))).
  { intros out Hlo. destruct (scatter_spec (const_targets k) out xs) as (H1 & H2 & H3);
      [done|unfold xs; by rewrite length_replicate|by rewrite Hlo|]. split_and!; [congruence| |].
    - intros j Hj. apply H3. intros Hj'. apply list.NoDup_app in Hnd' as (_ & Hd & _). by apply (Hd j).
    - intros i t Ht. apply list_elem_of_lookup in Ht as [m Hm].
      assert (const_targets k !! m = Some (Z.to_nat t)) as Hm' by (unfold const_targets; by rewrite list_lookup_fmap, Hm).
      apply (H2 m); [done|]. apply lookup_replicate. split; [done|]. by apply lookup_lt_Some in Hm'. }
  split_and!; [|done|].
  - split_and!; [done|done|simpl; by rewrite length_fmap|]. simpl. apply Forall_fmap, Forall_forall.
    intros out Ho. apply Hrow. rewrite Forall_forall in Hrl. auto.
  - simpl. intros i out out' Ho. rewrite list_lookup_fmap, Ho. intros [= <-].
    pose proof (Forall_lookup_1 _ _ _ _ Hrl Ho) as Hlo. destruct (Hrow out Hlo) as (_ & ? & ?). auto.
Qed.

Lemma copied_local src c i out out' :
  (forall j, j ∈ targets c -> out' !! j = out !! j) -> copied src c i out -> copied src c i out'.
Proof.
  intros Hj Hc k s t r Hs Ht Hr. rewrite Hj; [by eapply Hc|]. unfold targets.
  apply list_elem_of_fmap_2. by eapply list_elem_of_lookup_2.
Qed.

Lemma held_local cast c i out out' :
  (forall j, j ∈ const_targets c -> out' !! j = out !! j) -> held_at cast c i out -> held_at cast c i out'.
Proof. intros Hj Hc t Ht. rewrite Hj; [by apply Hc|]. by apply list_elem_of_fmap_2. Qed.

Lemma copies_assign size src items p p' :
  Forall (fun r => length r = size) src -> length src = n -> proj_ok p ->
  foldM_res (copy_step size dim src) items p = Ok p' ->
  assigns (items ≫= targets) (fun i out => forall c, c ∈ items -> copied src c i out) p p'.
Proof.
  intros Hsrc Hn. apply steps_assign; [intros c i out out'; apply copied_local|].
  intros q c q'. by apply copy_step_ok.
Qed.

Lemma constants_assign cast items p p' :
  proj_ok p -> foldM_res (constant_step dim cast) items p = Ok p' ->
  assigns (items ≫= const_targets) (fun i out => forall c, c ∈ items -> held_at cast c i out) p p'.
Proof.
  apply steps_assign; [intros c i out out'; apply held_local|]. intros q c q'. apply constant_step_ok.
Qed.

(** Two groups of assignments in sequence. *)
Lemma assigns_trans t1 t2 s1 s2 p p1 p2 :
  length (pj_rows p) = n ->
  (forall i out out', (forall j, j ∈ t1 -> out' !! j = out !! j) -> s1 i out -> s1 i out') ->
  assigns t1 s1 p p1 -> assigns t2 s2 p1 p2 ->
  assigns (t1 ++ t2) (fun i out => s1 i out /\ s2 i out) p p2.
Proof.
  intros Hn Hloc (Hp1 & Hm1 & Hr1) (Hp2 & Hm2 & Hr2). split; [done|]. split; [by rewrite Hm2, Hm1, app_assoc|].
  intros i out out' Ho Ho'. destruct (pj_rows p1 !! i) as [o1|] eqn:E1.
  2:{ apply lookup_ge_None in E1. apply lookup_lt_Some in Ho. destruct Hp1 as (_ & _ & Hn' & _). lia. }
  destruct (Hr1 i out o1 Ho E1) as [Hk1 Hs1]. destruct (Hr2 i o1 out' E1 Ho') as [Hk2 Hs2].
  rewrite Hm1 in Hk2. split_and!; [|eapply Hloc; [|exact Hs1]|done].
  - intros j Hj. rewrite Hk2 by set_solver. auto.
  - intros j Hj. apply Hk2. set_solver.
Qed.

Lemma complete_ok p rows :
  proj_ok p -> complete dim p = Ok rows -> rows = pj_rows p /\ pj_mapped p ≡ₚ List.seq 0 dim.
Proof.
  intros (Hnd & Hb & _ & _). unfold complete. destruct (forallb _ _) eqn:E; [|done]. intros [= <-].
  split; [done|]. rewrite forallb_forall in E. apply NoDup_Permutation; [done|apply NoDup_ListNoDup, seq_NoDup|].
  intros j. rewrite elem_of_seq. split.
  - intros Hj. rewrite Forall_forall in Hb. specialize (Hb j Hj). simpl in Hb. lia.
  - intros Hj. specialize (E j). rewrite in_seq in E. apply bool_decide_eq_true in E; [done|lia].
Qed.

Lemma blank_ok : proj_ok (Proj [] (replicate n (replicate dim f0))).
Proof.
  split_and!; simpl; [constructor|constructor|by rewrite length_replicate|].
  apply Forall_replicate. by rewrite length_replicate.
Qed.
End project.

(** Every output index that a response's configuration assigns, in order. *)
Definition all_targets (cfg : OpenPIActions) : list nat :=
  (pa_slices cfg ≫= targets) ++ (pa_state_holds cfg ≫= targets) ++ (pa_constants cfg ≫= const_targets).

Lemma slices_local src items i out out' :
  (forall j, j ∈ (items ≫= targets) -> out' !! j = out !! j) ->
  (forall c, c ∈ items -> copied src c i out) -> forall c, c ∈ items -> copied src c i out'.
Proof.
  intros Hj Hc c Hin. eapply copied_local; [|by apply Hc]. intros j Hj'. apply Hj.
  apply list_elem_of_bind. eauto.
Qed.

(** ** Properties *)

(** A decoded action chunk is exactly what its configuration says: one row per action of
    the response, every column of the canonical action assigned once and only once (no
    overlap, none left over), the copied columns holding the response's values, the held
    columns the last observed state's, the constant columns their constants. *)
Theorem decode_exact (cfg : OpenPIActions) (last_state : option (list f64)) (a : ndarray)
    (width : nat) (raw rows : list (list f64))
    (Hshape : as_rows a = Ok (width, raw)) (Hrect : Forall (fun r => length r = width) raw)
    (Hdim : (0 < pa_dim cfg)%Z)
    (Hok : decode_actions cfg last_state (Some a) = Ok rows) :
  length rows = length raw /\ all_targets cfg ≡ₚ List.seq 0 (Z.to_nat (pa_dim cfg)) /\
  forall i r out, raw !! i = Some r -> rows !! i = Some out ->
    length out = Z.to_nat (pa_dim cfg) /\
    (forall c k s t, c ∈ pa_slices cfg -> ic_source c !! k = Some s -> ic_target c !! k = Some t ->
       out !! Z.to_nat t = r !! Z.to_nat s) /\
    (forall c k s t st, c ∈ pa_state_holds cfg -> last_state = Some st ->
       ic_source c !! k = Some s -> ic_target c !! k = Some t -> out !! Z.to_nat t = st !! Z.to_nat s) /\
    (forall c t, c ∈ pa_constants cfg -> t ∈ ik_target c -> out !! Z.to_nat t = Some (ik_value c)).
Proof.
  unfold decode_actions in Hok. simpl in Hok. rewrite Hshape in Hok. simpl in Hok.
  replace (pa_dim cfg <? 0)%Z with false in Hok by lia. replace (pa_dim cfg =? 0)%Z with false in Hok by lia.
  set (dim := Z.to_nat (pa_dim cfg)) in *. set (n := length raw) in *. res_simp.
  pose proof (blank_ok dim n) as Hp0. set (p0 := Proj [] _) in *.
  apply (copies_assign dim n) in E as Ha1; [|done..]. rename a0 into p1.
  assert (Ha2 : assigns dim n (pa_state_holds cfg ≫= targets) (fun i out => forall c, c ∈ pa_state_holds cfg ->
    forall st, last_state = Some st -> copied (replicate n st) c i out) p1 a1).
  { destruct (pa_state_holds cfg) as [|h hs] eqn:Eh.
    - injection E0 as <-. destruct Ha1 as (Hp1 & _). split; [done|]. simpl. rewrite app_nil_r. split; [done|].
      intros i out out' Ho Ho'. simplify_eq. split; [done|]. intros c Hc. by apply not_elem_of_nil in Hc.
    - destruct last_state as [st|]; [|done]. simpl in E0.
      apply (copies_assign dim n (length st) (replicate n st) (h :: hs)) in E0;
        [|by apply Forall_replicate|by rewrite length_replicate|by destruct Ha1].
      destruct E0 as (? & ? & Hr). split_and!; [done|done|]. intros i out out' Ho Ho'.
      destruct (Hr i out out' Ho Ho') as [? Hs]. split; [done|]. intros c Hc st' [= <-]. auto. }
  rename a1 into p2.
  apply (constants_assign dim n) in E1 as Ha3; [|by destruct Ha2].
  rename a2 into p3.
  assert (Hn0 : length (pj_rows p0) = n) by (simpl; by rewrite length_replicate).
  assert (Ha12 := assigns_trans dim n _ _ _ _ p0 p1 p2 Hn0 (fun i out out' H => slices_local raw (pa_slices cfg) i out out' H) Ha1 Ha2).
  pose proof (fun H => assigns_trans dim n _ _ _ _ p0 p2 p3 Hn0 H Ha12 Ha3) as Hall.
  destruct Hall as (Hp3 & Hm3 & Hr3).
  { intros i out out' Hj [Hs1 Hs2]. split; [eapply slices_local; [|done]; set_solver|].
    intros c Hc st Hst. eapply copied_local; [|by apply Hs2]. intros j Hj'. apply Hj.
    apply elem_of_app. right. apply list_elem_of_bind. eauto. }
  apply (complete_ok dim n) in Hok as [-> Hperm]; [|done].
  destruct Hp3 as (_ & _ & Hlen & Hrl). split_and!; [done|by rewrite Hm3, <-app_assoc in Hperm|].
  intros i r out Hr Ho.
  destruct (Hr3 i (replicate dim f0) out) as [_ [[Hs1 Hs2] Hs3]]; [|done|].
  { apply lookup_replicate. split; [done|]. unfold n. by eapply lookup_lt_Some. }
  split_and!.
  - by apply (Forall_lookup_1 _ _ i _ Hrl).
  - intros c k s t Hc Hs Ht. by apply (Hs1 c Hc k s t r).
  - intros c k s t st Hc Hst Hs Ht. apply (Hs2 c Hc st Hst k s t st); [done|done|].
    apply lookup_replicate. split; [done|]. unfold n. by eapply lookup_lt_Some.
  - intros c t Hc Ht. by apply (Hs3 c Hc).
Qed.

Lemma decode_exact_witness :
  let cfg := PIActions 3 [Copy [1; 0]%Z [0; 2]%Z] [Copy [0]%Z [1]%Z] [] in
  decode_actions cfg (Some [f1]) (Some (Array1 [f0; f1])) = Ok [[f1; f1; f0]] /\
  all_targets cfg ≡ₚ List.seq 0 3.
Proof.
  intros cfg. split; [vm_compute; reflexivity|].
  apply (decode_exact cfg (Some [f1]) (Array1 [f0; f1]) 2 [[f0; f1]] [[f1; f1; f0]]);
    [reflexivity|repeat constructor|reflexivity|vm_compute; reflexivity].
Defined.
