(* ===== verification/Eval.v ===== *)
(** * The eval loop: a fixed-horizon policy rollout

    Models [EvalLoop] of [policy/loop.py].  Each tick sees the stream snapshot, the stop
    event and, when it queries the policy, the policy's answer.  The canonical observation is
    built by the collection's frame builder with no teleoperated side.  The log records
    inferences, executed actions and posted setpoints in order.  The horizon hooks of the
    viewer ([_announce_horizon]) never affect the rollout; they are in [Horizon]. *)

From Stdlib Require Import String.
From S2P Require Import Prelude Float64 Channel Layout Collect Policy.
Local Open Scope string_scope.
Local Open Scope nat_scope.

Inductive eval_event :=
  | Inferred (rows : list (list f64))
  | Executed (action : list f64)
  | Posted (side : string) (v : list f64).

Record eval_state := EvalSt {
  ev_timesteps_done : nat;
  ev_inferences : nat;
  ev_pending : list (list f64);
  ev_holds : nat;
  ev_errors : nat;                                        (* _consecutive_policy_errors *)
  ev_held : list (string * list (string * list f64));
  ev_warned : list string;
  ev_log : list eval_event;
}.

Record eval_obs := EvalObs {
  eo_stop : bool;
  eo_snapshot : snapshot;
  eo_infer : frame -> res ndarray;      (* policy.infer on the canonical observation *)
}.

Definition HOLD_SIGNAL : list (string * string) := [("pose_d", "eef"); ("q_d", "q")].

(** [hold_stream_names]. *)
Definition hold_stream_names (side : string) (c : ControlCfg) : res (list string) :=
  let? fs := action_hold_fields c in
  mapM_res (fun f => let? s := of_option KeyError (dget f HOLD_SIGNAL) in Ok (side +:+ "/" +:+ s)) fs.

Definition E := ST eval_state.

Section eval.
Context (observer : FrameBuilder) (layout : DFCStateActionLayout)
  (control_arms : list (string * ControlCfg)) (hold : list (string * list string))
  (num_timesteps : nat) (replan_steps : Z) (max_errors : nat).

(** [_capture_holds]. *)
Definition capture_field (snap : snapshot) (side : string)
    (held : list (string * list (string * list f64))) (f : string) :
    res (list (string * list (string * list f64))) :=
  let? sig := of_option KeyError (dget f HOLD_SIGNAL) in
  Ok (match newest_in snap (side +:+ "/" +:+ sig) with
      | Some v => dset side (dset f v (default [] (dget side held))) held
      | None => held
      end).

Definition capture_holds (snap : snapshot) (held : list (string * list (string * list f64))) :
    res (list (string * list (string * list f64))) :=
  foldM_res (fun h x => foldM_res (capture_field snap x.1) x.2 h) hold held.

(** [_validate_chunk]. *)
Definition validate_chunk (a : ndarray) : res (list (list f64)) :=
  match a with
  | Array1 row => if length row =? action_dim layout then Ok [row] else Raise ValueError
  | Array2 w rows =>
      if bool_decide (rows = []) || negb (w =? action_dim layout) then Raise ValueError else Ok rows
  | _ => Raise ValueError
  end.

(** The prefix of a chunk that is executed before the next inference. *)
Definition chunk_prefix (rows : list (list f64)) : list (list f64) :=
  if (0 <? replan_steps)%Z then take (Z.to_nat replan_steps) rows else rows.

Definition log_event (x : eval_event) : E unit :=
  st_modify (fun s => EvalSt (ev_timesteps_done s) (ev_inferences s) (ev_pending s) (ev_holds s)
    (ev_errors s) (ev_held s) (ev_warned s) (ev_log s ++ [x])%list).

(** One arm of [_execute]: a setpoint that cannot be built is held back. *)
Definition execute_arm (targets : list (string * side_action)) (x : string * ControlCfg) : E unit :=
  let '(side, ctrl) := x in
  t ← st_lift (of_option KeyError (dget side targets));
  f ← st_lift (layout_field layout side);
  primary ← st_lift (if String.eqb f (sa_field t) then Ok (sa_value t) else Raise KeyError);
  s ← st_get;
  match Channel.pack_action ctrl primary (default [] (dget side (ev_held s))) with
  | Ok v => v ← st_lift (accepted ctrl v); log_event (Posted side v)
  | Raise ValueError =>
      st_modify (fun s => EvalSt (ev_timesteps_done s) (ev_inferences s) (ev_pending s) (ev_holds s)
        (ev_errors s) (ev_held s)
        (if bool_decide (side ∈ ev_warned s) then ev_warned s else side :: ev_warned s) (ev_log s))
  | Raise x => st_raise x
  end.

Fixpoint execute_arms (targets : list (string * side_action)) (l : list (string * ControlCfg)) : E unit :=
  match l with
  | [] => mret tt
  | x :: l => execute_arm targets x;; execute_arms targets l
  end.

Definition execute (action : list f64) : E unit :=
  log_event (Executed action);;
  targets ← st_lift (Layout.split layout action);
  execute_arms targets control_arms.

(** The inference half of a tick: [false] when it holds. *)
Definition infer (o : eval_obs) : E bool :=
  obs ← st_lift (build observer (eo_snapshot o) [] []);
  match obs with
  | None =>
      st_modify (fun s => EvalSt (ev_timesteps_done s) (ev_inferences s) (ev_pending s)
        (S (ev_holds s)) (ev_errors s) (ev_held s) (ev_warned s) (ev_log s));;
      mret false
  | Some fr =>
      s ← st_get;
      h ← st_lift (capture_holds (eo_snapshot o) (ev_held s));
      st_modify (fun s => EvalSt (ev_timesteps_done s) (ev_inferences s) (ev_pending s) (ev_holds s)
        (ev_errors s) h (ev_warned s) (ev_log s));;
      match eo_infer o fr with
      | Raise PolicyError =>
          st_modify (fun s => EvalSt (ev_timesteps_done s) (ev_inferences s) (ev_pending s)
            (ev_holds s) (S (ev_errors s)) (ev_held s) (ev_warned s) (ev_log s));;
          s ← st_get;
          if max_errors <=? ev_errors s then st_raise PolicyError else mret false
      | Raise x => st_raise x
      | Ok a =>
          st_modify (fun s => EvalSt (ev_timesteps_done s) (S (ev_inferences s)) (ev_pending s)
            (ev_holds s) 0 (ev_held s) (ev_warned s) (ev_log s));;
          rows ← st_lift (validate_chunk a);
          st_modify (fun s => EvalSt (ev_timesteps_done s) (ev_inferences s)
            (ev_pending s ++ chunk_prefix rows) (ev_holds s) (ev_errors s) (ev_held s) (ev_warned s)
            (ev_log s ++ [Inferred rows]))%list;;
          mret true
      end
  end.

Definition eval_tick (o : eval_obs) : E bool :=
  s ← st_get;
  go ← (match ev_pending s with [] => infer o | _ => mret true end);
  if negb go then mret false
  else
    s ← st_get;
    match ev_pending s with
    | [] => st_raise IndexError
    | a :: rest =>
        st_modify (fun s => EvalSt (ev_timesteps_done s) (ev_inferences s) rest 0 (ev_errors s)
          (ev_held s) (ev_warned s) (ev_log s));;
        execute a;;
        mret true
    end.

(** [run]; still [Running] when the tape is exhausted. *)
Fixpoint eval_run (tape : list eval_obs) : E unit := fun s =>
  match tape with
  | [] => (s, Running)
  | o :: tape =>
      if eo_stop o || (num_timesteps <=? ev_timesteps_done s) then (s, Returned tt)
      else
        match eval_tick o s with
        | (s', Returned true) =>
            eval_run tape (EvalSt (S (ev_timesteps_done s')) (ev_inferences s') (ev_pending s')
              (ev_holds s') (ev_errors s') (ev_held s') (ev_warned s') (ev_log s'))
        | (s', Returned false) => eval_run tape s'
        | (s', Raised x) => (s', Raised x)
        | (s', Running) => (s', Running)
        end
  end.

Definition eval_init : eval_state := EvalSt 0 0 [] 0 0 [] [] [].
End eval.

(** The fields each controlled side holds at a measured value. *)
Definition hold_table (arms : list (string * ControlCfg)) : res (list (string * list string)) :=
  mapM_res (fun x => let? fs := action_hold_fields x.2 in Ok (x.1, fs)) arms.

(** [EvalLoop(...).run()]. *)
Definition eval_rollout (observer : FrameBuilder) (layout : DFCStateActionLayout)
    (control_arms : list (string * ControlCfg)) (num_timesteps replan_steps max_errors : Z)
    (tape : list eval_obs) : res (eval_state * outcome unit) :=
  let? hold := hold_table control_arms in
  Ok (eval_run observer layout control_arms hold (Z.to_nat (Z.max 1 num_timesteps)) replan_steps
        (Z.to_nat (Z.max 1 max_errors)) tape eval_init).

(** ** What a log says *)

Definition executed (l : list eval_event) : list (list f64) :=
  omap (fun e => match e with Executed a => Some a | _ => None end) l.

(** The actions the inferences of a log planned to execute. *)
Definition planned (replan_steps : Z) (l : list eval_event) : list (list f64) :=
  concat ((fun e => match e with Inferred rows => chunk_prefix replan_steps rows | _ => [] end) <$> l).

Definition is_post (e : eval_event) : bool := match e with Posted _ _ => true | _ => false end.

Lemma executed_app l1 l2 : executed (l1 ++ l2)%list = (executed l1 ++ executed l2)%list.
Proof. apply omap_app. Qed.

Lemma planned_app r l1 l2 : planned r (l1 ++ l2)%list = (planned r l1 ++ planned r l2)%list.
Proof. unfold planned. by rewrite fmap_app, concat_app. Qed.

Lemma posts_neutral r l :
  Forall (fun e => is_post e = true) l -> executed l = [] /\ planned r l = [].
Proof. induction 1 as [|[] l He _ [IH1 IH2]]; done. Qed.

(** Peel the binds of a run of the state monad in hypothesis [H]. *)
Ltac run_simp H :=
  repeat (unfold mbind, st_bind, st_get, st_lift, st_modify, mret, st_ret, st_raise in H; simpl in H).

Section lemmas.
Context (observer : FrameBuilder) (layout : DFCStateActionLayout)
  (control_arms : list (string * ControlCfg)) (hold : list (string * list string))
  (num_timesteps : nat) (replan_steps : Z) (max_errors : nat).

(** What justifies a posted setpoint: the executed action's share of that side, packed with
    the latched measured values. *)
Definition justified (held : list (string * list (string * list f64))) (action : list f64)
    (e : eval_event) : Prop :=
  match e with
  | Posted side v => exists ctrl targets t,
      (side, ctrl) ∈ control_arms /\ Layout.split layout action = Ok targets /\
      dget side targets = Some t /\
      Channel.pack_action ctrl (sa_value t) (default [] (dget side held)) = Ok v
  | _ => False
  end.

(** A routine that only posts: nothing but the log and the warnings changes. *)
Definition only_posts (held : list (string * list (string * list f64))) (action : list f64)
    (s s' : eval_state) : Prop :=
  ev_timesteps_done s' = ev_timesteps_done s /\ ev_pending s' = ev_pending s /\
  ev_errors s' = ev_errors s /\ ev_held s = held /\ ev_held s' = held /\
  exists new, ev_log s' = (ev_log s ++ new)%list /\ Forall (justified held action) new.

Lemma execute_arm_posts held action targets x s0 :
  x ∈ control_arms -> Layout.split layout action = Ok targets ->
  keeps (only_posts held action s0) (execute_arm layout targets x).
Proof.
  intros Hx Hsp. destruct x as [side ctrl]. unfold execute_arm.
  apply keeps_lift_bind. intros t Ht. apply keeps_lift_bind. intros f _.
  apply keeps_lift_bind. intros primary Hp. intros s Hs. unfold mbind, st_bind, st_get. simpl.
  assert (Hval : primary = sa_value t) by (destruct (String.eqb f (sa_field t)); by simplify_eq).
  assert (Hsame : forall w, ev_log w = ev_log s -> ev_timesteps_done w = ev_timesteps_done s ->
    ev_pending w = ev_pending s -> ev_errors w = ev_errors s -> ev_held w = ev_held s ->
    only_posts held action s0 w).
  { intros w E1 E2 E3 E4 E5. destruct Hs as (H1 & H2 & H3 & H4 & H5 & H6).
    unfold only_posts. rewrite E1, E2, E3, E4, E5. by split_and!. }
  destruct Hs as (H1 & H2 & H3 & H4 & H5 & new & H6 & H7).
  destruct (Channel.pack_action ctrl primary _) as [v|e] eqn:Epk; [|destruct e; by apply Hsame].
  unfold st_lift. destruct (accepted ctrl v) as [w|] eqn:Ea; [|by apply Hsame].
  apply accepted_same in Ea as <-. unfold only_posts. simpl. split_and!; try done.
  exists (new ++ [Posted side v])%list. rewrite H6, app_assoc. split; [done|].
  apply Forall_app. split; [done|]. apply Forall_singleton. exists ctrl, targets, t.
  destruct (dget side targets); simpl in Ht; simplify_eq. rewrite H5 in Epk. by split_and!.
Qed.

Lemma execute_arms_posts held action targets s0 l :
  l ⊆ control_arms -> Layout.split layout action = Ok targets ->
  keeps (only_posts held action s0) (execute_arms layout targets l).
Proof.
  intros Hl Hsp. induction l as [|x l IH]; simpl; [apply keeps_ret|].
  apply keeps_bind; [apply execute_arm_posts; set_solver|]. intros _. apply IH. set_solver.
Qed.

Lemma execute_spec action s s' r :
  execute layout control_arms action s = (s', r) ->
  ev_timesteps_done s' = ev_timesteps_done s /\ ev_pending s' = ev_pending s /\
  ev_errors s' = ev_errors s /\ ev_held s' = ev_held s /\
  exists posts, ev_log s' = (ev_log s ++ Executed action :: posts)%list /\
    Forall (justified (ev_held s) action) posts.
Proof.
  unfold execute. unfold mbind at 1, st_bind at 1, log_event at 1, st_modify. simpl. intros H.
  set (s1 := EvalSt _ _ _ _ _ _ _ _) in H.
  assert (Hk : only_posts (ev_held s) action s1 s').
  { replace s' with ((s', r).1) by done. rewrite <-H.
    apply (keeps_lift_bind (only_posts (ev_held s) action s1)).
    - intros targets Ht. by apply execute_arms_posts.
    - unfold only_posts. split_and!; try done. exists []. by rewrite app_nil_r. }
  destruct Hk as (H1 & H2 & H3 & _ & H5 & new & H6 & H7). split_and!; try done.
  exists new. rewrite H6. subst s1. simpl. by rewrite <-app_assoc.
Qed.

Lemma validate_chunk_ok a rows : validate_chunk layout a = Ok rows -> rows ≠ [].
Proof.
  destruct a as [row|w rs| |]; simpl; try done.
  - destruct (_ =? _); [by intros [= <-]|done].
  - destruct rs; simpl; [done|]. destruct (negb _); [done|by intros [= <-]].
Qed.

Lemma chunk_prefix_nonempty rows : rows ≠ [] -> chunk_prefix replan_steps rows ≠ [].
Proof.
  intros Hr. unfold chunk_prefix. destruct (Z.ltb_spec 0 replan_steps); [|done].
  destruct rows; [done|]. destruct (Z.to_nat replan_steps) eqn:E; [lia|done].
Qed.

(** The two ways an inference ends: nothing is queued (a hold, or an exception), or a
    validated chunk's prefix is. *)
Lemma infer_spec o s s' r :
  infer observer layout hold replan_steps max_errors o s = (s', r) -> ev_pending s = [] ->
  ev_timesteps_done s' = ev_timesteps_done s /\
  (ev_held s' = ev_held s \/ capture_holds hold (eo_snapshot o) (ev_held s) = Ok (ev_held s')) /\
  ((r ≠ Returned true /\ ev_pending s' = [] /\ ev_log s' = ev_log s) \/
   exists rows, rows ≠ [] /\ r = Returned true /\ ev_pending s' = chunk_prefix replan_steps rows /\
     ev_errors s' = 0 /\ ev_log s' = (ev_log s ++ [Inferred rows])%list).
Proof.
  unfold infer. intros H Hp. run_simp H.
  destruct (build observer (eo_snapshot o) [] []) as [[fr|]|e]; simplify_eq/=;
    [|by split_and!; eauto..].
  destruct (capture_holds hold (eo_snapshot o) (ev_held s)) as [h|e] eqn:Eh; simplify_eq/=;
    [|by split_and!; eauto].
  destruct (eo_infer o fr) as [a|e]; [|destruct e; simplify_eq/=; try by split_and!; eauto].
  - destruct (validate_chunk layout a) as [rows|e] eqn:Ev; simplify_eq/=; [|by split_and!; eauto].
    split_and!; [done|by right|]. right. exists rows. rewrite Hp.
    split_and!; try done. by eapply validate_chunk_ok.
  - destruct (max_errors <=? S (ev_errors s)); simplify_eq/=; split_and!; eauto.
Qed.

(** One tick: either it holds (nothing executed, nothing posted), or it executes the oldest
    pending action, after queueing a chunk if none was pending. *)
Definition ticked (o : eval_obs) (s s' : eval_state) (held : bool) : Prop :=
  ev_timesteps_done s' = ev_timesteps_done s /\
  (ev_held s' = ev_held s \/ capture_holds hold (eo_snapshot o) (ev_held s) = Ok (ev_held s')) /\
  if held then ev_pending s' = ev_pending s /\ ev_log s' = ev_log s
  else exists chunk a posts,
    (chunk = [] \/ (ev_pending s = [] /\ exists rows, rows ≠ [] /\ chunk = [Inferred rows])) /\
    (ev_pending s ++ planned replan_steps chunk)%list = a :: ev_pending s' /\
    ev_log s' = (ev_log s ++ chunk ++ Executed a :: posts)%list /\
    Forall (justified (ev_held s') a) posts /\
    (chunk = [] \/ ev_errors s' = 0).

Lemma eval_tick_spec o s s' r :
  eval_tick observer layout control_arms hold replan_steps max_errors o s = (s', r) ->
  exists held, ticked o s s' held /\ (r = Returned true -> held = false) /\ (r = Returned false -> held = true).
Proof.
  unfold eval_tick. unfold mbind at 1, st_bind at 1, st_get at 1.
  destruct (ev_pending s) as [|a rest] eqn:Ep.
  - unfold mbind at 1, st_bind at 1.
    destruct (infer _ _ _ _ _ o s) as [s1 r1] eqn:Ei.
    destruct (infer_spec _ _ _ _ Ei Ep) as (H1 & H2 & [(H3 & H4 & H5)|(rows & Hr & -> & H4 & He & H5)]).
    + intros H. exists true.
      assert (s' = s1 /\ r ≠ Returned true) as [-> ?].
      { destruct r1 as [[]|e|]; [by destruct H3|..]; simpl in H; unfold mret, st_ret in H;
          by simplify_eq/=. }
      split_and!; try done. unfold ticked. rewrite Ep. by split_and!.
    + intros H. simpl in H. unfold mbind, st_bind, st_get in H. rewrite H4 in H.
      destruct (chunk_prefix replan_steps rows) as [|a rest] eqn:Ec;
        [by apply (chunk_prefix_nonempty) in Ec|].
      simpl in H. destruct (execute layout control_arms a _) as [s2 r2] eqn:Ex.
      destruct (execute_spec _ _ _ _ Ex) as (E1 & E2 & E3 & E4 & posts & E5 & E6). simpl in *.
      assert (s' = s2 /\ r ≠ Returned false) as [-> ?].
      { destruct r2 as [[]|e|]; unfold mret, st_ret in H; by simplify_eq/=. }
      exists false. split; [|by split]. unfold ticked. split_and!; [congruence|by rewrite E4|].
      exists [Inferred rows], a, posts. split_and!.
      * right. eauto.
      * unfold planned. simpl. rewrite Ep, app_nil_r, E2. done.
      * rewrite E5, H5, <-!app_assoc. done.
      * by rewrite E4.
      * right. congruence.
  - intros H. unfold mbind, st_bind, mret, st_ret in H. simpl in H. unfold st_get in H. rewrite Ep in H.
    simpl in H. destruct (execute layout control_arms a _) as [s2 r2] eqn:Ex.
    destruct (execute_spec _ _ _ _ Ex) as (E1 & E2 & E3 & E4 & posts & E5 & E6). simpl in *.
    assert (s' = s2 /\ r ≠ Returned false) as [-> ?].
    { destruct r2 as [[]|e|]; by simplify_eq/=. }
    exists false. split; [|by split]. unfold ticked. split_and!; [done|by left|].
    exists [], a, posts. split_and!; [by left| | | |by left].
    + unfold planned. simpl. by rewrite Ep, app_nil_r, E2.
    + by rewrite E5.
    + by rewrite E4.
Qed.

(** The log invariant: executed and pending actions are the planned ones, in order; a new
    inference happens only once everything planned before it was executed. *)
Definition plan_inv (s : eval_state) : Prop :=
  (executed (ev_log s) ++ ev_pending s)%list = planned replan_steps (ev_log s) /\
  forall l1 rows l2, ev_log s = (l1 ++ Inferred rows :: l2)%list ->
    executed l1 = planned replan_steps l1 /\ rows ≠ [].

Lemma justified_posts held a posts :
  Forall (justified held a) posts -> Forall (fun e => is_post e = true) posts.
Proof. intros H. eapply Forall_impl; [exact H|]. by intros []. Qed.

(** Where an element of a log that grew lies. *)
Lemma app_split {A} (l new l1 l2 : list A) x :
  (l ++ new)%list = (l1 ++ x :: l2)%list ->
  (exists l2', l = (l1 ++ x :: l2')%list) \/
  (exists n1, l1 = (l ++ n1)%list /\ new = (n1 ++ x :: l2)%list).
Proof.
  revert l. induction l1 as [|y l1 IH]; intros [|z l] H; simpl in H.
  - right. by exists [].
  - injection H as -> _. left. by exists l.
  - right. by exists (y :: l1).
  - injection H as -> H. destruct (IH _ H) as [(l2' & ->)|(n1 & -> & ->)]; eauto.
Qed.

Lemma ticked_plan o s s' held : ticked o s s' held -> plan_inv s ->
  plan_inv s' /\ length (executed (ev_log s')) = length (executed (ev_log s)) + (if held then 0 else 1).
Proof.
  intros (_ & _ & H). destruct held.
  { destruct H as [Hp Hl]. intros HI. unfold plan_inv. rewrite Hp, Hl. split; [exact HI|lia]. }
  destruct H as (chunk & a & posts & Hch & Hpend & Hlog & Hposts & _). intros [I1 I2].
  destruct (posts_neutral replan_steps posts) as [Np Nq]; [by eapply justified_posts|].
  assert (Hex : executed chunk = []).
  { destruct Hch as [->|(_ & rows & _ & ->)]; done. }
  assert (Hexe : executed (ev_log s') = (executed (ev_log s) ++ [a])%list).
  { rewrite Hlog, !executed_app. simpl. by rewrite Hex, Np. }
  split; [|rewrite Hexe, length_app; simpl; lia]. split.
  - rewrite Hexe, Hlog, !planned_app, <-I1, <-!app_assoc. f_equal. simpl.
    change (planned replan_steps (Executed a :: posts)) with (planned replan_steps posts).
    by rewrite Nq, app_nil_r, <-Hpend.
  - intros l1 rows l2 El. rewrite Hlog in El.
    apply app_split in El as [(l2' & El)|(n1 & -> & En)]; [by eapply I2|].
    destruct Hch as [->|(Hp0 & rows0 & Hr0 & ->)].
    + exfalso. destruct n1 as [|e n1]; simplify_eq/=.
      apply (Forall_app _ n1) in Hposts as [_ Hbad]. by apply Forall_cons in Hbad as [[] _].
    + destruct n1 as [|e n1]; simplify_eq/=.
      * rewrite app_nil_r. rewrite Hp0, app_nil_r in I1. done.
      * exfalso. destruct n1 as [|e n1]; simplify_eq/=.
        apply (Forall_app _ n1) in Hposts as [_ Hbad]. by apply Forall_cons in Hbad as [[] _].
Qed.

(** No operation of a tick blocks. *)
Lemma eval_tick_settles o :
  settles (fun _ => True) (eval_tick observer layout control_arms hold replan_steps max_errors o).
Proof.
  assert (Hmod : forall f, settles (fun _ : eval_state => True) (st_modify f)) by (intros; by apply settles_modify).
  assert (Hexe : forall targets l, settles (fun _ => True) (execute_arms layout targets l)).
  { intros targets l. induction l as [|[side ctrl] l IH]; simpl; [auto with dfc|].
    apply settles_bind; [|done]. unfold execute_arm.
    do 4 (apply settles_bind; [auto with dfc|intros ?]).
    destruct (Channel.pack_action _ _ _) as [v|[]]; unfold log_event; auto with dfc. }
  unfold eval_tick. apply settles_bind; [auto with dfc|]. intros s. apply settles_bind.
  - destruct (ev_pending s); [|auto with dfc]. unfold infer. apply settles_bind; [auto with dfc|].
    intros [fr|]; [|auto with dfc]. do 3 (apply settles_bind; [auto with dfc|intros ?]).
    destruct (eo_infer o fr) as [a'|[]]; auto with dfc.
    apply settles_bind; [auto|]. intros _. apply settles_bind; [auto with dfc|]. intros s2.
    destruct (_ <=? _); auto with dfc.
  - intros go. destruct go; simpl; [|auto with dfc]. apply settles_bind; [auto with dfc|]. intros s1.
    destruct (ev_pending s1) as [|a rest]; unfold execute, log_event; auto 10 with dfc.
Qed.

(** Latched values are samples some tick observed on the field's measured stream. *)
Definition latched (seen : list eval_obs) (held : list (string * list (string * list f64))) : Prop :=
  forall side hs f x, dget side held = Some hs -> dget f hs = Some x ->
    exists o sig, o ∈ seen /\ dget f HOLD_SIGNAL = Some sig /\
      newest_in (eo_snapshot o) (side +:+ "/" +:+ sig) = Some x.

Lemma capture_field_latched seen o side held f held' :
  o ∈ seen -> capture_field (eo_snapshot o) side held f = Ok held' -> latched seen held -> latched seen held'.
Proof.
  intros Ho H Hl. unfold capture_field in H. res_simp.
  destruct (newest_in (eo_snapshot o) (side +:+ "/" +:+ a)) as [v|] eqn:En; [|done].
  intros sd hs g x Hhs Hg. destruct (decide (sd = side)) as [->|Hne].
  - rewrite dget_dset_eq in Hhs. simplify_eq. destruct (decide (g = f)) as [->|Hgf].
    + rewrite dget_dset_eq in Hg. simplify_eq. exists o, a. eauto.
    + rewrite dget_dset_ne in Hg by done. destruct (dget side held) as [hs|] eqn:Eh; simpl in Hg; [|done].
      by eapply Hl.
  - rewrite dget_dset_ne in Hhs by done. by eapply Hl.
Qed.

Lemma capture_holds_latched seen o held held' :
  o ∈ seen -> capture_holds hold (eo_snapshot o) held = Ok held' -> latched seen held -> latched seen held'.
Proof.
  intros Ho H. eapply foldM_res_inv; [|exact H]. intros h x h' _ Hx. eapply foldM_res_inv; [|exact Hx].
  intros. by eapply capture_field_latched.
Qed.

(** Every posted setpoint comes from the action executed last before it. *)
Definition posts_ok (seen : list eval_obs) (log : list eval_event) : Prop :=
  forall l1 side v l2, log = (l1 ++ Posted side v :: l2)%list ->
    exists action held, list.last (executed l1) = Some action /\ latched seen held /\
      justified held action (Posted side v).

Lemma ticked_posts seen o s s' hb : o ∈ seen -> ticked o s s' hb ->
  latched seen (ev_held s) -> posts_ok seen (ev_log s) ->
  latched seen (ev_held s') /\ posts_ok seen (ev_log s').
Proof.
  intros Ho (_ & Hh & H) Hl Hp.
  assert (Hl' : latched seen (ev_held s')).
  { destruct Hh as [->|Hc]; [done|]. by eapply capture_holds_latched. }
  split; [done|]. destruct hb; [by destruct H as [_ ->]|].
  destruct H as (chunk & a & posts & Hch & _ & Hlog & Hposts & _).
  intros l1 side v l2 El. rewrite Hlog in El.
  apply app_split in El as [(l2' & El)|(n1 & -> & En)]; [by eapply Hp|].
  apply app_split in En as [(c2 & ->)|(n2 & -> & En)].
  { exfalso. destruct Hch as [?|(_ & rows & _ & Ec)]; [by destruct n1|].
    by destruct n1 as [|? [|]]. }
  destruct n2 as [|e n2]; simplify_eq/=.
  apply Forall_app in Hposts as [Hpre [Hj _]%Forall_cons]. exists a, (ev_held s'). split_and!; [|done|done].
  rewrite !executed_app. simpl.
  destruct (posts_neutral replan_steps n2) as [-> _]; [by eapply justified_posts|].
  by rewrite app_assoc, list.last_snoc.
Qed.

Lemma latched_mono seen seen' held : seen ⊆ seen' -> latched seen held -> latched seen' held.
Proof. intros Hs Hl side hs f x H1 H2. destruct (Hl _ _ _ _ H1 H2) as (o & sig & ? & ?). exists o, sig. set_solver. Qed.

Lemma posts_ok_mono seen seen' log : seen ⊆ seen' -> posts_ok seen log -> posts_ok seen' log.
Proof.
  intros Hs Hp l1 side v l2 E. destruct (Hp _ _ _ _ E) as (a & h & ? & ? & ?). exists a, h.
  split_and!; [done| |done]. by eapply latched_mono.
Qed.

(** What holds of a rollout between two ticks. *)
Definition roll_inv (seen : list eval_obs) (s : eval_state) : Prop :=
  plan_inv s /\ latched seen (ev_held s) /\ posts_ok seen (ev_log s) /\
  length (executed (ev_log s)) = ev_timesteps_done s /\ ev_timesteps_done s <= num_timesteps.

Lemma eval_run_spec tape : forall seen s s' out, roll_inv seen s ->
  eval_run observer layout control_arms hold num_timesteps replan_steps max_errors tape s = (s', out) ->
  plan_inv s' /\ posts_ok (seen ++ tape)%list (ev_log s') /\ ev_timesteps_done s' <= num_timesteps /\
  ((exists x, out = Raised x) \/ length (executed (ev_log s')) = ev_timesteps_done s') /\
  ev_timesteps_done s' <= length (executed (ev_log s')) <= S (ev_timesteps_done s') /\
  (out = Returned tt -> ev_timesteps_done s' = num_timesteps \/ exists o, o ∈ tape /\ eo_stop o = true).
Proof.
  induction tape as [|o tape IH]; intros seen s s' out (Hp & Hl & Hps & Hn & Hm); simpl.
  { intros [= <- <-]. rewrite app_nil_r. split_and!; try done; [by right|lia..]. }
  assert (Hsub : seen ⊆ (seen ++ o :: tape)%list) by set_solver.
  destruct (eo_stop o || (num_timesteps <=? ev_timesteps_done s)) eqn:Eg.
  { intros [= <- <-]. split_and!; try done; [by eapply posts_ok_mono|by right|lia..|]. intros _.
    apply orb_true_iff in Eg as [?|?%Nat.leb_le]; [right; exists o; split; [left|done]|left; lia]. }
  apply orb_false_iff in Eg as [_ Hlt%Nat.leb_gt].
  destruct (eval_tick _ _ _ _ _ _ o s) as [s1 r] eqn:Et.
  destruct (eval_tick_settles o s I) as [_ Hfin]. rewrite Et in Hfin. simpl in Hfin.
  destruct (eval_tick_spec _ _ _ _ Et) as (hb & Htk & Hr1 & Hr2).
  destruct (ticked_plan _ _ _ _ Htk Hp) as [Hp1 Hlen].
  assert (Ho : o ∈ (seen ++ [o])%list) by set_solver.
  destruct (ticked_posts (seen ++ [o])%list _ _ _ _ Ho Htk) as [Hl1 Hps1].
  { eapply latched_mono; [|exact Hl]. set_solver. }
  { eapply posts_ok_mono; [|exact Hps]. set_solver. }
  assert (Ets : ev_timesteps_done s1 = ev_timesteps_done s) by apply Htk.
  replace (seen ++ o :: tape)%list with ((seen ++ [o]) ++ tape)%list by (by rewrite <-app_assoc).
  destruct r as [[]|e|]; [| | |done].
  - intros H. apply (IH (seen ++ [o])%list) in H as (I1 & I2 & I3 & I4 & [? ?] & I6).
    + split_and!; try done. intros Hout. destruct (I6 Hout) as [?|(o' & ? & ?)]; [by left|right; exists o'; set_solver].
    + rewrite (Hr1 eq_refl) in Hlen. split_and!; try done; simpl; lia.
  - intros H. apply (IH (seen ++ [o])%list) in H as (I1 & I2 & I3 & I4 & [? ?] & I6).
    + split_and!; try done. intros Hout. destruct (I6 Hout) as [?|(o' & ? & ?)]; [by left|right; exists o'; set_solver].
    + rewrite (Hr2 eq_refl) in Hlen. split_and!; try done; lia.
  - intros [= <- <-]. split_and!; try done; [|destruct hb; lia|by left; eexists|destruct hb; lia..].
    eapply posts_ok_mono; [|exact Hps1]. set_solver.
Qed.

Lemma roll_start : roll_inv [] eval_init.
Proof.
  unfold roll_inv. split_and!; [|done| |done|simpl; lia].
  - split; [done|]. intros [|? ?]; done.
  - intros [|? ?]; done.
Qed.
End lemmas.

(** C16: A rollout executes exactly what the policy planned: the executed actions followed by the
    pending ones are the concatenation of the chunk prefixes (the first [replan_steps] rows, or
    the whole chunk) of the inferences, in order; the policy is queried again only when every
    action planned before has been executed; the number of counted timesteps never exceeds the
    horizon and counts the executed actions (a raising last action excepted); and a rollout
    that returns has reached its horizon unless it was asked to stop. *)
Theorem rollout_executes_chunks (observer : FrameBuilder) (layout : DFCStateActionLayout)
    (control_arms : list (string * ControlCfg)) (num_timesteps replan_steps max_errors : Z)
    (tape : list eval_obs) (s : eval_state) (out : outcome unit)
    (Hrun : eval_rollout observer layout control_arms num_timesteps replan_steps max_errors tape = Ok (s, out)) :
  (executed (ev_log s) ++ ev_pending s)%list = planned replan_steps (ev_log s) /\
  (forall l1 rows l2, ev_log s = (l1 ++ Inferred rows :: l2)%list ->
    executed l1 = planned replan_steps l1 /\ rows ≠ []) /\
  (Z.of_nat (ev_timesteps_done s) <= Z.max 1 num_timesteps)%Z /\
  ((exists x, out = Raised x) \/ length (executed (ev_log s)) = ev_timesteps_done s) /\
  ev_timesteps_done s <= length (executed (ev_log s)) <= S (ev_timesteps_done s) /\
  (out = Returned tt ->
    Z.of_nat (ev_timesteps_done s) = Z.max 1 num_timesteps \/ exists o, o ∈ tape /\ eo_stop o = true).
Proof.
  unfold eval_rollout in Hrun. res_simp. pose proof (eval_run_spec _ _ _ _ _ _ _ _ _ _ _ _
    (roll_start layout control_arms _ _) Hrun) as ([H1 H2] & _ & H3 & H4 & [H5 H6] & H7).
  split_and!; try done; [lia|]. intros Ho. destruct (H7 Ho); [left; lia|by right].
Qed.

(** No fabricated setpoint: each setpoint an eval rollout posts is for a controlled arm, and
    packs that arm's share of the action executed last with, in the fields the policy does not
    drive, values an observation of this rollout measured on the arm. *)
Theorem rollout_posts_justified (observer : FrameBuilder) (layout : DFCStateActionLayout)
    (control_arms : list (string * ControlCfg)) (num_timesteps replan_steps max_errors : Z)
    (tape : list eval_obs) (s : eval_state) (out : outcome unit)
    (Hrun : eval_rollout observer layout control_arms num_timesteps replan_steps max_errors tape = Ok (s, out))
    (l1 l2 : list eval_event) (side : string) (v : list f64)
    (Hpost : ev_log s = (l1 ++ Posted side v :: l2)%list) :
  exists action held ctrl targets t,
    list.last (executed l1) = Some action /\ (side, ctrl) ∈ control_arms /\
    Layout.split layout action = Ok targets /\ dget side targets = Some t /\
    Channel.pack_action ctrl (sa_value t) (default [] (dget side held)) = Ok v /\
    forall hs f x, dget side held = Some hs -> dget f hs = Some x ->
      exists o sig, o ∈ tape /\ dget f HOLD_SIGNAL = Some sig /\
        newest_in (eo_snapshot o) (side +:+ "/" +:+ sig) = Some x.
Proof.
  unfold eval_rollout in Hrun. res_simp. pose proof (eval_run_spec _ _ _ _ _ _ _ _ _ _ _ _
    (roll_start layout control_arms _ _) Hrun) as (_ & H2 & _).
  destruct (H2 _ _ _ _ Hpost) as (action & held & H3 & H4 & ctrl & targets & t & H5 & H6 & H7 & H8).
  exists action, held, ctrl, targets, t. split_and!; try done. intros hs f x. apply H4.
Qed.

(** ** The policy-error budget *)

Lemma hold_fields_signalled c fs :
  action_hold_fields c = Ok fs -> Forall (fun f => is_Some (dget f HOLD_SIGNAL)) fs.
Proof.
  unfold action_hold_fields. intros H. res_simp. apply Forall_forall. intros f Hf.
  apply list_elem_of_In, List.filter_In in Hf as [_ [_ Ha]%andb_true_iff].
  unfold is_absolute in Ha. apply bool_decide_eq_true in Ha.
  apply elem_of_cons in Ha as [->|Ha]; [by eexists|].
  apply list_elem_of_singleton in Ha as ->. by eexists.
Qed.

Lemma capture_holds_total arms hold snap held :
  hold_table arms = Ok hold -> exists h, capture_holds hold snap held = Ok h.
Proof.
  intros H%mapM_res_Forall2. unfold capture_holds. revert held.
  induction H as [|x y arms hold Hxy _ IH]; intros held; simpl; [by eexists|].
  destruct (action_hold_fields x.2) as [fs|] eqn:Ef; simpl in Hxy; [|done]. injection Hxy as <-.
  apply hold_fields_signalled in Ef. simpl.
  assert (Hin : exists h, foldM_res (capture_field snap x.1) fs held = Ok h).
  { clear IH. revert held. induction Ef as [|f fs [sig Hf] _ IHf]; intros held; simpl; [by eexists|].
    unfold capture_field at 1. rewrite Hf. simpl. apply IHf. }
  destruct Hin as [h ->]. apply IH.
Qed.

(** The policy fails on a complete observation; the observation is incomplete. *)
Definition fails (observer : FrameBuilder) (o : eval_obs) : bool :=
  match build observer (eo_snapshot o) [] [] with
  | Ok (Some fr) => match eo_infer o fr with Raise PolicyError => true | _ => false end
  | _ => false
  end.

Definition dry (observer : FrameBuilder) (o : eval_obs) : bool :=
  match build observer (eo_snapshot o) [] [] with Ok None => true | _ => false end.

Definition failures (observer : FrameBuilder) (tape : list eval_obs) : nat :=
  length (List.filter (fails observer) tape).

(** Held ticks change neither the log nor what is pending. *)
Definition held_back (s s' : eval_state) (errors : nat) : Prop :=
  ev_log s' = ev_log s /\ ev_pending s' = ev_pending s /\
  ev_timesteps_done s' = ev_timesteps_done s /\ ev_inferences s' = ev_inferences s /\ ev_errors s' = errors.

Section budget.
Context (observer : FrameBuilder) (layout : DFCStateActionLayout)
  (control_arms : list (string * ControlCfg)) (hold : list (string * list string))
  (num_timesteps : nat) (replan_steps : Z) (max_errors : nat).
Context (Hhold : hold_table control_arms = Ok hold).

Abbreviation tick := (eval_tick observer layout control_arms hold replan_steps max_errors).
Abbreviation run := (eval_run observer layout control_arms hold num_timesteps replan_steps max_errors).

Lemma tick_fails o s : ev_pending s = [] -> fails observer o = true ->
  exists s', held_back s s' (S (ev_errors s)) /\
    tick o s = (s', if max_errors <=? S (ev_errors s) then Raised PolicyError else Returned false).
Proof.
  intros Hp Hf. unfold fails in Hf. unfold eval_tick, infer.
  unfold mbind at 1, st_bind at 1, st_get at 1. rewrite Hp. simpl.
  destruct (build observer (eo_snapshot o) [] []) as [[fr|]|] eqn:Eb; try done.
  destruct (capture_holds_total _ _ (eo_snapshot o) (ev_held s) Hhold) as [h Eh].
  destruct (eo_infer o fr) as [|[]] eqn:Ei; try done.
  unfold mbind, st_bind, st_lift, st_get, st_modify. simpl. rewrite Eh. simpl. rewrite Ei. simpl.
  destruct (max_errors <=? S (ev_errors s)); unfold st_raise, mret, st_ret; eexists; (split; [|done]);
    split_and!; try done.
Qed.

Lemma tick_dry o s : ev_pending s = [] -> dry observer o = true ->
  exists s', held_back s s' (ev_errors s) /\ tick o s = (s', Returned false).
Proof.
  intros Hp Hf. unfold dry in Hf. unfold eval_tick, infer.
  unfold mbind at 1, st_bind at 1, st_get at 1. rewrite Hp. simpl.
  destruct (build observer (eo_snapshot o) [] []) as [[fr|]|] eqn:Eb; try done.
  unfold mbind, st_bind, st_lift, st_get, st_modify. simpl. eexists. split; [|done].
  by split_and!.
Qed.

Lemma held_trans s s1 s2 n m : held_back s s1 n -> held_back s1 s2 m -> held_back s s2 m.
Proof. unfold held_back. intros. destruct_and!. split_and!; congruence. Qed.

Lemma run_held tape : forall s,
  Forall (fun o => eo_stop o = false /\ (fails observer o = true \/ dry observer o = true)) tape ->
  ev_pending s = [] -> ev_timesteps_done s < num_timesteps -> ev_errors s < max_errors ->
  exists s', let total := ev_errors s + failures observer tape in
    run tape s = (s', if max_errors <=? total then Raised PolicyError else Running) /\
    held_back s s' (Nat.min total max_errors).
Proof.
  induction tape as [|o tape IH]; intros s Ht Hp Hn He; simpl.
  { exists s. unfold failures. simpl. rewrite Nat.add_0_r.
    destruct (Nat.leb_spec max_errors (ev_errors s)); [lia|]. split; [done|].
    split_and!; try done. lia. }
  apply Forall_cons in Ht as [[-> Ho] Ht]. simpl.
  destruct (Nat.leb_spec num_timesteps (ev_timesteps_done s)); [lia|].
  destruct Ho as [Ho|Ho].
  - destruct (tick_fails o s Hp Ho) as (s1 & Hs1 & ->).
    unfold failures. simpl. rewrite Ho. simpl. fold (failures observer tape).
    destruct (Nat.leb_spec max_errors (S (ev_errors s))).
    + exists s1. rewrite (proj2 (Nat.leb_le max_errors _)) by lia. split; [done|].
      replace (Nat.min _ _) with (S (ev_errors s)) by lia. done.
    + destruct (IH s1) as (s' & Hrun & Hs'); [done|unfold held_back in Hs1; destruct_and!; congruence || lia..|].
      assert (He1 : ev_errors s1 = S (ev_errors s)) by apply Hs1.
      rewrite He1 in *. exists s'. rewrite Hrun. rewrite <-plus_n_Sm. split; [done|].
      by eapply held_trans.
  - destruct (tick_dry o s Hp Ho) as (s1 & Hs1 & ->).
    assert (Hnf : fails observer o = false).
    { unfold fails, dry in *. destruct (build _ _ _ _) as [[]|]; done. }
    unfold failures. simpl. rewrite Hnf. fold (failures observer tape).
    destruct (IH s1) as (s' & Hrun & Hs'); [done|unfold held_back in Hs1; destruct_and!; congruence || lia..|].
    assert (He1 : ev_errors s1 = ev_errors s) by apply Hs1.
    rewrite He1 in *. exists s'. rewrite Hrun. split; [done|]. by eapply held_trans.
Qed.
End budget.

(** C29: The policy-error budget: over ticks on which the policy fails or the observation is
    incomplete, with nothing pending, nothing is executed, posted or counted; only the policy's
    failures use up the budget; the rollout is aborted with [PolicyError] exactly when they
    reach [max_consecutive_errors], and an inference that succeeds resets the count. *)
Theorem policy_error_budget (observer : FrameBuilder) (layout : DFCStateActionLayout)
    (control_arms : list (string * ControlCfg)) (hold : list (string * list string))
    (num_timesteps : nat) (replan_steps : Z) (max_errors : nat) (tape : list eval_obs) (s : eval_state)
    (Hhold : hold_table control_arms = Ok hold)
    (Htape : Forall (fun o => eo_stop o = false /\ (fails observer o = true \/ dry observer o = true)) tape)
    (Hpending : ev_pending s = []) (Hnum : ev_timesteps_done s < num_timesteps)
    (Herrors : ev_errors s < max_errors) :
  (exists s', let total := ev_errors s + failures observer tape in
    eval_run observer layout control_arms hold num_timesteps replan_steps max_errors tape s =
      (s', if max_errors <=? total then Raised PolicyError else Running) /\
    held_back s s' (Nat.min total max_errors)) /\
  forall o s', eval_tick observer layout control_arms hold replan_steps max_errors o s = (s', Returned true) ->
    ev_errors s' = 0.
Proof.
  split; [by apply run_held|]. intros o s' Ht.
  destruct (eval_tick_spec _ _ _ _ _ _ _ _ _ _ Ht) as (hb & (_ & _ & Hx) & Hr & _).
  rewrite (Hr eq_refl) in Hx. destruct Hx as (chunk & a & posts & _ & Hp & _ & _ & [->|?]); [|done].
  by rewrite Hpending in Hp.
Qed.

(** ** A concrete rollout *)

Definition eval_arms : list (string * ArmShape) := [("left", Layout.Arm [("q", 2)] demo_qpos)].

Definition eval_controlled : list (string * ControlCfg) := [("left", demo_qpos)].

Definition eval_layout : DFCStateActionLayout :=
  match from_arms eval_arms ["q"] ["left"] with Ok l => l | Raise _ => bimanual_qpos end.

Definition eval_observer : FrameBuilder :=
  match frame_builder eval_arms [] [] "pick" ["q"] with
  | Ok b => b
  | Raise _ => Builder bimanual_qpos [] [] ""
  end.

Definition eval_seen (answer : res ndarray) : eval_obs :=
  EvalObs false [("left/q", Some [f1; f1])] (fun _ => answer).

Definition eval_rows : list (list f64) := [[f1; f0; f1]; [f0; f1; f0]; [f1; f1; f1]].

(** A failing inference, then two inferences of which two actions each are executed. *)
Definition eval_tape : list eval_obs :=
  eval_seen (Raise PolicyError) :: replicate 4 (eval_seen (Ok (Array2 3 eval_rows))).

Definition eval_final : eval_state * outcome unit :=
  match eval_rollout eval_observer eval_layout eval_controlled 3 2 2 eval_tape with
  | Ok r => r
  | Raise _ => (eval_init, Running)
  end.

Lemma rollout_executes_chunks_witness :
  ev_timesteps_done eval_final.1 = 3 /\
  planned 2 (ev_log eval_final.1) = [[f1; f0; f1]; [f0; f1; f0]; [f1; f0; f1]; [f0; f1; f0]] /\
  (executed (ev_log eval_final.1) ++ ev_pending eval_final.1)%list = planned 2 (ev_log eval_final.1).
Proof.
  split; [vm_compute; reflexivity|]. split; [vm_compute; reflexivity|].
  eapply (rollout_executes_chunks eval_observer eval_layout eval_controlled 3 2 2 eval_tape
    eval_final.1 eval_final.2).
  vm_compute. reflexivity.
Defined.

Lemma rollout_posts_justified_witness :
  exists v action, ev_log eval_final.1 !! 2 = Some (Posted "left" v) /\
    list.last (executed (take 2 (ev_log eval_final.1))) = Some action /\ action = [f1; f0; f1].
Proof.
  assert (Hrun : eval_rollout eval_observer eval_layout eval_controlled 3 2 2 eval_tape =
    Ok (eval_final.1, eval_final.2)) by (vm_compute; reflexivity).
  assert (Hl : exists v, ev_log eval_final.1 !! 2 = Some (Posted "left" v))
    by (eexists; vm_compute; reflexivity).
  destruct Hl as [v Hv].
  pose proof (eq_sym (take_drop_middle _ _ _ Hv)) as Hsplit.
  destruct (rollout_posts_justified _ _ _ _ _ _ _ _ _ Hrun _ _ _ _ Hsplit)
    as (action & held & ctrl & targets & t & H1 & _).
  exists v, action. split; [exact Hv|]. split; [exact H1|].
  vm_compute in H1. by injection H1.
Defined.

Lemma policy_error_budget_witness :
  exists s', eval_run eval_observer eval_layout eval_controlled [("left", [])] 3 2 2
      (replicate 5 (eval_seen (Raise PolicyError))) eval_init = (s', Raised PolicyError) /\
    ev_log s' = [].
Proof.
  destruct (policy_error_budget eval_observer eval_layout eval_controlled [("left", [])] 3 2 2
    (replicate 5 (eval_seen (Raise PolicyError))) eval_init) as [(s' & Hrun & Hh) _].
  - vm_compute. reflexivity.
  - apply Forall_forall. intros o Ho. apply elem_of_replicate in Ho as [-> _].
    split; [reflexivity|left; vm_compute; reflexivity].
  - reflexivity.
  - simpl. lia.
  - simpl. lia.
  - exists s'. split; [|apply Hh]. rewrite Hrun. vm_compute. reflexivity.
Defined.
