(* ===== verification/EvalLive.v ===== *)
(** * An eval rollout reaches its horizon

    On observations that are complete and answered by the policy with valid chunks, every tick
    of [Eval.v] executes an action, so that the rollout returns after exactly its horizon. *)

From Stdlib Require Import String.
From S2P Require Import Prelude Float64 Channel Layout Collect Policy Eval.
Local Open Scope string_scope.
Local Open Scope nat_scope.

(** ** Splitting an action of the right width *)

Lemma tiled_lookup l ss ds : forall off i s d, tiled l off ss ds -> ss !! i = Some s -> ds !! i = Some d ->
  exists o, dget s (primary_map l) = Some (o, o + d) /\ dget s (gripper_map l) = Some (o + d) /\
    is_Some (dget s (field_map l)) /\ o + d < action_dim l.
Proof.
  assert (Hle : forall ss ds off, tiled l off ss ds -> off <= action_dim l).
  { induction ss0 as [|x ss0 IH]; intros [|y ds0] off; simpl; try done; [lia|].
    intros (_ & _ & _ & H%IH). lia. }
  revert ds. induction ss as [|x ss IH]; intros [|y ds] off i s d Ht Hs Hd; try done.
  simpl in Ht. destruct Ht as (H1 & H2 & H3 & Ht). destruct i as [|i]; simplify_eq/=; [|by eapply IH].
  exists off. split_and!; try done. apply Hle in Ht. lia.
Qed.

Lemma split_total l ds act :
  NoDup (sides l) -> tiled l 0 (sides l) ds -> length act = action_dim l ->
  exists ts, Layout.split l act = Ok ts /\
    forall i s d, sides l !! i = Some s -> ds !! i = Some d -> exists t, dget s ts = Some t /\
      layout_field l s = Ok (sa_field t) /\ length (sa_value t) = d.
Proof.
  intros Hnd Ht Hlen. unfold Layout.split. rewrite Hlen, Nat.eqb_refl. simpl.
  assert (Hds : length (sides l) = length ds).
  { clear -Ht. revert Ht. generalize 0. generalize ds. induction (sides l) as [|x ss IH]; intros [|y ds'] off; simpl; try done.
    intros (_ & _ & _ & H%IH). lia. }
  set (f := fun side => let? f := layout_field l side in _).
  assert (Hone : forall i s d, sides l !! i = Some s -> ds !! i = Some d ->
    exists t, f s = Ok (s, t) /\ layout_field l s = Ok (sa_field t) /\ length (sa_value t) = d).
  { intros i s d Hs Hd. destruct (tiled_lookup _ _ _ _ _ _ _ Ht Hs Hd) as (o & H1 & H2 & [fl H3] & H4).
    unfold f, layout_field, primary_slice, gripper_index. rewrite H1, H2, H3. simpl.
    destruct (lookup_lt_is_Some_2 act (o + d)) as [x Hx]; [lia|]. rewrite Hx. simpl.
    eexists. split; [done|]. simpl. split; [done|]. rewrite length_slice by lia. lia. }
  destruct (mapM_res_ok f (sides l)) as (ts & Hts & _).
  { intros s [i Hi]%list_elem_of_lookup. destruct (lookup_lt_is_Some_2 ds i) as [d Hd].
    { rewrite <-Hds. by eapply lookup_lt_Some. }
    destruct (Hone i s d Hi Hd) as (t & -> & _). by eexists. }
  exists ts. split; [done|]. intros i s d Hi Hd. destruct (Hone i s d Hi Hd) as (t & Hf & H1 & H2).
  exists t. split; [|done]. pose proof (mapM_res_Forall2 _ _ _ Hts) as Hall.
  assert (Hkeys : dkeys ts = sides l).
  { clear -Hall. induction Hall as [|x y ss ys Hxy Hall IH]; [done|]. simpl. f_equal; [|done].
    unfold f in Hxy. res_simp. done. }
  destruct (Forall2_lookup_l _ _ _ _ _ Hall Hi) as (y & Hy & Hfy). rewrite Hf in Hfy. injection Hfy as <-.
  apply dget_NoDup; [by rewrite Hkeys|]. by eapply list_elem_of_lookup_2.
Qed.

(** ** Executing an action *)

Section live.
Context (arms : list (string * ArmShape)) (sigs acts : list string) (layout : DFCStateActionLayout)
  (control_arms : list (string * ControlCfg)).
Context (Hkeys : NoDup (dkeys arms)) (Hlayout : from_arms arms sigs acts = Ok layout).

(** A controlled side is one of the layout's, with the control its layout was built for. *)
Definition driveable (x : string * ControlCfg) : Prop :=
  x.1 ∈ sides layout /\ NoDup (streamed x.2) /\ (exists d, setpoint_dim x.2 = Ok d) /\
  exists arm, dget x.1 arms = Some arm /\ arm_control arm = x.2.

Context (Harms : Forall driveable control_arms).

(** The measured streams have the width of the command fields they stand in for. *)
Definition measures (o : eval_obs) : Prop :=
  forall side ctrl f sig x, (side, ctrl) ∈ control_arms -> dget f HOLD_SIGNAL = Some sig ->
    newest_in (eo_snapshot o) (side +:+ "/" +:+ sig) = Some x -> f ∈ streamed ctrl ->
    dget f (command ctrl) = Some (length x).

Lemma setpoint_fields c d f : setpoint_dim c = Ok d -> f ∈ streamed c -> is_Some (dget f (command c)).
Proof.
  unfold setpoint_dim. intros H Hf. destruct (mapM_res (field_dim c) (streamed c)) as [ds|] eqn:Ed; [|done].
  apply mapM_res_Forall2 in Ed. apply list_elem_of_lookup in Hf as [i Hi].
  destruct (Forall2_lookup_l _ _ _ _ _ Ed Hi) as (y & _ & Hy).
  unfold field_dim in Hy. by destruct (dget f (command c)).
Qed.

(** A fold over the fields that succeeds has found every field a value. *)
Lemma action_fold_inv c p value held fs : forall acc fields,
  foldM_res (fun d f => let? v := action_value c p value held f in Ok (dset f v d)) fs acc = Ok fields ->
  (forall f, f ∈ fs -> exists x, action_value c p value held f = Ok x) /\
  forall f, f ∈ fs \/ is_Some (dget f acc) -> is_Some (dget f fields).
Proof.
  induction fs as [|g fs IH]; intros acc fields Hf; simpl in Hf.
  { simplify_eq. split; [by intros f []%not_elem_of_nil|]. by intros f [[]%not_elem_of_nil|?]. }
  destruct (action_value c p value held g) as [x|] eqn:Eg; simpl in Hf; [|done].
  destruct (IH _ _ Hf) as [H1 H2]. split.
  - intros f [->|Hin]%elem_of_cons; [by exists x|by apply H1].
  - intros f Hin. apply H2. destruct (decide (f = g)) as [->|Hne].
    + right. rewrite dget_dset_eq. by eexists.
    + rewrite dget_dset_ne by done. destruct Hin as [[?|?]%elem_of_cons|?]; [done|by left|by right].
Qed.

(** Packing fails only for want of a held value. *)
Lemma pack_raises c value held d e sd :
  setpoint_dim c = Ok sd -> Channel.action_dim c = Ok d -> Channel.pack_action c value held = Raise e ->
  e = ValueError.
Proof.
  intros Hsd Had Epk. unfold Channel.action_dim in Had. unfold Channel.pack_action in Epk.
  destruct (action_field c) as [p|]; simpl in Had, Epk; [|done].
  destruct (foldM_res _ (streamed c) []) as [fields|e'] eqn:Ef; simpl in Epk.
  - exfalso. destruct (action_fold_inv _ _ _ _ _ _ _ Ef) as [_ Hall]. revert Epk. unfold pack_streamed.
    destruct (mapM_res_ok (fun f => of_option KeyError (dget f fields)) (streamed c)) as (ps & -> & _); [|done].
    intros f Hf. destruct (Hall f (or_introl Hf)) as [y ->]. by eexists.
  - injection Epk as <-. apply action_fold_raise in Ef as (f & Hf & Hv). unfold action_value in Hv.
    destruct (String.eqb f p); [done|]. destruct (is_absolute f); [by destruct (dget f held); simplify_eq/=|].
    destruct (setpoint_fields _ _ _ Hsd Hf) as [w Hw]. unfold field_dim in Hv. by rewrite Hw in Hv.
Qed.

(** A packed action has the width of the setpoint channel. *)
Lemma pack_accepted seen held side ctrl d (value v : list f64) :
  Forall measures seen -> latched seen held -> (side, ctrl) ∈ control_arms -> driveable (side, ctrl) ->
  Channel.action_dim ctrl = Ok d -> length value = d ->
  Channel.pack_action ctrl value (default [] (dget side held)) = Ok v -> accepted ctrl v = Ok v.
Proof.
  intros Hm Hl Hin (_ & Hnd & [sd Hsd] & _) Had Hlen Epk. simpl in *. unfold Channel.action_dim in Had.
  destruct (action_field ctrl) as [p|] eqn:Ep; simpl in Had; [|done].
  set (hd := default [] (dget side held)) in *.
  assert (Hfit : action_fits ctrl p value hd).
  { apply Forall_forall. intros f Hf. pose proof Epk as Epk'. unfold Channel.pack_action in Epk'.
    rewrite Ep in Epk'. simpl in Epk'.
    destruct (foldM_res _ (streamed ctrl) []) as [fields|] eqn:Ef; simpl in Epk'; [|done].
    destruct (proj1 (action_fold_inv _ _ _ _ _ _ _ Ef) f Hf) as [x Hx]. exists x. split; [done|].
    unfold action_value in Hx. destruct (String.eqb_spec f p) as [->|Hne].
    { injection Hx as <-. unfold field_dim in Had. destruct (dget p (command ctrl)); simplify_eq/=. congruence. }
    destruct (is_absolute f) eqn:Ea.
    - unfold hd in Hx. destruct (dget side held) as [hs|] eqn:Eh; simpl in Hx; [|done].
      destruct (dget f hs) as [y|] eqn:Ey; simpl in Hx; [|done]. injection Hx as ->.
      destruct (Hl _ _ _ _ Eh Ey) as (o & sig & Ho & Hsig & Hnew).
      rewrite Forall_forall in Hm. by eapply (Hm o Ho).
    - destruct (setpoint_fields _ _ _ Hsd Hf) as [w Hw]. unfold field_dim in Hx. rewrite Hw in Hx. simpl in Hx.
      injection Hx as <-. by rewrite length_replicate. }
  destruct (pack_action_fits ctrl p value hd Ep Hnd Hfit) as [H1 H2].
  rewrite Epk in H1. injection H1 as ->. unfold accepted. rewrite H2. simpl. by rewrite Nat.eqb_refl.
Qed.

(** Every arm of an action of the right width is executed without raising. *)
Lemma execute_arms_total seen targets ds l :
  l ⊆ control_arms -> Forall measures seen -> tiled layout 0 (sides layout) ds ->
  Forall2 (fun s d => exists arm, dget s arms = Some arm /\ Channel.action_dim (arm_control arm) = Ok d)
    (sides layout) ds ->
  (forall i s d, sides layout !! i = Some s -> ds !! i = Some d -> exists t, dget s targets = Some t /\
      layout_field layout s = Ok (sa_field t) /\ length (sa_value t) = d) ->
  forall s, latched seen (ev_held s) -> (execute_arms layout targets l s).2 = Returned tt.
Proof.
  intros Hl Hm Ht Hds Hsplit. induction l as [|[side ctrl] l IH]; intros s Hh; [done|].
  assert (Hin : (side, ctrl) ∈ control_arms) by set_solver.
  pose proof (proj1 (Forall_forall _ _) Harms _ Hin) as Hd. pose proof Hd as (Hside & Hnd & [sd Hsd] & arm & Harm & Hctl).
  simpl in *. apply list_elem_of_lookup in Hside as [i Hi].
  destruct (Forall2_lookup_l _ _ _ _ _ Hds Hi) as (d & Hdi & arm' & Harm' & Had).
  rewrite Harm in Harm'. injection Harm' as <-. rewrite Hctl in Had.
  destruct (Hsplit i side d Hi Hdi) as (t & Htg & Hf & Hlen).
  unfold mbind at 1, st_bind at 1. unfold execute_arm. rewrite Htg, Hf.
  unfold mbind, st_bind, st_lift, st_get. cbn [of_option]. rewrite String.eqb_refl.
  destruct (Channel.pack_action ctrl (sa_value t) _) as [v|e] eqn:Epk.
  - rewrite (pack_accepted seen (ev_held s) side ctrl d (sa_value t) v) by done.
    unfold log_event, st_modify. apply IH; [set_solver|done].
  - rewrite (pack_raises _ _ _ _ _ _ Hsd Had Epk). unfold st_modify. apply IH; [set_solver|done].
Qed.

Lemma execute_total seen action s :
  Forall measures seen -> latched seen (ev_held s) -> length action = action_dim layout ->
  exists s', execute layout control_arms action s = (s', Returned tt).
Proof.
  intros Hm Hl Hlen. destruct (layout_tiles arms sigs acts layout Hkeys Hlayout) as (Hnd & _ & _ & ds & Ht & Hds).
  destruct (split_total layout ds action Hnd Ht Hlen) as (ts & Hts & Hsplit).
  unfold execute, mbind, st_bind, log_event, st_modify, st_lift. rewrite Hts.
  match goal with |- context [execute_arms _ _ _ ?s1] =>
    pose proof (execute_arms_total seen ts ds control_arms ltac:(done) Hm Ht Hds Hsplit s1 Hl) as Hx;
    destruct (execute_arms layout ts control_arms s1) as [s2 r] end.
  simpl in Hx. subst r. by exists s2.
Qed.

Context (observer : FrameBuilder) (hold : list (string * list string)) (replan_steps : Z) (max_errors : nat)
  (num_timesteps : nat).
Context (Hhold : hold_table control_arms = Ok hold).

(** A complete observation the policy answers with a chunk of the layout's width. *)
Definition answered (o : eval_obs) : Prop :=
  eo_stop o = false /\ exists fr a rows, build observer (eo_snapshot o) [] [] = Ok (Some fr) /\
    eo_infer o fr = Ok a /\ validate_chunk layout a = Ok rows /\
    Forall (fun r => length r = action_dim layout) rows.

Lemma infer_total o s : ev_pending s = [] -> answered o ->
  exists s1, infer observer layout hold replan_steps max_errors o s = (s1, Returned true) /\
    ev_pending s1 ≠ [] /\ Forall (fun r => length r = action_dim layout) (ev_pending s1).
Proof.
  intros Hp (_ & fr & a & rows & Hb & Ha & Hv & Hw). unfold infer, mbind, st_bind, st_lift, st_get, st_modify.
  rewrite Hb. destruct (capture_holds_total _ _ (eo_snapshot o) (ev_held s) Hhold) as [h ->]. rewrite Ha, Hv.
  eexists. split; [done|]. simpl. rewrite Hp. simpl. split.
  - by apply chunk_prefix_nonempty, (validate_chunk_ok layout a).
  - unfold chunk_prefix. destruct (0 <? replan_steps)%Z; [by apply Forall_take|done].
Qed.

Lemma tick_total seen o s :
  Forall measures seen -> o ∈ seen -> answered o -> latched seen (ev_held s) ->
  Forall (fun r => length r = action_dim layout) (ev_pending s) ->
  exists s', eval_tick observer layout control_arms hold replan_steps max_errors o s = (s', Returned true) /\
    ev_timesteps_done s' = ev_timesteps_done s /\ latched seen (ev_held s') /\
    Forall (fun r => length r = action_dim layout) (ev_pending s').
Proof.
  intros Hm Ho Hans Hl Hw.
  assert (Hgo : exists s1 b, (match ev_pending s with [] => infer observer layout hold replan_steps max_errors o
      | _ => mret true end) s = (s1, Returned b) /\ b = true /\ ev_pending s1 ≠ [] /\ latched seen (ev_held s1) /\
    ev_timesteps_done s1 = ev_timesteps_done s /\
    Forall (fun r => length r = action_dim layout) (ev_pending s1)).
  { destruct (ev_pending s) as [|a rest] eqn:Ep.
    - destruct (infer_total o s Ep Hans) as (s1 & Hi & H1 & H2). exists s1, true.
      destruct (infer_spec _ _ _ _ _ _ _ _ _ Hi Ep) as (Ht & Hh & _). split_and!; try done.
      destruct Hh as [->|Hc]; [done|]. by eapply capture_holds_latched.
    - exists s, true. rewrite Ep. by split_and!. }
  destruct Hgo as (s1 & b & Hg & -> & Hne & Hl1 & Ht1 & Hw1).
  unfold eval_tick. unfold mbind at 1, st_bind at 1, st_get at 1. unfold mbind at 1, st_bind at 1. unfold E in Hg. rewrite Hg.
  cbn [negb]. unfold mbind, st_bind, st_get.
  destruct (ev_pending s1) as [|a rest] eqn:Ep1; [done|]. apply Forall_cons in Hw1 as [Ha Hrest].
  unfold st_modify. set (s2 := EvalSt _ _ rest _ _ _ _ _).
  destruct (execute_total seen a s2 Hm Hl1 Ha) as [s3 Hx]. rewrite Hx.
  destruct (execute_spec _ _ _ _ _ _ Hx) as (E1 & E2 & _ & E4 & _). exists s3. split; [done|].
  rewrite E1, E2, E4. simpl. by split_and!.
Qed.

Lemma run_total tape : forall seen s, Forall measures (seen ++ tape)%list -> Forall answered tape ->
  latched seen (ev_held s) -> Forall (fun r => length r = action_dim layout) (ev_pending s) ->
  ev_timesteps_done s <= num_timesteps -> num_timesteps - ev_timesteps_done s < length tape ->
  exists s', eval_run observer layout control_arms hold num_timesteps replan_steps max_errors tape s =
    (s', Returned tt) /\ ev_timesteps_done s' = num_timesteps.
Proof.
  induction tape as [|o tape IH]; intros seen s Hm Ha Hl Hw Hle Hlen; [simpl in Hlen; lia|].
  apply Forall_cons in Ha as [Ho Ha]. simpl. rewrite (proj1 Ho). simpl.
  destruct (Nat.leb_spec num_timesteps (ev_timesteps_done s)); [exists s; split; [done|lia]|].
  replace (seen ++ o :: tape)%list with ((seen ++ [o]) ++ tape)%list in Hm by (by rewrite <-app_assoc).
  destruct (tick_total (seen ++ [o])%list o s) as (s1 & -> & Ht & Hl1 & Hw1); try done.
  - by apply Forall_app in Hm as [? _].
  - set_solver.
  - eapply latched_mono; [|exact Hl]. set_solver.
  - apply (IH (seen ++ [o])%list); simpl; try done; simpl in Hlen; lia.
Qed.
End live.

(** C17: A rollout reaches its horizon: when every observation is complete and answered with a
    valid chunk, the measured streams have their declared widths and every driven arm's control
    is the one the layout was built for, the rollout returns after exactly its horizon of
    executed actions: no tick raises, and none is lost. *)
Theorem rollout_completes (arms : list (string * ArmShape)) (sigs acts : list string)
    (layout : DFCStateActionLayout) (control_arms : list (string * ControlCfg)) (observer : FrameBuilder)
    (num_timesteps replan_steps max_errors : Z) (tape : list eval_obs)
    (Hkeys : NoDup (dkeys arms)) (Hlayout : from_arms arms sigs acts = Ok layout)
    (Harms : Forall (driveable arms layout) control_arms)
    (Hfields : exists hold, hold_table control_arms = Ok hold)
    (Hmeasures : Forall (measures control_arms) tape)
    (Hanswered : Forall (answered layout observer) tape)
    (Hlen : (Z.max 1 num_timesteps < Z.of_nat (length tape))%Z) :
  exists s, eval_rollout observer layout control_arms num_timesteps replan_steps max_errors tape =
      Ok (s, Returned tt) /\ Z.of_nat (ev_timesteps_done s) = Z.max 1 num_timesteps /\
    Z.of_nat (length (executed (ev_log s))) = Z.max 1 num_timesteps.
Proof.
  destruct Hfields as [hold Hhold]. unfold eval_rollout. rewrite Hhold. simpl.
  destruct (run_total arms sigs acts layout control_arms Hkeys Hlayout Harms observer hold replan_steps
    (Z.to_nat (Z.max 1 max_errors)) (Z.to_nat (Z.max 1 num_timesteps)) Hhold tape [] eval_init)
    as (s & Hs & Hn); try done; [simpl; lia..|].
  exists s. rewrite Hs. split; [done|]. split; [lia|].
  destruct (eval_run_spec _ _ _ _ _ _ _ _ _ _ _ _ (roll_start layout control_arms _ _) Hs)
    as (_ & _ & _ & [[x ?]|He] & _); [done|]. lia.
Qed.

Lemma rollout_completes_witness : exists s,
  eval_rollout eval_observer eval_layout eval_controlled 3 2 2
    (replicate 4 (eval_seen (Ok (Array2 3 eval_rows)))) = Ok (s, Returned tt) /\
  Z.of_nat (ev_timesteps_done s) = 3%Z.
Proof.
  destruct (rollout_completes eval_arms ["q"] ["left"] eval_layout eval_controlled eval_observer 3 2 2
    (replicate 4 (eval_seen (Ok (Array2 3 eval_rows))))) as (s & H1 & H2 & _).
  - apply (bool_decide_eq_true_1 _). vm_compute. reflexivity.
  - vm_compute. reflexivity.
  - apply Forall_singleton. split; [apply (bool_decide_eq_true_1 _); vm_compute; reflexivity|].
    split; [apply (bool_decide_eq_true_1 _); vm_compute; reflexivity|].
    split; [eexists; vm_compute; reflexivity|]. eexists. split; vm_compute; reflexivity.
  - eexists. vm_compute. reflexivity.
  - apply Forall_forall. intros o Ho. apply elem_of_replicate in Ho as [-> _].
    intros side ctrl f sig x Hin Hsig Hx Hf. apply list_elem_of_singleton in Hin. injection Hin as -> ->.
    apply elem_of_cons in Hf as [->|Hf]; [|apply list_elem_of_singleton in Hf as ->; vm_compute in Hsig; discriminate].
    vm_compute in Hsig. injection Hsig as <-. vm_compute in Hx. injection Hx as <-. vm_compute. reflexivity.
  - apply Forall_forall. intros o Ho. apply elem_of_replicate in Ho as [-> _]. split; [reflexivity|].
    eexists _, _, _. split; [vm_compute; reflexivity|]. split; [reflexivity|]. split; [vm_compute; reflexivity|].
    repeat constructor.
  - simpl. lia.
  - exists s. split; [exact H1|]. rewrite H2. reflexivity.
Defined.
