(* ===== verification/Json.v ===== *)
(** * JSON documents and the arrays read from them

    [json.dumps]/[json.loads] round-trip a document exactly (floats print as their shortest
    round-trip form, NaN included, and ints stay ints), so a file's content is the document
    itself.  The conversions the code applies to what it loads follow Python and numpy:
    truthiness, [float], [int], [dict], [np.asarray(.., float64)] and its inverse [tolist].
    Reading a number from a string is numpy's parser, a parameter. *)

From Stdlib Require Import Ascii String.
From S2P Require Import Prelude Float64 Ring Streams Text.
Local Open Scope string_scope.

Unset Elimination Schemes.
Inductive json :=
  | Scalar (v : jval)
  | Arr (l : list json)
  | Obj (o : list (string * json)).
Set Elimination Schemes.

Definition jnull : json := Scalar JNull.
Definition jstr (s : string) : json := Scalar (JStr s).
Definition jint (z : Z) : json := Scalar (JInt z).
Definition jfloat (x : f64) : json := Scalar (JFloat x).

(** [bool(v)]. *)
Definition truthy (v : json) : bool :=
  match v with
  | Scalar JNull => false
  | Scalar (JBool b) => b
  | Scalar (JInt z) => negb (z =? 0)%Z
  | Scalar (JFloat x) => negb (feq x f0)
  | Scalar (JStr s) => negb (bool_decide (s = ""))
  | Arr l => match l with [] => false | _ => true end
  | Obj o => match o with [] => false | _ => true end
  end.

(** [v or d]. *)
Definition py_or (v d : json) : json := if truthy v then v else d.

(** [v.get(k)]: only an object has it. *)
Definition jget (k : string) (v : json) : res json :=
  match v with
  | Obj o => Ok (default jnull (dget k o))
  | _ => Raise OtherError
  end.

(** [v.items()]. *)
Definition jitems (v : json) : res (list (string * json)) :=
  match v with Obj o => Ok o | _ => Raise OtherError end.

(** [int(v)]. *)
Definition jint_of (v : json) : res Z :=
  match v with Scalar s => py_int s | _ => Raise TypeError end.

(** One element of [dict(l)]: a pair.  Keys that are not strings are refused here. *)
Definition pair_of (v : json) : res (string * json) :=
  match v with
  | Arr [Scalar (JStr k); x] => Ok (k, x)
  | Arr [_; _] => Raise TypeError
  | Arr _ => Raise ValueError
  | Scalar (JStr (String a (String b EmptyString))) => Ok (String a "", jstr (String b ""))
  | Scalar (JStr _) => Raise ValueError
  | _ => Raise TypeError
  end.

(** [dict(v)]. *)
Definition py_dict (v : json) : res (list (string * json)) :=
  match v with
  | Obj o => Ok o
  | Arr l => let? ps := mapM_res pair_of l in Ok (foldl (fun d p => dset p.1 p.2 d) [] ps)
  | Scalar (JStr s) => if bool_decide (s = "") then Ok [] else Raise ValueError
  | _ => Raise TypeError
  end.

(** ** Arrays *)

(** A float64 array: its shape and its elements in C order. *)
Record nd := Nd { shape : list nat; data : list f64 }.

Definition size (s : list nat) : nat := foldr Nat.mul 1 s.
Definition nd_wf (a : nd) : Prop := length (data a) = size (shape a).

Definition ravel (a : nd) : nd := Nd [length (data a)] (data a).

(** Row [i] of a matrix of [w] columns. *)
Definition row_of (w : nat) (d : list f64) (i : nat) : list f64 := slice d (i * w) (i * w + w).

(** Numpy's promotion of equal-shaped children. *)
Definition stack (xs : list nd) : res nd :=
  match xs with
  | [] => Ok (Nd [0] [])
  | x :: _ =>
      if forallb (fun y => bool_decide (shape y = shape x)) xs
      then Ok (Nd (length xs :: shape x) (concat (data <$> xs)))
      else Raise ValueError
  end.

Section convert.
Context (float_of_str : string -> option f64).

(** [float(z)] for an int. *)
Definition float_of_int (z : Z) : res f64 :=
  let x := f_of_Z z in if is_finite x then Ok x else Raise OverflowError.

(** [float(v)]. *)
Definition jfloat_of (v : json) : res f64 :=
  match v with
  | Scalar (JFloat x) => Ok x
  | Scalar (JInt z) => float_of_int z
  | Scalar (JBool b) => Ok (if b then f1 else f0)
  | Scalar (JStr s) => of_option ValueError (float_of_str s)
  | _ => Raise TypeError
  end.

(** An array element: [None] becomes NaN. *)
Definition element (v : jval) : res f64 :=
  match v with
  | JNull => Ok SpecFloat.S754_nan
  | _ => jfloat_of (Scalar v)
  end.

(** [np.asarray(v, dtype=np.float64)]. *)
Fixpoint asarray (v : json) : res nd :=
  match v with
  | Scalar s => let? x := element s in Ok (Nd [] [x])
  | Obj _ => Raise TypeError
  | Arr l =>
      let? xs := (fix go (l : list json) : res (list nd) :=
        match l with
        | [] => Ok []
        | v :: l => let? x := asarray v in let? xs := go l in Ok (x :: xs)
        end) l in
      stack xs
  end.

Lemma asarray_Arr l : asarray (Arr l) = let? xs := mapM_res asarray l in stack xs.
Proof.
  simpl. f_equal. induction l as [|v l IH]; simpl; [done|]. by rewrite IH.
Qed.
End convert.

(** [k] consecutive blocks of [w] elements. *)
Fixpoint blocks_of (w k : nat) (d : list f64) : list (list f64) :=
  match k with
  | O => []
  | S k => take w d :: blocks_of w k (drop w d)
  end.

(** [a.tolist()]. *)
Fixpoint tolist_of (s : list nat) (d : list f64) : json :=
  match s with
  | [] => jfloat (default f0 (head d))
  | n :: s => Arr (tolist_of s <$> blocks_of (size s) n d)
  end.

Definition tolist (a : nd) : json := tolist_of (shape a) (data a).

(** ** Lemmas *)

Lemma blocks_of_spec w k d : length d = k * w ->
  length (blocks_of w k d) = k /\ concat (blocks_of w k d) = d /\
  Forall (fun b => length b = w) (blocks_of w k d).
Proof.
  revert d. induction k as [|k IH]; intros d Hd; simpl.
  - apply nil_length_inv in Hd as ->. by split_and!.
  - destruct (IH (drop w d)) as (H1 & H2 & H3); [rewrite length_drop; lia|].
    split_and!; [by rewrite H1|by rewrite H2, take_drop|]. constructor; [|done].
    rewrite length_take. lia.
Qed.

Lemma blocks_of_lookup w k d i : length d = k * w -> i < k ->
  blocks_of w k d !! i = Some (row_of w d i).
Proof.
  revert d i. induction k as [|k IH]; intros d i Hd Hi; [lia|]. destruct i as [|i]; simpl.
  - unfold row_of, slice. simpl. by rewrite Nat.sub_0_r, drop_0.
  - rewrite IH by (rewrite ?length_drop; lia). unfold row_of, slice. f_equal. rewrite drop_drop.
    f_equal; lia.
Qed.

Section roundtrip.
Context (float_of_str : string -> option f64).

(** Printing an array and reading it back: nothing is lost once no dimension is empty. *)
Lemma asarray_tolist s d :
  length d = size s -> Forall (fun n => 0 < n) s -> asarray float_of_str (tolist_of s d) = Ok (Nd s d).
Proof.
  intros Hd Hs. revert d Hd. induction Hs as [|n s Hn Hs IH]; intros d Hd.
  - simpl in *. destruct d as [|x [|y d]]; try done.
  - cbn [tolist_of]. rewrite asarray_Arr. destruct (blocks_of_spec (size s) n d Hd) as (H1 & H2 & H3).
    assert (mapM_res (asarray float_of_str) (tolist_of s <$> blocks_of (size s) n d) =
      Ok (Nd s <$> blocks_of (size s) n d)) as ->.
    { clear H1 H2. induction H3 as [|b bs Hb Hbs IHb]; [done|]. rewrite !fmap_cons. cbn [mapM_res].
      rewrite IH by done. cbn [res_bind]. by rewrite IHb. }
    simpl. unfold stack. destruct (blocks_of (size s) n d) as [|b bs] eqn:Eb; [simpl in H1; lia|].
    assert (forallb (fun y => bool_decide (shape y = s)) (Nd s <$> b :: bs) = true) as Hall.
    { apply forallb_forall. intros y Hy. apply list_elem_of_In, list_elem_of_fmap in Hy as (z & -> & _).
      by apply bool_decide_eq_true. }
    rewrite fmap_cons in *. cbn [shape]. rewrite Hall. do 2 f_equal.
    + simpl. rewrite length_fmap. simpl in H1. by f_equal.
    + rewrite <-fmap_cons, <-list_fmap_compose. rewrite <-H2. f_equal. rewrite <-(list_fmap_id (b :: bs)) at 2.
      done.
Qed.

Lemma asarray_tolist_flat d : asarray float_of_str (tolist_of [length d] d) = Ok (Nd [length d] d).
Proof.
  destruct d as [|x d]; [done|]. apply asarray_tolist; [simpl; lia|].
  apply Forall_singleton. simpl. lia.
Qed.
End roundtrip.

(** Induction through the lists of a document. *)
Definition json_ind (P : json -> Prop) (Hs : forall v, P (Scalar v))
    (Ha : forall l, Forall P l -> P (Arr l)) (Ho : forall o, P (Obj o)) : forall v, P v :=
  fix go v :=
    match v with
    | Scalar s => Hs s
    | Arr l => Ha l ((fix all l : Forall P l := match l with
                                   | [] => @List.Forall_nil json P
                                   | x :: l => @List.Forall_cons json P x l (go x) (all l)
                                   end) l)
    | Obj o => Ho o
    end.

Lemma asarray_wf fos v a : asarray fos v = Ok a -> nd_wf a.
Proof.
  revert a. induction v as [s|l IH|o] using json_ind; intros a; [|rewrite asarray_Arr|done].
  - simpl. destruct (element fos s); [|done]. by intros [= <-].
  - intros H. destruct (mapM_res (asarray fos) l) as [xs|] eqn:E; [|done]. simpl in H.
    apply mapM_res_Forall2 in E. unfold stack in H. destruct xs as [|x xs']; [by injection H as <-|].
    set (xs := x :: xs') in *. destruct (forallb _ xs) eqn:Eb; [|done]. injection H as <-. unfold nd_wf. simpl.
    assert (Forall (fun y => length (data y) = size (shape x)) xs) as Hall.
    { apply Forall_forall. intros y Hy. rewrite forallb_forall in Eb.
      specialize (Eb y (proj1 (list_elem_of_In _ _) Hy)). apply bool_decide_eq_true in Eb. rewrite <-Eb.
      apply list_elem_of_lookup in Hy as [i Hi].
      destruct (Forall2_lookup_r _ _ _ _ _ E Hi) as (z & Hz & Hza).
      rewrite Forall_lookup in IH. by apply (IH _ _ Hz). }
    clear E Eb. change (length (concat (data <$> xs)) = length xs * size (shape x)). clearbody xs.
    induction Hall as [|y ys Hy Hys IHy]; [done|]. rewrite fmap_cons. simpl. rewrite length_app, IHy, Hy. done.
Qed.

(** The exceptions of a number's conversion, and of an array's. *)
Lemma jfloat_of_errors fos v e : jfloat_of fos v = Raise e ->
  e = KeyError \/ e = TypeError \/ e = ValueError \/ e = OverflowError.
Proof.
  destruct v as [[|b|z|x|t]|l|o]; simpl; try done; try (intros [= <-]; by auto).
  - unfold float_of_int. destruct (is_finite _); intros; simplify_eq; auto.
  - destruct (fos t); intros; simplify_eq/=; auto.
Qed.

Lemma asarray_errors fos v e : asarray fos v = Raise e ->
  e = KeyError \/ e = TypeError \/ e = ValueError \/ e = OverflowError.
Proof.
  revert e. induction v as [s|l IH|o] using json_ind; intros e; [|rewrite asarray_Arr|by intros [= <-]; auto].
  - simpl. destruct (element fos s) as [x|e'] eqn:E; [done|]. intros [= <-].
    destruct s as [|b|z|x|t]; [done|exact (jfloat_of_errors fos (Scalar _) _ E)..].
  - intros H. destruct (mapM_res (asarray fos) l) as [xs|e'] eqn:E; simpl in H.
    + unfold stack in H. destruct xs; [done|]. destruct (forallb _ _); simplify_eq; auto.
    + simplify_eq. clear -IH E. revert E. induction IH as [|v l Hv Hl IHl]; [done|].
      cbn [mapM_res]. destruct (asarray fos v) as [a|e'] eqn:Ea; cbn [res_bind].
      * destruct (mapM_res (asarray fos) l); cbn [res_bind]; [done|]. intros [= ->]. by apply IHl.
      * intros [= ->]. by apply Hv.
Qed.
