(* ===== verification/FactrClient.v ===== *)
(** * The clients of the FACTR leader servers

    Models [interfaces/factr/client.py].  A [FactrServerClient] is shared by two threads under one
    condition variable: the caller of its methods and a background receiver that drains the
    WebSocket into latest-value caches.  The receiver is a function of what the network does
    ([net] events, one atomic step each, as in the code: every cache refresh is one critical
    section); a method that waits on the condition is fed one [wake] per pass, with the events
    the receiver handled while the lock was released. *)

From Stdlib Require Import Ascii String.
From S2P Require Import Prelude Float64 Ring Streams Text Convention Json.
Local Open Scope string_scope.
Local Open Scope nat_scope.
Local Open Scope list_scope.

Definition POSITION_KEYS : list string :=
  ["joint_pos"; "positions"; "q"; "joint_positions"; "joints"; "data"].

(** The first position key that holds a list. *)
Fixpoint first_list (keys : list string) (o : list (string * json)) : option (list json) :=
  match keys with
  | [] => None
  | k :: keys =>
      match dget k o with Some (Arr l) => Some l | _ => first_list keys o end
  end.

Definition extract_list (obj : json) : res (list json) :=
  match obj with
  | Arr l => Ok l
  | Obj o => of_option FactrError (first_list POSITION_KEYS o)
  | Scalar _ => Raise FactrError
  end.

(** ** State *)

(** The receiver thread: not running, inside [connect], or iterating over an open socket. *)
Inductive receiver := RDead | RConnecting | ROpen.

#[export] Instance receiver_eq_dec : EqDecision receiver.
Proof. solve_decision. Defined.

Record client := Client {
  cl_side : string;
  cl_host : string;
  cl_port : Z;
  cl_path : string;
  cl_dof : Z;
  cl_timeout_s : f64;
  cl_sim : bool;
  cl_t0 : f64;
  cl_http_conn : bool;                             (* [_http_conn is not None] *)
  cl_stop : bool;
  cl_receiver : receiver;
  cl_ws : bool;                                    (* [_ws is not None] *)
  cl_latest_joint_pos : option (list f64);
  cl_latest_joint_pos_at : f64;
  cl_latest_telemetry : option (list (string * json));
  cl_telemetry_version : Z;
  cl_sent : list (list f64);                       (* torques handed to the socket, oldest first *)
}.

Definition set_link (http stop : bool) (r : receiver) (ws : bool) (c : client) : client :=
  Client (cl_side c) (cl_host c) (cl_port c) (cl_path c) (cl_dof c) (cl_timeout_s c) (cl_sim c) (cl_t0 c)
    http stop r ws (cl_latest_joint_pos c) (cl_latest_joint_pos_at c) (cl_latest_telemetry c)
    (cl_telemetry_version c) (cl_sent c).

Definition set_receiver (r : receiver) (ws : bool) (c : client) : client :=
  set_link (cl_http_conn c) (cl_stop c) r ws c.

Definition set_http (http : bool) (c : client) : client :=
  set_link http (cl_stop c) (cl_receiver c) (cl_ws c) c.

Definition set_reading (q : list f64) (now : f64) (c : client) : client :=
  Client (cl_side c) (cl_host c) (cl_port c) (cl_path c) (cl_dof c) (cl_timeout_s c) (cl_sim c) (cl_t0 c)
    (cl_http_conn c) (cl_stop c) (cl_receiver c) (cl_ws c) (Some q) now (cl_latest_telemetry c)
    (cl_telemetry_version c) (cl_sent c).

Definition set_telemetry (t : list (string * json)) (c : client) : client :=
  Client (cl_side c) (cl_host c) (cl_port c) (cl_path c) (cl_dof c) (cl_timeout_s c) (cl_sim c) (cl_t0 c)
    (cl_http_conn c) (cl_stop c) (cl_receiver c) (cl_ws c) (cl_latest_joint_pos c)
    (cl_latest_joint_pos_at c) (Some t) (cl_telemetry_version c + 1) (cl_sent c).

Definition add_sent (tau : list f64) (c : client) : client :=
  Client (cl_side c) (cl_host c) (cl_port c) (cl_path c) (cl_dof c) (cl_timeout_s c) (cl_sim c) (cl_t0 c)
    (cl_http_conn c) (cl_stop c) (cl_receiver c) (cl_ws c) (cl_latest_joint_pos c)
    (cl_latest_joint_pos_at c) (cl_latest_telemetry c) (cl_telemetry_version c)
    (cl_sent c ++ [tau])%list.

Fixpoint lstrip_slash (s : string) : string :=
  match s with String "/" s => lstrip_slash s | _ => s end.

(** [FactrServerClient.__init__]. *)
Definition server_client (side host : string) (port : Z) (endpoint : string) (dof : Z)
    (timeout_s : f64) (sim : bool) (now : f64) : client :=
  Client side host port ("/" +:+ lstrip_slash endpoint) dof timeout_s sim now false false RDead false
    None f0 None 0 [].

Definition url (c : client) : string :=
  "ws://" +:+ cl_host c +:+ ":" +:+ str_of_int (cl_port c) +:+ cl_path c.

Section client.
(** Numpy's reading of a number from a string. *)
Context (float_of_str : string -> option f64).

Definition parse (c : client) (payload : list (string * json)) : res (list f64) :=
  let? data := match dget (cl_side c) payload with
               | Some v => extract_list v
               | None => extract_list (Obj payload)
               end in
  let? arr := asarray float_of_str (Arr data) in
  if bool_decide (Z.of_nat <$> shape arr = [cl_dof c]) then Ok (Json.data arr) else Raise FactrError.

(** [np_sin] is [numpy.sin], the C library's. *)
Definition sim_positions (np_sin : f64 -> f64) (c : client) (now : f64) : list f64 :=
  let t := fsub now (cl_t0 c) in
  let phase := if bool_decide (cl_side c = "left") then f0 else fdiv NPY_PI (f_of_Z 2) in
  (fun i => fmul (fdec 3 10) (np_sin (fadd (fadd t phase) (f_of_Z (Z.of_nat i))))) <$>
    seq 0 (Z.to_nat (cl_dof c)).

(** ** The receiver *)

Definition is_str (s : string) (v : option json) : bool :=
  match v with Some (Scalar (JStr t)) => bool_decide (t = s) | _ => false end.

(** [_handle_stream_frame]: [message] is the decoded, parsed frame, or what decoding raised. *)
Definition handle_stream_frame (message : res json) (now : f64) (c : client) : res client :=
  let? payload := message in
  match payload with
  | Obj o =>
      if negb (is_str (cl_side c) (dget "side" o)) then Raise FactrError
      else if is_str "reading" (dget "type" o)
      then let? q := parse c o in Ok (set_reading q now c)
      else if is_str "telemetry" (dget "type" o) then Ok (set_telemetry (ddel "type" o) c)
      else Raise FactrError
  | _ => Raise FactrError
  end.

(** What the network does to the receiver. *)
Inductive net :=
  | NConnected                                  (* [connect] returns *)
  | NFailed                                     (* [connect] or the iteration raises a transport error *)
  | NMessage (message : res json) (now : f64)   (* the next message *)
  | NClosed.                                    (* the iteration ends *)

(** The exceptions of a frame that [_receive_loop] catches. *)
Definition receive_catches (e : exn) : bool :=
  match e with
  | OSError | FileNotFoundError | FileExistsError | TimeoutError | TypeError | ValueError | FactrError => true
  | _ => false
  end.

(** [finally], the pause and the loop test. *)
Definition reconnect (c : client) : client :=
  set_receiver (if cl_stop c then RDead else RConnecting) false c.

(** [_receive_loop], one event at a time. *)
Definition receive (c : client) (ev : net) : client :=
  match cl_receiver c, ev with
  | RConnecting, NConnected => set_receiver ROpen true c
  | RConnecting, NFailed => reconnect c
  | ROpen, NMessage m now =>
      if cl_stop c then reconnect c
      else match handle_stream_frame m now c with
           | Ok c' => c'
           | Raise e => if receive_catches e then reconnect c else set_receiver RDead false c
           end
  | ROpen, (NFailed | NClosed) => reconnect c
  | _, _ => c
  end.

Definition receive_all (evs : list net) (c : client) : client := foldl receive c evs.

(** [_ensure_receiver_locked]: a started thread passes its loop test at once (the stop flag was
    just seen clear). *)
Definition ensure_receiver : ST client unit := fun c =>
  if cl_stop c then (c, Raised FactrError)
  else match cl_receiver c with
       | RDead => (set_receiver RConnecting false c, Returned tt)
       | _ => (c, Returned tt)
       end.

(** ** The caller's methods *)

(** One pass of a condition loop: the clock read, then what the receiver handles while the
    caller waits. *)
Record wake := Wake { wk_now : f64; wk_then : list net }.

Fixpoint joint_positions_loop (deadline : f64) (wakes : list wake) : ST client (list f64) :=
  match wakes with
  | [] => st_running
  | w :: wakes => fun c =>
      match cl_latest_joint_pos c with
      | Some q =>
          if fle (fsub (wk_now w) (cl_latest_joint_pos_at c)) (cl_timeout_s c) then (c, Returned q)
          else if fle (fsub deadline (wk_now w)) f0 then (c, Raised FactrError)
          else joint_positions_loop deadline wakes (receive_all (wk_then w) c)
      | None =>
          if fle (fsub deadline (wk_now w)) f0 then (c, Raised FactrError)
          else joint_positions_loop deadline wakes (receive_all (wk_then w) c)
      end
  end.

Definition get_joint_positions (np_sin : f64 -> f64) (start : f64) (wakes : list wake) :
    ST client (list f64) := fun c =>
  if cl_sim c then (c, Returned (sim_positions np_sin c start))
  else (ensure_receiver;; joint_positions_loop (fadd start (cl_timeout_s c)) wakes) c.

Definition get_telemetry : ST client (option (Z * list (string * json))) := fun c =>
  if cl_sim c then (c, Returned None)
  else (ensure_receiver;;
        c ← st_get; mret (pair (cl_telemetry_version c) <$> cl_latest_telemetry c)) c.

(** The rest of the status surface is one HTTP request: [reply] is the response's status and
    body, or what the transport raised. *)
Definition get_http_json (reply : res (Z * res json)) : ST client json := fun c =>
  let c := set_http true c in
  match reply with
  | Raise e => (c, Raised e)
  | Ok (status, body) =>
      if negb (status =? 200)%Z then (c, Raised OtherError)
      else match body with Ok v => (c, Returned v) | Raise e => (c, Raised e) end
  end.

Definition sim_status (side : string) : list (string * json) :=
  [("side", jstr side); ("grav_comp_gain", jfloat f0); ("grav_comp_gain_target", jfloat f0);
   ("force_feedback_gain", jfloat f0); ("force_feedback_gain_target", jfloat f0);
   ("grav_comp_enabled", Scalar (JBool false)); ("force_feedback_enabled", Scalar (JBool false))].

(** [get_status]: [OtherError] stands for [http.client.HTTPException], which is caught with
    [OSError] and [ValueError]. *)
Definition get_status (reply : res (Z * res json)) : ST client (list (string * json)) := fun c =>
  if cl_sim c then (c, Returned (sim_status (cl_side c)))
  else
    match get_http_json reply c with
    | (c, Returned (Obj o)) => (c, Returned o)
    | (c, Returned _) => (c, Raised FactrError)
    | (c, Raised (OSError | FileNotFoundError | TimeoutError | ValueError | OtherError)) =>
        (set_http false c, Raised FactrError)
    | (c, Raised e) => (c, Raised e)
    | (c, Running) => (c, Running)
    end.

(** The wait for a socket. *)
Fixpoint wait_ws (deadline : f64) (wakes : list wake) : ST client unit :=
  match wakes with
  | [] => fun c => if cl_ws c then (c, Returned tt) else (c, Running)
  | w :: wakes => fun c =>
      if cl_ws c then (c, Returned tt)
      else if fle (fsub deadline (wk_now w)) f0 then (c, Raised FactrError)
      else wait_ws deadline wakes (receive_all (wk_then w) c)
  end.

(** [send_force_feedback] of a 1-D vector; [io_ok] is whether [ws.send] succeeds. *)
Definition send_force_feedback (start : f64) (wakes : list wake) (io_ok : bool) (tau : list f64) :
    ST client unit := fun c =>
  if cl_sim c then (c, Returned tt)
  else if bool_decide (tau = []) || negb (forallb is_finite tau) then (c, Raised FactrError)
  else
    (ensure_receiver;;
     wait_ws (fadd start (cl_timeout_s c)) wakes;;
     if io_ok then st_modify (add_sent tau) else st_raise FactrError) c.

(** [close]: the events the receiver handles until it is joined (or the join times out). *)
Definition close (evs : list net) (c : client) : client :=
  set_http false (receive_all evs (set_link (cl_http_conn c) true (cl_receiver c) (cl_ws c) c)).


(** ** What the caches hold *)

(** A client keeps the server it was built for. *)
Definition same_server (c c' : client) : Prop :=
  cl_side c' = cl_side c /\ cl_dof c' = cl_dof c /\ cl_timeout_s c' = cl_timeout_s c /\ cl_sim c' = cl_sim c /\
  cl_stop c' = cl_stop c.

(** The event [ev] is a reading of this leader, received at [t], whose positions are [q]. *)
Definition reading_of (c : client) (q : list f64) (t : f64) (ev : net) : Prop :=
  exists o, ev = NMessage (Ok (Obj o)) t /\ dget "side" o = Some (jstr (cl_side c)) /\
    dget "type" o = Some (jstr "reading") /\ parse c o = Ok q.

(** After the events [h], the cached positions are a reading among them, under its time of
    arrival. *)
Definition cached (h : list net) (c : client) : Prop :=
  forall q, cl_latest_joint_pos c = Some q ->
    exists ev, ev ∈ h /\ reading_of c q (cl_latest_joint_pos_at c) ev.

Lemma parse_static c c' o : same_server c c' -> parse c' o = parse c o.
Proof. intros (Hs & Hd & _). unfold parse. by rewrite Hs, Hd. Qed.

Lemma reading_static c c' q t ev : same_server c c' -> reading_of c q t ev -> reading_of c' q t ev.
Proof.
  intros H (o & -> & H1 & H2 & H3). exists o. rewrite (parse_static c c') by done.
  destruct H as (-> & _). done.
Qed.

Lemma parse_length c o q : parse c o = Ok q -> Z.of_nat (length q) = cl_dof c.
Proof.
  unfold parse. intros H. destruct (match dget _ _ with Some _ => _ | None => _ end) as [d|] eqn:?; [|done].
  cbn [res_bind] in H. destruct (asarray float_of_str (Arr d)) as [a|] eqn:Ea; [|done]. cbn [res_bind] in H.
  apply asarray_wf in Ea. case_bool_decide as Hs; [|done]. injection H as <-. unfold nd_wf in Ea. rewrite Ea.
  destruct (shape a) as [|n [|m l]]; simplify_eq/=. unfold size. simpl. lia.
Qed.

Lemma is_str_eq s v : is_str s v = true -> v = Some (jstr s).
Proof.
  destruct v as [[[| | | |t]|l|o]|]; try done. simpl. by intros ->%bool_decide_eq_true.
Qed.

(** A frame only refreshes a cache. *)
Lemma handle_frame_cases m now c c' : handle_stream_frame m now c = Ok c' ->
  (exists o q, m = Ok (Obj o) /\ dget "side" o = Some (jstr (cl_side c)) /\
     dget "type" o = Some (jstr "reading") /\ parse c o = Ok q /\ c' = set_reading q now c) \/
  (exists t, c' = set_telemetry t c).
Proof.
  unfold handle_stream_frame. destruct m as [[v|l|o]|]; try done. cbn [res_bind].
  destruct (is_str (cl_side c) _) eqn:E1; [|done]. simpl. destruct (is_str "reading" _) eqn:E2.
  - destruct (parse c o) as [q|] eqn:E3; [|done]. intros [= <-]. left. exists o, q.
    apply is_str_eq in E1, E2. by split_and!.
  - destruct (is_str "telemetry" _); [|done]. intros [= <-]. right. by eexists.
Qed.

Lemma receive_static c ev : same_server c (receive c ev).
Proof.
  unfold receive, reconnect, set_receiver, set_link, same_server.
  destruct (cl_receiver c), ev as [| |m now|]; try done. destruct (cl_stop c) eqn:Est; [done|].
  destruct (handle_stream_frame m now c) as [c'|e] eqn:E; [rewrite <-Est|by destruct (receive_catches e)].
  by apply handle_frame_cases in E as [(o & q & _ & _ & _ & _ & ->)|[t ->]].
Qed.

Lemma same_server_trans c1 c2 c3 : same_server c1 c2 -> same_server c2 c3 -> same_server c1 c3.
Proof. unfold same_server. intuition congruence. Qed.

Lemma receive_all_static evs c : same_server c (receive_all evs c).
Proof.
  revert c. induction evs as [|ev evs IH]; intros c; [done|].
  eapply same_server_trans; [apply receive_static|]. apply IH.
Qed.

(** The cache is only moved by [set_reading]. *)
Lemma cached_keep h h' c c' :
  cached h c -> same_server c c' -> cl_latest_joint_pos c' = cl_latest_joint_pos c ->
  cl_latest_joint_pos_at c' = cl_latest_joint_pos_at c -> h ⊆ h' -> cached h' c'.
Proof.
  intros H Hs Hq Ht Hh q. rewrite Hq, Ht. intros (ev & Hin & Hr)%H.
  exists ev. split; [by apply Hh|]. by eapply reading_static.
Qed.

Lemma receive_cached h c ev : cached h c -> cached (h ++ [ev]) (receive c ev).
Proof.
  intros H. pose proof (receive_static c ev) as Hs. revert Hs.
  assert (h ⊆ h ++ [ev]) as Hsub by set_solver.
  unfold receive, reconnect, set_receiver, set_link.
  destruct (cl_receiver c), ev as [| |m now|]; try (intros; by eapply cached_keep).
  destruct (cl_stop c); [intros; by eapply cached_keep|].
  destruct (handle_stream_frame m now c) as [c'|e] eqn:E;
    [|destruct (receive_catches e); intros; by eapply cached_keep].
  apply handle_frame_cases in E as [(o & q & -> & H1 & H2 & H3 & ->)|[t ->]];
    [|intros; by eapply cached_keep].
  intros _ q' [= <-]. exists (NMessage (Ok (Obj o)) now). split; [set_solver|]. by exists o.
Qed.

Lemma receive_all_cached h evs c : cached h c -> cached (h ++ evs) (receive_all evs c).
Proof.
  revert h c. induction evs as [|ev evs IH]; intros h c H; [by rewrite app_nil_r|].
  rewrite cons_middle, (assoc_L app). apply IH. by apply receive_cached.
Qed.

Lemma ensure_receiver_cases c c' o : ensure_receiver c = (c', o) ->
  same_server c c' /\ (cl_stop c = true /\ o = Raised FactrError /\ c' = c \/ cl_stop c = false /\ o = Returned tt /\
    cl_latest_joint_pos c' = cl_latest_joint_pos c /\ cl_latest_joint_pos_at c' = cl_latest_joint_pos_at c /\
    cl_latest_telemetry c' = cl_latest_telemetry c /\ cl_telemetry_version c' = cl_telemetry_version c /\
    cl_sent c' = cl_sent c /\ cl_stop c' = false).
Proof.
  unfold ensure_receiver, same_server. destruct (cl_stop c) eqn:E; [intros [= <- <-]; by split; [|left]|].
  destruct (cl_receiver c); intros [= <- <-]; (split; [done|]); right; by split_and!.
Qed.

(** The loop returns a cached reading that is fresh at its last clock read, and raises only
    [FactrError], at or after the deadline. *)
Lemma joint_loop_spec deadline wakes h c c' o :
  cached h c -> joint_positions_loop deadline wakes c = (c', o) ->
  same_server c c' /\
  match o with
  | Returned q => exists t now ev, now ∈ wk_now <$> wakes /\ ev ∈ h ++ (wakes ≫= wk_then) /\
      reading_of c q t ev /\ fle (fsub now t) (cl_timeout_s c) = true
  | Raised e => e = FactrError /\ exists now, now ∈ wk_now <$> wakes /\ fle (fsub deadline now) f0 = true
  | Running => Forall (fun w => fle (fsub deadline (wk_now w)) f0 = false) wakes
  end.
Proof.
  revert h c. induction wakes as [|w wakes IH]; intros h c Hc; cbn [joint_positions_loop].
  { intros [= <- <-]. done. }
  assert (fle (fsub deadline (wk_now w)) f0 = false ->
    joint_positions_loop deadline wakes (receive_all (wk_then w) c) = (c', o) ->
    same_server c c' /\
    match o with
    | Returned q => exists t now ev, now ∈ wk_now <$> w :: wakes /\ ev ∈ h ++ ((w :: wakes) ≫= wk_then) /\
        reading_of c q t ev /\ fle (fsub now t) (cl_timeout_s c) = true
    | Raised e => e = FactrError /\ exists now, now ∈ wk_now <$> w :: wakes /\ fle (fsub deadline now) f0 = true
    | Running => Forall (fun w => fle (fsub deadline (wk_now w)) f0 = false) (w :: wakes)
    end) as Hnext.
  { intros Hd Hl. pose proof (receive_all_static (wk_then w) c) as Hs.
    destruct (IH (h ++ wk_then w) _ (receive_all_cached _ _ _ Hc) Hl) as [Hs' Ho].
    split; [by eapply same_server_trans|]. rewrite fmap_cons, bind_cons. destruct o as [q|e|].
    - destruct Ho as (t & now & ev & H1 & H2 & H3 & H4). exists t, now, ev.
      split_and!; [set_solver|set_solver| |].
      + eapply reading_static; [|done]. unfold same_server in *. intuition congruence.
      + destruct Hs as (_ & _ & Ht & _). by rewrite <-Ht.
    - destruct Ho as (-> & now & H1 & H2). split; [done|]. exists now. split; [set_solver|done].
    - by constructor. }
  destruct (fle (fsub deadline (wk_now w)) f0) eqn:Ed.
  - destruct (cl_latest_joint_pos c) as [q|] eqn:Eq; [destruct (fle (fsub (wk_now w) _) _) eqn:Ef|];
      intros [= <- <-]; (split; [done|]).
    + destruct (Hc q Eq) as (ev & Hin & Hr). exists (cl_latest_joint_pos_at c), (wk_now w), ev.
      rewrite fmap_cons. split_and!; [set_solver|set_solver|done|done].
    + split; [done|]. exists (wk_now w). rewrite fmap_cons. split; [set_solver|done].
    + split; [done|]. exists (wk_now w). rewrite fmap_cons. split; [set_solver|done].
  - destruct (cl_latest_joint_pos c) as [q|] eqn:Eq; [destruct (fle (fsub (wk_now w) _) _) eqn:Ef|];
      [|by apply Hnext|by apply Hnext].
    intros [= <- <-]. split; [done|]. destruct (Hc q Eq) as (ev & Hin & Hr).
    exists (cl_latest_joint_pos_at c), (wk_now w), ev.
    rewrite fmap_cons. split_and!; [set_solver|set_solver|done|done].
Qed.

(** What every method preserves: the server, and cached positions that are a reading of some
    history. *)
Definition sound (c0 c : client) : Prop := same_server c0 c /\ exists h, cached h c.

Lemma sound_length c0 c q : sound c0 c -> cl_latest_joint_pos c = Some q -> Z.of_nat (length q) = cl_dof c0.
Proof.
  intros [(_ & Hd & _) [h H]] (ev & _ & o & _ & _ & _ & Hp)%H. rewrite <-Hd. by eapply parse_length.
Qed.

Lemma receive_all_sound c0 evs c : sound c0 c -> sound c0 (receive_all evs c).
Proof.
  intros [Hs [h H]]. split; [eapply same_server_trans; [done|apply receive_all_static]|].
  eexists. by apply receive_all_cached.
Qed.

Lemma sound_keep c0 c c' :
  sound c0 c -> same_server c c' -> cl_latest_joint_pos c' = cl_latest_joint_pos c ->
  cl_latest_joint_pos_at c' = cl_latest_joint_pos_at c -> sound c0 c'.
Proof.
  intros [Hs [h H]] ???. split; [by eapply same_server_trans|]. exists h. by eapply cached_keep.
Qed.

(** A closed client refuses: the only exception of the caller's methods besides a deadline. *)
Lemma ensure_receiver_sound c0 :
  triple (sound c0) ensure_receiver (fun _ => True) (fun e => e = FactrError /\ cl_stop c0 = true).
Proof.
  intros c H. destruct (ensure_receiver c) as [c' o] eqn:E.
  apply ensure_receiver_cases in E as [Hs [(Ht & -> & ->)|(_ & -> & H1 & H2 & _)]].
  - split; [exact H|]. destruct H as [(_ & _ & _ & _ & Hst) _]. split; congruence.
  - split; [by eapply sound_keep|done].
Qed.

Lemma joint_loop_sound c0 deadline wakes :
  triple (sound c0) (joint_positions_loop deadline wakes)
    (fun q => Z.of_nat (length q) = cl_dof c0) (fun e => e = FactrError).
Proof.
  induction wakes as [|w wakes IH]; intros c Hc; [done|]. cbn [joint_positions_loop].
  pose proof (IH _ (receive_all_sound c0 (wk_then w) c Hc)) as Hn.
  destruct (cl_latest_joint_pos c) as [q|] eqn:Eq.
  - destruct (fle (fsub (wk_now w) _) _); [split; [done|by eapply sound_length]|].
    by destruct (fle _ f0).
  - by destruct (fle _ f0).
Qed.

Lemma get_joint_positions_sound c0 np_sin start wakes : (0 <= cl_dof c0)%Z ->
  triple (sound c0) (get_joint_positions np_sin start wakes)
    (fun q => Z.of_nat (length q) = cl_dof c0) (fun e => e = FactrError).
Proof.
  intros Hd c Hc. unfold get_joint_positions. destruct (cl_sim c).
  - split; [done|]. destruct Hc as [(_ & Hdof & _) _]. cbn. unfold sim_positions.
    rewrite length_fmap, length_seq, Hdof. lia.
  - revert c Hc. intros c Hc. revert Hc. apply (triple_bind _ _ _ (fun _ => True)).
    + eapply triple_weaken; [apply ensure_receiver_sound|done|naive_solver].
    + intros _ _. apply joint_loop_sound.
Qed.

Lemma get_telemetry_sound c0 :
  triple (sound c0) get_telemetry (fun _ => True) (fun e => e = FactrError /\ cl_stop c0 = true).
Proof.
  intros c Hc. unfold get_telemetry. destruct (cl_sim c); [done|]. revert Hc.
  apply (triple_bind _ _ _ (fun _ => True)); [apply ensure_receiver_sound|]. intros _ _.
  apply triple_get_bind. intros s Hs. by apply triple_ret.
Qed.

Lemma wait_ws_sound c0 deadline wakes :
  triple (sound c0) (wait_ws deadline wakes) (fun _ => True) (fun e => e = FactrError).
Proof.
  induction wakes as [|w wakes IH]; intros c Hc; cbn [wait_ws]; [by destruct (cl_ws c)|].
  pose proof (IH _ (receive_all_sound c0 (wk_then w) c Hc)). destruct (cl_ws c); [done|].
  by destruct (fle _ f0).
Qed.

Lemma send_force_feedback_sound c0 start wakes io tau :
  triple (sound c0) (send_force_feedback start wakes io tau) (fun _ => True) (fun e => e = FactrError).
Proof.
  intros c Hc. unfold send_force_feedback. destruct (cl_sim c); [done|]. destruct (_ || _); [done|].
  revert Hc. apply (triple_bind _ _ _ (fun _ => True)).
  { eapply triple_weaken; [apply ensure_receiver_sound|done|naive_solver]. }
  intros _ _. apply (triple_bind _ _ _ (fun _ => True)); [apply wait_ws_sound|]. intros _ _.
  destruct io; [|by apply triple_raise]. apply triple_modify. intros d Hd. by eapply sound_keep.
Qed.

(** Waiting for the socket sends nothing and raises only [FactrError]. *)
Lemma receive_sent c ev : cl_sent (receive c ev) = cl_sent c.
Proof.
  unfold receive, reconnect, set_receiver, set_link. destruct (cl_receiver c), ev as [| |m now|]; try done.
  destruct (cl_stop c); [done|]. destruct (handle_stream_frame m now c) as [c'|e] eqn:E;
    [|by destruct (receive_catches e)].
  by apply handle_frame_cases in E as [(o & q & _ & _ & _ & _ & ->)|[t ->]].
Qed.

Lemma receive_all_sent evs c : cl_sent (receive_all evs c) = cl_sent c.
Proof.
  revert c. induction evs as [|ev evs IH]; intros c; [done|]. simpl. rewrite IH. apply receive_sent.
Qed.

Lemma wait_ws_cases deadline wakes c c' o : wait_ws deadline wakes c = (c', o) ->
  cl_sent c' = cl_sent c /\ (o = Returned tt \/ o = Raised FactrError \/ o = Running).
Proof.
  revert c. induction wakes as [|w wakes IH]; intros c; cbn [wait_ws].
  - destruct (cl_ws c); intros [= <- <-]; eauto.
  - destruct (cl_ws c); [intros [= <- <-]; eauto|]. destruct (fle _ _); [intros [= <- <-]; eauto|].
    intros [H1 H2]%IH. by rewrite receive_all_sent in H1.
Qed.

(** A torque vector is handed to the socket exactly when the call returns (outside simulation),
    and then it is finite and not empty. *)
Lemma send_force_feedback_cases start wakes io tau c c' o :
  send_force_feedback start wakes io tau c = (c', o) ->
  (o = Returned tt /\ cl_sim c = false /\ tau <> [] /\ forallb is_finite tau = true /\
     cl_sent c' = cl_sent c ++ [tau]) \/
  (o = Returned tt /\ cl_sim c = true /\ c' = c) \/
  ((o = Raised FactrError \/ o = Running) /\ cl_sent c' = cl_sent c).
Proof.
  unfold send_force_feedback. destruct (cl_sim c) eqn:Es; [intros [= <- <-]; eauto 6|].
  case_bool_decide; simpl; [intros [= <- <-]; eauto 6|].
  destruct (forallb is_finite tau) eqn:Ef; simpl; [|intros [= <- <-]; eauto 6].
  unfold mbind, st_bind. destruct (ensure_receiver c) as [c1 o1] eqn:E1.
  apply ensure_receiver_cases in E1 as [_ [(_ & -> & ->)|(_ & -> & _ & _ & _ & _ & H1 & _)]];
    [intros [= <- <-]; eauto 6|].
  destruct (wait_ws _ _ c1) as [c2 o2] eqn:E2. apply wait_ws_cases in E2 as [H2 [->|[->| ->]]];
    [|intros [= <- <-]; right; right; split; [eauto|congruence]..].
  destruct io; intros [= <- <-].
  - left. split_and!; try done. simpl. congruence.
  - right; right. split; [eauto|congruence].
Qed.

End client.

(** ** The group *)

Definition group := list (string * client).

(** One server's entry of [factr.servers]. *)
Record ServerCfg := MkServer {
  sv_host : string; sv_port : Z; sv_endpoint : string; sv_request_timeout_s : f64; sv_dof : Z;
}.

(** [endpoint.format(side=side)]: braces are doubled to stand for themselves; a field other than
    a plain [{side}] is refused here. *)
Fixpoint format_side (side : string) (s : string) : res string :=
  match s with
  | EmptyString => Ok ""
  | String "{" (String "{" s) => res_map (String "{") (format_side side s)
  | String "}" (String "}" s) => res_map (String "}") (format_side side s)
  | String "{" (String "s" (String "i" (String "d" (String "e" (String "}" s))))) =>
      res_map (fun r => side +:+ r) (format_side side s)
  | String "{" _ => Raise KeyError
  | String "}" _ => Raise ValueError
  | String c s => res_map (String c) (format_side side s)
  end.

Definition from_config (servers : list (string * ServerCfg)) (sim : bool) (now : f64) : res group :=
  mapM_res (fun '(side, s) =>
    let? endpoint := format_side side (sv_endpoint s) in
    Ok (side, server_client side (sv_host s) (sv_port s) endpoint (sv_dof s) (sv_request_timeout_s s) sim now))
    servers.

(** [self._servers[side].<method>]. *)
Definition on_server {A} (side : string) (m : ST client A) : ST group A := fun g =>
  match dget side g with
  | None => (g, Raised KeyError)
  | Some c => let r := m c in (dset side r.1 g, r.2)
  end.

(** What one leader's call sees: its start, its wake-ups, whether the socket takes the frame. *)
Record call := Call { ca_start : f64; ca_wakes : list wake; ca_io_ok : bool }.

(** The loop of [send_force_feedback] and [preflight]: every side is attempted, the ones that
    raise [FactrError] are collected. *)
Fixpoint attempt_all {A} (m : string -> ST client A) (sides : list string) : ST group (list string) :=
  match sides with
  | [] => mret []
  | side :: sides => fun g =>
      match on_server side (m side) g with
      | (g, Returned _) => attempt_all m sides g
      | (g, Raised FactrError) => (failures ← attempt_all m sides; mret (side :: failures)) g
      | (g, Raised e) => (g, Raised e)
      | (g, Running) => (g, Running)
      end
  end.

Definition raise_failures (failures : list string) : ST group unit :=
  match failures with [] => mret tt | _ => st_raise FactrError end.

(** A call that ends by returning or with [FactrError]. *)
Definition answers {A} (o : outcome A) : Prop := (exists a, o = Returned a) \/ o = Raised FactrError.

Lemma attempt_all_spec {A} (m : string -> ST client A) sides g :
  NoDup sides -> (forall side, side ∈ sides -> exists c, dget side g = Some c /\ answers (m side c).2) ->
  exists g' failures, attempt_all m sides g = (g', Returned failures) /\
    (forall side c, side ∈ sides -> dget side g = Some c ->
       dget side g' = Some (m side c).1 /\ (side ∈ failures <-> (m side c).2 = Raised FactrError)) /\
    (forall side, side ∉ sides -> dget side g' = dget side g /\ side ∉ failures).
Proof.
  revert g. induction sides as [|side sides IH]; intros g Hnd Hall.
  { exists g, []. split_and!; [done|set_solver|set_solver]. }
  apply NoDup_cons in Hnd as [Hni Hnd]. destruct (Hall side) as (c & Hc & Hans); [set_solver|].
  cbn [attempt_all]. unfold on_server. rewrite Hc.
  set (g1 := dset side (m side c).1 g).
  assert (forall x, x ≠ side -> dget x g1 = dget x g) as Hne by (intros; by apply dget_dset_ne).
  assert (dget side g1 = Some (m side c).1) as Heq by apply dget_dset_eq.
  destruct (IH g1 Hnd) as (g' & fs & E & H1 & H2).
  { intros x Hx. rewrite Hne by set_solver. apply Hall. set_solver. }
  destruct (H2 side Hni) as [Hs Hf].
  destruct Hans as [[a Ha]|Ha]; rewrite Ha.
  - exists g', fs. split_and!; [done| |].
    + intros x d Hx Hd. destruct (decide (x = side)) as [->|Hxs].
      * simplify_eq. split; [congruence|]. rewrite Ha. split; done.
      * apply H1; [set_solver|]. by rewrite Hne.
    + intros x Hx. destruct (H2 x); [set_solver|]. rewrite <-Hne by set_solver. done.
  - exists g', (side :: fs). split_and!.
    + unfold mbind, st_bind. by rewrite E.
    + intros x d Hx Hd. destruct (decide (x = side)) as [->|Hxs].
      * simplify_eq. split; [congruence|]. rewrite Ha. split; [done|set_solver].
      * destruct (H1 x d) as [H3 H4]; [set_solver|by rewrite Hne|]. split; [done|]. set_solver.
    + intros x Hx. destruct (H2 x); [set_solver|]. rewrite <-Hne by set_solver. set_solver.
Qed.

Section group_calls.
Context (float_of_str : string -> option f64) (np_sin : f64 -> f64).

Definition get_joint_positions_for (side : string) (k : call) : ST group (list f64) :=
  on_server side (get_joint_positions float_of_str np_sin (ca_start k) (ca_wakes k)).

Definition get_telemetry_for (side : string) : ST group (option (Z * list (string * json))) :=
  on_server side get_telemetry.

Definition get_status_for (side : string) (reply : res (Z * res json)) : ST group (list (string * json)) :=
  on_server side (get_status reply).

Definition send_force_feedback_for (side : string) (k : call) (tau : list f64) : ST group unit :=
  on_server side (send_force_feedback float_of_str (ca_start k) (ca_wakes k) (ca_io_ok k) tau).

(** [FactrClient.get_joint_positions]: the first failure ends the comprehension. *)
Fixpoint get_all_positions (calls : string -> call) (sides : list string) :
    ST group (list (string * list f64)) :=
  match sides with
  | [] => mret []
  | side :: sides =>
      q ← get_joint_positions_for side (calls side);
      rest ← get_all_positions calls sides;
      mret ((side, q) :: rest)
  end.

(** [FactrClient.send_force_feedback]. *)
Definition send_all_feedback (calls : string -> call) (taus : list (string * list f64)) : ST group unit :=
  failures ← attempt_all (fun side => send_force_feedback float_of_str (ca_start (calls side)) (ca_wakes (calls side))
                                        (ca_io_ok (calls side)) (default [] (dget side taus))) (dkeys taus);
  raise_failures failures.

Definition leaders_preflight (calls : string -> call) : ST group unit := fun g =>
  (failures ← attempt_all (fun side => get_joint_positions float_of_str np_sin (ca_start (calls side)) (ca_wakes (calls side)))
                (dkeys g);
   raise_failures failures) g.

Definition close_all (evs : string -> list net) (g : group) : group :=
  (fun x => (x.1, close float_of_str (evs x.1) x.2)) <$> g.
End group_calls.

(** ** Theorems *)

(** a call for the leader's positions, outside simulation, either returns a vector of exactly
    [dof] numbers that is the content of a reading frame of this leader among the frames received
    so far, at most [timeout_s] old when it is returned; or raises [FactrError], and only when the
    client is closed or its deadline has passed; or is still waiting, and then every clock read so
    far is before the deadline. *)
Theorem reading_is_fresh (np_sin : f64 -> f64) (fos : string -> option f64) (h : list net)
    (c c' : client) (start : f64) (wakes : list wake) (o : outcome (list f64))
    (Hc : cached fos h c) (Hsim : cl_sim c = false)
    (Hrun : get_joint_positions fos np_sin start wakes c = (c', o)) :
  match o with
  | Returned q =>
      Z.of_nat (length q) = cl_dof c /\
      exists t now ev, now ∈ wk_now <$> wakes /\ ev ∈ h ++ (wakes ≫= wk_then) /\
        reading_of fos c q t ev /\ fle (fsub now t) (cl_timeout_s c) = true
  | Raised e =>
      e = FactrError /\
      (cl_stop c = true \/
       exists now, now ∈ wk_now <$> wakes /\ fle (fsub (fadd start (cl_timeout_s c)) now) f0 = true)
  | Running => Forall (fun w => fle (fsub (fadd start (cl_timeout_s c)) (wk_now w)) f0 = false) wakes
  end.
Proof.
  unfold get_joint_positions in Hrun. rewrite Hsim in Hrun. unfold mbind, st_bind in Hrun.
  destruct (ensure_receiver c) as [c1 o1] eqn:E1.
  apply ensure_receiver_cases in E1 as [Hs [(Hst & -> & ->)|(_ & -> & H1 & H2 & _)]].
  { injection Hrun as <- <-. eauto. }
  assert (cached fos h c1) as Hc1 by by eapply cached_keep.
  apply (joint_loop_spec _ _ _ h c1) in Hrun as [_ Ho]; [|done].
  destruct o as [q|e|]; [|destruct Ho as (-> & Ho); eauto|done].
  destruct Ho as (t & now & ev & Hn & Hin & Hr & Hf). apply (reading_static _ c1 c) in Hr;
    [|unfold same_server in *; intuition congruence].
  destruct Hs as (_ & _ & Ht & _). rewrite Ht in Hf. split; [|by exists t, now, ev].
  destruct Hr as (ob & _ & _ & _ & Hp). by eapply parse_length.
Qed.

Definition demo_reading : json :=
  Obj [("type", jstr "reading"); ("side", jstr "left"); ("joint_pos", Arr [jfloat f1; jint 2])].
Definition demo_client : client :=
  server_client "left" "localhost" 5000 "ws/left" 2 f1 false f0.
Definition demo_wakes : list wake := [Wake f0 [NConnected; NMessage (Ok demo_reading) (fdec 1 2)]; Wake (fdec 3 4) []].

Lemma reading_is_fresh_witness : exists c',
  get_joint_positions (fun _ => None) (fun x => x) f0 demo_wakes demo_client = (c', Returned [f1; f_of_Z 2]) /\
  Z.of_nat (length [f1; f_of_Z 2]) = cl_dof demo_client.
Proof.
  eexists. split; [vm_compute; reflexivity|].
  refine (proj1 (reading_is_fresh (fun x => x) (fun _ => None) [] demo_client _ f0 demo_wakes
                   (Returned [f1; f_of_Z 2]) _ eq_refl _)).
  - intros q Hq. discriminate Hq.
  - vm_compute. reflexivity.
Defined.

(** pushing feedback to several leaders attempts every one of them: whatever the others do,
    each listed leader's client ends in the state its own send leaves, so each torque vector whose
    own send succeeds is on its socket; unlisted leaders are untouched; and the call raises
    [FactrError] exactly when some leader's send did. *)
Theorem feedback_reaches_all (fos : string -> option f64) (calls : string -> call)
    (taus : list (string * list f64)) (g : group)
    (send := fun side tau => send_force_feedback fos (ca_start (calls side)) (ca_wakes (calls side))
               (ca_io_ok (calls side)) tau)
    (Hnd : NoDup (dkeys taus))
    (Hall : forall side tau, (side, tau) ∈ taus ->
       exists c, dget side g = Some c /\ (send side tau c).2 <> Running) :
  exists g' o, send_all_feedback fos calls taus g = (g', o) /\
    (forall side tau c, (side, tau) ∈ taus -> dget side g = Some c -> dget side g' = Some (send side tau c).1) /\
    (forall side, side ∉ dkeys taus -> dget side g' = dget side g) /\
    ((o = Returned tt /\ (forall side tau c, (side, tau) ∈ taus -> dget side g = Some c ->
        (send side tau c).2 = Returned tt)) \/
     (o = Raised FactrError /\ exists side tau c, (side, tau) ∈ taus /\ dget side g = Some c /\
        (send side tau c).2 = Raised FactrError)).
Proof.
  assert (forall side tau c, (send side tau c).2 <> Running -> answers (send side tau c).2) as Hans.
  { intros side tau c Hr. destruct (send side tau c) as [c' o] eqn:E. unfold answers.
    apply send_force_feedback_cases in E as [(-> & _)|[(-> & _)|[[->| ->] _]]]; eauto. done. }
  assert (forall side tau, (side, tau) ∈ taus -> dget side taus = Some tau) as Hget.
  { intros side tau Hin. by apply dget_NoDup. }
  unfold send_all_feedback, mbind, st_bind.
  set (m := fun side => send_force_feedback _ _ _ _ _).
  destruct (attempt_all_spec m (dkeys taus) g) as (g' & fs & E & H1 & H2); [done| |].
  { intros side ((x, tau) & -> & Hin)%list_elem_of_fmap. destruct (Hall _ _ Hin) as (c & Hc & Hr).
    exists c. split; [done|]. unfold m. cbn [fst]. rewrite (Hget _ _ Hin). by apply Hans. }
  rewrite E.
  assert (forall side tau, (side, tau) ∈ taus -> m side = send side tau) as Hm.
  { intros side tau Hin. unfold m. by rewrite (Hget _ _ Hin). }
  assert (forall side tau, (side, tau) ∈ taus -> side ∈ dkeys taus) as Hkey.
  { intros side tau Hin. by apply (list_elem_of_fmap_2 fst) in Hin. }
  exists g', (raise_failures fs g').2. split_and!.
  - by destruct fs.
  - intros side tau c Hin Hc. rewrite <-(Hm _ _ Hin). by apply H1; eauto.
  - intros side Hni. by apply H2.
  - destruct fs as [|side fs].
    + left. split; [done|]. intros side tau c Hin Hc. destruct (Hall _ _ Hin) as (d & Hd & Hr).
      simplify_eq. destruct (Hans _ _ _ Hr) as [[[] ?]|Hf]; [done|]. exfalso.
      rewrite <-(Hm _ _ Hin) in Hf. apply (H1 side c (Hkey _ _ Hin) Hc) in Hf. set_solver.
    + right. split; [done|]. destruct (decide (side ∈ dkeys taus)) as [Hk|Hk]; [|by destruct (H2 side Hk); set_solver].
      apply list_elem_of_fmap in Hk as ((x, tau) & -> & Hin). destruct (Hall _ _ Hin) as (d & Hd & Hr).
      exists x, tau, d. split_and!; [done..|]. rewrite <-(Hm _ _ Hin). apply (H1 x d); [eauto|done|set_solver].
Qed.

Definition demo_group : group :=
  [("left", demo_client); ("right", server_client "right" "localhost" 5001 "ws/right" 2 f1 false f0)].
Definition demo_calls (side : string) : call :=
  if bool_decide (side = "left") then Call f0 [Wake f0 [NFailed]; Wake f1 []] true
  else Call f0 [Wake f0 [NConnected]] true.

(** The left leader refuses the connection; the right one still gets its torque. *)
Lemma feedback_reaches_all_witness : exists g',
  send_all_feedback (fun _ => None) demo_calls [("left", [f1]); ("right", [f1])] demo_group =
    (g', Raised FactrError) /\ cl_sent <$> dget "right" g' = Some [[f1]].
Proof.
  destruct (feedback_reaches_all (fun _ => None) demo_calls [("left", [f1]); ("right", [f1])]
    demo_group) as (g' & o & E & H1 & _ & Ho).
  - apply (bool_decide_unpack _). vm_compute. exact I.
  - intros side tau [[= -> ->]|[[= -> ->]|[]%not_elem_of_nil]%elem_of_cons]%elem_of_cons;
      (eexists; split; [reflexivity|vm_compute; discriminate]).
  - exists g'. split.
    + rewrite E. f_equal. destruct Ho as [[_ Ho]|[-> _]]; [|done].
      specialize (Ho "left" [f1] demo_client (list_elem_of_here _ _) eq_refl). vm_compute in Ho. discriminate Ho.
    + rewrite (H1 "right" [f1] (server_client "right" "localhost" 5001 "ws/right" 2 f1 false f0));
        [vm_compute; reflexivity|set_solver|reflexivity].
Defined.
