(* ===== verification/FactrNode.v ===== *)
(** * The FACTR leader producer

    Models [interfaces/factr/interface.py] ([FactrInterface]).  The node samples each leader's
    client, converts the joints once, publishes raw, converted and telemetry streams, and carries
    the followers' external torque back to the leaders.  One [poll] sees one [side_obs] per leader:
    what the clients' waits observe and the shared memory the feedback readers look at. *)

From Stdlib Require Import Ascii String.
From S2P Require Import Prelude Float64 Ring Streams Text Convention Process Session Json FactrClient.
Local Open Scope string_scope.
Local Open Scope nat_scope.
Local Open Scope list_scope.

Record FactrCfg := MkFactrCfg {
  fc_servers : list (string * ServerCfg);
  fc_leaders : list (string * JointConventionCfg f64);     (* leaders.<side>.raw_to_dfc *)
  fc_rate_hz : f64;
  fc_max_age_s : f64;
}.

Record leader_node := FNode {
  fn_cfg : FactrCfg;
  fn_sim : bool;
  fn_client : option group;
  fn_conventions : list (string * JointConventionCfg f64);
  fn_telemetry_versions : list (string * Z);
  fn_registry : option registry;
  fn_readers : list (string * StreamReader);
  fn_last_seq : list (string * Z);
  fn_feedback_errored : list string;
  fn_errored : list string;
}.

(** [FactrInterface.__init__]. *)
Definition factr_interface (cfg : FactrCfg) (sim : bool) : leader_node :=
  FNode cfg sim None [] [] None [] [] [] [].

Definition with_client (g : option group) (n : leader_node) : leader_node :=
  FNode (fn_cfg n) (fn_sim n) g (fn_conventions n) (fn_telemetry_versions n) (fn_registry n)
    (fn_readers n) (fn_last_seq n) (fn_feedback_errored n) (fn_errored n).
Definition with_conventions (cs : list (string * JointConventionCfg f64)) (n : leader_node) : leader_node :=
  FNode (fn_cfg n) (fn_sim n) (fn_client n) cs (fn_telemetry_versions n) (fn_registry n)
    (fn_readers n) (fn_last_seq n) (fn_feedback_errored n) (fn_errored n).
Definition with_versions (vs : list (string * Z)) (n : leader_node) : leader_node :=
  FNode (fn_cfg n) (fn_sim n) (fn_client n) (fn_conventions n) vs (fn_registry n)
    (fn_readers n) (fn_last_seq n) (fn_feedback_errored n) (fn_errored n).
Definition with_feedback (reg : option registry) (rds : list (string * StreamReader))
    (seqs : list (string * Z)) (errs : list string) (n : leader_node) : leader_node :=
  FNode (fn_cfg n) (fn_sim n) (fn_client n) (fn_conventions n) (fn_telemetry_versions n) reg
    rds seqs errs (fn_errored n).
Definition with_errored (errs : list string) (n : leader_node) : leader_node :=
  FNode (fn_cfg n) (fn_sim n) (fn_client n) (fn_conventions n) (fn_telemetry_versions n) (fn_registry n)
    (fn_readers n) (fn_last_seq n) (fn_feedback_errored n) errs.

(** [s.add(x)] and [s.discard(x)]. *)
Definition set_add (x : string) (s : list string) : list string :=
  if bool_decide (x ∈ s) then s else x :: s.
Definition set_discard (x : string) (s : list string) : list string := filter (fun y => y <> x) s.

(** ** Streams *)

Definition factr_spec (cfg : FactrCfg) (name : string) (d : Z) : StreamSpec :=
  MkSpec name d 4096 "float64" (Some (fc_rate_hz cfg)).

Definition factr_side_specs (cfg : FactrCfg) (side : string) (s : ServerCfg) : list StreamSpec :=
  (factr_spec cfg (factr_stream_name side) (sv_dof s) ::
   factr_spec cfg (raw_factr_stream_name side) (sv_dof s) ::
   ((fun f => factr_spec cfg (factr_telemetry_stream_name side f) (sv_dof s - 1)) <$> TELEMETRY_VECTOR_FIELDS) ++
   ((fun f => factr_spec cfg (factr_telemetry_stream_name side f) 1) <$> TELEMETRY_SCALAR_FIELDS)).

Definition factr_declare_streams (cfg : FactrCfg) : res (list StreamSpec) :=
  mapM_res stream_spec (fc_servers cfg ≫= (fun x => factr_side_specs cfg x.1 x.2)).

(** ** The convention *)

Definition validate_convention (dof : Z) (conv : JointConventionCfg f64) : res (JointConventionCfg f64) :=
  let drop := drop_trailing conv in
  let arm_dof := (dof - drop)%Z in
  let offsets := offsets_deg conv in
  let flips := sign_flip_joints conv in
  if (drop <? 1)%Z || (arm_dof <=? 0)%Z || negb (Z.of_nat (length offsets) =? arm_dof)%Z
  then Raise RuntimeError
  else if negb (bool_decide (NoDup flips)) || existsb (fun i => (i <? 0)%Z || (arm_dof <=? i)%Z) flips
  then Raise RuntimeError
  else
    match gripper_open conv, gripper_closed conv with
    | Some opened, Some closed =>
        if negb (forallb is_finite (offsets ++ [opened; closed])) || feq opened closed
        then Raise RuntimeError
        else Ok (Convention offsets flips drop (Some opened) (Some closed))
    | _, _ => Raise RuntimeError
    end.

(** The loop of [open_source]: conventions set before a failure stay set. *)
Fixpoint load_conventions (servers : list (string * ServerCfg)) : ST leader_node unit :=
  match servers with
  | [] => mret tt
  | (side, s) :: servers =>
      n ← st_get;
      conv ← st_lift (let? leader := of_option RuntimeError (dget side (fc_leaders (fn_cfg n))) in
                      validate_convention (sv_dof s) leader);
      st_modify (fun n => with_conventions (dset side conv (fn_conventions n)) n);;
      load_conventions servers
  end.

Definition factr_open_source (reg : registry) (now : f64) : ST leader_node unit :=
  n ← st_get;
  g ← st_lift (from_config (fc_servers (fn_cfg n)) (fn_sim n) now);
  st_modify (fun n => with_feedback (Some reg) (fn_readers n) (fn_last_seq n) (fn_feedback_errored n)
                        (with_client (Some g) n));;
  load_conventions (fc_servers (fn_cfg n)).

(** ** Polling *)

Section poll.
Context (float_of_str : string -> option f64) (np_sin : f64 -> f64).

(** What one pass over a leader sees. *)
Record side_obs := SideObs {
  so_read : call;          (* the wait for its positions *)
  so_world : world;        (* the manifests and segments the feedback reader looks at *)
  so_now_ns : Z;
  so_send : call;          (* the send of the feedback *)
}.

(** A method of the client: it is set while the node is open. *)
Definition on_client {A} (m : ST group A) : ST leader_node A := fun n =>
  match fn_client n with
  | None => (n, Raised OtherError)
  | Some g => let r := m g in (with_client (Some r.1) n, r.2)
  end.

Fixpoint parse_vectors (side : string) (arm_dof : Z) (t : list (string * json)) (fields : list string)
    (parsed : list (string * list f64)) : res (list (string * list f64)) :=
  match fields with
  | [] => Ok parsed
  | f :: fields =>
      let? v := of_option KeyError (dget f t) in
      let? a := asarray float_of_str v in
      if negb (bool_decide (Z.of_nat <$> shape a = [arm_dof])) || negb (forallb is_finite (data a))
      then Raise ValueError
      else parse_vectors side arm_dof t fields (dset (factr_telemetry_stream_name side f) (data a) parsed)
  end.

Fixpoint parse_scalars (side : string) (t : list (string * json)) (fields : list string)
    (parsed : list (string * list f64)) : res (list (string * list f64)) :=
  match fields with
  | [] => Ok parsed
  | f :: fields =>
      let? v := of_option KeyError (dget f t) in
      let? x := jfloat_of float_of_str v in
      if negb (is_finite x) then Raise ValueError
      else parse_scalars side t fields (dset (factr_telemetry_stream_name side f) [x] parsed)
  end.

(** The body of the [try]. *)
Definition parse_telemetry (side : string) (arm_dof : Z) (t : list (string * json)) :
    res (list (string * list f64)) :=
  let? parsed := parse_vectors side arm_dof t TELEMETRY_VECTOR_FIELDS [] in
  parse_scalars side t TELEMETRY_SCALAR_FIELDS parsed.

Definition dict_update (d e : list (string * list f64)) : list (string * list f64) :=
  foldl (fun d x => dset x.1 x.2 d) d e.

(** [_append_telemetry]: the sample it leaves. *)
Definition append_telemetry (side : string) (sample : list (string * list f64)) :
    ST leader_node (list (string * list f64)) :=
  cached ← on_client (get_telemetry_for side);
  match cached with
  | None => mret sample
  | Some (version, t) =>
      n ← st_get;
      if bool_decide (dget side (fn_telemetry_versions n) = Some version) then mret sample
      else
        server ← st_lift (of_option KeyError (dget side (fc_servers (fn_cfg n))));
        let seen := st_modify (with_versions (dset side version (fn_telemetry_versions n))) in
        match parse_telemetry side (sv_dof server - 1) t with
        | Ok parsed => seen;; mret (dict_update sample parsed)
        | Raise (KeyError | TypeError | ValueError) => seen;; mret sample
        | Raise e => st_raise e
        end
  end.

(** The feedback reader of [side], attached on first use; [None]: nothing to read yet. *)
Definition feedback_reader (reg : registry) (side : string) (w : world) : ST leader_node (option StreamReader) :=
  n ← st_get;
  match dget side (fn_readers n) with
  | Some rd => mret (Some rd)
  | None =>
      entry ← st_lift (reg_get w reg (stream_name side "tau_ext"));
      match entry with
      | None => mret None
      | Some e =>
          match reader_attach w e with
          | Ok rd =>
              st_modify (with_feedback (fn_registry n) (dset side rd (fn_readers n)) (fn_last_seq n)
                           (fn_feedback_errored n));;
              mret (Some rd)
          | Raise FileNotFoundError => mret None
          | Raise e => st_raise e
          end
      end
  end.

Definition max_age_ns (cfg : FactrCfg) : res Z :=
  of_option (if is_nan (fc_max_age_s cfg) then ValueError else OverflowError)
    (f_trunc (fmul (fc_max_age_s cfg) (f_of_Z 1000000000))).

(** The fresh, unsent sample of an attached reader: its sequence number and torques. *)
Definition pending_feedback (n : leader_node) (side : string) (s : samples f64) (now_ns : Z) :
    res (option (Z * list f64)) :=
  match newest s, newest_t_ns s, list.last (s_seq s) with
  | Some v, Some t, Some seq =>
      let? age := max_age_ns (fn_cfg n) in
      if (age <? now_ns - t)%Z then Ok None
      else if bool_decide (dget side (fn_last_seq n) = Some seq) then Ok None
      else Ok (Some (seq, v))
  | _, _, _ => Ok None
  end.

(** The send and its bookkeeping. *)
Definition deliver_feedback (side : string) (k : call) (seq : Z) (v : list f64) : ST leader_node unit :=
  try_except
    (on_client (send_force_feedback_for float_of_str side k (fopp <$> v));;
     st_modify (fun n => with_feedback (fn_registry n) (fn_readers n) (dset side seq (fn_last_seq n))
                           (set_discard side (fn_feedback_errored n)) n))
    (fun e => match e with
              | FactrError => Some (st_modify (fun n => with_feedback (fn_registry n) (fn_readers n)
                                      (fn_last_seq n) (set_add side (fn_feedback_errored n)) n))
              | _ => None
              end).

(** [_forward_force_feedback]. *)
Definition forward_force_feedback (side : string) (o : side_obs) : ST leader_node unit :=
  n ← st_get;
  match fn_registry n with
  | Some reg =>
      if fn_sim n || bool_decide (fn_client n = None :> option group) then mret tt
      else
        rd ← feedback_reader reg side (so_world o);
        match rd with
        | None => mret tt
        | Some rd =>
            match reader_last (so_world o) rd 1 with
            | Raise (FileNotFoundError | ValueError) =>
                st_modify (fun n => with_feedback (fn_registry n) (ddel side (fn_readers n))
                                      (ddel side (fn_last_seq n)) (fn_feedback_errored n) n)
            | Raise e => st_raise e
            | Ok s =>
                n ← st_get;
                p ← st_lift (pending_feedback n side s (so_now_ns o));
                match p with
                | None => mret tt
                | Some (seq, v) => deliver_feedback side (so_send o) seq v
                end
            end
        end
  | None => mret tt
  end.

(** [get_joint_positions_for] and the outage bookkeeping; [None]: the leader is unreachable. *)
Definition poll_positions (side : string) (k : call) : ST leader_node (option (list f64)) :=
  try_except
    (jp ← on_client (get_joint_positions_for float_of_str np_sin side k);
     st_modify (fun n => with_errored (set_discard side (fn_errored n)) n);;
     mret (Some jp))
    (fun e => match e with
              | FactrError => Some (st_modify (fun n => with_errored (set_add side (fn_errored n)) n);; mret None)
              | _ => None
              end).

(** The two vectors published for a reading. *)
Definition convert_reading (n : leader_node) (side : string) (jp : list f64) : res (list f64) :=
  let? conv := of_option KeyError (dget side (fn_conventions n)) in
  let? q_dfc := convert_factr_to_rizon jp conv in
  let? raw_gripper := of_option IndexError (list.last jp) in
  Ok (q_dfc ++ [normalize_gripper raw_gripper conv]).

Definition poll_side (side : string) (o : side_obs) (sample : list (string * list f64)) :
    ST leader_node (list (string * list f64)) :=
  r ← poll_positions side (so_read o);
  match r with
  | None => mret sample
  | Some jp =>
      n ← st_get;
      converted ← st_lift (convert_reading n side jp);
      sample ← append_telemetry side
                 (dset (factr_stream_name side) converted (dset (raw_factr_stream_name side) jp sample));
      forward_force_feedback side o;;
      mret sample
  end.

Fixpoint poll_sides (obs : string -> side_obs) (sides : list string) (sample : list (string * list f64)) :
    ST leader_node (list (string * list f64)) :=
  match sides with
  | [] => mret sample
  | side :: sides => sample ← poll_side side (obs side) sample; poll_sides obs sides sample
  end.

(** [poll]: [sample or None]. *)
Definition poll (obs : string -> side_obs) : ST leader_node (option (list (string * list f64))) :=
  n ← st_get;
  g ← st_lift (of_option OtherError (fn_client n));
  sample ← poll_sides obs (dkeys g) [];
  mret (match sample with [] => None | _ => Some sample end).

(** [close_source]: the node, and the clients it closed and dropped. *)
Definition factr_close_source (evs : string -> list net) (n : leader_node) : leader_node * option group :=
  (with_feedback None [] [] (fn_feedback_errored n) (with_client None n),
   close_all float_of_str evs <$> fn_client n).

(** ** Conversion *)

Lemma flip_all_length (l : list f64) js :
  Forall (fun j => (0 <= j < Z.of_nat (length l))%Z) js ->
  exists l', foldM_res (fun d j => py_update fopp d j) js l = Ok l' /\ length l' = length l.
Proof.
  revert l. induction js as [|j js IH]; intros l Hj; cbn [foldM_res]; [by exists l|].
  apply Forall_cons in Hj as [Hj Hjs]. unfold py_update at 1.
  replace ((j <? 0)%Z) with false by lia. replace (_ || _) with false by lia. cbn [res_bind].
  destruct (IH (alter fopp (Z.to_nat j) l)) as (l' & E & Hl); [by rewrite length_alter|].
  exists l'. by rewrite E, Hl, length_alter.
Qed.

Record convention_ok (dof : Z) (conv : JointConventionCfg f64) : Prop := {
  co_drop : (1 <= drop_trailing conv)%Z;
  co_arm : (0 < dof - drop_trailing conv)%Z;
  co_offsets : Z.of_nat (length (offsets_deg conv)) = (dof - drop_trailing conv)%Z;
  co_flips : Forall (fun j => (0 <= j < dof - drop_trailing conv)%Z) (sign_flip_joints conv);
}.

Lemma validate_convention_ok dof conv conv' : validate_convention dof conv = Ok conv' -> conv' = conv /\ convention_ok dof conv.
Proof.
  unfold validate_convention.
  destruct (_ || _ || _) eqn:E1; [done|]. destruct (_ || existsb _ _) eqn:E2; [done|].
  apply orb_false_iff in E1 as [[E1a E1b]%orb_false_iff E1c].
  apply orb_false_iff in E2 as [_ E2].
  destruct conv as [off fl dr [op|] [cl|]]; cbn in *; try done.
  destruct (_ || _); [done|]. intros [= <-]. split; [done|]. constructor; cbn; try lia.
  apply Forall_forall. intros j Hj. destruct (decide (0 <= j < dof - dr)%Z); [done|]. exfalso.
  assert (existsb (fun i => (i <? 0)%Z || (dof - dr <=? i)%Z) fl = true); [|congruence].
  apply existsb_exists. exists j. split; [by apply list_elem_of_In|lia].
Qed.

(** A validated convention converts every reading of [dof] values, to one value per arm joint. *)
Lemma convert_length dof conv jp : convention_ok dof conv -> Z.of_nat (length jp) = dof ->
  exists q, convert_factr_to_rizon jp conv = Ok q /\ Z.of_nat (length q) = (dof - drop_trailing conv)%Z.
Proof.
  intros [H1 H2 H3 H4] Hjp. unfold convert_factr_to_rizon, convert_deg, drop_gripper, py_upto.
  replace (drop_trailing conv =? 0)%Z with false by lia.
  replace (Z.of_nat (length jp) - drop_trailing conv <? 0)%Z with false by lia.
  set (q := take _ jp). assert (length q = Z.to_nat (dof - drop_trailing conv)) as Hq.
  { unfold q. rewrite length_take. lia. }
  unfold vec_add. rewrite length_fmap, length_take.
  assert (length q = length q `min` length (offsets_deg conv)) as Hm by lia.
  rewrite <-Hm, Nat.eqb_refl. cbn [res_bind].
  set (d := zip_with nadd _ _). assert (length d = length q) as Hd.
  { unfold d. rewrite length_zip_with, length_fmap, length_take. lia. }
  destruct (flip_all_length d (sign_flip_joints conv)) as (l & E & Hl).
  { eapply Forall_impl; [exact H4|]. cbn. lia. }
  change (@nneg f64 _) with fopp. rewrite E. cbn [res_bind res_map]. eexists. split; [done|].
  rewrite !length_fmap. lia.
Qed.

(** ** What a poll publishes *)

Section opened.
Context (cfg : FactrCfg) (convs : list (string * JointConventionCfg f64)) (ks : list string).

(** A leader's client and calibration agree with its server entry; the gripper is the one
    trailing value. *)
Definition leader (side : string) (c : client) : Prop :=
  cl_stop c = false /\ (exists h, cached float_of_str h c) /\
  exists s conv, dget side (fc_servers cfg) = Some s /\ cl_dof c = sv_dof s /\
    dget side convs = Some conv /\ convention_ok (sv_dof s) conv /\ drop_trailing conv = 1%Z.

Definition opened (n : leader_node) : Prop :=
  fn_cfg n = cfg /\ fn_conventions n = convs /\
  exists g, fn_client n = Some g /\ dkeys g = ks /\ forall side c, dget side g = Some c -> leader side c.

(** Some declared stream has this name and this length. *)
Definition fits (name : string) (v : list f64) : Prop :=
  exists s, s ∈ (fc_servers cfg ≫= (fun x => factr_side_specs cfg x.1 x.2)) /\
    sp_name s = name /\ sp_dim s = Z.of_nat (length v).

Definition all_fit (sample : list (string * list f64)) : Prop := Forall (fun x => fits x.1 x.2) sample.

Lemma fits_side side s name v d : dget side (fc_servers cfg) = Some s ->
  factr_spec cfg name d ∈ factr_side_specs cfg side s -> d = Z.of_nat (length v) -> fits name v.
Proof.
  intros Hs%dget_In Hin ->. exists (factr_spec cfg name (Z.of_nat (length v))).
  split_and!; [|done|done]. apply list_elem_of_bind. by exists (side, s).
Qed.

Lemma all_fit_dset name v sample : fits name v -> all_fit sample -> all_fit (dset name v sample).
Proof.
  intros Hv. induction 1 as [|[n w] l Hw Hl IH]; simpl; [by apply Forall_singleton|].
  destruct (decide _) as [->|]; by constructor.
Qed.

Lemma all_fit_update d e : all_fit d -> all_fit e -> all_fit (dict_update d e).
Proof.
  intros Hd He. revert d Hd. induction He as [|[n w] l Hw Hl IH]; intros d Hd; [done|].
  apply IH. by apply all_fit_dset.
Qed.

(** A method of one leader's client keeps the node open. *)
Lemma on_client_opened {A} side (m : ST client A) Q E :
  side ∈ ks -> (forall c, leader side c -> triple (sound float_of_str c) m Q E) ->
  triple opened (on_client (on_server side m)) Q E.
Proof.
  intros Hk Hm n (Hcfg & Hcv & g & Hg & Hks & Hl). unfold on_client. rewrite Hg. unfold on_server.
  destruct (dget side g) as [c|] eqn:Ec; [|apply dget_None in Ec; congruence].
  pose proof (Hl side c Ec) as Hc. destruct (Hm c Hc c) as [Hs Ho].
  { split; [done|]. by destruct Hc as (_ & Hh & _). }
  split; [|done]. split_and!; [done..|]. exists (dset side (m c).1 g). split; [done|]. split.
  { rewrite dkeys_dset_mem; [done|]. by eapply dget_key. }
  intros x d. destruct (decide (x = side)) as [->|Hne]; [|rewrite dget_dset_ne by done; apply Hl].
  rewrite dget_dset_eq. intros [= <-]. destruct Hs as [(Hs1 & Hs2 & _ & _ & Hs5) Hh].
  destruct Hc as (Hc1 & _ & s & conv & Hc2). split_and!; [congruence|done|]. exists s, conv.
  rewrite Hs2. done.
Qed.

(** Anything but the client, the configuration and the conventions may change. *)
Lemma opened_keep n n' : opened n -> fn_cfg n' = fn_cfg n -> fn_conventions n' = fn_conventions n ->
  fn_client n' = fn_client n -> opened n'.
Proof. unfold opened. intros (H1 & H2 & H3) -> -> ->. done. Qed.

Lemma poll_positions_opened side k : side ∈ ks ->
  triple opened (poll_positions side k)
    (fun r => forall jp, r = Some jp -> exists s, dget side (fc_servers cfg) = Some s /\
                Z.of_nat (length jp) = sv_dof s) (fun _ => False).
Proof.
  intros Hk. apply (triple_try_except _ _ _ _ (fun e => e = FactrError)).
  - apply (triple_bind _ _ _ (fun jp => exists s, dget side (fc_servers cfg) = Some s /\
                Z.of_nat (length jp) = sv_dof s)).
    + apply on_client_opened; [done|]. intros c (_ & _ & s & conv & Hs & Hd & _ & Hok & _).
      eapply triple_weaken; [apply get_joint_positions_sound| |done].
      * destruct Hok. lia.
      * intros q Hq. exists s. split; [done|congruence].
    + intros jp Hjp. apply (triple_bind _ _ _ (fun _ => True)).
      { apply triple_modify. intros n Hn. by eapply opened_keep. }
      intros _ _. apply triple_ret. by intros ? [= <-].
  - intros e ->. apply (triple_bind _ _ _ (fun _ => True)).
    { apply triple_modify. intros n Hn. by eapply opened_keep. }
    intros _ _. by apply triple_ret.
Qed.

(** A reading that is as long as its server says is converted to the same length. *)
Lemma convert_reading_opened n side jp s c g : opened n -> fn_client n = Some g -> dget side g = Some c ->
  dget side (fc_servers cfg) = Some s -> Z.of_nat (length jp) = sv_dof s ->
  exists v, convert_reading n side jp = Ok v /\ length v = length jp.
Proof.
  intros (_ & Hcv & g' & Hg' & _ & Hl) Hg Hc Hs Hjp. simplify_eq.
  destruct (Hl side c Hc) as (_ & _ & s' & conv & Hs' & _ & Hconv & Hok & Hdrop). simplify_eq.
  unfold convert_reading. rewrite ?Hcv, Hconv. cbn [of_option res_bind].
  destruct (convert_length (sv_dof s) conv jp Hok Hjp) as (q & -> & Hq). cbn [res_bind].
  destruct (list.last jp) as [x|] eqn:El.
  - eexists. split; [done|]. rewrite length_app. cbn. lia.
  - apply last_None in El as ->. destruct Hok. simpl in *. lia.
Qed.

Lemma parse_vectors_fit side s t fields parsed : dget side (fc_servers cfg) = Some s ->
  fields ⊆ TELEMETRY_VECTOR_FIELDS -> all_fit parsed ->
  match parse_vectors side (sv_dof s - 1) t fields parsed with
  | Ok p => all_fit p
  | Raise e => e = KeyError \/ e = TypeError \/ e = ValueError \/ e = OverflowError
  end.
Proof.
  intros Hs. revert parsed. induction fields as [|f fields IH]; intros parsed Hf Hp; cbn [parse_vectors]; [done|].
  destruct (dget f t) as [v|]; cbn [of_option res_bind]; [|eauto].
  destruct (asarray float_of_str v) as [a|e] eqn:Ea; cbn [res_bind]; [|by eapply asarray_errors].
  case_bool_decide as Hsh; simpl; [|eauto]. destruct (forallb _ _); simpl; [|eauto].
  apply IH; [set_solver|]. apply all_fit_dset; [|done].
  eapply (fits_side side s _ _ (sv_dof s - 1)); [done| |].
  - unfold factr_side_specs. do 2 apply list_elem_of_further. apply elem_of_app. left.
    apply (list_elem_of_fmap_2 (fun f => factr_spec cfg (factr_telemetry_stream_name side f) (sv_dof s - 1))).
    set_solver.
  - apply asarray_wf in Ea. unfold nd_wf in Ea. rewrite Ea.
    destruct (shape a) as [|k [|j l]]; simplify_eq/=. unfold size. simpl. lia.
Qed.

Lemma parse_scalars_fit side s t fields parsed : dget side (fc_servers cfg) = Some s ->
  fields ⊆ TELEMETRY_SCALAR_FIELDS -> all_fit parsed ->
  match parse_scalars side t fields parsed with
  | Ok p => all_fit p
  | Raise e => e = KeyError \/ e = TypeError \/ e = ValueError \/ e = OverflowError
  end.
Proof.
  intros Hs. revert parsed. induction fields as [|f fields IH]; intros parsed Hf Hp; cbn [parse_scalars]; [done|].
  destruct (dget f t) as [v|]; cbn [of_option res_bind]; [|eauto].
  destruct (jfloat_of float_of_str v) as [x|e] eqn:Ex; cbn [res_bind]; [|by eapply jfloat_of_errors].
  destruct (is_finite x); simpl; [|eauto]. apply IH; [set_solver|]. apply all_fit_dset; [|done].
  eapply (fits_side side s _ _ 1); [done| |done].
  unfold factr_side_specs. do 2 apply list_elem_of_further. apply elem_of_app. right.
  apply (list_elem_of_fmap_2 (fun f => factr_spec cfg (factr_telemetry_stream_name side f) 1)). set_solver.
Qed.

Lemma parse_telemetry_fit side s t : dget side (fc_servers cfg) = Some s ->
  match parse_telemetry side (sv_dof s - 1) t with
  | Ok p => all_fit p
  | Raise e => e = KeyError \/ e = TypeError \/ e = ValueError \/ e = OverflowError
  end.
Proof.
  intros Hs. unfold parse_telemetry.
  pose proof (parse_vectors_fit side s t TELEMETRY_VECTOR_FIELDS [] Hs (reflexivity _) (List.Forall_nil _)) as Hv.
  destruct (parse_vectors _ _ _ _ _) as [p|e]; cbn [res_bind]; [|done].
  by apply (parse_scalars_fit side s).
Qed.

Lemma opened_server n side : opened n -> side ∈ ks -> exists s, dget side (fc_servers cfg) = Some s.
Proof.
  intros (_ & _ & g & _ & Hks & Hl) Hk. destruct (dget side g) as [c|] eqn:Ec.
  - destruct (Hl _ _ Ec) as (_ & _ & s & _ & Hs & _). by exists s.
  - apply dget_None in Ec. congruence.
Qed.

Lemma append_telemetry_opened side sample : side ∈ ks -> all_fit sample ->
  triple opened (append_telemetry side sample) all_fit (fun e => e = OverflowError).
Proof.
  intros Hk Hfit. unfold append_telemetry. apply (triple_bind _ _ _ (fun _ => True)).
  { apply on_client_opened; [done|]. intros c (Hst & _).
    eapply triple_weaken; [apply get_telemetry_sound|done|]. intros e [_ ?]. congruence. }
  intros [[version t]|] _; [|by apply triple_ret].
  apply triple_get_bind. intros n Hn. case_bool_decide; [by apply triple_ret|].
  destruct (opened_server n side Hn Hk) as [s Hs].
  apply triple_lift_bind; destruct Hn as (-> & _); rewrite Hs; [done|]. intros ? [= <-].
  set (seen := st_modify _).
  assert (forall r, all_fit r -> triple opened (seen;; mret r) all_fit (fun e => e = OverflowError)) as Hseen.
  { intros r Hr. apply (triple_bind _ _ _ (fun _ => True)).
    - apply triple_modify. intros n' Hn'. by eapply opened_keep.
    - intros _ _. by apply triple_ret. }
  pose proof (parse_telemetry_fit side s t Hs) as Hp.
  destruct (parse_telemetry side _ t) as [p|e].
  - apply Hseen. by apply all_fit_update.
  - destruct Hp as [->|[->|[->| ->]]]; [by apply Hseen..|]. by apply triple_raise.
Qed.

(** What the feedback path can raise: an unreadable registry, manifest or segment. *)
Definition feedback_fault (side : string) (o : side_obs) (e : exn) : Prop :=
  (exists reg, reg_get (so_world o) reg (stream_name side "tau_ext") = Raise e) \/
  (exists ent, reader_attach (so_world o) ent = Raise e /\ e <> FileNotFoundError) \/
  (exists rd, reader_last (so_world o) rd 1 = Raise e /\ e <> FileNotFoundError /\ e <> ValueError).

Lemma deliver_feedback_opened side k seq v E : side ∈ ks ->
  triple opened (deliver_feedback side k seq v) (fun _ => True) E.
Proof.
  intros Hk. apply (triple_try_except _ _ _ _ (fun e => e = FactrError)).
  - apply (triple_bind _ _ _ (fun _ => True)).
    + apply on_client_opened; [done|]. intros c _. apply send_force_feedback_sound.
    + intros _ _. apply triple_modify. intros n Hn. by eapply opened_keep.
  - intros e ->. apply triple_modify. intros n Hn. by eapply opened_keep.
Qed.

Lemma feedback_reader_opened reg side o :
  triple opened (feedback_reader reg side (so_world o)) (fun _ => True) (feedback_fault side o).
Proof.
  unfold feedback_reader. apply triple_get_bind. intros n Hn.
  destruct (dget side (fn_readers n)); [by apply triple_ret|].
  apply triple_lift_bind; [intros e He; left; eauto|]. intros [ent|] _; [|by apply triple_ret].
  destruct (reader_attach (so_world o) ent) as [rd|e] eqn:E.
  - apply (triple_bind _ _ _ (fun _ => True)); [|intros _ _; by apply triple_ret].
    apply triple_modify. intros n' Hn'. by eapply opened_keep.
  - assert (e <> FileNotFoundError -> feedback_fault side o e) by (intros; right; left; eauto).
    destruct e; try (apply triple_raise; by auto). by apply triple_ret.
Qed.

Lemma forward_opened side o age : side ∈ ks -> max_age_ns cfg = Ok age ->
  triple opened (forward_force_feedback side o) (fun _ => True) (feedback_fault side o).
Proof.
  intros Hk Hage. unfold forward_force_feedback. apply triple_get_bind. intros n Hn.
  destruct (fn_registry n) as [reg|]; [|by apply triple_ret]. destruct (_ || _); [by apply triple_ret|].
  apply (triple_bind _ _ _ (fun _ => True)); [apply feedback_reader_opened|]. intros [rd|] _; [|by apply triple_ret].
  destruct (reader_last (so_world o) rd 1) as [sm|e] eqn:E.
  - apply triple_get_bind. intros n' Hn'. apply triple_lift_bind.
    + intros e. unfold pending_feedback. destruct Hn' as (-> & _). rewrite Hage. cbn [res_bind].
      repeat case_match; done.
    + intros [[seq v]|] _; [|by apply triple_ret]. by apply deliver_feedback_opened.
  - assert (triple opened (st_modify (fun n => with_feedback (fn_registry n) (ddel side (fn_readers n))
      (ddel side (fn_last_seq n)) (fn_feedback_errored n) n)) (fun _ => True) (feedback_fault side o)).
    { apply triple_modify. intros n' Hn'. by eapply opened_keep. }
    assert (e <> FileNotFoundError -> e <> ValueError -> feedback_fault side o e)
      by (intros; right; right; eauto).
    destruct e; try done; apply triple_raise; auto.
Qed.

Definition poll_fault (obs : string -> side_obs) (e : exn) : Prop :=
  e = OverflowError \/ exists side, side ∈ ks /\ feedback_fault side (obs side) e.

Lemma poll_side_opened obs side sample age : side ∈ ks -> max_age_ns cfg = Ok age -> all_fit sample ->
  triple opened (poll_side side (obs side) sample) all_fit (poll_fault obs).
Proof.
  intros Hk Hage Hfit. unfold poll_side. eapply triple_bind.
  { eapply triple_weaken; [by apply poll_positions_opened|eauto|done]. }
  intros [jp|] Hjp; [|by apply triple_ret]. destruct (Hjp jp eq_refl) as (s & Hs & Hlen). clear Hjp.
  apply triple_get_bind. intros n Hn.
  destruct (Hn) as (_ & _ & g & Hg & Hks & _). rewrite <-Hks in Hk.
  destruct (dget side g) as [c|] eqn:Ec; [|by apply dget_None in Ec].
  destruct (convert_reading_opened n side jp s c g Hn Hg Ec Hs Hlen) as (v & Hv & Hvl). rewrite Hks in Hk.
  apply triple_lift_bind; rewrite Hv; [done|]. intros ? [= <-].
  apply (triple_bind _ _ _ all_fit).
  - eapply triple_weaken; [apply append_telemetry_opened; [done|]|done|intros e ->; by left].
    apply all_fit_dset; [|apply all_fit_dset; [|done]];
      (eapply (fits_side side s _ _ (sv_dof s)); [done| |lia]); unfold factr_side_specs; set_solver.
  - intros sm Hsm. apply (triple_bind _ _ _ (fun _ => True)).
    + eapply triple_weaken; [by eapply forward_opened|done|]. intros e He. right. eauto.
    + intros _ _. by apply triple_ret.
Qed.

Lemma poll_sides_opened obs sides sample age : sides ⊆ ks -> max_age_ns cfg = Ok age -> all_fit sample ->
  triple opened (poll_sides obs sides sample) all_fit (poll_fault obs).
Proof.
  intros Hk Hage. revert sample. induction sides as [|side sides IH]; intros sample Hfit; cbn [poll_sides].
  { by apply triple_ret. }
  apply (triple_bind _ _ _ all_fit); [eapply poll_side_opened; [set_solver|done|done]|].
  intros r Hr. apply IH; [set_solver|done].
Qed.

Lemma poll_opened obs age : max_age_ns cfg = Ok age ->
  triple opened (poll obs) (fun r => forall sample, r = Some sample -> all_fit sample) (poll_fault obs).
Proof.
  intros Hage. unfold poll. apply triple_get_bind. intros n (_ & _ & g & Hg & Hks & _).
  apply triple_lift_bind; rewrite Hg; [done|]. intros ? [= <-]. rewrite Hks.
  apply (triple_bind _ _ _ all_fit); [by eapply poll_sides_opened; [..|constructor]|].
  intros r Hr. apply triple_ret. destruct r; [done|]. by intros ? [= <-].
Qed.
End opened.
End poll.

(** ** Opening *)

Lemma from_config_spec servers sim now g : from_config servers sim now = Ok g ->
  dkeys g = dkeys servers /\
  forall side c, dget side g = Some c -> exists s, (side, s) ∈ servers /\ cl_dof c = sv_dof s /\
    cl_stop c = false /\ cl_latest_joint_pos c = None.
Proof.
  revert g. induction servers as [|[side s] servers IH]; intros g; cbn [from_config mapM_res].
  { intros [= <-]. done. }
  intros H. fold (from_config servers sim now) in H.
  destruct (format_side side (sv_endpoint s)) as [ep|]; [|done]. cbn [res_bind] in H.
  destruct (from_config servers sim now) as [l|]; [|done]. injection H as <-.
  destruct (IH l eq_refl) as [Hk Hd]. split; [unfold dkeys in *; cbn; congruence|].
  intros x c. cbn [dget]. destruct (decide _) as [->|].
  - intros [= <-]. exists s. split; [set_solver|done].
  - intros (s' & Hin & H')%Hd. exists s'. split; [set_solver|done].
Qed.

(** The loop validates every server's leader, and changes nothing but the conventions. *)
Lemma load_conventions_spec servers n n' : load_conventions servers n = (n', Returned tt) ->
  NoDup (dkeys servers) ->
  fn_cfg n' = fn_cfg n /\ fn_client n' = fn_client n /\
  (forall side, side ∉ dkeys servers -> dget side (fn_conventions n') = dget side (fn_conventions n)) /\
  forall side s, (side, s) ∈ servers -> exists conv, dget side (fc_leaders (fn_cfg n)) = Some conv /\
    dget side (fn_conventions n') = Some conv /\ convention_ok (sv_dof s) conv.
Proof.
  revert n. induction servers as [|[side s] servers IH]; intros n.
  { intros [= <-] _. split_and!; [done..|set_solver]. }
  cbn [load_conventions]. intros H Hnd. unfold mbind, st_bind, st_get, st_lift in H.
  cbn [dkeys fmap list_fmap fst] in Hnd. apply NoDup_cons in Hnd as [Hni Hnd].
  destruct (dget side (fc_leaders (fn_cfg n))) as [conv|] eqn:El; cbn [of_option res_bind] in H; [|done].
  destruct (validate_convention (sv_dof s) conv) as [conv'|] eqn:Ev; [|done].
  apply validate_convention_ok in Ev as [-> Hok]. cbn [st_modify] in H.
  destruct (IH _ H Hnd) as (H1 & H2 & H3 & H4). cbn in H1, H2, H3, H4. split_and!; [done..| |].
  - intros x Hx. cbn in Hx. rewrite H3 by set_solver. apply dget_dset_ne. set_solver.
  - intros x sx [[= -> ->]|Hin]%elem_of_cons; [|by apply H4].
    exists conv. split_and!; [done| |done]. rewrite H3 by done. apply dget_dset_eq.
Qed.

Lemma open_source_opened fos cfg sim reg now n :
  factr_open_source reg now (factr_interface cfg sim) = (n, Returned tt) ->
  NoDup (dkeys (fc_servers cfg)) ->
  (forall side conv, dget side (fc_leaders cfg) = Some conv -> drop_trailing conv = 1%Z) ->
  opened fos cfg (fn_conventions n) (dkeys (fc_servers cfg)) n.
Proof.
  unfold factr_open_source, mbind, st_bind, st_get, st_lift. cbn [fn_cfg fn_sim factr_interface].
  destruct (from_config (fc_servers cfg) sim now) as [g|] eqn:Eg; [|done]. cbn [st_modify].
  intros H Hnd Hdrop. apply load_conventions_spec in H as (H1 & H2 & _ & H4); [|done].
  cbn in H1, H2, H4. apply from_config_spec in Eg as [Hk Hg].
  split_and!; [done..|]. exists g. split_and!; [done..|]. intros side c Hc.
  destruct (Hg side c Hc) as (s & Hin & Hd & Hs & Hq).
  destruct (H4 side s Hin) as (conv & Hl & Hv & Hok).
  split_and!; [done|by exists []; intros q; rewrite Hq|]. exists s, conv.
  split_and!; [by apply dget_NoDup|done|done|done|]. by eapply Hdrop.
Qed.

Lemma declare_streams_all cfg specs : factr_declare_streams cfg = Ok specs ->
  specs = fc_servers cfg ≫= (fun x => factr_side_specs cfg x.1 x.2).
Proof.
  unfold factr_declare_streams. generalize (fc_servers cfg ≫= (fun x => factr_side_specs cfg x.1 x.2)). intros l H.
  apply mapM_res_Forall2 in H. induction H as [|x y l l' Hxy _ IH]; [done|]. f_equal; [|done].
  unfold stream_spec in Hxy. repeat case_match; simplify_eq; done.
Qed.

(** The node after a series of polls. *)
Definition run_polls (fos : string -> option f64) (np_sin : f64 -> f64) (obss : list (string -> side_obs))
    (n : leader_node) : leader_node := foldl (fun n obs => (poll fos np_sin obs n).1) n obss.

Lemma run_polls_opened fos np_sin cfg convs ks obss n age : max_age_ns cfg = Ok age ->
  opened fos cfg convs ks n -> opened fos cfg convs ks (run_polls fos np_sin obss n).
Proof.
  intros Hage. revert n. induction obss as [|obs obss IH]; intros n Hn; [done|].
  apply IH. by eapply (poll_opened fos np_sin cfg convs ks obs age).
Qed.

(** ** Theorems *)

(** a node that opened on a configuration whose leaders have one trailing gripper value
    publishes, at every poll and whatever the servers send, only vectors whose stream was declared
    and whose length is that stream's dimension; malformed telemetry and unreachable leaders are
    skipped.  A poll can raise only on a telemetry number too large for a float, or because the
    follower's torque stream is unreadable. *)
Theorem poll_fits_streams (fos : string -> option f64) (np_sin : f64 -> f64) (cfg : FactrCfg) (sim : bool)
    (reg : registry) (now : f64) (n : leader_node) (specs : list StreamSpec) (age : Z)
    (obss : list (string -> side_obs)) (obs : string -> side_obs)
    (Hopen : factr_open_source reg now (factr_interface cfg sim) = (n, Returned tt))
    (Hdecl : factr_declare_streams cfg = Ok specs)
    (Hnd : NoDup (dkeys (fc_servers cfg)))
    (Hdrop : forall side conv, dget side (fc_leaders cfg) = Some conv -> drop_trailing conv = 1%Z)
    (Hage : max_age_ns cfg = Ok age) :
  match (poll fos np_sin obs (run_polls fos np_sin obss n)).2 with
  | Returned (Some sample) =>
      Forall (fun x => exists s, s ∈ specs /\ sp_name s = x.1 /\ sp_dim s = Z.of_nat (length x.2)) sample
  | Returned None => True
  | Raised e => e = OverflowError \/ exists side, side ∈ dkeys (fc_servers cfg) /\ feedback_fault side (obs side) e
  | Running => True
  end.
Proof.
  apply (open_source_opened fos) in Hopen; [|done..].
  eapply (run_polls_opened _ np_sin _ _ _ obss _ _ Hage) in Hopen.
  destruct (poll_opened fos np_sin cfg _ _ obs age Hage _ Hopen) as [_ Ho].
  apply declare_streams_all in Hdecl as ->.
  destruct (poll fos np_sin obs _).2 as [[sample|]|e|]; [|done|done|done]. by apply Ho.
Qed.

Definition demo_conv : JointConventionCfg f64 := Convention [f0; f0] [1%Z] 1 (Some f0) (Some f1).
Definition demo_factr_cfg (conv : JointConventionCfg f64) : FactrCfg :=
  MkFactrCfg [("left", MkServer "localhost" 5000 "ws/{side}" f1 3)] [("left", conv)] (f_of_Z 100) f1.
Definition demo_frame : json :=
  Obj [("type", jstr "reading"); ("side", jstr "left"); ("joint_pos", Arr [jfloat f0; jfloat f0; jfloat f1])].
Definition demo_reg : registry := Registry "run1" "streams".
Definition demo_obs (evs : list net) (side : string) : side_obs :=
  SideObs (Call f0 [Wake f0 (NConnected :: evs); Wake (fdec 1 2) []] true) empty_world 0 (Call f0 [] true).

Definition demo_node (conv : JointConventionCfg f64) : leader_node :=
  (factr_open_source demo_reg f0 (factr_interface (demo_factr_cfg conv) false)).1.
Definition demo_poll (conv : JointConventionCfg f64) (evs : list net) :
    outcome (option (list (string * list f64))) :=
  (poll (fun _ => None) (fun x => x) (demo_obs evs) (demo_node conv)).2.

Lemma poll_fits_streams_witness : exists specs sample,
  factr_declare_streams (demo_factr_cfg demo_conv) = Ok specs /\
  demo_poll demo_conv [NMessage (Ok demo_frame) f0] = Returned (Some sample) /\ length sample = 2 /\
  Forall (fun x => exists s, s ∈ specs /\ sp_name s = x.1 /\ sp_dim s = Z.of_nat (length x.2)) sample.
Proof.
  destruct (factr_declare_streams (demo_factr_cfg demo_conv)) as [specs|] eqn:Ed; [|vm_compute in Ed; discriminate Ed].
  exists specs. destruct (demo_poll demo_conv [NMessage (Ok demo_frame) f0]) as [[sample|]|e|] eqn:Ep;
    try (vm_compute in Ep; discriminate Ep).
  exists sample. split; [reflexivity|]. split; [reflexivity|]. split.
  { vm_compute in Ep. injection Ep as <-. reflexivity. }
  pose proof (poll_fits_streams (fun _ => None) (fun x => x) (demo_factr_cfg demo_conv) false demo_reg f0
    (demo_node demo_conv) specs 1000000000 [] (demo_obs [NMessage (Ok demo_frame) f0])) as H.
  cbn [run_polls foldl] in H. unfold demo_poll in Ep. rewrite Ep in H. apply H.
  - vm_compute. reflexivity.
  - exact Ed.
  - apply (bool_decide_unpack _). vm_compute. exact I.
  - intros side conv. cbn. destruct (decide _); [|discriminate]. intros [= <-]. reflexivity.
  - vm_compute. reflexivity.
Defined.

(** A leader configured with two trailing values passes [_validate_convention], but the converted
    vector is then one short of the stream it is published on. *)
Lemma two_trailing_values_misfit : exists raw converted,
  let conv := Convention [f0] [] 2 (Some f0) (Some f1) in
  validate_convention 3 conv = Ok conv /\
  demo_poll conv [NMessage (Ok demo_frame) f0] = Returned (Some [("factr/raw/left", raw); ("factr/left", converted)]) /\
  length converted = 2.
Proof. eexists _, _. cbn zeta. split_and!; vm_compute; reflexivity. Qed.

(** One telemetry frame with a number beyond the float range ends the node: the exception is not
    among those caught. *)
Lemma telemetry_overflow_escapes :
  demo_poll demo_conv
    [NMessage (Ok demo_frame) f0;
     NMessage (Ok (Obj [("type", jstr "telemetry"); ("side", jstr "left");
                        ("raw_q_rad", Arr [jint (2 ^ 1024); jint 0])])) f0] = Raised OverflowError.
Proof. vm_compute. reflexivity. Qed.

(** ** Force feedback *)

(** The torques handed to a leader's socket so far. *)
Definition sent_to (side : string) (n : leader_node) : option (list (list f64)) :=
  cl_sent <$> (fn_client n ≫= dget side).

(** The newest sample a reader sees. *)
Definition newest_torque (w : world) (rd : StreamReader) (v : list f64) (t seq : Z) : Prop :=
  exists s, reader_last w rd 1 = Ok s /\ newest s = Some v /\ newest_t_ns s = Some t /\
    list.last (s_seq s) = Some seq.

(** The send: it either goes through and is remembered, or changes neither. *)
Lemma deliver_feedback_cases fos side k seq v n n' out : fn_client n <> None ->
  (forall c, fn_client n ≫= dget side = Some c -> cl_sim c = false) ->
  deliver_feedback fos side k seq v n = (n', out) ->
  fn_readers n' = fn_readers n /\
  ((sent_to side n' = (fun l => l ++ [fopp <$> v]) <$> sent_to side n /\ dget side (fn_last_seq n') = Some seq /\
      fn_sim n' = fn_sim n /\ fn_cfg n' = fn_cfg n /\ fn_registry n' = fn_registry n /\
      forallb is_finite (fopp <$> v) = true) \/
   sent_to side n' = sent_to side n).
Proof.
  intros Hcl Hsim. destruct (fn_client n) as [g|] eqn:Eg; [|done]. cbn in Hsim.
  unfold deliver_feedback, try_except, mbind, st_bind, on_client, send_force_feedback_for, on_server.
  rewrite Eg. destruct (dget side g) as [c|] eqn:Ec.
  - destruct (send_force_feedback fos (ca_start k) (ca_wakes k) (ca_io_ok k) (fopp <$> v) c) as [c' o'] eqn:Es.
    apply send_force_feedback_cases in Es as [(-> & _ & _ & Hf & Hs)|[(_ & Hs & _)|[Ho Hs]]].
    + intros [= <- _]. split; [done|]. left. unfold sent_to. cbn. rewrite !dget_dset_eq, Eg. cbn.
      rewrite Ec. cbn. by rewrite Hs.
    + rewrite (Hsim c eq_refl) in Hs. done.
    + intros H. assert (fn_readers n' = fn_readers n /\ fn_client n' = Some (dset side c' g)) as [Hr Hc].
      { destruct Ho as [->| ->]; injection H as <- _; done. }
      split; [done|]. right. unfold sent_to. rewrite Hc, Eg. cbn. rewrite dget_dset_eq, Ec. cbn. by rewrite Hs.
  - intros [= <- _]. split; [done|]. right. unfold sent_to. cbn. by rewrite Eg.
Qed.

(** What [pending_feedback] selects. *)
Lemma pending_feedback_Some n side s now_ns seq v age : max_age_ns (fn_cfg n) = Ok age ->
  pending_feedback n side s now_ns = Ok (Some (seq, v)) ->
  exists t, newest s = Some v /\ newest_t_ns s = Some t /\ list.last (s_seq s) = Some seq /\
    (now_ns - t <= age)%Z /\ dget side (fn_last_seq n) <> Some seq.
Proof.
  intros Hage. unfold pending_feedback. rewrite Hage. cbn [res_bind].
  destruct (newest s) as [v'|], (newest_t_ns s) as [t|], (list.last (s_seq s)) as [q|]; try done.
  destruct (age <? now_ns - t)%Z eqn:Et; [done|]. case_bool_decide; [done|]. intros [= <- <-].
  exists t. split_and!; [done..|lia|done].
Qed.

(** Attaching a feedback reader touches nothing but the readers. *)
Lemma feedback_reader_cases reg side w n n' o : feedback_reader reg side w n = (n', o) ->
  (n' = n \/ exists rds, n' = with_feedback (fn_registry n) rds (fn_last_seq n) (fn_feedback_errored n) n) /\
  forall rd, o = Returned (Some rd) -> dget side (fn_readers n') = Some rd.
Proof.
  unfold feedback_reader, mbind, st_bind, st_get. destruct (dget side (fn_readers n)) as [rd|] eqn:Er.
  { intros [= <- <-]. split; [by left|]. intros rd' [= <-]. done. }
  unfold st_lift. destruct (reg_get w reg _) as [[ent|]|]; try (intros [= <- <-]; split; [by left|done]).
  destruct (reader_attach w ent) as [rd|e].
  - intros [= <- <-]. split; [right; by eexists|]. intros rd' [= <-]. apply dget_dset_eq.
  - destruct e; intros [= <- <-]; (split; [by left|done]).
Qed.

(** follower feedback is fresh, negated and sent once.  One pass over a leader either sends
    nothing, or sends exactly one vector: the follower's newest external torque, negated, every
    entry finite, at most [max_age_s] old and with a sequence number that was not the last one sent; it is then
    remembered, and another pass that finds the same shared memory sends nothing more. *)
Theorem feedback_sent_once (fos : string -> option f64) (side : string) (o : side_obs) (n n' : leader_node)
    (out : outcome unit) (age : Z)
    (Hage : max_age_ns (fn_cfg n) = Ok age)
    (Hsim : forall c, fn_client n ≫= dget side = Some c -> cl_sim c = fn_sim n)
    (Hrun : forward_force_feedback fos side o n = (n', out)) :
  sent_to side n' = sent_to side n \/
  exists rd v t seq,
    newest_torque (so_world o) rd v t seq /\ (so_now_ns o - t <= age)%Z /\ fn_sim n = false /\
    dget side (fn_last_seq n) <> Some seq /\ dget side (fn_last_seq n') = Some seq /\
    sent_to side n' = (fun l => l ++ [fopp <$> v]) <$> sent_to side n /\ forallb is_finite (fopp <$> v) = true /\
    forall o', so_world o' = so_world o ->
      sent_to side (forward_force_feedback fos side o' n').1 = sent_to side n'.
Proof.
  unfold forward_force_feedback, mbind, st_bind, st_get in Hrun.
  destruct (fn_registry n) as [reg|] eqn:Ereg; [|injection Hrun as <- _; by left].
  case_bool_decide as Hcl; [rewrite orb_true_r in Hrun; injection Hrun as <- _; by left|].
  destruct (fn_sim n) eqn:Es; cbn [orb] in Hrun; [injection Hrun as <- _; by left|].
  destruct (feedback_reader reg side (so_world o) n) as [n1 o1] eqn:Erd.
  apply feedback_reader_cases in Erd as [Hn1 Hrd].
  assert (sent_to side n1 = sent_to side n /\ fn_last_seq n1 = fn_last_seq n /\ fn_cfg n1 = fn_cfg n /\
    fn_client n1 = fn_client n /\ fn_sim n1 = false /\ fn_registry n1 = Some reg) as (Hs1 & Hq1 & Hc1 & Hg1 & Hm1 & Hr1).
  { destruct Hn1 as [->|[rds ->]]; cbn; by rewrite ?Ereg. }
  destruct o1 as [[rd|]|e|]; [|injection Hrun as <- _; by left..].
  specialize (Hrd rd eq_refl).
  destruct (reader_last (so_world o) rd 1) as [s|e] eqn:El.
  2:{ left. rewrite <-Hs1. destruct e; injection Hrun as <- _; done. }
  unfold st_lift in Hrun. destruct (pending_feedback n1 side s (so_now_ns o)) as [[[seq v]|]|e] eqn:Ep;
    [|injection Hrun as <- _; by left..].
  rewrite <-Hc1 in Hage. destruct (pending_feedback_Some _ _ _ _ _ _ _ Hage Ep) as (t & Hv & Ht & Hseq & Hle & Hne).
  apply deliver_feedback_cases in Hrun as [Hr' [(Hs' & Hq' & Hm' & Hc' & Hg' & Hf)|Hs']].
  2:{ left. congruence. }
  2:{ by rewrite Hg1. }
  2:{ rewrite Hg1. intros c Hc. by rewrite (Hsim c). }
  right. exists rd, v, t, seq. rewrite <-Hs1, <-Hq1. split_and!; [by exists s|done..|].
  intros o' Hw. unfold forward_force_feedback, mbind, st_bind, st_get.
  rewrite Hg', Hr1, Hm', Hm1. cbn [orb]. case_bool_decide; [done|].
  unfold feedback_reader, mbind, st_bind, st_get. rewrite Hr', Hrd. cbn.
  rewrite Hw, El. unfold pending_feedback. rewrite Hc', Hv, Ht, Hseq, Hage. cbn [res_bind].
  destruct (age <? so_now_ns o' - t)%Z; [done|]. by rewrite bool_decide_true by done.
Qed.

Definition follower_world : world :=
  let '(w, r) := writer_create true empty_world (MkSpec "left/tau_ext" 2 4 "float64" None) "run1" demo_reg 7 in
  match r with
  | Ok wr => match writer_write (fun _ x => x) w wr [f1; fopp f1] 5 with Ok (w', _) => w' | Raise _ => w end
  | Raise _ => w
  end.
Definition follower_obs : side_obs :=
  SideObs (Call f0 [] true) follower_world 6 (Call f0 [Wake f0 [NConnected]] true).

Lemma feedback_sent_once_witness : exists n',
  forward_force_feedback (fun _ => None) "left" follower_obs (demo_node demo_conv) = (n', Returned tt) /\
  sent_to "left" n' = Some [[fopp f1; f1]] /\
  sent_to "left" (forward_force_feedback (fun _ => None) "left" follower_obs n').1 = sent_to "left" n'.
Proof.
  destruct (forward_force_feedback (fun _ => None) "left" follower_obs (demo_node demo_conv)) as [n' out] eqn:E.
  exists n'. assert (out = Returned tt /\ sent_to "left" n' = Some [[fopp f1; f1]]) as [-> Hs].
  { vm_compute in E. injection E as <- <-. split; reflexivity. }
  split; [reflexivity|]. split; [exact Hs|].
  destruct (feedback_sent_once (fun _ => None) "left" follower_obs (demo_node demo_conv) n' (Returned tt)
    1000000000) as [H|(rd & v & t & seq & H)].
  - vm_compute. reflexivity.
  - intros c Hc. vm_compute in Hc. injection Hc as <-. reflexivity.
  - exact E.
  - rewrite Hs in H. vm_compute in H. discriminate H.
  - apply H. reflexivity.
Defined.
