(* ===== verification/Recorder.v ===== *)
(** * The dataset recorder

    Models [collection/recorder.py]: the gate in front of a LeRobot dataset on disk and the calls
    the collection loop makes.  The LeRobot library is an input (whether it imports, which options
    and methods it has, what its calls do); every operation on the dataset directory is logged in
    order, so that what the recorder does to recorded episodes can be stated. *)

From Stdlib Require Import Ascii String.
From S2P Require Import Prelude Float64 Ring Streams Text Json.
Local Open Scope string_scope.
Local Open Scope nat_scope.
Local Open Scope list_scope.

(** ** The dataset on disk *)

(** What the recorder looks at in a dataset directory: the [meta] directory, [meta/info.json]
    ([None]: absent; otherwise what reading and parsing it gives) and [meta/tasks.parquet]. *)
Record dataset_dir := DatasetDir {
  dd_meta : bool;
  dd_info : option (res json);
  dd_tasks : bool;
}.

Definition unreadable (e : exn) : bool :=
  match e with OSError | FileNotFoundError | ValueError => true | _ => false end.

Definition disk_features (d : dataset_dir) : res (list (string * json)) :=
  match dd_info d with
  | None => Ok []
  | Some (Raise e) => if unreadable e then Ok [] else Raise e
  | Some (Ok info) =>
      let? feats := jget "features" info in
      Ok (match feats with Obj o => o | _ => [] end)
  end.

Definition resumable (d : dataset_dir) : res bool :=
  match dd_info d with
  | None => Ok false
  | Some r =>
      if negb (dd_tasks d) then Ok false
      else
        match (let? info := r in
               let? n := jget "total_episodes" info in
               jint_of (py_or n (jint 0))) with
        | Ok n => Ok (0 <? n)%Z
        | Raise e => if unreadable e then Ok false else Raise e
        end
  end.

(** ** The schema gate *)

(** One entry of the features this run records. *)
Record feature := Feature { ft_shape : list Z; ft_names : list string }.

(** [list(v)]. *)
Definition py_list (v : json) : res (list json) :=
  match v with
  | Arr l => Ok l
  | Obj o => Ok (jstr <$> dkeys o)
  | Scalar (JStr s) => Ok ((fun c => jstr (String c "")) <$> list_ascii_of_string s)
  | Scalar _ => Raise TypeError
  end.

Inductive mismatch := Missing | ShapeDiffers | NamesDiffer | NotProduced.

Definition names_match (have : list json) (want : list string) : bool :=
  (length have =? length want) &&
  forallb (fun x => match x.1 with Scalar (JStr s) => bool_decide (s = x.2) | _ => false end)
    (combine have want).

(** [[int(x) for x in have.get("shape", ())]]. *)
Definition disk_shape (have : list (string * json)) : res (list Z) :=
  match dget "shape" have with
  | None => Ok []
  | Some v => let? l := py_list v in mapM_res jint_of l
  end.

(** One pass of the loop over the features of this run. *)
Definition check_feature (existing : list (string * json)) (x : string * feature) :
    res (list (string * mismatch)) :=
  match dget x.1 existing with
  | None | Some (Scalar JNull) => Ok [(x.1, Missing)]
  | Some (Obj have) =>
      let? have_shape := disk_shape have in
      if negb (bool_decide (have_shape = ft_shape x.2)) then Ok [(x.1, ShapeDiffers)]
      else
        match dget "names" have with
        | Some names =>
            if truthy names && negb (bool_decide (ft_names x.2 = []))
            then let? l := py_list names in
                 Ok (if names_match l (ft_names x.2) then [] else [(x.1, NamesDiffer)])
            else Ok []
        | None => Ok []
        end
  | Some _ => Raise OtherError
  end.

Definition schema_mismatches (existing : list (string * json)) (expected : list (string * feature)) :
    res (list (string * mismatch)) :=
  let? diffs := mapM_res (check_feature existing) expected in
  Ok (concat diffs ++
      ((fun k => (k, NotProduced)) <$>
       List.filter (fun k => starts_with "observation." k && negb (dmem k expected)) (dkeys existing))).

(** ** [LeRobotRecorder] *)

Record RecordingCfg := MkRecording {
  rc_resume : bool;
  rc_video : bool;
  rc_image_writer_processes : Z;
  rc_image_writer_threads : Z;
  rc_streaming_encoding : bool;
  rc_push_to_hub : bool;
}.

(** What is done to the dataset directory. *)
Inductive disk_op :=
  | Rmtree
  | Resume (kwargs : list (string * jval))
  | Create (fps : Z) (features : list (string * feature)) (use_videos : bool) (kwargs : list (string * jval)).

(** The process state the constructor touches: the environment variables and the log. *)
Record host := Host { h_env : list (string * string); h_ops : list disk_op }.

Definition set_env (f : list (string * string) -> list (string * string)) : ST host unit :=
  st_modify (fun h => Host (f (h_env h)) (h_ops h)).
Definition do_op (op : disk_op) : ST host unit :=
  st_modify (fun h => Host (h_env h) (h_ops h ++ [op])).

Definition HUB_KEYS : list string := ["HF_HUB_OFFLINE"; "HF_DATASETS_OFFLINE"].

(** Every occurrence is dropped, as [dict.pop] on unique keys. *)
Definition env_pop (k : string) (env : list (string * string)) : list (string * string) :=
  List.filter (fun x => negb (bool_decide (x.1 = k))) env.

Definition restore_env (saved : list (string * option string)) (env : list (string * string)) :
    list (string * string) :=
  foldl (fun env x => match x.2 with None => env_pop x.1 env | Some v => dset x.1 v env end) env saved.

(** [with _hub_offline(): m]. *)
Definition hub_offline {A} (m : ST host A) : ST host A :=
  h ← st_get;
  let saved := (fun k => (k, dget k (h_env h))) <$> HUB_KEYS in
  set_env (fun env => dset "HF_DATASETS_OFFLINE" "1" (dset "HF_HUB_OFFLINE" "1" env));;
  try_finally m (fun h => Host (restore_env saved (h_env h)) (h_ops h)).

(** The recorder: how many episodes this process saved. *)
Record recorder := Recorder { rec_episodes : nat }.

Section init.
(** The library: whether it imports, whether [create] takes [streaming_encoding], what [resume]
    and [create] do. *)
Context (lerobot : bool) (accepts_streaming : bool) (lib : disk_op -> res unit).

Definition create_kwargs (rc : RecordingCfg) : list (string * jval) :=
  [("image_writer_processes", JInt (rc_image_writer_processes rc));
   ("image_writer_threads", JInt (rc_image_writer_threads rc))] ++
  (if accepts_streaming then [("streaming_encoding", JBool (rc_streaming_encoding rc))] else []).

Definition call_lib (op : disk_op) : ST host unit := do_op op;; st_lift (lib op).

(** [LeRobotRecorder.__init__]. *)
Definition lerobot_recorder (frequency_hz : f64) (rc : RecordingCfg) (features : list (string * feature))
    (d : dataset_dir) : ST host recorder :=
  (if lerobot then mret tt else st_raise RecorderUnavailable);;
  fps ← st_lift (of_option (if is_nan frequency_hz then ValueError else OverflowError) (f_round frequency_hz));
  complete ← st_lift (if dd_meta d then resumable d else Ok false);
  (if rc_resume rc && complete then
     existing ← st_lift (disk_features d);
     diffs ← st_lift (schema_mismatches existing features);
     match diffs with
     | [] => hub_offline (call_lib (Resume (create_kwargs rc)))
     | _ => st_raise RecorderUnavailable
     end
   else if complete then st_raise RecorderUnavailable
   else
     (if dd_meta d then do_op Rmtree else mret tt);;
     hub_offline (call_lib (Create fps features (rc_video rc) (create_kwargs rc))));;
  mret (Recorder 0).
End init.

(** [save_episode]: what the library's save does, and its push. *)
Definition rec_save_episode (save push : res unit) : ST recorder unit :=
  st_lift save;;
  st_modify (fun r => Recorder (S (rec_episodes r)));;
  try_except (st_lift push) (fun _ => Some (mret tt)).

(** [finalize]: the methods called, in order; a failure of one does not stop the other. *)
Definition rec_finalize (has : string -> bool) : list string :=
  List.filter has ["finalize"; "stop_image_writer"].

(** [discard_episode]: the newer method when the library has it. *)
Definition rec_discard (has : string -> bool) : string :=
  if has "clear_episode_buffer" then "clear_episode_buffer" else "create_episode_buffer".

(** ** Lemmas *)

(** When appending is safe: every recorded feature is on disk with the same shape and, when both
    name their entries, the same names in the same order; and the dataset has no observation this
    run does not produce. *)
Definition compatible (existing : list (string * json)) (expected : list (string * feature)) : Prop :=
  (forall key ft, (key, ft) ∈ expected ->
     exists have, dget key existing = Some (Obj have) /\ disk_shape have = Ok (ft_shape ft) /\
       forall names, dget "names" have = Some names -> truthy names = true -> ft_names ft <> [] ->
         py_list names = Ok (jstr <$> ft_names ft)) /\
  (forall key, key ∈ dkeys existing -> starts_with "observation." key = true -> key ∈ dkeys expected).

Lemma names_match_spec l names : names_match l names = true <-> l = jstr <$> names.
Proof.
  unfold names_match. revert names. induction l as [|v l IH]; intros [|n names]; try done.
  cbn [length combine forallb fst snd]. rewrite fmap_cons. specialize (IH names).
  destruct v as [[| | | |s]|a|o]; try (rewrite andb_false_r; split; [done|intros [=]]).
  rewrite andb_true_iff, andb_true_iff, bool_decide_eq_true. cbn [Nat.eqb].
  rewrite andb_true_iff in IH. split.
  - intros (Hl & -> & Hf). f_equal. by apply IH.
  - intros [= -> ->]. destruct (proj2 IH eq_refl). done.
Qed.

Lemma check_feature_nil existing key ft :
  check_feature existing (key, ft) = Ok [] <->
  exists have, dget key existing = Some (Obj have) /\ disk_shape have = Ok (ft_shape ft) /\
    forall names, dget "names" have = Some names -> truthy names = true -> ft_names ft <> [] ->
      py_list names = Ok (jstr <$> ft_names ft).
Proof.
  unfold check_feature. cbn [fst snd].
  destruct (dget key existing) as [[[| | | |]|l|have]|]; try (split; [done|intros (? & ? & _); congruence]).
  split.
  - intros H. exists have. split; [done|]. destruct (disk_shape have) as [sh|]; [|done]. cbn [res_bind] in H.
    case_bool_decide as Hs; [|done]. cbn [negb] in H. subst sh. split; [done|]. intros names Hn Ht Hne.
    rewrite Hn, Ht in H. rewrite bool_decide_false in H by done. cbn in H.
    destruct (py_list names) as [l|]; [|done]. cbn [res_bind] in H.
    destruct (names_match l (ft_names ft)) eqn:Em; [|done]. by apply names_match_spec in Em as ->.
  - intros (h & [= <-] & Hs & Hn). rewrite Hs. cbn [res_bind]. rewrite bool_decide_true by done. cbn [negb].
    destruct (dget "names" have) as [names|]; [|done]. destruct (truthy names) eqn:Et; [|done].
    case_bool_decide as Hne; [done|]. cbn. rewrite (Hn names) by done. cbn [res_bind].
    by rewrite (proj2 (names_match_spec _ _) eq_refl).
Qed.

Lemma mapM_concat_nil existing expected diffs :
  mapM_res (check_feature existing) expected = Ok diffs ->
  (concat diffs = [] <-> forall key ft, (key, ft) ∈ expected -> check_feature existing (key, ft) = Ok []).
Proof.
  revert diffs. induction expected as [|[k f] expected IH]; intros diffs; cbn [mapM_res].
  { intros [= <-]. split; [set_solver|done]. }
  destruct (check_feature existing (k, f)) as [d|] eqn:E; [|done]. cbn [res_bind].
  destruct (mapM_res _ expected) as [ds|]; [|done]. cbn [res_bind]. intros [= <-]. cbn [concat].
  rewrite app_nil, (IH ds eq_refl). split.
  - intros [-> H] key ft [[= -> ->]|Hin]%elem_of_cons; [done|by apply H].
  - intros H. split; [|intros; apply H; set_solver]. specialize (H k f ltac:(set_solver)). congruence.
Qed.

Lemma schema_mismatches_nil existing expected :
  schema_mismatches existing expected = Ok [] <-> compatible existing expected.
Proof.
  unfold schema_mismatches, compatible.
  set (extra := List.filter _ _). assert (extra = [] <-> forall key, key ∈ dkeys existing ->
    starts_with "observation." key = true -> key ∈ dkeys expected) as Hex.
  { unfold extra. split.
    - intros H key Hin Hs. destruct (decide (key ∈ dkeys expected)) as [|Hn]; [done|]. exfalso.
      assert (key ∈ List.filter (fun k => starts_with "observation." k && negb (dmem k expected)) (dkeys existing)) as Hf.
      { apply list_elem_of_In, filter_In. rewrite <-list_elem_of_In, Hs. split; [done|].
        by rewrite (proj2 (dmem_false _ _) Hn). }
      rewrite H in Hf. set_solver.
    - intros H. destruct (List.filter _ _) as [|key l] eqn:E; [done|]. exfalso.
      assert (In key (List.filter (fun k => starts_with "observation." k && negb (dmem k expected)) (dkeys existing))) as Hf
        by (rewrite E; by left).
      apply filter_In in Hf as [Hin [Hs Hm]%andb_true_iff]. rewrite <-list_elem_of_In in Hin.
      apply negb_true_iff, dmem_false in Hm. eauto. }
  rewrite <-Hex. destruct (mapM_res _ expected) as [diffs|e] eqn:E.
  - cbn [res_bind]. setoid_rewrite <-check_feature_nil. rewrite <-(mapM_concat_nil _ _ _ E).
    split.
    + intros [= [-> Hn]%app_nil]. by destruct extra.
    + intros [-> ->]. done.
  - split; [done|]. intros [H _]. exfalso. setoid_rewrite <-check_feature_nil in H.
    revert E. clear Hex extra. induction expected as [|[k f] expected IH]; [done|]. cbn [mapM_res].
    rewrite (H k f) by set_solver. cbn [res_bind].
    destruct (mapM_res _ expected); cbn [res_bind]; [done|]. intros [= ->]. apply IH; [|done].
    intros. apply H. set_solver.
Qed.

Lemma dget_env_pop k k' env : dget k' (env_pop k env) = if decide (k' = k) then None else dget k' env.
Proof.
  unfold env_pop. induction env as [|[x v] env IH]; [by cbn; destruct (decide _)|].
  cbn [List.filter fst]. case_bool_decide as Hx; cbn [negb dget]; rewrite IH;
    repeat destruct (decide _); congruence.
Qed.

Lemma dget_restore k v k' env :
  dget k' (match v with None => env_pop k env | Some v => dset k v env end) =
  if decide (k' = k) then v else dget k' env.
Proof.
  destruct v as [v|]; [|apply dget_env_pop].
  destruct (decide (k' = k)) as [->|]; [by apply dget_dset_eq|by apply dget_dset_ne].
Qed.

(** Around a call that leaves the environment alone, every variable is as it was. *)
Lemma hub_offline_env {A} (m : ST host A) h k :
  (forall h, h_env (m h).1 = h_env h) -> (forall h, (m h).2 <> Running) ->
  dget k (h_env (hub_offline m h).1) = dget k (h_env h).
Proof.
  intros Hm Hr. unfold hub_offline, mbind, st_bind, st_get, set_env, st_modify, try_finally.
  set (h1 := Host _ _). pose proof (Hm h1) as H1. pose proof (Hr h1) as H2.
  destruct (m h1) as [h2 [a|e|]]; cbn in H1, H2; [| |done]; cbn [h_env fst];
    rewrite H1; cbn [restore_env foldl HUB_KEYS fmap list_fmap fst snd h_env h1];
    rewrite !dget_restore; destruct (decide (k = "HF_DATASETS_OFFLINE")) as [->|Hd]; try done;
    (destruct (decide (k = "HF_HUB_OFFLINE")) as [->|Hh]; [done|]);
    by rewrite !dget_dset_ne by done.
Qed.

Lemma hub_offline_ops {A} (m : ST host A) h ops :
  (forall h, h_ops (m h).1 = h_ops h ++ ops) -> h_ops (hub_offline m h).1 = h_ops h ++ ops.
Proof.
  intros Hm. unfold hub_offline, mbind, st_bind, st_get, set_env, st_modify, try_finally.
  set (h1 := Host _ _). specialize (Hm h1). destruct (m h1) as [h2 [a|e|]]; cbn in *; done.
Qed.

Lemma hub_offline_out {A} (m : ST host A) h o :
  (forall h, (m h).2 = o) -> (hub_offline m h).2 = o.
Proof.
  intros Hm. unfold hub_offline, mbind, st_bind, st_get, set_env, st_modify, try_finally.
  set (h1 := Host _ _). specialize (Hm h1). destruct (m h1) as [h2 [a|e|]]; cbn in *; done.
Qed.

(** A call of the library inside [_hub_offline]. *)
Lemma hub_call lib op h :
  let r := hub_offline (call_lib lib op) h in
  (forall k, dget k (h_env r.1) = dget k (h_env h)) /\ h_ops r.1 = h_ops h ++ [op] /\
  r.2 = match lib op with Ok _ => Returned tt | Raise e => Raised e end.
Proof.
  assert (forall h, call_lib lib op h = (Host (h_env h) (h_ops h ++ [op]),
    match lib op with Ok _ => Returned tt | Raise e => Raised e end)) as Hc.
  { intros h0. unfold call_lib, do_op, mbind, st_bind, st_modify, st_lift. by destruct (lib op) as [[]|]. }
  cbn zeta. split_and!.
  - intros k. apply hub_offline_env; intros h0; rewrite Hc; [done|]. by destruct (lib op).
  - apply hub_offline_ops. intros h0. by rewrite Hc.
  - apply hub_offline_out. intros h0. by rewrite Hc.
Qed.

(** ** What is on disk *)

(** A dataset with [n > 0] recorded episodes: the metadata and the task table are there, and the
    readable [info.json] counts the episodes. *)
Definition holds_episodes (n : Z) (d : dataset_dir) : Prop :=
  dd_meta d = true /\ dd_tasks d = true /\ (0 < n)%Z /\
  exists o, dd_info d = Some (Ok (Obj o)) /\ dget "total_episodes" o = Some (jint n).

(** What an interrupted run leaves: a file missing or unreadable, or no episode counted. *)
Definition half_written (d : dataset_dir) : Prop :=
  dd_info d = None \/ dd_tasks d = false \/ (exists e, dd_info d = Some (Raise e)) \/
  exists info, dd_info d = Some (Ok info) /\
    forall o n, info = Obj o -> dget "total_episodes" o = Some (jint n) -> (n <= 0)%Z.

Lemma positive_or n : (0 < n)%Z -> py_or (jint n) (jint 0) = jint n.
Proof. intros H. unfold py_or, truthy, jint. by rewrite (proj2 (Z.eqb_neq n 0)) by lia. Qed.

Lemma holds_resumable n d : holds_episodes n d -> resumable d = Ok true.
Proof.
  intros (_ & Ht & Hn & o & Hi & Hg). unfold resumable. rewrite Hi, Ht. cbn [negb res_bind jget]. rewrite Hg.
  change (default jnull (Some (jint n))) with (jint n). cbn [res_bind]. rewrite (positive_or n Hn). cbn. by rewrite (proj2 (Z.ltb_lt 0 n)).
Qed.

Lemma not_resumable d : resumable d = Ok false -> half_written d.
Proof.
  unfold resumable, half_written. destruct (dd_info d) as [[info|e]|]; [|by right; right; left; exists e|by left].
  destruct (dd_tasks d); [|by right; left]. cbn [negb res_bind]. intros H. right. right. right. exists info. split; [done|].
  intros o n -> Hg. destruct (Z.le_gt_cases n 0) as [|Hn]; [done|]. exfalso. revert H. cbn [jget]. rewrite Hg.
  change (default jnull (Some (jint n))) with (jint n). cbn [res_bind]. rewrite (positive_or n Hn). cbn. by rewrite (proj2 (Z.ltb_lt 0 n)).
Qed.

Section opening.
Context (lerobot accepts_streaming : bool) (lib : disk_op -> res unit).
Context (frequency_hz : f64) (rc : RecordingCfg) (features : list (string * feature)) (d : dataset_dir).

Definition schema_fits : Prop := exists existing, disk_features d = Ok existing /\ compatible existing features.

(** Appending is possible. *)
Definition may_append : Prop :=
  lerobot = true /\ is_Some (f_round frequency_hz) /\ rc_resume rc = true /\ schema_fits.

(** The operations on the directory, by what the code finds out about it. *)
Definition opens (h : host) (r : host * outcome recorder) : Prop :=
  (forall k, dget k (h_env r.1) = dget k (h_env h)) /\
  exists ops, h_ops r.1 = h_ops h ++ ops /\
    (dd_meta d = true -> resumable d = Ok true ->
       (ops = [] /\ ~ may_append) \/ (ops = [Resume (create_kwargs accepts_streaming rc)] /\ may_append)) /\
    (Rmtree ∈ ops -> dd_meta d = true /\ resumable d = Ok false) /\
    (forall x, r.2 = Returned x -> exists op, list.last ops = Some op /\ lib op = Ok tt).

Lemma opens_stop h e : (dd_meta d = true -> resumable d = Ok true -> ~ may_append) -> opens h (h, Raised e).
Proof.
  intros Hn. split; [done|]. exists []. rewrite app_nil_r. split_and!; [done| |set_solver|done]. left. auto.
Qed.

Lemma opens_call h h0 ops op :
  h_env h0 = h_env h -> h_ops h0 = h_ops h ++ ops -> (Rmtree ∈ ops ++ [op] -> dd_meta d = true /\ resumable d = Ok false) ->
  (dd_meta d = true -> resumable d = Ok true -> ops ++ [op] = [Resume (create_kwargs accepts_streaming rc)] /\ may_append) ->
  opens h (match hub_offline (call_lib lib op) h0 with
           | (h', Returned _) => (h', Returned (Recorder 0)) | (h', Raised e) => (h', Raised e) | (h', Running) => (h', Running)
           end).
Proof.
  intros He Ho Hr Hc. destruct (hub_call lib op h0) as (H1 & H2 & H3). destruct (hub_offline _ h0) as [h' o]. cbn [fst snd] in *.
  subst o. rewrite Ho, <-(assoc_L app) in H2. rewrite He in H1. split; [by destruct (lib op)|].
  exists (ops ++ [op]). split_and!; [by destruct (lib op)|right; auto|done|].
  destruct (lib op) as [[]|] eqn:El; [intros x _; exists op; by rewrite last_snoc|done].
Qed.

Lemma recorder_opens h : opens h (lerobot_recorder lerobot accepts_streaming lib frequency_hz rc features d h).
Proof.
  unfold lerobot_recorder, mbind, st_bind, st_lift, mret, st_ret.
  destruct lerobot eqn:Elr; [|apply opens_stop; intros _ _ [H _]; congruence].
  destruct (f_round frequency_hz) as [fps|] eqn:Ef; cbn [of_option];
    [|apply opens_stop; intros _ _ (_ & [? H] & _); congruence].
  destruct (if dd_meta d then resumable d else Ok false) as [[]|e] eqn:Ec;
    [| |apply opens_stop; intros Hm Hc; rewrite Hm in Ec; congruence].
  - rewrite andb_true_r. destruct (rc_resume rc) eqn:Er; [|apply opens_stop; intros _ _ (_ & _ & H & _); congruence].
    destruct (disk_features d) as [existing|] eqn:Ed;
      [|apply opens_stop; intros _ _ (_ & _ & _ & x & H & _); congruence].
    destruct (schema_mismatches existing features) as [[|x l]|] eqn:Es;
      [|apply opens_stop; intros _ _ (_ & _ & _ & y & H & Hc%schema_mismatches_nil); congruence..].
    apply schema_mismatches_nil in Es. eapply (opens_call h h []); [done|by rewrite app_nil_r|set_solver|].
    intros _ _. split; [done|]. unfold may_append. rewrite Elr, Ef. split_and!; [done|done|done|by exists existing].
  - rewrite andb_false_r. destruct (dd_meta d) eqn:Em.
    + eapply (opens_call h (Host (h_env h) (h_ops h ++ [Rmtree])) [Rmtree]); [done..|congruence].
    + eapply (opens_call h h []); [done|by rewrite app_nil_r|set_solver|congruence].
Qed.
End opening.

(** ** Theorem *)

(** C23: opening a recorder never costs recorded episodes.  Whatever the library does: a dataset on
    disk with at least one recorded episode (metadata directory, task table and an [info.json] that
    counts the episodes) is opened for append exactly when the library is installed, the frame rate is
    a number, resuming is enabled and the dataset's schema is compatible with what this run records,
    and is otherwise left untouched; a directory is deleted only when it has metadata and is half
    written; a recorder is returned only after the library opened or created the dataset; and the
    environment variables are what they were, on every exit. *)
Theorem recorder_spares_episodes (lerobot accepts_streaming : bool) (lib : disk_op -> res unit)
    (frequency_hz : f64) (rc : RecordingCfg) (features : list (string * feature)) (d : dataset_dir) (h : host) :
  let r := lerobot_recorder lerobot accepts_streaming lib frequency_hz rc features d h in
  (forall k, dget k (h_env r.1) = dget k (h_env h)) /\
  exists ops, h_ops r.1 = h_ops h ++ ops /\
    (forall n, holds_episodes n d ->
       (ops = [] /\ ~ may_append lerobot frequency_hz rc features d) \/
       (ops = [Resume (create_kwargs accepts_streaming rc)] /\ may_append lerobot frequency_hz rc features d)) /\
    (Rmtree ∈ ops -> dd_meta d = true /\ half_written d) /\
    (forall x, r.2 = Returned x -> exists op, list.last ops = Some op /\ lib op = Ok tt).
Proof.
  intros r. destruct (recorder_opens lerobot accepts_streaming lib frequency_hz rc features d h) as (Henv & ops & Ho & Hc & Hr & Hl).
  split; [done|]. exists ops. split_and!; [done| | |done].
  - intros n Hn. apply Hc; [apply Hn|by eapply holds_resumable].
  - intros [Hm Hf]%Hr. split; [done|by apply not_resumable].
Qed.

(** What the docstring's promise does not cover: a dataset whose [info.json] cannot be read at the
    moment the recorder opens, for whatever reason, is deleted with its episodes. *)
Lemma unreadable_dataset_deleted (accepts_streaming : bool) (lib : disk_op -> res unit) (rc : RecordingCfg)
    (features : list (string * feature)) :
  h_ops (lerobot_recorder true accepts_streaming lib f1 rc features (DatasetDir true (Some (Raise OSError)) true) (Host [] [])).1 =
  [Rmtree; Create 1 features (rc_video rc) (create_kwargs accepts_streaming rc)].
Proof.
  unfold lerobot_recorder, mbind, st_bind, st_lift, mret, st_ret. change (f_round f1) with (Some 1%Z). cbn [of_option dd_meta].
  change (resumable _) with (Ok false). cbv beta iota. rewrite andb_false_r. set (op := Create _ _ _ _). cbn [do_op st_modify].
  destruct (hub_call lib op (Host [] [Rmtree])) as (_ & H & _). cbn in H |- *. destruct (hub_offline _ _) as [h' [?|?|]]; exact H.
Qed.
