(* ===== verification/Observe.v ===== *)
(** * The dataset schema, the canonical observation and the adapters' requests

    Models [FrameBuilder.features] of [collection/features.py], [policy/observation.py]
    ([ObservationBuilder]) and the request side of [policy/adapter.py].  The frames themselves are
    [Collect.build]; here is what is promised about their shape, and what is sent to a policy. *)

From Stdlib Require Import Ascii String.
From S2P Require Import Prelude Float64 Ring Streams Text Channel Convention Layout Process Source Arm Session.
From S2P Require Import Collect Policy Json Recorder.
Local Open Scope string_scope.
Local Open Scope nat_scope.
Local Open Scope list_scope.

(** ** [FrameBuilder.features] *)

(** A feature with its element type. *)
Record feature_spec := MkFeature { fs_dtype : string; fs_feature : feature }.

Definition IMAGE_DTYPE (video : bool) : string := if video then "video" else "image".

Definition vector_spec (dim : Z) (names : list string) : feature_spec :=
  MkFeature "float32" (Feature [dim] names).

(** The two FACTR features of a side: [dof] joints and the gripper. *)
Definition factr_names (side : string) (dof : Z) : list string :=
  ((fun j => side +:+ ".joint." +:+ nat_str j) <$> seq 0 (Z.to_nat dof)) ++ [side +:+ ".gripper"].

Definition factr_features (dofs : list (string * Z)) (feats : list (string * feature_spec)) (side : string) :
    res (list (string * feature_spec)) :=
  let? dof := of_option KeyError (dget side dofs) in
  let spec := vector_spec (dof + 1) (factr_names side dof) in
  Ok (dset ("observation.factr_raw." +:+ side) spec (dset ("observation.factr." +:+ side) spec feats)).

Definition image_feature (video : bool) (feats : list (string * feature_spec)) (i : image) :
    list (string * feature_spec) :=
  dset (im_key i) (MkFeature (IMAGE_DTYPE video) (Feature (im_shape i) ["height"; "width"; "channels"])) feats.

(** [features]: [dofs] are the arms' configured joint counts. *)
Definition features (b : FrameBuilder) (dofs : list (string * Z)) (video : bool) :
    res (list (string * feature_spec)) :=
  let l := fb_layout b in
  let? feats := foldM_res (factr_features dofs) (sides l)
    [("observation.state", vector_spec (Z.of_nat (state_dim l)) (state_names l));
     ("action", vector_spec (Z.of_nat (Layout.action_dim l)) (action_names l))] in
  Ok (foldl (image_feature video) feats (fb_images b)).

(** ** [ObservationBuilder] *)

(** The canonical observation: a frame without its (empty) action. *)
Record observation := Observation {
  ob_state : list f64;
  ob_images : list (string * (list Z * list f64));
  ob_task : string;
}.

Definition observation_builder (arms : list (string * ArmShape)) (cameras : list (string * CameraCfg))
    (instruction : string) (state_signals : list string) : res FrameBuilder :=
  frame_builder arms [] cameras instruction state_signals.

Definition observe_frame (b : FrameBuilder) (s : snapshot) : res (option observation) :=
  let? fr := build b s [] [] in
  Ok ((fun f => Observation (fr_state f) (fr_images f) (fr_task f)) <$> fr).

(** ** The ACME request *)

Record AcmeCfg := MkAcme {
  ac_image_keys : list (string * string);      (* slot -> camera *)
  ac_qpos_slice : Z * Z;
  ac_gripper_force : f64;
  ac_obs_steps : Z;
}.

Record acme_request := AcmeRequest {
  aq_images : list (string * (list Z * list f64));
  aq_qpos : list f64;
  aq_gripper_force : f64;
  aq_prompt : string;
  aq_obs_steps : Z;
}.

Definition IMAGE_PREFIX : string := "observation.images.".

(** [state[lo:hi]] with Python's bounds. *)
Definition py_slice (l : list f64) (lo hi : Z) : list f64 :=
  let n := Z.of_nat (length l) in
  let clamp i := Z.to_nat (Z.min n (Z.max 0 (if (i <? 0)%Z then i + n else i))) in
  slice l (clamp lo) (clamp hi).

Definition acme_images (cfg : AcmeCfg) (o : observation) : res (list (string * (list Z * list f64))) :=
  foldM_res (fun acc x =>
    if bool_decide (x.2 = "") then Ok acc
    else let? img := of_option PolicyError (dget (IMAGE_PREFIX +:+ x.2) (ob_images o)) in
         Ok (dset x.1 img acc)) (ac_image_keys cfg) [].

Definition acme_encode (cfg : AcmeCfg) (o : observation) : res acme_request :=
  let state := f32 <$> ob_state o in
  let '(lo, hi) := ac_qpos_slice cfg in
  let qpos := py_slice state lo hi in
  if negb (Z.of_nat (length qpos) =? hi - lo)%Z || (Z.of_nat (length state) <? hi)%Z then Raise PolicyError
  else
    let? images := acme_images cfg o in
    Ok (AcmeRequest images qpos (f32 (ac_gripper_force cfg)) (ob_task o) (ac_obs_steps cfg)).

(** ** The OpenPI request *)

(** A uint8 image in height-width-channel order, or with the channels first. *)
Definition move_last (c h w : nat) (px : list f64) : list f64 :=
  seq 0 h ≫= (fun i => seq 0 w ≫= (fun j => (fun k => default f0 (px !! ((k * h + i) * w + j))) <$> seq 0 c)).
Definition move_first (h w c : nat) (px : list f64) : list f64 :=
  seq 0 c ≫= (fun k => seq 0 h ≫= (fun i => (fun j => default f0 (px !! ((i * w + j) * c + k))) <$> seq 0 w)).

(** [_image] of a uint8 array (what the cameras publish). *)
Definition openpi_image (img : list Z * list f64) (layout : string) : res (list Z * list f64) :=
  match img.1 with
  | [a; b; c] =>
      let? hwc :=
        (if (c =? 3)%Z then Ok ([a; b; c], img.2)
         else if (a =? 3)%Z then Ok ([b; c; a], move_last (Z.to_nat a) (Z.to_nat b) (Z.to_nat c) img.2)
         else Raise PolicyError) in
      if String.eqb layout "hwc" then Ok hwc
      else if String.eqb layout "chw" then
        match hwc.1 with
        | [h; w; k] => Ok ([k; h; w], move_first (Z.to_nat h) (Z.to_nat w) (Z.to_nat k) hwc.2)
        | _ => Raise PolicyError
        end
      else Raise PolicyError
  | _ => Raise PolicyError
  end.

Record OpenPIImage := PIImage { pi_key : string; pi_source : string; pi_layout : string }.

Record OpenPIRequest := PIRequest {
  pr_state_key : string;
  pr_state : OpenPIVector;
  pr_images : list OpenPIImage;
  pr_images_key : string;
  pr_image_keys : list (string * string);
  pr_image_key_template : string -> string;      (* [image_key_template.format(camera=..)] *)
  pr_prompt_key : string;
}.

Inductive wire_value :=
  | WVector (v : list f64)
  | WImage (img : list Z * list f64)
  | WImages (imgs : list (string * (list Z * list f64)))
  | WText (s : string).

(** The images a request lists. *)
Definition listed_images (rq : OpenPIRequest) (o : observation) : res (list (string * (list Z * list f64))) :=
  foldM_res (fun acc i =>
    let? img := of_option PolicyError (dget (IMAGE_PREFIX +:+ pi_source i) (ob_images o)) in
    let? img := openpi_image img (pi_layout i) in
    Ok (dset (pi_key i) img acc)) (pr_images rq) [].

(** Every camera of the observation, under its configured or templated key. *)
Definition every_image (rq : OpenPIRequest) (o : observation) (payload : list (string * wire_value)) :
    res (list (string * wire_value)) :=
  foldM_res (fun acc x =>
    match strip_prefix IMAGE_PREFIX x.1 with
    | None => Ok acc
    | Some camera =>
        let key := default (pr_image_key_template rq camera) (dget camera (pr_image_keys rq)) in
        if bool_decide (key = "") then Ok acc
        else let? img := openpi_image x.2 "hwc" in Ok (dset key (WImage img) acc)
    end) (ob_images o) payload.

(** [OpenPIEndpointAdapter.encode_request]: the payload and the state it remembers. *)
Definition openpi_encode (rq : OpenPIRequest) (o : observation) :
    res (list (string * wire_value) * list f64) :=
  let dfc_state := f32 <$> ob_state o in
  let? state := encode_state (pr_state rq) (ob_state o) in
  let payload := [(pr_state_key rq, WVector state)] in
  let? payload :=
    match pr_images rq with
    | [] => every_image rq o payload
    | _ =>
        let? images := listed_images rq o in
        Ok (if bool_decide (pr_images_key rq = "")
            then foldl (fun d x => dset x.1 (WImage x.2) d) payload images
            else dset (pr_images_key rq) (WImages images) payload)
    end in
  Ok (dset (pr_prompt_key rq) (WText (ob_task o)) payload, dfc_state).

(** ** Lengths of the packed vectors *)

(** Packing keeps the length of the vector when every block lies inside it. *)
Lemma pack_state_length l values v : pack_state l values = Ok v ->
  Forall (fun b => b.2.1 <= b.2.2 <= state_dim l) (state_map l) -> length v = state_dim l.
Proof.
  unfold pack_state. intros H Hb.
  assert (forall bs st, Forall (fun b : (string * string) * (nat * nat) => b.2.1 <= b.2.2 <= length st) bs ->
    foldM_res (pack_state_step values) bs st = Ok v -> length v = length st) as Hgen.
  { induction bs as [|b bs IH]; intros st Hall Hf; cbn [foldM_res] in Hf; [by injection Hf as ->|].
    apply Forall_cons in Hall as [Hb1 Hbs]. unfold pack_state_step at 1 in Hf.
    destruct (dget b.1 values) as [x|]; [|done]. cbn [of_option res_bind] in Hf.
    destruct (length (f32 <$> x) =? b.2.2 - b.2.1) eqn:El; [|done]. cbn [negb res_bind] in Hf.
    apply Nat.eqb_eq in El. assert (length (splice st b.2.1 (f32 <$> x)) = length st) as Hs
      by (rewrite length_splice; lia).
    rewrite (IH _ ltac:(rewrite Hs; exact Hbs) Hf). done. }
  rewrite (Hgen _ _ ltac:(rewrite length_replicate; exact Hb) H). apply length_replicate.
Qed.

Lemma pack_action_length l primary gripper v : Layout.pack_action l primary gripper = Ok v ->
  (forall s p, s ∈ sides l -> dget s (primary_map l) = Some p -> p.1 <= p.2 <= Layout.action_dim l) ->
  length v = Layout.action_dim l.
Proof.
  unfold Layout.pack_action. intros H Hb.
  assert (forall ss st, (forall s, s ∈ ss -> s ∈ sides l) -> length st = Layout.action_dim l ->
    foldM_res (pack_action_step l primary gripper) ss st = Ok v -> length v = length st) as Hgen.
  { induction ss as [|s ss IH]; intros st Hin Hst Hf; cbn [foldM_res] in Hf; [by injection Hf as ->|].
    unfold pack_action_step at 1 in Hf. destruct (dget s primary) as [x|]; [|done]. cbn [of_option res_bind] in Hf.
    unfold primary_slice in Hf. destruct (dget s (primary_map l)) as [p|] eqn:Ep; [|done].
    cbn [of_option res_bind] in Hf. destruct (length (f32 <$> x) =? p.2 - p.1) eqn:El; [|done].
    cbn [negb] in Hf. unfold gripper_index in Hf. destruct (dget s (gripper_map l)) as [g|]; [|done].
    cbn [of_option res_bind] in Hf. apply Nat.eqb_eq in El. destruct (Hb s p) as [H1 H2]; [set_solver|done|].
    assert (length (<[g := f32 (default f0 (dget s gripper))]> (splice st p.1 (f32 <$> x))) = length st) as Hs
      by (rewrite length_insert, length_splice; lia).
    rewrite (IH _ ltac:(set_solver) ltac:(by rewrite Hs) Hf). done. }
  rewrite (Hgen (sides l) (replicate (Layout.action_dim l) f0)); [apply length_replicate|done|apply length_replicate|done].
Qed.

(** The blocks of a layout built from arms lie inside its vectors, which have a name per entry. *)
Lemma state_fold_bounds arms ks nms bl off nms' bl' off' :
  foldM_res (state_step arms) ks (nms, bl, off) = Ok (nms', bl', off') ->
  length nms = off -> Forall (fun b => b.2.1 <= b.2.2 <= off) bl ->
  length nms' = off' /\ off <= off' /\ Forall (fun b => b.2.1 <= b.2.2 <= off') bl'.
Proof.
  revert nms bl off. induction ks as [|k ks IH]; intros nms bl off H Hn Hb; cbn [foldM_res] in H.
  { injection H as <- <- <-. split_and!; [done|lia|done]. }
  unfold state_step at 1 in H. destruct (signal_dim arms k) as [d|]; [|done]. cbn [res_bind] in H.
  destruct (IH _ _ _ H) as (H1 & H2 & H3).
  - rewrite length_app, length_indexed. lia.
  - clear -Hb. induction Hb as [|[k' p] bl Hp Hb IHb]; cbn; [apply Forall_singleton; cbn; lia|].
    destruct (decide _); constructor; cbn in *; try lia; [|done].
    eapply Forall_impl; [exact Hb|]. cbn. lia.
  - split_and!; [done|lia|done].
Qed.

Lemma layout_bounds arms sigs acts l : NoDup (dkeys arms) -> from_arms arms sigs acts = Ok l ->
  length (state_names l) = state_dim l /\ length (action_names l) = Layout.action_dim l /\
  Forall (fun b => b.2.1 <= b.2.2 <= state_dim l) (state_map l) /\
  (forall s p, s ∈ sides l -> dget s (primary_map l) = Some p -> p.1 <= p.2 <= Layout.action_dim l).
Proof.
  intros Hk Hok. apply from_arms_ok in Hok as (a & Ha & Hs & Hn & Hf & Hp & Hg & Hd & Hst).
  assert (NoDup (sides l)) as Hnd.
  { rewrite Hs. apply NoDup_filter_list. by rewrite (sorted_sides_perm arms). }
  destruct (action_fold_tiled arms (sides l) _ a l Ha Hnd Hp Hg Hf Hd eq_refl) as [Hlen (ds & Ht & _)].
  apply state_fold_bounds in Hst as (H1 & _ & H3); [|done|constructor].
  split_and!; [done|congruence|done|].
  intros s p Hin Hsp. assert (forall ss off ds, tiled l off ss ds -> s ∈ ss -> p.1 <= p.2 <= Layout.action_dim l) as Hgen;
    [|by eapply Hgen].
  assert (forall ss off ds, tiled l off ss ds -> off <= Layout.action_dim l) as Hle.
  { induction ss as [|x ss IH]; intros off [|d ds'] Ht'; try done; cbn in Ht'; [lia|].
    destruct Ht' as (_ & _ & _ & Ht'%IH). lia. }
  induction ss as [|x ss IH]; intros off [|d ds'] Ht' Hx; try done; [set_solver|].
  destruct Ht' as (Hp' & _ & _ & Ht'). apply elem_of_cons in Hx as [->|Hx]; [|by eapply IH].
  rewrite Hsp in Hp'. injection Hp' as ->. cbn. apply Hle in Ht'. lia.
Qed.

(** ** Lookups in the feature table *)

Lemma string_app_inj (a b c : string) : (a +:+ b = a +:+ c)%string -> b = c.
Proof. induction a as [|x a IH]; cbn; [done|]. intros [= H]. by apply IH. Qed.

(** Adding the images leaves the other keys alone. *)
Lemma image_features_other video imgs feats k : (forall i, i ∈ imgs -> im_key i <> k) ->
  dget k (foldl (image_feature video) feats imgs) = dget k feats.
Proof.
  revert feats. induction imgs as [|i imgs IH]; intros feats Hk; [done|]. cbn [foldl].
  rewrite IH by (intros; apply Hk; set_solver). apply dget_dset_ne. intros ->. apply (Hk i); [set_solver|done].
Qed.

Lemma image_features_get video imgs feats i : NoDup (im_key <$> imgs) -> i ∈ imgs ->
  dget (im_key i) (foldl (image_feature video) feats imgs) =
    Some (MkFeature (IMAGE_DTYPE video) (Feature (im_shape i) ["height"; "width"; "channels"])).
Proof.
  revert feats. induction imgs as [|j imgs IH]; intros feats Hnd Hi; [set_solver|].
  rewrite fmap_cons in Hnd. apply NoDup_cons in Hnd as [Hni Hnd]. cbn [foldl].
  apply elem_of_cons in Hi as [->|Hi]; [|by apply IH]. rewrite image_features_other; [apply dget_dset_eq|].
  intros i Hi Heq. apply Hni. rewrite <-Heq. by apply list_elem_of_fmap_2.
Qed.

Lemma factr_features_other dofs ss feats feats' k : foldM_res (factr_features dofs) ss feats = Ok feats' ->
  (forall s, s ∈ ss -> k <> ("observation.factr." +:+ s)%string /\ k <> ("observation.factr_raw." +:+ s)%string) ->
  dget k feats' = dget k feats.
Proof.
  revert feats. induction ss as [|s ss IH]; intros feats H Hk; cbn [foldM_res] in H; [by injection H as ->|].
  unfold factr_features at 1 in H. destruct (dget s dofs) as [d|]; [|done]. cbn [of_option res_bind] in H.
  rewrite (IH _ H) by (intros; apply Hk; set_solver).
  destruct (Hk s ltac:(set_solver)). by rewrite !dget_dset_ne.
Qed.

Lemma factr_features_get dofs ss feats feats' s : foldM_res (factr_features dofs) ss feats = Ok feats' ->
  NoDup ss -> s ∈ ss -> exists d, dget s dofs = Some d /\
    dget ("observation.factr." +:+ s)%string feats' = Some (vector_spec (d + 1) (factr_names s d)) /\
    dget ("observation.factr_raw." +:+ s)%string feats' = Some (vector_spec (d + 1) (factr_names s d)).
Proof.
  revert feats. induction ss as [|x ss IH]; intros feats H Hnd Hs; [set_solver|]. cbn [foldM_res] in H.
  apply NoDup_cons in Hnd as [Hni Hnd]. unfold factr_features at 1 in H.
  destruct (dget x dofs) as [d|] eqn:Ed; [|done]. cbn [of_option res_bind] in H.
  apply elem_of_cons in Hs as [->|Hs]; [|by eapply IH]. exists d. split; [done|].
  assert (forall y, y ∈ ss -> y <> x) as Hne by (intros y Hy ->; done).
  rewrite !(factr_features_other _ _ _ _ _ H).
  - split; [rewrite dget_dset_ne; [apply dget_dset_eq|discriminate]|apply dget_dset_eq].
  - intros y Hy. split; [discriminate|]. intros Heq%string_app_inj. by apply (Hne y).
  - intros y Hy. split; [|discriminate]. intros Heq%string_app_inj. by apply (Hne y).
Qed.

(** An image key is none of the others. *)
Lemma image_keys_prefix cameras imgs : mapM_res camera_images cameras = Ok imgs ->
  forall i, i ∈ concat imgs -> exists n, im_key i = ("observation.images." +:+ n)%string.
Proof.
  intros H i Hi. apply mapM_res_Forall2 in H. apply list_elem_of_In, in_concat in Hi as (l & Hl & Hi).
  apply list_elem_of_In in Hl. apply list_elem_of_In in Hi. apply list_elem_of_lookup in Hl as [j Hj].
  destruct (Forall2_lookup_r _ _ _ _ _ H Hj) as (c & _ & Hc). unfold camera_images in Hc.
  apply mapM_res_Forall2 in Hc. apply list_elem_of_lookup in Hi as [k Hk].
  destruct (Forall2_lookup_r _ _ _ _ _ Hc Hk) as (v & _ & Hv). unfold image_of in Hv.
  destruct (view_shape c.2 v); [|done]. injection Hv as <-. by eexists.
Qed.

Lemma build_images_spec s imgs out : build_images s imgs = Ok (Some out) ->
  Forall2 (fun i x => x.1 = im_key i /\ x.2.1 = im_shape i /\
    Z.of_nat (length x.2.2) = foldr Z.mul 1%Z (im_shape i)) imgs out.
Proof.
  revert out. induction imgs as [|i imgs IH]; intros out; cbn [build_images]; [by intros [= <-]|].
  destruct (newest_in s (im_stream i)) as [v|]; [|done]. unfold reshape.
  destruct (_ =? _)%Z eqn:El; [|done]. cbn [res_bind].
  destruct (build_images s imgs) as [[r|]|]; cbn [res_bind]; [|done..]. intros [= <-].
  constructor; [|by apply IH]. cbn. split_and!; [done..|]. lia.
Qed.

(** ** Theorem *)

(** the frames match the schema.  For a frame builder over arms with distinct names and cameras
    with distinct keys, every complete frame it assembles has, for the state, the action and each
    image, a declared feature with exactly its shape (and one name per entry of a vector); each FACTR
    vector it holds is declared as the side's joint count plus the gripper.  (The length of the FACTR
    vectors is the leader stream's, which nothing compares with that count.) *)
Theorem frame_conforms (arms : list (string * ArmShape)) (teleop_sides : list string)
    (cameras : list (string * CameraCfg)) (instruction : string) (sigs : list string) (b : FrameBuilder)
    (dofs : list (string * Z)) (video : bool) (feats : list (string * feature_spec))
    (s : snapshot) (q_d : list (string * list f64)) (gripper : list (string * f64)) (fr : frame)
    (Hkeys : NoDup (dkeys arms)) (Hb : frame_builder arms teleop_sides cameras instruction sigs = Ok b)
    (Himg : NoDup (im_key <$> fb_images b))
    (Hf : features b dofs video = Ok feats) (Hfr : build b s q_d gripper = Ok (Some fr)) :
  (exists names, dget "observation.state" feats = Some (vector_spec (Z.of_nat (length (fr_state fr))) names) /\
     length names = length (fr_state fr)) /\
  (exists names, dget "action" feats = Some (vector_spec (Z.of_nat (length (fr_action fr))) names) /\
     length names = length (fr_action fr)) /\
  (forall key shape px, (key, (shape, px)) ∈ fr_images fr ->
     exists names, dget key feats = Some (MkFeature (IMAGE_DTYPE video) (Feature shape names)) /\
       Z.of_nat (length px) = foldr Z.mul 1%Z shape) /\
  (forall side v, (side, v) ∈ fr_factr fr -> exists d, dget side dofs = Some d /\
     dget ("observation.factr." +:+ side)%string feats = Some (vector_spec (d + 1) (factr_names side d))).
Proof.
  unfold frame_builder in Hb. destruct (from_arms arms sigs teleop_sides) as [l|] eqn:El; [|done]. cbn [res_bind] in Hb.
  destruct (mapM_res camera_images cameras) as [imgs|] eqn:Ei; [|done]. cbn [res_bind] in Hb. injection Hb as <-.
  cbn [fb_images fb_layout] in *. pose proof (image_keys_prefix _ _ Ei) as Hpre.
  destruct (layout_bounds _ _ _ _ Hkeys El) as (Hn1 & Hn2 & Hb1 & Hb2).
  assert (NoDup (sides l)) as Hnd.
  { apply from_arms_ok in El as (a & _ & -> & _). apply NoDup_filter_list. by rewrite (sorted_sides_perm arms). }
  unfold features in Hf. cbn [fb_layout fb_images] in Hf.
  destruct (foldM_res (factr_features dofs) (sides l) _) as [feats0|] eqn:Ef; [|done]. cbn [res_bind] in Hf.
  injection Hf as <-.
  assert (forall k, (forall n, k <> ("observation.images." +:+ n)%string) ->
    dget k (foldl (image_feature video) feats0 (concat imgs)) = dget k feats0) as Hskip.
  { intros k Hk. apply image_features_other. intros i (n & ->)%Hpre Heq. by apply (Hk n). }
  unfold build in Hfr. cbn [fb_layout fb_images fb_instruction] in Hfr.
  destruct (all_newest s _) as [vals|]; [|done]. destruct (pack_state l vals) as [st|] eqn:Est; [|done].
  cbn [res_bind] in Hfr. destruct (existsb _ (sides l)); [done|].
  destruct (Layout.pack_action l q_d gripper) as [act|] eqn:Eact; [|done]. cbn [res_bind] in Hfr.
  destruct (all_newest s ((fun side => (side, factr_stream_name side)) <$> sides l)) as [conv|] eqn:Ec; [|done].
  destruct (all_newest s ((fun side => (side, raw_factr_stream_name side)) <$> sides l)) as [raw|]; [|done].
  destruct (build_images s (concat imgs)) as [[out|]|] eqn:Eb; cbn [res_bind] in Hfr; [|done..].
  injection Hfr as <-. cbn [fr_state fr_action fr_images fr_factr].
  apply pack_state_length in Est; [|done]. apply pack_action_length in Eact; [|done].
  split_and!.
  - exists (state_names l). rewrite Hskip by done. rewrite (factr_features_other _ _ _ _ _ Ef) by done.
    by rewrite Est, Hn1.
  - exists (action_names l). rewrite Hskip by done. rewrite (factr_features_other _ _ _ _ _ Ef) by done.
    by rewrite Eact, Hn2.
  - intros key shape px Hin. apply build_images_spec in Eb. apply list_elem_of_lookup in Hin as [j Hj].
    destruct (Forall2_lookup_r _ _ _ _ _ Eb Hj) as (i & Hi & H1 & H2 & H3). cbn in H1, H2, H3. subst key shape.
    eexists. split; [|done]. apply image_features_get; [done|]. by eapply list_elem_of_lookup_2.
  - intros side v Hin. apply list_elem_of_fmap in Hin as ((x, w) & [= -> ->] & Hin).
    assert (x ∈ sides l) as Hx.
    { unfold all_newest in Ec. apply mapM_Some in Ec. apply list_elem_of_lookup in Hin as [j Hj].
      destruct (Forall2_lookup_r _ _ _ _ _ Ec Hj) as ((y, n) & Hy & Hyx). cbn in Hyx.
      destruct (newest_in s n); [|done]. injection Hyx as <- <-.
      apply list_lookup_fmap_Some in Hy as (z & [= -> ->] & Hz). by eapply list_elem_of_lookup_2. }
    destruct (factr_features_get _ _ _ _ _ Ef Hnd Hx) as (d & Hd & Hd1 & _). exists d. split; [done|].
    by rewrite Hskip by done.
Qed.

Definition obs_control : ControlCfg := rizon_qpos.
Definition obs_arms : list (string * ArmShape) := [("left", Layout.Arm [("q", 7)] obs_control)].
Definition obs_cameras : list (string * CameraCfg) := [("wrist", demo_camera)].
Definition obs_snapshot : snapshot :=
  [("left/q", Some (replicate 7 f0)); ("factr/left", Some (replicate 8 f0));
   ("factr/raw/left", Some (replicate 8 f0)); ("cam/wrist/left", Some (replicate 12 f0))].
Definition obs_builder : res FrameBuilder := frame_builder obs_arms ["left"] obs_cameras "fold" ["q"].

Lemma frame_conforms_witness : exists b feats fr,
  obs_builder = Ok b /\ features b [("left", 7%Z)] true = Ok feats /\
  build b obs_snapshot [("left", replicate 7 f1)] [("left", f0)] = Ok (Some fr) /\
  length (fr_action fr) = 8 /\ length (fr_images fr) = 1 /\
  exists names, dget "action" feats = Some (vector_spec (Z.of_nat (length (fr_action fr))) names) /\
    length names = length (fr_action fr).
Proof.
  destruct obs_builder as [b|] eqn:Eb; [|vm_compute in Eb; discriminate].
  destruct (features b [("left", 7%Z)] true) as [feats|] eqn:Ef;
    [|vm_compute in Eb; injection Eb as <-; vm_compute in Ef; discriminate].
  destruct (build b obs_snapshot [("left", replicate 7 f1)] [("left", f0)]) as [[fr|]|] eqn:Er;
    [|vm_compute in Eb; injection Eb as <-; vm_compute in Er; discriminate..].
  exists b, feats, fr. split; [reflexivity|]. split; [exact Ef|]. split; [exact Er|].
  assert (length (fr_action fr) = 8 /\ length (fr_images fr) = 1) as [H1 H2].
  { clear Ef. vm_compute in Eb. injection Eb as <-. vm_compute in Er. injection Er as <-. split; reflexivity. }
  split; [exact H1|]. split; [exact H2|].
  apply (frame_conforms obs_arms ["left"] obs_cameras "fold" ["q"] b [("left", 7%Z)] true feats obs_snapshot
    [("left", replicate 7 f1)] [("left", f0)] fr); [| |  |exact Ef|exact Er].
  - apply (bool_decide_unpack _). vm_compute. exact I.
  - exact Eb.
  - clear Ef Er H1 H2. vm_compute in Eb. injection Eb as <-. apply (bool_decide_unpack _). vm_compute. exact I.
Defined.
