(* ===== verification/PolicyClient.v ===== *)
(** * The policy clients

    Models [policy/client.py]: the msgpack-numpy hooks of the wire format, the websocket and HTTP
    transports with their connection state, the remote policy with its communication events, and
    the stand-still policy.  The msgpack, websockets, requests and torch packages are inputs: what
    connecting, sending and receiving do, and, for msgpack, the class [Msgpack] with the documented
    behaviour of its two functions. *)

From Stdlib Require Import Ascii String.
From S2P Require Import Prelude Float64 Ring Streams Text Channel Layout Json.
Local Open Scope string_scope.
Local Open Scope nat_scope.
Local Open Scope list_scope.

(** ** The wire format *)

(** What the code relies on of numpy's data types: the one-letter kind, the bytes per element,
    [dtype.str], which [np.dtype] reads back, and whether the scalars of the type are Python's own
    ([np.float64] is a [float], [np.str_] a [str]). *)
Class Dtypes (D : Type) := {
  dt_kind : D -> ascii;
  dt_size : D -> nat;
  dt_str : D -> string;
  dt_python : D -> bool;
  np_dtype : string -> option D;
  np_dtype_str d : np_dtype (dt_str d) = Some d;
}.

(** A dictionary key on the wire: bytes or text. *)
Inductive mkey := KBytes (s : string) | KText (s : string).

#[export] Instance mkey_eq_dec : EqDecision mkey.
Proof. solve_decision. Defined.

(** Values the codec sees: msgpack's own, and numpy arrays and scalars (bytes as strings). *)
Unset Elimination Schemes.
Inductive mval (D : Type) :=
  | MScalar (v : jval)
  | MBytes (s : string)
  | MList (l : list (mval D))
  | MMap (l : list (mkey * mval D))
  | MArray (d : D) (shape : list nat) (bytes : string)
  | MGeneric (d : D) (item : jval).
Set Elimination Schemes.

Arguments MScalar {D}.
Arguments MBytes {D}.
Arguments MList {D}.
Arguments MMap {D}.
Arguments MArray {D}.
Arguments MGeneric {D}.

Section wire.
Context {D : Type} `{Dtypes D}.

Definition unsupported (d : D) : bool :=
  bool_decide (dt_kind d ∈ ["V"; "O"; "c"]%char).

(** [pack_array]: the hook applied to what msgpack cannot encode itself. *)
Definition pack_array (v : mval D) : res (mval D) :=
  match v with
  | MArray d shape bytes =>
      if unsupported d then Raise ValueError
      else Ok (MMap [(KBytes "__ndarray__", MScalar (JBool true)); (KBytes "data", MBytes bytes);
                     (KBytes "dtype", MScalar (JStr (dt_str d)));
                     (KBytes "shape", MList ((fun n => MScalar (JInt (Z.of_nat n))) <$> shape))])
  | MGeneric d item =>
      if unsupported d then Raise ValueError
      else Ok (MMap [(KBytes "__npgeneric__", MScalar (JBool true)); (KBytes "data", MScalar item);
                     (KBytes "dtype", MScalar (JStr (dt_str d)))])
  | _ => Ok v
  end.

(** One entry of [tuple(obj[b"shape"])]. *)
Definition shape_entry (v : mval D) : res nat :=
  match v with
  | MScalar (JInt z) => if (z <? 0)%Z then Raise ValueError else Ok (Z.to_nat z)
  | _ => Raise TypeError
  end.

(** [np.dtype(v)]. *)
Definition dtype_of (v : mval D) : res D :=
  match v with MScalar (JStr s) => of_option TypeError (np_dtype s) | _ => Raise TypeError end.

(** [np.ndarray(buffer=.., dtype=.., shape=..)]: a longer buffer is read in part. *)
Definition np_ndarray (buffer : mval D) (d : D) (shape : list nat) : res (mval D) :=
  match buffer with
  | MBytes s =>
      let n := size shape * dt_size d in
      if String.length s <? n then Raise TypeError else Ok (MArray d shape (substring 0 n s))
  | _ => Raise TypeError
  end.

(** [unpack_array]: the hook applied to every decoded dictionary. *)
Definition unpack_array (l : list (mkey * mval D)) : res (mval D) :=
  if dmem (KBytes "__ndarray__") l then
    let? buffer := of_option KeyError (dget (KBytes "data") l) in
    let? d := (let? v := of_option KeyError (dget (KBytes "dtype") l) in dtype_of v) in
    let? sh := (let? v := of_option KeyError (dget (KBytes "shape") l) in
                match v with MList sh => mapM_res shape_entry sh | _ => Raise TypeError end) in
    np_ndarray buffer d sh
  else if dmem (KBytes "__npgeneric__") l then
    let? d := (let? v := of_option KeyError (dget (KBytes "dtype") l) in dtype_of v) in
    let? v := of_option KeyError (dget (KBytes "data") l) in
    match v with MScalar item => Ok (MGeneric d item) | _ => Raise TypeError end
  else Ok (MMap l).

(** A decoded value with the object hook applied to every dictionary, innermost first. *)
Fixpoint hooked (hook : list (mkey * mval D) -> res (mval D)) (v : mval D) : res (mval D) :=
  match v with
  | MList l =>
      res_map MList ((fix go (l : list (mval D)) : res (list (mval D)) :=
        match l with
        | [] => Ok []
        | v :: l => let? x := hooked hook v in let? xs := go l in Ok (x :: xs)
        end) l)
  | MMap l =>
      let? l' := (fix go (l : list (mkey * mval D)) : res (list (mkey * mval D)) :=
        match l with
        | [] => Ok []
        | (k, v) :: l => let? x := hooked hook v in let? xs := go l in Ok ((k, x) :: xs)
        end) l in
      hook l'
  | _ => Ok v
  end.

(** The built-in value a payload is encoded as: what is not built in is replaced by what the
    [default] hook makes of it, again and again. *)
Unset Elimination Schemes.
Inductive lowers (default_hook : mval D -> res (mval D)) : mval D -> mval D -> Prop :=
  | lowers_scalar v : lowers default_hook (MScalar v) (MScalar v)
  | lowers_bytes s : lowers default_hook (MBytes s) (MBytes s)
  | lowers_list l l' : Forall2 (lowers default_hook) l l' -> lowers default_hook (MList l) (MList l')
  | lowers_map l l' : NoDup (dkeys l) -> Forall2 (fun x y => x.1 = y.1 /\ lowers default_hook x.2 y.2) l l' ->
      lowers default_hook (MMap l) (MMap l')
  | lowers_array d shape b p q : default_hook (MArray d shape b) = Ok p -> lowers default_hook p q ->
      lowers default_hook (MArray d shape b) q
  | lowers_generic d i p q : dt_python d = false -> default_hook (MGeneric d i) = Ok p -> lowers default_hook p q ->
      lowers default_hook (MGeneric d i) q
  | lowers_python d i : dt_python d = true -> lowers default_hook (MGeneric d i) (MScalar i).
Set Elimination Schemes.

(** Induction through lists and dictionaries. *)
Definition mval_ind (P : mval D -> Prop) (Hs : forall v, P (MScalar v)) (Hb : forall s, P (MBytes s))
    (Hl : forall l, Forall P l -> P (MList l)) (Hm : forall l, Forall (fun x => P x.2) l -> P (MMap l))
    (Ha : forall d sh b, P (MArray d sh b)) (Hg : forall d i, P (MGeneric d i)) : forall v, P v :=
  fix go v :=
    match v with
    | MScalar v => Hs v
    | MBytes s => Hb s
    | MList l => Hl l ((fix all l : Forall P l := match l with
                         | [] => @List.Forall_nil _ P
                         | x :: l => @List.Forall_cons _ P x l (go x) (all l)
                         end) l)
    | MMap l => Hm l ((fix all l : Forall (fun x => P x.2) l := match l with
                        | [] => @List.Forall_nil _ (fun x => P x.2)
                        | x :: l => @List.Forall_cons _ (fun x => P x.2) x l (go x.2) (all l)
                        end) l)
    | MArray d sh b => Ha d sh b
    | MGeneric d i => Hg d i
    end.

(** What can be sent: arrays of a supported type with as many bytes as their shape needs, and
    dictionaries that do not use the two reserved keys. *)
Fixpoint sendable (v : mval D) : Prop :=
  match v with
  | MScalar _ | MBytes _ => True
  | MList l => (fix all l := match l with [] => True | v :: l => sendable v /\ all l end) l
  | MMap l => NoDup (dkeys l) /\ (KBytes "__ndarray__" ∉ dkeys l) /\ (KBytes "__npgeneric__" ∉ dkeys l) /\
      (fix all l := match l with [] => True | (_, v) :: l => sendable v /\ all l end) l
  | MArray d sh b => unsupported d = false /\ String.length b = size sh * dt_size d
  | MGeneric d _ => unsupported d = false
  end.

(** What a value is on arrival: a numpy scalar that is a Python value comes back as that. *)
Fixpoint arrives (v : mval D) : mval D :=
  match v with
  | MList l => MList (arrives <$> l)
  | MMap l => MMap ((fun x => (x.1, arrives x.2)) <$> l)
  | MGeneric d i => if dt_python d then MScalar i else v
  | _ => v
  end.

(** The nested loops are maps over the elements. *)
Definition hooked_entry hook (x : mkey * mval D) : res (mkey * mval D) := res_map (pair x.1) (hooked hook x.2).

Lemma hooked_MList hook l : hooked hook (MList l) = res_map MList (mapM_res (hooked hook) l).
Proof. cbn [hooked]. f_equal. induction l as [|v l IH]; [done|]. cbn [mapM_res]. by rewrite IH. Qed.
Lemma hooked_MMap hook l : hooked hook (MMap l) = let? l' := mapM_res (hooked_entry hook) l in hook l'.
Proof.
  cbn [hooked]. f_equal. induction l as [|[k v] l IH]; [done|]. cbn [mapM_res]. rewrite IH.
  unfold hooked_entry at 2. cbn. by destruct (hooked hook v).
Qed.

(** A list of values, each of which is encoded and comes back. *)
Lemma mapM_inverse {A} (R : A -> A -> Prop) (g : A -> res A) (h : A -> A) (l : list A) :
  (forall x, x ∈ l -> exists y, R x y /\ g y = Ok (h x)) -> exists l', Forall2 R l l' /\ mapM_res g l' = Ok (h <$> l).
Proof.
  induction l as [|x l IH]; intros Hl; [by exists []|]. destruct (Hl x) as (y & Hf & Hg); [set_solver|].
  destruct IH as (l' & H1 & H2); [intros; apply Hl; set_solver|]. exists (y :: l'). split; [by constructor|]. cbn [mapM_res].
  rewrite Hg. cbn [res_bind]. by rewrite H2.
Qed.

Lemma substring_all s : substring 0 (String.length s) s = s.
Proof. induction s as [|c s IH]; simpl; [done|]. by rewrite IH. Qed.

Lemma hooked_plain_list hook l : (forall v, v ∈ l -> hooked hook v = Ok v) -> hooked hook (MList l) = Ok (MList l).
Proof.
  intros Hl. rewrite hooked_MList. assert (mapM_res (hooked hook) l = Ok l) as ->; [|done].
  induction l as [|v l IH]; [done|]. cbn [mapM_res]. rewrite Hl by set_solver. cbn [res_bind].
  rewrite IH by (intros; apply Hl; set_solver). done.
Qed.

Lemma shape_entries sh : mapM_res shape_entry ((fun n => MScalar (JInt (Z.of_nat n))) <$> sh) = Ok sh.
Proof.
  induction sh as [|n sh IH]; [done|]. rewrite fmap_cons. cbn [mapM_res shape_entry].
  rewrite (proj2 (Z.ltb_ge _ _)) by lia. cbn [res_bind]. rewrite IH. cbn. by rewrite Nat2Z.id.
Qed.

(** What the two hooks make of a value on the way out and back. *)
Definition carried (v : mval D) : Prop := exists p, lowers pack_array v p /\ hooked unpack_array p = Ok (arrives v).

Ltac lowered :=
  repeat first [apply lowers_scalar | apply lowers_bytes | apply Forall2_nil | apply Forall2_cons; split
               | split; [reflexivity|] | progress cbn [snd fst]].

Lemma array_carried d sh b : unsupported d = false -> String.length b = size sh * dt_size d -> carried (MArray d sh b).
Proof.
  intros Hu Hb. set (shl := MList ((fun n => MScalar (JInt (Z.of_nat n))) <$> sh) : mval D).
  assert (lowers pack_array shl shl) as Hl.
  { apply lowers_list. clear Hb. induction sh as [|n sh IH]; [apply Forall2_nil_2|]. apply Forall2_cons_2; [constructor|exact IH]. }
  eexists. split.
  - eapply lowers_array; [cbn [pack_array]; by rewrite Hu|]. apply lowers_map; [|by lowered].
    apply (bool_decide_unpack _). vm_compute. exact I.
  - assert (hooked unpack_array shl = Ok shl) as Hsh.
    { apply hooked_plain_list. by intros v (n & -> & _)%list_elem_of_fmap. }
    fold shl. cbn [hooked res_bind]. rewrite Hsh. cbn [res_bind]. unfold unpack_array.
    set (L := [_; _; _; _]). change (dmem (KBytes "__ndarray__") L) with true.
    change (dget (KBytes "data") L) with (Some (@MBytes D b)).
    change (dget (KBytes "dtype") L) with (Some (@MScalar D (JStr (dt_str d)))).
    change (dget (KBytes "shape") L) with (Some shl). cbn [of_option res_bind dtype_of].
    rewrite np_dtype_str. cbn [of_option res_bind]. unfold shl. rewrite shape_entries. cbn [res_bind np_ndarray].
    rewrite <-Hb, Nat.ltb_irrefl. by rewrite substring_all.
Qed.

Lemma generic_carried d i : unsupported d = false -> carried (MGeneric d i).
Proof.
  intros Hu. unfold carried. cbn [arrives]. destruct (dt_python d) eqn:Ep; [by exists (MScalar i); split; [constructor|]|].
  eexists. split.
  - eapply lowers_generic; [done|cbn [pack_array]; by rewrite Hu|]. apply lowers_map; [|by lowered].
    apply (bool_decide_unpack _). vm_compute. exact I.
  - cbn [hooked res_bind]. unfold unpack_array. set (L := [_; _; _]).
    change (dmem (KBytes "__ndarray__") L) with false. change (dmem (KBytes "__npgeneric__") L) with true.
    change (dget (KBytes "data") L) with (Some (@MScalar D i)).
    change (dget (KBytes "dtype") L) with (Some (@MScalar D (JStr (dt_str d)))). cbn [of_option res_bind dtype_of].
    by rewrite np_dtype_str.
Qed.

Lemma arrived_keys (l : list (mkey * mval D)) : dkeys ((fun x => (x.1, arrives x.2)) <$> l) = dkeys l.
Proof. unfold dkeys. rewrite <-list_fmap_compose. by apply list_fmap_ext. Qed.

Lemma wire_carries v : sendable v -> carried v.
Proof.
  induction v as [v|s|l IH|l IH|d sh b|d i] using mval_ind; intros Hs.
  - exists (MScalar v). by split; [constructor|].
  - exists (MBytes s). by split; [constructor|].
  - destruct (mapM_inverse (lowers pack_array) (hooked unpack_array) arrives l) as (l' & H1 & H2).
    { revert Hs. induction IH as [|v l Hv _ IHl]; [set_solver|]. intros [H1 H2] x [->|Hx]%elem_of_cons; [by apply Hv|].
      by apply IHl. }
    exists (MList l'). rewrite hooked_MList, H2. by split; [constructor|].
  - destruct Hs as (Hnd & Hn1 & Hn2 & Hs).
    destruct (mapM_inverse (fun x y => x.1 = y.1 /\ lowers pack_array x.2 y.2) (hooked_entry unpack_array)
      (fun x => (x.1, arrives x.2)) l) as (l' & H1 & H2).
    { clear Hn1 Hn2 Hnd. revert Hs. induction IH as [|[k v] l Hv _ IHl]; [set_solver|].
      intros [H1 H2] x [->|Hx]%elem_of_cons; [|by apply IHl].
      destruct (Hv H1) as (w & Hp & Hu). exists (k, w). unfold hooked_entry. cbn [fst snd] in *. by rewrite Hu. }
    exists (MMap l'). rewrite hooked_MMap, H2. cbn [res_map res_bind]. split; [by constructor|].
    unfold unpack_array. by rewrite !(proj2 (dmem_false _ _)) by by rewrite arrived_keys.
  - destruct Hs. by apply array_carried.
  - by apply generic_carried.
Qed.
End wire.

(** ** The websocket transport *)

(** A received frame: text (a server-side traceback) or bytes. *)
Inductive wframe (W : Type) := FText | FBinary (w : W).
Arguments FText {W}.
Arguments FBinary {W}.

(** The msgpack package.  [packb(v, default=h)] encodes a built-in value, and anything else as [h]
    turns it into one; [unpackb(f, object_hook=h)] decodes what was encoded, with [h] applied to every
    dictionary, innermost first.  Encoding may refuse a value for its limits (nesting, 64-bit
    integers) or for what the hook raises or leaves unencodable; decoding refuses a frame that is not
    well-formed bytes, or with what the hook raises. *)
Class Msgpack (D W : Type) `{Dtypes D} := {
  packb : (mval D -> res (mval D)) -> mval D -> res W;
  unpackb : (list (mkey * mval D) -> res (mval D)) -> wframe W -> res (mval D);
  unpackb_packb default_hook hook v p w : lowers default_hook v p -> packb default_hook v = Ok w ->
    unpackb hook (FBinary w) = hooked hook p;
  packb_limits default_hook v p e : lowers default_hook v p -> packb default_hook v = Raise e ->
    e = ValueError \/ e = OverflowError;
  packb_raises default_hook v e : packb default_hook v = Raise e ->
    e = TypeError \/ e = ValueError \/ e = OverflowError \/ exists x, default_hook x = Raise e;
  unpackb_raises hook f e : unpackb hook f = Raise e ->
    e = TypeError \/ e = ValueError \/ exists l, hook l = Raise e;
}.

Record transport (D : Type) := Transport { tr_ws : bool; tr_metadata : option (mval D) }.
Arguments Transport {D}.
Arguments tr_ws {D}.
Arguments tr_metadata {D}.

(** What one [_open] meets: the connection, then the metadata frame. *)
Record opening (W : Type) := Opening { on_connect : res unit; on_metadata : res (wframe W) }.
Arguments Opening {W}.
Arguments on_connect {W}.
Arguments on_metadata {W}.

(** One pass of the connect loop: the attempt, then the stop flag and the clock. *)
Record ws_attempt (W : Type) := Attempt { at_open : opening W; at_stop : bool; at_now : f64 }.
Arguments Attempt {W}.
Arguments at_open {W}.
Arguments at_stop {W}.
Arguments at_now {W}.

(** [(OSError, TimeoutError, WebSocketException)]. *)
Definition transient (e : exn) : bool :=
  match e with
  | OSError | FileNotFoundError | FileExistsError | TimeoutError | WebSocketException => true
  | _ => false
  end.

Section websocket.
Context {D W : Type} `{Msgpack D W}.

(** [msgpack.unpackb(frame, object_hook=unpack_array)]. *)
Definition unpack_frame (f : wframe W) : res (mval D) := unpackb unpack_array f.

(** [_drop]: closing never raises. *)
Definition drop_ws : ST (transport D) unit := st_modify (fun t => Transport false (tr_metadata t)).

Definition ws_open (o : opening W) : ST (transport D) unit :=
  st_lift (on_connect o);;
  st_modify (fun t => Transport true (tr_metadata t));;
  v ← st_lift (let? f := on_metadata o in unpack_frame f);
  st_modify (fun t => Transport (tr_ws t) (Some v)).

(** [_connect]. *)
Fixpoint ws_connect (deadline : f64) (attempts : list (ws_attempt W)) : ST (transport D) unit :=
  match attempts with
  | [] => st_running
  | a :: attempts =>
      try_except (ws_open (at_open a))
        (fun e =>
           if transient e then
             Some (drop_ws;;
                   if at_stop a then st_raise PolicyUnavailable
                   else if fle deadline (at_now a) then st_raise PolicyUnavailable
                   else ws_connect deadline attempts)
           else None)
  end.

(** [WebsocketTransport.__init__]; [wire]: whether the wire packages import. *)
Definition websocket_transport (wire : bool) (start connect_timeout_s : f64) (attempts : list (ws_attempt W)) :
    ST (transport D) unit :=
  if wire then ws_connect (fadd start connect_timeout_s) attempts else st_raise PolicyUnavailable.

(** What one inference meets: the reconnection, the send, the reply. *)
Record exchange := Exchange { ex_open : opening W; ex_send : res unit; ex_recv : res (wframe W) }.

(** [except (OSError, TimeoutError, WebSocketException): self._drop(); raise PolicyError]. *)
Definition drop_and_fail {A} (m : ST (transport D) A) : ST (transport D) A :=
  try_except m (fun e => if transient e then Some (drop_ws;; st_raise PolicyError) else None).

Definition ws_infer (x : exchange) (payload : mval D) : ST (transport D) (mval D) :=
  t ← st_get;
  (if tr_ws t then mret tt else drop_and_fail (ws_open (ex_open x)));;
  response ← drop_and_fail
    (st_lift (let? _ := packb pack_array payload in let? _ := ex_send x in ex_recv x));
  match response with
  | FText => drop_ws;; st_raise PolicyError
  | FBinary _ => st_lift (unpack_frame response)
  end.

Definition ws_close : ST (transport D) unit := drop_ws.

(** The connection survives a reply and is dropped by a policy error. *)
Lemma drop_and_fail_cases {A} (m : ST (transport D) A) t t' o : drop_and_fail m t = (t', o) ->
  (exists e, (m t).2 = Raised e /\ transient e = true /\ o = Raised PolicyError /\ tr_ws t' = false) \/
  (m t = (t', o) /\ forall e, o = Raised e -> transient e = false).
Proof.
  unfold drop_and_fail, try_except. destruct (m t) as [t1 [a|e|]] eqn:E.
  - intros [= <- <-]. right. by split.
  - destruct (transient e) eqn:Ee.
    + intros [= <- <-]. left. exists e. by rewrite Ee.
    + intros [= <- <-]. right. split; [done|]. by intros ? [= <-].
  - intros [= <- <-]. right. by split.
Qed.

(** The codec's own exceptions. *)
Definition codec_error (e : exn) : Prop := e = KeyError \/ e = TypeError \/ e = ValueError \/ e = OverflowError.

Lemma mapM_res_Raise {A B} (f : A -> res B) l e : mapM_res f l = Raise e -> exists x, x ∈ l /\ f x = Raise e.
Proof.
  induction l as [|x l IH]; cbn [mapM_res]; [done|]. destruct (f x) as [y|e'] eqn:E; cbn [res_bind].
  - destruct (mapM_res f l); cbn [res_bind]; [done|]. intros [= ->]. destruct (IH eq_refl) as (z & Hz & Hf).
    exists z. split; [set_solver|done].
  - intros [= ->]. exists x. split; [set_solver|done].
Qed.

Lemma bind_error {A B} (c : res A) (k : A -> res B) e (P : exn -> Prop) :
  res_bind c k = Raise e -> (forall e, c = Raise e -> P e) -> (forall a, c = Ok a -> k a = Raise e -> P e) -> P e.
Proof. destruct c as [a|e']; cbn; [by eauto|]. intros [= ->]. eauto. Qed.

Lemma option_error {A} x (o : option A) e : of_option x o = Raise e -> e = x.
Proof. destruct o; cbn; congruence. Qed.

Lemma dtype_of_error (v : mval D) e : dtype_of v = Raise e -> codec_error e.
Proof.
  unfold codec_error. destruct v as [[]| | | | |]; cbn; try (intros [= <-]; by auto).
  intros ->%option_error. auto.
Qed.

Lemma unpack_array_error l e : unpack_array l = Raise e -> codec_error e.
Proof.
  unfold unpack_array. intros Hu.
  assert (forall k e, of_option KeyError (dget k l) = Raise e -> codec_error e) as Hk.
  { intros k e0 ->%option_error. by left. }
  assert (forall e, (let? v := of_option KeyError (dget (KBytes "dtype") l) in dtype_of v) = Raise e -> codec_error e) as Hd.
  { intros e0 H1. eapply (bind_error _ _ _ _ H1); [by eauto|]. intros. by eapply dtype_of_error. }
  destruct (dmem (KBytes "__ndarray__") l).
  - eapply (bind_error _ _ _ _ Hu); [by eauto|]. intros buffer _ Hu1.
    eapply (bind_error _ _ _ _ Hu1); [by eauto|]. intros d _ Hu2. eapply (bind_error _ _ _ _ Hu2).
    + intros e0 H1. eapply (bind_error _ _ _ _ H1); [by eauto|]. intros sv _ H2. unfold codec_error.
      destruct sv; try (injection H2 as <-; by auto). apply mapM_res_Raise in H2 as (x & _ & Hx).
      destruct x as [[]| | | | |]; cbn in Hx; try (injection Hx as <-; by auto).
      destruct (_ <? _)%Z; [injection Hx as <-; by auto|done].
    + intros sh _ Hu3. unfold np_ndarray, codec_error in *. destruct buffer; try (injection Hu3 as <-; by auto).
      destruct (_ <? _); [injection Hu3 as <-; by auto|done].
  - destruct (dmem (KBytes "__npgeneric__") l); [|done].
    eapply (bind_error _ _ _ _ Hu); [by eauto|]. intros d _ Hu1. eapply (bind_error _ _ _ _ Hu1); [by eauto|].
    intros v _ Hu2. unfold codec_error. destruct v; try (injection Hu2 as <-; by auto). done.
Qed.

Lemma unpack_frame_error f e : unpack_frame f = Raise e -> codec_error e.
Proof.
  intros [->|[->|(l & Hl)]]%unpackb_raises; [unfold codec_error; by auto..|]. by eapply unpack_array_error.
Qed.

Lemma pack_error (v : mval D) e : packb pack_array v = Raise e -> codec_error e.
Proof.
  intros [->|[->|[->|(x & Hx)]]]%packb_raises; [unfold codec_error; by auto..|]. unfold codec_error.
  destruct x; cbn in Hx; try done; (destruct (unsupported _); [injection Hx as <-; by auto|done]).
Qed.

Lemma ws_open_cases o t t' out : ws_open o t = (t', out) ->
  (out = Returned tt /\ tr_ws t' = true) \/
  (exists e, out = Raised e /\ (on_connect o = Raise e \/ on_metadata o = Raise e \/ codec_error e)).
Proof.
  unfold ws_open, mbind, st_bind, st_lift, st_modify. destruct (on_connect o) as [[]|e].
  - destruct (let? f := on_metadata o in unpack_frame f) as [v|e] eqn:E; intros [= <- <-]; [by left|].
    right. exists e. split; [done|]. right.
    eapply (bind_error _ _ _ (fun e => on_metadata o = Raise e \/ codec_error e) E); [by auto|].
    intros f _ ?%unpack_frame_error. by right.
  - intros [= <- <-]. right. eauto.
Qed.
End websocket.

(** A computation that returns. *)
Definition is_Ok {A} (c : res A) : Prop := exists a, c = Ok a.

(** ** The HTTP transport *)

(** A response: [resp.ok], the status, and what [resp.json()] gives. *)
Record reply := Reply { rp_ok : bool; rp_status : Z; rp_json : res json }.

(** [_fetch_conventions]: the metadata it leaves; informational only. *)
Definition fetch_conventions (r : res reply) : res json :=
  match (let? resp := r in if rp_ok resp then rp_json resp else Ok (Obj [])) with
  | Raise (RequestException | ValueError) => Ok (Obj [])
  | x => x
  end.

(** One pass of [_wait_ready]. *)
Record probe := Probe { pb_get : res reply; pb_conventions : res reply; pb_stop : bool; pb_now : f64 }.

(** [_wait_ready]: the server's metadata; [None]: still waiting. *)
Fixpoint wait_ready (deadline : f64) (probes : list probe) : option (res json) :=
  match probes with
  | [] => None
  | p :: probes =>
      let retry :=
        if pb_stop p then Some (Raise PolicyUnavailable)
        else if fle deadline (pb_now p) then Some (Raise PolicyUnavailable)
        else wait_ready deadline probes in
      match pb_get p with
      | Ok resp => if rp_ok resp then Some (fetch_conventions (pb_conventions p)) else retry
      | Raise RequestException => retry
      | Raise e => Some (Raise e)
      end
  end.

Definition acme_transport (http : bool) (start connect_timeout_s : f64) (probes : list probe) :
    option (res json) :=
  if http then wait_ready (fadd start connect_timeout_s) probes else Some (Raise PolicyUnavailable).

(** [torch.from_numpy(arr).permute(2, 0, 1).contiguous()] of an [(h, w, c)] image. *)
Definition permute_chw (h w c : nat) (px : list Z) : list Z :=
  seq 0 c ≫= (fun k => seq 0 h ≫= (fun i => (fun j => default 0%Z (px !! ((i * w + j) * c + k))) <$> seq 0 w)).

(** One multipart part: a tensor, or the bundle of low-dimensional arrays. *)
Inductive part :=
  | TensorPart (shape : list nat) (px : list Z)
  | NpzPart (arrays : list (string * (list nat * list f64))).

Record http_payload := HttpPayload {
  hp_images : list (string * ((nat * nat * nat) * list Z));      (* (H, W, C) and pixels *)
  hp_lowdim : list (string * list f64);
  hp_form : list (string * jval);
}.

Definition encode_files (p : http_payload) : list (string * part) :=
  dset "lowdim_data" (NpzPart ((fun x => (x.1, ([1; 1; length x.2], f32 <$> x.2))) <$> hp_lowdim p))
    ((fun x => let '(h, w, c) := x.2.1 in
               (x.1, TensorPart [1; 1; c; h; w] (permute_chw h w c x.2.2))) <$> hp_images p).

(** [AcmeHttpTransport.infer], with the outcome of the POST. *)
Definition http_infer (post : res reply) : res (list (string * json)) :=
  match post with
  | Raise RequestException => Raise PolicyError
  | Raise e => Raise e
  | Ok resp =>
      if negb (rp_status resp =? 200)%Z then Raise PolicyError
      else
        match rp_json resp with
        | Raise ValueError => Raise PolicyError
        | Raise e => Raise e
        | Ok (Obj body) =>
            if truthy (default (Scalar (JBool true)) (dget "success" body)) then Ok body
            else Raise PolicyError
        | Ok _ => Raise OtherError
        end
  end.

(** ** [RemotePolicy] *)

Definition COMM_SENT : f64 := f0.
Definition COMM_RECV : f64 := f1.
Definition COMM_ERROR : f64 := f_of_Z 2.

Record comm := Comm { cm_kind : f64; cm_seq : nat; cm_elapsed : f64 }.

Record remote (T : Type) := Remote { rm_seq : nat; rm_transport : T; rm_comm : list comm }.
Arguments Remote {T}.
Arguments rm_seq {T}.
Arguments rm_transport {T}.
Arguments rm_comm {T}.

Section remote.
Context {T P R A : Type}.

(** [_emit]: the hook's own failure is swallowed. *)
Definition emit (kind : f64) (seq : nat) (elapsed : f64) : ST (remote T) unit :=
  st_modify (fun r => Remote (rm_seq r) (rm_transport r) (rm_comm r ++ [Comm kind seq elapsed])).

Definition use_transport (m : ST T R) : ST (remote T) R := fun r =>
  let x := m (rm_transport r) in (Remote (rm_seq r) x.1 (rm_comm r), x.2).

(** [RemotePolicy.infer]: the adapter's encoding and decoding, the transport, the clock before
    and after. *)
Definition remote_infer (encode : res P) (transport_infer : P -> ST T R) (decode : R -> res A) (t0 t1 : f64) :
    ST (remote T) A :=
  payload ← st_lift encode;
  st_modify (fun r => Remote (S (rm_seq r)) (rm_transport r) (rm_comm r));;
  r ← st_get;
  let seq := rm_seq r in
  emit COMM_SENT seq f0;;
  response ← try_except (use_transport (transport_infer payload))
               (fun e => Some (emit COMM_ERROR seq (fsub t1 t0);; st_raise e));
  emit COMM_RECV seq (fsub t1 t0);;
  st_lift (decode response).
End remote.

(** ** [HoldPolicy] *)

Definition hold_step (l : DFCStateActionLayout) (q_slices : list (string * (nat * nat))) (state act : list f64)
    (side : string) : res (list f64) :=
  let? f := layout_field l side in
  if String.eqb f "q_d" then
    let? p := primary_slice l side in
    let? q := of_option KeyError (dget side q_slices) in
    let v := slice state q.1 q.2 in
    if length v =? p.2 - p.1 then Ok (splice act p.1 v)
    else match v with
         | [x] => Ok (splice act p.1 (replicate (p.2 - p.1) x))
         | _ => Raise ValueError
         end
  else Ok act.

(** [HoldPolicy.infer] (the horizon is [max(1, int(horizon))]). *)
Definition hold_infer (l : DFCStateActionLayout) (q_slices : list (string * (nat * nat))) (horizon : Z)
    (state : list f64) : res (list (list f64)) :=
  let? action := foldM_res (hold_step l q_slices state) (sides l) (replicate (action_dim l) f0) in
  Ok (replicate (Z.to_nat (Z.max 1 horizon)) action).

(** ** Construction *)

Inductive transport_kind := Websocket | AcmeHttp.

Definition build_transport (transport : string) : res transport_kind :=
  if String.eqb transport "websocket" then Ok Websocket
  else if String.eqb transport "http" then Ok AcmeHttp
  else Raise ValueError.

(** [_ADAPTERS]: the two registered classes. *)
Definition build_adapter (adapter : string) : res string :=
  if bool_decide (adapter ∈ ["openpi"; "acme"]) then Ok adapter else Raise ValueError.

Inductive policy := HoldPolicy (q_slices : list (string * (nat * nat))) (horizon : Z)
                  | RemotePolicy (adapter : string) (transport : transport_kind).

Definition build_policy (kind adapter transport : string) (l : DFCStateActionLayout) : res policy :=
  if String.eqb kind "hold" then
    match mapM_res (fun side => res_map (pair side) (state_slice l side "q")) (sides l) with
    | Ok q_slices => Ok (HoldPolicy q_slices 10)
    | Raise KeyError => Raise ValueError
    | Raise e => Raise e
    end
  else if String.eqb kind "remote" then
    let? a := build_adapter adapter in
    let? t := build_transport transport in
    Ok (RemotePolicy a t)
  else Raise ValueError.

(** ** Theorems *)

(** C28: the wire format loses nothing.  Take a payload of supported arrays whose bytes match their
    shape, scalars, lists and dictionaries that avoid the two reserved keys, and msgpack as it
    documents itself: the hooks never stop such a payload from being packed (only msgpack's own limits
    on nesting and integers do), and if a server sends the packed bytes back over an open connection,
    [infer] returns the same payload, every array with its type, shape and bytes, except that a numpy
    scalar that is already a Python float or string comes back as that. *)
Theorem wire_roundtrip {D W : Type} `{Msgpack D W} (v : mval D) (t : transport D) (o : opening W)
    (Hv : sendable v) (Hws : tr_ws t = true) :
  match packb pack_array v with
  | Ok w => ws_infer (Exchange o (Ok tt) (Ok (FBinary w))) v t = (t, Returned (arrives v))
  | Raise e => e = ValueError \/ e = OverflowError
  end.
Proof.
  destruct (wire_carries v Hv) as (p & Hp & Hu). destruct (packb pack_array v) as [w|e] eqn:Ew; [|by eapply packb_limits].
  unfold ws_infer, mbind, st_bind, st_get, drop_and_fail, try_except, st_lift. rewrite Hws. cbn. rewrite Ew. cbn.
  unfold unpack_frame. by rewrite (unpackb_packb _ _ _ _ _ Hp Ew), Hu.
Qed.

(** Three element types: 4-byte floats, complex numbers (which are refused) and Python's floats. *)
Inductive demo_dtype := F4 | C8 | F8.

#[export] Instance demo_dtypes : Dtypes demo_dtype.
Proof.
  refine {|
    dt_kind d := match d with C8 => "c"%char | _ => "f"%char end;
    dt_size d := match d with F4 => 4 | _ => 8 end;
    dt_str d := match d with F4 => "<f4" | C8 => "<c8" | F8 => "<f8" end;
    dt_python d := match d with F8 => true | _ => false end;
    np_dtype (s : string) := if String.eqb s "<f4" then Some F4 else if String.eqb s "<c8" then Some C8
      else if String.eqb s "<f8" then Some F8 else None;
  |}.
  by intros [].
Defined.

(** A codec that satisfies the class: the bytes are the lowered value, up to the nesting limit. *)
Section demo_codec.
Context (default_hook : mval demo_dtype -> res (mval demo_dtype)).

Fixpoint demo_packb (fuel : nat) (v : mval demo_dtype) : res (mval demo_dtype) :=
  match fuel with
  | 0 => Raise ValueError
  | S fuel =>
      match v with
      | MScalar _ | MBytes _ => Ok v
      | MList l => res_map MList (mapM_res (demo_packb fuel) l)
      | MMap l => res_map MMap (mapM_res (fun x => res_map (pair x.1) (demo_packb fuel x.2)) l)
      | MGeneric F8 i => Ok (MScalar i)
      | _ => let? p := default_hook v in demo_packb fuel p
      end
  end.

Lemma mapM_related {A B} (R : A -> B -> Prop) (g : A -> res B) (l : list A) l' w :
  (forall x y w, R x y -> g x = Ok w -> w = y) -> Forall2 R l l' -> mapM_res g l = Ok w -> w = l'.
Proof.
  intros Hg Hl. revert w. induction Hl as [|x y l l' Hx _ IH]; cbn [mapM_res]; intros w; [by intros [= <-]|].
  destruct (g x) as [z|] eqn:Ez; [|done]. cbn [res_bind]. destruct (mapM_res g l) as [zs|]; [|done]. intros [= <-].
  by rewrite (Hg _ _ _ Hx Ez), (IH zs eq_refl).
Qed.

Lemma demo_packb_lowers n : forall v p w, lowers default_hook v p -> demo_packb n v = Ok w -> w = p.
Proof.
  induction n as [|n IH]; [done|]. intros v p w Hp. cbn [demo_packb].
  destruct Hp as [v|s|l l' Hl|l l' _ Hl|d sh b p q Hd Hq|d i p q Hpy Hd Hq|d i Hpy].
  - by intros [= <-].
  - by intros [= <-].
  - destruct (mapM_res _ l) as [z|] eqn:E; [|done]. intros [= <-]. f_equal. by eapply mapM_related.
  - destruct (mapM_res _ l) as [z|] eqn:E; [|done]. intros [= <-]. f_equal. eapply mapM_related; [|exact Hl|exact E].
    intros [k x] [k' y] z' [Hk Hx] Hz. cbn in *. subst k'. destruct (demo_packb n x) as [u|] eqn:Eu; [|done].
    injection Hz as <-. by rewrite (IH _ _ _ Hx Eu).
  - rewrite Hd. cbn [res_bind]. by apply IH.
  - destruct d; try done; rewrite Hd; cbn [res_bind]; by apply IH.
  - destruct d; try done. by intros [= <-].
Qed.

Lemma demo_packb_raises n : forall v e, demo_packb n v = Raise e -> e = ValueError \/ exists x, default_hook x = Raise e.
Proof.
  induction n as [|n IH]; intros v e; cbn [demo_packb]; [intros [= <-]; by left|].
  assert (forall v, (let? p := default_hook v in demo_packb n p) = Raise e -> e = ValueError \/ exists x, default_hook x = Raise e) as Hd.
  { intros x. destruct (default_hook x) eqn:E; cbn [res_bind]; [by apply IH|]. intros [= <-]. eauto. }
  destruct v as [v|s|l|l|d sh b|[] i]; try done; try apply Hd.
  - destruct (mapM_res _ l) as [z|e'] eqn:E; [done|]. intros [= <-]. apply mapM_res_Raise in E as (x & _ & Hx). by eapply IH.
  - destruct (mapM_res _ l) as [z|e'] eqn:E; [done|]. intros [= <-]. apply mapM_res_Raise in E as (x & _ & Hx).
    destruct (demo_packb n x.2) eqn:Ex; [done|]. injection Hx as <-. by eapply IH.
Qed.

Lemma mapM_related_raises {A B} (R : A -> B -> Prop) (g : A -> res B) (l : list A) l' e (P : exn -> Prop) :
  (forall x y e, R x y -> g x = Raise e -> P e) -> Forall2 R l l' -> mapM_res g l = Raise e -> P e.
Proof.
  intros Hg Hl. induction Hl as [|x y l l' Hx _ IH]; cbn [mapM_res]; [done|].
  destruct (g x) as [z|e'] eqn:Ez; cbn [res_bind]; [|intros [= <-]; by eauto].
  destruct (mapM_res g l) as [zs|e']; [done|]. intros [= <-]. by apply IH.
Qed.

Lemma demo_packb_limits n : forall v p e, lowers default_hook v p -> demo_packb n v = Raise e -> e = ValueError.
Proof.
  induction n as [|n IH]; intros v p e Hp; cbn [demo_packb]; [by intros [= <-]|].
  destruct Hp as [v|s|l l' Hl|l l' _ Hl|d sh b p q Hd Hq|d i p q Hpy Hd Hq|d i Hpy]; try done.
  - destruct (mapM_res _ l) as [z|e'] eqn:E; [done|]. intros [= <-].
    eapply (mapM_related_raises _ _ _ _ _ (fun e => e = ValueError)); [|exact Hl|exact E]. eauto.
  - destruct (mapM_res _ l) as [z|e'] eqn:E; [done|]. intros [= <-].
    eapply (mapM_related_raises _ _ _ _ _ (fun e => e = ValueError)); [|exact Hl|exact E].
    intros x y e0 [_ Hx] Hz. destruct (demo_packb n x.2) eqn:Ex; [done|]. injection Hz as <-. by eapply IH.
  - rewrite Hd. cbn [res_bind]. by eapply IH.
  - destruct d; try done; rewrite Hd; cbn [res_bind]; by eapply IH.
  - by destruct d.
Qed.
End demo_codec.

Lemma hooked_raises {D} (hook : list (mkey * mval D) -> res (mval D)) v e :
  hooked hook v = Raise e -> exists l, hook l = Raise e.
Proof.
  revert e. induction v as [v|s|l IH|l IH|d sh b|d i] using mval_ind; intros e; try done.
  - rewrite hooked_MList. destruct (mapM_res _ l) as [xs|e'] eqn:E; [done|]. intros [= <-].
    apply mapM_res_Raise in E as (x & Hx & He). rewrite Forall_forall in IH. by eapply IH.
  - rewrite hooked_MMap. destruct (mapM_res _ l) as [xs|e'] eqn:E; cbn [res_bind]; [by eauto|]. intros [= <-].
    apply mapM_res_Raise in E as (x & Hx & He). rewrite Forall_forall in IH. unfold hooked_entry in He.
    destruct (hooked hook x.2) as [y|e1] eqn:Ex; [done|]. injection He as ->. by eapply IH.
Qed.

#[export] Instance demo_msgpack : Msgpack demo_dtype (mval demo_dtype).
Proof.
  refine {|
    packb h := demo_packb h 511;
    unpackb h f := match f with FText => Raise TypeError | FBinary w => hooked h w end;
  |}.
  - intros h h' v p w Hp Hw. by rewrite (demo_packb_lowers h _ _ _ _ Hp Hw).
  - intros h v p e Hp He. left. by eapply demo_packb_limits.
  - intros h v e He. apply demo_packb_raises in He as [->|He]; auto.
  - intros h [|w] e He; [injection He as <-; by auto|]. right. right. by eapply hooked_raises.
Defined.

Definition demo_payload : mval demo_dtype :=
  MMap [(KText "observation/state", MArray F4 [2] "abcdefgh"); (KText "prompt", MScalar (JStr "fold")); (KText "dt", MGeneric F8 (JFloat f1))].

Lemma wire_roundtrip_witness : exists w, packb pack_array demo_payload = Ok w /\
  ws_infer (Exchange (Opening (Ok tt) (Raise TimeoutError)) (Ok tt) (Ok (FBinary w))) demo_payload (Transport true None) =
  (Transport true None, Returned (MMap [(KText "observation/state", MArray F4 [2] "abcdefgh"); (KText "prompt", MScalar (JStr "fold"));
                                        (KText "dt", MScalar (JFloat f1))])).
Proof.
  pose proof (wire_roundtrip demo_payload (Transport true None) (Opening (Ok tt) (Raise TimeoutError))) as Hw.
  destruct (packb pack_array demo_payload) as [w|e] eqn:Ew; [|vm_compute in Ew; discriminate Ew].
  exists w. split; [reflexivity|]. apply Hw; [|reflexivity]. cbn.
  repeat match goal with |- _ /\ _ => split end; try exact I; try reflexivity;
    apply (bool_decide_unpack _); vm_compute; exact I.
Defined.

(** one inference over the websocket.  It never blocks forever in the model (the receive has
    a timeout); a reply leaves the connection open and is the decoded frame of this exchange; a
    [PolicyError] (the error the eval loop retries) is raised only with the connection dropped, so
    that the next call reconnects; a transport failure is never raised as anything else; and from a
    dropped connection one healthy exchange is enough to answer. *)
Theorem ws_infer_contract {D W : Type} `{Msgpack D W} (x : exchange) (v : mval D) (t t' : transport D)
    (out : outcome (mval D))
    (Hlib : forall e, on_connect (ex_open x) = Raise e \/ on_metadata (ex_open x) = Raise e \/
       ex_send x = Raise e \/ ex_recv x = Raise e -> e <> PolicyError)
    (Hrun : ws_infer x v t = (t', out)) :
  match out with
  | Returned r => tr_ws t' = true /\ exists f, ex_recv x = Ok f /\ unpack_frame f = Ok r
  | Raised e => transient e = false /\ (e = PolicyError -> tr_ws t' = false)
  | Running => False
  end /\
  (forall y m r w z, tr_ws t' = false -> is_Ok (packb pack_array v) -> on_connect (ex_open y) = Ok tt ->
     on_metadata (ex_open y) = Ok m -> unpack_frame m = Ok r -> ex_send y = Ok tt ->
     ex_recv y = Ok (FBinary w) -> unpack_frame (FBinary w) = Ok z -> (ws_infer y v t').2 = Returned z).
Proof.
  split.
  - assert (forall e, codec_error e -> transient e = false /\ e <> PolicyError) as Hce
      by (intros e [->|[->|[->| ->]]]; done).
    assert (forall t1 o1, (if tr_ws t then mret tt else drop_and_fail (ws_open (ex_open x))) t = (t1, o1) ->
      match o1 with
      | Returned _ => tr_ws t1 = true
      | Raised e => transient e = false /\ (e = PolicyError -> tr_ws t1 = false)
      | Running => False
      end) as Hopen.
    { intros t1 o1. destruct (tr_ws t) eqn:Ew; [by intros [= <- <-]|].
      intros [(e1 & _ & _ & -> & Hw)|[Hm Ht]]%drop_and_fail_cases; [done|].
      apply ws_open_cases in Hm as [[-> Hw]|(e1 & -> & He)]; [done|]. split; [by apply Ht|]. intros ->. exfalso.
      destruct He as [He|[He|He]]; [by eapply (Hlib PolicyError); eauto..|]. by destruct (Hce _ He). }
    unfold ws_infer, mbind, st_bind at 1, st_get in Hrun. unfold st_bind at 1 in Hrun.
    destruct ((if tr_ws t then mret tt else drop_and_fail (ws_open (ex_open x))) t) as [t1 [u|e|]];
      specialize (Hopen _ _ eq_refl); [|by injection Hrun as <- <-|done].
    unfold st_bind in Hrun. destruct (drop_and_fail _ t1) as [t2 o2] eqn:E2.
    apply drop_and_fail_cases in E2 as [(e1 & _ & _ & -> & Hw)|[Hm Ht]]; [by injection Hrun as <- <-|].
    unfold st_lift in Hm. destruct (packb pack_array v) as [w|e] eqn:Ep; cbn [res_bind] in Hm.
    2:{ injection Hm as <- <-. injection Hrun as <- <-. apply pack_error, Hce in Ep as [? ?]. done. }
    assert (forall e, ex_send x = Raise e \/ ex_recv x = Raise e -> transient e = false ->
      transient e = false /\ (e = PolicyError -> tr_ws t1 = false)) as Hesc.
    { intros e He Hte. split; [done|]. intros ->. exfalso. apply (Hlib PolicyError); [|done]. tauto. }
    destruct (ex_send x) as [[]|e] eqn:Es; cbn [res_bind] in Hm.
    2:{ injection Hm as <- <-. injection Hrun as <- <-. eauto. }
    destruct (ex_recv x) as [f|e] eqn:Er; injection Hm as <- <-.
    2:{ injection Hrun as <- <-. eauto. }
    destruct f as [|w']; [by injection Hrun as <- <-|].
    unfold st_lift in Hrun. destruct (unpack_frame (FBinary w')) as [r|e] eqn:Eu; injection Hrun as <- <-.
    + split; [done|]. by exists (FBinary w').
    + apply unpack_frame_error, Hce in Eu as [? ?]. split; [done|]. done.
  - intros y m r w' z Hws [w Hp] H1 H2 H3 H4 H5 H6.
    unfold ws_infer, mbind, st_bind, st_get, drop_and_fail, try_except, ws_open, mbind, st_bind, st_lift, st_modify.
    rewrite Hws, H1, H2. cbn [res_bind]. rewrite H3, Hp, H4. cbn [res_bind]. rewrite H5. by rewrite H6.
Qed.

Lemma ws_infer_contract_witness :
  let x := Exchange (Opening (Ok tt) (Raise TimeoutError)) (Ok tt) (Raise TimeoutError) in
  exists t', ws_infer x (MScalar JNull) (Transport true None : transport demo_dtype) = (t', Raised PolicyError) /\
    tr_ws t' = false /\
    (ws_infer (Exchange (Opening (Ok tt) (Ok (FBinary (MMap [] : mval demo_dtype)))) (Ok tt)
                 (Ok (FBinary (MScalar (JInt 1))))) (MScalar JNull) t').2 = Returned (MScalar (JInt 1)).
Proof.
  intros x. destruct (ws_infer x (MScalar JNull) (Transport true None : transport demo_dtype)) as [t' out] eqn:E.
  exists t'. assert (out = Raised PolicyError) as -> by (vm_compute in E; congruence).
  destruct (ws_infer_contract x (MScalar JNull) (Transport true None) t' (Raised PolicyError)) as [[_ Hd] Hr].
  - intros e [H1|[H1|[H1|H1]]]; vm_compute in H1; congruence.
  - exact E.
  - split; [reflexivity|]. split; [by apply Hd|].
    eapply Hr; [by apply Hd|by exists (MScalar JNull)|reflexivity..].
Defined.

(** ** Communication events *)

(** The two events of request [k]. *)
Definition comm_pair (k : nat) (x : bool * f64) : list comm :=
  [Comm COMM_SENT k f0; Comm (if x.1 then COMM_RECV else COMM_ERROR) k x.2].

Definition comm_log (outcomes : list (bool * f64)) : list comm :=
  concat (imap (fun i x => comm_pair (S i) x) outcomes).

(** The log of a policy that made [length outcomes] requests. *)
Definition comm_ok {T} (r : remote T) (outcomes : list (bool * f64)) : Prop :=
  rm_seq r = length outcomes /\ rm_comm r = comm_log outcomes.

Lemma comm_log_snoc outcomes x : comm_log (outcomes ++ [x]) = comm_log outcomes ++ comm_pair (S (length outcomes)) x.
Proof.
  unfold comm_log. rewrite imap_app, concat_app. f_equal. cbn. by rewrite Nat.add_0_r.
Qed.

(** every request is reported by exactly two events: a log that so far holds, for requests
    1, 2, ... in order, one "sent" and one "received" or "error" event with the request's number
    keeps that shape after any further call, whatever the adapter and the transport do; a call whose
    encoding fails reports nothing, and an "error" event is reported exactly when the transport
    raised, the exception being raised on. *)
Theorem comm_events_paired {T P R A : Type} (r : remote T) (outcomes : list (bool * f64)) (encode : res P)
    (transport_infer : P -> ST T R) (decode : R -> res A) (t0 t1 : f64)
    (Hok : comm_ok r outcomes) (Hrun : forall p s, (transport_infer p s).2 <> Running) :
  let x := remote_infer encode transport_infer decode t0 t1 r in
  match encode with
  | Raise e => x = (r, Raised e)
  | Ok p =>
      match (transport_infer p (rm_transport r)).2 with
      | Returned resp => comm_ok x.1 (outcomes ++ [(true, fsub t1 t0)]) /\
          x.2 = match decode resp with Ok a => Returned a | Raise e => Raised e end
      | Raised e => comm_ok x.1 (outcomes ++ [(false, fsub t1 t0)]) /\ x.2 = Raised e
      | Running => False
      end
  end.
Proof.
  destruct Hok as [Hs Hl]. cbn zeta. destruct encode as [p|e]; [|done].
  specialize (Hrun p (rm_transport r)).
  unfold remote_infer, emit, try_except, use_transport, mbind, st_bind, st_lift, st_modify, st_get, comm_ok.
  cbn [rm_seq rm_transport rm_comm]. destruct (transport_infer p (rm_transport r)) as [t' [resp|e|]]; [| |done];
    cbn [fst snd rm_seq rm_transport rm_comm].
  - destruct (decode resp); cbn [fst snd rm_seq rm_comm]; (split; [|done]);
      rewrite comm_log_snoc, length_app, Hl, <-Hs, <-app_assoc; (split; [cbn; lia|done]).
  - split; [|done]. rewrite comm_log_snoc, length_app, Hl, <-Hs, <-app_assoc. split; [cbn; lia|done].
Qed.

Lemma comm_events_paired_witness :
  comm_ok (remote_infer (Ok tt) (fun _ : unit => st_raise (S := unit) (A := unit) PolicyError) (fun _ => Ok tt) f0 f1
             (Remote 0 tt [])).1 [(false, fsub f1 f0)].
Proof.
  apply (comm_events_paired (Remote 0 tt []) [] (Ok tt)
    (fun _ : unit => st_raise (S := unit) (A := unit) PolicyError) (fun _ => Ok tt) f0 f1).
  - split; reflexivity.
  - intros p s. discriminate.
Defined.

(** ** Standing still *)

Section hold.
Context (l : DFCStateActionLayout) (q_slices : list (string * (nat * nat))) (state : list f64).

(** What a stand-still action holds for a side: its measured joints under joint control, zeros
    under velocity control; then the open gripper. *)
Definition held_value (s : string) (d : nat) : list f64 :=
  if bool_decide (dget s (field_map l) = Some "q_d")
  then match dget s q_slices with Some q => slice state q.1 q.2 | None => [] end
  else replicate d f0.

Definition held_fits (s : string) (d : nat) : Prop :=
  dget s (field_map l) = Some "q_d" -> exists q, dget s q_slices = Some q /\ length (slice state q.1 q.2) = d.

Definition held_blocks (ss : list string) (ds : list nat) : list f64 :=
  concat (zip_with (fun s d => held_value s d ++ [f0]) ss ds).

Lemma tiled_le off ss ds : tiled l off ss ds -> off <= action_dim l.
Proof.
  revert off ds. induction ss as [|s ss IH]; intros off [|d ds]; try done; cbn; [lia|].
  intros (_ & _ & _ & H%IH). lia.
Qed.

Lemma held_value_length s d : held_fits s d -> length (held_value s d) = d.
Proof.
  intros Hf. unfold held_value. case_bool_decide as Hq; [|apply length_replicate].
  destruct (Hf Hq) as (q & -> & H). done.
Qed.

Lemma hold_tiled ss ds pre : tiled l (length pre) ss ds -> Forall2 held_fits ss ds ->
  foldM_res (hold_step l q_slices state) ss (pre ++ replicate (action_dim l - length pre) f0) =
    Ok (pre ++ held_blocks ss ds).
Proof.
  intros Ht Hf. revert pre Ht. induction Hf as [|s d ss ds Hs Hf IH]; intros pre Ht.
  - cbn in Ht. cbn [foldM_res]. rewrite Ht, Nat.sub_diag. done.
  - destruct Ht as (Hp & Hg & [f Hfl] & Ht). pose proof (tiled_le _ _ _ Ht) as Hle.
    set (n := action_dim l - (length pre + d + 1)).
    replace (action_dim l - length pre) with (d + (1 + n)) by lia. rewrite !replicate_add.
    cbn [foldM_res].
    assert (hold_step l q_slices state (pre ++ replicate d f0 ++ [f0] ++ replicate n f0) s =
      Ok ((pre ++ held_value s d ++ [f0]) ++ replicate n f0)) as Hstep.
    { unfold hold_step, layout_field, primary_slice, held_value. rewrite Hfl, Hp. cbn [of_option res_bind fst snd].
      destruct (String.eqb_spec f "q_d") as [->|Hne].
      - rewrite bool_decide_true by done. destruct (Hs Hfl) as (q & Hq & Hlen). rewrite Hq.
        cbn [of_option res_bind]. replace (length pre + d - length pre) with d by lia.
        rewrite Hlen, Nat.eqb_refl. f_equal. unfold splice. rewrite take_app_length.
        rewrite Hlen, drop_app_ge by lia. replace (length pre + d - length pre) with (length (replicate d f0))
          by (rewrite length_replicate; lia).
        rewrite drop_app_length. by rewrite <-!app_assoc.
      - rewrite bool_decide_false by congruence. by rewrite <-!app_assoc. }
    change (replicate 1 f0) with [f0]. rewrite Hstep. cbn [res_bind].
    specialize (IH (pre ++ held_value s d ++ [f0])). rewrite !length_app, held_value_length in IH by done.
    cbn [length] in IH. replace (length pre + (d + 1)) with (length pre + d + 1) in IH by lia.
    fold n in IH. rewrite (IH Ht). f_equal. unfold held_blocks. cbn [zip_with concat]. by rewrite <-!app_assoc.
Qed.

Lemma split_held ss ds pre post : tiled l (length pre) ss ds -> Forall2 held_fits ss ds ->
  exists parts,
    mapM_res (fun side =>
      let? f := layout_field l side in
      let? s := primary_slice l side in
      let? g := gripper_index l side in
      let? x := of_option IndexError ((pre ++ held_blocks ss ds ++ post) !! g) in
      Ok (side, SideAction f (slice (pre ++ held_blocks ss ds ++ post) s.1 s.2) x)) ss = Ok parts /\
    parts.*1 = ss /\
    forall side a, (side, a) ∈ parts -> exists d, sa_gripper a = f0 /\
      dget side (field_map l) = Some (sa_field a) /\ sa_value a = held_value side d.
Proof.
  intros Ht Hf. revert pre Ht. induction Hf as [|s d ss ds Hs Hf IH]; intros pre Ht.
  { exists []. split_and!; [done..|set_solver]. }
  destruct Ht as (Hp & Hg & [f Hfl] & Ht).
  specialize (IH (pre ++ held_value s d ++ [f0])). rewrite !length_app, held_value_length in IH by done.
  cbn [length] in IH. replace (length pre + (d + 1)) with (length pre + d + 1) in IH by lia.
  destruct (IH Ht) as (parts & Hm & H1 & H2). clear IH.
  assert (pre ++ held_blocks (s :: ss) (d :: ds) ++ post =
    (pre ++ held_value s d ++ [f0]) ++ held_blocks ss ds ++ post) as Heq.
  { unfold held_blocks. cbn [zip_with concat]. by rewrite <-!app_assoc. }
  exists ((s, SideAction f (held_value s d) f0) :: parts). rewrite Heq. cbn [mapM_res].
  unfold layout_field at 1, primary_slice at 1, gripper_index at 1. rewrite Hfl, Hp, Hg.
  cbn [of_option res_bind fst snd].
  assert (((pre ++ held_value s d ++ [f0]) ++ held_blocks ss ds ++ post) !! (length pre + d) = Some f0) as ->.
  { rewrite <-!app_assoc. rewrite lookup_app_r by lia. rewrite lookup_app_r by (rewrite held_value_length by done; lia).
    rewrite held_value_length by done. by replace (length pre + d - length pre - d) with 0 by lia. }
  cbn [of_option res_bind]. rewrite Hm. cbn [res_bind]. split_and!.
  - do 3 f_equal. f_equal. rewrite <-!app_assoc. unfold slice. rewrite drop_app_length.
    replace (length pre + d - length pre) with (length (held_value s d)) by (rewrite held_value_length by done; lia).
    apply take_app_length.
  - cbn. by rewrite H1.
  - intros side a [[= -> ->]|Hin]%elem_of_cons; [by exists d|by apply H2].
Qed.
End hold.

(** the stand-still policy asks for no motion.  Built for a layout that observes the joints of
    every commanded side, it answers any state with [max 1 horizon] identical actions, and each one
    splits into the commanded sides, in order: a side under joint-position control gets exactly the
    joint positions of the state it was given, a side under velocity control gets zeros, and every
    gripper gets 0. *)
Theorem hold_stands_still (arms : list (string * ArmShape)) (sigs acts : list string) (l : DFCStateActionLayout)
    (adapter transport : string) (q_slices : list (string * (nat * nat))) (h horizon : Z) (state : list f64)
    (Hkeys : NoDup (dkeys arms)) (Hok : from_arms arms sigs acts = Ok l)
    (Hbuild : build_policy "hold" adapter transport l = Ok (HoldPolicy q_slices h))
    (Hdim : forall s q d, s ∈ sides l -> dget (s, "q") (state_map l) = Some q ->
       dget s (field_map l) = Some "q_d" -> action_dof l s = Ok d ->
       q.2 - q.1 = d /\ q.2 <= length state) :
  exists action parts, hold_infer l q_slices horizon state = Ok (replicate (Z.to_nat (Z.max 1 horizon)) action) /\
    split l action = Ok parts /\ parts.*1 = sides l /\
    forall s a, (s, a) ∈ parts -> sa_gripper a = f0 /\ dget s (field_map l) = Some (sa_field a) /\
      (sa_field a = "q_d" -> exists q, dget (s, "q") (state_map l) = Some q /\ sa_value a = slice state q.1 q.2) /\
      (sa_field a <> "q_d" -> Forall (eq f0) (sa_value a)).
Proof.
  apply from_arms_ok in Hok as (acc & Ha & Hs & _ & Hf & Hp & Hg & Hd & _).
  assert (NoDup (sides l)) as Hnd.
  { rewrite Hs. apply NoDup_filter_list. by rewrite (sorted_sides_perm arms). }
  destruct (action_fold_tiled arms (sides l) _ acc l Ha Hnd Hp Hg Hf Hd eq_refl) as [_ (ds & Ht & _)].
  cbn [aa_off] in Ht.
  assert (forall s, s ∈ sides l -> exists q, dget s q_slices = Some q /\ dget (s, "q") (state_map l) = Some q) as Hq.
  { cbn in Hbuild. destruct (mapM_res _ (sides l)) as [qs|e] eqn:Em; [|by destruct e]. injection Hbuild as -> _.
    clear -Em Hnd. revert q_slices Em. induction Hnd as [|x ss Hx Hnd IH]; intros qs; [set_solver|].
    cbn [mapM_res]. unfold state_slice at 1. destruct (dget (x, "q") (state_map l)) as [q|] eqn:Eq; [|done].
    cbn [of_option res_map res_bind]. destruct (mapM_res _ ss) as [qs'|]; [|done]. cbn [res_bind]. intros [= <-] s.
    rewrite elem_of_cons. cbn [dget]. intros [->|Hin]; [exists q; by rewrite decide_True|].
    rewrite decide_False by (intros ->; done). by apply IH. }
  assert (Forall2 (held_fits l q_slices state) (sides l) ds) as Hfit.
  { clear -Hq Hdim Ht. assert (forall ss off ds, tiled l off ss ds -> (forall s, s ∈ ss -> s ∈ sides l) ->
      Forall2 (held_fits l q_slices state) ss ds) as Hgen; [|by eapply Hgen; eauto].
    induction ss as [|s ss IH]; intros off [|d ds'] Ht' Hin; try done.
    destruct Ht' as (Hp & _ & _ & Ht'). constructor; [|by eapply IH; eauto; set_solver].
    intros Hqd. destruct (Hq s) as (q & H1 & H2); [set_solver|]. exists q. split; [done|].
    destruct (Hdim s q d) as [H3 H4]; [set_solver|done|done| |].
    - unfold action_dof, primary_slice. rewrite Hp. cbn. f_equal. lia.
    - rewrite length_slice; lia. }
  pose proof (hold_tiled l q_slices state (sides l) ds [] Ht Hfit) as Hh. cbn [length app] in Hh.
  rewrite Nat.sub_0_r in Hh.
  destruct (split_held l q_slices state (sides l) ds [] [] Ht Hfit) as (parts & Hm & H1 & H2).
  exists (held_blocks l q_slices state (sides l) ds), parts. unfold hold_infer. rewrite Hh. split; [done|].
  assert (length (held_blocks l q_slices state (sides l) ds) = action_dim l) as Hlen.
  { clear -Ht Hfit. assert (forall ss off ds, tiled l off ss ds -> Forall2 (held_fits l q_slices state) ss ds ->
      off + length (held_blocks l q_slices state ss ds) = action_dim l) as Hgen; [|exact (Hgen _ 0 _ Ht Hfit)].
    induction ss as [|s ss IH]; intros off [|d ds'] Ht' Hf'; try done; [cbn in *; lia|].
    destruct Ht' as (_ & _ & _ & Ht'). apply Forall2_cons in Hf' as [Hf1 Hf2]. specialize (IH _ _ Ht' Hf2).
    unfold held_blocks in *. cbn [zip_with concat]. rewrite !length_app, held_value_length by done. cbn. lia. }
  split_and!; [|done|].
  - unfold split. rewrite Hlen, Nat.eqb_refl. cbn [negb]. cbn [app] in Hm. rewrite app_nil_r in Hm. exact Hm.
  - intros s a Hin. destruct (H2 s a Hin) as (d & Hgr & Hfl & Hv). split_and!; [done|done| |].
    + intros Hqd. destruct (Hq s) as (q & Hq1 & Hq2).
      { rewrite <-H1. by apply (list_elem_of_fmap_2 fst) in Hin. }
      exists q. split; [done|]. rewrite Hv. unfold held_value. rewrite Hfl, Hqd, bool_decide_true by done.
      by rewrite Hq1.
    + intros Hne. rewrite Hv. unfold held_value. rewrite bool_decide_false by (rewrite Hfl; congruence).
      apply Forall_replicate. done.
Qed.

Lemma hold_stands_still_witness : exists action parts,
  hold_infer bimanual_qpos [("left", (0, 7)); ("right", (7, 14))] 10 (replicate 7 f1 ++ replicate 7 f0) =
    Ok (replicate 10 action) /\ split bimanual_qpos action = Ok parts /\ parts.*1 = ["left"; "right"].
Proof.
  destruct (hold_stands_still rizon_pair ["q"] ["left"; "right"] bimanual_qpos "" "" 
    [("left", (0, 7)); ("right", (7, 14))] 10 10 (replicate 7 f1 ++ replicate 7 f0) rizon_pair_NoDup)
    as (action & parts & H1 & H2 & H3 & _).
  - vm_compute. reflexivity.
  - vm_compute. reflexivity.
  - intros s q d Hs Hq _ Hd. assert (s = "left" \/ s = "right") as [-> | ->] by (cbn in Hs; set_solver);
      vm_compute in Hq, Hd; injection Hq as <-; injection Hd as <-; cbn; lia.
  - exists action, parts. split; [exact H1|]. split; [exact H2|exact H3].
Defined.
