(* ===== verification/SkillFile.v ===== *)
(** * Skills: the taught trajectories and their files

    Models the file half of [skills.py] and [default_name] of [dashboard/skills.py]: the
    [Skill] record and its validation, saving (write a temporary file, then replace),
    loading with every refusal, listing, deleting, renaming, and teaching from a recorded
    episode.  The skills directory is an association list of file names; a file holds a JSON
    document or something unreadable.  Which file operations succeed, the time stamp, the
    episode's columns (read by the LeRobot library) and the printing of values that are not
    strings are inputs. *)

From Stdlib Require Import Ascii String.
From S2P Require Import Prelude Float64 Ring Streams Text Layout Json.
Local Open Scope string_scope.
Local Open Scope nat_scope.

Definition FORMAT_VERSION : Z := 1.

(** ** Names *)

Definition name_char (c : ascii) : bool :=
  alnum_char c || Ascii.eqb c "." || Ascii.eqb c "_" || Ascii.eqb c "-".

(** [_NAME_RE.match]: [$] also matches before a final newline. *)
Definition name_re (name : string) : bool :=
  match name with
  | String c rest =>
      alnum_char c &&
      let tail := (span name_char rest).2 in
      bool_decide (tail = "") || bool_decide (tail = String (ascii_of_nat 10) "")
  | EmptyString => false
  end.

(** ** The skill *)

Record Skill := MkSkill {
  sk_name : string;
  sk_fps : f64;
  sk_q : list (string * nd);
  sk_gripper : list (string * nd);
  sk_source : list (string * json);
  sk_created : string;
}.

Definition sk_sides (s : Skill) : list string := dkeys (sk_q s).

(** [arr.shape[0]]: a scalar array has none. *)
Definition rows_of (a : nd) : res nat := of_option IndexError (head (shape a)).

(** [Skill.frames]. *)
Definition sk_frames (s : Skill) : res nat :=
  let? ns := mapM_res (rows_of ∘ snd) (sk_q s) in
  Ok (match ns with [] => 0 | n :: ns => foldl Nat.min n ns end).

(** [Skill.duration_s]. *)
Definition sk_duration_s (s : Skill) : res f64 :=
  let? n := sk_frames s in
  Ok (if flt f0 (sk_fps s) then fdiv (f_of_Z (Z.of_nat n)) (sk_fps s) else f0).

Definition traj_ok (a : nd) : bool :=
  match shape a with
  | [n; w] => (1 <=? n) && (1 <=? w)
  | _ => false
  end.

(** [Skill.validate]. *)
Definition validate (s : Skill) : res unit :=
  if negb (name_re (sk_name s)) then Raise ValueError
  else if bool_decide (sk_sides s = []) then Raise ValueError
  else if fle (sk_fps s) f0 then Raise ValueError
  else if forallb (traj_ok ∘ snd) (sk_q s) then Ok tt else Raise ValueError.

(** ** The skills directory *)

Inductive fnode := File (c : option json) | Dir.

(** [None]: the directory does not exist. *)
Definition skills_dir := option (list (string * fnode)).

Definition entries (d : skills_dir) : list (string * fnode) := default [] d.

(** [skill_file]: the file's name under the root. *)
Definition skill_file (name : string) : res string :=
  if negb (name_re name) then Raise ValueError else Ok (name +:+ ".json").

Definition is_file (d : skills_dir) (f : string) : bool :=
  match dget f (entries d) with Some (File _) => true | _ => false end.

Definition exists_at (d : skills_dir) (f : string) : bool := dmem f (entries d).

(** [path.unlink(missing_ok=True)]. *)
Definition unlink (f : string) : ST skills_dir unit := fun d =>
  match dget f (entries d) with
  | None => (d, Returned tt)
  | Some Dir => (d, Raised OSError)
  | Some (File _) => (ddel f <$> d, Returned tt)
  end.

(** Which of the three file operations of a save succeed. *)
Record save_io := SaveIo { io_mkdir : bool; io_write : bool; io_replace : bool }.

(** [payload]. *)
Definition payload (now : string) (s : Skill) : res json :=
  let? n := sk_frames s in
  Ok (Obj [("version", jint FORMAT_VERSION);
           ("name", jstr (sk_name s));
           ("created", jstr (if bool_decide (sk_created s = "") then now else sk_created s));
           ("fps", jfloat (sk_fps s));
           ("sides", Arr (jstr <$> sk_sides s));
           ("frames", jint (Z.of_nat n));
           ("source", Obj (sk_source s));
           ("q", Obj ((fun x => (x.1, tolist x.2)) <$> sk_q s));
           ("gripper", Obj ((fun x => (x.1, tolist (ravel x.2))) <$> sk_gripper s))]).

(** [tmp.write_text]: a failed write leaves a torn file. *)
Definition write_text (io : save_io) (f : string) (v : json) : ST skills_dir unit := fun d =>
  if io_write io then (Some (dset f (File (Some v)) (entries d)), Returned tt)
  else (Some (dset f (File None) (entries d)), Raised OSError).

(** [os.replace]. *)
Definition replace (io : save_io) (tmp f : string) : ST skills_dir unit := fun d =>
  match dget tmp (entries d), dget f (entries d) with
  | _, Some Dir => (d, Raised OSError)
  | None, _ => (d, Raised OSError)
  | Some x, _ =>
      if io_replace io then (Some (dset f x (ddel tmp (entries d))), Returned tt) else (d, Raised OSError)
  end.

(** [save_skill]. *)
Definition save_skill (io : save_io) (now : string) (s : Skill) : ST skills_dir string :=
  _ ← st_lift (validate s);
  path ← st_lift (skill_file (sk_name s));
  _ ← (if io_mkdir io then st_modify (fun d => Some (entries d)) else st_raise OSError);
  v ← st_lift (payload now s);
  _ ← write_text io (path +:+ ".tmp") v;
  _ ← replace io (path +:+ ".tmp") path;
  mret path.

Section load.
Context (float_of_str : string -> option f64) (repr : json -> string).

(** [str(v)]. *)
Definition py_str (v : json) : string := match v with Scalar (JStr s) => s | _ => repr v end.

Definition read_arrays (f : nd -> nd) (v : json) : res (list (string * nd)) :=
  let? items := jitems (py_or v (Obj [])) in
  mapM_res (fun x => let? a := asarray float_of_str x.2 in Ok (x.1, f a)) items.

(** From the parsed document to a validated skill. *)
Definition skill_of_payload (name : string) (p : json) : res Skill :=
  let? v := jget "version" p in
  let? version := jint_of (py_or v (jint 0)) in
  if (FORMAT_VERSION <? version)%Z then Raise ValueError
  else
    let? n := jget "name" p in
    let? f := jget "fps" p in
    let? fps := jfloat_of float_of_str (py_or f (jfloat f0)) in
    let? q := jget "q" p in
    let? q := read_arrays id q in
    let? g := jget "gripper" p in
    let? g := read_arrays ravel g in
    let? src := jget "source" p in
    let? src := py_dict (py_or src (Obj [])) in
    let? c := jget "created" p in
    let s := MkSkill (py_str (py_or n (jstr name))) fps q g src (py_str (py_or c (jstr ""))) in
    let? _ := validate s in
    Ok s.

(** [load_skill]. *)
Definition load_skill (d : skills_dir) (name : option string) : res Skill :=
  match name with
  | None | Some EmptyString => Raise ValueError
  | Some name =>
      let? path := skill_file name in
      match dget path (entries d) with
      | Some (File (Some p)) => skill_of_payload name p
      | _ => Raise ValueError
      end
  end.

Record SkillInfo := Info {
  in_name : string;
  in_path : string;
  in_sides : list string;
  in_frames : nat;
  in_fps : f64;
  in_duration_s : f64;
  in_created : string;
  in_source : list (string * json);
}.

Definition info_of (path : string) (s : Skill) : res SkillInfo :=
  let? n := sk_frames s in
  let? du := sk_duration_s s in
  Ok (Info (sk_name s) path (sk_sides s) n (sk_fps s) du (sk_created s) (sk_source s)).

(** [Path.stem] of a name that ends in [.json]. *)
Definition strip_json (f : string) : option string :=
  let n := (String.length f - 5)%nat in
  if bool_decide (5 <= String.length f) && String.eqb (substring n 5 f) ".json"
  then Some (if (n =? 0)%nat then ".json" else substring 0 n f) else None.

(** One file of [discover_skills]: a [ValueError] skips it, anything else escapes. *)
Definition list_skill (d : skills_dir) (out : list SkillInfo) (f : string) : res (list SkillInfo) :=
  match strip_json f with
  | None => Ok out
  | Some stem =>
      match load_skill d (Some stem) with
      | Ok s => let? i := info_of f s in Ok (out ++ [i])%list
      | Raise ValueError => Ok out
      | Raise e => Raise e
      end
  end.

Definition discover_skills (d : skills_dir) : res (list SkillInfo) :=
  match d with
  | None => Ok []
  | Some es => foldM_res (list_skill d) (py_sorted str_leb (dkeys es)) []
  end.

(** [delete_skill]. *)
Definition delete_skill (name : string) : ST skills_dir unit :=
  path ← st_lift (skill_file name);
  unlink path.

(** [rename_skill]. *)
Definition rename_skill (io : save_io) (now old new : string) : ST skills_dir string :=
  src ← st_lift (skill_file old);
  dst ← st_lift (skill_file new);
  d ← st_get;
  s ← st_lift (load_skill d (Some old));
  if bool_decide (dst = src) then mret src
  else if exists_at d dst then st_raise ValueError
  else
    path ← save_skill io now (MkSkill new (sk_fps s) (sk_q s) (sk_gripper s) (sk_source s) (sk_created s));
    _ ← unlink src;
    mret path.
End load.

(** ** Teaching from an episode *)

(** [_state_q_index]. *)
Definition q_index_step (acc : list (string * list nat)) (x : nat * string) : list (string * list nat) :=
  match py_split "." x.2 with
  | side :: p1 :: _ :: _ =>
      if String.eqb p1 "q" then dset side (default [] (dget side acc) ++ [x.1])%list acc else acc
  | _ => acc
  end.

Definition state_q_index (names : list string) : list (string * list nat) :=
  foldl q_index_step [] (imap pair names).

(** [_gripper_index]. *)
Definition gripper_index_step (acc : list (string * nat)) (x : nat * string) : list (string * nat) :=
  match py_split "." x.2 with
  | [side; p1] => if String.eqb p1 "gripper" then dset side x.1 acc else acc
  | _ => acc
  end.

Definition gripper_columns (names : list string) : list (string * nat) :=
  foldl gripper_index_step [] (imap pair names).

(** What [_read_episode_arrays] returns. *)
Record episode := Episode {
  ep_state_names : list string;
  ep_action_names : list string;
  ep_states : list (list f64);
  ep_actions : list (list f64);
  ep_action_width : nat;
  ep_fps : f64;
  ep_tasks : list string;
}.

(** [states[:, idx]] flattened: an index past the row raises. *)
Definition take_columns (rows : list (list f64)) (idx : list nat) : res (list f64) :=
  let? rs := mapM_res (fun r => mapM_res (fun i => of_option IndexError (r !! i)) idx) rows in
  Ok (concat rs).

(** [skill_from_episode]. *)
Definition skill_from_episode (ep : episode) (repo_id : string) (episode_index : Z) (name now : string)
    : res Skill :=
  let qi := state_q_index (ep_state_names ep) in
  if bool_decide (qi = []) then Raise ValueError
  else
    let? q := mapM_res (fun x => let? d := take_columns (ep_states ep) x.2 in
      Ok (x.1, Nd [length (ep_states ep); length x.2] d)) qi in
    let? g := mapM_res (fun x => let? d := take_columns (ep_actions ep) [x.2] in
      Ok (x.1, Nd [length (ep_actions ep)] d))
      (List.filter (fun x => dmem x.1 q && (x.2 <? ep_action_width ep))
         (gripper_columns (ep_action_names ep))) in
    let s := MkSkill name (ep_fps ep) q g
      [("type", jstr "episode"); ("repo_id", jstr repo_id); ("episode_index", jint episode_index);
       ("task", jstr (default "" (head (ep_tasks ep))))] now in
    let? _ := validate s in
    Ok s.

(** ** Suggested names ([dashboard/skills.py]) *)

(** [re.sub(r"[^A-Za-z0-9._-]+", "-", s)]. *)
Fixpoint dash_from (in_run : bool) (s : string) : string :=
  match s with
  | EmptyString => EmptyString
  | String c s =>
      if name_char c then String c (dash_from false s)
      else if in_run then dash_from true s
      else String "-" (dash_from true s)
  end.

Definition edge_char (c : ascii) : bool := Ascii.eqb c "-" || Ascii.eqb c ".".

(** [s.lstrip(chars)], [s.rstrip(chars)]. *)
Definition lstrip (p : ascii -> bool) (s : string) : string := (span p s).2.
Fixpoint rstrip (p : ascii -> bool) (s : string) : string :=
  match s with
  | EmptyString => EmptyString
  | String c t =>
      match rstrip p t with
      | EmptyString => if p c then EmptyString else String c EmptyString
      | r => String c r
      end
  end.

(** [default_name]. *)
Definition default_name (repo_id : string) (episode_index : Z) : string :=
  let base := default "" (list.last (py_split "/" (rstrip (fun c => Ascii.eqb c "/") repo_id))) in
  let base := if bool_decide (base = "") then "skill" else base in
  let base := rstrip edge_char (lstrip edge_char (dash_from false base)) in
  let base := if bool_decide (base = "") then "skill" else base in
  base +:+ "-ep" +:+ str_of_int episode_index.

(** ** File names *)

Fixpoint last_char (s : string) : option ascii :=
  match s with
  | EmptyString => None
  | String c EmptyString => Some c
  | String _ t => last_char t
  end.

Lemma last_char_app a b : b ≠ "" -> last_char (a +:+ b) = last_char b.
Proof.
  intros Hb. induction a as [|c a IH]; [done|]. change (String c a +:+ b) with (String c (a +:+ b)).
  assert (a +:+ b ≠ "") as Hne by (destruct a; [done|discriminate]).
  rewrite <-IH. simpl. by destruct (a +:+ b).
Qed.

Lemma tmp_not_json a b : (a +:+ ".json") +:+ ".tmp" ≠ b +:+ ".json".
Proof. intros H%(f_equal last_char). rewrite !last_char_app in H; done. Qed.

Lemma tmp_not_self a : (a +:+ ".json") +:+ ".tmp" ≠ a +:+ ".json".
Proof. apply tmp_not_json. Qed.

(** ** Saving: lemmas *)

Lemma skill_file_ok name path : skill_file name = Ok path -> name_re name = true /\ path = name +:+ ".json".
Proof. unfold skill_file. by destruct (name_re name); intros [= <-]. Qed.

Lemma dget_ddel_replace f tmp x (es : list (string * fnode)) k :
  NoDup (dkeys es) -> tmp ≠ f -> dget k (dset f x (ddel tmp es)) =
    if decide (k = f) then Some x else if decide (k = tmp) then None else dget k es.
Proof.
  intros Hn Hne. destruct (decide (k = f)) as [->|Hk]; [apply dget_dset_eq|].
  rewrite dget_dset_ne by done. destruct (decide (k = tmp)) as [->|]; [by apply dget_ddel_eq|].
  by apply dget_ddel_ne.
Qed.

(** Every way a save can end. *)
Lemma save_cases io now s d d' o :
  NoDup (dkeys (entries d)) -> save_skill io now s d = (d', o) ->
  let path := sk_name s +:+ ".json" in let tmp := path +:+ ".tmp" in
  (forall f, f ≠ path -> f ≠ tmp -> dget f (entries d') = dget f (entries d)) /\
  NoDup (dkeys (entries d')) /\
  match o with
  | Returned p => p = path /\ validate s = Ok tt /\
      exists v, payload now s = Ok v /\ dget path (entries d') = Some (File (Some v))
  | Raised _ => dget path (entries d') = dget path (entries d)
  | Running => False
  end.
Proof.
  intros Hn. unfold save_skill, mbind, st_bind, st_lift. set (path := sk_name s +:+ ".json").
  destruct (validate s) as [[]|] eqn:Ev; [|intros [= <- <-]; by split_and!].
  destruct (skill_file (sk_name s)) as [p|] eqn:Ep; [|intros [= <- <-]; by split_and!].
  apply skill_file_ok in Ep as [_ ->]. fold path.
  assert (path +:+ ".tmp" ≠ path) as Htmp by apply tmp_not_self.
  destruct (io_mkdir io); [|intros [= <- <-]; by split_and!]. simpl.
  destruct (payload now s) as [v|]; [|intros [= <- <-]; by split_and!].
  unfold write_text. destruct (io_write io); simpl.
  2:{ intros [= <- <-]. simpl. split_and!; [intros; by rewrite dget_dset_ne|by apply NoDup_dset|by rewrite dget_dset_ne]. }
  unfold replace. simpl. rewrite dget_dset_eq, dget_dset_ne by done.
  assert (NoDup (dkeys (dset (path +:+ ".tmp") (File (Some v)) (entries d)))) as Hn1 by by apply NoDup_dset.
  assert (forall f, f ≠ path +:+ ".tmp" -> dget f (dset (path +:+ ".tmp") (File (Some v)) (entries d)) =
    dget f (entries d)) as Hget by (intros; by apply dget_dset_ne).
  assert (forall x, NoDup (dkeys (dset path x (ddel (path +:+ ".tmp") (dset (path +:+ ".tmp") (File (Some v)) (entries d)))))) as Hn2.
  { intros x. apply NoDup_dset. clear -Hn1. revert Hn1. generalize (dset (path +:+ ".tmp") (File (Some v)) (entries d)).
    intros es. induction es as [|[k y] es IH]; simpl; [done|]. intros [H1 H2]%list.NoDup_cons.
    destruct (decide _); [done|]. simpl. apply list.NoDup_cons. split; [|by apply IH].
    intros Hin. apply H1. by apply elem_of_dkeys_ddel in Hin. }
  destruct (dget path (entries d)) as [[c|]|] eqn:Eold;
    try (intros [= <- <-]; simpl; split_and!; [by intros; apply Hget|done|by rewrite Hget]);
    (destruct (io_replace io); intros [= <- <-]; simpl;
      [split_and!; [|by apply Hn2|done|done|exists v; split; [done|apply dget_dset_eq]]
      |split_and!; [by intros; apply Hget|done|by rewrite Hget]]);
    intros f H1 H2; rewrite dget_ddel_replace, decide_False, decide_False by done; by apply Hget.
Qed.

Lemma save_succeeds now s d v :
  NoDup (dkeys (entries d)) -> validate s = Ok tt -> payload now s = Ok v ->
  dget (sk_name s +:+ ".json") (entries d) ≠ Some Dir ->
  exists d', save_skill (SaveIo true true true) now s d = (d', Returned (sk_name s +:+ ".json")).
Proof.
  intros Hn Hv Hp Hd. unfold save_skill, mbind, st_bind, st_lift. rewrite Hv.
  assert (skill_file (sk_name s) = Ok (sk_name s +:+ ".json")) as ->.
  { unfold skill_file, validate in *. by destruct (name_re (sk_name s)). }
  simpl. rewrite Hp. simpl. unfold replace. simpl. rewrite dget_dset_eq.
  rewrite dget_dset_ne by (apply not_eq_sym, tmp_not_self).
  destruct (dget _ (entries d)) as [[]|]; simpl; eauto. done.
Qed.

(** ** Loading what was saved *)

Definition arrays_wf (q : list (string * nd)) : Prop := Forall (fun x => nd_wf x.2) q.

Lemma mapM_res_fmap {A B C} (f : A -> B) (g : B -> res C) (h : A -> C) l :
  (forall x, x ∈ l -> g (f x) = Ok (h x)) -> mapM_res g (f <$> l) = Ok (h <$> l).
Proof.
  induction l as [|x l IH]; intros H; [done|]. rewrite !fmap_cons. cbn [mapM_res].
  rewrite H by left. cbn [res_bind]. rewrite IH by (intros; apply H; by right). done.
Qed.

Lemma skill_validate_ok s : validate s = Ok tt -> name_re (sk_name s) = true /\ sk_q s ≠ [] /\
  fle (sk_fps s) f0 = false /\ Forall (fun x => traj_ok x.2 = true) (sk_q s).
Proof.
  unfold validate. destruct (name_re _); [|done]. simpl. case_bool_decide as Hq; [done|].
  destruct (fle _ _); [done|]. destruct (forallb _ _) eqn:E; [|done]. intros _. split_and!; try done.
  - intros E'. apply Hq. unfold sk_sides. by rewrite E'.
  - apply Forall_forall. intros x Hx. rewrite forallb_forall in E. apply E. by apply list_elem_of_In.
Qed.

Lemma fle_feq x : fle x f0 = false -> feq x f0 = false.
Proof. unfold fle, feq, SpecFloat.SFleb, SpecFloat.SFeqb. by destruct (SpecFloat.SFcompare x f0) as [[]|]. Qed.

Section roundtrip.
Context (float_of_str : string -> option f64) (repr : json -> string).

Lemma read_q q : arrays_wf q -> Forall (fun x => traj_ok x.2 = true) q ->
  read_arrays float_of_str id (Obj ((fun x => (x.1, tolist x.2)) <$> q)) = Ok q.
Proof.
  intros Hw Ht. unfold read_arrays. 
  assert (jitems (py_or (Obj ((fun x : string * nd => (x.1, tolist x.2)) <$> q)) (Obj [])) =
    Ok ((fun x : string * nd => (x.1, tolist x.2)) <$> q)) as -> by by destruct q.
  cbn [res_bind]. rewrite (mapM_res_fmap _ _ id); [by rewrite list_fmap_id|].
  intros [side a] Hin. cbn [fst snd]. unfold tolist. unfold arrays_wf in Hw. rewrite Forall_forall in Hw, Ht.
  specialize (Hw _ Hin). specialize (Ht _ Hin). simpl in Hw, Ht. unfold traj_ok in Ht. destruct a as [sh dt].
  simpl in *. rewrite asarray_tolist; [done|exact Hw|].
  destruct sh as [|[|n] [|[|w] [|]]]; try done.
  apply Forall_cons. split; [lia|]. apply Forall_singleton. lia.
Qed.

Lemma read_gripper g :
  read_arrays float_of_str ravel (Obj ((fun x => (x.1, tolist (ravel x.2))) <$> g)) =
    Ok ((fun x => (x.1, ravel x.2)) <$> g).
Proof.
  unfold read_arrays.
  assert (jitems (py_or (Obj ((fun x : string * nd => (x.1, tolist (ravel x.2))) <$> g)) (Obj [])) =
    Ok ((fun x : string * nd => (x.1, tolist (ravel x.2))) <$> g)) as -> by by destruct g.
  cbn [res_bind]. apply mapM_res_fmap. intros [side a] _. unfold tolist, ravel. cbn [fst snd shape data].
  rewrite asarray_tolist_flat. done.
Qed.

(** What is read back: the gripper channels flattened, the creation time filled in. *)
Definition as_saved (now : string) (s : Skill) : Skill :=
  MkSkill (sk_name s) (sk_fps s) (sk_q s) ((fun x => (x.1, ravel x.2)) <$> sk_gripper s) (sk_source s)
    (if bool_decide (sk_created s = "") then now else sk_created s).

Lemma load_payload now s v name :
  validate s = Ok tt -> arrays_wf (sk_q s) -> payload now s = Ok v ->
  skill_of_payload float_of_str repr name v = Ok (as_saved now s).
Proof.
  intros Hv Hw Hp. destruct (skill_validate_ok _ Hv) as (Hnm & Hq & Hf & Ht). unfold payload in Hp.
  destruct (sk_frames s) as [n|]; [|done]. cbn [res_bind] in Hp. injection Hp as <-.
  unfold skill_of_payload. cbn [jget dget fst snd res_bind].
  repeat match goal with |- context [decide (?a = ?b)] =>
    first [rewrite (decide_True (P := a = b)) by reflexivity|rewrite (decide_False (P := a = b)) by discriminate] end.
  cbn [default res_bind jint_of py_or truthy]. 
  change (py_or (jint FORMAT_VERSION) (jint 0)) with (jint FORMAT_VERSION). cbn [jint_of py_int jint res_bind].
  change (FORMAT_VERSION <? FORMAT_VERSION)%Z with false. cbn [from_option id].
  assert (py_or (jfloat (sk_fps s)) (jfloat f0) = jfloat (sk_fps s)) as ->.
  { unfold py_or, truthy, jfloat. by rewrite fle_feq. }
  cbn [jfloat_of jfloat res_bind]. rewrite read_q by done. cbn [res_bind].
  rewrite read_gripper. cbn [res_bind].
  assert (py_dict (py_or (Obj (sk_source s)) (Obj [])) = Ok (sk_source s)) as -> by by destruct (sk_source s).
  cbn [res_bind]. 
  assert (py_str repr (py_or (jstr (sk_name s)) (jstr name)) = sk_name s) as ->.
  { unfold py_or, truthy, jstr. case_bool_decide as E; [|done]. by rewrite E in Hnm. }
  assert (forall c, py_str repr (py_or (jstr c) (jstr "")) = c) as ->.
  { intros c. unfold py_or, truthy, jstr. case_bool_decide as E; [by subst|done]. }
  assert (validate (as_saved now s) = Ok tt) as Hvs by done. unfold as_saved in Hvs. rewrite Hvs. done.
Qed.
End roundtrip.

(** ** Loading: lemmas *)

Section loading.
Context (float_of_str : string -> option f64) (repr : json -> string).

Lemma read_arrays_wf f v q : (forall a, nd_wf a -> nd_wf (f a)) ->
  read_arrays float_of_str f v = Ok q -> arrays_wf q.
Proof.
  intros Hf. unfold read_arrays. destruct (jitems _) as [items|]; simpl; [|done].
  intros H%mapM_res_Forall2. apply Forall_forall. intros x Hx. apply list_elem_of_lookup in Hx as [i Hi].
  destruct (Forall2_lookup_r _ _ _ _ _ H Hi) as (z & _ & Hz).
  destruct (asarray _ _) as [a|] eqn:E; [|done]. injection Hz as <-. simpl. apply Hf.
  by eapply asarray_wf.
Qed.

Lemma read_arrays_ravel v q : read_arrays float_of_str ravel v = Ok q ->
  (fun x => (x.1, ravel x.2)) <$> q = q.
Proof.
  unfold read_arrays. destruct (jitems _) as [items|]; simpl; [|done]. intros H%mapM_res_Forall2.
  induction H as [|x y items q Hxy _ IH]; [done|]. rewrite fmap_cons, IH. f_equal.
  destruct (asarray _ _) as [a|]; [|done]. injection Hxy as <-. done.
Qed.

Lemma loaded_skill name p s : skill_of_payload float_of_str repr name p = Ok s ->
  validate s = Ok tt /\ arrays_wf (sk_q s) /\ (fun x => (x.1, ravel x.2)) <$> sk_gripper s = sk_gripper s.
Proof.
  unfold skill_of_payload. intros H.
  repeat match type of H with
  | res_bind ?c _ = Ok _ => destruct c eqn:?; cbn [res_bind] in H; [|done]
  | (if ?b then _ else _) = Ok _ => destruct b; [done|]
  end. injection H as <-. match goal with Hv : validate _ = Ok ?u |- _ => destruct u end.
  split_and!; [done| |].
  - simpl. eapply (read_arrays_wf id); [|eassumption]. done.
  - simpl. by eapply read_arrays_ravel.
Qed.

Lemma load_cases d name s : load_skill float_of_str repr d (Some name) = Ok s ->
  name_re name = true /\ exists p, dget (name +:+ ".json") (entries d) = Some (File (Some p)) /\
  skill_of_payload float_of_str repr name p = Ok s.
Proof.
  unfold load_skill. destruct name as [|c name]; [done|].
  destruct (skill_file (String c name)) as [path|] eqn:E; cbn [res_bind]; [|done].
  apply skill_file_ok in E as [Hn ->]. destruct (dget _ _) as [[[p|]|]|] eqn:Ed; try done.
  intros H. split; [done|]. by exists p.
Qed.

Lemma load_at d name p : name_re name = true -> dget (name +:+ ".json") (entries d) = Some (File (Some p)) ->
  load_skill float_of_str repr d (Some name) = skill_of_payload float_of_str repr name p.
Proof.
  intros Hn Hd. unfold load_skill, skill_file. destruct name as [|c name]; [done|]. rewrite Hn. cbn [negb res_bind].
  by rewrite Hd.
Qed.

Lemma load_missing d name : dget (name +:+ ".json") (entries d) = None ->
  load_skill float_of_str repr d (Some name) = Raise ValueError.
Proof.
  intros Hd. unfold load_skill, skill_file. destruct name as [|c name]; [done|].
  destruct (name_re _); [|done]. cbn [negb res_bind]. by rewrite Hd.
Qed.
End loading.

(** ** Properties *)

(** Saving then loading a skill returns it, and a save that fails damages nothing.  For
    any outcome of the file operations: a save that returns makes the name load the same
    trajectory, rate, provenance and (flattened) gripper channel, with the creation time
    filled in; a save that raises leaves what the name held before; no other skill file
    changes either way. *)
Theorem save_load_roundtrip (fos : string -> option f64) (repr : json -> string) (io : save_io)
    (now : string) (s : Skill) (d d' : skills_dir) (o : outcome string)
    (Hd : NoDup (dkeys (entries d))) (Hwf : arrays_wf (sk_q s)) (Hsave : save_skill io now s d = (d', o)) :
  (forall path, o = Returned path ->
     load_skill fos repr d' (Some (sk_name s)) = Ok (as_saved now s)) /\
  (forall e, o = Raised e -> load_skill fos repr d' (Some (sk_name s)) = load_skill fos repr d (Some (sk_name s))) /\
  (forall name, name ≠ sk_name s -> name +:+ ".json" ≠ sk_name s +:+ ".json" ->
     load_skill fos repr d' (Some name) = load_skill fos repr d (Some name)).
Proof.
  destruct (save_cases _ _ _ _ _ _ Hd Hsave) as (Hother & _ & Ho).
  assert (forall name, dget (name +:+ ".json") (entries d') = dget (name +:+ ".json") (entries d) ->
    load_skill fos repr d' (Some name) = load_skill fos repr d (Some name)) as Hsame.
  { intros name E. unfold load_skill, skill_file. destruct name; [done|].
    destruct (name_re _); [|done]. cbn [negb res_bind]. by rewrite E. }
  split_and!.
  - intros path ->. destruct Ho as (_ & Hv & v & Hp & Hget).
    rewrite (load_at fos repr d' _ v) by (done || apply (skill_validate_ok _ Hv)). by apply load_payload.
  - intros e ->. by apply Hsame.
  - intros name _ Hne. apply Hsame, Hother; [done|]. apply not_eq_sym, tmp_not_json.
Qed.

(** Renaming moves a skill and never clobbers one.  If the new name is taken the rename
    raises and the directory is unchanged; when it returns under a new file, the new name
    loads the old skill with only its name changed (an empty creation time is stamped), the
    old name is gone, and every other skill is as it was. *)
Theorem rename_moves (fos : string -> option f64) (repr : json -> string) (io : save_io)
    (now old new : string) (d d' : skills_dir) (o : outcome string)
    (Hd : NoDup (dkeys (entries d))) (Hne : new +:+ ".json" ≠ old +:+ ".json")
    (Hren : rename_skill fos repr io now old new d = (d', o)) :
  (exists_at d (new +:+ ".json") = true -> d' = d /\ exists e, o = Raised e) /\
  (forall path, o = Returned path -> exists s,
     load_skill fos repr d (Some old) = Ok s /\
     load_skill fos repr d' (Some new) =
       Ok (MkSkill new (sk_fps s) (sk_q s) (sk_gripper s) (sk_source s)
             (if bool_decide (sk_created s = "") then now else sk_created s)) /\
     load_skill fos repr d' (Some old) = Raise ValueError) /\
  (forall name, name +:+ ".json" ≠ old +:+ ".json" -> name +:+ ".json" ≠ new +:+ ".json" ->
     dget (name +:+ ".json") (entries d') = dget (name +:+ ".json") (entries d)).
Proof.
  revert Hren. unfold rename_skill, mbind, st_bind, st_lift.
  destruct (skill_file old) as [src|] eqn:Es; [|intros [= <- <-]; split_and!; naive_solver].
  destruct (skill_file new) as [dst|] eqn:Ed; [|intros [= <- <-]; split_and!; naive_solver].
  apply skill_file_ok in Es as [_ ->]. apply skill_file_ok in Ed as [_ ->]. unfold st_get.
  destruct (load_skill fos repr d (Some old)) as [s|] eqn:El; [|intros [= <- <-]; split_and!; naive_solver].
  rewrite bool_decide_false by done.
  destruct (exists_at d _) eqn:Ee; [intros [= <- <-]; split_and!; naive_solver|].
  set (s' := MkSkill new _ _ _ _ _). destruct (save_skill io now s' d) as [d1 o1] eqn:Esv.
  destruct (save_cases _ _ _ _ _ _ Hd Esv) as (Hother & Hn1 & Ho). simpl in Hother, Ho.
  destruct o1 as [p|e|]; [|intros [= <- <-]|done].
  2:{ split_and!; [done|done|]. intros name _ Hn. apply Hother; [done|]. apply not_eq_sym, tmp_not_json. }
  destruct Ho as (-> & Hv & v & Hp & Hget). destruct (load_cases _ _ _ _ _ El) as (Hnm & pl & Hpl & Hsk).
  destruct (loaded_skill _ _ _ _ _ Hsk) as (_ & Hwf & Hgr).
  assert (dget (old +:+ ".json") (entries d1) = Some (File (Some pl))) as Hold.
  { rewrite Hother; [done|done|]. apply not_eq_sym, tmp_not_json. }
  unfold unlink. rewrite Hold. intros [= <- <-]. destruct d1 as [es|]; [|done].
  assert (forall f, dget f (entries (ddel (old +:+ ".json") <$> Some es)) = 
    dget f (ddel (old +:+ ".json") es)) as Hdel by done.
  split_and!; [done| |].
  - intros path _. exists s. split; [done|]. split.
    + rewrite (load_at fos repr _ new v); [|by apply (skill_validate_ok _ Hv)|by rewrite Hdel, dget_ddel_ne].
      rewrite (load_payload fos repr now s' v) by done. unfold as_saved, s'. simpl. by rewrite Hgr.
    + apply load_missing. rewrite Hdel. by apply dget_ddel_eq.
  - intros name H1 H2. rewrite Hdel, dget_ddel_ne by done. apply (Hother (name +:+ ".json")); [done|].
    apply not_eq_sym, tmp_not_json.
Qed.

(** ** Teaching: lemmas *)

(** A column named [<side>.q.*]. *)
Definition is_q (side name : string) : bool :=
  match py_split "." name with
  | s :: p1 :: _ :: _ => String.eqb p1 "q" && String.eqb s side
  | _ => false
  end.

(** The columns of a side's joints, in order. *)
Definition q_cols (side : string) (l : list (nat * string)) : list nat :=
  (List.filter (fun x => is_q side x.2) l).*1.

Definition q_columns (side : string) (names : list string) : list nat := q_cols side (imap pair names).

Lemma q_index_step_spec side acc x :
  dget side (q_index_step acc x) =
    if is_q side x.2 then Some (default [] (dget side acc) ++ [x.1])%list else dget side acc.
Proof.
  unfold q_index_step, is_q. destruct (py_split "." x.2) as [|s [|p1 [|p2 ps]]]; try done.
  destruct (String.eqb_spec p1 "q") as [->|]; simpl; [|done].
  destruct (String.eqb_spec s side) as [->|]; [apply dget_dset_eq|]. by apply dget_dset_ne.
Qed.

Lemma q_index_fold side l acc :
  dget side (foldl q_index_step acc l) =
    match q_cols side l with [] => dget side acc | c => Some (default [] (dget side acc) ++ c)%list end.
Proof.
  revert acc. induction l as [|x l IH]; intros acc; [done|]. simpl. rewrite IH, q_index_step_spec.
  assert (q_cols side (x :: l) = if is_q side x.2 then x.1 :: q_cols side l else q_cols side l) as ->
    by (unfold q_cols; simpl; by destruct (is_q side x.2)).
  destruct (is_q side x.2); [|done]. destruct (q_cols side l); [done|]. simpl. by rewrite <-app_assoc.
Qed.

Lemma q_index_NoDup l acc : NoDup (dkeys acc) -> NoDup (dkeys (foldl q_index_step acc l)).
Proof.
  revert acc. induction l as [|x l IH]; intros acc Hn; [done|]. apply IH. unfold q_index_step.
  repeat case_goal; try done; by apply NoDup_dset.
Qed.

Lemma state_q_index_spec names side idx : (side, idx) ∈ state_q_index names ->
  idx = q_columns side names /\ idx ≠ [].
Proof.
  intros Hin%dget_NoDup; [|by apply q_index_NoDup, NoDup_nil_2].
  unfold state_q_index in Hin. rewrite q_index_fold in Hin. unfold q_columns.
  destruct (q_cols side _); [done|]. by injection Hin as <-.
Qed.

Lemma concat_row w (rs : list (list f64)) t r :
  Forall (fun r => length r = w) rs -> rs !! t = Some r -> row_of w (concat rs) t = r.
Proof.
  intros Hw. revert t. induction Hw as [|x rs Hx Hrs IH]; intros t; [done|]. unfold row_of, slice in *.
  destruct t as [|t]; simpl.
  - intros [= ->]. rewrite drop_0, Nat.sub_0_r. rewrite take_app_le, take_ge by lia. done.
  - intros Ht. rewrite <-(IH t Ht), drop_app_ge by lia. f_equal; [lia|f_equal; lia].
Qed.

Lemma take_columns_spec rows idx d : take_columns rows idx = Ok d ->
  length d = length rows * length idx /\
  forall t row j i, rows !! t = Some row -> idx !! j = Some i ->
    exists x, row !! i = Some x /\ row_of (length idx) d t !! j = Some x.
Proof.
  unfold take_columns. intros H. destruct (mapM_res _ rows) as [rs|] eqn:E; [|done]. injection H as <-.
  apply mapM_res_Forall2 in E.
  assert (Forall (fun r => length r = length idx) rs) as Hw.
  { apply Forall_forall. intros r Hr. apply list_elem_of_lookup in Hr as [t Ht].
    destruct (Forall2_lookup_r _ _ _ _ _ E Ht) as (row & _ & Hr).
    apply mapM_res_Forall2 in Hr. symmetry. by eapply Forall2_length. }
  split.
  - rewrite (Forall2_length _ _ _ E). clear E. induction Hw as [|r rs Hr Hrs IH]; simpl; [done|].
    by rewrite length_app, IH, Hr.
  - intros t row j i Ht Hj. destruct (Forall2_lookup_l _ _ _ _ _ E Ht) as (r & Hr & Hrow).
    apply mapM_res_Forall2 in Hrow. destruct (Forall2_lookup_l _ _ _ _ _ Hrow Hj) as (x & Hx & Hxi).
    rewrite (concat_row _ _ _ _ Hw Hr). exists x. split; [|done]. destruct (row !! i); by simplify_eq/=.
Qed.

(** A taught skill is the measured trajectory.  Teaching from an episode that succeeds
    yields a valid skill with one row per recorded state; for each taught side, row [t],
    joint [j] is the state's column named [<side>.q.*] in position [j], and no other column. *)
Theorem teach_exact (ep : episode) (repo_id : string) (idx : Z) (name now : string) (s : Skill)
    (Hteach : skill_from_episode ep repo_id idx name now = Ok s) :
  validate s = Ok tt /\ sk_frames s = Ok (length (ep_states ep)) /\
  forall side a, (side, a) ∈ sk_q s ->
    let cols := q_columns side (ep_state_names ep) in
    cols ≠ [] /\ shape a = [length (ep_states ep); length cols] /\
    forall t row j i, ep_states ep !! t = Some row -> cols !! j = Some i ->
      exists x, row !! i = Some x /\ row_of (length cols) (data a) t !! j = Some x.
Proof.
  unfold skill_from_episode in Hteach. case_bool_decide as Hne; [done|].
  match type of Hteach with res_bind ?c _ = _ => destruct c as [q|] eqn:Eq; cbn [res_bind] in Hteach; [|done] end.
  match type of Hteach with res_bind ?c _ = _ => destruct c as [g|] eqn:Eg; cbn [res_bind] in Hteach; [|done] end.
  set (s0 := MkSkill _ _ _ _ _ _) in Hteach. destruct (validate s0) as [[]|] eqn:Ev; [|done].
  injection Hteach as <-. split; [done|].
  apply mapM_res_Forall2 in Eq.
  assert (Hq : forall side a, (side, a) ∈ q -> exists idx0 d, (side, idx0) ∈ state_q_index (ep_state_names ep) /\
    take_columns (ep_states ep) idx0 = Ok d /\ a = Nd [length (ep_states ep); length idx0] d).
  { intros side a Hin. apply list_elem_of_lookup in Hin as [k Hk].
    destruct (Forall2_lookup_r _ _ _ _ _ Eq Hk) as ([sd ix] & Hx & Hxy). cbn [fst snd] in Hxy.
    destruct (take_columns _ ix) as [d|] eqn:Ed; [|done]. injection Hxy as <- <-. exists ix, d.
    by apply list_elem_of_lookup_2 in Hx. }
  split.
  - unfold sk_frames, s0. cbn [sk_q].
    assert (mapM_res (rows_of ∘ snd) q = Ok (replicate (length q) (length (ep_states ep)))) as ->.
    { clear -Hq. induction q as [|[sd a] q IH]; [done|]. cbn [mapM_res length replicate].
      destruct (Hq sd a ltac:(left)) as (i0 & d & _ & _ & ->). unfold rows_of at 1. simpl.
      rewrite IH by (intros; apply Hq; by right). done. }
    simpl. f_equal. destruct q as [|x q]; [by apply skill_validate_ok in Ev as (_ & [] & _)|]. simpl.
    clear. induction (length q) as [|n IH]; simpl; [done|]. by rewrite Nat.min_id.
  - intros side a Hin. destruct (Hq _ _ Hin) as (ix & d & Hix & Hd & ->).
    apply state_q_index_spec in Hix as [-> Hcols]. destruct (take_columns_spec _ _ _ Hd) as [_ Hrow].
    by split_and!.
Qed.

(** ** Listing *)

(** Every loadable skill is listed, provided no file raises something else than [ValueError]. *)
Lemma discover_files_fold fos repr d l out out' i :
  foldM_res (list_skill fos repr d) l out = Ok out' -> i ∈ out -> i ∈ out'.
Proof.
  revert out. induction l as [|f l IH]; intros out; simpl; [by intros [= ->]|].
  destruct (list_skill fos repr d out f) as [out1|] eqn:E; [|done]. simpl. intros H Hi.
  eapply IH; [done|]. unfold list_skill in E. destruct (strip_json f) as [stem|]; [|by injection E as <-].
  destruct (load_skill fos repr d (Some stem)) as [s|[]]; try done; [|by injection E as <-].
  destruct (info_of f s) as [i'|]; [|done]. injection E as <-. set_solver.
Qed.

Lemma discover_lists fos repr es out f stem s :
  discover_skills fos repr (Some es) = Ok out -> f ∈ dkeys es -> strip_json f = Some stem ->
  load_skill fos repr (Some es) (Some stem) = Ok s -> exists i, i ∈ out /\ info_of f s = Ok i.
Proof.
  unfold discover_skills. intros Hd Hf%(elem_of_py_sorted str_leb) Hs Hl. revert Hd.
  generalize (@nil SkillInfo). revert Hf. generalize (py_sorted str_leb (dkeys es)). intros l Hf.
  induction l as [|g l IH]; intros out0; [by apply not_elem_of_nil in Hf|]. cbn [foldM_res].
  destruct (list_skill fos repr (Some es) out0 g) as [out1|] eqn:E; [|done]. cbn [res_bind]. intros H.
  apply elem_of_cons in Hf as [<-|Hf]; [|by apply (IH Hf out1)].
  unfold list_skill in E. rewrite Hs, Hl in E. destruct (info_of f s) as [i|] eqn:Ei; [|done].
  injection E as <-. exists i. split; [|done]. eapply discover_files_fold; [done|]. set_solver.
Qed.

(** ** Suggested names: lemmas *)

Lemma dash_from_chars b s : all_chars name_char (dash_from b s) = true.
Proof.
  revert b. induction s as [|c s IH]; intros b; simpl; [done|].
  destruct (name_char c) eqn:E; simpl; [by rewrite E, IH|]. destruct b; simpl; by rewrite IH.
Qed.

Lemma rstrip_spec p q s : all_chars q s = true -> all_chars q (rstrip p s) = true /\
  (forall c t, rstrip p s = String c t -> exists t', s = String c t').
Proof.
  induction s as [|c s IH]; simpl; [by split|]. intros [Hc Hs]%andb_true_iff. destruct (IH Hs) as [H1 H2].
  destruct (rstrip p s) as [|c' t'] eqn:E.
  - destruct (p c); simpl; [by split|]. rewrite Hc. split; [done|]. intros ? ? [= <- <-]. eauto.
  - cbn [all_chars] in *. rewrite Hc, H1. split; [done|]. intros ? ? [= <- <-]. eauto.
Qed.

Lemma lstrip_spec p q s : all_chars q s = true -> all_chars q (lstrip p s) = true /\
  (forall c t, lstrip p s = String c t -> p c = false).
Proof.
  unfold lstrip. induction s as [|c s IH]; simpl; [by split|]. intros [Hc Hs]%andb_true_iff.
  destruct (p c) eqn:Ep; simpl; [by apply IH|]. rewrite Hc, Hs. split; [done|]. by intros ? ? [= <- <-].
Qed.

Lemma span_all p s : all_chars p s = true -> (span p s).2 = "".
Proof. induction s as [|c s IH]; simpl; [done|]. intros [-> Hs]%andb_true_iff. simpl. auto. Qed.

(** A suggested name is a valid skill name unless the dataset's starts with an underscore. *)
Lemma default_name_valid repo_id idx : (0 <= idx)%Z ->
  name_re (default_name repo_id idx) = true \/ exists t, default_name repo_id idx = String "_" t.
Proof.
  intros Hi. unfold default_name. cbv zeta.
  match goal with |- context [dash_from false ?x] => set (b0 := x) end.
  set (b1 := rstrip edge_char (lstrip edge_char (dash_from false b0))).
  assert (all_chars name_char ("-ep" +:+ str_of_int idx) = true) as Hsuf.
  { rewrite all_chars_app. pose proof (str_of_int_isdigit idx Hi) as Hd. apply andb_true_iff in Hd as [_ Hd].
    assert (forall s, all_chars digit_char s = true -> all_chars name_char s = true) as Himp.
    { intros s. induction s as [|c s IH]; simpl; [done|]. intros [Hc Hs]%andb_true_iff.
      rewrite IH by done. unfold name_char, alnum_char. rewrite Hc. by rewrite !orb_true_r. }
    by rewrite (Himp _ Hd). }
  destruct (lstrip_spec edge_char name_char (dash_from false b0) (dash_from_chars _ _)) as [Hl1 Hl2].
  destruct (rstrip_spec edge_char name_char _ Hl1) as [Hr1 Hr2]. fold b1 in Hr1, Hr2.
  set (b2 := if bool_decide (b1 = "") then "skill" else b1).
  assert (exists c t, b2 = String c t /\ name_char c = true /\ all_chars name_char t = true /\ edge_char c = false)
    as (c & t & -> & Hc & Ht & He).
  { unfold b2. case_bool_decide as E; [by exists "s"%char, "kill"|]. destruct b1 as [|c t] eqn:Eb; [done|].
    destruct (Hr2 c t eq_refl) as [t' Hlt]. exists c, t. cbn [all_chars] in Hr1.
    apply andb_true_iff in Hr1 as [? ?]. split_and!; try done. by eapply Hl2. }
  change (String c t +:+ "-ep" +:+ str_of_int idx) with (String c (t +:+ "-ep" +:+ str_of_int idx)).
  destruct (alnum_char c) eqn:Ea.
  - left. unfold name_re. rewrite Ea, span_all by (by rewrite all_chars_app, Ht, Hsuf). done.
  - right. unfold name_char in Hc. unfold edge_char in He. rewrite Ea in Hc. simpl in Hc.
    apply orb_false_iff in He as [He1 He2]. rewrite He1, He2 in Hc. rewrite orb_false_r in Hc. simpl in Hc.
    apply Ascii.eqb_eq in Hc as ->. eauto.
Qed.

(** ** Witnesses *)

Definition demo_skill : Skill :=
  MkSkill "wave" (f_of_Z 30) [("left", Nd [2; 2] [f0; f1; f1; f0])] [("left", Nd [2; 1] [f0; f1])]
    [("type", jstr "episode")] "".

Definition demo_dir : skills_dir := Some [("old.json", File None); ("wave.json.tmp", File None)].
Definition no_floats : string -> option f64 := fun _ => None.
Definition no_repr : json -> string := fun _ => "?".

Lemma demo_dir_nodup : NoDup (dkeys (entries demo_dir)).
Proof. apply (bool_decide_eq_true_1 _). vm_compute. reflexivity. Qed.

Lemma demo_skill_wf : arrays_wf (sk_q demo_skill).
Proof. apply Forall_singleton. reflexivity. Qed.

Lemma save_load_roundtrip_witness : exists d',
  save_skill (SaveIo true true true) "2026-01-01" demo_skill demo_dir = (d', Returned "wave.json") /\
  load_skill no_floats no_repr d' (Some "wave") = Ok (as_saved "2026-01-01" demo_skill).
Proof.
  destruct (save_skill (SaveIo true true true) "2026-01-01" demo_skill demo_dir) as [d' o] eqn:E.
  destruct (save_load_roundtrip no_floats no_repr (SaveIo true true true) "2026-01-01" demo_skill demo_dir d' o
    demo_dir_nodup demo_skill_wf E) as [H _].
  assert (o = Returned "wave.json") as -> by (vm_compute in E; congruence).
  exists d'. split; [reflexivity|]. exact (H _ eq_refl).
Defined.

Definition demo_saved : skills_dir := (save_skill (SaveIo true true true) "2026-01-01" demo_skill demo_dir).1.

Lemma demo_saved_nodup : NoDup (dkeys (entries demo_saved)).
Proof. apply (bool_decide_eq_true_1 _). vm_compute. reflexivity. Qed.

Lemma rename_moves_witness : exists d' s,
  rename_skill no_floats no_repr (SaveIo true true true) "now" "wave" "hello" demo_saved = (d', Returned "hello.json") /\
  load_skill no_floats no_repr d' (Some "hello") = Ok s /\ sk_q s = sk_q demo_skill /\
  load_skill no_floats no_repr d' (Some "wave") = Raise ValueError.
Proof.
  destruct (rename_skill no_floats no_repr (SaveIo true true true) "now" "wave" "hello" demo_saved) as [d' o] eqn:E.
  destruct (rename_moves no_floats no_repr (SaveIo true true true) "now" "wave" "hello" demo_saved d' o
    demo_saved_nodup ltac:(discriminate) E) as (_ & H & _).
  assert (o = Returned "hello.json") as -> by (vm_compute in E; congruence).
  destruct (H _ eq_refl) as (s & Hs & Hn & Ho). vm_compute in Hs. injection Hs as <-.
  eexists d', _. split; [reflexivity|]. split; [exact Hn|]. split; [reflexivity|exact Ho].
Defined.

Definition demo_episode : episode :=
  Episode ["left.q.0"; "left.tau.0"; "left.q.1"] ["left.q.0"; "left.gripper"]
    [[f0; f1; f1]; [f1; f0; f0]] [[f0; f1]; [f0; f0]] 2 (f_of_Z 30) ["pick"].

Lemma teach_exact_witness : exists s a,
  skill_from_episode demo_episode "lab/pick" 3 "pick-ep3" "now" = Ok s /\ ("left", a) ∈ sk_q s /\
  row_of 2 (data a) 1 !! 1%nat = Some f0.
Proof.
  destruct (skill_from_episode demo_episode "lab/pick" 3 "pick-ep3" "now") as [s|] eqn:E; [|vm_compute in E; discriminate].
  destruct (teach_exact demo_episode "lab/pick" 3 "pick-ep3" "now" s E) as (_ & _ & H).
  assert (("left", Nd [2; 2] [f0; f1; f1; f0]) ∈ sk_q s) as Hin by (vm_compute in E; injection E as <-; left).
  exists s, (Nd [2; 2] [f0; f1; f1; f0]). split; [reflexivity|]. split; [exact Hin|].
  destruct (H _ _ Hin) as (_ & _ & Hrow). destruct (Hrow 1 [f1; f0; f0] 1 2 eq_refl eq_refl) as (x & Hx & Hr).
  simpl in Hx. injection Hx as <-. exact Hr.
Defined.

(** The name test lets a trailing newline through, although names become file stems and
    override values. *)
Lemma name_with_newline : name_re ("wave" +:+ String (ascii_of_nat 10) "") = true.
Proof. reflexivity. Qed.

(** One file that parses but is not an object hides every skill: [AttributeError] is not the
    [ValueError] the listing skips. *)
Lemma discover_blocked : exists d, 
  is_Some (dget "wave.json" (entries d)) /\
  (exists s, load_skill no_floats no_repr d (Some "wave") = Ok s) /\
  discover_skills no_floats no_repr d = Raise OtherError.
Proof.
  exists (Some (("bad.json", File (Some (Arr []))) :: entries demo_saved)).
  split; [vm_compute; eauto|]. split; [eexists; vm_compute; reflexivity|vm_compute; reflexivity].
Qed.
