(* ===== verification/SkillRun.v ===== *)
(** * Skills: replaying a taught trajectory

    Models [SkillLoop] and [SkillNode] of [skills.py] over the brain of [Brain]: the loop
    really posts through the brain's setpoint writers and reads the arms' measured joints
    through its readers.  Between two iterations the other processes write telemetry; an
    iteration's observation carries that effect on the world ([so_env]), the stop flag, the
    clock of the loop and the timestamp of its writes.  The list of posts is kept beside the
    brain as a ghost. *)

From Stdlib Require Import String.
From S2P Require Import Prelude Float64 Ring Streams Channel Layout Process Source Arm Session Collect Brain Text Json SkillFile.
Local Open Scope string_scope.
Local Open Scope Z_scope.

Definition MIN_POST_HZ : f64 := f_of_Z 20.

Definition horizon_stream (side : string) : string := "eval/" +:+ side +:+ "/q_horizon".

(** ** The loop *)

Record skill_obs := SkillObs {
  so_stop : bool;
  so_now : f64;
  so_t_ns : Z;
  so_env : world -> world;
}.

Record sloop := SLoop {
  sl_brain : brain;
  sl_log : list (string * list f64);
  sl_frames_posted : Z;
}.

Definition SL := ST sloop.

(** A routine of the brain inside the loop. *)
Definition with_brain {A} (m : B A) : SL A := fun s =>
  match m (sl_brain s) with (b, o) => (SLoop b (sl_log s) (sl_frames_posted s), o) end.

Definition observe_env (o : skill_obs) : SL unit :=
  st_modify (fun s => SLoop (set_world (sl_brain s) (so_env o (b_world (sl_brain s)))) (sl_log s) (sl_frames_posted s)).

(** [traj[i]] of a matrix: a negative index counts from the end. *)
Definition np_row (a : nd) (i : Z) : res (list f64) :=
  match shape a with
  | [n; w] =>
      let j := if i <? 0 then i + Z.of_nat n else i in
      if (0 <=? j) && (j <? Z.of_nat n) then Ok (row_of w (data a) (Z.to_nat j)) else Raise IndexError
  | _ => Raise IndexError
  end.

Section loop.
Context (cast : dtype -> f64 -> f64).
Context (skill : Skill) (control_arms : list (string * ControlCfg)).
Context (fps start_tolerance start_timeout_s settle_s : f64).

(** One side of [_post]. *)
Definition post_side (t : Z) (index : Z) (x : string * ControlCfg) : SL unit :=
  let '(side, ctrl) := x in
  traj ← st_lift (of_option KeyError (dget side (sk_q skill)));
  n ← st_lift (rows_of traj);
  q_d ← st_lift (np_row traj (Z.min index (Z.of_nat n - 1)));
  v ← st_lift (Channel.pack_action ctrl q_d []);
  with_brain (brain_command cast side v t);;
  st_modify (fun s => SLoop (sl_brain s) (sl_log s ++ [(side, v)])%list (sl_frames_posted s)).

Fixpoint post_sides (t : Z) (index : Z) (l : list (string * ControlCfg)) : SL unit :=
  match l with
  | [] => mret tt
  | x :: l => post_side t index x;; post_sides t index l
  end.

(** [_post]. *)
Definition skill_post (t : Z) (index : Z) : SL unit := post_sides t index control_arms.

(** One side of [_far_sides]. *)
Definition far_side (b : brain) (index : Z) (side : string) : res bool :=
  let? traj := of_option KeyError (dget side (sk_q skill)) in
  let? target := np_row traj index in
  let? s := brain_latest b (stream_name side "q") in
  match newest s with
  | None => Ok true
  | Some m =>
      let? d := abs_diff (take (length target) m) target in
      let? worst := of_option ValueError (np_max d) in
      Ok (flt start_tolerance worst)
  end.

(** [_far_sides]. *)
Fixpoint far_sides (b : brain) (index : Z) (l : list (string * ControlCfg)) : res (list string) :=
  match l with
  | [] => Ok []
  | (side, _) :: l =>
      let? f := far_side b index side in
      let? r := far_sides b index l in
      Ok (if f then side :: r else r)
  end.

(** The first loop of [run]: [None] when stopped, else the observations left. *)
Fixpoint converge (deadline : f64) (tape : list skill_obs) : SL (option (list skill_obs)) :=
  match tape with
  | [] => st_running
  | o :: tape =>
      if so_stop o then mret None
      else
        observe_env o;;
        skill_post (so_t_ns o) 0;;
        s ← st_get;
        far ← st_lift (far_sides (sl_brain s) 0 control_arms);
        if bool_decide (far = []) then mret (Some tape)
        else if flt deadline (so_now o) then st_raise RuntimeError
        else converge deadline tape
  end.

(** [int(x)]. *)
Definition py_trunc (x : f64) : res Z := of_option (if is_nan x then ValueError else OverflowError) (f_trunc x).

(** The frame of the wall clock. *)
Definition frame_index (n : nat) (t0 now : f64) : res Z :=
  let? i := py_trunc (fmul (fsub now t0) fps) in Ok (Z.min i (Z.of_nat n - 1)).

Definition end_t (n : nat) : f64 := fadd (fdiv (f_of_Z (Z.of_nat n - 1)) fps) settle_s.

(** The second loop of [run]. *)
Fixpoint replay (n : nat) (t0 : f64) (last_index : Z) (tape : list skill_obs) : SL bool :=
  match tape with
  | [] => st_running
  | o :: tape =>
      if so_stop o then mret false
      else
        observe_env o;;
        index ← st_lift (frame_index n t0 (so_now o));
        skill_post (so_t_ns o) index;;
        st_modify (fun s => SLoop (sl_brain s) (sl_log s) (sl_frames_posted s + (index - last_index)));;
        if fle (end_t n) (fsub (so_now o) t0) then mret true
        else replay n t0 index tape
  end.

(** [SkillLoop.run]; [start] is the clock when it begins. *)
Definition skill_run (start : f64) (tape : list skill_obs) : SL bool :=
  n ← st_lift (sk_frames skill);
  rest ← converge (fadd start start_timeout_s) tape;
  match rest with
  | None => mret false
  | Some [] => st_running
  | Some (o :: tape) =>
      if so_stop o then mret false else replay n (so_now o) (-1) tape
  end.
End loop.

(** [SkillLoop.__init__]: the arms it drives and its rate. *)
Definition skill_loop (skill : Skill) (arms : list (string * ControlCfg)) (frequency_hz : option f64) :
    res (list (string * ControlCfg) * f64) :=
  let driven := List.filter (fun x => dmem x.1 (sk_q skill)) arms in
  if bool_decide (driven = []) then Raise ValueError
  else
    let fps := match frequency_hz with
               | Some f => if feq f f0 then sk_fps skill else f
               | None => sk_fps skill
               end in
    if fle fps f0 then Raise ValueError else Ok (driven, fps).

(** ** Lemmas *)

(** What a post may be: a row of the side's trajectory, packed for its control; [P n i]
    constrains the row [i] of the [n]. *)
Definition is_row (skill : Skill) (arms : list (string * ControlCfg)) (P : nat -> nat -> Prop)
    (x : string * list f64) : Prop :=
  exists ctrl a n w i, (x.1, ctrl) ∈ arms /\ dget x.1 (sk_q skill) = Some a /\ shape a = [n; w] /\
    (i < n)%nat /\ P n i /\ Channel.pack_action ctrl (row_of w (data a) i) [] = Ok x.2.

(** The row an index selects. *)
Definition at_index (index : Z) (n i : nat) : Prop :=
  0 <= index -> i = Nat.min (Z.to_nat index) (n - 1).

Lemma np_row_ok a k r n w : shape a = [n; w] -> np_row a (Z.min k (Z.of_nat n - 1)) = Ok r ->
  exists j, (j < n)%nat /\ r = row_of w (data a) j /\ at_index k n j.
Proof.
  intros Hs. unfold np_row. rewrite Hs. cbv zeta. set (i := Z.min k (Z.of_nat n - 1)).
  set (j := if i <? 0 then i + Z.of_nat n else i).
  destruct (Z.leb_spec 0 j); simpl; [|done]. destruct (Z.ltb_spec j (Z.of_nat n)); [|done].
  intros [= <-]. exists (Z.to_nat j). split_and!; [lia|done|]. unfold at_index. intros Hk. subst j.
  destruct (Z.ltb_spec i 0); lia.
Qed.

Definition grown (l0 : list (string * list f64)) (Q : string * list f64 -> Prop) (s : sloop) : Prop :=
  exists new, sl_log s = (l0 ++ new)%list /\ Forall Q new.

Lemma grown_refl s Q : grown (sl_log s) Q s.
Proof. exists []. by rewrite app_nil_r. Qed.

Lemma grown_trans l0 Q s s' : grown l0 Q s -> grown (sl_log s) Q s' -> grown l0 Q s'.
Proof.
  intros (n1 & E1 & F1) (n2 & E2 & F2). exists (n1 ++ n2)%list. rewrite E2, E1, app_assoc.
  split; [done|]. by apply Forall_app.
Qed.

Lemma grown_mono l0 (Q Q' : _ -> Prop) s : (forall x, Q x -> Q' x) -> grown l0 Q s -> grown l0 Q' s.
Proof. intros HQ (n & E & F). exists n. split; [done|]. by eapply Forall_impl. Qed.

Lemma with_brain_log {A} l0 Q (m : B A) : keeps (grown l0 Q) (with_brain m).
Proof. intros s Hs. unfold with_brain. by destruct (m (sl_brain s)). Qed.

Lemma observe_log l0 Q o : keeps (grown l0 Q) (observe_env o).
Proof. by apply keeps_modify. Qed.

(** A side measured at the start of its trajectory: there is a sample of its joints, and every
    joint of it is within the tolerance of the first taught row, or some joint's difference is
    NaN. *)
Definition measured_at_start (skill : Skill) (tol : f64) (b : brain) (side : string) : Prop :=
  exists traj target q m, dget side (sk_q skill) = Some traj /\ np_row traj 0 = Ok target /\
    brain_latest b (stream_name side "q") = Ok q /\ newest q = Some m /\
    (length target <= length m ->
     (forall j x y, m !! j = Some x -> target !! j = Some y -> fle (fabs (fsub x y)) tol = true) \/
     (exists j x y, m !! j = Some x /\ target !! j = Some y /\ is_nan (fsub x y) = true))%nat.

Lemma abs_diff_lookup a b d j x y :
  length a = length b -> abs_diff a b = Ok d -> a !! j = Some x -> b !! j = Some y -> d !! j = Some (fabs (fsub x y)).
Proof.
  intros Hl. unfold abs_diff, np_add. rewrite length_fmap, Hl, Nat.eqb_refl. simpl. intros [= <-] Hx Hy.
  rewrite list_lookup_fmap, lookup_zip_with, list_lookup_fmap, Hx, Hy. simpl. by rewrite fsub_fadd.
Qed.

Lemma fabs_nan x : is_nan (fabs x) = is_nan x.
Proof. by destruct x. Qed.

(** What the code's own test says when it lets a side through. *)
Lemma far_side_at_start skill tol b side :
  is_nan tol = false -> far_side skill tol b 0 side = Ok false -> measured_at_start skill tol b side.
Proof.
  intros Htol. unfold far_side. destruct (dget side (sk_q skill)) as [traj|] eqn:Et; simpl; [|done].
  destruct (np_row traj 0) as [target|] eqn:Er; simpl; [|done].
  destruct (brain_latest b _) as [q|] eqn:Eq; simpl; [|done]. destruct (newest q) as [m|] eqn:Em; [|done].
  destruct (abs_diff (take (length target) m) target) as [d|] eqn:Ed; simpl; [|done].
  destruct (np_max d) as [worst|] eqn:Ew; simpl; [|done]. destruct (flt tol worst) eqn:El; [done|]. intros _.
  exists traj, target, q, m. split_and!; try done. intros Hlen.
  assert (Htk : length (take (length target) m) = length target) by (rewrite length_take; lia).
  assert (Hj : forall j x y, m !! j = Some x -> target !! j = Some y -> d !! j = Some (fabs (fsub x y))).
  { intros j x y Hx Hy. eapply abs_diff_lookup; [exact Htk|exact Ed| |done].
    rewrite lookup_take_lt; [done|]. by eapply lookup_lt_Some. }
  destruct (is_nan worst) eqn:En; [right|left].
  - apply np_max_nan in Ew; [|done]. apply Exists_exists in Ew as (e & [j He]%list_elem_of_lookup & Hn).
    assert (j < length target)%nat as Hlt.
    { apply lookup_lt_Some in He. unfold abs_diff, np_add in Ed.
      rewrite length_fmap, Htk, Nat.eqb_refl in Ed. simpl in Ed. injection Ed as <-.
      rewrite length_fmap, length_zip_with, Htk, length_fmap in He. lia. }
    destruct (lookup_lt_is_Some_2 target j Hlt) as [y Hy].
    destruct (lookup_lt_is_Some_2 m j ltac:(lia)) as [x Hx]. exists j, x, y. split_and!; [done|done|].
    rewrite (Hj _ _ _ Hx Hy) in He. injection He as <-. by rewrite fabs_nan in Hn.
  - intros j x y Hx Hy. pose proof (np_max_bound _ _ Ew En) as Hb. rewrite Forall_forall in Hb.
    eapply fle_trans; [apply Hb; eapply list_elem_of_lookup_2, Hj; done|]. by apply not_flt_fle.
Qed.

Section lemmas.
Context (cast : dtype -> f64 -> f64) (skill : Skill) (arms : list (string * ControlCfg)).
Context (fps tol timeout settle : f64).
Abbreviation post := (skill_post cast skill arms).
Abbreviation rows := (is_row skill arms).

Lemma post_side_log l0 t k x : x ∈ arms -> keeps (grown l0 (rows (at_index k))) (post_side cast skill t k x).
Proof.
  intros Hx. destruct x as [side ctrl]. unfold post_side.
  apply keeps_lift_bind. intros a Ha. apply keeps_lift_bind. intros n Hn.
  apply keeps_lift_bind. intros r Hr. apply keeps_lift_bind. intros v Hv.
  apply keeps_bind; [apply with_brain_log|]. intros _. apply keeps_modify. intros s (new & E & F).
  exists (new ++ [(side, v)])%list. simpl. rewrite E, app_assoc. split; [done|].
  apply Forall_app. split; [done|]. apply Forall_singleton.
  destruct (dget side (sk_q skill)) as [a'|] eqn:Ed; [|done]. injection Ha as ->.
  unfold rows_of in Hn. unfold np_row in Hr. destruct (shape a) as [|n0 [|w [|]]] eqn:Es; try done.
  injection Hn as ->. assert (np_row a (Z.min k (Z.of_nat n - 1)) = Ok r) as Hr' by (unfold np_row; by rewrite Es).
  destruct (np_row_ok _ _ _ _ _ Es Hr') as (j & Hj & -> & Hat). by exists ctrl, a, n, w, j.
Qed.

Lemma post_log_grown l0 t k : keeps (grown l0 (rows (at_index k))) (post t k).
Proof.
  unfold skill_post. assert (forall l, l ⊆ arms -> keeps (grown l0 (rows (at_index k))) (post_sides cast skill t k l)) as H.
  { induction l as [|x l IH]; intros Hl; [apply keeps_ret|]. cbn [post_sides].
    apply keeps_bind; [apply post_side_log; set_solver|]. intros _. apply IH. set_solver. }
  by apply H.
Qed.

(** A completed [_post] posted one setpoint per driven arm, in order. *)
Lemma post_complete t k s s' : post t k s = (s', Returned tt) ->
  exists new, sl_log s' = (sl_log s ++ new)%list /\ new.*1 = arms.*1 /\ Forall (rows (at_index k)) new.
Proof.
  unfold skill_post. intros H.
  assert (forall l s s', l ⊆ arms -> post_sides cast skill t k l s = (s', Returned tt) ->
    exists new, sl_log s' = (sl_log s ++ new)%list /\ new.*1 = l.*1) as Hall.
  { clear. induction l as [|[side ctrl] l IH]; intros s s' Hl; cbn [post_sides].
    - intros [= <-]. exists []. split; [by rewrite app_nil_r|done].
    - unfold mbind, st_bind. destruct (post_side cast skill t k (side, ctrl) s) as [s1 [[]| |]] eqn:E; try done.
      intros H. destruct (IH s1 s') as (new & Hn & Hk); [set_solver|exact H|].
      assert (exists v, sl_log s1 = (sl_log s ++ [(side, v)])%list) as [v Hv].
      { clear -E. unfold post_side, mbind, st_bind, st_lift in E.
        destruct (dget side (sk_q skill)); simpl in E; [|done]. destruct (rows_of _); [|done].
        destruct (np_row _ _); [|done]. destruct (Channel.pack_action _ _ _) as [v|]; [|done].
        unfold with_brain in E. destruct (brain_command _ _ _ _ _) as [b [| |]]; try done.
        injection E as <-. by exists v. }
      exists ((side, v) :: new). rewrite Hn, Hv, <-app_assoc. split; [done|]. by rewrite !fmap_cons, Hk. }
  destruct (Hall arms s s') as (new & Hn & Hk); [done|done|]. exists new. split_and!; [done|done|].
  destruct (post_log_grown (sl_log s) t k s (grown_refl _ _)) as (new' & Hn' & HF). unfold skill_post in Hn'. rewrite H in Hn'. simpl in Hn'.
  rewrite Hn in Hn'. apply app_inv_head in Hn' as ->. done.
Qed.

Lemma post_frames t k : forall s, sl_frames_posted (post t k s).1 = sl_frames_posted s.
Proof.
  assert (forall F, keeps (fun s => sl_frames_posted s = F) (post t k)) as H; [|intros s; by apply H].
  intros F. unfold skill_post. induction arms as [|[side ctrl] l IH]; [apply keeps_ret|]. cbn [post_sides].
  apply keeps_bind; [|intros _; apply IH]. unfold post_side.
  repeat (apply keeps_lift_bind; intros ? _).
  apply keeps_bind; [|intros _; by apply keeps_modify]. intros s Hs. unfold with_brain. by destruct (brain_command _ _ _ _ _).
Qed.

(** ** The first stage *)

Definition row0 (n i : nat) : Prop := i = 0%nat.

Lemma at_index_0 x : rows (at_index 0) x -> rows row0 x.
Proof.
  intros (c & a & n & w & i & H1 & H2 & H3 & H4 & H5 & H6). exists c, a, n, w, i. split_and!; try done.
  unfold row0. rewrite H5 by lia. simpl. lia.
Qed.

(** The condition that opens the second stage: every driven arm was measured at the start. *)
Definition at_start (s : sloop) : Prop :=
  far_sides skill tol (sl_brain s) 0 arms = Ok [].

Lemma far_sides_nil b k l : far_sides skill tol b k l = Ok [] <->
  Forall (fun x => far_side skill tol b k x.1 = Ok false) l.
Proof.
  induction l as [|[side c] l IH]; simpl; [by split|]. rewrite Forall_cons, <-IH. simpl.
  destruct (far_side skill tol b k side) as [[]|]; simpl; destruct (far_sides skill tol b k l) as [r|]; simpl;
    split; try done; try (by intros [= ]); try (by intros [? ?]); try (by intros [? [= ->]]); try (by intros [= ->]).
Qed.

Lemma converge_grown dl tape : forall s, grown (sl_log s) (rows row0) (converge cast skill arms tol dl tape s).1.
Proof.
  intros s0. assert (keeps (grown (sl_log s0) (rows row0)) (converge cast skill arms tol dl tape)) as H;
    [|by apply H, grown_refl].
  induction tape as [|o tape IH]; [apply keeps_running|]. simpl. destruct (so_stop o); [apply keeps_ret|].
  apply keeps_bind; [apply observe_log|]. intros _. apply keeps_bind.
  - intros s Hs. eapply grown_trans; [exact Hs|]. eapply grown_mono; [apply at_index_0|].
    apply post_log_grown, grown_refl.
  - intros _. apply keeps_bind; [apply keeps_get|]. intros s1. apply keeps_lift_bind. intros far _.
    case_bool_decide; [apply keeps_ret|]. destruct (flt dl _); [apply keeps_raise|done].
Qed.

Lemma converge_opens dl tape : forall s s' rest,
  converge cast skill arms tol dl tape s = (s', Returned (Some rest)) ->
  at_start s' /\ sl_frames_posted s' = sl_frames_posted s /\
  exists pre o, tape = (pre ++ o :: rest)%list /\ Forall (fun o => so_stop o = false) (pre ++ [o])%list.
Proof.
  induction tape as [|o tape IH]; intros s s' rest; simpl; [done|]. destruct (so_stop o) eqn:Eo; [done|].
  unfold mbind, st_bind, observe_env, st_modify.
  match goal with |- context [post ?t ?k ?x] => pose proof (post_frames t k x) as Hf;
    destruct (post t k x) as [s1 [[]| |]] eqn:Ep; try done end. simpl in Hf.
  unfold st_get, st_lift. destruct (far_sides _ _ _ _ _) as [far|] eqn:Ef; [|done].
  case_bool_decide as Hfar.
  - intros [= <- <-]. subst far. split_and!; [done|done|]. exists [], o. split; [done|]. by apply Forall_singleton.
  - destruct (flt dl _); [done|]. intros H. destruct (IH _ _ _ H) as (H1 & H2 & pre & o' & -> & H3).
    split_and!; [done|congruence|]. exists (o :: pre), o'. split; [done|]. by constructor.
Qed.

Lemma post_settles t k s : (post t k s).2 ≠ Running.
Proof.
  unfold skill_post. revert s. induction arms as [|[side c] l IHl]; intros s; [done|]. cbn [post_sides].
  unfold mbind, st_bind. destruct (post_side _ _ _ _ _ s) as [s1 [[]|e|]] eqn:E; [apply IHl|done|].
  exfalso. revert E. unfold post_side, mbind, st_bind, st_lift.
  destruct (of_option _ _); [|done]. destruct (rows_of _); [|done]. destruct (np_row _ _); [|done].
  destruct (Channel.pack_action _ _ _); [|done].
  unfold with_brain, brain_command, brain_write, mbind, st_bind, st_get, st_lift.
  destruct (of_option _ _); [|done]. by destruct (writer_write _ _ _ _ _) as [[]|].
Qed.

Lemma converge_ends dl tape s : Exists (fun o => so_stop o = true) tape ->
  (converge cast skill arms tol dl tape s).2 ≠ Running.
Proof.
  intros Hx. revert s. induction Hx as [o tape Ho|o tape Hx IH]; intros s; simpl; [by rewrite Ho|].
  destruct (so_stop o); [done|]. unfold mbind, st_bind, observe_env, st_modify.
  match goal with |- context [post ?t ?k ?x] => pose proof (post_settles t k x) as Hnr end.
  destruct (post _ _ _) as [s1 [[]|e|]]; [|done|done]. unfold st_get, st_lift.
  destruct (far_sides _ _ _ _ _) as [far|]; [|done]. case_bool_decide; [done|]. destruct (flt dl _); [done|apply IH].
Qed.

(** ** The second stage *)

Definition any_row (n i : nat) : Prop := True.

Lemma rows_any P x : rows P x -> rows any_row x.
Proof.
  intros (c & a & n & w & i & H1 & H2 & H3 & H4 & _ & H6). exists c, a, n, w, i. by split_and!.
Qed.

Abbreviation play := (replay cast skill arms fps settle).

Lemma replay_grown n t0 tape : forall last s, grown (sl_log s) (rows any_row) (play n t0 last tape s).1.
Proof.
  intros last s0. assert (keeps (grown (sl_log s0) (rows any_row)) (play n t0 last tape)) as H;
    [|by apply H, grown_refl].
  revert last. induction tape as [|o tape IH]; intros last; [apply keeps_running|]. cbn [replay].
  destruct (so_stop o); [apply keeps_ret|]. apply keeps_bind; [apply observe_log|]. intros _.
  apply keeps_lift_bind. intros k _. apply keeps_bind.
  - intros s Hs. eapply grown_trans; [exact Hs|]. eapply grown_mono; [apply rows_any|]. apply post_log_grown, grown_refl.
  - intros _. apply keeps_bind; [by apply keeps_modify|]. intros _. destruct (fle _ _); [apply keeps_ret|apply IH].
Qed.

Lemma replay_completes n t0 tape : forall last s s', play n t0 last tape s = (s', Returned true) ->
  exists o k prefix new, o ∈ tape /\ so_stop o = false /\ frame_index fps n t0 (so_now o) = Ok k /\
    fle (end_t fps settle n) (fsub (so_now o) t0) = true /\
    sl_log s' = (prefix ++ new)%list /\ new.*1 = arms.*1 /\ Forall (rows (at_index k)) new /\
    sl_frames_posted s' = sl_frames_posted s + (k - last).
Proof.
  induction tape as [|o tape IH]; intros last s s'; [done|]. cbn [replay]. destruct (so_stop o) eqn:Eo; [done|].
  unfold mbind at 1, st_bind at 1, observe_env, st_modify. unfold mbind at 1, st_bind at 1, st_lift.
  destruct (frame_index fps n t0 (so_now o)) as [k|] eqn:Ek; [|done]. unfold mbind at 1, st_bind at 1.
  match goal with |- context [post ?t ?k ?x] => pose proof (post_frames t k x) as Hf;
    destruct (post t k x) as [s1 [[]| |]] eqn:Ep; try done end. simpl in Hf.
  unfold mbind, st_bind. destruct (fle _ _) eqn:Ee.
  - intros [= <-]. destruct (post_complete _ _ _ _ Ep) as (new & Hn & Hk & HF).
    eexists o, k, _, new. split_and!; try done; [left|]. simpl. lia.
  - intros H. destruct (IH _ _ _ H) as (o' & k' & pre & new & H1 & H2 & H3 & H4 & H5 & H6 & H7 & H8).
    exists o', k', pre, new. split_and!; try done; [by right|]. simpl in H8. lia.
Qed.

Lemma replay_ends n t0 tape : Exists (fun o => so_stop o = true) tape ->
  forall last s, (play n t0 last tape s).2 ≠ Running.
Proof.
  induction 1 as [o tape Ho|o tape Hx IH]; intros last s; cbn [replay]; [by rewrite Ho|].
  destruct (so_stop o); [done|]. unfold mbind at 1, st_bind at 1, observe_env, st_modify.
  unfold mbind at 1, st_bind at 1, st_lift. destruct (frame_index _ _ _ _) as [k|]; [|done].
  unfold mbind at 1, st_bind at 1.
  match goal with |- context [post ?t ?k ?x] => pose proof (post_settles t k x) as Hnr;
    destruct (post t k x) as [s1 [[]| |]] eqn:Ep; try done end.
  unfold mbind, st_bind. destruct (fle _ _); [done|apply IH].
Qed.
End lemmas.

(** ** Properties *)

(** C12: A skill run is gated on the start pose.  Whatever the arms report and whenever it is
    stopped, all a run ever posts are rows of the taught trajectory packed for the driven arm
    concerned; it splits into an approach that posts only first rows and a replay, and the
    replay is empty unless the approach ended with a measurement of every driven arm, every
    joint of it within the tolerance of the taught first row, or some joint's difference NaN.
    A side without a sample is never let through. *)
Theorem skill_posts_gated (cast : dtype -> f64 -> f64) (skill : Skill) (arms : list (string * ControlCfg))
    (fps tol timeout settle start : f64) (tape : list skill_obs) (s : sloop) (Htol : is_nan tol = false) :
  let r := skill_run cast skill arms fps tol timeout settle start tape s in
  exists approach played, sl_log r.1 = (sl_log s ++ approach ++ played)%list /\
    Forall (is_row skill arms row0) approach /\ Forall (is_row skill arms any_row) played /\
    (played ≠ [] -> exists s1 rest, converge cast skill arms tol (fadd start timeout) tape s = (s1, Returned (Some rest)) /\
       sl_log s1 = (sl_log s ++ approach)%list /\
       Forall (fun x => measured_at_start skill tol (sl_brain s1) x.1) arms).
Proof.
  unfold skill_run, mbind, st_bind, st_lift. destruct (sk_frames skill) as [n|].
  2:{ exists [], []. rewrite app_nil_r. by split_and!. }
  destruct (converge_grown cast skill arms tol (fadd start timeout) tape s) as (ap & Hap & HF).
  destruct (converge cast skill arms tol (fadd start timeout) tape s) as [s1 [[rest|]| |]] eqn:Ec; simpl in Hap;
    try (exists ap, []; rewrite app_nil_r; by split_and!).
  destruct rest as [|o rest]; [exists ap, []; rewrite app_nil_r; by split_and!|].
  destruct (so_stop o); [exists ap, []; rewrite app_nil_r; by split_and!|].
  destruct (replay_grown cast skill arms fps settle n (so_now o) rest (-1) s1) as (pl & Hpl & HG).
  exists ap, pl. rewrite Hpl, Hap, app_assoc. split_and!; try done. intros _. exists s1, (o :: rest).
  split_and!; try done. apply converge_opens in Ec as [Hopen _]. apply far_sides_nil in Hopen.
  eapply Forall_impl; [exact Hopen|]. intros x. by apply far_side_at_start.
Qed.

(** A skill run ends, and ends at its last frame.  Raising the stop flag at any
    observation ends the run; a run that reports completion held out until its end time, has
    posted a setpoint to every driven arm for the frame of that moment, and its counter is
    that frame's number. *)
Theorem skill_run_ends (cast : dtype -> f64 -> f64) (skill : Skill) (arms : list (string * ControlCfg))
    (fps tol timeout settle start : f64) (tape : list skill_obs) (s : sloop) :
  let r := skill_run cast skill arms fps tol timeout settle start tape s in
  (Exists (fun o => so_stop o = true) tape -> r.2 ≠ Running) /\
  (r.2 = Returned true -> exists n o0 o k prefix new, sk_frames skill = Ok n /\ o0 ∈ tape /\ o ∈ tape /\
     frame_index fps n (so_now o0) (so_now o) = Ok k /\
     fle (end_t fps settle n) (fsub (so_now o) (so_now o0)) = true /\
     sl_log r.1 = (prefix ++ new)%list /\ new.*1 = arms.*1 /\ Forall (is_row skill arms (at_index k)) new /\
     sl_frames_posted r.1 = sl_frames_posted s + (k + 1)).
Proof.
  unfold skill_run, mbind, st_bind, st_lift. destruct (sk_frames skill) as [n|]; [|done].
  pose proof (converge_ends cast skill arms tol (fadd start timeout) tape s) as Hend.
  destruct (converge cast skill arms tol (fadd start timeout) tape s) as [s1 [[rest|]| |]] eqn:Ec; simpl in Hend;
    try (split; [done|done]); [|by split; [intros Hx; exact (False_ind _ (Hend Hx eq_refl))|]].
  destruct (converge_opens _ _ _ _ _ _ _ _ _ Ec) as (_ & Hf & pre & o1 & Ht & Hns).
  assert (Exists (fun o => so_stop o = true) tape -> Exists (fun o => so_stop o = true) rest) as Hrest.
  { intros Hx. rewrite Ht in Hx. change (o1 :: rest) with ([o1] ++ rest)%list in Hx.
    rewrite app_assoc in Hx. apply Exists_app in Hx as [Hx|Hx]; [|done].
    apply Exists_exists in Hx as (o & Ho & Hs). rewrite Forall_forall in Hns. specialize (Hns _ Ho). congruence. }
  destruct rest as [|o rest]; [split; [intros Hx%Hrest; by apply Exists_nil in Hx|done]|].
  destruct (so_stop o) eqn:Eo; [done|]. split.
  - intros Hx%Hrest. apply Exists_cons in Hx as [?|Hx]; [congruence|]. by apply replay_ends.
  - intros Hr. destruct (replay cast skill arms fps settle n (so_now o) (-1) rest s1) as [s2 o2] eqn:Er. simpl in Hr. subst o2.
    destruct (replay_completes _ _ _ _ _ _ _ _ _ _ _ Er) as (o' & k & pf & new & H1 & H2 & H3 & H4 & H5 & H6 & H7 & H8).
    exists n, o, o', k, pf, new. simpl. split_and!; try done; [rewrite Ht; set_solver..|]. lia.
Qed.

(** ** Witnesses *)

Definition demo_side : list (string * ControlCfg) := [("left", demo_qpos)].

(** A brain whose left arm is measured at the skill's first row. *)
Definition demo_measured (q : list f64) : brain :=
  let created := writer_create true empty_world (MkSpec "left/q" 2 4 "float64" (Some f1)) "run1"
                   (Registry "run1" "streams") 7 in
  match created.2 with
  | Ok wr =>
      match writer_write (fun _ x => x) created.1 wr q 5 with
      | Ok r =>
          let b := (open_control (fun _ => true) 42 (Registry "run1" "control")
            (match channel_specs [("left", (demo_qpos, false))] with Ok l => l | Raise _ => [] end) (new_brain r.1)).1 in
          MkBrain (b_world b)
            [("left/q", Reader (w_seg wr) (entry_of (MkSpec "left/q" 2 4 "float64" (Some f1)) (w_shm_name wr) 7))]
            (b_setpoint_writers b) (b_command_writers b) (b_gripper_writers b)
      | Raise _ => new_brain empty_world
      end
  | Raise _ => new_brain empty_world
  end.

Definition demo_obs (stop : bool) (now : Z) : skill_obs := SkillObs stop (f_of_Z now) now id.
Definition demo_replay (q : list f64) : sloop * outcome bool :=
  skill_run (fun _ x => x) demo_skill demo_side (f_of_Z 30) (fdec 1 10) (f_of_Z 60) f0 f0
    [demo_obs false 0; demo_obs false 0; demo_obs false 1; demo_obs true 2] (SLoop (demo_measured q) [] 0).

(** At the start pose the trajectory is played to its last row; away from it only the first
    row is ever posted, until the stop. *)
Lemma skill_posts_gated_witness :
  (demo_replay [f0; f1]).2 = Returned true /\ (demo_replay [f1; f1]).2 = Returned false /\
  exists approach played, sl_log (demo_replay [f0; f1]).1 = (approach ++ played)%list /\
  Forall (is_row demo_skill demo_side row0) approach.
Proof.
  split; [vm_compute; reflexivity|]. split; [vm_compute; reflexivity|].
  destruct (skill_posts_gated (fun _ x => x) demo_skill demo_side (f_of_Z 30) (fdec 1 10) (f_of_Z 60) f0 f0
    [demo_obs false 0; demo_obs false 0; demo_obs false 1; demo_obs true 2] (SLoop (demo_measured [f0; f1]) [] 0))
    as (ap & pl & Hl & Ha & _); [reflexivity|].
  exists ap, pl. split; [exact Hl|exact Ha].
Defined.

(** A joint reported as NaN counts as at the start pose: the trajectory is played. *)
Lemma nan_measurement_starts : (demo_replay [SpecFloat.S754_nan; f0]).2 = Returned true.
Proof. vm_compute. reflexivity. Qed.

Lemma skill_run_ends_witness : (demo_replay [f0; f1]).2 = Returned true /\
  exists prefix new, sl_log (demo_replay [f0; f1]).1 = (prefix ++ new)%list /\ new.*1 = ["left"].
Proof.
  assert ((demo_replay [f0; f1]).2 = Returned true) as Hr by (vm_compute; reflexivity).
  split; [exact Hr|].
  destruct (skill_run_ends (fun _ x => x) demo_skill demo_side (f_of_Z 30) (fdec 1 10) (f_of_Z 60) f0 f0
    [demo_obs false 0; demo_obs false 0; demo_obs false 1; demo_obs true 2] (SLoop (demo_measured [f0; f1]) [] 0))
    as [_ H].
  destruct (H Hr) as (n & o0 & o & k & pf & new & _ & _ & _ & _ & _ & Hl & Hn & _).
  exists pf, new. split; [exact Hl|exact Hn].
Defined.
