(* ===== verification/Nodes.v ===== *)
(** * The consumer processes: how a run's node takes and hands back control

    Models the [run] methods of [SkillNode] ([skills.py]), [BrainNode] ([brain/brain.py]),
    [CollectionNode] ([collection/loop.py]) and [EvalNode] ([policy/loop.py]): attach the
    telemetry, open the control channels, create the visualisation streams, run the loop,
    and, however it ends, release the streams, STOP the arms and close the brain.  The loops
    themselves are those of [SkillRun], [Brain], [Collect] and [Eval]; the latter two keep a
    log of their posts, which is replayed on the brain here.  What the other processes do
    between ticks is an input of the skill and brain loops. *)

From Stdlib Require Import String.
From S2P Require Import Prelude Float64 Ring Streams Channel Layout Process Source Arm Session Collect Brain Policy Eval Text Json SkillFile SkillRun.
Local Open Scope string_scope.
Local Open Scope Z_scope.

(** ** The node's state *)

Record node_state := NodeSt { n_brain : brain; n_viz : list (string * StreamWriter) }.

Definition N := ST node_state.

Definition nb {A} (m : B A) : N A := fun st =>
  match m (n_brain st) with (b, o) => (NodeSt b (n_viz st), o) end.

(** What a node is built with: the arms with their control, whether the brain may drive them
    and whether they carry a gripper. *)
Record node_arm := NodeArm { na_control : ControlCfg; na_enabled : bool; na_gripper : bool; na_dof : nat }.

Record node_env := NodeEnv {
  ne_run : string;
  ne_arms : list (string * node_arm);
  ne_start : f64;
  ne_attach_timeout_s : f64;
  ne_polls : list poll;
  ne_t_end : Z;
}.

Section nodes.
Context (cast : dtype -> f64 -> f64) (io : string -> bool) (pid : Z) (e : node_env).

Definition g_streams : registry := Registry (ne_run e) "streams".
Definition g_control : registry := Registry (ne_run e) "control".

(** [brain.attach] with the abort by shutdown: [false] when the node just returns. *)
Definition attach_node (names : list string) : N bool := fun st =>
  match attach g_streams names (ne_start e) (ne_attach_timeout_s e) (ne_polls e) (n_brain st) with
  | (b, Returned _) => (NodeSt b (n_viz st), Returned true)
  | (b, Raised AttachAborted) => (NodeSt (brain_close b) (n_viz st), Returned false)
  | (b, Raised x) => (NodeSt b (n_viz st), Raised x)
  | (b, Running) => (NodeSt b (n_viz st), Running)
  end.

(** Create one visualisation stream; [put] files its writer. *)
Definition create_viz (put : list (string * StreamWriter) -> string * StreamWriter -> list (string * StreamWriter))
    (s : StreamSpec) : N StreamWriter := fun st =>
  match writer_create (io (sp_name s)) (b_world (n_brain st)) s (ne_run e) g_streams pid with
  | (w, Ok wr) => (NodeSt (set_world (n_brain st) w) (put (n_viz st) (sp_name s, wr)), Returned wr)
  | (w, Raise x) => (NodeSt (set_world (n_brain st) w) (n_viz st), Raised x)
  end.

Definition at_end (l : list (string * StreamWriter)) (x : string * StreamWriter) := (l ++ [x])%list.
Definition at_front (l : list (string * StreamWriter)) (x : string * StreamWriter) := x :: l.

Definition open_viz (put : list (string * StreamWriter) -> string * StreamWriter -> list (string * StreamWriter))
    (s : res StreamSpec) : N StreamWriter :=
  s ← st_lift s; create_viz put s.

(** [writer.write] on a visualisation stream. *)
Definition write_viz (wr : StreamWriter) (v : list f64) (t : Z) : N unit := nb (brain_write cast wr v t).

(** The [finally] clauses: unlink each visualisation stream and remove its manifest, ... *)
Definition release_viz (w : world) (x : string * StreamWriter) : world :=
  reg_remove (writer_unlink w x.2) g_streams x.1.

(** ... STOP the arms, close the brain. *)
Definition hand_back (st : node_state) : node_state :=
  let w := foldl release_viz (b_world (n_brain st)) (n_viz st) in
  NodeSt (brain_close (stop_arms cast (ne_t_end e) (set_world (n_brain st) w)).1) [].

(** The control-enabled arms with their channels' table. *)
Definition enabled_arms : list (string * (ControlCfg * bool)) :=
  omap (fun x => if na_enabled x.2 then Some (x.1, (na_control x.2, na_gripper x.2)) else None) (ne_arms e).

Definition without_gripper (l : list (string * (ControlCfg * bool))) : list (string * (ControlCfg * bool)) :=
  (fun x => (x.1, (x.2.1, false))) <$> l.

(** Open the control channels of [arms]. *)
Definition open_channels (arms : list (string * (ControlCfg * bool))) : N unit :=
  specs ← st_lift (channel_specs arms);
  nb (open_control io pid g_control specs).

(** ** [SkillNode] *)

Record skill_cfg := SkillC {
  kc_frequency_hz : option f64; kc_start_tolerance : f64; kc_start_timeout_s : f64; kc_settle_s : f64;
}.

(** [SkillNode.__init__]: the sides it drives. *)
Definition drive_sides (skill : Skill) : list (string * (ControlCfg * bool)) :=
  omap (fun side =>
    match dget side (ne_arms e) with
    | Some a => if na_enabled a && String.eqb (kind (na_control a)) "qpos"
                then Some (side, (na_control a, false)) else None
    | None => None
    end) (sk_sides skill).

(** The destination ghost of one side: its stream and the skill's last row. *)
Definition open_horizon (skill : Skill) (t : Z) (side : string) : N unit :=
  a ← st_lift (of_option KeyError (dget side (sk_q skill)));
  w ← st_lift (of_option IndexError (shape a !! 1%nat));
  wr ← open_viz at_end (stream_spec (MkSpec (horizon_stream side) (Z.of_nat w) 16 "float64" (Some f1)));
  row ← st_lift (np_row a (-1));
  write_viz wr row t.

Fixpoint open_horizons (skill : Skill) (t : Z) (sides : list string) : N unit :=
  match sides with
  | [] => mret tt
  | side :: sides => open_horizon skill t side;; open_horizons skill t sides
  end.

(** [SkillLoop(...)] and its [run], on the node's brain. *)
Definition run_skill_loop (skill : Skill) (cfg : skill_cfg) (arms : list (string * (ControlCfg * bool)))
    (start : f64) (tape : list skill_obs) : N unit := fun st =>
  match skill_loop skill ((fun x => (x.1, x.2.1)) <$> arms) (kc_frequency_hz cfg) with
  | Raise x => (st, Raised x)
  | Ok (driven, fps) =>
      match skill_run cast skill driven fps (kc_start_tolerance cfg) (kc_start_timeout_s cfg)
              (kc_settle_s cfg) start tape (SLoop (n_brain st) [] 0) with
      | (s, o) => (NodeSt (sl_brain s) (n_viz st),
                   match o with Returned _ => Returned tt | Raised x => Raised x | Running => Running end)
      end
  end.

(** A node's run: what it does before its [try], then the loop with its [finally]; the
    setup answers [false] when the node just returns. *)
Definition consumer (setup : N bool) (body : N unit) : N unit :=
  ok ← setup;
  if negb ok then mret tt else try_finally body hand_back.

Definition skill_setup (skill : Skill) (t0 : Z) : N bool :=
  let arms := drive_sides skill in
  if bool_decide (arms = []) then st_raise ValueError
  else
    ok ← attach_node ((fun x => stream_name x.1 "q") <$> arms);
    if negb ok then mret false
    else
      open_channels arms;;
      open_horizons skill t0 arms.*1;;
      mret true.

(** [SkillNode.run]. *)
Definition skill_node_run (skill : Skill) (cfg : skill_cfg) (start : f64) (t0 : Z) (tape : list skill_obs) : N unit :=
  consumer (skill_setup skill t0) (run_skill_loop skill cfg (drive_sides skill) start tape).

(** ** [BrainNode] *)

Record brain_tick := BrainTick {
  bt_stop : bool; bt_env : world -> world; bt_now_ns : Z; bt_t_ns : Z;
}.

(** The loop of [BrainNode.run]. *)
Fixpoint brain_loop (servers : list string) (max_age_ns : Z) (teleop : list (string * (ControlCfg * nat)))
    (ticks : list brain_tick) : N unit :=
  match ticks with
  | [] => st_running
  | k :: ticks =>
      if bt_stop k then mret tt
      else
        st_modify (fun st => NodeSt (set_world (n_brain st) (bt_env k (b_world (n_brain st)))) (n_viz st));;
        st ← st_get;
        _ ← st_lift (observe_all (n_brain st));
        nb (process cast servers max_age_ns (bt_now_ns k) (bt_t_ns k) teleop);;
        brain_loop servers max_age_ns teleop ticks
  end.

Definition close_node (st : node_state) : node_state := NodeSt (brain_close (n_brain st)) (n_viz st).

(** [BrainNode.run]; [names] are its streams with the leaders'. *)
Definition brain_node_run (names servers : list string) (max_age_ns : Z) (ticks : list brain_tick) : N unit :=
  let leaders := leader_stream_names servers in
  ok ← attach_node (names ++ List.filter (fun n => negb (bool_decide (n ∈ names))) leaders)%list;
  if negb ok then mret tt
  else
    open_channels enabled_arms;;
    let teleop := (fun x => (x.1, (na_control x.2, na_dof x.2))) <$>
                  List.filter (fun x => na_enabled x.2) (ne_arms e) in
    try_finally (brain_loop servers max_age_ns teleop ticks) close_node.

(** ** [CollectionNode] *)

(** The posts of the collection loop as operations of the brain; [stamp] is their clock. *)
Definition collect_op (t : Z) (x : posting) : list brain_op :=
  match x with
  | Setpoint side v => [OpCommand side v t]
  | GripperTarget side g => [OpGripper side g t]
  | _ => []
  end.

Definition collect_ops (stamp : nat -> Z) (l : list posting) : list brain_op :=
  concat (imap (fun i x => collect_op (stamp i) x) l).

Definition post_ops (ops : list brain_op) : N unit :=
  st_modify (fun st => NodeSt (run_ops cast ops (n_brain st)) (n_viz st)).

Definition finish_with {A} (o : outcome A) : N unit := fun st =>
  (st, match o with Returned _ => Returned tt | Raised x => Raised x | Running => Running end).

Definition collection_setup (builder : FrameBuilder) (servers : list string) (leaders : list leader_poll)
    (recorder : res unit) : N bool :=
  let names := stream_names builder in
  ok ← attach_node (names ++ List.filter (fun n => negb (bool_decide (n ∈ names))) (leader_stream_names servers))%list;
  if negb ok then mret false
  else
    match wait_leaders_fresh servers (ne_start e) (ne_attach_timeout_s e) leaders with
    | None => st_running
    | Some (Raise FactrError) => st_modify close_node;; st_raise FactrError
    | Some (Raise x) => st_raise x
    | Some (Ok _) =>
        open_channels enabled_arms;;
        st_lift recorder;;
        mret true
    end.

Definition collection_body (builder : FrameBuilder) (num_episodes : nat) (operator_paced : bool)
    (stamp : nat -> Z) (tape : list tick_obs) : N unit :=
  let r := collect_run builder ((fun x => (x.1, x.2.1)) <$> enabled_arms) num_episodes operator_paced tape
             collection_init in
  post_ops (collect_ops stamp (cl_log r.1));;
  finish_with r.2.

(** [CollectionNode.run]; [leaders] are the polls of the leader preflight, [recorder] the
    outcome of building the dataset recorder. *)
Definition collection_node_run (builder : FrameBuilder) (servers : list string) (num_episodes : nat)
    (operator_paced : bool) (leaders : list leader_poll) (recorder : res unit) (stamp : nat -> Z)
    (tape : list tick_obs) : N unit :=
  consumer (collection_setup builder servers leaders recorder)
    (collection_body builder num_episodes operator_paced stamp tape).

(** ** [EvalNode] *)

Definition eef_horizon_stream (side : string) : string := "eval/" +:+ side +:+ "/eef_horizon".
Definition comm_stream : string := "eval/policy_comm".

(** The prediction stream of one side, none for kinds that predict nothing. *)
Definition open_prediction (rate_hz : f64) (x : string * node_arm) : N unit :=
  match horizon_kind (na_control x.2) with
  | None => mret tt
  | Some HorizonQ =>
      _ ← open_viz at_end (stream_spec (MkSpec (horizon_stream x.1) (Z.of_nat (na_dof x.2)) 4096 "float64" (Some rate_hz)));
      mret tt
  | Some HorizonEef =>
      _ ← open_viz at_end (stream_spec (MkSpec (eef_horizon_stream x.1) 3 64 "float64" (Some rate_hz)));
      mret tt
  end.

Fixpoint open_predictions (rate_hz : f64) (l : list (string * node_arm)) : N unit :=
  match l with
  | [] => mret tt
  | x :: l => open_prediction rate_hz x;; open_predictions rate_hz l
  end.

Definition eval_op (t : Z) (x : eval_event) : list brain_op :=
  match x with Posted side v => [OpCommand side v t] | _ => [] end.

Definition eval_ops (stamp : nat -> Z) (l : list eval_event) : list brain_op :=
  concat (imap (fun i x => eval_op (stamp i) x) l).

(** The sides whose actions the policy emits: the driven ones, or all in a dry run. *)
Definition action_sides : list string :=
  match enabled_arms with [] => dkeys (ne_arms e) | l => dkeys l end.

(** The loop with the policy: connecting to it may fail. *)
Definition run_eval_loop (observer : FrameBuilder) (layout : DFCStateActionLayout) (policy : res unit)
    (num_timesteps replan_steps max_errors : Z) (stamp : nat -> Z) (tape : list eval_obs) : N unit :=
  st_lift policy;;
  r ← st_lift (eval_rollout observer layout ((fun x => (x.1, x.2.1)) <$> enabled_arms)
                 num_timesteps replan_steps max_errors tape);
  post_ops (eval_ops stamp (ev_log r.1));;
  finish_with r.2.

Definition eval_setup (names : list string) (layout : DFCStateActionLayout) (rate_hz : f64) : N bool :=
  ok ← attach_node names;
  if negb ok then mret false
  else
    open_channels (without_gripper enabled_arms);;
    open_predictions rate_hz
      (omap (fun side => a ← dget side (ne_arms e); Some (side, a)) (sides layout));;
    _ ← open_viz at_front (stream_spec (MkSpec comm_stream 3 512 "float64" (Some rate_hz)));
    mret true.

(** [EvalNode.run]; [names] are the streams it subscribes. *)
Definition eval_node_run (names : list string) (observer : FrameBuilder) (layout : DFCStateActionLayout)
    (policy : res unit) (rate_hz : f64) (num_timesteps replan_steps max_errors : Z) (stamp : nat -> Z)
    (tape : list eval_obs) : N unit :=
  consumer (eval_setup names layout rate_hz)
    (run_eval_loop observer layout policy num_timesteps replan_steps max_errors stamp tape).
End nodes.

(** ** Worlds that keep the control channels *)

Lemma open_stream_ext w w' g s wr r h :
  open_stream w g s wr r h -> reg_get w' g (sp_name s) = reg_get w g (sp_name s) ->
  names w' !! w_shm_name wr = names w !! w_shm_name wr -> mapped_ring w' (w_seg wr) = mapped_ring w (w_seg wr) ->
  open_stream w' g s wr r h.
Proof.
  intros [He Hn Hs Hp [Hm Hr] Hd Hc Ht] E1 E2 E3. split; try done; [by rewrite E1|by rewrite E2|].
  split; [|done]. by rewrite E3.
Qed.

Lemma wired_world g cs h b w' :
  wired g cs h b -> registry_wf w' ->
  (forall side l wr, dget side (writers l b) = Some wr ->
     names w' !! w_shm_name wr = names (b_world b) !! w_shm_name wr /\
     mapped_ring w' (w_seg wr) = mapped_ring (b_world b) (w_seg wr)) ->
  (forall n, reg_get w' g n = reg_get (b_world b) g n) -> wired g cs h (set_world b w').
Proof.
  intros [Hwf Hop Hon Hsg Hk] Hwf' Hsame Hreg.
  split; [done| | | |]; try (intros *; rewrite ?writers_world; eauto).
  intros Hin. destruct (Hop _ _ _ Hin) as (wr & r & Hd & Ho). exists wr, r. split; [done|].
  destruct (Hsame _ _ _ Hd). by eapply open_stream_ext.
Qed.

Lemma wired_empty g b : registry_wf (b_world b) -> (forall l, writers l b = []) -> wired g [] no_log b.
Proof.
  intros Hw Hb. split; [done| | | |].
  - by intros side l s []%not_elem_of_nil.
  - intros side l wr. by rewrite Hb.
  - intros side l wr side' l' wr'. by rewrite Hb.
  - intros l. rewrite Hb. apply NoDup_nil_2.
Qed.

Lemma reg_get_dir w w' g n : dir_of w' (r_run g) (r_sub g) = dir_of w (r_run g) (r_sub g) ->
  reg_get w' g n = reg_get w g n.
Proof. intros E. unfold reg_get, discover. by rewrite E. Qed.

(** What creating a stream leaves as it was. *)
Lemma create_frame io w s run g pid w' out :
  registry_wf w -> writer_create io w s run g pid = (w', out) ->
  registry_wf w' /\
  (forall run' sub', (run', sub') ≠ (r_run g, r_sub g) -> dir_of w' run' sub' = dir_of w run' sub') /\
  (forall seg m, heap w !! seg = Some m -> heap w' !! seg = Some m) /\
  (forall wr, out = Ok wr -> w_seg wr = length (heap w)).
Proof.
  intros Hwf. unfold writer_create. set (sn := shm_name_for _ _).
  destruct (shm_create w sn _ _ _) as [[w1 seg]|] eqn:Ec; [|intros [= <- <-]; by split_and!].
  assert (Hseg : seg = length (heap w) /\ exists m, heap w1 = (heap w ++ [m])%list).
  { unfold shm_create in Ec. destruct (dtype_of_name _); [|done]. destruct (names w !! sn); [done|].
    destruct (ring_create _ _ _ _); [|done]. simpl in Ec. injection Ec as <- <-. eauto. }
  destruct Hseg as [-> [m Hheap]]. apply shm_create_ok in Ec as (_ & _ & Hd1 & _).
  assert (Hwf1 : registry_wf w1) by (intros ru su d; unfold dir_of; rewrite Hd1; apply Hwf).
  assert (Hh : forall seg m0, heap w !! seg = Some m0 -> heap w1 !! seg = Some m0).
  { intros sg m0 Hm. rewrite Hheap, lookup_app_l; [done|]. by apply lookup_lt_Some in Hm. }
  destruct (publish io w1 g s sn pid) as [[w2 en]|] eqn:Ep; intros [= <- <-].
  - pose proof (publish_wf _ _ _ _ _ _ _ _ Hwf1 Ep) as Hwf2. apply publish_ok in Ep as (_ & _ & Hh2 & Hw2).
    split_and!; [done| |by rewrite Hh2|by intros wr [= <-]].
    intros ru su Hne. rewrite Hw2, dir_of_set, decide_False by done. unfold dir_of. by rewrite Hd1.
  - split_and!; [|intros; unfold dir_of; by rewrite <-Hd1|done|done].
    intros ru su d. unfold dir_of. simpl. rewrite Hd1. apply Hwf.
Qed.

Lemma elem_of_ddel {K V} `{EqDecision K} (k : K) (d : list (K * V)) x : x ∈ ddel k d -> x ∈ d.
Proof.
  induction d as [|[k' v] d IH]; simpl; [done|]. destruct (decide _); set_solver.
Qed.

Lemma reg_remove_frame w g n : registry_wf w -> registry_wf (reg_remove w g n) /\
  names (reg_remove w g n) = names w /\ heap (reg_remove w g n) = heap w /\
  (forall run' sub', (run', sub') ≠ (r_run g, r_sub g) -> dir_of (reg_remove w g n) run' sub' = dir_of w run' sub').
Proof.
  intros Hwf. unfold reg_remove. destruct (dir_of w (r_run g) (r_sub g)) as [d|] eqn:E; [|done].
  split_and!; try done.
  - apply registry_wf_set; [done|]. destruct (Hwf _ _ _ E) as [H1 H2]. split; [by apply ddel_NoDup|].
    intros stem c Hin. apply H2. by eapply elem_of_ddel.
  - intros ru su Hne. by rewrite dir_of_set, decide_False.
Qed.

(** ** The invariant between opening and handing back *)

Lemma at_end_elem l (x y : string * StreamWriter) : y ∈ at_end l x <-> y = x \/ y ∈ l.
Proof. unfold at_end. rewrite elem_of_app, list_elem_of_singleton. tauto. Qed.

Lemma at_front_elem l (x y : string * StreamWriter) : y ∈ at_front l x <-> y = x \/ y ∈ l.
Proof. apply elem_of_cons. Qed.

Section invariant.
Context (cast : dtype -> f64 -> f64) (io : string -> bool) (pid : Z) (e : node_env).
Context (w0 : world) (cs : list (chan * StreamSpec)).

Record node_inv (st : node_state) : Prop := {
  ni_wired : exists h, wired (g_control e) cs h (n_brain st);
  ni_names : forall n, names (b_world (n_brain st)) !! n = names w0 !! n \/
    (exists side l wr, dget side (writers l (n_brain st)) = Some wr /\ w_shm_name wr = n) \/
    (exists x, x ∈ n_viz st /\ w_shm_name x.2 = n);
  ni_fresh : forall side l wr, (side, wr) ∈ writers l (n_brain st) -> names w0 !! w_shm_name wr = None;
  ni_viz : forall x, x ∈ n_viz st -> names w0 !! w_shm_name x.2 = None;
  ni_apart : forall x side l wr, x ∈ n_viz st -> dget side (writers l (n_brain st)) = Some wr ->
    w_shm_name wr ≠ w_shm_name x.2 /\ w_seg wr ≠ w_seg x.2;
}.

(** The names and segments of the writers are live. *)
Lemma wired_live h b side l wr : wired (g_control e) cs h b -> dget side (writers l b) = Some wr ->
  names (b_world b) !! w_shm_name wr = Some (w_seg wr) /\ is_Some (heap (b_world b) !! w_seg wr).
Proof.
  intros Hw Hd. destruct (wi_only _ _ _ _ Hw _ _ _ Hd) as [s Hin].
  destruct (wi_open _ _ _ _ Hw _ _ _ Hin) as (wr' & r & Hd' & Ho). rewrite Hd in Hd'. injection Hd' as <-.
  split; [apply (os_name _ _ _ _ _ _ Ho)|]. destruct (os_repr _ _ _ _ _ _ Ho) as [Hm _].
  apply mapped_ring_ok in Hm. eauto.
Qed.

Lemma control_streams : (r_run (g_control e), r_sub (g_control e)) ≠ (r_run (g_streams e), r_sub (g_streams e)).
Proof. done. Qed.

Lemma create_viz_inv put s :
  (forall l x y, y ∈ put l x <-> y = x \/ y ∈ l) -> keeps node_inv (create_viz io pid e put s).
Proof.
  intros Hput st [[h Hw] Hn Hf Hv Ha]. unfold create_viz.
  destruct (writer_create _ _ _ _ _ _) as [w out] eqn:Ec. pose proof (create_names _ _ _ _ _ _ _ _ Ec) as Hnm.
  destruct (create_frame _ _ _ _ _ _ _ _ (wi_wf _ _ _ _ Hw) Ec) as (Hwf & Hdir & Hheap & Hseg).
  assert (Hw' : wired (g_control e) cs h (set_world (n_brain st) w)).
  { apply wired_world; [done|done| |].
    - intros side l wr Hd. destruct (wired_live _ _ _ _ _ Hw Hd) as [Hlive [m Hm]].
      unfold mapped_ring. rewrite (Hheap _ _ Hm), Hm. split; [|done]. destruct out as [wr'|]; [|by rewrite Hnm].
      destruct Hnm as [Hfresh ->]. rewrite lookup_insert_ne; [done|]. intros E. rewrite <-E, Hfresh in Hlive. done.
    - intros n. apply reg_get_dir, Hdir, control_streams. }
  destruct out as [wr|x]; simpl; (split; simpl; [by exists h| | | |]); try (intros *; rewrite writers_world); eauto.
  - intros n. destruct Hnm as [Hfresh ->]. destruct (decide (n = w_shm_name wr)) as [->|Hne].
    + right; right. exists (sp_name s, wr). split; [apply Hput; by left|done].
    + rewrite lookup_insert_ne by done. destruct (Hn n) as [?|[(sd & l & wr' & ? & ?)|(x & Hx & ?)]]; [by left| |].
      * right; left. exists sd, l, wr'. by rewrite writers_world.
      * right; right. exists x. split; [apply Hput; by right|done].
  - intros x Hx%Hput. destruct Hx as [->|Hx]; [|by apply Hv]. simpl. destruct Hnm as [Hfresh _].
    destruct (Hn (w_shm_name wr)) as [<-|[(sd & l & wr' & Hd & E)|(y & Hy & E)]]; [done| |].
    + destruct (wired_live _ _ _ _ _ Hw Hd) as [Hl _]. rewrite E, Hfresh in Hl. done.
    + rewrite <-E. by apply Hv.
  - intros Hx%Hput Hd. destruct Hx as [->|Hx]; [|by eapply Ha]. simpl.
    destruct (wired_live _ _ _ _ _ Hw Hd) as [Hl [m Hm]]. destruct Hnm as [Hfresh _]. split.
    + intros E. rewrite E, Hfresh in Hl. done.
    + rewrite (Hseg _ eq_refl). intros E. apply lookup_lt_Some in Hm. lia.
  - intros n. rewrite Hnm. destruct (Hn n) as [?|[(sd & l & wr' & ? & ?)|?]]; [by left| |by right; right].
    right; left. exists sd, l, wr'. by rewrite writers_world.
Qed.

Lemma open_viz_inv put s :
  (forall l x y, y ∈ put l x <-> y = x \/ y ∈ l) -> keeps node_inv (open_viz io pid e put s).
Proof. intros Hput. apply keeps_lift_bind. intros s' _. by apply create_viz_inv. Qed.

(** A change of the world that keeps names, manifests and the control segments. *)
Lemma node_inv_world st w' :
  node_inv st -> registry_wf w' -> names w' = names (b_world (n_brain st)) ->
  (forall side l wr, dget side (writers l (n_brain st)) = Some wr ->
     mapped_ring w' (w_seg wr) = mapped_ring (b_world (n_brain st)) (w_seg wr)) ->
  (forall n, reg_get w' (g_control e) n = reg_get (b_world (n_brain st)) (g_control e) n) ->
  node_inv (NodeSt (set_world (n_brain st) w') (n_viz st)).
Proof.
  intros [[h Hw] Hn Hf Hv Ha] Hwf Hnm Hheap Hreg. split; simpl; try (intros *; rewrite ?writers_world; eauto).
  - exists h. apply wired_world; try done. intros side l wr Hd. rewrite Hnm. split; [done|by eapply Hheap].
  - rewrite Hnm. destruct (Hn n) as [?|[(sd & l & wr & ? & ?)|?]]; [by left| |by right; right].
    right; left. exists sd, l, wr. by rewrite writers_world.
Qed.

(** A write to a segment that is not a control one. *)
Lemma write_viz_inv wr v t st : node_inv st ->
  (forall side l wr', dget side (writers l (n_brain st)) = Some wr' -> w_seg wr' ≠ w_seg wr) ->
  node_inv (write_viz cast wr v t st).1.
Proof.
  intros Hst Hap. unfold write_viz, nb, brain_write.
  destruct (writer_write _ _ _ _ _) as [[w i]|] eqn:Ew; [|by destruct st].
  apply writer_write_ok in Ew as (r0 & r' & _ & _ & _ & Hn & Hd & Hother).
  destruct (ni_wired _ Hst) as [h Hw]. apply node_inv_world; try done.
  - intros ru su d. unfold dir_of. rewrite Hd. apply (wi_wf _ _ _ _ Hw).
  - intros side l wr' Hg. apply Hother. by eapply Hap.
  - intros n. by apply reg_get_dirs.
Qed.

(** Posting through the brain. *)
Lemma run_op_node_inv o st : node_inv st -> node_inv (NodeSt (run_op cast o (n_brain st)).1 (n_viz st)).
Proof.
  intros [[h Hw] Hn Hf Hv Ha].
  destruct (run_op_posts cast (n_brain st) o (n_brain st) (conj eq_refl (fun _ => eq_refl))) as [Hnm Hwr].
  split; simpl; try (intros *; rewrite ?Hwr; eauto).
  - eexists. by apply run_op_wired.
  - rewrite Hnm. destruct (Hn n) as [?|[(sd & l & wr & ? & ?)|?]]; [by left| |by right; right].
    right; left. exists sd, l, wr. by rewrite Hwr.
Qed.

Lemma run_ops_inv ops st : node_inv st -> node_inv (NodeSt (run_ops cast ops (n_brain st)) (n_viz st)).
Proof.
  revert st. induction ops as [|o ops IH]; intros st Hst; [by destruct st|].
  apply (IH (NodeSt (run_op cast o (n_brain st)).1 (n_viz st))). by apply run_op_node_inv.
Qed.

(** ** Handing back *)

Lemma newest_read_of (r : ring f64) h row t k :
  0 < k -> 0 < Ring.capacity r -> newest (read_of r (h ++ [(row, t)])%list k) = Some row.
Proof.
  intros Hk Hc. unfold newest, read_of, newest_of. simpl.
  assert (Hn : (1 <= read_len r (h ++ [(row, t)])%list k)%nat) by (unfold read_len; rewrite length_app; simpl; lia).
  rewrite drop_app_le by (rewrite length_app; simpl; lia). rewrite fmap_app. apply list.last_snoc.
Qed.

(** What an arm attached to a command channel as [rd] finds newest in it: a STOP. *)
Definition stopped_at (w : world) (rd : StreamReader) (s : StreamSpec) : Prop :=
  exists batch row args, reader_last w rd (sp_capacity s) = Ok batch /\
    newest batch = Some row /\ decode row = Ok (Command STOP args).

Lemma release_viz_fold l : forall w, registry_wf w ->
  let w' := foldl (release_viz e) w l in
  registry_wf w' /\ heap w' = heap w /\
  (forall n, names w' !! n = if decide (n ∈ (fun x => w_shm_name x.2) <$> l) then None else names w !! n) /\
  (forall n, reg_get w' (g_control e) n = reg_get w (g_control e) n).
Proof.
  induction l as [|x l IH]; intros w Hwf; simpl.
  - by split_and!.
  - unfold release_viz at 1 2 4 5.
    assert (registry_wf (writer_unlink w x.2)) as Hwf1 by exact Hwf.
    destruct (reg_remove_frame _ (g_streams e) x.1 Hwf1) as (Hwf2 & Hn2 & Hh2 & Hd2).
    destruct (IH _ Hwf2) as (H1 & H2 & H3 & H4). split_and!; [done|by rewrite H2, Hh2| |].
    + intros n. rewrite H3, Hn2. simpl. destruct (decide (n ∈ _ <$> l)) as [Hin|Hin].
      * rewrite decide_True; [done|]. by right.
      * destruct (decide (n = w_shm_name x.2)) as [->|Hne].
        -- rewrite decide_True by left. apply lookup_delete_eq.
        -- rewrite decide_False by (rewrite not_elem_of_cons; done). by apply lookup_delete_ne.
    + intros n. rewrite H4. apply (reg_get_dir w). exact (Hd2 _ _ control_streams).
Qed.

Lemma hand_back_inv st :
  (forall d, cast d (f_of_Z (kind_code STOP)) = f_of_Z (kind_code STOP)) ->
  (forall side s, dget (side, LCommand) cs = Some s -> 0 < sp_capacity s /\ 0 < sp_dim s) ->
  node_inv st ->
  let st' := hand_back cast e st in
  names (b_world (n_brain st')) = names w0 /\ n_viz st' = [] /\ (forall l, writers l (n_brain st') = []) /\
  forall side s rd, dget (side, LCommand) cs = Some s ->
    names (b_world (n_brain st)) !! shm_name_for (ne_run e) (sp_name s) = Some (rd_seg rd) ->
    stopped_at (b_world (n_brain st')) rd s.
Proof.
  intros Hcast Hcs [[h Hw] Hn Hf Hv Ha]. simpl. set (w' := foldl (release_viz e) _ _).
  destruct (release_viz_fold (n_viz st) _ (wi_wf _ _ _ _ Hw)) as (Hwf' & Hh' & Hn' & Hr'). fold w' in Hwf', Hh', Hn', Hr'.
  assert (Hw' : wired (g_control e) cs h (set_world (n_brain st) w')).
  { apply wired_world; [done|done| |done]. intros side l wr Hd. unfold mapped_ring. rewrite Hh'. split; [|done].
    rewrite Hn', decide_False; [done|]. intros (x & E & Hx)%list_elem_of_fmap. by destruct (Ha _ _ _ _ Hx Hd). }
  pose proof (run_op_wired cast _ _ _ _ (OpStopArms (ne_t_end e)) Hw') as Hs.
  destruct (run_op_posts cast (set_world (n_brain st) w') (OpStopArms (ne_t_end e)) _ (conj eq_refl (fun _ => eq_refl))) as [Hnm Hwr].
  simpl in Hs, Hnm, Hwr. set (b2 := (stop_arms cast (ne_t_end e) (set_world (n_brain st) w')).1) in *.
  split_and!; [|done|by intros []|].
  - apply close_owned. split.
    + intros n. rewrite Hnm. simpl. rewrite Hn'. destruct (decide _) as [(x & -> & Hx)%list_elem_of_fmap|Hni].
      * left. symmetry. by apply Hv.
      * destruct (Hn n) as [?|[(sd & l & wr & ? & ?)|(x & Hx & <-)]]; [by left| |].
        -- right. exists sd, l, wr. by rewrite Hwr, writers_world.
        -- exfalso. apply Hni. apply list_elem_of_fmap. by exists x.
    + intros side l wr. rewrite Hwr, writers_world. apply Hf.
  - intros side s rd Hget Hrd. pose proof (Hcs _ _ Hget) as [Hcap Hdim]. pose proof (dget_In _ _ _ Hget) as Hin.
    destruct (wi_open _ _ _ _ Hw _ _ _ Hin) as (wr0 & r0 & Hd0 & Ho0).
    destruct (wi_open _ _ _ _ Hs _ _ _ Hin) as (wr & r & Hd1 & Ho).
    assert (Hseg : w_seg wr = rd_seg rd).
    { rewrite Hwr, writers_world, Hd0 in Hd1. injection Hd1 as <-.
      pose proof (os_name _ _ _ _ _ _ Ho0) as Hnm0. rewrite (os_shm _ _ _ _ _ _ Ho0) in Hnm0.
      simpl in Hnm0. rewrite Hrd in Hnm0. by injection Hnm0. }
    destruct (encode_stop (Z.to_nat (sp_dim s)) ltac:(lia)) as (v & Hv1 & Hv2 & Hv3).
    assert (Hlog : stop_logs cast cs (ne_t_end e) h side LCommand = (h side LCommand ++ [(stored cast s v, ne_t_end e)])%list).
    { unfold stop_logs, post_log. rewrite Hget. unfold encoded. rewrite Hv1.
      rewrite (proj2 (Z.eqb_eq _ _)) by lia. apply log_add_eq. }
    destruct (os_repr _ _ _ _ _ _ Ho) as [Hm Hrr]. rewrite Hlog in Hrr. rewrite Hseg in Hm.
    assert (exists args, decode (stored cast s v) = Ok (Command STOP args)) as [args Hd].
    { apply decode_stop. unfold stored. destruct (dtype_of_name _); [|done].
      rewrite list_lookup_fmap, Hv3. simpl. by rewrite Hcast. }
    eexists _, (stored cast s v), args. split_and!; [| |done].
    + unfold reader_last, mapped_ring in *.
      assert (forall l w, heap (unlink_writers l w) = heap w) as Hun.
      { clear. intros l. induction l as [|x l IH]; intros w; [done|].
        change (unlink_writers (x :: l) w) with (unlink_writers l (writer_unlink w x.2)). by rewrite IH. }
      unfold brain_close. simpl. rewrite !Hun. rewrite Hm. simpl. by rewrite (ring_last_exact _ _ _ Hrr Hcap).
    + apply newest_read_of; [lia|]. by rewrite (os_cap _ _ _ _ _ _ Ho).
Qed.
End invariant.

(** ** The stages keep the invariant *)

Section stages.
Context (cast : dtype -> f64 -> f64) (io : string -> bool) (pid : Z) (e : node_env).
Context (w0 : world) (cs : list (chan * StreamSpec)).
Abbreviation inv := (node_inv e w0 cs).

Lemma open_horizon_inv skill t side : keeps inv (open_horizon cast io pid e skill t side).
Proof.
  unfold open_horizon. apply keeps_lift_bind. intros a _. apply keeps_lift_bind. intros w _.
  intros st Hst. unfold mbind at 1, st_bind at 1.
  pose proof (open_viz_inv io pid e w0 cs at_end
    (stream_spec (MkSpec (horizon_stream side) (Z.of_nat w) 16 "float64" (Some f1))) at_end_elem st Hst) as Ho.
  destruct (open_viz io pid e at_end _ st) as [st1 [wr| |]] eqn:Ev; simpl in Ho; [|done..].
  unfold mbind, st_bind, st_lift. destruct (np_row a (-1)); [|done]. apply write_viz_inv; [done|].
  intros sd l wr' Hd. assert (exists n, (n, wr) ∈ n_viz st1) as [n Hin].
  { clear -Ev. unfold open_viz, mbind, st_bind, st_lift in Ev. destruct (stream_spec _) as [s|]; [|done].
    unfold create_viz in Ev. destruct (writer_create _ _ _ _ _ _) as [w' [wr'|]]; [|done].
    injection Ev as <- <-. exists (sp_name s). apply at_end_elem. by left. }
  exact (proj2 (ni_apart _ _ _ _ Ho _ _ _ _ Hin Hd)).
Qed.

Lemma open_horizons_inv skill t sides : keeps inv (open_horizons cast io pid e skill t sides).
Proof.
  induction sides as [|side sides IH]; [apply keeps_ret|]. cbn [open_horizons].
  apply keeps_bind; [apply open_horizon_inv|done].
Qed.

Lemma open_predictions_inv hz l : keeps inv (open_predictions io pid e hz l).
Proof.
  induction l as [|x l IH]; [apply keeps_ret|]. cbn [open_predictions]. apply keeps_bind; [|done].
  unfold open_prediction. destruct (horizon_kind _) as [[]|]; [| |apply keeps_ret];
    (apply keeps_bind; [apply open_viz_inv, at_end_elem|]); intros; apply keeps_ret.
Qed.

(** What the other processes do while the node runs: they write telemetry, and neither
    rename streams nor touch the control channels. *)
Definition telemetry (f : world -> world) : Prop := forall w, registry_wf w ->
  registry_wf (f w) /\ names (f w) = names w /\
  (forall n, reg_get (f w) (g_control e) n = reg_get w (g_control e) n) /\
  forall c s seg, (c, s) ∈ cs -> names w !! shm_name_for (ne_run e) (sp_name s) = Some seg ->
    mapped_ring (f w) seg = mapped_ring w seg.

(** The invariant with the shared-memory names [N], which the loops leave alone. *)
Context (N : gmap string nat).
Definition inv_at (st : node_state) : Prop := inv st /\ names (b_world (n_brain st)) = N.

Lemma telemetry_inv f st : telemetry f -> inv_at st ->
  inv_at (NodeSt (set_world (n_brain st) (f (b_world (n_brain st)))) (n_viz st)).
Proof.
  intros Hf [Hst HN]. destruct (ni_wired _ _ _ _ Hst) as [h Hw].
  destruct (Hf _ (wi_wf _ _ _ _ Hw)) as (H1 & H2 & H3 & H4). split; [|by simpl; rewrite H2]. apply node_inv_world; try done.
  intros side l wr Hd. destruct (wi_only _ _ _ _ Hw _ _ _ Hd) as [s Hin].
  destruct (wi_open _ _ _ _ Hw _ _ _ Hin) as (wr' & r & Hd' & Ho). rewrite Hd in Hd'. injection Hd' as <-.
  eapply H4; [done|]. rewrite <-(os_name _ _ _ _ _ _ Ho). f_equal. by rewrite (os_shm _ _ _ _ _ _ Ho).
Qed.

Lemma run_op_inv_at o st : inv_at st -> inv_at (NodeSt (run_op cast o (n_brain st)).1 (n_viz st)).
Proof.
  intros [Hst HN]. split; [by apply run_op_node_inv|]. simpl.
  by destruct (run_op_posts cast (n_brain st) o (n_brain st) (conj eq_refl (fun _ => eq_refl))) as [-> _].
Qed.

Lemma skill_loop_inv viz skill arms fps tol timeout settle start tape :
  Forall (fun o => telemetry (so_env o)) tape ->
  keeps (fun s => inv_at (NodeSt (sl_brain s) viz)) (skill_run cast skill arms fps tol timeout settle start tape).
Proof.
  intros Ht. set (P := fun s => inv_at (NodeSt (sl_brain s) viz)).
  assert (Hobs : forall o, telemetry (so_env o) -> keeps P (observe_env o)).
  { intros o Ho. apply keeps_modify. intros s Hs. exact (telemetry_inv _ (NodeSt (sl_brain s) viz) Ho Hs). }
  assert (Hpost : forall t k, keeps P (skill_post cast skill arms t k)).
  { intros t k. unfold skill_post. induction arms as [|[side c] l IH]; [apply keeps_ret|]. cbn [post_sides].
    apply keeps_bind; [|intros _; apply IH]. unfold post_side. repeat (apply keeps_lift_bind; intros ? _).
    apply keeps_bind; [|intros _; by apply keeps_modify]. intros s Hs. unfold with_brain, P.
    pose proof (run_op_inv_at (OpCommand side a2 t) (NodeSt (sl_brain s) viz) Hs) as Hr. simpl in Hr.
    destruct (brain_command _ _ _ _ _). exact Hr. }
  unfold skill_run. apply keeps_lift_bind. intros n _. apply (keeps_bind_val _ (fun o =>
    match o with Some l => Forall (fun o => telemetry (so_env o)) l | None => True end)).
  - revert Ht. generalize (fadd start timeout). intros dl Ht. induction Ht as [|o tape Ho Ht IH]; [apply keeps_running|].
    cbn [converge]. destruct (so_stop o); [apply keeps_ret|]. apply keeps_bind; [by apply Hobs|]. intros _.
    apply keeps_bind; [apply Hpost|]. intros _. apply keeps_bind; [apply keeps_get|]. intros s.
    apply keeps_lift_bind. intros far _. case_bool_decide; [apply keeps_ret|]. destruct (flt _ _); [apply keeps_raise|done].
  - intros s s' [rest|] Hc; [|done]. apply converge_opens in Hc as (_ & _ & pre & o & -> & _).
    apply Forall_app in Ht as [_ Ht]. by apply Forall_cons in Ht as [_ Ht].
  - intros [[|o rest]|] Hr; [apply keeps_running| |apply keeps_ret]. apply Forall_cons in Hr as [_ Hr].
    destruct (so_stop o); [apply keeps_ret|]. generalize (-1). 
    induction Hr as [|o' rest Ho Hr IH]; intros last; [apply keeps_running|]. cbn [replay].
    destruct (so_stop o'); [apply keeps_ret|]. apply keeps_bind; [by apply Hobs|]. intros _.
    apply keeps_lift_bind. intros k _. apply keeps_bind; [apply Hpost|]. intros _.
    apply keeps_bind; [by apply keeps_modify|]. intros _. destruct (fle _ _); [apply keeps_ret|apply IH].
Qed.

Lemma run_skill_inv skill cfg arms start tape : Forall (fun o => telemetry (so_env o)) tape ->
  keeps inv_at (run_skill_loop cast skill cfg arms start tape).
Proof.
  intros Ht st Hst. unfold run_skill_loop. destruct (skill_loop _ _ _) as [[driven fps]|]; [|done].
  pose proof (skill_loop_inv (n_viz st) skill driven fps (kc_start_tolerance cfg) (kc_start_timeout_s cfg)
    (kc_settle_s cfg) start tape Ht (SLoop (n_brain st) [] 0)) as H.
  destruct (skill_run _ _ _ _ _ _ _ _ _ _) as [s o]. simpl in *. apply H. by destruct st.
Qed.

Lemma post_ops_inv ops : keeps inv_at (post_ops cast ops).
Proof.
  apply keeps_modify. intros st Hst. destruct Hst as [Hi HN]. split; [by apply run_ops_inv|]. simpl.
  by destruct (run_ops_posts cast ops (n_brain st) (n_brain st) (conj eq_refl (fun _ => eq_refl))) as [-> _].
Qed.

Lemma finish_inv {A} (o : outcome A) : keeps inv_at (finish_with o).
Proof. by intros st. Qed.
End stages.

(** Attaching reads only: the world and the writers stay. *)
Lemma attach_frame g ns start timeout polls b :
  b_world (attach g ns start timeout polls b).1 = b_world b /\
  forall l, writers l (attach g ns start timeout polls b).1 = writers l b.
Proof.
  unfold attach. destruct (wait_for _ _ _ _ _) as [[entries|]|]; [|done|done].
  assert (keeps (fun b' => b_world b' = b_world b /\ forall l, writers l b' = writers l b) (attach_all entries ns)) as H.
  { induction ns as [|n ns IH]; [apply keeps_ret|]. cbn [attach_all]. apply keeps_bind; [|intros _; apply IH].
    intros b' [H1 H2]. unfold attach_one. destruct (let? _ := _ in _); [|done]. simpl. split; [done|].
    intros l. rewrite <-H2. by destruct l. }
  by apply H.
Qed.

Lemma open_channels_inv io pid e arms specs w b st1 :
  registry_wf w -> b_world b = w -> (forall l, writers l b = []) -> NoDup (dkeys arms) ->
  channel_specs arms = Ok specs -> open_channels io pid e arms (NodeSt b []) = (st1, Returned tt) ->
  node_inv e w (channels specs) st1.
Proof.
  intros Hwf Hb Hwr Hnd Hs. unfold open_channels, mbind, st_bind, st_lift. rewrite Hs. unfold nb.
  cbn [n_brain n_viz]. destruct (open_control io pid (g_control e) specs b) as [b1 o] eqn:Eo. intros [= <- ->].
  destruct (channel_specs_ok _ _ Hs) as [Hkeys Hv]. rewrite <-Hkeys in Hnd.
  assert (wired (g_control e) (channels specs) no_log b1) as Hw.
  { apply (open_control_wired io pid (g_control e) specs [] b); try done.
    - apply wired_empty; [by rewrite Hb|done].
    - intros. apply not_elem_of_nil. }
  pose proof (open_control_owns io pid w (g_control e) specs b) as Hown. rewrite Eo in Hown. destruct Hown as [Hn Hf].
  { split; [left; by rewrite Hb|]. intros side l wr. rewrite Hwr. by intros []%not_elem_of_nil. }
  { done. } { intros. by rewrite Hwr. }
  split; simpl; [by exists no_log| |done|by intros x []%not_elem_of_nil|by intros x ? ? ? []%not_elem_of_nil].
  intros n. destruct (Hn n) as [?|?]; [by left|right; by left].
Qed.

Lemma channel_dim arms specs side l s :
  channel_specs arms = Ok specs -> dget (side, l) (channels specs) = Some s -> 0 < sp_capacity s /\ 0 < sp_dim s.
Proof.
  intros Hs Hchan. destruct (channel_specs_ok _ _ Hs) as [_ Hv].
  apply dget_In, list_elem_of_bind in Hchan as (x & Hx & Hin). rewrite Forall_forall in Hv.
  specialize (Hv _ Hin). unfold side_chans, leaf_chan in Hx. rewrite !elem_of_app in Hx.
  apply stream_spec_pos. destruct Hx as [Hx|[Hx|Hx]]; destruct (dget _ _) eqn:E;
    try (by apply not_elem_of_nil in Hx); apply list_elem_of_singleton in Hx; simplify_eq; by eapply Hv.
Qed.

(** ** The consumers *)

Section consumers.
Context (cast : dtype -> f64 -> f64) (io : string -> bool) (pid : Z) (e : node_env).

(** The three nodes that drive arms: the arms they drive, their setup and their loop. *)
Inductive is_consumer (specs : list (string * list (string * StreamSpec))) :
    list (string * (ControlCfg * bool)) -> N bool -> N unit -> Prop :=
  | skill_consumer skill cfg start t0 tape :
      Forall (fun o => telemetry e (channels specs) (so_env o)) tape ->
      is_consumer specs (drive_sides e skill) (skill_setup cast io pid e skill t0)
        (run_skill_loop cast skill cfg (drive_sides e skill) start tape)
  | collection_consumer builder servers leaders recorder num_episodes operator_paced stamp tape :
      is_consumer specs (enabled_arms e) (collection_setup io pid e builder servers leaders recorder)
        (collection_body cast e builder num_episodes operator_paced stamp tape)
  | eval_consumer names observer layout policy hz nt rs me stamp tape :
      is_consumer specs (without_gripper (enabled_arms e)) (eval_setup io pid e names layout hz)
        (run_eval_loop cast e observer layout policy nt rs me stamp tape).

Lemma n_bind {A C} (m : N A) (k : A -> N C) st r : (m ≫= k) st = r ->
  r.2 = Running \/ (exists x, r.2 = Raised x) \/ exists st1 a, m st = (st1, Returned a) /\ k a st1 = r.
Proof.
  unfold mbind, st_bind. destruct (m st) as [st1 [a|x|]]; intros <-; eauto 10.
Qed.

Lemma attach_node_frame ns b st1 ok : attach_node e ns (NodeSt b []) = (st1, Returned ok) ->
  (forall l, writers l b = []) -> ok = true ->
  exists b1, st1 = NodeSt b1 [] /\ b_world b1 = b_world b /\ forall l, writers l b1 = [].
Proof.
  unfold attach_node. cbn [n_brain n_viz]. intros H Hw ->.
  pose proof (attach_frame (g_streams e) ns (ne_start e) (ne_attach_timeout_s e) (ne_polls e) b) as [H1 H2].
  destruct (attach _ _ _ _ _ b) as [b1 [[]|[]|]]; try done. injection H as <-. exists b1.
  split_and!; [done|done|]. intros l. by rewrite H2.
Qed.

Lemma setup_inv specs arms setup body w st1 :
  is_consumer specs arms setup body -> registry_wf w -> NoDup (dkeys arms) -> channel_specs arms = Ok specs ->
  setup (NodeSt (new_brain w) []) = (st1, Returned true) -> node_inv e w (channels specs) st1.
Proof.
  intros Hc Hwf Hnd Hs. destruct Hc as [skill cfg start t0 tape Ht|builder servers leaders recorder ne op stamp tape|ns observer layout policy hz nt rs me stamp tape].
  - unfold skill_setup. case_bool_decide; [done|]. intros Hrun.
    destruct (n_bind _ _ _ _ Hrun) as [?|[[? ?]|(sa & [] & Ha & H1)]]; [done|done| |done].
    apply attach_node_frame in Ha as (b1 & -> & Hb & Hw1); [|by intros []|done]. cbn [negb] in H1.
    destruct (n_bind _ _ _ _ H1) as [?|[[? ?]|(sb & [] & Hb1 & H2)]]; [done|done|].
    eapply open_channels_inv in Hb1; [|exact Hwf|done|done|done|done].
    destruct (n_bind _ _ _ _ H2) as [?|[[? ?]|(sc & [] & Hc & H3)]]; [done|done|]. injection H3 as <-.
    pose proof (open_horizons_inv cast io pid e w (channels specs) skill t0 (drive_sides e skill).*1 sb Hb1) as Hk.
    by rewrite Hc in Hk.
  - unfold collection_setup. intros Hrun.
    destruct (n_bind _ _ _ _ Hrun) as [?|[[? ?]|(sa & [] & Ha & H1)]]; [done|done| |done].
    apply attach_node_frame in Ha as (b1 & -> & Hb & Hw1); [|by intros []|done]. cbn [negb] in H1.
    destruct (wait_leaders_fresh _ _ _ _) as [[|[]]|]; try done.
    destruct (n_bind _ _ _ _ H1) as [?|[[? ?]|(sb & [] & Hb1 & H2)]]; [done|done|].
    eapply open_channels_inv in Hb1; [|exact Hwf|done|done|done|done].
    unfold mbind, st_bind, st_lift in H2. destruct recorder; [|done]. by injection H2 as <-.
  - unfold eval_setup. intros Hrun.
    destruct (n_bind _ _ _ _ Hrun) as [?|[[? ?]|(sa & [] & Ha & H1)]]; [done|done| |done].
    apply attach_node_frame in Ha as (b1 & -> & Hb & Hw1); [|by intros []|done]. cbn [negb] in H1.
    destruct (n_bind _ _ _ _ H1) as [?|[[? ?]|(sb & [] & Hb1 & H2)]]; [done|done|].
    eapply open_channels_inv in Hb1; [|exact Hwf|done|done|done|done].
    destruct (n_bind _ _ _ _ H2) as [?|[[? ?]|(sc & [] & Hc & H3)]]; [done|done|].
    match type of Hc with open_predictions _ _ _ _ ?l _ = _ =>
      pose proof (open_predictions_inv io pid e w (channels specs) hz l sb Hb1) as Hk end.
    rewrite Hc in Hk. simpl in Hk.
    destruct (n_bind _ _ _ _ H3) as [?|[[? ?]|(sd & wr & Hd & H4)]]; [done|done|]. injection H4 as <-.
    pose proof (open_viz_inv io pid e w (channels specs) at_front
      (stream_spec (MkSpec comm_stream 3 512 "float64" (Some hz))) at_front_elem sc Hk) as Hk2.
    by rewrite Hd in Hk2.
Qed.

Lemma body_inv specs arms setup body w N :
  is_consumer specs arms setup body -> keeps (inv_at e w (channels specs) N) body.
Proof.
  intros Hc. destruct Hc as [skill cfg start t0 tape Ht|builder servers leaders recorder ne op stamp tape|ns observer layout policy hz nt rs me stamp tape].
  - by apply run_skill_inv.
  - unfold collection_body. apply keeps_bind; [apply post_ops_inv|]. intros _. apply finish_inv.
  - unfold run_eval_loop. apply keeps_bind; [apply keeps_lift|]. intros _. apply keeps_lift_bind. intros r _.
    apply keeps_bind; [apply post_ops_inv|]. intros _. apply finish_inv.
Qed.
End consumers.

(** C11: A consumer hands control back.  Once a skill, collection or eval node has been set
    up, each arm it drives can attach to its own command channel, found under its name in the
    control registry; and however the node's loop then ends - completion, stop, or any
    exception - what that attached arm finds newest in its channel is a STOP, and the node
    leaves exactly the shared-memory names that existed before it started and no writer of its
    own. *)
Theorem consumer_hands_back (cast : dtype -> f64 -> f64) (io : string -> bool) (pid : Z) (e : node_env)
    (specs : list (string * list (string * StreamSpec))) (arms : list (string * (ControlCfg * bool)))
    (setup : N bool) (body : N unit) (w : world) (st1 st2 : node_state) (o : outcome unit)
    (Hc : is_consumer cast io pid e specs arms setup body)
    (Hcast : forall d, cast d (f_of_Z (kind_code STOP)) = f_of_Z (kind_code STOP))
    (Hwf : registry_wf w) (Hnd : NoDup (dkeys arms)) (Hspecs : channel_specs arms = Ok specs)
    (Hsetup : setup (NodeSt (new_brain w) []) = (st1, Returned true))
    (Hrun : consumer cast e setup body (NodeSt (new_brain w) []) = (st2, o)) (Hend : o ≠ Running) :
  names (b_world (n_brain st2)) = names w /\ n_viz st2 = [] /\ (forall l, writers l (n_brain st2) = []) /\
  forall side s, dget (side, LCommand) (channels specs) = Some s ->
    exists en rd, reg_get (b_world (n_brain st1)) (g_control e) (sp_name s) = Ok (Some en) /\
      reader_attach (b_world (n_brain st1)) en = Ok rd /\ stopped_at (b_world (n_brain st2)) rd s.
Proof.
  pose proof (setup_inv _ _ _ _ _ _ _ _ _ _ Hc Hwf Hnd Hspecs Hsetup) as Hinv.
  pose proof (body_inv _ _ _ _ _ _ _ _ w _ Hc st1 (conj Hinv eq_refl)) as [Hbody Hnames].
  unfold consumer, mbind, st_bind in Hrun. rewrite Hsetup in Hrun. cbn [negb] in Hrun. unfold try_finally in Hrun.
  destruct (body st1) as [st' o'] eqn:Eb. simpl in Hbody, Hnames.
  assert (st2 = hand_back cast e st') as ->.
  { destruct o' as [|x|]; injection Hrun as <- <-; done. }
  destruct (hand_back_inv cast e w (channels specs) st' Hcast) as (H1 & H2 & H3 & H4); [|done|].
  { intros side s. by eapply channel_dim. }
  split_and!; [done|done|done|]. intros side s Hget. destruct (ni_wired _ _ _ _ Hinv) as [h Hw].
  destruct (wi_open _ _ _ _ Hw _ _ _ (dget_In _ _ _ Hget)) as (wr & r & _ & Ho).
  destruct (open_attach _ _ _ _ _ _ 1 Ho ltac:(lia)) as (en & rd & Hen & Hrd & Hseg & _).
  exists en, rd. split_and!; [done|done|]. apply (H4 side); [done|]. rewrite Hnames, Hseg.
  pose proof (os_name _ _ _ _ _ _ Ho) as Hn. by rewrite (os_shm _ _ _ _ _ _ Ho) in Hn.
Qed.

(** The teleoperation node releases its channels too. *)
Lemma process_posts cast b0 servers ma now t teleop :
  keeps (posts_only b0) (process cast servers ma now t teleop).
Proof.
  unfold process. destruct teleop as [|x l]; [apply keeps_ret|]. destruct servers as [|sv svs]; [apply keeps_ret|].
  apply keeps_bind; [apply keeps_get|]. intros b. generalize (fresh_leader_positions (leader_sample b) ma now (sv :: svs)).
  intros leaders. generalize (x :: l). clear. induction l as [|[side [c d]] l IH]; [apply keeps_ret|].
  cbn [process_arms]. apply keeps_bind; [|intros _; apply IH]. unfold process_arm.
  destruct (dget side leaders) as [q|]; [|apply keeps_ret]. destruct (negb _); [apply keeps_ret|].
  apply keeps_lift_bind. intros v _. apply keeps_bind.
  - exact (run_op_posts cast b0 (OpCommand side v t)).
  - intros _. destruct (list.last q) as [g|]; [exact (run_op_posts cast b0 (OpGripper side g t))|apply keeps_ret].
Qed.

Lemma brain_loop_posts cast b0 servers ma teleop ticks :
  Forall (fun k => forall w, names (bt_env k w) = names w) ticks ->
  keeps (fun st => posts_only b0 (n_brain st)) (brain_loop cast servers ma teleop ticks).
Proof.
  induction 1 as [|k ticks Hk Ht IH]; [apply keeps_running|]. cbn [brain_loop].
  destruct (bt_stop k); [apply keeps_ret|]. apply keeps_bind.
  - apply keeps_modify. intros st [H1 H2]. split; simpl; [by rewrite Hk|]. intros l. by rewrite writers_world.
  - intros _. apply keeps_bind; [apply keeps_get|]. intros st. apply keeps_lift_bind. intros _ _.
    apply keeps_bind; [|done]. intros st' Hst. unfold nb.
    pose proof (process_posts cast b0 servers ma (bt_now_ns k) (bt_t_ns k) teleop (n_brain st') Hst) as Hp.
    destruct (process _ _ _ _ _ _ _). exact Hp.
Qed.

Lemma brain_node_releases cast io pid e names0 servers ma ticks specs w b1 st2 o :
  NoDup (dkeys (enabled_arms e)) -> channel_specs (enabled_arms e) = Ok specs ->
  Forall (fun k => forall w, names (bt_env k w) = names w) ticks ->
  attach_node e (names0 ++ List.filter (fun n => negb (bool_decide (n ∈ names0))) (leader_stream_names servers))%list
    (NodeSt (new_brain w) []) = (NodeSt b1 [], Returned true) ->
  (open_channels io pid e (enabled_arms e) (NodeSt b1 [])).2 = Returned tt ->
  brain_node_run cast io pid e names0 servers ma ticks (NodeSt (new_brain w) []) = (st2, o) -> o ≠ Running ->
  names (b_world (n_brain st2)) = names w.
Proof.
  intros Hnd Hs Ht Ha Ho. unfold brain_node_run, mbind at 1, st_bind at 1. rewrite Ha. cbn [negb].
  apply attach_node_frame in Ha as (b & [= <-] & Hb & Hw); [|by intros []|done]. 
  unfold mbind, st_bind. destruct (open_channels io pid e (enabled_arms e) (NodeSt b1 [])) as [st1 o1] eqn:Eo.
  simpl in Ho. subst o1. intros Hrun Hne.
  assert (owns_names w (n_brain st1)) as Hown.
  { unfold open_channels, mbind, st_bind, st_lift in Eo. rewrite Hs in Eo. unfold nb in Eo. cbn [n_brain n_viz] in Eo.
    rewrite <-(proj1 (channel_specs_ok _ _ Hs)) in Hnd.
    pose proof (open_control_owns io pid w (g_control e) specs b1) as Hown.
    destruct (open_control io pid (g_control e) specs b1) as [b2 o2]. injection Eo as <- _. apply Hown; [|done|].
    - split; [left; by rewrite Hb|]. intros side l wr. rewrite Hw. by intros []%not_elem_of_nil.
    - intros. by rewrite Hw. }
  unfold try_finally in Hrun.
  pose proof (brain_loop_posts cast (n_brain st1) servers ma
    ((fun x => (x.1, (na_control x.2, na_dof x.2))) <$> List.filter (fun x => na_enabled x.2) (ne_arms e)) ticks Ht st1
    (conj eq_refl (fun _ => eq_refl))) as [Hn Hwr].
  destruct (brain_loop _ _ _ _ _ st1) as [st' o'] eqn:El. simpl in Hn, Hwr.
  assert (st2 = close_node st') as -> by (destruct o'; injection Hrun as <- <-; done).
  simpl. apply close_owned. destruct Hown as [H1 H2]. split.
  - intros n. rewrite Hn. destruct (H1 n) as [?|(sd & l & wr & ? & ?)]; [by left|]. right. exists sd, l, wr. by rewrite Hwr.
  - intros sd l wr. rewrite Hwr. apply H2.
Qed.

(** ** Witness: a skill replayed by its node *)

Definition wit_q : StreamSpec := MkSpec "left/q" 2 4 "float64" (Some f1).
Definition wit_streams : registry := Registry "run1" "streams".
Definition wit_created : world * res StreamWriter := writer_create true empty_world wit_q "run1" wit_streams 7.
Definition wit_world : world :=
  match wit_created.2 with
  | Ok wr => match writer_write (fun _ x => x) wit_created.1 wr [f0; f1] 5 with Ok r => r.1 | Raise _ => wit_created.1 end
  | Raise _ => wit_created.1
  end.
Definition wit_env : node_env :=
  NodeEnv "run1" [("left", NodeArm demo_qpos true false 2)] f0 f1 [Poll wit_world false f0] 99.
Definition wit_obs (stop : bool) (now : Z) : skill_obs := SkillObs stop (f_of_Z now) now id.
Definition wit_tape : list skill_obs := [wit_obs false 0; wit_obs false 0; wit_obs false 1; wit_obs true 2].
Definition wit_cfg : skill_cfg := SkillC None (fdec 1 10) (f_of_Z 60) f0.
Definition wit_node : node_state := NodeSt (new_brain wit_world) [].
Definition wit_run : node_state * outcome unit :=
  skill_node_run (fun _ x => x) (fun _ => true) 42 wit_env demo_skill wit_cfg f0 0 wit_tape wit_node.

Lemma wit_world_wf : registry_wf wit_world.
Proof.
  assert (registry_wf wit_created.1) as H.
  { destruct wit_created as [w o] eqn:E. by apply (create_frame _ _ _ _ _ _ _ _ empty_world_wf E). }
  unfold wit_world. destruct wit_created.2 as [wr|]; [|done].
  destruct (writer_write _ _ _ _ _) as [[w i]|] eqn:E; [|done]. apply writer_write_ok in E as (? & ? & _ & _ & _ & _ & Hd & _).
  intros ru su d. unfold dir_of. simpl. rewrite Hd. apply H.
Qed.

Lemma consumer_hands_back_witness : wit_run.2 = Returned tt /\
  names (b_world (n_brain wit_run.1)) = names wit_world /\
  exists rd s, stopped_at (b_world (n_brain wit_run.1)) rd s.
Proof.
  split; [vm_compute; reflexivity|].
  destruct (channel_specs (drive_sides wit_env demo_skill)) as [specs|] eqn:Es; [|vm_compute in Es; discriminate].
  destruct (skill_setup (fun _ x => x) (fun _ => true) 42 wit_env demo_skill 0 wit_node) as [st1 o1] eqn:E1.
  assert (o1 = Returned true) as -> by (vm_compute in E1; congruence).
  destruct wit_run as [st2 o2] eqn:E2.
  destruct (consumer_hands_back (fun _ x => x) (fun _ => true) 42 wit_env specs (drive_sides wit_env demo_skill)
    (skill_setup (fun _ x => x) (fun _ => true) 42 wit_env demo_skill 0)
    (run_skill_loop (fun _ x => x) demo_skill wit_cfg (drive_sides wit_env demo_skill) f0 wit_tape)
    wit_world st1 st2 o2) as (Hn & _ & _ & Hs).
  - apply skill_consumer. unfold wit_tape.
    repeat (apply Forall_cons_2; [intros w Hw; split_and!; auto|]). apply Forall_nil_2.
  - reflexivity.
  - exact wit_world_wf.
  - apply (bool_decide_eq_true_1 _). vm_compute. reflexivity.
  - exact Es.
  - exact E1.
  - exact E2.
  - vm_compute in E2. injection E2 as _ <-. discriminate.
  - split; [exact Hn|]. destruct (dget ("left", LCommand) (channels specs)) as [s|] eqn:Eg.
    + destruct (Hs _ _ Eg) as (en & rd & _ & _ & Hst). exists rd, s. exact Hst.
    + vm_compute in Es. injection Es as <-. vm_compute in Eg. discriminate.
Defined.

(** Before its [try] the node has no handler: a horizon stream that cannot be created leaves
    the control channels, and an arm in its control session, behind. *)
Lemma skill_setup_leaks : exists io st x,
  skill_node_run (fun _ x => x) io 42 wit_env demo_skill wit_cfg f0 0 wit_tape wit_node = (st, Raised x) /\
  names wit_world !! "dfc_run1_cmd_left_setpoint" = None /\
  is_Some (names (b_world (n_brain st)) !! "dfc_run1_cmd_left_setpoint").
Proof.
  exists (fun n => negb (String.eqb n "eval/left/q_horizon")). eexists _, _.
  split; [vm_compute; reflexivity|]. split; [vm_compute; reflexivity|vm_compute; eauto].
Qed.
