(* ===== verification/Dashboard.v ===== *)
(** * The dashboard's client of the session daemon

    Models [dashboard/session.py] ([SessionManager]) and the run facade of [dashboard/runner.py]
    ([RunRegistry]): spawning, restarting and giving up on the daemon, the commands written to its
    standard input, the view parsed from [session.json], launches and one-shot alerts.  A call sees
    one [menv]: the daemon's exit status, the clocks, the state file, and how the operating system
    answers.  Command lines are the dictionaries the daemon's own model ([Session]) reads. *)

From Stdlib Require Import Ascii String Sorted.
From S2P Require Import Prelude Float64 Ring Streams Text Session Json.
Local Open Scope string_scope.
Local Open Scope nat_scope.
Local Open Scope list_scope.

Definition HEARTBEAT_STALE_S : f64 := f_of_Z 6.
Definition RESPAWN_BACKOFF_S : f64 := f_of_Z 10.
Definition EARLY_DEATH_S : f64 := f_of_Z 30.
Definition MAX_EARLY_DEATHS : Z := 3.
Definition RUN_STATES : list string := ["collection"; "eval"; "skill"; "saving"].

(** ** The view *)

Record SessionView := View {
  sv_state : string;
  sv_rig : json;
  sv_sim : json;
  sv_run_id : json;
  sv_task : json;
  sv_phase : json;
  sv_run_seq : Z;
  sv_run_started_ts : json;
  sv_message : json;
  sv_last_outcome : json;
  sv_cameras_down : list json;
  sv_arms_down : list json;
  sv_pending : json;
  sv_factr_servers : json;
}.

Definition run_active (v : SessionView) : bool := bool_decide (sv_state v ∈ RUN_STATES).

(** [SessionView(state=.., rig=.., sim=..)], the rest at its defaults. *)
Definition bare_view (state : string) (rig sim message : json) : SessionView :=
  View state rig sim jnull jnull jnull 0 jnull message jnull [] [] jnull jnull.

(** [str(v)] of a state: only strings can name one. *)
Definition state_str (v : json) : string :=
  match v with Scalar (JStr s) => s | Scalar JNull => "None" | _ => "" end.

(** [tuple(v or ())]. *)
Definition tuple_of (v : json) : res (list json) :=
  match v with
  | Arr l => Ok l
  | Obj o => Ok (jstr <$> dkeys o)
  | Scalar (JStr s) => Ok ((fun c => jstr (String c "")) <$> list_ascii_of_string s)
  | Scalar _ => if Json.truthy v then Raise TypeError else Ok []
  end.

(** ** The manager *)

(** What is done to daemon processes. *)
Inductive proc_op :=
  | OpSpawn (pid : Z) (rig : option string) (sim : bool)
  | OpCloseStdin (pid : Z)
  | OpTerminate (pid : Z)
  | OpKill (pid : Z).

Record manager := Manager {
  m_proc : option Z;                  (* the daemon's pid *)
  m_rig : option string;
  m_sim : option bool;
  m_spawned_at : f64;
  m_early_deaths : Z;
  m_last_exit_code : option Z;
  m_gave_up : bool;
  m_stdin : list (Z * cmd);           (* command lines delivered, oldest first *)
  m_ops : list proc_op;
}.

(** [SessionManager.__init__]. *)
Definition session_manager : manager := Manager None None None f0 0 None false [] [].

(** What one call sees. *)
Record menv := MEnv {
  me_exit : option Z;          (* [proc.poll()] of the daemon held; [None]: alive *)
  me_now : f64;                (* monotonic *)
  me_wall : f64;
  me_raw : option json;        (* [read_state] *)
  me_popen : res Z;            (* the pid [Popen] gives *)
  me_stdin_ok : bool;
  me_in_grace : bool;          (* exits within the shutdown grace *)
  me_after_term : bool;        (* exits after SIGTERM *)
}.

Definition daemon_alive (e : menv) (m : manager) : bool :=
  match m_proc m with Some _ => bool_decide (me_exit e = None) | None => false end.

Definition jopt {A} (f : A -> jval) (o : option A) : json :=
  match o with Some a => Scalar (f a) | None => jnull end.

Section client.
Context (float_of_str : string -> option f64).

(** The view of a matching state file. *)
Definition view_of (e : menv) (raw : list (string * json)) : res SessionView :=
  let get k := default jnull (dget k raw) in
  let? beat := jfloat_of float_of_str (py_or (get "heartbeat_ts") (jint 0)) in
  let fresh := flt (fsub (me_wall e) beat) HEARTBEAT_STALE_S in
  let? seq := jint_of (py_or (get "run_seq") (jint 0)) in
  let? cams := tuple_of (get "cameras_down") in
  let? arms := tuple_of (get "arms_down") in
  Ok (View (if fresh then state_str (get "state") else "starting") (get "rig") (get "sim") (get "run_id")
        (get "task") (get "phase") seq (get "run_started_ts") (get "message") (get "last_outcome") cams arms
        (get "pending") (get "factr_servers")).

(** [raw.get("pid") == proc.pid]. *)
Definition pid_matches (v : json) (pid : Z) : bool :=
  match v with
  | Scalar (JInt z) => (z =? pid)%Z
  | Scalar (JBool b) => ((if b then 1 else 0) =? pid)%Z
  | Scalar (JFloat x) => feq x (f_of_Z pid)
  | _ => false
  end.

Inductive down_message := CrashLoop (deaths : Z) (code : option Z) | Exited (code : Z).

(** The message of a daemon that is down, as data. *)
Definition down_reason (m : manager) : option down_message :=
  if m_gave_up m then Some (CrashLoop (m_early_deaths m) (m_last_exit_code m))
  else Exited <$> m_last_exit_code m.

Definition down_json (d : option down_message) : json :=
  match d with
  | None => jnull
  | Some (CrashLoop n c) => Obj [("crashes", jint n); ("code", jopt JInt c)]
  | Some (Exited c) => Obj [("code", jint c)]
  end.

(** [SessionManager.view]. *)
Definition view (e : menv) (m : manager) : res SessionView :=
  let starting := bare_view "starting" (jopt JStr (m_rig m)) (jopt JBool (m_sim m)) jnull in
  match m_proc m with
  | Some pid =>
      if bool_decide (me_exit e = None) then
        match me_raw e with
        | Some raw =>
            let? p := jget "pid" raw in
            if pid_matches p pid
            then match raw with Obj o => view_of e o | _ => Raise OtherError end
            else Ok starting
        | None => Ok starting
        end
      else Ok (bare_view "down" jnull jnull (down_json (down_reason m)))
  | None => Ok (bare_view "down" jnull jnull (down_json (down_reason m)))
  end.

(** ** Life cycle *)

Definition set_proc (p : option Z) (m : manager) : manager :=
  Manager p (m_rig m) (m_sim m) (m_spawned_at m) (m_early_deaths m) (m_last_exit_code m) (m_gave_up m)
    (m_stdin m) (m_ops m).
Definition add_op (o : proc_op) (m : manager) : manager :=
  Manager (m_proc m) (m_rig m) (m_sim m) (m_spawned_at m) (m_early_deaths m) (m_last_exit_code m) (m_gave_up m)
    (m_stdin m) (m_ops m ++ [o]).
Definition add_line (pid : Z) (c : cmd) (m : manager) : manager :=
  Manager (m_proc m) (m_rig m) (m_sim m) (m_spawned_at m) (m_early_deaths m) (m_last_exit_code m) (m_gave_up m)
    (m_stdin m ++ [(pid, c)]) (m_ops m).
Definition set_deaths (n : Z) (code : option Z) (gave_up : bool) (m : manager) : manager :=
  Manager (m_proc m) (m_rig m) (m_sim m) (m_spawned_at m) n code gave_up (m_stdin m) (m_ops m).

Definition rearm (m : manager) : manager := set_deaths 0 None false m.

(** [_harvest_exit_locked]. *)
Definition harvest_exit (e : menv) (m : manager) : manager :=
  match m_proc m with
  | None => m
  | Some _ =>
      let uptime := fsub (me_now e) (m_spawned_at m) in
      let deaths := if flt uptime EARLY_DEATH_S then (m_early_deaths m + 1)%Z else 1%Z in
      set_deaths deaths (me_exit e) (m_gave_up m || (MAX_EARLY_DEATHS <=? deaths)%Z) (set_proc None m)
  end.

(** [_spawn_locked]: a failing [Popen] leaves the manager as it was. *)
Definition spawn_locked (e : menv) (rig : option string) (sim : bool) : ST manager unit :=
  pid ← st_lift (me_popen e);
  st_modify (fun m =>
    add_op (OpSpawn pid rig sim)
      (Manager (Some pid) rig (Some sim) (me_now e) (m_early_deaths m) (m_last_exit_code m) (m_gave_up m)
         (m_stdin m) (m_ops m))).

(** [_shutdown_locked]. *)
Definition shutdown_locked (e : menv) (m : manager) : manager :=
  match m_proc m with
  | None => m
  | Some pid =>
      let m := set_proc None m in
      match me_exit e with
      | Some _ => m
      | None =>
          let m := if me_stdin_ok e then add_line pid [("cmd", JStr "shutdown")] m else m in
          let m := add_op (OpCloseStdin pid) m in
          if me_in_grace e then m
          else
            let m := add_op (OpTerminate pid) m in
            if me_after_term e then m else add_op (OpKill pid) m
      end
  end.

Definition same_target (rig : option string) (sim : bool) (m : manager) : bool :=
  bool_decide (m_rig m = rig) && bool_decide (m_sim m = Some sim).

(** [ensure]. *)
Definition ensure (e : menv) (rig : option string) (sim : bool) : ST manager bool :=
  m ← st_get;
  if daemon_alive e m && same_target rig sim m then mret false
  else if daemon_alive e m then
    v ← st_lift (view e m);
    if run_active v then mret false
    else
      st_modify (shutdown_locked e);;
      st_modify rearm;;
      spawn_locked e rig sim;; mret true
  else
    st_modify (harvest_exit e);;
    m ← st_get;
    if negb (same_target rig sim m) then st_modify rearm;; spawn_locked e rig sim;; mret true
    else if m_gave_up m then mret false
    else if flt (fsub (me_now e) (m_spawned_at m)) RESPAWN_BACKOFF_S then mret false
    else spawn_locked e rig sim;; mret true.

(** [shutdown]. *)
Definition shutdown (e : menv) : ST manager unit := st_modify (fun m => rearm (shutdown_locked e m)).

(** ** Commands *)

Definition send_line (e : menv) (c : cmd) : ST manager bool :=
  m ← st_get;
  match m_proc m with
  | Some pid =>
      if daemon_alive e m && me_stdin_ok e then st_modify (add_line pid c);; mret true else mret false
  | None => mret false
  end.

(** [_send_run_cmd]'s dictionary. *)
Definition run_cmd (kind phase task : string) (policy host : option string) (port : option Z)
    (skill : option string) : cmd :=
  [("cmd", JStr kind); ("phase", JStr phase); ("task", JStr task)] ++
  match policy with Some p => [("policy", JStr p)] | None => [] end ++
  match host with Some h => [("host", JStr h)] | None => [] end ++
  match port with Some p => [("port", JInt p)] | None => [] end ++
  match skill with Some s => [("skill", JStr s)] | None => [] end.

Definition start_run (e : menv) (phase task : string) (policy host : option string) (port : option Z)
    (skill : option string) : ST manager bool := send_line e (run_cmd "start" phase task policy host port skill).
Definition switch_run (e : menv) (phase task : string) (policy host : option string) (port : option Z)
    (skill : option string) : ST manager bool := send_line e (run_cmd "switch" phase task policy host port skill).
Definition stop_run_cmd (e : menv) : ST manager bool := send_line e [("cmd", JStr "stop")].
Definition reconnect_arm (e : menv) (side : string) : ST manager bool :=
  send_line e [("cmd", JStr "reconnect_arm"); ("side", JStr side)].
Definition respawn_camera_cmd (e : menv) (name : string) : ST manager bool :=
  send_line e [("cmd", JStr "respawn_camera"); ("name", JStr name)].
Definition start_factr (e : menv) : ST manager bool := send_line e [("cmd", JStr "start_factr")].
Definition stop_factr (e : menv) : ST manager bool := send_line e [("cmd", JStr "stop_factr")].
Definition enable_grav_comp (e : menv) : ST manager bool := send_line e [("cmd", JStr "enable_grav_comp")].
Definition disable_grav_comp (e : menv) : ST manager bool := send_line e [("cmd", JStr "disable_grav_comp")].
Definition enable_force_feedback (e : menv) : ST manager bool := send_line e [("cmd", JStr "enable_force_feedback")].
Definition disable_force_feedback (e : menv) : ST manager bool := send_line e [("cmd", JStr "disable_force_feedback")].

(** ** [RunRegistry] *)

Definition PHASES : list string := ["collection"; "eval"; "skill"].
Definition OK_OUTCOMES : list string := ["saved"; "finished"; "stopped"].

Record RunRecord := MkRunRecord {
  rr_run_id : json * Z;             (* [f"{run_id}#{seq}"] *)
  rr_task : json;
  rr_phase : json;
  rr_rig : json;
  rr_started : json;
  rr_status : json;
}.

Record runs := Runs { ru_manager : manager; ru_history : list RunRecord; ru_seen_seq : Z }.

Definition run_registry : runs := Runs session_manager [] 0.

Definition question : json := jstr "?".

Definition active (v : SessionView) : option RunRecord :=
  if negb (run_active v) then None
  else Some (MkRunRecord (py_or (sv_run_id v) question, sv_run_seq v) (py_or (sv_task v) question)
               (py_or (sv_phase v) question) (py_or (sv_rig v) question) (py_or (sv_run_started_ts v) (jstr "—"))
               (jstr (if String.eqb (sv_state v) "saving" then "stopping" else "running"))).

Record alert := Alert {
  al_ok : bool; al_phase : json; al_outcome : json; al_run_id : Z; al_detail : json;
}.

(** [x in _OK_OUTCOMES]. *)
Definition ok_outcome (v : json) : res bool :=
  match v with
  | Scalar (JStr s) => Ok (bool_decide (s ∈ OK_OUTCOMES))
  | Scalar _ => Ok false
  | Arr _ | Obj _ => Raise TypeError
  end.

(** A method of the manager. *)
Definition on_manager {A} (m : ST manager A) : ST runs A := fun r =>
  let x := m (ru_manager r) in (Runs x.1 (ru_history r) (ru_seen_seq r), x.2).

Definition take_alert (e : menv) : ST runs (option alert) :=
  r ← st_get;
  v ← st_lift (view e (ru_manager r));
  let outcome := sv_last_outcome v in
  if negb (Json.truthy outcome) then mret None
  else
    s ← st_lift (jget "run_seq" outcome);
    seq ← st_lift (jint_of (py_or s (jint 0)));
    if (seq <=? ru_seen_seq r)%Z then mret None
    else
      st_modify (fun r => Runs (ru_manager r) (ru_history r) seq);;
      kind ← st_lift (jget "outcome" outcome);
      ok ← st_lift (ok_outcome kind);
      detail ← st_lift (jget "detail" outcome);
      task ← st_lift (jget "task" outcome);
      ph ← st_lift (jget "phase" outcome);
      st_modify (fun r => Runs (ru_manager r)
        (ru_history r ++ [MkRunRecord (py_or (sv_run_id v) question, seq) (py_or task question) (py_or ph question)
           (py_or (sv_rig v) question) (jfloat (me_wall e)) (py_or kind question)]) (ru_seen_seq r));;
      mret (Some (Alert ok ph kind seq (py_or detail (py_or kind (jstr "run ended"))))).

(** [view.rig and rig and view.rig != rig]. *)
Definition rig_conflict (v : SessionView) (rig : string) : bool :=
  Json.truthy (sv_rig v) && negb (bool_decide (rig = "")) &&
  match sv_rig v with Scalar (JStr s) => negb (bool_decide (s = rig)) | _ => true end.

(** [_check_launchable]. *)
Definition check_launchable (v : SessionView) (rig : string) (switching : bool) : res unit :=
  if run_active v && negb switching then Raise RuntimeError
  else if String.eqb (sv_state v) "down" then Raise RuntimeError
  else if String.eqb (sv_state v) "starting" then Raise RuntimeError
  else if rig_conflict v rig then Raise RuntimeError
  else Ok tt.

Definition sent_or_fail (m : ST manager bool) : ST runs unit :=
  on_manager m ≫= (fun ok : bool => if ok then mret tt else st_raise RuntimeError).

Definition dash_launch (e : menv) (task phase rig : string) (policy host : option string) (port : option Z)
    (switch : bool) : ST runs unit :=
  if negb (bool_decide (phase ∈ PHASES)) then st_raise ValueError
  else
    r ← st_get;
    v ← st_lift (view e (ru_manager r));
    st_lift (check_launchable v rig switch);;
    sent_or_fail ((if switch then switch_run else start_run) e phase task policy host port None).

Definition launch_skill (e : menv) (skill rig : string) : ST runs unit :=
  r ← st_get;
  v ← st_lift (view e (ru_manager r));
  st_lift (check_launchable v rig false);;
  sent_or_fail (start_run e "skill" "default" None None None (Some skill)).

Definition stop_active (e : menv) : ST runs unit := on_manager (stop_run_cmd e);; mret tt.

Definition reset (e : menv) : ST runs unit :=
  r ← st_get;
  v ← st_lift (view e (ru_manager r));
  (if run_active v then on_manager (stop_run_cmd e);; mret tt else mret tt);;
  st_modify (fun r => Runs (ru_manager r) [] (ru_seen_seq r)).
End client.

(** ** Lemmas *)

Section lemmas.
Context (fos : string -> option f64).

Lemma alive_proc e m : daemon_alive e m = true -> exists pid, m_proc m = Some pid /\ me_exit e = None.
Proof. unfold daemon_alive. destruct (m_proc m) as [pid|]; [|done]. intros ?%bool_decide_eq_true. eauto. Qed.

(** What [send] delivers. *)
Lemma send_cases e c m m' o : send_line e c m = (m', o) ->
  (o = Returned true /\ daemon_alive e m = true /\ exists pid, m_proc m = Some pid /\ m' = add_line pid c m) \/
  (o = Returned false /\ m' = m).
Proof.
  unfold send_line, mbind, st_bind, st_get. destruct (m_proc m) as [pid|] eqn:Ep; [|intros [= <- <-]; by right].
  destruct (daemon_alive e m) eqn:Ea; [|intros [= <- <-]; by right].
  destruct (me_stdin_ok e); intros [= <- <-]; [left; eauto|by right].
Qed.

Lemma sent_or_fail_cases e c r r' o : sent_or_fail (send_line e c) r = (r', o) ->
  (o = Returned tt /\ daemon_alive e (ru_manager r) = true /\
     exists pid, m_proc (ru_manager r) = Some pid /\ r' = Runs (add_line pid c (ru_manager r)) (ru_history r) (ru_seen_seq r)) \/
  (o = Raised RuntimeError /\ r' = r).
Proof.
  unfold sent_or_fail, mbind, st_bind, on_manager. destruct (send_line e c (ru_manager r)) as [m' o'] eqn:E.
  apply send_cases in E as [(-> & Ha & pid & Hp & ->)|[-> ->]]; cbn; intros [= <- <-].
  - left. eauto.
  - right. split; [done|]. by destruct r.
Qed.

(** A launchable view. *)
Lemma check_launchable_ok v rig switching : check_launchable v rig switching = Ok tt ->
  (switching = true \/ run_active v = false) /\ sv_state v <> "down" /\ sv_state v <> "starting" /\
  rig_conflict v rig = false.
Proof.
  unfold check_launchable. destruct (run_active v && negb switching) eqn:E1; [done|].
  destruct (String.eqb_spec (sv_state v) "down"); [done|].
  destruct (String.eqb_spec (sv_state v) "starting"); [done|].
  destruct (rig_conflict v rig) eqn:E2; [done|]. intros _. split_and!; try done.
  destruct switching; [by left|]. right. by rewrite andb_true_r in E1.
Qed.

Lemma check_launchable_error v rig switching e : check_launchable v rig switching = Raise e -> e = RuntimeError.
Proof. unfold check_launchable. repeat destruct (_ : bool); congruence. Qed.

(** ** Alerts *)

(** The alerts of a series of polls. *)
Fixpoint alerts (es : list menv) (r : runs) : list alert :=
  match es with
  | [] => []
  | e :: es =>
      let x := take_alert fos e r in
      match x.2 with Returned (Some a) => a :: alerts es x.1 | _ => alerts es x.1 end
  end.

(** One poll never moves the mark back, and an alert carries the new mark. *)
Lemma take_alert_seen e r : let x := take_alert fos e r in
  (ru_seen_seq r <= ru_seen_seq x.1)%Z /\
  forall a, x.2 = Returned (Some a) -> al_run_id a = ru_seen_seq x.1 /\ (ru_seen_seq r < ru_seen_seq x.1)%Z /\
    exists h, ru_history x.1 = ru_history r ++ [h] /\ rr_run_id h = ((rr_run_id h).1, al_run_id a).
Proof.
  cbn zeta. unfold take_alert, mbind, st_bind, st_get, st_lift, st_modify.
  destruct (view fos e (ru_manager r)) as [v|]; [|split; [done|discriminate]].
  destruct (negb (Json.truthy (sv_last_outcome v))); [split; [done|discriminate]|].
  destruct (jget "run_seq" (sv_last_outcome v)) as [s|]; [|split; [done|discriminate]].
  destruct (jint_of (py_or s (jint 0))) as [seq|]; [|split; [done|discriminate]].
  destruct (seq <=? ru_seen_seq r)%Z eqn:Es; [split; [done|discriminate]|].
  apply Z.leb_gt in Es.
  destruct (jget "outcome" (sv_last_outcome v)) as [kd|]; [|split; [cbn; lia|discriminate]].
  destruct (ok_outcome kd) as [ok|]; [|split; [cbn; lia|discriminate]].
  destruct (jget "detail" (sv_last_outcome v)) as [dt|]; [|split; [cbn; lia|discriminate]].
  destruct (jget "task" (sv_last_outcome v)) as [tk|]; [|split; [cbn; lia|discriminate]].
  destruct (jget "phase" (sv_last_outcome v)) as [ph|]; [|split; [cbn; lia|discriminate]].
  cbn. split; [lia|]. intros a [= <-]. cbn. split_and!; [done|lia|]. by eexists.
Qed.

Lemma alerts_above es r : Forall (fun a => (ru_seen_seq r < al_run_id a)%Z) (alerts es r).
Proof.
  revert r. induction es as [|e es IH]; intros r; [constructor|]. cbn [alerts].
  destruct (take_alert_seen e r) as [Hle Ha].
  assert (Forall (fun a => (ru_seen_seq r < al_run_id a)%Z) (alerts es (take_alert fos e r).1)) as Hrest.
  { eapply Forall_impl; [apply IH|]. cbn. intros a. lia. }
  destruct (take_alert fos e r).2 as [[a|]| |]; [|done..].
  constructor; [|done]. destruct (Ha a eq_refl) as (-> & ? & _). done.
Qed.

(** ** The crash loop *)

Definition is_spawn (o : proc_op) : bool := match o with OpSpawn _ _ _ => true | _ => false end.
Definition spawns (m : manager) : nat := length (List.filter is_spawn (m_ops m)).

(** The manager after a series of [ensure] calls for one target. *)
Definition ensures (rig : option string) (sim : bool) (es : list menv) (m : manager) : manager :=
  foldl (fun m e => (ensure fos e rig sim m).1) m es.

(** Along these calls, a daemon found dead was found within [_EARLY_DEATH_S] of its spawn. *)
Fixpoint boot_crashes (rig : option string) (sim : bool) (es : list menv) (m : manager) : Prop :=
  match es with
  | [] => True
  | e :: es =>
      (m_proc m <> None -> daemon_alive e m = false -> flt (fsub (me_now e) (m_spawned_at m)) EARLY_DEATH_S = true) /\
      boot_crashes rig sim es (ensure fos e rig sim m).1
  end.

(** While every death is early: spawns are harvested deaths plus the live daemon, and giving up is
    reaching the limit. *)
Record loop_inv (rig : option string) (sim : bool) (base : nat) (m : manager) : Prop := {
  li_spawns : (Z.of_nat (spawns m) = Z.of_nat base + m_early_deaths m + (match m_proc m with Some _ => 1 | None => 0 end))%Z;
  li_gave_up : m_gave_up m = (3 <=? m_early_deaths m)%Z;
  li_bound : (0 <= m_early_deaths m <= 3)%Z /\ (m_proc m <> None -> m_early_deaths m <= 2)%Z;
  li_target : same_target rig sim m = true \/ (m_early_deaths m = 0%Z /\ m_proc m = None);
}.

Lemma spawns_add o m : spawns (add_op o m) = spawns m + (if is_spawn o then 1 else 0).
Proof. unfold spawns. cbn. rewrite List.filter_app, length_app. cbn. by destruct (is_spawn o). Qed.

Lemma spawn_inv rig sim base e m :
  loop_inv rig sim base m -> m_proc m = None -> m_gave_up m = false ->
  loop_inv rig sim base (spawn_locked e rig sim m).1.
Proof.
  intros [Hs Hg [Hb Hb'] Ht] Hp Hgu. unfold spawn_locked, mbind, st_bind, st_lift.
  destruct (me_popen e) as [pid|]; [|by constructor]. cbn [st_modify fst].
  rewrite Hgu in Hg. symmetry in Hg. apply Z.leb_gt in Hg. rewrite Hp in Hs.
  constructor; cbn [m_early_deaths m_gave_up m_proc add_op].
  - rewrite spawns_add. cbn [is_spawn]. unfold spawns in *. cbn [m_ops] in *. lia.
  - rewrite Hgu. symmetry. apply Z.leb_gt. lia.
  - split; [lia|]. intros _. lia.
  - left. unfold same_target. cbn. by rewrite !bool_decide_true.
Qed.

Lemma harvest_inv rig sim base e m : loop_inv rig sim base m ->
  (m_proc m <> None -> flt (fsub (me_now e) (m_spawned_at m)) EARLY_DEATH_S = true) ->
  loop_inv rig sim base (harvest_exit e m) /\ m_proc (harvest_exit e m) = None.
Proof.
  intros HI He. pose proof HI as [Hs Hg [Hb Hb'] Ht]. unfold harvest_exit.
  destruct (m_proc m) as [pid|] eqn:Ep; [|by split]. split; [|done]. rewrite He by done.
  specialize (Hb' ltac:(done)). rewrite Hg.
  replace (3 <=? m_early_deaths m)%Z with false by (symmetry; apply Z.leb_gt; lia).
  constructor; cbn [m_early_deaths m_gave_up m_proc set_deaths set_proc].
  - unfold spawns in *. cbn [m_ops set_deaths set_proc]. lia.
  - done.
  - split; [lia|done].
  - destruct Ht as [Ht|[_ ?]]; [|done]. left. done.
Qed.

Lemma rearm_inv rig sim base m : loop_inv rig sim base m -> m_proc m = None -> m_early_deaths m = 0%Z ->
  loop_inv rig sim base (rearm m).
Proof.
  intros [Hs Hg Hb Ht] Hp He. rewrite Hp, He in Hs. constructor; cbn; rewrite ?Hp.
  - unfold spawns in *. cbn. lia.
  - done.
  - split; [lia|done].
  - right. done.
Qed.

Lemma then_true_fst e rig sim m : ((spawn_locked e rig sim;; mret true) m).1 = (spawn_locked e rig sim m).1.
Proof. unfold mbind, st_bind. by destruct (spawn_locked e rig sim m) as [m' [?|?|]]. Qed.

Lemma ensure_inv rig sim base e m : loop_inv rig sim base m ->
  (m_proc m <> None -> daemon_alive e m = false -> flt (fsub (me_now e) (m_spawned_at m)) EARLY_DEATH_S = true) ->
  loop_inv rig sim base (ensure fos e rig sim m).1.
Proof.
  intros HI He. unfold ensure. unfold mbind at 1, st_bind at 1, st_get at 1.
  destruct (daemon_alive e m) eqn:Ea; cbn [andb].
  - destruct (same_target rig sim m) eqn:Et; [done|]. exfalso.
    apply alive_proc in Ea as (pid & Hp & _). destruct HI as [_ _ _ [Ht|[_ Ht]]]; congruence.
  - destruct (harvest_inv rig sim base e m HI (fun H => He H eq_refl)) as [HI' Hp].
    unfold mbind at 1, st_bind at 1, st_modify at 1. unfold mbind at 1, st_bind at 1, st_get at 1.
    set (m1 := harvest_exit e m) in *. destruct (same_target rig sim m1) eqn:Et; cbn [negb].
    + destruct (m_gave_up m1) eqn:Eg; [done|]. destruct (flt _ RESPAWN_BACKOFF_S); [done|].
      rewrite then_true_fst. by apply spawn_inv.
    + assert (m_early_deaths m1 = 0%Z) as H0 by (destruct HI' as [_ _ _ [?|[? _]]]; congruence).
      unfold mbind at 1, st_bind at 1, st_modify at 1. rewrite then_true_fst.
      apply spawn_inv; [by apply rearm_inv|done|done].
Qed.
End lemmas.

(** ** Theorems *)

(** a crash loop is bounded.  A manager that holds no daemon and has no counted deaths, asked
    any number of times for the same rig while every daemon it finds dead died within
    [_EARLY_DEATH_S] of its spawn, spawns at most [_MAX_EARLY_DEATHS] daemons; and once that many
    died it has given up, and further calls spawn nothing. *)
Theorem crash_loop_bounded (fos : string -> option f64) (rig : option string) (sim : bool) (es : list menv)
    (m : manager)
    (Hproc : m_proc m = None) (Hdeaths : m_early_deaths m = 0%Z) (Hgave : m_gave_up m = false)
    (Hboot : boot_crashes fos rig sim es m) :
  spawns (ensures fos rig sim es m) <= spawns m + 3 /\
  (m_early_deaths (ensures fos rig sim es m) = 3%Z ->
     m_gave_up (ensures fos rig sim es m) = true /\
     forall e, ensure fos e rig sim (ensures fos rig sim es m) = (ensures fos rig sim es m, Returned false)).
Proof.
  assert (loop_inv rig sim (spawns m) m) as HI.
  { constructor; rewrite ?Hproc, ?Hdeaths; [lia|done|split; [lia|done]|by right]. }
  assert (loop_inv rig sim (spawns m) (ensures fos rig sim es m)) as HI'.
  { clear Hproc Hdeaths Hgave. revert HI. generalize (spawns m). intros base HI. revert m HI Hboot.
    induction es as [|e es IH]; intros m HI Hboot; [done|]. destruct Hboot as [He Hboot].
    apply IH; [by apply ensure_inv|done]. }
  set (m' := ensures fos rig sim es m) in *. destruct HI' as [Hs Hg [Hb Hb'] Ht]. split.
  - destruct (m_proc m'); [specialize (Hb' ltac:(done))|]; lia.
  - intros H3. rewrite H3 in Hg. split; [done|]. intros e.
    assert (m_proc m' = None) as Hp by (destruct (m_proc m'); [specialize (Hb' ltac:(done)); lia|done]).
    assert (same_target rig sim m' = true) as Htt by (destruct Ht as [?|[? _]]; [done|lia]).
    assert (daemon_alive e m' = false) as Ha by (unfold daemon_alive; by rewrite Hp).
    assert (harvest_exit e m' = m') as Hh by (unfold harvest_exit; by rewrite Hp).
    unfold ensure, mbind, st_bind, st_get, st_modify. rewrite Ha. cbn [andb]. rewrite Hh, Htt. cbn [negb].
    by rewrite Hg.
Qed.

Definition crash_env (t : Z) : menv := MEnv (Some 1%Z) (f_of_Z t) (f_of_Z t) None (Ok 100%Z) true true true.
Definition crash_tape : list menv := crash_env <$> [0; 11; 22; 33; 44]%Z.

Lemma crash_loop_bounded_witness :
  spawns (ensures (fun _ => None) (Some "bimanual") false crash_tape session_manager) = 3 /\
  m_gave_up (ensures (fun _ => None) (Some "bimanual") false crash_tape session_manager) = true.
Proof.
  destruct (crash_loop_bounded (fun _ => None) (Some "bimanual") false crash_tape session_manager) as [_ H].
  - reflexivity.
  - reflexivity.
  - reflexivity.
  - vm_compute. repeat split; intros; reflexivity.
  - split; [vm_compute; reflexivity|]. apply H. vm_compute. reflexivity.
Defined.

(** reconfiguring never kills a run.  While the daemon is alive and its state file shows a run
    (recording, rolling out, replaying or saving), asking for another rig or another simulation
    mode does nothing; and whenever [ensure] stops or replaces a live daemon, the target differs
    and the view showed no run. *)
Theorem ensure_spares_runs (fos : string -> option f64) (e : menv) (rig : option string) (sim : bool) (m : manager)
    (Halive : daemon_alive e m = true) :
  (forall v, view fos e m = Ok v -> run_active v = true -> ensure fos e rig sim m = (m, Returned false)) /\
  (forall m' o, ensure fos e rig sim m = (m', o) -> m' <> m ->
     same_target rig sim m = false /\ exists v, view fos e m = Ok v /\ run_active v = false).
Proof.
  unfold ensure, mbind, st_bind, st_get, st_lift. rewrite Halive. cbn [andb].
  destruct (same_target rig sim m) eqn:Et; [split; [done|by intros m' o [= <- _]]|].
  destruct (view fos e m) as [v|]; [|split; [done|by intros m' o [= <- _]]].
  destruct (run_active v) eqn:Ev.
  - split; [done|]. by intros m' o [= <- _].
  - split; [intros v' [= <-]; congruence|]. intros m' o _ _. split; [done|]. by exists v.
Qed.

Definition run_env (state : string) : menv :=
  MEnv None (f_of_Z 100) (f_of_Z 1000)
    (Some (Obj [("pid", jint 7); ("heartbeat_ts", jint 999); ("state", jstr state); ("rig", jstr "bimanual")]))
    (Ok 8%Z) true true true.
Definition held_manager : manager := Manager (Some 7%Z) (Some "bimanual") (Some false) f0 0 None false [] [].

Lemma ensure_spares_runs_witness :
  ensure (fun _ => None) (run_env "saving") (Some "left_only") false held_manager = (held_manager, Returned false).
Proof.
  destruct (view (fun _ => None) (run_env "saving") held_manager) as [v|] eqn:E; [|vm_compute in E; discriminate].
  apply (ensure_spares_runs (fun _ => None) (run_env "saving") (Some "left_only") false held_manager eq_refl) with v;
    [exact E|]. vm_compute in E. injection E as <-. reflexivity.
Defined.

(** every run outcome is surfaced once.  Over any series of polls of the state file, the alerts
    carry strictly increasing run numbers, all above the last one already seen. *)
Theorem alerts_once (fos : string -> option f64) (es : list menv) (r : runs) :
  Sorted Z.lt (ru_seen_seq r :: (al_run_id <$> alerts fos es r)).
Proof.
  revert r. induction es as [|e es IH]; intros r; [by repeat constructor|]. cbn [alerts].
  destruct (take_alert_seen fos e r) as [Hle Ha].
  assert (Sorted Z.lt (ru_seen_seq r :: (al_run_id <$> alerts fos es (take_alert fos e r).1))) as Hrest.
  { specialize (IH (take_alert fos e r).1). apply Sorted_inv in IH as [H1 _]. constructor; [done|].
    pose proof (alerts_above fos es (take_alert fos e r).1) as Hab.
    destruct (alerts fos es (take_alert fos e r).1) as [|a l]; [constructor|].
    apply Forall_cons in Hab as [Hab _]. rewrite fmap_cons. constructor. lia. }
  destruct (take_alert fos e r).2 as [[a|]| |]; [|done..].
  destruct (Ha a eq_refl) as (Hid & Hlt & _). rewrite fmap_cons. constructor; [|constructor; by rewrite Hid].
  rewrite Hid. apply IH.
Qed.

(** An option that is not given, or is a plain name. *)
Definition plain_option (o : option string) : bool := match o with Some s => plain_name (JStr s) | None => true end.

(** What the daemon makes of a line the dashboard sends. *)
Lemma run_cmd_verdict kind phase task policy host port : phase = "collection" \/ phase = "eval" -> task <> "" ->
  (forall p, port = Some p -> port_ok (JInt p) = true) ->
  validate_start (run_cmd kind phase task policy host port None) =
    if plain_option host then if plain_option policy then None else Some BadPolicy else Some BadHost.
Proof.
  intros Hp2 Ht Hport. unfold validate_start, task_of, is_skill.
  assert (String.eqb task "" = false) as Htask by (by destruct (String.eqb_spec task "")).
  assert (get "policy" (run_cmd kind phase task policy host port None) =
    match policy with Some p => JStr p | None => JNull end /\
    get "host" (run_cmd kind phase task policy host port None) =
    match host with Some p => JStr p | None => JNull end /\
    get "port" (run_cmd kind phase task policy host port None) =
    match port with Some p => JInt p | None => JNull end /\
    get "skill" (run_cmd kind phase task policy host port None) = JNull)
    as (-> & -> & -> & ->) by (by destruct policy, host, port).
  change (get "phase" (run_cmd _ phase task policy host port None)) with (JStr phase).
  change (get "task" (run_cmd _ phase task policy host port None)) with (JStr task).
  assert (bool_decide (phase_of (JStr phase) = None) = false /\
          bool_decide (phase_of (JStr phase) = Some SKILL) = false) as [-> ->] by (by destruct Hp2 as [-> | ->]).
  cbn [Session.truthy andb orb]. rewrite Htask. cbn [negb is_none]. unfold is_none.
  destruct port as [p|]; [rewrite (Hport p eq_refl)|]; cbn [is_none bool_decide negb andb plain_option];
    (destruct host as [hh|]; cbn [plain_option];
      [change (bool_decide (JStr hh = JNull)) with false; destruct (plain_name (JStr hh)); cbn [negb andb]|]; try done);
    (destruct policy as [pp|]; cbn [plain_option];
      [change (bool_decide (JStr pp = JNull)) with false; by destruct (plain_name (JStr pp))|done]).
Qed.

Lemma run_cmd_valid kind phase task policy host port : phase = "collection" \/ phase = "eval" -> task <> "" ->
  (forall p, policy = Some p -> plain_name (JStr p) = true) -> (forall h, host = Some h -> plain_name (JStr h) = true) ->
  (forall p, port = Some p -> port_ok (JInt p) = true) -> validate_start (run_cmd kind phase task policy host port None) = None.
Proof.
  intros Hp2 Ht Hpol Hhost Hport. rewrite run_cmd_verdict by done. unfold plain_option.
  destruct host as [h|]; [rewrite (Hhost h eq_refl)|]; (destruct policy as [p|]; [by rewrite (Hpol p eq_refl)|done]).
Qed.

(** what a launch sends.  A launch that succeeds delivered exactly one line, to the live daemon:
    the start (or switch) command for a known phase, while the state file showed a session that is
    up, with no run in progress unless a switch was asked for, and no other rig; and the daemon's own
    validation accepts that line whenever the task is named and the optional policy, host and port are
    well formed.  A launch that is refused sends nothing. *)
Theorem launch_gated (fos : string -> option f64) (e : menv) (task phase rig : string)
    (policy host : option string) (port : option Z) (switch : bool) (r r' : runs) (o : outcome unit)
    (Hrun : dash_launch fos e task phase rig policy host port switch r = (r', o)) :
  match o with
  | Returned _ =>
      exists pid v, let c := run_cmd (if switch then "switch" else "start") phase task policy host port None in
        m_proc (ru_manager r) = Some pid /\ daemon_alive e (ru_manager r) = true /\
        m_stdin (ru_manager r') = m_stdin (ru_manager r) ++ [(pid, c)] /\
        view fos e (ru_manager r) = Ok v /\ (switch = true \/ run_active v = false) /\
        sv_state v <> "down" /\ sv_state v <> "starting" /\ rig_conflict v rig = false /\
        phase ∈ PHASES /\
        (phase <> "skill" -> task <> "" -> (forall p, policy = Some p -> plain_name (JStr p) = true) ->
         (forall h, host = Some h -> plain_name (JStr h) = true) ->
         (forall p, port = Some p -> port_ok (JInt p) = true) -> validate_start c = None)
  | Raised _ => r' = r
  | Running => False
  end.
Proof.
  unfold dash_launch in Hrun. case_bool_decide as Hph; cbn [negb] in Hrun; [|by injection Hrun as <- <-].
  unfold mbind, st_bind, st_get, st_lift in Hrun.
  destruct (view fos e (ru_manager r)) as [v|] eqn:Ev; [|by injection Hrun as <- <-].
  destruct (check_launchable v rig switch) as [[]|] eqn:Ec; [|by injection Hrun as <- <-].
  assert (sent_or_fail (send_line e (run_cmd (if switch then "switch" else "start") phase task policy host port None)) r =
    (r', o)) as Hs by (by destruct switch). clear Hrun.
  apply sent_or_fail_cases in Hs as [(-> & Ha & pid & Hp & ->)|[-> ->]]; [|done].
  exists pid, v. cbn zeta. apply check_launchable_ok in Ec as (H1 & H2 & H3 & H4).
  split_and!; try done. intros Hns Ht Hpol Hhost Hport. apply run_cmd_valid; try done. unfold PHASES in Hph. set_solver.
Qed.

Lemma launch_gated_witness : exists r',
  dash_launch (fun _ => None) (run_env "viewing") "fold" "collection" "bimanual" None None None false
    (Runs held_manager [] 0) = (r', Returned tt) /\
  m_stdin (ru_manager r') = [(7%Z, run_cmd "start" "collection" "fold" None None None None)].
Proof.
  destruct (dash_launch (fun _ => None) (run_env "viewing") "fold" "collection" "bimanual" None None None false
    (Runs held_manager [] 0)) as [r' o] eqn:E.
  assert (o = Returned tt) as -> by (vm_compute in E; congruence).
  exists r'. split; [reflexivity|].
  destruct (launch_gated (fun _ => None) (run_env "viewing") "fold" "collection" "bimanual" None None None false
    (Runs held_manager [] 0) r' (Returned tt) E) as (pid & v & Hp & _ & Hs & _).
  rewrite Hs. cbn in Hp. injection Hp as <-. reflexivity.
Defined.

(** One death after a long life and two boot crashes are enough to give up, although only two early
    deaths happened in a row: a late death starts the count at one. *)
Lemma late_death_counts :
  m_gave_up (ensures (fun _ => None) (Some "bimanual") false
    (crash_env <$> [0; 1000; 1011; 1022]%Z) session_manager) = true.
Proof. vm_compute. reflexivity. Qed.
