(* ===== verification/SessionIO.v ===== *)
(** * The session daemon at its edges

    Models what [session.py] has around the daemon of [Session]: the standard-input listener and the
    signal handlers that fill the command queue, the state file [session.json] written in steps that
    other processes interleave with, its reader, the whole of [serve], and [main] with its test for
    another session.  A line of input and the content of a file are JSON documents, or text that
    [json.loads] refuses; the texts of operator messages are a parameter. *)

From Stdlib Require Import String Ascii Relations.
From S2P Require Import Prelude Float64 Ring Streams Text Orphans FactrLaunch System Session SessionSafety Json Dashboard.
Local Open Scope string_scope.
Local Open Scope nat_scope.
Local Open Scope list_scope.

(** ** Commands *)

(** A line of standard input. *)
Inductive stdin_line := Blank | Garbled | Line (v : json).

Definition document := list (string * json).

Definition parse_command (l : stdin_line) : option document :=
  match l with
  | Line (Obj o) => match dget "cmd" o with Some (Scalar (JStr _)) => Some o | _ => None end
  | _ => None
  end.

Definition shutdown_cmd : document := [("cmd", jstr "shutdown")].

(** What fills the queue: a line, the end of the input, or a signal; and the daemon's
    [get_nowait]. *)
Inductive intake := InLine (l : stdin_line) | InEof | InSignal | InGet.

Record queue_state := Queue {
  q_items : list document;
  q_open : bool;                (* the listener still reads *)
  q_got : list document;        (* what the daemon took, oldest first *)
}.

Definition empty_queue : queue_state := Queue [] true [].

Definition put (c : document) (q : queue_state) : queue_state := Queue (q_items q ++ [c]) (q_open q) (q_got q).

(** [_listen]: one line, or the end of the input, after which it reads no more. *)
Definition listen (l : option stdin_line) (q : queue_state) : queue_state :=
  if q_open q then
    match l with
    | Some l => match parse_command l with Some c => put c q | None => q end
    | None => let q := put shutdown_cmd q in Queue (q_items q) false (q_got q)
    end
  else q.

(** The handler of SIGINT and SIGTERM. *)
Definition handle_signal (q : queue_state) : queue_state := put shutdown_cmd q.

(** [get_nowait]; nothing happens when the queue is empty. *)
Definition get_nowait (q : queue_state) : queue_state :=
  match q_items q with
  | [] => q
  | c :: l => Queue l (q_open q) (q_got q ++ [c])
  end.

Definition intake_step (i : intake) (q : queue_state) : queue_state :=
  match i with
  | InLine l => listen (Some l) q
  | InEof => listen None q
  | InSignal => handle_signal q
  | InGet => get_nowait q
  end.

Definition intake_run (l : list intake) : queue_state := foldl (fun q i => intake_step i q) empty_queue l.

(** A command as the handlers of [Session] read it: every value a scalar. *)
Definition scalar_of (v : json) : option jval := match v with Scalar v => Some v | _ => None end.
Definition as_cmd (o : document) : option cmd :=
  mapM (fun x : string * json => v ← scalar_of x.2; Some (x.1, v)) o.

(** [json.dumps(cmd)] as the dashboard writes it. *)
Definition document_of (c : cmd) : document := (fun x : string * jval => (x.1, Scalar x.2)) <$> c.
Definition line_of (c : cmd) : stdin_line := Line (Obj (document_of c)).

(** ** The state document *)

Definition mode_name (m : mode) : string :=
  match m with VIEWING => "viewing" | InPhase p => phase_name p | SAVING => "saving" end.

Definition outcome_name (k : outcome_kind) : string :=
  match k with
  | Saved => "saved" | Stopped => "stopped" | Finished => "finished"
  | StoppedError => "stopped-error" | Crashed => "crashed"
  end.

Definition sup_state_name (s : sup_state) : string :=
  match s with OFF => "off" | COUNTDOWN => "countdown" | RUNNING => "running" | STOPPING => "stopping" end.

Definition unit_status_name (u : unit_status) : string :=
  match u with UState s => sup_state_name s | UDown => "down" end.

(** The fields of [SessionState] that never change, and the constants of the supervisor's status. *)
Record session_ids := Ids {
  id_pid : Z; id_run : string; id_rig : string; id_sim : bool;
  id_countdown_total : f64; id_calib_pose : json; id_logs : json;
}.

Section state_file.
Context (text : message -> string) (detail : run_outcome -> string).

(** [last_outcome]. *)
Definition outcome_json (r : run_outcome) : json :=
  Obj [("run_seq", jint (Z.of_nat (ro_seq r))); ("phase", jstr (phase_name (ro_phase r)));
       ("task", Scalar (ro_task r)); ("outcome", jstr (outcome_name (ro_kind r)));
       ("exitcode", jopt JInt (ro_exitcode r)); ("detail", jstr (detail r))].

Definition pending_json (p : jval * jval * jval) : json :=
  Obj [("phase", Scalar p.1.1); ("task", Scalar p.1.2); ("skill", Scalar p.2)].

(** The supervisor's [status()]. *)
Definition servers_json (k : session_ids) (s : sup_status) : json :=
  Obj [("state", jstr (sup_state_name (ss_state s)));
       ("countdown_ends_ts", jopt JFloat (ss_countdown_ends s));
       ("countdown_total_s", jfloat (id_countdown_total k));
       ("units", Obj ((fun u : string * unit_status => (u.1, jstr (unit_status_name u.2))) <$> ss_units s));
       ("down", Arr (jstr <$> sorted (ss_down s)));
       ("calib_pose", id_calib_pose k); ("logs", id_logs k)].

Definition or_null {A} (f : A -> json) (o : option A) : json := match o with Some a => f a | None => jnull end.

(** [asdict(state)], in the order of the fields. *)
Definition asdict (k : session_ids) (beat : f64) (s : SessionState) : document :=
  [("pid", jint (id_pid k)); ("run_id", jstr (id_run k)); ("rig", jstr (id_rig k)); ("sim", Scalar (JBool (id_sim k)));
   ("state", jstr (mode_name (ss_mode s))); ("task", or_null Scalar (ss_task s));
   ("phase", or_null (jstr ∘ phase_name) (ss_phase s)); ("run_seq", jint (Z.of_nat (ss_run_seq s)));
   ("run_started_ts", or_null jfloat (ss_started s)); ("heartbeat_ts", jfloat beat);
   ("message", or_null (jstr ∘ text) (ss_message s)); ("last_outcome", or_null outcome_json (ss_last s));
   ("cameras_down", Arr (jstr <$> ss_cameras_down s)); ("arms_down", Arr (jstr <$> ss_arms_down s));
   ("pending", or_null pending_json (ss_pending s)); ("factr_servers", or_null (servers_json k) (ss_servers s))].

(** ** The state file *)

(** What a file holds: a document, or text cut short. *)
Inductive content := Doc (v : json) | Torn.

Record files := Files {
  f_dir : bool;                 (* the runtime directory exists *)
  f_tmp : option content;       (* session.json.tmp *)
  f_state : option content;     (* session.json *)
}.

(** [read_state]: absent and torn files read as nothing. *)
Definition read_state (f : files) : option json :=
  match f_state f with Some (Doc v) => Some v | _ => None end.

(** The steps of [StateFile.write] that other processes can see. *)
Inductive stage := MakeDirs | OpenTmp | DumpTmp | CloseTmp | ReplaceFile.

(** One of them: the files, and the steps that may follow. *)
Definition write_step (st : stage) (v : document) (f : files) : files * list stage :=
  match st with
  | MakeDirs => (Files true (f_tmp f) (f_state f), [OpenTmp])
  | OpenTmp => (Files (f_dir f) (Some Torn) (f_state f), [DumpTmp])
  | DumpTmp => (f, [DumpTmp; CloseTmp])
  | CloseTmp => (Files (f_dir f) (Some (Doc (Obj v))) (f_state f), [ReplaceFile])
  | ReplaceFile => (Files (f_dir f) None (f_tmp f), [])
  end.

(** [StateFile.remove]. *)
Definition remove_file (f : files) : files := Files (f_dir f) (f_tmp f) None.

(** The daemon, its files and the write in progress, if any: the step it is at, the daemon as it was
    when the write began, and the heartbeat it stamped.  [s_pub] is what was last put in place. *)
Record sys := Sys {
  s_daemon : daemon;
  s_files : files;
  s_pc : option (stage * daemon * f64);
  s_pub : option (daemon * f64);
  s_alive : bool;
}.

(** What other processes do to the daemon's world, also during a write. *)
Definition external (o : op) : bool :=
  match o with OpExits _ | OpWorld _ | OpTake _ => true | _ => false end.

Definition is_write (o : op) : bool := match o with OpWrite => true | _ => false end.

Definition next_pc (d0 : daemon) (b : f64) (st : stage) : option (stage * daemon * f64) := Some (st, d0, b).

Inductive sys_step (k : session_ids) : sys -> sys -> Prop :=
  | step_op o d d' f pub :
      is_write o = false -> run_op o d = (d', Returned tt) ->
      sys_step k (Sys d f None pub true) (Sys d' f None pub true)
  | step_external o d d' f pc pub :
      external o = true -> run_op o d = (d', Returned tt) ->
      sys_step k (Sys d f pc pub true) (Sys d' f pc pub true)
  | step_begin d f pub beat :
      sys_step k (Sys d f None pub true) (Sys d f (Some (MakeDirs, d, beat)) pub true)
  | step_write d f st d0 b pub st' :
      st' ∈ (write_step st (asdict k b (d_state d0)) f).2 ->
      sys_step k (Sys d f (Some (st, d0, b)) pub true)
        (Sys d (write_step st (asdict k b (d_state d0)) f).1 (next_pc d0 b st') pub true)
  | step_replace d d' f d0 b pub :
      run_op OpWrite d = (d', Returned tt) ->
      sys_step k (Sys d f (Some (ReplaceFile, d0, b)) pub true)
        (Sys d' (write_step ReplaceFile (asdict k b (d_state d0)) f).1 None (Some (d0, b)) true)
  | step_end d d' f pub w1 w2 w3 e fes :
      teardown w1 w2 w3 e fes d = Some (d', Ok tt) ->
      sys_step k (Sys d f None pub true) (Sys d' (remove_file f) None None false)
  | step_die d f pc pub : sys_step k (Sys d f pc pub true) (Sys d f pc pub false).

(** A booted daemon about to write its first state, in a directory where an earlier one may have
    left files of its own. *)
Inductive sys_init (k : session_ids) (f : files) : sys -> Prop :=
  | init_boot e c overrides next o w d d' beat :
      daemon_init (e_fenv e) c overrides (id_run k) next o w = Ok d ->
      NoDup (dkeys (cf_arms c)) ->
      serve_start e d = (d', Returned tt) ->
      sys_init k f (Sys d' f (Some (MakeDirs, d', beat)) None true).

Inductive sys_reach (k : session_ids) (f : files) : sys -> Prop :=
  | sys_boot s : sys_init k f s -> sys_reach k f s
  | sys_next s s' : sys_reach k f s -> sys_step k s s' -> sys_reach k f s'.
End state_file.

(** ** The serving loop *)

(** What one turn sees: the commands the queue held, the outside, and the host of the sweep. *)
Record turn := Turn { tn_cmds : list (env * cmd); tn_env : env; tn_host : Orphans.env }.

Fixpoint serve_loop (l : list turn) (k : clocks) : D unit :=
  match l with
  | [] => st_running
  | t :: l =>
      r ← serve_tick (tn_cmds t) (tn_env t) (tn_host t) k;
      match r with Some k => serve_loop l k | None => mret tt end
  end.

(** What the teardown sees. *)
Record closing := Closing { cl_consumer : waits; cl_hw1 : waits; cl_hw2 : waits; cl_env : env; cl_beats : list fenv }.

(** [serve]: the loop with [_teardown] in its [finally].  [_fatal] is set by a shutdown alone, so the
    exit code of a loop that was left is zero. *)
Definition serve (e : env) (l : list turn) (c : closing) : D Z := fun d =>
  match serve_start e d with
  | (d, Raised x) => (d, Raised x)
  | (d, Running) => (d, Running)
  | (d, Returned _) =>
      let r := serve_loop l (Clocks (e_now e) f0 f0 (e_now e)) d in
      match r.2 with
      | Running => (r.1, Running)
      | o =>
          match teardown (cl_consumer c) (cl_hw1 c) (cl_hw2 c) (cl_env c) (cl_beats c) r.1 with
          | None => (r.1, Running)
          | Some (d, Raise x) => (d, Raised x)
          | Some (d, Ok _) => (d, match o with Raised x => Raised x | _ => Returned 0%Z end)
          end
      end
  end.

(** ** The entry point *)

Definition MIN_PID : Z := -2147483648.

(** [_pid_alive]: [os.kill(int(pid), 0)]; a process of another user raises [PermissionError], an
    [OSError]. *)
Definition session_pid_alive (probe_of : Z -> probe) (pid : json) : res bool :=
  if negb (Json.truthy pid) then Ok false
  else
    match jint_of pid with
    | Raise ValueError => Ok false
    | Raise x => Raise x
    | Ok pid =>
        if (pid <? MIN_PID)%Z || (MAX_PID <? pid)%Z then Raise OverflowError
        else Ok (match probe_of pid with Delivered => true | NoSuchProcess | NotPermitted => false end)
    end.

(** The test of [main] for another session. *)
Definition session_free (probe_of : Z -> probe) (existing : option json) : res unit :=
  match existing with
  | None => Ok tt
  | Some v =>
      if negb (Json.truthy v) then Ok tt
      else let? pid := jget "pid" v in
           let? a := session_pid_alive probe_of pid in
           if a then Raise SystemExit else Ok tt
  end.

(** [main]: the sweep of boot, the daemon, and its serving; what is left of the host, and the exit. *)
Definition session_main (probe_of : Z -> probe) (f : files) (oe : Orphans.env) (h : Orphans.host)
    (e : env) (cfg : res Config) (overrides : list string) (run_id : string) (next : nat) (o : os)
    (l : list turn) (c : closing) : Orphans.host * outcome Z :=
  match cfg with
  | Raise x => (h, Raised x)
  | Ok cfg =>
      match session_free probe_of (read_state f) with
      | Raise x => (h, Raised x)
      | Ok _ =>
          match Orphans.sweep oe [] true h with
          | (h, Returned _) =>
              match daemon_init (e_fenv e) cfg overrides run_id next o (Orphans.h_world h) with
              | Raise x => (h, Raised x)
              | Ok d => let r := serve e l c d in (Orphans.Host (d_world r.1) (Orphans.h_sent h), r.2)
              end
          | (h, Raised x) => (h, Raised x)
          | (h, Running) => (h, Running)
          end
      end
  end.

(** ** Lemmas: the queue *)

(** What an event puts in the queue while the listener reads. *)
Definition puts (i : intake) : list document :=
  match i with
  | InLine l => match parse_command l with Some c => [c] | None => [] end
  | InEof | InSignal => [shutdown_cmd]
  | InGet => []
  end.

(** Everything put, in order: after the end of the input only signals still put. *)
Fixpoint all_puts (reading : bool) (l : list intake) : list document :=
  match l with
  | [] => []
  | i :: l =>
      match i with
      | InSignal => puts i ++ all_puts reading l
      | InEof => (if reading then puts i else []) ++ all_puts false l
      | _ => (if reading then puts i else []) ++ all_puts reading l
      end
  end.

Lemma intake_fifo l q :
  let q' := foldl (fun q i => intake_step i q) q l in
  q_got q' ++ q_items q' = q_got q ++ q_items q ++ all_puts (q_open q) l.
Proof.
  revert q. induction l as [|i l IH]; intros q; simpl; [by rewrite app_nil_r|]. rewrite IH.
  destruct q as [its op got]. destruct i as [s| | |]; unfold intake_step, listen, handle_signal, get_nowait, put; cbn.
  - destruct op; cbn; [|done]. destruct (parse_command s); cbn; [|done]. by rewrite <-!app_assoc.
  - destruct op; cbn; [|done]. by rewrite <-!app_assoc.
  - by rewrite <-!app_assoc.
  - destruct its; cbn; [by destruct op|]. destruct op; by rewrite <-?app_assoc.
Qed.

Lemma parse_line_of c s : get "cmd" c = JStr s -> parse_command (line_of c) = Some (document_of c).
Proof.
  intros H. unfold line_of, parse_command.
  assert (dget "cmd" (document_of c) = Scalar <$> dget "cmd" c) as ->.
  { clear H. induction c as [|[k v] c IH]; [done|]. cbn. by destruct (decide ("cmd" = k)). }
  unfold get in H. destruct (dget "cmd" c); cbn in *; [|done]. by subst.
Qed.

Lemma as_cmd_document c : as_cmd (document_of c) = Some c.
Proof.
  induction c as [|[k v] c IH]; [done|]. unfold as_cmd, document_of in *. rewrite fmap_cons. cbn. by rewrite IH.
Qed.

(** Every command the dashboard writes names itself. *)
Definition named (c : cmd) : Prop := exists s, get "cmd" c = JStr s.

Lemma puts_lines (cs : list cmd) (l : list intake) : Forall named cs ->
  (forall i, i ∈ l -> i = InGet \/ exists s, i = InLine s) ->
  omap (fun i => match i with InLine s => Some s | _ => None end) l = line_of <$> cs ->
  all_puts true l = document_of <$> cs.
Proof.
  intros Hn Hl. revert cs Hn. induction l as [|i l IH]; intros cs Hn Hs; [by destruct cs|].
  assert (Hl' : forall j, j ∈ l -> j = InGet \/ exists s, j = InLine s) by (intros j Hj; apply Hl; by right).
  destruct (Hl i ltac:(left)) as [->|[s ->]]; cbn in *; [by apply IH|].
  destruct cs as [|c cs]; [done|]. rewrite fmap_cons in *. injection Hs as -> Hs.
  apply Forall_cons_1 in Hn as [[s Hc] Hn]. rewrite (parse_line_of c s Hc). cbn. f_equal. by apply IH.
Qed.

(** ** Lemmas: the loop *)

Definition is_shutdown (c : cmd) : bool := bool_decide (get "cmd" c = JStr "shutdown").

Lemma drain_shutdown cmds : forall b d d' r, existsb (is_shutdown ∘ snd) cmds = true ->
  drain_commands b cmds d = (d', Returned r) -> d_shutdown d' = true.
Proof.
  induction cmds as [|[e c] cmds IH]; intros b d d' r Hex; simpl; [done|].
  cbn in Hex. unfold is_shutdown at 1 in Hex. destruct (bool_decide (get "cmd" c = JStr "shutdown")); [by intros [= <- _]|].
  cbn in Hex. intros H. apply bind_returned in H as ([] & d1 & _ & H). by eapply IH.
Qed.

Lemma tick_shutdown cmds e oe k d d' r : existsb (is_shutdown ∘ snd) cmds = true ->
  serve_tick cmds e oe k d = (d', Returned r) -> r = None.
Proof.
  intros Hex H. unfold serve_tick in H. apply bind_returned in H as (c1 & d1 & H1 & H).
  apply (drain_shutdown _ _ _ _ _ Hex) in H1. cbn in H. unfold mbind, st_bind, st_get in H. rewrite H1 in H. by injection H as _ <-.
Qed.

Lemma loop_shutdown l : forall k d, existsb (fun t => existsb (is_shutdown ∘ snd) (tn_cmds t)) l = true ->
  (forall t k d, t ∈ l -> (serve_tick (tn_cmds t) (tn_env t) (tn_host t) k d).2 ≠ Running) ->
  (serve_loop l k d).2 ≠ Running.
Proof.
  induction l as [|t l IH]; intros k d Hex Hrun; [done|]. cbn [serve_loop]. unfold mbind, st_bind.
  pose proof (Hrun t k d ltac:(left)) as Ht. cbn in Hex.
  destruct (serve_tick _ _ _ k d) as [d1 [r|x|]] eqn:E; [|done|done].
  destruct (existsb (is_shutdown ∘ snd) (tn_cmds t)) eqn:Et; [by rewrite (tick_shutdown _ _ _ _ _ _ _ Et E)|].
  destruct r as [k'|]; [|done]. cbn in Hex. apply IH; [done|]. intros t' k0 d0 Ht'. apply Hrun. by right.
Qed.

Lemma teardown_leaves w1 w2 w3 e fes d d' : teardown w1 w2 w3 e fes d = Some (d', Ok tt) ->
  d_file d' = None.
Proof.
  unfold teardown. destruct (match d_servers _ with Some _ => _ | None => _ end); [|done].
  destruct (cleanup_run _ _) as [[w n]|x]; [|done]. by intros [= <-].
Qed.

(** ** Lemmas: the state file *)

Section file_lemmas.
Context (text : message -> string) (detail : run_outcome -> string) (k : session_ids) (f0 : files).
Notation asdict := (asdict text detail).
Notation sys_step := (sys_step text detail).
Notation sys_reach := (sys_reach text detail).

Lemma external_state o d d' : external o = true -> run_op o d = (d', Returned tt) -> d_state d' = d_state d.
Proof. destruct o; try done; by intros _ [= <-]. Qed.

Definition published (b : f64) (d : daemon) : option content := Some (Doc (Obj (asdict k b (d_state d)))).

(** A write in progress is of the present state, and complete before it is put in place. *)
Definition writing (s : sys) : Prop :=
  match s_pc s with
  | None => True
  | Some (st, d0, b) =>
      reach d0 /\ d_state d0 = d_state (s_daemon s) /\ (st = ReplaceFile -> f_tmp (s_files s) = published b d0)
  end.

(** What is in place is what was last published, or was there before. *)
Definition in_place (s : sys) : Prop :=
  match s_pub s with
  | Some (d0, b) => reach d0 /\ f_state (s_files s) = published b d0
  | None => f_state (s_files s) = f_state f0 \/ f_state (s_files s) = None /\ s_alive s = false
  end.

Definition sys_ok (s : sys) : Prop := (s_alive s = true -> reach (s_daemon s) /\ writing s) /\ in_place s.

Lemma write_step_state st v f st' : st' ∈ (write_step st v f).2 -> f_state (write_step st v f).1 = f_state f.
Proof. destruct st; cbn; try done. by intros ?%elem_of_nil. Qed.

Lemma write_step_tmp st v f : ReplaceFile ∈ (write_step st v f).2 -> f_tmp (write_step st v f).1 = Some (Doc (Obj v)).
Proof. destruct st; cbn; intros H; try done; repeat apply elem_of_cons in H as [?|H]; try done; by apply elem_of_nil in H. Qed.

Lemma step_ok s s' : sys_ok s -> sys_step k s s' -> sys_ok s'.
Proof.
  intros [Ha Hp] Hs. destruct Hs; cbn in Ha; try (destruct (Ha eq_refl) as [Hr Hw]); clear Ha; unfold sys_ok; cbn.
  - split; [|done]. intros _. split; [by eapply reach_op|done].
  - split; [|done]. intros _. split; [by eapply reach_op|]. unfold writing in *. cbn in *.
    destruct pc as [[[st d0] b]|]; [|done]. destruct Hw as (H1 & H2 & H3). split; [done|]. split; [|done].
    rewrite H2. symmetry. by eapply external_state.
  - split; [|done]. intros _. by repeat split.
  - destruct Hw as (H1 & H2 & H3). split.
    + intros _. split; [done|]. split; [done|]. split; [done|]. intros ->. by apply write_step_tmp.
    + unfold in_place in *. cbn in *. by rewrite (write_step_state _ _ _ _ H).
  - destruct Hw as (H1 & H2 & H3). split; [intros _; split; [by eapply (reach_op d d' OpWrite)|done]|].
    split; [done|]. by apply H3.
  - split; [done|]. by right.
  - split; [done|]. unfold in_place in *. cbn in *. destruct pub as [[d0 b]|]; [done|]. destruct Hp as [?|[_ ?]]; [by left|done].
Qed.

Lemma sys_reach_ok s : sys_reach k f0 s -> sys_ok s.
Proof.
  induction 1 as [s []|s s' _ IH Hs]; [|by eapply step_ok]. split; [|by left]. intros _.
  assert (reach d') by by eapply reach_boot. by repeat split.
Qed.
End file_lemmas.

(** ** What a reader makes of the document *)

(** The view of a state: [shown] is its mode, or "starting" once the heartbeat is old. *)
Definition session_view (text : message -> string) (detail : run_outcome -> string) (k : session_ids)
    (shown : string) (s : SessionState) : SessionView :=
  View shown (jstr (id_rig k)) (Scalar (JBool (id_sim k))) (jstr (id_run k)) (or_null Scalar (ss_task s))
    (or_null (jstr ∘ phase_name) (ss_phase s)) (Z.of_nat (ss_run_seq s)) (or_null jfloat (ss_started s))
    (or_null (jstr ∘ text) (ss_message s)) (or_null (outcome_json detail) (ss_last s)) (jstr <$> ss_cameras_down s)
    (jstr <$> ss_arms_down s) (or_null pending_json (ss_pending s)) (or_null (servers_json k) (ss_servers s)).

(** The heartbeat a reader computes with: [heartbeat_ts or 0]. *)
Definition read_beat (b : f64) : f64 := if feq b f0 then f0 else b.

Definition beats (e : menv) (b : f64) : bool := flt (fsub (me_wall e) (read_beat b)) HEARTBEAT_STALE_S.

Lemma view_of_asdict text detail fos k e b s :
  view_of fos e (asdict text detail k b s) =
  Ok (session_view text detail k (if beats e b then mode_name (ss_mode s) else "starting") s).
Proof.
  unfold view_of, session_view, beats, read_beat.
  assert (jfloat_of fos (py_or (jfloat b) (jint 0)) = Ok (if feq b f0 then f0 else b)) as Hb
    by (unfold py_or; cbn; by destruct (feq b f0)).
  assert (jint_of (py_or (jint (Z.of_nat (ss_run_seq s))) (jint 0)) = Ok (Z.of_nat (ss_run_seq s))) as Hq.
  { unfold py_or. cbn. destruct (Z.eqb_spec (Z.of_nat (ss_run_seq s)) 0) as [->|]; done. }
  cbv beta zeta.
  change (default jnull (dget "heartbeat_ts" (asdict text detail k b s))) with (jfloat b).
  change (default jnull (dget "run_seq" (asdict text detail k b s))) with (jint (Z.of_nat (ss_run_seq s))).
  rewrite Hb. cbn [res_bind]. rewrite Hq. cbn [res_bind]. reflexivity.
Qed.

Lemma run_mode_active (m : mode) text detail k s :
  run_active (session_view text detail k (mode_name m) s) = negb (bool_decide (m = VIEWING)).
Proof. by destruct m as [|[]|]. Qed.

(** Files another session left: none, or a document with another pid. *)
Definition foreign (k : session_ids) (f : files) : Prop :=
  forall v, read_state f = Some v -> exists o, v = Obj o /\ pid_matches (default jnull (dget "pid" o)) (id_pid k) = false.

Lemma view_foreign fos k e m : m_proc m = Some (id_pid k) -> me_exit e = None ->
  (forall v, me_raw e = Some v -> exists o, v = Obj o /\ pid_matches (default jnull (dget "pid" o)) (id_pid k) = false) ->
  exists v, view fos e m = Ok v /\ sv_state v = "starting".
Proof.
  intros Hm He Hf. unfold view. rewrite Hm, He. rewrite bool_decide_true by done. destruct (me_raw e) as [raw|]; [|by eexists].
  destruct (Hf raw eq_refl) as (o & -> & Hp). cbn. rewrite Hp. by eexists.
Qed.

Lemma view_own text detail fos k e m b s : m_proc m = Some (id_pid k) -> me_exit e = None ->
  me_raw e = Some (Obj (asdict text detail k b s)) ->
  view fos e m = Ok (session_view text detail k (if beats e b then mode_name (ss_mode s) else "starting") s).
Proof.
  intros Hm He Hr. unfold view. rewrite Hm, He, Hr. rewrite bool_decide_true by done. cbn [jget res_bind].
  change (default jnull (dget "pid" (asdict text detail k b s))) with (jint (id_pid k)). cbn [pid_matches jint].
  rewrite Z.eqb_refl. apply view_of_asdict.
Qed.

Lemma reach_mode d : reach d ->
  match d_run d with
  | None => ss_mode (d_state d) = VIEWING
  | Some r => ss_mode (d_state d) = (if r_stopping r then SAVING else InPhase (r_phase r)) /\
              ss_phase (d_state d) = Some (r_phase r) /\ ss_task (d_state d) = Some (r_task r)
  end.
Proof.
  intros Hd. apply reach_inv in Hd as (Hm & _). unfold mode_ok in Hm.
  destruct (d_run d) as [r|]; [destruct Hm as (? & ? & ? & _)|destruct Hm as (? & _)]; done.
Qed.

Lemma pid_alive_int probe_of pid : pid <> 0%Z -> (MIN_PID <= pid <= MAX_PID)%Z ->
  session_pid_alive probe_of (jint pid) = Ok (match probe_of pid with Delivered => true | _ => false end).
Proof.
  intros Hz [Hlo Hhi]. unfold session_pid_alive. change (Json.truthy (jint pid)) with (negb (pid =? 0)%Z).
  rewrite (proj2 (Z.eqb_neq _ _) Hz). cbn [negb]. change (jint_of (jint pid)) with (Ok pid). cbv iota beta.
  rewrite (proj2 (Z.ltb_ge _ _) Hlo), (proj2 (Z.ltb_ge _ _) Hhi). by destruct (probe_of pid).
Qed.

(** ** Properties *)

(** C35: What the dashboard shows of the session was true of it.  Whatever steps of writes, operations and
    deaths of the daemon a reader falls between, reading the state file never fails and never gives
    half a state: the dashboard's view says "starting", or it is, field for field, the state of the
    daemon at the last completed write, whose heartbeat is recent; and then it shows a run exactly
    when the daemon had one, with that run's phase and task. *)
Theorem dashboard_sees_session (text : message -> string) (detail : run_outcome -> string)
    (fos : string -> option f64) (k : session_ids) (f : files) (s : sys) (e : menv) (m : manager)
    (Hs : sys_reach text detail k f s) (Hf : foreign k f)
    (Hm : m_proc m = Some (id_pid k)) (He : me_exit e = None) (Hraw : me_raw e = read_state (s_files s)) :
  exists v, view fos e m = Ok v /\
    (sv_state v = "starting" \/
     exists d b, s_pub s = Some (d, b) /\ reach d /\ beats e b = true /\
       v = session_view text detail k (mode_name (ss_mode (d_state d))) (d_state d) /\
       (run_active v = true <-> is_Some (d_run d)) /\
       (forall r, d_run d = Some r ->
          sv_state v = (if r_stopping r then "saving" else phase_name (r_phase r)) /\
          sv_phase v = jstr (phase_name (r_phase r)) /\ sv_task v = Scalar (r_task r))).
Proof.
  apply sys_reach_ok in Hs as [_ Hp]. unfold in_place, read_state in *. destruct (s_pub s) as [[d b]|] eqn:Epub.
  - destruct Hp as [Hd Hp]. rewrite Hp in Hraw. cbn in Hraw.
    rewrite (view_own text detail fos k e m b (d_state d) Hm He Hraw). eexists. split; [done|].
    destruct (beats e b) eqn:Eb; [right|by left]. exists d, b. do 4 (split; [done|]). pose proof (reach_mode d Hd) as Hmode.
    rewrite run_mode_active. destruct (d_run d) as [r|].
    + destruct Hmode as (Hmo & Hph & Ht). split.
      * split; [by eauto|]. intros _. rewrite Hmo. by destruct (r_stopping r).
      * intros r' [= <-]. cbn. rewrite Hmo, Hph, Ht. by destruct (r_stopping r).
    + rewrite Hmode. split; [split; [done|by intros [r ?]]|done].
  - destruct (view_foreign fos k e m Hm He) as (v & Hv & Hst); [|by eauto].
    destruct Hp as [Hp|[Hp _]]; rewrite Hp in Hraw; rewrite Hraw; [exact Hf|done].
Qed.

(** Commands arrive.  What the dashboard writes to the daemon's input is taken off the queue once
    each and in the order it was written, whatever the interleaving, and when the input ends a
    shutdown follows as the last. *)
Theorem commands_arrive (cs : list cmd) (l g : list intake) (Hn : Forall named cs)
    (Hl : forall i, i ∈ l -> i = InGet \/ exists s, i = InLine s)
    (Hc : omap (fun i => match i with InLine s => Some s | _ => None end) l = line_of <$> cs)
    (Hg : Forall (eq InGet) g) :
  let q := intake_run (l ++ InEof :: g) in
  mapM as_cmd (q_got q ++ q_items q) = Some (cs ++ [[("cmd", JStr "shutdown")]]).
Proof.
  cbn zeta. unfold intake_run. rewrite intake_fifo. cbn [q_got q_items q_open empty_queue app].
  assert (Hall : forall b, all_puts b g = []).
  { intros b. induction Hg as [|i g <- _ IH]; [done|]. cbn. rewrite IH. by destruct b. }
  assert (all_puts true (l ++ InEof :: g) = all_puts true l ++ [shutdown_cmd]) as ->.
  { clear Hc. induction l as [|i l IH]; cbn; [by rewrite Hall|].
    assert (Hl' : forall j, j ∈ l -> j = InGet \/ exists s, j = InLine s) by (intros j Hj; apply Hl; by right).
    destruct (Hl i ltac:(left)) as [->|[x ->]]; rewrite (IH Hl'); [done|]. by rewrite app_assoc. }
  rewrite (puts_lines cs l Hn Hl Hc). clear. induction cs as [|c cs IH]; [done|].
  rewrite fmap_cons. cbn [app mapM]. rewrite as_cmd_document. cbn. by rewrite IH.
Qed.

(** A shutdown ends the daemon.  If the commands taken in some turn contain a shutdown and no turn waits
    for ever, the serving loop is left: once the teardown is done the daemon's state file is gone, and
    a normal end has exit code zero. *)
Theorem shutdown_ends_serve (e : env) (l : list turn) (c : closing) (d d1 d2 : daemon)
    (Hstart : serve_start e d = (d1, Returned tt))
    (Hq : existsb (fun t => existsb (is_shutdown ∘ snd) (tn_cmds t)) l = true)
    (Hrun : forall t k d, t ∈ l -> (serve_tick (tn_cmds t) (tn_env t) (tn_host t) k d).2 ≠ Running)
    (Htear : teardown (cl_consumer c) (cl_hw1 c) (cl_hw2 c) (cl_env c) (cl_beats c)
               (serve_loop l (Clocks (e_now e) f0 f0 (e_now e)) d1).1 = Some (d2, Ok tt)) :
  exists o, serve e l c d = (d2, o) /\ d_file d2 = None /\ (o = Returned 0%Z \/ exists x, o = Raised x).
Proof.
  unfold serve. rewrite Hstart.
  pose proof (loop_shutdown l (Clocks (e_now e) f0 f0 (e_now e)) d1 Hq Hrun) as Hloop.
  destruct (serve_loop l _ d1) as [d3 [[]|x|]]; cbn in *; [| |done]; rewrite Htear;
    apply teardown_leaves in Htear; eexists; (split; [done|]); eauto.
Qed.

(** One session per runtime directory.  While a daemon whose state was written lives, a second [main]
    on the same directory exits before it sweeps or starts anything. *)
Theorem second_session_refused text detail (probe_of : Z -> probe) (k : session_ids) (f : files) (s : sys)
    oe h e cfg overrides run_id next o l c
    (Hs : sys_reach text detail k f s) (Hpub : is_Some (s_pub s)) (Hpid : (0 < id_pid k <= MAX_PID)%Z)
    (Hlive : probe_of (id_pid k) = Delivered) :
  session_main probe_of (s_files s) oe h e (Ok cfg) overrides run_id next o l c = (h, Raised SystemExit).
Proof.
  apply sys_reach_ok in Hs as [_ Hp]. destruct Hpub as [[d b] Hpub]. unfold in_place in Hp. rewrite Hpub in Hp.
  destruct Hp as [_ Hp]. unfold session_main, read_state. rewrite Hp. cbn [published].
  assert (session_free probe_of (Some (Obj (asdict text detail k b (d_state d)))) = Raise SystemExit) as ->; [|done].
  change (res_bind (session_pid_alive probe_of (jint (id_pid k))) (fun a => if a then Raise SystemExit else Ok tt)
    = Raise SystemExit).
  rewrite pid_alive_int by (unfold MIN_PID; lia). by rewrite Hlive.
Qed.

(** A session of another user is not seen: probing it raises [PermissionError], which reads as dead. *)
Lemma other_user_overrun probe_of o pid : dget "pid" o = Some (jint pid) ->
  (MIN_PID <= pid <= MAX_PID)%Z -> probe_of pid = NotPermitted -> session_free probe_of (Some (Obj o)) = Ok tt.
Proof.
  intros Ho Hr Hp. unfold session_free. destruct o as [|x o]; [done|]. cbn [Json.truthy negb jget res_bind].
  rewrite Ho. change (res_bind (session_pid_alive probe_of (jint pid)) (fun a => if a then Raise SystemExit else Ok tt) = Ok tt).
  destruct (decide (pid = 0%Z)) as [->|Hz]; [done|]. rewrite pid_alive_int by done. by rewrite Hp.
Qed.

(** ** Concrete runs *)

Definition demo_ids : session_ids := Ids 7 "run1" "bimanual" false f0 jnull jnull.
Definition no_text : message -> string := fun _ => "".
Definition no_detail : run_outcome -> string := fun _ => "".
Definition no_files : files := Files false None None.

(** The files after a completed write. *)
Definition written (b : f64) (d : daemon) : files :=
  Files true None (Some (Doc (Obj (asdict no_text no_detail demo_ids b (d_state d))))).

Lemma write_done f d fl d0 b pub :
  sys_reach no_text no_detail demo_ids f (Sys d fl (Some (MakeDirs, d0, b)) pub true) ->
  sys_reach no_text no_detail demo_ids f (Sys (with_file (Some (d_state d)) d) (written b d0) None (Some (d0, b)) true).
Proof.
  intros H. destruct fl as [dir tmp st].
  eapply sys_next in H; [|apply (step_write _ _ _ _ _ _ _ _ _ OpenTmp); by left].
  eapply sys_next in H; [|apply (step_write _ _ _ _ _ _ _ _ _ DumpTmp); by left].
  eapply sys_next in H; [|apply (step_write _ _ _ _ _ _ _ _ _ CloseTmp); right; by left].
  eapply sys_next in H; [|apply (step_write _ _ _ _ _ _ _ _ _ ReplaceFile); by left].
  eapply sys_next in H; [|by eapply step_replace]. exact H.
Qed.

(** Boot, a first write, a collection started, a second write. *)
Definition demo_collecting : daemon :=
  (handle_command (demo_at "collection" 1) (demo_start "collection") (with_file (Some (d_state demo_booted)) demo_booted)).1.

Definition demo_sys : sys :=
  Sys (with_file (Some (d_state demo_collecting)) demo_collecting) (written (f_of_Z 999) demo_collecting) None
    (Some (demo_collecting, f_of_Z 999)) true.

Lemma demo_collecting_op :
  run_op (OpCommand (demo_at "collection" 1) (demo_start "collection")) (with_file (Some (d_state demo_booted)) demo_booted) =
  (demo_collecting, Returned tt).
Proof. unfold demo_collecting, run_op. rewrite (surjective_pairing (handle_command _ _ _)) at 1. f_equal. Qed.

Lemma demo_sys_boot : sys_init demo_ids no_files (Sys demo_booted no_files (Some (MakeDirs, demo_booted, f_of_Z 990)) None true).
Proof.
  eapply (init_boot demo_ids no_files (demo_at "collection" 0) (demo_config "collection") [] 0 (Os [] []) empty_world).
  - reflexivity.
  - apply (bool_decide_eq_true_1 _). vm_compute. reflexivity.
  - vm_compute. reflexivity.
Qed.

Lemma demo_sys_reach : sys_reach no_text no_detail demo_ids no_files demo_sys.
Proof.
  pose proof (write_done _ _ _ _ _ _ (sys_boot no_text no_detail demo_ids no_files _ demo_sys_boot)) as H.
  eapply sys_next in H; [|refine (step_op _ _ _ _ _ _ _ _ _ demo_collecting_op); reflexivity].
  eapply sys_next in H; [|exact (step_begin _ _ _ _ _ _ (f_of_Z 999))].
  exact (write_done _ _ _ _ _ _ H).
Qed.

Definition demo_reader : menv :=
  MEnv None (f_of_Z 100) (f_of_Z 1000) (read_state (s_files demo_sys)) (Ok 8%Z) true true true.

Lemma dashboard_sees_session_witness :
  exists v, view (fun _ => None) demo_reader held_manager = Ok v /\ run_active v = true /\ sv_phase v = jstr "collection".
Proof.
  destruct (dashboard_sees_session no_text no_detail (fun _ => None) demo_ids no_files demo_sys demo_reader held_manager)
    as (v & Hv & [Hst|(d & b & [= <- <-] & _ & _ & _ & Ha & Hr)]).
  - exact demo_sys_reach.
  - intros v Hv. discriminate Hv.
  - reflexivity.
  - reflexivity.
  - reflexivity.
  - exfalso. vm_compute in Hv. injection Hv as <-. discriminate Hst.
  - exists v. split; [exact Hv|].
    assert (exists r, d_run demo_collecting = Some r /\ r_phase r = COLLECTION) as (r & Er & Ep)
      by (eexists; split; vm_compute; reflexivity).
    split; [apply Ha; exists r; exact Er|]. destruct (Hr r Er) as (_ & -> & _). rewrite Ep. reflexivity.
Defined.

Lemma commands_arrive_witness :
  let q := intake_run ([InLine (line_of [("cmd", JStr "stop")]); InGet] ++ InEof :: [InGet; InGet]) in
  mapM as_cmd (q_got q ++ q_items q) = Some ([[("cmd", JStr "stop")]] ++ [[("cmd", JStr "shutdown")]]).
Proof.
  apply (commands_arrive [[("cmd", JStr "stop")]]).
  - repeat constructor. exists "stop". reflexivity.
  - intros i Hi. apply elem_of_cons in Hi as [->|Hi]; [right; eexists; reflexivity|].
    apply elem_of_cons in Hi as [->|Hi]; [left; reflexivity|by apply elem_of_nil in Hi].
  - reflexivity.
  - repeat constructor.
Defined.

Lemma second_session_refused_witness :
  session_main (fun _ => Delivered) (s_files demo_sys) Orphans.demo_env Orphans.demo_host (demo_at "collection" 5)
    (Ok (demo_config "collection")) [] "run2" 0 (Os [] []) []
    (Closing (e_waits (demo_at "collection" 5)) (e_waits (demo_at "collection" 5)) (e_waits (demo_at "collection" 5))
       (demo_at "collection" 5) []) = (Orphans.demo_host, Raised SystemExit).
Proof.
  apply (second_session_refused no_text no_detail _ demo_ids no_files demo_sys).
  - exact demo_sys_reach.
  - eexists. reflexivity.
  - unfold MAX_PID. cbn. lia.
  - reflexivity.
Defined.

Definition demo_turn : turn := Turn [(demo_at "collection" 5, [("cmd", JStr "shutdown")])] (demo_at "collection" 5) Orphans.demo_env.
Definition demo_closing : closing :=
  Closing (e_waits (demo_at "collection" 5)) (e_waits (demo_at "collection" 5)) (e_waits (demo_at "collection" 5))
    (demo_at "collection" 5) [].

Definition demo_fresh : daemon :=
  match daemon_init (FEnv f0 f0 (fun _ => true) (fun _ => true)) (demo_config "collection") [] "run1" 0 (Os [] []) empty_world with
  | Ok d => d
  | Raise _ => demo_booted
  end.

Definition demo_down : daemon :=
  default demo_booted (fst <$> teardown (cl_consumer demo_closing) (cl_hw1 demo_closing) (cl_hw2 demo_closing)
    (cl_env demo_closing) (cl_beats demo_closing)
    (serve_loop [demo_turn] (Clocks (e_now (demo_at "collection" 0)) f0 f0 (e_now (demo_at "collection" 0))) demo_booted).1).

Lemma shutdown_ends_serve_witness :
  exists o, serve (demo_at "collection" 0) [demo_turn] demo_closing demo_fresh = (demo_down, o) /\ d_file demo_down = None.
Proof.
  destruct (shutdown_ends_serve (demo_at "collection" 0) [demo_turn] demo_closing demo_fresh demo_booted demo_down)
    as (o & Ho & Hf & _).
  - vm_compute. reflexivity.
  - vm_compute. reflexivity.
  - intros t k d Ht. apply list_elem_of_singleton in Ht. subst t. discriminate.
  - vm_compute. reflexivity.
  - exists o. split; [exact Ho|exact Hf].
Defined.
