(* ===== verification/NativeRt.v ===== *)
(** * Launching the native real-time controller

    Models [interfaces/flexiv/native_rt.py]: where the executable is looked for, the argument
    vector it is started with, and the life of the child process.  The child is the kernel's
    process: when it ends by itself, how it answers SIGTERM and how long SIGKILL takes are
    its environment ([behaviour]).  Times are milliseconds. *)

From Stdlib Require Import String.
From S2P Require Import Prelude Float64 Ring Streams Channel Layout Process Source Arm Text.
Local Open Scope string_scope.
Local Open Scope Z_scope.

Definition EXECUTABLE : string := "dfc-flexiv-rt-controller".

(** ** Where the controller is *)

Section find.
(** [Path.expanduser], [Path.is_file() and os.access(.., X_OK)], and the repository root four
    directories above the module. *)
Context (expanduser : string -> string) (runnable : string -> bool) (repo : string).

Definition candidates (override installed : option string) : list string :=
  match override with Some o => if bool_decide (o = "") then [] else [expanduser o] | None => [] end ++
  match installed with Some i => if bool_decide (i = "") then [] else [i] | None => [] end ++
  [repo +:+ "/build/native-flexiv-rt/" +:+ EXECUTABLE].

Definition find_controller (override installed : option string) : res string :=
  of_option FileNotFoundError (snd <$> list_find (fun p => runnable p = true) (candidates override installed)).
End find.

(** ** The argument vector *)

(** The fields of an arm configuration that only the native controller reads. *)
Record NativeCfg := Native {
  nc_serial : string;
  nc_verbose_rdk : bool;
  nc_rt_priority : Z;
}.

Definition add_arg (key value : string) (args : list string) : list string :=
  (args ++ [key; value])%list.

Definition TELEMETRY_FLAGS : list (string * string) :=
  [("q", "--q-shm"); ("dq", "--dq-shm"); ("tau", "--tau-shm"); ("tau_ext", "--tau-ext-shm");
   ("wrench", "--wrench-shm"); ("eef", "--eef-shm"); ("eef_vel", "--eef-vel-shm");
   ("status", "--status-shm")].

Definition str_of_bool (b : bool) : string := if b then "1" else "0".

Section args.
(** [str(x)] of a float: its shortest round-trip decimal. *)
Context (repr : f64 -> string).

Definition gripper_args (g : GripperCfg) (shm : string) (args : list string) : list string :=
  let args := add_arg "--gripper-shm" shm args in
  let args := add_arg "--gripper-name" (g_name g) args in
  let args := add_arg "--gripper-velocity" (repr (g_velocity g)) args in
  let args := add_arg "--gripper-force" (repr (g_force g)) args in
  let args := add_arg "--gripper-rate" (repr (g_move_rate_hz g)) args in
  let args := add_arg "--gripper-deadband" (repr (g_deadband g)) args in
  let args := add_arg "--gripper-init" (str_of_bool (g_init_on_start g)) args in
  let args := match g_open_width g with
              | Some w => add_arg "--gripper-open-width" (repr w) args | None => args end in
  match g_closed_width g with
  | Some w => add_arg "--gripper-closed-width" (repr w) args | None => args end.

Definition controller_args (executable : string) (arm : ArmCfg) (nat_cfg : NativeCfg)
    (control : ControlCfg) (coeffs : ControlCoeffsCfg) (setpoint_shm command_shm : string)
    (telemetry_shm : list (string * string)) (gripper_shm : option string) : res (list string) :=
  let args := [executable] in
  let args := add_arg "--serial" (nc_serial nat_cfg) args in
  let args := add_arg "--dof" (str_of_int (Z.of_nat (ac_dof arm))) args in
  let args := add_arg "--setpoint-shm" setpoint_shm args in
  let args := add_arg "--command-shm" command_shm args in
  let? args := foldM_res (fun args sf =>
    let? shm := of_option KeyError (dget sf.1 telemetry_shm) in
    Ok (add_arg sf.2 shm args)) TELEMETRY_FLAGS args in
  let args := add_arg "--wrench-frame" (ac_wrench_frame arm) args in
  let args := add_arg "--deadman-ms" (repr (deadman_ms (channel control))) args in
  let args := add_arg "--deadman-hard-ms" (repr (deadman_hard_ms (channel control))) args in
  let args := add_arg "--safety-check" (str_of_bool (ac_safety_check arm)) args in
  let args := add_arg "--tolerance" (repr (ac_tolerance arm)) args in
  let args := add_arg "--verbose" (str_of_bool (nc_verbose_rdk nat_cfg)) args in
  let args := add_arg "--rt-priority" (str_of_int (nc_rt_priority nat_cfg)) args in
  let args := add_arg "--max-joint-vel" (repr (max_joint_vel coeffs)) args in
  let args := add_arg "--max-joint-acc" (repr (max_joint_acc coeffs)) args in
  Ok (match gripper_shm with
      | Some shm =>
          if g_enabled (ac_gripper arm) && negb (bool_decide (g_name (ac_gripper arm) = ""))
          then gripper_args (ac_gripper arm) shm args else args
      | None => args
      end).
End args.

(** ** The child process *)

Inductive psignal := SIGTERM | SIGKILL.

(** When the process ends by itself and with which status, how it answers SIGTERM (after a
    delay, with a status, or not at all), and how long the kernel takes to kill it. *)
Record behaviour := Behaviour {
  own_exit : option (Z * Z);
  on_term : option (Z * Z);
  on_kill : Z;
}.

(** The clock, the end the process is bound for, and the signals delivered to it, with the
    time of each. *)
Record child := Child { now : Z; ends : option (Z * Z); sent : list (Z * psignal) }.

Definition earliest (a b : option (Z * Z)) : option (Z * Z) :=
  match a, b with
  | Some (t, _), Some (t', _) => if t <=? t' then a else b
  | None, _ => b
  | _, None => a
  end.

(** [process.poll()]. *)
Definition poll (c : child) : option Z :=
  match ends c with Some (t, rc) => if t <=? now c then Some rc else None | None => None end.

Definition deliver (b : behaviour) (s : psignal) (c : child) : option (Z * Z) :=
  match s with
  | SIGTERM => d ← on_term b; Some (now c + d.1, d.2)
  | SIGKILL => Some (now c + on_kill b, -9)
  end.

(** [terminate()] and [kill()]: nothing once the process has been seen to end. *)
Definition send_signal (b : behaviour) (s : psignal) : ST child unit := st_modify (fun c =>
  match poll c with
  | Some _ => c
  | None => Child (now c) (earliest (ends c) (deliver b s c)) (sent c ++ [(now c, s)])
  end).

(** [process.wait(timeout=..)]. *)
Definition wait (timeout : Z) : ST child Z := fun c =>
  match ends c with
  | Some (t, rc) =>
      if t <=? now c + timeout then (Child (Z.max (now c) t) (ends c) (sent c), Returned rc)
      else (Child (now c + timeout) (ends c) (sent c), Raised TimeoutExpired)
  | None => (Child (now c + timeout) (ends c) (sent c), Raised TimeoutExpired)
  end.

Definition expired {A} (k : ST child A) (e : exn) : option (ST child A) :=
  match e with TimeoutExpired => Some k | _ => None end.

(** What one turn of the loop sees: [stop_event.is_set()], and how long the sleep took. *)
Record turn := Turn { t_stop : bool; t_slept : Z }.

(** [while process.poll() is None: ..]. *)
Fixpoint watch (b : behaviour) (tape : list turn) : ST child unit := fun c =>
  match poll c with
  | Some _ => (c, Returned tt)
  | None =>
      match tape with
      | [] => (c, Running)
      | o :: tape =>
          if t_stop o then send_signal b SIGTERM c
          else watch b tape (Child (now c + t_slept o) (ends c) (sent c))
      end
  end.

(** [try: m finally: f], for a cleanup that may raise in its turn. *)
Definition finally_do {A} (m : ST child A) (f : ST child unit) : ST child A := fun c =>
  match m c with
  | (c', Running) => (c', Running)
  | (c', o) => match f c' with
               | (c'', Returned _) => (c'', o)
               | (c'', Raised e) => (c'', Raised e)
               | (c'', Running) => (c'', Running)
               end
  end.

Definition reap (b : behaviour) (grace : Z) : ST child Z :=
  try_except (wait grace) (expired (send_signal b SIGKILL ;; wait 2000)).

(** The [finally] clause. *)
Definition last_resort (b : behaviour) : ST child unit := fun c =>
  match poll c with
  | Some _ => (c, Returned tt)
  | None => (send_signal b SIGTERM ;; reap b 2000 ;; mret tt) c
  end.

(** The process from its start to its return code. *)
Definition wait_controller (b : behaviour) (tape : list turn) : ST child Z :=
  finally_do (watch b tape ;; reap b 5000) (last_resort b).

Definition run_controller (b : behaviour) (popen : res unit) (tape : list turn) : ST child unit :=
  st_lift popen ;;
  rc ← wait_controller b tape;
  if rc =? 0 then mret tt else st_raise RuntimeError.

(** A child just started at time [t]. *)
Definition started (b : behaviour) (t : Z) : child := Child t (own_exit b) [].

Definition slept (tape : list turn) : Z := foldr Z.add 0 (t_slept <$> tape).

(** ** Lemmas *)

Lemma earliest_l a b t rc : a = Some (t, rc) -> exists t' rc', earliest a b = Some (t', rc') /\ t' <= t.
Proof.
  intros ->. destruct b as [[t' rc']|]; simpl; [|by exists t, rc].
  destruct (t <=? t') eqn:E; [by exists t, rc|]. exists t', rc'. split; [done|lia].
Qed.

Lemma earliest_r a t rc : exists t' rc', earliest a (Some (t, rc)) = Some (t', rc') /\ t' <= t.
Proof.
  destruct a as [[t' rc']|]; simpl; [|by exists t, rc].
  destruct (t' <=? t) eqn:E; [exists t', rc'|exists t, rc]; split; (done || lia).
Qed.

Lemma poll_ends c t rc : ends c = Some (t, rc) -> t <= now c -> poll c = Some rc.
Proof. intros E H. unfold poll. rewrite E. by rewrite (proj2 (Z.leb_le _ _) H). Qed.

(** A process already over is collected at once, by whichever call. *)
Lemma wait_over c rc timeout : poll c = Some rc -> 0 <= timeout -> wait timeout c = (c, Returned rc).
Proof.
  unfold poll, wait. destruct c as [n e s]; simpl. destruct e as [[t rc']|]; [|done].
  destruct (t <=? n) eqn:E; [|done]. intros [= ->] H. rewrite (proj2 (Z.leb_le _ _)) by lia.
  by rewrite Z.max_l by lia.
Qed.

Lemma reap_over b c rc grace : poll c = Some rc -> 0 <= grace -> reap b grace c = (c, Returned rc).
Proof. intros. unfold reap, try_except. by rewrite (wait_over _ rc). Qed.

(** What [reap] does: it collects the process within its grace, or kills it at the end of the
    grace and waits two seconds more; only a process that outlives SIGKILL by more than that
    is not collected. *)
Lemma reap_ends b c grace : 0 <= on_kill b -> 0 <= grace ->
  exists c' o, reap b grace c = (c', o) /\
    ((exists rc, o = Returned rc /\ poll c' = Some rc /\ now c <= now c' <= now c + grace + 2000) \/
     (o = Raised TimeoutExpired /\ 2000 < on_kill b)) /\
    (sent c' = sent c \/ sent c' = (sent c ++ [(now c + grace, SIGKILL)])%list) /\
    (o = Raised TimeoutExpired -> sent c' = (sent c ++ [(now c + grace, SIGKILL)])%list).
Proof.
  intros Hk Hg. unfold reap, try_except.
  assert (forall e, ends c = e -> (exists t rc, e = Some (t, rc) /\ t <= now c + grace) \/
    wait grace c = (Child (now c + grace) e (sent c), Raised TimeoutExpired) /\
    poll (Child (now c + grace) e (sent c)) = None) as Hcase.
  { intros e He. unfold wait, poll. rewrite He. destruct e as [[t rc]|]; simpl; [|by right].
    destruct (t <=? now c + grace) eqn:E; [left; exists t, rc; split; [done|lia]|by right]. }
  destruct (Hcase _ eq_refl) as [(t & rc & He & Ht)|[-> Hn]].
  - unfold wait. rewrite He. rewrite (proj2 (Z.leb_le _ _) Ht). eexists _, _. split; [done|]. simpl. split_and!.
    + left. exists rc. split; [done|]. split; [apply (poll_ends _ t); simpl; [done|lia]|]. simpl. lia.
    + by left.
    + done.
  - cbn [expired]. unfold send_signal, st_modify, mbind, st_bind. rewrite Hn. unfold wait. cbn.
    destruct (earliest_r (ends c) (now c + grace + on_kill b) (-9)) as (t' & rc' & -> & Ht').
    destruct (t' <=? now c + grace + 2000) eqn:E; eexists _, _; (split; [done|]); simpl; split_and!; auto.
    + left. exists rc'. split; [done|]. split; [apply (poll_ends _ t'); simpl; [done|lia]|]. simpl. lia.
    + right. split; [done|]. lia.
Qed.


(** The loop ends when the process does, or on a stop, which sends SIGTERM. *)
Lemma watch_ends b tape c c' o : watch b tape c = (c', o) ->
  (o = Running /\ existsb t_stop tape = false) \/
  (o = Returned tt /\ ((sent c' = sent c /\ poll c' ≠ None) \/
     (existsb t_stop tape = true /\ exists t, t = now c' /\ sent c' = (sent c ++ [(t, SIGTERM)])%list))).
Proof.
  revert c. induction tape as [|x tape IH]; intros c; simpl; destruct (poll c) eqn:Ep.
  - intros [= <- <-]. right. split; [done|]. left. by rewrite Ep.
  - intros [= <- <-]. by left.
  - intros [= <- <-]. right. split; [done|]. left. by rewrite Ep.
  - destruct (t_stop x); simpl.
    + unfold send_signal, st_modify. rewrite Ep. intros [= <- <-]. right. split; [done|]. right. by eauto.
    + apply (IH (Child (now c + t_slept x) (ends c) (sent c))).
Qed.

Lemma slept_nonneg tape : Forall (fun y => 0 <= t_slept y) tape -> 0 <= slept tape.
Proof. unfold slept. induction 1; csimpl; lia. Qed.

Lemma watch_stops b pre x post c : t_stop x = true -> Forall (fun y => 0 <= t_slept y) pre ->
  exists c', watch b (pre ++ x :: post) c = (c', Returned tt) /\ now c' <= now c + slept pre.
Proof.
  intros Hx. revert c. induction pre as [|y pre IH]; intros c Hp; simpl; pose proof (slept_nonneg _ Hp).
  - destruct (poll c) eqn:Ep; [exists c; split; [done|lia]|]. rewrite Hx. unfold send_signal, st_modify.
    rewrite Ep. eexists. split; [done|simpl; lia].
  - destruct (poll c) eqn:Ep; [exists c; split; [done|lia]|]. destruct (t_stop y).
    + unfold send_signal, st_modify. rewrite Ep. eexists. split; [done|simpl; lia].
    + inversion Hp as [|? ? Hy Hp']; subst.
      destruct (IH (Child (now c + t_slept y) (ends c) (sent c)) Hp') as (c' & -> & Hc').
      exists c'. split; [done|]. unfold slept in *. csimpl in *. lia.
Qed.

(** The last resort only adds signals, and fails only with a time-out. *)
Lemma last_resort_adds b c : 0 <= on_kill b -> exists c' o more,
  last_resort b c = (c', o) /\ sent c' = (sent c ++ more)%list /\ (o = Returned tt \/ o = Raised TimeoutExpired).
Proof.
  intros Hk. unfold last_resort. destruct (poll c) eqn:Ep.
  { eexists c, _, []. rewrite app_nil_r. split_and!; [done|done|by left]. }
  unfold mbind, st_bind, send_signal, st_modify. rewrite Ep. set (c1 := Child _ _ _).
  destruct (reap_ends b c1 2000 Hk ltac:(lia)) as (c' & o & -> & Ho & Hs & _).
  assert (exists more, sent c' = (sent c ++ more)%list) as [more Hm].
  { destruct Hs as [->| ->]; simpl; rewrite <-?app_assoc; by eexists. }
  exists c'. destruct Ho as [(rc & -> & _)|[-> _]]; eexists _, more; (split; [done|]); auto.
Qed.

(** Once the watch is over: the child is collected and the last resort has nothing to do, or
    the child has outlived SIGKILL. *)
Lemma wait_controller_ends b tape c c1 : 0 <= on_kill b ->
  watch b tape c = (c1, Returned tt) ->
  exists c' o more, wait_controller b tape c = (c', o) /\
    ((exists rc, o = Returned rc /\ poll c' = Some rc /\ now c' <= now c1 + 7000 /\ more = []) \/
     (o = Raised TimeoutExpired /\ 2000 < on_kill b)) /\
    ((sent c' = sent c1 /\ o ≠ Raised TimeoutExpired) \/
     sent c' = (sent c1 ++ (now c1 + 5000, SIGKILL) :: more)%list) /\
    (poll c1 ≠ None -> c' = c1 /\ o ≠ Raised TimeoutExpired).
Proof.
  intros Hk Hw. unfold wait_controller, finally_do, mbind, st_bind. rewrite Hw.
  destruct (reap_ends b c1 5000 Hk ltac:(lia)) as (c' & o & Hr & Ho & Hs & Hx). rewrite Hr.
  assert (Hover : poll c1 ≠ None -> c' = c1 /\ exists rc, o = Returned rc).
  { intros Hn. destruct (poll c1) as [rc1|] eqn:E1; [|done]. rewrite (reap_over _ _ rc1) in Hr by (done || lia).
    split; [congruence|]. exists rc1. congruence. }
  destruct Ho as [(rc & -> & Hp & Ht)|[-> Hk2]].
  - unfold last_resort. rewrite Hp. exists c', (Returned rc), []. split; [done|]. split_and!.
    + left. exists rc. split_and!; (done || lia).
    + destruct Hs as [Hs|Hs]; [by left|by right].
    + intros Hn. by destruct (Hover Hn).
  - destruct (last_resort_adds b c' Hk) as (c2 & o2 & more & -> & Hm & Ho2).
    exists c2, (Raised TimeoutExpired), more. split; [by destruct Ho2 as [->| ->]|]. split_and!.
    + by right.
    + right. rewrite Hm, (Hx eq_refl), <-app_assoc. done.
    + intros Hn. by destruct (Hover Hn) as [_ [rc ?]].
Qed.

(** ** Properties *)

(** C21: The life of the native controller.  When the call returns or raises
    [RuntimeError], the controller process has ended, and it returned exactly when its status
    was 0.  Signals are sent only after a stop request: SIGTERM first, and SIGKILL only to a
    process still alive five seconds after that, not earlier.  The only other way out is the
    [TimeoutExpired] of a process that SIGKILL has not ended within two seconds. *)
Theorem controller_outcome b t tape c o :
  0 <= on_kill b -> run_controller b (Ok tt) tape (started b t) = (c, o) -> o ≠ Running ->
  ((exists rc, poll c = Some rc /\ o = (if rc =? 0 then Returned tt else Raised RuntimeError)) \/
   (o = Raised TimeoutExpired /\ 2000 < on_kill b)) /\
  (sent c = [] \/
   existsb t_stop tape = true /\ exists t1,
     sent c = [(t1, SIGTERM)] \/
     exists more, sent c = (t1, SIGTERM) :: (t1 + 5000, SIGKILL) :: more /\
       (o ≠ Raised TimeoutExpired -> more = [])).
Proof.
  intros Hk. unfold run_controller, mbind, st_bind, st_lift. intros Hrun Ho.
  destruct (watch b tape (started b t)) as [c1 o1] eqn:Ew.
  destruct (watch_ends _ _ _ _ _ Ew) as [[-> _]|[-> Hs1]].
  { unfold wait_controller, finally_do, mbind, st_bind in Hrun. rewrite Ew in Hrun. by simplify_eq. }
  destruct (wait_controller_ends b tape _ _ Hk Ew) as (c' & o' & more & Hw & Hout & Hs & Hover).
  rewrite Hw in Hrun.
  assert (Hc : c = c' /\ (o = Raised TimeoutExpired -> o' = Raised TimeoutExpired) /\
    ((exists rc, poll c = Some rc /\ o = (if rc =? 0 then Returned tt else Raised RuntimeError) /\ more = []) \/
     (o = Raised TimeoutExpired /\ 2000 < on_kill b))).
  { destruct Hout as [(rc & -> & Hp & _ & Hm)|[-> Hk2]]; simpl in Hrun.
    - destruct (rc =? 0) eqn:Er; injection Hrun as <- <-; (split_and!; [done|done|]); left; exists rc; by rewrite Er.
    - injection Hrun as <- <-. split_and!; [done|done|by right]. }
  destruct Hc as (-> & Hto & Hc). split; [destruct Hc as [(rc & ? & ? & _)|?]; eauto|].
  destruct Hs1 as [[Hs1 Hp1]|(Hstop & t1 & -> & Hs1)]; simpl in Hs1.
  - left. by destruct (Hover Hp1) as [-> _].
  - right. split; [done|]. exists (now c1). destruct Hs as [[Hs _]|Hs]; rewrite Hs1 in Hs; [by left|].
    right. exists more. split; [done|]. intros Hne. destruct Hc as [(rc & _ & _ & ?)|[? _]]; [done|congruence].
Qed.

(** A stop request ends the call within seven seconds, whatever the controller does: five of
    grace after SIGTERM and two for SIGKILL. *)
Theorem controller_stops b t pre x post :
  0 <= on_kill b <= 2000 -> t_stop x = true -> Forall (fun y => 0 <= t_slept y) pre ->
  let r := run_controller b (Ok tt) (pre ++ x :: post) (started b t) in
  r.2 ≠ Running /\ now r.1 <= t + slept pre + 7000.
Proof.
  intros Hk Hx Hp. simpl. destruct (watch_stops b pre x post (started b t) Hx Hp) as (c1 & Hw & Ht).
  destruct (wait_controller_ends b _ _ _ ltac:(lia) Hw) as (c' & o & more & Hwc & [(rc & -> & _ & Hn & _)|[_ ?]] & _); [|lia].
  unfold run_controller, mbind, st_bind, st_lift. rewrite Hwc. simpl in Ht.
  destruct (rc =? 0); simpl; (split; [done|lia]).
Qed.

(** The options of an argument vector: flags alternating with their values. *)
Fixpoint options_of (args : list string) : option (list (string * string)) :=
  match args with
  | [] => Some []
  | k :: v :: args => kvs ← options_of args; Some ((k, v) :: kvs)
  | [_] => None
  end.

(** Whether the controller is given the gripper. *)
Definition drives_gripper (g : GripperCfg) (shm : option string) : bool :=
  bool_decide (is_Some shm) && g_enabled g && negb (bool_decide (g_name g = "")).

Lemma telemetry_args shms args args' :
  foldM_res (fun args sf => let? shm := of_option KeyError (dget sf.1 shms) in
    Ok (add_arg sf.2 shm args)) TELEMETRY_FLAGS args = Ok args' ->
  exists names, Forall2 (fun sf n => dget sf.1 shms = Some n) TELEMETRY_FLAGS names /\
    args' = (args ++ concat (zip_with (fun sf n => [sf.2; n]) TELEMETRY_FLAGS names))%list.
Proof.
  generalize TELEMETRY_FLAGS as l. intros l. revert args. induction l as [|sf l IH]; intros args; simpl.
  - intros [= <-]. exists []. split; [constructor|]. by rewrite app_nil_r.
  - intros H. res_simp. destruct (dget sf.1 shms) as [n|] eqn:En; simpl in E; [|done]. injection E as <-.
    destruct (IH _ H) as (names & Hf & ->). exists (n :: names). split; [by constructor|].
    unfold add_arg. simpl. by rewrite <-app_assoc.
Qed.

(** Closes the exactness of an argument vector whose flags are literals. *)
Ltac args_exact :=
  lazymatch goal with |- ex (fun _ => ?args = _ /\ _) =>
    let o := eval cbn in (default [] (options_of (drop 1 args))) in
    exists o; split_and!; try reflexivity;
    [apply (bool_decide_unpack _); vm_compute; reflexivity
    |intros ? ? Hin; unfold TELEMETRY_FLAGS in Hin;
     repeat (apply elem_of_cons in Hin as [Hin|Hin]; [injection Hin as -> ->; symmetry; assumption|]);
     by apply elem_of_nil in Hin]
  end.

(** Every flag of the argument vector appears once and carries the value the caller passed:
    in particular each telemetry flag names the segment of its own signal, the setpoint and
    command flags the control channels, the deadman flags the channel's thresholds, and the
    gripper is handed over exactly when it is enabled, named and has a channel. *)
Theorem controller_args_exact repr exe arm nat_cfg control coeffs setpoint cmd shms grip args :
  controller_args repr exe arm nat_cfg control coeffs setpoint cmd shms grip = Ok args ->
  exists opts, args = exe :: concat ((fun kv => [kv.1; kv.2]) <$> opts) /\
    options_of (drop 1 args) = Some opts /\ NoDup (dkeys opts) /\
    (forall signal flag, (signal, flag) ∈ TELEMETRY_FLAGS -> dget flag opts = dget signal shms) /\
    dget "--serial" opts = Some (nc_serial nat_cfg) /\
    dget "--setpoint-shm" opts = Some setpoint /\ dget "--command-shm" opts = Some cmd /\
    dget "--deadman-ms" opts = Some (repr (deadman_ms (channel control))) /\
    dget "--deadman-hard-ms" opts = Some (repr (deadman_hard_ms (channel control))) /\
    dget "--tolerance" opts = Some (repr (ac_tolerance arm)) /\
    dget "--gripper-shm" opts = (if drives_gripper (ac_gripper arm) grip then grip else None).
Proof.
  unfold controller_args. intros H. res_simp. apply telemetry_args in E as (names & Hf & ->).
  repeat (apply Forall2_cons_inv_l in Hf as (? & ? & ? & Hf & ->)). apply Forall2_nil_inv_l in Hf as ->.
  unfold drives_gripper, gripper_args, add_arg.
  destruct (ac_gripper arm) as [en nm ve fo mr db ini ow cw]; simpl.
  destruct grip as [gs|]; [destruct en; [destruct (decide (nm = "")) as [->|Hn]|]|]; simpl;
    rewrite ?(bool_decide_eq_false_2 _ Hn); simpl; [|destruct ow, cw| |]; args_exact.
Qed.

(** ** Witnesses *)

(** A controller that ignores SIGTERM, stopped on the third turn: killed five seconds later. *)
Definition stubborn : behaviour := Behaviour None None 3.
Definition demo_tape : list turn := [Turn false 10; Turn false 11; Turn true 10].

Lemma controller_outcome_witness :
  let r := run_controller stubborn (Ok tt) demo_tape (started stubborn 0) in
  r.2 = Raised RuntimeError /\ exists t1, sent r.1 = [(t1, SIGTERM); (t1 + 5000, SIGKILL)].
Proof.
  intros r. assert (Hr : r.2 = Raised RuntimeError) by (vm_compute; reflexivity). split; [exact Hr|].
  destruct (controller_outcome stubborn 0 demo_tape r.1 r.2) as [_ [Hs|(_ & t1 & [Hs|(more & Hs & Hm)])]].
  - simpl. lia.
  - reflexivity.
  - rewrite Hr. discriminate.
  - vm_compute in Hs. discriminate.
  - vm_compute in Hs. discriminate.
  - exists t1. rewrite Hs, Hm; [reflexivity|]. rewrite Hr. discriminate.
Defined.

Lemma controller_stops_witness :
  let r := run_controller stubborn (Ok tt) demo_tape (started stubborn 0) in
  r.2 ≠ Running /\ now r.1 <= 0 + slept [Turn false 10; Turn false 11] + 7000.
Proof.
  apply (controller_stops stubborn 0 [Turn false 10; Turn false 11] (Turn true 10) []).
  - simpl. lia.
  - reflexivity.
  - repeat constructor; simpl; lia.
Defined.

Definition demo_shms : list (string * string) :=
  (fun sf => (sf.1, "dfc_left_" +:+ sf.1)) <$> TELEMETRY_FLAGS.

(** The argument vector of a concrete arm, with the flags read back from it. *)
Definition demo_args : res (list string) :=
  controller_args (fun _ => "0.1") "/opt/ctl" demo_arm_cfg (Native "Rizon4s-063000" false 0)
    demo_qpos demo_coeffs "dfc_sp" "dfc_cmd" demo_shms (Some "dfc_grip").

Lemma controller_args_exact_witness : exists args opts, demo_args = Ok args /\
  options_of (drop 1 args) = Some opts /\ dget "--tau-ext-shm" opts = Some "dfc_left_tau_ext" /\
  dget "--setpoint-shm" opts = Some "dfc_sp".
Proof.
  destruct demo_args as [args|] eqn:E; [|discriminate E].
  destruct (controller_args_exact (fun _ => "0.1") "/opt/ctl" demo_arm_cfg
    (Native "Rizon4s-063000" false 0) demo_qpos demo_coeffs "dfc_sp" "dfc_cmd" demo_shms
    (Some "dfc_grip") args E)
    as (opts & _ & Ho & _ & Ht & _ & Hs & _).
  exists args, opts. split; [reflexivity|]. split; [exact Ho|]. split; [|exact Hs].
  rewrite (Ht "tau_ext"); [reflexivity|]. unfold TELEMETRY_FLAGS. set_solver.
Defined.
