(* ===== verification/Calibration.v ===== *)
(** * Leader calibration: the pose-set fit

    Models the solver of [dashboard/calibration.py]: the reference poses, the circular
    least-squares fit of offset and sign per joint ([solve_from_samples]), its pairing with the
    captured samples, and the model-home conversion.  The arithmetic is the class of
    [Convention] with the further operations of the fit; the exact statements are proved on its
    rational instance, where sine, cosine and arctangent are arbitrary functions tied by the
    one law the circular mean rests on: the angle of a direction is the angle, up to turns. *)

From Stdlib Require Import SpecFloat QArith Qround Qabs Lqa.
From S2P Require Import Prelude Float64 Streams Convention.
Local Open Scope string_scope.
Local Open Scope Z_scope.

Class Fit (A : Type) `{Num A} := {
  n1 : A;
  nmul : A -> A -> A;
  nsin : A -> A;
  ncos : A -> A;
  narctan2 : A -> A -> A;
  nmean : list A -> A;       (* np.mean *)
  nsqrt : A -> A;
  nabs : A -> A;
  nleb : A -> A -> bool;
  nltb : A -> A -> bool;
  nfinite : A -> bool;
  ntie : A;                  (* 1e-6 *)
}.

(** ** Reference poses *)

Record RefPose := Pose { pose_name : string; q_deg : list Z }.

Definition REFERENCE_POSES : list RefPose :=
  [Pose "Straight up" [0; 0; 0; 0; 0; 0; 0];
   Pose "Elbow bend" [0; -90; 0; 90; 0; 90; 0];
   Pose "Base roll" [90; -90; 0; 90; 0; 90; 0];
   Pose "Upper-arm roll" [0; -90; 90; 90; 0; 90; 0];
   Pose "Forearm roll" [0; -90; 0; 90; 90; 90; 0];
   Pose "Flange roll" [0; -90; 0; 90; 0; 90; 90]].

(** [(l + [0.0] * n)[:n]]. *)
Definition padded {A} (z : A) (n : nat) (l : list A) : list A := take n (l ++ replicate n z).

Definition reference_poses (dof : nat) : list RefPose :=
  (fun p => Pose (pose_name p) (padded 0 dof (q_deg p))) <$> REFERENCE_POSES.

(** ** The fit *)

Record PoseFit (A : Type) := MkFit {
  fit_offsets : list A;
  fit_flips : list nat;
  fit_residuals : list A;
  fit_ambiguous : list nat;
  fit_samples : nat;
}.
Arguments MkFit {A}.
Arguments fit_offsets {A}.
Arguments fit_flips {A}.
Arguments fit_residuals {A}.
Arguments fit_ambiguous {A}.
Arguments fit_samples {A}.

Section fit.
Context {A : Type} `{Fit A}.

Definition circular_mean_deg (vals : list A) : A :=
  let r := nradians <$> vals in
  ndegrees (narctan2 (nmean (nsin <$> r)) (nmean (ncos <$> r))).

(** The offset and residual of one sign, on one joint's samples. *)
Definition fit_sign (sign : A) (ref leader : list A) : A * A :=
  let est := zip_with (fun r l => wrap_deg (nsub (nmul sign r) l)) ref leader in
  let off := circular_mean_deg est in
  (off, nsqrt (nmean ((fun e => let d := wrap_deg (nsub e off) in nmul d d) <$> est))).

(** Offset, negated sign, residual, and whether the samples could not tell the signs apart. *)
Record joint_fit := JFit { jf_off : A; jf_neg : bool; jf_rms : A; jf_ambiguous : bool }.

Definition fit_joint (fallback : bool) (ref leader : list A) : joint_fit :=
  let pos := fit_sign n1 ref leader in
  let neg := fit_sign (nneg n1) ref leader in
  let tie := nleb (nabs (nsub pos.2 neg.2)) ntie in
  let negated := if tie then fallback else nltb neg.2 pos.2 in
  let kept := if negated then neg else pos in
  JFit kept.1 negated kept.2 tie.

(** Column [j] of a matrix given by its rows. *)
Definition column (j : nat) (rows : list (list A)) : list A := omap (lookup j) rows.

Definition joint_fits (fallback : list Z) (dof : nat) (refs leaders : list (list A)) : list joint_fit :=
  (fun j => fit_joint (bool_decide (Z.of_nat j ∈ fallback)) (column j refs) (column j leaders)) <$> seq 0 dof.

(** The indices of the joints satisfying a test, in order. *)
Definition where_ (p : joint_fit -> bool) (l : list joint_fit) : list nat :=
  omap (fun ij => if p ij.2 then Some ij.1 else None) (zip (seq 0 (length l)) l).

(** [np.asarray(rows)]: rows of unequal lengths do not form an array. *)
Definition as_matrix (rows : list (list A)) : res nat :=
  match rows with
  | [] => Ok 0%nat
  | r :: _ => if forallb (fun x => bool_decide (length x = length r)) rows then Ok (length r)
              else Raise ValueError
  end.

Definition solve_from_samples (pairs : list (list A * list A)) (fallback : list Z) : res (PoseFit A) :=
  match pairs with
  | [] => Raise RuntimeError
  | _ =>
      let? n := as_matrix (pairs.*1) in
      let? m := as_matrix (pairs.*2) in
      if negb (n =? m)%nat then Raise RuntimeError
      else
        let fits := joint_fits fallback n (pairs.*2) (pairs.*1) in
        Ok (MkFit (jf_off <$> fits) (where_ jf_neg fits) (jf_rms <$> fits)
              (where_ jf_ambiguous fits) (length pairs))
  end.

(** [solve_pose_samples]: the samples whose pose is known and whose length fits. *)
Definition pose_pairs (of_Z : Z -> A) (poses : list RefPose) (samples : list (string * list A)) :
    list (list A * list A) :=
  let table := (fun p => (pose_name p, of_Z <$> q_deg p)) <$> poses in
  omap (fun nq => ref ← dget nq.1 table;
          if (length nq.2 =? length ref)%nat then Some (nq.2, ref) else None) samples.

Definition solve_pose_samples (of_Z : Z -> A) (dof : nat) (conv : JointConventionCfg A)
    (samples : list (string * list A)) : res (PoseFit A) :=
  match pose_pairs of_Z (reference_poses dof) samples with
  | [] => Raise RuntimeError
  | pairs => solve_from_samples pairs (sign_flip_joints conv)
  end.

(** ** The model home *)

Record ModelHomeFit := MkHome { home_q_rad : list A; home_signs : list A; target_q_rad : list A }.

Definition neq (x y : A) : bool := nleb x y && nleb y x.

Definition derived_offset_rad (h : ModelHomeFit) : list A :=
  zip_with nsub (target_q_rad h) (zip_with nmul (home_signs h) (home_q_rad h)).

(** [{int(j) for j in flips}], as the list of its elements. *)
Definition flip_set (flips : list Z) : list Z := remove_dups flips.

Definition solve_model_home (raw offsets : list A) (flips : list Z) (signs target : list A) :
    res ModelHomeFit :=
  if negb ((length raw =? length offsets) && (length offsets =? length signs) &&
           (length signs =? length target))%nat then Raise RuntimeError
  else if negb (forallb nfinite (raw ++ offsets ++ signs ++ target)) then Raise RuntimeError
  else if negb (forallb (fun s => neq s (nneg n1) || neq s n1) signs) then Raise RuntimeError
  else if existsb (fun j => (j <? 0) || (Z.of_nat (length raw) <=? j)) (flip_set flips)
    then Raise RuntimeError
  else
    let? q := foldM_res (fun d j => py_update nneg d j) (flip_set flips) (zip_with nadd raw offsets) in
    Ok (MkHome (nradians <$> (wrap_deg <$> q)) signs target).
End fit.
Arguments joint_fit : clear implicits.
Arguments ModelHomeFit : clear implicits.

(** ** Index lists *)

Section indices.
Context {A : Type}.
Implicit Types l : list (joint_fit A).

Lemma elem_of_where p l j : j ∈ where_ p l <-> exists x, l !! j = Some x /\ p x = true.
Proof.
  unfold where_. rewrite list_elem_of_omap. split.
  - intros ([i x] & Hin & Hif). simpl in Hif. destruct (p x) eqn:Ep; [|done]. injection Hif as ->.
    apply elem_of_lookup_zip_with in Hin as (k & i' & x' & Heq & Hi & Hx).
    injection Heq as -> ->. apply lookup_seq in Hi as [-> _]. by exists x'.
  - intros (x & Hx & Hp). exists (j, x). simpl. rewrite Hp. split; [|done].
    apply elem_of_lookup_zip_with. exists j, j, x. split_and!; [done| |done].
    apply lookup_seq. split; [done|]. by eapply lookup_lt_Some.
Qed.

Lemma NoDup_omap_fst (p : joint_fit A -> bool) (ks : list nat) l :
  NoDup ks -> NoDup (omap (fun ij => if p ij.2 then Some ij.1 else None) (zip ks l)).
Proof.
  intros Hk. revert l. induction Hk as [|k ks Hn Hk IH]; intros [|x l]; simpl; try constructor.
  destruct (p x); simpl; [|done]. constructor; [|done]. intros Hin. apply Hn.
  apply list_elem_of_omap in Hin as ([i y] & Hin & Hif). simpl in Hif. destruct (p y); [|done].
  injection Hif as ->. apply elem_of_lookup_zip_with in Hin as (m & i' & y' & Heq & Hi & _).
  injection Heq as -> ->. by eapply list_elem_of_lookup_2.
Qed.

Lemma NoDup_where p l : NoDup (where_ p l).
Proof. apply NoDup_omap_fst, NoDup_seq. Qed.

Lemma where_lt p l j : j ∈ where_ p l -> (j < length l)%nat.
Proof. intros (x & Hx & _)%elem_of_where. by eapply lookup_lt_Some. Qed.
End indices.

(** Distinct indices in range: the updates all succeed and touch each index once. *)
Lemma updates_lookup {A} (f : A -> A) (js : list nat) (l : list A) :
  NoDup js -> Forall (fun j => (j < length l)%nat) js ->
  exists l', foldM_res (fun d j => py_update f d j) (Z.of_nat <$> js) l = Ok l' /\
    length l' = length l /\
    forall j, l' !! j = if decide (j ∈ js) then f <$> l !! j else l !! j.
Proof.
  intros Hd. revert l. induction Hd as [|j js Hn Hd IH]; intros l Hr; csimpl.
  - exists l. split_and!; [done|done|]. by intros j.
  - apply Forall_cons in Hr as [Hj Hr]. unfold py_update at 1.
    replace (Z.of_nat j <? 0) with false by lia.
    replace ((Z.of_nat j <? 0) || (Z.of_nat (length l) <=? Z.of_nat j)) with false by lia.
    replace (false || (Z.of_nat (length l) <=? Z.of_nat j)) with false by lia.
    cbn [res_bind]. rewrite Nat2Z.id.
    destruct (IH (alter f j l)) as (l' & -> & Hl & Hl'); [by rewrite length_alter|].
    exists l'. split_and!; [done|by rewrite Hl, length_alter|]. intros i. rewrite Hl'.
    destruct (decide (i = j)) as [->|Hne].
    + rewrite (decide_False (P:=j ∈ js)), (decide_True (P:=j ∈ j :: js)) by set_solver.
      by rewrite list_lookup_alter_eq.
    + rewrite list_lookup_alter_ne by done.
      destruct (decide (i ∈ js)), (decide (i ∈ j :: js)); (done || set_solver).
Qed.

Lemma updates_length {A} (f : A -> A) js (l l' : list A) :
  foldM_res (fun d j => py_update f d j) js l = Ok l' -> length l' = length l.
Proof.
  revert l. induction js as [|j js IH]; intros l; simpl; [by intros [= <-]|].
  unfold py_update at 1. destruct (_ || _); simpl; [done|]. intros ->%IH. apply length_alter.
Qed.

Lemma remove_dups_nodup {A} `{EqDecision A} (l : list A) : NoDup l -> remove_dups l = l.
Proof.
  induction 1 as [|x l Hn Hd IH]; simpl; [done|]. rewrite IH. by destruct (decide_rel _ x l).
Qed.

(** ** The rational instance *)

Definition Qsum (l : list Q) : Q := foldr Qplus 0%Q l.

Definition fit_Q (degrees radians sin cos : Q -> Q) (atan2 : Q -> Q -> Q) (sqrt : Q -> Q) :
    @Fit Q (num_Q degrees radians) :=
  @Build_Fit Q (num_Q degrees radians) 1%Q Qmult sin cos atan2
    (fun l => (Qsum l / inject_Z (Z.of_nat (length l)))%Q)
    sqrt Qabs Qle_bool (fun x y => negb (Qle_bool y x)) (fun _ => true) (1 # 1000000).

(** What the fit relies on of the numerical library: every function respects equality, the
    direction of an angle has that angle up to whole turns, and the root of zero is zero. *)
Class TrigLaws (degrees radians sin cos : Q -> Q) (atan2 : Q -> Q -> Q) (sqrt : Q -> Q) : Prop := {
  degrees_proper :: Proper (Qeq ==> Qeq) degrees;
  radians_proper :: Proper (Qeq ==> Qeq) radians;
  sin_proper :: Proper (Qeq ==> Qeq) sin;
  cos_proper :: Proper (Qeq ==> Qeq) cos;
  atan2_proper :: Proper (Qeq ==> Qeq ==> Qeq) atan2;
  sqrt_proper :: Proper (Qeq ==> Qeq) sqrt;
  angle_of_direction x : exists k,
    (degrees (atan2 (sin (radians x)) (cos (radians x))) == x + 360 * inject_Z k)%Q;
  sqrt_zero : (sqrt 0 == 0)%Q;
  sqrt_nonneg x : (0 <= sqrt x)%Q;
}.

Lemma Qsum_const l x : Forall (fun y => y == x)%Q l ->
  (Qsum l == inject_Z (Z.of_nat (length l)) * x)%Q.
Proof.
  induction 1 as [|y l Hy Hl IH]; simpl; [by rewrite Qmult_0_l|].
  rewrite IH, Hy, Nat2Z.inj_succ, <-Z.add_1_r, inject_Z_plus. change (inject_Z 1) with 1%Q. ring.
Qed.

Section exact_fit.
Context (degrees radians sin cos : Q -> Q) (atan2 : Q -> Q -> Q) (sqrt : Q -> Q).
Context `{HT : !TrigLaws degrees radians sin cos atan2 sqrt}.
Local Instance nqc : Num Q := num_Q degrees radians.
Local Instance fqc : Fit Q := fit_Q degrees radians sin cos atan2 sqrt.
Local Open Scope Q_scope.

Lemma mean_const l x : l ≠ [] -> Forall (fun y => y == x) l -> nmean l == x.
Proof.
  intros Hn Hl. cbn [nmean fqc fit_Q]. rewrite (Qsum_const _ _ Hl). field.
  destruct l; [done|]. unfold Qeq. simpl. lia.
Qed.

Lemma circular_mean_const l x : l ≠ [] -> Forall (fun y => y == x) l ->
  exists k, circular_mean_deg l == x + 360 * inject_Z k.
Proof.
  intros Hn Hl. destruct (angle_of_direction (sqrt := sqrt) (TrigLaws := HT) x) as [k Hk]. exists k. rewrite <-Hk.
  unfold circular_mean_deg. cbn [ndegrees nqc num_Q]. apply degrees_proper. cbn [narctan2 fqc fit_Q].
  apply atan2_proper.
  - apply mean_const; [by destruct l|]. apply Forall_fmap, Forall_fmap. eapply Forall_impl; [exact Hl|].
    intros y Hy. simpl. by rewrite Hy.
  - apply mean_const; [by destruct l|]. apply Forall_fmap, Forall_fmap. eapply Forall_impl; [exact Hl|].
    intros y Hy. simpl. by rewrite Hy.
Qed.

(** Reference and leader agree under an offset and a sign, up to whole turns. *)
Definition sample_ok (neg : bool) (off r l : Q) : Prop :=
  exists k, r == (if neg then - (l + off) else l + off) + 360 * inject_Z k.

Definition sign_of (neg : bool) : Q := if neg then nneg n1 else n1.

(** Every per-sample estimate of the right sign is the offset, reduced. *)
Lemma estimate_exact neg off r l : sample_ok neg off r l ->
  wrap_deg (nsub (nmul (sign_of neg) r) l) == wrap_deg off.
Proof.
  intros [k Hk]. destruct neg.
  - apply (wrap_deg_periodic degrees radians _ _ (- k)). rewrite inject_Z_opp.
    unfold sign_of. cbn [nsub nmul nneg n1 nqc fqc fit_Q num_Q]. rewrite Hk. ring.
  - apply (wrap_deg_periodic degrees radians _ _ k). unfold sign_of.
    cbn [nsub nmul nneg n1 nqc fqc fit_Q num_Q]. rewrite Hk. ring.
Qed.

Lemma fit_sign_exact neg off ref leader :
  ref ≠ [] -> Forall2 (sample_ok neg off) ref leader ->
  (exists k, (fit_sign (sign_of neg) ref leader).1 == off + 360 * inject_Z k) /\
  (fit_sign (sign_of neg) ref leader).2 == 0.
Proof.
  intros Hn Hs. unfold fit_sign. cbn zeta. set (est := zip_with _ ref leader).
  assert (Forall (fun y => y == wrap_deg off) est) as He.
  { subst est. clear Hn. induction Hs as [|r l ref leader Hrl Hs IH]; simpl; constructor; [|done].
    by apply estimate_exact. }
  assert (est ≠ []) as Hne by (subst est; by destruct Hs).
  destruct (circular_mean_const est _ Hne He) as [k Hk].
  destruct (wrap_deg_range degrees radians off) as [_ [k' Hk']].
  assert (forall e, e == wrap_deg off -> wrap_deg (nsub e (circular_mean_deg est)) == 0) as Hz.
  { intros e Hee. apply (wrap_deg_whole degrees radians _ (- k)). cbn [nsub nqc num_Q].
    rewrite inject_Z_opp, Hee, Hk. ring. }
  cbn [fst snd]. split.
  - exists (k - k')%Z. unfold Z.sub. rewrite Hk, Hk', inject_Z_plus, inject_Z_opp. ring.
  - cbn [nsqrt fqc fit_Q]. etransitivity; [|exact (sqrt_zero (TrigLaws := HT))]. apply sqrt_proper, mean_const; [by destruct est|].
    apply Forall_fmap. eapply Forall_impl; [exact He|]. intros e Hee. simpl. by rewrite (Hz e Hee).
Qed.

(** A residual is never negative. *)
Lemma fit_sign_rms s ref leader : 0 <= (fit_sign s ref leader).2.
Proof. unfold fit_sign. cbn [snd nsqrt fqc fit_Q]. apply (sqrt_nonneg (TrigLaws := HT)). Qed.

Lemma fit_joint_exact fallback neg off ref leader :
  ref ≠ [] -> Forall2 (sample_ok neg off) ref leader ->
  jf_rms (fit_joint fallback ref leader) <= ntie /\
  (jf_ambiguous (fit_joint fallback ref leader) = false ->
   jf_neg (fit_joint fallback ref leader) = neg /\
   exists k, jf_off (fit_joint fallback ref leader) == off + 360 * inject_Z k).
Proof.
  intros Hn Hs. destruct (fit_sign_exact neg off ref leader Hn Hs) as [Hoff Hrms].
  pose proof (fit_sign_rms n1 ref leader) as Hp. pose proof (fit_sign_rms (nneg n1) ref leader) as Hm.
  unfold fit_joint. cbn zeta.
  set (p := fit_sign n1 ref leader) in *. set (m := fit_sign (nneg n1) ref leader) in *.
  assert (forall x y : Q, nleb x y = true <-> x <= y) as Hle by exact Qle_bool_iff.
  assert (forall x y : Q, nltb x y = true <-> x < y) as Hlt.
  { intros x y. cbn [nltb fqc fit_Q]. rewrite negb_true_iff, <-not_true_iff_false, Qle_bool_iff. split; lra. }
  assert (nleb (nabs (nsub (snd p) (snd m))) ntie = true <-> Qabs (snd p - snd m) <= ntie) as Ht by apply Hle.
  assert (0 < ntie) as Hpos by done.
  assert (forall x y : Q, 0 <= x -> y == 0 -> Qabs (x - y) == x /\ Qabs (y - x) == x) as Habs.
  { intros x y Hx Hy. rewrite Hy. split; [rewrite Qabs_pos by lra|rewrite Qabs_neg by lra]; ring. }
  destruct (nleb _ ntie) eqn:Etie; cbn [jf_rms jf_neg jf_off jf_ambiguous].
  - split; [|done]. assert (Qabs (snd p - snd m) <= ntie) as H1 by by apply Ht.
    destruct neg; cbn [sign_of] in *; fold p m in Hoff, Hrms |- *.
    + destruct (Habs (snd p) (snd m) Hp Hrms) as [H2 _]. rewrite H2 in H1. destruct fallback; [rewrite Hrms; lra|lra].
    + destruct (Habs (snd m) (snd p) Hm Hrms) as [_ H2]. rewrite H2 in H1. destruct fallback; [lra|rewrite Hrms; lra].
  - assert (~ Qabs (snd p - snd m) <= ntie) as H1 by (rewrite <-Ht; by intros ?).
    destruct neg; cbn [sign_of] in *; fold p m in Hoff, Hrms |- *.
    + destruct (Habs (snd p) (snd m) Hp Hrms) as [H2 _]. rewrite H2 in H1.
      assert (nltb (snd m) (snd p) = true) as -> by (apply Hlt; lra). rewrite Hrms. split; [lra|done].
    + destruct (Habs (snd m) (snd p) Hm Hrms) as [_ H2]. rewrite H2 in H1.
      assert (nltb (snd m) (snd p) = false) as -> by (apply not_true_iff_false; rewrite Hlt; lra).
      rewrite Hrms. split; [lra|done].
Qed.
End exact_fit.

Section recover.
Context (degrees radians sin cos : Q -> Q) (atan2 : Q -> Q -> Q) (sqrt : Q -> Q).
Context `{HT : !TrigLaws degrees radians sin cos atan2 sqrt}.
Local Instance nqr : Num Q := num_Q degrees radians.
Local Instance fqr : Fit Q := fit_Q degrees radians sin cos atan2 sqrt.

(** A pair of a leader sample and its reference pose that the true signs and offsets explain. *)
Definition pair_ok (truth : list (bool * Q)) (p : list Q * list Q) : Prop :=
  length p.1 = length truth /\ length p.2 = length truth /\
  forall j neg off l r, truth !! j = Some (neg, off) -> p.1 !! j = Some l -> p.2 !! j = Some r ->
    sample_ok neg off r l.

Lemma columns_exact truth pairs j neg off :
  Forall (pair_ok truth) pairs -> truth !! j = Some (neg, off) ->
  Forall2 (sample_ok neg off) (column j (pairs.*2)) (column j (pairs.*1)) /\
  (pairs ≠ [] -> column j (pairs.*2) ≠ []).
Proof.
  intros Hp Hj. pose proof (lookup_lt_Some _ _ _ Hj) as Hlt. unfold column.
  induction Hp as [|[ls rs] pairs (Hl & Hr & Hok) Hp [IH _]]; csimpl; [by split; [constructor|]|]. simpl in *.
  destruct (lookup_lt_is_Some_2 ls j ltac:(lia)) as [l El]. destruct (lookup_lt_is_Some_2 rs j ltac:(lia)) as [r Er].
  rewrite El, Er. split; [|done]. constructor; [|done]. by eapply Hok.
Qed.

Lemma column_one j (row : list Q) x : row !! j = Some x -> column j [row] = [x].
Proof. intros E. unfold column. csimpl. by rewrite E. Qed.

Lemma as_matrix_rows (rows : list (list Q)) n :
  rows ≠ [] -> Forall (fun r => length r = n) rows -> as_matrix rows = Ok n.
Proof.
  intros Hn Hr. destruct rows as [|r rows]; [done|]. unfold as_matrix.
  pose proof Hr as [Hr0 _]%Forall_cons. rewrite Hr0.
  assert (forallb (fun x => bool_decide (length x = n)) (r :: rows) = true) as ->; [|done].
  apply forallb_forall. intros x Hx%list_elem_of_In. rewrite Forall_forall in Hr. by apply bool_decide_eq_true_2, Hr.
Qed.

(** One joint of the conversion under a fitted convention. *)
Lemma convert_fitted (q offs : list Q) (js : list nat) :
  length offs = length q -> NoDup js -> Forall (fun j => (j < length q)%nat) js ->
  exists out, convert_deg q (Convention offs (Z.of_nat <$> js) 0 None None) = Ok out /\
    length out = length q /\
    forall j x o, q !! j = Some x -> offs !! j = Some o ->
      out !! j = Some (wrap_deg (if decide (j ∈ js) then - (degrees x + o) else degrees x + o)%Q).
Proof.
  intros Hl Hd Hr. unfold convert_deg, drop_gripper. cbn [drop_trailing offsets_deg sign_flip_joints].
  rewrite Z.eqb_refl, take_ge by lia. unfold vec_add. rewrite length_fmap, Hl, Nat.eqb_refl. cbn [res_bind].
  set (d0 := zip_with nadd (ndegrees <$> q) offs).
  assert (length d0 = length q) as Hl0 by (subst d0; rewrite length_zip_with, length_fmap; lia).
  destruct (updates_lookup nneg js d0 Hd) as (d1 & -> & Hl1 & Hd1); [by rewrite Hl0|]. cbn [res_bind].
  eexists. split; [done|]. split; [rewrite length_fmap; lia|]. intros j x o Hx Ho.
  rewrite list_lookup_fmap, Hd1. subst d0. rewrite lookup_zip_with, list_lookup_fmap, Hx, Ho. simpl.
  by destruct (decide (j ∈ js)).
Qed.

Lemma lookup_joint_fits fb dof refs leaders j : (j < dof)%nat ->
  joint_fits fb dof refs leaders !! j =
    Some (fit_joint (bool_decide (Z.of_nat j ∈ fb)) (column j refs) (column j leaders)).
Proof. intros Hj. unfold joint_fits. by rewrite list_lookup_fmap, lookup_seq_lt. Qed.

(** Offsets equal up to whole turns and the right sign give the reference, reduced. *)
Lemma follow_exact neg off off' d l r : (d == l)%Q -> (exists k, off' == off + 360 * inject_Z k)%Q ->
  sample_ok neg off r l ->
  (wrap_deg (if neg then - (d + off') else d + off')%Q == wrap_deg r)%Q.
Proof.
  intros Hd [k Hk] [m Hm]. destruct neg.
  - apply (wrap_deg_periodic degrees radians _ _ (- k - m)). unfold Z.sub.
    rewrite inject_Z_plus, !inject_Z_opp, Hm, Hk, Hd. ring.
  - apply (wrap_deg_periodic degrees radians _ _ (k - m)). unfold Z.sub.
    rewrite inject_Z_plus, inject_Z_opp, Hm, Hk, Hd. ring.
Qed.

(** One sample at zero fits both signs, and the fallback decides. *)
Lemma straight_joint fallback l :
  let f := fit_joint fallback [0%Q] [l] in
  jf_ambiguous f = true /\ jf_neg f = fallback /\ exists k, (jf_off f == - l + 360 * inject_Z k)%Q.
Proof.
  assert (forall neg, Forall2 (sample_ok neg (- l)) [0%Q] [l]) as Hs.
  { intros neg. constructor; [|constructor]. exists 0%Z. change (inject_Z 0) with 0%Q. destruct neg; ring. }
  destruct (fit_sign_exact degrees radians sin cos atan2 sqrt false (- l)%Q [0%Q] [l] ltac:(done) (Hs false)) as [Hp Hp0].
  destruct (fit_sign_exact degrees radians sin cos atan2 sqrt true (- l)%Q [0%Q] [l] ltac:(done) (Hs true)) as [Hm Hm0].
  unfold sign_of in *. unfold fit_joint. cbn zeta.
  set (p := fit_sign n1 [0%Q] [l]) in *. set (m := fit_sign (nneg n1) [0%Q] [l]) in *.
  assert (nleb (nabs (nsub p.2 m.2)) ntie = true) as ->; cbn [jf_ambiguous jf_neg jf_off].
  { apply Qle_bool_iff. cbn [nabs nsub nqr fqr num_Q fit_Q].
    rewrite (Qabs_wd _ 0) by (rewrite Hp0, Hm0; ring). by vm_compute. }
  split; [done|]. split; [done|]. by destruct fallback.
Qed.

(** Every joint of the fit is explained by the truth, up to the tie threshold. *)
Lemma fits_explained truth pairs fallback j f :
  pairs ≠ [] -> Forall (pair_ok truth) pairs ->
  joint_fits fallback (length truth) (pairs.*2) (pairs.*1) !! j = Some f ->
  exists neg off, truth !! j = Some (neg, off) /\ (jf_rms f <= 1 # 1000000)%Q /\
    (jf_ambiguous f = false -> jf_neg f = neg /\ exists k, (jf_off f == off + 360 * inject_Z k)%Q).
Proof.
  intros Hne Hp Hj. pose proof (lookup_lt_Some _ _ _ Hj) as Hlt.
  unfold joint_fits in Hlt. rewrite length_fmap, length_seq in Hlt.
  destruct (lookup_lt_is_Some_2 truth j Hlt) as [[neg off] Et]. exists neg, off. split; [done|].
  rewrite lookup_joint_fits in Hj by done. injection Hj as <-.
  destruct (columns_exact truth pairs j neg off Hp Et) as [Hc Hcn].
  exact (fit_joint_exact degrees radians sin cos atan2 sqrt _ neg off _ _ (Hcn Hne) Hc).
Qed.

(** The solver on samples of one width. *)
Lemma solve_rows pairs fallback n :
  pairs ≠ [] -> Forall (fun p => length p.1 = n /\ length p.2 = n) pairs ->
  let fits := joint_fits fallback n (pairs.*2) (pairs.*1) in
  solve_from_samples pairs fallback = Ok (MkFit (jf_off <$> fits) (where_ jf_neg fits) (jf_rms <$> fits)
    (where_ jf_ambiguous fits) (length pairs)).
Proof.
  intros Hne Hp. unfold solve_from_samples. rewrite (as_matrix_rows (pairs.*1) n), (as_matrix_rows (pairs.*2) n);
    [|by destruct pairs|apply Forall_fmap; eapply Forall_impl; [exact Hp|by intros ? [??]]
     |by destruct pairs|apply Forall_fmap; eapply Forall_impl; [exact Hp|by intros ? [??]]].
  cbn [res_bind]. rewrite Nat.eqb_refl. by destruct pairs.
Qed.
End recover.

(** ** Properties *)

(** C31: The pose-set calibration recovers the leader's convention.  In exact arithmetic, samples
    that some signs and offsets explain are fitted with a residual of at most the tie
    threshold on every joint, and converting any captured sample with the fitted convention
    gives its reference pose on every joint the samples decide. *)
Theorem pose_fit_recovers degrees radians sin cos atan2 sqrt
    (HT : TrigLaws degrees radians sin cos atan2 sqrt) (truth : list (bool * Q))
    (pairs : list (list Q * list Q)) (fallback : list Z) :
  pairs ≠ [] -> Forall (pair_ok truth) pairs ->
  exists fit,
    @solve_from_samples Q _ (fit_Q degrees radians sin cos atan2 sqrt) pairs fallback = Ok fit /\
    Forall (fun r => r <= 1 # 1000000)%Q (fit_residuals fit) /\
    forall p q, p ∈ pairs -> Forall2 Qeq (degrees <$> q) p.1 ->
      exists out, @convert_deg Q (num_Q degrees radians) q
          (Convention (fit_offsets fit) (Z.of_nat <$> fit_flips fit) 0 None None) = Ok out /\
        length out = length truth /\
        forall j r x, j ∉ fit_ambiguous fit -> p.2 !! j = Some r -> out !! j = Some x ->
          (x == @wrap_deg Q (num_Q degrees radians) r)%Q.
Proof.
  intros Hne Hp. set (n := length truth).
  rewrite (solve_rows _ _ _ _ _ _ pairs fallback n Hne)
    by (eapply Forall_impl; [exact Hp|by intros ? (?&?&?)]).
  set (fits := joint_fits _ _ _ _).
  assert (length fits = n) as Hfl by (subst fits; unfold joint_fits; by rewrite length_fmap, length_seq).
  pose proof (fun j f => fits_explained degrees radians sin cos atan2 sqrt truth pairs fallback j f Hne Hp) as Hf.
  eexists. split; [done|]. cbn [fit_residuals fit_offsets fit_flips fit_ambiguous]. split.
  { apply Forall_fmap, Forall_lookup. intros j f Hj. simpl. by destruct (Hf j f Hj) as (? & ? & _ & ? & _). }
  intros p q Hpin Hq. destruct (proj1 (Forall_forall _ _) Hp p Hpin) as (Hl1 & Hl2 & Hok).
  assert (length q = n) as Hlq by (rewrite <-(length_fmap degrees q), (Forall2_length _ _ _ Hq); exact Hl1).
  destruct (convert_fitted degrees radians q (jf_off <$> fits) (where_ jf_neg fits)) as (out & Ho & Hlo & Hlk).
  { rewrite length_fmap. lia. } { apply NoDup_where. }
  { apply Forall_forall. intros j Hj%where_lt. lia. }
  exists out. split; [exact Ho|]. split; [lia|]. intros j r x Hamb Hr Hx.
  assert (j < n)%nat as Hlt by (rewrite <-Hlq, <-Hlo; by eapply lookup_lt_Some).
  destruct (lookup_lt_is_Some_2 fits j ltac:(lia)) as [f Ef].
  destruct (lookup_lt_is_Some_2 q j ltac:(lia)) as [y Ey].
  destruct (lookup_lt_is_Some_2 p.1 j ltac:(lia)) as [l El].
  rewrite (Hlk j y (jf_off f) Ey) in Hx by by rewrite list_lookup_fmap, Ef. injection Hx as <-.
  destruct (Hf j f Ef) as (neg & off & Et & _ & Hfa).
  destruct Hfa as [Hneg Hoff]. { apply not_true_iff_false. intros Ha. apply Hamb, elem_of_where. by exists f. }
  assert (degrees y == l)%Q as Hyl.
  { apply (Forall2_lookup_lr _ _ _ j _ _ Hq); [by rewrite list_lookup_fmap, Ey|done]. }
  rewrite <-(follow_exact degrees radians neg off (jf_off f) (degrees y) l r Hyl Hoff (Hok j _ _ _ _ Et El Hr)).
  destruct (decide (j ∈ where_ jf_neg fits)) as [Hw|Hw].
  - apply elem_of_where in Hw as (f' & Ef' & Hn'). assert (f' = f) as -> by congruence. by rewrite <-Hneg, Hn'.
  - assert (neg = false) as ->; [|done]. rewrite <-Hneg. apply not_true_iff_false. intros Hn'.
    apply Hw, elem_of_where. by exists f.
Qed.

(** A single straight-pose capture degrades to the straight-pose solve: every joint is
    ambiguous and keeps its configured flip, and the fitted offsets are those of
    [offsets_from_straight_pose] up to whole turns. *)
Theorem straight_fit_degrades degrees radians sin cos atan2 sqrt
    (HT : TrigLaws degrees radians sin cos atan2 sqrt) (q : list Q) (conv : JointConventionCfg Q)
    (fallback : list Z) :
  let leader := degrees <$> drop_gripper q conv in
  exists fit,
    @solve_from_samples Q _ (fit_Q degrees radians sin cos atan2 sqrt)
      [(leader, replicate (length leader) 0%Q)] fallback = Ok fit /\
    (forall j, (j < length leader)%nat ->
      j ∈ fit_ambiguous fit /\ (j ∈ fit_flips fit <-> Z.of_nat j ∈ fallback)) /\
    Forall2 (fun o o' => exists k, o == o' + 360 * inject_Z k)%Q (fit_offsets fit)
      (@offsets_from_straight_pose Q (num_Q degrees radians) q conv).
Proof.
  intros leader. set (n := length leader).
  rewrite (solve_rows _ _ _ _ _ _ _ fallback n) 
    by (done || (constructor; [simpl; by rewrite length_replicate|constructor])).
  set (fits := joint_fits _ _ _ _).
  assert (forall j l, leader !! j = Some l -> exists f, fits !! j = Some f /\ jf_ambiguous f = true /\
    jf_neg f = bool_decide (Z.of_nat j ∈ fallback) /\ exists k, (jf_off f == - l + 360 * inject_Z k)%Q) as Hf.
  { intros j l Hl. eexists. split.
    { apply lookup_joint_fits. by eapply lookup_lt_Some. }
    cbn [fmap list_fmap fst snd]. rewrite (column_one j _ _ Hl), (column_one j _ 0%Q)
      by (apply lookup_replicate_2; by eapply lookup_lt_Some).
    exact (straight_joint degrees radians sin cos atan2 sqrt (bool_decide (Z.of_nat j ∈ fallback)) l). }
  eexists. split; [done|]. cbn [fit_offsets fit_flips fit_ambiguous]. split.
  - intros j Hj. destruct (lookup_lt_is_Some_2 leader j Hj) as [l Hl]. destruct (Hf j l Hl) as (f & Ef & Ha & Hn & _).
    split; [apply elem_of_where; by exists f|]. rewrite elem_of_where. split.
    + intros (f' & Ef' & Hn'). assert (f' = f) as -> by congruence. rewrite Hn in Hn'. by apply bool_decide_eq_true in Hn'.
    + intros Hin. exists f. split; [done|]. rewrite Hn. by apply bool_decide_eq_true.
  - apply Forall2_same_length_lookup. split.
    { subst fits. unfold joint_fits, offsets_from_straight_pose. rewrite !length_fmap, length_seq.
      unfold n, leader. by rewrite length_fmap. }
    intros j o o' Ho Ho'. apply list_lookup_fmap_Some in Ho as (f & -> & Ef).
    unfold offsets_from_straight_pose in Ho'. apply list_lookup_fmap_Some in Ho' as (x & -> & Ex).
    destruct (Hf j (degrees x)) as (f' & Ef' & _ & _ & [k Hk]). { unfold leader. by rewrite list_lookup_fmap, Ex. }
    assert (f' = f) as -> by congruence.
    destruct (wrap_deg_range degrees radians (- degrees x)%Q) as [_ [k' Hk']].
    exists (k + k')%Z. rewrite inject_Z_plus. cbn [nneg ndegrees num_Q]. rewrite Hk, Hk'. ring.
Qed.

(** The measured model home is the follower pose the live pipeline would command: when the
    model-home capture is accepted, converting the same leader reading with the same offsets
    and flips gives exactly the recorded home, bit for bit in whichever arithmetic. *)
Lemma home_converts {A} `{Fit A} (q raw offsets signs target : list A) (flips : list Z)
    (h : ModelHomeFit A) (conv : JointConventionCfg A) :
  solve_model_home raw offsets flips signs target = Ok h ->
  raw = ndegrees <$> drop_gripper q conv -> offsets_deg conv = offsets ->
  sign_flip_joints conv = flips -> NoDup flips ->
  convert_factr_to_rizon q conv = Ok (home_q_rad h) /\
  home_signs h = signs /\ target_q_rad h = target /\ length (home_q_rad h) = length signs.
Proof.
  intros Hs Hraw Hoff Hfl Hnd. unfold solve_model_home in Hs.
  destruct (negb _) eqn:El in Hs; [done|]. apply negb_false_iff in El.
  apply andb_true_iff in El as [El Ets]. apply andb_true_iff in El as [Elo Els].
  apply Nat.eqb_eq in Elo, Els, Ets.
  do 2 (destruct (negb _) in Hs; [done|]). destruct (existsb _ _) in Hs; [done|].
  assert (flip_set flips = flips) as Hfs by (by apply remove_dups_nodup).
  rewrite Hfs in Hs. destruct (foldM_res _ _ _) as [d|] eqn:E in Hs; [|done]. injection Hs as <-.
  cbn [home_q_rad home_signs target_q_rad].
  assert (length d = length raw) as Hlen by (apply updates_length in E; rewrite E, length_zip_with; lia).
  split_and!; [|done|done|rewrite !length_fmap; lia].
  unfold convert_factr_to_rizon, convert_deg. rewrite Hoff, Hfl.
  rewrite take_ge by (rewrite <-Elo, Hraw, length_fmap; lia).
  unfold vec_add. rewrite <-Hraw, Elo, Nat.eqb_refl. cbn [res_bind]. by rewrite E.
Qed.

(** A flip listed twice is applied once by the model-home solve and twice by the converter:
    the two agree only on duplicate-free lists. *)
Lemma duplicate_flip_diverges :
  let conv := Convention [0%Q] [0; 0] 0 None None in
  @solve_model_home Q _ (fit_Q id id id id (fun s _ => s) Qabs) [10%Q] [0%Q] [0; 0] [1%Q] [0%Q]
    = Ok (MkHome [(-10)%Q] [1%Q] [0%Q]) /\
  @convert_factr_to_rizon Q (num_Q id id) [10%Q] conv = Ok [10%Q].
Proof. split; vm_compute; reflexivity. Qed.

(** ** Witnesses *)

(** A numerical library satisfying the laws. *)
Instance demo_trig : TrigLaws id id id (fun _ => 0%Q) (fun s _ => s) Qabs.
Proof.
  constructor; try solve [intros ? ? E; exact E | intros ? ? E ? ? E'; exact E | intros ? ? E; reflexivity].
  - intros x y E. by apply Qabs_wd.
  - intros x. exists 0%Z. change (inject_Z 0) with 0%Q. unfold id. ring.
  - reflexivity.
  - intros x. apply Qabs_nonneg.
Defined.

Definition demo_truth : list (bool * Q) :=
  [(false, 10%Q); (true, 200%Q); (false, (-45)%Q); (true, 0%Q); (false, 90%Q); (true, 5%Q); (false, 1%Q)].

(** The leader readings at the reference poses under [demo_truth]. *)
Definition demo_pairs : list (list Q * list Q) :=
  (fun p => let ref := inject_Z <$> q_deg p in
    (zip_with (fun t r => ((if t.1 : bool then - r else r) - t.2)%Q) demo_truth ref, ref)) <$> reference_poses 7.

Lemma demo_pairs_ok : Forall (pair_ok demo_truth) demo_pairs.
Proof.
  unfold demo_pairs. apply Forall_fmap, Forall_forall. intros p Hp. unfold compose.
  assert (length (q_deg p) = 7%nat) as Hl.
  { assert (Forall (fun p => length (q_deg p) = 7%nat) (reference_poses 7)) as HF by by repeat constructor.
    rewrite Forall_forall in HF. by apply HF. }
  split; [|split]; cbn [fst snd]; [by rewrite length_zip_with, length_fmap, Hl|by rewrite length_fmap|].
  intros j neg off l r Ht Hj Hr. rewrite lookup_zip_with, Ht, Hr in Hj. simpl in Hj. injection Hj as <-.
  exists 0%Z. change (inject_Z 0) with 0%Q. destruct neg; ring.
Qed.

Lemma pose_fit_recovers_witness : exists fit,
  @solve_from_samples Q _ (fit_Q id id id (fun _ => 0%Q) (fun s _ => s) Qabs) demo_pairs [] = Ok fit /\
  fit_ambiguous fit = [] /\ fit_flips fit = [1; 3; 5]%nat /\
  Forall (fun r => r <= 1 # 1000000)%Q (fit_residuals fit).
Proof.
  destruct (pose_fit_recovers id id id (fun _ => 0%Q) (fun s _ => s) Qabs demo_trig demo_truth
    demo_pairs [] ltac:(discriminate) demo_pairs_ok) as (fit & Hfit & Hres & _).
  exists fit. split; [exact Hfit|]. split; [|split; [|exact Hres]].
  - assert (res_map fit_ambiguous (Ok fit) = Ok []) as HE by (rewrite <-Hfit; vm_compute; reflexivity).
    by injection HE.
  - assert (res_map fit_flips (Ok fit) = Ok [1; 3; 5]%nat) as HE by (rewrite <-Hfit; vm_compute; reflexivity).
    by injection HE.
Defined.

Lemma straight_fit_degrades_witness : exists fit,
  @solve_from_samples Q _ (fit_Q id id id (fun _ => 0%Q) (fun s _ => s) Qabs)
    [([30%Q; 400%Q], [0%Q; 0%Q])] [1] = Ok fit /\
  Forall2 (fun o o' => exists k, o == o' + 360 * inject_Z k)%Q (fit_offsets fit) [(-30)%Q; (-40)%Q].
Proof.
  destruct (straight_fit_degrades id id id (fun _ => 0%Q) (fun s _ => s) Qabs demo_trig
    [30%Q; 400%Q; 7%Q] (Convention [] [] 1 None None) [1]) as (fit & Hfit & _ & Hoff).
  exists fit. split; [exact Hfit|exact Hoff].
Defined.

Lemma home_converts_example :
  @convert_factr_to_rizon Q (num_Q id id) [350%Q; 20%Q; 3%Q] (Convention [20%Q; 5%Q] [1] 1 None None)
    = Ok [10%Q; (-25)%Q].
Proof.
  refine (proj1 (@home_converts Q _ (fit_Q id id id id (fun s _ => s) Qabs) [350%Q; 20%Q; 3%Q]
    [350%Q; 20%Q] [20%Q; 5%Q] [1%Q; (-1)%Q] [0%Q; 0%Q] [1] (MkHome [10%Q; (-25)%Q] [1%Q; (-1)%Q] [0%Q; 0%Q])
    (Convention [20%Q; 5%Q] [1] 1 None None) _ _ _ _ _)).
  - vm_compute. reflexivity.
  - reflexivity.
  - reflexivity.
  - reflexivity.
  - apply list.NoDup_singleton.
Defined.
