(* ===== verification/CalibFile.v ===== *)
(** * Leader calibration: readings and the write-back

    The rest of [dashboard/calibration.py]: the configuration it reads, the cached leader
    client, the median of several readings, the captures, and [apply_to_leader], which edits
    the active [conf/factr/*.yaml] in place.  A YAML document without anchors is a tree of the
    [json] type; [yaml.safe_dump] and [yaml.safe_load] are parameters.  [round(x, n)] is
    computed exactly. *)

From Stdlib Require Import SpecFloat Ascii String QArith Sorted.
From S2P Require Import Prelude Float64 Ring Streams Text Convention Json FactrClient FactrNode Calibration.
Local Open Scope string_scope.
Local Open Scope Z_scope.

(** ** Decimal rounding *)

(** The nearest integer to [num / den], ties to even. *)
Definition div_half_even (num den : Z) : Z :=
  let q := num / den in
  match Z.compare (2 * (num mod den)) den with
  | Lt => q
  | Gt => q + 1
  | Eq => if Z.even q then q else q + 1
  end.

(** The nearest double to [num / den], for positive arguments. *)
Definition ratio (s : bool) (num den : Z) : f64 :=
  match num with
  | 0 => S754_zero s
  | _ => let '(m, e, l) := SFdiv_core_binary 53 1024 num 0 den 0 in binary_round_aux 53 1024 s m e l
  end.

(** [round(x, n)]. *)
Definition round_digits (n : Z) (x : f64) : f64 :=
  match x with
  | S754_finite s m e =>
      if 0 <=? e then x else ratio s (div_half_even (Z.pos m * 10 ^ n) (2 ^ (- e))) (10 ^ n)
  | _ => x
  end.

(** ** The median of several readings *)

Definition fnan : f64 := S754_nan.

(** [np.median] of one joint's readings: the middle one, or the mean of the two middle ones;
    a NaN anywhere gives NaN. *)
Definition median (l : list f64) : f64 :=
  if existsb is_nan l then S754_nan
  else
    let s := py_sorted fle l in
    let n := length l in
    let hi := default fnan (s !! Nat.div2 n) in
    if Nat.odd n then hi
    else fdiv (fadd (default fnan (s !! (Nat.div2 n - 1)%nat)) hi) (f_of_Z 2).

(** [np.median(np.vstack(reads), axis=0)]. *)
Definition median_rows (reads : list (list f64)) : res (list f64) :=
  let? n := as_matrix reads in
  Ok ((fun j => median (column j reads)) <$> seq 0 n).

(** ** The configuration *)

Definition uncalibrated {A} : JointConventionCfg A := Convention [] [] 1 None None.

(** [arms.discover_conventions]: the conventions of the leaders that are served. *)
Definition conventions_of (cfg : FactrCfg) : list (string * JointConventionCfg f64) :=
  filter (fun sc => dmem sc.1 (fc_servers cfg) = true) (fc_leaders cfg).

Definition configured_leader_sides (cfg : FactrCfg) : list string := dkeys (fc_servers cfg).

Definition current_convention (cfg : FactrCfg) (side : string) : JointConventionCfg f64 :=
  default uncalibrated (dget side (conventions_of cfg)).

Definition follower_dof (cfg : FactrCfg) (side : string) : Z :=
  let dof := match dget side (fc_servers cfg) with Some s => sv_dof s | None => 8 end in
  Z.max 1 (dof - drop_trailing (current_convention cfg side)).

Definition initial_offsets (cfg : FactrCfg) (side : string) : list f64 :=
  padded f0 (Z.to_nat (follower_dof cfg side)) (offsets_deg (current_convention cfg side)).

(** [signs]: the configured [leaders.<side>.dfc_to_factr.signs], empty when absent. *)
Definition current_model_signs (cfg : FactrCfg) (signs : list f64) (side : string) : res (list f64) :=
  if negb (Z.of_nat (length signs) =? follower_dof cfg side) ||
     existsb (fun v => negb (feq v (fopp f1) || feq v f1)) signs
  then Raise RuntimeError else Ok signs.

Section model_home.
Context (float_of_str : string -> option f64).

(** Subscript of a YAML object; anything that is not one raises [TypeError]. *)
Definition subscript (k : string) (v : json) : res json :=
  match v with Obj o => of_option KeyError (dget k o) | _ => Raise TypeError end.

(** [document]: the mechanism configuration, as [read_text] and [safe_load] return it. *)
Definition factr_model_home (cfg : FactrCfg) (side : string) (document : res json) : res (list f64) :=
  let? doc := document in
  let root := py_or doc (Obj []) in
  let? values :=
    match (let? a := subscript "arm_teleop" root in
           let? i := subscript "initialization" a in subscript "model_home_q_rad" i) with
    | Raise KeyError | Raise TypeError => Raise RuntimeError
    | r => r
    end in
  let? target := asarray float_of_str values in
  if negb (bool_decide (shape target = [Z.to_nat (follower_dof cfg side)])) ||
     negb (forallb is_finite (Json.data target))
  then Raise RuntimeError else Ok (Json.data target).
End model_home.

(** ** Reading the leader *)

(** The module's cached client, [_CLIENT]. *)
Definition calib := option group.

Section readings.
Context (float_of_str : string -> option f64) (np_sin : f64 -> f64).

(** [_get_client]: built once, kept while it serves a side; [compose] is the composed
    configuration and simulation flag, or the error composing them. *)
Definition get_client (compose : res (FactrCfg * bool)) (now : f64) : ST calib (option group) := fun c =>
  match c with
  | Some g => (c, Returned (Some g))
  | None =>
      match (let? p := compose in from_config (fc_servers p.1) p.2 now) with
      | Raise _ => (None, Returned None)
      | Ok g => let c' := if bool_decide (g = []) then None else Some g in (c', Returned c')
      end
  end.

(** One reading through the cached client. *)
Definition read_once (side : string) (k : call) : ST calib (list f64) := fun c =>
  match c with
  | None => (c, Raised RuntimeError)
  | Some g => let r := get_joint_positions_for float_of_str np_sin side k g in (Some r.1, r.2)
  end.

Fixpoint read_many (side : string) (ks : list call) : ST calib (list (list f64)) :=
  match ks with
  | [] => mret []
  | k :: ks => q ← read_once side k; qs ← read_many side ks; mret (q :: qs)
  end.

(** [read_leader(side, samples)] makes [max(1, samples)] readings, one per element of [ks]. *)
Definition read_leader (compose : res (FactrCfg * bool)) (now : f64) (side : string) (ks : list call) :
    ST calib (list f64) :=
  client ← get_client compose now;
  match client with
  | None => st_raise RuntimeError
  | Some g =>
      if negb (dmem side g) then st_raise RuntimeError
      else reads ← read_many side ks; st_lift (median_rows reads)
  end.

Definition arm_joints_deg (q : list f64) (conv : JointConventionCfg f64) : list f64 :=
  ndegrees <$> drop_gripper q conv.

Definition read_leader_arm_deg (cfg : FactrCfg) (sim : bool) (now : f64) (side : string) (ks : list call) :
    ST calib (list f64) :=
  q ← read_leader (Ok (cfg, sim)) now side ks;
  mret (arm_joints_deg q (current_convention cfg side)).

(** The trailing element; an empty reading has none. *)
Definition read_gripper (compose : res (FactrCfg * bool)) (now : f64) (side : string) (ks : list call) :
    ST calib f64 :=
  q ← read_leader compose now side ks; st_lift (of_option IndexError (q !! pred (length q))).

Record JointCapture := Capture { jc_joint : Z; jc_captured_deg : f64; jc_offset_deg : f64 }.

Definition capture_joint (cfg : FactrCfg) (sim : bool) (now : f64) (side : string) (joint : Z)
    (ks : list call) : ST calib JointCapture :=
  let conv := current_convention cfg side in
  q ← read_leader (Ok (cfg, sim)) now side ks;
  let offsets := offsets_from_straight_pose q conv in
  if negb ((0 <=? joint) && (joint <? Z.of_nat (length offsets))) then st_raise RuntimeError
  else
    deg ← st_lift (of_option IndexError (arm_joints_deg q conv !! Z.to_nat joint));
    off ← st_lift (of_option IndexError (offsets !! Z.to_nat joint));
    mret (Capture joint deg off).

(** The follower pose of the current leader under the in-progress convention. *)
Definition commanded_follower_q (cfg : FactrCfg) (sim : bool) (now : f64) (side : string)
    (offsets : list f64) (flips : list Z) (k : call) : ST calib (list f64) :=
  let c := current_convention cfg side in
  q ← read_leader (Ok (cfg, sim)) now side [k];
  st_lift (convert_factr_to_rizon q
    (Convention offsets flips (drop_trailing c) (gripper_open c) (gripper_closed c))).

Definition gripper_preview (open_v closed_v : option f64) : option (list (string * f64 * f64)) :=
  match open_v, closed_v with
  | Some o, Some c =>
      if feq o c then None
      else
        let conv := Convention [] [] 1 (Some o) (Some c) in
        Some ((fun '(lab, raw) => (lab, raw, normalize_gripper raw conv)) <$>
          [("open", o); ("mid", fdiv (fadd o c) (f_of_Z 2)); ("closed", c)])
  | _, _ => None
  end.

(** [reset]: close the client, whatever closing does, and forget it. *)
Definition calib_reset (c : calib) : calib := None.
End readings.

(** ** The write-back *)

(** Python's [==] on documents: numbers by value whatever their type, objects by their keys. *)
Definition num_of (v : jval) : option f64 :=
  match v with
  | JBool b => Some (if b then f1 else f0)
  | JInt z => Some (f_of_Z z)
  | JFloat x => Some x
  | _ => None
  end.

Definition jval_eq (a b : jval) : bool :=
  match a, b with
  | JNull, JNull => true
  | JStr s, JStr t => bool_decide (s = t)
  | JFloat x, JFloat y => feq x y
  | JInt m, JInt n => m =? n
  | _, _ => match num_of a, num_of b with Some x, Some y => feq x y | _, _ => false end
  end.

Fixpoint py_eq (a b : json) {struct a} : bool :=
  match a, b with
  | Scalar x, Scalar y => jval_eq x y
  | Arr l, Arr m =>
      (fix go (l m : list json) : bool :=
        match l, m with
        | [], [] => true
        | x :: l, y :: m => py_eq x y && go l m
        | _, _ => false
        end) l m
  | Obj o, Obj p =>
      (length o =? length p)%nat &&
      (fix go (o : list (string * json)) : bool :=
        match o with
        | [] => true
        | (k, x) :: o => match dget k p with Some y => py_eq x y && go o | None => false end
        end) o
  | _, _ => false
  end.

Definition get_or_empty (k : string) (v : json) : res json := res_map (fun x => py_or x (Obj [])) (jget k v).

Definition int_of_f (x : f64) : res json :=
  res_map jint (of_option (if is_nan x then ValueError else OverflowError) (f_trunc x)).

(** The edit of one leader's [raw_to_dfc]. *)
Definition edit_convention (offsets : list f64) (flips : list Z) (g_open g_closed : option f64)
    (conv : list (string * json)) : list (string * json) :=
  let conv := dset "offsets_deg" (Arr (jfloat ∘ round_digits 2 <$> offsets)) conv in
  let conv := dset "sign_flip_joints" (Arr (jint <$> py_sorted Z.leb (remove_dups flips))) conv in
  let conv := ddel "wrap_deg" conv in
  let conv := if dmem "drop_trailing" conv then conv else dset "drop_trailing" (jint 1) conv in
  let conv := match g_open with
              | Some v => dset "gripper_open" (jfloat (round_digits 4 v)) conv | None => conv end in
  match g_closed with
  | Some v => dset "gripper_closed" (jfloat (round_digits 4 v)) conv | None => conv end.

(** The edit of the model-home fields of one leader. *)
Definition edit_model_home (dof : nat) (home : ModelHomeFit f64) (leader : list (string * json)) :
    res (list (string * json)) :=
  if negb ((length (home_q_rad home) =? length (home_signs home)) && (length (home_signs home) =? dof))%nat
  then Raise RuntimeError
  else
    let leader := dset "home_q_rad" (Arr (jfloat ∘ round_digits 10 <$> home_q_rad home)) leader in
    match default (Obj []) (dget "dfc_to_factr" leader) with
    | Obj transform =>
        let? signs := mapM_res int_of_f (home_signs home) in
        Ok (dset "dfc_to_factr" (Obj (dset "signs" (Arr signs) transform)) leader)
    | _ => Raise RuntimeError
    end.

(** [transform.pop("offset_rad", None)] where there is a transform. *)
Definition drop_derived (leader : list (string * json)) : list (string * json) :=
  match dget "dfc_to_factr" leader with
  | Some (Obj t) => dset "dfc_to_factr" (Obj (ddel "offset_rad" t)) leader
  | _ => leader
  end.

(** The request: offsets, flips, gripper endpoints and model home. *)
Record request := Request {
  rq_side : string;
  rq_offsets : list f64;
  rq_flips : list Z;
  rq_open : option f64;
  rq_closed : option f64;
  rq_home : option (ModelHomeFit f64);
}.

(** The document with the request applied, and the edited leader and convention objects. *)
Definition edit_document (rq : request) (doc : json) :
    res (json * list (string * json) * list (string * json)) :=
  let data := py_or doc (Obj []) in
  let? leaders := jget "leaders" data in
  match leaders with
  | Obj ls =>
      match dget (rq_side rq) ls with
      | Some (Obj leader) =>
          match dget "raw_to_dfc" leader with
          | Some (Obj conv) =>
              let conv := edit_convention (rq_offsets rq) (rq_flips rq) (rq_open rq) (rq_closed rq) conv in
              let leader := dset "raw_to_dfc" (Obj conv) leader in
              let? leader := match rq_home rq with
                             | Some h => edit_model_home (length (rq_offsets rq)) h leader
                             | None => Ok leader
                             end in
              let leader := drop_derived leader in
              let ls := dset (rq_side rq) (Obj leader) ls in
              match data with
              | Obj top => Ok (Obj (dset "leaders" (Obj ls) top), leader, conv)
              | _ => Raise OtherError
              end
          | _ => Raise RuntimeError
          end
      | _ => Raise RuntimeError
      end
  | _ => Raise RuntimeError
  end.

Section write_back.
Context {text : Type} (safe_dump : json -> text) (safe_load : text -> res json).

(** The checks on the document read back from its rendering. *)
Definition validate_rendered (rq : request) (leader conv : list (string * json)) (rendered : text) : res unit :=
  let? doc := safe_load rendered in
  let reparsed := py_or doc (Obj []) in
  let? ls := get_or_empty "leaders" reparsed in
  let? got_leader := get_or_empty (rq_side rq) ls in
  let? got := get_or_empty "raw_to_dfc" got_leader in
  if negb (py_eq got (Obj conv)) then Raise RuntimeError
  else
    match rq_home rq with
    | None => Ok tt
    | Some _ =>
        let? got_home := jget "home_q_rad" got_leader in
        let? got_t := jget "dfc_to_factr" got_leader in
        let? home := of_option KeyError (dget "home_q_rad" leader) in
        let? t := of_option KeyError (dget "dfc_to_factr" leader) in
        if negb (py_eq got_home home) || negb (py_eq got_t t) then Raise RuntimeError else Ok tt
    end.

(** What the file system answers: the temporary file's name, its write and [fsync], the rename. *)
Record disk_io := DiskIo { io_tmp : res string; io_write : res unit; io_replace : res unit }.

Definition disk := list (string * text).

(** The save: a temporary file beside the target, renamed over it, removed on every way out. *)
Definition save_atomic (io : disk_io) (path : string) (rendered : text) (d : disk) : disk * res unit :=
  match io_tmp io with
  | Raise e => (d, Raise e)
  | Ok tmp =>
      let d1 := dset tmp rendered d in
      match io_write io with
      | Raise e => (ddel tmp d1, Raise e)
      | Ok _ =>
          match io_replace io with
          | Raise e => (ddel tmp d1, Raise e)
          | Ok _ => (ddel tmp (dset path rendered d1), Ok tt)
          end
      end
  end.

Definition apply_to_leader (io : disk_io) (path : string) (rq : request) (d : disk) : disk * res string :=
  match (let? content := of_option FileNotFoundError (dget path d) in
         let? doc := safe_load content in
         let? r := edit_document rq doc in
         let rendered := safe_dump r.1.1 in
         let? _ := validate_rendered rq r.1.2 r.2 rendered in
         Ok rendered) with
  | Raise e => (d, Raise e)
  | Ok rendered => let r := save_atomic io path rendered d in (r.1, res_map (fun _ => path) r.2)
  end.
End write_back.

(** ** The files the active rig selects *)

(** [conf]: the YAML documents of the configuration directory by their path in it. *)
Definition conf_docs := list (string * json).

Definition read_doc (conf : conf_docs) (path : string) : res json :=
  res_map (fun v => py_or v (Obj [])) (of_option FileNotFoundError (dget path conf)).

(** [str(v)] of a scalar used as a file name. *)
Definition name_of (v : json) : res string :=
  match v with
  | Scalar (JStr s) => Ok s
  | Scalar (JInt z) => Ok (str_of_int z)
  | Scalar JNull => Ok "None"
  | Scalar (JBool b) => Ok (if b then "True" else "False")
  | _ => Raise OtherError                            (* floats and containers are not names here *)
  end.

(** The elements of [data.get("defaults", [])]. *)
Definition defaults_of (data : json) : res (list json) :=
  match data with
  | Obj o => match dget "defaults" o with
             | None => Ok []
             | Some (Arr l) => Ok l
             | Some (Obj p) => Ok (jstr <$> dkeys p)
             | Some (Scalar (JStr s)) => Ok []       (* its characters are not objects *)
             | Some (Scalar _) => Raise TypeError
             end
  | _ => Raise OtherError
  end.

Fixpoint first_key (keys : list string) (o : list (string * json)) : option json :=
  match keys with
  | [] => None
  | k :: keys => match dget k o with Some v => Some v | None => first_key keys o end
  end.

(** The first object of the list that has one of the keys. *)
Fixpoint first_entry (keys : list string) (l : list json) : option json :=
  match l with
  | [] => None
  | Obj o :: l => match first_key keys o with Some v => Some v | None => first_entry keys l end
  | _ :: l => first_entry keys l
  end.

Definition default_rig (conf : conf_docs) : res string :=
  let? data := read_doc conf "config.yaml" in
  let? l := defaults_of data in
  let? v := of_option RuntimeError (first_entry ["rig"] l) in
  name_of v.

Definition nonempty (s : option string) : option string :=
  match s with Some "" => None | _ => s end.

Definition rig_path (conf : conf_docs) (rig active : option string) : res string :=
  let? name := match nonempty rig, nonempty active with
               | Some r, _ => Ok r
               | None, Some a => Ok a
               | None, None => default_rig conf
               end in
  Ok ("rig/" +:+ name +:+ ".yaml").

(** An empty group name does not end the search. *)
Fixpoint first_group (l : list json) : res (option string) :=
  match l with
  | [] => Ok None
  | Obj o :: l =>
      match first_key ["/factr"; "factr"] o with
      | Some v => let? g := name_of v in if bool_decide (g = "") then first_group l else Ok (Some g)
      | None => first_group l
      end
  | _ :: l => first_group l
  end.

Definition factr_path (conf : conf_docs) (rig active : option string) : res string :=
  let? rig_file := rig_path conf rig active in
  let? data := read_doc conf rig_file in
  let? l := defaults_of data in
  let? g := first_group l in
  let? group := of_option RuntimeError g in
  Ok ("factr/" +:+ group +:+ ".yaml").

(** ** The snippets shown to the operator *)

Definition pad_digits (n : nat) (s : string) : string :=
  String.concat "" (replicate (n - String.length s) "0") +:+ s.

(** The digits of [n / 10^k] with [k] decimals. *)
Definition show_scaled (k : nat) (n : Z) : string :=
  str_of_int (n / 10 ^ Z.of_nat k) +:+ "." +:+ pad_digits k (str_of_int (n mod 10 ^ Z.of_nat k)).

(** [f"{x:.<k>f}"]. *)
Definition fmt_fixed (k : nat) (x : f64) : string :=
  let sgn (s : bool) := if s then "-" else "" in
  match x with
  | S754_nan => "nan"
  | S754_infinity s => sgn s +:+ "inf"
  | S754_zero s => sgn s +:+ show_scaled k 0
  | S754_finite s m e =>
      sgn s +:+ show_scaled k (if 0 <=? e then Z.pos m * 2 ^ e * 10 ^ Z.of_nat k
                               else div_half_even (Z.pos m * 10 ^ Z.of_nat k) (2 ^ (- e)))
  end.

Definition bracketed (sep : string) (l : list string) : string := "[" +:+ py_join sep l +:+ "]".

Definition fmt_list (decimals : nat) (l : list f64) : string := bracketed ", " (fmt_fixed decimals <$> l).

Definition show_int (x : f64) : res string :=
  res_map str_of_int (of_option (if is_nan x then ValueError else OverflowError) (f_trunc x)).

Definition opt_line (pre : string) (v : option f64) : list string :=
  match v with Some x => [pre +:+ fmt_fixed 4 x] | None => [] end.

Definition format_yaml (rq : request) : res string :=
  let? home := match rq_home rq with
    | None => Ok []
    | Some h =>
        let? signs := mapM_res show_int (home_signs h) in
        Ok ["    home_q_rad: " +:+ fmt_list 10 (home_q_rad h); "    dfc_to_factr:";
            "      signs: " +:+ bracketed ", " signs]
    end in
  Ok (py_join (String "010" "")
    (["leaders:"; "  " +:+ rq_side rq +:+ ":"; "    raw_to_dfc:";
      "      offsets_deg: " +:+ fmt_list 2 (rq_offsets rq);
      "      sign_flip_joints: " +:+ bracketed ", " (str_of_int <$> rq_flips rq);
      "      drop_trailing: 1"] ++
     opt_line "      gripper_open: " (rq_open rq) ++ opt_line "      gripper_closed: " (rq_closed rq) ++ home)%list).

Definition format_overrides (rq : request) : res string :=
  let key := "factr.leaders." +:+ rq_side rq +:+ "." in
  let? home := match rq_home rq with
    | None => Ok []
    | Some h =>
        let? signs := mapM_res show_int (home_signs h) in
        Ok [key +:+ "home_q_rad='" +:+ bracketed "," (fmt_fixed 10 <$> home_q_rad h) +:+ "'";
            key +:+ "dfc_to_factr.signs='" +:+ bracketed "," signs +:+ "'"]
    end in
  Ok (py_join " "
    ([key +:+ "raw_to_dfc.offsets_deg='" +:+ bracketed "," (fmt_fixed 2 <$> rq_offsets rq) +:+ "'";
      key +:+ "raw_to_dfc.sign_flip_joints='" +:+ bracketed "," (str_of_int <$> rq_flips rq) +:+ "'"] ++
     opt_line (key +:+ "raw_to_dfc.gripper_open=") (rq_open rq) ++
     opt_line (key +:+ "raw_to_dfc.gripper_closed=") (rq_closed rq) ++ home)%list).

(** ** Lemmas *)

Lemma ddel_dset_new {V} k (v : V) (d : list (string * V)) : k ∉ dkeys d -> ddel k (dset k v d) = d.
Proof.
  intros Hk. rewrite dkeys_dset_new by done. induction d as [|[k' v'] d IH]; simpl.
  - by rewrite decide_True.
  - apply not_elem_of_cons in Hk as [Hne Hk]. rewrite decide_False by done. by rewrite IH.
Qed.

Lemma save_atomic_cases {text} io path (t : text) d :
  path ∈ dkeys d -> (forall tmp, io_tmp io = Ok tmp -> tmp ∉ dkeys d) ->
  (exists e, save_atomic io path t d = (d, Raise e)) \/
  (exists d', save_atomic io path t d = (d', Ok tt) /\ dget path d' = Some t /\
    forall p, p ≠ path -> dget p d' = dget p d).
Proof.
  intros Hp Hf. unfold save_atomic. destruct (io_tmp io) as [tmp|e]; [|left; by exists e].
  assert (tmp ∉ dkeys d) as Ht by by apply Hf.
  destruct (io_write io) as [?|e]; [|left; exists e; by rewrite ddel_dset_new].
  destruct (io_replace io) as [?|e]; [|left; exists e; by rewrite ddel_dset_new].
  assert (path ≠ tmp) as Hne by (by intros ->). right. eexists. split; [done|]. split.
  - rewrite dget_ddel_ne by done. apply dget_dset_eq.
  - intros p Hpp. destruct (decide (p = tmp)) as [->|Hpt].
    + assert (tmp ∉ dkeys (ddel tmp (dset path t (dset tmp t d)))) as Hn.
      { assert (dset path t (dset tmp t d) = (dset path t d ++ [(tmp, t)])%list) as ->.
        { rewrite (dkeys_dset_new tmp) by done. clear Hf Ht. induction d as [|[k v] d IH]; simpl in *; [set_solver|].
          destruct (decide (path = k)) as [->|]; [done|]. simpl. rewrite IH; [done|set_solver]. }
        assert (tmp ∉ dkeys (dset path t d)) as Hn by (rewrite elem_of_dkeys_dset; tauto).
        revert Hn. generalize (dset path t d) as m. intros m Hm. rewrite <-(dkeys_dset_new tmp t) by done.
        by rewrite ddel_dset_new. }
      apply dget_None in Hn. rewrite Hn. symmetry. by apply dget_None.
    + rewrite dget_ddel_ne by done. by rewrite !dget_dset_ne.
Qed.

(** The keys the edit writes. *)
Definition edited_keys : list string :=
  ["offsets_deg"; "sign_flip_joints"; "wrap_deg"; "drop_trailing"; "gripper_open"; "gripper_closed"].

Definition edited_leader_keys : list string := ["raw_to_dfc"; "home_q_rad"; "dfc_to_factr"].

(** Reads through the writes of the edit. *)
Ltac dget_through :=
  repeat first
    [ rewrite dget_dset_eq
    | rewrite dget_dset_ne by (first [done | set_solver])
    | rewrite dget_ddel_ne by (first [done | set_solver]) ].

Lemma edit_convention_sets offs flips go gc conv :
  let c := edit_convention offs flips go gc conv in
  dget "offsets_deg" c = Some (Arr (jfloat ∘ round_digits 2 <$> offs)) /\
  dget "sign_flip_joints" c = Some (Arr (jint <$> py_sorted Z.leb (remove_dups flips))) /\
  (forall v, go = Some v -> dget "gripper_open" c = Some (jfloat (round_digits 4 v))) /\
  (forall v, gc = Some v -> dget "gripper_closed" c = Some (jfloat (round_digits 4 v))) /\
  (forall k, k ∉ edited_keys -> dget k c = dget k conv).
Proof.
  unfold edit_convention, edited_keys. set (d := dmem "drop_trailing" _).
  destruct d, go, gc; split_and!; intros; simplify_eq; by dget_through.
Qed.

Lemma edit_model_home_sets dof h leader leader' : edit_model_home dof h leader = Ok leader' ->
  length (home_q_rad h) = dof /\ length (home_signs h) = dof /\
  dget "home_q_rad" leader' = Some (Arr (jfloat ∘ round_digits 10 <$> home_q_rad h)) /\
  (forall k, k ≠ "home_q_rad" -> k ≠ "dfc_to_factr" -> dget k leader' = dget k leader).
Proof.
  unfold edit_model_home. destruct (negb _) eqn:E; [done|]. apply negb_false_iff, andb_true_iff in E as [E1 E2].
  apply Nat.eqb_eq in E1, E2. case_goal; try done. intros H. res_simp.
  split_and!; [lia|lia|by dget_through|]. intros k H1 H2. by dget_through.
Qed.

Lemma drop_derived_keeps leader k : k ≠ "dfc_to_factr" -> dget k (drop_derived leader) = dget k leader.
Proof. intros Hk. unfold drop_derived. repeat case_goal; try done. by dget_through. Qed.

(** ** Properties *)

(** C32: Saving a calibration is all or nothing.  When it succeeds the configuration file holds the
    rendering of the edited document, which was parsed back and compared with what was asked,
    and no other file changed; when it fails, at whatever step, the directory is exactly what
    it was, temporary file included. *)
Theorem calibration_save_atomic {text} (safe_dump : json -> text) (safe_load : text -> res json)
    (io : disk_io) (path : string) (rq : request) (d d' : disk) (r : res string) :
  (forall tmp, io_tmp io = Ok tmp -> tmp ∉ dkeys d) ->
  apply_to_leader safe_dump safe_load io path rq d = (d', r) ->
  match r with
  | Ok p => p = path /\ exists content doc new leader conv,
      dget path d = Some content /\ safe_load content = Ok doc /\
      edit_document rq doc = Ok (new, leader, conv) /\
      dget path d' = Some (safe_dump new) /\
      validate_rendered safe_load rq leader conv (safe_dump new) = Ok tt /\
      forall p', p' ≠ path -> dget p' d' = dget p' d
  | Raise _ => d' = d
  end.
Proof.
  intros Hf. unfold apply_to_leader. destruct (dget path d) as [content|] eqn:Ec; simpl; [|by intros [= <- <-]].
  destruct (safe_load content) as [doc|] eqn:El; simpl; [|by intros [= <- <-]].
  destruct (edit_document rq doc) as [[[new leader] conv]|] eqn:Ee; simpl; [|by intros [= <- <-]].
  destruct (validate_rendered _ _ _ _ _) as [[]|] eqn:Ev; simpl; [|by intros [= <- <-]].
  destruct (save_atomic_cases io path (safe_dump new) d (dget_key _ _ _ Ec) Hf) as [[e ->]|(d1 & -> & Hp & Ho)];
    simpl; intros [= <- <-]; [done|]. split; [done|]. by exists content, doc, new, leader, conv.
Qed.

(** The edit is local and exact: the chosen leader's convention gets the rounded offsets, the
    sorted duplicate-free flips and the given gripper endpoints, its model home the rounded
    pose, of one entry per joint; every other leader, every other field of this leader and of
    its convention, and every other section of the document keeps its value. *)
Theorem calibration_edit_local (rq : request) (top : list (string * json)) new leader conv :
  edit_document rq (Obj top) = Ok (new, leader, conv) ->
  exists ls ls' old_leader old_conv top',
    dget "leaders" top = Some (Obj ls) /\ dget (rq_side rq) ls = Some (Obj old_leader) /\
    dget "raw_to_dfc" old_leader = Some (Obj old_conv) /\
    new = Obj top' /\ dget "leaders" top' = Some (Obj ls') /\
    dget (rq_side rq) ls' = Some (Obj leader) /\ dget "raw_to_dfc" leader = Some (Obj conv) /\
    dget "offsets_deg" conv = Some (Arr (jfloat ∘ round_digits 2 <$> rq_offsets rq)) /\
    dget "sign_flip_joints" conv = Some (Arr (jint <$> py_sorted Z.leb (remove_dups (rq_flips rq)))) /\
    (forall v, rq_open rq = Some v -> dget "gripper_open" conv = Some (jfloat (round_digits 4 v))) /\
    (forall v, rq_closed rq = Some v -> dget "gripper_closed" conv = Some (jfloat (round_digits 4 v))) /\
    (forall h, rq_home rq = Some h -> length (home_q_rad h) = length (rq_offsets rq) /\
      dget "home_q_rad" leader = Some (Arr (jfloat ∘ round_digits 10 <$> home_q_rad h))) /\
    (forall k, k ≠ "leaders" -> dget k top' = dget k top) /\
    (forall side, side ≠ rq_side rq -> dget side ls' = dget side ls) /\
    (forall k, k ∉ edited_leader_keys -> dget k leader = dget k old_leader) /\
    (forall k, k ∉ edited_keys -> dget k conv = dget k old_conv).
Proof.
  unfold edit_document. assert (py_or (Obj top) (Obj []) = Obj top) as -> by by destruct top.
  cbn [jget res_bind]. destruct (dget "leaders" top) as [[?|?|ls]|] eqn:Els; [by intros|by intros| |by intros].
  unfold default at 1. cbn [from_option id].
  destruct (dget (rq_side rq) ls) as [[?|?|old_leader]|] eqn:Eside; [by intros|by intros| |by intros].
  destruct (dget "raw_to_dfc" old_leader) as [[?|?|old_conv]|] eqn:Econv; [by intros|by intros| |by intros].
  set (c := edit_convention _ _ _ _ old_conv).
  destruct (edit_convention_sets (rq_offsets rq) (rq_flips rq) (rq_open rq) (rq_closed rq) old_conv)
    as (H1 & H2 & H3 & H4 & H5). fold c in H1, H2, H3, H4, H5.
  destruct (match rq_home rq with Some h => _ | None => _ end) as [l1|] eqn:Eh; [|done].
  cbn [res_bind]. intros [= <- <- <-].
  assert (forall k, k ≠ "home_q_rad" -> k ≠ "dfc_to_factr" -> dget k l1 = dget k (dset "raw_to_dfc" (Obj c) old_leader)) as Hl1.
  { destruct (rq_home rq); [|by injection Eh as <-]. by apply edit_model_home_sets in Eh as (_ & _ & _ & ?). }
  exists ls, (dset (rq_side rq) (Obj (drop_derived l1)) ls), old_leader, old_conv,
    (dset "leaders" (Obj (dset (rq_side rq) (Obj (drop_derived l1)) ls)) top).
  split_and!; try done; try by dget_through.
  - rewrite drop_derived_keeps, Hl1 by done. by dget_through.
  - intros h Hh. rewrite Hh in Eh. apply edit_model_home_sets in Eh as (E1 & _ & E3 & _).
    split; [done|]. by rewrite drop_derived_keeps.
  - intros k Hk. by dget_through.
  - intros side Hs. by dget_through.
  - intros k Hk. unfold edited_leader_keys in Hk. rewrite drop_derived_keeps, Hl1 by set_solver. by dget_through.
Qed.

(** ** The median *)

Definition numbers (l : list f64) : Prop := Forall (fun x => is_nan x = false) l.

Lemma fle_total x y : is_nan x = false -> is_nan y = false -> fle x y = false -> fle y x = true.
Proof. intros Hx Hy H. by apply flt_fle, not_fle_flt. Qed.

Lemma py_sorted_sorted l : numbers l -> StronglySorted (fun x y => fle x y = true) (py_sorted fle l).
Proof.
  assert (forall x s, is_nan x = false -> numbers s -> StronglySorted (fun a b => fle a b = true) s ->
    StronglySorted (fun a b => fle a b = true) (insert_sorted fle x s)) as Hins.
  { intros x s Hx Hs Hss. induction Hss as [|y s Hss IH Hy]; simpl; [by repeat constructor|].
    apply Forall_cons in Hs as [Hny Hs]. destruct (fle x y) eqn:E.
    - constructor; [by constructor|]. constructor; [done|]. eapply Forall_impl; [exact Hy|].
      intros z Hz. by eapply fle_trans.
    - constructor; [by apply IH|]. rewrite (insert_sorted_perm fle x s). constructor; [by apply fle_total|done]. }
  induction 1 as [|x l Hx Hl IH]; simpl; [constructor|]. apply Hins; [done| |done].
  unfold numbers. by rewrite py_sorted_perm.
Qed.

(** In a sorted list the elements up to an index are below it, those after it above. *)
Lemma sorted_split (R : f64 -> f64 -> Prop) s k m : StronglySorted R s -> (forall x, x ∈ s -> R x x) ->
  s !! k = Some m -> Forall (fun x => R x m) (take (S k) s) /\ Forall (fun x => R m x) (drop k s).
Proof.
  intros Hs. revert k. induction Hs as [|y s Hss IH Hy]; intros k Hr Hk; [done|]. destruct k as [|k]; simpl in Hk.
  - injection Hk as ->. split; [constructor; [|constructor]; apply Hr; set_solver|].
    simpl. constructor; [apply Hr; set_solver|done].
  - destruct (IH k) as [H1 H2]; [set_solver|done|]. split; [|done]. change (take (S (S k)) (y :: s)) with (y :: take (S k) s).
    constructor; [|done]. rewrite Forall_forall in Hy. by apply Hy, list_elem_of_lookup_2 with k.
Qed.

(** Filtering a list none of whose first [k] elements pass keeps at most the rest. *)
Lemma filter_bound (P : f64 -> bool) s k : Forall (fun x => P x = false) (take k s) ->
  (length (List.filter P s) <= length s - k)%nat.
Proof.
  intros H. rewrite <-(take_drop k s) at 1. rewrite List.filter_app, length_app.
  assert (List.filter P (take k s) = []) as ->.
  { induction H as [|x l Hx Hl IH]; simpl; [done|]. by rewrite Hx. }
  simpl. pose proof (List.filter_length_le P (drop k s)) as Hf. rewrite length_drop in Hf. lia.
Qed.

Lemma filter_perm (P : f64 -> bool) l s : l ≡ₚ s -> length (List.filter P l) = length (List.filter P s).
Proof. induction 1; simpl; repeat (case_goal; simpl); congruence. Qed.

(** The readings inside an interval. *)
Definition within (lo hi x : f64) : bool := fle lo x && fle x hi.

(** A calibration sample survives outliers: when most of an odd number of readings lie in an
    interval, so does the median, whatever the others are, infinities included. *)
Theorem median_robust (l : list f64) (lo hi : f64) :
  numbers l -> Nat.odd (length l) = true ->
  (Nat.div2 (length l) < length (List.filter (within lo hi) l))%nat ->
  within lo hi (median l) = true.
Proof.
  intros Hn Hodd Hmost. unfold median.
  assert (existsb is_nan l = false) as ->.
  { apply not_true_iff_false. intros (x & Hx & Hnan)%existsb_exists. apply list_elem_of_In in Hx.
    unfold numbers in Hn; rewrite Forall_forall in Hn. specialize (Hn x Hx). congruence. }
  cbn zeta. rewrite Hodd. set (k := Nat.div2 (length l)) in *. set (s := py_sorted fle l).
  assert (length l = S (2 * k)) as Hlen by (pose proof (Nat.div2_odd (length l)) as Ho; rewrite Hodd in Ho; simpl in *; lia).
  assert (s ≡ₚ l) as Hperm by apply py_sorted_perm.
  assert (length s = length l) as Hls by by apply Permutation_length.
  assert (numbers s) as Hns by (unfold numbers; by rewrite Hperm).
  destruct (lookup_lt_is_Some_2 s k ltac:(lia)) as [m Hm]. rewrite Hm. cbn [default from_option id].
  destruct (sorted_split (fun x y => fle x y = true) s k m) as [Hlow Hhigh];
    [by apply py_sorted_sorted| |done|].
  { intros x Hx. apply fle_refl. unfold numbers in Hns. rewrite Forall_forall in Hns. by apply Hns. }
  rewrite (filter_perm _ _ s (symmetry Hperm)) in Hmost.
  unfold within. apply andb_true_iff. split; apply not_false_iff_true; intros Hbad.
  - assert (length (List.filter (within lo hi) s) <= length s - S k)%nat; [|lia]. apply filter_bound.
    eapply Forall_impl; [exact Hlow|]. intros x Hx. simpl in Hx. unfold within.
    destruct (fle lo x) eqn:E; [|done]. by rewrite (fle_trans _ _ _ E Hx) in Hbad.
  - assert (length (List.filter (within lo hi) s) <= k)%nat; [|lia].
    rewrite <-(take_drop k s), List.filter_app, length_app.
    assert (length (List.filter (within lo hi) (drop k s)) <= length (drop k s) - length (drop k s))%nat as H0.
    { apply filter_bound. rewrite take_ge by lia. eapply Forall_impl; [exact Hhigh|]. intros x Hx. simpl in Hx.
      unfold within. destruct (fle x hi) eqn:E; [|by rewrite andb_false_r]. by rewrite (fle_trans _ _ _ Hx E) in Hbad. }
    pose proof (List.filter_length_le (within lo hi) (take k s)) as H1. rewrite length_take in H1. lia.
Qed.

(** ** Witnesses *)

Example round_digits_ties : round_digits 2 (fdec 2675 1000) = fdec 267 100 /\
  round_digits 2 (fdec (-17169) 100) = fdec (-17169) 100 /\ round_digits 2 (fdec 5 10000) = f0.
Proof. vm_compute. done. Qed.

Example format_overrides_line : format_overrides (Request "left" [fdec (-17169) 100; f_of_Z 90] [5] (Some f1) None None)
  = Ok "factr.leaders.left.raw_to_dfc.offsets_deg='[-171.69,90.00]' factr.leaders.left.raw_to_dfc.sign_flip_joints='[5]' factr.leaders.left.raw_to_dfc.gripper_open=1.0000".
Proof. vm_compute. reflexivity. Qed.

Lemma median_robust_witness :
  within f0 f1 (median [fdec 1 2; S754_infinity false; fdec 1 4; f_of_Z 7; fdec 3 4]) = true.
Proof.
  apply (median_robust [fdec 1 2; S754_infinity false; fdec 1 4; f_of_Z 7; fdec 3 4] f0 f1).
  - repeat constructor.
  - reflexivity.
  - vm_compute. lia.
Defined.

Definition demo_doc : json :=
  Obj [("leaders", Obj [("left", Obj [("raw_to_dfc", Obj [("offsets_deg", Arr []); ("wrap_deg", Scalar (JBool true))])]);
                        ("right", Obj [("raw_to_dfc", Obj [])])])].
Definition demo_request : request :=
  Request "left" [fdec 12345 1000; f0] [1; 0; 1] (Some f1) None
    (Some (MkHome [f0; f1] [f1; fopp f1] [f0; f0])).
Definition demo_io : disk_io := DiskIo (Ok ".bimanual.yaml.x1") (Ok tt) (Ok tt).
Definition demo_disk : disk := [("bimanual.yaml", demo_doc)].

Lemma calibration_save_atomic_witness : exists d' new,
  apply_to_leader id Ok demo_io "bimanual.yaml" demo_request demo_disk = (d', Ok "bimanual.yaml") /\
  dget "bimanual.yaml" d' = Some new /\ dkeys d' = ["bimanual.yaml"].
Proof.
  destruct (apply_to_leader id Ok demo_io "bimanual.yaml" demo_request demo_disk) as [d' r] eqn:E.
  assert (r = Ok "bimanual.yaml") as -> by (vm_compute in E; congruence).
  destruct (calibration_save_atomic id Ok demo_io "bimanual.yaml" demo_request demo_disk d' (Ok "bimanual.yaml"))
    as (_ & content & doc & new & leader & conv & _ & _ & _ & Hp & _).
  - intros tmp [= <-]. apply dmem_false. reflexivity.
  - exact E.
  - exists d', new. split; [reflexivity|]. split; [exact Hp|]. vm_compute in E. by injection E as <-.
Defined.

Lemma calibration_edit_local_witness : exists leader conv new,
  edit_document demo_request demo_doc = Ok (new, leader, conv) /\
  dget "sign_flip_joints" conv = Some (Arr [jint 0; jint 1]).
Proof.
  destruct (edit_document demo_request demo_doc) as [[[new leader] conv]|] eqn:E; [|vm_compute in E; discriminate E].
  destruct (calibration_edit_local demo_request _ new leader conv E) as (? & ? & ? & ? & ? & _ & _ & _ & _ & _ & _ & _ & _ & Hf & _).
  exists leader, conv, new. split; [reflexivity|exact Hf].
Defined.
