(* ===== verification/LiveView.v ===== *)
(** * The dashboard's read-only view of the running system

    Models [dashboard/arms.py]: the scan of the run directories for the newest sample of a
    stream, the arm and leader status built from it, the ramp states of the leaders' gains, and
    the cached configuration snapshot.  Shared memory is the [world] of [Streams]; the
    flexivrdk enumerations are parameters. *)

From Stdlib Require Import SpecFloat Ascii String.
From S2P Require Import Prelude Session Process Float64 Ring Streams Text Convention Json FactrClient FactrNode Calibration CalibFile.
Local Open Scope string_scope.
Local Open Scope Z_scope.

Definition STATUS_STREAM (side : string) : string := side +:+ "/status".
Definition JOINT_POS_STREAM (side : string) : string := side +:+ "/q".
Definition HORIZON_STREAM (side : string) : string := "eval/" +:+ side +:+ "/q_horizon".
Definition EEF_HORIZON_STREAM (side : string) : string := "eval/" +:+ side +:+ "/eef_horizon".
Definition POLICY_COMM_STREAM : string := "eval/policy_comm".
Definition STATUS_MAX_AGE_S : f64 := f_of_Z 2.

(** ** The scan *)

(** A run directory of the runtime root that has a [streams] directory, with its [st_mtime]. *)
Definition run_dir := (string * Z)%type.

(** Newest first; directories of equal times keep their listing order. *)
Definition newest_first (l : list run_dir) : list string :=
  (py_sorted (fun a b => b.2 <=? a.2) l).*1.

(** [z > x] between an int and a float, exactly. *)
Definition int_gt_float (z : Z) (x : f64) : bool :=
  match x with
  | S754_nan => false
  | S754_infinity s => s
  | S754_zero _ => 0 <? z
  | S754_finite s m e =>
      let v := if s then - Z.pos m else Z.pos m in
      if 0 <=? e then v * 2 ^ e <? z else v <? z * 2 ^ (- e)
  end.

(** [(time.monotonic_ns() - t_ns) > max_age_s * 1e9]. *)
Definition too_old (now_ns t_ns : Z) (max_age_s : f64) : bool :=
  int_gt_float (now_ns - t_ns) (fmul max_age_s (f_of_Z 1000000000)).

Section scan.
Context (w : world).

(** What [read] takes from the stream in one run directory; any exception on the way is the
    [continue] of the loop. *)
Definition in_run {A} (stream : string) (read : StreamReader -> res (option A)) (run : string) : option A :=
  match (let? e := reg_get w (Registry run "streams") stream in
         match e with
         | None => Ok None
         | Some e => let? rd := reader_attach w e in read rd
         end) with
  | Ok o => o
  | Raise _ => None
  end.

Fixpoint first_run {A} (f : string -> option A) (runs : list string) : option A :=
  match runs with
  | [] => None
  | r :: runs => match f r with Some a => Some a | None => first_run f runs end
  end.

(** The newest vector and its stamp; with a bound, a sample beyond it counts as absent. *)
Definition latest_fresh (now_ns : Z) (max_age_s : option f64) (rd : StreamReader) :
    res (option (list f64 * Z)) :=
  let? s := reader_last w rd 1 in
  Ok (match newest s, newest_t_ns s with
      | Some v, Some t =>
          if match max_age_s with Some a => too_old now_ns t a | None => false end then None
          else Some (v, t)
      | _, _ => None
      end).

Definition read_live_stream_sample (dirs : list run_dir) (now_ns : Z) (stream : string)
    (max_age_s : option f64) : option (list f64 * Z) :=
  first_run (in_run stream (latest_fresh now_ns max_age_s)) (newest_first dirs).

Definition read_live_stream_newest (dirs : list run_dir) (stream : string) : option (list f64) :=
  fst <$> read_live_stream_sample dirs 0 stream None.

Definition read_live_joint_positions (dirs : list run_dir) (side : string) : option (list f64) :=
  read_live_stream_newest dirs (JOINT_POS_STREAM side).

Definition read_live_stream (dirs : list run_dir) (name : string) : option (list f64) :=
  read_live_stream_newest dirs name.

Definition read_live_horizon_q (dirs : list run_dir) (side : string) : option (list f64) :=
  read_live_stream_newest dirs (HORIZON_STREAM side).

Definition read_live_horizon_eef (dirs : list run_dir) (side : string) : option (list f64) :=
  read_live_stream_newest dirs (EEF_HORIZON_STREAM side).

(** The rows that carry the newest stamp. *)
Definition newest_group (s : samples f64) : list (list f64) :=
  match newest_t_ns s with
  | None => []
  | Some t => omap (fun rt => if rt.2 =? t then Some rt.1 else None) (zip (s_data s) (s_t_ns s))
  end.

(** [rows.size]: rows of no columns are no rows. *)
Definition has_data (rows : list (list f64)) : bool := existsb (fun r => negb (length r =? 0)%nat) rows.

(** [reader.last(reader.capacity)]. *)
Definition reader_all (rd : StreamReader) : res (samples f64) :=
  let? r := mapped_ring w (rd_seg rd) in Ok (ring_last r (capacity r)).

Definition trajectory (rd : StreamReader) : res (option (list (list f64))) :=
  let? s := reader_all rd in
  let rows := newest_group s in
  Ok (if has_data rows then Some rows else None).

Definition read_live_horizon_q_trajectory (dirs : list run_dir) (side : string) : option (list (list f64)) :=
  first_run (in_run (HORIZON_STREAM side) trajectory) (newest_first dirs).

Definition all_samples (rd : StreamReader) : res (option (samples f64)) :=
  let? s := reader_all rd in
  Ok (if (samples_n s =? 0)%nat then None else Some s).

Definition read_live_policy_comm (dirs : list run_dir) : option (samples f64) :=
  first_run (in_run POLICY_COMM_STREAM all_samples) (newest_first dirs).

(** ** Arm status *)

Record live_status := Live {
  lv_code : f64; lv_estop : f64; lv_control : option f64; lv_servo : option f64; lv_mode : option f64;
}.

Definition read_live_status (dirs : list run_dir) (now_ns : Z) (side : string) : option live_status :=
  '(vec, _) ← read_live_stream_sample dirs now_ns (STATUS_STREAM side) (Some STATUS_MAX_AGE_S);
  match vec with
  | code :: estop :: rest => Some (Live code estop (rest !! 0%nat) (rest !! 1%nat) (rest !! 2%nat))
  | _ => None
  end.
End scan.

(** [s.replace(old, new)], for a non-empty [old]. *)
Fixpoint py_replace (fuel : nat) (old new s : string) : string :=
  match fuel with
  | O => s
  | S fuel =>
      match strip_prefix old s with
      | Some rest => new +:+ py_replace fuel old new rest
      | None => match s with
                | EmptyString => ""
                | String c s => String c (py_replace fuel old new s)
                end
      end
  end.

Definition replace_all (old new s : string) : string := py_replace (S (String.length s)) old new s.

Definition is_lower (c : ascii) : bool := in_range "a" "z" c.
Definition is_upper (c : ascii) : bool := in_range "A" "Z" c.
Definition to_upper (c : ascii) : ascii := if is_lower c then ascii_of_nat (nat_of_ascii c - 32) else c.
Definition to_lower (c : ascii) : ascii := if is_upper c then ascii_of_nat (nat_of_ascii c + 32) else c.

(** [s.title()]; [prev] is whether the previous character is a letter. *)
Fixpoint title_from (prev : bool) (s : string) : string :=
  match s with
  | EmptyString => ""
  | String c s =>
      String (if prev then to_lower c else to_upper c) (title_from (is_lower c || is_upper c) s)
  end.

Definition py_title (s : string) : string := title_from false s.

(** [s.capitalize()]. *)
Definition capitalize (s : string) : string :=
  match s with
  | EmptyString => ""
  | String c s => String (to_upper c) (string_of_list_ascii (to_lower <$> list_ascii_of_string s))
  end.

Definition MODE_LABELS : list (string * string) :=
  [("READY", "Auto (Remote)"); ("IN_AUTO_MODE", "Auto (local)"); ("IN_MANUAL_MODE", "Manual");
   ("IN_REDUCED_STATE", "Reduced"); ("NOT_ENABLED", "Not enabled"); ("ESTOP_NOT_RELEASED", "E-stop");
   ("BOOTING", "Booting"); ("RELEASING_BRAKE", "Releasing brake"); ("IN_RECOVERY_STATE", "Recovery");
   ("MINOR_FAULT", "Minor fault"); ("CRITICAL_FAULT", "Critical fault"); ("UNKNOWN", "Unknown")].

(** [int(x)] of a float. *)
Definition int_of (x : f64) : res Z := of_option (if is_nan x then ValueError else OverflowError) (f_trunc x).

Section labels.
(** The names of [flexivrdk.OperationalStatus] and [flexivrdk.Mode]. *)
Context (status_name mode_name : Z -> option string).

Definition label_for_code (code : f64) : res string :=
  let? z := int_of code in
  Ok (match status_name z with
      | Some n => default (py_title (replace_all "_" " " n)) (dget n MODE_LABELS)
      | None => "status " +:+ str_of_int z
      end).

Definition mode_label (code : option f64) : res string :=
  match code with
  | None => Ok "unknown"
  | Some c =>
      let? z := int_of c in
      Ok (match mode_name z with
          | Some n => py_title (replace_all "_" " " (replace_all "NRT_" "NRT " n))
          | None => "mode " +:+ str_of_int z
          end)
  end.

Record ArmStatus := MkArmStatus {
  as_mode : string;
  as_estop_pressed : option bool;
  as_source : string;
  as_control_active : option bool;
  as_servo_enabled : option bool;
  as_operational_status : string;
}.

(** [bool(x)] of a float. *)
Definition bool_of (x : f64) : bool := negb (feq x f0).

Definition disconnected : ArmStatus := MkArmStatus "unknown" None "disconnected" None None "disconnected".

Definition read_arm_status (w : world) (dirs : list run_dir) (now_ns : Z) (side : string) : res ArmStatus :=
  match read_live_status w dirs now_ns side with
  | Some l =>
      let? mode := mode_label (lv_mode l) in
      let? op := label_for_code (lv_code l) in
      Ok (MkArmStatus mode (Some (bool_of (lv_estop l))) "live" (bool_of <$> lv_control l)
            (bool_of <$> lv_servo l) op)
  | None => Ok disconnected
  end.
End labels.

(** ** Leaders *)

(** Newest sample of [factr/<side>], unless it is older than the configured age. *)
Definition read_live_leader (w : world) (dirs : list run_dir) (now_ns : Z) (max_age_s : f64) (side : string) :
    option (list f64) :=
  '(vec, t) ← read_live_stream_sample w dirs 0 (factr_stream_name side) None;
  if too_old now_ns t max_age_s then None else Some vec.

Record LeaderStatus := MkLeader {
  ls_side : string;
  ls_name : string;
  ls_reachable : bool;
  ls_dof : nat;
  ls_gripper : option f64;
  ls_sim : bool;
  ls_grav_enabled : option bool;
  ls_grav_gain : option f64;
  ls_grav_target : option f64;
  ls_feedback_enabled : option bool;
  ls_feedback_gain : option f64;
  ls_feedback_target : option f64;
}.

Section payload.
Context (float_of_str : string -> option f64).

(** The errors the parsing of a status payload swallows. *)
Definition payload_fault (e : exn) : bool :=
  match e with KeyError | TypeError | ValueError => true | _ => false end.

Definition swallow {A} (d : A) (c : res A) : res A :=
  match c with Raise e => if payload_fault e then Ok d else Raise e | _ => c end.

(** [float(payload[key])] and [float(payload.get(target, gain))]. *)
Definition gain_fields (key target : string) (payload : list (string * json)) : res (f64 * f64) :=
  let? v := of_option KeyError (dget key payload) in
  let? gain := jfloat_of float_of_str v in
  let? goal := jfloat_of float_of_str (default (jfloat gain) (dget target payload)) in
  Ok (gain, goal).

Definition read_leader_status (sides : list string) (sim : bool) (leader : option (list f64))
    (payload : option (list (string * json))) (side : string) : res LeaderStatus :=
  let name := capitalize side in
  let off := MkLeader side name false 0 None sim None None None None None None in
  if negb (bool_decide (side ∈ sides)) then Ok off
  else
    match leader with
    | None | Some [] => Ok off
    | Some jp =>
        let on := MkLeader side name true (length jp - 1) (list.last jp) sim in
        if sim then Ok (on (Some false) (Some f0) (Some f0) (Some false) (Some f0) (Some f0))
        else
          match payload with
          | None => Ok (on None None None None None None)
          | Some p =>
              let? grav := swallow (None, None, None)
                (let? en := of_option KeyError (dget "grav_comp_enabled" p) in
                 let? g := gain_fields "grav_comp_gain" "grav_comp_gain_target" p in
                 Ok (Some (truthy en), Some g.1, Some g.2)) in
              let fe := match dget "force_feedback_enabled" p with
                        | Some (Scalar (JBool b)) => Some b | _ => None end in
              let? fb := swallow (None, None)
                (let? g := gain_fields "force_feedback_gain" "force_feedback_gain_target" p in
                 Ok (Some g.1, Some g.2)) in
              Ok (on grav.1.1 grav.1.2 grav.2 fe fb.1 fb.2)
          end
    end.

(** The ramp of a gain: [prefix] is [grav_comp] or [force_feedback]. *)
Definition ramp_state (prefix : string) (status : option (list (string * json))) : res string :=
  match status with
  | None => Ok "unknown"
  | Some p =>
      swallow "unknown"
        (let? gv := of_option KeyError (dget (prefix +:+ "_gain") p) in
         let? gain := jfloat_of float_of_str gv in
         let? tv := of_option KeyError (dget (prefix +:+ "_gain_target") p) in
         let? target := jfloat_of float_of_str tv in
         let? en := of_option KeyError (dget (prefix +:+ "_enabled") p) in
         Ok (if match en with Scalar (JBool true) => true | _ => false end then "enabled"
             else if fle (fdec 99 100) target && flt gain (fdec 99 100) then "enabling"
             else if fle target (fdec 1 100) && flt (fdec 1 100) gain then "disabling"
             else "disabled"))
  end.

Definition grav_comp_state := ramp_state "grav_comp".
Definition force_feedback_state := ramp_state "force_feedback".

(** The gain printed beside a known state. *)
Definition shown_gain (prefix : string) (status : option (list (string * json))) : res string :=
  let? p := of_option TypeError status in
  let? v := of_option KeyError (dget (prefix +:+ "_gain") p) in
  let? g := jfloat_of float_of_str v in
  Ok ("gain `" +:+ fmt_fixed 2 g +:+ "`").

Definition grav_comp_display (status : option (list (string * json))) : res (string * string) :=
  let? state := grav_comp_state status in
  if bool_decide (state = "unknown") then Ok ("🟡", ":gray[grav comp unknown]")
  else
    let? gain := shown_gain "grav_comp" status in
    Ok (if bool_decide (state = "enabled") then ("🟢", ":green[grav comp enabled] · " +:+ gain)
        else if bool_decide (state = "enabling") then ("🟡", ":orange[enabling grav comp] · " +:+ gain)
        else if bool_decide (state = "disabling") then ("🟡", ":orange[disabling grav comp] · " +:+ gain)
        else ("⚫", gain)).

Definition force_feedback_display (status : option (list (string * json))) : res string :=
  let? state := force_feedback_state status in
  if bool_decide (state = "unknown") then Ok ":gray[force feedback unknown]"
  else
    let? gain := shown_gain "force_feedback" status in
    Ok ((if bool_decide (state = "enabled") then ":green[force feedback enabled]"
         else if bool_decide (state = "enabling") then ":orange[enabling force feedback]"
         else if bool_decide (state = "disabling") then ":orange[disabling force feedback]"
         else ":gray[force feedback disabled]") +:+ " · " +:+ gain).
End payload.

(** ** The configuration snapshot *)

(** What one composition of the configuration yields. *)
Record config_snapshot := Snapshot { sn_arms : list string; sn_sim : bool; sn_factr : FactrCfg }.

Record conv_status := ConvStatus { cs_state : string; cs_attempted : option f64; cs_succeeded : option f64 }.

Record arms_state := Arms {
  snap : option config_snapshot;
  active_rig : option string;
  status_client : option group;
  leader_conventions : list (string * JointConventionCfg f64);
  convention_status : list (string * conv_status);
}.

Definition compose_overrides (s : arms_state) : list string :=
  match active_rig s with Some r => if bool_decide (r = "") then [] else ["rig=" +:+ r] | None => [] end.

(** The request through an existing client. *)
Definition ask (side : string) (reply : res (Z * res json)) (g : group) :
    ST arms_state (option (list (string * json))) := fun s =>
  let keep g := Arms (snap s) (active_rig s) (Some g) (leader_conventions s) (convention_status s) in
  if negb (dmem side g) then (keep g, Returned None)
  else
    match get_status_for side reply g with
    | (g, Returned p) => (keep g, Returned (Some p))
    | (g, _) => (keep g, Returned None)
    end.

Section config_snapshot.
(** [_compose_uncached] under the given overrides: Hydra's composition of the files on disk. *)
Context (compose_uncached : list string -> res config_snapshot).

Definition set_active_rig (rig : option string) : ST arms_state unit := st_modify (fun s =>
  Arms None rig (status_client s) (leader_conventions s) (convention_status s)).

Definition compose : ST arms_state config_snapshot := fun s =>
  match snap s with
  | Some c => (s, Returned c)
  | None =>
      match compose_uncached (compose_overrides s) with
      | Raise e => (s, Raised e)
      | Ok c => (Arms (Some c) (active_rig s) (status_client s) (leader_conventions s) (convention_status s), Returned c)
      end
  end.

Definition discover_arms : ST arms_state (list string) := c ← compose; mret (sn_arms c).
Definition runtime_is_sim : ST arms_state bool := c ← compose; mret (sn_sim c).
Definition discover_factr : ST arms_state FactrCfg := c ← compose; mret (sn_factr c).
Definition leader_sides : ST arms_state (list string) := f ← discover_factr; mret (dkeys (fc_servers f)).
Definition factr_max_age_s : ST arms_state f64 := f ← discover_factr; mret (fc_max_age_s f).

Definition discover_conventions (now : f64) : ST arms_state (list (string * JointConventionCfg f64)) :=
  f ← discover_factr;
  let found := conventions_of f in
  let status := foldl (fun d side => dset side
      (if dmem side found then ConvStatus "configured" (Some now) (Some now)
       else ConvStatus "missing" (Some now) None) d) in
  st_modify (fun s => Arms (snap s) (active_rig s) (status_client s) found
                        (status (convention_status s) (dkeys (fc_servers f)))) ;;
  mret found.

Definition convention_poll_status (s : arms_state) (side : string) : conv_status :=
  default (ConvStatus "waiting" None None) (dget side (convention_status s)).

(** [reset]: drops the snapshot and the client, then lists the leader sides, which composes. *)
Definition reset (now : f64) : ST arms_state unit :=
  st_modify (fun s => Arms None (active_rig s) None [] []) ;;
  sides ← leader_sides;
  st_modify (fun s => Arms (snap s) (active_rig s) (status_client s) (leader_conventions s)
    (foldl (fun d side => dset side (ConvStatus "reset" (Some now) None) d) (convention_status s) sides)).

(** [read_leader_grav_comp_status]: the client is built once; every failure reads as no status. *)
Definition read_leader_grav_comp_status (now : f64) (reply : res (Z * res json)) (side : string) :
    ST arms_state (option (list (string * json))) := fun s =>
  match status_client s with
  | None =>
      match compose s with
      | (s', Returned c) =>
          match from_config (fc_servers (sn_factr c)) false now with
          | Raise _ => (s', Returned None)
          | Ok g => ask side reply g s'
          end
      | (s', _) => (s', Returned None)
      end
  | Some g => ask side reply g s
  end.
End config_snapshot.

(** ** Cameras

    [dashboard/cameras.py]: the views of the composed configuration, the newest frame of a
    view, and the coloured point cloud of a camera. *)

Record CameraView := CamView {
  cv_key : string; cv_camera : string; cv_view : string;
  cv_width : Z; cv_height : Z; cv_channels : Z; cv_dtype : string;
}.

(** The number of elements of a view's shape. *)
Definition cv_size (v : CameraView) : Z :=
  if 1 <? cv_channels v then cv_height v * cv_width v * cv_channels v else cv_height v * cv_width v.

Definition camera_view (name : string) (cam : CameraCfg) (view : string) : res CameraView :=
  let? ch := view_channels view in
  let? dt := view_dtype view in
  Ok (CamView (camera_stream_name name view) name view (cam_width cam) (cam_height cam) ch dt).

Definition compose_views (cams : list (string * CameraCfg)) : res (list CameraView) :=
  res_map (@concat _) (mapM_res (fun nc => mapM_res (camera_view nc.1 nc.2) (cam_views nc.2)) cams).

(** Views grouped by camera, cameras in order of first appearance. *)
Definition by_camera (views : list CameraView) : list (string * list string) :=
  foldl (fun d v => dset (cv_camera v) (default [] (dget (cv_camera v) d) ++ [cv_view v])%list d) [] views.

Definition depth_cameras (views : list CameraView) : list string :=
  omap (fun cv => if bool_decide ("left" ∈ cv.2) && bool_decide ("depth" ∈ cv.2) then Some cv.1 else None)
    (by_camera views).

Section frames.
Context (w : world).

(** The newest frame, which must have the elements of the view's shape to be reshaped. *)
Definition frame_of (v : CameraView) (rd : StreamReader) : res (option (list f64)) :=
  let? s := reader_last w rd 1 in
  match newest s with
  | None => Ok None
  | Some f => if Z.of_nat (length f) =? cv_size v then Ok (Some f) else Raise ValueError
  end.

Definition read_live_frame (dirs : list run_dir) (v : CameraView) : option (list f64) :=
  first_run (in_run w (cv_key v) (frame_of v)) (newest_first dirs).

Definition get_frame (to_display : list f64 -> list f64) (dirs : list run_dir) (v : CameraView) :
    option (list f64) * string :=
  match read_live_frame dirs v with
  | Some f => (Some (to_display f), "live")
  | None => (None, "missing")
  end.

Definition holds_sample (rd : StreamReader) : res (option unit) :=
  let? s := reader_last w rd 1 in Ok (if (samples_n s =? 0)%nat then None else Some tt).

Definition stream_is_live (dirs : list run_dir) (key : string) : bool :=
  match first_run (in_run w key holds_sample) (newest_first dirs) with Some _ => true | None => false end.

Record CameraStatus := CamStatus { ct_camera : string; ct_views : list string; ct_live : list string }.

Definition detected (s : CameraStatus) : bool := negb (bool_decide (ct_live s = [])).

Definition read_camera_statuses (dirs : list run_dir) (views : list CameraView) : list CameraStatus :=
  (fun cv => CamStatus cv.1 cv.2
     (cv_view <$> List.filter (fun v => bool_decide (cv_camera v = cv.1) && stream_is_live dirs (cv_key v)) views))
  <$> by_camera views.

(** [0, stride, 2 * stride, ..] below [n], for a positive stride. *)
Definition strided (stride n : nat) : list nat := (fun i => i * stride)%nat <$> seq 0 ((n + stride - 1) / stride).

(** One pixel of the cloud: its point in the optical frame and its colour. *)
Definition back_project (fx cx cy : f64) (f32 : f64 -> f64) (u v : nat) (z : f64) : list f64 :=
  let at_ c k := fdiv (fmul (fsub (f_of_Z (Z.of_nat k)) c) z) fx in
  f32 <$> [at_ cx u; at_ cy v; z].

Definition valid_depth (max_depth z : f64) : bool := is_finite z && flt (fdec 2 10) z && fle z max_depth.

Definition cloud (fx : f64) (f32 : f64 -> f64) (width height stride : nat) (max_depth : f64)
    (depth rgb : list f64) : list (list f64 * list f64) :=
  let cx := fdiv (f_of_Z (Z.of_nat width)) (f_of_Z 2) in
  let cy := fdiv (f_of_Z (Z.of_nat height)) (f_of_Z 2) in
  v ← strided stride height;
  omap (fun u =>
    let i := (v * width + u)%nat in
    z ← depth !! i;
    if valid_depth max_depth z then Some (back_project fx cx cy f32 u v z, slice rgb (3 * i) (3 * i + 3)) else None)
    (strided stride width).

Definition find_view (views : list CameraView) (camera view : string) : option CameraView :=
  head (List.filter (fun v => bool_decide (cv_camera v = camera) && bool_decide (cv_view v = view)) views).

(** [tan], the horizontal field of view of the camera's configuration. *)
Definition depth_point_cloud (tan : f64 -> f64) (hfov : string -> f64) (f32 : f64 -> f64) (dirs : list run_dir)
    (views : list CameraView) (camera : string) (stride : nat) (max_depth : f64) :
    option (list (list f64 * list f64)) :=
  depth_view ← find_view views camera "depth";
  rgb_view ← match find_view views camera "left" with Some v => Some v | None => find_view views camera "color" end;
  depth ← read_live_frame dirs depth_view;
  rgb ← read_live_frame dirs rgb_view;
  let wd := cv_width depth_view in
  let fx := fdiv (fdiv (f_of_Z wd) (f_of_Z 2)) (tan (fdiv (nradians (hfov camera)) (f_of_Z 2))) in
  match cloud fx f32 (Z.to_nat wd) (Z.to_nat (cv_height depth_view)) stride max_depth depth rgb with
  | [] => None
  | pts => Some pts
  end.
End frames.

(** ** Lemmas *)

Lemma first_run_Some {A} (f : string -> option A) runs a : first_run f runs = Some a ->
  exists pre r post, runs = (pre ++ r :: post)%list /\ f r = Some a /\ Forall (fun r => f r = None) pre.
Proof.
  induction runs as [|r runs IH]; simpl; [done|]. destruct (f r) eqn:E.
  - intros [= ->]. by exists [], r, runs.
  - intros (pre & r' & post & -> & Hf & Hp)%IH. exists (r :: pre), r', post. split_and!; [done|done|by constructor].
Qed.

Lemma first_run_None {A} (f : string -> option A) runs : first_run f runs = None -> Forall (fun r => f r = None) runs.
Proof. induction runs as [|r runs IH]; simpl; [constructor|]. destruct (f r) eqn:E; [done|]. constructor; auto. Qed.

Lemma elem_of_newest_first dirs r : r ∈ newest_first dirs <-> r ∈ dirs.*1.
Proof. unfold newest_first. by rewrite (py_sorted_perm _ dirs). Qed.

(** The newest sample a run directory holds of a stream. *)
Definition published (w : world) (stream run : string) (v : list f64) (t : Z) : Prop :=
  exists e rd s, reg_get w (Registry run "streams") stream = Ok (Some e) /\ reader_attach w e = Ok rd /\
    reader_last w rd 1 = Ok s /\ newest s = Some v /\ newest_t_ns s = Some t.

Definition fresh (now_ns : Z) (max_age_s : option f64) (t : Z) : Prop :=
  match max_age_s with Some a => too_old now_ns t a = false | None => True end.

Lemma in_run_newest w now_ns a stream run v t :
  in_run w stream (latest_fresh w now_ns a) run = Some (v, t) <-> published w stream run v t /\ fresh now_ns a t.
Proof.
  unfold in_run, published, fresh, latest_fresh. split.
  - destruct (reg_get _ _ _) as [[e|]|] eqn:Eg; simpl; [|done..].
    destruct (reader_attach w e) as [rd|] eqn:Ea; simpl; [|done].
    destruct (reader_last w rd 1) as [s|] eqn:El; simpl; [|done].
    destruct (newest s) eqn:En; [|done]. destruct (newest_t_ns s) eqn:Et; [|done].
    destruct (match a with Some a => _ | None => _ end) eqn:Eo; [done|]. intros [= -> ->].
    split; [by exists e, rd, s|]. by destruct a.
  - intros [(e & rd & s & -> & Ha & Hl & Hn & Ht) Hf]. simpl. rewrite Ha. simpl. rewrite Hl. simpl. rewrite Hn, Ht.
    destruct a; [by rewrite Hf|done].
Qed.

(** The status bound is two seconds, to the nanosecond. *)
Lemma status_age now_ns t : too_old now_ns t STATUS_MAX_AGE_S = (2000000000 <? now_ns - t).
Proof.
  unfold too_old. set (x := fmul _ _). vm_compute in x. subst x. simpl. unfold int_gt_float. simpl.
  apply eq_true_iff_eq. rewrite !Z.ltb_lt. lia.
Qed.

(** The sample a scan returns is the first fresh one, newest directory first. *)
Lemma scan_sample w dirs now_ns stream a v t :
  read_live_stream_sample w dirs now_ns stream a = Some (v, t) ->
  exists run, run ∈ dirs.*1 /\ published w stream run v t /\ fresh now_ns a t.
Proof.
  intros (pre & run & post & Hr & Hf & _)%first_run_Some. exists run.
  apply in_run_newest in Hf as [Hp Hfr]. split; [|done]. apply elem_of_newest_first. rewrite Hr. set_solver.
Qed.

Lemma scan_complete w dirs now_ns stream a run v t :
  run ∈ dirs.*1 -> published w stream run v t -> fresh now_ns a t ->
  is_Some (read_live_stream_sample w dirs now_ns stream a).
Proof.
  intros Hr Hp Hf. destruct (read_live_stream_sample _ _ _ _ _) eqn:E; [by eexists|].
  apply first_run_None in E. rewrite Forall_forall in E. apply elem_of_newest_first in Hr.
  specialize (E _ Hr). by rewrite (proj2 (in_run_newest _ _ _ _ _ v t)) in E.
Qed.

(** Frames have the configured number of elements. *)
Lemma live_frame_size w dirs v f : read_live_frame w dirs v = Some f -> Z.of_nat (length f) = cv_size v.
Proof.
  intros (pre & run & post & _ & Hf & _)%first_run_Some. unfold in_run, frame_of in Hf.
  destruct (reg_get _ _ _) as [[e|]|]; simpl in Hf; [|done..].
  destruct (reader_attach w e) as [rd|]; simpl in Hf; [|done].
  destruct (reader_last w rd 1) as [s|]; simpl in Hf; [|done]. destruct (newest s); [|done].
  destruct (_ =? _) eqn:E; [|done]. injection Hf as ->. lia.
Qed.

Lemma find_view_spec views camera view v :
  find_view views camera view = Some v -> v ∈ views /\ cv_camera v = camera.
Proof.
  unfold find_view. intros Hh. apply head_Some_elem_of, list_elem_of_In, List.filter_In in Hh as [Hin Hb].
  apply andb_true_iff in Hb as [Hb _]. apply bool_decide_eq_true in Hb. split; [by apply list_elem_of_In|done].
Qed.

Lemma strided_lt stride n i : i ∈ strided stride n -> (i < n)%nat.
Proof.
  unfold strided. intros (k & -> & Hk)%list_elem_of_fmap. apply elem_of_seq in Hk as [_ Hk]. simpl in Hk.
  destruct (decide (stride = 0)%nat) as [->|Hs]; [simpl in Hk; lia|].
  assert (S k * stride <= n + stride - 1)%nat; [|lia].
  transitivity ((n + stride - 1) / stride * stride)%nat; [apply Nat.mul_le_mono_r; lia|].
  rewrite Nat.mul_comm. by apply Nat.Div0.mul_div_le.
Qed.

Lemma cloud_spec fx f32 width height stride max_depth depth rgb p c :
  (p, c) ∈ cloud fx f32 width height stride max_depth depth rgb ->
  exists u v z, (u < width)%nat /\ (v < height)%nat /\ depth !! (v * width + u)%nat = Some z /\
    is_finite z = true /\ flt (fdec 2 10) z = true /\ fle z max_depth = true /\
    p = back_project fx (fdiv (f_of_Z (Z.of_nat width)) (f_of_Z 2))
          (fdiv (f_of_Z (Z.of_nat height)) (f_of_Z 2)) f32 u v z /\
    c = slice rgb (3 * (v * width + u)) (3 * (v * width + u) + 3).
Proof.
  unfold cloud. intros (v & Hin & Hv)%list_elem_of_bind. apply list_elem_of_omap in Hin as (u & Hu & Hpix).
  apply strided_lt in Hv, Hu. destruct (depth !! _) as [z|] eqn:Ez; [|done]. cbn in Hpix.
  unfold valid_depth in Hpix. destruct (is_finite z) eqn:E1; [|done]. destruct (flt _ z) eqn:E2; [|done].
  destruct (fle z max_depth) eqn:E3; [|done]. cbn in Hpix. injection Hpix as <- <-. by exists u, v, z.
Qed.

(** ** Properties *)

(** An arm reads as live exactly on fresh data.  A status that is not [disconnected] comes
    from a run directory whose newest status sample is at most two seconds old, and shows that
    sample's E-stop and control flags; conversely, whatever other directories hold, one fresh
    status sample is enough for the arm not to read as disconnected, so the frozen last sample
    of a dead run neither shows nor hides anything. *)
Lemma arm_status_sound (status_name mode_name : Z -> option string) w dirs now_ns side st :
  read_arm_status status_name mode_name w dirs now_ns side = Ok st ->
  (as_source st = "live" -> exists run v t, run ∈ dirs.*1 /\
     published w (STATUS_STREAM side) run v t /\ now_ns - t <= 2000000000 /\
     as_estop_pressed st = bool_of <$> v !! 1%nat /\
     as_control_active st = bool_of <$> v !! 2%nat /\
     as_servo_enabled st = bool_of <$> v !! 3%nat) /\
  (as_source st = "live" \/ st = disconnected) /\
  ((forall run v t, run ∈ dirs.*1 -> published w (STATUS_STREAM side) run v t -> (2 <= length v)%nat) ->
   (exists run v t, run ∈ dirs.*1 /\ published w (STATUS_STREAM side) run v t /\ now_ns - t <= 2000000000) ->
   as_source st = "live").
Proof.
  unfold read_arm_status, read_live_status. intros H.
  destruct (read_live_stream_sample w dirs now_ns (STATUS_STREAM side) (Some STATUS_MAX_AGE_S))
    as [[v t]|] eqn:E; cbn in H.
  - destruct (scan_sample _ _ _ _ _ _ _ E) as (run & Hr & Hp & Hf).
    assert (now_ns - t <= 2000000000) as Hage by (simpl in Hf; rewrite status_age in Hf; lia).
    destruct v as [|code [|estop rest]].
    1, 2: injection H as <-; (split; [done|]); (split; [by right|]); intros Hw _;
      specialize (Hw _ _ _ Hr Hp); simpl in Hw; lia.
    res_simp. split; [|split; [by left|done]]. intros _. by exists run, (code :: estop :: rest), t.
  - injection H as <-. split; [done|]. split; [by right|]. intros _ (run & v & t & Hr & Hp & Hage).
    destruct (scan_complete w dirs now_ns (STATUS_STREAM side) (Some STATUS_MAX_AGE_S) run v t Hr Hp) as [? Hs].
    + simpl. rewrite status_age. lia.
    + congruence.
Qed.

(** The cached snapshot is the composition of the active rig. *)
Definition pinned (compose_uncached : list string -> res config_snapshot) (s : arms_state) : Prop :=
  forall c, snap s = Some c -> compose_uncached (compose_overrides s) = Ok c.

Inductive arms_op :=
  | OSetRig (rig : option string)
  | OArms | OSim | OSides
  | OConventions (now : f64)
  | OReset (now : f64)
  | OLeaderStatus (now : f64) (reply : res (Z * res json)) (side : string).

Definition run_arms_op (cu : list string -> res config_snapshot) (o : arms_op) : ST arms_state unit :=
  match o with
  | OSetRig r => set_active_rig r
  | OArms => discover_arms cu ;; mret tt
  | OSim => runtime_is_sim cu ;; mret tt
  | OSides => leader_sides cu ;; mret tt
  | OConventions now => discover_conventions cu now ;; mret tt
  | OReset now => reset cu now
  | OLeaderStatus now reply side => read_leader_grav_comp_status cu now reply side ;; mret tt
  end.

Lemma compose_pinned cu : keeps (pinned cu) (compose cu).
Proof.
  intros s Hs. unfold compose. destruct (snap s) eqn:E; [done|].
  destruct (cu (compose_overrides s)) eqn:Ec; [|done]. by intros c [= <-].
Qed.

Lemma discover_factr_pinned cu : keeps (pinned cu) (discover_factr cu).
Proof. apply keeps_bind; [apply compose_pinned|]. intros. apply keeps_ret. Qed.

Lemma leader_sides_pinned cu : keeps (pinned cu) (leader_sides cu).
Proof. apply keeps_bind; [apply discover_factr_pinned|]. intros. apply keeps_ret. Qed.

Lemma ask_pinned cu side reply g : keeps (pinned cu) (ask side reply g).
Proof. intros s Hs. unfold ask. repeat case_goal; exact Hs. Qed.

Create HintDb pinned.
#[local] Hint Resolve compose_pinned discover_factr_pinned leader_sides_pinned keeps_bind keeps_ret : pinned.

(** The dashboard never shows another rig's configuration: whichever operations run, in
    whatever order, a cached snapshot is the composition of the active rig. *)
Theorem snapshot_pinned cu (ops : list arms_op) (s : arms_state) :
  pinned cu s -> pinned cu (foldl (fun s o => (run_arms_op cu o s).1) s ops).
Proof.
  revert s. induction ops as [|o ops IH]; intros s Hs; simpl; [done|]. apply IH. clear IH ops.
  revert s Hs. change (keeps (pinned cu) (run_arms_op cu o)).
  destruct o; cbn [run_arms_op]; unfold discover_arms, runtime_is_sim; auto with pinned.
  - by apply keeps_modify.
  - apply keeps_bind; [|auto with pinned]. apply keeps_bind; [auto with pinned|]. intros f.
    apply keeps_bind; [|auto with pinned]. by apply keeps_modify.
  - apply keeps_bind; [by apply keeps_modify|]. intros _. apply keeps_bind; [auto with pinned|]. intros sides.
    by apply keeps_modify.
  - apply keeps_bind; [|auto with pinned]. intros s Hs. unfold read_leader_grav_comp_status.
    destruct (status_client s); [by apply ask_pinned|]. pose proof (compose_pinned cu s Hs) as Hc.
    destruct (compose cu s) as [s' [c|e|]]; simpl in *; [|done..].
    destruct (from_config _ _ _); [by apply ask_pinned|done].
Qed.

(** Every point of a camera's cloud comes from a depth pixel on the stride grid that is finite,
    beyond 0.2 m and within the bound, and carries the colour of the same pixel of a frame of
    the configured size. *)
Theorem cloud_points_valid w tan hfov f32 dirs views camera stride max_depth pts :
  depth_point_cloud w tan hfov f32 dirs views camera stride max_depth = Some pts ->
  exists dv rv depth rgb fx, dv ∈ views /\ rv ∈ views /\ cv_camera dv = camera /\ cv_camera rv = camera /\
    read_live_frame w dirs dv = Some depth /\ read_live_frame w dirs rv = Some rgb /\
    Z.of_nat (length depth) = cv_size dv /\ Z.of_nat (length rgb) = cv_size rv /\
    forall p c, (p, c) ∈ pts -> exists u v z,
      (u < Z.to_nat (cv_width dv))%nat /\ (v < Z.to_nat (cv_height dv))%nat /\
      depth !! (v * Z.to_nat (cv_width dv) + u)%nat = Some z /\
      is_finite z = true /\ flt (fdec 2 10) z = true /\ fle z max_depth = true /\
      p = back_project fx (fdiv (f_of_Z (Z.of_nat (Z.to_nat (cv_width dv)))) (f_of_Z 2))
            (fdiv (f_of_Z (Z.of_nat (Z.to_nat (cv_height dv)))) (f_of_Z 2)) f32 u v z /\
      c = slice rgb (3 * (v * Z.to_nat (cv_width dv) + u)) (3 * (v * Z.to_nat (cv_width dv) + u) + 3).
Proof.
  unfold depth_point_cloud. destruct (find_view views camera "depth") as [dv|] eqn:Ed; simpl; [|done].
  destruct (match find_view views camera "left" with Some v => _ | None => _ end) as [rv|] eqn:Er; simpl; [|done].
  destruct (read_live_frame w dirs dv) as [depth|] eqn:Efd; simpl; [|done].
  destruct (read_live_frame w dirs rv) as [rgb|] eqn:Efr; simpl; [|done].
  set (fx := fdiv _ (tan _)). destruct (cloud _ _ _ _ _ _ _ _) as [|x l] eqn:Ec; [done|]. intros [= <-].
  apply find_view_spec in Ed as [Hd1 Hd2].
  assert (rv ∈ views /\ cv_camera rv = camera) as [Hr1 Hr2].
  { destruct (find_view views camera "left") eqn:El; [injection Er as ->|]; by apply find_view_spec in El || apply find_view_spec in Er. }
  exists dv, rv, depth, rgb, fx. split_and!; try done; [by eapply live_frame_size..|].
  intros p c Hp. rewrite <-Ec in Hp. by apply cloud_spec in Hp.
Qed.

(** ** Witnesses and divergences *)

(** A run directory with one stream holding one sample. *)
Definition one_sample (w : world) (run stream : string) (dim : Z) (v : list f64) (t : Z) : world :=
  match writer_create true w (MkSpec stream dim 8 "float64" None) run (Registry run "streams") 1 with
  | (w', Ok wr) => match writer_write (fun _ x => x) w' wr v t with Ok r => r.1 | Raise _ => w' end
  | (w', Raise _) => w'
  end.

Definition live_world : world :=
  one_sample (one_sample empty_world "new" "left/status" 5 [f1; f1; f1; f1; f1] 0)
    "old" "left/status" 5 [f1; f0; f1; f1; f0] 9000000000.

(** The newer directory's sample is nine seconds old, the older one's is fresh. *)
Definition live_dirs : list run_dir := [("old", 5); ("new", 7)].

Definition demo_snapshot (rigs : list string) : res config_snapshot :=
  Ok (Snapshot rigs true (MkFactrCfg [] [] f1 f1)).

Lemma snapshot_pinned_witness :
  pinned demo_snapshot (foldl (fun s o => (run_arms_op demo_snapshot o s).1) (Arms None None None [] [])
    [OArms; OSetRig (Some "left_only"); OSim; OReset f0]).
Proof. apply (snapshot_pinned demo_snapshot). by intros c [=]. Defined.

(** The joint read has no age bound: a dead run's last pose is returned an hour later. *)
Lemma frozen_pose_is_read :
  read_live_joint_positions (one_sample empty_world "dead" "left/q" 2 [f1; f0] 0) [("dead", 1)] "left" = Some [f1; f0].
Proof. vm_compute. reflexivity. Qed.

(** The leader read scans without a bound and checks the age after: a stale sample in the newer
    directory hides the fresh one of the older. *)
Lemma stale_leader_hides_fresh :
  let w := one_sample (one_sample empty_world "new" "factr/left" 2 [f1; f1] 0) "old" "factr/left" 2 [f0; f0] 9900000000 in
  read_live_leader w live_dirs 10000000000 (fdec 1 2) "left" = None /\
  read_live_stream_sample w live_dirs 10000000000 "factr/left" (Some (fdec 1 2)) = Some ([f0; f0], 9900000000).
Proof. vm_compute. done. Qed.

(** [reset] composes again by itself, before the next call can. *)
Lemma reset_recomposes s now : is_Some (snap (reset demo_snapshot now s).1).
Proof. destruct s as [sn r cl cs st]. vm_compute. by eexists. Qed.

Definition cloud_world : world :=
  one_sample (one_sample empty_world "r" "cam/c/depth" 2 [f1; f_of_Z 9] 0) "r" "cam/c/left" 6
    [f0; f1; f0; f1; f1; f1] 0.
Definition cloud_views : list CameraView :=
  [CamView "cam/c/left" "c" "left" 2 1 3 "uint8"; CamView "cam/c/depth" "c" "depth" 2 1 1 "float32"].

(** Of two pixels, the one beyond five metres is dropped. *)
Lemma cloud_points_valid_witness : exists pts,
  depth_point_cloud cloud_world (fun _ => f1) (fun _ => f_of_Z 90) (fun x => x) [("r", 0)] cloud_views "c" 1 (f_of_Z 5)
    = Some pts /\ length pts = 1%nat /\
  forall p c, (p, c) ∈ pts -> exists z, is_finite z = true /\ fle z (f_of_Z 5) = true.
Proof.
  destruct (depth_point_cloud cloud_world (fun _ => f1) (fun _ => f_of_Z 90) (fun x => x) [("r", 0)] cloud_views "c" 1
    (f_of_Z 5)) as [pts|] eqn:E; [|vm_compute in E; discriminate E].
  exists pts. split; [reflexivity|]. split; [vm_compute in E; injection E as <-; reflexivity|].
  destruct (cloud_points_valid cloud_world (fun _ => f1) (fun _ => f_of_Z 90) (fun x => x) [("r", 0)] cloud_views "c" 1
    (f_of_Z 5) pts E) as (dv & rv & depth & rgb & fx & _ & _ & _ & _ & _ & _ & _ & _ & Hp).
  intros p c Hin. destruct (Hp p c Hin) as (u & v & z & _ & _ & _ & Hf & _ & Hm & _). exists z. split; [exact Hf|exact Hm].
Defined.
