(* ===== verification/Horizon.v ===== *)
(** * The predicted path, from the policy's chunk to the viewers

    Models the viewer hooks of an evaluation in [policy/loop.py]: [EvalLoop._announce_horizon], which
    estimates where each arm is headed from a whole action chunk, and the two functions of
    [EvalNode.run] that publish the endpoint and the path on the horizon streams; the reader is
    [read_live_horizon_q_trajectory] of [LiveView].  Streams are segments of the world of [Streams]. *)

From Stdlib Require Import String Ascii.
From S2P Require Import Prelude Float64 Ring Streams Channel Layout LiveView.
Local Open Scope string_scope.
Local Open Scope list_scope.
Local Open Scope Z_scope.

(** [horizon_writers]: what a side's stream carries, and its writer. *)
Definition horizon_writers : Type := list (string * (horizon * StreamWriter)).

(** Paths, or endpoints, by side. *)
Definition predictions (A : Type) : Type := list (string * (horizon * A)).

Section hooks.
Context (cast : dtype -> f64 -> f64).

(** [writer.write(vec, t_ns=..)]. *)
Definition write_sample (wr : StreamWriter) (vec : list f64) (t : Z) : ST world unit := fun w =>
  match writer_write cast w wr vec t with
  | Ok (w, _) => (w, Returned tt)
  | Raise x => (w, Raised x)
  end.

Fixpoint for_each {A} (f : A -> ST world unit) (l : list A) : ST world unit :=
  match l with
  | [] => mret tt
  | x :: l => f x;; for_each f l
  end.

(** [publish_horizon]; [now] is the clock at each side's write. *)
Definition publish_endpoint (ws : horizon_writers) (now : string -> Z) (x : string * (horizon * list f64)) : ST world unit :=
  match dget x.1 ws with
  | Some (hk, wr) => if bool_decide (hk = x.2.1) then write_sample wr x.2.2 (now x.1) else mret tt
  | None => mret tt
  end.
Definition publish_horizon (ws : horizon_writers) (now : string -> Z) (targets : predictions (list f64)) : ST world unit :=
  for_each (publish_endpoint ws now) targets.

(** [rows.shape[1]]. *)
Definition columns (rows : list (list f64)) : Z := match rows with r :: _ => Z.of_nat (length r) | [] => 0 end.

(** [publish_trajectory]: one clock reading stamps every row of a side. *)
Definition publish_path (ws : horizon_writers) (now : string -> Z) (x : string * (horizon * list (list f64))) : ST world unit :=
  match dget x.1 ws with
  | Some (HorizonQ, wr) =>
      if negb (bool_decide (x.2.1 = HorizonQ)) then mret tt
      else if negb (columns x.2.2 =? sp_dim (w_spec wr)) then st_raise ValueError
      else if sp_capacity (w_spec wr) <? Z.of_nat (length x.2.2) then st_raise ValueError
      else for_each (fun row => write_sample wr row (now x.1)) x.2.2
  | _ => mret tt
  end.
Definition publish_trajectory (ws : horizon_writers) (now : string -> Z) (paths : predictions (list (list f64))) : ST world unit :=
  for_each (publish_path ws now) paths.

(** The measured baselines of a side. *)
Definition measured_of (snapshot : string -> option (samples f64)) (side : string) (c : ControlCfg) : list (string * list f64) :=
  omap (fun sig => s ← snapshot (side +:+ "/" +:+ sig); v ← list.last (s_data s); Some (sig, v)) (horizon_signals c).

(** One side of the loop of [_announce_horizon]. *)
Definition side_path (l : DFCStateActionLayout) (arms : list (string * ControlCfg)) (chunk : list (list f64)) (dt : f64)
    (snapshot : string -> option (samples f64)) (acc : predictions (list (list f64))) (side : string) :
    res (predictions (list (list f64))) :=
  match dget side arms with
  | None => Ok acc
  | Some c =>
      let? s := primary_slice l side in
      let? e := estimate_chunk_trajectory c (Chunk2 ((fun row => slice row s.1 s.2) <$> chunk)) dt (measured_of snapshot side c) in
      match e with
      | None => Ok acc
      | Some (k, path) => Ok (dset side (k, path) acc)
      end
  end.

(** [path[-1]] of each. *)
Definition endpoints (paths : predictions (list (list f64))) : res (predictions (list f64)) :=
  mapM_res (fun x => let? r := of_option IndexError (list.last x.2.2) in Ok (x.1, (x.2.1, r))) paths.

Definition gather (l : DFCStateActionLayout) (arms : list (string * ControlCfg)) (chunk : list (list f64)) (dt : f64)
    (snapshot : string -> option (samples f64)) : res (predictions (list (list f64)) * predictions (list f64)) :=
  let? paths := foldM_res (side_path l arms chunk dt snapshot) (sides l) [] in
  let? ends := endpoints paths in
  Ok (paths, ends).

(** [1.0 / self.frequency_hz]. *)
Definition period (frequency_hz : f64) : res f64 := if feq frequency_hz f0 then Raise OtherError else Ok (fdiv f1 frequency_hz).

(** [_announce_horizon] with the hooks of the node, set when there is a horizon stream ([ws] not empty).
    An exception is logged and dropped. *)
Definition announce_horizon (ws : horizon_writers) (now1 now2 : string -> Z) (frequency_hz : f64) (l : DFCStateActionLayout)
    (arms : list (string * ControlCfg)) (chunk : list (list f64)) (snapshot : string -> option (samples f64)) : ST world unit :=
  match ws with
  | [] => mret tt
  | _ =>
      try_except
        (dt ← st_lift (period frequency_hz);
         x ← st_lift (gather l arms chunk dt snapshot);
         (if bool_decide (x.2 = []) then mret tt else publish_horizon ws now1 x.2);;
         (if bool_decide (x.1 = []) then mret tt else publish_trajectory ws now2 x.1))
        (fun _ => Some (mret tt))
  end.
End hooks.

(** ** Lemmas: the hooks touch the horizon streams only *)

Section frame.
Context (cast : dtype -> f64 -> f64) (ws : horizon_writers) (w0 : world).

(** Names, directories and every other segment are as before. *)
Definition spares : world -> Prop := fun w =>
  names w = names w0 /\ dirs w = dirs w0 /\
  forall seg, (forall side hk wr, dget side ws = Some (hk, wr) -> w_seg wr <> seg) -> mapped_ring w seg = mapped_ring w0 seg.

Lemma write_sample_spares side hk wr vec t : dget side ws = Some (hk, wr) -> settles spares (write_sample cast wr vec t).
Proof.
  intros Hd w (Hn & Hdi & Hs). unfold write_sample. destruct (writer_write cast w wr vec t) as [[w' idx]|x] eqn:E; [|done].
  apply writer_write_ok in E as (r & r' & _ & _ & _ & En & Ed & Eo). split; [|done]. split; [cbn; congruence|].
  split; [cbn; congruence|]. intros seg Hseg. cbn. rewrite Eo; [by apply Hs|]. intros ->. by apply (Hseg side hk wr).
Qed.

Lemma for_each_spares {A} (f : A -> ST world unit) l : (forall x, settles spares (f x)) -> settles spares (for_each f l).
Proof. intros Hf. induction l as [|x l IH]; [apply settles_ret|]. apply settles_bind; [apply Hf|]. by intros _. Qed.

Lemma publish_horizon_spares now targets : settles spares (publish_horizon cast ws now targets).
Proof.
  apply for_each_spares. intros [side [k v]]. unfold publish_endpoint. cbn. destruct (dget side ws) as [[hk wr]|] eqn:E; [|apply settles_ret].
  case_bool_decide; [by eapply write_sample_spares|apply settles_ret].
Qed.

Lemma publish_trajectory_spares now paths : settles spares (publish_trajectory cast ws now paths).
Proof.
  apply for_each_spares. intros [side [k rows]]. unfold publish_path. cbn. destruct (dget side ws) as [[[] wr]|] eqn:E; try apply settles_ret.
  destruct (negb _); [apply settles_ret|]. destruct (negb _); [apply settles_raise|]. destruct (_ <? _); [apply settles_raise|].
  apply for_each_spares. intros row. by eapply write_sample_spares.
Qed.

Lemma spares_refl : spares w0.
Proof. by split. Qed.
End frame.

(** ** Lemmas: what the streams hold afterwards *)

Section logs.
Context (cast : dtype -> f64 -> f64).

(** A ring with the geometry of [r] holding [h]. *)
Definition holds (w : world) (wr : StreamWriter) (r : ring f64) (h : list (list f64 * Z)) : Prop :=
  exists r', stream_repr w (w_seg wr) r' h /\ dim r' = dim r /\ capacity r' = capacity r /\ rdtype r' = rdtype r.

(** Every other segment is as before. *)
Definition others (w w' : world) (wr : StreamWriter) : Prop :=
  forall seg, seg <> w_seg wr -> mapped_ring w' seg = mapped_ring w seg.

Lemma write_sample_holds w wr r h vec t : holds w wr r h -> Z.of_nat (length vec) = dim r ->
  exists w', write_sample cast wr vec t w = (w', Returned tt) /\ holds w' wr r (h ++ [(cast (rdtype r) <$> vec, t)]) /\ others w w' wr.
Proof.
  intros (r1 & [Hm Hr] & Hd & Hc & Ht) Hl. unfold write_sample.
  assert (exists w' idx, writer_write cast w wr vec t = Ok (w', idx)) as (w' & idx & E).
  { unfold writer_write. rewrite Hm. cbn [res_bind]. unfold append. rewrite length_fmap, Hd, <-Hl, Z.eqb_refl. cbn. eauto. }
  rewrite E. exists w'. split; [done|]. apply writer_write_ok in E as (r0 & r' & Hm0 & Ha & Hm' & _ & _ & Ho).
  rewrite Hm in Hm0. injection Hm0 as <-. split; [|done].
  destruct (append_repr cast r1 h vec t r' idx Hr Ha) as [-> Hr']. apply append_ok in Ha as (_ & _ & Ec & Ed & Et & _).
  exists r'. rewrite <-Ht. split; [by split|]. split; [congruence|]. split; congruence.
Qed.

(** The rows of a path as samples. *)
Definition stamped (r : ring f64) (t : Z) (rows : list (list f64)) : list (list f64 * Z) :=
  (fun row : list f64 => (cast (rdtype r) <$> row, t)) <$> rows.

Lemma write_rows_holds wr r t rows : forall w h, holds w wr r h -> Forall (fun row => Z.of_nat (length row) = dim r) rows ->
  exists w', for_each (fun row => write_sample cast wr row t) rows w = (w', Returned tt) /\
    holds w' wr r (h ++ stamped r t rows) /\ others w w' wr.
Proof.
  induction rows as [|row rows IH]; intros w h Hh Hr; cbn [for_each]; [exists w; unfold stamped; cbn; rewrite app_nil_r; by split|].
  apply Forall_cons_1 in Hr as [Hl Hr]. destruct (write_sample_holds w wr r h row t Hh Hl) as (w1 & E1 & H1 & O1).
  destruct (IH w1 _ H1 Hr) as (w2 & E2 & H2 & O2). unfold mbind, st_bind. rewrite E1, E2. exists w2. split; [done|].
  rewrite <-app_assoc in H2. split; [exact H2|]. intros seg Hs. rewrite O2, O1; done.
Qed.

Lemma holds_others w w' wr wr' r h : others w w' wr' -> w_seg wr <> w_seg wr' -> holds w wr r h -> holds w' wr r h.
Proof. intros Ho Hne (r' & [Hm Hr] & H). exists r'. split; [|done]. split; [|done]. by rewrite Ho. Qed.
End logs.

(** ** Lemmas: one pass over the sides *)

Section pass.
Context {B : Type} (f : string * B -> ST world unit) (tgt : string * B -> option StreamWriter)
  (fit : ring f64 -> string * B -> Prop) (adds : ring f64 -> string * B -> list (list f64 * Z)).
Hypothesis f_none : forall x w, tgt x = None -> f x w = (w, Returned tt).
Hypothesis f_some : forall x wr w r h, tgt x = Some wr -> holds w wr r h -> fit r x ->
  exists w', f x w = (w', Returned tt) /\ holds w' wr r (h ++ adds r x) /\ others w w' wr.

Definition ready (w : world) (l : list (string * B)) : Prop :=
  forall x wr, x ∈ l -> tgt x = Some wr -> exists r h, holds w wr r h /\ fit r x.
Definition apart (l : list (string * B)) : Prop :=
  forall x y wr wr', x ∈ l -> y ∈ l -> tgt x = Some wr -> tgt y = Some wr' -> x.1 <> y.1 -> w_seg wr <> w_seg wr'.

(** What the pass leaves: each side's samples appended to its own stream. *)
Definition appended (w w' : world) (l : list (string * B)) : Prop :=
  (forall x wr r h, x ∈ l -> tgt x = Some wr -> holds w wr r h -> fit r x -> holds w' wr r (h ++ adds r x)) /\
  (forall wr r h, (forall x wr', x ∈ l -> tgt x = Some wr' -> w_seg wr <> w_seg wr') -> holds w wr r h -> holds w' wr r h).

Lemma pass_appends l : forall w, NoDup l.*1 -> apart l -> ready w l ->
  exists w', for_each f l w = (w', Returned tt) /\ appended w w' l.
Proof.
  induction l as [|x l IH]; intros w Hnd Hap Hre; [exists w; split; [done|]; split; [by intros ? ? ? ? ?%elem_of_nil|done]|].
  rewrite fmap_cons in Hnd. apply list.NoDup_cons in Hnd as [Hx Hnd]. assert (apart l) as Hap'.
  { intros y z wr wr' Hy Hz. apply Hap; by right. }
  assert (Hkey : forall y, y ∈ l -> x.1 <> y.1) by (intros y Hy E; apply Hx; rewrite E; by apply list_elem_of_fmap_2).
  cbn [for_each]. unfold mbind, st_bind. destruct (tgt x) as [wx|] eqn:Et.
  - destruct (Hre x wx ltac:(left) Et) as (rx & hx & Hhx & Hfx).
    destruct (f_some x wx w rx hx Et Hhx Hfx) as (w1 & E1 & H1 & O1). rewrite E1.
    assert (Hfar : forall y wr, y ∈ l -> tgt y = Some wr -> w_seg wr <> w_seg wx).
    { intros y wr Hy Hty. intros E. apply (Hap x y wx wr); [left|by right|done|done|by apply Hkey|done]. }
    destruct (IH w1 Hnd Hap') as (w2 & E2 & A1 & A2).
    { intros y wr Hy Hty. destruct (Hre y wr ltac:(by right) Hty) as (r & h & Hh & Hf). exists r, h. split; [|done].
      eapply holds_others; [exact O1|by eapply Hfar|done]. }
    exists w2. split; [done|]. split.
    + intros y wr r h Hy Hty Hh Hf. apply elem_of_cons in Hy as [->|Hy].
      * rewrite Et in Hty. injection Hty as <-. apply A2.
        -- intros z wz Hz Htz E. by apply (Hfar z wz Hz Htz).
        -- destruct (f_some x wx w r h Et Hh Hf) as (w1' & E1' & H1' & _). rewrite E1 in E1'. by injection E1' as <-.
      * apply A1; [done|done| |done]. eapply holds_others; [exact O1|by eapply Hfar|done].
    + intros wr r h Hne Hh. apply A2; [intros y wy Hy; apply Hne; by right|].
      eapply holds_others; [exact O1|by apply (Hne x wx ltac:(left) Et)|done].
  - rewrite (f_none x w Et). destruct (IH w Hnd Hap') as (w2 & E2 & A1 & A2); [intros y wr Hy; apply Hre; by right|].
    exists w2. split; [done|]. split.
    + intros y wr r h Hy Hty. apply elem_of_cons in Hy as [->|Hy]; [congruence|by apply A1].
    + intros wr r h Hne. apply A2. intros y wy Hy. apply Hne. by right.
Qed.
End pass.

(** ** Lemmas: reading the newest group *)

Lemma zip_parts {A B} (l : list (A * B)) : zip l.*1 l.*2 = l.
Proof. induction l as [|[a b] l IH]; [done|]. cbn. by rewrite IH. Qed.

Lemma omap_older (t : Z) (l : list (list f64 * Z)) : Forall (fun x => x.2 <> t) l ->
  omap (fun rt : list f64 * Z => if rt.2 =? t then Some rt.1 else None) l = [].
Proof. induction 1 as [|x l Hx _ IH]; [done|]. cbn. apply Z.eqb_neq in Hx. rewrite Hx. exact IH. Qed.

Lemma group_newest (cast : dtype -> f64 -> f64) (r0 r : ring f64) (h : list (list f64 * Z)) (t : Z) rows :
  rows <> [] -> Z.of_nat (length rows) <= capacity r -> Forall (fun x => x.2 <> t) h ->
  newest_group (read_of r (h ++ stamped cast r0 t rows) (capacity r)) = (fun row : list f64 => cast (rdtype r0) <$> row) <$> rows.
Proof.
  intros Hne Hlen Hold. set (R := stamped cast r0 t rows).
  assert (HR : length R = length rows) by (unfold R, stamped; by rewrite length_fmap).
  assert (Hpos : (0 < length rows)%nat) by (destruct rows; [done|cbn; lia]).
  set (n := read_len r (h ++ R) (capacity r)).
  assert (Hn : (length rows <= n <= length (h ++ R))%nat) by (unfold n, read_len; rewrite length_app in *; lia).
  assert (newest_of n (h ++ R) = drop (length (h ++ R) - n) h ++ R) as Hnew.
  { unfold newest_of. rewrite length_app in *. rewrite drop_app_le by lia. done. }
  assert (Hlast : newest_t_ns (read_of r (h ++ R) (capacity r)) = Some t).
  { unfold newest_t_ns, read_of. cbn. fold n. rewrite Hnew, fmap_app.
    assert (R.*2 = (fun _ => t) <$> rows) as -> by (unfold R, stamped; by rewrite <-list_fmap_compose).
    generalize ((drop (length (h ++ R) - n) h).*2). intros l0.
    destruct (exists_last Hne) as (l & x & ->). rewrite fmap_app, app_assoc. apply last_snoc. }
  unfold newest_group. rewrite Hlast. unfold read_of. cbn [s_data s_t_ns]. fold n. rewrite zip_parts, Hnew, omap_app.
  assert (omap (fun rt : list f64 * Z => if rt.2 =? t then Some rt.1 else None) (drop (length (h ++ R) - n) h) = []) as ->.
  { apply omap_older. by apply Forall_drop. }
  cbn. unfold R, stamped. clear. induction rows as [|row rows IH]; [done|]. cbn. rewrite Z.eqb_refl. by rewrite IH.
Qed.

Section shown.
Context (cast : dtype -> f64 -> f64).

Definition cast_rows (r : ring f64) (rows : list (list f64)) : list (list f64) := (fun row : list f64 => cast (rdtype r) <$> row) <$> rows.

Lemma trajectory_of w wr rd r h t rows : holds w wr r (h ++ stamped cast r t rows) -> rd_seg rd = w_seg wr ->
  rows <> [] -> 0 < dim r -> Forall (fun row => Z.of_nat (length row) = dim r) rows ->
  Z.of_nat (length rows) <= capacity r -> Forall (fun x => x.2 <> t) h ->
  trajectory w rd = Ok (Some (cast_rows r rows)).
Proof.
  intros (r' & [Hm Hr] & Hd & Hc & Ht) Hrd Hne Hpos Hw Hlen Hold. unfold trajectory, reader_all. rewrite Hrd, Hm. cbn [res_bind].
  rewrite (ring_last_exact r' _ (capacity r') Hr (repr_cap _ _ Hr)), group_newest by (done || lia).
  destruct rows as [|row rows]; [done|]. apply Forall_cons_1 in Hw as [Hl _]. unfold has_data. cbn. rewrite length_fmap.
  destruct row; [cbn in Hl; lia|]. done.
Qed.

Definition end_writer (ws : horizon_writers) (x : string * (horizon * list f64)) : option StreamWriter :=
  match dget x.1 ws with Some (hk, wr) => if bool_decide (hk = x.2.1) then Some wr else None | None => None end.
Definition path_writer (ws : horizon_writers) (x : string * (horizon * list (list f64))) : option StreamWriter :=
  match dget x.1 ws with
  | Some (HorizonQ, wr) => if bool_decide (x.2.1 = HorizonQ) then Some wr else None
  | _ => None
  end.

(** A path that its stream can carry. *)
Definition path_fits (ws : horizon_writers) (r : ring f64) (x : string * (horizon * list (list f64))) : Prop :=
  Forall (fun row => Z.of_nat (length row) = dim r) x.2.2 /\
  forall hk wr, dget x.1 ws = Some (hk, wr) ->
    columns x.2.2 = sp_dim (w_spec wr) /\ Z.of_nat (length x.2.2) <= sp_capacity (w_spec wr).

Lemma publish_horizon_appends ws now targets w : NoDup targets.*1 -> apart (end_writer ws) targets ->
  ready (end_writer ws) (fun r x => Z.of_nat (length x.2.2) = dim r) w targets ->
  exists w', publish_horizon cast ws now targets w = (w', Returned tt) /\
    appended (end_writer ws) (fun r x => Z.of_nat (length x.2.2) = dim r) (fun r x => stamped cast r (now x.1) [x.2.2]) w w' targets.
Proof.
  apply pass_appends.
  - intros x w1 H. unfold publish_endpoint, end_writer in *. destruct (dget x.1 ws) as [[hk wr]|]; [|done]. by case_bool_decide.
  - intros x wr w1 r h H Hh Hf. unfold publish_endpoint, end_writer in *. destruct (dget x.1 ws) as [[hk wr']|]; [|done].
    case_bool_decide; [|done]. injection H as ->. by apply write_sample_holds.
Qed.

Lemma publish_trajectory_appends ws now paths w : NoDup paths.*1 -> apart (path_writer ws) paths ->
  ready (path_writer ws) (path_fits ws) w paths ->
  exists w', publish_trajectory cast ws now paths w = (w', Returned tt) /\
    appended (path_writer ws) (path_fits ws) (fun r x => stamped cast r (now x.1) x.2.2) w w' paths.
Proof.
  apply pass_appends.
  - intros x w1 H. unfold publish_path, path_writer in *. destruct (dget x.1 ws) as [[[] wr]|]; try done. by case_bool_decide.
  - intros x wr w1 r h H Hh [Hw Hc]. unfold publish_path, path_writer in *. destruct (dget x.1 ws) as [[[] wr']|]; try done.
    case_bool_decide as Hk; [|done]. injection H as ->. destruct (Hc HorizonQ wr eq_refl) as [H1 H2].
    rewrite H1, Z.eqb_refl, (proj2 (Z.ltb_ge _ _) H2). cbn [negb]. by apply write_rows_holds.
Qed.

(** ** Lemmas: what is gathered *)

Lemma side_path_NoDup l arms chunk dt snapshot acc side acc' : NoDup (dkeys acc) ->
  side_path l arms chunk dt snapshot acc side = Ok acc' -> NoDup (dkeys acc').
Proof.
  unfold side_path. intros Hn H. destruct (dget side arms); [|by injection H as <-].
  destruct (primary_slice l side) as [s|]; [|done]. cbn [res_bind] in H.
  destruct (estimate_chunk_trajectory _ _ _ _) as [[[k p]|]|]; [..|done]; cbn [res_bind] in H; injection H as <-; [by apply NoDup_dset|done].
Qed.

Lemma gather_paths l arms chunk dt snapshot paths ends : gather l arms chunk dt snapshot = Ok (paths, ends) ->
  NoDup paths.*1 /\ endpoints paths = Ok ends.
Proof.
  unfold gather. intros H. destruct (foldM_res _ _ _) as [p|] eqn:E; [|done]. cbn [res_bind] in H.
  destruct (endpoints p) as [en|] eqn:Ee; [|done]. injection H as <- <-. split; [|done].
  assert (forall ss acc, NoDup (dkeys acc) -> foldM_res (side_path l arms chunk dt snapshot) ss acc = Ok p -> NoDup (dkeys p)) as Hf.
  { induction ss as [|s ss IH]; intros acc Ha Hs; [by injection Hs as <-|]. cbn in Hs.
    destruct (side_path l arms chunk dt snapshot acc s) as [acc'|] eqn:Es; [|done]. apply (IH acc'); [|done]. by eapply side_path_NoDup. }
  apply (Hf (sides l) []); [apply NoDup_nil_2|done].
Qed.

Lemma endpoints_spec paths : forall ends, endpoints paths = Ok ends ->
  ends.*1 = paths.*1 /\
  (forall x, x ∈ ends -> exists p, (x.1, (x.2.1, p)) ∈ paths /\ list.last p = Some x.2.2) /\
  (forall side k p, (side, (k, p)) ∈ paths -> exists v, list.last p = Some v /\ (side, (k, v)) ∈ ends).
Proof.
  induction paths as [|[side [k p]] paths IH]; intros ends H; unfold endpoints in *; cbn in H.
  { injection H as <-. split; [done|]. split; [by intros x ?%elem_of_nil|by intros ? ? ? ?%elem_of_nil]. }
  destruct (list.last p) as [v|] eqn:El; [|done]. cbn in H. destruct (mapM_res _ paths) as [en|] eqn:E; [|done]. injection H as <-.
  destruct (IH en eq_refl) as (H1 & H2 & H3). split; [by rewrite !fmap_cons, H1|]. split.
  - intros x [->|Hx]%elem_of_cons; [exists p; split; [left|done]|]. destruct (H2 x Hx) as (q & Hq & Hl). exists q. split; [by right|done].
  - intros s k' q [[= -> -> ->]|Hq]%elem_of_cons; [exists v; split; [done|left]|].
    destruct (H3 s k' q Hq) as (u & Hu & Hin). exists u. split; [done|by right].
Qed.
End shown.

(** ** Properties *)

(** Showing a prediction cannot disturb the rollout.  Whatever the chunk, the measurements and the
    configuration, announcing the horizon returns, and it changes nothing but the segments of the
    horizon streams: no name, no directory and no other stream. *)
Theorem horizon_hooks_harmless (cast : dtype -> f64 -> f64) (ws : horizon_writers) (now1 now2 : string -> Z) (frequency_hz : f64)
    (l : DFCStateActionLayout) (arms : list (string * ControlCfg)) (chunk : list (list f64))
    (snapshot : string -> option (samples f64)) (w : world) :
  let r := announce_horizon cast ws now1 now2 frequency_hz l arms chunk snapshot w in
  r.2 = Returned tt /\ spares ws w r.1.
Proof.
  cbn zeta. unfold announce_horizon. destruct ws as [|x ws0] eqn:Ews; [split; [done|apply spares_refl]|]. rewrite <-Ews. clear x ws0 Ews.
  set (m := _ ≫= _). assert (Hm : settles (spares ws w) m).
  { apply settles_bind; [apply settles_lift|]. intros dt. apply settles_bind; [apply settles_lift|]. intros [paths ends]. cbn.
    apply settles_bind; [case_bool_decide; [apply settles_ret|apply publish_horizon_spares]|]. intros _.
    case_bool_decide; [apply settles_ret|apply publish_trajectory_spares]. }
  clearbody m. destruct (Hm w (spares_refl ws w)) as [Hs Hr]. unfold try_except.
  destruct (m w) as [w' [[]|x|]]; cbn in *; by split.
Qed.

Section path.
Context (cast : dtype -> f64 -> f64) (ws : horizon_writers) (w : world).

(** The horizon streams are segments of their own, as [EvalNode.run] creates them. *)
Definition own_segments : Prop := forall s1 s2 k1 k2 wr1 wr2,
  dget s1 ws = Some (k1, wr1) -> dget s2 ws = Some (k2, wr2) -> s1 <> s2 -> w_seg wr1 <> w_seg wr2.

(** Each predicted path can be carried by the stream of its side. *)
Definition carried (paths : predictions (list (list f64))) : Prop := forall side k p wr,
  (side, (k, p)) ∈ paths -> dget side ws = Some (k, wr) ->
  exists r h, stream_repr w (w_seg wr) r h /\ dim r = sp_dim (w_spec wr) /\ Forall (fun row => Z.of_nat (length row) = dim r) p /\
    Z.of_nat (length p) <= sp_capacity (w_spec wr).

Lemma last_elem {A} (p : list A) v : list.last p = Some v -> v ∈ p.
Proof. intros H. apply last_Some in H as [l ->]. apply elem_of_app. right. left. Qed.

Lemma repr_holds wr r h : stream_repr w (w_seg wr) r h -> holds w wr r h.
Proof. intros H. exists r. done. Qed.

(** A stream holds one log, so its geometry and its contents are determined. *)
Lemma repr_unique seg r h r' h' : stream_repr w seg r h -> stream_repr w seg r' h' -> r' = r.
Proof. intros [H _] [H' _]. rewrite H in H'. by injection H' as <-. Qed.

Lemma carried_ends paths ends : endpoints paths = Ok ends -> carried paths ->
  ready (end_writer ws) (fun r x => Z.of_nat (length x.2.2) = dim r) w ends.
Proof.
  intros He Hc x wr Hx Ht. destruct (endpoints_spec paths ends He) as (_ & H2 & _). destruct (H2 x Hx) as (p & Hp & Hl).
  unfold end_writer in Ht. destruct (dget x.1 ws) as [[hk wr']|] eqn:Ed; [|done]. case_bool_decide as Hk; [|done]. injection Ht as ->. subst hk.
  destruct (Hc _ _ _ _ Hp Ed) as (r & h & Hr & _ & Hw & _). exists r, h. split; [by apply repr_holds|].
  rewrite Forall_forall in Hw. apply Hw. by apply last_elem.
Qed.

Lemma own_apart_ends ends : own_segments -> apart (end_writer ws) ends.
Proof.
  intros Ho x y wr wr' _ _ Hx Hy Hne. unfold end_writer in *. destruct (dget x.1 ws) as [[k1 w1]|] eqn:E1; [|done].
  destruct (dget y.1 ws) as [[k2 w2]|] eqn:E2; [|done]. repeat case_bool_decide; try done. injection Hx as ->. injection Hy as ->. by eapply Ho.
Qed.

Lemma own_apart_paths paths : own_segments -> apart (path_writer ws) paths.
Proof.
  intros Ho x y wr wr' _ _ Hx Hy Hne. unfold path_writer in *. destruct (dget x.1 ws) as [[[] w1]|] eqn:E1; try done.
  destruct (dget y.1 ws) as [[[] w2]|] eqn:E2; try done. repeat case_bool_decide; try done. injection Hx as ->. injection Hy as ->. by eapply Ho.
Qed.

(** After the endpoints each stream of a predicted side still has its geometry, and its own sample. *)
Lemma after_ends now1 paths ends w1 s k p wr r h : endpoints paths = Ok ends -> carried paths ->
  appended (end_writer ws) (fun r x => Z.of_nat (length x.2.2) = dim r) (fun r x => stamped cast r (now1 x.1) [x.2.2]) w w1 ends ->
  (s, (k, p)) ∈ paths -> dget s ws = Some (k, wr) -> stream_repr w (w_seg wr) r h ->
  holds w1 wr r (h ++ stamped cast r (now1 s) [default [] (list.last p)]).
Proof.
  intros He Hcar [A1 _] Hp Hd Hr. destruct (endpoints_spec paths ends He) as (_ & _ & H3). destruct (H3 _ _ _ Hp) as (u & Hu & Hu').
  destruct (Hcar _ _ _ _ Hp Hd) as (r2 & h2 & Hr2 & _ & Hw2 & _). pose proof (repr_unique _ _ _ _ _ Hr Hr2) as ->. rewrite Hu.
  apply (A1 (s, (k, u)) wr); [done| |by apply repr_holds|].
  - unfold end_writer. cbn. rewrite Hd. by rewrite bool_decide_true.
  - cbn. rewrite Forall_forall in Hw2. apply Hw2. by apply last_elem.
Qed.

Lemma carried_fits paths ends s p wr r h : endpoints paths = Ok ends -> carried paths -> (s, (HorizonQ, p)) ∈ paths ->
  dget s ws = Some (HorizonQ, wr) -> stream_repr w (w_seg wr) r h -> path_fits ws r (s, (HorizonQ, p)).
Proof.
  intros He Hcar Hp Hd Hr. destruct (Hcar _ _ _ _ Hp Hd) as (r2 & h2 & Hr2 & Hdim & Hw & Hl).
  pose proof (repr_unique _ _ _ _ _ Hr Hr2) as ->. split; [done|]. cbn. intros hk wr3 Ed3. rewrite Hd in Ed3. injection Ed3 as <- <-.
  split; [|done]. destruct (endpoints_spec paths ends He) as (_ & _ & H3). destruct (H3 _ _ _ Hp) as (u & Hu & _).
  destruct p as [|row p]; [done|]. apply Forall_cons_1 in Hw as [Hw _]. cbn. lia.
Qed.

Lemma carried_ready now1 paths ends w1 : endpoints paths = Ok ends -> carried paths ->
  appended (end_writer ws) (fun r x => Z.of_nat (length x.2.2) = dim r) (fun r x => stamped cast r (now1 x.1) [x.2.2]) w w1 ends ->
  ready (path_writer ws) (path_fits ws) w1 paths.
Proof.
  intros He Hcar HA [s [k p]] wr Hp Ht. unfold path_writer in Ht. cbn in Ht. destruct (dget s ws) as [[[] wr2]|] eqn:Ed; try done.
  case_bool_decide as Hk'; [|done]. injection Ht as ->. cbn in Hk'. subst k.
  destruct (Hcar _ _ _ _ Hp Ed) as (r & h & Hr & _). exists r. eexists.
  split; [by eapply after_ends|by eapply carried_fits].
Qed.

(** C40: What a prediction looks like on screen.  When a chunk gives a joint path for a side whose stream can
    carry it, and the clock has moved since the samples already there, then after the hooks the viewers'
    reader returns exactly that path, every row and in order, without the endpoint sample that precedes it
    and without a row of an earlier prediction. *)
Theorem predicted_path_shown (now1 now2 : string -> Z) (frequency_hz dt : f64) (l : DFCStateActionLayout)
    (arms : list (string * ControlCfg)) (chunk : list (list f64)) (snapshot : string -> option (samples f64))
    paths ends side path wr r h rd
    (Hdt : period frequency_hz = Ok dt) (Hg : gather l arms chunk dt snapshot = Ok (paths, ends))
    (Hown : own_segments) (Hcar : carried paths)
    (Hin : (side, (HorizonQ, path)) ∈ paths) (Hwr : dget side ws = Some (HorizonQ, wr))
    (Hr : stream_repr w (w_seg wr) r h) (Hd : 0 < dim r) (Hcap : sp_capacity (w_spec wr) <= capacity r)
    (Hold : Forall (fun x => x.2 <> now2 side) h) (Hclock : now1 side <> now2 side) (Hrd : rd_seg rd = w_seg wr) :
  trajectory (announce_horizon cast ws now1 now2 frequency_hz l arms chunk snapshot w).1 rd = Ok (Some (cast_rows cast r path)).
Proof.
  destruct (gather_paths _ _ _ _ _ _ _ Hg) as [Hnd He]. destruct (endpoints_spec paths ends He) as (Hk & _ & H3).
  destruct (H3 _ _ _ Hin) as (v & Hv & Hin').
  destruct (Hcar _ _ _ _ Hin Hwr) as (r1 & h1 & Hr1 & Hdim & Hw & Hlen).
  pose proof (repr_unique _ _ _ _ _ Hr Hr1) as ->.
  destruct (publish_horizon_appends cast ws now1 ends w) as (w1 & E1 & A);
    [by rewrite Hk|by apply own_apart_ends|by apply (carried_ends paths)|].
  destruct (publish_trajectory_appends cast ws now2 paths w1 Hnd (own_apart_paths _ Hown) (carried_ready _ _ _ _ He Hcar A))
    as (w2 & E2 & B1 & _).
  assert ((announce_horizon cast ws now1 now2 frequency_hz l arms chunk snapshot w).1 = w2) as ->.
  { unfold announce_horizon. destruct ws as [|x ws0] eqn:Ews; [done|]. rewrite <-Ews in *. unfold try_except, mbind, st_bind, st_lift.
    rewrite Hdt, Hg. cbn [fst snd]. rewrite bool_decide_false by (intros ->; by apply elem_of_nil in Hin').
    rewrite E1, bool_decide_false by (intros ->; by apply elem_of_nil in Hin). by rewrite E2. }
  eapply trajectory_of; [eapply (B1 (side, (HorizonQ, path)) wr); [done| |by apply (after_ends now1 paths ends w1 side HorizonQ path wr r h)|by eapply carried_fits]|
                         done|intros Hp; cbn in Hp; by rewrite Hp in Hv|done|done|cbn; lia|].
  - unfold path_writer. cbn. by rewrite Hwr.
  - apply Forall_app. split; [done|]. by constructor.
Qed.
End path.

(** A reader between two rows takes the part written so far for the whole path. *)
Lemma partial_path_read cast w wr r h t rows1 rd :
  stream_repr w (w_seg wr) r h -> rd_seg rd = w_seg wr -> rows1 <> [] -> 0 < dim r ->
  Forall (fun row => Z.of_nat (length row) = dim r) rows1 -> Z.of_nat (length rows1) <= capacity r ->
  Forall (fun x => x.2 <> t) h ->
  exists w1, for_each (fun row => write_sample cast wr row t) rows1 w = (w1, Returned tt) /\
    trajectory w1 rd = Ok (Some (cast_rows cast r rows1)).
Proof.
  intros Hr Hrd Hne Hd Hw Hlen Hold. destruct (write_rows_holds cast wr r t rows1 w h) as (w1 & E & Hh & _); [by exists r|done|].
  exists w1. split; [done|]. by eapply trajectory_of.
Qed.

(** ** A concrete prediction *)

Definition demo_horizon_spec : StreamSpec := MkSpec "eval/left/q_horizon" 2 8 "float64" (Some f1).
Definition demo_horizon_layout : DFCStateActionLayout := Layout ["q"] ["left"] ["left"] [] [] [] [] [("left", (0, 2)%nat)] [] 2 3.
Definition demo_chunk : list (list f64) := [[f0; f1; f0]; [f1; f1; f0]; [f1; f0; f1]].
Definition demo_cast (_ : dtype) (x : f64) : f64 := x.

(** What creating the stream leaves. *)
Definition demo_horizon : world * res StreamWriter := writer_create true empty_world demo_horizon_spec "run1" demo_registry 42.

Lemma predicted_path_shown_witness : exists wr, demo_horizon.2 = Ok wr /\
  trajectory (announce_horizon demo_cast [("left", (HorizonQ, wr))] (fun _ => 10) (fun _ => 11) (f_of_Z 10) demo_horizon_layout
    [("left", demo_qpos)] demo_chunk (fun _ => None) demo_horizon.1).1 (Reader (w_seg wr) (Entry JNull JNull 2 8 JNull JNull 42))
  = Ok (Some [[f0; f1]; [f1; f1]; [f1; f0]]).
Proof.
  destruct demo_horizon as [w [wr|]] eqn:E; [|vm_compute in E; discriminate]. exists wr. split; [reflexivity|].
  destruct (writer_create_atomic true empty_world demo_horizon_spec "run1" demo_registry 42 w (Ok wr))
    as (e & rd & r & _ & _ & _ & Hr & Hc & Hd); [apply empty_world_wf|reflexivity|exact E|].
  assert (w_spec wr = demo_horizon_spec) as Hs by (vm_compute in E; injection E as _ <-; reflexivity).
  rewrite (predicted_path_shown demo_cast [("left", (HorizonQ, wr))] w (fun _ => 10) (fun _ => 11) (f_of_Z 10) (fdiv f1 (f_of_Z 10))
    demo_horizon_layout [("left", demo_qpos)] demo_chunk (fun _ => None) [("left", (HorizonQ, [[f0; f1]; [f1; f1]; [f1; f0]]))]
    [("left", (HorizonQ, [f1; f0]))] "left" [[f0; f1]; [f1; f1]; [f1; f0]] wr r []).
  all: try reflexivity; try exact Hr.
  - intros s1 s2 k1 k2 wr1 wr2 H1 H2 Hne. cbn in H1, H2. repeat case_decide; congruence.
  - intros s k p wr' Hin Hw. apply list_elem_of_singleton in Hin. injection Hin as -> -> ->. injection Hw as <-. exists r, [].
    rewrite Hs, Hd. split; [exact Hr|]. split; [reflexivity|]. split; [repeat constructor|cbn; lia].
  - left.
  - rewrite Hd. reflexivity.
  - rewrite Hs, Hc. reflexivity.
  - constructor.
  - discriminate.
Defined.
