(* ===== verification/Downloads.v ===== *)
(** * The download server

    Models [dashboard/downloads.py]: the registry of published files, the request handler, the
    sanitised download names and the process-wide server.  Resolving a path, the file tests, the
    random tokens, the guess of a content type, the reading of a file and how many writes the
    browser accepts are inputs; [urlsplit] and [quote] are written out. *)

From Stdlib Require Import Ascii String.
From S2P Require Import Prelude Float64 Ring Streams Text SkillFile.
Local Open Scope string_scope.
Local Open Scope Z_scope.

Definition DEFAULT_DOWNLOAD_PORT : Z := 9092.
Definition CHUNK_BYTES : Z := 1024 * 1024.

(** ** Names *)

(** [Path(s).name]. *)
Definition path_name (s : string) : string :=
  default "" (list.last (List.filter (fun x => negb (bool_decide (x = "") || bool_decide (x = ".")))
    (py_split "/" s))).

(** [re.sub(r"-+\.", ".", s)], after a run [pend] of dashes. *)
Fixpoint dash_dot (pend s : string) : string :=
  match s with
  | EmptyString => pend
  | String c t =>
      if Ascii.eqb c "-" then dash_dot (String "-" pend) t
      else if Ascii.eqb c "." then String "." (dash_dot "" t)
      else pend +:+ String c (dash_dot "" t)
  end.

(** [_safe_filename]. *)
Definition safe_filename (filename : string) : string :=
  let name := rstrip edge_char (lstrip edge_char (dash_from false (path_name filename))) in
  let name := dash_dot "" name in
  if bool_decide (name = "") then "download" else name.

(** ** URLs *)

Definition ascii_byte (n : Z) : ascii := ascii_of_nat (Z.to_nat n).
Definition byte_of (c : ascii) : Z := Z.of_nat (nat_of_ascii c).

(** Characters [quote] leaves alone when [safe] is empty. *)
Definition unreserved (c : ascii) : bool := name_char c || Ascii.eqb c "~".

Definition upper_hex (n : Z) : ascii := ascii_byte (if n <? 10 then 48 + n else 55 + n).

(** [quote(s, safe="")]. *)
Fixpoint quote (s : string) : string :=
  match s with
  | EmptyString => ""
  | String c t =>
      if unreserved c then String c (quote t)
      else String "%" (String (upper_hex (byte_of c / 16)) (String (upper_hex (byte_of c mod 16)) (quote t)))
  end.

Fixpoint remove_chars (p : ascii -> bool) (s : string) : string :=
  match s with
  | EmptyString => ""
  | String c t => if p c then remove_chars p t else String c (remove_chars p t)
  end.

Definition c0_or_space (c : ascii) : bool := byte_of c <=? 32.
Definition unsafe_byte (c : ascii) : bool := (byte_of c =? 9) || (byte_of c =? 10) || (byte_of c =? 13).
Definition is_alpha (c : ascii) : bool := in_range "A" "Z" c || in_range "a" "z" c.
Definition scheme_char (c : ascii) : bool :=
  alnum_char c || Ascii.eqb c "+" || Ascii.eqb c "-" || Ascii.eqb c ".".

(** The part before the first character of a class; [s.split(c, 1)[0]]. *)
Definition before (p : ascii -> bool) (s : string) : string := (span (fun c => negb (p c)) s).1.

(** The scheme of [urlsplit]: letters, digits and [+-.] up to a colon, a letter first. *)
Definition drop_scheme (url : string) : string :=
  match url with
  | String c _ =>
      if is_alpha c then
        match (span scheme_char url).2 with String ":" rest => rest | _ => url end
      else url
  | EmptyString => url
  end.

Section urlsplit.
(** The checks of a host part (brackets, forbidden characters). *)
Context (check_netloc : string -> res unit).

(** [urlsplit(url).path]. *)
Definition urlsplit_path (url : string) : res string :=
  let url := drop_scheme (remove_chars unsafe_byte (lstrip c0_or_space url)) in
  let? url := match strip_prefix "//" url with
              | Some rest =>
                  let r := span (fun c => negb (Ascii.eqb c "/" || Ascii.eqb c "?" || Ascii.eqb c "#")) rest in
                  let? _ := check_netloc r.1 in Ok r.2
              | None => Ok url
              end in
  Ok (before (fun c => Ascii.eqb c "?") (before (fun c => Ascii.eqb c "#") url)).
End urlsplit.

(** ** The registry *)

Record PublishedFile := Published { pf_path : string; pf_filename : string; pf_content_type : string }.

Record DownloadServer := Downloads {
  dl_port : Z;
  by_token : list (string * PublishedFile);
  token_by_file : list (string * string * string);
}.

Definition new_server (port : Z) : DownloadServer := Downloads port [] [].

(** A call of [register]: its arguments, what the filesystem answers, the token drawn. *)
Record registration := Registration {
  rg_path : string;
  rg_filename : string;
  rg_content_type : option string;
  rg_resolved : res string;
  rg_isfile : bool;
  rg_token : string;
}.

Section server.
Context (guess_type : string -> option string) (check_netloc : string -> res unit).

(** [content_type or guess or "application/octet-stream"]: an empty string counts as absent. *)
Definition pick_type (given : option string) (name : string) : string :=
  match given with
  | Some ((String _ _) as t) => t
  | _ => match guess_type name with Some ((String _ _) as t) => t | _ => "application/octet-stream" end
  end.

Definition url_path (token name : string) : string := "/download/" +:+ token +:+ "/" +:+ quote name.

Definition url_of (port : Z) (token name : string) : string :=
  "http://127.0.0.1:" +:+ str_of_int port +:+ url_path token name.

Definition register (r : registration) : ST DownloadServer string := fun s =>
  match rg_resolved r with
  | Raise e => (s, Raised e)
  | Ok resolved =>
      if negb (rg_isfile r) then (s, Raised ValueError)
      else
        let name := safe_filename (rg_filename r) in
        match dget (resolved, name) (token_by_file s) with
        | Some token => (s, Returned (url_of (dl_port s) token name))
        | None =>
            let item := Published resolved name (pick_type (rg_content_type r) name) in
            (Downloads (dl_port s) (dset (rg_token r) item (by_token s))
               (dset (resolved, name) (rg_token r) (token_by_file s)),
             Returned (url_of (dl_port s) (rg_token r) name))
        end
  end.

(** [_resolve]. *)
Definition resolve (token : string) (s : DownloadServer) : option PublishedFile := dget token (by_token s).

(** ** The request handler *)

(** The reading of a file in pieces: [while chunk := stream.read(n)]. *)
Fixpoint chunks_from (fuel : nat) (n : nat) (content : list Z) : list (list Z) :=
  match fuel, take n content with
  | S fuel, (_ :: _) as chunk => chunk :: chunks_from fuel n (drop n content)
  | _, _ => []
  end.

Definition chunks (n : nat) (content : list Z) : list (list Z) := chunks_from (S (length content)) n content.

Inductive http_reply :=
  | Error404 (why : string)
  | Reply200 (headers : list (string * string)) (body : list (list Z))
  | Crashed (e : exn).

(** A request: the target, whether a body is asked for, the file as found when opening it, and
    the number of writes the browser accepts ([None]: all). *)
Record http_request := HttpRequest {
  rq_target : string;
  rq_body : bool;
  rq_size : string -> res Z;
  rq_content : string -> res (list Z);
  rq_accepts : option nat;
}.

(** Lines [parts[1] if len(parts) >= 2 and parts[0] == "download" else ""]. *)
Definition token_of (path : string) : string :=
  let slash := fun c => Ascii.eqb c "/" in
  match py_split "/" (rstrip slash (lstrip slash path)) with
  | d :: t :: _ => if bool_decide (d = "download") then t else ""
  | _ => ""
  end.

Definition headers_of (item : PublishedFile) (size : Z) : list (string * string) :=
  [("Content-Type", pf_content_type item); ("Content-Length", str_of_int size);
   ("Content-Disposition", "attachment; filename=" +:+ String (ascii_byte 34) (pf_filename item +:+ String (ascii_byte 34) ""));
   ("Cache-Control", "no-store"); ("X-Content-Type-Options", "nosniff")].

(** [_serve]; [do_HEAD] and [do_GET] differ in the body only. *)
Definition serve (q : http_request) (s : DownloadServer) : http_reply :=
  match urlsplit_path check_netloc (rq_target q) with
  | Raise e => Crashed e
  | Ok path =>
      match resolve (token_of path) s with
      | None => Error404 "download not found"
      | Some item =>
          match rq_size q (pf_path item), rq_content q (pf_path item) with
          | Ok size, Ok content =>
              let body := if rq_body q then chunks (Z.to_nat CHUNK_BYTES) content else [] in
              Reply200 (headers_of item size)
                (match rq_accepts q with Some n => take n body | None => body end)
          | _, _ => Error404 "download no longer exists"
          end
      end
  end.
End server.

(** ** The process-wide server *)

(** [int(s)] of an environment variable: blanks around a signed decimal. *)
Definition int_of_env (v : string) : res Z :=
  let blank := fun c => (byte_of c =? 32) || ((9 <=? byte_of c) && (byte_of c <=? 13)) in
  py_int (JStr (rstrip blank (lstrip blank v))).

Definition port_from_env (env : list (string * string)) : res Z :=
  match dget "DFC_DOWNLOAD_PORT" env with Some v => int_of_env v | None => Ok DEFAULT_DOWNLOAD_PORT end.

(** [start_server]: [bind] is whether the port can be bound. *)
Definition start_server (env : list (string * string)) (port : option Z) (bind : Z -> res unit) :
    ST (option DownloadServer) DownloadServer := fun cur =>
  match (match port with Some p => Ok p | None => port_from_env env end) with
  | Raise e => (cur, Raised e)
  | Ok wanted =>
      match cur with
      | Some s => if negb (dl_port s =? wanted) then (cur, Raised RuntimeError) else (cur, Returned s)
      | None =>
          match bind wanted with
          | Raise e => (None, Raised e)
          | Ok _ => (Some (new_server wanted), Returned (new_server wanted))
          end
      end
  end.

(** ** Names: lemmas *)

Lemma all_chars_weaken (p q : ascii -> bool) s :
  (forall c, p c = true -> q c = true) -> all_chars p s = true -> all_chars q s = true.
Proof.
  intros H. induction s as [|c s IH]; simpl; [done|]. intros [Hc Hs]%andb_true_iff.
  by rewrite (H c Hc), IH.
Qed.

Lemma dash_dot_chars q pend s : all_chars q pend = true -> all_chars q s = true ->
  all_chars q (dash_dot pend s) = true.
Proof.
  revert pend. induction s as [|c s IH]; intros pend Hp; simpl; [done|]. intros [Hc Hs]%andb_true_iff.
  destruct (Ascii.eqb_spec c "-") as [->|]; [apply IH; [simpl; by rewrite Hc|done]|].
  destruct (Ascii.eqb_spec c ".") as [->|]; simpl; [rewrite Hc; by apply IH|].
  rewrite all_chars_app, Hp. simpl. rewrite Hc. by apply IH.
Qed.

Lemma last_char_cons c s : s ≠ "" -> last_char (String c s) = last_char s.
Proof. by destruct s. Qed.

(** A last character that is neither a dash nor a dot stays last. *)
Lemma dash_dot_last pend s c :
  last_char s = Some c -> edge_char c = false -> last_char (dash_dot pend s) = Some c.
Proof.
  unfold edge_char. intros Hl [H1 H2]%orb_false_iff. revert pend Hl. induction s as [|d s IH]; intros pend; [done|].
  destruct (decide (s = "")) as [->|Hne].
  - intros [= ->]. simpl. rewrite H1, H2, last_char_app by done. done.
  - rewrite last_char_cons by done. intros Hl. specialize (fun p => IH p Hl).
    assert (forall p, dash_dot p s ≠ "") as Hd by (intros p E; specialize (IH p); by rewrite E in IH).
    simpl. destruct (Ascii.eqb d "-"); [done|]. destruct (Ascii.eqb d "."); [by rewrite last_char_cons|].
    rewrite last_char_app by done. by rewrite last_char_cons.
Qed.

Lemma rstrip_last p s c : last_char (rstrip p s) = Some c -> p c = false.
Proof.
  induction s as [|d s IH]; simpl; [done|]. destruct (rstrip p s) as [|e t] eqn:E.
  - destruct (p d) eqn:Ep; [done|]. by intros [= <-].
  - rewrite last_char_cons by done. done.
Qed.

Lemma last_char_Some s : s ≠ "" -> is_Some (last_char s).
Proof.
  induction s as [|c s IH]; [done|]. intros _. destruct (decide (s = "")) as [->|]; [by eexists|].
  rewrite last_char_cons by done. auto.
Qed.

Lemma all_chars_last p s c : all_chars p s = true -> last_char s = Some c -> p c = true.
Proof.
  induction s as [|d s IH]; [done|]. cbn [all_chars]. intros [Hd Hs]%andb_true_iff.
  destruct (decide (s = "")) as [->|]; [by intros [= <-]|]. rewrite last_char_cons by done. auto.
Qed.

Definition first_char (s : string) : option ascii :=
  match s with String c _ => Some c | EmptyString => None end.

(** The download name: letters, digits, [._-], not empty, no dot or dash at either end. *)
Definition safe_name (s : string) : Prop :=
  all_chars name_char s = true /\
  (exists c, first_char s = Some c /\ edge_char c = false) /\ (exists c, last_char s = Some c /\ edge_char c = false).

Lemma safe_filename_safe f : safe_name (safe_filename f).
Proof.
  unfold safe_filename. set (n0 := dash_from false (path_name f)). set (n := rstrip edge_char (lstrip edge_char n0)).
  cbv zeta. case_bool_decide as E.
  { split; [done|]. split; eexists; by split. }
  assert (n ≠ "") as Hn by (by intros Hn; rewrite Hn in E).
  destruct (lstrip_spec edge_char name_char n0 (dash_from_chars _ _)) as [Hl1 Hl2].
  destruct (rstrip_spec edge_char name_char _ Hl1) as [Hr1 Hr2]. fold n in Hr1, Hr2.
  destruct (last_char_Some n Hn) as [z Hz]. pose proof (rstrip_last _ _ _ Hz) as Hze.
  split; [by apply dash_dot_chars|]. split; [|exists z; split; [by apply dash_dot_last|done]].
  destruct n as [|c t] eqn:En; [done|]. destruct (Hr2 c t eq_refl) as [t' Ht']. pose proof (Hl2 _ _ Ht') as Hc.
  exists c. split; [|done]. pose proof Hc as Hc'. unfold edge_char in Hc'. apply orb_false_iff in Hc' as [H1 H2].
  simpl. by rewrite H1, H2.
Qed.

(** ** URLs: lemmas *)

Lemma quote_id s : all_chars name_char s = true -> quote s = s.
Proof.
  induction s as [|c s IH]; simpl; [done|]. intros [Hc Hs]%andb_true_iff. unfold unreserved. rewrite Hc. simpl.
  by rewrite IH.
Qed.

Lemma py_split_app sep a b : all_chars (fun c => negb (Ascii.eqb c sep)) a = true ->
  py_split sep (a +:+ String sep b) = a :: py_split sep b.
Proof.
  induction a as [|c a IH]; simpl; [by rewrite Ascii.eqb_refl|].
  intros [Hc%negb_true_iff Ha]%andb_true_iff. by rewrite Hc, IH.
Qed.

Lemma rstrip_id p s c : last_char s = Some c -> p c = false -> rstrip p s = s.
Proof.
  induction s as [|d s IH]; [done|]. destruct (decide (s = "")) as [->|Hs].
  - intros [= ->] Hp. simpl. by rewrite Hp.
  - rewrite last_char_cons by done. intros Hl Hp. simpl. rewrite IH by done. by destruct s.
Qed.

Lemma span_full p s : all_chars p s = true -> span p s = (s, "").
Proof. induction s as [|c s IH]; simpl; [done|]. intros [-> Hs]%andb_true_iff. by rewrite IH. Qed.

Lemma remove_none p s : all_chars (fun c => negb (p c)) s = true -> remove_chars p s = s.
Proof.
  induction s as [|c s IH]; simpl; [done|]. intros [Hc%negb_true_iff Hs]%andb_true_iff. by rewrite Hc, IH.
Qed.

Definition plain_char (c : ascii) : bool := name_char c || Ascii.eqb c "/".

(** A plain path is its own path component. *)
Lemma urlsplit_plain ck c s : all_chars plain_char (String "/" (String c s)) = true -> c ≠ "/"%char ->
  urlsplit_path ck (String "/" (String c s)) = Ok (String "/" (String c s)).
Proof.
  intros Hp Hc. unfold urlsplit_path. set (u := String "/" (String c s)) in *.
  assert (forall p, (forall c, plain_char c = true -> p c = true) -> all_chars p u = true) as Hu
    by (intros p H; by apply (all_chars_weaken plain_char)).
  replace (lstrip c0_or_space u) with u by done.
  rewrite remove_none by (apply Hu; intros [[] [] [] [] [] [] [] []]; by vm_compute).
  change (drop_scheme u) with u.
  replace (strip_prefix "//" u) with (@None string).
  2: { unfold u. cbn [strip_prefix]. rewrite Ascii.eqb_refl. by rewrite (proj2 (Ascii.eqb_neq _ _)) by (by intros <-). }
  cbn [res_bind]. unfold before.
  assert (forall x, plain_char x = false -> span (fun c => negb (Ascii.eqb c x)) u = (u, "")) as Hx.
  { intros x Hx. apply span_full, Hu. intros y Hy. destruct (Ascii.eqb_spec y x) as [->|]; [|done]. by rewrite Hy in Hx. }
  rewrite (Hx "#"%char) by done. cbn [fst]. by rewrite (Hx "?"%char) by done.
Qed.

Lemma safe_name_cons n : safe_name n -> exists c t, n = String c t.
Proof. intros (_ & (c & Hf & _) & _). destruct n; [done|]. eauto. Qed.

(** A token of the URL-safe alphabet. *)
Definition token_ok (t : string) : Prop := t ≠ "" /\ all_chars name_char t = true.

(** The path of a published URL leads back to its token. *)
Lemma url_path_token ck t n : token_ok t -> safe_name n ->
  exists p, urlsplit_path ck (url_path t n) = Ok p /\ token_of p = t.
Proof.
  intros [Ht Hta] Hn. pose proof Hn as (Hna & _ & z & Hz & Hze).
  assert (forall s, all_chars name_char s = true -> all_chars plain_char s = true) as Hpl
    by (intros s; apply all_chars_weaken; intros c Hc; unfold plain_char; by rewrite Hc).
  exists (url_path t n). unfold url_path. rewrite quote_id by done.
  set (rest := t +:+ "/" +:+ n). change ("/download/" +:+ rest) with (String "/" (String "d" ("ownload/" +:+ rest))).
  split.
  { apply urlsplit_plain; [|done]. cbn [all_chars plain_char].
    change ("ownload/" +:+ rest) with ("ownload/" +:+ (t +:+ ("/" +:+ n))).
    rewrite !all_chars_app, (Hpl t), (Hpl n) by done. done. }
  unfold token_of, lstrip. cbn [span Ascii.eqb Bool.eqb].
  set (u := "download/" +:+ rest).
  change (span _ (String "/" _)).2 with u.
  destruct (safe_name_cons n Hn) as (c & n' & En).
  rewrite (rstrip_id _ u z).
  - unfold u, rest. change ("download/" +:+ t +:+ "/" +:+ n) with ("download" +:+ String "/" (t +:+ String "/" n)).
    rewrite py_split_app by done. rewrite py_split_app; [by rewrite bool_decide_true|].
    revert Hta. apply all_chars_weaken. by intros [[] [] [] [] [] [] [] []]; vm_compute.
  - unfold u, rest. rewrite last_char_app; [|by destruct t].
    rewrite last_char_app by done. by rewrite last_char_app by (by rewrite En).
  - generalize (all_chars_last _ _ _ Hna Hz). clear. by destruct z as [[] [] [] [] [] [] [] []]; vm_compute.
Qed.

(** ** Chunks *)

Lemma chunks_from_concat fuel n c : (0 < n)%nat -> (length c < fuel)%nat -> concat (chunks_from fuel n c) = c.
Proof.
  intros Hn. revert c. induction fuel as [|fuel IH]; intros c Hf; [lia|]. simpl.
  destruct (take n c) as [|x t] eqn:E.
  - destruct c; [done|]. destruct n; [lia|done].
  - cbn [concat]. rewrite IH; [|rewrite length_drop; destruct c; [by destruct n|simpl in *; lia]].
    trans (take n c ++ drop n c)%list; [by rewrite E|apply take_drop].
Qed.

(** What the handler writes is the file, in pieces of at most a mebibyte. *)
Lemma chunks_concat n c : (0 < n)%nat -> concat (chunks n c) = c.
Proof. intros. by apply chunks_from_concat; [|lia]. Qed.

Lemma chunks_from_bound fuel n c : Forall (fun b => (0 < length b <= n)%nat) (chunks_from fuel n c).
Proof.
  revert c. induction fuel as [|fuel IH]; intros c; simpl; [done|].
  destruct (take n c) as [|x t] eqn:E; [done|]. constructor; [|done].
  apply (f_equal length) in E. rewrite length_take in E. simpl in *. lia.
Qed.

(** ** The registry: invariant *)

Section registry.
Local Open Scope list_scope.
Context (guess_type : string -> option string) (check_netloc : string -> res unit).
Abbreviation register := (register guess_type).
Abbreviation serve := (serve check_netloc).

Definition run_registrations (rs : list registration) (s : DownloadServer) : DownloadServer :=
  foldl (fun s r => (register r s).1) s rs.

(** What a registration publishes. *)
Definition publishes (r : registration) (item : PublishedFile) : Prop :=
  rg_resolved r = Ok (pf_path item) /\ rg_isfile r = true /\ pf_filename item = safe_filename (rg_filename r).

(** Every published item comes from one of [rs]. *)
Definition sourced (rs : list registration) (s : DownloadServer) : Prop := forall t item,
  dget t (by_token s) = Some item -> exists r, r ∈ rs /\ publishes r item /\ rg_token r = t.

(** A file's token leads to that file. *)
Definition tokens_agree (s : DownloadServer) : Prop := forall p n t, dget (p, n) (token_by_file s) = Some t ->
  exists item, dget t (by_token s) = Some item /\ pf_path item = p /\ pf_filename item = n.

Lemma register_port r s : dl_port (register r s).1 = dl_port s.
Proof. unfold Downloads.register. by repeat case_goal. Qed.

Lemma register_sourced rs r s : sourced rs s -> sourced (rs ++ [r]) (register r s).1.
Proof.
  intros Hok t item. unfold Downloads.register.
  assert (dget t (by_token s) = Some item -> exists r', r' ∈ rs ++ [r] /\ publishes r' item /\ rg_token r' = t) as Hold.
  { intros (r' & ? & ?)%Hok. exists r'. set_solver. }
  destruct (rg_resolved r) as [p|] eqn:Ep; [|done]. destruct (rg_isfile r) eqn:Ef; [|done]. cbn [negb].
  destruct (dget (p, _) _); [done|]. cbn [fst by_token].
  destruct (decide (t = rg_token r)) as [->|]; [|by rewrite dget_dset_ne].
  rewrite dget_dset_eq. intros [= <-]. exists r. split; [set_solver|]. by split.
Qed.

(** A registration with a fresh token keeps what is published and the agreement. *)
Lemma register_keeps r s : dget (rg_token r) (by_token s) = None ->
  (forall t item, dget t (by_token s) = Some item -> dget t (by_token (register r s).1) = Some item) /\
  (tokens_agree s -> tokens_agree (register r s).1).
Proof.
  intros Hf.
  assert (forall t (item : PublishedFile), dget t (by_token s) = Some item -> t ≠ rg_token r) as Hne
    by (intros t item Ht ->; by rewrite Hf in Ht).
  unfold Downloads.register. destruct (rg_resolved r) as [p'|]; [|done].
  destruct (rg_isfile r); [|done]. cbn [negb].
  destruct (dget (p', _) _) eqn:Eg; [done|]. cbn [fst]. split.
  { intros t item Ht. cbn. by rewrite dget_dset_ne by (by eapply Hne). }
  intros Hok p n t. cbn [by_token token_by_file].
  destruct (decide ((p, n) = (p', safe_filename (rg_filename r)))) as [[= -> ->]|Hd].
  - rewrite dget_dset_eq. intros [= <-]. rewrite dget_dset_eq. by eexists.
  - rewrite dget_dset_ne by done. intros (item & Hi & ?)%Hok.
    exists item. by rewrite dget_dset_ne by (by eapply Hne).
Qed.

Lemma run_sourced rs0 rs s : sourced rs0 s -> sourced (rs0 ++ rs) (run_registrations rs s).
Proof.
  revert rs0 s. induction rs as [|r rs IH]; intros rs0 s Hs; simpl; [by rewrite app_nil_r|].
  rewrite cons_middle, (assoc_L _). by apply IH, register_sourced.
Qed.

Lemma sourced_fresh rs s t : sourced rs s -> t ∉ (rg_token <$> rs) -> dget t (by_token s) = None.
Proof.
  intros Hs Ht. destruct (dget t (by_token s)) as [item|] eqn:E; [|done].
  apply Hs in E as (r & Hr & _ & <-). destruct Ht. by apply list_elem_of_fmap_2.
Qed.

Lemma run_keeps rs0 rs s : sourced rs0 s -> NoDup (rg_token <$> (rs0 ++ rs)) ->
  (forall t item, dget t (by_token s) = Some item -> dget t (by_token (run_registrations rs s)) = Some item) /\
  (tokens_agree s -> tokens_agree (run_registrations rs s)).
Proof.
  revert rs0 s. induction rs as [|r rs IH]; intros rs0 s Hs Hnd; [done|].
  destruct (register_keeps r s) as [K1 K2].
  { eapply sourced_fresh; [done|]. rewrite fmap_app, fmap_cons in Hnd. apply list.NoDup_app in Hnd. set_solver. }
  rewrite cons_middle, (assoc_L _) in Hnd.
  destruct (IH (rs0 ++ [r]) _ (register_sourced _ _ _ Hs) Hnd) as [R1 R2].
  split; [intros t item Ht; by apply R1, K1|intros Ha; by apply R2, K2].
Qed.

(** Nothing but registered files can be downloaded: a request that gets a file gets one that was
    registered as a regular file, under its sanitised name, and the bytes of that file. *)
Theorem downloads_confined port rs q hs body :
  serve q (run_registrations rs (new_server port)) = Reply200 hs body ->
  exists r p size content, r ∈ rs /\ rg_resolved r = Ok p /\ rg_isfile r = true /\
    rq_size q p = Ok size /\ rq_content q p = Ok content /\ concat body `prefix_of` content /\
    Forall (fun b => (length b <= Z.to_nat CHUNK_BYTES)%nat) body /\
    exists ct, hs = headers_of (Published p (safe_filename (rg_filename r)) ct) size /\
    safe_name (safe_filename (rg_filename r)).
Proof.
  unfold Downloads.serve. destruct (urlsplit_path _ _) as [path|]; [|done].
  destruct (resolve _ _) as [item|] eqn:Er; [|done].
  apply (run_sourced [] rs (new_server port)) in Er as (r & Hr & (Hp & Hf & Hn) & _); [|done].
  destruct (rq_size q _) as [size|] eqn:Es; [|done]. destruct (rq_content q _) as [content|] eqn:Ec; [|done].
  intros [= <- <-]. exists r, (pf_path item), size, content. split_and!; try done.
  - destruct (rq_body q); [|destruct (rq_accepts q) as [[]|]; apply prefix_nil].
    pose proof (chunks_concat (Z.to_nat CHUNK_BYTES) content ltac:(unfold CHUNK_BYTES; lia)) as Hcc.
    destruct (rq_accepts q) as [n|]; [|by rewrite Hcc]. exists (concat (drop n (chunks (Z.to_nat CHUNK_BYTES) content))).
    by rewrite <-concat_app, take_drop.
  - destruct (rq_body q); [|destruct (rq_accepts q) as [[]|]; constructor].
    assert (Forall (fun b => (length b <= Z.to_nat CHUNK_BYTES)%nat) (chunks (Z.to_nat CHUNK_BYTES) content)) as Hb.
    { eapply Forall_impl; [apply chunks_from_bound|]. cbn beta. lia. }
    destruct (rq_accepts q); [by apply Forall_take|done].
  - exists (pf_content_type item). rewrite <-Hn. split; [by destruct item|]. rewrite Hn. apply safe_filename_safe.
Qed.

(** What a registration returns is the URL of a token of the file. *)
Lemma register_url port rs r s s1 url :
  Forall (fun r => token_ok (rg_token r)) (rs ++ [r]) -> sourced rs s -> tokens_agree s -> dl_port s = port ->
  register r s = (s1, Returned url) ->
  exists p t, rg_resolved r = Ok p /\ url = url_of port t (safe_filename (rg_filename r)) /\ token_ok t /\
    dget (p, safe_filename (rg_filename r)) (token_by_file s1) = Some t.
Proof.
  intros [Hrs Hr%Forall_inv]%Forall_app Hs Hag Hp. unfold Downloads.register.
  destruct (rg_resolved r) as [p|]; [|done]. destruct (rg_isfile r); [|done]. cbn [negb].
  destruct (dget (p, _) _) as [t|] eqn:Eg; intros [= <- <-]; rewrite Hp; exists p.
  - exists t. split_and!; try done. apply Hag in Eg as (item & Hi & _). apply Hs in Hi as (r' & Hr' & _ & <-).
    by eapply Forall_forall in Hrs.
  - exists (rg_token r). split_and!; try done. apply dget_dset_eq.
Qed.

Lemma run_port rs s : dl_port (run_registrations rs s) = dl_port s.
Proof. revert s. induction rs as [|r rs IH]; intros s; simpl; [done|]. by rewrite IH, register_port. Qed.

(** The URL a registration returns stays valid whatever is registered later, and downloads exactly
    the file it was given for, whole, under its sanitised name. *)
Theorem download_roundtrip port rs r rs' url s1 :
  NoDup (rg_token <$> (rs ++ r :: rs')) -> Forall (fun r => token_ok (rg_token r)) (rs ++ [r]) ->
  register r (run_registrations rs (new_server port)) = (s1, Returned url) ->
  exists p path, rg_resolved r = Ok p /\ url = "http://127.0.0.1:" +:+ str_of_int port +:+ path /\
    forall q size content, rq_target q = path -> rq_body q = true -> rq_accepts q = None ->
      rq_size q p = Ok size -> rq_content q p = Ok content ->
      exists ct body, serve q (run_registrations rs' s1) =
        Reply200 (headers_of (Published p (safe_filename (rg_filename r)) ct) size) body /\ concat body = content.
Proof.
  intros Hnd Htok Hreg. set (s0 := run_registrations rs (new_server port)) in *.
  assert (sourced rs s0) as Hs0 by (by apply (run_sourced [] rs)).
  rewrite cons_middle, (assoc_L _) in Hnd.
  pose proof Hnd as Hnd0. rewrite fmap_app in Hnd0. apply list.NoDup_app in Hnd0 as [Hnd0 _].
  pose proof (run_port rs (new_server port)) as Hport. fold s0 in Hport.
  assert (tokens_agree s0 /\ tokens_agree s1) as [Hag0 Hag].
  { pose proof (run_keeps [] (rs ++ [r]) (new_server port)) as [_ K]; [done|done|].
    unfold run_registrations in K. rewrite foldl_app in K. cbn [foldl] in K. fold (run_registrations rs (new_server port)) in K.
    fold s0 in K. rewrite Hreg in K. rewrite fmap_app in Hnd0. apply list.NoDup_app in Hnd0 as [Hnd0 _].
    split; [by apply (run_keeps [] rs (new_server port))|by apply K]. }
  assert (exists p t, rg_resolved r = Ok p /\ url = url_of port t (safe_filename (rg_filename r)) /\ token_ok t /\
    dget (p, safe_filename (rg_filename r)) (token_by_file s1) = Some t) as (p & t & Hp & -> & Hto & Hg).
  { by eapply register_url. }
  exists p, (url_path t (safe_filename (rg_filename r))). split_and!; [done..|].
  intros q size content Ht Hb Ha Hsz Hc. apply Hag in Hg as (item & Hi & Hpi & Hni).
  apply (run_keeps (rs ++ [r]) rs') in Hi; [|replace s1 with (register r s0).1 by (by rewrite Hreg); by apply register_sourced|done].
  destruct (url_path_token check_netloc t _ Hto (safe_filename_safe (rg_filename r))) as (u & Hu & Htu).
  exists (pf_content_type item), (chunks (Z.to_nat CHUNK_BYTES) content).
  unfold Downloads.serve. rewrite Ht, Hu, Htu. unfold resolve. rewrite Hi, Hpi, Hsz, Hc, Hb, Ha.
  split; [|apply chunks_concat; unfold CHUNK_BYTES; lia]. destruct item; cbn in Hpi, Hni |- *. by rewrite Hpi, Hni.
Qed.
End registry.

(** ** Witnesses *)

Definition no_guess : string -> option string := fun _ => None.
Definition any_netloc : string -> res unit := fun _ => Ok tt.

Definition demo_register (f t : string) : registration := Registration f f None (Ok ("/data/" +:+ f)) true t.
Definition demo_regs : list registration := [demo_register "a b.mp4" "Tok-1"; demo_register "a b.mp4" "Tok-2"].
Definition demo_request (target : string) : http_request :=
  HttpRequest target true (fun _ => Ok 3) (fun _ => Ok [1; 2; 3]) None.
Definition demo_registered := register no_guess (demo_register "c..mp4" "Tok-3")
  (run_registrations no_guess demo_regs (new_server 9092)).

Lemma downloads_confined_witness : exists r p, r ∈ demo_regs /\ rg_resolved r = Ok p /\
  dget "Content-Disposition" (headers_of (Published p (safe_filename (rg_filename r)) "") 3) =
    dget "Content-Disposition" (headers_of (Published "" "a-b.mp4" "") 3).
Proof.
  destruct (serve any_netloc (demo_request "/download/Tok-1/a-b.mp4")
    (run_registrations no_guess demo_regs (new_server 9092))) as [|hs body|] eqn:E; [vm_compute in E; discriminate| |vm_compute in E; discriminate].
  destruct (downloads_confined no_guess any_netloc 9092 demo_regs _ hs body E)
    as (r & p & size & content & Hr & Hp & _ & Hs & _ & _ & _ & ct & Hh & _).
  exists r, p. split; [exact Hr|]. split; [exact Hp|]. cbn in Hs. injection Hs as <-.
  transitivity (dget "Content-Disposition" hs); [rewrite Hh; reflexivity|].
  vm_compute in E. injection E as <- _. vm_compute. reflexivity.
Defined.

Lemma download_roundtrip_witness : exists url p, demo_registered.2 = Returned url /\
  exists ct body, serve any_netloc (demo_request "/download/Tok-3/c..mp4")
    (run_registrations no_guess [demo_register "d" "Tok-4"] demo_registered.1) =
    Reply200 (headers_of (Published p "c..mp4" ct) 3) body /\ concat body = [1; 2; 3].
Proof.
  destruct demo_registered as [s1 o] eqn:E.
  assert (o = Returned "http://127.0.0.1:9092/download/Tok-3/c..mp4") as -> by (vm_compute in E; congruence).
  assert (NoDup (rg_token <$> (demo_regs ++ demo_register "c..mp4" "Tok-3" :: [demo_register "d" "Tok-4"])%list)) as Hnd
    by (apply (bool_decide_eq_true_1 _); vm_compute; reflexivity).
  assert (Forall (fun r => token_ok (rg_token r)) (demo_regs ++ [demo_register "c..mp4" "Tok-3"])%list) as Htok
    by (repeat constructor; discriminate).
  destruct (download_roundtrip no_guess any_netloc 9092 demo_regs _ _ _ s1 Hnd Htok E) as (p & path & Hp & Hu & H).
  injection Hp as <-. eexists _, _. split; [reflexivity|].
  apply (H (demo_request "/download/Tok-3/c..mp4") 3 [1; 2; 3]); try reflexivity.
  vm_compute in Hu. injection Hu as <-. reflexivity.
Defined.
