(* ===== verification/Storage.v ===== *)
(** * Recorded episodes on disk

    Models [dashboard/storage.py]: the datasets found under the collection root, their episodes and
    videos, and the deletion of episodes.  The disk is a finite map from paths (lists of components)
    to files; a directory exists when a file lies under it.  LeRobot's loading and rebuilding of a
    dataset, which files cannot be removed and which renames are refused, Hydra's composition, and
    the resolution of video paths are inputs. *)

From Stdlib Require Import SpecFloat Ascii String.
From S2P Require Import Prelude Float64 Ring Streams Text Layout Json SkillFile CalibFile Recorder LiveView Downloads.
Local Open Scope string_scope.
Local Open Scope list_scope.
Local Open Scope Z_scope.

(** ** The disk *)

Definition path := list string.

(** A file: what parsing it as JSON gives, and its size. *)
Record dfile := DFile { f_json : res json; f_size : res Z }.

Abbreviation tree := (gmap path dfile).

(** The part of [q] below [p]. *)
Definition strip_path (p q : path) : option path :=
  if decide (p `prefix_of` q) then Some (drop (length p) q) else None.

(** The files below [p], by their relative paths. *)
Definition subtree (p : path) (t : tree) : tree :=
  list_to_map (omap (fun kv => (fun rel => (rel, kv.2)) <$> strip_path p kv.1) (map_to_list t)).

(** [str(p)]. *)
Definition path_str (p : path) : string := "/" +:+ py_join "/" p.

(** [p + suffix] on the text of a path. *)
Fixpoint add_suffix (p : path) (suffix : string) : path :=
  match p with
  | [] => [suffix]
  | [n] => [n +:+ suffix]
  | n :: p => n :: add_suffix p suffix
  end.

(** ** Datasets *)

Record EpisodeVideo := Video {
  ev_key : string; ev_label : string; ev_path : string; ev_filename : string; ev_size_bytes : Z;
}.

Record EpisodeInfo := EpisodeRow {
  ei_index : Z; ei_length : Z; ei_duration_s : f64; ei_tasks : list string; ei_videos : list EpisodeVideo;
}.

Record DatasetInfo := Dataset {
  ds_repo_id : string; ds_path : path; ds_num_episodes : Z; ds_num_frames : Z; ds_fps : f64;
  ds_video_keys : list json; ds_size_bytes : Z;
}.

(** [v.get(k, d)]. *)
Definition jget_or (k : string) (d v : json) : res json :=
  match v with Obj o => Ok (default d (dget k o)) | _ => Raise OtherError end.

(** [list(v)]. *)
Definition list_of (v : json) : res (list json) :=
  match v with
  | Arr l => Ok l
  | Obj o => Ok (jstr <$> dkeys o)
  | Scalar (JStr s) => Ok ((fun c => jstr (String c "")) <$> list_ascii_of_string s)
  | Scalar _ => Raise TypeError
  end.

(** [isinstance(feature, dict) and feature.get("dtype") == "video"]. *)
Definition is_video (feature : json) : bool :=
  match feature with
  | Obj o => match dget "dtype" o with Some (Scalar (JStr d)) => bool_decide (d = "video") | _ => false end
  | _ => false
  end.

(** [_dir_size]. *)
Definition dir_size (p : path) (t : tree) : Z :=
  foldr Z.add 0 ((fun kv => match f_size kv.2 with Ok n => n | Raise _ => 0 end) <$> map_to_list (subtree p t)).

(** The directory, relative to [root], of a file [<dir>/meta/info.json] below it. *)
Definition info_dir (root q : path) : option path :=
  rel ← strip_path root q;
  if decide (drop (length rel - 2) rel = ["meta"; "info.json"]) then Some (take (length rel - 2) rel) else None.

(** [os.path.relpath(ds_dir, root)]. *)
Definition repo_id_of (rel : path) : string := match rel with [] => "." | _ => py_join "/" rel end.

Section discovery.
Context (float_of_str : string -> option f64).

(** [_read_dataset]. *)
Definition read_dataset (t : tree) (repo_id : string) (ds_dir : path) (info : res json) : res DatasetInfo :=
  let? info := info in
  let? vk := jget_or "video_keys" (Arr []) info in
  let? keys := list_of (py_or vk (Arr [])) in
  let? keys := match keys with
               | [] => let? fs := jget_or "features" (Obj []) info in
                       let? items := jitems (py_or fs (Obj [])) in
                       Ok (jstr <$> dkeys (List.filter (fun kf => is_video kf.2) items))
               | _ => Ok keys
               end in
  let? te := jget_or "total_episodes" (jint 0) info in
  let? episodes := jint_of te in
  let? tf := jget_or "total_frames" (jint 0) info in
  let? frames := jint_of tf in
  let? f := jget_or "fps" (jint 0) info in
  let? fps := jfloat_of float_of_str (py_or f (jint 0)) in
  Ok (Dataset repo_id ds_dir episodes frames fps keys (dir_size ds_dir t)).

(** The datasets read, the unreadable ones skipped. *)
Definition read_at (t : tree) (root : path) (kv : path * dfile) : option DatasetInfo :=
  rel ← info_dir root kv.1;
  match read_dataset t (repo_id_of rel) (root ++ rel) (f_json kv.2) with Ok d => Some d | Raise _ => None end.

Definition discover_datasets (root : path) (t : tree) : list DatasetInfo :=
  py_sorted (fun a b => str_leb (ds_repo_id a) (ds_repo_id b)) (omap (read_at t root) (map_to_list t)).
End discovery.

(** ** Episodes *)

(** [Path(s).suffix]. *)
Definition path_suffix (s : string) : string :=
  match rev (py_split "." (path_name s)) with
  | last :: rest => if bool_decide (last = "") || bool_decide (py_join "." (rev rest) = "") then ""
                    else match rest with [] => "" | _ => "." +:+ last end
  | [] => ""
  end.

Definition str_lower (s : string) : string :=
  string_of_list_ascii (to_lower <$> list_ascii_of_string s).

(** [re.sub(...).strip(".-") or default], as [_video_filename] cleans both names. *)
Definition clean_or (dflt s : string) : string :=
  let c := rstrip edge_char (lstrip edge_char (dash_from false s)) in
  if bool_decide (c = "") then dflt else c.

Definition video_filename (repo_id : string) (episode_index : Z) (label : string) : string :=
  clean_or "dataset" repo_id +:+ "-episode-" +:+
  (if episode_index <? 0 then "-" +:+ pad_digits 3 (str_of_int (- episode_index))
   else pad_digits 4 (str_of_int episode_index)) +:+ "-" +:+ clean_or "camera" label +:+ ".mp4".

Section episodes.
(** [str] of a value; the metadata's video paths; resolution and size of a path. *)
Context (str_of : json -> string) (video_file_path : Z -> json -> res string)
  (resolve : string -> res string) (stat_size : string -> res Z).

(** One key of [_episode_videos]. *)
Definition episode_video (ds : DatasetInfo) (index : Z) (key : json) : res (option EpisodeVideo) :=
  match (let? rel := video_file_path index key in
         let? p := resolve (if starts_with "/" rel then rel else path_str (ds_path ds) +:+ "/" +:+ rel) in
         let? size := stat_size p in Ok (p, size)) with
  | Raise _ => Ok None
  | Ok (p, size) =>
      if negb (bool_decide (str_lower (path_suffix p) = ".mp4")) then Ok None
      else match key with
           | Scalar (JStr k) =>
               let label := default k (strip_prefix "observation.images." k) in
               Ok (Some (Video k label p (video_filename (ds_repo_id ds) index label) size))
           | _ => Raise OtherError
           end
  end.

(** [_episode_videos]. *)
Definition episode_videos (ds : DatasetInfo) (index : Z) : res (list EpisodeVideo) :=
  res_map (omap id) (mapM_res (episode_video ds index) (ds_video_keys ds)).

(** One row of the metadata. *)
Definition episode_row (ds : DatasetInfo) (fps : f64) (row : json) : res EpisodeInfo :=
  let? vi := subscript "episode_index" row in
  let? index := jint_of vi in
  let? vl := subscript "length" row in
  let? len := jint_of vl in
  let? vt := jget "tasks" row in
  let? tasks := list_of (py_or vt (Arr [])) in
  let? flen := float_of_int len in
  let? videos := episode_videos ds index in
  Ok (EpisodeRow index len (fdiv flen fps) (str_of <$> tasks) videos).

(** [list_episodes]: [meta] is what loading the metadata gives, its frame rate and its rows. *)
Definition list_episodes (ds : DatasetInfo) (meta : res (f64 * list json)) : res (list EpisodeInfo) :=
  if ds_num_episodes ds <=? 0 then Ok []
  else
    match meta with
    | Raise _ => Raise ValueError
    | Ok (fps, rows) =>
        let fps := if feq fps f0 then f1 else fps in
        res_map (py_sorted (fun a b => ei_index a <=? ei_index b)) (mapM_res (episode_row ds fps) rows)
    end.
End episodes.

(** ** Deletion *)

Record store := Store {
  st_env : list (string * string);
  st_tree : tree;
  st_root : option path;
}.

Definition set_tree (f : tree -> tree) : ST store unit :=
  st_modify (fun s => Store (st_env s) (f (st_tree s)) (st_root s)).

(** [collection_root] and [reset]; [compose] is the root the configuration names. *)
Definition collection_root (compose : res path) : ST store path := fun s =>
  match st_root s with
  | Some r => (s, Returned r)
  | None => match compose with
            | Raise e => (s, Raised e)
            | Ok r => (Store (st_env s) (st_tree s) (Some r), Returned r)
            end
  end.

Definition storage_reset (s : store) : store := Store (st_env s) (st_tree s) None.

(** [with _hub_offline(): m]. *)
Definition storage_offline {A} (m : ST store A) : ST store A :=
  s ← st_get;
  let saved := (fun k => (k, dget k (st_env s))) <$> HUB_KEYS in
  st_modify (fun s => Store (dset "HF_DATASETS_OFFLINE" "1" (dset "HF_HUB_OFFLINE" "1" (st_env s))) (st_tree s) (st_root s));;
  try_finally m (fun s => Store (restore_env saved (st_env s)) (st_tree s) (st_root s)).

Section deletion.
(** Files that cannot be removed, renames that are refused; loading a dataset, and rebuilding it
    without some episodes: the files written and whether it raised. *)
Context (stuck : path -> bool) (denied : path -> path -> bool)
  (load : tree -> res unit) (rebuild : tree -> list Z -> tree * res unit).

(** [shutil.rmtree(p, ignore_errors=True)]. *)
Definition remove_tree (p : path) (t : tree) : tree :=
  filter (fun kv => strip_path p kv.1 = None \/ stuck kv.1 = true) t.

(** The files of [t] put below [p]. *)
Definition place (p : path) (t : tree) : tree := kmap (fun rel : path => p ++ rel) t.

(** [os.replace(src, dst)] on directories. *)
Definition os_replace (src dst : path) : ST store unit := fun s =>
  let t := st_tree s in
  if denied src dst then (s, Raised OSError)
  else if decide (subtree src t = ∅) then (s, Raised FileNotFoundError)
  else if negb (bool_decide (subtree dst t = ∅)) then (s, Raised OSError)
  else (Store (st_env s) (place dst (subtree src t) ∪ filter (fun kv => strip_path src kv.1 = None) t) (st_root s),
        Returned tt).

(** [delete_dataset]. *)
Definition delete_dataset (ds : DatasetInfo) : ST store unit := set_tree (remove_tree (ds_path ds)).

(** Loading the dataset and writing the rebuilt one below [tmp]. *)
Definition rebuild_into (ds : DatasetInfo) (indices : list Z) (tmp : path) : ST store unit :=
  s ← st_get;
  st_lift (load (subtree (ds_path ds) (st_tree s)));;
  let r := rebuild (subtree (ds_path ds) (st_tree s)) indices in
  set_tree (fun t => place tmp r.1 ∪ t);;
  st_lift r.2.

Definition EDITING : string := ".__editing__".
Definition OLD : string := ".__old__".

(** The partial deletion: rebuild aside, swap, clean up. *)
Definition swap_in (ds : DatasetInfo) (indices : list Z) : ST store unit :=
  let tmp := add_suffix (ds_path ds) EDITING in
  let backup := add_suffix (ds_path ds) OLD in
  set_tree (fun t => remove_tree backup (remove_tree tmp t));;
  try_finally
    (storage_offline (rebuild_into ds indices tmp);;
     os_replace (ds_path ds) backup;;
     os_replace tmp (ds_path ds))
    (fun s => Store (st_env s) (remove_tree backup (remove_tree tmp (st_tree s))) (st_root s)).

Definition delete_episodes (ds : DatasetInfo) (indices : list Z) : ST store string :=
  let indices := py_sorted Z.leb (remove_dups indices) in
  let total := ds_num_episodes ds in
  match indices with
  | [] => st_raise ValueError
  | _ =>
      if existsb (fun i => (i <? 0) || (total <=? i)) indices then st_raise ValueError
      else if total <=? Z.of_nat (length indices) then
        set_tree (remove_tree (ds_path ds));; mret "dataset-removed"
      else swap_in ds indices;; mret "reindexed"
  end.
End deletion.

(** ** Sizes for people *)

(** [f"{x:.0f}"]. *)
Definition fmt_whole (x : f64) : string :=
  match x with
  | S754_nan => "nan"
  | S754_infinity s => if s then "-inf" else "inf"
  | _ => str_of_int (default 0 (f_round x))
  end.

Fixpoint human_size_from (size : f64) (units : list string) : string :=
  match units with
  | [] => fmt_fixed 1 size +:+ " TB"
  | unit :: units =>
      if flt size (f_of_Z 1024) || bool_decide (unit = "TB") then
        (if bool_decide (unit = "B") then fmt_whole size else fmt_fixed 1 size) +:+ " " +:+ unit
      else human_size_from (fdiv size (f_of_Z 1024)) units
  end.

Definition human_size (n : Z) : res string :=
  let? size := float_of_int n in Ok (human_size_from size ["B"; "KB"; "MB"; "GB"; "TB"]).

(** ** Paths and trees: lemmas *)

Lemma strip_path_Some p q r : strip_path p q = Some r <-> q = p ++ r.
Proof.
  unfold strip_path. split.
  - destruct (decide _) as [[k ->]|]; [|done]. intros [= <-]. by rewrite drop_app_length.
  - intros ->. rewrite decide_True by apply prefix_app_r, reflexivity. by rewrite drop_app_length.
Qed.

Lemma strip_path_app p r : strip_path p (p ++ r) = Some r.
Proof. by apply strip_path_Some. Qed.

(** Below one directory is not below another at the same depth. *)
Lemma strip_path_ne p q r : length p = length q -> p ≠ q -> strip_path p (q ++ r) = None.
Proof.
  intros Hl Hne. destruct (strip_path p (q ++ r)) as [k|] eqn:E; [|done].
  apply strip_path_Some in E. apply app_inj_1 in E as [? _]; [by subst|done].
Qed.

Lemma strip_NoDup p (l : list (path * dfile)) : NoDup l.*1 ->
  NoDup (omap (fun kv => (fun rel => (rel, kv.2)) <$> strip_path p kv.1) l).*1.
Proof.
  induction l as [|[q x] l IH]; [constructor|]. rewrite fmap_cons. intros [Hn Hd]%list.NoDup_cons. simpl.
  destruct (strip_path p q) as [rel|] eqn:E; simpl; [|auto]. constructor; [|auto].
  intros ([r' y] & -> & Hy)%list_elem_of_fmap. apply list_elem_of_omap in Hy as ([q' z] & Hq' & E').
  apply fmap_Some in E' as (rel' & Hs & [= -> ->]). apply strip_path_Some in E as ->. apply strip_path_Some in Hs. cbn in Hs. subst q'.
  apply Hn. by apply (list_elem_of_fmap_2 fst) in Hq'.
Qed.

Lemma lookup_subtree p t r : subtree p t !! r = t !! (p ++ r).
Proof.
  unfold subtree. apply option_eq. intros f.
  assert (forall x, (r, x) ∈ omap (fun kv => (fun rel => (rel, kv.2)) <$> strip_path p kv.1) (map_to_list t) <->
    t !! (p ++ r) = Some x) as Hin.
  { intros x. rewrite list_elem_of_omap. split.
    - intros ([q y] & Hq & E). apply fmap_Some in E as (rel & Hs & [= -> ->]). apply strip_path_Some in Hs. cbn in Hs. subst q.
      by apply elem_of_map_to_list.
    - intros Hx. exists (p ++ r, x). split; [by apply elem_of_map_to_list|]. simpl. by rewrite strip_path_app. }
  rewrite <-Hin. symmetry. apply elem_of_list_to_map.
  apply strip_NoDup, NoDup_fst_map_to_list.
Qed.

Lemma lookup_place p t q : place p t !! q = (strip_path p q ≫= fun r => t !! r).
Proof.
  unfold place. destruct (strip_path p q) as [r|] eqn:E; simpl.
  - apply strip_path_Some in E as ->. exact (lookup_kmap (M1:=gmap path) (M2:=gmap path) (fun rel : path => p ++ rel) t r).
  - apply (lookup_kmap_None (M1:=gmap path) (M2:=gmap path)); [apply _|]. intros r ->. by rewrite strip_path_app in E.
Qed.

Lemma length_add_suffix p s : p ≠ [] -> length (add_suffix p s) = length p.
Proof.
  induction p as [|n p IH]; [done|]. intros _. destruct p; [done|]. change (S (length (add_suffix (s0 :: p) s)) = S (length (s0 :: p))).
  f_equal. by apply IH.
Qed.

Lemma add_suffix_inj p s s' : p ≠ [] -> add_suffix p s = add_suffix p s' -> s = s'.
Proof.
  induction p as [|n p IH]; [done|]. intros _. destruct p as [|m p].
  - intros [= H]. by apply (inj (String.append n)) in H.
  - intros [= H]. by apply IH.
Qed.

Lemma str_app_nil_r s : s +:+ "" = s.
Proof. induction s as [|c s IH]; [done|]. change (String c (s +:+ "") = String c s). by rewrite IH. Qed.

Lemma add_suffix_nil p : p ≠ [] -> add_suffix p "" = p.
Proof.
  induction p as [|n p IH]; [done|]. intros _. destruct p; [cbn; by rewrite str_app_nil_r|].
  change (n :: add_suffix (s :: p) "" = n :: s :: p). f_equal. by apply IH.
Qed.

(** The dataset's directory and the two beside it are apart. *)
Lemma siblings p s s' r : p ≠ [] -> s ≠ s' -> strip_path (add_suffix p s) (add_suffix p s' ++ r) = None.
Proof.
  intros Hp Hs. apply strip_path_ne; [by rewrite !length_add_suffix|]. by intros H%add_suffix_inj.
Qed.

Lemma restore_saved env k :
  dget k (restore_env ((fun k => (k, dget k env)) <$> HUB_KEYS)
    (dset "HF_DATASETS_OFFLINE" "1" (dset "HF_HUB_OFFLINE" "1" env))) = dget k env.
Proof.
  cbn [restore_env foldl HUB_KEYS fmap list_fmap fst snd]. rewrite !dget_restore.
  destruct (decide (k = "HF_DATASETS_OFFLINE")) as [->|]; [done|].
  destruct (decide (k = "HF_HUB_OFFLINE")) as [->|]; [done|]. by rewrite !dget_dset_ne by done.
Qed.

(** ** Deletion: lemmas *)

Section deletion_lemmas.
Context (stuck : path -> bool) (denied : path -> path -> bool)
  (load : tree -> res unit) (rebuild : tree -> list Z -> tree * res unit).
Abbreviation remove_tree := (remove_tree stuck).
Abbreviation os_replace := (os_replace denied).

Lemma lookup_rmtree p t q :
  remove_tree p t !! q = if stuck q then t !! q else match strip_path p q with Some _ => None | None => t !! q end.
Proof.
  unfold Storage.remove_tree. destruct (t !! q) as [f|] eqn:E.
  - destruct (stuck q) eqn:Es; [by apply map_lookup_filter_Some; auto|].
    destruct (strip_path p q) eqn:Ep; [|by apply map_lookup_filter_Some; auto].
    apply map_lookup_filter_None. right. intros x _ [H|H]; cbn in H; congruence.
  - destruct (stuck q); [|destruct (strip_path p q)]; apply map_lookup_filter_None; auto.
Qed.

(** Loading and rebuilding, offline: what is written, the outcome, the environment as before. *)
Lemma offline_rebuild ds idx tmp s :
  let r := storage_offline (rebuild_into load rebuild ds idx tmp) s in
  let sub := subtree (ds_path ds) (st_tree s) in
  (forall k, dget k (st_env r.1) = dget k (st_env s)) /\ st_root r.1 = st_root s /\
  match load sub with
  | Raise e => r.2 = Raised e /\ st_tree r.1 = st_tree s
  | Ok _ => st_tree r.1 = place tmp (rebuild sub idx).1 ∪ st_tree s /\
            r.2 = match (rebuild sub idx).2 with Ok _ => Returned tt | Raise e => Raised e end
  end.
Proof.
  destruct s as [env t root]. cbn zeta.
  unfold storage_offline, rebuild_into, set_tree, mbind, st_bind, st_get, st_modify, st_lift, try_finally.
  cbn [st_env st_tree st_root]. destruct (load (subtree _ t)) as [[]|e]; cbn [st_env st_tree st_root fst snd].
  - destruct (rebuild _ _) as [reb [[]|e]]; cbn [st_env st_tree st_root fst snd];
      (split; [apply restore_saved|done]).
  - split; [apply restore_saved|done].
Qed.

(** A rename that succeeds. *)
Lemma os_replace_ok src dst s :
  (exists s', os_replace src dst s = (s', Returned tt) /\ denied src dst = false /\ st_env s' = st_env s /\
     subtree src (st_tree s) ≠ ∅ /\ subtree dst (st_tree s) = ∅ /\
     forall q, st_tree s' !! q =
       match strip_path dst q with
       | Some r => match st_tree s !! (src ++ r) with
                   | Some f => Some f
                   | None => match strip_path src q with Some _ => None | None => st_tree s !! q end
                   end
       | None => match strip_path src q with Some _ => None | None => st_tree s !! q end
       end) \/
  (exists e, os_replace src dst s = (s, Raised e) /\
     (denied src dst = true \/ subtree src (st_tree s) = ∅ \/ subtree dst (st_tree s) ≠ ∅)).
Proof.
  unfold Storage.os_replace. cbv zeta. destruct (denied src dst) eqn:Ed; [right; eauto|].
  destruct (decide _) as [?|Hsrc]; [right; eauto|]. case_bool_decide as Hdst; cbn [negb]; [|right; eauto].
  left. eexists. split; [reflexivity|]. cbn [st_env st_tree]. split_and!; try done. intros q.
  rewrite lookup_union, lookup_place.
  assert (filter (fun kv : path * dfile => strip_path src kv.1 = None) (st_tree s) !! q =
    match strip_path src q with Some _ => None | None => st_tree s !! q end) as ->.
  { destruct (strip_path src q) eqn:E; [apply map_lookup_filter_None; right; intros x _ H; cbn in H; congruence|].
    destruct (st_tree s !! q) eqn:Eq; [by apply map_lookup_filter_Some|apply map_lookup_filter_None; auto]. }
  destruct (strip_path dst q) as [r|] eqn:E; simpl; [|by rewrite (left_id_L None _)].
  rewrite lookup_subtree. destruct (st_tree s !! (src ++ r)); simpl; [apply union_Some_l|].
  by rewrite (left_id_L None _).
Qed.

Section swap.
Context (ds : DatasetInfo).
Let P := ds_path ds.
Let T := add_suffix P EDITING.
Let B := add_suffix P OLD.
Hypothesis (HP : P ≠ []).

Definition beside (q : path) : Prop := strip_path T q ≠ None \/ strip_path B q ≠ None.
Hypothesis (Hrm : forall q, beside q -> stuck q = false).

Lemma clean_beside t q :
  (beside q -> remove_tree B (remove_tree T t) !! q = None) /\ (~ beside q -> remove_tree B (remove_tree T t) !! q = t !! q).
Proof.
  unfold beside. rewrite !lookup_rmtree. split.
  - intros Hb. rewrite Hrm by done. destruct Hb, (strip_path B q), (strip_path T q); done.
  - intros Hb. destruct (stuck q); [done|]. destruct (strip_path B q), (strip_path T q); try done; by destruct Hb; auto.
Qed.

Lemma beside_T r : beside (T ++ r).
Proof. left. by rewrite strip_path_app. Qed.
Lemma beside_B r : beside (B ++ r).
Proof. right. by rewrite strip_path_app. Qed.

Lemma at_P r : strip_path T (P ++ r) = None /\ strip_path B (P ++ r) = None.
Proof.
  unfold T, B. assert (exists s, P = add_suffix P s /\ s = "") as (z & Hz & ->) by (exists ""; by rewrite add_suffix_nil).
  split; rewrite Hz at 2; by apply siblings.
Qed.

Lemma from_P x : x = T \/ x = B -> forall r, strip_path P (x ++ r) = None.
Proof.
  intros Hx r. rewrite <-(add_suffix_nil P) by done. destruct Hx as [-> | ->]; by apply siblings.
Qed.

Lemma B_T r : strip_path B (T ++ r) = None.
Proof. by apply siblings. Qed.
Lemma T_B r : strip_path T (B ++ r) = None.
Proof. by apply siblings. Qed.

Lemma not_beside_P r : ~ beside (P ++ r).
Proof. destruct (at_P r) as [H1 H2]. unfold beside. rewrite H1, H2. naive_solver. Qed.

Lemma subtree_ext p t t' : (forall r, t !! (p ++ r) = t' !! (p ++ r)) -> subtree p t = subtree p t'.
Proof. intros H. apply map_eq. intros r. by rewrite !lookup_subtree. Qed.

(** The one way to lose the dataset: it was moved aside, and moving the rebuilt one in was refused. *)
Definition second_rename_refused (idx : list Z) (s : store) : Prop :=
  load (subtree P (st_tree s)) = Ok tt /\ (rebuild (subtree P (st_tree s)) idx).2 = Ok tt /\
  denied P B = false /\ denied T P = true.

(** The swap: what is beside the dataset ends empty, everything else is untouched, and the dataset
    is the rebuilt one on return, and on an exception as it was, or gone when the second rename was
    refused. *)
Definition swapped (idx : list Z) (s : store) (r : store * outcome unit) : Prop :=
  (forall q, beside q -> st_tree r.1 !! q = None) /\
  (forall q, ~ beside q -> strip_path P q = None -> st_tree r.1 !! q = st_tree s !! q) /\
  (forall k, dget k (st_env r.1) = dget k (st_env s)) /\
  match r.2 with
  | Returned _ => subtree P (st_tree r.1) = (rebuild (subtree P (st_tree s)) idx).1 /\
                  load (subtree P (st_tree s)) = Ok tt /\ (rebuild (subtree P (st_tree s)) idx).2 = Ok tt
  | Raised _ => subtree P (st_tree r.1) = subtree P (st_tree s) \/
                (second_rename_refused idx s /\ subtree P (st_tree r.1) = ∅)
  | Running => False
  end.

(** The clean-up after a state in which the dataset and the rest are as before. *)
Lemma clean_unchanged idx s env t root e :
  (forall k, dget k env = dget k (st_env s)) -> (forall q, ~ beside q -> t !! q = st_tree s !! q) ->
  swapped idx s (Store env (remove_tree B (remove_tree T t)) root, Raised e).
Proof.
  intros He Ht. unfold swapped. cbn [fst snd st_tree st_env]. split_and!; [intros q; apply clean_beside| |done|].
  - intros q Hb _. rewrite (proj2 (clean_beside t q)) by done. auto.
  - left. apply subtree_ext. intros r. pose proof (not_beside_P r). rewrite (proj2 (clean_beside t _)) by done. auto.
Qed.

(** The two renames, from a tree with the rebuilt files beside the dataset. *)
Lemma swap_renames (idx : list Z) (s s2 : store) (reb : tree) :
  reb ≠ ∅ -> (forall r, st_tree s2 !! (T ++ r) = reb !! r) -> (forall r, st_tree s2 !! (B ++ r) = None) ->
  (forall q, ~ beside q -> st_tree s2 !! q = st_tree s !! q) -> (forall k, dget k (st_env s2) = dget k (st_env s)) ->
  reb = (rebuild (subtree P (st_tree s)) idx).1 -> load (subtree P (st_tree s)) = Ok tt ->
  (rebuild (subtree P (st_tree s)) idx).2 = Ok tt ->
  swapped idx s (try_finally (os_replace P B;; os_replace T P)
    (fun s => Store (st_env s) (remove_tree B (remove_tree T (st_tree s))) (st_root s)) s2).
Proof.
  intros Hne HT HB Hrest Henv Hreb Hload Hok. unfold try_finally, mbind, st_bind.
  destruct (os_replace_ok P B s2) as [(s3 & -> & HdB & He3 & _ & _ & Ht3)|(e & -> & _)];
    [|by apply clean_unchanged].
  assert (forall r, st_tree s3 !! (P ++ r) = None) as HP3.
  { intros r. rewrite Ht3. destruct (at_P r) as [_ ->]. by rewrite strip_path_app. }
  assert (forall q, ~ beside q -> strip_path P q = None -> st_tree s3 !! q = st_tree s !! q) as Hrest3.
  { intros q Hb Hp. rewrite Ht3, Hp. destruct (strip_path B q) eqn:E2; [destruct Hb; right; by rewrite E2|]. auto. }
  destruct (os_replace_ok T P s3) as [(s4 & -> & _ & He4 & _ & _ & Ht4)|(e & -> & [H|[H|H]])].
  - unfold swapped. cbn [fst snd st_tree st_env]. rewrite He4, He3.
    assert (forall r, st_tree s3 !! (T ++ r) = reb !! r) as HT3.
    { intros r. rewrite Ht3. rewrite B_T, from_P by auto. apply HT. }
    split_and!; [intros q; apply clean_beside| |done| |done|done].
    + intros q Hb Hp. rewrite (proj2 (clean_beside _ q)), Ht4, Hp by done.
      destruct (strip_path T q) eqn:E1; [destruct Hb; left; by rewrite E1|]. auto.
    + rewrite <-Hreb. apply map_eq. intros r. rewrite lookup_subtree.
      rewrite (proj2 (clean_beside _ _)), Ht4, strip_path_app by apply not_beside_P.
      etrans; [|exact (HT3 r)]. destruct (st_tree s3 !! (T ++ r)); [done|]. destruct (at_P r) as [-> _]. apply HP3.
  - unfold swapped. cbn [fst snd st_tree st_env]. rewrite He3. split_and!; [intros q; apply clean_beside| |done|].
    + intros q Hb Hp. rewrite (proj2 (clean_beside _ q)) by done. auto.
    + right. split; [done|]. apply map_eq. intros r. rewrite lookup_subtree, lookup_empty.
      by rewrite (proj2 (clean_beside _ _)) by apply not_beside_P.
  - destruct Hne. apply map_eq. intros r. rewrite lookup_empty.
    apply (f_equal (fun m : tree => m !! r)) in H. rewrite lookup_subtree, lookup_empty, Ht3 in H.
    rewrite B_T, from_P in H by auto. by rewrite <-HT.
  - destruct H. apply map_eq. intros r. by rewrite lookup_subtree, lookup_empty.
Qed.

Lemma swap_in_spec idx s :
  ((rebuild (subtree P (st_tree s)) idx).2 = Ok tt -> (rebuild (subtree P (st_tree s)) idx).1 ≠ ∅) ->
  swapped idx s (swap_in stuck denied load rebuild ds idx s).
Proof.
  intros Hne. unfold swap_in, set_tree. fold P T B.
  set (s1 := Store (st_env s) (remove_tree B (remove_tree T (st_tree s))) (st_root s)).
  assert (subtree P (st_tree s1) = subtree P (st_tree s)) as Hsub
    by (apply subtree_ext; intros r; apply clean_beside, not_beside_P).
  pose proof (offline_rebuild ds idx T s1) as (He & _ & Hr). fold P in Hr. rewrite Hsub in Hr.
  change (swapped idx s (try_finally (storage_offline (rebuild_into load rebuild ds idx T);; os_replace P B;; os_replace T P)
    (fun s => Store (st_env s) (remove_tree B (remove_tree T (st_tree s))) (st_root s)) s1)).
  unfold try_finally at 1. unfold mbind at 1, st_bind at 1.
  destruct (storage_offline _ s1) as [s2 o]. cbn [fst snd] in He, Hr.
  destruct (load _) as [[]|e] eqn:El.
  2: { destruct Hr as [-> Ht]. apply clean_unchanged; [done|]. intros q Hb. rewrite Ht. by apply clean_beside. }
  destruct Hr as [Ht Ho]. destruct (rebuild _ idx) as [reb [[]|e]] eqn:Er; cbn [fst snd] in *; subst o.
  - eapply (swap_renames idx s s2 reb); rewrite ?Er; auto.
    + intros r. rewrite Ht, lookup_union, lookup_place, strip_path_app. simpl.
      rewrite (proj1 (clean_beside _ _)) by apply beside_T. apply (right_id_L None _).
    + intros r. rewrite Ht, lookup_union, lookup_place. rewrite T_B. simpl.
      rewrite (proj1 (clean_beside _ _)) by apply beside_B. done.
    + intros q Hb. rewrite Ht, lookup_union, lookup_place.
      destruct (strip_path T q) eqn:E; [destruct Hb; left; by rewrite E|]. simpl.
      rewrite (left_id_L None _). by apply clean_beside.
  - apply clean_unchanged; [done|]. intros q Hb. rewrite Ht, lookup_union, lookup_place.
    destruct (strip_path T q) eqn:E; [destruct Hb; left; by rewrite E|]. simpl.
    rewrite (left_id_L None _). by apply clean_beside.
Qed.
End swap.

(** C24: An episode deletion leaves the old dataset or the new one.  An empty selection or one with
    an index outside the dataset is refused with [ValueError] and changes nothing; selecting every
    episode removes the dataset's removable files and nothing else; any other selection either
    returns with the rebuilt dataset in place of the old one, or raises with the dataset as it was;
    in both cases the process environment is as it was, nothing is left beside the dataset, and every
    other file is untouched.  There is one exception, and it is exact: when the dataset was moved
    aside and the operating system refuses the second rename, the call raises and the dataset is gone.
    The files beside the dataset are assumed removable, and a rebuild that succeeds to have written a
    file. *)
Theorem delete_episodes_atomic ds indices s :
  let P := ds_path ds in
  let sel := py_sorted Z.leb (remove_dups indices) in
  let reb := rebuild (subtree P (st_tree s)) sel in
  let r := delete_episodes stuck denied load rebuild ds indices s in
  P ≠ [] -> (forall q, beside ds q -> stuck q = false) ->
  (reb.2 = Ok tt -> reb.1 ≠ ∅) ->
  (indices = [] \/ Exists (fun i => i < 0 \/ ds_num_episodes ds <= i) indices -> r = (s, Raised ValueError)) /\
  (indices ≠ [] -> Forall (fun i => 0 <= i < ds_num_episodes ds) indices ->
    if decide (ds_num_episodes ds <= Z.of_nat (length sel))
    then r = (Store (st_env s) (remove_tree P (st_tree s)) (st_root s), Returned "dataset-removed")
    else
      (forall q, beside ds q -> st_tree r.1 !! q = None) /\
      (forall q, ~ beside ds q -> strip_path P q = None -> st_tree r.1 !! q = st_tree s !! q) /\
      (forall k, dget k (st_env r.1) = dget k (st_env s)) /\
      match r.2 with
      | Returned m => m = "reindexed" /\ subtree P (st_tree r.1) = reb.1 /\ reb.2 = Ok tt
      | Raised _ => subtree P (st_tree r.1) = subtree P (st_tree s) \/
                    (second_rename_refused ds sel s /\ subtree P (st_tree r.1) = ∅)
      | Running => False
      end).
Proof.
  cbv zeta. intros HP Hrm Hne. unfold delete_episodes. set (sel := py_sorted Z.leb (remove_dups indices)) in *.
  assert (forall i, i ∈ sel <-> i ∈ indices) as Hsel.
  { intros i. unfold sel. by rewrite elem_of_py_sorted, elem_of_remove_dups. }
  clearbody sel. split.
  - intros Hbad. destruct sel as [|x sel'] eqn:Es; [done|]. rewrite <-Es in *.
    replace (existsb _ sel) with true; [done|]. symmetry. apply existsb_exists.
    destruct Hbad as [->|(i & Hi & Hb)%Exists_exists]; [exfalso; apply (not_elem_of_nil x), Hsel; rewrite Es; left|].
    exists i. split; [by apply list_elem_of_In, Hsel|]. lia.
  - intros Hn Hall. destruct sel as [|x sel'] eqn:Es.
    { destruct indices as [|i l]; [done|]. exfalso. apply (not_elem_of_nil i), Hsel. left. }
    rewrite <-Es in *. replace (existsb _ sel) with false.
    2: { symmetry. apply not_true_is_false. intros (i & Hi%list_elem_of_In%Hsel & Hb)%existsb_exists.
         eapply Forall_forall in Hall; [|exact Hi]. cbn beta in Hall. lia. }
    destruct (decide _) as [Hle|Hlt].
    + by replace (ds_num_episodes ds <=? Z.of_nat (length sel)) with true by lia.
    + replace (ds_num_episodes ds <=? Z.of_nat (length sel)) with false by lia.
      pose proof (swap_in_spec ds HP Hrm sel s Hne) as (H1 & H2 & H3 & H4).
      unfold mbind, st_bind. destruct (swap_in _ _ _ _ _ _ s) as [s' [[]|e|]]; cbn [fst snd] in *; [|done|done].
      destruct H4 as (H4 & _ & H5). by split_and!.
Qed.
End deletion_lemmas.

(** ** Discovery and listing *)

(** Sorting by a total order gives a sorted list. *)
Section sorting.
Context {A : Type} (leb : A -> A -> bool) (Htotal : forall a b, leb a b = false -> leb b a = true).
Abbreviation R := (fun a b => leb a b = true).

Lemma insert_hd x y l : leb y x = true -> Sorted.HdRel R y l -> Sorted.HdRel R y (insert_sorted leb x l).
Proof. intros Hyx Hl. destruct Hl as [|z l Hz]; simpl; [by constructor|]. destruct (leb x z); by constructor. Qed.

Lemma insert_keeps_sorted x l : Sorted.Sorted R l -> Sorted.Sorted R (insert_sorted leb x l).
Proof.
  induction 1 as [|y l Hl IH Hy]; simpl; [by repeat constructor|].
  destruct (leb x y) eqn:E; [by repeat constructor|]. constructor; [done|]. apply insert_hd; auto.
Qed.

Lemma py_sorted_ordered l : Sorted.Sorted R (py_sorted leb l).
Proof. induction l; simpl; [constructor|]. by apply insert_keeps_sorted. Qed.
End sorting.

Lemma str_leb_total a b : str_leb a b = false -> str_leb b a = true.
Proof.
  revert b. induction a as [|x a IH]; intros [|y b]; simpl; try done.
  destruct (nat_of_ascii x <? nat_of_ascii y)%nat eqn:E1; [done|].
  destruct (nat_of_ascii y <? nat_of_ascii x)%nat eqn:E2; [done|]. apply IH.
Qed.

Section discovery_lemmas.
Context (float_of_str : string -> option f64).

Lemma info_dir_Some root q rel : info_dir root q = Some rel <-> q = root ++ rel ++ ["meta"; "info.json"].
Proof.
  unfold info_dir. split.
  - intros (r & Hs%strip_path_Some & Hr)%bind_Some. destruct (decide _) as [E|]; [|done]. injection Hr as <-.
    by rewrite <-E, take_drop.
  - intros ->. rewrite strip_path_app. simpl. rewrite length_app. simpl.
    replace (length rel + 2 - 2)%nat with (length rel) by lia. rewrite drop_app_length, take_app_length.
    by rewrite decide_True.
Qed.

Lemma read_dataset_fields t repo_id dir info d :
  read_dataset float_of_str t repo_id dir info = Ok d ->
  ds_repo_id d = repo_id /\ ds_path d = dir /\ ds_size_bytes d = dir_size dir t.
Proof. unfold read_dataset. intros H. res_simp. done. Qed.

(** The datasets found are exactly the readable ones: each directory below the root (or the root
    itself) with a readable [meta/info.json], named by its path relative to the root, ordered by
    name; an unreadable one hides no other. *)
Theorem discover_exact root t :
  let l := discover_datasets float_of_str root t in
  Sorted.Sorted (fun a b => str_leb (ds_repo_id a) (ds_repo_id b) = true) l /\
  (forall d, d ∈ l <-> exists rel f,
    t !! (root ++ rel ++ ["meta"; "info.json"]) = Some f /\
    read_dataset float_of_str t (repo_id_of rel) (root ++ rel) (f_json f) = Ok d) /\
  (forall d, d ∈ l -> exists rel, ds_path d = root ++ rel /\ ds_repo_id d = repo_id_of rel).
Proof.
  cbv zeta. unfold discover_datasets.
  assert (forall d, d ∈ omap (read_at float_of_str t root) (map_to_list t) <-> exists rel f,
    t !! (root ++ rel ++ ["meta"; "info.json"]) = Some f /\
    read_dataset float_of_str t (repo_id_of rel) (root ++ rel) (f_json f) = Ok d) as H.
  { intros d. rewrite list_elem_of_omap. split.
    - intros ([q f] & Hq%elem_of_map_to_list & Hr). unfold read_at in Hr.
      apply bind_Some in Hr as (rel & Hi%info_dir_Some & Hr). cbn in Hi. subst q. exists rel, f. split; [done|].
      cbn [snd] in Hr. destruct (read_dataset _ _ _ _ _); [by injection Hr as ->|done].
    - intros (rel & f & Hf & Hr). exists (root ++ rel ++ ["meta"; "info.json"], f).
      split; [by apply elem_of_map_to_list|]. unfold read_at. cbn [fst snd].
      rewrite (proj2 (info_dir_Some _ _ rel) eq_refl). simpl. by rewrite Hr. }
  split_and!.
  - apply (py_sorted_ordered (fun a b => str_leb (ds_repo_id a) (ds_repo_id b))). intros a b. apply str_leb_total.
  - intros d. rewrite elem_of_py_sorted. apply H.
  - intros d. rewrite elem_of_py_sorted. intros (rel & f & _ & Hr%read_dataset_fields)%H. exists rel. tauto.
Qed.
End discovery_lemmas.

Section listing_lemmas.
Context (str_of : json -> string) (video_file_path : Z -> json -> res string)
  (resolve : string -> res string) (stat_size : string -> res Z).
Abbreviation videos_of := (episode_videos video_file_path resolve stat_size).
Abbreviation row_of_json := (episode_row str_of video_file_path resolve stat_size).

Definition key_is_str (v : json) : Prop := exists s, v = jstr s.

(** A missing or foreign video is left out; it never fails the episode. *)
Lemma episode_videos_total ds index : Forall key_is_str (ds_video_keys ds) -> exists vs, videos_of ds index = Ok vs.
Proof.
  intros Hk. unfold episode_videos.
  enough (exists l, mapM_res (episode_video video_file_path resolve stat_size ds index) (ds_video_keys ds) = Ok l) as [l ->]
    by (by eexists).
  induction Hk as [|k ks [s ->] Hk [l IH]]; simpl; [by eexists|].
  assert (exists o, episode_video video_file_path resolve stat_size ds index (jstr s) = Ok o) as [o ->].
  { unfold episode_video. destruct (let? rel := _ in _) as [[p n]|]; [|by eexists]. destruct (negb _); by eexists. }
  rewrite IH. by eexists.
Qed.

(** What a row needs to be listed. *)
Definition good_row (row : json) : Prop := exists o index len,
  row = Obj o /\ dget "episode_index" o = Some (jint index) /\ dget "length" o = Some (jint len) /\
  is_finite (f_of_Z len) = true /\ (forall v, dget "tasks" o = Some v -> v = jnull \/ exists l, v = Arr l).

Lemma episode_row_total ds fps row : Forall key_is_str (ds_video_keys ds) -> good_row row ->
  exists e, row_of_json ds fps row = Ok e.
Proof.
  intros Hk (o & index & len & -> & Hi & Hl & Hf & Ht). unfold episode_row. cbn [subscript jget]. rewrite Hi, Hl.
  destruct (episode_videos_total ds index Hk) as [vs Hv]. cbn [of_option res_bind jint jint_of py_int].
  assert (exists ts, list_of (py_or (default jnull (dget "tasks" o)) (Arr [])) = Ok ts) as [ts ->].
  { destruct (dget "tasks" o) as [v|]; [|by eexists]. destruct (Ht v eq_refl) as [->|[l ->]]; [by eexists|]. destruct l; by eexists. }
  unfold float_of_int. rewrite Hf. cbn [res_bind]. rewrite Hv. by eexists.
Qed.

(** A dataset whose metadata loads lists every episode, oldest first, whatever videos are missing;
    metadata that does not load is a [ValueError]; a dataset without episodes is not loaded. *)
Theorem list_episodes_complete ds meta :
  Forall key_is_str (ds_video_keys ds) -> (forall fps rows, meta = Ok (fps, rows) -> Forall good_row rows) ->
  match list_episodes str_of video_file_path resolve stat_size ds meta with
  | Raise e => e = ValueError /\ 0 < ds_num_episodes ds /\ exists e', meta = Raise e'
  | Ok l => (ds_num_episodes ds <= 0 /\ l = []) \/ (0 < ds_num_episodes ds /\ exists fps rows eps,
      meta = Ok (fps, rows) /\ l ≡ₚ eps /\ Sorted.Sorted (fun a b => (ei_index a <=? ei_index b) = true) l /\
      Forall2 (fun row e => row_of_json ds (if feq fps f0 then f1 else fps) row = Ok e) rows eps)
  end.
Proof.
  intros Hk Hm. unfold list_episodes. destruct (ds_num_episodes ds <=? 0) eqn:En; [left; split; [lia|done]|].
  destruct meta as [[fps rows]|e]; [|split_and!; [done|lia|by eexists]]. cbv zeta.
  set (fps' := if feq fps f0 then f1 else fps).
  assert (exists eps, mapM_res (row_of_json ds fps') rows = Ok eps) as [eps He].
  { specialize (Hm _ _ eq_refl). clear -Hm Hk. induction Hm as [|row rows Hr Hm [l IH]]; [by eexists|]. cbn [mapM_res].
    destruct (episode_row_total ds fps' row Hk Hr) as [e ->]. cbn [res_bind]. rewrite IH. by eexists. }
  rewrite He. cbn [res_map]. right. split; [lia|]. exists fps, rows, eps. split_and!; [done|apply py_sorted_perm| |].
  - apply (py_sorted_ordered (fun a b => ei_index a <=? ei_index b)). lia.
  - by apply mapM_res_Forall2.
Qed.
End listing_lemmas.

(** Exported video names hold no separator, quote or blank. *)
Lemma video_filename_chars repo i label : 0 <= i -> all_chars name_char (video_filename repo i label) = true.
Proof.
  intros Hi. unfold video_filename.
  assert (forall d s, all_chars name_char d = true -> all_chars name_char (clean_or d s) = true) as Hc.
  { intros d s Hd. unfold clean_or. cbv zeta. case_bool_decide; [done|].
    apply rstrip_spec, lstrip_spec, dash_from_chars. }
  replace (i <? 0) with false by lia.
  assert (all_chars name_char (pad_digits 4 (str_of_int i)) = true) as Hp.
  { unfold pad_digits. rewrite all_chars_app. apply andb_true_iff. split.
    - destruct (4 - String.length (str_of_int i))%nat as [|[|[|[|n]]]] eqn:E; try done. destruct n; [done|lia].
    - pose proof (str_of_int_isdigit i Hi) as Hd. apply andb_true_iff in Hd as [_ Hd]. revert Hd.
      apply all_chars_weaken. intros c Hc'. unfold name_char, alnum_char. rewrite Hc'. by rewrite !orb_true_r. }
  rewrite !all_chars_app, !Hc, Hp by done. done.
Qed.

(** ** Witnesses *)

Definition demo_file (n : Z) : dfile := DFile (Ok (Obj [("total_episodes", jint 2); ("fps", jint 30)])) (Ok n).

Definition demo_root : path := ["data"].
Definition demo_tree : tree :=
  <[["data"; "pick"; "meta"; "info.json"] := demo_file 10]>
  (<[["data"; "pick"; "ep0"] := demo_file 20]> (<[["data"; "other"] := demo_file 30]> ∅)).
Definition demo_store : store := Store [("HOME", "/root")] demo_tree (Some demo_root).
Definition demo_ds : DatasetInfo := Dataset "pick" ["data"; "pick"] 2 40 (f_of_Z 30) [] 30.
Definition demo_rebuilt : tree := <[["meta"; "info.json"] := demo_file 5]> ∅.

Lemma delete_episodes_atomic_witness :
  let r := delete_episodes (fun _ => false) (fun _ _ => false) (fun _ => Ok tt) (fun _ _ => (demo_rebuilt, Ok tt))
    demo_ds [1; 1] demo_store in
  r.2 = Returned "reindexed" /\ subtree ["data"; "pick"] (st_tree r.1) = demo_rebuilt /\
  st_tree r.1 !! ["data"; "other"] = Some (demo_file 30).
Proof.
  set (r := delete_episodes _ _ _ _ demo_ds [1; 1] demo_store). cbv zeta.
  destruct (delete_episodes_atomic (fun _ => false) (fun _ _ => false) (fun _ => Ok tt) (fun _ _ => (demo_rebuilt, Ok tt))
    demo_ds [1; 1] demo_store) as [_ H]; [discriminate|intros; reflexivity|discriminate|].
  specialize (H ltac:(discriminate) ltac:(repeat constructor; reflexivity || discriminate)).
  rewrite decide_False in H by (vm_compute; intros E; apply E; reflexivity).
  destruct H as (_ & H2 & _ & H4). fold r in H2, H4.
  assert (r.2 = Returned "reindexed") as Hr by (vm_compute; reflexivity). rewrite Hr in H4.
  split; [exact Hr|]. split; [apply H4|]. rewrite H2; [reflexivity| |reflexivity].
  intros [E|E]; apply E; reflexivity.
Defined.

(** When the second rename is refused the clean-up removes both the rebuilt dataset and the original
    that was moved aside: every episode is lost. *)
Lemma delete_loses_dataset : exists denied,
  let r := delete_episodes (fun _ => false) denied (fun _ => Ok tt) (fun _ _ => (demo_rebuilt, Ok tt))
    demo_ds [1] demo_store in
  r.2 = Raised OSError /\ st_tree r.1 = {[ ["data"; "other"] := demo_file 30 ]}.
Proof.
  exists (fun src _ => bool_decide (src = ["data"; "pick.__editing__"])). cbv zeta. split; vm_compute; reflexivity.
Qed.

Lemma demo_discovers : ds_repo_id <$> discover_datasets (fun _ => None) demo_root demo_tree = ["pick"].
Proof. vm_compute. reflexivity. Qed.

Definition demo_row (i : Z) : json := Obj [("episode_index", jint i); ("length", jint 30); ("tasks", Arr [jstr "pick"])].

Lemma list_episodes_complete_witness : exists l,
  list_episodes (fun _ => "") (fun _ _ => Raise KeyError) Ok (fun _ => Ok 0) demo_ds
    (Ok (f_of_Z 30, [demo_row 1; demo_row 0])) = Ok l /\ length l = 2%nat.
Proof.
  assert (forall i, good_row (demo_row i)) as Hrow.
  { intros i. exists [("episode_index", jint i); ("length", jint 30); ("tasks", Arr [jstr "pick"])], i, 30.
    split_and!; try reflexivity. intros v [= <-]. right. eexists. reflexivity. }
  pose proof (list_episodes_complete (fun _ => "") (fun _ _ => Raise KeyError) Ok (fun _ => Ok 0) demo_ds
    (Ok (f_of_Z 30, [demo_row 1; demo_row 0])) ltac:(constructor)
    ltac:(intros ? ? [= <- <-]; repeat constructor; apply Hrow)) as H.
  destruct (list_episodes _ _ _ _ demo_ds _) as [l|e]; [|destruct H as (_ & _ & e' & H); discriminate].
  exists l. split; [reflexivity|]. destruct H as [[Hn _]|(_ & fps & rows & eps & Hm & Hp & _ & H2)]; [vm_compute in Hn; congruence|].
  injection Hm as <- <-. rewrite Hp. symmetry. apply (Forall2_length _ _ _ H2).
Defined.

Lemma demo_sizes : human_size 512 = Ok "512 B" /\ human_size 1536 = Ok "1.5 KB" /\ human_size (5 * 1024 ^ 5) = Ok "5120.0 TB".
Proof. split_and!; vm_compute; reflexivity. Qed.
