(* ===== verification/ViewerStreams.v ===== *)
(** * The live viewers: streams and connection

    Models [visualization/schema.py] and what [viser/consumer.py] and [plotly_dash/consumer.py]
    have in common: finding the newest run with live streams, attaching and dropping readers,
    sampling, and releasing everything at the end.  What a viewer does with a sample is a [Sink];
    the two consumers are its instances ([ViewerScene], [PlotStore]).  Shared memory is the [world]
    of [Streams]; clocks, directory listings and signal probes are inputs. *)

From Stdlib Require Import SpecFloat Ascii String.
From S2P Require Import Prelude Float64 Ring Streams Process Text Session Json LiveView.
Local Open Scope string_scope.
Local Open Scope list_scope.
Local Open Scope Z_scope.

(** ** Routes ([visualization/schema.py]) *)

Definition SIDES : list string := ["left"; "right"].

Inductive route_kind := KProprio | KFactr | KHorizon | KPolicy | KCamera.

#[export] Instance route_kind_eq_dec : EqDecision route_kind.
Proof. solve_decision. Defined.

Record StreamRoute := Route { rt_kind : route_kind; rt_side : option string; rt_signal : string }.

#[export] Instance StreamRoute_eq_dec : EqDecision StreamRoute.
Proof. solve_decision. Defined.

Definition telemetry_fields : list string := TELEMETRY_VECTOR_FIELDS ++ TELEMETRY_SCALAR_FIELDS.

Definition mem (x : string) (l : list string) : bool := bool_decide (x ∈ l).

Definition parse_stream_name (name : string) : res StreamRoute :=
  match py_split "/" name with
  | [a; b] =>
      if mem a SIDES && mem b PROPRIO_SIGNALS then Ok (Route KProprio (Some a) b)
      else if bool_decide (a = "factr") && mem b SIDES then Ok (Route KFactr (Some b) "leader")
      else if bool_decide (name = "eval/policy_comm") then Ok (Route KPolicy None "comm")
      else Raise ValueError
  | [a; b; c] =>
      if bool_decide (a = "factr") && bool_decide (b = "raw") && mem c SIDES then Ok (Route KFactr (Some c) "raw")
      else if bool_decide (a = "eval") && mem b SIDES && mem c ["q_horizon"; "eef_horizon"]
      then Ok (Route KHorizon (Some b) c)
      else if bool_decide (a = "cam") then Ok (Route KCamera (Some b) c)
      else Raise ValueError
  | [a; b; c; d] =>
      if bool_decide (a = "factr") && bool_decide (b = "telemetry") && mem c SIDES && mem d telemetry_fields
      then Ok (Route KFactr (Some c) d)
      else Raise ValueError
  | _ => Raise ValueError
  end.

Definition is_float_dtype (d : jval) : bool :=
  match d with JStr s => mem s ["float32"; "float64"] | _ => false end.

Definition entry_matches (r : StreamRoute) (e : RegistryEntry) : bool :=
  if bool_decide (rt_kind r = KCamera) then 0 <? e_dim e
  else if negb (is_float_dtype (e_dtype e)) || (e_dim e <=? 0) then false
  else if bool_decide (rt_kind r = KProprio) && bool_decide (rt_signal r = "eef") then 3 <=? e_dim e
  else if bool_decide (rt_kind r = KPolicy) then e_dim e =? 3
  else true.

Definition scene_stream_names (sides camera_names : list string) : list string :=
  (sides ≫= fun side =>
    [side +:+ "/q"; side +:+ "/eef"; factr_stream_name side; factr_telemetry_stream_name side "model_q_rad";
     HORIZON_STREAM side; EEF_HORIZON_STREAM side]) ++
  (camera_names ≫= fun camera => ["cam/" +:+ camera +:+ "/left"; "cam/" +:+ camera +:+ "/depth"]).

Definition plot_stream_names (sides : list string) : list string :=
  (sides ≫= proprio_stream_names) ++
  (sides ≫= fun side => [factr_stream_name side; raw_factr_stream_name side] ++
     (factr_telemetry_stream_name side <$> telemetry_fields)) ++ [POLICY_COMM_STREAM].

(** [list(dict.fromkeys(l))]: first occurrences. *)
Definition fromkeys (l : list string) : list string := dkeys (foldl (fun d k => dset k tt d) [] l).

Definition default_stream_names (sides camera_names : list string) : list string :=
  fromkeys (plot_stream_names sides ++ scene_stream_names sides camera_names).

(** ** Liveness *)

Definition MIN_STALE_AFTER_S : f64 := f_of_Z 5.
Definition STALE_PERIODS : f64 := f_of_Z 10.

(** [entry.rate_hz if entry.rate_hz and entry.rate_hz > 0 else None]. *)
Definition positive_rate (v : jval) : res (option f64) :=
  match v with
  | JNull => Ok None
  | JBool b => Ok (if b then Some f1 else None)
  | JInt z => if 0 <? z then res_map Some (float_of_int z) else Ok None
  | JFloat x => Ok (if flt f0 x then Some x else None)
  | JStr s => if bool_decide (s = "") then Ok None else Raise TypeError
  end.

(** [int(stale_after * 1e9)]. *)
Definition stale_after_ns (v : jval) : res Z :=
  let? rate := positive_rate v in
  let s := match rate with
           | Some r => pmax MIN_STALE_AFTER_S (fdiv STALE_PERIODS r)
           | None => MIN_STALE_AFTER_S
           end in
  let x := fmul s (f_of_Z 1000000000) in
  of_option (if is_nan x then ValueError else OverflowError) (f_trunc x).

Section probe.
(** [os.kill(pid, 0)]: true when the process exists, false when it does not; anything else raises. *)
Context (w : world) (pid_live : Z -> res bool) (now_ns : Z).

(** [_entry_is_live]. *)
Definition entry_is_live (e : RegistryEntry) : res bool :=
  let? up := pid_live (e_pid e) in
  if negb up then Ok false
  else
    match (let? rd := reader_attach w e in reader_last w rd 1) with
    | Raise _ => Ok false
    | Ok s =>
        match newest_t_ns s with
        | None => Ok true
        | Some t => let? bound := stale_after_ns (e_rate_hz e) in Ok (now_ns - t <=? bound)
        end
    end.

(** The entry counts: a horizon stream by its process alone where [by_pid] says so. *)
Definition counts (by_pid : StreamRoute -> bool) (r : StreamRoute) (e : RegistryEntry) : res bool :=
  if negb (entry_matches r e) then Ok false
  else if by_pid r then pid_live (e_pid e) else entry_is_live e.

(** The live entries of one run, in the order of the viewer's stream names. *)
Fixpoint live_entries (by_pid : StreamRoute -> bool) (entries : list (jval * RegistryEntry))
    (routes : list (string * StreamRoute)) : res (list (string * RegistryEntry)) :=
  match routes with
  | [] => Ok []
  | (name, r) :: routes =>
      let? ok := match dget (JStr name) entries with Some e => counts by_pid r e | None => Ok false end in
      let? rest := live_entries by_pid entries routes in
      Ok (match dget (JStr name) entries with Some e => if ok then (name, e) :: rest else rest | None => rest end)
  end.

Fixpoint first_live (by_pid : StreamRoute -> bool) (routes : list (string * StreamRoute)) (runs : list string) :
    res (option (string * list (string * RegistryEntry))) :=
  match runs with
  | [] => Ok None
  | run :: runs =>
      let? entries := discover w (Registry run "streams") in
      let? live := live_entries by_pid entries routes in
      match live with [] => first_live by_pid routes runs | _ => Ok (Some (run, live)) end
  end.

(** [_newest_live_run]; [dirs] is [None] when the runtime directory cannot be listed. *)
Definition newest_live_run (by_pid : StreamRoute -> bool) (routes : list (string * StreamRoute))
    (dirs : option (list run_dir)) : res (option (string * list (string * RegistryEntry))) :=
  match dirs with None => Ok None | Some l => first_live by_pid routes (newest_first l) end.
End probe.

(** ** Sinks *)

(** What taking a sample does: nothing new, the stream is lost, an exception ends the viewer, or
    the sink changes and the sequence number is remembered. *)
Inductive taken (K : Type) :=
  | Unchanged
  | LostStream
  | CrashedWith (e : exn)
  | Took (seq : option Z) (k : K).

Arguments Unchanged {K}.
Arguments LostStream {K}.
Arguments CrashedWith {K} e.
Arguments Took {K} seq k.

(** What a consumer does with its streams. *)
Class Sink (K : Type) := {
  sk_detach : K -> K;
  sk_attach : string -> K -> K;
  sk_forget : string -> K -> K;
  sk_take : world -> string -> StreamRoute -> StreamReader -> option Z -> K -> taken K;
  sk_keys : K -> list string;
}.

(** ** The connection *)

Inductive reader_event := Opened (name : string) (rd : StreamReader) | Closed (name : string) (rd : StreamReader).

Record conn (K : Type) := Conn {
  cn_readers : list (string * StreamReader);
  cn_run : option string;
  cn_seq : list (string * Z);
  cn_next : f64;
  cn_sink : K;
  cn_log : list reader_event;
}.

Arguments Conn {K} _ _ _ _ _ _.
Arguments cn_readers {K} _.
Arguments cn_run {K} _.
Arguments cn_seq {K} _.
Arguments cn_next {K} _.
Arguments cn_sink {K} _.
Arguments cn_log {K} _.

Definition DISCOVERY_PERIOD_S : f64 := f1.

Section connection.
Context {K : Type} `{Sink K}.
Implicit Types c : conn K.

Definition new_conn (k : K) : conn K := Conn [] None [] f0 k [].

Definition close_events (l : list (string * StreamReader)) : list reader_event := (fun x => Closed x.1 x.2) <$> l.

(** [_close_readers] and the assignments after it. *)
Definition drop_run (run : option string) (c : conn K) : conn K :=
  Conn [] run [] (cn_next c) (cn_sink c) (cn_log c ++ close_events (cn_readers c)).

(** [readers.pop(name).close()] and the entries kept for it. *)
Definition drop_reader (c : conn K) (name : string) : conn K :=
  match dget name (cn_readers c) with
  | None => c
  | Some rd =>
      Conn (ddel name (cn_readers c)) (cn_run c) (ddel name (cn_seq c)) (cn_next c) (sk_forget name (cn_sink c))
        (cn_log c ++ [Closed name rd])
  end.

(** Whether the reader still reads the published segment. *)
Definition current (entries : list (string * RegistryEntry)) (x : string * StreamReader) : bool :=
  match dget x.1 entries with
  | None => false
  | Some e => bool_decide (e_shm_name (rd_entry x.2) = e_shm_name e)
  end.

Definition open_reader (w : world) (c : conn K) (x : string * RegistryEntry) : conn K :=
  if dmem x.1 (cn_readers c) then c
  else match reader_attach w x.2 with
       | Raise _ => c
       | Ok rd => Conn (dset x.1 rd (cn_readers c)) (cn_run c) (cn_seq c) (cn_next c) (cn_sink c)
                    (cn_log c ++ [Opened x.1 rd])
       end.

(** [_sync_readers]. *)
Definition sync_readers (w : world) (entries : list (string * RegistryEntry)) (c : conn K) : conn K :=
  let stale := (List.filter (fun x => negb (current entries x)) (cn_readers c)).*1 in
  foldl (open_reader w) (foldl drop_reader c stale) entries.

(** The discovery step of the loop. *)
Definition apply_discovery (w : world) (found : option (string * list (string * RegistryEntry))) (c : conn K) : conn K :=
  match found with
  | None => let c := drop_run None c in Conn (cn_readers c) (cn_run c) (cn_seq c) (cn_next c) (sk_detach (cn_sink c)) (cn_log c)
  | Some (run, entries) =>
      let c := if bool_decide (cn_run c = Some run) then c
               else let c := drop_run (Some run) c in
                    Conn (cn_readers c) (cn_run c) (cn_seq c) (cn_next c) (sk_attach run (cn_sink c)) (cn_log c) in
      sync_readers w entries c
  end.

(** The pass over the readers: the connection after it and the streams lost. *)
Fixpoint sample_pass (w : world) (routes : list (string * StreamRoute)) (l : list (string * StreamReader))
    (lost : list string) (c : conn K) : conn K * res (list string) :=
  match l with
  | [] => (c, Ok lost)
  | (name, rd) :: l =>
      match dget name routes with
      | None => (c, Raise KeyError)
      | Some r =>
          match sk_take w name r rd (dget name (cn_seq c)) (cn_sink c) with
          | Unchanged => sample_pass w routes l lost c
          | LostStream => sample_pass w routes l (lost ++ [name]) c
          | CrashedWith e => (c, Raise e)
          | Took seq k =>
              sample_pass w routes l lost
                (Conn (cn_readers c) (cn_run c)
                   (match seq with Some s => dset name s (cn_seq c) | None => cn_seq c end) (cn_next c) k (cn_log c))
          end
      end
  end.

(** What one iteration sees. *)
Record viewer_tick := ViewerTick {
  vt_stop : bool;
  vt_now : f64;
  vt_ns : Z;
  vt_world : world;
  vt_dirs : option (list run_dir);
  vt_pid_live : Z -> res bool;
  vt_state : option json;
  vt_commands : list json;
}.

Section loop.
(** The streams and their routes; which are live by their process alone; what is drawn each tick. *)
Context (routes : list (string * StreamRoute)) (by_pid : StreamRoute -> bool)
  (before_tick : viewer_tick -> K -> res K) (render : viewer_tick -> K -> res K).

Definition set_sink (c : conn K) (k : K) : conn K :=
  Conn (cn_readers c) (cn_run c) (cn_seq c) (cn_next c) k (cn_log c).

(** The discovery, when it is due. *)
Definition rediscover (t : viewer_tick) (c : conn K) : conn K * res unit :=
  if bool_decide (cn_readers c = []) || fle (cn_next c) (vt_now t) then
    let c := Conn (cn_readers c) (cn_run c) (cn_seq c) (fadd (vt_now t) DISCOVERY_PERIOD_S) (cn_sink c) (cn_log c) in
    match newest_live_run (vt_world t) (vt_pid_live t) (vt_ns t) by_pid routes (vt_dirs t) with
    | Raise e => (c, Raise e)
    | Ok found => (apply_discovery (vt_world t) found c, Ok tt)
    end
  else (c, Ok tt).

(** One iteration of the loop. *)
Definition viewer_step (t : viewer_tick) (c : conn K) : conn K * res unit :=
  match before_tick t (cn_sink c) with
  | Raise e => (c, Raise e)
  | Ok k =>
      match rediscover t (set_sink c k) with
      | (c, Raise e) => (c, Raise e)
      | (c, Ok _) =>
          match sample_pass (vt_world t) routes (cn_readers c) [] c with
          | (c, Raise e) => (c, Raise e)
          | (c, Ok lost) =>
              let c := foldl drop_reader c lost in
              match render t (cn_sink c) with
              | Raise e => (c, Raise e)
              | Ok k => (set_sink c k, Ok tt)
              end
          end
      end
  end.

Fixpoint viewer_loop (ts : list viewer_tick) : ST (conn K) unit := fun c =>
  match ts with
  | [] => (c, Running)
  | t :: ts =>
      if vt_stop t then (c, Returned tt)
      else match viewer_step t c with
           | (c, Raise e) => (c, Raised e)
           | (c, Ok _) => viewer_loop ts c
           end
  end.

(** [run] from the ready event on: the loop, then the readers are closed whatever ended it. *)
Definition viewer_run (ts : list viewer_tick) : ST (conn K) unit :=
  try_finally (viewer_loop ts) (drop_run None).
End loop.
End connection.

(** ** Routes: lemmas *)

(** The name of a route. *)
Definition route_name (r : StreamRoute) : string :=
  let side := default "" (rt_side r) in
  match rt_kind r with
  | KProprio => py_join "/" [side; rt_signal r]
  | KFactr =>
      if bool_decide (rt_signal r = "leader") then py_join "/" ["factr"; side]
      else if bool_decide (rt_signal r = "raw") then py_join "/" ["factr"; "raw"; side]
      else py_join "/" ["factr"; "telemetry"; side; rt_signal r]
  | KHorizon => py_join "/" ["eval"; side; rt_signal r]
  | KPolicy => "eval/policy_comm"
  | KCamera => py_join "/" ["cam"; side; rt_signal r]
  end.

Ltac split_tests H :=
  repeat match type of H with
  | (if ?b && ?c then _ else _) = _ => destruct b eqn:?; cbn [andb] in H
  | (if ?b then _ else _) = _ => destruct b eqn:?
  end;
  repeat match goal with
  | E : (_ && _) = true |- _ => apply andb_true_iff in E as [? ?]
  | E : bool_decide _ = true |- _ => apply bool_decide_eq_true in E
  end;
  try discriminate H.

Lemma parse_route_name name r : parse_stream_name name = Ok r -> route_name r = name.
Proof.
  unfold parse_stream_name. pose proof (py_split_join "/" name) as Hj.
  destruct (py_split "/" name) as [|a [|b [|c [|d [|? ?]]]]]; try discriminate; intros H; split_tests H; injection H as <-;
    subst; cbn [route_name rt_kind rt_signal rt_side default]; try done.
  assert (d ≠ "leader" /\ d ≠ "raw") as [Hl Hr] by (split; intros ->; discriminate).
  by rewrite !bool_decide_false by done.
Qed.

Lemma py_split_plain sep a : all_chars (fun c => negb (Ascii.eqb c sep)) a = true -> py_split sep a = [a].
Proof.
  induction a as [|c a IH]; simpl; [done|]. intros [Hc%negb_true_iff Ha]%andb_true_iff. by rewrite Hc, IH.
Qed.

Lemma py_split_cons sep a b : all_chars (fun c => negb (Ascii.eqb c sep)) a = true ->
  py_split sep (a +:+ String sep b) = a :: py_split sep b.
Proof.
  induction a as [|c a IH]; simpl; [by rewrite Ascii.eqb_refl|].
  intros [Hc%negb_true_iff Ha]%andb_true_iff. by rewrite Hc, IH.
Qed.

(** A name without a slash. *)
Definition no_slash (s : string) : Prop := all_chars (fun c => negb (Ascii.eqb c "/")) s = true.

Lemma camera_routes camera view : no_slash camera -> no_slash view ->
  parse_stream_name ("cam/" +:+ camera +:+ "/" +:+ view) = Ok (Route KCamera (Some camera) view).
Proof.
  intros Hc Hv. unfold parse_stream_name.
  change ("cam/" +:+ camera +:+ "/" +:+ view) with ("cam" +:+ String "/" (camera +:+ String "/" view)).
  rewrite py_split_cons by done. rewrite py_split_cons by done. by rewrite py_split_plain.
Qed.

Lemma elem_of_fromkeys l n : n ∈ fromkeys l <-> n ∈ l.
Proof.
  unfold fromkeys. enough (forall d : list (string * unit), n ∈ dkeys (foldl (fun d k => dset k tt d) d l) <-> n ∈ dkeys d \/ n ∈ l) as H
    by (rewrite H; set_solver).
  induction l as [|k l IH]; intros d; simpl; [set_solver|]. rewrite IH, elem_of_dkeys_dset, elem_of_cons. tauto.
Qed.

Definition routed (n : string) : bool := match parse_stream_name n with Ok _ => true | Raise _ => false end.

(** The contract of the viewers' stream names: every default name has a route, whatever the cameras
    are called, and no two names share one. *)
Theorem stream_names_route cameras : Forall no_slash cameras ->
  (forall n, n ∈ default_stream_names SIDES cameras -> exists r, parse_stream_name n = Ok r) /\
  (forall n n' r, parse_stream_name n = Ok r -> parse_stream_name n' = Ok r -> n = n').
Proof.
  intros Hcam. split.
  - intros n Hn. unfold default_stream_names in Hn. rewrite elem_of_fromkeys in Hn. unfold scene_stream_names in Hn.
    rewrite app_assoc, elem_of_app in Hn. destruct Hn as [Hn|Hn].
    + assert (forallb routed (plot_stream_names SIDES ++ (SIDES ≫= fun side =>
        [side +:+ "/q"; side +:+ "/eef"; factr_stream_name side; factr_telemetry_stream_name side "model_q_rad";
         HORIZON_STREAM side; EEF_HORIZON_STREAM side])) = true) as Hall by (vm_compute; reflexivity).
      rewrite forallb_forall in Hall. specialize (Hall n (proj1 (list_elem_of_In _ _) Hn)). unfold routed in Hall.
      destruct (parse_stream_name n); [by eexists|done].
    + apply list_elem_of_bind in Hn as (camera & Hn & Hin). eapply Forall_forall in Hcam; [|exact Hin].
      apply elem_of_cons in Hn as [->|Hn]; [|apply list_elem_of_singleton in Hn as ->]; eexists; by apply camera_routes.
  - intros n n' r H1%parse_route_name H2%parse_route_name. congruence.
Qed.

(** ** Discovery: lemmas *)

Section discovery.
Context (w : world) (pid_live : Z -> res bool) (now_ns : Z) (by_pid : StreamRoute -> bool)
  (routes : list (string * StreamRoute)).

(** The entry [e] published for [name] in [run] counts as live. *)
Definition live_in (run name : string) (e : RegistryEntry) : Prop := exists entries r,
  discover w (Registry run "streams") = Ok entries /\ dget (JStr name) entries = Some e /\
  (name, r) ∈ routes /\ counts w pid_live now_ns by_pid r e = Ok true.

Lemma live_entries_spec entries l out : live_entries w pid_live now_ns by_pid entries l = Ok out ->
  forall name e, (name, e) ∈ out <-> exists r, (name, r) ∈ l /\ dget (JStr name) entries = Some e /\
    counts w pid_live now_ns by_pid r e = Ok true.
Proof.
  revert out. induction l as [|[n r] l IH]; intros out H name e; simpl in H.
  - injection H as <-. split; [set_solver|]. intros (r & Hr & _). set_solver.
  - destruct (dget (JStr n) entries) as [e0|] eqn:E.
    + destruct (counts _ _ _ _ r e0) as [ok|] eqn:Ec; [|done]. simpl in H.
      destruct (live_entries _ _ _ _ entries l) as [rest|] eqn:El; [|done]. simpl in H. injection H as <-.
      specialize (IH rest eq_refl name e). destruct ok.
      * rewrite elem_of_cons, IH. split.
        -- intros [[= -> ->]|(r' & ? & ?)]; [exists r|exists r']; set_solver.
        -- intros (r' & [[= -> ->]|Hr']%elem_of_cons & Hg & Hc); [left; congruence|right; eauto].
      * rewrite IH. split; intros (r' & Hr' & Hg & Hc); exists r'; split_and!; try done; [set_solver|].
        apply elem_of_cons in Hr' as [[= -> ->]|]; [congruence|done].
    + simpl in H. destruct (live_entries _ _ _ _ entries l) as [rest|] eqn:El; [|done]. simpl in H. injection H as <-.
      rewrite (IH rest eq_refl). split; intros (r' & Hr' & Hg & Hc); exists r'; split_and!; try done; [set_solver|].
      apply elem_of_cons in Hr' as [[= -> ->]|]; [congruence|done].
Qed.

(** The viewer attaches to the newest run that publishes a live stream, and to all of that run's
    live streams: no newer run has one, and a dead producer's leftovers are never attached to. *)
Theorem newest_live_run_spec dirs found :
  newest_live_run w pid_live now_ns by_pid routes (Some dirs) = Ok found ->
  match found with
  | None => forall run name e, run ∈ newest_first dirs -> ~ live_in run name e
  | Some (run, entries) => exists newer older,
      newest_first dirs = newer ++ run :: older /\ entries ≠ [] /\
      (forall name e, (name, e) ∈ entries <-> live_in run name e) /\
      (forall run' name e, run' ∈ newer -> ~ live_in run' name e)
  end.
Proof.
  unfold newest_live_run. generalize (newest_first dirs) as runs. intros runs. revert found.
  induction runs as [|run runs IH]; intros found; simpl; [intros [= <-]; set_solver|].
  destruct (discover w _) as [entries|] eqn:Ed; [|done]. simpl.
  destruct (live_entries _ _ _ _ entries routes) as [live|] eqn:El; [|done]. simpl.
  assert (forall name e, (name, e) ∈ live <-> live_in run name e) as Hlive.
  { intros name e. rewrite (live_entries_spec _ _ _ El). unfold live_in. split.
    - intros (r & ? & ? & ?). eauto 10.
    - intros (es & r & Hes & ? & ? & ?). rewrite Ed in Hes. injection Hes as <-. eauto. }
  destruct live as [|x live'] eqn:Elv.
  - intros Hf. specialize (IH found Hf). assert (forall name e, ~ live_in run name e) as Hno
      by (intros name e Hl%Hlive; by apply elem_of_nil in Hl).
    destruct found as [[run' es]|].
    + destruct IH as (newer & older & -> & Hne & Hes & Hnew). exists (run :: newer), older. split_and!; try done.
      intros run0 name e [->|Hr]%elem_of_cons; [apply Hno|by apply Hnew].
    + intros run0 name e [->|Hr]%elem_of_cons; [apply Hno|by apply IH].
  - intros [= <-]. exists [], runs. split_and!; [done|done|done|]. set_solver.
Qed.
End discovery.

(** ** The connection: invariant *)

Definition opened_of (l : list reader_event) : list (string * StreamReader) :=
  omap (fun x => match x with Opened n rd => Some (n, rd) | Closed _ _ => None end) l.
Definition closed_of (l : list reader_event) : list (string * StreamReader) :=
  omap (fun x => match x with Closed n rd => Some (n, rd) | Opened _ _ => None end) l.

(** What a sink promises to the connection: it holds data only of the streams it was handed. *)
Class SinkLaws (K : Type) `{Sink K} : Prop := {
  detach_keys k : sk_keys (sk_detach k) = [];
  attach_keys run k : sk_keys (sk_attach run k) = [];
  forget_keys name k n : n ∈ sk_keys (sk_forget name k) -> n ∈ sk_keys k /\ n ≠ name;
  take_keys w name r rd seq k s k' : sk_take w name r rd seq k = Took s k' ->
    forall n, n ∈ sk_keys k' -> n = name \/ n ∈ sk_keys k;
}.

Lemma ddel_perm {V} k (v : V) (d : list (string * V)) : dget k d = Some v -> d ≡ₚ (k, v) :: ddel k d.
Proof.
  induction d as [|[k' v'] d IH]; simpl; [done|]. destruct (decide (k = k')) as [->|]; [by intros [= ->]|].
  intros Hd. rewrite (IH Hd) at 1. apply Permutation_swap.
Qed.

Lemma ddel_keys {V} k k' (d : list (string * V)) : NoDup (dkeys d) -> k' ∈ dkeys (ddel k d) <-> k' ∈ dkeys d /\ k' ≠ k.
Proof.
  intros Hd. split.
  - intros Hk. split; [by eapply elem_of_dkeys_ddel|]. intros ->.
    pose proof (dget_ddel_eq k d Hd) as E. by apply dget_None in E.
  - intros [Hk Hne]. destruct (decide (k' ∈ dkeys (ddel k d))) as [|Hn]; [done|].
    apply dget_None in Hn. rewrite dget_ddel_ne in Hn by done. by apply dget_None in Hn.
Qed.

Lemma NoDup_ddel {V} k (d : list (string * V)) : NoDup (dkeys d) -> NoDup (dkeys (ddel k d)).
Proof.
  induction d as [|[k' v'] d IH]; simpl; [done|]. intros [Hn Hd]%list.NoDup_cons.
  destruct (decide (k = k')); [done|]. simpl. constructor; [|auto]. intros Hin. by apply Hn, elem_of_dkeys_ddel with k.
Qed.

Section invariant.
Context {K : Type} `{SinkLaws K}.
Context (routes : list (string * StreamRoute)) (by_pid : StreamRoute -> bool)
  (before_tick : viewer_tick -> K -> res K) (render : viewer_tick -> K -> res K).
Implicit Types c : conn K.

(** Readers are distinct; nothing is kept for a stream without a reader; every reader ever opened
    is either held or was closed, once. *)
Record conn_ok c : Prop := {
  ok_nodup : NoDup (dkeys (cn_readers c));
  ok_seq : forall n, n ∈ dkeys (cn_seq c) -> n ∈ dkeys (cn_readers c);
  ok_seq_nodup : NoDup (dkeys (cn_seq c));
  ok_sink : forall n, n ∈ sk_keys (cn_sink c) -> n ∈ dkeys (cn_readers c);
  ok_balance : opened_of (cn_log c) ≡ₚ closed_of (cn_log c) ++ cn_readers c;
}.

Lemma closed_of_close_events l : closed_of (close_events l) = l /\ opened_of (close_events l) = [].
Proof. induction l as [|[n rd] l [IH1 IH2]]; [done|]. simpl. by rewrite IH1, IH2. Qed.

Lemma closed_app l l' : closed_of (l ++ l') = closed_of l ++ closed_of l'.
Proof. apply omap_app. Qed.
Lemma opened_app l l' : opened_of (l ++ l') = opened_of l ++ opened_of l'.
Proof. apply omap_app. Qed.

Lemma drop_run_ok run k c : conn_ok c -> sk_keys k = [] -> conn_ok (set_sink (drop_run run c) k).
Proof.
  intros Hok Hk. split; cbn; try (by rewrite ?Hk; set_solver || constructor).
  rewrite closed_app, opened_app. destruct (closed_of_close_events (cn_readers c)) as [-> ->].
  rewrite !app_nil_r. apply ok_balance, Hok.
Qed.

Lemma drop_reader_ok c name : conn_ok c -> conn_ok (drop_reader c name).
Proof.
  intros Hok. unfold drop_reader. destruct (dget name (cn_readers c)) as [rd|] eqn:E; [|done].
  split; cbn [cn_readers cn_seq cn_sink cn_log].
  - by apply NoDup_ddel, ok_nodup.
  - intros n Hn. apply ddel_keys in Hn as [? ?]; [|by apply ok_seq_nodup]. apply ddel_keys; [by apply ok_nodup|].
    split; [by apply ok_seq|done].
  - by apply NoDup_ddel, ok_seq_nodup.
  - intros n [? ?]%forget_keys. apply ddel_keys; [by apply ok_nodup|]. split; [by apply ok_sink|done].
  - rewrite closed_app, opened_app. simpl. rewrite app_nil_r, (ok_balance c Hok).
    rewrite (ddel_perm name rd (cn_readers c) E) at 1. by rewrite <-app_assoc.
Qed.

Lemma open_reader_ok w c x : conn_ok c -> conn_ok (open_reader w c x).
Proof.
  intros Hok. unfold open_reader. destruct (dmem x.1 (cn_readers c)) eqn:E; [done|]. apply dmem_false in E.
  destruct (reader_attach w x.2) as [rd|]; [|done].
  split; cbn [cn_readers cn_seq cn_sink cn_log].
  - by apply NoDup_dset, ok_nodup.
  - intros n Hn. apply elem_of_dkeys_dset. right. by apply ok_seq.
  - by apply ok_seq_nodup.
  - intros n Hn. apply elem_of_dkeys_dset. right. by apply ok_sink.
  - rewrite closed_app, opened_app. simpl. rewrite app_nil_r, (ok_balance c Hok), dkeys_dset_new by done.
    by rewrite app_assoc.
Qed.

Lemma fold_ok {A} (f : conn K -> A -> conn K) l c :
  (forall c x, conn_ok c -> conn_ok (f c x)) -> conn_ok c -> conn_ok (foldl f c l).
Proof. intros Hf. revert c. induction l as [|x l IH]; intros c Hc; simpl; auto. Qed.

Lemma sync_readers_ok w entries c : conn_ok c -> conn_ok (sync_readers w entries c).
Proof. intros Hc. apply fold_ok; [intros; by apply open_reader_ok|]. apply fold_ok; [intros; by apply drop_reader_ok|done]. Qed.

Lemma apply_discovery_ok w found c : conn_ok c -> conn_ok (apply_discovery w found c).
Proof.
  intros Hc. unfold apply_discovery. destruct found as [[run entries]|].
  - apply sync_readers_ok. case_bool_decide; [done|]. apply drop_run_ok; [done|apply attach_keys].
  - apply drop_run_ok; [done|apply detach_keys].
Qed.

Lemma sample_pass_ok w l lost c : conn_ok c -> l ⊆ cn_readers c -> conn_ok (sample_pass w routes l lost c).1.
Proof.
  revert lost c. induction l as [|[name rd] l IH]; intros lost c Hc Hl; [done|]. simpl.
  destruct (dget name routes) as [r|]; [|done].
  destruct (sk_take _ _ _ _ _ _) as [| |e|seq k] eqn:E; [apply IH; set_solver|apply IH; set_solver|done|].
  apply IH; [|cbn; set_solver]. assert (name ∈ dkeys (cn_readers c)) as Hname.
  { apply (list_elem_of_fmap_2 fst _ (name, rd)). apply Hl. left. }
  split; cbn [cn_readers cn_seq cn_sink cn_log].
  - by apply ok_nodup.
  - intros n. destruct seq as [s|]; [rewrite elem_of_dkeys_dset; intros [->|]|]; [done| |]; by apply ok_seq.
  - destruct seq; [apply NoDup_dset|]; by apply ok_seq_nodup.
  - intros n [->|Hn]%(take_keys _ _ _ _ _ _ _ _ E); [done|]. by apply ok_sink.
  - by apply ok_balance.
Qed.

Hypothesis (before_keys : forall t k k', before_tick t k = Ok k' -> sk_keys k' = sk_keys k).
Hypothesis (render_keys : forall t k k', render t k = Ok k' -> sk_keys k' = sk_keys k).

Lemma set_sink_ok c k : conn_ok c -> sk_keys k = sk_keys (cn_sink c) -> conn_ok (set_sink c k).
Proof. intros [] Hk. split; cbn; try done. by rewrite Hk. Qed.

Lemma rediscover_ok t c : conn_ok c -> conn_ok (rediscover routes by_pid t c).1.
Proof.
  intros Hc. unfold rediscover. destruct (_ || _); [|done].
  assert (conn_ok (Conn (cn_readers c) (cn_run c) (cn_seq c) (fadd (vt_now t) DISCOVERY_PERIOD_S) (cn_sink c) (cn_log c)))
    as Hc' by (destruct Hc; by split).
  destruct (newest_live_run _ _ _ _ _ _); [by apply apply_discovery_ok|done].
Qed.

Lemma viewer_step_ok t c : conn_ok c -> conn_ok (viewer_step routes by_pid before_tick render t c).1.
Proof.
  intros Hc. unfold viewer_step. destruct (before_tick t (cn_sink c)) as [k|] eqn:Eb; [|done].
  assert (conn_ok (set_sink c k)) as H1 by (by eapply set_sink_ok, before_keys).
  pose proof (rediscover_ok t _ H1) as H2. destruct (rediscover _ _ _ _) as [c2 [[]|e]]; [|done]. cbn [fst] in H2.
  pose proof (sample_pass_ok (vt_world t) (cn_readers c2) [] c2 H2 ltac:(done)) as H3.
  destruct (sample_pass _ _ _ _ _) as [c3 [lost|e]]; [|done]. cbn [fst] in H3.
  assert (conn_ok (foldl drop_reader c3 lost)) as H4 by (apply fold_ok; [intros; by apply drop_reader_ok|done]).
  destruct (render t _) as [k'|] eqn:Er; [|done]. cbn [fst]. by eapply set_sink_ok, render_keys.
Qed.

Lemma viewer_loop_ok ts : keeps conn_ok (viewer_loop routes by_pid before_tick render ts).
Proof.
  induction ts as [|t ts IH]; intros c Hc; simpl; [done|]. destruct (vt_stop t); [done|].
  pose proof (viewer_step_ok t c Hc) as Hs. destruct (viewer_step _ _ _ _ t c) as [c' [[]|e]]; [by apply IH|done].
Qed.

Lemma new_conn_ok k : sk_keys k = [] -> conn_ok (new_conn k).
Proof. intros Hk. split; cbn; rewrite ?Hk; set_solver || constructor. Qed.

(** A viewer leaks no reader: from a fresh connection, over any ticks, it holds data only for the
    streams it has a reader of, and when it ends, by the stop event or by any exception, every
    reader it opened was closed exactly once. *)
Theorem viewer_releases k ts c o :
  sk_keys k = [] -> viewer_run routes by_pid before_tick render ts (new_conn k) = (c, o) ->
  (forall n, n ∈ sk_keys (cn_sink (viewer_loop routes by_pid before_tick render ts (new_conn k)).1) ->
     n ∈ dkeys (cn_readers (viewer_loop routes by_pid before_tick render ts (new_conn k)).1)) /\
  (o ≠ Running -> opened_of (cn_log c) ≡ₚ closed_of (cn_log c)).
Proof.
  intros Hk Hrun. pose proof (viewer_loop_ok ts _ (new_conn_ok k Hk)) as Hok. split; [by apply ok_sink|].
  unfold viewer_run, try_finally in Hrun.
  assert (forall c', conn_ok c' -> opened_of (cn_log (drop_run None c')) ≡ₚ closed_of (cn_log (drop_run None c'))) as Hd.
  { intros c' Hc'. cbn [cn_log drop_run]. rewrite closed_app, opened_app. destruct (closed_of_close_events (cn_readers c')) as [-> ->].
    rewrite app_nil_r. apply ok_balance, Hc'. }
  destruct (viewer_loop _ _ _ _ ts (new_conn k)) as [c' [[]|e|]]; injection Hrun as <- <-; intros Ho; [by apply Hd..|done].
Qed.
End invariant.

(** ** Witnesses *)

(** A sink that remembers the names of the streams it was handed. *)
Definition name_take (w : world) (name : string) (r : StreamRoute) (rd : StreamReader) (seen : option Z) (k : list string) :
    taken (list string) :=
  match reader_last w rd 1 with
  | Raise _ => LostStream
  | Ok s => if bool_decide (list.last (s_seq s) = seen) then Unchanged else Took (list.last (s_seq s)) (name :: k)
  end.

Definition name_sink : Sink (list string) := {|
  sk_detach _ := []; sk_attach _ _ := []; sk_forget name k := List.filter (fun n => negb (bool_decide (n = name))) k;
  sk_take := name_take; sk_keys k := k;
|}.

Lemma name_laws : @SinkLaws _ name_sink.
Proof.
  split; try done.
  - intros name k n [Hn Hb]%list_elem_of_In%filter_In. apply negb_true_iff, bool_decide_eq_false in Hb.
    split; [by apply list_elem_of_In|done].
  - intros w name r rd seq k s k'. cbn. unfold name_take. repeat case_goal; try done. intros [= <- <-] n. cbn.
    by rewrite elem_of_cons.
Qed.

Definition demo_routes : list (string * StreamRoute) :=
  [("left/q", Route KProprio (Some "left") "q"); ("eval/left/q_horizon", Route KHorizon (Some "left") "q_horizon")].
Definition view_world : world := one_sample empty_world "run" "left/q" 2 [f1; f0] 0.
Definition demo_vtick (stop : bool) (w : world) : viewer_tick :=
  ViewerTick stop f0 0 w (Some [("run", 1)]) (fun _ => Ok true) None [].

Lemma viewer_releases_witness :
  let r := @viewer_run _ name_sink demo_routes (fun _ => false) (fun _ k => Ok k) (fun _ k => Ok k)
    [demo_vtick false view_world; demo_vtick true view_world] (@new_conn (list string) []) in
  length (opened_of (cn_log r.1)) = 1%nat /\ opened_of (cn_log r.1) ≡ₚ closed_of (cn_log r.1).
Proof.
  cbv zeta. destruct (@viewer_run _ name_sink _ _ _ _ _ _) as [c o] eqn:E. split.
  - vm_compute in E. injection E as <- _. reflexivity.
  - refine (proj2 (@viewer_releases _ name_sink name_laws demo_routes (fun _ => false) (fun _ k => Ok k) (fun _ k => Ok k)
      _ _ [] _ c o eq_refl E) _).
    + intros t k k' [= ->]. reflexivity.
    + intros t k k' [= ->]. reflexivity.
    + vm_compute in E. injection E as _ <-. discriminate.
Defined.

Lemma newest_live_run_spec_witness : exists run entries,
  newest_live_run view_world (fun _ => Ok true) 0 (fun _ => false) demo_routes (Some [("run", 1); ("empty", 2)]) =
    Ok (Some (run, entries)) /\ run = "run" /\
  forall name e, (name, e) ∈ entries <-> live_in view_world (fun _ => Ok true) 0 (fun _ => false) demo_routes run name e.
Proof.
  destruct (newest_live_run view_world (fun _ => Ok true) 0 (fun _ => false) demo_routes (Some [("run", 1); ("empty", 2)]))
    as [[[run entries]|]|] eqn:E; [|vm_compute in E; discriminate E..].
  exists run, entries. split; [reflexivity|]. split; [vm_compute in E; congruence|].
  destruct (newest_live_run_spec _ _ _ _ _ _ _ E) as (newer & older & _ & _ & H & _). exact H.
Defined.

Lemma stream_names_route_witness :
  exists r, parse_stream_name "cam/head/depth" = Ok r /\ rt_side r = Some "head".
Proof.
  destruct (stream_names_route ["head"] ltac:(repeat constructor)) as [H _].
  destruct (H "cam/head/depth") as [r Hr]; [apply (bool_decide_eq_true_1 _); vm_compute; reflexivity|].
  exists r. split; [exact Hr|]. vm_compute in Hr. injection Hr as <-. reflexivity.
Defined.
