(* ===== verification/ViewerScene.v ===== *)
(** * The 3D viewer

    Models the consumer side of [viser/consumer.py] (what is kept per stream, what is drawn, the
    commands, the process handle and the one_live consumer) and [viser/view.py] (session text, events,
    runs).  The calls made to the Viser scene are a log.  The depth clouds are not modelled. *)

From Stdlib Require Import SpecFloat Ascii String.
From S2P Require Import Prelude Float64 Ring Streams Process Text Session Json LiveView ViewerStreams.
Local Open Scope string_scope.
Local Open Scope list_scope.
Local Open Scope Z_scope.

Definition FACTR_MAX_AGE_S : f64 := fdec 1 2.

(** ** What is drawn *)

Definition by_side (A : Type) := list (string * A).

(** One call to the scene. *)
Inductive scene_call :=
  | Followers (q : by_side (list f64))
  | Commands (q : by_side (list f64))
  | Factr (q : by_side (list f64))
  | Targets (target_q real_q : by_side (list f64)) (q_paths : by_side (list (list f64)))
      (target_eef real_eef : by_side (list f64))
  | ClearTargets
  | NoDepth
  | ShowCalibration (side : string) (q : json)
  | ClearCalibration.

(** ** The view ([viser/view.py]) *)

(** Whether a bounded [deque] is the given length: appending drops the oldest. *)
Definition deque_append {A} (maxlen : nat) (x : A) (l : list A) : list A :=
  drop (length (l ++ [x]) - maxlen) (l ++ [x]).

Definition EVENTS_MAX : nat := 64.

Record view := View {
  vw_run : option string;
  vw_events : list string;
  vw_phase_key : option (string * json);
  vw_calls : list scene_call;
}.

Definition call_scene (cs : list scene_call) (v : view) : view :=
  View (vw_run v) (vw_events v) (vw_phase_key v) (vw_calls v ++ cs).

(** [add_event] without the time of day. *)
Definition add_event (message : string) (v : view) : view :=
  View (vw_run v) (deque_append EVENTS_MAX message (vw_events v)) (vw_phase_key v) (vw_calls v).

Definition new_view : view := add_event "Viser 3D stream consumer started; waiting for producers" (View None [] None []).

Definition attach_run (run : string) (v : view) : view :=
  if bool_decide (vw_run v = Some run) then v
  else add_event ("attached shared-memory run `" +:+ run +:+ "`")
         (View (Some run) (vw_events v) (vw_phase_key v) (vw_calls v)).

Definition detach_run (v : view) : view :=
  let v := match vw_run v with
           | Some run => add_event ("stream run `" +:+ run +:+ "` detached") v
           | None => v
           end in
  View None (vw_events v) (vw_phase_key v)
    (vw_calls v ++ [Followers []; Commands []; Factr []; ClearTargets; NoDepth]).

Section view.
(** [str] of a JSON value and [==] on them. *)
Context (str_of : json -> string) (json_eq : json -> json -> bool).

Definition state_get (k : string) (state : option json) : res json :=
  match state with None => Ok jnull | Some s => jget k (py_or s (Obj [])) end.

Definition session_phase (state : option json) : res string :=
  let? s := state_get "state" state in Ok (if truthy s then str_of s else "waiting").

(** [update_session]. *)
Definition update_session (state : option json) (v : view) : res view :=
  let? phase := session_phase state in
  let? task := state_get "task" state in
  let changed := match vw_phase_key v with
                 | Some (p, t) => negb (bool_decide (p = phase) && json_eq t task)
                 | None => false
                 end in
  let v := if changed
           then add_event ("session mode: " +:+ phase +:+ (if truthy task then " · " +:+ str_of task else "")) v
           else v in
  let v := View (vw_run v) (vw_events v) (Some (phase, task)) (vw_calls v) in
  Ok (if bool_decide (phase ∈ ["eval"; "skill"; "saving"]) then v else call_scene [ClearTargets] v).

(** [apply_command]. *)
Definition apply_command (v : view) (command : json) : res view :=
  let? kind := jget "kind" command in
  match kind with
  | Scalar (JStr k) =>
      if bool_decide (k = "event") then
        let? m := match command with Obj o => Ok (default (jstr "") (dget "message" o)) | _ => Raise OtherError end in
        Ok (add_event (str_of m) v)
      else if bool_decide (k = "show_calibration") then
        match command with
        | Obj o =>
            let? side := of_option KeyError (dget "side" o) in
            let? q := of_option KeyError (dget "q" o) in
            Ok (call_scene [ShowCalibration (str_of side) q] v)
        | _ => Raise OtherError
        end
      else if bool_decide (k = "clear_calibration") then Ok (call_scene [ClearCalibration] v)
      else if bool_decide (k = "reset") then Ok (add_event "viewer reset" (call_scene [ClearCalibration; ClearTargets] v))
      else Ok v
  | _ => Ok v
  end.

(** ** The consumer *)

Record scene := Scene {
  sn_newest : list (string * (list f64 * Z));
  sn_paths : by_side (list (list f64));
  sn_view : view;
}.

Definition new_scene : scene := Scene [] [] new_view.

Definition is_q_horizon (r : StreamRoute) : bool :=
  bool_decide (rt_kind r = KHorizon) && bool_decide (rt_signal r = "q_horizon").

(** One stream of the pass. *)
Definition scene_take (w : world) (name : string) (r : StreamRoute) (rd : StreamReader) (seen : option Z) (k : scene) :
    taken scene :=
  match reader_last w rd 1 with
  | Raise _ => LostStream
  | Ok s =>
      match newest s, newest_t_ns s, list.last (s_seq s) with
      | Some v, Some t, Some seq =>
          if bool_decide (seen = Some seq) then Unchanged
          else
            let k' := Scene (dset name (v, t) (sn_newest k)) (sn_paths k) (sn_view k) in
            if is_q_horizon r then
              match reader_all w rd with
              | Raise e => CrashedWith e
              | Ok all => Took (Some seq)
                  (Scene (sn_newest k') (dset (default "" (rt_side r)) (newest_group all) (sn_paths k')) (sn_view k'))
              end
            else Took (Some seq) k'
      | _, _, _ => Unchanged
      end
  end.

(** [newest.pop(name, None)]. *)
Definition dpop {A} (name : string) (d : list (string * A)) : list (string * A) :=
  List.filter (fun x => negb (bool_decide (x.1 = name))) d.

#[global] Instance scene_sink : Sink scene := {|
  sk_detach k := Scene [] [] (detach_run (sn_view k));
  sk_attach run k := Scene [] [] (attach_run run (sn_view k));
  sk_forget name k := Scene (dpop name (sn_newest k)) (sn_paths k) (sn_view k);
  sk_take := scene_take;
  sk_keys k := dkeys (sn_newest k);
|}.
(** [_drain_commands] and [update_session]. *)
Definition scene_before (t : viewer_tick) (k : scene) : res scene :=
  let? v := foldM_res apply_command (vt_commands t) (sn_view k) in
  let? v := update_session (vt_state t) v in
  Ok (Scene (sn_newest k) (sn_paths k) v).

(** [now_ns - t <= max_age_s * 1e9] between an int and a float. *)
Definition within_age (now_ns t : Z) (max_age_s : f64) : bool :=
  let bound := fmul max_age_s (f_of_Z 1000000000) in
  negb (is_nan bound) && negb (int_gt_float (now_ns - t) bound).

(** The newest vectors of one kind of stream, by side. *)
Definition per_side (k : scene) (stream : string -> string) (n : nat) (keep : Z -> bool) : by_side (list f64) :=
  omap (fun side => match dget (stream side) (sn_newest k) with
                    | Some (v, t) => if keep t then Some (side, take n v) else None
                    | None => None
                    end) SIDES.

Definition any_age (t : Z) : bool := true.

(** [state.get("phase") or state.get("state")]. *)
Definition drawn_phase (state : option json) : res json :=
  let? p := state_get "phase" state in
  if truthy p then Ok p else state_get "state" state.

Definition draws_targets (phase : json) : bool :=
  match phase with Scalar (JStr p) => bool_decide (p ∈ ["eval"; "skill"]) | _ => false end.

(** [_render_scene], without the depth cloud. *)
Definition render_scene (max_age_s : f64) (t : viewer_tick) (k : scene) : res scene :=
  let fresh := fun stamp => within_age (vt_ns t) stamp max_age_s in
  let follower_q := per_side k JOINT_POS_STREAM 7 any_age in
  let follower_eef := per_side k (fun side => side +:+ "/eef") 3 any_age in
  let command_q := per_side k factr_stream_name 7 fresh in
  let factr_q := per_side k (fun side => factr_telemetry_stream_name side "model_q_rad") 7 fresh in
  let target_q := per_side k HORIZON_STREAM 7 any_age in
  let target_eef := per_side k EEF_HORIZON_STREAM 3 any_age in
  let? phase := drawn_phase (vt_state t) in
  Ok (Scene (sn_newest k) (sn_paths k)
        (call_scene [Followers follower_q; Commands command_q; Factr factr_q;
           if draws_targets phase then Targets target_q follower_q (sn_paths k) target_eef follower_eef
           else ClearTargets] (sn_view k))).
End view.

(** ** The consumer process *)

(** How far a process has to be pushed before it exits. *)
Inductive exit_on := OnStop | OnTerminate | OnKill | Never.

Record vhandle := VHandle { vh_pid : nat; vh_key : list string * string * Z }.

Record viewer_procs := VProcs {
  vp_handle : option vhandle;
  vp_live : list nat;
  vp_next : nat;
  vp_signals : list (nat * string);
}.

Section processes.
Context (dies : nat -> exit_on).

Definition live (pid : nat) (s : viewer_procs) : bool := bool_decide (pid ∈ vp_live s).
Definition reap_proc (pid : nat) (s : viewer_procs) : viewer_procs :=
  VProcs (vp_handle s) (List.filter (fun p => negb (bool_decide (p = pid))) (vp_live s)) (vp_next s) (vp_signals s).
Definition signal (pid : nat) (what : string) (s : viewer_procs) : viewer_procs :=
  VProcs (vp_handle s) (vp_live s) (vp_next s) (vp_signals s ++ [(pid, what)]).

(** [ViserConsumerHandle.stop]. *)
Definition stop_handle (pid : nat) (s : viewer_procs) : viewer_procs :=
  let s := signal pid "stop" s in
  let s := match dies pid with OnStop => reap_proc pid s | _ => s end in
  if negb (live pid s) then s
  else
    let s := signal pid "terminate" s in
    let s := match dies pid with OnTerminate => reap_proc pid s | _ => s end in
    if negb (live pid s) then s
    else
      let s := signal pid "kill" s in
      match dies pid with OnKill => reap_proc pid s | _ => s end.

(** What the started process does: it is never ready, reports an error, has exited, or runs. *)
Inductive startup := NotReady | Failed | Exited | Up.

(** The start of a new process and its startup checks. *)
Definition launch (key : list string * string * Z) (how : startup) (s : viewer_procs) : viewer_procs * outcome vhandle :=
  let pid := vp_next s in
  let s := VProcs (vp_handle s) (vp_live s ++ [pid]) (S pid) (vp_signals s) in
  match how with
  | NotReady | Failed => (stop_handle pid s, Raised RuntimeError)
  | Exited => (reap_proc pid s, Raised RuntimeError)
  | Up => (VProcs (Some (VHandle pid key)) (vp_live s) (vp_next s) (vp_signals s), Returned (VHandle pid key))
  end.

(** [start_consumer]. *)
Definition start_consumer (key : list string * string * Z) (how : startup) : ST viewer_procs vhandle := fun s =>
  match vp_handle s with
  | Some h =>
      if live (vh_pid h) s then
        if bool_decide (vh_key h = key) then (s, Returned h) else launch key how (stop_handle (vh_pid h) s)
      else launch key how s
  | None => launch key how s
  end.

(** [stop_consumer]. *)
Definition stop_consumer (s : viewer_procs) : viewer_procs :=
  match vp_handle s with
  | None => s
  | Some h => let s := stop_handle (vh_pid h) s in VProcs None (vp_live s) (vp_next s) (vp_signals s)
  end.
End processes.

(** ** Laws of the sink *)

Lemma dkeys_dpop {A} name (d : list (string * A)) n : n ∈ dkeys (dpop name d) <-> n ∈ dkeys d /\ n ≠ name.
Proof.
  unfold dpop, dkeys. rewrite !list_elem_of_fmap. split.
  - intros (x & -> & [Hx Hb]%list_elem_of_In%filter_In). apply negb_true_iff, bool_decide_eq_false in Hb.
    split; [exists x; split; [done|by apply list_elem_of_In]|done].
  - intros [(x & -> & Hx) Hne]. exists x. split; [done|]. apply list_elem_of_In, filter_In.
    split; [by apply list_elem_of_In|]. by apply negb_true_iff, bool_decide_eq_false.
Qed.

#[global] Instance scene_laws : SinkLaws scene.
Proof.
  split; try done.
  - intros name k n Hn. by apply dkeys_dpop.
  - intros w name r rd seq k s k'. cbn [sk_take scene_sink]. unfold scene_take. repeat case_goal; try done;
      intros [= <- <-] n Hn; apply elem_of_dkeys_dset in Hn; tauto.
Qed.

Section scene_lemmas.
Context (str_of : json -> string) (json_eq : json -> json -> bool) (max_age_s : f64).

Lemma scene_before_keys t k k' : scene_before str_of json_eq t k = Ok k' -> sk_keys k' = sk_keys k.
Proof. unfold scene_before. intros H. by res_simp. Qed.

Lemma render_scene_keys t k k' : render_scene max_age_s t k = Ok k' -> sk_keys k' = sk_keys k.
Proof. unfold render_scene. intros H. by res_simp. Qed.

Lemma per_side_spec k stream n keep side q : (side, q) ∈ per_side k stream n keep ->
  exists v t, dget (stream side) (sn_newest k) = Some (v, t) /\ keep t = true /\ q = take n v.
Proof.
  unfold per_side. intros (side' & _ & E)%list_elem_of_omap. destruct (dget _ _) as [[v t]|] eqn:Ed; [|done].
  destruct (keep t) eqn:Ek; [|done]. injection E as <- <-. eauto.
Qed.

(** What the viewer draws is current: followers, commands and leader models come from samples it
    holds, the operator's leader and its model only from samples within the configured age, and
    targets are drawn in evaluation and skill replay alone. *)
Theorem render_scene_current t k k' : render_scene max_age_s t k = Ok k' ->
  exists fq cq mq last, vw_calls (sn_view k') = vw_calls (sn_view k) ++ [Followers fq; Commands cq; Factr mq; last] /\
    (forall side q, (side, q) ∈ fq -> exists v stamp, dget (side +:+ "/q") (sn_newest k) = Some (v, stamp) /\ q = take 7 v) /\
    (forall side q, (side, q) ∈ cq -> exists v stamp, dget ("factr/" +:+ side) (sn_newest k) = Some (v, stamp) /\
       q = take 7 v /\ within_age (vt_ns t) stamp max_age_s = true) /\
    (forall side q, (side, q) ∈ mq -> exists v stamp,
       dget ("factr/telemetry/" +:+ side +:+ "/model_q_rad") (sn_newest k) = Some (v, stamp) /\
       q = take 7 v /\ within_age (vt_ns t) stamp max_age_s = true) /\
    (last = ClearTargets \/ exists phase, drawn_phase (vt_state t) = Ok phase /\ draws_targets phase = true).
Proof.
  unfold render_scene. intros H. res_simp. cbn [sn_view vw_calls call_scene].
  do 4 eexists. split; [reflexivity|]. split_and!.
  - intros side q (v & ts & ? & _ & ->)%per_side_spec. eauto.
  - intros side q (v & ts & ? & ? & ->)%per_side_spec. eauto.
  - intros side q (v & ts & ? & ? & ->)%per_side_spec. eauto.
  - destruct (draws_targets a) eqn:Ed; [right; eauto|by left].
Qed.
End scene_lemmas.

(** ** Processes: lemmas *)

Section process_lemmas.
Context (dies : nat -> exit_on) (Hkill : forall pid, dies pid ≠ Never).

Lemma reap_live p pid s : p ∈ vp_live (reap_proc pid s) <-> p ∈ vp_live s /\ p ≠ pid.
Proof.
  cbn [reap_proc vp_live]. rewrite list_elem_of_In, filter_In, <-list_elem_of_In, negb_true_iff, bool_decide_eq_false. done.
Qed.

Lemma not_live pid s : live pid s = false -> forall p, p ∈ vp_live s <-> p ∈ vp_live s /\ p ≠ pid.
Proof. unfold live. rewrite bool_decide_eq_false. intros Hn p. split; [|by intros []]. intros Hp. split; [done|by intros ->]. Qed.

Lemma reaped_dead pid s : live pid (reap_proc pid s) = false.
Proof. apply bool_decide_eq_false. intros [_ H]%reap_live. done. Qed.

(** Stopping a process that obeys at some level leaves it dead and touches no other. *)
Lemma stop_handle_spec pid s :
  vp_handle (stop_handle dies pid s) = vp_handle s /\ vp_next (stop_handle dies pid s) = vp_next s /\
  (forall p, p ∈ vp_live (stop_handle dies pid s) <-> p ∈ vp_live s /\ p ≠ pid).
Proof.
  specialize (Hkill pid). unfold stop_handle. change (live pid (signal pid "stop" s)) with (live pid s).
  change (live pid (signal pid "terminate" (signal pid "stop" s))) with (live pid s).
  destruct (dies pid) eqn:E; [| | |done].
  - rewrite reaped_dead. cbn [negb]. split_and!; [done..|]. intros p. by rewrite reap_live.
  - change (live pid (signal pid "stop" s)) with (live pid s).
    destruct (live pid s) eqn:El; cbn [negb]; [|split_and!; [done..|exact (not_live _ _ El)]].
    rewrite reaped_dead. cbn [negb]. split_and!; [done..|]. intros p. by rewrite reap_live.
  - change (live pid (signal pid "stop" s)) with (live pid s).
    change (live pid (signal pid "terminate" (signal pid "stop" s))) with (live pid s).
    destruct (live pid s) eqn:El; cbn [negb]; [|split_and!; [done..|exact (not_live _ _ El)]].
    split_and!; [done..|]. intros p. by rewrite reap_live.
Qed.

(** The operations on the one viewer process. *)
Inductive viewer_op := StartOp (key : list string * string * Z) (how : startup) | StopOp.

Definition run_viewer_op (o : viewer_op) (s : viewer_procs) : viewer_procs :=
  match o with StartOp key how => (start_consumer dies key how s).1 | StopOp => stop_consumer dies s end.

(** A live consumer is the one the handle names, and pids are not reused. *)
Definition one_live (s : viewer_procs) : Prop :=
  (forall p, p ∈ vp_live s -> (exists h, vp_handle s = Some h /\ vh_pid h = p) /\ (p < vp_next s)%nat).

Lemma launch_single key how s : (forall p, p ∉ vp_live s) -> one_live (launch dies key how s).1.
Proof.
  intros Hn. unfold launch. set (s1 := VProcs _ (vp_live s ++ _) _ _).
  assert (forall p, p ∈ vp_live s1 -> p = vp_next s) as H1.
  { intros p. unfold s1. cbn. rewrite elem_of_app, list_elem_of_singleton. specialize (Hn p). tauto. }
  destruct how; intros p; cbn [fst].
  - intros [Hp Hne]%(proj2 (proj2 (stop_handle_spec _ _))). by apply H1 in Hp.
  - intros [Hp Hne]%(proj2 (proj2 (stop_handle_spec _ _))). by apply H1 in Hp.
  - intros [Hp Hne]%reap_live. by apply H1 in Hp.
  - intros Hp. cbn [vp_live vp_handle vp_next]. apply H1 in Hp as ->. split; [by eexists|]. cbn. lia.
Qed.

(** At most one viewer process runs, whatever is started, restarted with other streams, failing at
    startup or stopped, in any order; after a stop none does. *)
Theorem one_consumer os s :
  one_live s -> let s' := foldl (fun s o => run_viewer_op o s) s os in
  one_live s' /\ (length (remove_dups (vp_live s')) <= 1)%nat /\ vp_live (stop_consumer dies s') = [].
Proof.
  intros Hs. cbv zeta.
  assert (one_live (foldl (fun s o => run_viewer_op o s) s os)) as H.
  { revert s Hs. induction os as [|o os IH]; intros s Hs; [done|]. apply IH. destruct o as [key how|]; cbn [run_viewer_op].
    - unfold start_consumer. destruct (vp_handle s) as [h|] eqn:Eh.
      + unfold live. case_bool_decide as Hl.
        * case_bool_decide; [done|]. apply launch_single. intros p [Hp Hne]%(proj2 (proj2 (stop_handle_spec _ _))).
          apply Hs in Hp as [(h' & Hh' & <-) _]. congruence.
        * apply launch_single. intros p Hp. pose proof (Hs p Hp) as [(h' & Hh' & <-) _]. congruence.
      + apply launch_single. intros p [(h' & Hh' & _) _]%Hs. congruence.
    - unfold stop_consumer. destruct (vp_handle s) as [h|] eqn:Eh; [|done]. intros p. cbn [vp_live].
      intros [Hp Hne]%(proj2 (proj2 (stop_handle_spec _ _))). apply Hs in Hp as [(h' & Hh' & <-) _]. congruence. }
  set (s' := foldl _ s os) in *. clearbody s'. split_and!; [done| |].
  - assert (forall p q, p ∈ vp_live s' -> q ∈ vp_live s' -> p = q) as Huniq.
    { intros p q [(h & Hh & <-) _]%H [(h' & Hh' & <-) _]%H. congruence. }
    assert (NoDup (remove_dups (vp_live s'))) as Hnd by apply NoDup_remove_dups.
    assert (forall p, p ∈ remove_dups (vp_live s') <-> p ∈ vp_live s') as Hin by apply elem_of_remove_dups.
    destruct (remove_dups (vp_live s')) as [|p [|q l]]; cbn; [lia|lia|]. exfalso.
    apply list.NoDup_cons in Hnd as [Hn _]. apply Hn. rewrite (Huniq p q); [left|apply Hin; left|apply Hin; right; left].
  - unfold stop_consumer. destruct (vp_handle s') as [h|] eqn:Eh; cbn [vp_live].
    + apply elem_of_nil_inv. intros p [Hp Hne]%(proj2 (proj2 (stop_handle_spec _ _))).
      apply H in Hp as [(h' & Hh' & <-) _]. congruence.
    + apply elem_of_nil_inv. intros p [(h' & Hh' & _) _]%H. congruence.
Qed.
End process_lemmas.

(** ** Witnesses *)

Definition demo_scene : scene := Scene [("left/q", ([f1], 0)); ("factr/left", ([f0], 100))] [] new_view.
Definition scene_tick (ns : Z) (state : string) : viewer_tick :=
  ViewerTick false f0 ns empty_world None (fun _ => Ok true) (Some (Obj [("state", jstr state)])) [].

Lemma render_scene_current_witness : exists k', render_scene FACTR_MAX_AGE_S (scene_tick 200 "eval") demo_scene = Ok k' /\
  exists fq cq mq last, vw_calls (sn_view k') = vw_calls (sn_view demo_scene) ++ [Followers fq; Commands cq; Factr mq; last] /\
    cq = [("left", [f0])].
Proof.
  destruct (render_scene FACTR_MAX_AGE_S (scene_tick 200 "eval") demo_scene) as [k'|] eqn:E; [|vm_compute in E; discriminate E].
  exists k'. split; [reflexivity|].
  destruct (render_scene_current _ _ _ _ E) as (fq & cq & mq & last & H & _). exists fq, cq, mq, last. split; [exact H|].
  vm_compute in E. injection E as <-. vm_compute in H. injection H as _ <- _ _. reflexivity.
Defined.

(** A leader sample a second old is not drawn. *)
Lemma old_leader_hidden : exists k', render_scene FACTR_MAX_AGE_S (scene_tick 1000000100 "teleop") demo_scene = Ok k' /\
  vw_calls (sn_view k') = [Followers [("left", [f1])]; Commands []; Factr []; ClearTargets].
Proof. eexists. split; vm_compute; reflexivity. Qed.

Lemma one_consumer_witness :
  let s' := foldl (fun s o => run_viewer_op (fun _ => OnTerminate) o s) (VProcs None [] 0 [])
    [StartOp (["a"], "h", 1) Up; StartOp (["b"], "h", 1) Up; StartOp (["c"], "h", 1) Failed] in
  (length (remove_dups (vp_live s')) <= 1)%nat /\ vp_live (stop_consumer (fun _ => OnTerminate) s') = [].
Proof.
  apply (one_consumer (fun _ => OnTerminate) ltac:(discriminate)). intros p Hp. by apply elem_of_nil in Hp.
Defined.

(** A joint horizon that ends while the run goes on leaves its path behind: with a Cartesian horizon
    next, the targets are drawn along the path of the previous rollout, for which no stream exists. *)
Lemma stale_path_drawn : exists c : conn scene,
  let c' := drop_reader c "eval/left/q_horizon" in
  conn_ok c' /\ ("eval/left/q_horizon" ∉ dkeys (cn_readers c')) /\
  exists k', render_scene FACTR_MAX_AGE_S (scene_tick 200 "eval") (cn_sink c') = Ok k' /\
    list.last (vw_calls (sn_view k')) = Some (Targets [] [] [("left", [[f1]])] [("left", [f0])] []).
Proof.
  set (rd := Reader 0 (Entry JNull JNull 0 0 JNull JNull 0)).
  exists (Conn [("eval/left/q_horizon", rd); ("eval/left/eef_horizon", rd)] (Some "run")
    [("eval/left/q_horizon", 0)] f0
    (Scene [("eval/left/q_horizon", ([f1], 0)); ("eval/left/eef_horizon", ([f0], 0))] [("left", [[f1]])] new_view)
    [Opened "eval/left/q_horizon" rd; Opened "eval/left/eef_horizon" rd]).
  cbv zeta. split.
  - apply drop_reader_ok. split; cbn; try (apply (bool_decide_eq_true_1 _); vm_compute; reflexivity); try done; set_solver.
  - split; [apply dmem_false; reflexivity|]. eexists. split; vm_compute; reflexivity.
Qed.
