(* ===== verification/PlotStore.v ===== *)
(** * The live plots

    Models [plotly_dash/view.py] (the plots and their contract, the buffers, the incremental
    exchange with a browser page) and the sink of [plotly_dash/consumer.py]: how samples become
    plot points and how the policy's packets are counted.  Colours, layout and the Dash wiring
    are not modelled. *)

From Stdlib Require Import SpecFloat Ascii String Sorted.
From S2P Require Import Prelude Float64 Ring Streams Process Text Session Json PolicyClient LiveView ViewerStreams ViewerScene.
Local Open Scope string_scope.
Local Open Scope list_scope.
Local Open Scope Z_scope.

Definition HISTORY_LENGTH : nat := 1024.
Definition MAX_CATCHUP_SAMPLES : nat := 3.

(** ** The plots *)

Definition underscores_to_blanks (s : string) : string := replace_all "_" " " s.

Definition PROPRIO_TITLES : list (string * string) :=
  [("q", "Joint position q (rad)"); ("dq", "Joint velocity dq (rad/s)"); ("tau", "Measured joint torque τ (Nm)");
   ("tau_ext", "External joint torque τ_ext (Nm)"); ("wrench", "TCP wrench (N, Nm)"); ("eef", "TCP position (m)");
   ("eef_vel", "TCP twist (m/s, rad/s)")].

Definition FACTR_TITLES : list (string * string) :=
  [("q", "Leader joint q — DFC/Rizon convention (rad)"); ("grip", "Leader gripper"); ("raw", "Raw leader position")] ++
  ((fun f => (f, underscores_to_blanks f)) <$> telemetry_fields).

Definition FOLLOWER_GRID_SIGNALS : list string := ["eef"; "q"; "dq"; "tau"; "tau_ext"; "wrench"; "eef_vel"].
Definition LEADER_GRID_SIGNALS : list string := dkeys FACTR_TITLES.
Definition POLICY_GRID_SIGNALS : list string := ["packets"; "latency_ms"].
Definition PROPRIO_DIMS : list (string * Z) :=
  [("q", 7); ("dq", 7); ("tau", 7); ("tau_ext", 7); ("wrench", 6); ("eef", 3); ("eef_vel", 6)].

Record PlotSpec := MkPlot {
  pl_key : string; pl_stream : string; pl_tab : string; pl_route : StreamRoute; pl_dim : Z; pl_title : string;
  pl_order : Z;
}.

Definition graph_id (p : PlotSpec) : string :=
  "plot-" +:+ replace_all "_" "-" (replace_all "/" "-" (pl_key p)).

(** [labels[i] if i < len(labels) else f"[{i}]"]. *)
Definition label_at (labels : list string) (i : nat) : string :=
  match labels !! i with Some l => l | None => "[" +:+ str_of_int (Z.of_nat i) +:+ "]" end.

Definition component_labels (r : StreamRoute) (dim : Z) : list string :=
  let n := Z.to_nat dim in
  let sig := rt_signal r in
  let labels :=
    if bool_decide (rt_kind r = KPolicy) && bool_decide (sig = "packets")
    then ["sent"; "received"; "errors"; "in flight"]
    else if bool_decide (rt_kind r = KPolicy) && bool_decide (sig = "latency_ms") then ["ms"]
    else if mem sig ["q"; "dq"; "tau"; "tau_ext"; "leader"] || contains "torque" sig
    then (fun i => "J" +:+ str_of_int (Z.of_nat i + 1)) <$> seq 0 n
    else if bool_decide (sig = "wrench") then ["Fx"; "Fy"; "Fz"; "Mx"; "My"; "Mz"]
    else if bool_decide (sig = "eef") then ["x"; "y"; "z"]
    else if bool_decide (sig = "eef_vel") then ["vx"; "vy"; "vz"; "wx"; "wy"; "wz"]
    else [] in
  label_at labels <$> seq 0 n.

(** [l.index(x)], or the given default when absent. *)
Fixpoint index_or (x : string) (l : list string) (dflt : Z) : Z :=
  match l with
  | [] => dflt
  | y :: l' => if bool_decide (x = y) then 0 else 1 + index_or x l' (dflt - 1)
  end.

Definition plot_grid_order (r : StreamRoute) (signal : string) : Z :=
  let rows := match rt_kind r with
              | KProprio => FOLLOWER_GRID_SIGNALS
              | KFactr => LEADER_GRID_SIGNALS
              | _ => POLICY_GRID_SIGNALS
              end in
  let row := index_or signal rows (Z.of_nat (length rows)) in
  if bool_decide (rt_kind r = KPolicy) then row
  else 2 * row + match rt_side r with Some s => index_or s SIDES 0 | None => 0 end.

Definition follower_spec (signal side : string) : res PlotSpec :=
  let r := Route KProprio (Some side) signal in
  let? dim := of_option KeyError (dget signal PROPRIO_DIMS) in
  let? title := of_option KeyError (dget signal PROPRIO_TITLES) in
  Ok (MkPlot ("follower/" +:+ side +:+ "/" +:+ signal) (side +:+ "/" +:+ signal) "follower" r dim
        (py_title side +:+ " · " +:+ title) (plot_grid_order r signal)).

Definition leader_stream (signal side : string) : res (string * Z) :=
  if mem signal ["q"; "grip"] then Ok (factr_stream_name side, if bool_decide (signal = "q") then 7 else 1)
  else if bool_decide (signal = "raw") then Ok (raw_factr_stream_name side, 8)
  else if mem signal TELEMETRY_VECTOR_FIELDS then Ok (factr_telemetry_stream_name side signal, 7)
  else if mem signal TELEMETRY_SCALAR_FIELDS then Ok (factr_telemetry_stream_name side signal, 1)
  else Raise ValueError.

Definition leader_spec (signal side : string) : res PlotSpec :=
  let r := Route KFactr (Some side) signal in
  let? sd := leader_stream signal side in
  let? title := of_option KeyError (dget signal FACTR_TITLES) in
  Ok (MkPlot ("leader/" +:+ side +:+ "/" +:+ signal) sd.1 "leader" r sd.2
        (py_title side +:+ " · " +:+ title) (plot_grid_order r signal)).

Definition policy_spec (x : string * Z * string) : PlotSpec :=
  let r := Route KPolicy None x.1.1 in
  MkPlot ("policy/" +:+ x.1.1) POLICY_COMM_STREAM "policy" r x.1.2 x.2 (plot_grid_order r x.1.1).

(** [_plot_specs]. *)
Definition plot_specs : res (list PlotSpec) :=
  let? followers := mapM_res (fun x => follower_spec x.1 x.2)
    (FOLLOWER_GRID_SIGNALS ≫= fun signal => (fun side => (signal, side)) <$> SIDES) in
  let? leaders := mapM_res (fun x => leader_spec x.1 x.2)
    (LEADER_GRID_SIGNALS ≫= fun signal => (fun side => (signal, side)) <$> SIDES) in
  Ok (followers ++ leaders ++
      (policy_spec <$> [("packets", 4, "Policy server · packets"); ("latency_ms", 1, "Policy server · round-trip latency")])).

Definition PLOT_SPECS : list PlotSpec := match plot_specs with Ok l => l | Raise _ => [] end.

Definition spec_by_key (key : string) : option PlotSpec :=
  find (fun p => bool_decide (pl_key p = key)) PLOT_SPECS.
Definition specs_by_stream (name : string) : list PlotSpec :=
  List.filter (fun p => bool_decide (pl_stream p = name)) PLOT_SPECS.

(** ** The buffers *)

(** A point: its version, elapsed time and values. *)
Abbreviation point := (Z * f64 * list f64)%type.

Record series := Series { se_points : list point; se_version : Z }.

Definition series_append (timestamp : f64) (value : list f64) (s : series) : series :=
  let v := se_version s + 1 in
  Series (deque_append HISTORY_LENGTH (v, timestamp, value) (se_points s)) v.

Record plot_store := PlotStore {
  ps_series : list (string * series);
  ps_epoch : Z;
  ps_run : option string;
  ps_origin : option Z;
}.

Definition empty_series : list (string * series) := (fun p => (pl_key p, Series [] 0)) <$> PLOT_SPECS.
Definition new_store : plot_store := PlotStore empty_series 0 None None.

(** [_reset]. *)
Definition store_reset (run : option string) (s : plot_store) : plot_store :=
  PlotStore empty_series (ps_epoch s + 1) run None.

Definition store_attach (run : string) (s : plot_store) : plot_store :=
  if bool_decide (ps_run s = Some run) then s else store_reset (Some run) s.

Definition store_detach (s : plot_store) : plot_store :=
  match ps_run s with None => s | Some _ => store_reset None s end.

(** [PlotStore.append]. *)
Definition store_append (key : string) (value : list f64) (t_ns : Z) (s : plot_store) : res (plot_store * bool) :=
  let? spec := of_option KeyError (spec_by_key key) in
  if negb (Z.of_nat (length value) =? pl_dim spec) || negb (forallb is_finite value) then Ok (s, false)
  else
    let origin := default t_ns (ps_origin s) in
    let timestamp := fdiv (f_of_Z (t_ns - origin)) (f_of_Z 1000000000) in
    let? buf := of_option KeyError (dget key (ps_series s)) in
    Ok (PlotStore (dset key (series_append timestamp value buf) (ps_series s)) (ps_epoch s) (ps_run s) (Some origin), true).

(** ** The exchange with a page *)

(** The points of one series after a cursor, at most the newest three. *)
Definition fresh_points (cursor : Z) (s : series) : list point :=
  let fresh := List.filter (fun p => cursor <? p.1.1) (se_points s) in
  drop (length fresh - MAX_CATCHUP_SAMPLES) fresh.

(** The [series] of [snapshot]: only those with something new. *)
Definition snapshot_series (cursors : list (string * Z)) (s : plot_store) : list (string * list point) :=
  omap (fun kb => match fresh_points (default 0 (dget kb.1 cursors)) kb.2 with
                  | [] => None
                  | ps => Some (kb.1, ps)
                  end) (ps_series s).

(** [available]. *)
Definition available (s : plot_store) : list string :=
  omap (fun kb => match se_points kb.2 with [] => None | _ => Some kb.1 end) (ps_series s).

(** The page's state: the epoch it shows and the version each plot reached. *)
Record page := Page { pg_epoch : option Z; pg_versions : list (string * Z) }.

(** What the callback answers: start afresh, or extend some plots. *)
Inductive plot_update := StartAfresh (redraw : bool) | ExtendPlots (by_key : list (string * list point)).

(** [versions[spec.key] = fresh["version"]] for every extended plot. *)
Definition advance (by_key : list (string * list point)) (versions : list (string * Z)) : list (string * Z) :=
  foldl (fun vs kp => match list.last kp.2 with Some p => dset kp.1 p.1.1 vs | None => vs end) versions by_key.

(** [update_plots]: [None] is a page just loaded. *)
Definition update_plots (st : option page) (s : plot_store) : page * plot_update :=
  let cur := default (Page None []) st in
  let snap := snapshot_series (pg_versions cur) s in
  if negb (bool_decide (pg_epoch cur = Some (ps_epoch s)))
  then (Page (Some (ps_epoch s)) [], StartAfresh (match st with None => false | Some _ => true end))
  else (Page (Some (ps_epoch s)) (advance snap (pg_versions cur)), ExtendPlots snap).

(** ** The consumer *)

(** The part of a stream's vector one plot shows. *)
Definition selected (p : PlotSpec) (v : list f64) : list f64 :=
  let r := pl_route p in
  if bool_decide (rt_kind r = KProprio) && bool_decide (rt_signal r = "eef") then take 3 v
  else if bool_decide (rt_kind r = KFactr) && bool_decide (rt_signal r = "q") then take 7 v
  else if bool_decide (rt_kind r = KFactr) && bool_decide (rt_signal r = "grip") then drop (length v - 1) v
  else take (Z.to_nat (pl_dim p)) v.

(** [_append_stream]. *)
Definition append_stream (name : string) (v : list f64) (t_ns : Z) (s : plot_store) : res plot_store :=
  foldM_res (fun s p => res_map fst (store_append (pl_key p) (selected p v) t_ns s)) (specs_by_stream name) s.

(** The packet counters. *)
Record policy_state := PolicyState {
  po_ring : option jval; po_next : Z; po_sent : Z; po_received : Z; po_errors : Z; po_in_flight : Z;
}.

Definition no_policy : policy_state := PolicyState None 0 0 0 0 0.
Definition policy_on (ring : jval) : policy_state := PolicyState (Some ring) 0 0 0 0 0.

(** The counters after one packet. *)
Definition count_packet (kind : f64) (p : policy_state) : policy_state :=
  if feq kind COMM_SENT then
    PolicyState (po_ring p) (po_next p) (po_sent p + 1) (po_received p) (po_errors p) 1
  else if feq kind COMM_RECV then
    PolicyState (po_ring p) (po_next p) (po_sent p) (po_received p + 1) (po_errors p) 0
  else PolicyState (po_ring p) (po_next p) (po_sent p) (po_received p) (po_errors p + 1) 0.

Definition policy_row (x : policy_state * plot_store) (row : list f64 * Z) : res (policy_state * plot_store) :=
  let? kind := of_option IndexError (row.1 !! 0%nat) in
  let? latency := of_option IndexError (row.1 !! 2%nat) in
  let p := count_packet kind x.1 in
  let? s := if negb (feq kind COMM_SENT) && feq kind COMM_RECV
            then res_map fst (store_append "policy/latency_ms" [fmul latency (f_of_Z 1000)] row.2 x.2)
            else Ok x.2 in
  let? s := res_map fst (store_append "policy/packets"
              (f_of_Z <$> [po_sent p; po_received p; po_errors p; po_in_flight p]) row.2 s) in
  Ok (p, s).

(** The rows at or after a sequence number. *)
Definition rows_from (next : Z) (s : samples f64) : list (list f64 * Z) :=
  omap (fun x => if next <=? x.2 then Some x.1 else None) (zip (zip (s_data s) (s_t_ns s)) (s_seq s)).

(** [_consume_policy]. *)
Definition consume_policy (w : world) (rd : StreamReader) (x : policy_state * plot_store) : res (policy_state * plot_store) :=
  let? s := reader_all w rd in
  match list.last (s_seq s) with
  | None => Ok x
  | Some last =>
      let ring := e_shm_name (rd_entry rd) in
      let p := if negb (bool_decide (po_ring x.1 = Some ring)) || (last + 1 <? po_next x.1) then policy_on ring else x.1 in
      match rows_from (po_next p) s with
      | [] => Ok (p, x.2)
      | rows =>
          let? y := foldM_res policy_row rows (p, x.2) in
          Ok (PolicyState (po_ring y.1) (last + 1) (po_sent y.1) (po_received y.1) (po_errors y.1) (po_in_flight y.1), y.2)
      end
  end.

(** The sink: the counters and the buffers. *)
Definition plots := (policy_state * plot_store)%type.

Definition plots_take (w : world) (name : string) (r : StreamRoute) (rd : StreamReader) (seen : option Z) (k : plots) :
    taken plots :=
  if bool_decide (rt_kind r = KPolicy) then
    match consume_policy w rd k with Raise _ => LostStream | Ok k' => Took None k' end
  else
    match reader_last w rd 1 with
    | Raise _ => LostStream
    | Ok s =>
        match newest s, newest_t_ns s, list.last (s_seq s) with
        | Some v, Some t, Some seq =>
            if bool_decide (seen = Some seq) then Unchanged
            else match append_stream name v t k.2 with
                 | Raise e => CrashedWith e
                 | Ok s' => Took (Some seq) (k.1, s')
                 end
        | _, _, _ => Unchanged
        end
    end.

#[global] Instance plots_sink : Sink plots := {|
  sk_detach k := (k.1, store_detach k.2);
  sk_attach run k := (no_policy, store_attach run k.2);
  sk_forget _ k := k;
  sk_take := plots_take;
  sk_keys _ := [];
|}.

(** ** The plots' contract *)

(** Every plot shows a stream the consumer samples and every such stream is plotted; keys and
    element ids are unique, no two plots of a tab share a place, and a plot has one label per
    component. *)
Theorem plots_contract :
  plot_specs = Ok PLOT_SPECS /\ NoDup (pl_key <$> PLOT_SPECS) /\ NoDup (graph_id <$> PLOT_SPECS) /\
  NoDup ((fun p => (pl_tab p, pl_order p)) <$> PLOT_SPECS) /\
  (forall p, p ∈ PLOT_SPECS -> pl_stream p ∈ plot_stream_names SIDES /\ 0 < pl_dim p /\
     Z.of_nat (length (component_labels (pl_route p) (pl_dim p))) = pl_dim p) /\
  (forall n, n ∈ plot_stream_names SIDES -> specs_by_stream n ≠ []).
Proof.
  split_and!; try (apply (bool_decide_eq_true_1 _); vm_compute; reflexivity); [vm_compute; reflexivity| |].
  - intros p Hp.
    assert (forallb (fun p => bool_decide (pl_stream p ∈ plot_stream_names SIDES) && (0 <? pl_dim p) &&
      (Z.of_nat (length (component_labels (pl_route p) (pl_dim p))) =? pl_dim p)) PLOT_SPECS = true) as H
      by (vm_compute; reflexivity).
    rewrite forallb_forall in H. specialize (H p (proj1 (list_elem_of_In _ _) Hp)).
    apply andb_true_iff in H as [[H1 H2]%andb_true_iff H3]. apply bool_decide_eq_true in H1. split_and!; [done|lia|lia].
  - intros n Hn.
    assert (forallb (fun n => match specs_by_stream n with [] => false | _ => true end) (plot_stream_names SIDES) = true) as H
      by (vm_compute; reflexivity).
    rewrite forallb_forall in H. specialize (H n (proj1 (list_elem_of_In _ _) Hn)). by destruct (specs_by_stream n).
Qed.

(** ** The buffers: invariant *)

Definition versions (ps : list point) : list Z := (fun p => p.1.1) <$> ps.

(** Versions increase strictly, up to the series' own. *)
Record series_ok (s : series) : Prop := {
  so_sorted : StronglySorted Z.lt (versions (se_points s));
  so_bound : Forall (fun v => 0 < v <= se_version s) (versions (se_points s));
  so_last : se_version s = default 0 (list.last (versions (se_points s)));
  so_len : (length (se_points s) <= HISTORY_LENGTH)%nat;
}.

Record store_ok (s : plot_store) : Prop := {
  sto_keys : NoDup (dkeys (ps_series s));
  sto_series : forall k b, dget k (ps_series s) = Some b -> series_ok b;
}.

Lemma sorted_app (l k : list Z) : StronglySorted Z.lt l -> StronglySorted Z.lt k ->
  (forall x y, x ∈ l -> y ∈ k -> x < y) -> StronglySorted Z.lt (l ++ k).
Proof.
  intros Hl Hk H. induction Hl as [|x l Hl IH Hx]; simpl; [done|]. constructor; [apply IH; set_solver|].
  apply Forall_app. split; [done|]. apply Forall_forall. intros y Hy. apply H; set_solver.
Qed.

Lemma sorted_drop n (l : list Z) : StronglySorted Z.lt l -> StronglySorted Z.lt (drop n l).
Proof. intros Hl. revert n. induction Hl as [|x l Hl IH Hx]; intros [|n]; simpl; try done; by constructor. Qed.

Lemma last_drop {A} n (l : list A) : (n < length l)%nat -> list.last (drop n l) = list.last l.
Proof. intros Hn. rewrite <-(take_drop n l) at 2. rewrite last_app. destruct (list.last (drop n l)) eqn:E; [done|].
  apply last_None in E. apply (f_equal length) in E. rewrite length_drop in E. simpl in E. lia. Qed.

Lemma versions_drop n ps : versions (drop n ps) = drop n (versions ps).
Proof. apply fmap_drop. Qed.

Lemma versions_snoc ps x : versions (ps ++ [x]) = versions ps ++ [x.1.1].
Proof. unfold versions. by rewrite fmap_app. Qed.

Lemma series_append_ok t v s : series_ok s -> series_ok (series_append t v s).
Proof.
  intros [Hs Hb Hl Hn]. unfold series_append, deque_append. cbv zeta. set (x := (se_version s + 1, t, v)).
  assert (x.1.1 = se_version s + 1) as Hx by done. clearbody x.
  set (n := (length (se_points s ++ [x]) - HISTORY_LENGTH)%nat).
  assert (0 <= se_version s) as H0.
  { rewrite Hl. destruct (list.last (versions (se_points s))) as [z|] eqn:E; simpl; [|lia].
    apply last_Some_elem_of in E. rewrite Forall_forall in Hb. specialize (Hb z E). lia. }
  split; cbn [se_points se_version].
  - rewrite versions_drop, versions_snoc, Hx. apply sorted_drop.
    apply sorted_app; [done|repeat constructor|]. intros a b Ha Hb'%list_elem_of_singleton. subst b.
    rewrite Forall_forall in Hb. specialize (Hb a Ha). lia.
  - rewrite versions_drop, versions_snoc, Hx. apply Forall_drop.
    apply Forall_app. split; [|repeat constructor; lia]. eapply Forall_impl; [exact Hb|]. cbn. lia.
  - rewrite versions_drop, versions_snoc, Hx, last_drop; [by rewrite last_app|].
    unfold versions, n. rewrite ?length_app, ?length_fmap. simpl. unfold HISTORY_LENGTH. lia.
  - rewrite length_drop. unfold n. lia.
Qed.

Lemma empty_series_ok : NoDup (dkeys empty_series) /\ forall k b, dget k empty_series = Some b -> series_ok b.
Proof.
  split; [apply (bool_decide_eq_true_1 _); vm_compute; reflexivity|]. intros k b Hb%dget_In.
  unfold empty_series in Hb. apply list_elem_of_fmap in Hb as (p & [= -> ->] & _). split; cbn; [apply SSorted_nil|apply Forall_nil_2|done|unfold HISTORY_LENGTH; lia].
Qed.

Lemma store_reset_ok run s : store_ok (store_reset run s).
Proof. destruct empty_series_ok. by split. Qed.

Lemma store_append_ok key v t s s' b : store_ok s -> store_append key v t s = Ok (s', b) ->
  store_ok s' /\ ps_epoch s' = ps_epoch s /\ dkeys (ps_series s') = dkeys (ps_series s) /\
  (forall k, dget k (ps_series s') = dget k (ps_series s) \/
     exists o o', dget k (ps_series s) = Some o /\ dget k (ps_series s') = Some o' /\ se_version o' = se_version o + 1).
Proof.
  intros [Hk Hs] H. unfold store_append in H. res_simp. destruct (_ || _); [injection H as <- <-; split_and!; auto; by split|].
  destruct (dget key (ps_series s)) as [buf|] eqn:Eb; simpl in H; [|done]. injection H as <- <-. cbn [ps_series ps_epoch].
  split_and!; [|done|by apply dkeys_dset_mem; eapply dget_key|].
  - split; cbn [ps_series]; [by apply NoDup_dset|]. intros k b'. destruct (decide (k = key)) as [->|].
    + rewrite dget_dset_eq. intros [= <-]. eapply series_append_ok, Hs, Eb.
    + rewrite dget_dset_ne by done. apply Hs.
  - intros k. destruct (decide (k = key)) as [->|]; [right|left; by rewrite dget_dset_ne].
    exists buf. eexists. split; [done|]. rewrite dget_dset_eq. split; [reflexivity|]. done.
Qed.

(** ** The page: invariant *)

(** The points after a cursor, all of them. *)
Abbreviation after cursor := (List.filter (fun p : point => cursor <? p.1.1)).

Lemma sorted_filter cursor ps : StronglySorted Z.lt (versions ps) -> StronglySorted Z.lt (versions (after cursor ps)).
Proof.
  induction ps as [|p ps IH]; simpl; [done|]. intros [Hs Hx]%StronglySorted_inv. destruct (cursor <? p.1.1); [|auto].
  simpl. constructor; [auto|]. rewrite Forall_forall in Hx |- *. intros y Hy. apply Hx.
  unfold versions in *. apply list_elem_of_fmap in Hy as (q & -> & [Hq _]%list_elem_of_In%filter_In).
  apply (list_elem_of_fmap_2 (fun p : point => p.1.1)). by apply list_elem_of_In.
Qed.

Lemma last_filter cursor ps : StronglySorted Z.lt (versions ps) -> after cursor ps ≠ [] ->
  list.last (versions (after cursor ps)) = list.last (versions ps).
Proof.
  induction ps as [|p ps IH]; simpl; [done|]. intros [Hs Hx]%StronglySorted_inv.
  change (versions (p :: ps)) with (p.1.1 :: versions ps). rewrite last_cons.
  destruct (cursor <? p.1.1) eqn:Ep.
  - intros _. change (versions (p :: after cursor ps)) with (p.1.1 :: versions (after cursor ps)). rewrite last_cons.
    destruct ps as [|q ps]; [done|]. rewrite IH; [done|done|]. simpl. apply Forall_cons in Hx as [Hx _].
    by replace (cursor <? q.1.1) with true by (cbn in Hx; lia).
  - intros Hne. rewrite (IH Hs Hne). destruct (list.last (versions ps)) eqn:E; [done|]. apply last_None in E.
    by destruct ps.
Qed.

Lemma fresh_spec cursor s : series_ok s -> let ps := fresh_points cursor s in
  StronglySorted Z.lt (versions ps) /\ Forall (fun v => cursor < v <= se_version s) (versions ps) /\
  (length ps <= MAX_CATCHUP_SAMPLES)%nat /\ ps ⊆ se_points s /\
  (cursor <= se_version s -> 0 <= cursor -> default cursor (list.last (versions ps)) = se_version s).
Proof.
  intros [Hs Hb Hl _]. cbv zeta. unfold fresh_points. set (f := after cursor (se_points s)).
  assert (forall p, p ∈ f -> p ∈ se_points s /\ cursor < p.1.1) as Hf.
  { intros p [Hp Hc]%list_elem_of_In%filter_In. split; [by apply list_elem_of_In|lia]. }
  assert (forall p, p ∈ se_points s -> 0 < p.1.1 <= se_version s) as Hb'.
  { intros p Hp. rewrite Forall_forall in Hb. apply Hb. unfold versions. by apply (list_elem_of_fmap_2 (fun p : point => p.1.1)). }
  rewrite versions_drop. split_and!.
  - by apply sorted_drop, sorted_filter.
  - apply Forall_drop. apply Forall_forall. intros v Hv. unfold versions in Hv.
    apply list_elem_of_fmap in Hv as (p & -> & [Hp Hc]%Hf). specialize (Hb' p Hp). lia.
  - rewrite length_drop. unfold MAX_CATCHUP_SAMPLES. lia.
  - intros p Hp. apply Hf. rewrite <-(take_drop (length f - MAX_CATCHUP_SAMPLES) f). set_solver.
  - intros Hc H0. destruct (decide (f = [])) as [Ef|Hne].
    + rewrite Ef. simpl. destruct (list.last (versions (se_points s))) as [z|] eqn:E; [|simpl in Hl; lia].
      rewrite Hl. simpl. apply last_Some_elem_of in E. unfold versions in E. apply list_elem_of_fmap in E as (p & -> & Hp).
      pose proof (Hb' p Hp). destruct (decide (cursor < p.1.1)) as [Hlt|]; [|simpl in *; lia].
      exfalso. apply (not_elem_of_nil p). rewrite <-Ef. apply list_elem_of_In, filter_In. split; [by apply list_elem_of_In|lia].
    + rewrite last_drop; [|unfold versions; rewrite length_fmap; destruct f; [done|simpl; unfold MAX_CATCHUP_SAMPLES; lia]].
      unfold f. rewrite last_filter, Hl by done. destruct (list.last (versions (se_points s))) eqn:E; [done|].
      apply last_None in E. by destruct (se_points s).
Qed.

(** A fold that updates each key of an association list at most once. *)
Lemma fold_dset {V W} (g : V -> option W -> option W) (l : list (string * V)) d key : NoDup (dkeys l) ->
  dget key (foldl (fun d kp => match g kp.2 (dget kp.1 d) with Some w => dset kp.1 w d | None => d end) d l) =
  match dget key l with
  | Some v => match g v (dget key d) with Some w => Some w | None => dget key d end
  | None => dget key d
  end.
Proof.
  revert d. induction l as [|[k v] l IH]; intros d; simpl; [done|]. intros [Hn Hd]%list.NoDup_cons. rewrite IH by done.
  destruct (decide (key = k)) as [->|Hne].
  - rewrite (proj2 (dget_None k l) Hn). destruct (g v (dget k d)); [by rewrite dget_dset_eq|done].
  - assert (dget key (match g v (dget k d) with Some w => dset k w d | None => d end) = dget key d) as ->
      by (destruct (g v (dget k d)); [by rewrite dget_dset_ne|done]). done.
Qed.

Lemma dget_snapshot cursors s key : store_ok s -> dget key (snapshot_series cursors s) =
  match dget key (ps_series s) with
  | Some b => match fresh_points (default 0 (dget key cursors)) b with [] => None | ps => Some ps end
  | None => None
  end.
Proof.
  intros [Hn _]. unfold snapshot_series. revert Hn. induction (ps_series s) as [|[k b] l IH]; [done|].
  intros [Hk Hl]%list.NoDup_cons. simpl. destruct (decide (key = k)) as [->|Hne].
  - destruct (fresh_points _ b) as [|p ps] eqn:E; cbn [dget]; [|by rewrite decide_True].
    etrans; [exact (IH Hl)|]. by rewrite (proj2 (dget_None k l) Hk).
  - destruct (fresh_points _ b) as [|p ps] eqn:E; cbn [dget]; [exact (IH Hl)|]. rewrite decide_False by done. exact (IH Hl).
Qed.

Lemma snapshot_keys cursors s : store_ok s -> NoDup (dkeys (snapshot_series cursors s)).
Proof.
  intros [Hn _]. unfold snapshot_series. revert Hn. induction (ps_series s) as [|[k b] l IH]; [constructor|].
  intros [Hk Hl]%list.NoDup_cons. simpl. destruct (fresh_points _ b) as [|p ps]; [auto|]. constructor; [|auto].
  intros ([k' x] & E & Hin)%list_elem_of_fmap. simpl in E. subst k'.
  apply list_elem_of_omap in Hin as ([k' b'] & Hin & E). cbn [fst snd] in E. destruct (fresh_points _ b'); [done|].
  injection E as -> _. apply Hk. by apply (list_elem_of_fmap_2 fst) in Hin.
Qed.

(** What can happen: a sample is appended, a run is attached or detached, the page polls. *)
Inductive plot_op := PAppend (key : string) (v : list f64) (t_ns : Z) | PAttach (run : string) | PDetach | PPoll.

(** The store, the page's state, and the points the page shows by plot. *)
Record dash := Dash { da_store : plot_store; da_page : option page; da_shown : list (string * list point) }.

Definition extend (shown : list (string * list point)) (l : list (string * list point)) : list (string * list point) :=
  foldl (fun sh kp => dset kp.1 (default [] (dget kp.1 sh) ++ kp.2) sh) shown l.

Definition dash_step (d : dash) (o : plot_op) : dash :=
  match o with
  | PAppend key v t =>
      match store_append key v t (da_store d) with
      | Ok (s, _) => Dash s (da_page d) (da_shown d)
      | Raise _ => d
      end
  | PAttach run => Dash (store_attach run (da_store d)) (da_page d) (da_shown d)
  | PDetach => Dash (store_detach (da_store d)) (da_page d) (da_shown d)
  | PPoll =>
      let r := update_plots (da_page d) (da_store d) in
      Dash (da_store d) (Some r.1)
        (match r.2 with StartAfresh _ => [] | ExtendPlots l => extend (da_shown d) l end)
  end.

Definition shown_at (d : dash) (key : string) : list point := default [] (dget key (da_shown d)).
Definition cursor_at (d : dash) (key : string) : Z :=
  match da_page d with Some pg => default 0 (dget key (pg_versions pg)) | None => 0 end.
(** The page shows the current run. *)
Definition in_epoch (d : dash) : Prop := exists pg, da_page d = Some pg /\ pg_epoch pg = Some (ps_epoch (da_store d)).

Record dash_ok (d : dash) : Prop := {
  do_store : store_ok (da_store d);
  do_past : forall pg e, da_page d = Some pg -> pg_epoch pg = Some e -> e <= ps_epoch (da_store d);
  do_sorted : forall key, StronglySorted Z.lt (versions (shown_at d key));
  do_cursor : in_epoch d -> forall key,
    0 <= cursor_at d key /\ Forall (fun v => v <= cursor_at d key) (versions (shown_at d key)) /\
    default 0 (list.last (versions (shown_at d key))) = cursor_at d key /\
    (forall b, dget key (ps_series (da_store d)) = Some b -> cursor_at d key <= se_version b);
}.

Lemma dget_extend sh l key : NoDup (dkeys l) ->
  dget key (extend sh l) = match dget key l with Some ps => Some (default [] (dget key sh) ++ ps) | None => dget key sh end.
Proof.
  intros Hn. unfold extend.
  pose proof (fold_dset (fun (ps : list point) old => Some (default [] old ++ ps)) l sh key Hn) as H. rewrite H.
  by destruct (dget key l).
Qed.

Lemma dget_advance l vs key : NoDup (dkeys l) ->
  dget key (advance l vs) =
  match dget key l with
  | Some ps => match list.last ps with Some p => Some p.1.1 | None => dget key vs end
  | None => dget key vs
  end.
Proof.
  intros Hn. unfold advance.
  pose proof (fold_dset (fun (ps : list point) (_ : option Z) => (fun p : point => p.1.1) <$> list.last ps) l vs key Hn) as H.
  etrans; [|etrans; [exact H|]].
  - clear. revert vs. induction l as [|[k ps] l IH]; intros vs; simpl; [done|]. rewrite IH. by destruct (list.last ps).
  - destruct (dget key l) as [ps|]; [|done]. by destruct (list.last ps).
Qed.

(** A new epoch: the page is in the past. *)
Lemma reset_dash_ok d s : dash_ok d -> store_ok s -> ps_epoch (da_store d) < ps_epoch s ->
  dash_ok (Dash s (da_page d) (da_shown d)).
Proof.
  intros Hd Hs He. split; cbn [da_store da_page].
  - done.
  - intros pg e Hp Hpe. pose proof (do_past d Hd pg e Hp Hpe). lia.
  - apply (do_sorted d Hd).
  - intros (pg & Hp & Hpe). cbn in Hp, Hpe. pose proof (do_past d Hd pg _ Hp Hpe). lia.
Qed.

Lemma append_dash_ok d key v t s b : dash_ok d -> store_append key v t (da_store d) = Ok (s, b) ->
  dash_ok (Dash s (da_page d) (da_shown d)).
Proof.
  intros Hd Ha. destruct (store_append_ok _ _ _ _ _ _ (do_store d Hd) Ha) as (Hs & He & _ & Hk). split; cbn [da_store da_page].
  - done.
  - rewrite He. apply (do_past d Hd).
  - apply (do_sorted d Hd).
  - unfold in_epoch. cbn [da_page da_store]. rewrite He. intros Hin k. destruct (do_cursor d Hd Hin k) as (H1 & H2 & H3 & H4).
    split_and!; try done. intros o' Ho'. destruct (Hk k) as [Heq|(o & o'' & Ho & Ho'' & Hv)].
    + apply H4. by rewrite <-Heq.
    + rewrite Ho' in Ho''. injection Ho'' as <-. specialize (H4 o Ho). change (cursor_at (Dash s (da_page d) (da_shown d)) k) with (cursor_at d k). lia.
Qed.

(** A poll in the current epoch: what it adds to a plot and where its cursor goes. *)
Lemma poll_adds d pg key : dash_ok d -> da_page d = Some pg -> pg_epoch pg = Some (ps_epoch (da_store d)) ->
  let d' := dash_step d PPoll in
  let new := match dget key (ps_series (da_store d)) with Some b => fresh_points (cursor_at d key) b | None => [] end in
  shown_at d' key = shown_at d key ++ new /\ cursor_at d' key = default (cursor_at d key) (list.last (versions new)).
Proof.
  intros Hd Hp He. cbv zeta. unfold dash_step, update_plots. rewrite Hp. cbn [default from_option id].
  rewrite bool_decide_true by done. cbn [negb fst snd].
  set (snap := snapshot_series (pg_versions pg) (da_store d)).
  assert (NoDup (dkeys snap)) as Hnd by (apply snapshot_keys, Hd).
  assert (cursor_at d key = default 0 (dget key (pg_versions pg))) as Hcur by (unfold cursor_at; by rewrite Hp).
  pose proof (dget_snapshot (pg_versions pg) (da_store d) key (do_store d Hd)) as Hs. fold snap in Hs. rewrite <-Hcur in Hs.
  pose proof (dget_extend (da_shown d) snap key Hnd) as H1. pose proof (dget_advance snap (pg_versions pg) key Hnd) as H2.
  unfold shown_at at 1, cursor_at at 2. cbn [da_page da_shown pg_versions]. rewrite H1, H2. clear H1 H2.
  destruct (dget key (ps_series (da_store d))) as [b|].
  - rewrite Hs. destruct (fresh_points (cursor_at d key) b) as [|p ps] eqn:Ef.
    + rewrite app_nil_r. by split.
    + cbn [default from_option id]. split; [done|].
      assert (list.last (versions (p :: ps)) = (fun q : point => q.1.1) <$> list.last (p :: ps)) as -> by apply fmap_last.
      destruct (list.last (p :: ps)) eqn:El; [done|]. by apply last_None in El.
  - rewrite Hs, app_nil_r. by split.
Qed.

(** After a poll in the current epoch every plot is in order and has reached the newest point. *)
Lemma poll_key d pg key : dash_ok d -> da_page d = Some pg -> pg_epoch pg = Some (ps_epoch (da_store d)) ->
  let d' := dash_step d PPoll in
  StronglySorted Z.lt (versions (shown_at d' key)) /\ 0 <= cursor_at d' key /\
  Forall (fun v => v <= cursor_at d' key) (versions (shown_at d' key)) /\
  default 0 (list.last (versions (shown_at d' key))) = cursor_at d' key /\
  (forall b, dget key (ps_series (da_store d)) = Some b -> cursor_at d' key = se_version b).
Proof.
  intros Hd Hp He. cbv zeta. destruct (do_cursor d Hd) with (key := key) as (H1 & H2 & H3 & H4); [by exists pg|].
  pose proof (do_sorted d Hd key) as H0.
  destruct (poll_adds d pg key Hd Hp He) as [-> ->].
  destruct (dget key (ps_series (da_store d))) as [b|] eqn:Eb; [|by rewrite app_nil_r].
  destruct (fresh_spec (cursor_at d key) b (sto_series _ (do_store d Hd) key b Eb)) as (F1 & F2 & _ & _ & F5).
  specialize (F5 (H4 b eq_refl) H1). set (new := fresh_points _ b) in *.
  assert (versions (shown_at d key ++ new) = versions (shown_at d key) ++ versions new) as -> by apply fmap_app.
  rewrite F5. pose proof (H4 b eq_refl). split_and!; [| | | |by intros b' [= ->]].
  - apply sorted_app; [done..|]. intros x y Hx Hy. rewrite Forall_forall in H2, F2. specialize (H2 x Hx). specialize (F2 y Hy). lia.
  - lia.
  - apply Forall_app. split; (eapply Forall_impl; [eassumption|]; cbn; lia).
  - rewrite last_app. destruct (list.last (versions new)) eqn:El; [done|]. rewrite H3. done.
Qed.

Lemma dash_step_ok d o : dash_ok d -> dash_ok (dash_step d o).
Proof.
  intros Hd. destruct o as [key v t|run| |].
  - cbn [dash_step]. destruct (store_append key v t (da_store d)) as [[s b]|] eqn:E; [|done]. by eapply append_dash_ok.
  - cbn [dash_step]. unfold store_attach. case_bool_decide; [by destruct d|].
    apply reset_dash_ok; [done|apply store_reset_ok|cbn; lia].
  - cbn [dash_step]. unfold store_detach. destruct (ps_run (da_store d)); [|by destruct d].
    apply reset_dash_ok; [done|apply store_reset_ok|cbn; lia].
  - destruct (decide (pg_epoch (default (Page None []) (da_page d)) = Some (ps_epoch (da_store d)))) as [He|Hn].
    + destruct (da_page d) as [pg|] eqn:Hp; [|done]. cbn in He. split.
      * apply (do_store d Hd).
      * cbn [dash_step da_page da_store]. unfold update_plots. destruct (negb _); cbn; intros ? ? [= <-] [= <-]; lia.
      * intros key. by apply (poll_key d pg key Hd Hp He).
      * intros _ key. destruct (poll_key d pg key Hd Hp He) as (_ & P1 & P2 & P3 & P4). split_and!; try done.
        intros b Hb. rewrite (P4 b Hb). lia.
    + unfold dash_step, update_plots. rewrite bool_decide_false by done. cbn [negb fst snd].
      split; cbn [da_store da_page].
      * apply (do_store d Hd).
      * intros pg e [= <-] [= <-]. lia.
      * intros key. apply SSorted_nil.
      * intros _ key. unfold cursor_at, shown_at. cbn. split_and!; [lia|constructor|done|].
        intros b Hb. pose proof (sto_series _ (do_store d Hd) key b Hb) as [_ Hb' Hl _]. rewrite Hl.
        destruct (list.last _) eqn:E; [|done]. apply last_Some_elem_of in E. rewrite Forall_forall in Hb'. specialize (Hb' z E). simpl. lia.
Qed.

Definition run_dash (os : list plot_op) : dash := foldl dash_step (Dash new_store None []) os.

Lemma run_dash_ok os : dash_ok (run_dash os).
Proof.
  unfold run_dash. assert (dash_ok (Dash new_store None [])) as H.
  { split; cbn [da_store da_page]; [destruct empty_series_ok; by split|done|intros; apply SSorted_nil|by intros (pg & ? & _)]. }
  revert H. generalize (Dash new_store None []). induction os as [|o os IH]; intros d Hd; [done|]. by apply IH, dash_step_ok.
Qed.

(** A page never draws a point twice or out of order, whatever samples arrive, runs change and
    polls are late; a poll of the current run sends at most three points per plot and leaves every
    plot at its newest point. *)
Theorem plots_in_order os :
  let d := run_dash os in let d' := dash_step d PPoll in
  (forall key, StronglySorted Z.lt (versions (shown_at d key))) /\
  (in_epoch d -> forall key b, dget key (ps_series (da_store d)) = Some b ->
     default 0 (list.last (versions (shown_at d' key))) = se_version b /\
     (length (shown_at d' key) <= length (shown_at d key) + MAX_CATCHUP_SAMPLES)%nat).
Proof.
  cbv zeta. pose proof (run_dash_ok os) as Hd. split; [apply (do_sorted _ Hd)|].
  intros (pg & Hp & He) key b Hb. destruct (poll_key _ pg key Hd Hp He) as (_ & _ & _ & P3 & P4).
  rewrite P3. split; [by apply P4|]. destruct (poll_adds _ pg key Hd Hp He) as [-> _]. rewrite Hb, length_app.
  destruct (fresh_spec (cursor_at (run_dash os) key) b (sto_series _ (do_store _ Hd) key b Hb)) as (_ & _ & Hl & _). lia.
Qed.

(** ** Packets *)

Definition kind_of (row : list f64 * Z) : f64 := default f0 (row.1 !! 0%nat).
Definition is_sent (row : list f64 * Z) : bool := feq (kind_of row) COMM_SENT.
Definition is_recv (row : list f64 * Z) : bool := negb (is_sent row) && feq (kind_of row) COMM_RECV.
Definition is_error (row : list f64 * Z) : bool := negb (is_sent row) && negb (feq (kind_of row) COMM_RECV).
Definition tally (p : list f64 * Z -> bool) (h : list (list f64 * Z)) : Z := Z.of_nat (length (List.filter p h)).

(** The counters a full history calls for. *)
Definition packets (ring : jval) (h : list (list f64 * Z)) : policy_state :=
  PolicyState (Some ring) (Z.of_nat (length h)) (tally is_sent h) (tally is_recv h) (tally is_error h)
    (match list.last h with Some row => if is_sent row then 1 else 0 | None => 0 end).

(** The counters are those of the history [h] of the ring, or the ring is new to them. *)
Definition counted (p : policy_state) (ring : jval) (h : list (list f64 * Z)) : Prop :=
  p = packets ring h \/ (h = [] /\ po_ring p ≠ Some ring).

Lemma tally_snoc q h row : tally q (h ++ [row]) = tally q h + (if q row then 1 else 0).
Proof. unfold tally. rewrite List.filter_app, length_app. simpl. destruct (q row); simpl; lia. Qed.

Definition set_next (n : Z) (p : policy_state) : policy_state :=
  PolicyState (po_ring p) n (po_sent p) (po_received p) (po_errors p) (po_in_flight p).

Lemma count_packet_spec ring n h row :
  count_packet (kind_of row) (set_next n (packets ring h)) = set_next n (packets ring (h ++ [row])).
Proof.
  unfold packets, set_next. rewrite !tally_snoc, last_snoc. unfold count_packet, is_recv, is_error, is_sent.
  destruct (feq (kind_of row) COMM_SENT); [|destruct (feq (kind_of row) COMM_RECV)]; cbn -[tally]; f_equal; lia.
Qed.

(** The buffers keep every plot's key. *)
Definition full (s : plot_store) : Prop := store_ok s /\ dkeys (ps_series s) = pl_key <$> PLOT_SPECS.

Lemma store_append_full key v t s : full s -> is_Some (spec_by_key key) ->
  exists s' b, store_append key v t s = Ok (s', b) /\ full s'.
Proof.
  intros [Hok Hk] [spec Hs].
  assert (exists s' b, store_append key v t s = Ok (s', b)) as (s' & b & E).
  { unfold store_append. rewrite Hs. cbn [of_option res_bind]. destruct (_ || _); [eauto|].
    assert (is_Some (dget key (ps_series s))) as [buf ->]; [|cbn [of_option res_bind]; eauto].
    destruct (dget key (ps_series s)) eqn:E; [eauto|]. apply dget_None in E. destruct E. rewrite Hk.
    unfold spec_by_key in Hs. apply find_some in Hs as [Hin Hb]. apply bool_decide_eq_true in Hb as <-.
    apply list_elem_of_fmap_2. by apply list_elem_of_In. }
  exists s', b. split; [done|]. destruct (store_append_ok _ _ _ _ _ _ Hok E) as (H1 & _ & H2 & _). split; [done|congruence].
Qed.

Lemma policy_keys : is_Some (spec_by_key "policy/latency_ms") /\ is_Some (spec_by_key "policy/packets").
Proof. split; apply (bool_decide_eq_true_1 _); vm_compute; reflexivity. Qed.

Lemma policy_row_spec p s row : full s -> length row.1 = 3%nat ->
  exists s', policy_row (p, s) row = Ok (count_packet (kind_of row) p, s') /\ full s'.
Proof.
  intros Hs Hl. destruct row as [[|a [|b [|c [|]]]] t]; try discriminate Hl. unfold policy_row, kind_of. cbn [fst snd lookup list_lookup of_option res_bind default from_option id].
  set (p' := count_packet a p).
  assert (exists s1, (if negb (feq a COMM_SENT) && feq a COMM_RECV
    then res_map fst (store_append "policy/latency_ms" [fmul c (f_of_Z 1000)] t s) else Ok s) = Ok s1 /\ full s1) as (s1 & -> & Hs1).
  { destruct (_ && _); [|eauto].
    destruct (store_append_full "policy/latency_ms" [fmul c (f_of_Z 1000)] t s Hs (proj1 policy_keys)) as (s1 & b' & -> & ?).
    exists s1. by split. }
  cbn [res_bind].
  destruct (store_append_full "policy/packets" (f_of_Z <$> [po_sent p'; po_received p'; po_errors p'; po_in_flight p']) t s1 Hs1
    (proj2 policy_keys)) as (s2 & b2 & -> & ?). exists s2. by split.
Qed.

Lemma policy_rows_spec ring n h rows s : full s -> Forall (fun row : list f64 * Z => length row.1 = 3%nat) rows ->
  exists s', foldM_res policy_row rows (set_next n (packets ring h), s) = Ok (set_next n (packets ring (h ++ rows)), s') /\ full s'.
Proof.
  revert h s. induction rows as [|row rows IH]; intros h s Hs; [rewrite app_nil_r; intros _; by exists s|].
  intros [Hr Hrs]%Forall_cons. cbn [foldM_res].
  destruct (policy_row_spec (set_next n (packets ring h)) s row Hs Hr) as (s1 & -> & Hs1). cbn [res_bind].
  rewrite count_packet_spec. destruct (IH (h ++ [row]) s1 Hs1 Hrs) as (s2 & -> & ?). exists s2.
  by rewrite <-app_assoc.
Qed.

Lemma rows_from_drop (l : list (list f64 * Z)) a next ov : a <= next ->
  rows_from next (Samples l.*1 l.*2 (seqZ a (Z.of_nat (length l))) ov) = drop (Z.to_nat (next - a)) l.
Proof.
  unfold rows_from. cbn [s_data s_t_ns s_seq]. revert a. induction l as [|[v t] l IH]; intros a Ha; [by rewrite drop_nil|].
  cbn [length]. rewrite seqZ_cons by lia. replace (Z.pred (Z.of_nat (S (length l)))) with (Z.of_nat (length l)) by lia.
  cbn [fmap list_fmap fst snd zip zip_with omap list_omap]. destruct (decide (next = a)) as [->|].
  - rewrite Z.leb_refl. replace (Z.to_nat (a - a)) with 0%nat by lia. rewrite drop_0. f_equal.
    assert (forall b (k : list (list f64 * Z)), a <= b -> omap (fun x => if a <=? x.2 then Some x.1 else None)
      (zip (zip k.*1 k.*2) (seqZ b (Z.of_nat (length k)))) = k) as Hall; [|apply Hall; lia].
    clear. intros b k. revert b. induction k as [|[v t] k IH]; intros b Hb; [done|]. cbn [length]. rewrite seqZ_cons by lia.
    replace (Z.pred (Z.of_nat (S (length k)))) with (Z.of_nat (length k)) by lia.
    cbn [fmap list_fmap fst snd zip zip_with omap list_omap]. replace (a <=? b) with true by lia. f_equal. apply IH. lia.
  - replace (next <=? a) with false by lia. rewrite IH by lia.
    replace (Z.to_nat (next - a)) with (S (Z.to_nat (next - Z.succ a))) by lia. done.
Qed.

Lemma set_next_packets ring h : set_next (Z.of_nat (length h)) (packets ring h) = packets ring h.
Proof. done. Qed.

(** What [_consume_policy] reads from a ring: the newest rows, numbered from the start. *)
Lemma reader_all_exact w rd r h : stream_repr w (rd_seg rd) r h -> reader_all w rd = Ok (read_of r h (capacity r)).
Proof.
  intros [Hm Hr]. unfold reader_all. rewrite Hm. cbn [res_bind]. f_equal. apply ring_last_exact; [done|]. apply repr_cap with h, Hr.
Qed.

Lemma window_rows (r : ring f64) (h new : list (list f64 * Z)) : 0 < capacity r -> Z.of_nat (length new) <= capacity r ->
  rows_from (Z.of_nat (length h)) (read_of r (h ++ new) (capacity r)) = new.
Proof.
  intros Hc Hn. unfold read_of. set (n := read_len r (h ++ new) (capacity r)). set (l := newest_of n (h ++ new)).
  assert (n <= length (h ++ new))%nat as Hle by (unfold n, read_len; lia).
  assert (length new <= n)%nat as Hge by (unfold n, read_len; rewrite length_app; lia).
  assert (length l = n) as Hl by (unfold l, newest_of; rewrite length_drop; lia).
  rewrite <-Hl at 2. rewrite rows_from_drop by (rewrite length_app in *; lia). unfold l, newest_of. rewrite drop_drop.
  replace (length (h ++ new) - n + _)%nat with (length h) by (rewrite length_app in *; lia). by rewrite drop_app_length.
Qed.

Lemma window_last (r : ring f64) (h : list (list f64 * Z)) : 0 < capacity r -> list.last (s_seq (read_of r h (capacity r))) =
  match h with [] => None | _ => Some (Z.of_nat (length h) - 1) end.
Proof.
  intros Hc. unfold read_of. cbn [s_seq]. set (n := read_len r h (capacity r)).
  destruct h as [|x h]; [by replace n with 0%nat by (unfold n, read_len; simpl; lia)|].
  assert (0 < n <= length (x :: h))%nat as Hn by (unfold n, read_len; simpl length; lia).
  rewrite last_lookup, length_seqZ. rewrite lookup_seqZ_lt by lia. f_equal. lia.
Qed.

(** Packets are counted exactly once: if the counters match what the ring carried before, and no
    more rows than the ring holds came since the last look, one look later they match everything it
    carried, each packet counted as sent, received or failed, and in flight as the last one says; a
    ring seen for the first time starts from zero. *)
Theorem packets_counted_once w rd r h new p s :
  full s -> counted p (e_shm_name (rd_entry rd)) h -> stream_repr w (rd_seg rd) r (h ++ new) ->
  Z.of_nat (length new) <= capacity r -> Forall (fun row : list f64 * Z => length row.1 = 3%nat) new ->
  exists p' s', consume_policy w rd (p, s) = Ok (p', s') /\ full s' /\ counted p' (e_shm_name (rd_entry rd)) (h ++ new).
Proof.
  intros Hs Hc Hr Hn Hw. set (ring := e_shm_name (rd_entry rd)) in *.
  pose proof (repr_cap _ _ (proj2 Hr)) as Hcap. unfold consume_policy. rewrite (reader_all_exact _ _ _ _ Hr). cbn [res_bind].
  rewrite window_last by done. fold ring.
  destruct (h ++ new) as [|x l] eqn:El.
  { apply app_eq_nil in El as [-> ->]. by exists p, s. }
  rewrite <-El. cbv zeta. cbn [fst snd].
  assert ((if negb (bool_decide (po_ring p = Some ring)) || (Z.of_nat (length (h ++ new)) - 1 + 1 <? po_next p)
    then policy_on ring else p) = packets ring h) as ->.
  { destruct Hc as [->|[-> Hne]]; [|by rewrite bool_decide_false].
    cbn [po_ring packets]. rewrite bool_decide_true by done. cbn [negb orb po_next packets].
    rewrite length_app. rewrite (proj2 (Z.ltb_ge _ _)); [done|]. clear. set (a := length h). set (b := length new). lia. }
  change (po_next (packets ring h)) with (Z.of_nat (length h)). rewrite window_rows by done.
  destruct new as [|row new'] eqn:En.
  { exists (packets ring h), s. rewrite app_nil_r. split_and!; [done..|by left]. }
  rewrite <-En in *. destruct (policy_rows_spec ring (Z.of_nat (length h)) h new s Hs Hw) as (s' & Hf & Hs').
  rewrite set_next_packets in Hf. rewrite Hf. cbn [res_bind fst snd].
  eexists _, s'. split; [reflexivity|]. split; [done|]. left. unfold packets, set_next. f_equal. lia.
Qed.

#[global] Instance plots_laws : SinkLaws plots.
Proof.
  split; try done.
  - intros name k n Hn. by apply not_elem_of_nil in Hn.
  - intros w name r rd seq k s k' _ n Hn. by apply not_elem_of_nil in Hn.
Qed.

(** ** Witnesses *)

Definition comm_row (kind : f64) : list f64 := [kind; f0; f0].
Definition comm_ring0 : ring f64 := Ring (create_segment f0 4 3 Float64) 4 3 Float64.
Definition comm_ring : res (ring f64) :=
  let? a := append (fun _ x => x) comm_ring0 (comm_row COMM_SENT) 10 in
  let? b := append (fun _ x => x) a.1 (comm_row COMM_RECV) 20 in Ok b.1.
Definition comm_world : world := World ∅ (match comm_ring with Ok r => [shm r] | Raise _ => [] end) [].
Definition comm_reader : StreamReader := Reader 0 (Entry (JStr "eval/policy_comm") (JStr "seg") 3 4 (JStr "float64") JNull 7).

Lemma new_store_full : full new_store.
Proof.
  split; [|vm_compute; reflexivity]. destruct empty_series_ok. by split.
Qed.

Lemma packets_counted_once_witness : exists p' s',
  consume_policy comm_world comm_reader (no_policy, new_store) = Ok (p', s') /\
  p' = PolicyState (Some (JStr "seg")) 2 1 1 0 0.
Proof.
  assert (exists r, comm_ring = Ok r /\ ring_repr r [(comm_row COMM_SENT, 10); (comm_row COMM_RECV, 20)]) as (r & Hr & Hrep).
  { unfold comm_ring.
    destruct (append (fun _ x => x) comm_ring0 (comm_row COMM_SENT) 10) as [[r1 i1]|] eqn:E1; [|vm_compute in E1; discriminate E1].
    destruct (append (fun _ x => x) r1 (comm_row COMM_RECV) 20) as [[r2 i2]|] eqn:E2;
      [|vm_compute in E1; injection E1 as <- _; vm_compute in E2; discriminate E2].
    exists r2. cbn [res_bind fst]. rewrite E2. split; [reflexivity|].
    assert (ring_repr comm_ring0 []) as H0 by (apply (ring_repr_create f0 4 3 "float64"); [lia|lia|reflexivity]).
    apply append_repr with (1 := H0) in E1 as [_ H1]. apply append_repr with (1 := H1) in E2 as [_ H2]. exact H2. }
  assert (stream_repr comm_world (rd_seg comm_reader) r ([] ++ [(comm_row COMM_SENT, 10); (comm_row COMM_RECV, 20)])) as Hs.
  { split; [|exact Hrep]. unfold comm_world. rewrite Hr. vm_compute in Hr. injection Hr as <-. reflexivity. }
  assert (capacity r = 4) as Hcap by (vm_compute in Hr; injection Hr as <-; reflexivity).
  destruct (packets_counted_once comm_world comm_reader r [] _ no_policy new_store new_store_full
    ltac:(right; split; [reflexivity|discriminate]) Hs ltac:(rewrite Hcap; discriminate) ltac:(repeat constructor))
    as (p' & s' & Hc & _ & [->|[Hnil _]]); [|discriminate Hnil].
  exists (packets (JStr "seg") ([] ++ [(comm_row COMM_SENT, 10); (comm_row COMM_RECV, 20)])), s'.
  split; [exact Hc|]. vm_compute. reflexivity.
Defined.

(** A late poll shows the newest three points only. *)
Lemma late_poll_drops :
  versions (shown_at (run_dash ([PAttach "run"; PPoll] ++
    (PAppend "policy/latency_ms" [f1] <$> [1; 2; 3; 4; 5]) ++ [PPoll])) "policy/latency_ms") = [3; 4; 5].
Proof. vm_compute. reflexivity. Qed.

(** A leader vector feeds two plots, its joints and its gripper. *)
Lemma leader_feeds_two : (fun p => (pl_key p, selected p (f_of_Z <$> [1; 2; 3; 4; 5; 6; 7; 8]))) <$> specs_by_stream "factr/left" =
  [("leader/left/q", f_of_Z <$> [1; 2; 3; 4; 5; 6; 7]); ("leader/left/grip", [f_of_Z 8])].
Proof. vm_compute. reflexivity. Qed.
