(* ===== verification/Consumers.v ===== *)
(** * The viewer processes

    Models the construction and the start of the two stream consumers, [ViserConsumer] of
    [viser/consumer.py] and [PlotlyDashConsumer] of [plotly_dash/consumer.py]: the routes they compute, the
    server they bind, what they report to the process that waits for them, and their loop, the one of
    [ViewerStreams] over the scene of [ViewerScene] and over the store of [PlotStore].  The second file
    repeats the stream handling of the first; its functions are that model without the streams that are
    live by their process alone. *)

From Stdlib Require Import String Ascii.
From S2P Require Import Prelude Float64 Ring Streams Text LiveView ViewerStreams ViewerScene PlotStore.
Local Open Scope string_scope.
Local Open Scope list_scope.

Definition DEFAULT_PLOT_RATE_HZ : f64 := f_of_Z 3.

(** [__init__]: a finite, positive rate, and a route for every name. *)
Definition consumer_routes (rate_hz : f64) (names : list string) : res (list (string * StreamRoute)) :=
  if negb (is_finite rate_hz) || fle rate_hz f0 then Raise ValueError
  else foldM_res (fun d n => let? r := parse_stream_name n in Ok (dset n r d)) names [].

(** What the starting process sees: the ready event, and an error put in the startup queue. *)
Record started := Started { st_ready : bool; st_error : option exn }.

(** The start of [run]: binding the server may fail, which is reported before it is raised. *)
Definition announce_start (bound : res unit) : started * res unit :=
  match bound with
  | Ok _ => (Started true None, Ok tt)
  | Raise x => (Started true (Some x), Raise x)
  end.

Section plots_consumer.
Context (routes : list (string * StreamRoute)).

Definition plot_newest_live_run (w : world) (pid_live : Z -> res bool) (now_ns : Z) (dirs : option (list run_dir)) :
    res (option (string * list (string * RegistryEntry))) :=
  newest_live_run w pid_live now_ns (fun _ => false) routes dirs.

Definition plot_entry_is_live (w : world) (pid_live : Z -> res bool) (now_ns : Z) (e : RegistryEntry) : res bool :=
  entry_is_live w pid_live now_ns e.

Definition plot_sync_readers (w : world) (entries : list (string * RegistryEntry)) (c : conn plots) : conn plots := sync_readers w entries c.
Definition plot_close_readers (c : conn plots) : conn plots := drop_run None c.

(** The loop of [PlotlyDashConsumer.run]: nothing is done before a tick or drawn after it. *)
Definition plot_loop (ts : list viewer_tick) : ST (conn plots) unit :=
  viewer_run routes (fun _ => false) (fun _ k => Ok k) (fun _ k => Ok k) ts.

(** [run]: the store, the server, the loop; what the starter sees, the connection, and how it ends. *)
Definition plot_consumer_run (k : plots) (bound : res unit) (ts : list viewer_tick) : started * conn plots * outcome unit :=
  let s := announce_start bound in
  match s.2 with
  | Raise x => (s.1, new_conn k, Raised x)
  | Ok _ => let r := plot_loop ts (new_conn k) in (s.1, r.1, r.2)
  end.
End plots_consumer.

(** [start_consumer] and [stop_consumer] of [plotly_dash/consumer.py], on its own handle. *)
Definition plot_start_consumer (dies : nat -> exit_on) : list string * string * Z -> startup -> ST viewer_procs vhandle := start_consumer dies.
Definition plot_stop_consumer (dies : nat -> exit_on) : viewer_procs -> viewer_procs := stop_consumer dies.

(** ** Lemmas *)

Lemma routes_keys rate names routes : consumer_routes rate names = Ok routes ->
  is_finite rate = true /\ (forall n, n ∈ dkeys routes <-> n ∈ names) /\
  (forall n r, dget n routes = Some r -> parse_stream_name n = Ok r).
Proof.
  unfold consumer_routes. destruct (is_finite rate) eqn:Ef; [|done]. cbn [negb orb]. destruct (fle rate f0); [done|]. intros H. split; [done|].
  assert (forall names d d', foldM_res (fun d n => let? r := parse_stream_name n in Ok (dset n r d)) names d = Ok d' ->
    (forall n r, dget n d = Some r -> parse_stream_name n = Ok r) ->
    (forall n, n ∈ dkeys d' <-> n ∈ dkeys d \/ n ∈ names) /\ (forall n r, dget n d' = Some r -> parse_stream_name n = Ok r)) as Hf.
  { clear. induction names as [|x names IH]; intros d d' H Hd; cbn in H.
    - injection H as <-. split; [|done]. intros n. split; [by left|]. by intros [?|?%elem_of_nil].
    - destruct (parse_stream_name x) as [r|] eqn:Er; [|done]. cbn in H.
      destruct (IH _ _ H) as [H1 H2].
      + intros n r' Hn. destruct (decide (n = x)) as [->|Hne]; [rewrite dget_dset_eq in Hn; congruence|].
        rewrite dget_dset_ne in Hn by done. by apply Hd.
      + split; [|done]. intros n. rewrite H1, elem_of_dkeys_dset, elem_of_cons. tauto. }
  destruct (Hf names [] routes H) as [H1 H2]; [done|]. split; [|done]. intros n. rewrite H1. split; [by intros [?%elem_of_nil|?]|by right].
Qed.

(** The plots' process reports a failed bind, and leaks no reader however it ends. *)
Lemma plot_consumer_settles routes k bound ts s c o : plot_consumer_run routes k bound ts = (s, c, o) ->
  st_ready s = true /\ (forall x, st_error s = Some x -> o = Raised x) /\ (o <> Running -> opened_of (cn_log c) ≡ₚ closed_of (cn_log c)).
Proof.
  unfold plot_consumer_run, announce_start. destruct bound as [[]|x]; cbn; intros [= <- <- <-]; (split; [done|]); (split; [|try done]).
  - by intros x.
  - eapply (viewer_releases (K := plots) routes (fun _ => false) (fun _ k => Ok k) (fun _ k => Ok k)).
    + by intros ? ? ? [= <-].
    + by intros ? ? ? [= <-].
    + reflexivity.
    + apply surjective_pairing.
  - by intros y [= <-].
Qed.
