(* ===== verification/Operator.v ===== *)
(** * The dashboard's operator files

    Models the dashboard modules that read what the operator has on disk or types at launch:
    [ssh_hosts.py] (policy hosts from the SSH configuration), [launch.py] (the rig option),
    [factr_servers.py] (the leader servers' health logs), [logs.py] (run logs), [tasks.py] (tasks,
    rigs and policies) and [policy_servers.py] (what a policy server says about itself).  File
    contents, directory listings, clocks and the network are inputs. *)

From Stdlib Require Import SpecFloat Ascii String.
From S2P Require Import Prelude Float64 Ring Streams Text Layout Json SkillFile CalibFile LiveView Downloads Storage.
Local Open Scope string_scope.
Local Open Scope list_scope.
Local Open Scope Z_scope.

(** ** Text *)

(** The ASCII characters [str.strip] and [str.split] treat as blank. *)
Definition is_blank (c : ascii) : bool :=
  (byte_of c =? 32) || ((9 <=? byte_of c) && (byte_of c <=? 13)) || ((28 <=? byte_of c) && (byte_of c <=? 31)).

Definition py_strip (s : string) : string := rstrip is_blank (lstrip is_blank s).

(** [s.split()]. *)
Fixpoint words_from (cur : string) (s : string) : list string :=
  match s with
  | EmptyString => if bool_decide (cur = "") then [] else [cur]
  | String c t =>
      if is_blank c then (if bool_decide (cur = "") then words_from "" t else cur :: words_from "" t)
      else words_from (cur +:+ String c "") t
  end.
Definition py_words (s : string) : list string := words_from "" s.

(** [s.replace(c, d, 1)] on characters. *)
Fixpoint replace_first (c d : ascii) (s : string) : string :=
  match s with
  | EmptyString => ""
  | String x t => if Ascii.eqb x c then String d t else String x (replace_first c d t)
  end.

(** [s.partition(c)] without the separator. *)
Definition partition_at (c : ascii) (s : string) : string * string :=
  let r := span (fun x => negb (Ascii.eqb x c)) s in
  (r.1, match r.2 with String _ t => t | EmptyString => "" end).

(** ** SSH hosts ([ssh_hosts.py]) *)

Record SshHost := MkHost { sh_alias : string; sh_address : string }.

Definition MAX_INCLUDE_DEPTH : nat := 8.

Definition pattern_char (c : ascii) : bool := Ascii.eqb c "*" || Ascii.eqb c "?" || Ascii.eqb c "!".
Definition is_pattern (a : string) : bool := negb (all_chars (fun c => negb (pattern_char c)) a).

(** The hosts found and the aliases seen. *)
Record found := Found { fo_out : list SshHost; fo_seen : list string; fo_open : list string }.

(** An alias with its address, unless it was seen before. *)
Definition add_host (address : string -> string) (f : found) (alias : string) : found :=
  if bool_decide (alias ∈ fo_seen f) then f
  else Found (fo_out f ++ [MkHost alias (address alias)]) (fo_seen f ++ [alias]) (fo_open f).

Definition close_with (address : string -> string) (f : found) : found :=
  let f := foldl (add_host address) f (fo_open f) in Found (fo_out f) (fo_seen f) [].

(** [close_block]: no [HostName] was seen. *)
Definition close_block (f : found) : found := close_with (fun a => a) f.

Section ssh.
(** File contents ([None]: unreadable), and [sorted(glob.glob(pattern))]. *)
Context (read_lines : string -> option (list string)) (glob : string -> list string) (home : string).

(** [expanduser] on a plain [~/...]. *)
Definition expanduser (p : string) : string :=
  match strip_prefix "~/" p with Some rest => home +:+ "/" +:+ rest | None => if bool_decide (p = "~") then home else p end.

Definition parent_dir (p : string) : option string :=
  match removelast (py_split "/" p) with [] => None | l => Some (py_join "/" l) end.

(** [_include_paths]. *)
Definition include_paths (pattern path : string) : list string :=
  let pattern := expanduser pattern in
  glob (if starts_with "/" pattern then pattern
        else match parent_dir path with Some d => d +:+ "/" +:+ pattern | None => pattern end).

(** Key and value of a line. *)
Definition key_value (line : string) : string * string :=
  let r := partition_at " " (replace_first "=" " " line) in (str_lower r.1, py_strip r.2).

(** One line; [include] parses another file with what was found so far. *)
Definition parse_line (include : string -> list SshHost * list string -> list SshHost * list string) (path : string)
    (f : found) (raw : string) : found :=
  let line := py_strip raw in
  if bool_decide (line = "") || starts_with "#" line then f
  else
    let kv := key_value line in
    if bool_decide (kv.1 = "host") then
      let f := close_block f in
      Found (fo_out f) (fo_seen f) (List.filter (fun a => negb (is_pattern a)) (py_words kv.2))
    else if bool_decide (kv.1 = "match") then close_block f
    else if bool_decide (kv.1 = "hostname") && negb (bool_decide (fo_open f = [])) then close_with (fun _ => kv.2) f
    else if bool_decide (kv.1 = "include") then
      let r := foldl (fun acc p => include p acc) (fo_out f, fo_seen f) (py_words kv.2 ≫= fun i => include_paths i path) in
      Found r.1 r.2 (fo_open f)
    else f.

(** [_parse_file]; [depth] counts down. *)
Fixpoint parse_file (depth : nat) (path : string) (acc : list SshHost * list string) : list SshHost * list string :=
  match depth with
  | O => acc
  | S depth =>
      match read_lines path with
      | None => acc
      | Some lines =>
          let f := close_block (foldl (parse_line (parse_file depth) path) (Found acc.1 acc.2 []) lines) in
          (fo_out f, fo_seen f)
      end
  end.

(** Depths 0 to [_MAX_INCLUDE_DEPTH] are read. *)
Definition discover_ssh_hosts (path : string) : list SshHost := (parse_file (S MAX_INCLUDE_DEPTH) path ([], [])).1.

Definition policy_server_hosts (path : string) : list SshHost :=
  MkHost "localhost" "127.0.0.1" ::
  List.filter (fun h => negb (bool_decide (sh_alias h = "localhost"))) (discover_ssh_hosts path).
End ssh.

(** ** The rig option ([launch.py]) *)

Definition RIG_ENV_VAR : string := "DFC_DASHBOARD_RIG".

Fixpoint pop_rig_from (rig : option string) (rest : list string) (argv : list string) : res (option string * list string) :=
  match argv with
  | [] => Ok (rig, rest)
  | arg :: argv =>
      if bool_decide (arg = "--rig") then
        match argv with
        | [] => Raise SystemExit
        | r :: argv => pop_rig_from (Some r) rest argv
        end
      else match strip_prefix "--rig=" arg with
           | Some r => pop_rig_from (Some r) rest argv
           | None => pop_rig_from rig (rest ++ [arg]) argv
           end
  end.

(** [_pop_rig_arg]. *)
Definition pop_rig_arg (argv : list string) : res (option string * list string) := pop_rig_from None [] argv.

Definition validate_rig (rigs : list string) (rig : string) : res unit :=
  if bool_decide (rig ∈ rigs) then Ok tt else Raise SystemExit.

(** What [main] does before Streamlit takes over: the environment, whether the services start, and
    the arguments handed on. *)
Record launch_result := Launched { la_env : list (string * string); la_argv : list string }.

Definition dashboard_main (rigs : list string) (app_path : string) (env : list (string * string)) (argv : list string) :
    res launch_result :=
  let? r := pop_rig_arg argv in
  let? env := match r.1 with
              | Some rig => let? _ := validate_rig rigs rig in Ok (dset RIG_ENV_VAR rig env)
              | None =>
                  match dget RIG_ENV_VAR env with
                  | Some ((String _ _) as rig) => let? _ := validate_rig rigs rig in Ok env
                  | _ => Ok env
                  end
              end in
  Ok (Launched env (["streamlit"; "run"; app_path; "--server.headless=true"; "--theme.base=dark";
                     "--client.toolbarMode=minimal"] ++ r.2)).

(** ** Leader server health ([factr_servers.py]) *)

Inductive boot_phase := CALIBRATING | MATCHING | RUNNING.

Record ServoHealth := Servo { sv_sid : Z; sv_temp_c : Z; sv_current : Z; sv_current_limit : Z }.

Record TeleopHealth := Health {
  th_phase : boot_phase; th_match_error : option f64; th_ts : option f64; th_age_s : option f64;
  th_servos : list ServoHealth; th_alerts : list string;
}.

(** [max(servos, key=temp_c)]: the first of the hottest. *)
Definition hottest (servos : list ServoHealth) : option ServoHealth :=
  match servos with
  | [] => None
  | s :: servos => Some (foldl (fun m s => if sv_temp_c m <? sv_temp_c s then s else m) s servos)
  end.

(** [\d+] and [-?\d+]. *)
Definition re_digits (s : string) : option (Z * string) :=
  let r := span digit_char s in
  if bool_decide (r.1 = "") then None else n ← digits_from 0 r.1; Some (n, r.2).
Definition re_signed (s : string) : option (Z * string) :=
  match s with
  | String "-" t => r ← re_digits t; Some (- r.1, r.2)
  | _ => re_digits s
  end.

(** [id(\d+):T=(-?\d+)C I=(-?\d+)/(\d+)] at the head of a string. *)
Definition match_servo (s : string) : option (ServoHealth * string) :=
  s ← strip_prefix "id" s; '(sid, s) ← re_digits s;
  s ← strip_prefix ":T=" s; '(temp, s) ← re_signed s;
  s ← strip_prefix "C I=" s; '(cur, s) ← re_signed s;
  s ← strip_prefix "/" s; '(lim, s) ← re_digits s;
  Some (Servo sid temp cur lim, s).

(** [_SERVO_RE.findall], one unit of fuel per character. *)
Fixpoint find_servos (fuel : nat) (s : string) : list ServoHealth :=
  match fuel with
  | O => []
  | S fuel =>
      match match_servo s with
      | Some (v, rest) => v :: find_servos fuel rest
      | None => match s with EmptyString => [] | String _ t => find_servos fuel t end
      end
  end.
Definition parse_servos (line : string) : list ServoHealth := find_servos (S (String.length line)) line.

(** [tail_lines]: [data] is what the bounded read returns, split into lines; [size] the file's. *)
Definition TAIL_BYTES : Z := 32768.
Definition tail_lines (size : Z) (lines : list string) : list string :=
  if (TAIL_BYTES <? size) then drop 1 lines else lines.

Definition ALERT_WINDOW_LINES : nat := 40.
Definition is_alert (line : string) : bool := contains "HARDWARE ERROR" line || contains "disabled its own torque" line.
Definition alerts_of (lines : list string) : list string :=
  py_strip <$> List.filter is_alert (drop (length lines - ALERT_WINDOW_LINES) lines).

(** What a line says about the phase. *)
Inductive marker := MHealth | MMatched | MPlease | MOffsets.

Definition marker_of (line : string) : option marker :=
  if contains "[health] servo" line || contains "[health] read failed" line then None
  else if contains "[health]" line then Some MHealth
  else if contains "Initial joint position matched" line then Some MMatched
  else if contains "Please match starting joint pos" line then Some MPlease
  else if contains "best offsets" line then Some MOffsets
  else None.

(** The newest line with a marker. *)
Fixpoint newest_marker (rev_lines : list string) : option (string * marker) :=
  match rev_lines with
  | [] => None
  | line :: l => match marker_of line with Some m => Some (line, m) | None => newest_marker l end
  end.

Section health.
(** The regular-expression searches for the stamp and the match error, and their [float]. *)
Context (ros_ts : string -> option f64) (match_error : string -> option f64).

(** [read_teleop_health] on the lines of the tail. *)
Definition read_teleop_health (now : f64) (lines : list string) : option TeleopHealth :=
  match lines with
  | [] => None
  | _ =>
      let alerts := alerts_of lines in
      Some (match newest_marker (rev lines) with
            | Some (line, MHealth) =>
                let ts := ros_ts line in
                Health RUNNING None ts ((fun t => pmax f0 (fsub now t)) <$> ts) (parse_servos line) alerts
            | Some (_, MMatched) => Health RUNNING None None None [] alerts
            | Some (line, MPlease) => Health MATCHING (match_error line) None None [] alerts
            | Some (_, MOffsets) => Health MATCHING None None None [] alerts
            | None => Health CALIBRATING None None None [] alerts
            end)
  end.
End health.

(** ** Run logs ([logs.py]) *)

Record LogFile := MkLog { lf_name : string; lf_path : string; lf_size_bytes : Z; lf_mtime : f64 }.

(** [discover_logs]: the entries of [root.glob("*/*.log")] with what [stat] says. *)
Definition discover_logs (entries : list (string * string * res (Z * f64))) : list LogFile :=
  py_sorted (fun a b => fle (lf_mtime b) (lf_mtime a))
    (omap (fun x => match x.2 with Ok (size, mtime) => Some (MkLog x.1.1 x.1.2 size mtime) | Raise _ => None end) entries).

Definition MAX_TAIL_BYTES : Z := 262144.

(** [read_tail] on a file's bytes, decoded as they are. *)
Definition read_tail (max_bytes : Z) (content : string) : string :=
  let size := Z.of_nat (String.length content) in
  if max_bytes <? size then
    let window := String.substring (Z.to_nat (size - max_bytes)) (Z.to_nat max_bytes) content in
    "… (showing last " +:+ str_of_int (max_bytes / 1024) +:+ " KB of " +:+ str_of_int (size / 1024) +:+ " KB)" +:+
    String (ascii_byte 10) (partition_at (ascii_byte 10) window).2
  else content.

Definition live_daemon_log (path : option string) (stat : string -> res (Z * f64)) : option LogFile :=
  match path with
  | Some ((String _ _) as p) =>
      match stat p with Ok (size, mtime) => Some (MkLog "live session daemon" p size mtime) | Raise _ => None end
  | _ => None
  end.

(** ** Tasks, rigs, policies ([tasks.py]) *)

Record TaskInfo := MkTask {
  ti_name : string; ti_instruction : string; ti_num_episodes : option Z; ti_num_timesteps : option Z;
}.

(** A YAML file of a group: its stem and its document. *)
Definition conf_group := list (string * json).

Section tasks.
(** [str] of a value. *)
Context (str_of : json -> string).

(** OmegaConf's missing marker. *)
Definition is_missing (k : string) (cfg : json) : bool :=
  match cfg with
  | Obj o => match dget k o with Some (Scalar (JStr v)) => bool_decide (v = "???") | _ => false end
  | _ => false
  end.

Definition maybe_str (cfg : json) (k : string) : option string :=
  match cfg with
  | Obj o =>
      if is_missing k cfg then None
      else match dget k o with Some (Scalar JNull) | None => None | Some v => Some (str_of v) end
  | _ => None
  end.

Definition maybe_int (cfg : json) (k : string) : res (option Z) :=
  match cfg with
  | Obj o =>
      if is_missing k cfg then Ok None
      else match dget k o with
           | Some (Scalar (JInt z)) => Ok (Some z)
           | Some (Scalar (JFloat x)) => res_map Some (py_int (JFloat x))
           | _ => Ok None
           end
  | _ => Ok None
  end.

(** [cfg.get(k) or {}]. *)
Definition sub_config (k : string) (cfg : json) : json :=
  match cfg with Obj o => py_or (default jnull (dget k o)) (Obj []) | _ => Obj [] end.

Definition task_info_of (x : string * json) : res (option TaskInfo) :=
  match maybe_str x.2 "language_instruction" with
  | None => Ok None
  | Some instruction =>
      let? eps := maybe_int (sub_config "collection" x.2) "num_episodes" in
      let? steps := maybe_int (sub_config "eval" x.2) "num_timesteps" in
      Ok (Some (MkTask x.1 instruction eps steps))
  end.

(** [discover_tasks], on the files sorted by name. *)
Definition discover_tasks (files : conf_group) : res (list TaskInfo) :=
  res_map (omap id) (mapM_res task_info_of (py_sorted (fun a b => str_leb a.1 b.1) files)).
End tasks.

Definition discover_policies (stems : list string) : list string :=
  List.filter (fun s => negb (bool_decide (s = "base_policy"))) (py_sorted str_leb stems).

(** [_head_comment] on a file's lines ([None]: unreadable). *)
Fixpoint head_comment (lines : list string) : string :=
  match lines with
  | [] => ""
  | line :: lines =>
      let text := py_strip line in
      if negb (starts_with "#" text) then ""
      else
        let text := py_strip (lstrip (fun c => Ascii.eqb c "#") text) in
        if negb (bool_decide (text = "")) && negb (starts_with "@package" text) then text else head_comment lines
  end.

(** ** Policy servers ([policy_servers.py]) *)

Record PolicyServerInfo := ServerInfo {
  pi_policy_type : string; pi_adapter : string; pi_transport : string; pi_endpoint : string; pi_reachable : bool;
  pi_metadata : list (string * json); pi_error : option string;
}.

Definition display_type (i : PolicyServerInfo) : string :=
  if bool_decide (str_lower (pi_policy_type i) = "openpi") then "OpenPI"
  else string_of_list_ascii (to_upper <$> list_ascii_of_string (pi_policy_type i)).

(** [_compact_identifier]. *)
Definition compact_identifier (v : string) : string :=
  let s := rstrip (fun c => Ascii.eqb c "/") v in
  if (String.length s <=? 72)%nat then s
  else
    let root := if starts_with "/" s then ["/"] else [] in
    let parts := root ++ List.filter (fun x => negb (bool_decide (x = "") || bool_decide (x = "."))) (py_split "/" s) in
    if (2 <=? length parts)%nat then py_join "/" (drop (length parts - 2) parts)
    else String.substring (String.length s - 72) 72 s.

Definition PREFERRED : list string :=
  ["checkpoint_dir"; "checkpoint_path"; "checkpoint"; "policy_name"; "model_name"; "model_type"].

Section inspection.
(** [str] of a scalar. *)
Context (str_of : jval -> string).

(** A string, int or float with a non-empty text. *)
Definition identifier (v : json) : option string :=
  match v with
  | Scalar JNull => None
  | Scalar s => let t := str_of s in if bool_decide (t = "") then None else Some (compact_identifier t)
  | _ => None
  end.

Definition lowered (o : list (string * json)) : list (string * json) :=
  foldl (fun d kv => dset (str_lower kv.1) kv.2 d) [] o.

Fixpoint first_some {A B} (f : A -> option B) (l : list A) : option B :=
  match l with [] => None | x :: l => match f x with Some y => Some y | None => first_some f l end end.

(** The identifier under a preferred key of an object. *)
Definition preferred (o : list (string * json)) : option string :=
  first_some (fun k => match dget k (lowered o) with Some v => identifier v | None => None end) PREFERRED.

(** A truthy answer. *)
Definition nonempty_text (o : option string) : option string :=
  match o with Some ((String _ _) as s) => Some s | _ => None end.

(** [_find_checkpoint]. *)
Fixpoint find_checkpoint (v : json) : option string :=
  match v with
  | Scalar _ => None
  | Arr l =>
      (fix go (l : list json) : option string :=
        match l with [] => None | x :: l => match nonempty_text (find_checkpoint x) with Some s => Some s | None => go l end end) l
  | Obj o =>
      match preferred o with
      | Some s => Some s
      | None =>
          (fix go (o : list (string * json)) : option string :=
            match o with
            | [] => None
            | (_, x) :: o => match nonempty_text (find_checkpoint x) with Some s => Some s | None => go o end
            end) o
      end
  end.
End inspection.

(** [_policy_protocol]: the policy's document, [None] when there is no such file. *)
Definition policy_protocol (str_of : json -> string) (doc : option json) : res (string * string) :=
  match doc with
  | None => Raise ValueError
  | Some d =>
      let? a := jget_or "adapter" (jstr "openpi") d in
      let? t := jget_or "transport" (jstr "websocket") d in
      Ok (str_of a, str_of t)
  end.

(** One request: an HTTP error, another failure, or a body with its JSON reading. *)
Inductive http_answer := HttpError (e : exn) | HttpFailed (e : exn) | HttpBody (empty : bool) (doc : res json).

Definition get_json (required : bool) (a : http_answer) : res (option json) :=
  match a with
  | HttpError e => if required then Raise e else Ok None
  | HttpFailed e => Raise e
  | HttpBody true _ => Ok None
  | HttpBody false (Ok d) => Ok (Some d)
  | HttpBody false (Raise _) => Ok None
  end.

(** [_probe_http]: the answers at [/] and [/conventions]. *)
Definition probe_http (root conventions : http_answer) : res (list (string * json)) :=
  let keep (k : string) (d : option json) (m : list (string * json)) : list (string * json) :=
    match d with Some v => if truthy v then dset k v m else m | None => m end in
  let? r := get_json true root in
  let? c := get_json false conventions in
  Ok (keep "conventions" c (keep "server" r [])).

(** [_probe_websocket]: the metadata frame. *)
Definition probe_websocket (frame : res json) : res (list (string * json)) :=
  let? m := frame in Ok (match m with Obj o => o | v => [("metadata", v)] end).

(** [inspect_policy_server]; [short_error] is the text of an exception. *)
Definition inspect_policy_server (str_of : json -> string) (short_error : exn -> string) (policy_type host : string) (port : Z)
    (doc : option json) (root conventions : http_answer) (frame : res json) : res PolicyServerInfo :=
  let? pt := policy_protocol str_of doc in
  let http := bool_decide (pt.2 = "http") in
  let endpoint := (if http then "http" else "ws") +:+ "://" +:+ host +:+ ":" +:+ str_of_int port in
  Ok (match (if http then probe_http root conventions
             else if bool_decide (pt.2 = "websocket") then probe_websocket frame
             else Raise ValueError) with
      | Raise e => ServerInfo policy_type pt.1 pt.2 endpoint false [] (Some (short_error e))
      | Ok m => ServerInfo policy_type pt.1 pt.2 endpoint true m None
      end).

(** ** SSH hosts: lemmas *)

Lemma words_nonempty cur s : Forall (fun w => w ≠ "") (words_from cur s).
Proof.
  revert cur. induction s as [|c s IH]; intros cur; simpl.
  - case_bool_decide; [constructor|by repeat constructor].
  - destruct (is_blank c); [|apply IH]. case_bool_decide; [apply IH|constructor; [done|apply IH]].
Qed.

(** An alias: not empty, not a pattern. *)
Definition concrete (a : string) : Prop := a ≠ "" /\ is_pattern a = false.

(** The aliases seen are those of the hosts found, each once, all concrete. *)
Definition hosts_ok (acc : list SshHost * list string) : Prop :=
  acc.2 = sh_alias <$> acc.1 /\ NoDup acc.2 /\ Forall concrete acc.2.

Definition found_ok (f : found) : Prop := hosts_ok (fo_out f, fo_seen f) /\ Forall concrete (fo_open f).

Lemma add_host_ok address f a : found_ok f -> concrete a -> found_ok (add_host address f a).
Proof.
  intros [(H1 & H2 & H3) H4] Ha. unfold add_host. case_bool_decide as Hin; [done|].
  split; [|done]. cbn in *. split_and!; cbn.
  - rewrite fmap_app. by rewrite H1.
  - apply list.NoDup_app. split_and!; [done|set_solver|apply list.NoDup_singleton].
  - apply Forall_app. split; [done|constructor; [done|apply Forall_nil_2]].
Qed.

Lemma close_with_ok address f : found_ok f -> found_ok (close_with address f).
Proof.
  intros Hf. unfold close_with.
  enough (forall l g, found_ok g -> Forall concrete l -> found_ok (foldl (add_host address) g l)) as H.
  { pose proof (H (fo_open f) f Hf (proj2 Hf)) as [Hg _]. split; [done|constructor]. }
  induction l as [|a l IH]; intros g Hg Hl; [done|]. apply Forall_cons in Hl as [Ha Hl]. apply IH; [by apply add_host_ok|done].
Qed.

Lemma parse_line_ok glob home include path f raw :
  (forall p acc, hosts_ok acc -> hosts_ok (include p acc)) -> found_ok f -> found_ok (parse_line glob home include path f raw).
Proof.
  intros Hi Hf. unfold parse_line. destruct (_ || _); [done|]. cbv zeta.
  destruct (bool_decide (_ = "host")).
  { pose proof (close_with_ok (fun a => a) f Hf) as [Hc _]. split; [done|]. cbn [fo_open]. apply Forall_forall.
    intros a [Ha Hp]%list_elem_of_In%filter_In. split; [|by apply negb_true_iff in Hp].
    pose proof (words_nonempty "" (key_value (py_strip raw)).2) as Hw. rewrite Forall_forall in Hw. apply Hw. by apply list_elem_of_In. }
  destruct (bool_decide (_ = "match")); [by apply close_with_ok|].
  destruct (_ && _); [by apply close_with_ok|].
  destruct (bool_decide (_ = "include")); [|done]. split; [|apply Hf]. cbn [fo_out fo_seen]. rewrite <-surjective_pairing.
  generalize (py_words (key_value (py_strip raw)).2 ≫= fun i => include_paths glob home i path) as ps. intros ps.
  destruct Hf as [Hf _]. revert Hf. generalize (fo_out f, fo_seen f). induction ps as [|p ps IH]; intros acc Ha; [done|].
  apply IH, Hi, Ha.
Qed.

Lemma parse_file_ok read_lines glob home depth path acc :
  hosts_ok acc -> hosts_ok (parse_file read_lines glob home depth path acc).
Proof.
  revert path acc. induction depth as [|depth IH]; intros path acc Ha; [done|]. cbn [parse_file].
  destruct (read_lines path) as [lines|]; [|done]. apply close_with_ok.
  assert (found_ok (Found acc.1 acc.2 [])) as Hf by (split; [by destruct acc|constructor]).
  revert Hf. generalize (Found acc.1 acc.2 []). induction lines as [|raw lines IHl]; intros f Hf; [done|].
  apply IHl. by apply parse_line_ok.
Qed.

(** The hosts offered for a policy server, whatever the SSH configuration and the files it includes
    say: the loopback machine first, under its own address, then concrete aliases (no patterns),
    each once. *)
Theorem policy_hosts_wellformed read_lines glob home path :
  let hosts := policy_server_hosts read_lines glob home path in
  head hosts = Some (MkHost "localhost" "127.0.0.1") /\ NoDup (sh_alias <$> hosts) /\ Forall (fun h => concrete (sh_alias h)) hosts.
Proof.
  cbv zeta. unfold policy_server_hosts, discover_ssh_hosts.
  pose proof (parse_file_ok read_lines glob home (S MAX_INCLUDE_DEPTH) path ([], [])
    ltac:(split_and!; [done|constructor|constructor])) as (H1 & H2 & H3).
  set (r := parse_file _ _ _ _ _ _) in *. rewrite H1 in H2, H3. clearbody r.
  assert (forall h, h ∈ List.filter (fun h => negb (bool_decide (sh_alias h = "localhost"))) r.1 <-> h ∈ r.1 /\ sh_alias h ≠ "localhost") as Hf.
  { intros h. rewrite list_elem_of_In, filter_In, <-list_elem_of_In, negb_true_iff, bool_decide_eq_false. done. }
  split_and!; [done| |].
  - rewrite fmap_cons. constructor; [intros (h & Hh & [_ Hne]%Hf)%list_elem_of_fmap; by rewrite <-Hh in Hne|].
    clear -H2. induction r.1 as [|h l IH]; [constructor|]. rewrite fmap_cons in H2. apply list.NoDup_cons in H2 as [Hn Hd].
    simpl. destruct (negb _); [|auto]. rewrite fmap_cons. constructor; [|auto].
    intros (h' & Hh' & Hin)%list_elem_of_fmap. apply Hn. rewrite Hh'. apply list_elem_of_fmap_2.
    apply list_elem_of_In, filter_In in Hin as [Hin _]. by apply list_elem_of_In.
  - constructor; [by split|]. apply Forall_forall. intros h [Hh _]%Hf. rewrite Forall_fmap, Forall_forall in H3. by apply H3.
Qed.

(** ** The rig option: lemmas *)

(** An argument that is not the rig option. *)
Definition other_arg (a : string) : Prop := a ≠ "--rig" /\ strip_prefix "--rig=" a = None.

Lemma pop_rig_others rig rest a b : Forall other_arg a -> pop_rig_from rig rest (a ++ b) = pop_rig_from rig (rest ++ a) b.
Proof.
  revert rest. induction a as [|x a IH]; intros rest; [by rewrite app_nil_r|]. intros [[Hx Hp] Ha]%Forall_cons. cbn [pop_rig_from app].
  rewrite bool_decide_false by done. rewrite Hp, IH by done. by rewrite <-app_assoc.
Qed.

Lemma pop_rig_rest rig rest argv rig' rest' : pop_rig_from rig rest argv = Ok (rig', rest') ->
  exists l, rest' = rest ++ l /\ Forall other_arg l.
Proof.
  assert (forall n argv, (length argv <= n)%nat -> forall rig rest, pop_rig_from rig rest argv = Ok (rig', rest') ->
    exists l, rest' = rest ++ l /\ Forall other_arg l) as H; [|by apply (H (length argv))].
  induction n as [|n IH]; intros argv' Hn rig0 rest0; (destruct argv' as [|a argv']; [intros [= <- <-]; exists []; by rewrite app_nil_r|]);
    simpl in Hn; [lia|]. cbn [pop_rig_from]. case_bool_decide as Ha.
  - destruct argv' as [|r argv']; [done|]. apply IH. simpl in Hn. lia.
  - destruct (strip_prefix "--rig=" a) eqn:E; [apply IH; lia|]. intros (l & -> & Hl)%IH; [|lia].
    exists (a :: l). split; [by rewrite <-app_assoc|]. by constructor.
Qed.

(** The rig option in either form is taken out wherever it stands and the other arguments pass in
    order; the rig that starts is a configured one, and Streamlit never sees the option. *)
Theorem rig_option_exact rigs app_path env a b r :
  Forall other_arg a -> Forall other_arg b ->
  pop_rig_arg (a ++ ["--rig"; r] ++ b) = Ok (Some r, a ++ b) /\ pop_rig_arg (a ++ ["--rig=" +:+ r] ++ b) = Ok (Some r, a ++ b) /\
  pop_rig_arg (a ++ b) = Ok (None, a ++ b) /\ pop_rig_arg (a ++ ["--rig"]) = Raise SystemExit /\
  (forall argv res, dashboard_main rigs app_path env argv = Ok res ->
     (forall rig, dget RIG_ENV_VAR (la_env res) = Some rig -> rig = "" \/ rig ∈ rigs) /\
     exists l, la_argv res = ["streamlit"; "run"; app_path; "--server.headless=true"; "--theme.base=dark";
       "--client.toolbarMode=minimal"] ++ l /\ Forall other_arg l).
Proof.
  intros Ha Hb. unfold pop_rig_arg.
  assert (forall rig rest, pop_rig_from rig rest b = Ok (rig, rest ++ b)) as Hend.
  { intros rig rest. rewrite <-(app_nil_r b) at 1. by rewrite pop_rig_others. }
  split_and!; rewrite ?pop_rig_others by done; cbn [app].
  - cbn [pop_rig_from]. by rewrite bool_decide_true, Hend.
  - cbn [pop_rig_from]. rewrite bool_decide_false by done. by rewrite strip_prefix_app, Hend.
  - by rewrite Hend.
  - done.
  - intros argv res H. unfold dashboard_main, pop_rig_arg in H. destruct (pop_rig_from None [] argv) as [[rig rest]|] eqn:E; [|done].
    apply pop_rig_rest in E as (l & -> & Hl). cbn [res_bind fst snd app] in H.
    assert (forall x u, validate_rig rigs x = Ok u -> x ∈ rigs) as Hv by (intros x u; unfold validate_rig; by case_bool_decide).
    destruct rig as [rig|].
    + destruct (validate_rig rigs rig) as [u|] eqn:Ev; [|done]. injection H as <-. split; [|by exists l].
      intros rig'. cbn. rewrite dget_dset_eq. intros [= <-]. right. by eapply Hv.
    + destruct (dget RIG_ENV_VAR env) as [[|c t]|] eqn:Eg; cbn in H.
      * injection H as <-. split; [|by exists l]. cbn. rewrite Eg. intros rig' [= <-]. by left.
      * destruct (validate_rig rigs (String c t)) as [u|] eqn:Ev; [|done]. injection H as <-. split; [|by exists l].
        cbn. rewrite Eg. intros rig' [= <-]. right. by eapply Hv.
      * injection H as <-. split; [|by exists l]. cbn. by rewrite Eg.
Qed.

(** ** Health lines: lemmas *)

(** The reading as a server prints it. *)
Definition servo_text (v : ServoHealth) : string :=
  "id" +:+ str_of_int (sv_sid v) +:+ ":T=" +:+ str_of_int (sv_temp_c v) +:+ "C I=" +:+ str_of_int (sv_current v) +:+ "/" +:+
  str_of_int (sv_current_limit v).
Definition servo_wf (v : ServoHealth) : Prop := 0 <= sv_sid v /\ 0 <= sv_current_limit v.

(** What follows a number is not a digit. *)
Definition ends_number (t : string) : Prop := t = "" \/ exists c t', t = String c t' /\ digit_char c = false.

Lemma re_digits_print n t : 0 <= n -> ends_number t -> re_digits (str_of_int n +:+ t) = Some (n, t).
Proof.
  intros Hn Ht. pose proof (str_of_int_isdigit n Hn) as Hd. apply andb_true_iff in Hd as [Hne Hd].
  assert (span digit_char (str_of_int n +:+ t) = (str_of_int n, t)) as Hs.
  { destruct Ht as [->|(c & t' & -> & Hc)]; [rewrite str_app_nil_r; by apply span_full|by apply span_app]. }
  unfold re_digits. rewrite Hs. cbn [fst snd]. rewrite bool_decide_false by (by apply negb_true_iff, bool_decide_eq_false in Hne).
  by rewrite str_of_int_digits.
Qed.

Lemma str_of_int_head n : 0 <= n -> exists c t, str_of_int n = String c t /\ digit_char c = true.
Proof.
  intros Hn. pose proof (str_of_int_isdigit n Hn) as Hd. apply andb_true_iff in Hd as [Hne Hd].
  destruct (str_of_int n) as [|c t]; [done|]. cbn in Hd. apply andb_true_iff in Hd as [Hc _]. eauto.
Qed.

Lemma re_signed_print n t : ends_number t -> re_signed (str_of_int n +:+ t) = Some (n, t).
Proof.
  intros Ht. destruct (decide (0 <= n)) as [Hn|Hn].
  - destruct (str_of_int_head n Hn) as (c & s & E & Hc). pose proof (re_digits_print n t Hn Ht) as H. rewrite E in *.
    change (String c s +:+ t) with (String c (s +:+ t)) in *. unfold re_signed.
    destruct c as [[] [] [] [] [] [] [] []]; try exact H; discriminate Hc.
  - assert (str_of_int n = String "-" (str_of_int (- n))) as ->.
    { unfold str_of_int. replace (n <? 0) with true by lia. by replace (- n <? 0) with false by lia. }
    change (String "-" (str_of_int (- n)) +:+ t) with (String "-" (str_of_int (- n) +:+ t)). cbn [re_signed].
    rewrite re_digits_print by (lia || done). simpl. by rewrite Z.opp_involutive.
Qed.

Lemma match_servo_print v t : servo_wf v -> ends_number t -> match_servo (servo_text v +:+ t) = Some (v, t).
Proof.
  intros [Hs Hl] Ht. unfold servo_text, match_servo. rewrite !str_app_assoc.
  assert (forall c s, digit_char c = false -> ends_number (String c s)) as He by (right; eauto).
  rewrite strip_prefix_app. cbn [mbind option_bind]. rewrite re_digits_print by (done || by apply He). cbn [mbind option_bind].
  rewrite strip_prefix_app. cbn [mbind option_bind]. rewrite re_signed_print by (by apply He). cbn [mbind option_bind].
  rewrite strip_prefix_app. cbn [mbind option_bind]. rewrite re_signed_print by (by apply He). cbn [mbind option_bind].
  rewrite strip_prefix_app. cbn [mbind option_bind]. rewrite re_digits_print by done. cbn [mbind option_bind]. by destruct v.
Qed.

Lemma match_servo_id s : match_servo s ≠ None -> exists t, s = "id" +:+ t.
Proof.
  unfold match_servo. destruct (strip_prefix "id" s) as [t|] eqn:E; [|done]. intros _. exists t. by apply strip_prefix_Some.
Qed.

(** Text without [id] in front of a reading is skipped. *)
Lemma find_servos_skip p rest fuel : contains "id" p = false -> (exists t, rest = String "i" t) ->
  find_servos (String.length p + fuel) (p +:+ rest) = find_servos fuel rest.
Proof.
  intros Hp Hr. induction p as [|c p IH]; [done|]. cbn [contains] in Hp. apply orb_false_iff in Hp as [Hc Hp].
  change (String c p +:+ rest) with (String c (p +:+ rest)). cbn [String.length Nat.add find_servos].
  destruct (match_servo (String c (p +:+ rest))) as [[v t]|] eqn:E; [|by apply IH].
  exfalso. destruct (match_servo_id (String c (p +:+ rest))) as [u Hu]; [congruence|].
  change ("id" +:+ u) with (String "i" (String "d" u)) in Hu. injection Hu as -> Hu.
  destruct p as [|d p]; [destruct Hr as [t' ->]; discriminate Hu|]. injection Hu as -> _. discriminate Hc.
Qed.

Lemma length_str_app a b : String.length (a +:+ b) = (String.length a + String.length b)%nat.
Proof. induction a as [|c a IH]; [done|]. change (S (String.length (a +:+ b)) = S (String.length a + String.length b)). by rewrite IH. Qed.

(** Reading back a health line: whatever text without [id] precedes them, the readings parsed are
    exactly those printed, in order. *)
Theorem servos_roundtrip prefix servos :
  contains "id" prefix = false -> Forall servo_wf servos ->
  parse_servos (prefix +:+ py_join "  " (servo_text <$> servos)) = servos.
Proof.
  intros Hp Hs. unfold parse_servos.
  assert (forall p l fuel, contains "id" p = false -> Forall servo_wf l ->
    (String.length (p +:+ py_join "  " (servo_text <$> l)) < fuel)%nat ->
    find_servos fuel (p +:+ py_join "  " (servo_text <$> l)) = l) as H; [|apply H; [done|done|lia]].
  clear. intros p l fuel Hp Hl. revert p fuel Hp. induction Hl as [|v l Hv Hl IH]; intros p fuel Hp Hf.
  - simpl in *. rewrite str_app_nil_r in *. revert fuel Hf. induction p as [|c p IHp]; intros fuel Hf; (destruct fuel; [lia|]); [done|].
    cbn [contains] in Hp. apply orb_false_iff in Hp as [Hc Hp]. cbn [find_servos].
    destruct (match_servo (String c p)) as [[u t]|] eqn:E; [|apply IHp; [done|simpl in Hf; lia]].
    exfalso. destruct (match_servo_id (String c p)) as [t' Ht]; [congruence|].
    change ("id" +:+ t') with (String "i" (String "d" t')) in Ht. injection Ht as -> ->. discriminate Hc.
  - set (tail := match l with [] => "" | _ => "  " +:+ py_join "  " (servo_text <$> l) end).
    assert (py_join "  " (servo_text <$> (v :: l)) = servo_text v +:+ tail) as Ej
      by (unfold tail; destruct l; [cbn; by rewrite str_app_nil_r|done]).
    rewrite Ej in *. rewrite !length_str_app in Hf.
    replace fuel with (String.length p + S (fuel - String.length p - 1))%nat by lia.
    rewrite find_servos_skip; [|done|unfold servo_text; by eexists]. cbn [find_servos].
    rewrite match_servo_print; [|done|unfold tail; destruct l; [by left|right; by do 2 eexists]].
    f_equal. unfold tail in *. destruct l as [|v' l']; [by destruct (fuel - String.length p - 1)%nat|].
    apply IH; [done|]. assert (0 < String.length (servo_text v))%nat by (unfold servo_text; simpl; lia). lia.
Qed.

Lemma newest_marker_app l l' : newest_marker (l ++ l') =
  match newest_marker l with Some x => Some x | None => newest_marker l' end.
Proof. induction l as [|x l IH]; [done|]. cbn [newest_marker app]. destruct (marker_of x); [done|apply IH]. Qed.

Lemma newest_marker_none l : Forall (fun x => marker_of x = None) l -> newest_marker l = None.
Proof. induction 1 as [|x l Hx Hl IH]; [done|]. cbn [newest_marker]. by rewrite Hx. Qed.

(** The state shown for a leader server is that of the newest line that says anything: older lines
    do not matter, fault lines do not hide it, and the alerts shown are fault lines of the last forty. *)
Theorem health_is_newest ros_ts match_error now old line new m :
  marker_of line = Some m -> Forall (fun x => marker_of x = None) new ->
  exists h, read_teleop_health ros_ts match_error now (old ++ line :: new) = Some h /\
    th_phase h = match m with MHealth | MMatched => RUNNING | MPlease | MOffsets => MATCHING end /\
    th_servos h = match m with MHealth => parse_servos line | _ => [] end /\
    th_match_error h = match m with MPlease => match_error line | _ => None end /\
    (forall a, a ∈ th_alerts h -> exists l, l ∈ drop (length (old ++ line :: new) - ALERT_WINDOW_LINES) (old ++ line :: new) /\
       is_alert l = true /\ a = py_strip l).
Proof.
  intros Hm Hn. unfold read_teleop_health. destruct (old ++ line :: new) as [|x l] eqn:E; [by destruct old|]. rewrite <-E.
  assert (newest_marker (rev (old ++ line :: new)) = Some (line, m)) as ->.
  { rewrite rev_app_distr. cbn [rev]. rewrite <-app_assoc, newest_marker_app, newest_marker_none.
    - cbn [app newest_marker]. by rewrite Hm.
    - rewrite Forall_forall in Hn |- *. intros y Hy. apply Hn. apply list_elem_of_In, in_rev. by rewrite <-list_elem_of_In. }
  assert (forall a, a ∈ alerts_of (old ++ line :: new) ->
    exists l, l ∈ drop (length (old ++ line :: new) - ALERT_WINDOW_LINES) (old ++ line :: new) /\ is_alert l = true /\ a = py_strip l) as Ha.
  { intros a (y & -> & [Hy Hal]%list_elem_of_In%filter_In)%list_elem_of_fmap. exists y. by rewrite list_elem_of_In. }
  destruct m; eexists; (split; [reflexivity|]); by split_and!.
Qed.

(** ** Policy servers: lemmas *)

(** A key and its value, anywhere in a document. *)
Inductive occurs (k : string) (x : json) : json -> Prop :=
  | occurs_here o : (k, x) ∈ o -> occurs k x (Obj o)
  | occurs_obj o k' v : (k', v) ∈ o -> occurs k x v -> occurs k x (Obj o)
  | occurs_arr l v : v ∈ l -> occurs k x v -> occurs k x (Arr l).

Lemma lowered_source o k v : dget k (lowered o) = Some v -> exists k', (k', v) ∈ o /\ str_lower k' = k.
Proof.
  unfold lowered.
  enough (forall l (d : list (string * json)), dget k (foldl (fun d kv => dset (str_lower kv.1) kv.2 d) d l) = Some v ->
    dget k d = Some v \/ exists k', (k', v) ∈ l /\ str_lower k' = k) as H by (intros [?|?]%H; [done|done]).
  induction l as [|[a b] l IH]; intros d Hd; [by left|]. apply IH in Hd as [Hd|(k' & ? & ?)]; [|right; exists k'; set_solver].
  cbn [fst snd] in Hd. destruct (decide (k = str_lower a)) as [->|Hne].
  - rewrite dget_dset_eq in Hd. injection Hd as ->. right. exists a. set_solver.
  - rewrite dget_dset_ne in Hd by done. by left.
Qed.

(** Induction through the lists and the objects of a document. *)
Definition json_ind_all (P : json -> Prop) (Hs : forall v, P (Scalar v)) (Ha : forall l, Forall P l -> P (Arr l))
    (Ho : forall o, Forall (fun kv => P kv.2) o -> P (Obj o)) : forall v, P v :=
  fix go v :=
    match v with
    | Scalar s => Hs s
    | Arr l => Ha l ((fix all l : Forall P l :=
        match l with [] => @List.Forall_nil json P | x :: l => @List.Forall_cons json P x l (go x) (all l) end) l)
    | Obj o => Ho o ((fix all (o : list (string * json)) : Forall (fun kv => P kv.2) o :=
        match o with
        | [] => @List.Forall_nil _ _
        | (k, x) :: o => @List.Forall_cons _ (fun kv => P kv.2) (k, x) o (go x) (all o)
        end) o)
    end.

Section checkpoint.
Context (str_of : jval -> string).

Lemma preferred_spec o s : preferred str_of o = Some s ->
  exists k x, (k, x) ∈ o /\ str_lower k ∈ PREFERRED /\ identifier str_of x = Some s.
Proof.
  unfold preferred.
  assert (forall l, first_some (fun k => match dget k (lowered o) with Some v => identifier str_of v | None => None end) l = Some s ->
    exists k v, k ∈ l /\ dget k (lowered o) = Some v /\ identifier str_of v = Some s) as H.
  { induction l as [|k l IH]; cbn [first_some]; [done|]. destruct (dget k (lowered o)) as [v|] eqn:E.
    - destruct (identifier str_of v) eqn:Ei; [intros [= <-]; exists k, v; split_and!; [left|done|done]|].
      intros (k' & v' & ? & ?)%IH. exists k', v'. split; [by right|done].
    - intros (k' & v' & ? & ?)%IH. exists k', v'. split; [by right|done]. }
  intros (k & v & Hk & (k' & Hin & <-)%lowered_source & Hi)%H. eauto.
Qed.

(** The checkpoint shown for a policy server is one the server names: a text or number under one of
    the recognised keys, somewhere in its metadata. *)
Theorem checkpoint_from_metadata v s : find_checkpoint str_of v = Some s ->
  exists k x, occurs k x v /\ str_lower k ∈ PREFERRED /\ identifier str_of x = Some s.
Proof.
  revert s. induction v as [v|l IH|o IH] using json_ind_all; intros s; [done| |].
  - cbn [find_checkpoint]. induction IH as [|x l Hx Hl IHl]; [done|].
    destruct (find_checkpoint str_of x) as [[|c t]|] eqn:E; cbn [nonempty_text].
    + intros (k & y & Ho & ?)%IHl. exists k, y. split; [|done]. inversion Ho; subst. econstructor; [by right|done].
    + intros [= <-]. destruct (Hx _ eq_refl) as (k & y & Ho & ?). exists k, y. split; [|done]. econstructor; [left|done].
    + intros (k & y & Ho & ?)%IHl. exists k, y. split; [|done]. inversion Ho; subst. econstructor; [by right|done].
  - cbn [find_checkpoint]. destruct (preferred str_of o) as [p|] eqn:Ep.
    { intros [= <-]. apply preferred_spec in Ep as (k & x & Hin & ?). exists k, x. split; [by constructor|done]. }
    clear Ep. induction IH as [|[k' x] o Hx Ho IHo]; [done|]. cbn [snd] in Hx.
    assert (forall k y, occurs k y (Obj o) -> occurs k y (Obj ((k', x) :: o))) as Hlift.
    { intros k y Hoc. inversion Hoc; subst; [constructor; by right|]. eapply occurs_obj; [by right|done]. }
    destruct (find_checkpoint str_of x) as [[|c t]|] eqn:E; cbn [nonempty_text].
    + intros (k & y & Hoc & ?)%IHo. exists k, y. split; [by apply Hlift|done].
    + intros [= <-]. destruct (Hx _ eq_refl) as (k & y & Hoc & ?). exists k, y. split; [|done]. eapply occurs_obj; [left|done].
    + intros (k & y & Hoc & ?)%IHo. exists k, y. split; [by apply Hlift|done].
Qed.
End checkpoint.

(** Inspecting a known policy type never raises: whatever the server answers, the result says it is
    reachable, with what it said, or unreachable with an error. *)
Lemma inspect_total str_of short ty host port doc root conv frame : (exists o, doc = Obj o) ->
  exists i, inspect_policy_server str_of short ty host port (Some doc) root conv frame = Ok i /\
    (pi_reachable i = true <-> pi_error i = None).
Proof.
  intros [o ->]. unfold inspect_policy_server, policy_protocol. cbn [jget_or res_bind]. eexists. split; [reflexivity|].
  destruct (if bool_decide _ then _ else _); by split.
Qed.

(** ** Witnesses and divergences *)

Definition tab : string := String (ascii_byte 9) "".
Definition no_glob : string -> list string := fun _ => [].
Definition one_file (lines : list string) : string -> option (list string) :=
  fun p => if bool_decide (p = "/c") then Some lines else None.

(** Hosts in order, a pattern and a repeated alias left out. *)
Lemma demo_hosts : discover_ssh_hosts (one_file ["Host jeju bora"; "  HostName=10.0.0.1"; "Host *"; "Host jeju"; "  HostName 9.9.9.9"; "Host x"])
    no_glob "/root" "/c" = [MkHost "jeju" "10.0.0.1"; MkHost "bora" "10.0.0.1"; MkHost "x" "x"].
Proof. vm_compute. reflexivity. Qed.

(** A keyword separated by a tab, which SSH accepts, is not recognised: the host is not found, and a
    [HostName] after a tab leaves the alias as its own address. *)
Lemma tab_separated_missed :
  discover_ssh_hosts (one_file ["Host" +:+ tab +:+ "jeju"; "Host bora"; "HostName" +:+ tab +:+ "10.0.0.1"]) no_glob "/root" "/c" =
  [MkHost "bora" "bora"].
Proof. vm_compute. reflexivity. Qed.

(** A first block without [HostName] decides the address, although SSH takes the first [HostName]
    any block of the host gives. *)
Lemma bare_block_decides :
  discover_ssh_hosts (one_file ["Host jeju"; "  User me"; "Host jeju"; "  HostName 10.0.0.1"]) no_glob "/root" "/c" =
  [MkHost "jeju" "jeju"].
Proof. vm_compute. reflexivity. Qed.

Lemma rig_option_exact_witness : pop_rig_arg ["--server.port"; "8502"; "--rig"; "left_only"; "x"] =
  Ok (Some "left_only", ["--server.port"; "8502"; "x"]).
Proof.
  exact (proj1 (rig_option_exact [] "" [] ["--server.port"; "8502"] ["x"] "left_only"
    ltac:(repeat constructor; discriminate) ltac:(repeat constructor; discriminate))).
Defined.

Lemma servos_roundtrip_witness :
  parse_servos "[health] id1:T=41C I=-241/910  id2:T=-3C I=5/1193" = [Servo 1 41 (-241) 910; Servo 2 (-3) 5 1193].
Proof.
  apply (servos_roundtrip "[health] " [Servo 1 41 (-241) 910; Servo 2 (-3) 5 1193]); [reflexivity|].
  repeat constructor; discriminate.
Defined.

Lemma health_is_newest_witness : exists h,
  read_teleop_health (fun _ => None) (fun _ => None) f0
    ["best offsets: []"; "[health] id1:T=41C I=-241/910"; "[health] servo id1 HARDWARE ERROR"] = Some h /\
  th_phase h = RUNNING /\ th_servos h = [Servo 1 41 (-241) 910].
Proof.
  destruct (health_is_newest (fun _ => None) (fun _ => None) f0 ["best offsets: []"] "[health] id1:T=41C I=-241/910"
    ["[health] servo id1 HARDWARE ERROR"] MHealth) as (h & Hh & Hp & Hs & _); [reflexivity|repeat constructor|].
  exists h. split; [exact Hh|]. split; [exact Hp|]. rewrite Hs. vm_compute. reflexivity.
Defined.

Definition demo_str (v : jval) : string := match v with JStr s => s | _ => "" end.

Lemma checkpoint_from_metadata_witness : exists k x,
  occurs k x (Obj [("server", Arr [Obj [("Model_Name", jstr "pi0/"); ("n", jint 1)]])]) /\ str_lower k ∈ PREFERRED /\
  identifier demo_str x = Some "pi0".
Proof. apply (checkpoint_from_metadata demo_str). vm_compute. reflexivity. Defined.
