(* ===== verification/Geometry.v ===== *)
(** * Rotations and rig placement of the viewers

    Models the rotation algebra, the mounts and the camera poses of [visualization/geometry.py].
    The angles and coordinates are real numbers: the rounding of the viewers' floating-point
    arithmetic is left out, so the equations below are those the formulas are meant to satisfy.
    [math.atan2], [math.hypot] and [np.argmax] are defined with the branches Python gives them.

    A quaternion is read as a rotation by [rot_of_quat], the reference definition: every
    conversion of the file (roll-pitch-yaw, axis and angle, matrix to quaternion, products) is
    proved to agree with it, and every matrix it builds is a proper rotation. *)

From Stdlib Require Import Reals Lra Psatz.
From S2P Require Import Prelude.
Local Open Scope string_scope.
Local Open Scope list_scope.
Local Open Scope R_scope.

Create HintDb geo.

(** ** Vectors and matrices *)

Record V3 := Vec { vx : R; vy : R; vz : R }.

Record M33 := Mat {
  m00 : R; m01 : R; m02 : R;
  m10 : R; m11 : R; m12 : R;
  m20 : R; m21 : R; m22 : R;
}.

Definition v0 : V3 := Vec 0 0 0.
Definition vadd (a b : V3) : V3 := Vec (vx a + vx b) (vy a + vy b) (vz a + vz b).
Definition vopp (a : V3) : V3 := Vec (- vx a) (- vy a) (- vz a).
Definition vdot (a b : V3) : R := vx a * vx b + vy a * vy b + vz a * vz b.
Definition vscale (k : R) (a : V3) : V3 := Vec (k * vx a) (k * vy a) (k * vz a).

(** [np.linalg.norm]. *)
Definition vnorm (a : V3) : R := sqrt (vdot a a).

(** [np.eye(3)]. *)
Definition eye : M33 := Mat 1 0 0 0 1 0 0 0 1.

Definition mmul (a b : M33) : M33 :=
  Mat (m00 a * m00 b + m01 a * m10 b + m02 a * m20 b)
      (m00 a * m01 b + m01 a * m11 b + m02 a * m21 b)
      (m00 a * m02 b + m01 a * m12 b + m02 a * m22 b)
      (m10 a * m00 b + m11 a * m10 b + m12 a * m20 b)
      (m10 a * m01 b + m11 a * m11 b + m12 a * m21 b)
      (m10 a * m02 b + m11 a * m12 b + m12 a * m22 b)
      (m20 a * m00 b + m21 a * m10 b + m22 a * m20 b)
      (m20 a * m01 b + m21 a * m11 b + m22 a * m21 b)
      (m20 a * m02 b + m21 a * m12 b + m22 a * m22 b).

Definition mvec (a : M33) (v : V3) : V3 :=
  Vec (m00 a * vx v + m01 a * vy v + m02 a * vz v)
      (m10 a * vx v + m11 a * vy v + m12 a * vz v)
      (m20 a * vx v + m21 a * vy v + m22 a * vz v).

Definition mT (a : M33) : M33 :=
  Mat (m00 a) (m10 a) (m20 a) (m01 a) (m11 a) (m21 a) (m02 a) (m12 a) (m22 a).

Definition madd (a b : M33) : M33 :=
  Mat (m00 a + m00 b) (m01 a + m01 b) (m02 a + m02 b)
      (m10 a + m10 b) (m11 a + m11 b) (m12 a + m12 b)
      (m20 a + m20 b) (m21 a + m21 b) (m22 a + m22 b).

Definition mscale (k : R) (a : M33) : M33 :=
  Mat (k * m00 a) (k * m01 a) (k * m02 a)
      (k * m10 a) (k * m11 a) (k * m12 a)
      (k * m20 a) (k * m21 a) (k * m22 a).

Definition mdet (a : M33) : R :=
  m00 a * (m11 a * m22 a - m12 a * m21 a)
  - m01 a * (m10 a * m22 a - m12 a * m20 a)
  + m02 a * (m10 a * m21 a - m11 a * m20 a).

(** A proper rotation. *)
Definition is_rot (a : M33) : Prop := mmul a (mT a) = eye /\ mdet a = 1.

(** ** Python's functions *)

(** [math.atan2]. *)
Definition atan2 (y x : R) : R :=
  if Rlt_dec 0 x then atan (y / x)
  else if Rlt_dec x 0 then if Rle_dec 0 y then atan (y / x) + PI else atan (y / x) - PI
  else if Rlt_dec 0 y then PI / 2
  else if Rlt_dec y 0 then - (PI / 2) else 0.

(** [math.hypot]. *)
Definition hypot (x y : R) : R := sqrt (x * x + y * y).

(** [np.argmax] of three values: the first of the largest. *)
Definition argmax3 (a b c : R) : nat :=
  if Rlt_dec a b then (if Rlt_dec b c then 2 else 1) else (if Rlt_dec a c then 2 else 0).

(** ** Conversions *)

(** The quaternions of the module are [(x, y, z, w)] tuples. *)
Record quat := Quat { qx : R; qy : R; qz : R; qw : R }.

Definition quat_from_rpy (roll pitch yaw : R) : quat :=
  let cr := cos (roll / 2) in let sr := sin (roll / 2) in
  let cp := cos (pitch / 2) in let sp := sin (pitch / 2) in
  let cy := cos (yaw / 2) in let sy := sin (yaw / 2) in
  Quat (sr * cp * cy - cr * sp * sy)
       (cr * sp * cy + sr * cp * sy)
       (cr * cp * sy - sr * sp * cy)
       (cr * cp * cy + sr * sp * sy).

Definition rot_from_rpy (roll pitch yaw : R) : M33 :=
  let cr := cos roll in let sr := sin roll in
  let cp := cos pitch in let sp := sin pitch in
  let cy := cos yaw in let sy := sin yaw in
  Mat (cy * cp) (cy * sp * sr - sy * cr) (cy * sp * cr + sy * sr)
      (sy * cp) (sy * sp * sr + cy * cr) (sy * sp * cr - cy * sr)
      (- sp) (cp * sr) (cp * cr).

Definition rpy_from_rot (rot : M33) : R * R * R :=
  let pitch := atan2 (- m20 rot) (hypot (m00 rot) (m10 rot)) in
  if Rlt_dec (1 / 10 ^ 9) (Rabs (cos pitch)) then
    (atan2 (m21 rot) (m22 rot), pitch, atan2 (m10 rot) (m00 rot))
  else (atan2 (- m12 rot) (m11 rot), pitch, 0).

(** The early return of both axis-angle conversions. *)
Definition no_rotation (norm angle : R) : bool :=
  if Rlt_dec norm (1 / 10 ^ 9) then true
  else if Rlt_dec (Rabs angle) (1 / 10 ^ 12) then true else false.

Definition quat_from_axis_angle (axis : V3) (angle : R) : quat :=
  let norm := vnorm axis in
  if no_rotation norm angle then Quat 0 0 0 1
  else
    let a := vscale (/ norm) axis in
    let s := sin (angle / 2) in
    Quat (vx a * s) (vy a * s) (vz a * s) (cos (angle / 2)).

Definition quat_mul (q1 q2 : quat) : quat :=
  let '(Quat x1 y1 z1 w1) := q1 in
  let '(Quat x2 y2 z2 w2) := q2 in
  Quat (w1 * x2 + x1 * w2 + y1 * z2 - z1 * y2)
       (w1 * y2 - x1 * z2 + y1 * w2 + z1 * x2)
       (w1 * z2 + x1 * y2 - y1 * x2 + z1 * w2)
       (w1 * w2 - x1 * x2 - y1 * y2 - z1 * z2).

Definition skew (a : V3) : M33 :=
  Mat 0 (- vz a) (vy a) (vz a) 0 (- vx a) (- vy a) (vx a) 0.

(** Rodrigues' formula. *)
Definition rodrigues (a : V3) (angle : R) : M33 :=
  let k := skew a in
  madd (madd eye (mscale (sin angle) k)) (mscale (1 - cos angle) (mmul k k)).

Definition rot_from_axis_angle (axis : V3) (angle : R) : M33 :=
  let norm := vnorm axis in
  if no_rotation norm angle then eye else rodrigues (vscale (/ norm) axis) angle.

(** The viewer's quaternions are [(w, x, y, z)] tuples. *)
Definition wxyz := (R * R * R * R)%type.

Definition xyzw_to_wxyz (q : quat) : wxyz := (qw q, qx q, qy q, qz q).

Definition wxyz_from_rot (m : M33) : wxyz :=
  let tr := m00 m + m11 m + m22 m in
  if Rlt_dec 0 tr then
    let s := sqrt (tr + 1) * 2 in
    (1 / 4 * s, (m21 m - m12 m) / s, (m02 m - m20 m) / s, (m10 m - m01 m) / s)
  else match argmax3 (m00 m) (m11 m) (m22 m) with
  | 0%nat =>
    let s := sqrt (1 + m00 m - m11 m - m22 m) * 2 in
    ((m21 m - m12 m) / s, 1 / 4 * s, (m01 m + m10 m) / s, (m02 m + m20 m) / s)
  | 1%nat =>
    let s := sqrt (1 + m11 m - m00 m - m22 m) * 2 in
    ((m02 m - m20 m) / s, (m01 m + m10 m) / s, 1 / 4 * s, (m12 m + m21 m) / s)
  | _ =>
    let s := sqrt (1 + m22 m - m00 m - m11 m) * 2 in
    ((m10 m - m01 m) / s, (m02 m + m20 m) / s, (m12 m + m21 m) / s, 1 / 4 * s)
  end.

(** The rotation a quaternion stands for, and its squared length. *)
Definition rot_of_quat (q : quat) : M33 :=
  let '(Quat x y z w) := q in
  Mat (w * w + x * x - y * y - z * z) (2 * (x * y - w * z)) (2 * (x * z + w * y))
      (2 * (x * y + w * z)) (w * w - x * x + y * y - z * z) (2 * (y * z - w * x))
      (2 * (x * z - w * y)) (2 * (y * z + w * x)) (w * w - x * x - y * y + z * z).

Definition qnorm2 (q : quat) : R := qx q * qx q + qy q * qy q + qz q * qz q + qw q * qw q.

Definition quat_of_wxyz (q : wxyz) : quat :=
  let '(w, x, y, z) := q in Quat x y z w.

(** ** Placement of the rig *)

Record Mount := MkMount { translation : V3; quat_xyzw : quat; rot : M33 }.

Definition MOUNT_SEP_M : R := 4447 / 10000.
Definition MOUNT_TILT_RAD : R := PI / 4.
Definition MOUNT_YAW_RAD : R := PI / 2.
Definition FACTR_BASE_YAW_RAD : R := PI.

Definition mount (sep_sign tilt : R) : Mount :=
  let tilt_q := quat_from_axis_angle (Vec 0 1 0) tilt in
  let yaw_q := quat_from_axis_angle (Vec 0 0 1) MOUNT_YAW_RAD in
  MkMount (Vec (sep_sign * MOUNT_SEP_M / 2) 0 0)
          (quat_mul tilt_q yaw_q)
          (mmul (rot_from_axis_angle (Vec 0 1 0) tilt)
                (rot_from_axis_angle (Vec 0 0 1) MOUNT_YAW_RAD)).

Definition MOUNTS : list (string * Mount) :=
  [("left", mount (-1) (- MOUNT_TILT_RAD)); ("right", mount 1 MOUNT_TILT_RAD)].

(** [MOUNTS\[side\]]. *)
Definition mount_of (side : string) : res Mount := of_option KeyError (dget side MOUNTS).

Definition factr_mount (side : string) : res Mount :=
  let? m := mount_of side in
  let correction_q := quat_from_axis_angle (Vec 0 0 1) FACTR_BASE_YAW_RAD in
  let correction_r := rot_from_axis_angle (Vec 0 0 1) FACTR_BASE_YAW_RAD in
  Ok (MkMount (translation m) (quat_mul (quat_xyzw m) correction_q) (mmul (rot m) correction_r)).

(** A tuple used as a 3-vector: [matrix @ np.asarray(t)] and [f( *t)] refuse other lengths. *)
Definition vec3_of (e : exn) (l : list R) : res V3 :=
  match l with [a; b; c] => Ok (Vec a b c) | _ => Raise e end.

Definition mount_world_point (side : string) (point : list R) : res V3 :=
  let? m := mount_of side in
  let? p := vec3_of ValueError (take 3 point) in
  Ok (vadd (mvec (rot m) p) (translation m)).

(** The pose fields of a camera's configuration: lists of any length. *)
Record CameraPose := MkCameraPose { pose_frame : string; pose_xyz : list R; pose_rpy : list R }.

(** Adding a list to a 3-vector: one number is broadcast. *)
Definition vadd_list (v : V3) (l : list R) : res V3 :=
  match l with
  | [a] => Ok (vadd v (Vec a a a))
  | _ => res_map (vadd v) (vec3_of ValueError l)
  end.

Definition anchors : list (string * V3) :=
  [("world", v0); ("mount_left", translation (mount (-1) (- MOUNT_TILT_RAD)));
   ("mount_right", translation (mount 1 MOUNT_TILT_RAD))].

Definition camera_world_pose (cam : CameraPose) : res (M33 * V3) :=
  match dget (pose_frame cam) anchors with
  | None => Raise ValueError
  | Some anchor =>
    let? rpy := vec3_of TypeError (pose_rpy cam) in
    let? t := vadd_list anchor (pose_xyz cam) in
    Ok (rot_from_rpy (vx rpy) (vy rpy) (vz rpy), t)
  end.

(** ** Algebra *)

Ltac mat := intros; repeat match goal with a : M33 |- _ => destruct a | a : V3 |- _ => destruct a
                                         | a : quat |- _ => destruct a end;
  unfold mmul, mvec, mT, madd, mscale, mdet, vadd, vopp, vdot, vscale, eye, v0, skew in *;
  cbn [m00 m01 m02 m10 m11 m12 m20 m21 m22 vx vy vz qx qy qz qw] in *.

Lemma mmul_assoc a b c : mmul a (mmul b c) = mmul (mmul a b) c.
Proof. mat. f_equal; ring. Qed.

Lemma mmul_eye_l a : mmul eye a = a.
Proof. mat. f_equal; ring. Qed.

Lemma mmul_eye_r a : mmul a eye = a.
Proof. mat. f_equal; ring. Qed.

Lemma mT_mmul a b : mT (mmul a b) = mmul (mT b) (mT a).
Proof. mat. f_equal; ring. Qed.

Lemma mdet_mmul a b : mdet (mmul a b) = mdet a * mdet b.
Proof. mat. ring. Qed.

Lemma mdet_mT a : mdet (mT a) = mdet a.
Proof. mat. ring. Qed.

Lemma mvec_mmul a b v : mvec (mmul a b) v = mvec a (mvec b v).
Proof. mat. f_equal; ring. Qed.

Lemma mvec_vadd a u v : mvec a (vadd u v) = vadd (mvec a u) (mvec a v).
Proof. mat. f_equal; ring. Qed.

Lemma mvec_eye v : mvec eye v = v.
Proof. mat. f_equal; ring. Qed.

Lemma vadd_assoc u v w : vadd u (vadd v w) = vadd (vadd u v) w.
Proof. mat. f_equal; ring. Qed.

Lemma vadd_comm u v : vadd u v = vadd v u.
Proof. mat. f_equal; ring. Qed.

Lemma vadd_0_l v : vadd v0 v = v.
Proof. mat. f_equal; ring. Qed.

(** The cofactors of a matrix. *)
Definition madj (a : M33) : M33 :=
  Mat (m11 a * m22 a - m12 a * m21 a) (m02 a * m21 a - m01 a * m22 a) (m01 a * m12 a - m02 a * m11 a)
      (m12 a * m20 a - m10 a * m22 a) (m00 a * m22 a - m02 a * m20 a) (m02 a * m10 a - m00 a * m12 a)
      (m10 a * m21 a - m11 a * m20 a) (m01 a * m20 a - m00 a * m21 a) (m00 a * m11 a - m01 a * m10 a).

Lemma madj_l a : mmul (madj a) a = mscale (mdet a) eye.
Proof. unfold madj. mat. f_equal; ring. Qed.

(** A rotation is its own cofactor matrix, transposed; so its transpose is its inverse on both
    sides. *)
Lemma rot_adj a : is_rot a -> madj a = mT a.
Proof.
  intros [Ho Hd].
  rewrite <-(mmul_eye_r (madj a)), <-Ho, mmul_assoc, madj_l, Hd.
  destruct a; mat. f_equal; ring.
Qed.

Lemma rot_inv_l a : is_rot a -> mmul (mT a) a = eye.
Proof.
  intros Ha. rewrite <-(rot_adj a Ha), madj_l, (proj2 Ha). mat. f_equal; ring.
Qed.

Lemma is_rot_eye : is_rot eye.
Proof. split; [mat; f_equal; ring|mat; ring]. Qed.

Lemma is_rot_mmul a b : is_rot a -> is_rot b -> is_rot (mmul a b).
Proof.
  intros [Ha Da] [Hb Db]. split.
  - rewrite mT_mmul, mmul_assoc, <-(mmul_assoc a b), Hb, mmul_eye_r. exact Ha.
  - rewrite mdet_mmul, Da, Db. ring.
Qed.

Lemma is_rot_mT a : is_rot a -> is_rot (mT a).
Proof.
  intros Ha. split; [|rewrite mdet_mT; apply Ha].
  replace (mT (mT a)) with a by (destruct a; reflexivity). by apply rot_inv_l.
Qed.

#[export] Hint Resolve is_rot_eye is_rot_mmul is_rot_mT : geo.

(** A rotation keeps lengths. *)
Lemma rot_vdot a v : is_rot a -> vdot (mvec a v) (mvec a v) = vdot v v.
Proof.
  intros Ha. transitivity (vdot v (mvec (mmul (mT a) a) v)).
  - destruct a, v; mat. ring.
  - by rewrite rot_inv_l, mvec_eye.
Qed.

Lemma rot_vnorm a v : is_rot a -> vnorm (mvec a v) = vnorm v.
Proof. intros Ha. unfold vnorm. by rewrite rot_vdot. Qed.

(** ** Trigonometry *)

Lemma cos2_sin2 x : cos x * cos x + sin x * sin x = 1.
Proof. pose proof (sin2_cos2 x) as H. unfold Rsqr in H. lra. Qed.

Lemma cos_halves x : cos x = cos (x / 2) * cos (x / 2) - sin (x / 2) * sin (x / 2).
Proof. replace x with (x / 2 + x / 2) at 1 by field. apply cos_plus. Qed.

Lemma sin_halves x : sin x = 2 * (sin (x / 2) * cos (x / 2)).
Proof. replace x with (x / 2 + x / 2) at 1 by field. rewrite sin_plus. ring. Qed.

Lemma hypot_sq x y : hypot x y * hypot x y = x * x + y * y.
Proof. apply sqrt_sqrt. nra. Qed.

Lemma hypot_pos x y : 0 <= hypot x y.
Proof. apply sqrt_pos. Qed.

(** The hypotenuse from the ratio of the sides. *)
Lemma hypot_ratio x y : x <> 0 -> hypot x y = Rabs x * sqrt (1 + (y / x)²).
Proof.
  intros Hx. unfold hypot. rewrite <-sqrt_Rsqr_abs, <-sqrt_mult; [f_equal|apply Rle_0_sqr|].
  - unfold Rsqr. by field.
  - pose proof (Rle_0_sqr (y / x)). lra.
Qed.

Lemma atan_polar x y : 0 < x -> hypot x y * cos (atan (y / x)) = x /\ hypot x y * sin (atan (y / x)) = y.
Proof.
  intros Hx. rewrite (hypot_ratio x y), (Rabs_pos_eq x), cos_atan, sin_atan by lra.
  assert (0 < sqrt (1 + (y / x)²)) by (apply sqrt_lt_R0; pose proof (Rle_0_sqr (y / x)); lra).
  split; field; lra.
Qed.

(** [atan2] gives the angle of a point: with the length it gives the point back. *)
Lemma atan2_polar x y : hypot x y * cos (atan2 y x) = x /\ hypot x y * sin (atan2 y x) = y.
Proof.
  unfold atan2. destruct (Rlt_dec 0 x) as [Hx|Hx]; [by apply atan_polar|].
  destruct (Rlt_dec x 0) as [Hn|Hn].
  - assert (0 < - x) as Hp by lra.
    destruct (atan_polar (- x) (- y) Hp) as [Hc Hs].
    replace (hypot (- x) (- y)) with (hypot x y) in * by (unfold hypot; f_equal; ring).
    replace (- y / - x) with (y / x) in * by (field; lra).
    destruct (Rle_dec 0 y).
    + rewrite neg_cos, neg_sin. lra.
    + assert (forall t, cos (t - PI) = - cos t /\ sin (t - PI) = - sin t) as Hm
        by (intros t; rewrite cos_minus, sin_minus, cos_PI, sin_PI; split; ring).
      destruct (Hm (atan (y / x))) as [-> ->]. lra.
  - assert (x = 0) as -> by lra. unfold hypot. replace (0 * 0 + y * y) with (y²) by (unfold Rsqr; ring).
    rewrite sqrt_Rsqr_abs.
    destruct (Rlt_dec 0 y); [rewrite cos_PI2, sin_PI2, Rabs_pos_eq; lra|].
    destruct (Rlt_dec y 0); [rewrite cos_neg, sin_neg, cos_PI2, sin_PI2, Rabs_left; lra|].
    replace y with 0 by lra. rewrite Rabs_R0. lra.
Qed.

(** ** Roll, pitch and yaw *)

Definition rot_x (t : R) : M33 := Mat 1 0 0 0 (cos t) (- sin t) 0 (sin t) (cos t).
Definition rot_y (t : R) : M33 := Mat (cos t) 0 (sin t) 0 1 0 (- sin t) 0 (cos t).
Definition rot_z (t : R) : M33 := Mat (cos t) (- sin t) 0 (sin t) (cos t) 0 0 0 1.

Lemma is_rot_xyz t : is_rot (rot_x t) /\ is_rot (rot_y t) /\ is_rot (rot_z t).
Proof.
  pose proof (cos2_sin2 t) as H. unfold is_rot, rot_x, rot_y, rot_z.
  repeat split; mat; try (f_equal; lra); lra.
Qed.

Lemma rpy_zyx r p y : rot_from_rpy r p y = mmul (rot_z y) (mmul (rot_y p) (rot_x r)).
Proof. unfold rot_from_rpy, rot_x, rot_y, rot_z. mat. f_equal; ring. Qed.

Lemma is_rot_rpy r p y : is_rot (rot_from_rpy r p y).
Proof.
  rewrite rpy_zyx. repeat apply is_rot_mmul; apply is_rot_xyz.
Qed.

#[export] Hint Resolve is_rot_rpy : geo.

(** The scalar equations of a rotation: rows of length one, and the cofactors. *)
Lemma rot_eqs a : is_rot a ->
  m00 a * m00 a + m10 a * m10 a + m20 a * m20 a = 1 /\
  m20 a * m20 a + m21 a * m21 a + m22 a * m22 a = 1 /\
  m00 a * m20 a + m01 a * m21 a + m02 a * m22 a = 0 /\
  m10 a * m20 a + m11 a * m21 a + m12 a * m22 a = 0.
Proof.
  intros Ha. pose proof (rot_inv_l a Ha) as Hl. destruct Ha as [Hr _].
  destruct a; mat. injection Hl as E1 _ _ _ _ _ _ _ _. injection Hr as _ _ E2 _ _ E3 _ _ E4. lra.
Qed.

Lemma rot_cofactors a : is_rot a ->
  m10 a = m02 a * m21 a - m01 a * m22 a /\ m00 a = m11 a * m22 a - m12 a * m21 a /\
  m01 a = m12 a * m20 a - m10 a * m22 a /\ m02 a = m10 a * m21 a - m11 a * m20 a.
Proof.
  intros Ha. pose proof (rot_adj a Ha) as H. destruct a; unfold madj in H; mat.
  injection H as E1 E2 _ E4 _ _ E7 _ _. lra.
Qed.

(** The point of a unit circle is its angle. *)
Lemma atan2_unit x y : x * x + y * y = 1 -> cos (atan2 y x) = x /\ sin (atan2 y x) = y.
Proof.
  intros H. destruct (atan2_polar x y) as [Hc Hs].
  assert (hypot x y = 1) as Hh by (unfold hypot; rewrite H; apply sqrt_1).
  rewrite Hh in Hc, Hs. lra.
Qed.

Lemma pitch_of_rot a : is_rot a ->
  cos (atan2 (- m20 a) (hypot (m00 a) (m10 a))) = hypot (m00 a) (m10 a) /\
  sin (atan2 (- m20 a) (hypot (m00 a) (m10 a))) = - m20 a.
Proof.
  intros Ha. destruct (rot_eqs a Ha) as (E & _). apply atan2_unit.
  rewrite hypot_sq. lra.
Qed.

(** The entry that roll and yaw share, once the common length is cancelled. *)
Lemma sandwich h cy sy sr cr p u v w t e :
  0 < h -> h * cy = u -> h * sy = v -> h * sr = w -> h * cr = t ->
  u * p * w - v * t = h * h * e -> cy * p * sr - sy * cr = e.
Proof.
  intros Hh <- <- <- <- H. apply (Rmult_eq_reg_l (h * h)); [rewrite <-H; ring|nra].
Qed.

(** Away from the vertical pitch. *)
Lemma rpy_regular a : is_rot a -> 0 < hypot (m00 a) (m10 a) ->
  rot_from_rpy (atan2 (m21 a) (m22 a)) (atan2 (- m20 a) (hypot (m00 a) (m10 a)))
    (atan2 (m10 a) (m00 a)) = a.
Proof.
  intros Ha Hh. destruct (pitch_of_rot a Ha) as [Hcp Hsp].
  destruct (rot_eqs a Ha) as (E1 & E2 & E3 & E4). destruct (rot_cofactors a Ha) as (C1 & C2 & _).
  pose proof (hypot_sq (m00 a) (m10 a)) as Hh2.
  destruct (atan2_polar (m00 a) (m10 a)) as [Hcy Hsy].
  destruct (atan2_polar (m22 a) (m21 a)) as [Hcr Hsr].
  replace (hypot (m22 a) (m21 a)) with (hypot (m00 a) (m10 a)) in Hcr, Hsr
    by (unfold hypot; f_equal; lra).
  unfold rot_from_rpy. rewrite Hcp, Hsp.
  set (h := hypot (m00 a) (m10 a)) in *.
  set (cr := cos (atan2 (m21 a) (m22 a))) in *. set (sr := sin (atan2 (m21 a) (m22 a))) in *.
  set (cy := cos (atan2 (m10 a) (m00 a))) in *. set (sy := sin (atan2 (m10 a) (m00 a))) in *.
  assert (h * h = m21 a * m21 a + m22 a * m22 a) as Hh3 by lra.
  transitivity (Mat (m00 a) (m01 a) (m02 a) (m10 a) (m11 a) (m12 a) (m20 a) (m21 a) (m22 a));
    [|by destruct a].
  assert (h * - sy = - m10 a) as Hsy' by lra. assert (h * - cy = - m00 a) as Hcy' by lra.
  assert (forall x y k : R, x = y -> k * x = k * y) as Hk by (intros; by f_equal).
  f_equal; try lra.
  - apply (sandwich h _ _ _ _ _ _ _ _ _ _ Hh Hcy Hsy Hsr Hcr). rewrite Hh3, C1. pose proof (Hk _ _ (m21 a) E3). lra.
  - transitivity (cy * - m20 a * cr - - sy * sr); [ring|].
    apply (sandwich h _ _ _ _ _ _ _ _ _ _ Hh Hcy Hsy' Hcr Hsr). rewrite Hh3, C1. pose proof (Hk _ _ (m22 a) E3). lra.
  - transitivity (sy * - m20 a * sr - - cy * cr); [ring|].
    apply (sandwich h _ _ _ _ _ _ _ _ _ _ Hh Hsy Hcy' Hsr Hcr). rewrite Hh3, C2. pose proof (Hk _ _ (m21 a) E4). lra.
  - apply (sandwich h _ _ _ _ _ _ _ _ _ _ Hh Hsy Hcy Hcr Hsr). rewrite Hh3, C2. pose proof (Hk _ _ (m22 a) E4). lra.
Qed.

(** At the vertical pitch, where the code puts the whole turn in the roll. *)
Lemma rpy_vertical a : is_rot a -> hypot (m00 a) (m10 a) = 0 ->
  rot_from_rpy (atan2 (- m12 a) (m11 a)) (atan2 (- m20 a) (hypot (m00 a) (m10 a))) 0 = a.
Proof.
  intros Ha Hh. destruct (pitch_of_rot a Ha) as [Hcp Hsp].
  destruct (rot_eqs a Ha) as (E1 & E2 & _). destruct (rot_cofactors a Ha) as (_ & _ & C1 & C2).
  pose proof (hypot_sq (m00 a) (m10 a)) as Hh2. rewrite Hh in Hh2.
  assert (m00 a = 0 /\ m10 a = 0) as [Z00 Z10] by (split; nra).
  assert (m21 a = 0 /\ m22 a = 0) as [Z21 Z22] by (split; nra).
  assert (m11 a * m11 a + - m12 a * - m12 a = 1) as Hr1.
  { pose proof (f_equal m11 (proj1 Ha)) as H. destruct a; mat. rewrite Z10 in H. lra. }
  destruct (atan2_unit _ _ Hr1) as [Hc Hs].
  unfold rot_from_rpy. rewrite Hcp, Hsp, Hc, Hs, Hh, cos_0, sin_0.
  destruct a; mat. subst. f_equal; lra.
Qed.

(** [rpy_from_rot] recovers the angles of a rotation, except in the band the code treats as
    vertical without its being so. *)
Lemma rpy_from_rot_exact a : is_rot a ->
  hypot (m00 a) (m10 a) = 0 \/ 1 / 10 ^ 9 < hypot (m00 a) (m10 a) ->
  let '(roll, pitch, yaw) := rpy_from_rot a in rot_from_rpy roll pitch yaw = a.
Proof.
  intros Ha Hh. unfold rpy_from_rot. rewrite (proj1 (pitch_of_rot a Ha)).
  rewrite Rabs_pos_eq by apply hypot_pos.
  assert (0 < 1 / 10 ^ 9) by lra.
  destruct (Rlt_dec _ _); [apply rpy_regular|apply rpy_vertical]; try done; lra.
Qed.

(** ** Quaternions *)

Lemma rot_of_quat_mul p q :
  rot_of_quat (quat_mul p q) = mmul (rot_of_quat p) (rot_of_quat q).
Proof. destruct p, q. unfold rot_of_quat, quat_mul, mmul. cbn. f_equal; ring. Qed.

Lemma qnorm2_mul p q : qnorm2 (quat_mul p q) = qnorm2 p * qnorm2 q.
Proof. destruct p, q. unfold qnorm2, quat_mul. cbn. ring. Qed.

Lemma quat_mul_unit p q : qnorm2 p = 1 -> qnorm2 q = 1 -> qnorm2 (quat_mul p q) = 1.
Proof. intros Hp Hq. rewrite qnorm2_mul, Hp, Hq. ring. Qed.

Lemma is_rot_of_quat q : qnorm2 q = 1 -> is_rot (rot_of_quat q).
Proof.
  destruct q as [x y z w]. unfold qnorm2. cbn. intros H. split.
  - transitivity (mscale ((x * x + y * y + z * z + w * w) ^ 2) eye);
      [|rewrite H; mat; f_equal; ring].
    unfold rot_of_quat, mmul, mT, mscale, eye. cbn. f_equal; ring.
  - transitivity ((x * x + y * y + z * z + w * w) ^ 3); [|rewrite H; ring].
    unfold rot_of_quat, mdet. cbn. ring.
Qed.

(** A unit axis of an axis-angle rotation. *)
Lemma axis_unit v : 0 < vnorm v -> vdot (vscale (/ vnorm v) v) (vscale (/ vnorm v) v) = 1.
Proof.
  intros Hv. transitivity (/ vnorm v * / vnorm v * vdot v v); [destruct v; mat; ring|].
  assert (vnorm v * vnorm v = vdot v v) as <- by (apply sqrt_sqrt; destruct v; mat; nra).
  field. lra.
Qed.

Lemma rotates_norm v t : no_rotation (vnorm v) t = false -> 0 < vnorm v.
Proof.
  unfold no_rotation. destruct (Rlt_dec _ _) as [|Hn]; [done|]. intros _.
  assert (0 < 1 / 10 ^ 9) by lra. lra.
Qed.

Lemma quat_axis_unit v t : qnorm2 (quat_from_axis_angle v t) = 1.
Proof.
  unfold quat_from_axis_angle. destruct (no_rotation _ _) eqn:E; [unfold qnorm2; cbn; ring|].
  pose proof (axis_unit v (rotates_norm v t E)) as Ha. pose proof (cos2_sin2 (t / 2)) as Ht.
  unfold qnorm2, vdot in *. cbn [qx qy qz qw].
  set (a := vscale _ v) in *. set (s := sin (t / 2)) in *. set (c := cos (t / 2)) in *.
  transitivity (c * c + s * s * (vx a * vx a + vy a * vy a + vz a * vz a)); [ring|]. rewrite Ha. lra.
Qed.

(** The two forms of an axis-angle rotation agree. *)
Lemma axis_angle_agree v t :
  rot_of_quat (quat_from_axis_angle v t) = rot_from_axis_angle v t.
Proof.
  unfold quat_from_axis_angle, rot_from_axis_angle. destruct (no_rotation _ _) eqn:E.
  { unfold rot_of_quat, eye. f_equal; ring. }
  pose proof (axis_unit v (rotates_norm v t E)) as Ha. pose proof (cos2_sin2 (t / 2)) as Ht.
  unfold rodrigues. rewrite (cos_halves t), (sin_halves t).
  set (a := vscale _ v) in *. clearbody a.
  set (s := sin (t / 2)) in *. set (c := cos (t / 2)) in *. clearbody s c.
  destruct a as [x y z]. mat. unfold rot_of_quat.
  assert (1 - (c * c - s * s) = 2 * (s * s)) as -> by lra.
  assert (c * c = 1 - s * s) as Hc by lra.
  assert (x * x = 1 - y * y - z * z) as Hx by lra.
  assert (s * s * (x * x + y * y + z * z) = s * s) as Hs by (rewrite Ha; ring).
  f_equal; lra.
Qed.

Lemma is_rot_axis_angle v t : is_rot (rot_from_axis_angle v t).
Proof. rewrite <-axis_angle_agree. apply is_rot_of_quat, quat_axis_unit. Qed.

#[export] Hint Resolve is_rot_axis_angle is_rot_of_quat quat_axis_unit quat_mul_unit : geo.

Definition quat_x (t : R) : quat := Quat (sin (t / 2)) 0 0 (cos (t / 2)).
Definition quat_y (t : R) : quat := Quat 0 (sin (t / 2)) 0 (cos (t / 2)).
Definition quat_z (t : R) : quat := Quat 0 0 (sin (t / 2)) (cos (t / 2)).

Lemma quat_xyz_agree t :
  rot_of_quat (quat_x t) = rot_x t /\ rot_of_quat (quat_y t) = rot_y t /\
  rot_of_quat (quat_z t) = rot_z t.
Proof.
  unfold rot_of_quat, quat_x, quat_y, quat_z, rot_x, rot_y, rot_z.
  rewrite (cos_halves t), (sin_halves t). pose proof (cos2_sin2 (t / 2)).
  repeat split; f_equal; lra.
Qed.

(** The two forms of a roll-pitch-yaw rotation agree. *)
Lemma rpy_agree r p y : rot_of_quat (quat_from_rpy r p y) = rot_from_rpy r p y.
Proof.
  rewrite rpy_zyx.
  replace (quat_from_rpy r p y) with (quat_mul (quat_z y) (quat_mul (quat_y p) (quat_x r)))
    by (unfold quat_mul, quat_x, quat_y, quat_z, quat_from_rpy; f_equal; ring).
  rewrite !rot_of_quat_mul. f_equal; [apply quat_xyz_agree|]. f_equal; apply quat_xyz_agree.
Qed.

Inductive part := PW | PX | PY | PZ.

(** Four times the outer product of the quaternion of a rotation, read off its matrix. *)
Definition outer (a : M33) (i j : part) : R :=
  match i, j with
  | PW, PW => m00 a + m11 a + m22 a + 1
  | PX, PX => 1 + m00 a - m11 a - m22 a
  | PY, PY => 1 + m11 a - m00 a - m22 a
  | PZ, PZ => 1 + m22 a - m00 a - m11 a
  | PW, PX | PX, PW => m21 a - m12 a
  | PW, PY | PY, PW => m02 a - m20 a
  | PW, PZ | PZ, PW => m10 a - m01 a
  | PX, PY | PY, PX => m01 a + m10 a
  | PX, PZ | PZ, PX => m02 a + m20 a
  | PY, PZ | PZ, PY => m12 a + m21 a
  end.

(** It has rank one. *)
Lemma outer_rank1 a i j k : is_rot a -> outer a i j * outer a i k = outer a i i * outer a j k.
Proof.
  intros Ha. pose proof (rot_inv_l a Ha) as Hl. pose proof (rot_adj a Ha) as Hadj.
  destruct Ha as [Hr _]. destruct a; unfold madj in *; mat.
  injection Hl as E1 E2 E3 _ E4 E5 _ _ E6. injection Hr as F1 F2 F3 _ F4 F5 _ _ F6.
  injection Hadj as A1 A2 A3 A4 A5 A6 A7 A8 A9.
  destruct i, j, k; unfold outer; cbn [m00 m01 m02 m10 m11 m12 m20 m21 m22]; lra.
Qed.

(** The quaternion read off row [i]. *)
Definition quat_row (a : M33) (i : part) : quat :=
  let s := sqrt (outer a i i) * 2 in
  Quat (outer a i PX / s) (outer a i PY / s) (outer a i PZ / s) (outer a i PW / s).

Lemma quat_row_products a i j k : is_rot a -> 0 < outer a i i ->
  let s := sqrt (outer a i i) * 2 in
  outer a i j / s * (outer a i k / s) = outer a j k / 4.
Proof.
  intros Ha Hi. cbn zeta. pose proof (sqrt_lt_R0 _ Hi) as Hs.
  pose proof (sqrt_sqrt _ (Rlt_le _ _ Hi)) as Hs2. set (s := sqrt _) in *. clearbody s.
  transitivity (outer a i j * outer a i k / (4 * (s * s))); [field; lra|].
  rewrite (outer_rank1 a i j k Ha), Hs2. field. lra.
Qed.

Lemma quat_row_exact a i : is_rot a -> 0 < outer a i i -> rot_of_quat (quat_row a i) = a.
Proof.
  intros Ha Hi. pose proof (fun j k => quat_row_products a i j k Ha Hi) as H. cbn zeta in H.
  unfold rot_of_quat, quat_row. rewrite !H. unfold outer. destruct a; cbn. f_equal; field.
Qed.

Lemma quat_row_unit a i : is_rot a -> 0 < outer a i i -> qnorm2 (quat_row a i) = 1.
Proof.
  intros Ha Hi. pose proof (fun j k => quat_row_products a i j k Ha Hi) as H. cbn zeta in H.
  unfold qnorm2, quat_row. cbn [qx qy qz qw]. rewrite !H. unfold outer. field.
Qed.

Lemma quarter_root x : 0 < x -> x / (sqrt x * 2) = 1 / 4 * (sqrt x * 2).
Proof.
  intros Hx. pose proof (sqrt_lt_R0 _ Hx) as Hs. pose proof (sqrt_sqrt x (Rlt_le _ _ Hx)) as H.
  set (r := sqrt x) in *. clearbody r. subst x. field. lra.
Qed.

Ltac row_tac := unfold quat_row, quat_of_wxyz; cbn [outer]; split; [lra|];
  f_equal; symmetry; apply quarter_root; lra.

(** The code reads the quaternion off a row whose diagonal is positive. *)
Lemma wxyz_is_row a : exists i, 0 < outer a i i /\ quat_of_wxyz (wxyz_from_rot a) = quat_row a i.
Proof.
  unfold wxyz_from_rot, argmax3. destruct (Rlt_dec 0 (m00 a + m11 a + m22 a));
    [|destruct (Rlt_dec (m00 a) (m11 a));
      [destruct (Rlt_dec (m11 a) (m22 a))|destruct (Rlt_dec (m00 a) (m22 a))]].
  - exists PW; row_tac.
  - exists PZ; row_tac.
  - exists PY; row_tac.
  - exists PZ; row_tac.
  - exists PX; row_tac.
Qed.

Lemma wxyz_from_rot_exact a : is_rot a ->
  rot_of_quat (quat_of_wxyz (wxyz_from_rot a)) = a /\ qnorm2 (quat_of_wxyz (wxyz_from_rot a)) = 1.
Proof.
  intros Ha. destruct (wxyz_is_row a) as (i & Hi & ->). split.
  - by apply quat_row_exact.
  - by apply quat_row_unit.
Qed.

(** ** Placement *)

(** Matrix and quaternion of a mount stand for the same rotation. *)
Definition consistent (m : Mount) : Prop :=
  qnorm2 (quat_xyzw m) = 1 /\ rot_of_quat (quat_xyzw m) = rot m.

Lemma mount_consistent s t : consistent (mount s t).
Proof.
  split; unfold mount; cbn [quat_xyzw rot]; [auto with geo|].
  by rewrite rot_of_quat_mul, !axis_angle_agree.
Qed.

Lemma mount_of_inv side m : mount_of side = Ok m ->
  (side = "left" /\ m = mount (-1) (- MOUNT_TILT_RAD)) \/
  (side = "right" /\ m = mount 1 MOUNT_TILT_RAD).
Proof.
  unfold mount_of, MOUNTS. cbn [dget]. destruct (decide (side = "left")); [intros [= <-]; by left|].
  destruct (decide (side = "right")); [intros [= <-]; by right|done].
Qed.

Lemma mount_of_consistent side m : mount_of side = Ok m -> consistent m.
Proof. intros [[_ ->]|[_ ->]]%mount_of_inv; apply mount_consistent. Qed.

Lemma factr_mount_consistent side m : factr_mount side = Ok m -> consistent m.
Proof.
  unfold factr_mount. destruct (mount_of side) as [b|] eqn:E; [|done]. intros [= <-].
  destruct (mount_of_consistent _ _ E) as [Hu Hr].
  split; cbn [quat_xyzw rot]; [auto with geo|]. by rewrite rot_of_quat_mul, axis_angle_agree, Hr.
Qed.

Lemma mount_is_rot side m : mount_of side = Ok m -> is_rot (rot m).
Proof. intros [Hu <-]%mount_of_consistent. auto with geo. Qed.

(** matrix and quaternion of a mount place a robot alike.  For both arms and for the leader
    drawn beside each, the matrix is a proper rotation, the quaternion has length one and stands
    for that matrix, and the quaternion the viewer is given for it, converted directly or from
    the matrix, reads back as the same matrix. *)
Theorem mounts_consistent side m :
  mount_of side = Ok m \/ factr_mount side = Ok m ->
  is_rot (rot m) /\ qnorm2 (quat_xyzw m) = 1 /\
  rot_of_quat (quat_of_wxyz (xyzw_to_wxyz (quat_xyzw m))) = rot m /\
  rot_of_quat (quat_of_wxyz (wxyz_from_rot (rot m))) = rot m.
Proof.
  intros Hm. assert (consistent m) as [Hu Hr]
    by (destruct Hm; eauto using mount_of_consistent, factr_mount_consistent).
  assert (is_rot (rot m)) by (rewrite <-Hr; auto with geo).
  split_and!; [done|done| |by apply wxyz_from_rot_exact].
  rewrite <-Hr. by destruct (quat_xyzw m).
Qed.

Lemma mounts_consistent_witness :
  exists m, factr_mount "left" = Ok m /\ is_rot (rot m).
Proof.
  eexists. split; [reflexivity|]. eapply (mounts_consistent "left"). right. reflexivity.
Defined.

(** the orientation conversions of the viewers lose nothing.  Roll-pitch-yaw angles give a
    proper rotation, as a matrix or as a quaternion alike; angles read off a rotation give it
    back unless its pitch is within the code's tolerance of vertical without being vertical; and
    the quaternion of a rotation has length one and gives it back in all four branches. *)
Theorem orientation_roundtrip r p y a :
  is_rot a ->
  hypot (m00 a) (m10 a) = 0 \/ 1 / 10 ^ 9 < hypot (m00 a) (m10 a) ->
  is_rot (rot_from_rpy r p y) /\ rot_of_quat (quat_from_rpy r p y) = rot_from_rpy r p y /\
  (let '(roll, pitch, yaw) := rpy_from_rot a in rot_from_rpy roll pitch yaw = a) /\
  rot_of_quat (quat_of_wxyz (wxyz_from_rot a)) = a /\
  qnorm2 (quat_of_wxyz (wxyz_from_rot a)) = 1.
Proof.
  intros Ha Hh. split_and!; [auto with geo|apply rpy_agree|by apply rpy_from_rot_exact|..];
    by apply wxyz_from_rot_exact.
Qed.

(** A half turn about the first axis: the trace is negative. *)
Lemma orientation_roundtrip_witness :
  let a := Mat 1 0 0 0 (-1) 0 0 0 (-1) in
  is_rot a /\ rot_of_quat (quat_of_wxyz (wxyz_from_rot a)) = a.
Proof.
  set (a := Mat 1 0 0 0 (-1) 0 0 0 (-1)).
  assert (is_rot a) as Ha by (unfold a; split; mat; [f_equal; ring|ring]).
  split; [exact Ha|]. apply (orientation_roundtrip 0 0 0 a Ha). right.
  cbn. replace (hypot 1 0) with 1; [lra|]. unfold hypot.
  replace (1 * 1 + 0 * 0) with 1 by ring. by rewrite sqrt_1.
Defined.
