(* ===== verification/Kinematics.v ===== *)
(** * Kinematic chains of the viewers

    Models the robot description and the forward kinematics of [visualization/geometry.py]:
    [parse_chain] and [_parse_visuals] over a parsed XML document, the placement of the leader's
    meshes ([localize_factr_base_meshes]) and [fk_world_eef].  The walk from the root link follows
    the joints as long as there is one; a description whose joints form a cycle makes it run
    forever, so the walk has fuel and [chain_walk_decided] shows how much is enough.

    The document tree is an input (an XML parser is not in the repository), and so is [float] of a
    text; tuples read from the document have any length, as in the source. *)

From Stdlib Require Import Reals Lra Psatz.
From S2P Require Import Prelude Text Operator Geometry.
Local Open Scope string_scope.
Local Open Scope list_scope.

(** ** XML elements *)

Inductive elem := Elem { el_tag : string; el_attrs : list (string * string); el_children : list elem }.

Definition el_findall (tag : string) (e : elem) : list elem :=
  List.filter (fun c => bool_decide (el_tag c = tag)) (el_children e).

Definition el_find (tag : string) (e : elem) : option elem := head (el_findall tag e).

(** [find("a/b")]. *)
Definition el_find2 (a b : string) (e : elem) : option elem := head (el_findall a e ≫= el_findall b).

Definition el_get (k : string) (e : elem) : option string := dget k (el_attrs e).

(** ** Links *)

Record Visual (A : Type) := MkVisual {
  vi_name : string; vi_mesh : string; vi_xyz : list A; vi_rpy : list A; vi_scale : list A }.

Arguments MkVisual {A}. Arguments vi_name {A}. Arguments vi_mesh {A}.
Arguments vi_xyz {A}. Arguments vi_rpy {A}. Arguments vi_scale {A}.

(** A link's name is the [child] attribute of a joint, which may be missing. *)
Record Link (A : Type) := MkLink {
  li_name : option string; li_xyz : list A; li_rpy : list A; li_axis : list A;
  child_offset : option (list A); visuals : list (Visual A) }.

Arguments MkLink {A}. Arguments li_name {A}. Arguments li_xyz {A}. Arguments li_rpy {A}.
Arguments li_axis {A}. Arguments child_offset {A}. Arguments visuals {A}.

Section parse.
Context {A : Type} (zero one : A).
Context (float_of_str : string -> option A) (resolve : string -> string).

(** [tuple(float(x) for x in text.split())]. *)
Definition floats (text : string) : res (list A) :=
  mapM_res (fun w => of_option ValueError (float_of_str w)) (py_words text).

(** [tuple(float(v) for v in origin.get(key, "0 0 0").split())], zeros without an origin. *)
Definition origin_floats (key : string) (origin : option elem) : res (list A) :=
  match origin with
  | Some o => floats (default "0 0 0" (el_get key o))
  | None => Ok [zero; zero; zero]
  end.

Definition parse_visual (i : nat) (visual : elem) : res (option (Visual A)) :=
  match el_find2 "geometry" "mesh" visual with
  | None => Ok None
  | Some mesh =>
    match el_get "filename" mesh with
    | None | Some "" => Ok None
    | Some file =>
      let origin := el_find "origin" visual in
      let? xyz := origin_floats "xyz" origin in
      let? rpy := origin_floats "rpy" origin in
      let? scale := floats (default "1 1 1" (el_get "scale" mesh)) in
      let name := match el_get "name" visual with
                  | None | Some "" => "visual_" +:+ str_of_int (Z.of_nat i)
                  | Some n => n end in
      Ok (Some (MkVisual name (resolve file) xyz rpy scale))
    end
  end.

(** The parts of a link, numbered with the skipped ones. *)
Definition parse_link_visuals (link_el : elem) : res (list (Visual A)) :=
  res_map (omap (fun x => x)) (mapM_res (fun x => parse_visual x.1 x.2)
    (zip (seq 0 (length (el_findall "visual" link_el))) (el_findall "visual" link_el))).

Definition parse_visuals (root : elem) : res (list (option string * list (Visual A))) :=
  foldM_res (fun out link_el =>
    let? vs := parse_link_visuals link_el in Ok (dset (el_get "name" link_el) vs out))
    (el_findall "link" root) [].

(** What [by_parent] holds of a joint: child, origin and axis. *)
Definition joint_info : Type := option string * list A * list A * list A.

Definition parse_joint (joint : elem) : res (option string * joint_info) :=
  let? p := of_option OtherError (el_find "parent" joint) in
  let? c := of_option OtherError (el_find "child" joint) in
  let origin := el_find "origin" joint in
  let? xyz := origin_floats "xyz" origin in
  let? rpy := origin_floats "rpy" origin in
  let? axis := match el_find "axis" joint with
               | Some a => let? t := of_option OtherError (el_get "xyz" a) in floats t
               | None => Ok [zero; zero; one]
               end in
  Ok (el_get "link" p, (el_get "link" c, xyz, rpy, axis)).

Definition parse_joints (root : elem) : res (list (option string * joint_info)) :=
  foldM_res (fun d joint => let? kv := parse_joint joint in Ok (dset kv.1 kv.2 d))
    (el_findall "joint" root) [].

(** [while current in by_parent]; [None] while it still runs. *)
Fixpoint walk (fuel : nat) (by_parent : list (option string * joint_info)) (current : option string)
    : option (list (Link A)) :=
  match dget current by_parent with
  | None => Some []
  | Some (child, xyz, rpy, axis) =>
    match fuel with
    | O => None
    | S fuel => cons (MkLink child xyz rpy axis None []) <$> walk fuel by_parent child
    end
  end.

(** The final pass: the offset of the next link and the link's parts. *)
Fixpoint finish_chain (vs : list (option string * list (Visual A))) (links : list (Link A)) : list (Link A) :=
  match links with
  | [] => []
  | l :: rest =>
    MkLink (li_name l) (li_xyz l) (li_rpy l) (li_axis l) (li_xyz <$> head rest)
      (default [] (dget (li_name l) vs)) :: finish_chain vs rest
  end.

Definition parse_chain (root : elem) (root_link : string) : res (option (list (Link A))) :=
  let? by_parent := parse_joints root in
  match walk (length by_parent) by_parent (Some root_link) with
  | None => Ok None
  | Some sequence =>
    let? vs := parse_visuals root in
    let base := MkLink (Some root_link) [zero; zero; zero] [zero; zero; zero] [zero; zero; one] None [] in
    Ok (Some (finish_chain vs (base :: sequence)))
  end.
End parse.

(** ** The leader's meshes *)

Local Open Scope R_scope.

(** [np.allclose(l, (c, c, c))]: one number is broadcast, other lengths do not fit. *)
Definition close_to (c a : R) : bool :=
  if Rle_dec (Rabs (a - c)) (1 / 10 ^ 8 + 1 / 10 ^ 5 * Rabs c) then true else false.

Definition allclose (c : R) (l : list R) : res bool :=
  match l with
  | [a] => Ok (close_to c a)
  | [x; y; z] => Ok (close_to c x && close_to c y && close_to c z)
  | _ => Raise ValueError
  end.

Definition explicitly_placed (v : Visual R) : res bool :=
  let? a := allclose 0 (vi_xyz v) in
  if negb a then Ok true else
  let? b := allclose 0 (vi_rpy v) in
  if negb b then Ok true else
  let? c := allclose 1 (vi_scale v) in
  Ok (negb c).

Definition vec_list (v : V3) : list R := [vx v; vy v; vz v].

Definition localize_visual (translation : V3) (rotation : M33) (v : Visual R) : res (Visual R) :=
  let? placed := explicitly_placed v in
  if contains "ros_zup_local" (vi_mesh v) || placed then Ok v
  else
    let inv := mT rotation in
    let '(roll, pitch, yaw) := rpy_from_rot inv in
    Ok (MkVisual (vi_name v) (vi_mesh v) (vec_list (mvec (mscale (-1) inv) translation))
          [roll; pitch; yaw] (vi_scale v)).

(** The frame of the next link. *)
Definition advance_frame (f : V3 * M33) (l : Link R) : res (V3 * M33) :=
  let? xyz := vec3_of ValueError (li_xyz l) in
  let? rpy := vec3_of TypeError (li_rpy l) in
  Ok (vadd f.1 (mvec f.2 xyz), mmul f.2 (rot_from_rpy (vx rpy) (vy rpy) (vz rpy))).

Definition localize_link (f : V3 * M33) (l : Link R) : res (Link R) :=
  let? vs := mapM_res (localize_visual f.1 f.2) (visuals l) in
  Ok (MkLink (li_name l) (li_xyz l) (li_rpy l) (li_axis l) (child_offset l) vs).

(** The loop over the links after the first. *)
Fixpoint localize_rest (f : V3 * M33) (chain : list (Link R)) : res (list (Link R)) :=
  match chain with
  | [] => Ok []
  | l :: rest =>
    let? f := advance_frame f l in
    let? l' := localize_link f l in
    let? rest' := localize_rest f rest in
    Ok (l' :: rest')
  end.

Definition localize_factr_base_meshes (chain : list (Link R)) : res (list (Link R)) :=
  match chain with
  | [] => Ok []
  | base :: rest =>
    let? base' := localize_link (v0, eye) base in
    let? rest' := localize_rest (v0, eye) rest in
    Ok (base' :: rest')
  end.

(** ** Forward kinematics *)

(** [rot_from_axis_angle] of a tuple: the norm is over all of it, the axis its first three. *)
Definition axis_rot (axis : list R) (angle : R) : res M33 :=
  let norm := sqrt (foldr (fun a acc => a * a + acc) 0 axis) in
  if no_rotation norm angle then Ok eye
  else match axis with
  | a :: b :: c :: _ => Ok (rodrigues (vscale (/ norm) (Vec a b c)) angle)
  | _ => Raise IndexError
  end.

(** The loop over the links after the first: [q] is what is left of the joint angles. *)
Fixpoint fk_rest (f : V3 * M33) (q : list R) (chain : list (Link R)) : res (V3 * M33) :=
  match chain with
  | [] => Ok f
  | l :: rest =>
    let? f := advance_frame f l in
    match q with
    | [] => fk_rest f [] rest
    | a :: q => let? r := axis_rot (li_axis l) a in fk_rest (f.1, mmul f.2 r) q rest
    end
  end.

Definition fk_chain (f : V3 * M33) (q : list R) (chain : list (Link R)) : res (V3 * M33) :=
  match chain with
  | [] => Ok f
  | base :: rest => let? f := advance_frame f base in fk_rest f q rest
  end.

(** [chain or parse_chain()]: an empty chain is replaced by the default one. *)
Definition fk_world_eef (default_chain : res (list (Link R))) (side : string) (q : list R)
    (chain : list (Link R)) : res V3 :=
  let? m := mount_of side in
  let? links := (match chain with [] => default_chain | _ => Ok chain end) in
  res_map fst (fk_chain (translation m, rot m) q links).

(** ** The walk *)

Section walking.
Context {A : Type} (bp : list (option string * @joint_info A)).

Lemma walk_more n m c l : (n <= m)%nat -> walk n bp c = Some l -> walk m bp c = Some l.
Proof.
  revert m c l. induction n as [|n IH]; intros m c l Hm; destruct m as [|m]; cbn [walk];
    destruct (dget c bp) as [[[[ch xyz] rpy] ax]|]; try done; [lia|].
  destruct (walk n bp ch) as [r|] eqn:E; [|done]. intros [= <-].
  by rewrite (IH m ch r ltac:(lia) E).
Qed.

Lemma walk_det n m c l l' : walk n bp c = Some l -> walk m bp c = Some l' -> l = l'.
Proof.
  intros H H'. destruct (Nat.le_ge_cases n m) as [Hm|Hm].
  - apply (walk_more _ _ _ _ Hm) in H. congruence.
  - apply (walk_more _ _ _ _ Hm) in H'. congruence.
Qed.

Lemma walk_length n c l : walk n bp c = Some l -> walk (length l) bp c = Some l.
Proof.
  revert c l. induction n as [|n IH]; intros c l; cbn [walk];
    destruct (dget c bp) as [[[[ch xyz] rpy] ax]|] eqn:Ed; try done.
  1, 3: intros [= <-]; cbn; by rewrite Ed.
  destruct (walk n bp ch) as [r|] eqn:E; [|done]. intros [= <-].
  cbn. by rewrite Ed, (IH _ _ E).
Qed.

(** The joints passed are distinct: a joint met twice would never let the walk end. *)
Lemma walk_keys n c l : walk n bp c = Some l ->
  exists ks, length ks = length l /\ NoDup ks /\ Forall (fun k => k ∈ dkeys bp) ks /\
    Forall (fun k => exists m l', walk m bp k = Some l' /\ (length l' <= length l)%nat) ks.
Proof.
  revert c l. induction n as [|n IH]; intros c l Hw; pose proof Hw as Hc; cbn [walk] in Hw;
    destruct (dget c bp) as [[[[ch xyz] rpy] ax]|] eqn:Ed; try done.
  1, 3: injection Hw as <-; exists []; by repeat constructor.
  destruct (walk n bp ch) as [r|] eqn:E; [|done]. injection Hw as <-.
  destruct (IH _ _ E) as (ks & Hl & Hn & Hk & Hs). exists (c :: ks). split; [cbn; lia|]. split_and!.
  - constructor; [|done]. intros Hin. rewrite Forall_forall in Hs.
    destruct (Hs c Hin) as (m & l' & Hm & Hlen).
    rewrite (walk_det _ _ _ _ _ Hm Hc) in Hlen. cbn in Hlen. lia.
  - constructor; [|done]. by apply dget_key in Ed.
  - constructor; [exists (S n); eauto|]. eapply Forall_impl; [exact Hs|].
    intros k (m & l' & Hm & Hle). exists m, l'. cbn. split; [done|lia].
Qed.

(** The fuel [parse_chain] gives is enough for every walk that ends. *)
Lemma walk_decided n c l : walk n bp c = Some l -> walk (length bp) bp c = Some l.
Proof.
  intros Hw. apply (walk_more (length l)); [|by eapply walk_length].
  destruct (walk_keys _ _ _ Hw) as (ks & <- & Hn & Hk & _).
  unfold dkeys in Hk. rewrite <-(length_fmap fst bp). apply submseteq_length, NoDup_submseteq; [done|].
  intros k Hin. rewrite Forall_forall in Hk. by apply Hk.
Qed.
End walking.

(** ** The parsed chain *)

Section chain.
Context {A : Type} (bp : list (option string * @joint_info A)).

(** Consecutive links are joined. *)
Definition joined (a b : Link A) : Prop :=
  dget (li_name a) bp = Some (li_name b, li_xyz b, li_rpy b, li_axis b).

Lemma walk_joined n c l base : li_name base = c -> walk n bp c = Some l ->
  (forall i a b, (base :: l) !! i = Some a -> (base :: l) !! S i = Some b -> joined a b) /\
  (forall z, list.last (base :: l) = Some z -> dget (li_name z) bp = None).
Proof.
  revert c l base. induction n as [|n IH]; intros c l base Hb Hw; cbn [walk] in Hw;
    destruct (dget c bp) as [[[[ch xyz] rpy] ax]|] eqn:Ed; try done.
  1, 3: injection Hw as <-; split; [by intros [|i]|by intros z [= <-]; rewrite Hb].
  destruct (walk n bp ch) as [r|] eqn:E; [|done]. injection Hw as <-.
  destruct (IH ch r (MkLink ch xyz rpy ax None []) eq_refl E) as [Hj Hl]. split.
  - intros [|i] a b Ha Hb'; [|by apply (Hj i)]. injection Ha as <-. injection Hb' as <-.
    unfold joined. by rewrite Hb.
  - intros z Hz. apply Hl. exact Hz.
Qed.

Lemma finish_length vs (l : list (Link A)) : length (finish_chain vs l) = length l.
Proof. induction l; cbn; lia. Qed.

Lemma finish_lookup vs (l : list (Link A)) i a : finish_chain vs l !! i = Some a ->
  exists a0, l !! i = Some a0 /\ li_name a = li_name a0 /\ li_xyz a = li_xyz a0 /\
    li_rpy a = li_rpy a0 /\ li_axis a = li_axis a0 /\ child_offset a = li_xyz <$> l !! S i /\
    visuals a = default [] (dget (li_name a) vs).
Proof.
  revert i. induction l as [|x l IH]; intros [|i] Ha; try done.
  - injection Ha as <-. exists x. cbn. split_and!; try done. by destruct l.
  - by apply IH.
Qed.
End chain.

Section parsed.
Context {A : Type} (zero one : A).
Context (float_of_str : string -> option A) (resolve : string -> string).

(** what [parse_chain] returns is the serial chain of the description.  It always decides:
    it either returns a chain or the joints lead round in a cycle that no number of steps would
    leave.  A chain it returns begins with the root link at the origin; each link is the child of
    the joint of the link before it, with that joint's origin and axis, and is offered to it as
    its child offset; the last link has no joint and no offset; and every link carries the parts
    the description gives it. *)
Theorem parse_chain_serial root root_link :
  match parse_chain zero one float_of_str resolve root root_link with
  | Raise _ => True
  | Ok None => exists bp, parse_joints zero one float_of_str root = Ok bp /\
      forall n, walk n bp (Some root_link) = None
  | Ok (Some links) => exists bp vs,
      parse_joints zero one float_of_str root = Ok bp /\
      parse_visuals zero float_of_str resolve root = Ok vs /\
      (exists base, links !! 0%nat = Some base /\ li_name base = Some root_link /\
        li_xyz base = [zero; zero; zero] /\ li_rpy base = [zero; zero; zero]) /\
      (forall i a, links !! i = Some a ->
        visuals a = default [] (dget (li_name a) vs) /\
        match links !! S i with
        | Some b => child_offset a = Some (li_xyz b) /\ joined bp a b
        | None => child_offset a = None /\ dget (li_name a) bp = None
        end)
  end.
Proof.
  unfold parse_chain. destruct (parse_joints _ _ _ _) as [bp|] eqn:Ej; [|done]. cbn [res_bind].
  destruct (walk _ _ _) as [l|] eqn:Ew.
  - destruct (parse_visuals _ _ _ _) as [vs|] eqn:Ev; [|done]. cbn [res_bind].
    set (base := MkLink (Some root_link) _ _ _ _ _).
    destruct (walk_joined bp _ _ _ base eq_refl Ew) as [Hj Hl].
    exists bp, vs. split_and!; [done|done|by eexists|]. intros i a Ha.
    destruct (finish_lookup vs _ i a Ha) as (a0 & Ha0 & Hn & _ & _ & _ & Ho & Hv). split; [done|].
    destruct (finish_chain vs (base :: l) !! S i) as [b|] eqn:Eb.
    + destruct (finish_lookup vs _ _ _ Eb) as (b0 & Hb0 & Hbn & Hbx & Hbr & Hba & _).
      rewrite Ho, Hb0, Hbx. split; [done|]. unfold joined. rewrite Hn, Hbn, Hbx, Hbr, Hba.
      by apply (Hj i).
    + apply lookup_ge_None in Eb. rewrite finish_length in Eb.
      rewrite Ho, (lookup_ge_None_2 _ _ Eb). split; [done|]. rewrite Hn. apply Hl.
      rewrite last_lookup. pose proof (lookup_lt_Some _ _ _ Ha0).
      by replace (pred (length (base :: l))) with i by lia.
  - exists bp. split; [done|]. intros n. destruct (walk n bp _) as [l|] eqn:E; [|done].
    apply walk_decided in E. congruence.
Qed.
End parsed.

(** ** Rigid motion *)

Lemma cauchy u v : vdot u v * vdot u v <= vdot u u * vdot v v.
Proof.
  destruct u as [a b c], v as [x y z]. unfold vdot. cbn.
  pose proof (Rle_0_sqr (a * y - b * x)). pose proof (Rle_0_sqr (a * z - c * x)).
  pose proof (Rle_0_sqr (b * z - c * y)). unfold Rsqr in *. nra.
Qed.

Lemma vdot_pos v : 0 <= vdot v v.
Proof. destruct v. unfold vdot. cbn. nra. Qed.

Lemma vnorm_pos v : 0 <= vnorm v.
Proof. apply sqrt_pos. Qed.

Lemma vnorm_sq v : vnorm v * vnorm v = vdot v v.
Proof. apply sqrt_sqrt, vdot_pos. Qed.

Lemma vnorm_triangle u v : vnorm (vadd u v) <= vnorm u + vnorm v.
Proof.
  pose proof (vnorm_pos u). pose proof (vnorm_pos v).
  apply Rsqr_incr_0_var; [|lra]. unfold Rsqr. rewrite vnorm_sq.
  assert (vdot u v <= vnorm u * vnorm v) as Hc.
  { apply Rsqr_incr_0_var; [|nra]. unfold Rsqr. pose proof (cauchy u v).
    rewrite <-!vnorm_sq in *. lra. }
  replace (vdot (vadd u v) (vadd u v)) with (vdot u u + 2 * vdot u v + vdot v v)
    by (destruct u, v; unfold vdot, vadd; cbn; ring).
  rewrite <-!vnorm_sq. nra.
Qed.

Definition vec3_list (l : list R) : Prop := exists a b c, l = [a; b; c].

(** A link whose tuples have three entries. *)
Definition link_ok (l : Link R) : Prop :=
  vec3_list (li_xyz l) /\ vec3_list (li_rpy l) /\ vec3_list (li_axis l).

Definition vlist (l : list R) : V3 := match vec3_of ValueError l with Ok v => v | Raise _ => v0 end.

(** A frame of reference: position and orientation, and a frame seen from another. *)
Definition rframe : Type := V3 * M33.

Definition fcompose (f g : rframe) : rframe := (vadd f.1 (mvec f.2 g.1), mmul f.2 g.2).

Lemma compose_assoc f g h : fcompose f (fcompose g h) = fcompose (fcompose f g) h.
Proof.
  unfold fcompose. cbn. by rewrite mvec_vadd, mvec_mmul, vadd_assoc, mmul_assoc.
Qed.

Lemma compose_id_l f : fcompose (v0, eye) f = f.
Proof. destruct f. unfold fcompose. cbn. by rewrite mvec_eye, vadd_0_l, mmul_eye_l. Qed.

Lemma compose_id_r f : fcompose f (v0, eye) = f.
Proof.
  destruct f as [t r]. unfold fcompose. cbn. rewrite mmul_eye_r. f_equal. destruct t; mat. f_equal; ring.
Qed.

(** The fixed transform of a link, and the turn of its joint. *)
Definition link_frame (l : Link R) : rframe :=
  let rpy := vlist (li_rpy l) in (vlist (li_xyz l), rot_from_rpy (vx rpy) (vy rpy) (vz rpy)).

Definition turn (l : Link R) (a : R) : rframe := (v0, rot_from_axis_angle (vlist (li_axis l)) a).

(** The reference: the product of the transforms of the chain, joint angles missing from [q]
    being zero turns. *)
Fixpoint chain_frame (q : list R) (chain : list (Link R)) : rframe :=
  match chain with
  | [] => (v0, eye)
  | l :: rest =>
    match q with
    | [] => fcompose (link_frame l) (chain_frame [] rest)
    | a :: q => fcompose (fcompose (link_frame l) (turn l a)) (chain_frame q rest)
    end
  end.

Lemma advance_ok f l : link_ok l -> advance_frame f l = Ok (fcompose f (link_frame l)).
Proof.
  intros ((a & b & c & Hx) & (r & p & y & Hr) & _). unfold advance_frame, fcompose, link_frame, vlist.
  by rewrite Hx, Hr.
Qed.

Lemma axis_rot_ok l a : link_ok l -> axis_rot (li_axis l) a = Ok (turn l a).2.
Proof.
  intros (_ & _ & (x & y & z & Ha)). unfold axis_rot, turn, vlist, rot_from_axis_angle, vnorm.
  rewrite Ha. cbn [vec3_of snd foldr].
  replace (x * x + (y * y + (z * z + 0))) with (vdot (Vec x y z) (Vec x y z))
    by (unfold vdot; cbn; ring).
  by destruct (no_rotation _ _).
Qed.

Lemma compose_turn f r : fcompose f (v0, r) = (f.1, mmul f.2 r).
Proof. destruct f as [t m]. unfold fcompose. cbn. f_equal. destruct t; mat. f_equal; ring. Qed.

Lemma fk_rest_ok chain f q : Forall link_ok chain ->
  fk_rest f q chain = Ok (fcompose f (chain_frame q chain)).
Proof.
  intros H. revert f q. induction H as [|l chain Hl _ IH]; intros f q; cbn [fk_rest chain_frame].
  { by rewrite compose_id_r. }
  rewrite (advance_ok f l Hl). cbn [res_bind]. destruct q as [|a q].
  - by rewrite IH, compose_assoc.
  - rewrite (axis_rot_ok l a Hl). cbn [res_bind]. rewrite IH, !compose_assoc.
    by rewrite <-(compose_turn (fcompose f (link_frame l)) (turn l a).2).
Qed.

Lemma chain_frame_rot q chain : is_rot (chain_frame q chain).2.
Proof.
  revert q. induction chain as [|l chain IH]; intros q; cbn [chain_frame]; [apply is_rot_eye|].
  destruct q; unfold fcompose, turn, link_frame; cbn [fst snd];
    repeat apply is_rot_mmul; auto with geo.
Qed.

(** Total length of the links. *)
Definition reach (chain : list (Link R)) : R :=
  foldr (fun l acc => vnorm (vlist (li_xyz l)) + acc) 0 chain.

Lemma vnorm_v0 : vnorm v0 = 0.
Proof. unfold vnorm, vdot, v0. cbn. replace (0 * 0 + 0 * 0 + 0 * 0) with 0 by ring. apply sqrt_0. Qed.

Lemma chain_frame_reach q chain : vnorm (chain_frame q chain).1 <= reach chain.
Proof.
  revert q. induction chain as [|l chain IH]; intros q; cbn [chain_frame reach foldr].
  { cbn. rewrite vnorm_v0. lra. }
  assert (forall (f : rframe) q', is_rot f.2 -> f.1 = vlist (li_xyz l) ->
    vnorm (fcompose f (chain_frame q' chain)).1 <= vnorm (vlist (li_xyz l)) + reach chain) as Hc.
  { intros f q' Hr Hf. unfold fcompose. cbn [fst]. eapply Rle_trans; [apply vnorm_triangle|].
    rewrite Hf, (rot_vnorm _ _ Hr). specialize (IH q'). lra. }
  destruct q; apply Hc; unfold turn; rewrite ?compose_turn; unfold link_frame; cbn [fst snd];
    auto with geo.
Qed.

(** Joint angles beyond the joints of the chain are not used. *)
Lemma chain_frame_take q chain : chain_frame (take (length chain) q) chain = chain_frame q chain.
Proof.
  revert q. induction chain as [|l chain IH]; intros q; [done|].
  destruct q as [|a q]; cbn [length take chain_frame]; [done|]. by rewrite IH.
Qed.

(** forward kinematics is the product of the chain's rigid transforms, seen from the arm's
    mount.  For a chain whose links have three-entry tuples, [fk_world_eef] succeeds for either arm
    and any number of joint angles; the point it returns is the end of the chain, worked out in the
    arm's base frame, carried to the world as [mount_world_point] carries a measured point; it is
    never further from the mount than the links are long together; and joint angles beyond the
    chain's joints do not change it. *)
Theorem fk_rigid default_chain side m q base rest :
  mount_of side = Ok m -> Forall link_ok (base :: rest) ->
  let tip := fcompose (link_frame base) (chain_frame q rest) in
  exists p, fk_world_eef default_chain side q (base :: rest) = Ok p /\
    mount_world_point side (vec_list tip.1) = Ok p /\
    vnorm (vadd p (vopp (translation m))) <= reach (base :: rest) /\
    fk_world_eef default_chain side (take (length rest) q) (base :: rest) = Ok p.
Proof.
  intros Hm [Hb Hr]%Forall_cons. cbn zeta.
  assert (forall q', fk_world_eef default_chain side q' (base :: rest) =
    Ok (vadd (translation m) (mvec (rot m) (fcompose (link_frame base) (chain_frame q' rest)).1))) as Hfk.
  { intros q'. unfold fk_world_eef. rewrite Hm. cbn [res_bind fk_chain].
    rewrite (advance_ok _ _ Hb). cbn [res_bind]. rewrite (fk_rest_ok _ _ _ Hr).
    rewrite <-compose_assoc. reflexivity. }
  eexists. split; [apply Hfk|]. split_and!.
  - unfold mount_world_point. rewrite Hm. cbn [res_bind vec_list take vec3_of].
    rewrite vadd_comm. by destruct (fcompose _ _) as [[x y z] r].
  - set (tip := fcompose _ _). replace (vadd _ _) with (mvec (rot m) tip.1).
    2: { destruct (mvec (rot m) tip.1), (translation m). mat. f_equal; ring. }
    rewrite (rot_vnorm _ _ (mount_is_rot _ _ Hm)).
    pose proof (chain_frame_reach [] [base]) as Hbase.
    change tip with (fcompose (link_frame base) (chain_frame q rest)). unfold fcompose. cbn [fst].
    eapply Rle_trans; [apply vnorm_triangle|]. cbn [reach foldr].
    rewrite rot_vnorm by (unfold link_frame; cbn [snd]; auto with geo).
    pose proof (chain_frame_reach q rest). unfold reach in *. cbn [link_frame fst]. lra.
  - rewrite Hfk. by rewrite chain_frame_take.
Qed.

Lemma fk_rigid_witness :
  let l := MkLink (Some "link1") [0; 0; 1] [0; 0; 0] [0; 0; 1] None [] in
  exists p, fk_world_eef (Ok []) "left" [1] [l; l] = Ok p.
Proof.
  cbn zeta. edestruct (fk_rigid (Ok []) "left") as (p & Hp & _); [reflexivity| |exists p; exact Hp].
  repeat constructor; by do 3 eexists.
Defined.

(** ** The leader's meshes stay where they were modelled *)

(** A point of a mesh, placed by its visual in a frame. *)
Definition place_point (f : rframe) (v : Visual R) (p : V3) : V3 :=
  let rpy := vlist (vi_rpy v) in
  (fcompose f (fcompose (vlist (vi_xyz v), rot_from_rpy (vx rpy) (vy rpy) (vz rpy)) (p, eye))).1.

(** A rotation whose angles [rpy_from_rot] recovers. *)
Definition regular (a : M33) : Prop :=
  hypot (m00 a) (m10 a) = 0 \/ 1 / 10 ^ 9 < hypot (m00 a) (m10 a).

(** A localised part: kept when it is placed by hand, and otherwise drawn where its mesh was
    modelled, in the frame of the base. *)
Definition stays (f : rframe) (v v' : Visual R) : Prop :=
  exists placed, explicitly_placed v = Ok placed /\
    if contains "ros_zup_local" (vi_mesh v) || placed then v' = v
    else regular (mT f.2) -> forall p, place_point f v' p = p.

Lemma localize_visual_place f v v' :
  is_rot f.2 -> localize_visual f.1 f.2 v = Ok v' -> stays f v v'.
Proof.
  intros Hr. unfold localize_visual, stays. destruct (explicitly_placed v) as [pl|]; [|done].
  cbn [res_bind]. intros H. exists pl. split; [done|].
  destruct (_ || pl); [by injection H|]. intros Hg. revert H.
  pose proof (rpy_from_rot_exact (mT f.2) (is_rot_mT _ Hr) Hg) as Hrpy.
  destruct (rpy_from_rot (mT f.2)) as [[r p] y]. intros [= <-] x.
  unfold place_point. cbn [vi_rpy vi_xyz vlist vec3_of vec_list vx vy vz]. rewrite Hrpy.
  rewrite compose_assoc. destruct f as [t a]. cbn [fst snd] in *.
  replace (fcompose (t, a) _) with (v0, eye); [by rewrite compose_id_l|].
  unfold fcompose. cbn [fst snd]. rewrite (proj1 Hr). f_equal.
  transitivity (vadd t (vopp (mvec (mmul a (mT a)) t))).
  - rewrite (proj1 Hr), mvec_eye. destruct t; mat. f_equal; ring.
  - destruct a, t; mat. f_equal; ring.
Qed.

(** The link with its parts replaced. *)
Definition reparted (f : rframe) (l l' : Link R) : Prop :=
  li_name l' = li_name l /\ li_xyz l' = li_xyz l /\ li_rpy l' = li_rpy l /\
  li_axis l' = li_axis l /\ child_offset l' = child_offset l /\
  Forall2 (stays f) (visuals l) (visuals l').

Lemma localize_link_ok f l l' : is_rot f.2 -> localize_link f l = Ok l' -> reparted f l l'.
Proof.
  intros Hr. unfold localize_link. destruct (mapM_res _ _) as [vs|] eqn:E; [|done]. intros [= <-].
  split_and!; try done. apply mapM_res_Forall2 in E. eapply Forall2_impl; [exact E|].
  intros v v' Hv. by apply localize_visual_place.
Qed.

Lemma localize_rest_ok f chain chain' : is_rot f.2 -> Forall link_ok chain ->
  localize_rest f chain = Ok chain' ->
  length chain' = length chain /\
  forall i l l', chain !! i = Some l -> chain' !! i = Some l' ->
    reparted (fcompose f (chain_frame [] (take (S i) chain))) l l'.
Proof.
  intros Hr H. revert f chain' Hr. induction H as [|l chain Hl _ IH]; intros f chain' Hr; cbn [localize_rest].
  { by intros [= <-]. }
  rewrite (advance_ok f l Hl). cbn [res_bind]. set (g := fcompose f (link_frame l)).
  assert (is_rot g.2) as Hg by (apply is_rot_mmul; [done|unfold link_frame; cbn [snd]; auto with geo]).
  destruct (localize_link g l) as [l1|] eqn:E1; [|done]. cbn [res_bind].
  destruct (localize_rest g chain) as [r|] eqn:E2; [|done]. intros [= <-].
  destruct (IH g r Hg E2) as [Hlen Hi]. split; [cbn; lia|].
  intros [|i] a a' Ha Ha'; cbn [lookup list_lookup] in Ha, Ha'.
  - injection Ha as <-. injection Ha' as <-. cbn [take chain_frame].
    rewrite compose_id_r. by apply localize_link_ok.
  - cbn [take chain_frame]. rewrite compose_assoc. fold g. by apply Hi.
Qed.

(** localising the leader's meshes moves the description of a mesh and never the mesh.  The
    kinematics of every link is kept; a part placed by hand or already local is kept; and every
    other part, drawn by its new placement in the frame its link has at rest, puts each point of
    its mesh exactly where the mesh was modelled, except where the link's rest orientation is in
    the band whose angles the code does not recover. *)
Theorem localized_meshes_stay base rest chain' :
  Forall link_ok rest -> localize_factr_base_meshes (base :: rest) = Ok chain' ->
  length chain' = S (length rest) /\
  forall i l l', (base :: rest) !! i = Some l -> chain' !! i = Some l' ->
    reparted (chain_frame [] (take i rest)) l l'.
Proof.
  intros Hok. unfold localize_factr_base_meshes.
  destruct (localize_link _ base) as [b|] eqn:Eb; [|done]. cbn [res_bind].
  destruct (localize_rest _ rest) as [r|] eqn:Er; [|done]. intros [= <-].
  destruct (localize_rest_ok (v0, eye) rest r is_rot_eye Hok Er) as [Hlen Hi].
  split; [cbn; lia|]. intros [|i] l l' Hl Hl'; cbn [lookup list_lookup] in Hl, Hl'.
  - injection Hl as <-. injection Hl' as <-. apply (localize_link_ok (v0, eye)); [apply is_rot_eye|done].
  - rewrite <-(compose_id_l (chain_frame _ _)). by apply Hi.
Qed.

Lemma close_to_refl c : close_to c c = true.
Proof.
  unfold close_to. replace (c - c) with 0 by ring. rewrite Rabs_R0.
  pose proof (Rabs_pos c). destruct (Rle_dec _ _); [done|lra].
Qed.

(** A link one metre up with a mesh modelled in the base frame. *)
Lemma localized_meshes_stay_witness :
  let mesh := MkVisual "arm" "arm.stl" [0; 0; 0] [0; 0; 0] [1; 1; 1] in
  let base := MkLink (Some "base_link") [0; 0; 0] [0; 0; 0] [0; 0; 1] None [] in
  let l := MkLink (Some "link1") [0; 0; 1] [0; 0; 0] [0; 0; 1] None [mesh] in
  exists b l', localize_factr_base_meshes [base; l] = Ok [b; l'] /\
    reparted (chain_frame [] [l]) l l'.
Proof.
  cbn zeta. set (mesh := MkVisual _ _ _ _ _). set (base := MkLink _ _ _ _ _ []).
  set (l := MkLink _ _ _ _ _ [mesh]).
  assert (explicitly_placed mesh = Ok false) as Hp
    by (unfold explicitly_placed, mesh; cbn; by rewrite !close_to_refl).
  assert (Forall link_ok [l]) as Hok by (repeat constructor; by do 3 eexists).
  assert (exists b l', localize_factr_base_meshes [base; l] = Ok [b; l']) as (b & l' & Hl).
  { unfold localize_factr_base_meshes. cbn [localize_link base visuals mapM_res res_bind localize_rest].
    rewrite (advance_ok _ l) by (by apply Forall_inv in Hok). cbn [res_bind].
    unfold localize_link, base, l. cbn [visuals mapM_res res_bind]. unfold localize_visual.
    rewrite Hp. cbn [res_bind orb contains]. destruct (rpy_from_rot _) as [[r p] y].
    cbn. by do 2 eexists. }
  exists b, l'. split; [exact Hl|].
  by apply (proj2 (localized_meshes_stay base [l] [b; l'] Hok Hl) 1%nat).
Defined.
