(* ===== verification/CameraSource.v ===== *)
(** * Camera sources

    Models [interfaces/zed/source.py], [interfaces/realsense/source.py] and the producers that
    poll them ([interfaces/zed/interface.py], [interfaces/realsense/interface.py]): opening a
    device, reading a frame per view, the synthetic sources of simulated runs, and the samples
    handed to the stream producer of [Process].

    The camera SDKs are not in the repository: what the code asks of them is a log, what they
    answer is an input of each call.  An image is a list of rows of pixels of channel values. *)

From Stdlib Require Import SpecFloat Ascii String.
From S2P Require Import Prelude Float64 Streams Text Convention Layout Process Operator.
Local Open Scope string_scope.
Local Open Scope list_scope.
Local Open Scope Z_scope.

Definition VIEW_RIGHT : string := "right".
Definition VIEW_COLOR : string := "color".

(** The fields of a camera's configuration only its source reads. *)
Record camera := MkCamera {
  cc_cfg : CameraCfg; cc_serial : string; cc_auto_serial : bool; cc_resolution : string;
  cc_depth_mode : string; cc_align_depth : bool;
}.

Definition cc_views (cam : camera) : list string := cam_views (cc_cfg cam).

Definition has_view (view : string) (cam : camera) : bool := bool_decide (view ∈ cc_views cam).

(** ** Frames *)

Abbreviation rgb_image := (list (list (list f64))).
Abbreviation depth_image := (list (list f64)).

Inductive cam_image := Rgb (px : rgb_image) | Depth (m : depth_image).

(** [np.ascontiguousarray(img).reshape(-1)]. *)
Definition flatten (i : cam_image) : list f64 :=
  match i with Rgb px => concat (concat px) | Depth m => concat m end.

(** [poll] of both producers: an absent or empty frame is skipped. *)
Definition camera_poll (name : string) (frames : option (list (string * cam_image)))
    : option (list (string * list f64)) :=
  match frames with
  | None | Some [] => None
  | Some fs => Some ((fun x => (camera_stream_name name x.1, flatten x.2)) <$> fs)
  end.

(** A dictionary comprehension over the views. *)
Definition per_view {A} (f : string -> A) (views : list string) : list (string * A) :=
  foldl (fun d v => dset v (f v) d) [] views.

(** ** ZED *)

Definition str_upper_char (c : ascii) : ascii :=
  if in_range "a"%char "z"%char c then ascii_of_nat (nat_of_ascii c - 32) else c.

Fixpoint str_upper (s : string) : string :=
  match s with EmptyString => "" | String c t => String (str_upper_char c) (str_upper t) end.

(** A numeric serial, or none: the first camera is opened. *)
Definition parse_serial (serial : string) : option Z :=
  let serial := py_strip serial in
  if bool_decide (serial = "") then None else int_of_string serial.

(** What the SDK answers while a camera is opened. *)
Record zed_sdk := ZedSdk {
  zs_resolutions : list string; zs_depth_modes : list string;
  zs_devices : list Z;                  (* serials of the connected cameras *)
  zs_open_ok : bool;
  zs_size : Z * Z;                      (* width and height the opened camera reports *)
}.

Inductive zed_call := ZOpen (serial : option Z) | ZClose.

(** The source: whether it holds a camera, a matrix per view, and the log of the cameras opened
    and closed. *)
Record zed := Zed { z_cam : bool; z_mats : list string; z_calls : list zed_call }.

Definition new_zed : zed := Zed false [] [].

Definition autodetect_serial (devices : list Z) : res Z :=
  match devices with [] => Raise RuntimeError | d :: _ => Ok d end.

Definition zed_serial (sdk : zed_sdk) (cam : camera) : res (option Z) :=
  if cc_auto_serial cam then res_map Some (autodetect_serial (zs_devices sdk))
  else Ok (parse_serial (cc_serial cam)).

Definition zed_call_log (c : zed_call) (s : zed) : zed := Zed (z_cam s) (z_mats s) (z_calls s ++ [c]).

(** [ZedSource.open]; an attribute the SDK does not have is an [AttributeError]. *)
Definition zed_open (sdk : zed_sdk) (cam : camera) : ST zed unit := fun s =>
  if has_view VIEW_DEPTH cam && String.eqb (str_upper (cc_depth_mode cam)) "NONE"
  then (s, Raised ValueError)
  else if negb (bool_decide (cc_resolution cam ∈ zs_resolutions sdk)) then (s, Raised OtherError)
  else match f_trunc (cam_fps (cc_cfg cam)) with
  | None => (s, Raised (if is_nan (cam_fps (cc_cfg cam)) then ValueError else OverflowError))
  | Some _ =>
    if negb (bool_decide (cc_depth_mode cam ∈ zs_depth_modes sdk)) then (s, Raised OtherError)
    else match zed_serial sdk cam with
    | Raise e => (s, Raised e)
    | Ok serial =>
      if negb (zs_open_ok sdk) then (s, Raised RuntimeError)
      else
        let s := zed_call_log (ZOpen serial) s in
        if bool_decide (zs_size sdk = (cam_width (cc_cfg cam), cam_height (cc_cfg cam)))
        then (Zed true (dkeys (per_view (fun _ => tt) (cc_views cam))) (z_calls s), Returned tt)
        else (zed_call_log ZClose s, Raised RuntimeError)
    end
  end.

(** What the SDK answers at a tick: the grab, and the arrays it retrieves, [None] for an
    exception. *)
Record zed_tick := ZedTick {
  zt_grab : bool;
  zt_image : bool -> option rgb_image;    (* [true] for the right eye *)
  zt_depth : option depth_image;
}.

(** [data\[:, :, \[2, 1, 0\]\]] on a pixel. *)
Definition bgra_pixel (px : list f64) : option (list f64) :=
  match px with b :: g :: r :: _ => Some [r; g; b] | _ => None end.

Definition bgra_to_rgb (img : rgb_image) : option rgb_image := mapM (mapM bgra_pixel) img.

Definition zed_view (t : zed_tick) (view : string) : option cam_image :=
  if String.eqb view VIEW_DEPTH then (fun m : depth_image => Depth ((fun row : list f64 => f32 <$> row) <$> m)) <$> zt_depth t
  else Rgb <$> (zt_image t (String.eqb view VIEW_RIGHT) ≫= bgra_to_rgb).

(** [ZedSource.read]; reading a closed source is an [AttributeError]. *)
Definition zed_read (t : zed_tick) (s : zed) : res (option (list (string * cam_image))) :=
  if negb (z_cam s) then Raise OtherError
  else if negb (zt_grab t) then Ok None
  else Ok (mapM (fun view => pair view <$> zed_view t view) (z_mats s)).

(** [ZedSource.close]; the SDK's own close may raise. *)
Definition zed_close (sdk_ok : bool) : ST zed unit := fun s =>
  if z_cam s then
    (Zed false [] (z_calls s ++ [ZClose]), if sdk_ok then Returned tt else Raised OtherError)
  else (s, Returned tt).

(** ** RealSense *)

Record rs_sdk := RsSdk {
  rs_devices : list string;
  rs_start : res unit;                  (* [pipeline.start] *)
  rs_depth_scale : res f64;
}.

Inductive rs_call :=
  | RDevice (serial : string)
  | RStream (view : string) (w h fps : Z)
  | RStart
  | RStop.

Record realsense := Rs {
  r_pipeline : bool; r_align : bool; r_scale : f64; r_calls : list rs_call }.

Definition new_rs : realsense := Rs false false (fdec 1 1000) [].

Definition rs_serial (sdk : rs_sdk) (cam : camera) : res string :=
  if cc_auto_serial cam then of_option RuntimeError (head (rs_devices sdk))
  else Ok (py_strip (cc_serial cam)).

(** The requests made of the pipeline's configuration. *)
Definition rs_requests (cam : camera) (serial : string) (fps : Z) : list rs_call :=
  let c := cc_cfg cam in
  (if bool_decide (serial = "") then [] else [RDevice serial]) ++
  (if has_view VIEW_COLOR cam then [RStream VIEW_COLOR (cam_width c) (cam_height c) fps] else []) ++
  (if has_view VIEW_DEPTH cam then [RStream VIEW_DEPTH (cam_width c) (cam_height c) fps] else []).

Definition rs_open (sdk : rs_sdk) (cam : camera) : ST realsense unit := fun s =>
  if negb (forallb (fun v => String.eqb v VIEW_COLOR || String.eqb v VIEW_DEPTH) (cc_views cam))
  then (s, Raised ValueError)
  else match cc_views cam with
  | [] => (s, Raised ValueError)
  | _ =>
    match rs_serial sdk cam with
    | Raise e => (s, Raised e)
    | Ok serial =>
      match f_trunc (cam_fps (cc_cfg cam)) with
      | None => (Rs (r_pipeline s) (r_align s) (r_scale s)
                    (r_calls s ++ (if bool_decide (serial = "") then [] else [RDevice serial])),
                 Raised (if is_nan (cam_fps (cc_cfg cam)) then ValueError else OverflowError))
      | Some fps =>
        let calls := r_calls s ++ rs_requests cam serial fps in
        match rs_start sdk with
        | Raise e => (Rs (r_pipeline s) (r_align s) (r_scale s) calls, Raised e)
        | Ok _ =>
          let calls := calls ++ [RStart] in
          match (if has_view VIEW_DEPTH cam then rs_depth_scale sdk else Ok (r_scale s)) with
          | Raise e => (Rs (r_pipeline s) (r_align s) (r_scale s) calls, Raised e)
          | Ok scale =>
            let align := cc_align_depth cam && has_view VIEW_COLOR cam && has_view VIEW_DEPTH cam in
            (Rs true align scale calls, Returned tt)
          end
        end
      end
    end
  end.

(** A frameset: each frame may be missing.  Depth is in the sensor's units, [uint16]. *)
Record frameset := Frames { fs_color : option rgb_image; fs_depth : option (list (list Z)) }.

(** What the SDK answers at a tick. *)
Record rs_tick := RsTick {
  rt_wait : Z -> res frameset;          (* [wait_for_frames], by its timeout *)
  rt_align : frameset -> res frameset;
}.

Definition rs_timeout_ms (fps : f64) : res Z :=
  if feq fps f0 then Raise OtherError
  else match f_trunc (fdiv (f_of_Z 2000) fps) with
  | None => Raise (if is_nan (fdiv (f_of_Z 2000) fps) then ValueError else OverflowError)
  | Some ms => Ok (Z.max 100 ms)
  end.

(** [depth.astype(np.float32) * scale]: single precision. *)
Definition scaled (scale : f64) (raw : Z) : f64 := f32 (fmul (f32 (f_of_Z raw)) (f32 scale)).

Definition rs_frames (cam : camera) (scale : f64) (f : frameset) : option (list (string * cam_image)) :=
  let color := if has_view VIEW_COLOR cam then (fun px => [(VIEW_COLOR, Rgb px)]) <$> fs_color f else Some [] in
  let depth := if has_view VIEW_DEPTH cam
               then (fun m : list (list Z) => [(VIEW_DEPTH, Depth ((fun row : list Z => scaled scale <$> row) <$> m))]) <$> fs_depth f else Some [] in
  match color, depth with Some c, Some d => Some (c ++ d) | _, _ => None end.

(** [RealSenseSource.read]: only a [RuntimeError] skips the tick. *)
Definition rs_read (t : rs_tick) (cam : camera) (s : realsense) : res (option (list (string * cam_image))) :=
  let r :=
    let? ms := rs_timeout_ms (cam_fps (cc_cfg cam)) in
    if negb (r_pipeline s) then Raise OtherError else
    let? f := rt_wait t ms in
    let? f := (if r_align s then rt_align t f else Ok f) in
    Ok (rs_frames cam (r_scale s) f) in
  match r with Raise RuntimeError => Ok None | _ => r end.

Definition rs_close (sdk_ok : bool) : ST realsense unit := fun s =>
  if r_pipeline s then
    (Rs false false (r_scale s) (r_calls s ++ [RStop]), if sdk_ok then Returned tt else Raised OtherError)
  else (s, Returned tt).

(** ** Simulated cameras *)

(** Single-precision arithmetic: one operation in double precision, rounded. *)
Definition fadd32 (a b : f64) : f64 := f32 (fadd a b).
Definition fsub32 (a b : f64) : f64 := f32 (fsub a b).
Definition fmul32 (a b : f64) : f64 := f32 (fmul a b).
Definition fsqrt32 (a : f64) : f64 := f32 (fsqrt a).

(** [np.linspace(start, stop, num, dtype=np.float32)]: computed in double precision. *)
Definition linspace32 (start stop : f64) (num : nat) : list f64 :=
  match num with
  | O => []
  | 1%nat => [f32 (fadd (fmul f0 (fsub stop start)) start)]
  | S last =>
    let step := fdiv (fsub stop start) (f_of_Z (Z.of_nat last)) in
    ((fun i => f32 (fadd (fmul (f_of_Z (Z.of_nat i)) step) start)) <$> seq 0 last) ++ [f32 stop]
  end.

(** [x.astype(np.uint8)] of a value in range. *)
Definition to_uint8 (x : f64) : f64 := f_of_Z (default 0 (f_trunc x) mod 256).

Definition f256 : f64 := f_of_Z 256.

(** [FakeZedSource]: the time of opening. *)
Record fake_zed := FakeZed { fz_t0 : f64 }.

Definition fake_pixel (view : string) (t : f64) (x y : f64) : list f64 :=
  let base := f32 (np_remainder (fadd32 (fadd32 x y) (f32 (fmul t (f_of_Z 40)))) f256) in
  let tint := if String.eqb view VIEW_RIGHT then f_of_Z 40 else f0 in
  [to_uint8 base;
   to_uint8 (f32 (np_remainder (fadd32 (fadd32 base (f_of_Z 85)) tint) f256));
   to_uint8 (f32 (np_remainder (fadd32 base (f_of_Z 170)) f256))].

Definition fake_rgb (cam : camera) (view : string) (t : f64) : rgb_image :=
  let xs := linspace32 f0 (f_of_Z 255) (Z.to_nat (cam_width (cc_cfg cam))) in
  let ys := linspace32 f0 (f_of_Z 255) (Z.to_nat (cam_height (cc_cfg cam))) in
  (fun y => (fun x => fake_pixel view t x y) <$> xs) <$> ys.

Section sines.
Context (sin32 : f64 -> f64) (sin64 : f64 -> f64).    (* [np.sin] *)

Definition fake_depth (cam : camera) (t : f64) : depth_image :=
  let xs := linspace32 (fopp f1) f1 (Z.to_nat (cam_width (cc_cfg cam))) in
  let ys := linspace32 (fopp f1) f1 (Z.to_nat (cam_height (cc_cfg cam))) in
  (fun y => (fun x =>
    let r := fsqrt32 (fadd32 (fmul32 x x) (fmul32 y y)) in
    fadd32 (fdec 3 2) (fmul32 (fdec 1 2) (f32 (sin32 (fsub32 (fmul32 (f_of_Z 2) r) (f32 t)))))) <$> xs) <$> ys.

Definition fake_zed_frame (cam : camera) (t : f64) (view : string) : cam_image :=
  if String.eqb view VIEW_DEPTH then Depth (fake_depth cam t) else Rgb (fake_rgb cam view t).

Definition fake_zed_read (cam : camera) (s : fake_zed) (now : f64) : option (list (string * cam_image)) :=
  Some (per_view (fake_zed_frame cam (fsub now (fz_t0 s))) (cc_views cam)).

(** [np.uint16] arithmetic: a Python integer must fit, sums wrap. *)
Definition uint16_int (k : Z) : res Z := if (0 <=? k) && (k <? 65536) then Ok k else Raise OverflowError.

Definition add16 (a b : Z) : Z := (a + b) mod 65536.

Definition fake_rs_color (cam : camera) (t : f64) : res rgb_image :=
  let w := Z.to_nat (cam_width (cc_cfg cam)) in
  let h := Z.to_nat (cam_height (cc_cfg cam)) in
  let? k := of_option OverflowError (f_trunc (fmul t (f_of_Z 30))) in
  let? k := uint16_int k in
  Ok ((fun y => (fun x =>
    f_of_Z <$> [add16 x k mod 256; add16 y 80 mod 256; add16 (add16 x y) 160 mod 256])
    <$> (Z.of_nat <$> seq 0 w)) <$> (Z.of_nat <$> seq 0 h)).

Definition fake_rs_depth (cam : camera) (t : f64) : depth_image :=
  replicate (Z.to_nat (cam_height (cc_cfg cam)))
    (replicate (Z.to_nat (cam_width (cc_cfg cam))) (f32 (fadd f1 (fmul (fdec 1 10) (sin64 t))))).

Record fake_rs := FakeRs { fr_t0 : f64 }.

Definition fake_rs_read (cam : camera) (s : fake_rs) (now : f64) : res (option (list (string * cam_image))) :=
  let t := fsub now (fr_t0 s) in
  let? color := (if has_view VIEW_COLOR cam
                 then res_map (fun px => [(VIEW_COLOR, Rgb px)]) (fake_rs_color cam t) else Ok []) in
  let depth := if has_view VIEW_DEPTH cam then [(VIEW_DEPTH, Depth (fake_rs_depth cam t))] else [] in
  Ok (Some (color ++ depth)).
End sines.

(** ** Samples fit the declared streams *)

(** An image of a view at a size. *)
Definition fits (w h : Z) (view : string) (i : cam_image) : Prop :=
  match i with
  | Rgb px => view <> VIEW_DEPTH /\ Z.of_nat (length px) = h /\
      Forall (fun row => Z.of_nat (length row) = w /\ Forall (fun p => length p = 3%nat) row) px
  | Depth m => view = VIEW_DEPTH /\ Z.of_nat (length m) = h /\
      Forall (fun row => Z.of_nat (length row) = w) m
  end.

Lemma length_concat_all {A} n (l : list (list A)) :
  Forall (fun x => length x = n) l -> length (concat l) = (length l * n)%nat.
Proof. induction 1 as [|x l Hx _ IH]; cbn [concat length]; [done|]. rewrite length_app. lia. Qed.

Lemma length_flatten w h view i c : fits w h view i -> view_channels view = Ok c ->
  Z.of_nat (length (flatten i)) = h * w * c.
Proof.
  unfold view_channels. destruct i as [px|m]; intros (Hv & <- & Hr) Hc; cbn [flatten].
  - destruct (bool_decide_reflect (view ∈ RGB_VIEWS)); [injection Hc as <-|].
    2: { rewrite (proj2 (String.eqb_neq _ _) Hv) in Hc. done. }
    assert (length (concat (concat px)) = length (concat px) * 3)%nat as ->.
    { apply length_concat_all, Forall_concat. eapply Forall_impl; [exact Hr|]. by intros row [_ ?]. }
    assert (length (concat px) = length px * Z.to_nat w)%nat as ->.
    { apply length_concat_all. eapply Forall_impl; [exact Hr|]. cbn. intros row [? _]. lia. }
    destruct px as [|row px]; [cbn; lia|]. apply Forall_inv in Hr. destruct Hr. lia.
  - subst view. cbn in Hc. injection Hc as <-.
    assert (length (concat m) = length m * Z.to_nat w)%nat as ->.
    { apply length_concat_all. eapply Forall_impl; [exact Hr|]. cbn. intros. lia. }
    destruct m as [|row m]; [cbn; lia|]. apply Forall_inv in Hr. lia.
Qed.

(** A sample a producer may write: one whole vector for each declared stream and no other. *)
Definition sample_fits (specs : list StreamSpec) (sample : list (string * list f64)) : Prop :=
  sample.*1 ≡ₚ sp_name <$> specs /\
  forall n v, (n, v) ∈ sample -> exists s, s ∈ specs /\ sp_name s = n /\ Z.of_nat (length v) = sp_dim s.

(** Frames a source may return: one fitting image per view. *)
Definition whole_frames (cam : camera) (fs : list (string * cam_image)) : Prop :=
  fs.*1 ≡ₚ cc_views cam /\
  Forall (fun x => fits (cam_width (cc_cfg cam)) (cam_height (cc_cfg cam)) x.1 x.2) fs.

Lemma camera_spec_fields name cam view s : camera_spec name cam view = Ok s ->
  exists c, view_channels view = Ok c /\ sp_name s = camera_stream_name name view /\
    sp_dim s = cam_height cam * cam_width cam * c.
Proof.
  unfold camera_spec. destruct (view_channels view) as [c|]; [|done]. cbn [res_bind].
  destruct (view_dtype view) as [dt|]; [|done]. cbn [res_bind]. unfold stream_spec.
  destruct (decide _); [done|]. repeat (destruct (_ <=? 0); [done|]). destruct (negb _); [done|].
  intros [= <-]. by exists c.
Qed.

Lemma mapM_res_lookup {A B} (f : A -> res B) l l' : mapM_res f l = Ok l' ->
  forall x, x ∈ l -> exists y, y ∈ l' /\ f x = Ok y.
Proof.
  revert l'. induction l as [|a l IH]; intros l' H x Hx; [by apply not_elem_of_nil in Hx|].
  cbn in H. destruct (f a) as [y|] eqn:Ea; [|done]. cbn in H.
  destruct (mapM_res f l) as [r|]; [|done]. injection H as <-.
  apply elem_of_cons in Hx as [->|Hx]; [exists y; split; [by left|done]|].
  destruct (IH r eq_refl x Hx) as (z & Hz & Hf). exists z. split; [by right|done].
Qed.

Lemma spec_names name cam specs : camera_streams_to_specs name cam = Ok specs ->
  sp_name <$> specs = camera_stream_name name <$> cam_views cam.
Proof.
  unfold camera_streams_to_specs. generalize (cam_views cam) as l. intros l. revert specs.
  induction l as [|v l IH]; intros specs; cbn [mapM_res]; [by intros [= <-]|].
  destruct (camera_spec name cam v) as [s|] eqn:E; [|done]. cbn [res_bind].
  destruct (mapM_res _ l) as [r|]; [|done]. intros [= <-]. cbn [fmap list_fmap].
  destruct (camera_spec_fields _ _ _ _ E) as (c & _ & -> & _). f_equal. by apply IH.
Qed.

Lemma poll_fits name cam specs fs sample :
  camera_streams_to_specs name (cc_cfg cam) = Ok specs -> whole_frames cam fs ->
  camera_poll name (Some fs) = Some sample -> sample_fits specs sample.
Proof.
  intros Hs [Hp Hf] Hc. assert (sample = (fun x => (camera_stream_name name x.1, flatten x.2)) <$> fs) as ->
    by (destruct fs; [done|by injection Hc as <-]).
  split.
  - rewrite (spec_names _ _ _ Hs).
    transitivity (camera_stream_name name <$> fs.*1); [|by rewrite Hp].
    by rewrite <-!list_fmap_compose.
  - intros n v (x & [= -> ->] & Hx)%list_elem_of_fmap.
    rewrite Forall_forall in Hf. specialize (Hf x Hx).
    assert (x.1 ∈ cc_views cam) as Hv by (rewrite <-Hp; by apply list_elem_of_fmap_2).
    destruct (mapM_res_lookup _ _ _ Hs _ Hv) as (s & Hin & Hspec).
    destruct (camera_spec_fields _ _ _ _ Hspec) as (c & Hch & Hn & Hd).
    exists s. split_and!; [done|done|]. rewrite Hd. by eapply length_flatten.
Qed.

(** *** The four sources *)

Lemma keys_per_view {A} (f : string -> A) views : NoDup views ->
  per_view f views = (fun v => (v, f v)) <$> views.
Proof.
  unfold per_view. intros Hn.
  enough (forall d, NoDup views -> (forall v, v ∈ views -> v ∉ dkeys d) ->
    foldl (fun d v => dset v (f v) d) d views = d ++ ((fun v => (v, f v)) <$> views)) as H
    by (rewrite H; [done..|intros v _; apply not_elem_of_nil]).
  clear Hn. induction views as [|v views IH]; intros d Hn Hd; cbn [foldl fmap list_fmap]; [by rewrite app_nil_r|].
  apply NoDup_cons in Hn as [Hv Hn].
  rewrite (dkeys_dset_new v (f v) d) by (apply Hd; left). rewrite IH; [by rewrite <-app_assoc|done|].
  intros u Hu. unfold dkeys. rewrite fmap_app, elem_of_app. intros [Hin|Hin].
  - by apply (Hd u); [right|].
  - apply list_elem_of_singleton in Hin. cbn in Hin. by subst.
Qed.

(** A grid of the given size. *)
Definition grid {A} (w h : Z) (P : A -> Prop) (m : list (list A)) : Prop :=
  Z.of_nat (length m) = h /\ Forall (fun row => Z.of_nat (length row) = w /\ Forall P row) m.

(** What the ZED SDK documents: arrays of the opened camera's resolution, four channels. *)
Definition zed_contract (sdk : zed_sdk) (t : zed_tick) : Prop :=
  (forall right img, zt_image t right = Some img ->
    grid (zs_size sdk).1 (zs_size sdk).2 (fun p => length p = 4%nat) img) /\
  (forall m, zt_depth t = Some m -> grid (zs_size sdk).1 (zs_size sdk).2 (fun _ => True) m).

(** What the RealSense SDK documents: frames of the resolution asked for, aligned or not. *)
Definition rs_frames_sized (cam : camera) (f : frameset) : Prop :=
  let c := cc_cfg cam in
  (forall px, fs_color f = Some px -> grid (cam_width c) (cam_height c) (fun p => length p = 3%nat) px) /\
  (forall m, fs_depth f = Some m -> grid (cam_width c) (cam_height c) (fun _ => True) m).

Definition rs_contract (cam : camera) (t : rs_tick) : Prop :=
  (forall ms f, rt_wait t ms = Ok f -> rs_frames_sized cam f) /\
  (forall f f', rt_align t f = Ok f' -> rs_frames_sized cam f -> rs_frames_sized cam f').

Lemma fits_rgb w h view px : view <> VIEW_DEPTH -> grid w h (fun p => length p = 3%nat) px ->
  fits w h view (Rgb px).
Proof. intros Hv [Hl Hr]. by split_and!. Qed.

Lemma fits_depth w h (m : depth_image) : grid w h (fun _ => True) m -> fits w h VIEW_DEPTH (Depth m).
Proof. intros [Hl Hr]. split_and!; [done|done|]. eapply Forall_impl; [exact Hr|]. by intros row []. Qed.

Lemma grid_fmap {A B} w h (P : B -> Prop) (f : A -> B) (m : list (list A)) :
  (forall x, P (f x)) -> grid w h (fun _ => True) m ->
  grid w h P ((fun row : list A => f <$> row) <$> m).
Proof.
  intros HP [Hl Hr]. split; [by rewrite length_fmap|]. apply Forall_fmap.
  eapply Forall_impl; [exact Hr|]. intros row [Hw _]. cbn. rewrite length_fmap.
  split; [done|]. apply Forall_fmap, Forall_true. intros. apply HP.
Qed.

Lemma bgra_grid w h img px : grid w h (fun p => length p = 4%nat) img -> bgra_to_rgb img = Some px ->
  grid w h (fun p => length p = 3%nat) px.
Proof.
  intros [Hl Hr] H. apply mapM_Some in H. pose proof (Forall2_length _ _ _ H) as Hlen.
  split; [lia|]. clear Hl Hlen. induction H as [|row row' img px Hrow _ IH]; [done|].
  apply Forall_cons in Hr as [[Hw _] Hr]. constructor; [|by apply IH].
  apply mapM_Some in Hrow. split; [by rewrite <-(Forall2_length _ _ _ Hrow)|].
  clear Hw Hr IH. induction Hrow as [|p p' row row' Hp _ IH]; constructor; [|done].
  destruct p as [|b [|g [|r p]]]; try done. by injection Hp as <-.
Qed.

Lemma zed_open_returned sdk cam s : zed_open sdk cam new_zed = (s, Returned tt) ->
  zs_size sdk = (cam_width (cc_cfg cam), cam_height (cc_cfg cam)) /\
  z_mats s = dkeys (per_view (fun _ => tt) (cc_views cam)).
Proof.
  unfold zed_open. destruct (_ && _); [done|]. destruct (negb _); [done|].
  destruct (f_trunc _); [|done]. destruct (negb _); [done|]. destruct (zed_serial _ _); [|done].
  destruct (negb _); [done|]. destruct (bool_decide_reflect (zs_size sdk = (cam_width (cc_cfg cam), cam_height (cc_cfg cam))));
    [|done]. by intros [= <-].
Qed.

Lemma zed_read_whole sdk cam s t fs : NoDup (cc_views cam) ->
  zed_open sdk cam new_zed = (s, Returned tt) -> zed_contract sdk t -> zed_read t s = Ok (Some fs) ->
  whole_frames cam fs.
Proof.
  intros Hn Ho [Hi Hd] Hr. destruct (zed_open_returned _ _ _ Ho) as [Hsz Hm].
  unfold zed_read in Hr. destruct (negb (z_cam s)); [done|]. destruct (negb (zt_grab t)); [done|].
  injection Hr as Hr. rewrite Hm, keys_per_view in Hr by done.
  unfold dkeys in Hr. rewrite <-list_fmap_compose in Hr. cbn [compose fst] in Hr.
  rewrite list_fmap_id in Hr. apply mapM_Some in Hr. rewrite Hsz in Hi, Hd. cbn [fst snd] in Hi, Hd.
  clear Hn Hm Ho Hsz. split.
  - clear Hi Hd. induction Hr as [|v x l fs Hv _ IH]; [done|]. cbn [fmap list_fmap].
    destruct (zed_view t v); [|done]. injection Hv as <-. by apply Permutation_skip.
  - induction Hr as [|v x l fs Hv _ IH]; constructor; [|done]. unfold zed_view in Hv.
    destruct (String.eqb_spec v VIEW_DEPTH) as [->|Hne].
    + destruct (zt_depth t) as [m|]; [|done]. injection Hv as <-. apply fits_depth, grid_fmap; eauto.
    + destruct (zt_image t _) as [img|] eqn:Ei; [|done]. cbn in Hv.
      destruct (bgra_to_rgb img) as [px|] eqn:Eb; [|done]. injection Hv as <-.
      apply fits_rgb; [done|]. eapply bgra_grid; eauto.
Qed.

(** The elements of a literal list, one goal each. *)
Ltac each := repeat first [apply List.Forall_nil | apply List.Forall_cons].

(** The RealSense views, in the order the source fills them. *)
Definition rs_keys (cam : camera) : list string :=
  (if has_view VIEW_COLOR cam then [VIEW_COLOR] else []) ++
  (if has_view VIEW_DEPTH cam then [VIEW_DEPTH] else []).

Definition rs_views_ok (cam : camera) : Prop :=
  Forall (fun v => v = VIEW_COLOR \/ v = VIEW_DEPTH) (cc_views cam).

Lemma rs_keys_views cam : NoDup (cc_views cam) -> rs_views_ok cam -> rs_keys cam ≡ₚ cc_views cam.
Proof.
  intros Hn Hv. apply NoDup_Permutation; [|done|].
  - unfold rs_keys. destruct (has_view VIEW_COLOR cam), (has_view VIEW_DEPTH cam); cbn;
      repeat constructor; set_solver.
  - intros v. unfold rs_keys, has_view, rs_views_ok in *. rewrite Forall_forall in Hv.
    specialize (Hv v). rewrite elem_of_app.
    destruct (bool_decide_reflect (VIEW_COLOR ∈ cc_views cam)),
      (bool_decide_reflect (VIEW_DEPTH ∈ cc_views cam));
      rewrite ?list_elem_of_singleton, ?elem_of_nil; naive_solver.
Qed.

Lemma rs_frames_whole cam scale f fs : NoDup (cc_views cam) -> rs_views_ok cam ->
  rs_frames_sized cam f -> rs_frames cam scale f = Some fs -> whole_frames cam fs.
Proof.
  intros Hn Hv [Hc Hd] H. unfold whole_frames. rewrite <-(rs_keys_views cam Hn Hv).
  unfold rs_frames in H. unfold rs_keys.
  destruct (has_view VIEW_COLOR cam), (has_view VIEW_DEPTH cam);
    try (destruct (fs_color f) as [px|]; [|done]); try (destruct (fs_depth f) as [m|]; [|done]);
    injection H as <-; (split; [done|]); each;
    first [apply fits_rgb; [done|auto]|apply fits_depth, grid_fmap; auto].
Qed.

Lemma rs_open_views sdk cam s : rs_open sdk cam new_rs = (s, Returned tt) -> rs_views_ok cam.
Proof.
  unfold rs_open. destruct (forallb _ _) eqn:E; [|done]. intros _. apply Forall_forall. intros v Hv.
  rewrite forallb_forall in E. specialize (E v (proj1 (list_elem_of_In _ _) Hv)).
  apply orb_true_iff in E as [E|E]; apply String.eqb_eq in E; auto.
Qed.

Lemma rs_read_whole sdk cam s t fs : NoDup (cc_views cam) ->
  rs_open sdk cam new_rs = (s, Returned tt) -> rs_contract cam t -> rs_read t cam s = Ok (Some fs) ->
  whole_frames cam fs.
Proof.
  intros Hn Ho [Hw Ha]. apply rs_open_views in Ho. unfold rs_read. cbn zeta.
  destruct (rs_timeout_ms _) as [ms|e]; [|by destruct e]. cbn [res_bind].
  destruct (negb _); [done|]. destruct (rt_wait t ms) as [f|e] eqn:Ef; [|by destruct e]. cbn [res_bind].
  destruct (if r_align s then _ else _) as [g|e] eqn:Eg; [|by destruct e]. cbn [res_bind]. intros [= H].
  eapply rs_frames_whole; [done|done| |exact H].
  destruct (r_align s); [by eapply Ha; eauto|]. injection Eg as <-. eauto.
Qed.

Lemma length_linspace a b n : length (linspace32 a b n) = n.
Proof.
  destruct n as [|[|n]]; [done|done|]. unfold linspace32. rewrite length_app, length_fmap, length_seq. cbn. lia.
Qed.

(** A grid made from coordinates. *)
Lemma grid_make {A B C} w h (P : C -> Prop) (f : B -> A -> C) (xs : list A) (ys : list B) :
  Z.of_nat (length xs) = w -> Z.of_nat (length ys) = h -> (forall y x, P (f y x)) ->
  grid w h P ((fun y => (fun x => f y x) <$> xs) <$> ys).
Proof.
  intros Hx Hy HP. split; [by rewrite length_fmap|]. apply Forall_fmap, Forall_true. intros y.
  cbn. rewrite length_fmap. split; [done|]. apply Forall_fmap, Forall_true. intros. apply HP.
Qed.

Definition sized (cam : camera) : Prop := 0 <= cam_width (cc_cfg cam) /\ 0 <= cam_height (cc_cfg cam).

Lemma fake_zed_whole sin32 cam s now fs : NoDup (cc_views cam) -> sized cam ->
  fake_zed_read sin32 cam s now = Some fs -> whole_frames cam fs.
Proof.
  intros Hn [Hw Hh] [= <-]. rewrite keys_per_view by done. split.
  - rewrite <-list_fmap_compose. cbn [compose fst]. by rewrite list_fmap_id.
  - apply Forall_fmap, Forall_true. intros v. cbn [fst snd compose]. unfold fake_zed_frame.
    destruct (String.eqb_spec v VIEW_DEPTH) as [->|Hne].
    + apply fits_depth, grid_make; rewrite ?length_linspace; [lia..|done].
    + apply fits_rgb; [done|]. apply grid_make; rewrite ?length_linspace; [lia..|done].
Qed.

Lemma fake_rs_whole sin64 cam s now fs : NoDup (cc_views cam) -> sized cam -> rs_views_ok cam ->
  fake_rs_read sin64 cam s now = Ok (Some fs) -> whole_frames cam fs.
Proof.
  intros Hn [Hw Hh] Hv H. unfold whole_frames. rewrite <-(rs_keys_views cam Hn Hv).
  unfold fake_rs_read in H. unfold rs_keys.
  assert (forall px, fake_rs_color cam (fsub now (fr_t0 s)) = Ok px ->
    grid (cam_width (cc_cfg cam)) (cam_height (cc_cfg cam)) (fun p => length p = 3%nat) px) as Hc.
  { intros px. unfold fake_rs_color. destruct (of_option _ _) as [k|]; [|done]. cbn [res_bind].
    destruct (uint16_int k); [|done]. intros [= <-].
    apply grid_make; rewrite ?length_fmap, ?length_seq; [lia..|done]. }
  assert (fits (cam_width (cc_cfg cam)) (cam_height (cc_cfg cam)) VIEW_DEPTH
    (Depth (fake_rs_depth sin64 cam (fsub now (fr_t0 s))))) as Hd.
  { apply fits_depth. split; [unfold fake_rs_depth; rewrite length_replicate; lia|].
    apply Forall_replicate. split; [rewrite length_replicate; lia|by apply Forall_true]. }
  destruct (has_view VIEW_COLOR cam).
  - destruct (fake_rs_color _ _) as [px|]; [|done]. cbn [res_map res_bind] in H.
    destruct (has_view VIEW_DEPTH cam); injection H as <-; (split; [done|]); each; try done;
      by apply fits_rgb, Hc.
  - cbn [res_bind] in H. destruct (has_view VIEW_DEPTH cam); injection H as <-; (split; [done|]);
      each; done.
Qed.

(** What a camera's source returned: an opened device whose SDK keeps its contract, or a
    simulated one. *)
Inductive returned (sin32 sin64 : f64 -> f64) (cam : camera) : list (string * cam_image) -> Prop :=
  | returned_zed sdk s t fs :
      zed_open sdk cam new_zed = (s, Returned tt) -> zed_contract sdk t ->
      zed_read t s = Ok (Some fs) -> returned sin32 sin64 cam fs
  | returned_rs sdk s t fs :
      rs_open sdk cam new_rs = (s, Returned tt) -> rs_contract cam t ->
      rs_read t cam s = Ok (Some fs) -> returned sin32 sin64 cam fs
  | returned_fake_zed s now fs :
      sized cam -> fake_zed_read sin32 cam s now = Some fs -> returned sin32 sin64 cam fs
  | returned_fake_rs s now fs :
      sized cam -> rs_views_ok cam -> fake_rs_read sin64 cam s now = Ok (Some fs) ->
      returned sin32 sin64 cam fs.


Definition demo_zed : camera := MkCamera (Camera 2 1 (f_of_Z 30) 4 ["left"; "depth"]) "" true "HD720" "NEURAL" true.

Definition demo_sdk : zed_sdk := ZedSdk ["HD720"] ["NONE"; "NEURAL"] [7] true (2, 1).

Definition demo_tick : zed_tick :=
  ZedTick true (fun _ => Some [[[f0; f0; f1; f1]; [f1; f0; f0; f1]]]) (Some [[f1; f1]]).


(** opening a ZED ends in one of two states.  Either the source holds a camera of exactly the
    configured size, bound to the first connected camera when the serial is to be detected and to
    the configured serial otherwise, with depth computed if depth is published; or it raised,
    holds nothing, and a camera it had opened was closed.  Closing afterwards leaves nothing open,
    also when the SDK's own close raises. *)
Theorem zed_open_settles sdk cam close_ok :
  let '(s, o) := zed_open sdk cam new_zed in
  (o = Returned tt /\ z_cam s = true /\
     zs_size sdk = (cam_width (cc_cfg cam), cam_height (cc_cfg cam)) /\
     (VIEW_DEPTH ∈ cc_views cam -> str_upper (cc_depth_mode cam) <> "NONE") /\
     exists serial, z_calls s = [ZOpen serial] /\
       z_calls (zed_close close_ok s).1 = [ZOpen serial; ZClose] /\
       if cc_auto_serial cam then serial = head (zs_devices sdk) /\ serial <> None
       else serial = parse_serial (cc_serial cam)) \/
  (exists e, o = Raised e /\ z_cam s = false /\ zed_close close_ok s = (s, Returned tt) /\
     (z_calls s = [] \/ exists serial, z_calls s = [ZOpen serial; ZClose])).
Proof.
  assert (forall e, (exists e0 : exn, Raised e = @Raised unit e0 /\ z_cam new_zed = false /\
    zed_close close_ok new_zed = (new_zed, Returned tt) /\
    (z_calls new_zed = [] \/ exists serial, z_calls new_zed = [ZOpen serial; ZClose]))) as Hfail
    by (intros e; exists e; split_and!; auto).
  unfold zed_open. destruct (has_view VIEW_DEPTH cam && _) eqn:Ed; [right; apply Hfail|].
  destruct (negb _); [right; apply Hfail|].
  destruct (f_trunc _); [|right; apply Hfail].
  destruct (negb _); [right; apply Hfail|].
  destruct (zed_serial sdk cam) as [serial|] eqn:Es; [|right; apply Hfail].
  destruct (negb _); [right; apply Hfail|].
  destruct (bool_decide_reflect (zs_size sdk = (cam_width (cc_cfg cam), cam_height (cc_cfg cam)))) as [Hsz|].
  2: { right. eexists. split_and!; [done..|]. right. by exists serial. }
  left. split_and!; [done|done|done| |].
  - intros Hv Hu. unfold has_view in Ed. rewrite bool_decide_eq_true_2, Hu in Ed by done. done.
  - exists serial. split_and!; [done|done|]. unfold zed_serial, autodetect_serial in Es.
    destruct (cc_auto_serial cam); [|by injection Es].
    destruct (zs_devices sdk); [done|]. by injection Es as <-.
Qed.

(** The simulated color camera adds the time in thirtieths of a second to [uint16] coordinates:
    numpy refuses the sum once it no longer fits, 2184.53 seconds after opening. *)
Lemma simulated_color_overflows sin64 cam s now k :
  has_view VIEW_COLOR cam = true ->
  f_trunc (fmul (fsub now (fr_t0 s)) (f_of_Z 30)) = Some k -> 65536 <= k ->
  fake_rs_read sin64 cam s now = Raise OverflowError.
Proof.
  intros Hc Hk Hb. unfold fake_rs_read, fake_rs_color. rewrite Hc, Hk. cbn [of_option res_bind].
  unfold uint16_int. destruct (Z.ltb_spec k 65536); [lia|]. by rewrite andb_false_r.
Qed.

Example simulated_color_dies :
  fake_rs_read id (MkCamera (Camera 2 1 (f_of_Z 30) 4 ["color"]) "" false "" "" true) (FakeRs f0) (f_of_Z 2185)
  = Raise OverflowError.
Proof. by apply simulated_color_overflows with (k := 65550). Qed.
