(* ===== verification/MeshFiles.v ===== *)
(** * Mesh files

    Models the loaders of [dashboard/robot_view.py] for the meshes of the robot: the OBJ format with
    its MTL materials, read line by line into one part per material, and the binary STL format.  A
    file is its lines (OBJ, MTL) or its bytes (STL); parts are triangles without shared corners. *)

From Stdlib Require Import SpecFloat Ascii String.
From S2P Require Import Prelude Float64 Text Layout Operator.
Local Open Scope string_scope.
Local Open Scope list_scope.
Local Open Scope Z_scope.

(** [_MeshPart]; the indices are [0 .. n-1] in rows of three. *)
Record mesh_data := MeshData {
  md_material : string;
  md_albedo : list f64;
  md_positions : list (list f64);
  md_normals : option (list (list f64));
}.

Definition FALLBACK_ALBEDO : list f64 := [fdec 8 10; fdec 8 10; fdec 8 10].

(** [int(s)]: digits with a sign. *)
Definition digits_int (d : string) : res Z := if py_isdigit d then int_of_digits d else Raise ValueError.

Definition py_int (s : string) : res Z :=
  match py_strip s with
  | String "-" d => let? n := digits_int d in Ok (- n)
  | String "+" d => digits_int d
  | d => digits_int d
  end.

(** [a\[i\]] of a NumPy array: negative indices count from the end. *)
Definition np_index {A} (l : list A) (i : Z) : res A :=
  let n := Z.of_nat (length l) in
  if (0 <=? i) && (i <? n) then of_option IndexError (l !! Z.to_nat i)
  else if (i <? 0) && (- n <=? i) then of_option IndexError (l !! Z.to_nat (n + i))
  else Raise IndexError.

(** [np.asarray(rows)]: rows of one length. *)
Definition matrix (rows : list (list f64)) : res (list (list f64)) :=
  match rows with
  | [] => Ok []
  | r :: _ => if forallb (fun x => (length x =? length r)%nat) rows then Ok rows else Raise ValueError
  end.

Section files.
Context (float_of_str : string -> option f64).

(** [float(x) for x in t\[1:4\]]. *)
Definition coords (t : list string) : res (list f64) :=
  mapM_res (fun x => of_option ValueError (float_of_str x)) (take 3 t).

(** ** Materials *)

Definition mtl_line (acc : option string * list (string * list f64)) (raw : string) : res (option string * list (string * list f64)) :=
  match py_words raw with
  | [] => Ok acc
  | k :: t =>
    if String.eqb k "newmtl" then let? n := of_option IndexError (head t) in Ok (Some n, acc.2)
    else if String.eqb k "Kd" then
      match acc.1 with
      | Some c => let? kd := coords t in Ok (acc.1, dset c kd acc.2)
      | None => Ok acc
      end
    else Ok acc
  end.

(** [_parse_mtl]: [None] is a file that is not there. *)
Definition parse_mtl (file : option (list string)) : res (list (string * list f64)) :=
  match file with
  | None => Ok []
  | Some lines => let? r := foldM_res mtl_line lines (None, []) in Ok r.2
  end.

(** ** OBJ *)

Record obj_state := ObjState {
  ob_v : list (list f64);
  ob_vn : list (list f64);
  ob_mats : list (string * list f64);
  ob_groups : list (string * list string);     (* material to corners, in order of first use *)
  ob_current : string;
}.

Definition obj0 : obj_state := ObjState [] [] [] [] "".

(** A face with corners [c0 c1 .. ck] as the triangles [(c0, ci, ci+1)]. *)
Fixpoint fan_from (c0 : string) (rest : list string) : list string :=
  match rest with
  | a :: ((b :: _) as tl) => c0 :: a :: b :: fan_from c0 tl
  | _ => []
  end.

Definition fan (c : list string) : list string := match c with c0 :: rest => fan_from c0 rest | [] => [] end.

(** One line; [read] gives the lines of a material file beside the mesh. *)
Definition obj_line (read : string -> option (list string)) (s : obj_state) (raw : string) : res obj_state :=
  match py_words raw with
  | [] => Ok s
  | k :: t =>
    if String.eqb k "v" then let? x := coords t in Ok (ObjState (ob_v s ++ [x]) (ob_vn s) (ob_mats s) (ob_groups s) (ob_current s))
    else if String.eqb k "vn" then let? x := coords t in Ok (ObjState (ob_v s) (ob_vn s ++ [x]) (ob_mats s) (ob_groups s) (ob_current s))
    else if String.eqb k "mtllib" then
      let? n := of_option IndexError (head t) in
      let? m := parse_mtl (read n) in Ok (ObjState (ob_v s) (ob_vn s) m (ob_groups s) (ob_current s))
    else if String.eqb k "usemtl" then
      let? n := of_option IndexError (head t) in Ok (ObjState (ob_v s) (ob_vn s) (ob_mats s) (ob_groups s) n)
    else if String.eqb k "f" then
      Ok (ObjState (ob_v s) (ob_vn s) (ob_mats s)
            (dset (ob_current s) (default [] (dget (ob_current s) (ob_groups s)) ++ fan t) (ob_groups s)) (ob_current s))
    else Ok s
  end.

(** The index a corner names: [int(part) - 1] into the array. *)
Definition corner_row (rows : list (list f64)) (part : string) : res (list f64) :=
  let? i := py_int part in np_index rows (i - 1).

Definition corner_position (pos : list (list f64)) (corner : string) : res (list f64) :=
  let? part := of_option IndexError (head (py_split "/" corner)) in corner_row pos part.

Definition corner_normal (nrm : list (list f64)) (corner : string) : res (list f64) :=
  let? part := of_option IndexError (list.last (py_split "/" corner)) in corner_row nrm part.

(** Normals are read when the first corner names one. *)
Definition part_normals (nrm : list (list f64)) (corners : list string) : res (option (list (list f64))) :=
  match nrm with
  | [] => Ok None
  | _ =>
    let? first := of_option IndexError (head corners) in
    match py_split "/" first with
    | _ :: (_ :: _) as l =>
        if String.eqb (default "" (list.last l)) "" then Ok None
        else let? n := mapM_res (corner_normal nrm) corners in Ok (Some n)
    | _ => Ok None
    end
  end.

Definition obj_part (pos nrm : list (list f64)) (mats : list (string * list f64)) (g : string * list string) : res mesh_data :=
  let? p := mapM_res (corner_position pos) g.2 in
  let? n := part_normals nrm g.2 in
  Ok (MeshData (if String.eqb g.1 "" then "default" else g.1) (default FALLBACK_ALBEDO (dget g.1 mats)) p n).

(** [_load_obj], without its cache. *)
Definition load_obj (read : string -> option (list string)) (lines : list string) : res (list mesh_data) :=
  let? s := foldM_res (obj_line read) lines obj0 in
  let? pos := matrix (List.map (List.map f32) (ob_v s)) in
  let? nrm := matrix (List.map (List.map f32) (ob_vn s)) in
  mapM_res (obj_part pos nrm (ob_mats s)) (ob_groups s).

(** ** STL *)

(** [int.from_bytes(b, "little")]. *)
Definition le_int (b : list Z) : Z := foldr (fun x acc => x + 256 * acc) 0 b.

(** A little-endian 32-bit float, as the double it equals. *)
Definition f32_bits (z : Z) : f64 :=
  let s := Z.testbit z 31 in
  let e := Z.land (Z.shiftr z 23) 255 in
  let m := Z.land z (2 ^ 23 - 1) in
  if e =? 255 then (if m =? 0 then S754_infinity s else S754_nan)
  else if (e =? 0) && (m =? 0) then S754_zero s
  else let (m, e) := if e =? 0 then (m, -149) else (m + 2 ^ 23, e - 150) in
       binary_normalize 53 1024 (if s then - m else m) e s.

Definition slice (b : list Z) (off len : nat) : list Z := take len (drop off b).

Definition read_f32 (b : list Z) (off : nat) : f64 := f32_bits (le_int (slice b off 4)).

Definition read_vec (b : list Z) (off : nat) : list f64 := [read_f32 b off; read_f32 b (off + 4); read_f32 b (off + 8)].

(** A facet is a normal, three corners and two unused bytes. *)
Definition facet_at (b : list Z) (k : nat) : list f64 * list (list f64) :=
  let off := (84 + 50 * k)%nat in
  (read_vec b off, [read_vec b (off + 12); read_vec b (off + 24); read_vec b (off + 36)]).

(** [_load_stl], without its cache. *)
Definition load_stl (raw : list Z) : res (list mesh_data) :=
  if (length raw <? 84)%nat then Raise ValueError
  else
    let count := le_int (slice raw 80 4) in
    if negb (84 + 50 * count =? Z.of_nat (length raw)) then Raise ValueError
    else
      let facets := facet_at raw <$> seq 0 (Z.to_nat count) in
      Ok [MeshData "stl" FALLBACK_ALBEDO (concat (snd <$> facets)) (Some (facets ≫= (fun f => [f.1; f.1; f.1])))].

(** ** The cache *)

Inductive mesh_file := ObjFile (lines : res (list string)) | StlFile (bytes : res (list Z)).

(** [_load_mesh]: the format by the suffix, one parse per path. *)
Definition load_mesh (path : string) (file : mesh_file) (read : string -> option (list string)) :
    ST (list (string * list mesh_data)) (list mesh_data) := fun c =>
  match dget path c with
  | Some m => (c, Returned m)
  | None =>
    match (match file with
           | StlFile b => let? b := b in load_stl b
           | ObjFile l => let? l := l in load_obj read l
           end) with
    | Ok m => (dset path m c, Returned m)
    | Raise e => (c, Raised e)
    end
  end.

(** ** Triangles *)

(** Triangles of a face with [n] corners. *)
Definition face_triangles (n : nat) : nat := (n - 2)%nat.

Lemma fan_length c : length (fan c) = (3 * face_triangles (length c))%nat.
Proof.
  destruct c as [|c0 rest]; [done|]. unfold fan, face_triangles. cbn [length].
  induction rest as [|a [|b tl] IH]; [done|done|]. change (fan_from c0 (a :: b :: tl)) with (c0 :: a :: b :: fan_from c0 (b :: tl)).
  cbn [length] in *. rewrite IH. lia.
Qed.

(** The triangles a line adds. *)
Definition line_triangles (raw : string) : nat :=
  match py_words raw with k :: t => if String.eqb k "f" then face_triangles (length t) else 0%nat | [] => 0%nat end.

Definition group_corners (g : list (string * list string)) : nat := sum_list (length <$> g.*2).

Lemma dset_corners (k : string) extra g : NoDup (dkeys g) ->
  group_corners (dset k (default [] (dget k g) ++ extra) g) = (group_corners g + length extra)%nat.
Proof.
  unfold group_corners. induction g as [|[k' c] g IH]; intros Hn; cbn; [lia|]. apply list.NoDup_cons in Hn as [_ Hn].
  destruct (decide (k = k')) as [->|Hne]; cbn; [rewrite length_app; cbn; lia|]. specialize (IH Hn). unfold dkeys in *. cbn in IH. lia.
Qed.

(** The vertices of the file, in order. *)
Definition line_vertex (raw : string) : option (list f64) :=
  match py_words raw with
  | k :: t => if String.eqb k "v" then match coords t with Ok x => Some x | Raise _ => None end else None
  | [] => None
  end.

(** What the lines read so far amount to. *)
Record obj_ok (lines : list string) (s : obj_state) : Prop := {
  oo_keys : NoDup (dkeys (ob_groups s));
  oo_count : group_corners (ob_groups s) = (3 * sum_list (line_triangles <$> lines))%nat;
  oo_triples : Forall (fun g => (length g.2 mod 3 = 0)%nat) (ob_groups s);
  oo_vertices : ob_v s = omap line_vertex lines;
}.

Lemma dset_triples (k : string) extra g : (length extra mod 3 = 0)%nat -> Forall (fun g => (length g.2 mod 3 = 0)%nat) g ->
  Forall (fun g => (length g.2 mod 3 = 0)%nat) (dset k (default [] (dget k g) ++ extra : list string) g).
Proof.
  intros He. induction 1 as [|[k' c] g Hc Hg IH]; cbn; [by repeat constructor|].
  destruct (decide (k = k')) as [->|Hne]; constructor; try done.
  change ((length (c ++ extra) mod 3)%nat = 0%nat). change ((length c mod 3)%nat = 0%nat) in Hc. by rewrite length_app, Nat.Div0.add_mod, Hc, He.
Qed.

Lemma obj_line_ok read lines s raw s' : obj_ok lines s -> obj_line read s raw = Ok s' -> obj_ok (lines ++ [raw]) s'.
Proof.
  intros [Hk Hc Ht Hv] H. unfold obj_line in H.
  assert (sum_list (line_triangles <$> lines ++ [raw]) = (sum_list (line_triangles <$> lines) + line_triangles raw)%nat) as Hsum.
  { clear. induction lines as [|l lines IH]; cbn in *; lia. }
  assert (omap line_vertex (lines ++ [raw]) = ob_v s ++ option_list (line_vertex raw)) as Hvs.
  { by rewrite omap_app, Hv. }
  unfold line_triangles at 3 in Hsum. unfold line_vertex at 2 in Hvs.
  destruct (py_words raw) as [|k t]; [injection H as <-; split; [done|by rewrite Hsum, Hc; lia|done|by rewrite Hvs, app_nil_r]|].
  assert (forall s1, ob_groups s1 = ob_groups s -> String.eqb k "f" = false -> ob_v s1 = omap line_vertex (lines ++ [raw]) -> obj_ok (lines ++ [raw]) s1) as Hsame.
  { intros s1 Hg Hf Hv1. split; rewrite ?Hg; [done| |done|done]. rewrite Hsum, Hf, Hc. lia. }
  destruct (String.eqb_spec k "v") as [->|Hnv].
  { destruct (coords t) as [x|] eqn:Ex; [|done]. injection H as <-. apply Hsame; [done|done|]. by rewrite Hvs. }
  rewrite app_nil_r in Hvs.
  destruct (String.eqb_spec k "vn") as [->|_]; [res_simp; by apply Hsame|].
  destruct (String.eqb_spec k "mtllib") as [->|_]; [res_simp; by apply Hsame|].
  destruct (String.eqb_spec k "usemtl") as [->|_]; [res_simp; by apply Hsame|].
  destruct (String.eqb k "f") eqn:E; [|injection H as <-; by apply Hsame]. injection H as <-. split; cbn [ob_groups ob_v]; [| | |done].
  - by apply NoDup_dset.
  - rewrite dset_corners, fan_length, Hc, Hsum by done. lia.
  - apply dset_triples; [|done]. rewrite fan_length, Nat.mul_comm, Nat.Div0.mod_mul. done.
Qed.

Lemma obj_lines_ok read lines s : foldM_res (obj_line read) lines obj0 = Ok s -> obj_ok lines s.
Proof.
  assert (forall more done_ s0, obj_ok done_ s0 -> foldM_res (obj_line read) more s0 = Ok s -> obj_ok (done_ ++ more) s) as Hgen.
  { induction more as [|raw more IH]; intros done_ s0 H0 H; cbn [foldM_res] in H; [injection H as <-; by rewrite app_nil_r|].
    destruct (obj_line read s0 raw) as [s1|] eqn:E; [|done]. rewrite cons_middle, app_assoc. eapply IH; [|exact H]. by eapply obj_line_ok. }
  intros H. apply (Hgen lines [] obj0); [|done]. split; [apply list.NoDup_nil; done|done|constructor|done].
Qed.

Lemma np_index_elem {A} (l : list A) i x : np_index l i = Ok x -> x ∈ l.
Proof.
  unfold np_index. destruct (_ && _); [|destruct (_ && _); [|done]]; destruct (l !! _) eqn:E; try done; intros [= <-]; by eapply list_elem_of_lookup_2.
Qed.

Lemma matrix_same rows m : matrix rows = Ok m -> m = rows.
Proof. unfold matrix. destruct rows as [|r rows]; [by intros [= <-]|]. destruct (forallb _ _); [by intros [= <-]|done]. Qed.

Lemma obj_part_ok pos nrm mats g p : obj_part pos nrm mats g = Ok p ->
  length (md_positions p) = length g.2 /\ Forall (fun x => x ∈ pos) (md_positions p) /\
  forall n, md_normals p = Some n -> length n = length (md_positions p) /\ Forall (fun x => x ∈ nrm) n.
Proof.
  unfold obj_part. destruct (mapM_res _ g.2) as [ps|] eqn:Ep; [|done]. cbn [res_bind]. apply mapM_res_Forall2 in Ep.
  destruct (part_normals nrm g.2) as [n|] eqn:En; [|done]. cbn [res_bind]. intros [= <-]. cbn [md_positions md_normals].
  pose proof (Forall2_length _ _ _ Ep) as Hl. split; [done|]. split.
  - apply Forall_lookup. intros i x Hx. destruct (Forall2_lookup_r _ _ _ _ _ Ep Hx) as (c & _ & Hc). unfold corner_position, corner_row in Hc.
    res_simp. by eapply np_index_elem.
  - intros n' ->. unfold part_normals in En. destruct nrm as [|n0 nrm]; [done|]. destruct (head g.2) as [first|]; [|done]. cbn [of_option res_bind] in En.
    destruct (py_split "/" first) as [|a [|b l]]; [done|done|]. destruct (String.eqb _ ""); [done|].
    destruct (mapM_res _ g.2) as [n|] eqn:Em; [|done]. injection En as <-. apply mapM_res_Forall2 in Em.
    split; [rewrite <-(Forall2_length _ _ _ Em); done|]. apply Forall_lookup. intros i x Hx.
    destruct (Forall2_lookup_r _ _ _ _ _ Em Hx) as (c & _ & Hc). unfold corner_normal, corner_row in Hc. res_simp. by eapply np_index_elem.
Qed.

(** A loaded mesh is the mesh of the file.  Every part holds whole triangles; over all parts there
    is exactly one triangle per face corner beyond the second, so no face is lost or drawn twice;
    every corner is one of the file's vertices; and where normals are kept there is one per corner. *)
Theorem obj_triangles (read : string -> option (list string)) (lines : list string) (parts : list mesh_data) :
  load_obj read lines = Ok parts ->
  sum_list (length <$> (md_positions <$> parts)) = (3 * sum_list (line_triangles <$> lines))%nat /\
  Forall (fun p => (length (md_positions p) mod 3 = 0)%nat /\
    Forall (fun x => x ∈ List.map (List.map f32) (omap line_vertex lines)) (md_positions p) /\
    forall n, md_normals p = Some n -> length n = length (md_positions p)) parts.
Proof.
  unfold load_obj. destruct (foldM_res _ _ _) as [s|] eqn:Es; [|done]. cbn [res_bind]. apply obj_lines_ok in Es as [_ Hc Ht Hv].
  destruct (matrix _) as [pos|] eqn:Ep; [|done]. cbn [res_bind]. destruct (matrix (List.map _ (ob_vn s))) as [nrm|] eqn:En; [|done].
  cbn [res_bind]. intros H%mapM_res_Forall2. apply matrix_same in Ep. subst pos. rewrite Hv in H.
  assert (Forall2 (fun g p => length (md_positions p) = length g.2) (ob_groups s) parts) as Hlen.
  { eapply Forall2_impl; [exact H|]. intros g p Hp. by apply obj_part_ok in Hp as (? & _). }
  split.
  - rewrite <-Hc. unfold group_corners. clear -Hlen. induction Hlen as [|g p gs ps Hg _ IH]; [done|]. cbn. by rewrite Hg, IH.
  - apply Forall_lookup. intros i p Hp. destruct (Forall2_lookup_r _ _ _ _ _ H Hp) as (g & Hg & Hgp).
    apply obj_part_ok in Hgp as (Hl & Hpos & Hn). rewrite Forall_lookup in Ht. split; [by rewrite Hl, (Ht i g)|]. split; [done|].
    intros n Hn'. by apply Hn.
Qed.

(** ** STL files *)

(** A file is accepted exactly when its length is the one its header announces, and then has three
    corners per facet, each with its facet's normal. *)
Lemma stl_accepted raw : (exists parts, load_stl raw = Ok parts) <->
  (84 <= length raw)%nat /\ 84 + 50 * le_int (slice raw 80 4) = Z.of_nat (length raw).
Proof.
  unfold load_stl. destruct (Nat.ltb_spec (length raw) 84) as [H|H]; [split; [by intros (? & ?)|lia]|].
  destruct (Z.eqb_spec (84 + 50 * le_int (slice raw 80 4)) (Z.of_nat (length raw))) as [E|E]; cbn [negb];
    [split; [done|by eexists]|split; [by intros (? & ?)|by intros []]].
Qed.

Lemma stl_corners raw p : load_stl raw = Ok [p] ->
  let count := Z.to_nat (le_int (slice raw 80 4)) in
  length (md_positions p) = (3 * count)%nat /\ (exists n, md_normals p = Some n /\ length n = (3 * count)%nat) /\
  forall k j, (k < count)%nat -> (j < 3)%nat -> md_positions p !! (3 * k + j)%nat = Some (read_vec raw (84 + 50 * k + 12 * (j + 1))).
Proof.
  unfold load_stl. destruct (_ <? _)%nat; [done|]. destruct (negb _); [done|]. intros [= <-]. cbv zeta. cbn [md_positions md_normals].
  set (n := Z.to_nat _). assert (forall a m, length (concat (snd <$> (facet_at raw <$> seq a m))) = (3 * m)%nat) as Hp.
  { intros a m. revert a. induction m as [|m IH]; intros a; [done|]. cbn [seq fmap list_fmap concat]. rewrite length_app, IH. cbn. lia. }
  assert (forall a m, length ((facet_at raw <$> seq a m) ≫= (fun f => [f.1; f.1; f.1])) = (3 * m)%nat) as Hn.
  { intros a m. revert a. induction m as [|m IH]; intros a; [done|]. cbn [seq fmap list_fmap mbind list_bind]. rewrite length_app, IH. cbn. lia. }
  split; [apply Hp|]. split; [eexists; split; [done|apply Hn]|]. intros k j Hk Hj.
  assert (forall a m k, (k < m)%nat -> concat (snd <$> (facet_at raw <$> seq a m)) !! (3 * k + j)%nat = (facet_at raw (a + k)).2 !! j) as Hlk.
  { clear -Hj. intros a m k. revert a m. induction k as [|k IH]; intros a [|m] Hk; try lia; cbn [seq fmap list_fmap concat].
    - rewrite lookup_app_l by (cbn; lia). by rewrite Nat.add_0_r.
    - rewrite lookup_app_r by (cbn; lia). replace (3 * S k + j - length (facet_at raw a).2)%nat with (3 * k + j)%nat by (cbn; lia).
      rewrite IH by lia. do 3 f_equal. lia. }
  rewrite Hlk by done. cbn [Nat.add]. unfold facet_at. cbn [snd]. destruct j as [|[|[|j]]]; try lia; cbn [lookup list_lookup]; do 2 f_equal; lia.
Qed.

(** ** Indices the format allows and the loader misreads *)

(** A relative index counts from the last vertex, [-1]; the loader takes the one before it. *)
Lemma relative_index_shifted (pos : list (list f64)) : (2 <= length pos)%nat ->
  corner_position pos "-1/-1" = of_option IndexError (pos !! (length pos - 2)%nat).
Proof.
  intros H. change (corner_position pos "-1/-1") with (np_index pos (-2)). unfold np_index.
  destruct (Z.leb_spec (- Z.of_nat (length pos)) (-2)); [|lia]. cbn [andb Z.leb Z.ltb]. cbn.
  replace (Z.to_nat (Z.of_nat (length pos) + -2)) with (length pos - 2)%nat by lia. done.
Qed.
End files.

(** A square of two materials' worth of lines: one face of four corners. *)
Definition demo_obj : list string := ["v 0 0 0"; "v 1 0 0"; "v 1 1 0"; "v 0 1 0"; "f 1 2 3 4"].
Definition demo_float (s : string) : option f64 := if String.eqb s "1" then Some f1 else Some f0.

Lemma obj_triangles_witness : exists parts, load_obj demo_float (fun _ => None) demo_obj = Ok parts /\
  sum_list (length <$> (md_positions <$> parts)) = 6%nat.
Proof.
  destruct (load_obj demo_float (fun _ => None) demo_obj) as [parts|] eqn:E; [|vm_compute in E; discriminate E].
  exists parts. split; [done|]. destruct (obj_triangles demo_float (fun _ => None) demo_obj parts E) as [-> _]. reflexivity.
Defined.
