(* ===== verification/RobotView.v ===== *)
(** * The robot scene of the recorded viewer

    Models the scene of [dashboard/robot_view.py]: what is logged into a recording to draw the
    two arms, their commanded ghosts, the leaders' own models, the policy's horizon targets and
    the calibration target, and the module state that keeps the log small (what was already
    drawn, which arm had live data).  A recording is the list of the events logged into it; an
    entity is the root of a robot with the links and parts below it.

    Orientations are sent as quaternions per link and the viewer multiplies them down the entity
    tree, while [fk_world_eef] multiplies matrices: [rendered_tip_is_fk] shows that both end in
    the same point.  Numbers are real, as in [Geometry]. *)

From Stdlib Require Import Reals Lra.
From S2P Require Import Prelude Text Operator Geometry Kinematics.
Local Open Scope string_scope.
Local Open Scope list_scope.
Local Open Scope R_scope.

(** ** Entities and events *)

Inductive root :=
  | ArmRoot (side : string) (ghost : bool)
  | FactrRoot (side : string)
  | TargetRoot (side : string)
  | CalibrationRoot (side : string)
  | TraceRoot (side : string)
  | TipRoot (side : string)
  | PedestalRoot.

#[export] Instance root_eq_dec : EqDecision root.
Proof. solve_decision. Defined.

(** The entity path of a root. *)
Definition root_path (r : root) : string :=
  match r with
  | ArmRoot side ghost => if ghost then "robot/" +:+ side +:+ "_ghost" else "robot/" +:+ side
  | FactrRoot side => "robot/" +:+ side +:+ "_factr"
  | TargetRoot side => "robot/" +:+ side +:+ "_target"
  | CalibrationRoot side => "robot/" +:+ side +:+ "_calibration_target"
  | TraceRoot side => "robot/" +:+ side +:+ "_target_trace"
  | TipRoot side => "robot/" +:+ side +:+ "_target_tip"
  | PedestalRoot => "robot/pedestal"
  end.

(** [root/link/.../visual/part/material]. *)
Record entity := Ent { en_root : root; en_links : list (option string); en_parts : list string }.

#[export] Instance entity_eq_dec : EqDecision entity.
Proof. solve_decision. Defined.

Definition color : Type := list Z.

(** A mesh group of a mesh file: its material and its own colour; the triangles are not
    followed. *)
Record mesh_part := MeshPart { mp_material : string; mp_albedo : list R }.

(** [rr.Transform3D]. *)
Record tf := Tf { tf_xyz : V3; tf_quat : quat; tf_scale : list R }.

Inductive event :=
  | EvTransform (e : entity) (t : tf) (static : bool)
  | EvMesh (e : entity) (p : mesh_part) (albedo : list R) (static : bool)
  | EvAlbedo (e : entity) (albedo : list R)
  | EvJoint (e : entity) (c : color) (static : bool)
  | EvBone (e : entity) (offset : V3) (c : color) (static : bool)
  | EvCapsule (e : entity) (len : R) (q : quat) (c : color) (static : bool)
  | EvPoint (e : entity) (p : V3)
  | EvLine (e : entity) (ps : list V3)
  | EvClear (e : entity) (recursive static : bool)
  | EvAsset (e : entity) (path : string)
  | EvViewCoordinates.

(** ** Module state *)

Record scene := Scene {
  sc_log : list (Z * event);                       (* by recording *)
  sc_arm_live : list ((Z * string) * bool);        (* [_arm_has_live] *)
  sc_factr_live : list ((Z * string) * bool);      (* [_factr_has_live] *)
  sc_targets : list string;                        (* [_shown_targets] *)
  sc_traces : list string;                         (* [_shown_traces] *)
  sc_calib : list string;                          (* [_shown_calibration_targets] *)
  sc_calib_q : list (string * list R);             (* [_calibration_target_q] *)
  sc_rec : option Z;                               (* [_REC] *)
}.

Definition scene0 : scene := Scene [] [] [] [] [] [] [] None.

Definition add_log (evs : list (Z * event)) (s : scene) : scene :=
  Scene (sc_log s ++ evs) (sc_arm_live s) (sc_factr_live s) (sc_targets s) (sc_traces s)
    (sc_calib s) (sc_calib_q s) (sc_rec s).

Definition emit_events (rec : Z) (evs : list event) : ST scene unit := st_modify (add_log (pair rec <$> evs)).

(** Adding to and removing from a set. *)
Definition set_add (x : string) (l : list string) : list string :=
  if bool_decide (x ∈ l) then l else l ++ [x].
Definition set_discard (x : string) (l : list string) : list string :=
  List.filter (fun y => negb (bool_decide (y = x))) l.

(** ** Styling *)

Definition ARM_COLOR (side : string) : color := if String.eqb side "left" then [80; 160; 255]%Z else [255; 140; 80]%Z.
Definition STALE_COLOR : color := [200; 90; 85]%Z.
Definition GHOST_COLOR (side : string) : color :=
  if String.eqb side "left" then [130; 190; 255; 51]%Z else [255; 190; 140; 51]%Z.
Definition FACTR_COLOR (side : string) : color := [70; 235; 155; 115]%Z.
Definition TARGET_COLOR : color := [168; 110; 255; 85]%Z.
Definition CALIBRATION_TARGET_COLOR : color := [168; 110; 255; 105]%Z.
Definition FACTR_LIVE_DISPLAY_SCALE : R := 2.

Definition albedo_of (c : color) : list R := (fun z => IZR z / 255) <$> c.

Definition sides : list string := ["left"; "right"].

(** [_quat_z_to]: +Z onto a direction. *)
Definition vcross (a b : V3) : V3 :=
  Vec (vy a * vz b - vz a * vy b) (vz a * vx b - vx a * vz b) (vx a * vy b - vy a * vx b).

Definition quat_z_to (direction : V3) : quat :=
  let n := vnorm direction in
  if Rlt_dec n (1 / 10 ^ 9) then Quat 0 0 0 1
  else
    let d := vscale (/ n) direction in
    let z := Vec 0 0 1 in
    let axis := vcross z d in
    let s := vnorm axis in
    let c := vdot z d in
    if Rlt_dec s (1 / 10 ^ 9) then (if Rlt_dec 0 c then Quat 0 0 0 1 else Quat 1 0 0 0)
    else quat_from_axis_angle (vscale (/ s) axis) (atan2 s c).

(** [_quat_from_axis_angle] of a tuple, as [Kinematics.axis_rot]. *)
Definition axis_quat (axis : list R) (angle : R) : res quat :=
  let norm := sqrt (foldr (fun a acc => a * a + acc) 0 axis) in
  if no_rotation norm angle then Ok (Quat 0 0 0 1)
  else match axis with
  | a :: b :: c :: _ =>
    let k := sin (angle / 2) in
    Ok (Quat (/ norm * a * k) (/ norm * b * k) (/ norm * c * k) (cos (angle / 2)))
  | _ => Raise IndexError
  end.

Definition rpy_quat (rpy : list R) : res quat :=
  let? v := vec3_of TypeError rpy in Ok (quat_from_rpy (vx v) (vy v) (vz v)).

Definition PED_QUAT_XYZW : quat := Quat (sin (PI / 4)) 0 0 (cos (PI / 4)).
Definition PED_TRANSLATION : V3 := Vec (8881 / 10000) (- (3835 / 10000)) (- (6457 / 10000)).

Definition GRAV_GRIPPER_VISUAL : Visual R :=
  MkVisual "grav_gripper" "meshes/GRAV/Grav-PVT-50mm.stl" [0; 0; 75038 / 1000000]
    [PI / 2; 0; PI / 2] [1 / 1000; 1 / 1000; 1 / 1000].

(** The drawing routines return what they log, in order.  They raise only on descriptions with
    tuples of the wrong length; what was logged before such a refusal is not followed. *)
Section drawing.
Context (chain : list (Link R)).                    (* the follower's, [_chain()] *)
Context (factr_loaded : string -> res (list (Link R))).   (* a leader's description *)
Context (is_file : string -> bool) (load_mesh : string -> list mesh_part).

(** [_factr_chain]: without a usable description the follower's chain. *)
Definition factr_chain (side : string) : list (Link R) :=
  match (let? c := factr_loaded side in localize_factr_base_meshes c) with
  | Ok c => c
  | Raise _ => chain
  end.

(** ** Geometry *)

(** The links with the entity path each is logged at. *)
Fixpoint link_paths (pre : list (option string)) (c : list (Link R)) : list (list (option string) * Link R) :=
  match c with
  | [] => []
  | l :: rest => (pre ++ [li_name l], l) :: link_paths (pre ++ [li_name l]) rest
  end.

Definition has_mesh_visuals (c : list (Link R)) : bool :=
  existsb (fun l => existsb (fun v => is_file (vi_mesh v)) (visuals l)) c.

Definition visual_tf (v : Visual R) : res tf :=
  let? xyz := vec3_of ValueError (vi_xyz v) in
  let? q := rpy_quat (vi_rpy v) in
  Ok (Tf xyz q (vi_scale v)).

(** [_mesh_entities] *)
Definition mesh_entities (r : root) (c : list (Link R)) : list (entity * Visual R * mesh_part) :=
  link_paths [] c ≫= fun x =>
    visuals x.2 ≫= fun v =>
      if is_file (vi_mesh v)
      then (fun p => (Ent r x.1 ["visual"; vi_name v; mp_material p], v, p)) <$> load_mesh (vi_mesh v)
      else [].

Definition parent_entity (e : entity) : entity := Ent (en_root e) (en_links e) (take 2 (en_parts e)).

(** One step of the loops that place a visual once and draw its parts. *)
Definition place_visual (e : entity) (v : Visual R) (static : bool) (acc : list entity * list event)
    : res (list entity * list event) :=
  if bool_decide (e ∈ acc.1) then Ok acc
  else let? t := visual_tf v in Ok (e :: acc.1, acc.2 ++ [EvTransform e t static]).

Definition log_arm_meshes (side : string) (c : list (Link R)) : res (list event) :=
  res_map snd (foldM_res (fun acc (x : entity * Visual R * mesh_part) =>
    let? acc := place_visual (parent_entity x.1.1) x.1.2 true acc in
    Ok (acc.1, acc.2 ++ [EvMesh x.1.1 x.2 (mp_albedo x.2) true]))
    (mesh_entities (ArmRoot side false) c) ([], [])).

Definition log_ghost_meshes (r : root) (c : list (Link R)) (col : color) (static : bool) : res (list event) :=
  let drawn := link_paths [] c ≫= fun x => pair x.1 <$> List.filter (fun v => is_file (vi_mesh v)) (visuals x.2) in
  res_map snd (foldM_res (fun acc (x : list (option string) * Visual R) =>
    let e := Ent r x.1 ["visual"; vi_name x.2] in
    let? acc := place_visual e x.2 static acc in
    Ok (acc.1, acc.2 ++ ((fun p => EvMesh (Ent r x.1 ["visual"; vi_name x.2; mp_material p]) p (albedo_of col) static)
                           <$> load_mesh (vi_mesh x.2))))
    drawn ([], [])).

(** The offset of a bone worth drawing. *)
Definition bone (l : Link R) : res (option V3) :=
  match child_offset l with
  | None => Ok None
  | Some o => let? v := vec3_of ValueError o in
              Ok (if Rlt_dec (1 / 10 ^ 6) (vnorm v) then Some v else None)
  end.

Definition log_real_skeleton (side : string) (c : list (Link R)) (col : color) (static : bool) : res (list event) :=
  res_map (@concat event) (mapM_res (fun x : list (option string) * Link R =>
    let e := Ent (ArmRoot side false) x.1 [] in
    let? b := bone x.2 in
    Ok (EvJoint e col static :: match b with Some v => [EvBone e v col static] | None => [] end))
    (link_paths [] c)).

Definition log_ghost_capsules (r : root) (c : list (Link R)) (col : color) (static : bool) : res (list event) :=
  res_map (@concat event) (mapM_res (fun x : list (option string) * Link R =>
    let? b := bone x.2 in
    Ok (match b with
        | Some v => [EvCapsule (Ent r x.1 []) (vnorm v) (quat_z_to v) col static]
        | None => []
        end))
    (link_paths [] c)).

Definition log_ghost_geometry (r : root) (c : list (Link R)) (col : color) (static : bool) : res (list event) :=
  if has_mesh_visuals c then log_ghost_meshes r c col static else log_ghost_capsules r c col static.

Definition mount_tf (m : Mount) (scale : list R) : tf := Tf (translation m) (quat_xyzw m) scale.

Definition log_arm_geometry (side : string) (c : list (Link R)) (ghost : bool) : res (list event) :=
  let? m := mount_of side in
  let? g := (if ghost then log_ghost_geometry (ArmRoot side true) c (GHOST_COLOR side) true
             else if has_mesh_visuals c then log_arm_meshes side c
             else log_real_skeleton side c (ARM_COLOR side) true) in
  Ok (EvTransform (Ent (ArmRoot side ghost) [] []) (mount_tf m []) true :: g).

Definition log_factr_geometry (side : string) (c : list (Link R)) (display_scale : R) : res (list event) :=
  let? m := factr_mount side in
  let? g := log_ghost_geometry (FactrRoot side) c (FACTR_COLOR side) true in
  Ok (EvTransform (Ent (FactrRoot side) [] []) (mount_tf m [display_scale; display_scale; display_scale]) true :: g).

(** The path down to the flange, if there is one. *)
Fixpoint flange_path (pre : list (option string)) (c : list (Link R)) : option (list (option string)) :=
  match c with
  | [] => None
  | l :: rest =>
    let path := pre ++ [li_name l] in
    if bool_decide (li_name l = Some "flange") then Some path else flange_path path rest
  end.

Definition log_follower_gripper (side : string) (c : list (Link R)) (ghost : bool) : res (list event) :=
  let v := GRAV_GRIPPER_VISUAL in
  if negb (is_file (vi_mesh v)) then Ok [] else
  match flange_path [] c with
  | None => Ok []
  | Some path =>
    let r := ArmRoot side ghost in
    let? t := visual_tf v in
    Ok (EvTransform (Ent r path ["visual"; vi_name v]) t true ::
        ((fun p => EvMesh (Ent r path ["visual"; vi_name v; mp_material p]) p
                     (if ghost then albedo_of (GHOST_COLOR side) else mp_albedo p) true) <$> load_mesh (vi_mesh v)))
  end.

Definition tint_arm_meshes (side : string) (c : list (Link R)) (stale : bool) : list event :=
  (fun x => EvAlbedo x.1.1 (if stale then albedo_of STALE_COLOR else mp_albedo x.2)) <$> mesh_entities (ArmRoot side false) c.

(** ** Poses *)

(** The loop of [_log_arm_pose] over the links after the first. *)
Fixpoint pose_rest (r : root) (static : bool) (pre : list (option string)) (q : list R) (c : list (Link R))
    : res (list event) :=
  match c with
  | [] => Ok []
  | l :: rest =>
    let path := pre ++ [li_name l] in
    let? quat := rpy_quat (li_rpy l) in
    let? quat := match q with
                 | [] => Ok quat
                 | a :: _ => let? k := axis_quat (li_axis l) a in Ok (quat_mul quat k)
                 end in
    let? xyz := vec3_of ValueError (li_xyz l) in
    let? evs := pose_rest r static path (tail q) rest in
    Ok (EvTransform (Ent r path []) (Tf xyz quat []) static :: evs)
  end.

Definition log_arm_pose (r : root) (c : list (Link R)) (q : option (list R)) (static : bool) : res (list event) :=
  let q := default (repeat 0 7) q in
  match c with
  | [] => Ok []
  | base :: rest =>
    let? quat := rpy_quat (li_rpy base) in
    let? xyz := vec3_of ValueError (li_xyz base) in
    let? evs := pose_rest r static [li_name base] q rest in
    Ok (EvTransform (Ent r [li_name base] []) (Tf xyz quat []) static :: evs)
  end.

(** ** The scene *)

Definition log_side (joint_angles : option (list (string * list R))) (scale_factr grippers : bool) (side : string)
    : res (list event) :=
  let q := joint_angles ≫= dget side in
  let? real := log_arm_geometry side chain false in
  let? grip := (if grippers then log_follower_gripper side chain false else Ok []) in
  let? pose := log_arm_pose (ArmRoot side false) chain q false in
  let? ghost := log_arm_geometry side chain true in
  let? ghost_grip := (if grippers then log_follower_gripper side chain true else Ok []) in
  let? ghost_pose := log_arm_pose (ArmRoot side true) chain q false in
  let? leader := log_factr_geometry side (factr_chain side) (if scale_factr then FACTR_LIVE_DISPLAY_SCALE else 1) in
  let? leader_pose := log_arm_pose (FactrRoot side) (factr_chain side) None false in
  Ok (real ++ grip ++ pose ++ ghost ++ ghost_grip ++ ghost_pose ++ leader ++ leader_pose).

Definition log_scene (joint_angles : option (list (string * list R))) (scale_factr grippers : bool)
    : res (list event) :=
  let e := Ent PedestalRoot [] [] in
  let pedestal := if is_file "pedestal.glb"
    then [EvTransform e (Tf PED_TRANSLATION PED_QUAT_XYZW []) true; EvAsset e "pedestal.glb"] else [] in
  let? evs := mapM_res (log_side joint_angles scale_factr grippers) sides in
  Ok (EvViewCoordinates :: pedestal ++ concat evs).
End drawing.

(** ** The module's copies of the geometry helpers *)

(** [robot_view.py] carries its own text of these functions, the same as [visualization/geometry.py]'s. *)
Definition view_quat_from_rpy : R -> R -> R -> quat := quat_from_rpy.
Definition view_rot_from_rpy : R -> R -> R -> M33 := rot_from_rpy.
Definition view_rpy_from_rot : M33 -> R * R * R := rpy_from_rot.
Definition view_quat_mul : quat -> quat -> quat := quat_mul.
Definition view_rot_from_axis_angle : V3 -> R -> M33 := rot_from_axis_angle.
Definition view_mount : R -> R -> Mount := mount.
Definition view_mounts : list (string * Mount) := MOUNTS.
Definition view_factr_mount : string -> res Mount := factr_mount.
Definition view_localize : list (Link R) -> res (list (Link R)) := localize_factr_base_meshes.
Definition view_mount_world_point : string -> list R -> res V3 := mount_world_point.
Definition view_camera_world_pose : CameraPose -> res (M33 * V3) := camera_world_pose.
Definition view_parse_visuals (float_of_str : string -> option R) (resolve : string -> string) (e : elem) :
    res (list (option string * list (Visual R))) := parse_visuals 0 float_of_str resolve e.
Definition view_parse_chain (float_of_str : string -> option R) (resolve : string -> string) (e : elem) (root_link : string) :
    res (option (list (Link R))) := parse_chain 0 1 float_of_str resolve e root_link.

(** ** Live updates *)

Definition with_arm_live (f : list ((Z * string) * bool) -> list ((Z * string) * bool)) (s : scene) : scene :=
  Scene (sc_log s) (f (sc_arm_live s)) (sc_factr_live s) (sc_targets s) (sc_traces s) (sc_calib s) (sc_calib_q s) (sc_rec s).
Definition with_factr_live (f : list ((Z * string) * bool) -> list ((Z * string) * bool)) (s : scene) : scene :=
  Scene (sc_log s) (sc_arm_live s) (f (sc_factr_live s)) (sc_targets s) (sc_traces s) (sc_calib s) (sc_calib_q s) (sc_rec s).
Definition with_targets (f : list string -> list string) (s : scene) : scene :=
  Scene (sc_log s) (sc_arm_live s) (sc_factr_live s) (f (sc_targets s)) (sc_traces s) (sc_calib s) (sc_calib_q s) (sc_rec s).
Definition with_traces (f : list string -> list string) (s : scene) : scene :=
  Scene (sc_log s) (sc_arm_live s) (sc_factr_live s) (sc_targets s) (f (sc_traces s)) (sc_calib s) (sc_calib_q s) (sc_rec s).
Definition with_calib (f : list string -> list string) (g : list (string * list R) -> list (string * list R)) (s : scene) : scene :=
  Scene (sc_log s) (sc_arm_live s) (sc_factr_live s) (sc_targets s) (sc_traces s) (f (sc_calib s)) (g (sc_calib_q s)) (sc_rec s).
Definition with_rec (r : option Z) (s : scene) : scene :=
  Scene (sc_log s) (sc_arm_live s) (sc_factr_live s) (sc_targets s) (sc_traces s) (sc_calib s) (sc_calib_q s) r.

Definition draw (rec : Z) (evs : res (list event)) : ST scene unit := l ← st_lift evs; emit_events rec l.

(** Equality of joint configurations, as tuples of floats. *)
Fixpoint req_list (a b : list R) : bool :=
  match a, b with
  | [], [] => true
  | x :: a, y :: b => if Req_dec_T x y then req_list a b else false
  | _, _ => false
  end.

Definition same_config (old : option (list R)) (q : list R) : bool :=
  match old with Some o => req_list o q | None => false end.

Section live.
Context (chain : list (Link R)) (factr_loaded : string -> res (list (Link R))).
Context (is_file : string -> bool) (load_mesh : string -> list mesh_part).

(** [fk_world_eef] of the module: along the follower's chain. *)
Definition view_fk (side : string) (q : list R) : res V3 := fk_world_eef (Ok chain) side q chain.

(** The new colours of a solid arm. *)
Definition recolour (side : string) (has_live : bool) : res (list event) :=
  if has_mesh_visuals is_file chain then Ok (tint_arm_meshes is_file load_mesh side chain (negb has_live))
  else log_real_skeleton side chain (if has_live then ARM_COLOR side else STALE_COLOR) false.

Definition set_factr_visible (side : string) (visible : bool) : res (list event) :=
  let? m := factr_mount side in
  let k := if visible then FACTR_LIVE_DISPLAY_SCALE else 0 in
  Ok [EvTransform (Ent (FactrRoot side) [] []) (mount_tf m [k; k; k]) false].

(** The body of the loop of [update_poses]. *)
Definition update_side (rec : Z) (real_q ghost_q : list (string * list R)) (factr_q : option (list (string * list R)))
    (side : string) : ST scene unit :=
  let has_live := bool_decide (is_Some (dget side real_q)) in
  let factr := factr_q ≫= dget side in
  let has_factr := bool_decide (is_Some factr) in
  s ← st_get;
  (if bool_decide (dget (rec, side) (sc_arm_live s) = Some has_live) then mret tt
   else st_modify (with_arm_live (dset (rec, side) has_live));; draw rec (recolour side has_live));;
  (match dget side real_q with
   | Some q => draw rec (log_arm_pose (ArmRoot side false) chain (Some q) false)
   | None => mret tt
   end);;
  (match dget side ghost_q with
   | Some q => draw rec (log_arm_pose (ArmRoot side true) chain (Some q) false)
   | None => mret tt
   end);;
  (match factr_q with
   | None => mret tt
   | Some _ =>
     if bool_decide (dget (rec, side) (sc_factr_live s) = Some has_factr) then mret tt
     else st_modify (with_factr_live (dset (rec, side) has_factr));; draw rec (set_factr_visible side has_factr)
   end);;
  (match factr with
   | Some q => draw rec (log_arm_pose (FactrRoot side) (factr_chain chain factr_loaded side) (Some q) false)
   | None => mret tt
   end).

Definition update_poses (rec : Z) (real_q ghost_q : list (string * list R))
    (factr_q : option (list (string * list R))) : ST scene unit :=
  update_side rec real_q ghost_q factr_q "left";; update_side rec real_q ghost_q factr_q "right".

(** ** Horizon targets *)

Definition log_trace (rec : Z) (side : string) (p_now : option V3) (p_end : V3) (waypoints : option (list V3))
    : ST scene unit :=
  let points := option_list p_now ++
    match waypoints with
    | Some w => w
    | None => match p_now with Some _ => [p_end] | None => [] end
    end in
  st_modify (with_traces (set_add side));;
  emit_events rec (EvPoint (Ent (TipRoot side) [] []) p_end ::
    if (2 <=? length points)%nat then [EvLine (Ent (TraceRoot side) [] []) points] else []).

(** A joint path whose rows are at least as long as the target. *)
Definition usable_path (q : list R) (path : option (list (list R))) : option (list (list R)) :=
  match path with
  | Some ((row :: _) as rows) => if (length q <=? length row)%nat then Some rows else None
  | _ => None
  end.

Definition fk_opt (side : string) (q : option (list R)) : res (option V3) :=
  match q with Some q => res_map Some (view_fk side q) | None => Ok None end.

Definition update_joint_target (rec : Z) (real_q : list (string * list R))
    (paths : list (string * list (list R))) (side : string) (q : list R) : ST scene unit :=
  let r := TargetRoot side in
  s ← st_get;
  (if bool_decide (side ∈ sc_targets s) then mret tt
   else
     st_modify (with_targets (set_add side));;
     m ← st_lift (mount_of side);
     emit_events rec [EvTransform (Ent r [] []) (mount_tf m []) false];;
     draw rec (log_ghost_geometry is_file load_mesh r chain TARGET_COLOR false));;
  draw rec (log_arm_pose r chain (Some q) false);;
  path_world ← st_lift (match usable_path q (dget side paths) with
                        | Some rows => res_map Some (mapM_res (view_fk side) rows)
                        | None => Ok None
                        end);
  p_now ← st_lift (fk_opt side (dget side real_q));
  (match p_now, path_world with
   | None, None => mret tt
   | _, _ => p_end ← st_lift (view_fk side q); log_trace rec side p_now p_end path_world
   end).

Definition update_eef_target (rec : Z) (real_q real_eef : list (string * list R)) (side : string) (p : list R)
    : ST scene unit :=
  p_end ← st_lift (mount_world_point side p);
  p_now ← st_lift (match dget side real_eef with
                   | Some m => res_map Some (mount_world_point side m)
                   | None => fk_opt side (dget side real_q)
                   end);
  log_trace rec side p_now p_end None.

Fixpoint for_each {A} (f : A -> ST scene unit) (l : list A) : ST scene unit :=
  match l with [] => mret tt | x :: l => f x;; for_each f l end.

Definition has_mount (side : string) : bool := bool_decide (side ∈ sides).

Definition update_horizon_targets (rec : Z) (target_q : list (string * option (list R)))
    (real_q : list (string * list R)) (paths : list (string * list (list R)))
    (target_eef : list (string * option (list R))) (real_eef : list (string * list R)) : ST scene unit :=
  for_each (fun x : string * option (list R) =>
    match x.2 with
    | Some q => if has_mount x.1 then update_joint_target rec real_q paths x.1 q else mret tt
    | None => mret tt
    end) target_q;;
  for_each (fun x : string * option (list R) =>
    match x.2 with
    | Some p => if has_mount x.1 && negb (dmem x.1 target_q)
                then update_eef_target rec real_q real_eef x.1 p else mret tt
    | None => mret tt
    end) target_eef.

Definition clear_horizon_targets (rec : option Z) : ST scene unit := fun s =>
  match rec with
  | None => (s, Returned tt)
  | Some rec =>
    if bool_decide (sc_targets s = []) && bool_decide (sc_traces s = []) then (s, Returned tt)
    else
      let evs := ((fun side => EvClear (Ent (TargetRoot side) [] []) true false) <$> sc_targets s) ++
        (sc_traces s ≫= fun side => [EvClear (Ent (TraceRoot side) [] []) false false;
                                     EvClear (Ent (TipRoot side) [] []) false false]) in
      (with_traces (fun _ => []) (with_targets (fun _ => []) (add_log (pair rec <$> evs) s)), Returned tt)
  end.

(** ** The calibration target *)

Definition clear_calibration_side (rec : Z) (side : string) : ST scene unit :=
  emit_events rec [EvClear (Ent (CalibrationRoot side) [] []) true true];;
  st_modify (with_calib (set_discard side) (ddel side)).

Definition show_calibration_target (side : string) (q : list R) : ST scene unit :=
  s ← st_get;
  match sc_rec s with
  | None => mret tt
  | Some rec =>
    if negb (has_mount side) then st_raise ValueError
    else
      for_each (clear_calibration_side rec) (set_discard side (sc_calib s));;
      (if bool_decide (side ∈ sc_calib s) then mret tt
       else
         m ← st_lift (mount_of side);
         emit_events rec [EvTransform (Ent (CalibrationRoot side) [] []) (mount_tf m []) true];;
         draw rec (log_ghost_geometry is_file load_mesh (CalibrationRoot side) chain CALIBRATION_TARGET_COLOR true);;
         st_modify (with_calib (set_add side) (fun d => d)));;
      (if same_config (dget side (sc_calib_q s)) q then mret tt
       else
         draw rec (log_arm_pose (CalibrationRoot side) chain (Some q) true);;
         st_modify (with_calib (fun l => l) (dset side q)))
  end.

Definition clear_calibration_targets : ST scene unit := fun s =>
  let evs := match sc_rec s with
    | Some rec => (fun side => (rec, EvClear (Ent (CalibrationRoot side) [] []) true true)) <$> sc_calib s
    | None => []
    end in
  (with_calib (fun _ => []) (fun _ => []) (add_log evs s), Returned tt).

(** ** Binding a recording *)

(** [attach_scene]: [rec] given, or the global recording. *)
Definition attach_scene (rec global_rec : option Z) : ST scene (option Z) :=
  s ← st_get;
  match sc_rec s with
  | Some r => mret (Some r)
  | None =>
    let rec := match rec with Some r => Some r | None => global_rec end in
    (match rec with
     | Some r => draw r (log_scene chain factr_loaded is_file load_mesh None true true)
     | None => mret tt
     end);;
    st_modify (with_rec rec);; mret rec
  end.

Definition reset_scene : ST scene unit := st_modify (fun s => Scene (sc_log s) [] [] [] [] [] [] None).
End live.

(** ** What the viewer renders *)

(** The events of a recording. *)
Definition log_of (rec : Z) (s : scene) : list event :=
  omap (fun x => if decide (x.1 = rec) then Some x.2 else None) (sc_log s).

(** The transform shown at an entity: a static one shadows the others, and the last one counts. *)
Definition tf_step (e : entity) (acc : option tf * option tf) (ev : event) : option tf * option tf :=
  match ev with
  | EvTransform e' t static =>
    if decide (e' = e) then (if static then (Some t, acc.2) else (acc.1, Some t)) else acc
  | _ => acc
  end.

Definition tf_pair (log : list event) (e : entity) : option tf * option tf := foldl (tf_step e) (None, None) log.

Definition shown_tf (log : list event) (e : entity) : option tf :=
  match (tf_pair log e).1 with Some t => Some t | None => (tf_pair log e).2 end.

Definition tf_frame (t : tf) : rframe := (tf_xyz t, rot_of_quat (tf_quat t)).

(** Transforms multiply down the entity tree. *)
Fixpoint rendered (log : list event) (r : root) (pre links : list (option string)) : option rframe :=
  match links with
  | [] => Some (v0, eye)
  | n :: rest =>
    t ← shown_tf log (Ent r (pre ++ [n]) []);
    f ← rendered log r (pre ++ [n]) rest;
    Some (fcompose (tf_frame t) f)
  end.

Definition rendered_tip (log : list event) (r : root) (links : list (option string)) : option rframe :=
  t ← shown_tf log (Ent r [] []);
  f ← rendered log r [] links;
  Some (fcompose (tf_frame t) f).

Lemma tf_pair_app log evs e :
  tf_pair (log ++ evs) e = foldl (tf_step e) (tf_pair log e) evs.
Proof. apply foldl_app. Qed.

Lemma tf_pair_snoc log ev e : tf_pair (log ++ [ev]) e = tf_step e (tf_pair log e) ev.
Proof. by rewrite tf_pair_app. Qed.

(** Events that leave the link transforms of a root alone. *)
Definition untouched (r : root) (ev : event) : Prop :=
  match ev with EvTransform e _ _ => en_root e <> r \/ en_parts e <> [] | _ => True end.

Lemma tf_step_other e acc ev : (forall t st, ev <> EvTransform e t st) -> tf_step e acc ev = acc.
Proof. intros H. destruct ev; cbn; try done. destruct (decide _) as [->|]; [|done]. by destruct (H t static). Qed.

Lemma tf_pair_untouched log evs r links :
  Forall (untouched r) evs -> tf_pair (log ++ evs) (Ent r links []) = tf_pair log (Ent r links []).
Proof.
  intros H. rewrite tf_pair_app. generalize (tf_pair log (Ent r links [])) as acc.
  induction H as [|ev evs Hev _ IH]; intros acc; cbn [foldl]; [done|].
  rewrite tf_step_other; [apply IH|]. intros t st ->. destruct Hev as [Hr|Hp]; [by apply Hr|by apply Hp].
Qed.

Lemma rendered_ext log log' r pre links :
  (forall l, tf_pair log' (Ent r l []) = tf_pair log (Ent r l [])) ->
  rendered log' r pre links = rendered log r pre links.
Proof.
  intros H. revert pre. induction links as [|n rest IH]; intros pre; cbn [rendered]; [done|].
  unfold shown_tf. rewrite H, IH. done.
Qed.

Lemma rendered_tip_untouched log evs r links : Forall (untouched r) evs ->
  rendered_tip (log ++ evs) r links = rendered_tip log r links.
Proof.
  intros H. unfold rendered_tip. rewrite (rendered_ext log (log ++ evs)).
  - unfold shown_tf. by rewrite !(tf_pair_untouched _ _ _ _ H).
  - intros l. by apply tf_pair_untouched.
Qed.

(** No static transform of a root's links. *)
Definition free_links (log : list event) (r : root) : Prop :=
  forall l, l <> [] -> (tf_pair log (Ent r l [])).1 = None.

Lemma free_links_app log r e t : free_links log r -> free_links (log ++ [EvTransform e t false]) r.
Proof.
  intros H l Hl. rewrite tf_pair_app. cbn. destruct (decide _); cbn; by apply H.
Qed.

(** ** A drawn pose *)

Lemma rpy_quat_ok l : link_ok l -> exists q, rpy_quat (li_rpy l) = Ok q /\ rot_of_quat q = (link_frame l).2.
Proof.
  intros (_ & (a & b & c & Hr) & _). unfold rpy_quat, link_frame, vlist. rewrite Hr.
  eexists. split; [reflexivity|]. cbn [vec3_of snd vx vy vz]. apply rpy_agree.
Qed.

Lemma axis_quat_ok l a : link_ok l ->
  exists q, axis_quat (li_axis l) a = Ok q /\ rot_of_quat q = (turn l a).2.
Proof.
  intros (_ & _ & (x & y & z & Ha)). unfold axis_quat, turn, vlist. rewrite Ha. cbn [vec3_of snd foldr].
  rewrite <-axis_angle_agree. unfold quat_from_axis_angle, vnorm.
  replace (x * x + (y * y + (z * z + 0))) with (vdot (Vec x y z) (Vec x y z)) by (unfold vdot; cbn; ring).
  destruct (no_rotation _ _); (eexists; split; [reflexivity|]); [done|].
  unfold vscale. cbn [vx vy vz]. done.
Qed.

(** The events of a pose are on entities below the given path. *)
Lemma pose_rest_below r st pre q c evs : pose_rest r st pre q c = Ok evs ->
  forall e t st', EvTransform e t st' ∈ evs -> (length pre < length (en_links e))%nat.
Proof.
  revert pre q evs. induction c as [|l c IH]; intros pre q evs; cbn [pose_rest].
  { intros [= <-] e t st' H. by apply not_elem_of_nil in H. }
  destruct (rpy_quat _); [|done]. cbn [res_bind].
  destruct (match q with [] => _ | _ => _ end); [|done]. cbn [res_bind].
  destruct (vec3_of _ _); [|done]. cbn [res_bind].
  destruct (pose_rest _ _ _ _ c) as [r'|] eqn:E; [|done]. intros [= <-] e t st' H.
  apply elem_of_cons in H as [[= -> -> ->]|H]; [cbn; rewrite length_app; cbn; lia|].
  apply (IH _ _ _ E) in H. rewrite length_app in H. cbn in H. lia.
Qed.

Lemma pose_rest_keeps_pair r st pre q c evs log : pose_rest r st pre q c = Ok evs ->
  tf_pair (log ++ evs) (Ent r pre []) = tf_pair log (Ent r pre []).
Proof.
  intros H. rewrite tf_pair_app. generalize (tf_pair log (Ent r pre [])) as acc.
  pose proof (pose_rest_below _ _ _ _ _ _ H) as Hb. clear H. induction evs as [|ev evs IH]; intros acc; [done|].
  cbn [foldl]. rewrite tf_step_other.
  - apply IH. intros e t st' Hin. apply (Hb e t st'). by right.
  - intros t st' ->. specialize (Hb _ _ _ (list_elem_of_here _ _)). cbn in Hb. lia.
Qed.

Lemma pose_rest_rendered r st pre q c log : Forall link_ok c -> (st = false -> free_links log r) ->
  exists evs, pose_rest r st pre q c = Ok evs /\
    rendered (log ++ evs) r pre (li_name <$> c) = Some (chain_frame q c).
Proof.
  intros Hok. revert pre q log. induction Hok as [|l c Hl _ IH]; intros pre q log Hf; cbn [pose_rest fmap list_fmap rendered].
  { by exists []. }
  destruct (rpy_quat_ok l Hl) as (k & -> & Hk). cbn [res_bind].
  assert (exists k', (match q with [] => Ok k | a :: _ => let? t := axis_quat (li_axis l) a in Ok (quat_mul k t) end) = Ok k' /\
    rot_of_quat k' = match q with [] => (link_frame l).2 | a :: _ => mmul (link_frame l).2 (turn l a).2 end) as (k' & -> & Hk').
  { destruct q as [|a q]; [by eexists|]. destruct (axis_quat_ok l a Hl) as (t & -> & Ht).
    eexists. split; [reflexivity|]. by rewrite rot_of_quat_mul, Hk, Ht. }
  cbn [res_bind]. assert (vec3_of ValueError (li_xyz l) = Ok (link_frame l).1) as ->.
  { destruct Hl as ((a & b & d & Hx) & _). unfold link_frame, vlist. by rewrite Hx. }
  cbn [res_bind]. set (path := pre ++ [li_name l]). set (ev := EvTransform (Ent r path []) (Tf (link_frame l).1 k' []) st).
  destruct (IH path (tail q) (log ++ [ev])) as (evs & He & Hr).
  { intros ->. by apply free_links_app, Hf. }
  exists (ev :: evs). rewrite He. split; [done|].
  change (log ++ ev :: evs) with (log ++ [ev] ++ evs). rewrite app_assoc, Hr.
  assert (shown_tf ((log ++ [ev]) ++ evs) (Ent r path []) = Some (Tf (link_frame l).1 k' [])) as ->.
  { unfold shown_tf. rewrite (pose_rest_keeps_pair _ _ _ _ _ _ _ He), tf_pair_app. cbn [foldl ev tf_step].
    rewrite decide_True by done. destruct st; [done|]. cbn.
    rewrite (Hf eq_refl path); [done|]. unfold path. by destruct pre. }
  cbn. f_equal. unfold tf_frame. cbn [tf_xyz tf_quat]. rewrite Hk'. destruct q as [|a q]; cbn [tail chain_frame].
  - reflexivity.
  - unfold turn. rewrite compose_turn. reflexivity.
Qed.

Section rendered_pose.
Context (chain : list (Link R)) (Hok : Forall link_ok chain).

Definition link_names : list (option string) := li_name <$> chain.

(** A pose logged at a root with an arm's mount puts the tip where [fk_world_eef] says. *)
Lemma pose_rendered r st side m q log : mount_of side = Ok m ->
  shown_tf log (Ent r [] []) = Some (mount_tf m []) -> (st = false -> free_links log r) ->
  exists evs f, log_arm_pose r chain (Some q) st = Ok evs /\
    rendered_tip (log ++ evs) r link_names = Some f /\ view_fk chain side q = Ok f.1.
Proof.
  intros Hm Hroot Hfree. unfold view_fk, fk_world_eef. rewrite Hm. cbn [res_bind].
  pose proof (mount_of_consistent _ _ Hm) as [_ Hrot].
  destruct chain as [|base rest] eqn:Ec; unfold link_names; rewrite Ec.
  { exists [], (tf_frame (mount_tf m [])). split_and!; [done| |].
    - rewrite app_nil_r. unfold rendered_tip. rewrite Hroot. cbn [rendered fmap list_fmap mbind option_bind].
      by rewrite compose_id_r.
    - done. }
  apply Forall_cons in Hok as [Hb Hr]. unfold log_arm_pose.
  change (default (repeat 0 7) (Some q)) with q.
  destruct (rpy_quat_ok base Hb) as (k & -> & Hk). cbn [res_bind].
  assert (vec3_of ValueError (li_xyz base) = Ok (link_frame base).1) as ->.
  { destruct Hb as ((a & b & d & Hx) & _). unfold link_frame, vlist. by rewrite Hx. }
  cbn [res_bind]. set (ev := EvTransform (Ent r [li_name base] []) (Tf (link_frame base).1 k []) st).
  destruct (pose_rest_rendered r st [li_name base] q rest (log ++ [ev]) Hr) as (evs & He & Hren).
  { intros ->. by apply free_links_app, Hfree. }
  rewrite He. cbn [res_bind]. eexists (ev :: evs), _. split; [reflexivity|].
  change (log ++ ev :: evs) with (log ++ [ev] ++ evs). rewrite app_assoc.
  assert (shown_tf ((log ++ [ev]) ++ evs) (Ent r [li_name base] []) = Some (Tf (link_frame base).1 k [])) as Hs1.
  { unfold shown_tf. rewrite (pose_rest_keeps_pair _ _ _ _ _ _ _ He), tf_pair_app. cbn [foldl ev tf_step].
    rewrite decide_True by done. destruct st; [done|]. cbn. by rewrite (Hfree eq_refl [li_name base]). }
  assert (shown_tf ((log ++ [ev]) ++ evs) (Ent r [] []) = Some (mount_tf m [])) as Hs0.
  { rewrite <-Hroot. unfold shown_tf. rewrite <-app_assoc, !tf_pair_app. cbn [app foldl].
    rewrite (tf_step_other _ _ ev) by (by intros t st' [=]).
    assert (Forall (fun ev => forall t st', ev <> EvTransform (Ent r [] []) t st') evs) as Hn.
    { apply Forall_forall. intros x Hx t st' ->. apply (pose_rest_below _ _ _ _ _ _ He) in Hx. cbn in Hx. lia. }
    assert (forall acc, foldl (tf_step (Ent r [] [])) acc evs = acc) as Hfold.
    { clear -Hn. induction Hn as [|x l Hx _ IH]; intros acc; [done|]. cbn. by rewrite tf_step_other. }
    by rewrite Hfold. }
  unfold rendered_tip. cbn [fmap list_fmap rendered app]. rewrite Hs0, Hs1, Hren. cbn [mbind option_bind].
  split; [reflexivity|]. cbn [fk_chain]. rewrite (advance_ok _ _ Hb). cbn [res_bind].
  rewrite (fk_rest_ok _ _ _ Hr). unfold tf_frame. cbn [tf_xyz tf_quat mount_tf]. rewrite Hk, Hrot.
  rewrite compose_assoc. by destruct (link_frame base).
Qed.
End rendered_pose.

(** ** What the routines log *)

(** Transforms of parts only. *)
Definition parted (ev : event) : Prop :=
  match ev with EvTransform e _ _ => en_parts e <> [] | _ => True end.

(** Transforms of the links of a root only. *)
Definition link_events (r : root) (st : bool) (ev : event) : Prop :=
  match ev with EvTransform e _ st' => en_root e = r /\ en_links e <> [] /\ st' = st | _ => True end.

(** What may be logged about a follower arm: its root stands at its mount and never moves, its
    links are never pinned. *)
Definition benign (ev : event) : Prop :=
  match ev with
  | EvTransform (Ent (ArmRoot side _) links []) t st =>
    match links with
    | [] => st = true /\ exists m, mount_of side = Ok m /\ t = mount_tf m []
    | _ => st = false
    end
  | _ => True
  end.

Lemma parted_benign ev : parted ev -> benign ev.
Proof. destruct ev; try done. destruct e as [[] links [|p parts]]; done. Qed.

Lemma parted_untouched r ev : parted ev -> untouched r ev.
Proof. destruct ev; try done. cbn. by right. Qed.

Lemma link_events_benign r st ev : (st = true -> forall side ghost, r <> ArmRoot side ghost) ->
  link_events r st ev -> benign ev.
Proof.
  intros Hst. destruct ev; try done. destruct e as [r' links parts]. cbn. intros (-> & Hl & ->).
  destruct r; try done. destruct parts; [|done]. destruct links; [done|].
  destruct st; [|done]. by destruct (Hst eq_refl side ghost).
Qed.

Lemma link_events_untouched r st r' ev : r <> r' -> link_events r st ev -> untouched r' ev.
Proof. intros Hr. destruct ev; try done. cbn. intros (-> & _). by left. Qed.

Lemma mapM_res_concat {A B} (P : B -> Prop) (f : A -> res (list B)) l l' :
  (forall x y, f x = Ok y -> Forall P y) -> res_map (@concat B) (mapM_res f l) = Ok l' -> Forall P l'.
Proof.
  intros Hf H. destruct (mapM_res f l) as [ls|] eqn:E; [|done]. injection H as <-.
  apply mapM_res_Forall2 in E. induction E as [|x y l ls Hx _ IH]; cbn; [done|].
  apply Forall_app. split; [by eapply Hf|done].
Qed.

Section logged.
Context (chain : list (Link R)) (factr_loaded : string -> res (list (Link R))).
Context (is_file : string -> bool) (load_mesh : string -> list mesh_part).

Lemma place_visual_parted e v st acc acc' : en_parts e <> [] -> Forall parted acc.2 ->
  place_visual e v st acc = Ok acc' -> Forall parted acc'.2.
Proof.
  intros He Ha. unfold place_visual. destruct (bool_decide _); [by intros [= <-]|].
  destruct (visual_tf v); [|done]. intros [= <-]. cbn. apply Forall_app. split; [done|].
  by repeat constructor.
Qed.

Lemma log_arm_meshes_parted side c l : log_arm_meshes is_file load_mesh side c = Ok l -> Forall parted l.
Proof.
  unfold log_arm_meshes. destruct (foldM_res _ _ _) as [acc|] eqn:E; [|done]. intros [= <-].
  apply (foldM_res_inv (fun acc => Forall parted acc.2)) in E; [done| |by constructor].
  intros s x s' Hx H Hs. revert H. destruct (place_visual _ _ _ _) as [a|] eqn:Ep; [|done]. intros [= <-]. cbn.
  apply place_visual_parted in Ep; [|clear -Hx|done].
  - apply Forall_app. split; [done|]. by repeat constructor.
  - unfold mesh_entities in Hx. apply list_elem_of_bind in Hx as (p & Hx & _).
    apply list_elem_of_bind in Hx as (v & Hx & _). destruct (is_file _); [|by apply not_elem_of_nil in Hx].
    apply list_elem_of_fmap in Hx as (m & -> & _). done.
Qed.

Lemma log_ghost_meshes_parted r c col st l :
  log_ghost_meshes is_file load_mesh r c col st = Ok l -> Forall parted l.
Proof.
  unfold log_ghost_meshes. destruct (foldM_res _ _ _) as [acc|] eqn:E; [|done]. intros [= <-].
  apply (foldM_res_inv (fun acc => Forall parted acc.2)) in E; [done| |by constructor].
  intros s x s' _ H Hs. revert H. destruct (place_visual _ _ _ _) as [a|] eqn:Ep; [|done]. intros [= <-]. cbn.
  apply place_visual_parted in Ep; [|done|done].
  apply Forall_app. split; [done|]. apply Forall_fmap, Forall_true. done.
Qed.

Lemma log_real_skeleton_parted side c col st l : log_real_skeleton side c col st = Ok l -> Forall parted l.
Proof.
  apply mapM_res_concat. intros x y. destruct (bone _) as [[b|]|]; [..|done]; intros [= <-]; by repeat constructor.
Qed.

Lemma log_ghost_capsules_parted r c col st l : log_ghost_capsules r c col st = Ok l -> Forall parted l.
Proof.
  apply mapM_res_concat. intros x y. destruct (bone _) as [[b|]|]; [..|done]; intros [= <-]; by repeat constructor.
Qed.

Lemma log_ghost_geometry_parted r c col st l :
  log_ghost_geometry is_file load_mesh r c col st = Ok l -> Forall parted l.
Proof.
  unfold log_ghost_geometry. destruct (has_mesh_visuals _ _);
    eauto using log_ghost_meshes_parted, log_ghost_capsules_parted.
Qed.

Lemma log_follower_gripper_parted side c ghost l :
  log_follower_gripper is_file load_mesh side c ghost = Ok l -> Forall parted l.
Proof.
  unfold log_follower_gripper. destruct (negb _); [by intros [= <-]|].
  destruct (flange_path _ _); [|by intros [= <-]]. destruct (visual_tf _); [|done]. intros [= <-].
  constructor; [done|]. apply Forall_fmap, Forall_true. done.
Qed.

Lemma recolour_parted side live l : recolour chain is_file load_mesh side live = Ok l -> Forall parted l.
Proof.
  unfold recolour. destruct (has_mesh_visuals _ _); [|apply log_real_skeleton_parted].
  intros [= <-]. apply Forall_fmap, Forall_true. done.
Qed.

Lemma log_arm_geometry_events side c ghost l : log_arm_geometry is_file load_mesh side c ghost = Ok l ->
  exists m rest, mount_of side = Ok m /\ Forall parted rest /\
    l = EvTransform (Ent (ArmRoot side ghost) [] []) (mount_tf m []) true :: rest.
Proof.
  unfold log_arm_geometry. destruct (mount_of side) as [m|]; [|done]. cbn [res_bind].
  destruct (if ghost then _ else _) as [g|] eqn:E; [|done]. intros [= <-]. exists m, g. split_and!; try done.
  destruct ghost; [by eapply log_ghost_geometry_parted|].
  destruct (has_mesh_visuals _ _); [by eapply log_arm_meshes_parted|by eapply log_real_skeleton_parted].
Qed.

Lemma pose_rest_events r st pre q c l : pose_rest r st pre q c = Ok l -> Forall (link_events r st) l.
Proof.
  revert pre q l. induction c as [|k c IH]; intros pre q l; cbn [pose_rest]; [by intros [= <-]|].
  destruct (rpy_quat _); [|done]. cbn [res_bind].
  destruct (match q with [] => _ | _ => _ end); [|done]. cbn [res_bind].
  destruct (vec3_of _ _); [|done]. cbn [res_bind].
  destruct (pose_rest _ _ _ _ c) as [r'|] eqn:E; [|done]. intros [= <-].
  constructor; [|by eapply IH]. cbn. split_and!; try done. by destruct pre.
Qed.

Lemma log_arm_pose_events r c q st l : log_arm_pose r c q st = Ok l -> Forall (link_events r st) l.
Proof.
  unfold log_arm_pose. destruct c as [|k c]; [by intros [= <-]|]. destruct (rpy_quat _); [|done]. cbn [res_bind].
  destruct (vec3_of _ _); [|done]. cbn [res_bind].
  destruct (pose_rest _ _ _ _ c) as [r'|] eqn:E; [|done]. intros [= <-].
  constructor; [done|]. by eapply pose_rest_events.
Qed.
End logged.

(** ** Reachable scenes *)

Definition root_event (side : string) (ghost : bool) (m : Mount) : event :=
  EvTransform (Ent (ArmRoot side ghost) [] []) (mount_tf m []) true.

(** The bound recording shows both arms and their ghosts at their mounts. *)
Definition rooted (rec : Z) (log : list (Z * event)) : Prop :=
  forall side ghost, side ∈ sides -> exists m, mount_of side = Ok m /\ (rec, root_event side ghost m) ∈ log.

Definition scene_inv (s : scene) : Prop :=
  Forall (fun x => benign x.2) (sc_log s) /\ forall rec, sc_rec s = Some rec -> rooted rec (sc_log s).

Lemma rooted_app rec log evs : rooted rec log -> rooted rec (log ++ evs).
Proof.
  intros H side ghost Hs. destruct (H side ghost Hs) as (m & Hm & Hin). exists m. split; [done|].
  apply elem_of_app. by left.
Qed.

Lemma add_log_inv rec evs s : Forall benign evs -> scene_inv s -> scene_inv (add_log (pair rec <$> evs) s).
Proof.
  intros He [Hb Hr]. split; cbn.
  - apply Forall_app. split; [done|]. by apply Forall_fmap.
  - intros r Hrec. by apply rooted_app, Hr.
Qed.

Lemma emit_inv rec evs : Forall benign evs -> keeps scene_inv (emit_events rec evs).
Proof. intros H. apply keeps_modify. intros s. by apply add_log_inv. Qed.

Lemma draw_inv rec evs : (forall l, evs = Ok l -> Forall benign l) -> keeps scene_inv (draw rec evs).
Proof. intros H. apply keeps_lift_bind. intros l Hl. by apply emit_inv, H. Qed.

Lemma all_benign l : Forall parted l -> Forall benign l.
Proof. intros H. eapply Forall_impl; [exact H|]. intros ev. apply parted_benign. Qed.

Lemma pose_benign r c q st l : (st = true -> forall side ghost, r <> ArmRoot side ghost) ->
  log_arm_pose r c q st = Ok l -> Forall benign l.
Proof.
  intros Hst H. apply log_arm_pose_events in H. eapply Forall_impl; [exact H|]. intros ev. by apply link_events_benign.
Qed.

Lemma for_each_keeps {A} (P : scene -> Prop) (f : A -> ST scene unit) l :
  (forall x, x ∈ l -> keeps P (f x)) -> keeps P (for_each f l).
Proof.
  induction l as [|x l IH]; intros H; cbn [for_each]; [apply keeps_ret|].
  apply keeps_bind; [apply H; left|]. intros _. apply IH. intros y Hy. apply H. by right.
Qed.

(** State changes that leave log and recording alone. *)
Lemma modify_inv f : (forall s, sc_log (f s) = sc_log s /\ sc_rec (f s) = sc_rec s) ->
  keeps scene_inv (st_modify f).
Proof.
  intros H. apply keeps_modify. intros s [Hb Hr]. destruct (H s) as [El Er].
  split; [by rewrite El|]. intros rec. rewrite Er, El. apply Hr.
Qed.

(** Splits a routine into the changes it makes. *)
Ltac kscene :=
  repeat first
    [ apply keeps_ret | apply keeps_raise | apply keeps_get
    | apply emit_inv; by repeat constructor
    | apply draw_inv; intros ? ?
    | apply modify_inv; done
    | apply keeps_lift_bind; intros ? ?
    | apply keeps_bind; [|intros ?]
    | case_match ].

Section reach.
Context (chain : list (Link R)) (factr_loaded : string -> res (list (Link R))).
Context (is_file : string -> bool) (load_mesh : string -> list mesh_part).

Lemma set_factr_visible_benign side v l : set_factr_visible side v = Ok l -> Forall benign l.
Proof. unfold set_factr_visible. destruct (factr_mount side); [|done]. intros [= <-]. by repeat constructor. Qed.

Lemma update_side_inv rec rq gq fq side :
  keeps scene_inv (update_side chain factr_loaded is_file load_mesh rec rq gq fq side).
Proof.
  unfold update_side. kscene; first
    [ eapply pose_benign; [|eassumption]; done
    | by eapply all_benign, recolour_parted
    | by eapply set_factr_visible_benign ].
Qed.

Lemma log_trace_inv rec side a b w : keeps scene_inv (log_trace rec side a b w).
Proof. unfold log_trace. kscene. Qed.

Lemma update_horizon_inv rec tq rq ps te re :
  keeps scene_inv (update_horizon_targets chain is_file load_mesh rec tq rq ps te re).
Proof.
  unfold update_horizon_targets. apply keeps_bind; [|intros _]; apply for_each_keeps; intros [side [q|]] _;
    cbn [fst snd]; [|apply keeps_ret| |apply keeps_ret].
  - destruct (has_mount side); [|apply keeps_ret]. unfold update_joint_target. kscene; first
      [ eapply pose_benign; [|eassumption]; done
      | by eapply all_benign, log_ghost_geometry_parted
      | apply log_trace_inv ].
  - destruct (_ && _); [|apply keeps_ret]. unfold update_eef_target. kscene; apply log_trace_inv.
Qed.

Lemma clear_horizon_inv rec : keeps scene_inv (clear_horizon_targets rec).
Proof.
  intros s Hs. unfold clear_horizon_targets. destruct rec as [rec|]; [|done].
  destruct (_ && _); [done|]. cbn [fst].
  set (evs := _ ++ _). assert (Forall benign evs) as He.
  { apply Forall_app. split; [by apply Forall_fmap, Forall_true|].
    apply Forall_bind, Forall_true. intros side. by repeat constructor. }
  apply (add_log_inv rec evs s He) in Hs. exact Hs.
Qed.

Lemma show_calibration_inv side q : keeps scene_inv (show_calibration_target chain is_file load_mesh side q).
Proof.
  unfold show_calibration_target. kscene; first
    [ eapply pose_benign; [|eassumption]; done
    | by eapply all_benign, log_ghost_geometry_parted
    | apply for_each_keeps; intros; unfold clear_calibration_side; kscene ].
Qed.

Lemma clear_calibration_inv : keeps scene_inv clear_calibration_targets.
Proof.
  intros s Hs. unfold clear_calibration_targets. cbn [fst]. destruct (sc_rec s) as [rec|] eqn:Er.
  - apply (add_log_inv rec ((fun side => EvClear (Ent (CalibrationRoot side) [] []) true true) <$> sc_calib s)) in Hs.
    + rewrite <-list_fmap_compose in Hs. exact Hs.
    + by apply Forall_fmap, Forall_true.
  - destruct Hs as [Hb Hr]. split; cbn; [by rewrite app_nil_r|]. rewrite Er. done.
Qed.

Lemma reset_scene_inv : keeps scene_inv reset_scene.
Proof. apply keeps_modify. intros s [Hb _]. by split. Qed.

Lemma log_arm_geometry_benign side c ghost l : log_arm_geometry is_file load_mesh side c ghost = Ok l ->
  Forall benign l /\ exists m, mount_of side = Ok m /\ root_event side ghost m ∈ l.
Proof.
  intros (m & rest & Hm & Hp & ->)%log_arm_geometry_events. split.
  - constructor; [|by apply all_benign]. cbn. split; [done|]. by exists m.
  - exists m. split; [done|]. left.
Qed.

Lemma log_factr_geometry_benign side c k l : log_factr_geometry is_file load_mesh side c k = Ok l -> Forall benign l.
Proof.
  unfold log_factr_geometry. destruct (factr_mount side); [|done]. cbn [res_bind].
  destruct (log_ghost_geometry _ _ _ _ _ _) as [g|] eqn:E; [|done]. intros [= <-].
  constructor; [done|]. by eapply all_benign, log_ghost_geometry_parted.
Qed.

Lemma gripper_benign (b : bool) side c ghost l :
  (if b then log_follower_gripper is_file load_mesh side c ghost else Ok []) = Ok l -> Forall benign l.
Proof.
  destruct b; [|by intros [= <-]]. intros H. by eapply all_benign, log_follower_gripper_parted.
Qed.

Lemma log_side_events ja sf g side l : log_side chain factr_loaded is_file load_mesh ja sf g side = Ok l ->
  Forall benign l /\ forall ghost, exists m, mount_of side = Ok m /\ root_event side ghost m ∈ l.
Proof.
  unfold log_side. cbn zeta.
  destruct (log_arm_geometry _ _ side chain false) as [a|] eqn:E1; [|done]. cbn [res_bind].
  destruct (if g then log_follower_gripper is_file load_mesh side chain false else Ok []) as [b|] eqn:E2; [|done]. cbn [res_bind].
  destruct (log_arm_pose (ArmRoot side false) _ _ _) as [c|] eqn:E3; [|done]. cbn [res_bind].
  destruct (log_arm_geometry _ _ side chain true) as [d|] eqn:E4; [|done]. cbn [res_bind].
  destruct (if g then log_follower_gripper is_file load_mesh side chain true else Ok []) as [e|] eqn:E5; [|done]. cbn [res_bind].
  destruct (log_arm_pose (ArmRoot side true) _ _ _) as [f|] eqn:E6; [|done]. cbn [res_bind].
  destruct (log_factr_geometry _ _ _ _ _) as [h|] eqn:E7; [|done]. cbn [res_bind].
  destruct (log_arm_pose (FactrRoot side) _ _ _) as [i|] eqn:E8; [|done]. intros [= <-].
  destruct (log_arm_geometry_benign _ _ _ _ E1) as [B1 (m1 & M1 & R1)].
  destruct (log_arm_geometry_benign _ _ _ _ E4) as [B4 (m4 & M4 & R4)].
  split.
  - rewrite !Forall_app. split_and!; try done;
      first [by eapply gripper_benign | by eapply log_factr_geometry_benign
            | eapply pose_benign; [|eassumption]; done].
  - intros []; [exists m4|exists m1]; (split; [done|]); rewrite !elem_of_app; tauto.
Qed.

Lemma log_scene_events ja sf g l : log_scene chain factr_loaded is_file load_mesh ja sf g = Ok l ->
  Forall benign l /\
  forall side ghost, side ∈ sides -> exists m, mount_of side = Ok m /\ root_event side ghost m ∈ l.
Proof.
  unfold log_scene. cbn zeta. destruct (mapM_res _ sides) as [evs|] eqn:E; [|done]. intros [= <-].
  apply mapM_res_Forall2 in E.
  assert (Forall benign (concat evs) /\
    forall side ghost, side ∈ sides -> exists m, mount_of side = Ok m /\ root_event side ghost m ∈ concat evs) as [Hb Hr].
  { induction E as [|x y l evs Hx _ [IHb IHr]]; cbn [concat]; [split; [done|]|].
    { intros side ghost H. by apply not_elem_of_nil in H. }
    destruct (log_side_events _ _ _ _ _ Hx) as [Hb Hr]. split; [by apply Forall_app|].
    intros side ghost [->|Hs]%elem_of_cons.
    - destruct (Hr ghost) as (m & Hm & Hin). exists m. rewrite elem_of_app. auto.
    - destruct (IHr side ghost Hs) as (m & Hm & Hin). exists m. rewrite elem_of_app. auto. }
  split.
  - constructor; [done|]. apply Forall_app. split; [|done]. destruct (is_file _); by repeat constructor.
  - intros side ghost Hs. destruct (Hr side ghost Hs) as (m & Hm & Hin). exists m. split; [done|].
    right. apply elem_of_app. by right.
Qed.

Lemma attach_inv rec glob : keeps scene_inv (attach_scene chain factr_loaded is_file load_mesh rec glob).
Proof.
  intros s Hs. unfold attach_scene, mbind, st_bind, st_get. destruct (sc_rec s) as [r|] eqn:Er; [exact Hs|].
  destruct (match rec with Some r => Some r | None => glob end) as [r|].
  2: { cbn. destruct Hs as [Hb _]. by split. }
  unfold draw, emit_events, mbind, st_bind, st_lift.
  destruct (log_scene _ _ _ _ _ _ _) as [l|] eqn:El; [|exact Hs]. cbn.
  destruct (log_scene_events _ _ _ _ El) as [Hb Hr]. destruct (add_log_inv r l s Hb Hs) as [Hb' _].
  split; [exact Hb'|]. intros r' [= <-] side ghost Hside. cbn.
  destruct (Hr side ghost Hside) as (m & Hm & Hin). exists m. split; [done|].
  apply elem_of_app. right. by apply list_elem_of_fmap_2.
Qed.

(** One call of the module, with any arguments. *)
Inductive scene_step : scene -> scene -> Prop :=
  | step_attach rec glob s :
      scene_step s (attach_scene chain factr_loaded is_file load_mesh rec glob s).1
  | step_poses rec rq gq fq s :
      scene_step s (update_poses chain factr_loaded is_file load_mesh rec rq gq fq s).1
  | step_horizon rec tq rq ps te re s :
      scene_step s (update_horizon_targets chain is_file load_mesh rec tq rq ps te re s).1
  | step_clear_horizon rec s : scene_step s (clear_horizon_targets rec s).1
  | step_show_calibration side q s :
      scene_step s (show_calibration_target chain is_file load_mesh side q s).1
  | step_clear_calibration s : scene_step s (clear_calibration_targets s).1
  | step_reset s : scene_step s (reset_scene s).1.

Lemma reachable_inv s : steps scene_step scene0 s -> scene_inv s.
Proof.
  intros H. eapply steps_inv; [|exact H|by split]. intros s1 s2 Hstep Hs. destruct Hstep.
  - by apply attach_inv.
  - unfold update_poses. eapply keeps_bind; [apply update_side_inv|intros _; apply update_side_inv|done].
  - by apply update_horizon_inv.
  - by apply clear_horizon_inv.
  - by apply show_calibration_inv.
  - by apply clear_calibration_inv.
  - by apply reset_scene_inv.
Qed.
End reach.

(** ** The arms shown *)

Lemma draw_returned rec evs s s' : draw rec evs s = (s', Returned tt) ->
  exists l, evs = Ok l /\ s' = add_log (pair rec <$> l) s.
Proof.
  unfold draw, emit_events, mbind, st_bind, st_lift. destruct evs as [l|]; [|done]. intros [= <-]. by exists l.
Qed.

Lemma log_of_add rec evs s : log_of rec (add_log (pair rec <$> evs) s) = log_of rec s ++ evs.
Proof.
  unfold log_of, add_log. cbn [sc_log]. rewrite omap_app. f_equal.
  induction evs as [|e evs IH]; [done|]. cbn.
  rewrite decide_True by done. f_equal. exact IH.
Qed.

(** Drawing a pose, or nothing. *)
Definition posed_events (r : root) (c : list (Link R)) (q : option (list R)) (l : list event) : Prop :=
  match q with Some q => log_arm_pose r c (Some q) false = Ok l | None => l = [] end.

Lemma posed_links r c q l : posed_events r c q l -> Forall (link_events r false) l.
Proof. destruct q as [q|]; [by apply log_arm_pose_events|intros ->; constructor]. Qed.

Lemma opt_draw rec r c q s s' :
  (match q with Some q => draw rec (log_arm_pose r c (Some q) false) | None => mret tt end) s = (s', Returned tt) ->
  exists l, posed_events r c q l /\ s' = add_log (pair rec <$> l) s.
Proof.
  destruct q as [q|]; cbn [posed_events]; [apply draw_returned|]. intros [= <-]. exists []. split; [done|].
  destruct s. unfold add_log. cbn. by rewrite app_nil_r.
Qed.

(** Notices whether a side had data: the change is drawn, the state remembers. *)
Definition noted (live live' : list ((Z * string) * bool)) (k : Z * string) (b : bool) (drawn : res (list event))
    (l : list event) : Prop :=
  dget k live' = Some b /\ (forall k', k' <> k -> dget k' live' = dget k' live) /\
  (if bool_decide (dget k live = Some b) then l = [] else drawn = Ok l).

Section shown.
Context (chain : list (Link R)) (factr_loaded : string -> res (list (Link R))).
Context (is_file : string -> bool) (load_mesh : string -> list mesh_part).

Definition factr_events (side : string) (ev : event) : Prop :=
  match ev with EvTransform e _ _ => en_root e = FactrRoot side | _ => True end.

(** Everything [update_side] does when it returns. *)
Lemma update_side_returned rec rq gq fq side s s' :
  update_side chain factr_loaded is_file load_mesh rec rq gq fq side s = (s', Returned tt) ->
  exists a b c d,
    log_of rec s' = log_of rec s ++ a ++ b ++ c ++ d /\
    noted (sc_arm_live s) (sc_arm_live s') (rec, side) (bool_decide (is_Some (dget side rq)))
      (recolour chain is_file load_mesh side (bool_decide (is_Some (dget side rq)))) a /\
    posed_events (ArmRoot side false) chain (dget side rq) b /\
    posed_events (ArmRoot side true) chain (dget side gq) c /\
    Forall (factr_events side) d.
Proof.
  unfold update_side. cbn zeta. set (live := bool_decide (is_Some (dget side rq))).
  set (fac := bool_decide (is_Some (fq ≫= dget side))). intros H.
  apply bind_returned in H as (s0 & s1 & [= <- <-] & H).
  apply bind_returned in H as ([] & s2 & H1 & H).
  apply bind_returned in H as ([] & s3 & (b & Hb & ->)%opt_draw & H).
  apply bind_returned in H as ([] & s4 & (c & Hc & ->)%opt_draw & H).
  apply bind_returned in H as ([] & s5 & H4 & (e & He & ->)%opt_draw).
  assert (exists a, log_of rec s2 = log_of rec s ++ a /\
    noted (sc_arm_live s) (sc_arm_live s2) (rec, side) live (recolour chain is_file load_mesh side live) a)
    as (a & Ha & Hn).
  { unfold noted. destruct (bool_decide_reflect (dget (rec, side) (sc_arm_live s) = Some live)).
    - injection H1 as <-. exists []. by rewrite app_nil_r.
    - apply bind_returned in H1 as ([] & s1 & [= <-] & (l & Hl & ->)%draw_returned). exists l.
      rewrite log_of_add. cbn [sc_arm_live add_log with_arm_live]. split_and!; [done|apply dget_dset_eq| |done].
      intros k' Hk. by apply dget_dset_ne. }
  set (s4' := add_log (pair rec <$> c) (add_log (pair rec <$> b) s2)) in *.
  assert (exists d, log_of rec s5 = log_of rec s4' ++ d /\ sc_arm_live s5 = sc_arm_live s4' /\ Forall (factr_events side) d)
    as (d & Hd & Hlive & Hfd).
  { assert ((mret tt : ST scene unit) s4' = (s5, Returned tt) -> s5 = s4') as Hret by (unfold mret, st_ret; congruence).
    destruct fq as [f|]; [|rewrite (Hret H4); exists []; by rewrite app_nil_r].
    destruct (bool_decide (dget (rec, side) (sc_factr_live s) = Some fac)); [rewrite (Hret H4); exists []; by rewrite app_nil_r|].
    apply bind_returned in H4 as ([] & s1 & [= <-] & (l & Hl & ->)%draw_returned). exists l.
    rewrite log_of_add. split_and!; [done|done|]. unfold set_factr_visible in Hl.
    destruct (factr_mount side); [|done]. injection Hl as <-. by repeat constructor. }
  exists a, b, c, (d ++ e). split_and!; try done.
  - rewrite log_of_add, Hd. unfold s4'. rewrite !log_of_add, Ha, <-!app_assoc. done.
  - cbn [sc_arm_live add_log]. rewrite Hlive. done.
  - apply Forall_app. split; [done|]. eapply Forall_impl; [by eapply posed_links|].
    intros []; try done. cbn. by intros (-> & _).
Qed.
End shown.

(** A recording's log as the reachable scenes have it. *)
Definition good_log (l : list event) : Prop :=
  Forall benign l /\
  forall side ghost, side ∈ sides -> exists m, mount_of side = Ok m /\ root_event side ghost m ∈ l.

Lemma scene_good_log s rec : scene_inv s -> sc_rec s = Some rec -> good_log (log_of rec s).
Proof.
  intros [Hb Hr] Hrec. split.
  - apply Forall_forall. intros ev Hin. apply list_elem_of_omap in Hin as ([r e] & Hin & He).
    cbn in He. destruct (decide _); [|done]. injection He as <-.
    rewrite Forall_forall in Hb. by apply (Hb (r, e)).
  - intros side ghost Hs. destruct (Hr rec Hrec side ghost Hs) as (m & Hm & Hin). exists m. split; [done|].
    apply list_elem_of_omap. eexists. split; [exact Hin|]. cbn. by rewrite decide_True.
Qed.

Lemma good_log_app l evs : good_log l -> Forall benign evs -> good_log (l ++ evs).
Proof.
  intros [Hb Hr] He. split; [by apply Forall_app|]. intros side ghost Hs.
  destruct (Hr side ghost Hs) as (m & Hm & Hin). exists m. split; [done|]. apply elem_of_app. by left.
Qed.

Lemma benign_pair side ghost links l m : Forall benign l -> mount_of side = Ok m ->
  match links with
  | [] => (tf_pair l (Ent (ArmRoot side ghost) [] [])).1 = None \/
          (tf_pair l (Ent (ArmRoot side ghost) [] [])).1 = Some (mount_tf m [])
  | _ => (tf_pair l (Ent (ArmRoot side ghost) links [])).1 = None
  end.
Proof.
  intros Hb Hm. induction l as [|ev l IH] using rev_ind; [destruct links; [by left|done]|].
  apply Forall_app in Hb as [Hb He%Forall_inv]. specialize (IH Hb).
  destruct links as [|n links]; rewrite tf_pair_snoc; destruct ev; cbn [tf_step]; try exact IH;
    destruct (decide _) as [->|]; try exact IH; cbn in He.
  - destruct He as (-> & m' & Hm' & ->). right. cbn. congruence.
  - by subst.
Qed.

Lemma good_log_free l side ghost : good_log l -> side ∈ sides -> free_links l (ArmRoot side ghost).
Proof.
  intros [Hb Hr] Hs links Hl. destruct (Hr side ghost Hs) as (m & Hm & _).
  pose proof (benign_pair side ghost links l m Hb Hm) as H. by destruct links.
Qed.

Lemma good_log_root l side ghost m : good_log l -> side ∈ sides -> mount_of side = Ok m ->
  shown_tf l (Ent (ArmRoot side ghost) [] []) = Some (mount_tf m []).
Proof.
  intros [Hb Hr] Hs Hm. destruct (Hr side ghost Hs) as (m' & Hm' & Hin).
  assert (m' = m) as -> by congruence. apply list_elem_of_split in Hin as (l1 & l2 & ->).
  pose proof (benign_pair side ghost [] (l1 ++ [root_event side ghost m] ++ l2) m Hb Hm) as H. cbn [app] in H.
  unfold shown_tf. destruct H as [H|H]; [exfalso|by rewrite H].
  revert H. unfold tf_pair. rewrite foldl_app. cbn [foldl root_event tf_step]. rewrite decide_True by done.
  generalize (foldl (tf_step (Ent (ArmRoot side ghost) [] [])) (None, None) l1) as acc. intros acc.
  assert (forall l x y, (foldl (tf_step (Ent (ArmRoot side ghost) [] [])) (Some x, y) l).1 <> None) as Hsome.
  { clear. induction l as [|ev l IH]; intros x y; cbn [foldl]; [done|]. destruct ev; cbn [tf_step]; try apply IH.
    destruct (decide _); [destruct static|]; cbn; apply IH. }
  apply Hsome.
Qed.

Section update.
Context (chain : list (Link R)) (factr_loaded : string -> res (list (Link R))).
Context (is_file : string -> bool) (load_mesh : string -> list mesh_part).
Context (Hok : Forall link_ok chain).

(** The tip of a drawn arm stands where the joint angles put it. *)
Definition tip_at (log : list event) (r : root) (side : string) (q : list R) : Prop :=
  exists f, rendered_tip log r (link_names chain) = Some f /\ view_fk chain side q = Ok f.1.

(** What an update shows of one arm: the pose of the angles it was given, or the pose before. *)
Definition follows (log log' : list event) (r : root) (side : string) (q : option (list R)) : Prop :=
  match q with
  | Some q => tip_at log' r side q
  | None => rendered_tip log' r (link_names chain) = rendered_tip log r (link_names chain)
  end.

Lemma follows_untouched log log' evs r side q : Forall (untouched r) evs ->
  follows log log' r side q -> follows log (log' ++ evs) r side q.
Proof.
  intros He. destruct q as [q|]; cbn; unfold tip_at; by rewrite rendered_tip_untouched.
Qed.

Lemma follows_before log evs log' r side q : Forall (untouched r) evs ->
  follows (log ++ evs) log' r side q -> follows log log' r side q.
Proof. intros He. destruct q as [q|]; cbn; [done|]. by rewrite rendered_tip_untouched. Qed.

Lemma posed_follows log side ghost q l : good_log log -> side ∈ sides ->
  posed_events (ArmRoot side ghost) chain q l -> follows log (log ++ l) (ArmRoot side ghost) side q.
Proof.
  intros Hg Hs Hp. destruct q as [q|]; cbn in *; [|subst l; by rewrite app_nil_r].
  destruct (proj2 Hg side ghost Hs) as (m & Hm & _).
  destruct (pose_rendered chain Hok (ArmRoot side ghost) false side m q log Hm) as (evs & f & He & Hr & Hf).
  - by apply good_log_root.
  - intros _. by apply good_log_free.
  - assert (evs = l) as -> by congruence. by exists f.
Qed.

(** The events of one side leave the other side's arms alone. *)
Lemma side_events_untouched (a b c d : list event) side qr qg r :
  Forall parted a -> posed_events (ArmRoot side false) chain qr b -> posed_events (ArmRoot side true) chain qg c ->
  Forall (factr_events side) d -> (forall g, r <> ArmRoot side g) -> r <> FactrRoot side ->
  Forall (untouched r) (a ++ b ++ c ++ d).
Proof.
  intros Ha Hb Hc Hd Hr Hf. rewrite !Forall_app. split_and!.
  - eapply Forall_impl; [exact Ha|]. intros ev. apply parted_untouched.
  - apply posed_links in Hb. eapply Forall_impl; [exact Hb|]. intros ev. apply link_events_untouched. by intros <-; eapply Hr.
  - apply posed_links in Hc. eapply Forall_impl; [exact Hc|]. intros ev. apply link_events_untouched. by intros <-; eapply Hr.
  - eapply Forall_impl; [exact Hd|]. intros []; try done. cbn. intros ->. left. by intros <-.
Qed.

(** What one side's update adds to a good log. *)
Record side_update (rec : Z) (rq gq : list (string * list R)) (side : string) (s s' : scene) (evs : list event) : Prop := {
  su_log : log_of rec s' = log_of rec s ++ evs;
  su_benign : Forall benign evs;
  su_real : follows (log_of rec s) (log_of rec s') (ArmRoot side false) side (dget side rq);
  su_ghost : follows (log_of rec s) (log_of rec s') (ArmRoot side true) side (dget side gq);
  su_live : dget (rec, side) (sc_arm_live s') = Some (bool_decide (is_Some (dget side rq)));
  su_other : forall k, k <> (rec, side) -> dget k (sc_arm_live s') = dget k (sc_arm_live s);
  su_tint : dget (rec, side) (sc_arm_live s) <> Some (bool_decide (is_Some (dget side rq))) ->
    exists l, recolour chain is_file load_mesh side (bool_decide (is_Some (dget side rq))) = Ok l /\ l ⊆ evs;
  su_untouched : forall r, (forall g, r <> ArmRoot side g) -> r <> FactrRoot side -> Forall (untouched r) evs;
}.

Lemma update_side_shows rec rq gq fq side s s' : good_log (log_of rec s) -> side ∈ sides ->
  update_side chain factr_loaded is_file load_mesh rec rq gq fq side s = (s', Returned tt) ->
  exists evs, side_update rec rq gq side s s' evs.
Proof.
  intros Hg Hs (a & b & c & d & Hl & (Hn1 & Hn2 & Hn3) & Hb & Hc & Hd)%update_side_returned.
  assert (Forall parted a) as Ha.
  { destruct (bool_decide (dget (rec, side) (sc_arm_live s) = _)); [by subst|]. by eapply recolour_parted. }
  pose proof (posed_links _ _ _ _ Hb) as Lb. pose proof (posed_links _ _ _ _ Hc) as Lc.
  assert (forall r st l, Forall (link_events r st) l -> st = false -> Forall benign l) as Hlb.
  { intros r st l H ->. eapply Forall_impl; [exact H|]. intros ev. by apply link_events_benign. }
  assert (Forall benign d) as Bd.
  { eapply Forall_impl; [exact Hd|]. intros []; try done. destruct e as [r ? ?]. cbn. by intros ->. }
  assert (forall g, Forall (untouched (ArmRoot side g)) a) as Ua
    by (intros g; eapply Forall_impl; [exact Ha|]; intros ev; apply parted_untouched).
  assert (forall g, Forall (untouched (ArmRoot side g)) d) as Ud
    by (intros g; eapply Forall_impl; [exact Hd|]; intros []; try done; cbn; intros ->; by left).
  assert (forall g h l, g <> h -> Forall (link_events (ArmRoot side g) false) l -> Forall (untouched (ArmRoot side h)) l) as Ul.
  { intros g h l Hgh H. eapply Forall_impl; [exact H|]. intros ev. apply link_events_untouched. congruence. }
  pose proof (good_log_app _ _ Hg (all_benign _ Ha)) as Ga.
  pose proof (good_log_app _ _ Ga (Hlb _ _ _ Lb eq_refl)) as Gb.
  exists (a ++ b ++ c ++ d). split; try done.
  - rewrite !Forall_app. split_and!; eauto using all_benign.
  - rewrite Hl, !app_assoc. apply follows_untouched; [by apply Ud|].
    apply follows_untouched; [by apply (Ul true false)|]. eapply follows_before; [by apply Ua|]. by apply posed_follows.
  - rewrite Hl, !app_assoc. apply follows_untouched; [by apply Ud|].
    apply (follows_before _ (a ++ b)); [apply Forall_app; split; [by apply Ua|by apply (Ul false true)]|].
    rewrite app_assoc. by apply posed_follows.
  - intros Hne. rewrite bool_decide_eq_false_2 in Hn3 by done. exists a. split; [done|]. set_solver.
  - intros r Hr Hf. by eapply side_events_untouched.
Qed.

(** An update of a recording whose log has both arms at their mounts. *)
Definition poses_shown (rec : Z) (rq gq : list (string * list R)) (s s' : scene) (side : string) (evs : list event) : Prop :=
  follows (log_of rec s) (log_of rec s') (ArmRoot side false) side (dget side rq) /\
  follows (log_of rec s) (log_of rec s') (ArmRoot side true) side (dget side gq) /\
  dget (rec, side) (sc_arm_live s') = Some (bool_decide (is_Some (dget side rq))) /\
  (dget (rec, side) (sc_arm_live s) <> Some (bool_decide (is_Some (dget side rq))) ->
    exists l, recolour chain is_file load_mesh side (bool_decide (is_Some (dget side rq))) = Ok l /\ l ⊆ evs).

Lemma update_poses_shows rec rq gq fq s s' : good_log (log_of rec s) ->
  update_poses chain factr_loaded is_file load_mesh rec rq gq fq s = (s', Returned tt) ->
  exists evs, log_of rec s' = log_of rec s ++ evs /\ Forall benign evs /\
    forall side, side ∈ sides -> poses_shown rec rq gq s s' side evs.
Proof.
  intros Hg Hu. apply bind_returned in Hu as ([] & s1 & Hu1 & Hu2).
  destruct (update_side_shows _ _ _ _ _ _ _ Hg (list_elem_of_here _ _) Hu1) as (e1 & U1).
  assert (good_log (log_of rec s1)) as Hg1 by (rewrite (su_log _ _ _ _ _ _ _ U1); apply good_log_app; [done|apply U1]).
  assert ("right" ∈ sides) as Hright by (right; left).
  destruct (update_side_shows _ _ _ _ _ _ _ Hg1 Hright Hu2) as (e2 & U2).
  pose proof (su_log _ _ _ _ _ _ _ U1) as L1. pose proof (su_log _ _ _ _ _ _ _ U2) as L2.
  exists (e1 ++ e2). split; [by rewrite L2, L1, app_assoc|]. split; [apply Forall_app; split; [apply U1|apply U2]|].
  intros side Hside. unfold poses_shown.
  assert (side = "left" \/ side = "right") as [-> | ->] by (unfold sides in Hside; set_solver).
  - assert (forall g, Forall (untouched (ArmRoot "left" g)) e2) as Hu by (intros g; by apply U2).
    split_and!.
    + rewrite L2. apply follows_untouched; [apply Hu|apply U1].
    + rewrite L2. apply follows_untouched; [apply Hu|apply U1].
    + rewrite (su_other _ _ _ _ _ _ _ U2) by congruence. apply U1.
    + intros Hne. destruct (su_tint _ _ _ _ _ _ _ U1 Hne) as (l & Hl & Hin). exists l. split; [done|]. set_solver.
  - assert (forall g, Forall (untouched (ArmRoot "right" g)) e1) as Hu by (intros g; by apply U1).
    split_and!.
    + eapply follows_before; [apply Hu|]. rewrite <-L1. apply U2.
    + eapply follows_before; [apply Hu|]. rewrite <-L1. apply U2.
    + apply U2.
    + rewrite <-(su_other _ _ _ _ _ _ _ U1) by congruence. intros Hne.
      destruct (su_tint _ _ _ _ _ _ _ U2 Hne) as (l & Hl & Hin). exists l. split; [done|]. set_solver.
Qed.

(** the viewer never shows an arm where the robot's data does not put it.  In every scene the
    module can reach, after a pose update of the bound recording, the tip of each arm as the
    viewer multiplies out the transforms of its links stands exactly at [fk_world_eef] of the
    measured joint angles, and the commanded ghost at that of the commanded ones; an arm without
    measured angles is left where it was; and an arm whose data has come or gone since the last
    update is recoloured for its new state, which the module remembers. *)
Theorem drawn_arms_follow rec rq gq fq s s' side :
  steps (scene_step chain factr_loaded is_file load_mesh) scene0 s -> sc_rec s = Some rec ->
  update_poses chain factr_loaded is_file load_mesh rec rq gq fq s = (s', Returned tt) -> side ∈ sides ->
  exists evs, log_of rec s' = log_of rec s ++ evs /\
    follows (log_of rec s) (log_of rec s') (ArmRoot side false) side (dget side rq) /\
    follows (log_of rec s) (log_of rec s') (ArmRoot side true) side (dget side gq) /\
    dget (rec, side) (sc_arm_live s') = Some (bool_decide (is_Some (dget side rq))) /\
    (dget (rec, side) (sc_arm_live s) <> Some (bool_decide (is_Some (dget side rq))) ->
      exists l, recolour chain is_file load_mesh side (bool_decide (is_Some (dget side rq))) = Ok l /\ l ⊆ evs).
Proof.
  intros Hs Hrec Hu Hside. pose proof (scene_good_log _ _ (reachable_inv _ _ _ _ _ Hs) Hrec) as Hg.
  destruct (update_poses_shows _ _ _ _ _ _ Hg Hu) as (evs & Hl & _ & H). exists evs. split; [done|]. exact (H side Hside).
Qed.
End update.

(** One link, no meshes, no leader description. *)
Definition demo_chain : list (Link R) :=
  [MkLink (Some "base_link") [0; 0; 0] [0; 0; 0] [0; 0; 1] None []].

Definition demo_scene : scene :=
  (attach_scene demo_chain (fun _ => Raise OtherError) (fun _ => false) (fun _ => []) (Some 1%Z) None scene0).1.

Definition demo_update : scene :=
  (update_poses demo_chain (fun _ => Raise OtherError) (fun _ => false) (fun _ => []) 1%Z
     [("left", [1])] [] None demo_scene).1.

(** The left arm is posed; the right one, without data, is not moved and is marked stale. *)
Lemma drawn_arms_follow_witness :
  tip_at demo_chain (log_of 1%Z demo_update) (ArmRoot "left" false) "left" [1] /\
  dget (1%Z, "right") (sc_arm_live demo_update) = Some false.
Proof.
  assert (Forall link_ok demo_chain) as Hok by (repeat constructor; by do 3 eexists).
  assert (forall side, side ∈ sides -> exists evs, log_of 1%Z demo_update = log_of 1%Z demo_scene ++ evs /\
    follows demo_chain (log_of 1%Z demo_scene) (log_of 1%Z demo_update) (ArmRoot side false) side (dget side [("left", [1])]) /\
    dget (1%Z, side) (sc_arm_live demo_update) = Some (bool_decide (is_Some (dget side [("left", [1])])))) as H.
  { intros side Hs.
    destruct (drawn_arms_follow demo_chain (fun _ => Raise OtherError) (fun _ => false) (fun _ => []) Hok 1%Z
      [("left", [1])] [] None demo_scene demo_update side) as (evs & Hl & Hf & _ & Hd & _).
    - eapply steps_one. apply step_attach.
    - reflexivity.
    - reflexivity.
    - exact Hs.
    - by exists evs. }
  split.
  - destruct (H "left" ltac:(left)) as (_ & _ & Hf & _). exact Hf.
  - destruct (H "right" ltac:(right; left)) as (_ & _ & _ & Hd). exact Hd.
Defined.
