(* ===== verification/SceneModel.v ===== *)
(** * The objects of the 3D scene

    Models [viser/scene.py]: a robot as a chain of nested frames ([RobotModel]), the four robots of
    each side with their labels, traces and depth cloud ([RobotScene]), and the cache of simplified
    meshes.  [ViewerScene] decides what is drawn and logs the calls; here the calls change the
    objects, so the two compose into what the operator sees.

    Viser does not hand a frame's scale down to its children, so the code scales every offset by
    hand: [scaled_model_uniform] shows that the result is the robot, scaled about its mount.  The
    shapes of the meshes are not followed; which files exist and load is an input.  Numbers are
    real, as in [Geometry]. *)

From Stdlib Require Import SpecFloat Reals Lra String.
From S2P Require Import Prelude Float64 Text Session Json Convention LiveView Geometry Kinematics CameraSource.
From S2P Require Import RobotView Layout ViewerStreams ViewerScene.
Local Open Scope string_scope.
Local Open Scope list_scope.
Local Open Scope R_scope.

(** The real number a finite binary64 value stands for.  The code hands NaN and infinities on to
    the quaternions, where they have no real counterpart; the theorems about poses therefore ask for
    finite samples. *)
Definition real_of (x : f64) : R :=
  match x with S754_finite s m e => IZR (signed s m) * powerRZ 2 e | _ => 0 end.

(** ** One robot *)

(** A frame handle: its placement in its parent. *)
Record pnode := PNode { pn_position : V3; pn_wxyz : wxyz }.

Record robot_model := RobotModel {
  rm_root : string;
  rm_chain : list (Link R);
  rm_scale : R;
  rm_base : pnode;
  rm_visible : bool;
  rm_frames : list pnode;
}.

(** What is added to the scene next to the link frames. *)
Inductive addition :=
  | AddFrame (path : string) (at_ : pnode)
  | AddMesh (path file : string) (color : option (list Z)) (scale : list R)
  | AddGrid | AddPedestal (at_ : pnode) | AddLabel (path text : string) (at_ : V3).

(** The frames after the first: each turns with its joint as long as there are joint angles. *)
Fixpoint joint_frames (scale : R) (q : list R) (c : list (Link R)) : res (list pnode) :=
  match c with
  | [] => Ok []
  | l :: rest =>
    let? k := rpy_quat (li_rpy l) in
    let? k := match q with
              | [] => Ok k
              | a :: _ => let? t := axis_quat (li_axis l) a in Ok (quat_mul k t)
              end in
    let? xyz := vec3_of ValueError (li_xyz l) in
    let? fs := joint_frames scale (tail q) rest in
    Ok (PNode (vscale scale xyz) (xyzw_to_wxyz k) :: fs)
  end.

Definition pose_frames (scale : R) (q : list R) (c : list (Link R)) : res (list pnode) :=
  match c with
  | [] => Ok []
  | base :: rest =>
    let? b := joint_frames scale [] [base] in
    let? fs := joint_frames scale q rest in
    Ok (b ++ fs)
  end.

Definition set_visible (b : bool) (m : robot_model) : robot_model :=
  RobotModel (rm_root m) (rm_chain m) (rm_scale m) (rm_base m) b (rm_frames m).

(** [RobotModel.update]. *)
Definition model_update (q : list R) (m : robot_model) : res robot_model :=
  let? fs := pose_frames (rm_scale m) q (rm_chain m) in
  Ok (RobotModel (rm_root m) (rm_chain m) (rm_scale m) (rm_base m) (rm_visible m) fs).

Section scene.
(** Which files exist, and which meshes load at a decimation. *)
Context (is_file : string -> bool) (loads : string -> Z -> bool).

(** [_add_visual]: a mesh that does not load leaves its frame. *)
Definition add_visual (scale : R) (decimation : Z) (col : option (list Z)) (parent : string) (v : Visual R) :
    res (list addition) :=
  if negb (is_file (vi_mesh v)) then Ok []
  else
    let path := parent +:+ "/visual/" +:+ vi_name v in
    let? xyz := vec3_of ValueError (vi_xyz v) in
    let? k := rpy_quat (vi_rpy v) in
    Ok (AddFrame path (PNode (vscale scale xyz) (xyzw_to_wxyz k)) ::
        if loads (vi_mesh v) decimation
        then [AddMesh (path +:+ "/mesh") (vi_mesh v) col (Rmult scale <$> vi_scale v)]
        else []).

Definition link_str (l : Link R) : string := default "None" (li_name l).

(** The loop of the constructor: nested paths, and the parts of every link. *)
Fixpoint add_links (scale : R) (decimation : Z) (col : option (list Z)) (path : string) (c : list (Link R)) :
    res (list (string * list addition)) :=
  match c with
  | [] => Ok []
  | l :: rest =>
    let path := path +:+ "/" +:+ link_str l in
    let? parts := mapM_res (add_visual scale decimation col path) (visuals l) in
    let? more := add_links scale decimation col path rest in
    Ok ((path, concat parts) :: more)
  end.

(** [_add_gripper]: at the flange, if the chain has one. *)
Definition add_gripper (scale : R) (decimation : Z) (col : option (list Z)) (paths : list string) (c : list (Link R)) :
    res (list addition) :=
  let v := GRAV_GRIPPER_VISUAL in
  if negb (is_file (vi_mesh v)) then Ok []
  else
    match list_find (fun l => li_name l = Some "flange") c with
    | None => Ok []
    | Some (i, _) =>
      let? parent := of_option IndexError (paths !! i) in
      let path := parent +:+ "/visual/grav_gripper" in
      let? xyz := vec3_of ValueError (vi_xyz v) in
      let? k := rpy_quat (vi_rpy v) in
      if loads (vi_mesh v) decimation
      then Ok [AddFrame path (PNode (vscale scale xyz) (xyzw_to_wxyz k));
               AddMesh (path +:+ "/mesh") (vi_mesh v) col (Rmult scale <$> vi_scale v)]
      else Raise OtherError
    end.

(** [RobotModel.__init__]. *)
Definition new_model (root : string) (c : list (Link R)) (m : Mount) (col : option (list Z)) (scale : R)
    (decimation : Z) (gripper visible : bool) : res (robot_model * list addition) :=
  let decimation := Z.max 1 decimation in
  let? links := add_links scale decimation col root c in
  let? grip := (if gripper then add_gripper scale decimation col links.*1 c else Ok []) in
  let? r := model_update (repeat 0 7)
    (RobotModel root c scale (PNode (translation m) (xyzw_to_wxyz (quat_xyzw m))) visible []) in
  Ok (r, concat links.*2 ++ grip).

(** ** The scene *)

Record trace := Trace { tr_segments : list (V3 * V3); tr_visible : bool }.
Record point := Point { pt_at : V3; pt_visible : bool }.
Record cloud_handle := Cloud { ch_points : list V3; ch_colors : list (list f64); ch_visible : bool }.

Record robot_scene := RobotScene {
  rs_real : list (string * robot_model);
  rs_ghost : list (string * robot_model);
  rs_factr : list (string * robot_model);
  rs_target : list (string * robot_model);
  rs_stale : list (string * bool);
  rs_traces : list (string * trace);
  rs_tips : list (string * point);
  rs_depth : option cloud_handle;
  rs_frustums : list (string * pnode);
}.

Definition FACTR_MESH_DECIMATION_FACTOR : Z := 50.
Definition VISER_GHOST_COLOR (side : string) : list Z :=
  if String.eqb side "left" then [130; 190; 255]%Z else [255; 190; 140]%Z.
Definition VISER_FACTR_COLOR : list Z := [70; 235; 155]%Z.
Definition VISER_TARGET_COLOR : list Z := [168; 110; 255]%Z.

(** The chain of the leader model: without a usable description the follower's. *)
Definition factr_model_chain (chain : list (Link R)) (loaded : option (res (list (Link R)))) : list (Link R) * Z :=
  match loaded with
  | None => (chain, 1%Z)
  | Some c =>
    match (let? c := c in localize_factr_base_meshes c) with
    | Ok c => (c, FACTR_MESH_DECIMATION_FACTOR)
    | Raise _ => (chain, 1%Z)
    end
  end.

(** One iteration of the constructor's loop over the mounts. *)
Definition add_side (chain : list (Link R)) (factr_urdfs : string -> option (res (list (Link R))))
    (acc : robot_scene * list addition) (sm : string * Mount) : res (robot_scene * list addition) :=
  let '(s, adds) := acc in
  let '(side, m) := sm in
  let root := "/robot/" +:+ side in
  let? real := new_model (root +:+ "/measured") chain m (Some (ARM_COLOR side)) 1 1 true true in
  let? ghost := new_model (root +:+ "/command") chain m (Some (VISER_GHOST_COLOR side)) 1 1 true false in
  let? target := new_model (root +:+ "/target") chain m (Some VISER_TARGET_COLOR) 1 1 false false in
  let fc := factr_model_chain chain (factr_urdfs side) in
  let? fm := factr_mount side in
  let? factr := new_model (root +:+ "/factr") fc.1 fm (Some VISER_FACTR_COLOR) FACTR_LIVE_DISPLAY_SCALE fc.2 false false in
  Ok (RobotScene (dset side real.1 (rs_real s)) (dset side ghost.1 (rs_ghost s)) (dset side factr.1 (rs_factr s))
        (dset side target.1 (rs_target s)) (dset side true (rs_stale s)) (rs_traces s) (rs_tips s) (rs_depth s) (rs_frustums s),
      adds ++ real.2 ++ [AddLabel (root +:+ "/stale_warning") (str_upper side +:+ " · NO LIVE q") (vadd (translation m) (Vec 0 0 (18 / 100)))] ++
        ghost.2 ++ target.2 ++ factr.2).

(** [RobotScene.__init__]. *)
Definition new_robot_scene (chain : list (Link R)) (factr_urdfs : string -> option (res (list (Link R))))
    (pedestal : bool) : res (robot_scene * list addition) :=
  foldM_res (add_side chain factr_urdfs) MOUNTS
    (RobotScene [] [] [] [] [] [] [] None [],
     AddGrid :: if pedestal then [AddPedestal (PNode PED_TRANSLATION (xyzw_to_wxyz PED_QUAT_XYZW))] else []).

Definition with_real (f : list (string * robot_model) -> res (list (string * robot_model))) (s : robot_scene) : res robot_scene :=
  let? l := f (rs_real s) in
  Ok (RobotScene l (rs_ghost s) (rs_factr s) (rs_target s) (rs_stale s) (rs_traces s) (rs_tips s) (rs_depth s) (rs_frustums s)).
Definition with_ghost (f : list (string * robot_model) -> res (list (string * robot_model))) (s : robot_scene) : res robot_scene :=
  let? l := f (rs_ghost s) in
  Ok (RobotScene (rs_real s) l (rs_factr s) (rs_target s) (rs_stale s) (rs_traces s) (rs_tips s) (rs_depth s) (rs_frustums s)).
Definition with_factr (f : list (string * robot_model) -> res (list (string * robot_model))) (s : robot_scene) : res robot_scene :=
  let? l := f (rs_factr s) in
  Ok (RobotScene (rs_real s) (rs_ghost s) l (rs_target s) (rs_stale s) (rs_traces s) (rs_tips s) (rs_depth s) (rs_frustums s)).
Definition with_target (f : list (string * robot_model) -> res (list (string * robot_model))) (s : robot_scene) : res robot_scene :=
  let? l := f (rs_target s) in
  Ok (RobotScene (rs_real s) (rs_ghost s) (rs_factr s) l (rs_stale s) (rs_traces s) (rs_tips s) (rs_depth s) (rs_frustums s)).
Definition with_stale (f : list (string * bool) -> list (string * bool)) (s : robot_scene) : robot_scene :=
  RobotScene (rs_real s) (rs_ghost s) (rs_factr s) (rs_target s) (f (rs_stale s)) (rs_traces s) (rs_tips s) (rs_depth s) (rs_frustums s).
Definition with_marks (f : list (string * trace) -> list (string * trace)) (g : list (string * point) -> list (string * point))
    (s : robot_scene) : robot_scene :=
  RobotScene (rs_real s) (rs_ghost s) (rs_factr s) (rs_target s) (rs_stale s) (f (rs_traces s)) (g (rs_tips s)) (rs_depth s) (rs_frustums s).
Definition with_depth (d : option cloud_handle) (s : robot_scene) : robot_scene :=
  RobotScene (rs_real s) (rs_ghost s) (rs_factr s) (rs_target s) (rs_stale s) (rs_traces s) (rs_tips s) d (rs_frustums s).

(** [q is not None and np.asarray(q).size >= 7]. *)
Definition full_config (q : option (list R)) : bool :=
  match q with Some q => (7 <=? length q)%nat | None => false end.

(** One model of [update_followers]: always visible, posed when there is a configuration. *)
Definition follow (configs : by_side (list R)) (x : string * robot_model) : res (string * robot_model) :=
  let q := dget x.1 configs in
  let m := set_visible true x.2 in
  if full_config q then let? m := model_update (take 7 (default [] q)) m in Ok (x.1, m) else Ok (x.1, m).

Definition update_followers (configs : by_side (list R)) (s : robot_scene) : res robot_scene :=
  let? s := with_real (mapM_res (follow configs)) s in
  Ok (with_stale (fmap (fun x => (x.1, negb (full_config (dget x.1 configs))))) s).

(** One model shown only with a configuration: [update_commands], [update_factr], and the targets. *)
Definition show_if (configs : by_side (list R)) (x : string * robot_model) : res (string * robot_model) :=
  let q := dget x.1 configs in
  let m := set_visible (full_config q) x.2 in
  if full_config q then let? m := model_update (take 7 (default [] q)) m in Ok (x.1, m) else Ok (x.1, m).

Definition update_commands (configs : by_side (list R)) (s : robot_scene) : res robot_scene :=
  with_ghost (mapM_res (show_if configs)) s.
Definition update_factr (configs : by_side (list R)) (s : robot_scene) : res robot_scene :=
  with_factr (mapM_res (show_if configs)) s.

(** [zip(points[:-1], points[1:])]. *)
Definition segments_of (points : list V3) : list (V3 * V3) := zip points (tail points).

(** [_show_trace]. *)
Definition show_trace (side : string) (points : list V3) (tip : V3) (s : robot_scene) : robot_scene :=
  let s := with_marks (fun l => l) (dset side (Point tip true)) s in
  if (length points <? 2)%nat then s else with_marks (dset side (Trace (segments_of points) true)) (fun l => l) s.

(** [_hide_trace]. *)
Definition hide_trace (side : string) (s : robot_scene) : robot_scene :=
  with_marks (fun l => match dget side l with Some t => dset side (Trace (tr_segments t) false) l | None => l end)
    (fun l => match dget side l with Some p => dset side (Point (pt_at p) false) l | None => l end) s.

Section targets.
Context (chain : list (Link R)).   (* the chain [fk_world_eef] uses by default *)

Definition tip_of (side : string) (q : list R) : res V3 := view_fk chain side q.

(** The current end of the arm, if known. *)
Definition present_tip (side : string) (real_q real_eef : by_side (list R)) : res (list V3) :=
  match dget side real_eef, dget side real_q with
  | Some p, _ => let? v := mount_world_point side p in Ok [v]
  | None, Some q => let? v := tip_of side q in Ok [v]
  | None, None => Ok []
  end.

(** The points of the trace and its end. *)
Definition trace_points (side : string) (q : option (list R)) (path : option (list (list R))) (eef : option (list R))
    (now : list V3) : res (list V3 * V3) :=
  match path, q with
  | Some path, _ =>
    let? ps := mapM_res (fun row => tip_of side (take 7 row)) path in
    let? e := of_option IndexError (list.last (now ++ ps)) in Ok (now ++ ps, e)
  | None, Some q => let? e := tip_of side (take 7 q) in Ok (now ++ [e], e)
  | None, None =>
    let? p := of_option KeyError eef in
    let? e := mount_world_point side p in Ok (now ++ [e], e)
  end.

(** One iteration of [update_targets]. *)
Definition target_side (target_q real_q : by_side (list R)) (q_paths : by_side (list (list R)))
    (target_eef real_eef : by_side (list R)) (s : robot_scene) (side : string) : res robot_scene :=
  let? s := with_target (mapM_res (fun x => if String.eqb x.1 side then show_if target_q x else Ok x)) s in
  if dmem side target_q || dmem side target_eef then
    let? now := present_tip side real_q real_eef in
    let? pe := trace_points side (dget side target_q) (dget side q_paths) (dget side target_eef) now in
    Ok (show_trace side pe.1 pe.2 s)
  else Ok (hide_trace side s).

Definition update_targets (target_q real_q : by_side (list R)) (q_paths : by_side (list (list R)))
    (target_eef real_eef : by_side (list R)) (s : robot_scene) : res robot_scene :=
  foldM_res (target_side target_q real_q q_paths target_eef real_eef) (dkeys (rs_target s)) s.

Definition hide_models (l : list (string * robot_model)) : res (list (string * robot_model)) :=
  Ok ((fun x => (x.1, set_visible false x.2)) <$> l).

Definition clear_targets (s : robot_scene) : res robot_scene :=
  let? s := with_target hide_models s in
  Ok (foldl (fun s side => hide_trace side s) s (dkeys (rs_target s))).

(** [show_calibration]: the target of one side, posed as asked. *)
Definition calibrate_one (side : string) (q : list R) (x : string * robot_model) : res (string * robot_model) :=
  let m := set_visible (String.eqb x.1 side) x.2 in
  if String.eqb x.1 side then let? m := model_update (take 7 q) m in Ok (x.1, m) else Ok (x.1, m).

Definition show_calibration (side : string) (q : list R) (s : robot_scene) : res robot_scene :=
  with_target (mapM_res (calibrate_one side q)) s.

Definition clear_calibration (s : robot_scene) : res robot_scene := with_target hide_models s.

(** [update_depth]: every other point. *)
Fixpoint every_other {A} (l : list A) : list A :=
  match l with [] => [] | [x] => [x] | x :: _ :: l => x :: every_other l end.

Definition update_depth (c : option (list V3 * list (list f64))) (s : robot_scene) : robot_scene :=
  match c with
  | Some ((_ :: _) as points, colors) =>
      with_depth (Some (Cloud (every_other points) (every_other colors) true)) s
  | _ =>
      match rs_depth s with
      | Some d => with_depth (Some (Cloud (ch_points d) (ch_colors d) false)) s
      | None => s
      end
  end.

(** ** Cameras *)

(** What the viewer reads of a camera's configuration. *)
Record viewer_camera := ViewerCamera { vc_width : nat; vc_height : nat; vc_hfov : f64; vc_pose : CameraPose }.

(** The optical frame looks along +Z with +Y down, Viser's cameras along -Z with +Y up. *)
Definition optical_flip : M33 := Mat 1 0 0 0 (-1) 0 0 0 (-1).

(** [add_camera_frustum]. *)
Definition add_camera_frustum (name : string) (cam : viewer_camera) (s : robot_scene) : res robot_scene :=
  let? rt := camera_world_pose (vc_pose cam) in
  Ok (RobotScene (rs_real s) (rs_ghost s) (rs_factr s) (rs_target s) (rs_stale s) (rs_traces s) (rs_tips s) (rs_depth s)
        (dset name (PNode rt.2 (wxyz_from_rot (mmul rt.1 optical_flip))) (rs_frustums s))).

Definition DEPTH_STRIDE : nat := 4.

(** [_render_depth] of the consumer: the cloud of the first camera with both images and a valid
    depth, in the world. *)
Fixpoint depth_cloud (tan : f64 -> f64) (newest : list (string * (list f64 * Z))) (cams : list (string * viewer_camera)) :
    res (option (list V3 * list (list f64))) :=
  match cams with
  | [] => Ok None
  | (name, cam) :: cams =>
    match dget ("cam/" +:+ name +:+ "/left") newest, dget ("cam/" +:+ name +:+ "/depth") newest with
    | Some (rgb, _), Some (depth, _) =>
      let w := vc_width cam in
      let h := vc_height cam in
      if negb ((length rgb =? h * w * 3)%nat && (length depth =? h * w)%nat) then depth_cloud tan newest cams
      else
        let fx := fdiv (fdiv (f_of_Z (Z.of_nat w)) (f_of_Z 2)) (tan (fdiv (nradians (vc_hfov cam)) (f_of_Z 2))) in
        match cloud fx f32 w h DEPTH_STRIDE (f_of_Z 5) depth rgb with
        | [] => depth_cloud tan newest cams
        | pts =>
          let? rt := camera_world_pose (vc_pose cam) in
          let? ps := mapM_res (fun x => vec3_of ValueError (real_of <$> x.1)) pts in
          Ok (Some ((fun p => vadd (mvec rt.1 p) rt.2) <$> ps, pts.*2))
        end
    | _, _ => depth_cloud tan newest cams
    end
  end.

(** ** Drawing the calls of the consumer *)

(** [float] of a text, for configurations sent as JSON. *)
Context (float_of_str : string -> option f64).

Definition reals (l : list f64) : list R := real_of <$> l.
Definition reals_by (d : by_side (list f64)) : by_side (list R) := (fun x => (x.1, reals x.2)) <$> d.

Definition real_rows (p : list (list f64)) : list (list R) := List.map reals p.
Definition rows_by (d : by_side (list (list f64))) : by_side (list (list R)) := (fun x => (x.1, real_rows x.2)) <$> d.

Definition draw_call (s : robot_scene) (c : scene_call) : res robot_scene :=
  match c with
  | Followers q => update_followers (reals_by q) s
  | Commands q => update_commands (reals_by q) s
  | Factr q => update_factr (reals_by q) s
  | Targets tq rq paths te re =>
      update_targets (reals_by tq) (reals_by rq) (rows_by paths) (reals_by te) (reals_by re) s
  | ClearTargets => clear_targets s
  | NoDepth => Ok (update_depth None s)
  | ShowCalibration side q => let? a := asarray float_of_str q in show_calibration side (reals (data a)) s
  | ClearCalibration => clear_calibration s
  end.

Definition draw_calls (cs : list scene_call) (s : robot_scene) : res robot_scene := foldM_res draw_call cs s.
End targets.
End scene.

(** ** Where a robot is drawn *)

Definition node_frame (n : pnode) : rframe := (pn_position n, rot_of_quat (quat_of_wxyz (pn_wxyz n))).

(** Frames multiply down the scene. *)
Definition compose_nodes (l : list pnode) : rframe := foldr (fun n f => fcompose (node_frame n) f) (v0, eye) l.

Definition model_frame (i : nat) (m : robot_model) : rframe := compose_nodes (rm_base m :: take i (rm_frames m)).
Definition model_tip (m : robot_model) : rframe := model_frame (length (rm_chain m)) m.

(** A frame pushed away from the origin. *)
Definition scale_frame (k : R) (f : rframe) : rframe := (vscale k f.1, f.2).

(** The reference: the first links of the robot, the first of which does not turn. *)
Definition robot_frame (q : list R) (c : list (Link R)) : rframe :=
  match c with [] => (v0, eye) | base :: rest => fcompose (link_frame base) (chain_frame q rest) end.

Lemma scale_compose k f g : scale_frame k (fcompose f g) = fcompose (scale_frame k f) (scale_frame k g).
Proof. destruct f as [t r], g as [u r']. unfold scale_frame, fcompose. cbn. f_equal. mat. f_equal; ring. Qed.

Lemma scale_one f : scale_frame 1 f = f.
Proof. destruct f as [t r]. unfold scale_frame. cbn. f_equal. mat. f_equal; ring. Qed.

Lemma scale_id k : scale_frame k (v0, eye) = (v0, eye).
Proof. unfold scale_frame. cbn. f_equal. mat. f_equal; ring. Qed.

Lemma quat_of_wxyz_back q : quat_of_wxyz (xyzw_to_wxyz q) = q.
Proof. by destruct q. Qed.

Lemma joint_frames_ok s q c : Forall link_ok c ->
  exists fs, joint_frames s q c = Ok fs /\ length fs = length c /\
    forall i, compose_nodes (take i fs) = scale_frame s (chain_frame q (take i c)).
Proof.
  intros Hok. revert q. induction Hok as [|l c Hl _ IH]; intros q; cbn [joint_frames].
  { exists []. split_and!; [done..|]. intros i. rewrite !take_nil. symmetry. apply scale_id. }
  destruct (rpy_quat_ok l Hl) as (k & -> & Hk). cbn [res_bind].
  assert (exists k', (match q with [] => Ok k | a :: _ => let? t := axis_quat (li_axis l) a in Ok (quat_mul k t) end) = Ok k' /\
    rot_of_quat k' = match q with [] => (link_frame l).2 | a :: _ => mmul (link_frame l).2 (turn l a).2 end) as (k' & -> & Hk').
  { destruct q as [|a q]; [by eexists|]. destruct (axis_quat_ok l a Hl) as (t & -> & Ht).
    eexists. split; [reflexivity|]. by rewrite rot_of_quat_mul, Hk, Ht. }
  cbn [res_bind]. assert (vec3_of ValueError (li_xyz l) = Ok (link_frame l).1) as ->.
  { destruct Hl as ((a & b & d & Hx) & _). unfold link_frame, vlist. by rewrite Hx. }
  cbn [res_bind]. destruct (IH (tail q)) as (fs & -> & Hlen & Hfs). cbn [res_bind].
  eexists. split; [reflexivity|]. split; [cbn; lia|]. intros [|i].
  { cbn [take]. symmetry. apply scale_id. }
  cbn [take compose_nodes foldr]. fold (compose_nodes (take i fs)). rewrite Hfs.
  unfold node_frame. cbn [pn_position pn_wxyz]. rewrite quat_of_wxyz_back, Hk'.
  destruct q as [|a q]; cbn [tail chain_frame]; rewrite scale_compose; [done|].
  f_equal. unfold turn. rewrite compose_turn. done.
Qed.

Lemma pose_frames_ok s q c : Forall link_ok c ->
  exists fs, pose_frames s q c = Ok fs /\ length fs = length c /\
    forall i, compose_nodes (take i fs) = scale_frame s (robot_frame q (take i c)).
Proof.
  intros Hok. destruct c as [|base rest].
  { exists []. split_and!; [done..|]. intros i. rewrite !take_nil. symmetry. apply scale_id. }
  apply Forall_cons in Hok as [Hb Hr]. unfold pose_frames.
  destruct (joint_frames_ok s [] [base]) as (b & -> & Hbl & Hbf); [by constructor|]. cbn [res_bind].
  destruct (joint_frames_ok s q rest Hr) as (fs & -> & Hlen & Hfs). cbn [res_bind].
  destruct b as [|b [|]]; try done. specialize (Hbf 1%nat). cbn [take compose_nodes foldr chain_frame] in Hbf.
  rewrite !compose_id_r in Hbf.
  eexists. split; [reflexivity|]. split; [cbn; lia|]. intros [|i]; [symmetry; apply scale_id|].
  cbn [app take compose_nodes foldr robot_frame]. fold (compose_nodes (take i fs)). by rewrite Hfs, Hbf, scale_compose.
Qed.

(** A model posed at [q]: the same object with its frames in place. *)
Definition posed (q : list R) (m m' : robot_model) : Prop :=
  rm_root m' = rm_root m /\ rm_chain m' = rm_chain m /\ rm_scale m' = rm_scale m /\ rm_base m' = rm_base m /\
  rm_visible m' = rm_visible m /\
  forall i, model_frame i m' = fcompose (node_frame (rm_base m)) (scale_frame (rm_scale m) (robot_frame q (take i (rm_chain m)))).

Lemma model_update_ok q m : Forall link_ok (rm_chain m) -> exists m', model_update q m = Ok m' /\ posed q m m'.
Proof.
  intros Hok. unfold model_update. destruct (pose_frames_ok (rm_scale m) q _ Hok) as (fs & -> & _ & Hfs).
  eexists. split; [reflexivity|]. split_and!; try done. intros i. unfold model_frame.
  cbn [rm_base rm_frames compose_nodes foldr]. fold (compose_nodes (take i fs)). by rewrite Hfs.
Qed.

(** A point of a mesh under a visual, as the scene draws it below a frame: the visual's frame is
    scaled by the model, the vertices by the model and by the visual. *)
Definition vmul (a b : V3) : V3 := Vec (vx a * vx b) (vy a * vy b) (vz a * vz b).

Definition drawn_point (scale : R) (f : rframe) (v : Visual R) (p : V3) : V3 :=
  let rpy := vlist (vi_rpy v) in
  (fcompose f (fcompose (vscale scale (vlist (vi_xyz v)), rot_from_rpy (vx rpy) (vy rpy) (vz rpy))
     (vmul (vlist (Rmult scale <$> vi_scale v)) p, eye))).1.

(** a model drawn at a display scale is the robot itself, scaled about its mount.  Posing
    never fails on a description whose tuples have three entries; afterwards the frame of every link
    stands, seen from the mount, at the scaled position and the exact orientation of the reference
    chain, and every vertex of every part of that link at the scaled position it has in the
    unscaled robot: no part drifts off the link it belongs to. *)
Theorem scaled_model_uniform (m : robot_model) (q : list R)
    (Hok : Forall link_ok (rm_chain m)) :
  exists m', model_update q m = Ok m' /\
    forall i, let f := robot_frame q (take i (rm_chain m)) in
      model_frame i m' = fcompose (node_frame (rm_base m)) (scale_frame (rm_scale m) f) /\
      forall v p, vec3_list (vi_scale v) ->
        drawn_point (rm_scale m) (model_frame i m') v p =
        (fcompose (node_frame (rm_base m)) (vscale (rm_scale m) (place_point f v (vmul (vlist (vi_scale v)) p)), eye)).1.
Proof.
  destruct (model_update_ok q m Hok) as (m' & Hm' & _ & _ & _ & _ & _ & Hf). exists m'. split; [done|].
  intros i f. split; [apply Hf|]. intros v p (a & b & c & Hs). rewrite Hf. fold f.
  unfold drawn_point, place_point. rewrite Hs. rewrite <-compose_assoc.
  set (g := fcompose (scale_frame _ f) _). set (h := fcompose f _).
  enough (g = scale_frame (rm_scale m) h) as -> by (destruct h; reflexivity).
  unfold g, h. rewrite !scale_compose. f_equal. f_equal. unfold scale_frame. cbn [fst snd]. f_equal.
  destruct p. unfold vmul, vscale, vlist. cbn. f_equal; ring.
Qed.

Definition demo_link : Link R := MkLink (Some "link1") [0; 0; 1] [0; 0; 0] [0; 0; 1] None [].
Lemma demo_link_ok : Forall link_ok [demo_link; demo_link].
Proof. repeat constructor; by do 3 eexists. Qed.

Lemma scaled_model_uniform_witness :
  exists m', model_update [1] (RobotModel "r" [demo_link; demo_link] 2 (PNode v0 (1, 0, 0, 0)) true []) = Ok m'.
Proof.
  destruct (scaled_model_uniform (RobotModel "r" [demo_link; demo_link] 2 (PNode v0 (1, 0, 0, 0)) true []) [1] demo_link_ok)
    as (m' & H & _). exists m'. exact H.
Defined.

(** ** The scene stays in shape *)

Ltac scene_cbn := cbn [rs_real rs_ghost rs_factr rs_target rs_stale rs_traces rs_tips with_stale].

Section shape.
Context (chain : list (Link R)) (Hchain : Forall link_ok chain).

(** A robot of the follower's kind on a side's mount. *)
Definition arm_model (x : string * robot_model) : Prop :=
  exists m, mount_of x.1 = Ok m /\ rm_chain x.2 = chain /\ rm_scale x.2 = 1 /\
    node_frame (rm_base x.2) = (translation m, rot m).

(** The leader drawn beside a side: its own chain, at the display scale, on the leader's mount. *)
Definition leader_model (x : string * robot_model) : Prop :=
  Forall link_ok (rm_chain x.2) /\
  exists m, factr_mount x.1 = Ok m /\ rm_scale x.2 = FACTR_LIVE_DISPLAY_SCALE /\
    node_frame (rm_base x.2) = (translation m, rot m).

Record scene_ok (g : robot_scene) : Prop := {
  so_real : dkeys (rs_real g) = SIDES /\ Forall arm_model (rs_real g);
  so_ghost : dkeys (rs_ghost g) = SIDES /\ Forall arm_model (rs_ghost g);
  so_factr : dkeys (rs_factr g) = SIDES /\ Forall leader_model (rs_factr g);
  so_target : dkeys (rs_target g) = SIDES /\ Forall arm_model (rs_target g);
  so_stale : dkeys (rs_stale g) = SIDES;
}.

Lemma view_fk_frame side m q : mount_of side = Ok m ->
  view_fk chain side q = Ok (fcompose (translation m, rot m) (robot_frame q chain)).1.
Proof.
  intros Hm. unfold view_fk, fk_world_eef. rewrite Hm. cbn [res_bind].
  destruct chain as [|base rest]; [unfold robot_frame; by rewrite compose_id_r|].
  apply Forall_cons in Hchain as [Hb Hr]. cbn [res_bind fk_chain]. rewrite (advance_ok _ _ Hb). cbn [res_bind].
  rewrite (fk_rest_ok _ _ _ Hr). by rewrite <-compose_assoc.
Qed.

(** A model stands where the forward kinematics of [q] says. *)
Definition stands_at (side : string) (q : list R) (m : robot_model) : Prop :=
  view_fk chain side q = Ok (model_tip m).1.

Lemma posed_stands x q m' : arm_model x -> posed q x.2 m' -> stands_at x.1 q m'.
Proof.
  intros (m & Hm & Hc & Hs & Hb) (_ & Hc' & _ & _ & _ & Hf). unfold stands_at, model_tip.
  rewrite Hf, Hc', Hb, Hs, scale_one, take_ge, Hc by lia. by apply view_fk_frame.
Qed.

(** What an update does to one robot: it keeps its place, and is posed or left as it was. *)
Definition updated (vis : bool) (q : option (list R)) (x x' : string * robot_model) : Prop :=
  x'.1 = x.1 /\ rm_chain x'.2 = rm_chain x.2 /\ rm_scale x'.2 = rm_scale x.2 /\ rm_base x'.2 = rm_base x.2 /\
  rm_visible x'.2 = vis /\
  match q with Some q => posed q (set_visible vis x.2) x'.2 | None => rm_frames x'.2 = rm_frames x.2 end.

(** The configuration a robot is posed at. *)
Definition usable (q : option (list R)) : option (list R) := if full_config q then take 7 <$> q else None.

Lemma pose_if_ok vis (q : option (list R)) x : Forall link_ok (rm_chain x.2) ->
  exists x', (if full_config q then let? m := model_update (take 7 (default [] q)) (set_visible vis x.2) in Ok (x.1, m)
              else Ok (x.1, set_visible vis x.2)) = Ok x' /\ updated vis (usable q) x x'.
Proof.
  intros Hok. unfold usable. destruct (full_config q) eqn:E.
  - destruct (model_update_ok (take 7 (default [] q)) (set_visible vis x.2) Hok) as (m & -> & Hp).
    exists (x.1, m). split; [done|]. pose proof Hp as (_ & ? & ? & ? & ? & _). by destruct q.
  - eexists. split; [reflexivity|]. by split_and!.
Qed.

Lemma updated_keys vis q (l l' : list (string * robot_model)) :
  Forall2 (fun x x' => updated (vis x) (q x) x x') l l' -> dkeys l' = dkeys l.
Proof. induction 1 as [|x y l l' (H & _) _ IH]; [done|]. unfold dkeys in *. cbn. by rewrite IH, H. Qed.

Lemma updated_arm vis q l l' : Forall2 (fun x x' => updated (vis x) (q x) x x') l l' ->
  Forall arm_model l -> Forall arm_model l'.
Proof.
  induction 1 as [|x y l l' Hu _ IH]; [done|]. intros [Hx Hl]%Forall_cons. constructor; [|by apply IH].
  destruct Hu as (H1 & H2 & H3 & H4 & _), Hx as (m & ? & ? & ? & ?). exists m. by rewrite H1, H2, H3, H4.
Qed.

Lemma updated_leader vis q l l' : Forall2 (fun x x' => updated (vis x) (q x) x x') l l' ->
  Forall leader_model l -> Forall leader_model l'.
Proof.
  induction 1 as [|x y l l' (H1 & H2 & H3 & H4 & _) _ IH]; [done|]. intros [Hx Hl]%Forall_cons. constructor; [|by apply IH].
  unfold leader_model in *. by rewrite H1, H2, H3, H4.
Qed.

Lemma arm_links x : arm_model x -> Forall link_ok (rm_chain x.2).
Proof. by intros (m & _ & -> & _). Qed.

Lemma updated_get vis q (l l' : list (string * robot_model)) side m' :
  Forall2 (fun x x' => updated (vis x) (q x) x x') l l' -> dget side l' = Some m' ->
  exists m, dget side l = Some m /\ updated (vis (side, m)) (q (side, m)) (side, m) (side, m').
Proof.
  induction 1 as [|[k x] [k' y] l l' Hu _ IH]; [done|]. pose proof Hu as (E & _). cbn in E. subst k'. cbn [dget].
  destruct (decide (side = k)) as [->|]; [|done]. intros [= ->]. eauto.
Qed.

(** Only one group of objects changes. *)
Definition same_arms (g g' : robot_scene) : Prop := rs_real g' = rs_real g /\ rs_stale g' = rs_stale g.
Definition same_leaders (g g' : robot_scene) : Prop := rs_ghost g' = rs_ghost g /\ rs_factr g' = rs_factr g.

Lemma update_followers_ok cfg g : scene_ok g -> exists g', update_followers cfg g = Ok g' /\ scene_ok g' /\
  Forall2 (fun x x' => updated true (usable (dget x.1 cfg)) x x') (rs_real g) (rs_real g') /\
  rs_stale g' = (fun x => (x.1, negb (full_config (dget x.1 cfg)))) <$> rs_stale g /\
  same_leaders g g' /\ rs_target g' = rs_target g.
Proof.
  intros [[Hk Hr] ? ? ? ?]. unfold update_followers, with_real.
  destruct (mapM_res_total_rel (follow cfg) (fun x x' => updated true (usable (dget x.1 cfg)) x x') (rs_real g)) as (l & -> & Hl).
  { intros x Hx. rewrite Forall_forall in Hr. apply pose_if_ok, arm_links, Hr, Hx. }
  eexists. split; [reflexivity|]. split; [|done].
  split; scene_cbn; [split; [by rewrite (updated_keys _ _ _ _ Hl)|by apply (updated_arm _ _ _ _ Hl)]|done..|].
  unfold dkeys. by rewrite <-list_fmap_compose.
Qed.

Lemma show_if_ok cfg l : Forall (fun x => Forall link_ok (rm_chain x.2)) l ->
  exists l', mapM_res (show_if cfg) l = Ok l' /\
    Forall2 (fun x x' => updated (full_config (dget x.1 cfg)) (usable (dget x.1 cfg)) x x') l l'.
Proof. intros Hl. apply mapM_res_total_rel. intros x Hx. rewrite Forall_forall in Hl. apply pose_if_ok, Hl, Hx. Qed.

Lemma update_commands_ok cfg g : scene_ok g -> exists g', update_commands cfg g = Ok g' /\ scene_ok g' /\
  Forall2 (fun x x' => updated (full_config (dget x.1 cfg)) (usable (dget x.1 cfg)) x x') (rs_ghost g) (rs_ghost g') /\
  same_arms g g' /\ rs_factr g' = rs_factr g /\ rs_target g' = rs_target g.
Proof.
  intros [? [Hk Hr] ? ? ?]. unfold update_commands, with_ghost.
  destruct (show_if_ok cfg (rs_ghost g)) as (l & -> & Hl); [by eapply Forall_impl, arm_links|].
  eexists. split; [reflexivity|]. split; [|done].
  split; scene_cbn; [done|split; [by rewrite (updated_keys _ _ _ _ Hl)|by apply (updated_arm _ _ _ _ Hl)]|done..].
Qed.

Lemma update_factr_ok cfg g : scene_ok g -> exists g', update_factr cfg g = Ok g' /\ scene_ok g' /\
  Forall2 (fun x x' => updated (full_config (dget x.1 cfg)) (usable (dget x.1 cfg)) x x') (rs_factr g) (rs_factr g') /\
  same_arms g g' /\ rs_ghost g' = rs_ghost g /\ rs_target g' = rs_target g.
Proof.
  intros [? ? [Hk Hr] ? ?]. unfold update_factr, with_factr.
  destruct (show_if_ok cfg (rs_factr g)) as (l & -> & Hl); [by eapply Forall_impl; [exact Hr|intros x []]|].
  eexists. split; [reflexivity|]. split; [|done].
  split; scene_cbn; [done|done|split; [by rewrite (updated_keys _ _ _ _ Hl)|by apply (updated_leader _ _ _ _ Hl)]|done..].
Qed.

Lemma hide_trace_same side g : same_arms g (hide_trace side g) /\ same_leaders g (hide_trace side g) /\
  rs_target (hide_trace side g) = rs_target g.
Proof. done. Qed.

Lemma hide_traces_same l g : let g' := foldl (fun s side => hide_trace side s) g l in
  same_arms g g' /\ same_leaders g g' /\ rs_target g' = rs_target g.
Proof.
  revert g. induction l as [|x l IH]; intros g; [done|]. cbn. destruct (IH (hide_trace x g)) as ([] & [] & ?).
  destruct (hide_trace_same x g) as ([] & [] & ?). unfold same_arms, same_leaders. split_and!; congruence.
Qed.

(** Hiding the targets. *)
Lemma clear_targets_ok g : scene_ok g -> exists g', clear_targets g = Ok g' /\ scene_ok g' /\
  rs_target g' = (fun x => (x.1, set_visible false x.2)) <$> rs_target g /\ same_arms g g' /\ same_leaders g g'.
Proof.
  intros [? ? ? [Hk Hr] ?]. unfold clear_targets, with_target, hide_models. cbn [res_bind rs_target].
  set (g1 := RobotScene _ _ _ _ _ _ _ _ _). destruct (hide_traces_same (dkeys (rs_target g1)) g1) as ([Ha Hb] & [Hc Hd] & He).
  cbn [g1 rs_target] in *. eexists. split; [reflexivity|]. split; [|by split_and!].
  split; rewrite ?Ha, ?Hb, ?Hc, ?Hd, ?He; scene_cbn; try done.
  split; [unfold dkeys; by rewrite <-list_fmap_compose|]. apply Forall_fmap. eapply Forall_impl; [exact Hr|].
  intros x (m & ?). by exists m.
Qed.

Lemma side_mounted side : side ∈ SIDES -> exists m, mount_of side = Ok m.
Proof. intros [->|[->|[]%elem_of_nil]%elem_of_cons]%elem_of_cons; by eexists. Qed.

Section targets_ok.
Context (target_q real_q : by_side (list R)) (q_paths : by_side (list (list R))) (target_eef real_eef : by_side (list R)).
Context (Hpath : forall side p, dget side q_paths = Some p -> p <> []).
Context (Heef : forall side e, dget side target_eef = Some e -> (3 <= length e)%nat).
Context (Hreal : forall side e, dget side real_eef = Some e -> (3 <= length e)%nat).

Lemma world_point_ok side e : side ∈ SIDES -> (3 <= length e)%nat -> exists p, mount_world_point side e = Ok p.
Proof.
  intros (m & Hm)%side_mounted He. unfold mount_world_point. rewrite Hm. cbn [res_bind].
  destruct e as [|a [|b [|c e]]]; cbn in He; try lia. by eexists.
Qed.

Lemma tip_of_ok side q : side ∈ SIDES -> exists p, tip_of chain side q = Ok p.
Proof. intros (m & Hm)%side_mounted. unfold tip_of. rewrite (view_fk_frame _ _ _ Hm). by eexists. Qed.

Lemma present_tip_ok side : side ∈ SIDES -> exists l, present_tip chain side real_q real_eef = Ok l.
Proof.
  intros Hs. unfold present_tip. destruct (dget side real_eef) as [e|] eqn:E.
  - destruct (world_point_ok side e Hs (Hreal _ _ E)) as (p & ->). by eexists.
  - destruct (dget side real_q) as [q|]; [|by eexists]. destruct (tip_of_ok side q Hs) as (p & ->). by eexists.
Qed.

Lemma trace_points_ok side now : side ∈ SIDES -> dmem side target_q || dmem side target_eef = true ->
  exists pe, trace_points chain side (dget side target_q) (dget side q_paths) (dget side target_eef) now = Ok pe.
Proof.
  intros Hs Hm. unfold trace_points. destruct (dget side q_paths) as [path|] eqn:Ep.
  - destruct (mapM_res_ok (fun row => tip_of chain side (take 7 row)) path) as (ps & -> & Hl); [by intros; apply tip_of_ok|].
    apply Hpath in Ep. destruct path as [|r path]; [done|]. destruct ps as [|p ps]; [done|]. cbn [res_bind].
    rewrite last_app. destruct (list.last (p :: ps)) as [e|] eqn:El; [by eexists|]. by apply last_None in El.
  - destruct (dget side target_q) as [q|] eqn:Eq.
    + destruct (tip_of_ok side (take 7 q) Hs) as (e & ->). by eexists.
    + unfold dmem in Hm. rewrite Eq in Hm. cbn in Hm. destruct (dget side target_eef) as [e|] eqn:Ee; [|done].
      cbn [of_option res_bind]. destruct (world_point_ok side e Hs (Heef _ _ Ee)) as (p & ->). by eexists.
Qed.

(** The targets after one side: that one updated, the other untouched. *)
Definition one_updated (side : string) (x x' : string * robot_model) : Prop :=
  if String.eqb x.1 side
  then updated (full_config (dget side target_q)) (usable (dget side target_q)) x x' else x' = x.

Lemma one_updated_lists side l l' : Forall2 (one_updated side) l l' ->
  dkeys l' = dkeys l /\ (Forall arm_model l -> Forall arm_model l') /\
  (forall k m', dget k l' = Some m' -> exists m, dget k l = Some m /\ one_updated side (k, m) (k, m')).
Proof.
  induction 1 as [|[k x] [k' y] l l' Hu _ (IH1 & IH2 & IH3)]; [done|].
  assert (k' = k) as -> by (unfold one_updated in Hu; destruct (String.eqb _ _); [by destruct Hu|by injection Hu]).
  split_and!.
  - unfold dkeys in *. cbn. by rewrite IH1.
  - intros [Hx Hl]%Forall_cons. constructor; [|by apply IH2]. unfold one_updated in Hu.
    destruct (String.eqb _ _); [|by rewrite Hu].
    destruct Hu as (H1 & H2 & H3 & H4 & _), Hx as (m & ? & ? & ? & ?). exists m. by rewrite H1, H2, H3, H4.
  - intros k1 m1. cbn [dget]. destruct (decide (k1 = k)) as [->|]; [|by apply IH3]. intros [= ->]. eauto.
Qed.

Lemma target_side_ok side g : scene_ok g -> side ∈ SIDES ->
  exists g', target_side chain target_q real_q q_paths target_eef real_eef g side = Ok g' /\ scene_ok g' /\
    Forall2 (one_updated side) (rs_target g) (rs_target g') /\ same_arms g g' /\ same_leaders g g'.
Proof.
  intros [? ? ? [Hk Hr] ?] Hs. unfold target_side, with_target.
  destruct (mapM_res_total_rel (fun x => if String.eqb x.1 side then show_if target_q x else Ok x) (one_updated side) (rs_target g))
    as (l & -> & Hl).
  { intros x Hx. unfold one_updated. destruct (String.eqb_spec x.1 side) as [<-|]; [|by eexists].
    rewrite Forall_forall in Hr. apply pose_if_ok, arm_links, Hr, Hx. }
  cbn [res_bind]. pose proof (one_updated_lists _ _ _ Hl) as (Hk' & Ha & _).
  destruct (_ || _) eqn:Em.
  - destruct (present_tip_ok side Hs) as (now & ->). cbn [res_bind].
    destruct (trace_points_ok side now Hs Em) as (pe & ->). cbn [res_bind]. eexists. split; [reflexivity|].
    unfold show_trace. destruct (_ <? 2)%nat; (split; [|done]); split; scene_cbn; try done; (split; [exact (eq_trans Hk' Hk)|by apply Ha]).
  - eexists. split; [reflexivity|]. split; [|done]. split; scene_cbn; try done. split; [exact (eq_trans Hk' Hk)|by apply Ha].
Qed.

Lemma update_targets_ok g : scene_ok g ->
  exists g', update_targets chain target_q real_q q_paths target_eef real_eef g = Ok g' /\ scene_ok g' /\
    same_arms g g' /\ same_leaders g g' /\
    forall side m', dget side (rs_target g') = Some m' -> exists m, dget side (rs_target g) = Some m /\
      updated (full_config (dget side target_q)) (usable (dget side target_q)) (side, m) (side, m').
Proof.
  intros Hok. unfold update_targets. rewrite (proj1 (so_target _ Hok)). unfold SIDES. cbn [foldM_res].
  destruct (target_side_ok "left" g Hok) as (g1 & -> & Hok1 & Hl & Ha1 & Hb1); [by left|]. cbn [res_bind].
  destruct (target_side_ok "right" g1 Hok1) as (g2 & -> & Hok2 & Hr & Ha2 & Hb2); [right; by left|]. cbn [res_bind].
  exists g2. split_and!; [done|done| | |].
  - destruct Ha1, Ha2. split; congruence.
  - destruct Hb1, Hb2. split; congruence.
  - intros side m2 H2. destruct (proj2 (proj2 (one_updated_lists _ _ _ Hr)) _ _ H2) as (m1 & H1 & Hu2).
    destruct (proj2 (proj2 (one_updated_lists _ _ _ Hl)) _ _ H1) as (m & H & Hu1). exists m. split; [done|].
    unfold one_updated in *. cbn [fst] in *.
    assert (side ∈ SIDES) as Hs. { rewrite <-(proj1 (so_target _ Hok)). by eapply dget_key. }
    apply elem_of_cons in Hs as [->|Hs]; [cbn in Hu1, Hu2; by injection Hu2 as ->|].
    apply elem_of_cons in Hs as [->|[]%elem_of_nil]. cbn in Hu1, Hu2. by injection Hu1 as ->.
Qed.
End targets_ok.
End shape.

(** ** What a tick of the consumer shows *)

Lemma dget_fmap_snd {A B} (f : A -> B) k (d : list (string * A)) :
  dget k ((fun x => (x.1, f x.2)) <$> d) = f <$> dget k d.
Proof. induction d as [|[k' v] d IH]; [done|]. cbn. by destruct (decide (k = k')). Qed.

Lemma dget_per_side k stream n keep side : side ∈ SIDES ->
  dget side (per_side k stream n keep) =
  match dget (stream side) (sn_newest k) with Some (v, t) => if keep t then Some (take n v) else None | None => None end.
Proof.
  unfold per_side, SIDES. intros [->|[->|[]%elem_of_nil]%elem_of_cons]%elem_of_cons; cbn [omap list_omap];
    destruct (dget (stream "left") _) as [[v t]|], (dget (stream "right") _) as [[v' t']|];
    try destruct (keep t); try destruct (keep t'); done.
Qed.

(** The configuration a stream holds, if its newest sample may be used. *)
Definition held_config (k : scene) (stream : string) (keep : Z -> bool) : option (list R) :=
  match dget stream (sn_newest k) with
  | Some (v, t) => if keep t && (7 <=? length v)%nat then Some (reals (take 7 v)) else None
  | None => None
  end.

Lemma usable_held k stream keep side : side ∈ SIDES ->
  usable (dget side (reals_by (per_side k stream 7 keep))) = held_config k (stream side) keep.
Proof.
  intros Hs. unfold reals_by. rewrite dget_fmap_snd, dget_per_side by done. unfold held_config, usable.
  destruct (dget _ _) as [[v t]|]; [|done]. destruct (keep t); [|done]. cbn [fmap option_fmap option_map full_config andb].
  unfold reals. rewrite length_fmap, length_take.
  destruct (Nat.leb_spec 7 (length v)); destruct (Nat.leb_spec 7 (7 `min` length v)); try lia; [|done].
  rewrite take_ge; [done|]. rewrite length_fmap, length_take. lia.
Qed.

Lemma full_usable q : full_config q = match usable q with Some _ => true | None => false end.
Proof. unfold usable. destruct q as [q|]; [|done]. by destruct (full_config (Some q)). Qed.

(** A robot shown at the configuration, or not shown. *)
Definition shown_at (chain : list (Link R)) (side : string) (q : option (list R)) (l : list (string * robot_model)) : Prop :=
  exists m, dget side l = Some m /\
    match q with Some q => rm_visible m = true /\ stands_at chain side q m | None => rm_visible m = false end.

Section tick.
Context (chain : list (Link R)) (Hchain : Forall link_ok chain) (float_of_str : string -> option f64).

Lemma listed_get side (l : list (string * robot_model)) : dkeys l = SIDES -> side ∈ SIDES -> exists m, dget side l = Some m.
Proof.
  intros Hk Hs. destruct (dget side l) eqn:E; [by eexists|]. apply dget_None in E. by rewrite Hk in E.
Qed.

Lemma updated_shown side q m m' : arm_model chain (side, m) ->
  updated (full_config q) (usable q) (side, m) (side, m') ->
  match usable q with Some q => rm_visible m' = true /\ stands_at chain side q m' | None => rm_visible m' = false end.
Proof.
  intros Ha (_ & _ & _ & _ & Hv & Hq). cbn [snd] in Hv. rewrite Hv, full_usable. destruct (usable q) as [q'|]; [|done]. split; [done|].
  eapply (posed_stands chain Hchain (side, set_visible _ m)); [|exact Hq]. destruct Ha as (mt & ?). by exists mt.
Qed.

Lemma get_arm side l m : Forall (arm_model chain) l -> dget side l = Some m -> arm_model chain (side, m).
Proof. rewrite Forall_forall. intros H Hg%dget_In. by apply H. Qed.

Lemma all_shown side l l' (cfg : by_side (list R)) : dkeys l = SIDES -> Forall (arm_model chain) l ->
  Forall2 (fun x x' => updated (full_config (dget x.1 cfg)) (usable (dget x.1 cfg)) x x') l l' -> side ∈ SIDES ->
  shown_at chain side (usable (dget side cfg)) l'.
Proof.
  intros Hk Ha Hu Hs. assert (dkeys l' = SIDES) as Hk' by (by rewrite (updated_keys _ _ _ _ Hu)).
  destruct (listed_get side l' Hk' Hs) as (m' & Hm'). exists m'. split; [done|].
  destruct (updated_get _ _ _ _ _ _ Hu Hm') as (m & Hm & Hq). eapply updated_shown; [|exact Hq]. by eapply get_arm.
Qed.

(** Every link of a leader model stands where the forward kinematics of its own chain puts it, drawn
    at the display scale from the leader's mount. *)
Definition leader_stands (side : string) (q : list R) (c : list (Link R)) (m : robot_model) : Prop :=
  exists fm, factr_mount side = Ok fm /\
    forall i, model_frame i m =
      fcompose (translation fm, rot fm) (scale_frame FACTR_LIVE_DISPLAY_SCALE (robot_frame q (take i c))).

Lemma leader_view side l l' (cfg : by_side (list R)) : dkeys l = SIDES -> Forall leader_model l ->
  Forall2 (fun x x' => updated (full_config (dget x.1 cfg)) (usable (dget x.1 cfg)) x x') l l' -> side ∈ SIDES ->
  exists m0 m, dget side l = Some m0 /\ dget side l' = Some m /\
    match usable (dget side cfg) with
    | Some q => rm_visible m = true /\ leader_stands side q (rm_chain m0) m
    | None => rm_visible m = false
    end.
Proof.
  intros Hk Ha Hu Hs. assert (dkeys l' = SIDES) as Hk' by (by rewrite (updated_keys _ _ _ _ Hu)).
  destruct (listed_get side l' Hk' Hs) as (m & Hm). destruct (updated_get _ _ _ _ _ _ Hu Hm) as (m0 & Hm0 & Hq).
  exists m0, m. split_and!; [done..|]. destruct Hq as (_ & _ & _ & _ & Hv & Hp). cbn [fst snd] in Hv, Hp.
  rewrite Hv, full_usable. destruct (usable _) as [q|]; [|done]. split; [done|].
  rewrite Forall_forall in Ha. destruct (Ha _ (dget_In _ _ _ Hm0)) as (_ & fm & Hfm & Hsc & Hb). cbn [fst snd] in Hfm, Hsc, Hb.
  exists fm. split; [done|]. intros i. destruct Hp as (_ & _ & _ & _ & _ & ->). cbn. by rewrite Hb, Hsc.
Qed.

(** What the operator sees of one side after a tick. *)
Record side_view (k : scene) (fresh : Z -> bool) (rollout : bool) (g g' : robot_scene) (side : string) : Prop := {
  sv_arm : exists m, dget side (rs_real g') = Some m /\ rm_visible m = true /\
    match held_config k (JOINT_POS_STREAM side) any_age with
    | Some q => dget side (rs_stale g') = Some false /\ stands_at chain side q m
    | None => dget side (rs_stale g') = Some true /\
        exists m0, dget side (rs_real g) = Some m0 /\ rm_frames m = rm_frames m0
    end;
  sv_command : shown_at chain side (held_config k (factr_stream_name side) fresh) (rs_ghost g');
  sv_leader : exists m0 m, dget side (rs_factr g) = Some m0 /\ dget side (rs_factr g') = Some m /\
    match held_config k (factr_telemetry_stream_name side "model_q_rad") fresh with
    | Some q => rm_visible m = true /\ leader_stands side q (rm_chain m0) m
    | None => rm_visible m = false
    end;
  sv_target : shown_at chain side (if rollout then held_config k (HORIZON_STREAM side) any_age else None) (rs_target g');
}.

Lemma arm_view side (g g1 : robot_scene) cfg : scene_ok chain g -> side ∈ SIDES ->
  Forall2 (fun x x' => updated true (usable (dget x.1 cfg)) x x') (rs_real g) (rs_real g1) ->
  rs_stale g1 = (fun x => (x.1, negb (full_config (dget x.1 cfg)))) <$> rs_stale g ->
  exists m, dget side (rs_real g1) = Some m /\ rm_visible m = true /\
    match usable (dget side cfg) with
    | Some q => dget side (rs_stale g1) = Some false /\ stands_at chain side q m
    | None => dget side (rs_stale g1) = Some true /\
        exists m0, dget side (rs_real g) = Some m0 /\ rm_frames m = rm_frames m0
    end.
Proof.
  intros Hok Hs Hu Hst. destruct (so_real _ _ Hok) as [Hk Ha].
  destruct (listed_get side (rs_real g1)) as (m' & Hm'); [by rewrite (updated_keys _ _ _ _ Hu)|done|].
  destruct (updated_get _ _ _ _ _ _ Hu Hm') as (m & Hm & Hq). pose proof Hq as (_ & _ & _ & _ & Hv & Hp). cbn in Hv.
  exists m'. split_and!; [done|done|].
  assert (dget side (rs_stale g1) = Some (negb (full_config (dget side cfg)))) as ->.
  { rewrite Hst. pose proof (so_stale _ _ Hok) as Hks. clear -Hks Hs.
    assert (side ∈ dkeys (rs_stale g)) as Hin by (by rewrite Hks). clear Hks. revert Hin.
    induction (rs_stale g) as [|[k b] l IH]; [by intros ?%elem_of_nil|]. intros [Heq|Hin]%elem_of_cons; cbn.
    - cbn in Heq. subst k. by rewrite decide_True.
    - destruct (decide (side = k)) as [->|]; [done|]. by apply IH. }
  rewrite full_usable. cbn [fst] in Hp. destruct (usable _) as [q|]; (split; [done|]).
  - eapply (posed_stands chain Hchain (side, set_visible true m)); [|exact Hp].
    destruct (get_arm _ _ _ Ha Hm) as (mt & ?). by exists mt.
  - by exists m.
Qed.

Lemma eef_long k stream side e : (forall v t, dget (stream side) (sn_newest k) = Some (v, t) -> (3 <= length v)%nat) ->
  side ∈ SIDES -> dget side (reals_by (per_side k stream 3 any_age)) = Some e -> (3 <= length e)%nat.
Proof.
  intros Hl Hs. unfold reals_by. rewrite dget_fmap_snd, dget_per_side by done.
  destruct (dget _ _) as [[v t]|]; [|done]. cbn. intros [= <-]. unfold reals. rewrite length_fmap, length_take.
  specialize (Hl v t eq_refl). lia.
Qed.

Lemma per_side_sides k stream n keep side e : dget side (reals_by (per_side k stream n keep)) = Some e -> side ∈ SIDES.
Proof.
  unfold reals_by. rewrite dget_fmap_snd. destruct (dget side (per_side _ _ _ _)) as [v|] eqn:E; [|done]. intros _.
  apply dget_In in E. unfold per_side in E. apply list_elem_of_omap in E as (s & Hs & E).
  destruct (dget (stream s) _) as [[v' t]|]; [|done]. destruct (keep t); [|done]. by injection E as <- <-.
Qed.

(** Every number a stream holds is finite. *)
Definition finite_streams (k : scene) : Prop :=
  forall stream v ts, dget stream (sn_newest k) = Some (v, ts) -> Forall (fun x => is_finite x = true) v.

(** C22: the 3D view shows what the streams say.  After every tick of the consumer, on a scene
    built for the robot's description and with finite samples, the drawing succeeds, and for each
    side: the measured arm is visible, and stands at the forward kinematics of the newest joint
    positions, of whatever age, or, without seven of them, keeps its last pose under a visible
    warning; the operator's command is drawn exactly when its sample is fresh enough and complete, at
    its forward kinematics; the leader is drawn exactly when its sample is, every link of it at the
    forward kinematics of the leader's own chain, at the display scale on the leader's mount; and a
    policy target is drawn only during a rollout, from the newest row of any age. *)
Theorem viewer_shows_streams (max_age_s : f64) (t : viewer_tick) (k k' : scene) (g : robot_scene)
    (Hg : scene_ok chain g) (Hr : render_scene max_age_s t k = Ok k') (Hfin : finite_streams k)
    (Hpaths : forall side p, dget side (sn_paths k) = Some p -> p <> [])
    (Heef : forall side v ts, side ∈ SIDES -> dget (side +:+ "/eef") (sn_newest k) = Some (v, ts) -> (3 <= length v)%nat)
    (Hteef : forall side v ts, side ∈ SIDES -> dget (EEF_HORIZON_STREAM side) (sn_newest k) = Some (v, ts) -> (3 <= length v)%nat) :
  exists cs phase g', vw_calls (sn_view k') = vw_calls (sn_view k) ++ cs /\ drawn_phase (vt_state t) = Ok phase /\
    draw_calls chain float_of_str cs g = Ok g' /\ scene_ok chain g' /\
    forall side, side ∈ SIDES ->
      side_view k (fun stamp => within_age (vt_ns t) stamp max_age_s) (draws_targets phase) g g' side.
Proof.
  unfold render_scene in Hr. destruct (drawn_phase _) as [phase|]; [|done]. injection Hr as <-. cbn [sn_view vw_calls call_scene].
  set (fresh := fun stamp => within_age _ stamp _).
  eexists _, phase. unfold draw_calls. cbn [foldM_res draw_call].
  destruct (update_followers_ok chain Hchain (reals_by (per_side k JOINT_POS_STREAM 7 any_age)) g Hg)
    as (g1 & H1 & Hg1 & Hreal & Hst & [Hgh1 Hfa1] & Hta1).
  destruct (update_commands_ok chain Hchain (reals_by (per_side k factr_stream_name 7 fresh)) g1 Hg1)
    as (g2 & H2 & Hg2 & Hghost & [Hre2 Hst2] & Hfa2 & Hta2).
  destruct (update_factr_ok chain (reals_by (per_side k (fun side => factr_telemetry_stream_name side "model_q_rad") 7 fresh)) g2 Hg2)
    as (g3 & H3 & Hg3 & Hfactr & [Hre3 Hst3] & Hgh3 & Hta3).
  assert (exists g', draw_call chain float_of_str g3 (if draws_targets phase
      then Targets (per_side k HORIZON_STREAM 7 any_age) (per_side k JOINT_POS_STREAM 7 any_age) (sn_paths k)
             (per_side k EEF_HORIZON_STREAM 3 any_age) (per_side k (fun side => side +:+ "/eef") 3 any_age)
      else ClearTargets) = Ok g' /\ scene_ok chain g' /\ same_arms g3 g' /\ same_leaders g3 g' /\
      forall side, side ∈ SIDES ->
        shown_at chain side (if draws_targets phase then held_config k (HORIZON_STREAM side) any_age else None) (rs_target g'))
    as (g' & H4 & Hg' & [Hre4 Hst4] & [Hgh4 Hfa4] & Htarget).
  { destruct (draws_targets phase).
    - edestruct (update_targets_ok chain Hchain) as (g' & H4 & Hg' & Ha & Hb & Hu); [..|exact Hg3|].
      4: { exists g'. split; [exact H4|]. split_and!; [done..|]. intros side Hs.
           destruct (listed_get side (rs_target g') (proj1 (so_target _ _ Hg')) Hs) as (m' & Hm').
           exists m'. split; [done|]. destruct (Hu side m' Hm') as (m & Hm & Hq). rewrite <-usable_held by done.
           eapply updated_shown; [|exact Hq]. eapply get_arm; [exact (proj2 (so_target _ _ Hg3))|exact Hm]. }
      + intros side p. unfold rows_by. rewrite dget_fmap_snd. destruct (dget side (sn_paths k)) as [l|] eqn:E; [|done]. intros [= <-].
        apply Hpaths in E. by destruct l.
      + intros side e He. eapply eef_long; [|by eapply per_side_sides|exact He]. intros. eapply Hteef; [by eapply per_side_sides|done].
      + intros side e He. eapply eef_long; [|by eapply per_side_sides|exact He]. intros. eapply Heef; [by eapply per_side_sides|done].
    - destruct (clear_targets_ok chain g3 Hg3) as (g' & H4 & Hg' & Ht & Ha & Hb). exists g'. split; [exact H4|].
      split_and!; [done..|]. intros side Hs.
      destruct (listed_get side (rs_target g3) (proj1 (so_target _ _ Hg3)) Hs) as (m & Hm).
      exists (set_visible false m). split; [|done]. rewrite Ht, dget_fmap_snd, Hm. done. }
  exists g'. split; [reflexivity|]. split; [done|]. split.
  { unfold draw_calls. cbn [foldM_res draw_call]. rewrite H1. cbn [res_bind]. rewrite H2. cbn [res_bind]. rewrite H3. cbn [res_bind].
    rewrite H4. done. }
  split; [done|]. intros side Hs. split.
  - rewrite Hre4, Hre3, Hre2, Hst4, Hst3, Hst2, <-usable_held by done. by apply arm_view.
  - rewrite Hgh4, Hgh3, <-usable_held by done. destruct (so_ghost _ _ Hg1) as [Hgk Hga]. by apply (all_shown side _ _ _ Hgk Hga Hghost).
  - rewrite Hfa4, <-Hfa1, <-Hfa2, <-(usable_held k (fun s => factr_telemetry_stream_name s "model_q_rad")) by done.
    destruct (so_factr _ _ Hg2) as [Hfk Hfa]. by apply (leader_view side _ _ _ Hfk Hfa Hfactr).
  - by apply Htarget.
Qed.
End tick.

Section built.
Context (is_file : string -> bool) (loads : string -> Z -> bool).

Lemma new_model_base root c m col scale dec grip vis x : new_model is_file loads root c m col scale dec grip vis = Ok x ->
  rm_chain x.1 = c /\ rm_scale x.1 = scale /\ rm_base x.1 = PNode (translation m) (xyzw_to_wxyz (quat_xyzw m)) /\ rm_visible x.1 = vis.
Proof. unfold new_model, model_update. intros H. by res_simp. Qed.

Lemma mount_node side m : mount_of side = Ok m ->
  node_frame (PNode (translation m) (xyzw_to_wxyz (quat_xyzw m))) = (translation m, rot m).
Proof. intros [_ Hm]%mount_of_consistent. unfold node_frame. cbn [pn_position pn_wxyz]. by rewrite quat_of_wxyz_back, Hm. Qed.

Lemma new_arm_model side m root chain col dec grip vis x : mount_of side = Ok m ->
  new_model is_file loads root chain m col 1 dec grip vis = Ok x -> arm_model chain (side, x.1).
Proof.
  intros Hm (Hc & Hs & Hb & _)%new_model_base. exists m. cbn [fst snd]. rewrite Hc, Hs, Hb. split_and!; [done..|].
  by eapply mount_node.
Qed.

(** A leader description that is used has three-entry tuples. *)
Definition leader_chains_ok (chain : list (Link R)) (urdfs : string -> option (res (list (Link R)))) : Prop :=
  forall side, Forall link_ok (factr_model_chain chain (urdfs side)).1.

(** What one iteration of the constructor adds. *)
Lemma add_side_ok chain urdfs s adds side m x : leader_chains_ok chain urdfs -> mount_of side = Ok m ->
  add_side is_file loads chain urdfs (s, adds) (side, m) = Ok x ->
  exists real ghost factr target,
    rs_real x.1 = dset side real (rs_real s) /\ rs_ghost x.1 = dset side ghost (rs_ghost s) /\
    rs_factr x.1 = dset side factr (rs_factr s) /\ rs_target x.1 = dset side target (rs_target s) /\
    rs_stale x.1 = dset side true (rs_stale s) /\
    arm_model chain (side, real) /\ arm_model chain (side, ghost) /\ arm_model chain (side, target) /\
    leader_model (side, factr) /\ rm_visible ghost = false /\ rm_visible factr = false /\ rm_visible target = false.
Proof.
  intros Hl Hm H. unfold add_side in H. res_simp. scene_cbn. cbn [fst].
  do 4 eexists. do 5 (split; [reflexivity|]).
  split_and!; try (by eapply new_arm_model); try (by eapply new_model_base).
  unfold leader_model. cbn [fst snd].
  match goal with H : new_model _ _ _ (factr_model_chain _ _).1 ?fm _ _ _ _ _ = Ok _, F : factr_mount _ = Ok ?fm |- _ =>
    apply new_model_base in H as (-> & -> & -> & _); split; [apply Hl|exists fm; split_and!; [exact F|reflexivity|]];
    destruct (factr_mount_consistent _ _ F) as [_ Hrot] end.
  unfold node_frame. cbn [pn_position pn_wxyz]. by rewrite quat_of_wxyz_back, Hrot.
Qed.

(** The scene the constructor builds is in shape, with nothing but the measured arms visible and
    both of them marked as having no data. *)
Lemma new_robot_scene_ok chain urdfs pedestal x : leader_chains_ok chain urdfs ->
  new_robot_scene is_file loads chain urdfs pedestal = Ok x ->
  scene_ok chain x.1 /\ rs_stale x.1 = [("left", true); ("right", true)] /\
  Forall (fun y => rm_visible y.2 = false) (rs_ghost x.1 ++ rs_factr x.1 ++ rs_target x.1).
Proof.
  intros Hl. unfold new_robot_scene, MOUNTS. cbn [foldM_res].
  destruct (add_side _ _ _ _ _ (_, mount (-1) _)) as [[s1 a1]|] eqn:E1; [|done]. cbn [res_bind].
  destruct (add_side _ _ _ _ (s1, a1) _) as [x2|] eqn:E2; [|done]. cbn [res_bind]. intros [= <-].
  apply add_side_ok in E1 as (r & gh & f & tg & Hr & Hg & Hf & Ht & Hst & A1 & A2 & A3 & A4 & V1 & V2 & V3); [|done|done].
  apply add_side_ok in E2 as (r' & gh' & f' & tg' & Hr' & Hg' & Hf' & Ht' & Hst' & B1 & B2 & B3 & B4 & W1 & W2 & W3); [|done|done].
  cbn in Hr, Hg, Hf, Ht, Hst. rewrite Hr in Hr'. rewrite Hg in Hg'. rewrite Hf in Hf'. rewrite Ht in Ht'. rewrite Hst in Hst'.
  cbn in Hr', Hg', Hf', Ht', Hst'. split_and!.
  - split; rewrite ?Hr', ?Hg', ?Hf', ?Ht', ?Hst'; try done; (split; [done|by repeat (first [assumption|constructor])]).
  - done.
  - rewrite Hg', Hf', Ht'. cbn. by repeat constructor.
Qed.
End built.

(** ** Findings *)

Section findings.
Context (chain : list (Link R)) (Hchain : Forall link_ok chain) (float_of_str : string -> option f64).

(** The reference pose the operator is asked to strike is not seen: the command makes the target
    of the side visible, and the tick that executes it, outside a rollout, ends with every target
    hidden, since the consumer clears the targets after it has drained the commands. *)
Lemma calibration_target_hidden (max_age_s : f64) (t : viewer_tick) (k k' : scene) (g : robot_scene) (phase : json)
    (side : string) (q : list R)
    (Hg : scene_ok chain g) (Hs : side ∈ SIDES) (Hr : render_scene max_age_s t k = Ok k')
    (Hp : drawn_phase (vt_state t) = Ok phase) (Hroll : draws_targets phase = false) :
  exists g1 cs g2, show_calibration side q g = Ok g1 /\
    (exists m, dget side (rs_target g1) = Some m /\ rm_visible m = true) /\
    vw_calls (sn_view k') = vw_calls (sn_view k) ++ cs /\ draw_calls chain float_of_str cs g1 = Ok g2 /\
    Forall (fun x => rm_visible x.2 = false) (rs_target g2).
Proof.
  assert (exists g1, show_calibration side q g = Ok g1 /\ scene_ok chain g1 /\
    exists m, dget side (rs_target g1) = Some m /\ rm_visible m = true) as (g1 & H1 & Hg1 & Hvis).
  { destruct Hg as [? ? ? [Hk Ha] ?]. unfold show_calibration, with_target.
    destruct (mapM_res_total_rel (calibrate_one side q)
      (fun x x' => updated (String.eqb x.1 side) (if String.eqb x.1 side then Some (take 7 q) else None) x x') (rs_target g))
      as (l & -> & Hl).
    { intros x Hx. rewrite Forall_forall in Ha. unfold calibrate_one. destruct (String.eqb x.1 side) eqn:E; [|eexists; split; [reflexivity|by split_and!]].
      destruct (model_update_ok (take 7 q) (set_visible true x.2) (arm_links chain Hchain x (Ha x Hx))) as (m & -> & Hm).
      eexists. split; [reflexivity|]. pose proof Hm as (_ & ? & ? & ? & ? & _). by split_and!. }
    eexists. split; [reflexivity|]. pose proof (updated_keys _ _ _ _ Hl) as Hk'. rewrite Hk in Hk'. split.
    - split; scene_cbn; try done. split; [done|by apply (updated_arm chain _ _ _ _ Hl)].
    - scene_cbn. destruct (listed_get side l Hk' Hs) as (m & Hm). exists m. split; [done|].
      destruct (updated_get _ _ _ _ _ _ Hl Hm) as (m0 & _ & (_ & _ & _ & _ & Hv & _)). cbn [snd fst] in Hv. by rewrite Hv, String.eqb_refl. }
  unfold render_scene in Hr. rewrite Hp in Hr. cbn [res_bind] in Hr. injection Hr as <-. cbn [sn_view vw_calls call_scene].
  rewrite Hroll. eexists g1, _.
  match goal with |- context [Followers ?a] => destruct (update_followers_ok chain Hchain (reals_by a) g1 Hg1) as (h1 & E1 & Hh1 & _) end.
  match goal with |- context [Commands ?a] => destruct (update_commands_ok chain Hchain (reals_by a) h1 Hh1) as (h2 & E2 & Hh2 & _) end.
  match goal with |- context [Factr ?a] => destruct (update_factr_ok chain (reals_by a) h2 Hh2) as (h3 & E3 & Hh3 & _) end.
  destruct (clear_targets_ok chain h3 Hh3) as (h4 & E4 & _ & Ht & _). exists h4. split_and!; [done|done|reflexivity| |].
  - unfold draw_calls. cbn [foldM_res draw_call]. rewrite E1. cbn [res_bind]. rewrite E2. cbn [res_bind]. rewrite E3. cbn [res_bind].
    by rewrite E4.
  - rewrite Ht. apply Forall_fmap. by apply Forall_true.
Qed.

(** A trace of one point leaves the line of the previous target on the screen. *)
Lemma short_trace_keeps_line side p q tip tip' g :
  dget side (rs_traces (show_trace side [tip'] tip' (show_trace side [p; q] tip g))) = Some (Trace [(p, q)] true).
Proof. unfold show_trace. cbn. apply dget_dset_eq. Qed.
End findings.

(** ** Witness *)

Definition demo_robot (at_ : string -> res Mount) (scale : R) (side : string) : string * robot_model :=
  (side, RobotModel "r" [demo_link; demo_link] scale
     match at_ side with Ok m => PNode (translation m) (xyzw_to_wxyz (quat_xyzw m)) | Raise _ => PNode v0 (1, 0, 0, 0) end
     false []).

Definition demo_robots : list (string * robot_model) := [demo_robot mount_of 1 "left"; demo_robot mount_of 1 "right"].
Definition demo_leaders : list (string * robot_model) :=
  [demo_robot factr_mount FACTR_LIVE_DISPLAY_SCALE "left"; demo_robot factr_mount FACTR_LIVE_DISPLAY_SCALE "right"].

Definition demo_robot_scene : robot_scene :=
  RobotScene demo_robots demo_robots demo_leaders demo_robots [("left", true); ("right", true)] [] [] None [].

Lemma demo_robot_scene_ok : scene_ok [demo_link; demo_link] demo_robot_scene.
Proof.
  assert (Forall (arm_model [demo_link; demo_link]) demo_robots) as Ha.
  { apply Forall_forall. intros x [->|[->|[]%elem_of_nil]%elem_of_cons]%elem_of_cons;
      (eexists; split; [reflexivity|]; split_and!; [reflexivity..|]);
      [exact (mount_node "left" _ eq_refl)|exact (mount_node "right" _ eq_refl)]. }
  split; cbn [demo_robot_scene rs_real rs_ghost rs_factr rs_target rs_stale]; try done.
  split; [done|].
  repeat constructor; try (by do 3 eexists); (eexists; split; [reflexivity|]; split; [reflexivity|]);
    cbn [snd demo_robot rm_base]; (destruct (factr_mount _) as [fm|] eqn:F; [|done]);
    destruct (factr_mount_consistent _ _ F) as [_ Hrot]; injection F as <-;
    unfold node_frame; cbn [pn_position pn_wxyz]; by rewrite quat_of_wxyz_back, Hrot.
Qed.

Definition demo_samples : scene :=
  Scene [("left/q", (repeat f1 7, 0%Z)); (factr_telemetry_stream_name "left" "model_q_rad", (repeat f1 7, 200%Z))] [] new_view.

Lemma viewer_shows_streams_witness : exists k' g' cs m,
  render_scene FACTR_MAX_AGE_S (scene_tick 200 "viewing") demo_samples = Ok k' /\
  draw_calls [demo_link; demo_link] (fun _ => None) cs demo_robot_scene = Ok g' /\
  shown_at [demo_link; demo_link] "left" None (rs_target g') /\
  dget "left" (rs_factr g') = Some m /\ rm_visible m = true.
Proof.
  destruct (render_scene FACTR_MAX_AGE_S (scene_tick 200 "viewing") demo_samples) as [k'|] eqn:E; [|vm_compute in E; discriminate E].
  destruct (viewer_shows_streams [demo_link; demo_link] demo_link_ok (fun _ => None) FACTR_MAX_AGE_S (scene_tick 200 "viewing")
    demo_samples k' demo_robot_scene demo_robot_scene_ok E)
    as (cs & phase & g' & _ & Hp & Hd & _ & Hv).
  - intros stream v ts. cbn [demo_samples sn_newest dget].
    repeat (destruct (decide _) as [_|_]; [intros [= <- _]; by repeat constructor|]). discriminate.
  - discriminate.
  - intros side v ts [->|[->|[]%elem_of_nil]%elem_of_cons]%elem_of_cons; discriminate.
  - intros side v ts [->|[->|[]%elem_of_nil]%elem_of_cons]%elem_of_cons; discriminate.
  - specialize (Hv "left" ltac:(left)). vm_compute in Hp. injection Hp as <-.
    destruct (sv_leader _ _ _ _ _ _ _ Hv) as (m0 & m & _ & Hm & Hl).
    assert (is_Some (held_config demo_samples (factr_telemetry_stream_name "left" "model_q_rad")
      (fun stamp => within_age (vt_ns (scene_tick 200 "viewing")) stamp FACTR_MAX_AGE_S))) as [q Hq].
    { unfold held_config. replace (dget _ _) with (Some (repeat f1 7, 200%Z)) by (vm_compute; reflexivity). cbv iota beta.
      match goal with |- is_Some (if ?b then _ else _) => replace b with true by (vm_compute; reflexivity) end. by eexists. }
    rewrite Hq in Hl. exists k', g', cs, m. split; [reflexivity|]. split; [exact Hd|].
    split; [exact (sv_target _ _ _ _ _ _ _ Hv)|]. split; [exact Hm|apply Hl].
Defined.
