(* ===== verification/ViewerFiles.v ===== *)
(** * The files the 3D viewer caches

    Models [viser/client.py] (the web client served without its control panel, from a copy named
    after its content) and the mesh cache of [viser/scene.py] (simplified leader meshes, the repair
    that makes them, and the loading that falls back to the full CAD model).  Both write a temporary
    file beside the target and rename it.  A directory tree is a finite map from paths; which
    operations succeed, the digest, and the mesh library are inputs. *)

From Stdlib Require Import SpecFloat Ascii String.
From S2P Require Import Prelude Float64 Text Storage Operator.
Local Open Scope string_scope.
Local Open Scope list_scope.
Local Open Scope Z_scope.

(** ** The client document *)

Definition INJECTION_MARKER : string := "data-dfc-hide-viser-control-panel".
Definition HEAD_END : string := "</head>".

(** [s.replace(old, new, 1)]. *)
Fixpoint replace_once (old new s : string) : string :=
  match strip_prefix old s with
  | Some rest => new +:+ rest
  | None => match s with EmptyString => EmptyString | String c s => String c (replace_once old new s) end
  end.

Section client.
(** The script, which carries the marker, and the digest of a document. *)
Context (hider : string) (sha : string -> string).

(** [_inject_sidebar_hider]. *)
Definition inject_sidebar_hider (index_html : string) : res string :=
  if contains INJECTION_MARKER index_html then Ok index_html
  else if negb (contains HEAD_END index_html) then Raise ValueError
  else Ok (replace_once HEAD_END (hider +:+ HEAD_END) index_html).

Abbreviation ftree := (gmap (list string) string).

(** Which steps of one call succeed, how far a failed write got, and the name of the temporary file. *)
Record cache_io := CacheIo {
  ci_copied : nat;                 (* siblings copied before a copy fails, if fewer than there are *)
  ci_temp : option string;         (* [None]: the temporary file cannot be created *)
  ci_write : option string;        (* [Some torn]: the write fails, leaving [torn] *)
  ci_replace : bool;
}.

(** Where the cache is: an override, [XDG_CACHE_HOME], or the home directory. *)
Definition cache_root (override xdg home : string) (expand : string -> list string) : list string :=
  if negb (bool_decide (py_strip override = "")) then expand (py_strip override)
  else (if bool_decide (py_strip xdg = "") then expand home ++ [".cache"] else expand (py_strip xdg))
       ++ ["dual-flexiv-control"; "viser-client"].

(** The files of the installed client next to its document. *)
Definition copy_siblings (target : list string) (sibs : list (list string * string)) (t : ftree) : ftree :=
  foldl (fun t f => <[target ++ f.1 := f.2]> t) t sibs.

(** [_hidden_client_root] on the tree of the cache. *)
Definition hidden_client_root (root : list string) (index_html : res string) (sibs : list (list string * string))
    (io : cache_io) : ST ftree (list string) :=
  html ← st_lift index_html;
  modified ← st_lift (inject_sidebar_hider html);
  let target := root ++ [sha modified] in
  let index := target ++ ["index.html"] in
  t ← st_get;
  if bool_decide (is_Some (t !! index)) then mret target
  else
    st_modify (copy_siblings target (take (ci_copied io) sibs)) ;;
    (if (ci_copied io <? length sibs)%nat then st_raise OSError else mret tt) ;;
    match ci_temp io with
    | None => st_raise OSError
    | Some tmp =>
      let tmp := target ++ [tmp] in
      match ci_write io with
      | Some torn => st_modify (insert tmp torn) ;; st_raise OSError
      | None =>
        st_modify (insert tmp modified) ;;
        if ci_replace io then st_modify (fun t => insert index modified (delete tmp t)) ;; mret target
        else st_modify (delete tmp) ;; st_raise OSError
      end
    end.

(** ** Properties of the client *)

Context (Hmark : contains INJECTION_MARKER hider = true).

Lemma contains_app_r a b s : contains s b = true -> contains s (a +:+ b) = true.
Proof.
  intros H. induction a as [|c a IH]; [done|]. change (String c a +:+ b) with (String c (a +:+ b)).
  cbn [contains]. rewrite IH. apply orb_true_r.
Qed.

Lemma starts_with_app s a b : starts_with s a = true -> starts_with s (a +:+ b) = true.
Proof.
  unfold starts_with. destruct (strip_prefix s a) as [r|] eqn:E; [|done]. intros _.
  apply strip_prefix_Some in E as ->. by rewrite str_app_assoc, strip_prefix_app.
Qed.

Lemma starts_contains s b : starts_with s b = true -> contains s b = true.
Proof. intros H. destruct b; cbn [contains]; by rewrite H. Qed.

Lemma contains_refl s : contains s s = true.
Proof.
  apply starts_contains. unfold starts_with. pose proof (strip_prefix_app s "") as H. rewrite str_app_nil_r in H. by rewrite H.
Qed.

Lemma contains_app_l a b s : contains s a = true -> contains s (a +:+ b) = true.
Proof.
  induction a as [|c a IH]; cbn [contains].
  - rewrite orb_false_r. intros H. by apply starts_contains, (starts_with_app s "" b).
  - change (String c a +:+ b) with (String c (a +:+ b)). intros [H|H]%orb_true_iff.
    + by apply starts_contains, (starts_with_app s (String c a) b).
    + cbn [contains]. rewrite IH by done. apply orb_true_r.
Qed.

Lemma contains_split s b : contains s b = true -> exists x y, b = x +:+ s +:+ y.
Proof.
  induction b as [|c b IH]; cbn [contains].
  - rewrite orb_false_r. unfold starts_with. destruct (strip_prefix s "") as [y|] eqn:E; [|done]. intros _.
    apply strip_prefix_Some in E. by exists "", y.
  - unfold starts_with. destruct (strip_prefix s (String c b)) as [y|] eqn:E.
    + intros _. apply strip_prefix_Some in E. by exists "", y.
    + cbn. intros (x & y & ->)%IH. by exists (String c x), y.
Qed.

Lemma contains_trans a b c : contains a b = true -> contains b c = true -> contains a c = true.
Proof. intros H (x & y & ->)%contains_split. by apply contains_app_r, contains_app_l. Qed.

Lemma replace_once_contains old new s : contains old s = true -> contains new (replace_once old new s) = true.
Proof.
  induction s as [|c s IH]; cbn [contains replace_once].
  - rewrite orb_false_r. unfold starts_with. destruct (strip_prefix old "") as [r|]; [|done]. intros _.
    apply contains_app_l, contains_refl.
  - unfold starts_with. destruct (strip_prefix old (String c s)) as [r|]; cbn.
    + intros _. apply contains_app_l. apply contains_refl.
    + intros H. cbn. rewrite IH by done. apply orb_true_r.
Qed.

(** The script is injected once. *)
Lemma inject_marks html doc : inject_sidebar_hider html = Ok doc ->
  contains INJECTION_MARKER doc = true /\ inject_sidebar_hider doc = Ok doc.
Proof.
  intros H. enough (contains INJECTION_MARKER doc = true) as Hc by (split; [done|unfold inject_sidebar_hider; by rewrite Hc]).
  unfold inject_sidebar_hider in H. destruct (contains INJECTION_MARKER html) eqn:E; [by injection H as <-|].
  destruct (contains HEAD_END html) eqn:Eh; [|done]. injection H as <-.
  eapply contains_trans; [exact Hmark|]. eapply contains_trans; [|by apply replace_once_contains].
  apply contains_app_l, contains_refl.
Qed.

(** Every cached document has the digest its directory is named after. *)
Definition cache_whole (root : list string) (t : ftree) : Prop :=
  forall d html, t !! (root ++ [d; "index.html"]) = Some html -> sha html = d.

Lemma copy_siblings_index target sibs t : Forall (fun f => f.1 <> ["index.html"]) sibs ->
  copy_siblings target sibs t !! (target ++ ["index.html"]) = t !! (target ++ ["index.html"]).
Proof.
  intros H. unfold copy_siblings. revert t. induction H as [|f sibs Hf _ IH]; intros t; [done|]. cbn [foldl].
  rewrite IH, lookup_insert_ne; [done|]. intros E. by apply app_inv_head in E.
Qed.

(** Trees that differ only below a directory. *)
Definition only_below (target : list string) (t u : ftree) : Prop := forall p, (forall rel, p <> target ++ rel) -> u !! p = t !! p.

Lemma below_insert target t u rel h : only_below target t u -> only_below target t (<[target ++ rel := h]> u).
Proof. intros H p Hp. rewrite lookup_insert_ne by (by apply not_eq_sym, Hp). by apply H. Qed.

Lemma below_delete target t u rel : only_below target t u -> only_below target t (delete (target ++ rel) u).
Proof. intros H p Hp. rewrite lookup_delete_ne by (by apply not_eq_sym, Hp). by apply H. Qed.

Lemma below_copy target sibs t u : only_below target t u -> only_below target t (copy_siblings target sibs u).
Proof.
  unfold copy_siblings. revert u. induction sibs as [|f sibs IH]; intros u Hu; [done|]. cbn [foldl]. by apply IH, below_insert.
Qed.

(** A client built in its directory leaves the cache whole. *)
Lemma whole_below root doc t u : cache_whole root t -> only_below (root ++ [sha doc]) t u ->
  (forall h, u !! (root ++ [sha doc; "index.html"]) = Some h -> h = doc) -> cache_whole root u.
Proof.
  intros Hw Hu Hdoc d h Hh. destruct (decide (d = sha doc)) as [->|Hne]; [by rewrite (Hdoc h Hh)|].
  apply Hw. rewrite <-Hu; [done|]. intros rel E. rewrite <-app_assoc in E. apply app_inv_head in E. by injection E.
Qed.

(** The steps after the document is known to be missing: what is left below the directory. *)
Definition build_client (target : list string) (doc : string) (sibs : list (list string * string)) (io : cache_io) (t : ftree) :
    ftree * outcome (list string) :=
  let t1 := copy_siblings target (take (ci_copied io) sibs) t in
  if (ci_copied io <? length sibs)%nat then (t1, Raised OSError)
  else match ci_temp io with
  | None => (t1, Raised OSError)
  | Some tmp =>
    match ci_write io with
    | Some torn => (<[target ++ [tmp] := torn]> t1, Raised OSError)
    | None =>
      if ci_replace io then
        (<[target ++ ["index.html"] := doc]> (delete (target ++ [tmp]) (<[target ++ [tmp] := doc]> t1)), Returned target)
      else (delete (target ++ [tmp]) (<[target ++ [tmp] := doc]> t1), Raised OSError)
    end
  end.

Lemma hidden_client_steps root html doc sibs io t : inject_sidebar_hider html = Ok doc ->
  hidden_client_root root (Ok html) sibs io t =
    if bool_decide (is_Some (t !! ((root ++ [sha doc]) ++ ["index.html"]))) then (t, Returned (root ++ [sha doc]))
    else build_client (root ++ [sha doc]) doc sibs io t.
Proof.
  intros Hi. unfold hidden_client_root, build_client. unfold mbind, st_bind, st_lift, st_get, st_modify, st_raise, mret, st_ret.
  rewrite Hi. case_bool_decide; [done|]. destruct (_ <? _)%nat; [done|]. destruct (ci_temp io) as [tmp|]; [|done].
  destruct (ci_write io); [done|]. by destruct (ci_replace io).
Qed.

Lemma build_client_spec target doc sibs io t t' o : Forall (fun f => f.1 <> ["index.html"]) sibs ->
  (forall tmp, ci_temp io = Some tmp -> starts_with ".index-" tmp = true) ->
  t !! (target ++ ["index.html"]) = None -> build_client target doc sibs io t = (t', o) ->
  only_below target t t' /\
  match o with
  | Returned r => r = target /\ t' !! (target ++ ["index.html"]) = Some doc
  | Raised _ => t' !! (target ++ ["index.html"]) = None
  | Running => False
  end.
Proof.
  intros Hsibs Htmp Hn. unfold build_client. set (t1 := copy_siblings _ _ t).
  assert (only_below target t t1) as H1 by (by apply below_copy).
  assert (t1 !! (target ++ ["index.html"]) = None) as Hn1.
  { unfold t1. rewrite copy_siblings_index; [done|by apply Forall_take]. }
  destruct (_ <? _)%nat; [by intros [= <- <-]|]. destruct (ci_temp io) as [tmp|] eqn:Et; [|by intros [= <- <-]].
  assert (target ++ [tmp] <> target ++ ["index.html"]) as Hne.
  { intros E. apply app_inv_head in E. injection E as ->. by specialize (Htmp _ eq_refl). }
  destruct (ci_write io); [|destruct (ci_replace io)]; intros [= <- <-]; (split; [auto using below_insert, below_delete|]).
  - by rewrite lookup_insert_ne.
  - by rewrite lookup_insert_eq.
  - by rewrite lookup_delete_ne, lookup_insert_ne.
Qed.

(** the served client is whole.  The cache of web clients holds, under each digest, only a
    document of that digest: building a client keeps it so however the copying, the writing or the
    renaming ends, and touches no other client's directory.  When it succeeds, the directory it
    returns holds exactly the installed document with the script injected (once: injecting again
    changes nothing), provided no two documents share a digest; when it fails, no document appears
    there. *)
Theorem client_cache_whole (root : list string) (index_html : res string) (sibs : list (list string * string))
    (io : cache_io) (t t' : ftree) (o : outcome (list string))
    (Hw : cache_whole root t) (Hsibs : Forall (fun f => f.1 <> ["index.html"]) sibs)
    (Htmp : forall tmp, ci_temp io = Some tmp -> starts_with ".index-" tmp = true)
    (Hrun : hidden_client_root root index_html sibs io t = (t', o)) :
  cache_whole root t' /\
  (forall p, (forall html doc rel, index_html = Ok html -> inject_sidebar_hider html = Ok doc -> p <> root ++ [sha doc] ++ rel) ->
     t' !! p = t !! p) /\
  match o with
  | Returned r => exists html doc, index_html = Ok html /\ inject_sidebar_hider html = Ok doc /\
      inject_sidebar_hider doc = Ok doc /\ r = root ++ [sha doc] /\
      ((forall a b, sha a = sha b -> a = b) -> t' !! (r ++ ["index.html"]) = Some doc)
  | Raised _ => forall html doc, index_html = Ok html -> inject_sidebar_hider html = Ok doc ->
      t' !! (root ++ [sha doc; "index.html"]) = None
  | Running => False
  end.
Proof.
  destruct index_html as [html|e]; [|injection Hrun as <- <-; by split_and!].
  destruct (inject_sidebar_hider html) as [doc|e] eqn:Ei.
  2:{ unfold hidden_client_root in Hrun. unfold mbind, st_bind, st_lift in Hrun. rewrite Ei in Hrun. injection Hrun as <- <-.
      split_and!; [done..|]. intros; simplify_eq; congruence. }
  rewrite (hidden_client_steps _ _ _ _ _ _ Ei) in Hrun. pose proof (inject_marks _ _ Ei) as [_ Hi].
  assert ((root ++ [sha doc]) ++ ["index.html"] = root ++ [sha doc; "index.html"]) as Hp by (by rewrite <-app_assoc).
  assert (forall p, (forall html' doc' rel, Ok html = Ok html' -> inject_sidebar_hider html' = Ok doc' -> p <> root ++ [sha doc'] ++ rel) ->
    forall rel, p <> (root ++ [sha doc]) ++ rel) as Hout.
  { intros p H rel ->. apply (H html doc rel eq_refl Ei). by rewrite <-app_assoc. }
  case_bool_decide as Hex.
  - injection Hrun as <- <-. split_and!; [done..|]. exists html, doc. split_and!; try done.
    intros Hinj. destruct Hex as [h Hh]. rewrite Hh. f_equal. apply Hinj, Hw. by rewrite <-Hp.
  - apply build_client_spec in Hrun as [Hb Ho]; [|done|done|by apply eq_None_not_Some]. rewrite Hp in Ho.
    split_and!; [|by eauto|].
    + eapply whole_below; [done|done|]. intros h Hh. destruct o as [r|e|]; [|by rewrite Ho in Hh|done].
      destruct Ho as [_ Ho]. rewrite Ho in Hh. by injection Hh.
    + destruct o as [r|e|]; [|by intros ?? [= <-] E; rewrite Ei in E; injection E as <-|done].
      destruct Ho as [-> Ho]. exists html, doc. split_and!; try done. intros _. by rewrite Hp.
Qed.
End client.

Lemma client_cache_whole_witness :
  let run := hidden_client_root INJECTION_MARKER (fun d => d) ["cache"] (Ok "<head></head>") []
    (CacheIo 0 (Some ".index-1.html") None true) ∅ in
  cache_whole (fun d => d) ["cache"] run.1.
Proof.
  cbv zeta. set (run := hidden_client_root _ _ _ _ _ _ _).
  apply (client_cache_whole INJECTION_MARKER (fun d => d) eq_refl ["cache"] (Ok "<head></head>") []
    (CacheIo 0 (Some ".index-1.html") None true) ∅ run.1 run.2).
  - intros d html H. by rewrite lookup_empty in H.
  - constructor.
  - by intros tmp [= <-].
  - apply surjective_pairing.
Defined.

(** A write that fails leaves its temporary file behind: the name is noted only after the write. *)
Lemma failed_write_leaks_temporary :
  let io := CacheIo 0 (Some ".index-1.html") (Some "<he") true in
  let r := hidden_client_root INJECTION_MARKER (fun d => "d") ["cache"] (Ok "<head></head>") [] io ∅ in
  r.2 = Raised OSError /\ r.1 !! ["cache"; "d"; ".index-1.html"] = Some "<he".
Proof. vm_compute. done. Qed.

(** ** The meshes *)

Section meshes.
(** A mesh of the library, and what the code asks of it. *)
Context {M : Type} (faces : M -> nat) (volume : M -> f64) (extents : M -> list f64) (vertices_finite : M -> bool).
Context (split_parts : M -> list M) (convex_hull : M -> res M) (concatenate : list M -> res M).

Definition MIN_COMPONENT_VOLUME_FRACTION : f64 := fdec 1 1000.
Definition VOLUME_EPS : f64 := fdec 1 (10 ^ 15).

(** [max(parts, key=lambda part: len(part.faces))]: the first of the largest. *)
Definition largest_part (parts : list M) : res M :=
  match parts with
  | [] => Raise ValueError
  | p :: ps => Ok (foldl (fun best q => if (faces best <? faces q)%nat then q else best) p ps)
  end.

(** [np.allclose(a, b, rtol, atol)]. *)
Definition allclose (rtol atol : f64) (a b : list f64) : bool :=
  (length a =? length b)%nat &&
  forallb (fun xy => fle (fabs (fsub xy.1 xy.2)) (fadd atol (fmul rtol (fabs xy.2)))) (zip a b).

(** [_repair_for_viewer]. *)
Definition repair_for_viewer (mesh : M) : res M :=
  let parts := split_parts mesh in
  let total := foldl (fun acc p => fadd acc (fabs (volume p))) f0 parts in
  let floor := pmax (fmul total MIN_COMPONENT_VOLUME_FRACTION) VOLUME_EPS in
  let meaningful := List.filter (fun p => fle floor (fabs (volume p))) parts in
  let? meaningful := (match meaningful with [] => let? p := largest_part parts in Ok [p] | l => Ok l end) in
  let? hulls := mapM_res convex_hull meaningful in
  let? simplified := concatenate hulls in
  if (faces simplified =? 0)%nat || negb (vertices_finite simplified) then Raise ValueError
  else if negb (allclose (fdec 3 100) (fdec 1 (10 ^ 6)) (extents simplified) (extents mesh)) then Raise ValueError
  else Ok simplified.

(** A cache file: unreadable, or arrays with their shapes. *)
Inductive npz := Damaged | Arrays (vshape fshape : list nat) (mesh : M).

(** What names a cache file: the resolved path, the size, the time stamp and the decimation. *)
Definition mesh_key : Type := string * Z * Z * Z.

Abbreviation mesh_cache := (gmap mesh_key npz).

Definition read_simplified_cache (key : mesh_key) (c : mesh_cache) : option M :=
  match c !! key with
  | Some (Arrays [_; 3%nat] [_; 3%nat] m) => Some m
  | _ => None
  end.

(** [_write_simplified_cache]: a failure is logged, and the temporary file is removed. *)
Definition write_simplified_cache (written : bool) (key : mesh_key) (shapes : M -> list nat * list nat) (m : M) (c : mesh_cache) :
    mesh_cache :=
  if written then <[key := Arrays (shapes m).1 (shapes m).2 m]> c else c.

(** [_load_mesh] without its in-memory memo; [load] is the library's reading of the file, [None]
    what is not a triangle mesh. *)
Definition load_mesh (load : bool -> res (option M)) (shapes : M -> list nat * list nat) (written : bool)
    (key : mesh_key) (decimation : Z) : ST mesh_cache M := fun c =>
  let decimation := Z.max 1 decimation in
  match (if 1 <? decimation then read_simplified_cache key c else None) with
  | Some m => (c, Returned m)
  | None =>
    match load (1 <? decimation) with
    | Raise e => (c, Raised e)
    | Ok None => (c, Raised ValueError)
    | Ok (Some m) =>
      if (1 <? decimation) && (4 <? faces m)%nat then
        match repair_for_viewer m with
        | Raise _ => (c, Returned m)
        | Ok r => (write_simplified_cache written key shapes r c, Returned r)
        end
      else (c, Returned m)
    end
  end.

Lemma repair_bounds m r : repair_for_viewer m = Ok r ->
  (0 < faces r)%nat /\ vertices_finite r = true /\
  allclose (fdec 3 100) (fdec 1 (10 ^ 6)) (extents r) (extents m) = true.
Proof.
  unfold repair_for_viewer. intros H.
  destruct (match List.filter _ _ with [] => _ | _ => _ end) as [l|]; [|done]. cbn [res_bind] in H.
  destruct (mapM_res _ l) as [hs|]; [|done]. cbn [res_bind] in H.
  destruct (concatenate hs) as [x|]; [|done]. cbn [res_bind] in H.
  destruct (_ || _) eqn:E; [done|]. apply orb_false_iff in E as [E1 E2%negb_false_iff].
  destruct (allclose _ _ _ _) eqn:Ea; [|done]. injection H as <-. apply Nat.eqb_neq in E1. split_and!; [lia|done|done].
Qed.

(** An arm never disappears for a mesh's sake.  Loading fails only when the library cannot read
    the file as a triangle mesh; otherwise it returns a simplified mesh, from the cache with
    well-shaped arrays or freshly repaired with faces, finite vertices and bounds within 3 % of the
    original, or the original.  The cache gains at most the repaired mesh, under this file's key. *)
Lemma load_mesh_total load shapes written key dec c : let r := load_mesh load shapes written key dec c in
  match load (1 <? Z.max 1 dec) with
  | Ok (Some m) => exists x, r.2 = Returned x /\
      (x = m \/ read_simplified_cache key c = Some x \/
       (0 < faces x)%nat /\ vertices_finite x = true /\
         allclose (fdec 3 100) (fdec 1 (10 ^ 6)) (extents x) (extents m) = true)
  | _ => r.2 = Raised ValueError \/ (exists e, load (1 <? Z.max 1 dec) = Raise e /\ r.2 = Raised e) \/
      exists x, read_simplified_cache key c = Some x /\ r.2 = Returned x
  end /\ (forall k, k <> key -> r.1 !! k = c !! k).
Proof.
  cbv zeta. unfold load_mesh. destruct (if 1 <? _ then read_simplified_cache key c else None) as [x|] eqn:Ec.
  { assert (read_simplified_cache key c = Some x) as Hx by (by destruct (1 <? _)). split; [|done].
    destruct (load _) as [[m|]|e]; [exists x; by auto|right; right; by eauto|right; right; by eauto]. }
  destruct (load _) as [[m|]|e] eqn:El; [|split; [by left|done]|split; [right; left; by eauto|done]].
  destruct (_ && _); [|split; [by eauto|done]].
  destruct (repair_for_viewer m) as [r|] eqn:Er; [|split; [by eauto|done]]. split.
  - exists r. split; [done|]. right; right. by apply repair_bounds.
  - intros k Hk. cbn. unfold write_simplified_cache. destruct written; [|done]. by rewrite lookup_insert_ne.
Qed.
End meshes.
