(* ===== verification/Replay.v ===== *)
(** * Episode replay

    Models [viser/replay.py] and the reading half of [dashboard/replay.py], which is the same code:
    a recorded episode is cut back into arms from the column names stored with the dataset, and
    shown frame by frame with a slider and a play thread.  The dataset (LeRobot) is an input: its
    feature table, its episode table and its rows.

    [replay_shows_recorded] ties the two ends of a dataset together: what [layout.py] packed into a
    frame is what the replay shows of it. *)

From Stdlib Require Import SpecFloat Ascii String.
From stdpp Require Import pretty.
From S2P Require Import Prelude Float64 Ring Streams Text Channel Layout Json SkillFile ViewerStreams CameraSource.
Local Open Scope string_scope.
Local Open Scope list_scope.
Local Open Scope nat_scope.

Definition IMAGE_PREFIX : string := "observation.images.".

(** ** The recorded layout *)

Record action_block := Block { ab_field : option string; ab_cmd : list nat; ab_gripper : option nat }.

(** One column of [_action_layout]. *)
Definition action_column (acc : list (string * action_block)) (x : nat * string) : list (string * action_block) :=
  match py_split "." x.2 with
  | [] => acc
  | side :: rest =>
    let b := default (Block None [] None) (dget side acc) in
    dset side
      match rest with
      | [g] => if String.eqb g "gripper" then Block (ab_field b) (ab_cmd b) (Some x.1) else b
      | f :: _ :: _ => Block (Some f) (ab_cmd b ++ [x.1]) (ab_gripper b)
      | [] => b
      end acc
  end.

Definition action_layout (names : list string) : list (string * action_block) :=
  foldl action_column [] (imap pair names).

(** [_names]: the column names of a feature, [\[\]] when there is none or it is not a list. *)
Definition feature_names (str_of : json -> string) (feature : option json) : res (list string) :=
  let? names := jget "names" (py_or (default jnull feature) (Obj [])) in
  Ok (match names with Arr l => str_of <$> l | _ => [] end).

(** ** Images *)

Inductive pixel_type := U8 | F32 | F64.

Record ndimage := NdImage { im_shape : list nat; im_type : pixel_type; im_data : list f64 }.

(** [np.transpose(a, (1, 2, 0))] of an array of shape [(c, h, w)]. *)
Definition transpose_chw (c h w : nat) (d : list f64) : list f64 :=
  seq 0 h ≫= (fun y => seq 0 w ≫= (fun x => (fun k => default f0 (d !! ((k * h + y) * w + x))) <$> seq 0 c)).

(** Arithmetic in the array's own precision. *)
Definition rounded (t : pixel_type) (x : f64) : f64 := match t with F32 => f32 x | _ => x end.

(** Values up to one are fractions. *)
Definition fractions (d : list f64) : bool := fle (np_max_from f0 d) (fadd f1 (fdec 1 (10 ^ 6))).

Definition pixel_u8 (t : pixel_type) (scale : bool) (x : f64) : f64 :=
  to_uint8 (np_clip (if scale then rounded t (fmul x (f_of_Z 255)) else x) f0 (f_of_Z 255)).

Definition to_u8 (t : pixel_type) (d : list f64) : list f64 := pixel_u8 t (fractions d) <$> d.

(** [_to_hwc_uint8]. *)
Definition to_hwc_uint8 (a : ndimage) : ndimage :=
  let a := match im_shape a with
           | [c; h; w] =>
               if ((c =? 1) || (c =? 3)) && (c <? w) then NdImage [h; w; c] (im_type a) (transpose_chw c h w (im_data a)) else a
           | _ => a
           end in
  match im_type a with
  | U8 => a
  | t => NdImage (im_shape a) U8 (to_u8 t (im_data a))
  end.

(** Rows of one length, one after the other. *)
Lemma lookup_rows {A} (f : nat -> list A) n m i j : (forall k, length (f k) = n) -> j < n -> i < m ->
  (seq 0 m ≫= f) !! (i * n + j) = f i !! j.
Proof.
  intros Hf Hj. enough (forall a i, i < m -> (seq a m ≫= f) !! (i * n + j) = f (a + i) !! j) as H by (intros Hi; by rewrite H).
  clear i. induction m as [|m IH]; intros a i Hi; [lia|]. cbn [seq mbind list_bind]. destruct i as [|i].
  - rewrite lookup_app_l by (rewrite Hf; lia). by rewrite Nat.add_0_r.
  - rewrite lookup_app_r by (rewrite Hf; lia). rewrite Hf. replace (S i * n + j - n) with (i * n + j) by lia.
    rewrite IH by lia. by rewrite Nat.add_succ_r.
Qed.

Lemma length_rows {A} (f : nat -> list A) n a m : (forall k, length (f k) = n) -> length (seq a m ≫= f) = m * n.
Proof. intros Hf. revert a. induction m as [|m IH]; intros a; [done|]. cbn [seq mbind list_bind]. rewrite length_app, IH, Hf. lia. Qed.

Lemma transpose_lookup c h w d y x k : length d = c * h * w -> y < h -> x < w -> k < c ->
  transpose_chw c h w d !! ((y * w + x) * c + k) = d !! ((k * h + y) * w + x).
Proof.
  intros Hl Hy Hx Hk. unfold transpose_chw.
  replace ((y * w + x) * c + k) with (y * (w * c) + (x * c + k)) by lia.
  assert (x * c + k < w * c) by (assert (S x * c <= w * c) by (by apply Nat.mul_le_mono_r); lia).
  rewrite lookup_rows; [|intros y'; apply length_rows; intros x'; by rewrite length_fmap, length_seq|done|done].
  rewrite lookup_rows; [|intros x'; by rewrite length_fmap, length_seq|done|done].
  rewrite list_lookup_fmap, lookup_seq_lt by done. cbn [fmap option_fmap option_map Nat.add].
  destruct (lookup_lt_is_Some_2 d ((k * h + y) * w + x)) as (v & Hv); [|by rewrite Hv].
  assert (S k * h <= c * h) by (by apply Nat.mul_le_mono_r).
  assert ((k * h + S y) * w <= c * h * w) by (apply Nat.mul_le_mono_r; lia). lia.
Qed.

(** Channel [k] of pixel [(y, x)] of a displayed image is channel [k] of the stored one, whose planes
    come one after the other; the pixels of an image are scaled all alike or not at all. *)
Lemma hwc_pixel a c h w : im_shape a = [c; h; w] -> c = 1 \/ c = 3 -> c < w -> length (im_data a) = c * h * w ->
  let b := to_hwc_uint8 a in
  im_shape b = [h; w; c] /\ im_type b = U8 /\
  exists scale, forall y x k, y < h -> x < w -> k < c ->
    im_data b !! ((y * w + x) * c + k) =
      (fun p => match im_type a with U8 => p | t => pixel_u8 t scale p end) <$> im_data a !! ((k * h + y) * w + x).
Proof.
  intros Hs Hc Hw Hl. cbv zeta. unfold to_hwc_uint8. rewrite Hs.
  assert (((c =? 1) || (c =? 3)) && (c <? w) = true) as ->.
  { apply andb_true_iff. split; [apply orb_true_iff; destruct Hc as [-> | ->]; [by left|by right]|by apply Nat.ltb_lt]. }
  cbn [im_type im_shape im_data]. pose proof (transpose_lookup c h w (im_data a)) as E.
  destruct (im_type a); cbn [im_type im_shape im_data]; (split; [done|]; split; [done|]);
    exists (fractions (transpose_chw c h w (im_data a))); intros y x k Hy Hx Hk.
  - rewrite E by done. by destruct (_ !! _).
  - unfold to_u8. by rewrite list_lookup_fmap, E.
  - unfold to_u8. by rewrite list_lookup_fmap, E.
Qed.

(** ** Reading an episode *)

Section rows.
(** Images as stored and as displayed. *)
Context {I J : Type}.

Record item := Item { it_time : f64; it_state : list f64; it_action : list f64; it_images : list (string * I) }.

Record dataset := DataSet {
  dt_features : list (string * json);
  dt_episodes : list (nat * nat);      (* [dataset_from_index], [dataset_to_index] *)
  dt_items : list item;
}.

Record frame := Frame {
  fm_t : f64;
  fm_real_q : list (string * list f64);
  fm_ghost_q : list (string * list f64);
  fm_images : list (string * J);
  fm_action : list (string * (list f64 * f64));
}.

End rows.

Section episode.
Context (str_of : json -> string).

(** [v\[idx\]] for a list of indices. *)
Definition pick (v : list f64) (idx : list nat) : res (list f64) :=
  mapM_res (fun i => of_option IndexError (v !! i)) idx.

(** [idx and max(idx) < n]. *)
Definition within (n : nat) (idx : list nat) : bool :=
  negb (bool_decide (idx = [])) && forallb (fun i => i <? n) idx.

(** One side of the action loop. *)
Definition frame_action (action : list f64) (real_q : list (string * list f64))
    (acc : list (string * list f64) * list (string * (list f64 * f64))) (sb : string * action_block) :
    res (list (string * list f64) * list (string * (list f64 * f64))) :=
  let '(ghost_q, blocks) := acc in
  let '(side, b) := sb in
  if within (length action) (ab_cmd b) then
    let? command := pick action (ab_cmd b) in
    let grip := match ab_gripper b with
                | Some g => default f0 (action !! g)
                | None => f0
                end in
    let blocks := dset side (command, grip) blocks in
    Ok (if bool_decide (ab_field b = Some "q_d") && dmem side real_q then (dset side command ghost_q, blocks)
        else (ghost_q, blocks))
  else Ok acc.

(** One frame. *)
Definition read_frame (q_index : list (string * list nat)) (pose_sides : list string)
    (action_blocks : list (string * action_block)) (cams : list (string * string)) (it : @item ndimage) : res (@frame ndimage) :=
  let? real_q := foldM_res (fun d side =>
    let? idx := of_option KeyError (dget side q_index) in
    let? q := pick (it_state it) idx in Ok (dset side q d)) pose_sides [] in
  let? ga := foldM_res (frame_action (it_action it) real_q) action_blocks ([], []) in
  let? images := foldM_res (fun d nk =>
    let? im := of_option KeyError (dget nk.2 (it_images it)) in Ok (dset nk.1 (to_hwc_uint8 im) d)) cams [] in
  Ok (Frame (it_time it) real_q ga.1 images ga.2).

Definition camera_keys (features : list (string * json)) : list string :=
  List.filter (starts_with IMAGE_PREFIX) (dkeys features).
Definition camera_label (key : string) : string := default key (strip_prefix IMAGE_PREFIX key).

(** [read_episode]. *)
Definition read_episode (ds : @dataset ndimage) (episode : nat) : res (list (@frame ndimage) * list string) :=
  let? row := of_option IndexError (dt_episodes ds !! episode) in
  let '(lo, hi) := row in
  let? state_names := feature_names str_of (dget "observation.state" (dt_features ds)) in
  let q_index := state_q_index state_names in
  let? action_names := feature_names str_of (dget "action" (dt_features ds)) in
  let action_blocks := action_layout action_names in
  let keys := camera_keys (dt_features ds) in
  let names := camera_label <$> keys in
  let? first := of_option IndexError (dt_items ds !! lo) in
  let state_dim := length (it_state first) in
  let pose_sides := dkeys (List.filter (fun x => within state_dim x.2) q_index) in
  let? frames := mapM_res (fun i =>
    let? it := of_option IndexError (dt_items ds !! i) in
    read_frame q_index pose_sides action_blocks (zip names keys) it) (seq lo (hi - lo)) in
  Ok (frames, names).
End episode.

(** ** Column names split back *)

Definition no_dot (s : string) : bool := all_chars (fun c => negb (Ascii.eqb c ".")) s.

Lemma pretty_go_no_dot x s : no_dot s = true -> no_dot (pretty_N_go x s) = true.
Proof.
  revert s. induction (N.lt_wf_0 x) as [x _ IH]; intros s Hs. destruct (decide (0 < x)%N) as [Hx|Hx].
  - rewrite pretty_N_go_step by done. apply IH; [apply N.div_lt; lia|]. unfold no_dot in *. cbn [all_chars].
    rewrite Hs, andb_true_r. apply negb_true_iff.
    assert (x `mod` 10 < 10)%N as Hm by (apply N.mod_lt; lia). destruct (x `mod` 10)%N as [|p]; [done|].
    do 4 (destruct p as [p|p|]; try done).
  - assert (x = 0%N) as -> by lia. by rewrite pretty_N_go_0.
Qed.

Lemma nat_str_no_dot n : no_dot (nat_str n) = true.
Proof.
  unfold nat_str, pretty, pretty_N. destruct (decide _); [done|]. by apply pretty_go_no_dot.
Qed.

Lemma split_indexed a b i : no_dot a = true -> no_dot b = true ->
  py_split "." ((a +:+ "." +:+ b) +:+ "." +:+ nat_str i) = [a; b; nat_str i].
Proof.
  intros Ha Hb. rewrite str_app_assoc. change (py_split "." (a +:+ String "." (b +:+ String "." (nat_str i))) = [a; b; nat_str i]).
  rewrite py_split_cons by done. rewrite py_split_cons by done. by rewrite (py_split_plain _ _ (nat_str_no_dot i)).
Qed.

Lemma split_gripper a : no_dot a = true -> py_split "." (a +:+ ".gripper") = [a; "gripper"].
Proof. intros Ha. change ".gripper" with (String "." "gripper"). by rewrite py_split_cons. Qed.

(** ** What the columns of a layout become *)

(** Columns numbered from an offset. *)
Definition numbered (off : nat) (names : list string) : list (nat * string) := imap (fun i n => (off + i, n)) names.

Lemma numbered_0 names : numbered 0 names = imap pair names.
Proof. done. Qed.

Lemma numbered_app off a b : numbered off (a ++ b) = numbered off a ++ numbered (off + length a) b.
Proof. unfold numbered. rewrite imap_app. f_equal. apply imap_ext. intros. cbn. f_equal. lia. Qed.

Lemma numbered_indexed off stem d :
  numbered off (indexed stem d) = (fun i => (off + i, stem +:+ "." +:+ nat_str i)) <$> seq 0 d.
Proof.
  unfold numbered, indexed. rewrite imap_fmap. unfold compose.
  enough (forall k, imap (fun n x => (off + (k + n), stem +:+ "." +:+ nat_str x)) (seq k d) =
    (fun i => (off + i, stem +:+ "." +:+ nat_str i)) <$> seq k d) as H by apply (H 0).
  induction d as [|d IH]; intros k; [done|]. cbn. rewrite Nat.add_0_r. f_equal. rewrite <-IH. apply imap_ext.
  intros. cbn. do 2 f_equal. lia.
Qed.

Lemma is_q_indexed side a b i : no_dot a = true -> no_dot b = true ->
  is_q side ((a +:+ "." +:+ b) +:+ "." +:+ nat_str i) = String.eqb b "q" && String.eqb a side.
Proof. intros Ha Hb. unfold is_q. by rewrite split_indexed. Qed.

Lemma seq_shift off k d : (fun i => off + i) <$> seq k d = seq (off + k) d.
Proof. revert k. induction d as [|d IH]; intros k; [done|]. cbn. rewrite IH. do 2 f_equal. lia. Qed.

Lemma q_cols_block side off a b d : no_dot a = true -> no_dot b = true ->
  q_cols side (numbered off (indexed (a +:+ "." +:+ b) d)) = if String.eqb b "q" && String.eqb a side then seq off d else [].
Proof.
  intros Ha Hb. unfold q_cols. rewrite numbered_indexed.
  assert (forall l, (List.filter (fun x => is_q side x.2) ((fun i => (off + i, (a +:+ "." +:+ b) +:+ "." +:+ nat_str i)) <$> l)).*1 =
    if String.eqb b "q" && String.eqb a side then (fun i => off + i) <$> l else []) as H.
  { induction l as [|i l IH]; cbn [fmap list_fmap List.filter snd]; [by case_match|].
    rewrite is_q_indexed by done. destruct (_ && _); cbn; by rewrite IH. }
  rewrite H, seq_shift, Nat.add_0_r. done.
Qed.

Lemma q_cols_app side l l' : q_cols side (l ++ l') = q_cols side l ++ q_cols side l'.
Proof. unfold q_cols. rewrite List.filter_app. by rewrite fmap_app. Qed.

(** The columns of a state vector, block by block. *)
Definition key_names (k : string * string) (d : nat) : list string := indexed (k.1 +:+ "." +:+ k.2) d.

Lemma state_names_blocks arms ks nms bl off nms' bl' off' :
  foldM_res (state_step arms) ks (nms, bl, off) = Ok (nms', bl', off') ->
  exists ds, mapM_res (signal_dim arms) ks = Ok ds /\ nms' = nms ++ concat (zip_with key_names ks ds).
Proof.
  revert nms bl off. induction ks as [|k ks IH]; intros nms bl off H; cbn [foldM_res] in H.
  - injection H as <- <- <-. exists []. by rewrite app_nil_r.
  - unfold state_step at 1 in H. destruct (signal_dim arms k) as [d|] eqn:Ed; [|done]. cbn [res_bind] in H.
    apply IH in H as (ds & Hm & ->). exists (d :: ds). cbn [mapM_res]. rewrite Ed. cbn [res_bind]. rewrite Hm.
    split; [done|]. cbn. by rewrite <-app_assoc.
Qed.

(** Picking consecutive columns of a vector made of blocks. *)
Lemma pick_seq pre (a : list f64) post : pick (pre ++ a ++ post) (seq (length pre) (length a)) = Ok a.
Proof.
  revert pre. induction a as [|x a IH]; intros pre; [done|]. unfold pick in *. cbn [length seq mapM_res].
  rewrite lookup_app_r, Nat.sub_diag by lia. cbn [app lookup list_lookup of_option res_bind].
  specialize (IH (pre ++ [x])). rewrite length_app, <-app_assoc in IH. cbn in IH.
  replace (S (length pre)) with (length pre + 1) by lia. by rewrite IH.
Qed.

Definition dotless (k : string * string) : Prop := no_dot k.1 = true /\ no_dot k.2 = true.

Lemma state_value_length values (k : string * string) d : (exists v, dget k values = Some v /\ length v = d) ->
  length (state_value values k) = d.
Proof. intros (v & Hv & <-). unfold state_value. rewrite Hv. cbn. apply length_fmap. Qed.

(** The joint columns of a side point at its joints. *)
Lemma q_cols_pick values side ks ds :
  Forall2 (fun k d => exists v, dget k values = Some v /\ length v = d) ks ds -> Forall dotless ks -> NoDup ks ->
  forall pre, let vec := pre ++ concat (state_value values <$> ks) in
  let cols := q_cols side (numbered (length pre) (concat (zip_with key_names ks ds))) in
  if decide ((side, "q") ∈ ks) then pick vec cols = Ok (state_value values (side, "q")) else cols = [].
Proof.
  intros Hf. induction Hf as [|k d ks ds Hkd _ IH]; intros Hdot Hnd pre; cbv zeta.
  { rewrite decide_False; [done|]. by intros ?%elem_of_nil. }
  apply Forall_cons in Hdot as [[Hd1 Hd2] Hdot]. apply list.NoDup_cons in Hnd as [Hk Hnd].
  assert (length (state_value values k) = d) as Hlen by (by apply state_value_length).
  cbn [zip_with concat fmap list_fmap].
  assert (q_cols side (numbered (length pre) (key_names k d ++ concat (zip_with key_names ks ds))) =
    (if String.eqb k.2 "q" && String.eqb k.1 side then seq (length pre) d else []) ++
    q_cols side (numbered (length pre + d) (concat (zip_with key_names ks ds)))) as ->.
  { rewrite numbered_app, q_cols_app. unfold key_names at 1 2. by rewrite length_indexed, q_cols_block. }
  specialize (IH Hdot Hnd (pre ++ state_value values k)). cbv zeta in IH. rewrite length_app, Hlen, <-app_assoc in IH.
  destruct (String.eqb_spec k.2 "q") as [E2|E2]; [destruct (String.eqb_spec k.1 side) as [E1|E1]|]; cbn [andb].
  - assert (k = (side, "q")) as -> by (destruct k; cbn in *; by subst). rewrite decide_False in IH by done.
    rewrite IH, app_nil_r, decide_True by left. rewrite <-Hlen. apply pick_seq.
  - cbn [app]. assert ((side, "q") ∈ k :: ks <-> (side, "q") ∈ ks) as Hiff.
    { rewrite elem_of_cons. split; [|by right]. intros [<-|]; [done|done]. }
    destruct (decide (_ ∈ ks)), (decide (_ ∈ k :: ks)); [exact IH|exfalso; tauto|exfalso; tauto|exact IH].
  - cbn [app]. assert ((side, "q") ∈ k :: ks <-> (side, "q") ∈ ks) as Hiff.
    { rewrite elem_of_cons. split; [|by right]. intros [<-|]; [done|done]. }
    destruct (decide (_ ∈ ks)), (decide (_ ∈ k :: ks)); [exact IH|exfalso; tauto|exfalso; tauto|exact IH].
Qed.

Lemma dget_q_index names side :
  dget side (state_q_index names) = match q_columns side names with [] => None | c => Some c end.
Proof. unfold state_q_index, q_columns. rewrite q_index_fold. by destruct (q_cols side _). Qed.

Lemma pick_within v idx x : pick v idx = Ok x -> idx <> [] -> within (length v) idx = true.
Proof.
  intros H Hne. unfold within. rewrite bool_decide_false by done. apply forallb_forall.
  intros i Hi%list_elem_of_In. apply Nat.ltb_lt. apply list_elem_of_lookup in Hi as [j Hj].
  apply mapM_res_Forall2 in H. destruct (Forall2_lookup_l _ _ _ _ _ H Hj) as (y & _ & Hy).
  destruct (v !! i) eqn:E; [|done]. by apply lookup_lt_Some in E.
Qed.

Lemma pick_length v idx x : pick v idx = Ok x -> length x = length idx.
Proof. intros H%mapM_res_Forall2. symmetry. by eapply Forall2_length. Qed.

Lemma dkeys_filter {A} (f : string * A -> bool) l k : k ∈ dkeys (List.filter f l) -> k ∈ dkeys l.
Proof.
  unfold dkeys. rewrite !list_elem_of_fmap. intros (x & -> & [Hx _]%list_elem_of_In%filter_In). exists x.
  split; [done|by apply list_elem_of_In].
Qed.

Lemma NoDup_filter_keys {A} (f : string * A -> bool) l : NoDup (dkeys l) -> NoDup (dkeys (List.filter f l)).
Proof.
  induction l as [|x l IH]; [done|]. cbn. intros [Hx Hl]%list.NoDup_cons. destruct (f x); [|by apply IH]. cbn.
  apply list.NoDup_cons. split; [|by apply IH]. intros H. by apply Hx, (dkeys_filter f).
Qed.

(** Filling a dictionary for a list of keys. *)
Lemma fill_dict {A} (f : string -> res A) l d0 : NoDup l -> (forall k, k ∈ l -> exists v, f k = Ok v) ->
  exists d, foldM_res (fun d k => let? v := f k in Ok (dset k v d)) l d0 = Ok d /\
    forall k, dget k d = if decide (k ∈ l) then match f k with Ok v => Some v | Raise _ => None end else dget k d0.
Proof.
  intros Hnd. revert d0. induction Hnd as [|x l Hx _ IH]; intros d0 Hf; cbn [foldM_res].
  { exists d0. split; [done|]. intros k. rewrite decide_False; [done|]. by intros ?%elem_of_nil. }
  destruct (Hf x ltac:(left)) as (v & Hv). rewrite Hv. cbn [res_bind].
  destruct (IH (dset x v d0)) as (d & -> & Hd); [intros; apply Hf; by right|]. exists d. split; [done|].
  intros k. rewrite Hd. destruct (decide (k = x)) as [->|Hne].
  - rewrite decide_False by done. rewrite decide_True by left. rewrite Hv. apply dget_dset_eq.
  - rewrite dget_dset_ne by done. destruct (decide (k ∈ l)) as [Hin|Hn].
    + rewrite decide_True by (by right). done.
    + rewrite decide_False; [done|]. by rewrite elem_of_cons; intros [].
Qed.

(** ** The columns of an action *)

Definition side_names (s : string) (fd : string * nat) : list string :=
  indexed (s +:+ "." +:+ fd.1) fd.2 ++ [s +:+ ".gripper"].

(** The layout read back from the names. *)
Fixpoint laid_out (off : nat) (ss : list string) (fds : list (string * nat)) : list (string * action_block) :=
  match ss, fds with
  | s :: ss, fd :: fds => (s, Block (Some fd.1) (seq off fd.2) (Some (off + fd.2))) :: laid_out (off + fd.2 + 1) ss fds
  | _, _ => []
  end.

Lemma column_cmd acc i s f j b : no_dot s = true -> no_dot f = true -> dget s acc = Some b ->
  action_column acc (i, (s +:+ "." +:+ f) +:+ "." +:+ nat_str j) = dset s (Block (Some f) (ab_cmd b ++ [i]) (ab_gripper b)) acc.
Proof. intros Hs Hf Hb. unfold action_column. cbn [fst snd]. by rewrite split_indexed, Hb. Qed.

Lemma dset_last {A} (k : string) (v v' : A) acc : k ∉ dkeys acc -> dset k v (acc ++ [(k, v')]) = acc ++ [(k, v)].
Proof.
  induction acc as [|[k' x] acc IH]; cbn; [by rewrite decide_True|]. intros [Hne Hk]%not_elem_of_cons.
  rewrite decide_False by done. by rewrite IH.
Qed.

Lemma dget_last {A} (k : string) (v : A) acc : k ∉ dkeys acc -> dget k (acc ++ [(k, v)]) = Some v.
Proof.
  induction acc as [|[k' x] acc IH]; cbn; [by rewrite decide_True|]. intros [Hne Hk]%not_elem_of_cons.
  by rewrite decide_False, IH.
Qed.

Lemma columns_cmd acc off s f l b : no_dot s = true -> no_dot f = true -> s ∉ dkeys acc ->
  foldl action_column (acc ++ [(s, b)]) ((fun i => (off + i, (s +:+ "." +:+ f) +:+ "." +:+ nat_str i)) <$> l) =
  acc ++ [(s, Block (match l with [] => ab_field b | _ => Some f end) (ab_cmd b ++ ((fun i => off + i) <$> l)) (ab_gripper b))].
Proof.
  intros Hs Hf Hn. revert b. induction l as [|i l IH]; intros b; cbn [fmap list_fmap foldl].
  { rewrite app_nil_r. by destruct b. }
  rewrite (column_cmd _ _ _ _ _ b) by (done || by apply dget_last). rewrite dset_last, IH by done. cbn.
  rewrite <-app_assoc. cbn. by destruct l.
Qed.

Lemma columns_side acc off s fd : no_dot s = true -> no_dot fd.1 = true -> 0 < fd.2 -> s ∉ dkeys acc ->
  foldl action_column acc (numbered off (side_names s fd)) =
  acc ++ [(s, Block (Some fd.1) (seq off fd.2) (Some (off + fd.2)))].
Proof.
  intros Hs Hf Hd Hn. unfold side_names. rewrite numbered_app, length_indexed, foldl_app, numbered_indexed.
  destruct fd as [f [|d]]; cbn [fst snd] in *; [lia|]. cbn [seq fmap list_fmap foldl].
  unfold action_column at 3. cbn [fst snd]. rewrite split_indexed by done.
  rewrite (proj2 (dget_None s acc)) by done. cbn [default ab_cmd ab_gripper app]. rewrite dkeys_dset_new by done.
  rewrite columns_cmd by done. cbn [ab_field ab_cmd ab_gripper]. rewrite seq_shift.
  unfold numbered. cbn [imap foldl]. unfold action_column. cbn [fst snd]. rewrite split_gripper by done.
  rewrite dget_last by done. cbn [default String.eqb Ascii.eqb Bool.eqb]. cbn [ab_field ab_cmd ab_gripper].
  rewrite dset_last by done. rewrite !Nat.add_0_r, Nat.add_1_r. by destruct (seq 1 d).
Qed.

Lemma laid_out_keys off ss fds : length ss = length fds -> dkeys (laid_out off ss fds) = ss.
Proof.
  revert off fds. induction ss as [|s ss IH]; intros off [|fd fds]; cbn; try done. intros [= H].
  unfold dkeys in *. by rewrite IH.
Qed.

Lemma action_layout_names ss fds acc off : length ss = length fds ->
  Forall (fun s => no_dot s = true) ss -> Forall (fun fd => no_dot fd.1 = true /\ 0 < fd.2) fds ->
  NoDup (dkeys acc ++ ss) ->
  foldl action_column acc (numbered off (concat (zip_with side_names ss fds))) = acc ++ laid_out off ss fds.
Proof.
  revert fds acc off. induction ss as [|s ss IH]; intros [|fd fds] acc off Hl Hs Hf Hnd; try done; [cbn; by rewrite app_nil_r|].
  cbn in Hl. injection Hl as Hl. apply Forall_cons in Hs as [Hs1 Hs]. apply Forall_cons in Hf as [[Hf1 Hf2] Hf].
  cbn [zip_with concat]. rewrite numbered_app, foldl_app, columns_side; try done.
  2:{ intros Hin. apply list.NoDup_app in Hnd as (_ & Hd & _). apply (Hd s Hin). left. }
  rewrite IH; try done.
  - rewrite <-app_assoc. do 2 f_equal. cbn. unfold side_names at 1. rewrite length_app, length_indexed. cbn. f_equal. f_equal. lia.
  - unfold dkeys. rewrite fmap_app. cbn. by rewrite <-app_assoc.
Qed.

Lemma action_names_blocks arms ss a a' : foldM_res (action_step arms) ss a = Ok a' -> NoDup ss ->
  exists fds, Forall2 (fun s fd => dget s (aa_field a') = Some fd.1 /\
      exists arm, dget s arms = Some arm /\ action_field (arm_control arm) = Ok fd.1 /\
      Channel.action_dim (arm_control arm) = Ok fd.2) ss fds /\
    aa_names a' = aa_names a ++ concat (zip_with side_names ss fds).
Proof.
  intros H Hnd. revert a H. induction Hnd as [|s ss Hs _ IH]; intros a H; cbn [foldM_res] in H.
  { injection H as <-. exists []. split; [done|]. by rewrite app_nil_r. }
  destruct (action_step arms a s) as [a1|] eqn:E; [|done]. cbn [res_bind] in H.
  pose proof (action_step_frame _ _ _ _ s H Hs) as (_ & _ & Hfield). apply IH in H as (fds & Hf & Hn).
  unfold action_step in E. destruct (dget s arms) as [arm|] eqn:Ea; [|done]. cbn [of_option res_bind] in E.
  destruct (action_field _) as [f|] eqn:Ef; [|done]. cbn [res_bind] in E.
  destruct (Channel.action_dim _) as [d|] eqn:Ed; [|done]. cbn [res_bind] in E. injection E as <-. cbn [aa_names aa_field] in Hn, Hfield.
  rewrite dget_dset_eq in Hfield. exists ((f, d) :: fds). split; [constructor; eauto 10|]. rewrite Hn. cbn [zip_with concat].
  unfold side_names at 2. cbn [fst snd]. by rewrite <-!app_assoc.
Qed.

(** What the replay makes of one side of a packed action. *)
Lemma frame_action_blocks primary gripper real_q ss fds pre ghost acts :
  Forall2 (fun s fd => block_fits primary s fd.2) ss fds -> Forall (fun fd : string * nat => 0 < fd.2) fds -> NoDup ss ->
  exists r, foldM_res (frame_action (pre ++ blocks primary gripper ss) real_q) (laid_out (length pre) ss fds) (ghost, acts) = Ok r /\
    (forall i s fd, ss !! i = Some s -> fds !! i = Some fd ->
      dget s r.2 = Some (f32 <$> default [] (dget s primary), f32 (default f0 (dget s gripper))) /\
      dget s r.1 = if bool_decide (fd.1 = "q_d") && dmem s real_q then Some (f32 <$> default [] (dget s primary)) else dget s ghost) /\
    (forall s, s ∉ ss -> dget s r.1 = dget s ghost /\ dget s r.2 = dget s acts).
Proof.
  intros Hf. revert pre ghost acts. induction Hf as [|s fd ss fds (v & Hv & Hlv) _ IH]; intros pre ghost acts Hpos Hnd.
  { exists (ghost, acts). split_and!; [done|by intros [|i]|done]. }
  apply Forall_cons in Hpos as [Hp Hpos]. apply list.NoDup_cons in Hnd as [Hs Hnd].
  set (vec := pre ++ blocks primary gripper (s :: ss)).
  assert (vec = pre ++ (f32 <$> v) ++ [f32 (default f0 (dget s gripper))] ++ blocks primary gripper ss) as Hvec.
  { unfold vec, blocks. cbn. unfold side_block at 1. rewrite Hv. cbn. by rewrite <-!app_assoc. }
  assert (pick vec (seq (length pre) fd.2) = Ok (f32 <$> v)) as Hpick.
  { rewrite Hvec, <-Hlv, <-(length_fmap f32 v). apply pick_seq. }
  assert (vec !! (length pre + fd.2) = Some (f32 (default f0 (dget s gripper)))) as Hg.
  { rewrite Hvec, lookup_app_r by lia. rewrite <-Hlv. replace (length pre + length v - length pre) with (length (f32 <$> v)) by (rewrite length_fmap; lia).
    cbn [app]. by apply list_lookup_middle. }
  cbn [laid_out foldM_res]. unfold frame_action at 1. cbn [ab_cmd ab_gripper ab_field].
  rewrite (pick_within _ _ _ Hpick) by (destruct fd as [f [|d]]; cbn in *; [lia|done]).
  rewrite Hpick, Hg. cbn [res_bind default].
  assert (bool_decide (Some fd.1 = Some "q_d") = bool_decide (fd.1 = "q_d")) as Hbd.
  { apply bool_decide_ext. split; [by intros [=]|by intros ->]. }
  rewrite Hbd. set (ghost' := if bool_decide (fd.1 = "q_d") && dmem s real_q then dset s (f32 <$> v) ghost else ghost).
  set (acts' := dset s _ acts).
  destruct (IH (pre ++ side_block primary gripper s) ghost' acts' Hpos Hnd) as (r & Hr & Hin & Hout).
  assert (length (pre ++ side_block primary gripper s) = length pre + fd.2 + 1) as Hlen.
  { unfold side_block. rewrite Hv. cbn. rewrite !length_app, length_fmap. cbn. lia. }
  rewrite Hlen, <-app_assoc in Hr.
  exists r. split; [|split].
  - change (side_block primary gripper s ++ blocks primary gripper ss) with (blocks primary gripper (s :: ss)) in Hr. fold vec in Hr.
    unfold ghost' in Hr. destruct (bool_decide (fd.1 = "q_d") && dmem s real_q); exact Hr.
  - intros [|i] s' fd'.
    2:{ cbn. intros Hi Hfd. destruct (Hin i s' fd' Hi Hfd) as [-> ->]. split; [done|].
        assert (s' <> s) by (intros ->; by apply Hs, (list_elem_of_lookup_2 _ i)).
        enough (dget s' ghost' = dget s' ghost) as -> by done.
        unfold ghost'. destruct (_ && _); [by rewrite dget_dset_ne|done]. }
    intros [= <-] [= <-]. destruct (Hout s Hs) as [-> ->]. rewrite Hv. cbn [default].
    split; [apply dget_dset_eq|]. unfold ghost'. destruct (_ && _); [apply dget_dset_eq|done].
  - intros s' [Hne Hn]%not_elem_of_cons. destruct (Hout s' Hn) as [-> ->]. unfold ghost', acts'.
    rewrite dget_dset_ne by done. split; [|done]. destruct (_ && _); [by rewrite dget_dset_ne|done].
Qed.

(** ** Recording and replaying *)

Section recorded.
Context (str_of : json -> string) (Hstr : forall s, str_of (jstr s) = s).

(** A feature table that stores the layout's column names. *)
Definition stores_names (key : string) (names : list string) (features : list (string * json)) : Prop :=
  exists o, dget key features = Some (Obj o) /\ o <> [] /\ dget "names" o = Some (Arr (jstr <$> names)).

Lemma stored_names key names features : stores_names key names features ->
  feature_names str_of (dget key features) = Ok names.
Proof.
  intros (o & Ho & Hne & Hn). unfold feature_names. rewrite Ho. destruct o as [|x o]; [done|].
  change (py_or (default jnull (Some (Obj (x :: o)))) (Obj [])) with (Obj (x :: o)).
  unfold jget. rewrite Hn. cbn [default res_bind]. f_equal.
  induction names as [|n names IH]; [done|]. cbn. rewrite Hstr. f_equal.
  clear -Hstr. induction names as [|n names IH]; [done|]. cbn. by rewrite Hstr, IH.
Qed.

(** Values that were packed had the widths of their blocks. *)
Lemma packed_state_fits values ks ds l : length ds = length ks ->
  state_map l = zip ks (imap (fun i d => (0 + nsum (take i ds), 0 + nsum (take i ds) + d)) ds) ->
  forall v, pack_state l values = Ok v -> Forall2 (fun k d => exists v, dget k values = Some v /\ length v = d) ks ds.
Proof.
  intros Hl Hm v H. unfold pack_state in H. apply foldM_each in H. rewrite Forall_lookup in H.
  apply Forall2_same_length_lookup. split; [done|]. intros i k d Hk Hd.
  destruct (H i (k, (0 + nsum (take i ds), 0 + nsum (take i ds) + d))) as (s1 & s2 & Hs).
  { rewrite Hm. apply lookup_zip_with_Some. exists k, (0 + nsum (take i ds), 0 + nsum (take i ds) + d). split_and!; [done|done|].
    rewrite list_lookup_imap, Hd. done. }
  unfold pack_state_step in Hs. cbn [fst snd] in Hs. destruct (dget k values) as [x|]; [|done]. cbn [of_option res_bind] in Hs.
  exists x. split; [done|]. rewrite length_fmap in Hs.
  destruct (length x =? _) eqn:E; [|done]. apply Nat.eqb_eq in E. lia.
Qed.

Lemma packed_action_fits l primary gripper off ss ds v act : tiled l off ss ds ->
  foldM_res (pack_action_step l primary gripper) ss act = Ok v -> Forall2 (block_fits primary) ss ds.
Proof.
  revert off ds act. induction ss as [|s ss IH]; intros off [|d ds] act Ht H; try done.
  destruct Ht as (Hp & _ & _ & Ht). cbn [foldM_res] in H.
  destruct (pack_action_step _ _ _ act s) as [act'|] eqn:E; [|done]. constructor; [|by eapply IH].
  unfold pack_action_step, primary_slice in E. destruct (dget s primary) as [x|] eqn:Ex; [|done]. rewrite Hp in E.
  cbn [of_option res_bind fst snd] in E. rewrite length_fmap in E.
  destruct (length x =? _) eqn:El; [|done]. apply Nat.eqb_eq in El. exists x. split; [done|lia].
Qed.

Lemma action_field_no_dot c f : action_field c = Ok f -> no_dot f = true.
Proof.
  unfold action_field. destruct (dget (kind c) ACTION_PRIMARY) as [x|] eqn:E; [|done]. intros [= <-]. apply dget_In in E.
  repeat (apply elem_of_cons in E as [[= _ ->]|E]; [done|]). by apply elem_of_nil in E.
Qed.

(** The poses of one frame. *)
Lemma frame_poses values ks ds v : Forall2 (fun k d => exists v, dget k values = Some v /\ length v = d) ks ds ->
  Forall dotless ks -> NoDup ks -> v = concat (state_value values <$> ks) ->
  let q_index := state_q_index (concat (zip_with key_names ks ds)) in
  let pose_sides := dkeys (List.filter (fun x => within (length v) x.2) q_index) in
  exists real_q, foldM_res (fun d side =>
      let? idx := of_option KeyError (dget side q_index) in
      let? q := pick v idx in Ok (dset side q d)) pose_sides [] = Ok real_q /\
    forall side, dget side real_q =
      if decide ((side, "q") ∈ ks) then match state_value values (side, "q") with [] => None | q => Some q end else None.
Proof.
  intros Hf Hdot Hnd -> q_index pose_sides. set (v := concat _).
  assert (forall side, if decide ((side, "q") ∈ ks)
    then pick v (q_columns side (concat (zip_with key_names ks ds))) = Ok (state_value values (side, "q"))
    else q_columns side (concat (zip_with key_names ks ds)) = []) as Hq.
  { intros side. pose proof (q_cols_pick values side ks ds Hf Hdot Hnd []) as H. exact H. }
  assert (NoDup (dkeys q_index)) as Hnq by (apply q_index_NoDup, NoDup_nil_2).
  assert (forall side, side ∈ pose_sides <-> (side, "q") ∈ ks /\ state_value values (side, "q") <> []) as Hside.
  { intros side. unfold pose_sides, dkeys. rewrite list_elem_of_fmap. specialize (Hq side). split.
    - intros ([s idx] & -> & [Hin _]%list_elem_of_In%filter_In). cbn [fst] in *.
      apply list_elem_of_In, dget_NoDup in Hin; [|done]. unfold q_index in Hin. rewrite dget_q_index in Hin.
      destruct (decide _); [|by rewrite Hq in Hin]. split; [done|]. intros E. rewrite E in Hq. apply pick_length in Hq.
      by destruct (q_columns _ _).
    - intros [Hin Hne]. rewrite decide_True in Hq by done. pose proof (pick_length _ _ _ Hq) as Hlen.
      assert (q_columns side (concat (zip_with key_names ks ds)) <> []) as Hc.
      { intros E. rewrite E in Hlen. by destruct (state_value _ _). }
      exists (side, q_columns side (concat (zip_with key_names ks ds))). split; [done|].
      apply list_elem_of_In, filter_In. split; [|exact (pick_within _ _ _ Hq Hc)].
      apply list_elem_of_In, dget_In. unfold q_index. rewrite dget_q_index. by destruct (q_columns _ _). }
  edestruct (fill_dict (fun side => let? idx := of_option KeyError (dget side q_index) in pick v idx) pose_sides [])
    as (real_q & Hr & Hget).
  - by apply NoDup_filter_keys.
  - intros side [Hin Hne]%Hside. unfold q_index. rewrite dget_q_index. specialize (Hq side). rewrite decide_True in Hq by done.
    destruct (q_columns _ _) eqn:E; [exfalso; apply Hne; by injection Hq|]. rewrite <-E in *. cbn. rewrite Hq. by eexists.
  - exists real_q. split.
    + rewrite <-Hr. clear. generalize (@nil (string * list f64)). induction pose_sides as [|s l IH]; intros d; [done|].
      cbn [foldM_res]. destruct (dget s q_index); [|done]. cbn [of_option res_bind]. destruct (pick v l0); [|done]. cbn [res_bind]. apply IH.
    + intros side. rewrite Hget. cbn [dget]. specialize (Hq side). destruct (decide (side ∈ pose_sides)) as [Hp|Hp].
      * apply Hside in Hp as [Hin Hne]. destruct (decide ((side, "q") ∈ ks)); [|done]. unfold q_index. rewrite dget_q_index.
        destruct (q_columns _ _) eqn:E; [exfalso; apply Hne; by injection Hq|]. rewrite <-E in *. cbn. rewrite Hq. by destruct (state_value _ _).
      * destruct (decide _) as [Hin|]; [|done]. destruct (state_value _ _) eqn:E; [done|]. exfalso. apply Hp, Hside. by rewrite E.
Qed.

Lemma frame_images (cams : list (string * string)) (it : @item ndimage) : NoDup cams.*1 ->
  Forall (fun nk => is_Some (dget nk.2 (it_images it))) cams ->
  forall d0, exists d, foldM_res (fun d nk =>
    let? im := of_option KeyError (dget nk.2 (it_images it)) in Ok (dset nk.1 (to_hwc_uint8 im) d)) cams d0 = Ok d /\
  (forall nk, nk ∈ cams -> dget nk.1 d = to_hwc_uint8 <$> dget nk.2 (it_images it)) /\ (forall k, k ∉ cams.*1 -> dget k d = dget k d0).
Proof.
  intros Hnd Hall. induction Hall as [|[n k] cams [im Him] _ IH]; intros d0.
  { exists d0. split_and!; [done|by intros ? ?%elem_of_nil|done]. }
  cbn in Hnd. apply list.NoDup_cons in Hnd as [Hn Hnd]. cbn [foldM_res fst snd]. cbn in Him. rewrite Him. cbn [of_option res_bind].
  destruct (IH Hnd (dset n (to_hwc_uint8 im) d0)) as (d & -> & Hin & Hout). exists d. split_and!; [done| |].
  - intros nk [->|H]%elem_of_cons; [|by apply Hin]. cbn. rewrite Hout, Him by done. apply dget_dset_eq.
  - intros k' [Hne Hk]%not_elem_of_cons. rewrite Hout by done. by apply dget_dset_ne.
Qed.

(** How one recorded item comes back. *)
Record replayed (arms : list (string * ArmShape)) (l : DFCStateActionLayout) (cams : list string)
    (values : list ((string * string) * list f64)) (primary : list (string * list f64)) (gripper : list (string * f64))
    (it : @item ndimage) (fr : @frame ndimage) : Prop := {
  rp_time : fm_t fr = it_time it;
  rp_poses : forall side, dget side (fm_real_q fr) =
    if decide ((side, "q") ∈ state_keys (sorted_sides arms) (state_signals l))
    then match state_value values (side, "q") with [] => None | q => Some q end else None;
  rp_action : forall side, side ∈ sides l -> dget side (fm_action fr) =
    Some (f32 <$> default [] (dget side primary), f32 (default f0 (dget side gripper)));
  rp_ghost : forall side, dget side (fm_ghost_q fr) =
    if bool_decide (side ∈ sides l) && bool_decide (dget side (field_map l) = Some "q_d") && dmem side (fm_real_q fr)
    then Some (f32 <$> default [] (dget side primary)) else None;
  rp_images : forall key, key ∈ cams -> dget (camera_label key) (fm_images fr) = to_hwc_uint8 <$> dget key (it_images it);
}.

(** What a row was recorded from. *)
Record recorded_row := RecRow {
  rr_values : list ((string * string) * list f64);
  rr_primary : list (string * list f64);
  rr_gripper : list (string * f64);
}.

Record row_packed (l : DFCStateActionLayout) (cams : list string) (r : recorded_row) (it : @item ndimage) : Prop := {
  rk_state : pack_state l (rr_values r) = Ok (it_state it);
  rk_action : pack_action l (rr_primary r) (rr_gripper r) = Ok (it_action it);
  rk_images : Forall (fun key => is_Some (dget key (it_images it))) cams;
}.

(** The facts about a layout the replay relies on. *)
Lemma layout_columns arms sigs acts l : NoDup (dkeys arms) -> NoDup sigs -> from_arms arms sigs acts = Ok l ->
  exists ds fds, let ks := state_keys (sorted_sides arms) sigs in
    NoDup ks /\ length ds = length ks /\ state_names l = concat (zip_with key_names ks ds) /\
    state_map l = zip ks (imap (fun i d => (0 + nsum (take i ds), 0 + nsum (take i ds) + d)) ds) /\
    state_dim l = nsum ds /\ state_signals l = sigs /\
    NoDup (sides l) /\ action_names l = concat (zip_with side_names (sides l) fds) /\ tiled l 0 (sides l) fds.*2 /\
    Forall2 (fun s fd => dget s (field_map l) = Some fd.1 /\ no_dot fd.1 = true /\
      exists arm, dget s arms = Some arm /\ Channel.action_dim (arm_control arm) = Ok fd.2) (sides l) fds.
Proof.
  intros Hk Hs Hok. assert (state_signals l = sigs) as Hsig by (unfold from_arms in Hok; destruct (existsb _ _); [done|]; by res_simp).
  apply from_arms_ok in Hok as (a & Ha & Hsides & Hnames & Hfm & Hpm & Hgm & Hdim & Hst).
  assert (NoDup (sides l)) as Hnd.
  { rewrite Hsides. apply NoDup_filter_list. by rewrite (sorted_sides_perm arms). }
  assert (NoDup (state_keys (sorted_sides arms) sigs)) as Hnk.
  { apply NoDup_state_keys; [by rewrite (sorted_sides_perm arms)|done]. }
  pose proof (state_names_blocks _ _ _ _ _ _ _ _ Hst) as (ds & Hds & Hsn).
  apply state_fold_blocks in Hst as (ds' & Hds' & Hoff & Hmap); [|done|by intros ? _ ?%elem_of_nil].
  rewrite Hds in Hds'. injection Hds' as <-.
  destruct (action_names_blocks _ _ _ _ Ha Hnd) as (fds & Hfds & Han).
  destruct (action_fold_tiled _ _ _ _ l Ha Hnd Hpm Hgm Hfm Hdim eq_refl) as [_ (ds' & Ht & Hds')].
  assert (ds' = fds.*2) as ->.
  { clear -Hfds Hds'. revert ds' Hds'. induction Hfds as [|s fd ss fds (_ & arm & Harm & _ & Hd) _ IH]; intros ds' H; inversion H; subst; [done|].
    destruct H2 as (arm' & Harm' & Hd'). cbn. f_equal; [congruence|by apply IH]. }
  exists ds, fds. cbv zeta. split_and!; try done.
  - apply mapM_res_Forall2, Forall2_length in Hds. done.
  - rewrite Hnames, Han. done.
  - eapply Forall2_impl; [exact Hfds|]. intros s fd (Hf & arm & Harm & Haf & Had). rewrite Hfm. split_and!; [done|by eapply action_field_no_dot|].
    by exists arm.
Qed.

Section with_layout.
Context (arms : list (string * ArmShape)) (sigs acts : list string) (l : DFCStateActionLayout).
Context (Hkeys : NoDup (dkeys arms)) (Hsigs : NoDup sigs) (Hlay : from_arms arms sigs acts = Ok l).
Context (Hsdots : Forall (fun s => no_dot s = true) (dkeys arms)) (Hgdots : Forall (fun s => no_dot s = true) sigs).
Context (Hwide : forall s arm d, s ∈ sides l -> dget s arms = Some arm -> Channel.action_dim (arm_control arm) = Ok d -> 0 < d).

Lemma keys_dotless : Forall dotless (state_keys (sorted_sides arms) sigs).
Proof.
  apply Forall_forall. intros k (s & Hk & Hs)%list_elem_of_bind. apply list_elem_of_fmap in Hk as (g & -> & Hg).
  rewrite (sorted_sides_perm arms) in Hs. rewrite !Forall_forall in *. split; [by apply Hsdots|by apply Hgdots].
Qed.

(** One packed item read back. *)
Lemma read_frame_ok cams (it : @item ndimage) values primary gripper n :
  pack_state l values = Ok (it_state it) -> pack_action l primary gripper = Ok (it_action it) -> n = state_dim l ->
  NoDup (camera_label <$> cams) -> Forall (fun key => is_Some (dget key (it_images it))) cams ->
  let q_index := state_q_index (state_names l) in
  exists fr, read_frame q_index (dkeys (List.filter (fun x => within n x.2) q_index)) (action_layout (action_names l))
      (zip (camera_label <$> cams) cams) it = Ok fr /\
    replayed arms l cams values primary gripper it fr /\ length (it_state it) = state_dim l.
Proof.
  intros Hps Hpa -> Hnl Hims q_index.
  destruct (layout_columns _ _ _ _ Hkeys Hsigs Hlay) as (ds & fds & Hnk & Hld & Hsn & Hsm & Hsd & Hsg & Hnd & Han & Ht & Hfds).
  set (ks := state_keys (sorted_sides arms) sigs) in *.
  pose proof (packed_state_fits _ _ _ _ Hld Hsm _ Hps) as Hfit.
  destruct (pack_state_blocks values ks ds 0 (replicate (state_dim l) f0) (state_dim l) Hfit) as [Hlc Hpack]; [apply length_replicate|lia|].
  unfold pack_state in Hps. rewrite Hsm, Hpack, splice_all in Hps by (rewrite length_replicate; lia). injection Hps as Hps.
  assert (length (it_state it) = state_dim l) as Hls by (rewrite <-Hps; lia).
  destruct (frame_poses values ks ds (it_state it) Hfit keys_dotless Hnk (eq_sym Hps)) as (real_q & Hreal & Hposes).
  rewrite Hls, <-Hsn in Hreal. fold q_index in Hreal.
  unfold pack_action in Hpa. pose proof (packed_action_fits _ _ _ _ _ _ _ _ Ht Hpa) as Hbf.
  destruct (pack_action_tiled l primary gripper _ _ 0 (replicate (action_dim l) f0) Ht Hbf) as [Hla Hpack']; [apply length_replicate|].
  rewrite Hpack', splice_all in Hpa by (rewrite length_replicate; lia). injection Hpa as Hpa.
  assert (length (sides l) = length fds) as Hlf by (by eapply Forall2_length).
  assert (Forall (fun fd => no_dot fd.1 = true /\ 0 < fd.2) fds) as Hfd.
  { apply Forall_lookup. intros i fd Hi. destruct (Forall2_lookup_r _ _ _ _ _ Hfds Hi) as (s & Hs & _ & Hd & arm & Harm & Hdim).
    split; [done|]. eapply Hwide; [by eapply list_elem_of_lookup_2|done|done]. }
  assert (action_layout (action_names l) = laid_out 0 (sides l) fds) as Hal.
  { unfold action_layout. rewrite <-numbered_0, Han. apply (action_layout_names _ _ []); try done.
    apply Forall_forall. intros s Hs. apply layout_tiles in Hlay as (_ & Hin & _); [|done]. apply Hin in Hs as [_ Hs].
    rewrite Forall_forall in Hsdots. by apply Hsdots. }
  destruct (frame_action_blocks primary gripper real_q (sides l) fds [] [] []) as ((ghost & actd) & Hga & Hin & Hout).
  { exact (proj1 (Forall2_fmap_r snd (block_fits primary) _ _) Hbf). } { eapply Forall_impl; [exact Hfd|]. by intros fd []. } { done. }
  cbn [app length] in Hga. rewrite Hpa in Hga. cbn [fst snd] in Hin, Hout.
  destruct (frame_images (zip (camera_label <$> cams) cams) it) with (d0 := @nil (string * ndimage)) as (ims & Him & Himg & _).
  { by rewrite fst_zip by (by rewrite length_fmap). }
  { apply Forall_forall. intros [n k] Hz. rewrite Forall_forall in Hims. apply Hims. by apply elem_of_zip_r in Hz. }
  unfold read_frame. rewrite Hreal. cbn [res_bind]. rewrite Hal, Hga. cbn [res_bind]. rewrite Him. cbn [res_bind].
  eexists. split; [reflexivity|]. split; [|done]. split; cbn [fm_t fm_real_q fm_ghost_q fm_images fm_action fst snd]; try done.
  - intros side. rewrite Hposes, Hsg. done.
  - intros side (i & Hi)%list_elem_of_lookup. destruct (Forall2_lookup_l _ _ _ _ _ Hfds Hi) as (fd & Hfdi & _).
    by destruct (Hin i side fd Hi Hfdi).
  - intros side. case_bool_decide as Hs; cbn [andb].
    + apply list_elem_of_lookup in Hs as (i & Hi). destruct (Forall2_lookup_l _ _ _ _ _ Hfds Hi) as (fd & Hfdi & Hf & _).
      destruct (Hin i side fd Hi Hfdi) as [_ ->]. rewrite Hf.
      by rewrite (bool_decide_ext (Some fd.1 = Some "q_d") (fd.1 = "q_d")) by (split; [by intros [=]|by intros ->]).
    + by destruct (Hout side Hs) as [-> _].
  - intros key (i & Hi)%list_elem_of_lookup. apply (Himg (camera_label key, key)).
    apply (list_elem_of_lookup_2 _ i), lookup_zip_with_Some. exists (camera_label key), key. split_and!; [done| |done].
    by rewrite list_lookup_fmap, Hi.
Qed.

(** C36: An episode is replayed as it was recorded.  For a dataset that stores the column names of a
    layout, and an episode whose rows were packed by that layout from some values, primary commands
    and grippers, reading it back succeeds with one frame per row, in order: each arm's joints are the
    recorded [q], each side's action is the command and gripper it was packed from, the translucent
    arm is drawn exactly for the sides commanded by joint position that have a recorded pose, and each
    camera shows that row's image, turned to rows of pixels and to bytes.  Recorded numbers come back in
    single precision, in which the layout packs them. *)
Theorem replay_shows_recorded (ds : @dataset ndimage) ep lo hi (rec : nat -> recorded_row) :
  dt_episodes ds !! ep = Some (lo, hi) -> lo < hi ->
  stores_names "observation.state" (state_names l) (dt_features ds) ->
  stores_names "action" (action_names l) (dt_features ds) ->
  NoDup (camera_label <$> camera_keys (dt_features ds)) ->
  (forall i, lo <= i < hi -> exists it, dt_items ds !! i = Some it /\ row_packed l (camera_keys (dt_features ds)) (rec i) it) ->
  exists frames, read_episode str_of ds ep = Ok (frames, camera_label <$> camera_keys (dt_features ds)) /\
    length frames = hi - lo /\
    forall n fr, frames !! n = Some fr -> exists it, dt_items ds !! (lo + n) = Some it /\
      replayed arms l (camera_keys (dt_features ds)) (rr_values (rec (lo + n))) (rr_primary (rec (lo + n))) (rr_gripper (rec (lo + n))) it fr.
Proof.
  intros Hep Hlo Hsn Han Hnl Hrows. set (cams := camera_keys _) in *. unfold read_episode. rewrite Hep. cbn [of_option res_bind].
  rewrite (stored_names _ _ _ Hsn), (stored_names _ _ _ Han). cbn [res_bind]. fold cams.
  destruct (Hrows lo ltac:(lia)) as (first & Hfirst & [Hps Hpa Hims]). rewrite Hfirst. cbn [of_option res_bind].
  destruct (read_frame_ok cams first _ _ _ _ Hps Hpa eq_refl Hnl Hims) as (_ & _ & _ & Hdim). rewrite Hdim.
  match goal with |- context [mapM_res ?f _] => set (step := f) end.
  destruct (mapM_res_total_rel step (fun i fr => exists it, dt_items ds !! i = Some it /\
      replayed arms l cams (rr_values (rec i)) (rr_primary (rec i)) (rr_gripper (rec i)) it fr) (seq lo (hi - lo))) as (frames & Hf & Hall).
  { intros i Hi%elem_of_seq. destruct (Hrows i ltac:(lia)) as (it & Hit & [Hs Ha Him]).
    destruct (read_frame_ok cams it _ _ _ _ Hs Ha eq_refl Hnl Him) as (fr & Hfr & Hok & _).
    exists fr. split; [|by exists it]. unfold step. rewrite Hit. exact Hfr. }
  rewrite Hf. cbn [res_bind]. exists frames. split; [done|].
  pose proof (Forall2_length _ _ _ Hall) as Hlen. rewrite length_seq in Hlen. split; [done|].
  intros n fr Hn. destruct (Forall2_lookup_r _ _ _ _ _ Hall Hn) as (i & Hi & Hr). apply lookup_seq in Hi as [-> _]. exact Hr.
Qed.
End with_layout.
End recorded.

(** A two-frame episode of the bimanual robot. *)
Definition demo_row : recorded_row :=
  RecRow [(("right", "q"), replicate 7 f0); (("left", "q"), replicate 7 f1)]
    [("left", replicate 7 f1); ("right", replicate 7 f0)] [("left", f1)].
Definition demo_image : ndimage := NdImage [1; 1; 2] F32 [f1; f0].
Definition demo_item (t : f64) : @item ndimage :=
  Item t (replicate 7 f1 ++ replicate 7 f0) (replicate 8 f1 ++ replicate 8 f0) [("observation.images.front", demo_image)].
Definition demo_dataset : @dataset ndimage :=
  DataSet [("observation.state", Obj [("names", Arr (jstr <$> state_names bimanual_qpos))]);
           ("action", Obj [("names", Arr (jstr <$> action_names bimanual_qpos))]);
           ("observation.images.front", Obj [])]
    [(0, 1); (1, 3)] [demo_item f1; demo_item f0; demo_item f1].
Definition json_text (j : json) : string := match j with Scalar (JStr s) => s | _ => "" end.

Lemma replay_shows_recorded_witness : exists frames,
  read_episode json_text demo_dataset 1 = Ok (frames, ["front"]) /\ length frames = 2 /\
  forall n fr, frames !! n = Some fr -> dget "left" (fm_ghost_q fr) = Some (replicate 7 f1).
Proof.
  destruct (replay_shows_recorded json_text (fun s => eq_refl) rizon_pair ["q"] ["left"; "right"] bimanual_qpos
    rizon_pair_NoDup) with (ds := demo_dataset) (ep := 1) (lo := 1) (hi := 3) (rec := fun _ : nat => demo_row) as (frames & Hr & Hl & Hf).
  - repeat constructor; set_solver.
  - vm_compute. reflexivity.
  - repeat constructor.
  - repeat constructor.
  - intros s arm d [->|[->|[]%not_elem_of_nil]%elem_of_cons]%elem_of_cons [= <-] [= <-]; lia.
  - reflexivity.
  - lia.
  - eexists. split; [reflexivity|]. split; [discriminate|reflexivity].
  - eexists. split; [reflexivity|]. split; [discriminate|reflexivity].
  - repeat constructor; set_solver.
  - intros i Hi. exists (demo_item (if i =? 1 then f0 else f1)). split; [by assert (i = 1 \/ i = 2) as [-> | ->] by lia|].
    split; [by vm_compute..|]. repeat constructor. by eexists.
  - exists frames. split; [exact Hr|]. split; [exact Hl|]. intros n fr Hn. destruct (Hf n fr Hn) as (it & _ & Hrp).
    rewrite (rp_ghost _ _ _ _ _ _ _ _ Hrp). unfold dmem. rewrite (rp_poses _ _ _ _ _ _ _ _ Hrp). vm_compute. reflexivity.
Defined.
