(* ===== verification/ReplayView.v ===== *)
(** * The replay view

    Models [ReplayView] of [viser/replay.py] and the module's three singletons: an episode is loaded
    into a fresh scene, the slider shows a frame, and every press of Play starts a thread that walks
    the slider forward until it is paused, the episode ends, or another episode is loaded.

    The threads interleave with the buttons between any two of a thread's actions: [replay_event]
    performs one of them, and a run is a list of events.  Assigning the slider's value is one action
    with the drawing that follows it; whether Viser also calls the slider's handler does not matter,
    since it would draw the same frame again. *)

From Stdlib Require Import Reals String.
From S2P Require Import Prelude Float64 Text Json Convention Geometry Kinematics RobotView Layout ViewerStreams ViewerScene SceneModel Replay.
Local Open Scope string_scope.
Local Open Scope list_scope.
Local Open Scope nat_scope.

(** What the panel says. *)
Inductive replay_status :=
  | Loaded (frames : nat) (duration : f64)
  | Shown (index frames : nat) (t : f64).

Record plot := Plot { pl_title : string; pl_times : list f64; pl_series : list (list f64) }.

(** Where a play thread stands. *)
Inductive play_phase := AtTop | Sleeping (index : nat) | Moving (index : nat) | Finished.
Record player := Player { py_generation : nat; py_phase : play_phase }.

Section view.
(** Images, with their shape: rows and columns. *)
Context {J : Type} (shape : J -> nat * nat).
Context (is_file : string -> bool) (loads : string -> Z -> bool).
Context (chain : list (Link R)) (urdfs : string -> option (res (list (Link R)))) (pedestal : bool).
Local Abbreviation frame := (@Replay.frame J).

Record replay_view := View {
  rv_frames : list frame;
  rv_scene : option robot_scene;
  rv_slider : option nat;
  rv_playing : bool;
  rv_generation : nat;
  rv_handles : list (string * J);
  rv_plots : list plot;
  rv_status : option replay_status;
}.

Definition new_replay_view : replay_view := View [] None None false 0 [] [] None.

Definition set_playing (b : bool) (v : replay_view) : replay_view :=
  View (rv_frames v) (rv_scene v) (rv_slider v) b (rv_generation v) (rv_handles v) (rv_plots v) (rv_status v).
Definition set_slider (i : nat) (v : replay_view) : replay_view :=
  View (rv_frames v) (rv_scene v) (Some i) (rv_playing v) (rv_generation v) (rv_handles v) (rv_plots v) (rv_status v).
Definition set_scene (g : robot_scene) (v : replay_view) : replay_view :=
  View (rv_frames v) (Some g) (rv_slider v) (rv_playing v) (rv_generation v) (rv_handles v) (rv_plots v) (rv_status v).
Definition set_handles (h : list (string * J)) (v : replay_view) : replay_view :=
  View (rv_frames v) (rv_scene v) (rv_slider v) (rv_playing v) (rv_generation v) h (rv_plots v) (rv_status v).
Definition set_plots (p : list plot) (v : replay_view) : replay_view :=
  View (rv_frames v) (rv_scene v) (rv_slider v) (rv_playing v) (rv_generation v) (rv_handles v) p (rv_status v).
Definition set_status (s : replay_status) (v : replay_view) : replay_view :=
  View (rv_frames v) (rv_scene v) (rv_slider v) (rv_playing v) (rv_generation v) (rv_handles v) (rv_plots v) (Some s).

(** ** Showing a frame *)

(** The images of a frame, for the cameras that have a handle. *)
Definition show_images (images : list (string * J)) (handles : list (string * J)) : list (string * J) :=
  foldl (fun h x => if dmem x.1 h then dset x.1 x.2 h else h) handles images.

Definition show_frame (fr first : frame) (index : nat) (g : robot_scene) (v : replay_view) : replay_view * res unit :=
  match update_followers (reals_by (fm_real_q fr)) g with
  | Raise e => (v, Raise e)
  | Ok g =>
    match update_commands (reals_by (fm_ghost_q fr)) g with
    | Raise e => (set_scene g v, Raise e)
    | Ok g =>
      let v := set_handles (show_images (fm_images fr) (rv_handles v)) (set_scene g v) in
      (set_status (Shown index (length (rv_frames v)) (fsub (fm_t fr) (fm_t first))) v, Ok tt)
    end
  end.

(** [show]: the index is brought into range. *)
Definition show (index : Z) (v : replay_view) : replay_view * res unit :=
  match rv_frames v, rv_scene v with
  | first :: _, Some g =>
    let index := Z.to_nat (Z.max 0 (Z.min index (Z.of_nat (length (rv_frames v)) - 1))) in
    match rv_frames v !! index with
    | Some fr => show_frame fr first index g v
    | None => (v, Raise IndexError)
    end
  | _, _ => (v, Ok tt)
  end.

(** ** Loading an episode *)

(** [float(columns) / float(rows)] fails on an image without rows. *)
Definition has_aspect (im : J) : bool := negb ((shape im).1 =? 0).

(** The camera frustums: their handles, and whether the loop ran to its end. *)
Fixpoint add_frustums (images : list (string * J)) (names : list string) (handles : list (string * J)) :
    list (string * J) * res unit :=
  match names with
  | [] => (handles, Ok tt)
  | name :: rest =>
    match dget name images with
    | None => add_frustums images rest handles
    | Some im => if has_aspect im then add_frustums images rest (dset name im handles) else (handles, Raise OtherError)
    end
  end.

(** The columns of rows of equal width: [np.stack] and [np.asarray] refuse others. *)
Definition columns (rows : list (list f64)) : res (list (list f64)) :=
  let width := length (default [] (head rows)) in
  if forallb (fun r => length r =? width) rows
  then Ok ((fun i => (fun r => default f0 (r !! i)) <$> rows) <$> seq 0 width) else Raise ValueError.

(** [all(row is not None for row in rows)], with the rows. *)
Fixpoint all_some {A} (rows : list (option A)) : option (list A) :=
  match rows with
  | [] => Some []
  | Some x :: rows => cons x <$> all_some rows
  | None :: _ => None
  end.

(** One plot, drawn only when every frame has a row. *)
Definition plot_rows {A} (title : string) (times : list f64) (rows : list (option A)) (series : list A -> res (list (list f64))) :
    res (option plot) :=
  match all_some rows with
  | Some rows => let? s := series rows in Ok (Some (Plot title times s))
  | None => Ok None
  end.

Definition side_title (side : string) : string := if String.eqb side "left" then "Left" else "Right".

Definition side_plots (times : list f64) (frames : list frame) (side : string) : list (res (option plot)) :=
  [ plot_rows (side_title side +:+ " recorded q") times ((fun fr => dget side (fm_real_q fr)) <$> frames) columns;
    plot_rows (side_title side +:+ " action") times ((fun fr => fst <$> dget side (fm_action fr)) <$> frames) columns;
    plot_rows (side_title side +:+ " gripper action") times ((fun fr => snd <$> dget side (fm_action fr)) <$> frames)
      (fun g => Ok [g]) ].

(** Plots are added until one fails. *)
Fixpoint run_plots (jobs : list (res (option plot))) (done : list plot) : list plot * res unit :=
  match jobs with
  | [] => (done, Ok tt)
  | Ok p :: jobs => run_plots jobs (done ++ option_list p)
  | Raise e :: _ => (done, Raise e)
  end.

Definition add_plots (frames : list frame) : list plot * res unit :=
  match frames with
  | [] => ([], Ok tt)
  | first :: _ =>
    let times := (fun fr => fsub (fm_t fr) (fm_t first)) <$> frames in
    run_plots (SIDES ≫= side_plots times frames) []
  end.

Definition duration (frames : list frame) : f64 :=
  match head frames, list.last frames with Some a, Some b => fsub (fm_t b) (fm_t a) | _, _ => f0 end.

(** [load]. *)
Definition load (frames : list frame) (names : list string) (v : replay_view) : replay_view * res unit :=
  let v := View frames (rv_scene v) (rv_slider v) false (S (rv_generation v)) (rv_handles v) (rv_plots v) (rv_status v) in
  match new_robot_scene is_file loads chain urdfs pedestal with
  | Raise e => (v, Raise e)
  | Ok gs =>
    let v := set_plots [] (set_handles [] (set_slider 0 (set_status (Loaded (length frames) (duration frames)) (set_scene gs.1 v)))) in
    let hs := add_frustums (from_option fm_images [] (head frames)) names [] in
    let v := set_handles hs.1 v in
    match hs.2 with
    | Raise e => (v, Raise e)
    | Ok _ =>
      let ps := add_plots frames in
      let v := set_plots ps.1 v in
      match ps.2 with
      | Raise e => (v, Raise e)
      | Ok _ => match frames with [] => (v, Ok tt) | _ => show 0 v end
      end
    end
  end.

(** ** Playing *)

(** One action of a play thread of some generation. *)
Definition play_step (gen : nat) (p : play_phase) (v : replay_view) : replay_view * play_phase :=
  match p with
  | AtTop =>
    if rv_playing v && (gen =? rv_generation v) && negb (bool_decide (rv_frames v = [])) then
      match rv_slider v with
      | Some i => if length (rv_frames v) - 1 <=? i then (set_playing false v, Finished) else (v, Sleeping i)
      | None => (v, Finished)
      end
    else (v, Finished)
  | Sleeping i => (v, if rv_playing v && (gen =? rv_generation v) then Moving i else AtTop)
  | Moving i =>
    match show (Z.of_nat (S i)) (set_slider (S i) v) with
    | (v, Ok _) => (v, AtTop)
    | (v, Raise _) => (v, Finished)
    end
  | Finished => (v, Finished)
  end.

Inductive replay_action :=
  | LoadEpisode (frames : list frame) (names : list string)
  | MoveSlider (i : nat)
  | PressPlay
  | PressPause
  | Thread (k : nat).

Definition replay_sys : Type := replay_view * list player.

(** The buttons and the slider are disabled without frames; the slider stays in its range. *)
Definition replay_event (s : replay_sys) (a : replay_action) : replay_sys :=
  let '(v, ps) := s in
  match a with
  | LoadEpisode frames names => ((load frames names v).1, ps)
  | MoveSlider i =>
      if i <? length (rv_frames v) then ((show (Z.of_nat i) (set_slider i v)).1, ps) else s
  | PressPlay => match rv_frames v with [] => s | _ => (set_playing true v, ps ++ [Player (rv_generation v) AtTop]) end
  | PressPause => match rv_frames v with [] => s | _ => (set_playing false v, ps) end
  | Thread k =>
      match ps !! k with
      | Some p => let '(v, ph) := play_step (py_generation p) (py_phase p) v in (v, <[k := Player (py_generation p) ph]> ps)
      | None => s
      end
  end.

Definition replay_run (l : list replay_action) (s : replay_sys) : replay_sys := foldl replay_event s l.

(** ** What is on the screen *)

(** The robots and images of one frame. *)
Record displays (fr : frame) (g : robot_scene) (handles : list (string * J)) : Prop := {
  dp_measured : forall side, side ∈ SIDES -> exists m, dget side (rs_real g) = Some m /\ rm_visible m = true /\
    dget side (rs_stale g) = Some (negb (full_config (dget side (reals_by (fm_real_q fr))))) /\
    forall q, usable (dget side (reals_by (fm_real_q fr))) = Some q -> stands_at chain side q m;
  dp_command : forall side, side ∈ SIDES -> shown_at chain side (usable (dget side (reals_by (fm_ghost_q fr)))) (rs_ghost g);
  dp_images : forall name im im', dget name handles = Some im -> dget name (fm_images fr) = Some im' -> im = im';
}.

Context (Hchain : Forall link_ok chain).

Lemma show_images_get images : NoDup (dkeys images) -> forall handles name,
  dget name (show_images images handles) =
    match dget name handles with Some im => Some (default im (dget name images)) | None => None end.
Proof.
  unfold show_images. induction images as [|[n im] images IH]; intros Hnd handles name; [by cbn; destruct (dget name handles)|].
  cbn [foldl fst snd dget].
  apply list.NoDup_cons in Hnd as [Hn Hnd]. rewrite IH by done. unfold dmem.
  destruct (decide (name = n)) as [->|Hne].
  - destruct (dget n handles) eqn:E; [|by rewrite E]. rewrite dget_dset_eq.
    apply dget_None in Hn. cbn [fst] in Hn. by rewrite Hn.
  - destruct (dget n handles); [by rewrite dget_dset_ne|done].
Qed.

Lemma show_frame_ok fr first index g v : scene_ok chain g -> NoDup (dkeys (fm_images fr)) ->
  exists g' h, show_frame fr first index g v =
    (set_status (Shown index (length (rv_frames v)) (fsub (fm_t fr) (fm_t first))) (set_handles h (set_scene g' v)), Ok tt) /\
  scene_ok chain g' /\ displays fr g' h.
Proof.
  intros Hg Hnd. unfold show_frame.
  destruct (update_followers_ok chain Hchain (reals_by (fm_real_q fr)) g Hg) as (g1 & -> & Hg1 & Hreal & Hst & _).
  destruct (update_commands_ok chain Hchain (reals_by (fm_ghost_q fr)) g1 Hg1) as (g2 & -> & Hg2 & Hgh & [Hre2 Hst2] & _).
  eexists g2, _. split; [reflexivity|]. split; [done|]. split.
  - intros side Hs. destruct (listed_get side (rs_real g2) (proj1 (so_real _ _ Hg2)) Hs) as (m & Hm). exists m. split; [done|].
    rewrite Hre2 in Hm. destruct (updated_get _ _ _ _ _ _ Hreal Hm) as (m0 & Hm0 & Hu). pose proof Hu as (_ & _ & _ & _ & Hv & _).
    split; [exact Hv|]. split.
    + rewrite Hst2, Hst. pose proof (so_stale _ _ Hg) as Hk. revert Hk Hs. generalize (rs_stale g). clear.
      intros l Hk Hs. rewrite <-Hk in Hs. clear Hk. induction l as [|[k b] l IH]; [by apply elem_of_nil in Hs|]. cbn.
      destruct (decide (side = k)) as [->|Hne]; [done|]. apply IH. by apply elem_of_cons in Hs as [?|?].
    + intros q Hq. cbn [fst] in Hu. rewrite Hq in Hu. destruct Hu as (_ & _ & _ & _ & _ & Hp).
      eapply (posed_stands chain Hchain (side, set_visible true m0)); [|exact Hp].
      destruct (get_arm chain side _ m0 (proj2 (so_real _ _ Hg)) Hm0) as (mt & ?). by exists mt.
  - intros side Hs. eapply all_shown; [done|exact (proj1 (so_ghost _ _ Hg1))|exact (proj2 (so_ghost _ _ Hg1))|exact Hgh|done].
  - intros name im im'. rewrite show_images_get by done. destruct (dget name (rv_handles v)); [|done].
    intros [= <-] H. unfold default. unfold dget in H |- *. by rewrite H.
Qed.

(** ** The invariant of the view *)

(** The images of a frame are a dict. *)
Definition frames_ok (frames : list frame) : Prop := Forall (fun fr => NoDup (dkeys (fm_images fr))) frames.

(** What the panel announces is what is drawn. *)
Definition panel_true (v : replay_view) : Prop :=
  forall k n t, rv_status v = Some (Shown k n t) ->
    exists fr first g, rv_frames v !! k = Some fr /\ head (rv_frames v) = Some first /\ n = length (rv_frames v) /\
      t = fsub (fm_t fr) (fm_t first) /\ rv_scene v = Some g /\ displays fr g (rv_handles v).

Record view_inv (v : replay_view) : Prop := {
  vi_frames : frames_ok (rv_frames v);
  vi_scene : forall g, rv_scene v = Some g -> scene_ok chain g;
  vi_panel : panel_true v;
}.

(** The frame [show] draws. *)
Definition clamp (index : Z) (n : nat) : nat := Z.to_nat (Z.max 0 (Z.min index (Z.of_nat n - 1))).

Lemma show_draws index v : view_inv v -> rv_frames v <> [] -> is_Some (rv_scene v) ->
  exists g h t, show index v = (set_status (Shown (clamp index (length (rv_frames v))) (length (rv_frames v)) t) (set_handles h (set_scene g v)), Ok tt) /\
    view_inv (show index v).1.
Proof.
  intros [Hf Hs _] Hne [g Hg]. unfold show. rewrite Hg. destruct (rv_frames v) as [|first rest] eqn:E; [done|]. rewrite <-E in *.
  destruct (rv_frames v !! clamp index (length (rv_frames v))) as [fr|] eqn:Efr.
  2: { exfalso. apply lookup_ge_None in Efr. assert (0 < length (rv_frames v)) by (rewrite E; cbn; lia). unfold clamp in Efr. lia. }
  change (Z.to_nat (Z.max 0 (Z.min index (Z.of_nat (length (rv_frames v)) - 1)))) with (clamp index (length (rv_frames v))). rewrite Efr.
  destruct (show_frame_ok fr first (clamp index (length (rv_frames v))) g v (Hs g Hg)) as (g' & h & -> & Hg' & Hd).
  { unfold frames_ok in Hf. rewrite Forall_forall in Hf. eapply Hf, list_elem_of_lookup_2, Efr. }
  eexists g', h, _. split; [reflexivity|]. split; cbn.
  - done.
  - intros g0 [= <-]. done.
  - intros k n t [= <- <- <-]. exists fr, first, g'. cbn. split_and!; try done. by rewrite E.
Qed.

Lemma show_inv index v : view_inv v -> view_inv (show index v).1.
Proof.
  intros Hv. destruct (decide (rv_frames v = [])) as [E|Hne]; [unfold show; by rewrite E|].
  destruct (rv_scene v) as [g|] eqn:E; [|unfold show; by rewrite E; destruct (rv_frames v)].
  destruct (show_draws index v Hv Hne ltac:(by exists g)) as (? & ? & ? & _ & H). exact H.
Qed.

Lemma new_view_inv : view_inv new_replay_view.
Proof. split; [constructor|done|by intros k n t]. Qed.

Lemma show_keeps index v : rv_frames (show index v).1 = rv_frames v /\ rv_slider (show index v).1 = rv_slider v.
Proof.
  unfold show. destruct (rv_frames v) as [|first rest] eqn:E; [done|]. rewrite <-E. destruct (rv_scene v); [|done].
  destruct (_ !! _); [|done]. unfold show_frame. destruct (update_followers _ _); [|done]. by destruct (update_commands _ _).
Qed.

Lemma show_frames index v : rv_frames (show index v).1 = rv_frames v.
Proof. apply show_keeps. Qed.

(** Changes that the panel does not depend on. *)
Lemma view_inv_same v v' : rv_frames v' = rv_frames v -> rv_scene v' = rv_scene v -> rv_handles v' = rv_handles v ->
  rv_status v' = rv_status v -> view_inv v -> view_inv v'.
Proof. intros E1 E2 E3 E4 [? ? H]. split; unfold panel_true in *; rewrite ?E1, ?E2, ?E3, ?E4; done. Qed.

Section built.
Context (built : robot_scene * list addition) (Hbuilt : new_robot_scene is_file loads chain urdfs pedestal = Ok built).
Context (Hleaders : leader_chains_ok chain urdfs).

(** Before the first frame is drawn the panel says only how long the episode is. *)
Lemma loaded_inv v n d : frames_ok (rv_frames v) -> rv_scene v = Some built.1 -> rv_status v = Some (Loaded n d) -> view_inv v.
Proof.
  intros Hf Hs Hst. split; [done| |].
  - intros g. rewrite Hs. intros [= <-]. by destruct (new_robot_scene_ok is_file loads chain urdfs pedestal built Hleaders Hbuilt).
  - intros k n' t. by rewrite Hst.
Qed.

Lemma load_inv frames names v : frames_ok frames ->
  view_inv (load frames names v).1 /\ rv_frames (load frames names v).1 = frames /\
  rv_generation (load frames names v).1 = S (rv_generation v) /\ rv_playing (load frames names v).1 = false /\
  is_Some (rv_scene (load frames names v).1).
Proof.
  intros Hf. unfold load. rewrite Hbuilt. destruct (add_frustums _ _ _) as [hs [[]|e]]; cbn [fst snd].
  2: { split_and!; [by eapply loaded_inv|done..]. }
  destruct (add_plots frames) as [ps [[]|e]]; cbn [fst snd].
  2: { split_and!; [by eapply loaded_inv|done..]. }
  destruct frames as [|fr rest] eqn:E. { split_and!; [by eapply loaded_inv|done..]. }
  rewrite <-E in *. match goal with |- context [show 0 ?w] => set (v1 := w) end.
  destruct (show_draws 0 v1) as (g & h & t & Hs & Hi); [by eapply loaded_inv|cbn; by rewrite E|by eexists|].
  split; [exact Hi|]. rewrite Hs. by split_and!; cbn.
Qed.

(** ** Runs *)

Definition event_ok (a : replay_action) : Prop := match a with LoadEpisode frames _ => frames_ok frames | _ => True end.

(** The episode of the last load. *)
Definition last_loaded (l : list replay_action) : list frame :=
  foldl (fun acc a => match a with LoadEpisode frames _ => frames | _ => acc end) [] l.

Lemma play_step_inv gen p v : view_inv v ->
  view_inv (play_step gen p v).1 /\ rv_frames (play_step gen p v).1 = rv_frames v.
Proof.
  intros Hv. destruct p as [|i|i|]; cbn; try done.
  - destruct (_ && _); [|done]. destruct (rv_slider v); [|done]. destruct (_ <=? _); [|done].
    split; [|done]. by eapply view_inv_same; [..|exact Hv].
  - assert (view_inv (set_slider (S i) v)) as Hv' by (by eapply view_inv_same; [..|exact Hv]).
    pose proof (show_inv (Z.of_nat (S i)) _ Hv') as Hs. pose proof (show_frames (Z.of_nat (S i)) (set_slider (S i) v)) as Hf.
    destruct (show _ _) as [v' [[]|e]]; by split.
Qed.

Lemma replay_event_inv s a : event_ok a -> view_inv s.1 ->
  view_inv (replay_event s a).1 /\
  rv_frames (replay_event s a).1 = match a with LoadEpisode frames _ => frames | _ => rv_frames s.1 end.
Proof.
  destruct s as [v ps]. intros Ha Hv. destruct a as [frames names|i| | |k]; cbn [replay_event fst].
  - destruct (load_inv frames names v Ha) as (? & ? & _). by split.
  - destruct (i <? _); [|done]. split; [apply show_inv; by eapply view_inv_same; [..|exact Hv]|]. exact (show_frames _ _).
  - destruct (rv_frames v) eqn:E; [by cbn; rewrite E|]. split; [by eapply view_inv_same; [..|exact Hv]|]. done.
  - destruct (rv_frames v) eqn:E; [by cbn; rewrite E|]. split; [by eapply view_inv_same; [..|exact Hv]|]. done.
  - destruct (ps !! k) as [p|]; [|done]. pose proof (play_step_inv (py_generation p) (py_phase p) v Hv) as H.
    by destruct (play_step _ _ v).
Qed.

Lemma replay_run_inv l : Forall event_ok l ->
  view_inv (replay_run l (new_replay_view, [])).1 /\ rv_frames (replay_run l (new_replay_view, [])).1 = last_loaded l.
Proof.
  intros Hl. induction l as [|a l IH] using rev_ind; [by split; [apply new_view_inv|]|]. apply Forall_app in Hl as [Hl [Ha _]%Forall_cons].
  destruct (IH Hl) as [Hv Hf]. unfold replay_run, last_loaded in *. rewrite !foldl_app. cbn [foldl].
  destruct (replay_event_inv _ a Ha Hv) as [Hv' ->]. split; [done|]. destruct a; try done; by rewrite Hf.
Qed.

(** C38: The replay never mixes episodes.  After any sequence of loads, slider moves, plays, pauses
    and steps of the play threads, in any order and with any number of threads still alive from
    earlier episodes, the frames held are those of the last load, and whenever the panel says
    "frame k of n at time t", n and t are this episode's, both measured arms stand at the forward
    kinematics of frame k (or carry the warning that it has none), the translucent arms are drawn
    exactly where frame k has a joint target, and every camera shows frame k's image. *)
Theorem replay_shows_one_episode (l : list replay_action) : Forall event_ok l ->
  let v := (replay_run l (new_replay_view, [])).1 in
  rv_frames v = last_loaded l /\ panel_true v.
Proof. intros Hl. by destruct (replay_run_inv l Hl) as [[_ _ ?] ?]. Qed.
End built.

(** ** A play thread left alone *)

Lemma thread_event v ps k gen ph v' ph' : ps !! k = Some (Player gen ph) -> play_step gen ph v = (v', ph') ->
  replay_event (v, ps) (Thread k) = (v', <[k := Player gen ph']> ps).
Proof. intros Hk Hs. cbn. rewrite Hk. cbn. by rewrite Hs. Qed.

Lemma play_top v gen i : rv_playing v = true -> rv_generation v = gen -> rv_slider v = Some i -> i < length (rv_frames v) ->
  play_step gen AtTop v = if length (rv_frames v) - 1 <=? i then (set_playing false v, Finished) else (v, Sleeping i).
Proof.
  intros Hp Hg Hi Hlt. cbn. rewrite Hp, Hg, Nat.eqb_refl, Hi.
  by rewrite bool_decide_eq_false_2 by (intros E; rewrite E in Hlt; cbn in Hlt; lia).
Qed.

(** Three actions of the thread draw the next frame. *)
Lemma play_next v ps k gen i : view_inv v -> is_Some (rv_scene v) -> ps !! k = Some (Player gen AtTop) ->
  rv_playing v = true -> rv_generation v = gen -> rv_slider v = Some i -> S i < length (rv_frames v) ->
  exists v' t, replay_run (repeat (Thread k) 3) (v, ps) = (v', ps) /\ view_inv v' /\ is_Some (rv_scene v') /\
    rv_playing v' = true /\ rv_generation v' = gen /\ rv_slider v' = Some (S i) /\ rv_frames v' = rv_frames v /\
    rv_status v' = Some (Shown (S i) (length (rv_frames v)) t).
Proof.
  intros Hv Hs Hk Hp Hg Hi Hlt. assert (k < length ps) by (by eapply lookup_lt_Some).
  destruct (show_draws (Z.of_nat (S i)) (set_slider (S i) v)) as (g & h & t & Hsh & Hinv);
    [by eapply view_inv_same; [..|exact Hv]|cbn; intros E'; rewrite E' in Hlt; cbn in Hlt; lia|done|].
  cbn [repeat replay_run foldl]. unfold replay_run. cbn [foldl].
  rewrite (thread_event v ps k gen AtTop v (Sleeping i) Hk)
    by (rewrite (play_top v gen i) by (done || lia); destruct (_ <=? i) eqn:E; [apply Nat.leb_le in E; lia|done]).
  rewrite (thread_event v _ k gen (Sleeping i) v (Moving i)) by (rewrite ?list_lookup_insert_eq by done; cbn; by rewrite ?Hp, ?Hg, ?Nat.eqb_refl).
  erewrite (thread_event v _ k gen (Moving i)); [|by rewrite list_insert_insert_eq, list_lookup_insert_eq|cbn [play_step]; rewrite Hsh; reflexivity].
  rewrite Hsh in Hinv. cbn [fst] in Hinv. rewrite !list_insert_insert_eq, list_insert_id by done.
  eexists _, t. split; [reflexivity|]. split; [exact Hinv|]. cbn. split_and!; try done.
  do 2 f_equal. unfold clamp. cbn [rv_frames set_slider]. lia.
Qed.

(** Playing always reaches the end.  From any frame of a loaded episode, a play thread that is
    not interrupted draws the following frames one at a time and in order, up to the last one, and
    then stops and clears the playing flag. *)
Theorem playback_reaches_end v ps k gen i : view_inv v -> is_Some (rv_scene v) -> ps !! k = Some (Player gen AtTop) ->
  rv_playing v = true -> rv_generation v = gen -> rv_slider v = Some i -> i < length (rv_frames v) ->
  (forall j, 0 < j -> i + j < length (rv_frames v) -> exists v' t, replay_run (repeat (Thread k) (3 * j)) (v, ps) = (v', ps) /\
    rv_slider v' = Some (i + j) /\ rv_status v' = Some (Shown (i + j) (length (rv_frames v)) t)) /\
  exists v', replay_run (repeat (Thread k) (3 * (length (rv_frames v) - 1 - i) + 1)) (v, ps) =
      (set_playing false v', <[k := Player gen Finished]> ps) /\ rv_slider v' = Some (length (rv_frames v) - 1).
Proof.
  intros Hv Hs Hk Hp Hg Hi Hlt.
  assert (forall j, i + j < length (rv_frames v) -> exists v', replay_run (repeat (Thread k) (3 * j)) (v, ps) = (v', ps) /\
    view_inv v' /\ is_Some (rv_scene v') /\ rv_playing v' = true /\ rv_generation v' = gen /\ rv_slider v' = Some (i + j) /\
    rv_frames v' = rv_frames v /\ (0 < j -> exists t, rv_status v' = Some (Shown (i + j) (length (rv_frames v)) t))) as Hj.
  { induction j as [|j IH]; intros Hb. { exists v. rewrite Nat.add_0_r. split_and!; try done. lia. }
    destruct IH as (v1 & Hr & Hv1 & Hs1 & Hp1 & Hg1 & Hi1 & Hf1 & _); [lia|].
    destruct (play_next v1 ps k gen (i + j)) as (v2 & t & Hr2 & Hv2 & Hs2 & Hp2 & Hg2 & Hi2 & Hf2 & Hst); try done; [rewrite Hf1; lia|].
    exists v2. replace (3 * S j) with (3 * j + 3) by lia. unfold replay_run in *. rewrite repeat_app, foldl_app, Hr, Hr2.
    split_and!; try done; [rewrite Hi2; f_equal; lia|congruence|]. intros _. exists t. rewrite Hst, Hf1. do 2 f_equal. lia. }
  split.
  - intros j Hj0 Hb. destruct (Hj j Hb) as (v' & Hr & _ & _ & _ & _ & Hsl & _ & Hst). destruct (Hst Hj0) as (t & Ht).
    by exists v', t.
  - destruct (Hj (length (rv_frames v) - 1 - i) ltac:(lia)) as (v' & Hr & _ & _ & Hp' & Hg' & Hsl & Hf' & _).
    exists v'. unfold replay_run in *. rewrite repeat_app, foldl_app, Hr. cbn [repeat foldl].
    rewrite (thread_event v' ps k gen AtTop (set_playing false v') Finished Hk).
    + split; [done|]. rewrite Hsl. f_equal. lia.
    + rewrite (play_top v' gen _ Hp' Hg' Hsl) by (rewrite Hf'; lia). rewrite Hf'. destruct (_ <=? _) eqn:E; [done|]. apply Nat.leb_gt in E. lia.
Qed.

(** ** A thread between its check and its move *)

Lemma load_generation frames names v :
  rv_generation (load frames names v).1 = S (rv_generation v) /\ rv_frames (load frames names v).1 = frames.
Proof.
  unfold load. destruct (new_robot_scene _ _ _ _ _) as [gs|]; [|done]. destruct (add_frustums _ _ _) as [hs [[]|e]]; [|done].
  destruct (add_plots frames) as [ps [[]|e]]; cbn [fst snd]; [|done]. destruct frames as [|fr rest] eqn:E; [done|]. rewrite <-E.
  unfold show. cbn [rv_frames set_plots set_handles set_slider set_status set_scene rv_scene]. rewrite E. cbn [lookup list_lookup].
  destruct (_ !! _); [|done]. unfold show_frame. destruct (update_followers _ _); [|done]. by destruct (update_commands _ _).
Qed.

(** The check and the move are two actions, and a load may fall between them: the thread of the old
    episode then moves the slider of the new one.  (What is announced is still what is drawn, see
    [panel_true]; but the new episode does not start at its first frame.) *)
Lemma stale_thread_moves_slider frames names v ps k i :
  rv_playing v = true -> ps !! k = Some (Player (rv_generation v) (Sleeping i)) ->
  rv_slider (replay_run [Thread k; LoadEpisode frames names; Thread k] (v, ps)).1 = Some (S i).
Proof.
  intros Hp Hk. assert (k < length ps) by (by eapply lookup_lt_Some). unfold replay_run. cbn [foldl].
  rewrite (thread_event v ps k _ _ v (Moving i) Hk) by (cbn; by rewrite Hp, Nat.eqb_refl). cbn [replay_event].
  rewrite list_lookup_insert_eq by done. cbn [py_phase py_generation play_step].
  pose proof (show_keeps (Z.of_nat (S i)) (set_slider (S i) (load frames names v).1)) as [_ Hs].
  destruct (show _ _) as [v' [[]|e]]; cbn in Hs |- *; done.
Qed.

(** ** The module's singletons *)

Record replay_module := ReplayModule { md_view : option replay_view; md_port : option Z }.

Definition DEFAULT_REPLAY_PORT : Z := 9093.

(** [start_replay_viewer]: the server, the view and the viewer exist together. *)
Definition start_replay_viewer (int_of : string -> res Z) (opens : Z -> res unit) (port : option Z) (env : option string)
    (m : replay_module) : res (Z * replay_module) :=
  match md_port m with
  | Some p => Ok (p, m)
  | None =>
    let? p := match port with
              | Some p => if (p =? 0)%Z then from_option int_of (Ok DEFAULT_REPLAY_PORT) env else Ok p
              | None => from_option int_of (Ok DEFAULT_REPLAY_PORT) env
              end in
    let? _ := opens p in
    Ok (p, ReplayModule (Some new_replay_view) (Some p))
  end.

Definition reset_replay (m : replay_module) : replay_module := ReplayModule None None.

(** [log_episode], given what reading the episode returned. *)
Definition log_episode (int_of : string -> res Z) (opens : Z -> res unit) (env : option string)
    (read : res (list frame * list string)) (m : replay_module) : replay_module * res nat :=
  match read with
  | Raise e => (m, Raise e)
  | Ok (frames, names) =>
    match start_replay_viewer int_of opens None env m with
    | Raise e => (m, Raise e)
    | Ok (_, m) =>
      match md_view m with
      | None => (m, Raise OtherError)
      | Some v =>
        let '(v, r) := load frames names v in
        (ReplayModule (Some v) (md_port m), let? _ := r in Ok (length frames))
      end
    end
  end.

(** An episode that cannot be read changes nothing; one that can is what the view holds afterwards,
    whether or not a viewer was running. *)
Lemma log_episode_holds int_of opens env read m :
  (md_port m = None -> md_view m = None) -> (md_view m = None -> md_port m = None) ->
  match log_episode int_of opens env read m with
  | (m', Ok n) => exists frames names v, read = Ok (frames, names) /\ n = length frames /\
      md_view m' = Some v /\ rv_frames v = frames /\ is_Some (md_port m')
  | (m', Raise _) => (exists e, read = Raise e) -> m' = m
  end.
Proof.
  intros H1 H2. unfold log_episode. destruct read as [[frames names]|e]; [|done].
  destruct (start_replay_viewer _ _ _ _ _) as [[p m1]|e] eqn:E; [|done].
  assert (exists v, md_view m1 = Some v /\ is_Some (md_port m1)) as (v & Hv & Hp).
  { unfold start_replay_viewer in E. destruct (md_port m) as [q|] eqn:Eq.
    - injection E as <- <-. destruct (md_view m) as [v|] eqn:Ev; [|by specialize (H2 eq_refl)]. exists v. split; [done|]. by rewrite Eq.
    - res_simp. by eexists. }
  rewrite Hv. pose proof (load_generation frames names v) as [_ Hf]. destruct (load frames names v) as [v' [[]|e]]; cbn [fst] in Hf |- *.
  - exists frames, names, v'. by split_and!.
  - by intros [e' H].
Qed.
End view.

(** ** Instances *)

Definition demo_chain : list (Link R) := [demo_link].
Lemma demo_chain_ok : Forall link_ok demo_chain.
Proof. pose proof demo_link_ok as [_ H]%Forall_cons. exact H. Qed.
Definition demo_frame (t : f64) : @frame nat := Frame t [("left", repeat t 7)] [] [("front", 2)] [].

Lemma demo_built : exists built, new_robot_scene (fun _ => false) (fun _ _ => false) demo_chain (fun _ => None) false = Ok built.
Proof. eexists. reflexivity. Qed.

Lemma demo_leaders : leader_chains_ok demo_chain (fun _ => None).
Proof. intros side. exact demo_chain_ok. Qed.

Abbreviation demo_run := (@replay_run nat (fun _ => (1, 1)) (fun _ => false) (fun _ _ => false) demo_chain (fun _ => None) false).

Lemma replay_shows_one_episode_witness : let l := [LoadEpisode [demo_frame f0; demo_frame f1] ["front"]; PressPlay; Thread 0;
    LoadEpisode [demo_frame f1] ["front"]; Thread 0] in
  let v := (demo_run l (new_replay_view, [])).1 in rv_frames v = [demo_frame f1] /\ panel_true demo_chain v.
Proof.
  destruct demo_built as [built Hb].
  apply (replay_shows_one_episode (fun _ => (1, 1)) (fun _ => false) (fun _ _ => false) demo_chain (fun _ => None) false
    demo_chain_ok built Hb demo_leaders).
  repeat constructor; set_solver.
Defined.

Lemma demo_loaded : exists v, view_inv demo_chain v /\ is_Some (rv_scene v) /\ rv_playing v = true /\ rv_slider v = Some 0 /\
  rv_generation v = 1 /\ rv_frames v = [demo_frame f0; demo_frame f1].
Proof.
  destruct demo_built as [built Hb].
  exists (set_slider 0 (set_playing true (load (fun _ => (1, 1)) (fun _ => false) (fun _ _ => false) demo_chain (fun _ => None) false
    [demo_frame f0; demo_frame f1] ["front"] new_replay_view).1)).
  destruct (load_inv (fun _ => (1, 1)) (fun _ => false) (fun _ _ => false) demo_chain (fun _ => None) false
    demo_chain_ok built Hb demo_leaders [demo_frame f0; demo_frame f1] ["front"] new_replay_view) as (Hi & Hf & Hg & _ & Hs).
  { repeat constructor; set_solver. }
  revert Hi Hf Hg Hs. generalize (load (fun _ : nat => (1, 1)) (fun _ => false) (fun _ _ => false) demo_chain (fun _ => None) false
    [demo_frame f0; demo_frame f1] ["front"] new_replay_view). intros [v r] Hi Hf Hg Hs. cbn [fst] in *.
  by split_and!; [by eapply view_inv_same; [..|exact Hi]|..].
Qed.

Lemma playback_reaches_end_witness : exists v v', rv_slider v = Some 0 /\
  demo_run (repeat (Thread 0) 4) (v, [Player 1 AtTop]) = (set_playing false v', [Player 1 Finished]) /\ rv_slider v' = Some 1.
Proof.
  destruct demo_loaded as (v & Hv & Hs & Hp & Hi & Hg & Hf).
  destruct (playback_reaches_end (fun _ => (1, 1)) (fun _ => false) (fun _ _ => false) demo_chain (fun _ => None) false demo_chain_ok
    v [Player 1 AtTop] 0 1 0 Hv Hs eq_refl Hp Hg Hi) as (_ & v' & Hr & Hl); [rewrite Hf; cbn; lia|].
  rewrite Hf in Hr, Hl. by exists v, v'.
Defined.
