(* ===== verification/RerunReplay.v ===== *)
(** * Episode replay in Rerun

    Models the logging half of [dashboard/replay.py]: an episode
    read by [Replay.read_episode] (the two modules read it with the same code) is logged, frame by
    frame, into a recording of its own, with the arms drawn by [RobotView], and a layout of views is
    sent with it.  A scene that cannot be drawn is modelled as not drawn at all.

    [replays_agree] states that the two replays of an episode, in Viser and in Rerun, put the arms at
    the same place. *)

From Stdlib Require Import Reals String.
From S2P Require Import Prelude Float64 Text Json Convention Geometry Kinematics CameraSource RobotView Layout SkillFile ViewerStreams ViewerScene SceneModel Replay ReplayView.
Local Open Scope string_scope.
Local Open Scope list_scope.
Local Open Scope nat_scope.

(** ** Reading *)

(** The helpers of [dashboard/replay.py] are those of [viser/replay.py]. *)
Definition rerun_state_q_index : list string -> list (string * list nat) := state_q_index.
Definition viser_state_q_index : list string -> list (string * list nat) := state_q_index.
Definition rerun_action_layout : list string -> list (string * action_block) := action_layout.
Definition rerun_names : (json -> string) -> option json -> res (list string) := feature_names.
Definition rerun_to_hwc : ndimage -> ndimage := to_hwc_uint8.

Definition image_frame : Type := @frame ndimage.

Definition rerun_read_episode (str_of : json -> string) (ds : @dataset ndimage) (episode : nat) : res (list image_frame * list string) :=
  read_episode str_of ds episode.

(** ** Logging *)

Inductive media :=
  | MImage (name : string) (im : ndimage)                  (* replay/cam/<name> *)
  | MState (side : string) (q : list f64)                  (* replay/state/<side>/q *)
  | MCommand (side : string) (cmd : list f64)              (* replay/action/<side>/cmd *)
  | MGripper (side : string) (g : f64).                    (* replay/action/<side>/gripper *)

Definition media_path (m : media) : list string :=
  match m with
  | MImage name _ => ["replay"; "cam"; name]
  | MState side _ => ["replay"; "state"; side; "q"]
  | MCommand side _ => ["replay"; "action"; side; "cmd"]
  | MGripper side _ => ["replay"; "action"; side; "gripper"]
  end.

(** What one frame logs besides the arms. *)
Definition frame_media (fr : image_frame) : list media :=
  ((fun x => MImage x.1 x.2) <$> fm_images fr) ++
  ((fun x => MState x.1 x.2) <$> fm_real_q fr) ++
  (fm_action fr ≫= (fun x => [MCommand x.1 x.2.1; MGripper x.1 x.2.2])).

(** The views of a layout: their kind and the entity they show. *)
Inductive replay_origin := Scene3D (path : list string) | Camera2D (path : list string) | Series (path : list string).

(** [replay_blueprint]. *)
Definition replay_blueprint (names : list string) : list replay_origin :=
  Scene3D ["robot"] ::
  (match names with [] => [Camera2D ["replay"; "cam"]] | _ => (fun n => Camera2D ["replay"; "cam"; n]) <$> names end) ++
  [Series ["replay"; "state"]; Series ["replay"; "action"]].

(** A recording: the robot's scene is the module's, the rest its own. *)
Record rec_state := RecState { rl_scene : RobotView.scene; rl_media : list (f64 * media); rl_views : option (list replay_origin) }.

Section logging.
Context (chain : list (Link R)) (factr_loaded : string -> res (list (Link R))).
Context (is_file : string -> bool) (load_mesh : string -> list mesh_part).

(** One frame: an arm that cannot be posed is only noted in the log. *)
Definition log_frame (rec : Z) (r : rec_state) (fr : image_frame) : rec_state :=
  RecState (update_poses chain factr_loaded is_file load_mesh rec (reals_by (fm_real_q fr)) (reals_by (fm_ghost_q fr)) None (rl_scene r)).1
    (rl_media r ++ (pair (fm_t fr) <$> frame_media fr)) (rl_views r).

(** The static scene of a recording. *)
Definition open_recording (rec : Z) (s : RobotView.scene) : rec_state :=
  RecState (draw rec (log_scene chain factr_loaded is_file load_mesh None false false) s).1 [] None.

(** [_log_frames]. *)
Definition log_frames (rec : Z) (frames : list image_frame) (names : list string) (s : RobotView.scene) : rec_state :=
  let r := foldl (log_frame rec) (open_recording rec s) frames in
  RecState (rl_scene r) (rl_media r) (Some (replay_blueprint names)).

(** ** What the recording shows *)

Definition in_view (v : replay_origin) (m : media) : Prop :=
  match v, m with
  | Camera2D p, MImage _ _ => p `prefix_of` media_path m
  | Series p, (MState _ _ | MCommand _ _ | MGripper _ _) => p `prefix_of` media_path m
  | _, _ => False
  end.

Lemma log_frames_media rec frames r :
  rl_media (foldl (log_frame rec) r frames) = rl_media r ++ (frames ≫= (fun fr => pair (fm_t fr) <$> frame_media fr)).
Proof.
  revert r. induction frames as [|fr frames IH]; intros r; cbn [foldl mbind list_bind]; [by rewrite app_nil_r|].
  rewrite IH. cbn [log_frame rl_media]. by rewrite <-app_assoc.
Qed.

(** Nothing is logged that no view shows, and it is logged at its frame's time. *)
Lemma media_viewed rec frames names s t m :
  Forall (fun fr => Forall (fun x => x.1 ∈ names) (fm_images fr)) frames ->
  (t, m) ∈ rl_media (log_frames rec frames names s) ->
  (exists fr, fr ∈ frames /\ t = fm_t fr /\ m ∈ frame_media fr) /\
  exists v, v ∈ replay_blueprint names /\ in_view v m.
Proof.
  intros Hn. unfold log_frames. cbn [rl_media]. rewrite log_frames_media. cbn [open_recording rl_media app].
  intros (fr & Hin & Hfr)%list_elem_of_bind. apply list_elem_of_fmap in Hin as (m' & [= -> <-] & Hm).
  split; [by exists fr|]. rewrite Forall_forall in Hn. specialize (Hn fr Hfr). rewrite Forall_forall in Hn.
  unfold replay_blueprint. unfold frame_media in Hm. rewrite !elem_of_app in Hm. destruct Hm as [Hm|[Hm|Hm]].
  - apply list_elem_of_fmap in Hm as (x & -> & Hx). exists (Camera2D ["replay"; "cam"; x.1]). split; [|by exists []].
    specialize (Hn x Hx). destruct names as [|n0 names]; [by apply not_elem_of_nil in Hn|].
    right. apply elem_of_app. left. apply list_elem_of_fmap. by exists x.1.
  - apply list_elem_of_fmap in Hm as (x & -> & Hx). exists (Series ["replay"; "state"]). split; [set_solver|].
    by exists [x.1; "q"].
  - apply list_elem_of_bind in Hm as (x & Hx & _). exists (Series ["replay"; "action"]). split; [set_solver|].
    rewrite !elem_of_cons, elem_of_nil in Hx. destruct Hx as [-> | [-> | []]]; [by exists [x.1; "cmd"]|by exists [x.1; "gripper"]].
Qed.

(** ** Posing the arms *)

Context (Hok : Forall link_ok chain).

Lemma pose_ok r q st : exists l, log_arm_pose r chain (Some q) st = Ok l.
Proof.
  destruct chain as [|base rest]; [by eexists|]. apply Forall_cons in Hok as [Hb Hr]. unfold log_arm_pose.
  destruct (rpy_quat_ok base Hb) as (k & -> & _). cbn [res_bind]. destruct Hb as ((a & b & d & ->) & _). cbn [vec3_of res_bind].
  destruct (pose_rest_rendered r true [li_name base] (default (repeat 0%R 7) (Some q)) rest [] Hr) as (evs & He & _); [done|].
  assert (forall st pre q c evs, pose_rest r st pre q c = Ok evs -> forall st', exists evs', pose_rest r st' pre q c = Ok evs') as Hst.
  { clear. intros st pre q c. revert pre q. induction c as [|l c IH]; intros pre q evs H st'; [by eexists|]. cbn [pose_rest] in *.
    destruct (rpy_quat _); [|done]. cbn [res_bind] in *. destruct (match q with [] => _ | _ => _ end); [|done]. cbn [res_bind] in *.
    destruct (vec3_of _ _); [|done]. cbn [res_bind] in *. destruct (pose_rest _ st _ _ c) as [r'|] eqn:E; [|done].
    destruct (IH _ _ _ E st') as (r2 & ->). by eexists. }
  destruct (Hst _ _ _ _ _ He st) as (evs' & ->). by eexists.
Qed.

(** A robot whose scene could be drawn can be recoloured. *)
Lemma recolour_ok l side b : log_scene chain factr_loaded is_file load_mesh None false false = Ok l -> side ∈ RobotView.sides ->
  exists evs, recolour chain is_file load_mesh side b = Ok evs.
Proof.
  intros H Hs. unfold log_scene in H. cbn zeta in H. destruct (mapM_res _ RobotView.sides) as [evs|] eqn:E; [|done].
  apply mapM_res_Forall2 in E. apply list_elem_of_lookup in Hs as (i & Hi).
  destruct (Forall2_lookup_l _ _ _ _ _ E Hi) as (y & _ & Hy). unfold log_side in Hy. cbn zeta in Hy.
  destruct (log_arm_geometry _ _ side chain false) as [g|] eqn:Eg; [|done]. unfold log_arm_geometry in Eg.
  destruct (mount_of side); [|done]. cbn [res_bind] in Eg. unfold recolour.
  destruct (has_mesh_visuals is_file chain); [by eexists|].
  unfold log_real_skeleton in *. destruct (mapM_res _ (link_paths [] chain)) as [l0|] eqn:Em; [|done]. clear -Em.
  match goal with |- context [mapM_res ?g _] => destruct (mapM_res_total_rel g (fun _ _ => True) (link_paths [] chain)) as (l1 & -> & _) end; [|by eexists].
  intros x Hx. apply mapM_res_Forall2 in Em. apply list_elem_of_lookup in Hx as (i & Hi).
  destruct (Forall2_lookup_l _ _ _ _ _ Em Hi) as (y & _ & Hy). destruct (bone x.2); [|done]. cbn [res_bind]. by eexists.
Qed.

Lemma draw_ok rec evs s : (exists l, evs = Ok l) -> exists s', draw rec evs s = (s', Returned tt).
Proof. intros (l & ->). by eexists. Qed.

Lemma opt_draw_ok rec (f : list R -> res (list event)) o s : (forall q, exists l, f q = Ok l) ->
  exists s', (match o with Some q => draw rec (f q) | None => mret tt end) s = (s', Returned tt).
Proof. intros Hf. destruct o as [q|]; [by apply draw_ok|by eexists]. Qed.

Lemma update_side_ok l rec rq gq side s : log_scene chain factr_loaded is_file load_mesh None false false = Ok l -> side ∈ RobotView.sides ->
  exists s', update_side chain factr_loaded is_file load_mesh rec rq gq None side s = (s', Returned tt).
Proof.
  intros Hl Hs. unfold update_side. cbn zeta. unfold mbind at 1, st_bind at 1, st_get.
  assert (forall (P Q : ST RobotView.scene unit) s, (forall s, exists s', P s = (s', Returned tt)) -> (forall s, exists s', Q s = (s', Returned tt)) ->
    exists s', (P;; Q) s = (s', Returned tt)) as Hseq.
  { intros P Q s0 HP HQ. unfold mbind, st_bind. destruct (HP s0) as (s1 & ->). apply HQ. }
  apply Hseq; [|intros s1; apply Hseq; [|intros s2; apply Hseq; [|intros s3; by eexists]]].
  - intros s1. case_bool_decide; [by eexists|]. apply Hseq; [intros s2; by eexists|]. intros s2. by apply draw_ok, (recolour_ok l).
  - intros s2. apply (opt_draw_ok rec (fun q => log_arm_pose (ArmRoot side false) chain (Some q) false)). intros q. apply pose_ok.
  - intros s3. apply (opt_draw_ok rec (fun q => log_arm_pose (ArmRoot side true) chain (Some q) false)). intros q. apply pose_ok.
Qed.

Lemma update_poses_ok l rec rq gq s : log_scene chain factr_loaded is_file load_mesh None false false = Ok l ->
  exists s', update_poses chain factr_loaded is_file load_mesh rec rq gq None s = (s', Returned tt).
Proof.
  intros Hl. unfold update_poses, mbind, st_bind.
  destruct (update_side_ok l rec rq gq "left" s Hl (list_elem_of_here _ _)) as (s1 & ->).
  apply (update_side_ok l); [done|]. right; left.
Qed.

(** The log of a recording after its scene and some frames. *)
Definition logged (rec : Z) (frames : list image_frame) (s : RobotView.scene) : RobotView.scene :=
  rl_scene (foldl (log_frame rec) (open_recording rec s) frames).

Lemma opened_good rec s l : log_of rec s = [] -> log_scene chain factr_loaded is_file load_mesh None false false = Ok l ->
  good_log (log_of rec (logged rec [] s)).
Proof.
  intros Hf Hl. unfold logged, open_recording. cbn [foldl rl_scene]. rewrite Hl. unfold draw, emit_events, mbind, st_bind, st_lift. cbn [fst st_modify].
  rewrite log_of_add, Hf. cbn [app]. exact (log_scene_events _ _ _ _ _ _ _ _ Hl).
Qed.

Lemma logged_snoc rec frames fr s : logged rec (frames ++ [fr]) s =
  (update_poses chain factr_loaded is_file load_mesh rec (reals_by (fm_real_q fr)) (reals_by (fm_ghost_q fr)) None (logged rec frames s)).1.
Proof. unfold logged. by rewrite foldl_app. Qed.

(** Every frame poses the arms it has, and what follows only adds to the log. *)
Lemma logged_frame rec s l frames fr : log_of rec s = [] -> log_scene chain factr_loaded is_file load_mesh None false false = Ok l ->
  good_log (log_of rec (logged rec frames s)) ->
  good_log (log_of rec (logged rec (frames ++ [fr]) s)) /\
  log_of rec (logged rec frames s) `prefix_of` log_of rec (logged rec (frames ++ [fr]) s) /\
  forall side, side ∈ RobotView.sides ->
    follows chain (log_of rec (logged rec frames s)) (log_of rec (logged rec (frames ++ [fr]) s)) (ArmRoot side false) side (dget side (reals_by (fm_real_q fr))) /\
    follows chain (log_of rec (logged rec frames s)) (log_of rec (logged rec (frames ++ [fr]) s)) (ArmRoot side true) side (dget side (reals_by (fm_ghost_q fr))).
Proof.
  intros Hf Hl Hg. rewrite logged_snoc.
  destruct (update_poses_ok l rec (reals_by (fm_real_q fr)) (reals_by (fm_ghost_q fr)) (logged rec frames s) Hl) as (s' & Hu).
  rewrite Hu. cbn [fst]. destruct (update_poses_shows _ _ _ _ Hok _ _ _ _ _ _ Hg Hu) as (evs & He & Hb & Hs). rewrite He.
  split; [by apply good_log_app|]. split; [by eexists|]. intros side Hside. rewrite <-He. destruct (Hs side Hside) as (Hr & Hgh & _). done.
Qed.

Lemma logged_good rec s l frames : log_of rec s = [] -> log_scene chain factr_loaded is_file load_mesh None false false = Ok l ->
  good_log (log_of rec (logged rec frames s)).
Proof.
  intros Hf Hl. induction frames as [|fr frames IH] using rev_ind; [by eapply opened_good|]. by eapply logged_frame.
Qed.

Lemma logged_prefix rec s l frames more : log_of rec s = [] -> log_scene chain factr_loaded is_file load_mesh None false false = Ok l ->
  log_of rec (logged rec frames s) `prefix_of` log_of rec (logged rec (frames ++ more) s).
Proof.
  intros Hf Hl. induction more as [|fr more IH] using rev_ind; [by rewrite app_nil_r|].
  etrans; [exact IH|]. rewrite app_assoc. eapply logged_frame; [done..|]. by eapply logged_good.
Qed.
End logging.

(** ** The two replays *)

Section agree.
Context (chain : list (Link R)) (factr_loaded : string -> res (list (Link R))) (urdfs : string -> option (res (list (Link R)))).
Context (is_file : string -> bool) (load_mesh : string -> list mesh_part) (loads : string -> Z -> bool) (pedestal : bool).
Context (shape : ndimage -> nat * nat).
Context (Hok : Forall link_ok chain) (Hleaders : leader_chains_ok chain urdfs).
Context (built : robot_scene * list addition) (Hbuilt : new_robot_scene is_file loads chain urdfs pedestal = Ok built).

(** Seven recorded joints are what Viser poses. *)
Lemma usable_seven (d : list (string * list f64)) side q : dget side d = Some q -> length q = 7 ->
  dget side (reals_by d) = Some (reals q) /\ usable (dget side (reals_by d)) = Some (reals q).
Proof.
  intros Hd Hl. unfold reals_by. rewrite dget_fmap_snd, Hd. split; [done|]. unfold usable. cbn [fmap option_fmap option_map full_config].
  assert (length (reals q) = 7) as Hr by (unfold reals; by rewrite length_fmap). rewrite Hr. cbn. by rewrite take_ge by lia.
Qed.

(** The two replays of an episode agree.  Take any session of the Viser replay, whatever was
    loaded, played and paused, at a moment when its panel says "frame k", and log the episode it holds
    into a fresh Rerun recording.  The recording's log has a point, after frame k, at which the tip of
    every arm that has seven recorded joints in frame k is rendered exactly where the Viser scene
    draws it, and the translucent arms of both stand at the same place wherever frame k has a joint
    target; later frames only extend the log. *)
Theorem replays_agree (l : list replay_action) (rec : Z) (names : list string) (s : RobotView.scene) (scn : list event) k n t :
  Forall event_ok l -> log_of rec s = [] -> log_scene chain factr_loaded is_file load_mesh None false false = Ok scn ->
  let v := (replay_run shape is_file loads chain urdfs pedestal l (new_replay_view, [])).1 in
  rv_status v = Some (Shown k n t) ->
  exists fr g log, rv_frames v !! k = Some fr /\ rv_scene v = Some g /\
    log `prefix_of` log_of rec (rl_scene (log_frames chain factr_loaded is_file load_mesh rec (rv_frames v) names s)) /\
    forall side q, side ∈ RobotView.sides -> length q = 7 ->
      (dget side (fm_real_q fr) = Some q -> exists m f, dget side (rs_real g) = Some m /\
        rendered_tip log (ArmRoot side false) (link_names chain) = Some f /\ f.1 = (model_tip m).1) /\
      (dget side (fm_ghost_q fr) = Some q -> exists m f, dget side (rs_ghost g) = Some m /\ rm_visible m = true /\
        rendered_tip log (ArmRoot side true) (link_names chain) = Some f /\ f.1 = (model_tip m).1).
Proof.
  intros Hl Hf Hs v Hst. destruct (replay_run_inv shape is_file loads chain urdfs pedestal Hok built Hbuilt Hleaders l Hl) as [[_ _ Hp] _].
  destruct (Hp k n t Hst) as (fr & first & g & Hk & _ & _ & _ & Hg & [Hreal Hcmd _]). fold v in Hk, Hg.
  pose proof (take_S_r _ _ _ Hk) as Htake. set (before := take k (rv_frames v)) in *.
  pose proof (logged_good chain factr_loaded is_file load_mesh Hok rec s scn before Hf Hs) as Hgood.
  destruct (logged_frame chain factr_loaded is_file load_mesh Hok rec s scn before fr Hf Hs Hgood) as (_ & _ & Hfol).
  exists fr, g, (log_of rec (logged chain factr_loaded is_file load_mesh rec (before ++ [fr]) s)). split_and!; [done|done| |].
  { rewrite <-(take_drop (S k) (rv_frames v)), Htake. unfold log_frames. cbn [rl_scene]. by eapply logged_prefix. }
  intros side q Hside Hq. destruct (Hfol side Hside) as [Hr Hgh]. split; intros Hd; destruct (usable_seven _ _ _ Hd Hq) as [Hd' Hu].
  - destruct (Hreal side Hside) as (m & Hm & _ & _ & Hst'). specialize (Hst' _ Hu). rewrite Hd' in Hr. destruct Hr as (f & Hf' & Hv).
    exists m, f. split_and!; [done|done|]. unfold stands_at in Hst'. congruence.
  - destruct (Hcmd side Hside) as (m & Hm & Hshow). rewrite Hu in Hshow. destruct Hshow as [Hvis Hst'].
    rewrite Hd' in Hgh. destruct Hgh as (f & Hf' & Hv). exists m, f. split_and!; [done|done|done|]. unfold stands_at in Hst'. congruence.
Qed.
End agree.

(** One frame of the left arm, recorded with a target. *)
Definition demo_picture : ndimage := NdImage [1; 1; 3] U8 [f0; f0; f0].
Definition demo_pose_frame : image_frame := Frame f1 [("left", repeat f1 7)] [("left", repeat f0 7)] [("front", demo_picture)] [].

Lemma replays_agree_witness : exists log m f,
  log `prefix_of` log_of 4%Z (rl_scene (log_frames demo_chain (fun _ => Raise OtherError) (fun _ => false) (fun _ => []) 4%Z
    [demo_pose_frame] ["front"] scene0)) /\
  rendered_tip log (ArmRoot "left" false) (link_names demo_chain) = Some f /\ f.1 = (model_tip m).1.
Proof.
  destruct (new_robot_scene (fun _ => false) (fun _ _ => false) demo_chain (fun _ => None) false) as [built|] eqn:Hb; [|discriminate Hb].
  destruct (log_scene demo_chain (fun _ => Raise OtherError) (fun _ => false) (fun _ => []) None false false) as [scn|] eqn:Hs; [|discriminate Hs].
  destruct (replays_agree demo_chain (fun _ => Raise OtherError) (fun _ => None) (fun _ => false) (fun _ => []) (fun _ _ => false) false
    (fun _ => (1, 1)) demo_chain_ok demo_leaders built Hb [LoadEpisode [demo_pose_frame] ["front"]] 4%Z ["front"] scene0 scn 0 1 (fsub f1 f1))
    as (fr & g & log & Hfr & _ & Hpre & H).
  - repeat constructor; set_solver.
  - reflexivity.
  - exact Hs.
  - reflexivity.
  - change (Some demo_pose_frame = Some fr) in Hfr. injection Hfr as <-.
    destruct (H "left" (repeat f1 7) (list_elem_of_here _ _) eq_refl) as [Hl _].
    destruct (Hl eq_refl) as (m & f & _ & Hf & He). by exists log, m, f.
Defined.
