(* ===== verification/Mirror.v ===== *)
(** * The run panel and the session mirror

    Models the rest of [dashboard/runner.py]: the status line of the active run and the heartbeat
    it quotes from the daemon's log, the viewer layout that follows the session, and the mirror
    thread that reads the live streams and hands them to the recorded robot scene.  A tick sees
    one world of segments, one listing of the run directories, the clock and the session view. *)

From Stdlib Require Import SpecFloat Ascii String.
From S2P Require Import Prelude Float64 Ring Streams Text Json Channel Collect Session FactrNode PolicyClient Dashboard CalibFile LiveView.
From S2P Require Import Operator PlotStore.
Local Open Scope string_scope.
Local Open Scope list_scope.
Local Open Scope Z_scope.

(** ** The log file *)

(** [text.splitlines()] at line feeds, of a text that does not end in one. *)
Definition newline : ascii := ascii_of_nat 10.

Definition split_lines (text : string) : list string :=
  if bool_decide (text = "") then [] else py_split newline text.

(** [_log_tail]: the last lines of a readable file, stripped; [lines] keep their line ends. *)
Definition log_tail (lines : option (list string)) (n : nat) : option string :=
  match lines with
  | None => None
  | Some lines =>
    let text := py_strip (py_join "" (drop (length lines - n) lines)) in
    if bool_decide (text = "") then None else Some text
  end.

(** [line.find(marker)], as what follows the marker. *)
Fixpoint after_marker (marker line : string) : option string :=
  match strip_prefix marker line with
  | Some rest => Some rest
  | None => match line with EmptyString => None | String _ line => after_marker marker line end
  end.

Definition MARKER : string := "collection: ".

(** The first line with the marker decides, also when nothing follows it. *)
Fixpoint first_beat (lines : list string) : option string :=
  match lines with
  | [] => None
  | line :: lines =>
    match after_marker MARKER line with
    | Some rest => let b := py_strip rest in if bool_decide (b = "") then None else Some b
    | None => first_beat lines
    end
  end.

Definition last_heartbeat (lines : option (list string)) : option string :=
  match log_tail lines 12 with
  | None => None
  | Some tail => first_beat (rev (split_lines tail))
  end.

(** ** The run panel *)

Inductive status_detail := SavingEpisode | Beat (line : string) | Recording | Rollout | Replay.

Record CollectionStatus := MkStatus { cs_state : string; cs_detail : status_detail }.

Definition collection_status (v : SessionView) (lines : option (list string)) : option CollectionStatus :=
  if String.eqb (sv_state v) "saving" then Some (MkStatus "saving" SavingEpisode)
  else if String.eqb (sv_state v) "collection" then
    Some (MkStatus "running" (match last_heartbeat lines with Some b => Beat b | None => Recording end))
  else if String.eqb (sv_state v) "eval" then Some (MkStatus "running" Rollout)
  else if String.eqb (sv_state v) "skill" then Some (MkStatus "running" Replay)
  else None.

(** ** The layout *)

Definition layout : Type := json * json.

Definition layout_key (v : SessionView) : res layout :=
  if Json.truthy (sv_pending v) then
    let? p := jget "phase" (sv_pending v) in
    let phase := py_or p (jstr "collection") in
    let? label := jget (if py_eq phase (jstr "skill") then "skill" else "task") (sv_pending v) in
    Ok (phase, label)
  else if run_active v then Ok (py_or (sv_phase v) (jstr "collection"), sv_task v)
  else if String.eqb (sv_state v) "viewing" then Ok (jstr "viewing", jnull)
  else Ok (jstr "welcome", jnull).

(** What is sent to the viewer. *)
Inductive sent_layout := Welcome | PhaseLayout (kind task : json) (readme : json).

Definition send_layout (v : SessionView) : res sent_layout :=
  let? k := layout_key v in
  if py_eq k.1 (jstr "welcome") then Ok Welcome
  else Ok (PhaseLayout k.1 k.2 (if Json.truthy (sv_pending v) then k.1 else jstr (sv_state v))).

Definition same_layout (last : option layout) (k : layout) : bool :=
  match last with Some l => py_eq l.1 k.1 && py_eq l.2 k.2 | None => false end.

(** Following the session: a layout is sent when the key changes. *)
Definition follow (last : option layout) (v : SessionView) : res (option layout * list sent_layout) :=
  let? k := layout_key v in
  if same_layout last k then Ok (last, [])
  else let? l := send_layout v in Ok (Some k, [l]).

(** ** Policy packets *)

Record comm_state := Comm { co_next : Z; co_sent : Z; co_received : Z; co_errors : Z }.

Definition comm0 : comm_state := Comm 0 0 0 0.

Inductive plotted :=
  | PlotSent (n : Z) | PlotReceived (n : Z) | PlotErrors (n : Z) | PlotInFlight (on : bool) | PlotLatency (ms : f64).

(** One packet: the counters and what is plotted. *)
Definition comm_packet (x : comm_state * list plotted) (row : list f64 * Z) : res (comm_state * list plotted) :=
  let? kind := of_option IndexError (row.1 !! 0%nat) in
  let? elapsed := of_option IndexError (row.1 !! 2%nat) in
  let c := x.1 in
  if feq kind COMM_SENT then
    Ok (Comm (co_next c) (co_sent c + 1) (co_received c) (co_errors c),
        x.2 ++ [PlotSent (co_sent c + 1); PlotInFlight true])
  else if feq kind COMM_RECV then
    Ok (Comm (co_next c) (co_sent c) (co_received c + 1) (co_errors c),
        x.2 ++ [PlotReceived (co_received c + 1); PlotInFlight false; PlotLatency (fmul elapsed (f_of_Z 1000))])
  else
    Ok (Comm (co_next c) (co_sent c) (co_received c) (co_errors c + 1),
        x.2 ++ [PlotErrors (co_errors c + 1); PlotInFlight false]).

Definition log_policy_comm (comm : option (samples f64)) (c : comm_state) : res (comm_state * list plotted) :=
  match comm with
  | None => Ok (if 0 <? co_next c then comm0 else c, [])
  | Some s =>
    match list.last (s_seq s) with
    | None => Ok (c, [])
    | Some last =>
      let c := if last + 1 <? co_next c then comm0 else c in
      match rows_from (co_next c) s with
      | [] => Ok (c, [])
      | rows =>
        let? y := foldM_res comm_packet rows (c, []) in
        Ok (Comm (last + 1) (co_sent y.1) (co_received y.1) (co_errors y.1), y.2)
      end
    end
  end.

(** ** Leaders *)

Inductive leader_event := NotStreaming (side : string) | StreamingAgain (side : string).

(** One pass over the leaders: the samples taken, the sides known to be silent, what is said. *)
Definition leader_pass (read : string -> option (list f64)) (sides errored : list string)
    : list (string * list f64) * list string * list leader_event :=
  foldl (fun acc side =>
    let '(got, err, evs) := acc in
    match read side with
    | Some ((_ :: _) as jp) =>
      (dset side jp got,
       List.filter (fun s => negb (bool_decide (s = side))) err,
       evs ++ if bool_decide (side ∈ err) then [StreamingAgain side] else [])
    | _ => if bool_decide (side ∈ err) then acc else (got, err ++ [side], evs ++ [NotStreaming side])
    end) ([], errored, []) sides.

Definition ghost_configs (leaders : list (string * list f64)) : list (string * list f64) :=
  (fun x => (x.1, take 7 x.2)) <$> leaders.

(** The leaders' own models: only from a fresh, complete, finite model pose. *)
Definition factr_configs (read_model : string -> option (list f64)) (leaders : list (string * list f64))
    : list (string * list f64) :=
  omap (fun x =>
    match read_model x.1 with
    | Some v => if (length v <? 7)%nat || negb (forallb is_finite (take 7 v)) then None else Some (x.1, take 7 v)
    | None => None
    end) leaders.

(** ** A tick *)

Definition VIEW_STREAMS : list (string * string * option nat) :=
  [("q", "q", None); ("dq", "dq", None); ("tau", "tau", None); ("tau_ext", "tau_ext", None);
   ("wrench", "wrench", None); ("eef_vel", "eef_vel", None); ("eef", "eef_pos", Some 3%nat)].

Definition arm_sides : list string := ["left"; "right"].

(** What the mirror remembers between ticks. *)
Record mirror := MkMirror {
  mi_live_q : list (string * list f64);
  mi_live_eef : list (string * list f64);
  mi_horizon_q : list (string * list f64);
  mi_paths : list (string * list (list f64));
  mi_horizon_eef : list (string * list f64);
  mi_comm : comm_state;
  mi_layout : option layout;
  mi_errored : list string;
  mi_step : Z;
}.

Definition mirror0 : mirror := MkMirror [] [] [] [] [] comm0 None [] 0.

(** What the streams hold at a tick, as the readers of [LiveView] return it. *)
Record readings := Readings {
  rg_stream : string -> option (list f64);           (* [read_live_stream] *)
  rg_path : string -> option (list (list f64));      (* [read_live_horizon_q_trajectory] *)
  rg_horizon_q : string -> option (list f64);
  rg_horizon_eef : string -> option (list f64);
  rg_comm : option (samples f64);
  rg_leader : string -> option (list f64);           (* [read_live_leader] *)
  rg_model : string -> option (list f64);            (* a leader's [model_q_rad], if fresh *)
  rg_view : res SessionView;
  rg_robot : bool;                                   (* the scene is bound to a recording *)
}.

(** The readings of a world. *)
Definition readings_of (w : world) (dirs : list run_dir) (now_ns : Z) (max_age : f64) (v : res SessionView)
    (robot : bool) : readings :=
  Readings (read_live_stream w dirs) (read_live_horizon_q_trajectory w dirs) (read_live_horizon_q w dirs)
    (read_live_horizon_eef w dirs) (read_live_policy_comm w dirs) (read_live_leader w dirs now_ns max_age)
    (fun side => fst <$> read_live_stream_sample w dirs now_ns (factr_telemetry_stream_name side "model_q_rad") (Some max_age))
    v robot.

(** What a tick asks of the robot scene. *)
Inductive robot_call :=
  | UpdatePoses (real ghost factr : list (string * list f64))
  | UpdateHorizon (q real : list (string * list f64)) (paths : list (string * list (list f64)))
      (eef real_eef : list (string * list f64))
  | ClearHorizon.

(** One stream of one side: the two dictionaries of measured poses, and the plotted row. *)
Definition view_stream (read : string -> option (list f64)) (side : string)
    (acc : list (string * list f64) * list (string * list f64) * list (string * string * list f64))
    (st : string * string * option nat) :=
  let '(suffix, row, tk) := st in
  let '(q, eef, rows) := acc in
  match read (side +:+ "/" +:+ suffix) with
  | None =>
    if String.eqb suffix "q" then (ddel side q, eef, rows)
    else if String.eqb suffix "eef" then (q, ddel side eef, rows)
    else acc
  | Some v =>
    let vec := match tk with Some n => take n v | None => v end in
    let rows := rows ++ [(row, side, vec)] in
    if String.eqb suffix "q" && (7 <=? length vec)%nat then (dset side (take 7 vec) q, eef, rows)
    else if String.eqb suffix "eef" && (3 <=? length vec)%nat then (q, dset side (take 3 vec) eef, rows)
    else (q, eef, rows)
  end.

Definition width (rows : list (list f64)) : nat := match rows with r :: _ => length r | [] => 0 end.

(** The prediction of one side: the whole path, or its end alone. *)
Definition horizon_side (r : readings) (side : string) (m : mirror) : mirror :=
  let '(hq, paths) :=
    match rg_path r side with
    | Some ((_ :: _) as rows) =>
      if (7 <=? width rows)%nat then
        let path := take 7 <$> rows in
        (dset side (default [] (list.last path)) (mi_horizon_q m), dset side path (mi_paths m))
      else
        (match rg_horizon_q r side with
         | Some h => if (7 <=? length h)%nat then dset side (take 7 h) (mi_horizon_q m) else ddel side (mi_horizon_q m)
         | None => ddel side (mi_horizon_q m)
         end, ddel side (mi_paths m))
    | _ =>
      (match rg_horizon_q r side with
       | Some h => if (7 <=? length h)%nat then dset side (take 7 h) (mi_horizon_q m) else ddel side (mi_horizon_q m)
       | None => ddel side (mi_horizon_q m)
       end, ddel side (mi_paths m))
    end in
  let heef :=
    match rg_horizon_eef r side with
    | Some h => if (3 <=? length h)%nat then dset side (take 3 h) (mi_horizon_eef m) else ddel side (mi_horizon_eef m)
    | None => ddel side (mi_horizon_eef m)
    end in
  MkMirror (mi_live_q m) (mi_live_eef m) hq paths heef (mi_comm m) (mi_layout m) (mi_errored m) (mi_step m).

Definition plot_side (r : readings) (x : mirror * list (string * string * list f64)) (side : string)
    : mirror * list (string * string * list f64) :=
  let '(m, rows) := x in
  let '(q, eef, rows) := foldl (view_stream (rg_stream r) side) (mi_live_q m, mi_live_eef m, rows) VIEW_STREAMS in
  (horizon_side r side
     (MkMirror q eef (mi_horizon_q m) (mi_paths m) (mi_horizon_eef m) (mi_comm m) (mi_layout m) (mi_errored m) (mi_step m)),
   rows).

Definition MIRROR_HZ : Z := 3.
Definition state_every : Z := Z.max 1 MIRROR_HZ.
(** [round(3.0 / 5.0)] is one. *)
Definition plot_every : Z := 1.

(** What a tick sends out. *)
Record shown := Shown {
  sh_layout : list sent_layout; sh_rows : list (string * string * list f64); sh_packets : list plotted;
  sh_leaders : list leader_event; sh_robot : list robot_call;
}.

Definition robot_calls (r : readings) (m : mirror) (leaders : list (string * list f64)) : list robot_call :=
  if rg_robot r then
    [UpdatePoses (mi_live_q m) (ghost_configs leaders) (factr_configs (rg_model r) leaders);
     if bool_decide (mi_horizon_q m = []) && bool_decide (mi_horizon_eef m = []) then ClearHorizon
     else UpdateHorizon (mi_horizon_q m) (mi_live_q m) (mi_paths m) (mi_horizon_eef m) (mi_live_eef m)]
  else [].

(** The body of the loop of [_run_inner]. *)
Definition mirror_tick (leader_sides : list string) (r : readings) (m : mirror) : res (mirror * shown) :=
  let? lay := (if mi_step m mod state_every =? 0
               then let? v := rg_view r in follow (mi_layout m) v
               else Ok (mi_layout m, [])) in
  let '(m1, rows) := if mi_step m mod plot_every =? 0 then foldl (plot_side r) (m, []) arm_sides else (m, []) in
  let? comm := (if mi_step m mod plot_every =? 0 then log_policy_comm (rg_comm r) (mi_comm m) else Ok (mi_comm m, [])) in
  let '(leaders, errored, evs) := leader_pass (rg_leader r) leader_sides (mi_errored m) in
  let m2 := MkMirror (mi_live_q m1) (mi_live_eef m1) (mi_horizon_q m1) (mi_paths m1) (mi_horizon_eef m1)
              comm.1 lay.1 errored (mi_step m + 1) in
  Ok (m2, Shown lay.2 rows comm.2 evs (robot_calls r m2 leaders)).

(** ** The layout during a switch *)

Fixpoint follow_all (last : option layout) (vs : list SessionView) : res (option layout * list sent_layout) :=
  match vs with
  | [] => Ok (last, [])
  | v :: vs =>
    let? x := follow last v in
    let? y := follow_all x.1 vs in
    Ok (y.1, x.2 ++ y.2)
  end.

(** A view between asking for the run [phase] of [label] and that run's end: the switch is
    pending, in whatever state the session is, or the run is on. *)
Definition switching_to (phase label : string) (v : SessionView) : Prop :=
  (exists o, sv_pending v = Obj o /\ dget "phase" o = Some (jstr phase) /\
     dget (if String.eqb phase "skill" then "skill" else "task") o = Some (jstr label)) \/
  (sv_pending v = jnull /\ sv_state v ∈ RUN_STATES /\ sv_phase v = jstr phase /\ sv_task v = jstr label).

Lemma py_eq_str a b : py_eq (jstr a) (jstr b) = String.eqb a b.
Proof. cbn. apply eq_true_iff_eq. by rewrite bool_decide_eq_true, String.eqb_eq. Qed.

Lemma py_or_str s d : s <> "" -> py_or (jstr s) d = jstr s.
Proof. intros Hs. unfold py_or. cbn. by rewrite bool_decide_false. Qed.

Lemma switching_key phase label v : phase <> "" -> switching_to phase label v ->
  layout_key v = Ok (jstr phase, jstr label).
Proof.
  intros Hp [(o & Ho & Hph & Hl)|(Hn & Hs & Hph & Hl)]; unfold layout_key.
  - rewrite Ho. destruct o as [|x o]; [done|]. cbn [Json.truthy jget res_bind]. rewrite Hph. cbn [default from_option id].
    rewrite py_or_str, py_eq_str by done. by rewrite Hl.
  - rewrite Hn. cbn [Json.truthy jnull]. unfold run_active. rewrite bool_decide_true by done.
    by rewrite Hph, Hl, py_or_str.
Qed.

(** a switch changes the viewer's layout once.  From the moment the switch to a run is pending,
    through the old run's stopping and saving and the idle gap between the runs, to the end of the
    new run, the mirror sends at most one layout, that of the new run, labelled with its task, or
    with its skill; the layout it ends with is that one. *)
Theorem switch_flips_once last phase label vs :
  phase <> "" -> vs <> [] -> Forall (switching_to phase label) vs ->
  exists k sent, follow_all last vs = Ok (Some k, sent) /\ same_layout (Some k) (jstr phase, jstr label) = true /\
    (length sent <= 1)%nat /\
    (same_layout last (jstr phase, jstr label) = true -> sent = []).
Proof.
  intros Hp Hne Hvs.
  assert (forall k, same_layout (Some k) (jstr phase, jstr label) = true ->
    forall vs, Forall (switching_to phase label) vs -> follow_all (Some k) vs = Ok (Some k, [])) as Hstay.
  { intros k Hk ws Hws. induction Hws as [|v ws Hv _ IH]; cbn [follow_all]; [done|].
    unfold follow. rewrite (switching_key _ _ _ Hp Hv). cbn [res_bind]. rewrite Hk. cbn [res_bind fst].
    by rewrite IH. }
  destruct Hvs as [|v vs Hv Hvs]; [done|]. cbn [follow_all].
  unfold follow. rewrite (switching_key _ _ _ Hp Hv). cbn [res_bind].
  destruct (same_layout last (jstr phase, jstr label)) eqn:El.
  - cbn [res_bind fst]. destruct last as [k|]; [|done]. rewrite (Hstay k El vs Hvs).
    exists k, []. split_and!; [done|exact El|cbn; lia|done].
  - unfold send_layout. rewrite (switching_key _ _ _ Hp Hv). cbn [res_bind fst snd].
    assert (same_layout (Some (jstr phase, jstr label)) (jstr phase, jstr label) = true) as Hr.
    { unfold same_layout. cbn [fst snd]. by rewrite !py_eq_str, !String.eqb_refl. }
    destruct (py_eq (jstr phase) (jstr "welcome")); cbn [res_bind fst snd];
      rewrite (Hstay _ Hr vs Hvs); eexists _, _; (split_and!; [reflexivity|exact Hr|cbn; lia|done]).
Qed.

(** Saving a collection, idle, then the evaluation the operator switched to. *)
Definition switch_views : list SessionView :=
  let pending := Obj [("phase", jstr "eval"); ("task", jstr "fold"); ("skill", jnull)] in
  [View "saving" jnull jnull jnull (jstr "pick") (jstr "collection") 1 jnull jnull jnull [] [] pending jnull;
   View "viewing" jnull jnull jnull jnull jnull 1 jnull jnull jnull [] [] pending jnull;
   View "eval" jnull jnull jnull (jstr "fold") (jstr "eval") 2 jnull jnull jnull [] [] jnull jnull].

Lemma switch_flips_once_witness :
  exists k sent, follow_all (Some (jstr "collection", jstr "pick")) switch_views = Ok (Some k, sent) /\
    (length sent <= 1)%nat /\ sent = [PhaseLayout (jstr "eval") (jstr "fold") (jstr "eval")].
Proof.
  destruct (switch_flips_once (Some (jstr "collection", jstr "pick")) "eval" "fold" switch_views) as (k & sent & Hf & _ & Hl & _).
  - done.
  - done.
  - unfold switch_views. apply List.Forall_cons; [left; by eexists|].
    apply List.Forall_cons; [left; by eexists|]. apply List.Forall_cons; [|apply List.Forall_nil].
    right. split_and!; [done| |done|done]. right. left.
  - exists k, sent. split; [exact Hf|]. split; [exact Hl|]. vm_compute in Hf. by injection Hf as <- <-.
Defined.

(** ** What the scene is given *)

(** The measured poses after one stream of a side. *)
Definition pose_dicts (read : string -> option (list f64)) (side : string)
    (x : list (string * list f64) * list (string * list f64)) (st : string * string * option nat) :=
  let '(suffix, _, tk) := st in
  match read (side +:+ "/" +:+ suffix) with
  | None =>
    if String.eqb suffix "q" then (ddel side x.1, x.2)
    else if String.eqb suffix "eef" then (x.1, ddel side x.2) else x
  | Some v =>
    let vec := match tk with Some n => take n v | None => v end in
    if String.eqb suffix "q" && (7 <=? length vec)%nat then (dset side (take 7 vec) x.1, x.2)
    else if String.eqb suffix "eef" && (3 <=? length vec)%nat then (x.1, dset side (take 3 vec) x.2) else x
  end.

Lemma view_stream_dicts read side acc st :
  (view_stream read side acc st).1 = pose_dicts read side acc.1 st.
Proof.
  destruct st as [[suffix row] tk], acc as [[q eef] rows]. unfold view_stream, pose_dicts. cbn [fst snd].
  destruct (read _) as [v|].
  - destruct (String.eqb suffix "q" && _); [done|]. by destruct (String.eqb suffix "eef" && _).
  - destruct (String.eqb suffix "q"); [done|]. by destruct (String.eqb suffix "eef").
Qed.

Lemma foldl_view_stream read side acc l :
  (foldl (view_stream read side) acc l).1 = foldl (pose_dicts read side) acc.1 l.
Proof.
  revert acc. induction l as [|st l IH]; intros acc; cbn [foldl]; [done|]. by rewrite IH, view_stream_dicts.
Qed.

(** A dictionary entry set from a whole vector, dropped with its stream, kept otherwise. *)
Definition refresh {A} (side : string) (o : option (option A)) (d : list (string * A)) : list (string * A) :=
  match o with None => ddel side d | Some None => d | Some (Some a) => dset side a d end.

Definition whole (n : nat) (o : option (list f64)) : option (option (list f64)) :=
  match o with None => None | Some v => Some (if (n <=? length v)%nat then Some (take n v) else None) end.

Lemma view_streams_dicts read side q eef rows :
  (foldl (view_stream read side) (q, eef, rows) VIEW_STREAMS).1 =
  (refresh side (whole 7 (read (side +:+ "/q"))) q, refresh side (whole 3 (read (side +:+ "/eef"))) eef).
Proof.
  rewrite foldl_view_stream. cbn [fst]. unfold VIEW_STREAMS. cbn [foldl].
  assert (forall x suffix row, suffix <> "q" -> suffix <> "eef" -> pose_dicts read side x (suffix, row, None) = x) as Hskip.
  { intros x suffix row H1 H2. unfold pose_dicts. rewrite (proj2 (String.eqb_neq _ _) H1), (proj2 (String.eqb_neq _ _) H2).
    by destruct (read _). }
  rewrite !(Hskip _ "dq"), !(Hskip _ "tau"), !(Hskip _ "tau_ext"), !(Hskip _ "wrench"), !(Hskip _ "eef_vel") by done.
  unfold pose_dicts. cbn [String.eqb Ascii.eqb Bool.eqb andb].
  change ("/" +:+ "q") with "/q". change ("/" +:+ "eef") with "/eef".
  destruct (read (side +:+ "/q")) as [v|]; destruct (read (side +:+ "/eef")) as [u|]; cbn [whole refresh fst snd];
    repeat match goal with |- context [(?n <=? length ?l)%nat] => destruct (Nat.leb_spec n (length l)) end;
    rewrite ?take_take, ?Nat.min_id; rewrite ?length_take in *; try done; lia.
Qed.

(** A dictionary over the arms. *)
Definition arm_dict {A} (d : list (string * A)) : Prop := NoDup (dkeys d) /\ forall k, k ∈ dkeys d -> k ∈ arm_sides.

Lemma refresh_arm_dict {A} side (o : option (option A)) d : side ∈ arm_sides -> arm_dict d -> arm_dict (refresh side o d).
Proof.
  intros Hs [Hn Hk]. destruct o as [[a|]|]; cbn [refresh]; [| done |].
  - split; [by apply NoDup_dset|]. intros k [->|H]%elem_of_dkeys_dset; auto.
  - split; [by apply ddel_NoDup|]. intros k H. apply Hk. by eapply elem_of_dkeys_ddel.
Qed.

Lemma refresh_get {A} side (o : option (option A)) d : arm_dict d ->
  dget side (refresh side o d) = match o with None => None | Some None => dget side d | Some (Some a) => Some a end.
Proof.
  intros [Hn _]. destruct o as [[a|]|]; cbn [refresh]; [apply dget_dset_eq|done|by apply dget_ddel_eq].
Qed.

Lemma refresh_get_other {A} side side' (o : option (option A)) d : side' <> side ->
  dget side' (refresh side o d) = dget side' d.
Proof.
  intros Hs. destruct o as [[a|]|]; cbn [refresh]; [by apply dget_dset_ne|done|by apply dget_ddel_ne].
Qed.

(** What the prediction streams of a side say now. *)
Definition path_of (r : readings) (side : string) : option (list (list f64)) :=
  match rg_path r side with
  | Some ((_ :: _) as rows) => if (7 <=? width rows)%nat then Some (take 7 <$> rows) else None
  | _ => None
  end.

Definition at_least (n : nat) (o : option (list f64)) : option (list f64) :=
  match o with Some h => if (n <=? length h)%nat then Some (take n h) else None | None => None end.

Definition end_of (r : readings) (side : string) : option (list f64) :=
  match path_of r side with
  | Some path => Some (default [] (list.last path))
  | None => at_least 7 (rg_horizon_q r side)
  end.

Definition now_or_gone {A} (o : option A) : option (option A) := Some <$> o.

Lemma horizon_side_dicts r side m :
  mi_horizon_q (horizon_side r side m) = refresh side (now_or_gone (end_of r side)) (mi_horizon_q m) /\
  mi_paths (horizon_side r side m) = refresh side (now_or_gone (path_of r side)) (mi_paths m) /\
  mi_horizon_eef (horizon_side r side m) =
    refresh side (now_or_gone (at_least 3 (rg_horizon_eef r side))) (mi_horizon_eef m) /\
  mi_live_q (horizon_side r side m) = mi_live_q m /\ mi_live_eef (horizon_side r side m) = mi_live_eef m.
Proof.
  unfold horizon_side, end_of, path_of.
  destruct (rg_path r side) as [[|row rows]|]; [|destruct (7 <=? width (row :: rows))%nat|];
    cbn [mi_horizon_q mi_paths mi_horizon_eef mi_live_q mi_live_eef now_or_gone fmap option_fmap option_map refresh];
    split_and!; try done; unfold at_least;
    repeat match goal with |- context [match ?o with Some _ => _ | None => _ end] => destruct o end;
    repeat match goal with |- context [(?n <=? ?k)%nat] => destruct (n <=? k)%nat end; done.
Qed.

(** The dictionaries of a mirror. *)
Definition mirror_ok (m : mirror) : Prop :=
  arm_dict (mi_live_q m) /\ arm_dict (mi_live_eef m) /\ arm_dict (mi_horizon_q m) /\ arm_dict (mi_paths m) /\
  arm_dict (mi_horizon_eef m).

Lemma plot_side_dicts r m rows side :
  let m' := (plot_side r (m, rows) side).1 in
  mi_live_q m' = refresh side (whole 7 (rg_stream r (side +:+ "/q"))) (mi_live_q m) /\
  mi_live_eef m' = refresh side (whole 3 (rg_stream r (side +:+ "/eef"))) (mi_live_eef m) /\
  mi_horizon_q m' = refresh side (now_or_gone (end_of r side)) (mi_horizon_q m) /\
  mi_paths m' = refresh side (now_or_gone (path_of r side)) (mi_paths m) /\
  mi_horizon_eef m' = refresh side (now_or_gone (at_least 3 (rg_horizon_eef r side))) (mi_horizon_eef m).
Proof.
  cbn zeta. unfold plot_side.
  pose proof (view_streams_dicts (rg_stream r) side (mi_live_q m) (mi_live_eef m) rows) as H.
  destruct (foldl _ _ VIEW_STREAMS) as [[q eef] rows']. cbn [fst] in H. injection H as -> ->. cbn [fst].
  destruct (horizon_side_dicts r side (MkMirror (refresh side (whole 7 (rg_stream r (side +:+ "/q"))) (mi_live_q m))
    (refresh side (whole 3 (rg_stream r (side +:+ "/eef"))) (mi_live_eef m)) (mi_horizon_q m) (mi_paths m)
    (mi_horizon_eef m) (mi_comm m) (mi_layout m) (mi_errored m) (mi_step m))) as (E1 & E2 & E3 & E4 & E5).
  by rewrite E1, E2, E3, E4, E5.
Qed.

(** Both sides of a dictionary refreshed. *)
Definition both {A} (src : string -> option (option A)) (d : list (string * A)) : list (string * A) :=
  refresh "right" (src "right") (refresh "left" (src "left") d).

Lemma both_arm_dict {A} (src : string -> option (option A)) d : arm_dict d -> arm_dict (both src d).
Proof.
  intros H. unfold both. apply refresh_arm_dict; [right; left|]. apply refresh_arm_dict; [left|done].
Qed.

Lemma both_get {A} (src : string -> option (option A)) d side v : arm_dict d -> dget side (both src d) = Some v ->
  side ∈ arm_sides /\ match src side with None => False | Some None => dget side d = Some v | Some (Some a) => v = a end.
Proof.
  intros Hd H. assert (side ∈ arm_sides) as Hs by (apply (both_arm_dict src d Hd), (dget_key _ _ _ H)).
  split; [done|]. unfold both in H. assert (side = "left" \/ side = "right") as [-> | ->] by (unfold arm_sides in Hs; set_solver).
  - rewrite refresh_get_other, refresh_get in H by done. destruct (src "left") as [[a|]|]; by simplify_eq.
  - rewrite refresh_get in H by (apply refresh_arm_dict; [left|done]).
    destruct (src "right") as [[a|]|]; simplify_eq; [done|]. by rewrite refresh_get_other in H.
Qed.

Lemma plot_pass_dicts r m :
  let m' := (foldl (plot_side r) (m, []) arm_sides).1 in
  mi_live_q m' = both (fun side => whole 7 (rg_stream r (side +:+ "/q"))) (mi_live_q m) /\
  mi_live_eef m' = both (fun side => whole 3 (rg_stream r (side +:+ "/eef"))) (mi_live_eef m) /\
  mi_horizon_q m' = both (fun side => now_or_gone (end_of r side)) (mi_horizon_q m) /\
  mi_paths m' = both (fun side => now_or_gone (path_of r side)) (mi_paths m) /\
  mi_horizon_eef m' = both (fun side => now_or_gone (at_least 3 (rg_horizon_eef r side))) (mi_horizon_eef m).
Proof.
  cbn zeta. unfold arm_sides. cbn [foldl].
  destruct (plot_side_dicts r m [] "left") as (A1 & A2 & A3 & A4 & A5).
  destruct (plot_side r (m, []) "left") as [m1 rows1]. cbn [fst] in *.
  destruct (plot_side_dicts r m1 rows1 "right") as (B1 & B2 & B3 & B4 & B5).
  unfold both. by rewrite B1, B2, B3, B4, B5, A1, A2, A3, A4, A5.
Qed.

(** A tick, taken apart. *)
Lemma mirror_tick_inv sides r m m' sh : mirror_tick sides r m = Ok (m', sh) ->
  let p := (foldl (plot_side r) (m, []) arm_sides).1 in
  let leaders := (leader_pass (rg_leader r) sides (mi_errored m)).1.1 in
  mi_live_q m' = mi_live_q p /\ mi_live_eef m' = mi_live_eef p /\ mi_horizon_q m' = mi_horizon_q p /\
  mi_paths m' = mi_paths p /\ mi_horizon_eef m' = mi_horizon_eef p /\
  sh_robot sh = robot_calls r m' leaders.
Proof.
  unfold mirror_tick. unfold plot_every. rewrite Z.mod_1_r. cbn [Z.eqb].
  destruct (if mi_step m mod state_every =? 0 then _ else _) as [lay|]; [|done]. cbn [res_bind].
  destruct (foldl (plot_side r) (m, []) arm_sides) as [p rows]. cbn [fst].
  destruct (log_policy_comm _ _) as [comm|]; [|done]. cbn [res_bind].
  destruct (leader_pass _ _ _) as [[leaders errored] evs]. intros [= <- <-]. cbn. by split_and!.
Qed.

(** Ticks one after the other. *)
Inductive mirrored (sides : list string) : mirror -> Prop :=
  | mirrored_start : mirrored sides mirror0
  | mirrored_tick m r m' sh : mirrored sides m -> mirror_tick sides r m = Ok (m', sh) -> mirrored sides m'.

Lemma mirrored_ok sides m : mirrored sides m -> mirror_ok m.
Proof.
  induction 1 as [|m r m' sh _ (K1 & K2 & K3 & K4 & K5) H].
  { assert (forall A, arm_dict (@nil (string * A))) as H0
      by (intros A; split; [constructor|intros k Hk; by apply not_elem_of_nil in Hk]).
    split_and!; apply H0. }
  destruct (mirror_tick_inv _ _ _ _ _ H) as (E1 & E2 & E3 & E4 & E5 & _).
  destruct (plot_pass_dicts r m) as (D1 & D2 & D3 & D4 & D5).
  unfold mirror_ok. rewrite E1, E2, E3, E4, E5, D1, D2, D3, D4, D5. split_and!; by apply both_arm_dict.
Qed.

(** The samples of a pass over the leaders are what the leaders' streams hold now. *)
Lemma leader_pass_get read sides errored side v :
  dget side (leader_pass read sides errored).1.1 = Some v -> read side = Some v.
Proof.
  unfold leader_pass.
  enough (forall got err evs, (forall s u, dget s got = Some u -> read s = Some u) ->
    dget side (foldl (fun acc side =>
      let '(got, err, evs) := acc in
      match read side with
      | Some ((_ :: _) as jp) =>
        (dset side jp got, List.filter (fun s => negb (bool_decide (s = side))) err,
         evs ++ if bool_decide (side ∈ err) then [StreamingAgain side] else [])
      | _ => if bool_decide (side ∈ err) then acc else (got, err ++ [side], evs ++ [NotStreaming side])
      end) (got, err, evs) sides).1.1 = Some v -> read side = Some v) as Hen by (by apply Hen).
  induction sides as [|s sides IH]; intros got err evs Hg; cbn [foldl]; [apply Hg|].
  destruct (read s) as [[|x jp]|] eqn:Er; [destruct (bool_decide _)| |destruct (bool_decide _)]; apply IH; try done.
  intros s' u. destruct (decide (s' = s)) as [->|Hne].
  - rewrite dget_dset_eq. intros [= <-]. exact Er.
  - rewrite dget_dset_ne by done. apply Hg.
Qed.

Lemma ghost_get leaders side q : dget side (ghost_configs leaders) = Some q ->
  exists v, dget side leaders = Some v /\ q = take 7 v.
Proof.
  unfold ghost_configs. induction leaders as [|[k v] d IH]; cbn; [done|].
  destruct (decide (side = k)); [|apply IH]. intros [= <-]. by exists v.
Qed.

Lemma refreshed_get {A} (src : string -> option A) d side v : arm_dict d ->
  dget side (both (fun s => now_or_gone (src s)) d) = Some v -> src side = Some v.
Proof.
  intros Hd H. destruct (both_get _ _ _ _ Hd H) as [_ Hm]. unfold now_or_gone in Hm.
  destruct (src side); cbn in Hm; by subst.
Qed.

(** the mirror shows only what is published now.  After any ticks, whenever a tick poses the
    robots: a measured arm is posed only if its joint stream can be read at this tick, and from
    its first seven entries when it has them; a commanded ghost only from the leader's fresh
    sample; a leader's own model only from a fresh pose of seven finite entries.  Predictions are
    drawn only while some prediction stream can be read, each from what its stream holds now, the
    whole path where there is one; otherwise the predictions are cleared. *)
Theorem mirror_shows_live sides m r m' sh :
  mirrored sides m -> mirror_tick sides r m = Ok (m', sh) ->
  (forall real ghost factr, UpdatePoses real ghost factr ∈ sh_robot sh ->
    (forall side q, dget side real = Some q ->
      exists v, rg_stream r (side +:+ "/q") = Some v /\ ((7 <= length v)%nat -> q = take 7 v)) /\
    (forall side q, dget side ghost = Some q -> exists v, rg_leader r side = Some v /\ q = take 7 v) /\
    (forall side q, (side, q) ∈ factr ->
      exists v, rg_model r side = Some v /\ q = take 7 v /\ length q = 7%nat /\ forallb is_finite q = true)) /\
  (forall hq real paths heef reef, UpdateHorizon hq real paths heef reef ∈ sh_robot sh ->
    (forall side q, dget side hq = Some q -> end_of r side = Some q) /\
    (forall side p, dget side paths = Some p -> path_of r side = Some p) /\
    (forall side p, dget side heef = Some p -> at_least 3 (rg_horizon_eef r side) = Some p) /\
    exists side, is_Some (end_of r side) \/ is_Some (at_least 3 (rg_horizon_eef r side))).
Proof.
  intros Hm Ht. pose proof (mirrored_ok _ _ Hm) as (K1 & _ & K3 & K4 & K5).
  destruct (mirror_tick_inv _ _ _ _ _ Ht) as (E1 & E2 & E3 & E4 & E5 & Hs).
  destruct (plot_pass_dicts r m) as (D1 & D2 & D3 & D4 & D5). rewrite D1 in E1. rewrite D3 in E3. rewrite D4 in E4.
  rewrite D5 in E5. rewrite Hs. clear Hs Ht. unfold robot_calls.
  set (leaders := (leader_pass _ _ _).1.1). destruct (rg_robot r); [|split; intros; set_solver].
  split.
  - intros real ghost factr [[= -> -> ->]|Hin%list_elem_of_singleton]%elem_of_cons.
    2: { destruct (_ && _); discriminate Hin. }
    split_and!.
    + intros side q Hq. rewrite E1 in Hq. destruct (both_get _ _ _ _ K1 Hq) as [_ Hv]. unfold whole in Hv.
      destruct (rg_stream r (side +:+ "/q")) as [v|]; [|done]. exists v. split; [done|]. intros Hlen.
      by rewrite (proj2 (Nat.leb_le _ _) Hlen) in Hv.
    + intros side q (v & Hv & ->)%ghost_get. exists v. split; [|done]. by eapply leader_pass_get.
    + intros side q Hq. apply list_elem_of_omap in Hq as ([k u] & _ & Hq). cbn [fst] in Hq.
      destruct (rg_model r k) as [v|] eqn:Ev; [|done]. destruct (Nat.ltb_spec (length v) 7); [done|]. cbn [orb] in Hq.
      destruct (forallb is_finite (take 7 v)) eqn:Ef; [|done]. injection Hq as <- <-. exists v.
      rewrite length_take. split_and!; [done|done|lia|done].
  - intros hq real paths heef reef [Hin|Hin%list_elem_of_singleton]%elem_of_cons; [discriminate Hin|].
    destruct (bool_decide (mi_horizon_q m' = []) && bool_decide (mi_horizon_eef m' = [])) eqn:Eb; [discriminate Hin|].
    injection Hin as -> -> -> -> ->. split_and!.
    + intros side q. rewrite E3. by apply (refreshed_get (end_of r)).
    + intros side p. rewrite E4. by apply (refreshed_get (path_of r)).
    + intros side p. rewrite E5. by apply (refreshed_get (fun s => at_least 3 (rg_horizon_eef r s))).
    + assert (forall A (d : list (string * A)), d <> [] -> exists side v, dget side d = Some v) as Hne.
      { intros A [|[k v] d] Hd; [done|]. exists k, v. cbn. by rewrite decide_True. }
      destruct (decide (mi_horizon_q m' = [])) as [Hq|Hq].
      * destruct (decide (mi_horizon_eef m' = [])) as [He|He].
        { by rewrite !bool_decide_true in Eb. }
        destruct (Hne _ _ He) as (side & v & Hv). rewrite E5 in Hv. apply (refreshed_get (fun s => at_least 3 (rg_horizon_eef r s))) in Hv; [|done].
        exists side. right. by rewrite Hv.
      * destruct (Hne _ _ Hq) as (side & v & Hv). rewrite E3 in Hv. apply (refreshed_get (end_of r)) in Hv; [|done].
        exists side. left. by rewrite Hv.
Qed.

(** A tick in which only the left arm publishes. *)
Definition left_readings : readings :=
  Readings (fun n => if String.eqb n "left/q" then Some (replicate 7 f1) else None) (fun _ => None) (fun _ => None)
    (fun _ => None) None (fun _ => None) (fun _ => None) (Ok (bare_view "viewing" jnull jnull jnull)) true.

Lemma mirror_shows_live_witness :
  exists m' sh, mirror_tick ["left"] left_readings mirror0 = Ok (m', sh) /\
    sh_robot sh = [UpdatePoses [("left", replicate 7 f1)] [] []; ClearHorizon] /\
    forall side q, dget side [("left", replicate 7 f1)] = Some q ->
      exists v, rg_stream left_readings (side +:+ "/q") = Some v /\ ((7 <= length v)%nat -> q = take 7 v).
Proof.
  destruct (mirror_tick ["left"] left_readings mirror0) as [[m' sh]|] eqn:E; [|vm_compute in E; discriminate E].
  exists m', sh. split; [done|].
  assert (sh_robot sh = [UpdatePoses [("left", replicate 7 f1)] [] []; ClearHorizon]) as Hs
    by (vm_compute in E; by injection E as <- <-).
  split; [done|].
  destruct (mirror_shows_live ["left"] mirror0 left_readings m' sh (mirrored_start _) E) as [H _].
  apply (H [("left", replicate 7 f1)] [] []). rewrite Hs. left.
Defined.
