(* ===== verification/Blueprints.v ===== *)
(** * The layouts of the recorded viewer

    Models [dashboard/blueprints.py]: the entity paths the mirror and the layouts share, and the
    layouts themselves as trees of views.  [mirror_rows_viewed] closes the contract the module's
    comments call "the contract with the emitter": whatever a tick of the session mirror plots, the
    layout of every session mode has exactly one panel for it. *)

From Stdlib Require Import SpecFloat Ascii String.
From S2P Require Import Prelude Float64 Ring Streams Text Json Channel Collect Session FactrNode PolicyClient Dashboard CalibFile LiveView Operator PlotStore Mirror.
Local Open Scope string_scope.
Local Open Scope list_scope.

(** ** Entity paths *)

Definition ROBOT_ORIGIN : string := "/robot".
Definition PROPRIO_ROOT : string := "proprio".
Definition FACTR_ROOT : string := "factr".
Definition EVENTS : string := "events".
Definition README : string := "readme".

Definition PROPRIO_SERIES : list string := ["eef_pos"; "q"; "dq"; "tau"; "tau_ext"; "wrench"; "eef_vel"].

Definition PROPRIO_TITLES : list (string * string) :=
  [("eef_pos", "TCP position (m)"); ("q", "Joint position q (rad)"); ("dq", "Joint velocity dq (rad/s)");
   ("tau", "Measured joint torque τ (Nm)"); ("tau_ext", "External joint torque τ_ext (Nm)");
   ("wrench", "TCP wrench (N, Nm)"); ("eef", "TCP pose"); ("eef_vel", "TCP twist (m/s, rad/s)")].

Definition POLICY_COMM_ROOT : string := "policy/comm".
Definition POLICY_LATENCY_PATH : string := "policy/latency".
Definition POLICY_COMM_SERIES : list string := ["sent"; "received"; "errors"; "in_flight"].

Definition policy_comm_path (series : string) : string := POLICY_COMM_ROOT +:+ "/" +:+ series.
Definition proprio_path (signal side : string) : string := PROPRIO_ROOT +:+ "/" +:+ signal +:+ "/" +:+ side.
Definition proprio_group (signal : string) : string := PROPRIO_ROOT +:+ "/" +:+ signal.

Definition FACTR_SERIES : list string := ["q"; "grip"].
Definition FACTR_TITLES : list (string * string) :=
  [("q", "Leader joint q — DFC/Rizon convention (rad)"); ("grip", "Leader gripper (rad)")].

Definition factr_path (signal side : string) : string := FACTR_ROOT +:+ "/" +:+ signal +:+ "/" +:+ side.
Definition factr_group (signal : string) : string := FACTR_ROOT +:+ "/" +:+ signal.

(** ** Views *)

Inductive bview :=
  | RobotView3D (origin title : string)
  | SeriesView (origin title : string) (window : option f64)
  | LogView (origin : string)
  | DocView (origin : string)
  | Rows (l : list bview)
  | Columns (l : list bview).

Record blueprint := Blueprint { bp_root : bview; bp_following : bool }.

(** [_plot_window_s]: the environment's value; what is not a number is ignored. *)
Definition plot_window_s (float_of_str : string -> option f64) (env : option string) : f64 :=
  match env with
  | Some t => default (f_of_Z 30) (float_of_str t)
  | None => f_of_Z 30
  end.

(** [_live_window]: [None] shows the whole history. *)
Definition live_window (window : f64) : option f64 := if fle window f0 then None else Some window.

(** [_live_time_panel]'s play state. *)
Definition live_following (window : f64) : bool := flt f0 window.

Section layouts.
Context (window : f64).

Definition title_of (titles : list (string * string)) (signal side : string) : res string :=
  let? t := of_option KeyError (dget signal titles) in Ok (t +:+ " · " +:+ side).

(** [_arm_column]. *)
Definition arm_column (side : string) (signals : list string) : res bview :=
  let? l := mapM_res (fun s => let? t := title_of PROPRIO_TITLES s side in
    Ok (SeriesView ("/" +:+ proprio_path s side) t (live_window window))) signals in
  Ok (Rows l).

(** [_factr_column]. *)
Definition factr_column (side : string) : res bview :=
  let? l := mapM_res (fun s => let? t := title_of FACTR_TITLES s side in
    Ok (SeriesView ("/" +:+ factr_path s side) t (live_window window))) FACTR_SERIES in
  Ok (Rows l).

(** [_policy_comm_row]. *)
Definition policy_comm_row : bview :=
  Columns [SeriesView ("/" +:+ POLICY_COMM_ROOT) "Policy server — packets (sent · received · errors · in-flight)" (live_window window);
           SeriesView ("/" +:+ POLICY_LATENCY_PATH) "Policy server — round-trip latency (ms)" (live_window window)].

Definition ROBOT_VIEW_NAME : string := "Robot — measured (solid) · teleop cmd (ghost) · target (purple)".

(** [_proprio_blueprint]. *)
Definition proprio_blueprint (phase : string) (task : option string) : res blueprint :=
  let title := match task with
               | Some ((String _ _) as t) => ROBOT_VIEW_NAME +:+ " — " +:+ t +:+ " · " +:+ phase
               | _ => ROBOT_VIEW_NAME
               end in
  let? fl := factr_column "left" in
  let? fr := factr_column "right" in
  let? al := arm_column "left" PROPRIO_SERIES in
  let? ar := arm_column "right" PROPRIO_SERIES in
  let rows := [Columns [fl; fr]; Columns [al; ar]] ++ (if String.eqb phase "eval" then [policy_comm_row] else []) ++
              [LogView ("/" +:+ EVENTS)] in
  Ok (Blueprint (Columns [RobotView3D ROBOT_ORIGIN title; Rows rows]) (live_following window)).

(** [for_phase]. *)
Definition for_phase (phase : string) (task : option string) : res blueprint :=
  if negb (bool_decide (phase ∈ ["eval"; "collection"; "skill"; "viewing"])) then Raise ValueError
  else proprio_blueprint phase task.

(** [eval_probe_blueprint]. *)
Definition eval_probe_blueprint : res blueprint :=
  let? al := arm_column "left" ["eef_pos"; "dq"] in
  let? ar := arm_column "right" ["eef_pos"; "dq"] in
  Ok (Blueprint (Columns [RobotView3D ROBOT_ORIGIN ROBOT_VIEW_NAME; Rows [Columns [al; ar]; LogView ("/" +:+ EVENTS)]])
        (live_following window)).

(** [welcome_blueprint]. *)
Definition welcome_blueprint : blueprint :=
  Blueprint (Columns [RobotView3D ROBOT_ORIGIN ROBOT_VIEW_NAME; DocView ("/" +:+ README)]) (live_following window).
End layouts.

(** ** What a layout shows *)

(** The origins of the time series, from left to right and top to bottom. *)
Fixpoint series_origins (v : bview) : list string :=
  match v with
  | SeriesView o _ _ => [o]
  | Rows l | Columns l => List.flat_map series_origins l
  | _ => []
  end.

(** The entity a packet event is logged to. *)
Definition plotted_path (p : plotted) : string :=
  match p with
  | PlotSent _ => policy_comm_path "sent"
  | PlotReceived _ => policy_comm_path "received"
  | PlotErrors _ => policy_comm_path "errors"
  | PlotInFlight _ => policy_comm_path "in_flight"
  | PlotLatency _ => POLICY_LATENCY_PATH
  end.

(** An entity is inside an origin: the origin itself or below it. *)
Definition inside (origin path : string) : bool :=
  String.eqb origin ("/" +:+ path) || starts_with (origin +:+ "/") ("/" +:+ path).

(** The panels that show an entity. *)
Definition panels (path : string) (b : blueprint) : list string :=
  List.filter (fun o => inside o path) (series_origins (bp_root b)).

Definition phases : list string := ["eval"; "collection"; "skill"; "viewing"].

(** One case per member of a list written out. *)
Ltac each_member H tac :=
  repeat (apply elem_of_cons in H as [-> | H]; [tac|]); by apply not_elem_of_nil in H.

(** The windows and titles do not decide where a panel looks. *)
Lemma for_phase_origins w phase task : phase ∈ phases -> exists b, for_phase w phase task = Ok b /\
  series_origins (bp_root b) =
    List.map (fun x => "/" +:+ factr_path x.2 x.1) (list_prod arm_sides FACTR_SERIES) ++
    List.map (fun x => "/" +:+ proprio_path x.2 x.1) (list_prod arm_sides PROPRIO_SERIES) ++
    (if String.eqb phase "eval" then ["/" +:+ POLICY_COMM_ROOT; "/" +:+ POLICY_LATENCY_PATH] else []).
Proof.
  intros Hp. unfold for_phase. rewrite (bool_decide_eq_true_2 _ Hp). cbn [negb]. each_member Hp ltac:(eexists; split; reflexivity).
Qed.

Lemma phase_panels w phase task : phase ∈ phases -> exists b, for_phase w phase task = Ok b /\
  (forall row side, row ∈ PROPRIO_SERIES -> side ∈ arm_sides -> panels (proprio_path row side) b = ["/" +:+ proprio_path row side]) /\
  (forall row side, row ∈ FACTR_SERIES -> side ∈ arm_sides -> panels (factr_path row side) b = ["/" +:+ factr_path row side]) /\
  (phase = "eval" -> forall p, exists o, panels (plotted_path p) b = [o]).
Proof.
  intros Hp. destruct (for_phase_origins w phase task Hp) as (b & Hb & Ho). exists b. split; [done|]. unfold panels. rewrite Ho.
  assert (exists ev, String.eqb phase "eval" = ev /\ (ev = true <-> phase = "eval")) as (ev & -> & Hev)
    by (eexists; split; [reflexivity|apply String.eqb_eq]).
  split_and!.
  - intros row side Hr Hs. clear Ho Hev. each_member Hr ltac:(each_member Hs ltac:(by destruct ev)).
  - intros row side Hr Hs. clear Ho Hev. each_member Hr ltac:(each_member Hs ltac:(by destruct ev)).
  - intros He p. apply Hev in He. subst ev. destruct p; eexists; reflexivity.
Qed.

(** ** What the mirror plots *)

Lemma view_rows read side st acc row s v : (row, s, v) ∈ (view_stream read side acc st).2 ->
  (row, s, v) ∈ acc.2 \/ (row = st.1.2 /\ s = side).
Proof.
  destruct st as [[suffix r] tk], acc as [[q e] rows]. cbn [view_stream snd fst]. destruct (read _) as [x|].
  - destruct (_ && _); [|destruct (_ && _)]; cbn [snd]; rewrite elem_of_app, list_elem_of_singleton; intros [H|[= -> -> _]]; auto.
  - destruct (String.eqb suffix "q"); [|destruct (String.eqb suffix "eef")]; cbn [snd]; auto.
Qed.

Lemma foldl_view_rows read side l acc row s v : (row, s, v) ∈ (foldl (view_stream read side) acc l).2 ->
  (row, s, v) ∈ acc.2 \/ (exists st, st ∈ l /\ row = st.1.2 /\ s = side).
Proof.
  revert acc. induction l as [|st l IH]; intros acc H; [by left|]. cbn [foldl] in H. apply IH in H as [H|(x & Hx & ?)].
  - apply view_rows in H as [H|H]; [by left|]. right. exists st. split; [left|done].
  - right. exists x. split; [by right|done].
Qed.

Lemma plot_rows_known r m side rows row s v : (row, s, v) ∈ (plot_side r (m, rows) side).2 ->
  (row, s, v) ∈ rows \/ (row ∈ PROPRIO_SERIES /\ s = side).
Proof.
  unfold plot_side. destruct (foldl _ _ VIEW_STREAMS) as [[q e] rows'] eqn:E. cbn [snd]. intros H.
  assert ((row, s, v) ∈ (foldl (view_stream (rg_stream r) side) (mi_live_q m, mi_live_eef m, rows) VIEW_STREAMS).2) as H' by (by rewrite E).
  apply foldl_view_rows in H' as [H'|(st & Hst & -> & ->)]; [by left|]. right. split; [|done].
  each_member Hst ltac:(unfold PROPRIO_SERIES; cbn; set_solver).
Qed.

Lemma tick_rows sides r m m' sh row s v : mirror_tick sides r m = Ok (m', sh) -> (row, s, v) ∈ sh_rows sh ->
  row ∈ PROPRIO_SERIES /\ s ∈ arm_sides.
Proof.
  unfold mirror_tick. destruct (if (mi_step m mod state_every =? 0)%Z then _ else _) as [lay|]; [|done]. cbn [res_bind].
  destruct (mi_step m mod plot_every =? 0)%Z.
  2: { destruct (leader_pass _ _ _) as [[ls er] evs]. cbn [res_bind]. intros [= <- <-]. cbn [sh_rows]. by intros ?%not_elem_of_nil. }
  destruct (foldl (plot_side r) (m, []) arm_sides) as [m1 rows] eqn:E.
  destruct (log_policy_comm _ _) as [c|]; [|done]. cbn [res_bind]. destruct (leader_pass _ _ _) as [[ls er] evs].
  intros [= <- <-]. cbn [sh_rows]. unfold arm_sides in E. cbn [foldl] in E.
  destruct (plot_side r (m, []) "left") as [m0 rows0] eqn:E0. intros Hin.
  assert ((row, s, v) ∈ (plot_side r (m0, rows0) "right").2) as Hin' by (by rewrite E).
  apply plot_rows_known in Hin' as [Hin'|[Hr ->]]; [|split; [done|unfold arm_sides; set_solver]].
  assert ((row, s, v) ∈ (plot_side r (m, []) "left").2) as Hin2 by (by rewrite E0).
  apply plot_rows_known in Hin2 as [Hin2|[Hr ->]]; [by apply not_elem_of_nil in Hin2|split; [done|unfold arm_sides; set_solver]].
Qed.

(** Nothing the mirror plots is without a panel.  In the layout of every session mode, whatever the
    task and the time window, every row a tick of the session mirror logs for an arm is shown by
    exactly one time-series panel, its own; both signals of each leader have exactly one too; and in
    the layout of an evaluation so has every packet event of the policy server. *)
Theorem mirror_rows_viewed (sides : list string) (r : readings) (m m' : mirror) (sh : shown) w phase task :
  mirror_tick sides r m = Ok (m', sh) -> phase ∈ phases ->
  exists b, for_phase w phase task = Ok b /\
    Forall (fun x => panels (proprio_path x.1.1 x.1.2) b = ["/" +:+ proprio_path x.1.1 x.1.2]) (sh_rows sh) /\
    (forall signal side, signal ∈ FACTR_SERIES -> side ∈ arm_sides -> panels (factr_path signal side) b = ["/" +:+ factr_path signal side]) /\
    (phase = "eval" -> Forall (fun p => exists o, panels (plotted_path p) b = [o]) (sh_packets sh)).
Proof.
  intros Ht Hp. destruct (phase_panels w phase task Hp) as (b & Hb & Hr & Hf & He). exists b. split_and!; [done| |done|].
  - apply Forall_forall. intros [[row side] v] Hin. destruct (tick_rows _ _ _ _ _ _ _ _ Ht Hin). by apply Hr.
  - intros Hev. apply Forall_forall. intros p _. by apply He.
Qed.

(** A tick that plots the left arm's joints, in an evaluation. *)
Definition demo_readings : readings :=
  Readings (fun n => if String.eqb n "left/q" then Some (repeat f1 7) else None) (fun _ => None) (fun _ => None) (fun _ => None) None
    (fun _ => None) (fun _ => None) (Ok (bare_view "viewing" jnull jnull jnull)) false.

Lemma mirror_rows_viewed_witness : exists b, for_phase f1 "eval" None = Ok b /\ panels "proprio/q/left" b = ["/proprio/q/left"].
Proof.
  destruct (mirror_tick [] demo_readings mirror0) as [[m' sh]|] eqn:E; [|discriminate E].
  destruct (mirror_rows_viewed [] demo_readings mirror0 m' sh f1 "eval" None E (list_elem_of_here _ _)) as (b & Hb & Hr & _).
  exists b. split; [done|]. vm_compute in E. injection E as <- <-. apply Forall_cons in Hr as [Hr _]. exact Hr.
Defined.
