(* ===== verification/ControlPage.v ===== *)
(** * The operator's controls

    Models the control half of [dashboard/app.py]: which buttons a page shows for a session view and
    which of them are enabled, what a press does to the run registry, the keyboard shortcuts, the
    shared FACTR toggles, where messages and alerts go, the choice of the rig, the rewriting of viewer
    addresses and the reset of all services.

    Streamlit runs the page from top to bottom on every interaction: a press is made on the page as
    it was last drawn, and the script that answers it reads the session again.  [rendered] is the
    drawing for a view, [press] the answer under the view then read.  Widget layout and texts are
    left out, except where the code decides between them. *)

From Stdlib Require Import SpecFloat Ascii String.
From S2P Require Import Prelude Float64 Ring Streams Text Session Json LiveView Storage Operator Dashboard.
Local Open Scope string_scope.
Local Open Scope list_scope.
Local Open Scope Z_scope.

(** ** The launch form *)

(** [_parse_port]: the port of an override, or whether the text is refused. *)
Definition parse_port (raw : string) : res (option Z * bool) :=
  let raw := py_strip raw in
  if String.eqb raw "" then Ok (None, false)
  else if negb (py_isdigit raw) then Ok (None, true)
  else
    let? n := int_of_digits raw in
    Ok (if (0 <? n) && (n <? 65536) then (Some n, false) else (None, true)).

Record form := Form {
  fo_task : string;
  fo_policy : string;          (* the policy selectbox *)
  fo_host : string;            (* the host selectbox *)
  fo_port : string;            (* the text box *)
}.

(** [None if policy_choice == "default" else policy_choice]. *)
Definition chosen_policy (f : form) : option string :=
  if String.eqb (fo_policy f) "default" then None else Some (fo_policy f).

(** [by_alias.get(host_choice)]. *)
Definition chosen_host (hosts : list (string * string)) (f : form) : option string := dget (fo_host f) hosts.

(** ** Gates *)

Definition collection_launchable (v : SessionView) : bool :=
  String.eqb (sv_state v) "viewing" && bool_decide (sv_cameras_down v = []) && bool_decide (sv_arms_down v = []).

(** [_eval_launchable]. *)
Definition eval_launchable (v : SessionView) : bool :=
  String.eqb (sv_state v) "viewing" && bool_decide (sv_cameras_down v = []) && bool_decide (sv_arms_down v = []).

(** [_factr_toggle_action]. *)
Inductive toggle := Enable | Disable.

Definition factr_toggle_action (states : list string) : option toggle :=
  if existsb (fun s => String.eqb s "enabled" || String.eqb s "enabling") states then Some Disable
  else if existsb (fun s => String.eqb s "disabling" || String.eqb s "disabled") states then Some Enable
  else None.

Definition toggles (states : list string) : bool := match factr_toggle_action states with Some _ => true | None => false end.

(** [_service_message_section]. *)
Inductive section := SFactr | SCameras | SArms.

Definition service_message_section (message : string) : option section :=
  let text := str_lower message in
  if contains "control error" text || contains "dropped out of control" text then Some SFactr
  else if contains "factr" text || contains "grav comp" text || contains "leader" text then Some SFactr
  else if contains "camera" text then Some SCameras
  else if contains "arm" text then Some SArms
  else None.

(** [_apply_mode_background]: the tint follows the mode; [saving] keeps its run's. *)
Definition MODE_BG : list (string * string) := [("collection", "#181d27"); ("eval", "#211627"); ("skill", "#16271d")].

Definition mode_background (v : SessionView) : option string :=
  if String.eqb (sv_state v) "saving"
  then match sv_phase v with Scalar (JStr p) => dget p MODE_BG | _ => None end
  else dget (sv_state v) MODE_BG.

(** [_browser_url], given the page's Host header. *)
Definition browser_url (header : option string) (url : string) : string :=
  let host := default "" (head (py_split ":" (default "" header))) in
  if String.eqb host "" || String.eqb host "127.0.0.1" || String.eqb host "localhost" then url
  else replace_all "127.0.0.1" host url.

(** ** The page *)

Inductive button :=
  | BCollection | BEval | BStop | BRepeat | BGrav | BFeedback | BReset
  | BReconnect (side : string) | BRespawn (name : string).

(** What the page was drawn from besides the session. *)
Record inputs := Inputs {
  in_form : form;
  in_hosts : list (string * string);     (* aliases and addresses *)
  in_rig : string;
  in_arms : list string;
  in_skill : option string;              (* the selected skill, when there is one *)
  in_grav : list string;                 (* the leaders' gravity-compensation states *)
  in_feedback : list string;             (* and force-feedback states *)
}.

Definition port_error (p : inputs) : bool := match parse_port (fo_port (in_form p)) with Ok (_, e) => e | Raise _ => true end.

(** A JSON string equal to [s]. *)
Definition is_str (s : string) (j : json) : bool := match j with Scalar (JStr t) => String.eqb t s | _ => false end.

Definition is_null (j : json) : bool := match j with Scalar JNull => true | _ => false end.

(** A button on the page of a view: absent, disabled or enabled. *)
Definition rendered (v : SessionView) (p : inputs) (b : button) : option bool :=
  match b with
  | BCollection => Some (collection_launchable v || run_active v)
  | BEval => Some ((eval_launchable v || run_active v) && negb (port_error p))
  | BStop => match active v with Some _ => Some (negb (String.eqb (sv_state v) "saving")) | None => None end
  | BRepeat => match in_skill p with Some _ => Some (String.eqb (sv_state v) "viewing") | None => None end
  | BGrav => if is_null (sv_factr_servers v) then None else Some (toggles (in_grav p))
  | BFeedback => if is_null (sv_factr_servers v) then None else Some (toggles (in_feedback p))
  | BReset => Some (negb (run_active v))
  | BReconnect side => if bool_decide (side ∈ in_arms p) then Some (negb (run_active v)) else None
  | BRespawn name =>
      if negb (run_active v) && String.eqb (sv_state v) "viewing" && existsb (is_str name) (sv_cameras_down v) then Some true else None
  end.

(** What the operator sees of a press. *)
Inductive feedback := Rerun | Refused | Unreachable | Told.

Section page.
Context (fos : string -> option f64).

(** [_launch]: a refusal is shown on the page. *)
Definition launch (e : menv) (task phase rig : string) (policy host : option string) (port : option Z) (switch : bool) :
    ST runs feedback := fun r =>
  match dash_launch fos e task phase rig policy host port switch r with
  | (r, Returned _) => (r, Returned Rerun)
  | (r, Raised RuntimeError) => (r, Returned Refused)
  | (r, Raised x) => (r, Raised x)
  | (r, Running) => (r, Running)
  end.

Definition repeat_skill (e : menv) (skill rig : string) : ST runs feedback := fun r =>
  match launch_skill fos e skill rig r with
  | (r, Returned _) => (r, Returned Rerun)
  | (r, Raised RuntimeError) => (r, Returned Refused)
  | (r, Raised x) => (r, Raised x)
  | (r, Running) => (r, Running)
  end.

(** A command whose only answer is whether the daemon could be reached. *)
Definition ask_daemon (m : ST manager bool) : ST runs feedback :=
  on_manager m ≫= (fun ok : bool => mret (if ok then Told else Unreachable)).

Definition toggle_command (on off : ST manager bool) (states : list string) : ST runs feedback :=
  match factr_toggle_action states with
  | Some Disable => ask_daemon off
  | Some Enable => ask_daemon on
  | None => mret Told
  end.

(** [_reset_services], the part that touches the session: refused during a run; otherwise the daemon
    is shut down and one for the active rig is asked for. *)
Definition reset_services (e : menv) (rig : option string) (sim : bool) : ST runs bool :=
  r ← st_get;
  v ← st_lift (view fos e (ru_manager r));
  if run_active v then mret false
  else
    Dashboard.reset fos e;;
    on_manager (shutdown e);;
    on_manager (ensure fos e rig sim);;
    mret true.

Definition press_reset (e : menv) (rig : option string) (sim : bool) : ST runs feedback :=
  reset_services e rig sim ≫= (fun ok : bool => mret (if ok then Told else Refused)).

(** The answer to a press, under the view [v] the script has read. *)
Definition press (e : menv) (v : SessionView) (sim : bool) (p : inputs) (b : button) : ST runs feedback :=
  match b with
  | BCollection => launch e (fo_task (in_form p)) "collection" (in_rig p) None None None (run_active v)
  | BEval =>
      pe ← st_lift (parse_port (fo_port (in_form p)));
      launch e (fo_task (in_form p)) "eval" (in_rig p) (chosen_policy (in_form p)) (chosen_host (in_hosts p) (in_form p)) pe.1 (run_active v)
  | BStop => stop_active e;; mret Rerun
  | BRepeat => match in_skill p with Some s => repeat_skill e s (in_rig p) | None => mret Told end
  | BGrav => toggle_command (enable_grav_comp e) (disable_grav_comp e) (in_grav p)
  | BFeedback => toggle_command (enable_force_feedback e) (disable_force_feedback e) (in_feedback p)
  | BReset => press_reset e (Some (in_rig p)) sim
  | BReconnect side => ask_daemon (reconnect_arm e side)
  | BRespawn name => ask_daemon (respawn_camera_cmd e name)
  end.

(** ** Keyboard shortcuts *)

(** The class of the stop button: only a collection's answers to S. *)
Definition stop_key (v : SessionView) : option string :=
  match active v with
  | Some r => Some (if is_str "collection" (rr_phase r) then "collection_stop" else "run_stop")
  | None => None
  end.

(** [_collection_keybinds]'s handler, on a document whose launch buttons were drawn from [vm] and
    whose status panel was drawn from [vf]: the button it clicks. *)
Definition keydown (typing : bool) (key : string) (vm vf : SessionView) (p : inputs) : option button :=
  if typing then None
  else
    let key := str_lower key in
    let b := if String.eqb key "c" then (match stop_key vf with Some _ => None | None => Some BCollection end)
             else if String.eqb key "s" then (if bool_decide (stop_key vf = Some "collection_stop") then Some BStop else None)
             else if String.eqb key "g" then Some BGrav
             else if String.eqb key "f" then Some BFeedback
             else None in
    match b with
    | Some b => match rendered (if String.eqb key "c" then vm else vf) p b with Some true => Some b | _ => None end
    | None => None
    end.
End page.

(** ** Alerts *)

(** The two places an alert is kept until it is seen. *)
Record kept := Kept { kp_run : option alert; kp_factr : option alert }.

(** The status panel files a finished run. *)
Definition file_alert (a : alert) (k : kept) : kept :=
  if negb (al_ok a) && is_str "collection" (al_phase a) then Kept (kp_run k) (Some a) else Kept (Some a) (kp_factr k).

Inductive surfaced := Toast (detail : json) | Popup (title : string) (a : alert).

Definition POPUP_TITLE : string := "⚠️ Collection stopped abnormally".

(** [_show_run_alert]: shown once, by taking it. *)
Definition show_run_alert (k : kept) : option surfaced * kept :=
  match kp_run k with
  | None => (None, k)
  | Some a => (Some (if al_ok a then Toast (al_detail a) else Popup POPUP_TITLE a), Kept None (kp_factr k))
  end.

Definition dismiss_factr (k : kept) : kept := Kept (kp_run k) None.

(** ** The rig *)

(** [_resolve_rig]: the rig of the launch option, [bimanual], or the first one. *)
Definition resolve_rig (wanted : string) (rigs : list string) : option (string * bool) :=
  match rigs with
  | [] => None
  | first :: _ =>
    let wanted := py_strip wanted in
    let unknown := negb (String.eqb wanted "") && negb (bool_decide (wanted ∈ rigs)) in
    let wanted := if unknown then "" else wanted in
    Some (if negb (String.eqb wanted "") then wanted
          else if bool_decide ("bimanual" ∈ rigs) then "bimanual" else first, unknown)
  end.

(** ** The control pane *)

Inductive pane_call := CalibrationPane | ClearOverlay | ActivateLayout | ExperimentPane.

(** [_render_control_workspace]: what one run renders and asks of the viewers, and the mode it
    remembers. *)
Definition control_workspace (mode : string) (seen : option string) : list pane_call * option string :=
  (if String.eqb mode "Calibration" then [CalibrationPane]
   else ClearOverlay :: (if bool_decide (seen = Some mode) then [] else [ActivateLayout]) ++ [ExperimentPane], Some mode).

(** Runs of the page in a sequence of modes. *)
Fixpoint control_runs (modes : list string) (seen : option string) : list pane_call :=
  match modes with
  | [] => []
  | mode :: modes => (control_workspace mode seen).1 ++ control_runs modes (control_workspace mode seen).2
  end.

(** Staying on the experiment's pane asks for its layout once, however often the page is run. *)
Lemma layout_once mode n seen : mode <> "Calibration" -> seen <> Some mode ->
  length (List.filter (fun c => match c with ActivateLayout => true | _ => false end) (control_runs (repeat mode (S n)) seen)) = 1%nat.
Proof.
  intros Hm Hs. cbn [repeat control_runs control_workspace fst snd]. rewrite (proj2 (String.eqb_neq _ _) Hm), bool_decide_eq_false_2 by done.
  cbn. f_equal. induction n as [|n IH]; [done|]. cbn [repeat control_runs control_workspace fst snd].
  rewrite (proj2 (String.eqb_neq _ _) Hm), bool_decide_eq_true_2 by done. exact IH.
Qed.

(** ** What the gates promise *)

Lemma parse_port_ok raw n e : parse_port raw = Ok (Some n, e) -> e = false /\ port_ok (JInt n) = true.
Proof.
  unfold parse_port. destruct (String.eqb _ ""); [done|]. destruct (negb _); [done|].
  destruct (int_of_digits _) as [z|]; [|done]. cbn [res_bind].
  destruct ((0 <? z) && (z <? 65536)) eqn:E; [|done]. intros [= <- <-]. done.
Qed.

Lemma enabled_up v : collection_launchable v || run_active v = true -> sv_state v <> "down" /\ sv_state v <> "starting".
Proof.
  intros [H|H]%orb_true_iff.
  - unfold collection_launchable in H. apply andb_true_iff in H as [[H _]%andb_true_iff _].
    apply String.eqb_eq in H. by rewrite H.
  - unfold run_active in H. apply bool_decide_eq_true in H. split; intros E; rewrite E in H; unfold RUN_STATES in H; set_solver.
Qed.

Lemma check_enabled v rig : sv_state v <> "down" -> sv_state v <> "starting" -> rig_conflict v rig = false ->
  check_launchable v rig (run_active v) = Ok tt.
Proof.
  intros H1 H2 H3. unfold check_launchable. rewrite andb_negb_r, H3.
  by rewrite (proj2 (String.eqb_neq _ _) H1), (proj2 (String.eqb_neq _ _) H2).
Qed.

Section gated.
Context (fos : string -> option f64).

(** The pipe to a live daemon. *)
Definition reachable (e : menv) (r : runs) (pid : Z) : Prop :=
  m_proc (ru_manager r) = Some pid /\ daemon_alive e (ru_manager r) = true /\ me_stdin_ok e = true.

Definition with_line (r : runs) (pid : Z) (c : cmd) : runs := Runs (add_line pid c (ru_manager r)) (ru_history r) (ru_seen_seq r).

Lemma send_reaches e r pid c : reachable e r pid -> sent_or_fail (send_line e c) r = (with_line r pid c, Returned tt).
Proof.
  intros (Hp & Ha & Hi). unfold sent_or_fail, mbind, st_bind, on_manager, send_line. cbn. unfold mbind, st_bind, st_get. cbn.
  by rewrite Hp, Ha, Hi.
Qed.

Lemma launch_reaches e r v pid task phase rig policy host port :
  view fos e (ru_manager r) = Ok v -> reachable e r pid -> phase ∈ PHASES ->
  check_launchable v rig (run_active v) = Ok tt ->
  launch fos e task phase rig policy host port (run_active v) r =
    (with_line r pid (run_cmd (if run_active v then "switch" else "start") phase task policy host port None), Returned Rerun).
Proof.
  intros Hv Hr Hph Hc. unfold launch, dash_launch. rewrite bool_decide_eq_true_2 by done. cbn [negb].
  unfold mbind, st_bind, st_get, st_lift. rewrite Hv, Hc.
  assert (sent_or_fail ((if run_active v then switch_run else start_run) e phase task policy host port None) r =
    (with_line r pid (run_cmd (if run_active v then "switch" else "start") phase task policy host port None), Returned tt)) as ->.
  { destruct (run_active v); by apply send_reaches. }
  done.
Qed.

Lemma ask_daemon_cases e c r r' o : ask_daemon (send_line e c) r = (r', o) ->
  (exists pid, m_proc (ru_manager r) = Some pid /\ r' = with_line r pid c) \/ r' = r.
Proof.
  unfold ask_daemon, mbind, st_bind, on_manager. destruct (send_line e c (ru_manager r)) as [m' o'] eqn:E.
  apply send_cases in E as [(-> & _ & pid & Hp & ->)|[-> ->]]; cbn; intros [= <- <-]; [left; by exists pid|right; by destruct r].
Qed.

(** The command a launch button stands for. *)
Definition launch_cmd (v : SessionView) (p : inputs) (b : button) : option cmd :=
  let kind := if run_active v then "switch" else "start" in
  match b with
  | BCollection => Some (run_cmd kind "collection" (fo_task (in_form p)) None None None None)
  | BEval =>
      match parse_port (fo_port (in_form p)) with
      | Ok (port, _) => Some (run_cmd kind "eval" (fo_task (in_form p)) (chosen_policy (in_form p)) (chosen_host (in_hosts p) (in_form p)) port None)
      | Raise _ => None
      end
  | _ => None
  end.

(** A name the daemon accepts: not empty, and made of letters, digits, dots, underscores, dashes. *)
Definition plain_text (s : string) : Prop :=
  s <> "" /\ forall c, c ∈ list_ascii_of_string s -> in_range "A" "Z" c \/ in_range "a" "z" c \/ in_range "0" "9" c \/ c ∈ ["."; "_"; "-"]%char.

Lemma name_char_plain c : name_char c = true <->
  in_range "A" "Z" c \/ in_range "a" "z" c \/ in_range "0" "9" c \/ c ∈ ["."; "_"; "-"]%char.
Proof. destruct c as [[] [] [] [] [] [] [] []]; vm_compute; (split; [intros H|intros [H|[H|[H|H]]]]); try done; set_solver. Qed.

Lemma plain_name_text s : plain_name (JStr s) = true <-> plain_text s.
Proof.
  unfold plain_name, plain_text. rewrite andb_true_iff, negb_true_iff, String.eqb_neq. apply and_iff_compat_l. clear.
  induction s as [|c s IH]; cbn [all_name list_ascii_of_string]; [set_solver|].
  rewrite andb_true_iff, IH, name_char_plain. set_solver.
Qed.

(** The names a launch hands on: a collection none, an evaluation the chosen policy and address. *)
Definition launch_names (p : inputs) (b : button) : list string :=
  match b with
  | BEval => option_list (chosen_host (in_hosts p) (in_form p)) ++ option_list (chosen_policy (in_form p))
  | _ => []
  end.

Lemma verdict_names (host policy : option string) :
  let v := if plain_option host then if plain_option policy then None else Some BadPolicy else Some BadHost in
  (v = None <-> Forall plain_text (option_list host ++ option_list policy)) /\ (v = None \/ v = Some BadHost \/ v = Some BadPolicy).
Proof.
  assert (forall o, plain_option o = true <-> Forall plain_text (option_list o)) as Ho.
  { intros [x|]; cbn [plain_option option_list]; [|by split].
    rewrite plain_name_text. split; [intros Hx; by constructor|by intros [? _]%Forall_cons]. }
  cbv zeta. rewrite Forall_app, <-!Ho. destruct (plain_option host), (plain_option policy); split; auto; by split; [|intros []].
Qed.


(** The C key only starts.  If the session is still as the status panel showed it when C was
    pressed, the press either does nothing or sends one start of a collection: it never turns into a
    switch that would end a run. *)
Theorem c_key_only_starts (e : menv) (sim typing : bool) (key : string) (vm v : SessionView) (p : inputs) (b : button) (r r' : runs)
    (o : outcome feedback)
    (Hkey : keydown typing key vm v p = Some b) (Hc : str_lower key = "c")
    (Hrun : press fos e v sim p b r = (r', o)) :
  b = BCollection /\ run_active v = false /\
  (r' = r \/ exists pid, m_proc (ru_manager r) = Some pid /\
     r' = with_line r pid (run_cmd "start" "collection" (fo_task (in_form p)) None None None None)).
Proof.
  unfold keydown in Hkey. destruct typing; [done|]. rewrite Hc in Hkey. cbn [String.eqb Ascii.eqb eqb] in Hkey.
  change ((("c" =? "c")%string)) with true in Hkey. cbn in Hkey. unfold stop_key, active in Hkey.
  destruct (run_active v) eqn:Ha; [done|]. cbn in Hkey. destruct (_ || _); [|done]. injection Hkey as <-.
  split; [done|]. split; [done|]. cbn [press] in Hrun. rewrite Ha in Hrun. unfold launch in Hrun.
  destruct (dash_launch _ _ _ _ _ _ _ _ _ _) as [r1 o1] eqn:E. assert (r' = r1) as ->.
  { destruct o1 as [|[]|]; by injection Hrun as <-. } clear Hrun.
  unfold dash_launch in E. rewrite bool_decide_eq_true_2 in E by (unfold PHASES; set_solver). cbn [negb] in E.
  unfold mbind, st_bind, st_get, st_lift in E.
  destruct (view fos e (ru_manager r)) as [v'|]; [|by injection E as <- <-; left].
  destruct (check_launchable v' _ _) as [[]|]; [|by injection E as <- <-; left].
  apply sent_or_fail_cases in E as [(-> & _ & pid & Hp & ->)|[-> ->]]; [|by left]. right. by exists pid.
Qed.

(** The guard looks at the page, the action at the session: a run that began after the page was drawn
    (in another window) is ended by C. *)
Lemma c_key_race e sim p r pid vm v' :
  run_active vm = false -> collection_launchable vm = true -> run_active v' = true ->
  view fos e (ru_manager r) = Ok v' -> reachable e r pid -> rig_conflict v' (in_rig p) = false ->
  exists b, keydown false "c" vm vm p = Some b /\
    press fos e v' sim p b r = (with_line r pid (run_cmd "switch" "collection" (fo_task (in_form p)) None None None None), Returned Rerun).
Proof.
  intros Ha Hl Hr Hv Hpid Hrig. exists BCollection. split.
  - unfold keydown, stop_key, active. rewrite Ha. change (str_lower "c") with "c". cbn [negb rendered String.eqb Ascii.eqb Bool.eqb].
    by rewrite Hl.
  - cbn [press]. rewrite (launch_reaches e r v' pid) by (try done; try (unfold PHASES; set_solver);
      apply check_enabled; try done; apply enabled_up; by rewrite Hr, orb_true_r). by rewrite Hr.
Qed.

(** The quantity a toggle controls, and its states. *)
Definition toggle_name (b : button) : string := match b with BGrav => "grav_comp" | _ => "force_feedback" end.
Definition toggle_states (p : inputs) (b : button) : list string := match b with BGrav => in_grav p | _ => in_feedback p end.

(** The shared FACTR toggles are safe.  A press of the gravity-compensation or the force-feedback
    toggle sends at most one command: "enable" only when no leader is reported on or ramping up, and
    "disable" whenever one is; without a known state the button is disabled, and pressing it sends
    nothing. *)
Theorem toggle_sends_safely (e : menv) (v : SessionView) (sim : bool) (p : inputs) (b : button) (r r' : runs) (o : outcome feedback)
    (Hb : b = BGrav \/ b = BFeedback) (Hrun : press fos e v sim p b r = (r', o)) :
  let name := toggle_name b in
  let states := toggle_states p b in
  let on s := s = "enabled" \/ s = "enabling" in
  r' = r \/ exists pid kind, m_proc (ru_manager r) = Some pid /\ r' = with_line r pid [("cmd", JStr (kind +:+ "_" +:+ name))] /\
    ((kind = "disable" /\ exists s, s ∈ states /\ on s) \/
     (kind = "enable" /\ (forall s, s ∈ states -> ~ on s) /\ exists s, s ∈ states /\ (s = "disabling" \/ s = "disabled"))).
Proof.
  intros name states on.
  assert (toggle_command (send_line e [("cmd", JStr ("enable_" +:+ name))]) (send_line e [("cmd", JStr ("disable_" +:+ name))]) states r = (r', o)) as Ht.
  { unfold name, states. by destruct Hb as [-> | ->]. }
  clear Hrun. unfold toggle_command in Ht. destruct (factr_toggle_action states) as [t|] eqn:Et; [|by injection Ht as <- <-; left].
  assert (exists kind, (match t with Enable => kind = "enable" | Disable => kind = "disable" end) /\
    ask_daemon (send_line e [("cmd", JStr (kind +:+ "_" +:+ name))]) r = (r', o)) as (kind & Hk & Ha).
  { destruct t; eexists; (split; [reflexivity|exact Ht]). }
  apply ask_daemon_cases in Ha as [(pid & Hp & ->)| ->]; [|by left]. right. exists pid, kind. split; [done|]. split; [done|].
  unfold factr_toggle_action in Et. destruct (existsb _ states) eqn:E1.
  - injection Et as <-. left. split; [done|]. apply existsb_exists in E1 as (s & Hs & Ho). exists s. split; [by apply list_elem_of_In|].
    by apply orb_true_iff in Ho as [->%String.eqb_eq| ->%String.eqb_eq]; [left|right].
  - destruct (existsb _ states) eqn:E2 in Et; [|done]. injection Et as <-. right. split; [done|]. split.
    + intros s Hs Ho. assert (existsb (fun s => String.eqb s "enabled" || String.eqb s "enabling") states = true) as H; [|by rewrite H in E1].
      apply existsb_exists. exists s. split; [by apply list_elem_of_In|]. by destruct Ho as [-> | ->].
    + apply existsb_exists in E2 as (s & Hs & Ho). exists s. split; [by apply list_elem_of_In|].
      by apply orb_true_iff in Ho as [->%String.eqb_eq| ->%String.eqb_eq]; [left|right].
Qed.

(** ** Resetting the services *)

(** Whether [ensure] waits before it replaces a daemon it no longer holds. *)
Definition waits (e : menv) (rig : option string) (sim : bool) (m : manager) : bool :=
  same_target rig sim m && flt (fsub (me_now e) (m_spawned_at m)) RESPAWN_BACKOFF_S.

Lemma shutdown_forgets e m : m_proc (shutdown_locked e m) = None /\ m_rig (shutdown_locked e m) = m_rig m /\
  m_sim (shutdown_locked e m) = m_sim m /\ m_spawned_at (shutdown_locked e m) = m_spawned_at m.
Proof.
  unfold shutdown_locked. destruct (m_proc m) eqn:E; [|by split_and!]. destruct (me_exit e); [by split_and!|].
  destruct (me_stdin_ok e), (me_in_grace e), (me_after_term e); by split_and!.
Qed.

(** What [ensure] does once the daemon has been shut down. *)
Lemma ensure_after_shutdown e rig sim m :
  ensure fos e rig sim (rearm (shutdown_locked e m)) =
    (if waits e rig sim m then (rearm (shutdown_locked e m), Returned false)
     else match me_popen e with
          | Ok pid => (add_op (OpSpawn pid rig sim) (Manager (Some pid) rig (Some sim) (me_now e) 0 None false
                         (m_stdin (shutdown_locked e m)) (m_ops (shutdown_locked e m))), Returned true)
          | Raise x => (rearm (shutdown_locked e m), Raised x)
          end).
Proof.
  destruct (shutdown_forgets e m) as (Hp & Hr & Hs & Ht). set (m1 := rearm (shutdown_locked e m)).
  assert (daemon_alive e m1 = false) as H1 by (unfold daemon_alive, m1; cbn; by rewrite Hp).
  assert (harvest_exit e m1 = m1) as H2 by (unfold harvest_exit, m1; cbn; by rewrite Hp).
  assert (same_target rig sim m1 = same_target rig sim m) as H3 by (unfold same_target, m1; cbn; by rewrite Hr, Hs).
  unfold ensure, mbind, st_bind, st_get, st_modify. rewrite H1. cbn [andb]. rewrite H2, H3. unfold waits.
  change (m_gave_up m1) with false. change (m_spawned_at m1) with (m_spawned_at (shutdown_locked e m)). rewrite Ht.
  unfold spawn_locked, mbind, st_bind, st_lift, st_modify.
  destruct (same_target rig sim m); cbn [negb andb]; [destruct (flt _ _); [done|]|]; by destruct (me_popen e).
Qed.

Lemma reset_services_cases e rig sim r v : view fos e (ru_manager r) = Ok v ->
  reset_services fos e rig sim r =
    if run_active v then (r, Returned false)
    else let x := ensure fos e rig sim (rearm (shutdown_locked e (ru_manager r))) in
         (Runs x.1 [] (ru_seen_seq r), match x.2 with Returned _ => Returned true | Raised e => Raised e | Running => Running end).
Proof.
  intros Hv. unfold reset_services, Dashboard.reset, shutdown, on_manager, mbind, st_bind, st_get, st_lift, st_modify.
  rewrite Hv. destruct (run_active v) eqn:Ha; [done|]. rewrite Hv, Ha. cbn [ru_manager fst snd ru_history ru_seen_seq mret st_ret].
  destruct (ensure _ _ _ _ _) as [m' [|x|]]; done.
Qed.

(** Resetting the services.  While a run is active the reset changes nothing at all and says so.
    Otherwise the history is cleared, the daemon that was held is shut down, and, unless the same
    session was spawned within the last ten seconds, a new daemon is spawned for the active rig after
    the old one has been let go, with its crash count cleared. *)
Theorem reset_services_restarts (e : menv) (rig : option string) (sim : bool) (r : runs) (v : SessionView) (pid : Z)
    (Hview : view fos e (ru_manager r) = Ok v) (Hpopen : me_popen e = Ok pid) :
  let r' := (reset_services fos e rig sim r).1 in
  if run_active v then r' = r /\ (reset_services fos e rig sim r).2 = Returned false
  else (reset_services fos e rig sim r).2 = Returned true /\ ru_history r' = [] /\
    m_gave_up (ru_manager r') = false /\ m_early_deaths (ru_manager r') = 0 /\
    (waits e rig sim (ru_manager r) = false ->
      m_proc (ru_manager r') = Some pid /\ m_rig (ru_manager r') = rig /\ m_sim (ru_manager r') = Some sim /\
      m_ops (ru_manager r') = m_ops (shutdown_locked e (ru_manager r)) ++ [OpSpawn pid rig sim]).
Proof.
  cbv zeta. rewrite (reset_services_cases e rig sim r v Hview). destruct (run_active v); [done|].
  rewrite ensure_after_shutdown, Hpopen. cbv zeta. destruct (waits e rig sim (ru_manager r)); by split_and!.
Qed.

(** A reset within ten seconds of the spawn reports success and leaves no daemon. *)
Lemma early_reset_leaves_down e rig sim r v : view fos e (ru_manager r) = Ok v -> run_active v = false ->
  waits e rig sim (ru_manager r) = true ->
  (reset_services fos e rig sim r).2 = Returned true /\ m_proc (ru_manager (reset_services fos e rig sim r).1) = None.
Proof.
  intros Hv Ha Hw. rewrite (reset_services_cases e rig sim r v Hv), Ha, ensure_after_shutdown, Hw. cbn.
  split; [done|]. apply shutdown_forgets.
Qed.
End gated.

(** ** Alerts and the rig *)

(** The popup is titled for collections, and no collection's error reaches it. *)
Inductive kept_by : kept -> Prop :=
  | KeptNone : kept_by (Kept None None)
  | KeptFile a k : kept_by k -> kept_by (file_alert a k)
  | KeptShow k : kept_by k -> kept_by (show_run_alert k).2
  | KeptDismiss k : kept_by k -> kept_by (dismiss_factr k).

Lemma popup_never_collection k a : kept_by k -> (show_run_alert k).1 = Some (Popup POPUP_TITLE a) ->
  is_str "collection" (al_phase a) = false.
Proof.
  intros Hk. enough (forall a, kp_run k = Some a -> al_ok a = false -> is_str "collection" (al_phase a) = false) as H.
  { unfold show_run_alert. destruct (kp_run k) as [b|] eqn:E; [|done]. destruct (al_ok b) eqn:Eo; [done|]. intros [= <-]. by apply H. }
  clear a. induction Hk as [|b k _ IH|k _ IH|k _ IH]; intros a; [done| | |by apply IH].
  - unfold file_alert. destruct (al_ok b) eqn:Eo; cbn [negb andb].
    + intros [= <-]. by rewrite Eo.
    + destruct (is_str _ _) eqn:Es; [by apply IH|]. by intros [= <-].
  - unfold show_run_alert. destruct (kp_run k) eqn:E; cbn; [done|by rewrite E].
Qed.

(** The rig is always one that exists; a name that does not is reported. *)
Lemma resolve_rig_known wanted rigs : rigs <> [] -> exists name unknown, resolve_rig wanted rigs = Some (name, unknown) /\
  name ∈ rigs /\ (unknown = false -> py_strip wanted <> "" -> name = py_strip wanted) /\
  (unknown = true -> py_strip wanted ∉ rigs).
Proof.
  destruct rigs as [|first rigs]; [done|]. intros _. unfold resolve_rig. eexists _, _. split; [reflexivity|].
  destruct (String.eqb_spec (py_strip wanted) "") as [->|Hne]; cbn [negb andb String.eqb].
  - case_bool_decide; split_and!; try done. left.
  - case_bool_decide as Hin; cbn [negb]; [|case_bool_decide; split_and!; try done; left].
    destruct (String.eqb_spec (py_strip wanted) ""); [done|]. by split_and!.
Qed.

(** An IPv6 host in the page's address makes the viewers' addresses unusable. *)
Lemma ipv6_host_breaks_url : browser_url (Some "[::1]:8501") "http://127.0.0.1:9090" = "http://[:9090".
Proof. reflexivity. Qed.

(** ** Instances *)

Definition demo_inputs : inputs :=
  Inputs (Form "fold" "openpi" "gpu" " 8000 ") [("gpu", "10.0.0.2")] "bimanual" ["left"; "right"] None ["disabled"; "unknown"] ["enabling"; "disabled"].
Definition demo_runs : runs := Runs held_manager [] 0.


(** An address the SSH configuration may well hold is offered by the page and refused by the daemon:
    the Eval button is enabled and works, and the run does not start. *)
Lemma ipv6_address_refused : exists v c,
  let p := Inputs (Form "fold" "openpi" "gpu" "")
    ((fun h => (sh_alias h, sh_address h)) <$> policy_server_hosts (one_file ["Host gpu"; "  HostName fd00::2"]) no_glob "/root" "/c")
    "bimanual" ["left"; "right"] None [] [] in
  view (fun _ => None) (run_env "viewing") held_manager = Ok v /\ rendered v p BEval = Some true /\
  press (fun _ => None) (run_env "viewing") v false p BEval demo_runs = (with_line demo_runs 7 c, Returned Rerun) /\
  validate_start c = Some BadHost.
Proof. eexists _, _. cbv zeta. split; [vm_compute; reflexivity|]. split_and!; vm_compute; reflexivity. Qed.

Definition demo_view : SessionView := View "viewing" (jstr "bimanual") jnull jnull jnull jnull 0 jnull jnull jnull [] [] jnull jnull.

Lemma c_key_only_starts_witness : exists r', view (fun _ => None) (run_env "viewing") held_manager = Ok demo_view /\
  keydown false "C" demo_view demo_view demo_inputs = Some BCollection /\
  press (fun _ => None) (run_env "viewing") demo_view false demo_inputs BCollection demo_runs = (r', Returned Rerun) /\ run_active demo_view = false.
Proof.
  eexists. split; [vm_compute; reflexivity|]. split; [reflexivity|]. split; [vm_compute; reflexivity|].
  destruct (press (fun _ => None) (run_env "viewing") demo_view false demo_inputs BCollection demo_runs) as [r' o] eqn:E.
  exact (proj1 (proj2 (c_key_only_starts (fun _ => None) (run_env "viewing") false false "C" demo_view demo_view demo_inputs BCollection demo_runs r' o
    eq_refl eq_refl E))).
Defined.

Lemma toggle_sends_safely_witness : exists r' o, press (fun _ => None) (run_env "viewing") (bare_view "viewing" jnull jnull jnull) false demo_inputs BGrav
    demo_runs = (r', o) /\ r' <> demo_runs /\
  (r' = demo_runs \/ exists pid kind, m_proc (ru_manager demo_runs) = Some pid /\
     r' = with_line demo_runs pid [("cmd", JStr (kind +:+ "_grav_comp"))] /\ kind <> "disable").
Proof.
  eexists _, _. split; [reflexivity|]. split; [discriminate|].
  edestruct (toggle_sends_safely (fun _ => None) (run_env "viewing") (bare_view "viewing" jnull jnull jnull) false demo_inputs BGrav demo_runs)
    as [H|(pid & kind & Hp & Hr & [[-> (s & Hs & Hon)]|(-> & _)])]; [by left|reflexivity|by left| |].
  - exfalso. apply elem_of_cons in Hs as [->|Hs]; [by destruct Hon|]. apply elem_of_cons in Hs as [->|[]%elem_of_nil]. by destruct Hon.
  - right. exists pid, "enable". by split_and!.
Defined.

Lemma reset_services_restarts_witness : exists v, view (fun _ => None) (run_env "viewing") held_manager = Ok v /\
  m_proc (ru_manager (reset_services (fun _ => None) (run_env "viewing") (Some "bimanual") false demo_runs).1) = Some 8.
Proof.
  destruct (view (fun _ => None) (run_env "viewing") held_manager) as [v|] eqn:E; [|vm_compute in E; discriminate].
  pose proof (reset_services_restarts (fun _ => None) (run_env "viewing") (Some "bimanual") false demo_runs v 8 E eq_refl) as H.
  exists v. split; [reflexivity|]. vm_compute in E. injection E as <-. destruct H as (_ & _ & _ & _ & H). apply H. vm_compute. reflexivity.
Defined.
