(* ===== verification/StoragePage.v ===== *)
(** * Episodes and skills on the page

    Models the Storage tab of [dashboard/app.py] (selection, the two-step deletion, the replay panel)
    and the teach-and-repeat bar, as functions of what Streamlit keeps for one browser session and of
    the click that caused the run.  A click on a disabled or absent button cannot be made; [st.rerun]
    runs the script once more without a click.  What deleting does to the files is in [Storage], the
    replay view in [ReplayView]; here a deletion is recorded, and the episodes of its dataset change. *)

From Stdlib Require Import Reals String.
From S2P Require Import Prelude Float64 Text Json Operator Convention Layout ViewerStreams ViewerScene Geometry Kinematics RobotView SceneModel Replay ReplayView.
Local Open Scope string_scope.
Local Open Scope list_scope.
Local Open Scope Z_scope.

(** ** The Storage tab *)

(** A deletion waiting for its confirmation. *)
Inductive request := WholeDataset | Episodes (indices : list Z).

#[export] Instance request_eq_dec : EqDecision request.
Proof. solve_decision. Defined.

(** What Streamlit keeps for the tab. *)
Record page := Page {
  pg_pending : option (string * request);
  pg_selected : list ((string * Z) * bool);      (* the checkboxes *)
  pg_target : option (string * Z);
  pg_logged : option (string * Z);
}.

Definition fresh_page : page := Page None [] None None.

Definition set_pending (x : option (string * request)) (p : page) : page := Page x (pg_selected p) (pg_target p) (pg_logged p).
Definition set_selected (l : list ((string * Z) * bool)) (p : page) : page := Page (pg_pending p) l (pg_target p) (pg_logged p).
Definition set_replay (t l : option (string * Z)) (p : page) : page := Page (pg_pending p) (pg_selected p) t l.

(** [_clear_selection]. *)
Definition clear_selection (repo : string) (p : page) : page :=
  set_selected (List.filter (fun x => negb (String.eqb x.1.1 repo)) (pg_selected p)) p.

(** [_selected_indices]. *)
Definition selected_indices (repo : string) (episodes : list Z) (p : page) : list Z :=
  List.filter (fun i => default false (dget (repo, i) (pg_selected p))) episodes.

Inductive click :=
  | NoClick | Confirm | CancelDelete | DeleteWhole | SelectAll | ClearAll | DeleteSelected
  | Check (i : Z) (on : bool) | Play (i : Z) | DeleteOne (i : Z) | CloseReplay.

#[export] Instance click_eq_dec : EqDecision click.
Proof. solve_decision. Defined.

(** What the replay panel shows. *)
Inductive panel := Hidden | Failed | Embedded (target : string * Z).

#[export] Instance panel_eq_dec : EqDecision panel.
Proof. solve_decision. Defined.

Section tab.
Context {J : Type} (shape : J -> nat * nat) (is_file : string -> bool) (loads : string -> Z -> bool).
Context (chain : list (Link R)) (urdfs : string -> option (res (list (Link R)))) (pedestal : bool).
Context (int_of : string -> res Z) (opens : Z -> res unit) (env : option string).

Definition episode_data : Type := list (@frame J) * list string.

Record world := World {
  wo_read : string -> Z -> res episode_data;          (* reading an episode now *)
  wo_module : @replay_module J;
  wo_deleted : list (string * request * bool);         (* what was deleted, and whether a collection ran *)
}.

Definition set_module (m : replay_module) (w : world) : world := World (wo_read w) m (wo_deleted w).

(** What a run of the script was given: the collection lock, the dataset on show, its episodes. *)
Record shown_ds := ShownDs { sd_locked : bool; sd_repo : string; sd_count : Z; sd_episodes : res (list Z) }.

(** The effect of a deletion that succeeded on what can be read. *)
Definition deleted_read (repo : string) (after : Z -> res episode_data) (w : world) : string -> Z -> res episode_data :=
  fun r => if String.eqb r repo then after else wo_read w r.

(** [_do_delete]: a failure leaves the prompt; a success drops an open replay of that dataset. *)
Definition do_delete (d : shown_ds) (rq : request) (result : res (Z -> res episode_data)) (p : page) (w : world) : page * world * bool :=
  match result with
  | Raise _ => (p, w, false)
  | Ok after =>
    let p := set_pending None (clear_selection (sd_repo d) p) in
    let p := match pg_target p with
             | Some (repo, _) => if String.eqb repo (sd_repo d) then set_replay None None p else p
             | None => p
             end in
    (p, World (deleted_read (sd_repo d) after w) (wo_module w) (wo_deleted w ++ [(sd_repo d, rq, sd_locked d)]), true)
  end.

(** [_render_replay_panel]: the target whose viewer is embedded. *)
Definition replay_panel (d : shown_ds) (c : click) (p : page) (w : world) : page * world * bool * panel :=
  match pg_target p with
  | None => (p, w, false, Hidden)
  | Some (repo, i) =>
    if negb (String.eqb repo (sd_repo d)) then (p, w, false, Hidden)
    else if sd_count d <=? i then (set_replay None None p, w, false, Hidden)
    else if bool_decide (c = CloseReplay) then (set_replay None None p, w, true, Hidden)
    else
      match start_replay_viewer int_of opens None env (wo_module w) with
      | Raise _ => (p, w, false, Failed)
      | Ok (_, m) =>
        let w := set_module m w in
        if bool_decide (pg_logged p = Some (repo, i)) then (p, w, false, Embedded (repo, i))
        else
          match log_episode shape is_file loads chain urdfs pedestal int_of opens env (wo_read w repo i) (wo_module w) with
          | (m, Raise _) => (p, set_module m w, false, Failed)
          | (m, Ok _) => (set_replay (Some (repo, i)) (Some (repo, i)) p, set_module m w, false, Embedded (repo, i))
          end
      end
  end.

(** [_render_delete_dataset_button]: an empty or unreadable dataset can only be deleted as a whole. *)
Definition whole_button (d : shown_ds) (c : click) (p : page) (w : world) : page * world * bool * panel :=
  if negb (sd_locked d) && bool_decide (c = DeleteWhole) then (set_pending (Some (sd_repo d, WholeDataset)) p, w, true, Hidden)
  else (p, w, false, Hidden).

(** The rest of the tab, below the prompt. *)
Definition tab_body (d : shown_ds) (c : click) (p : page) (w : world) : page * world * bool * panel :=
  let repo := sd_repo d in
  if sd_count d <=? 0 then whole_button d c p w
  else
    match sd_episodes d with
    | Raise _ => whole_button d c p w
    | Ok eps =>
      match c with
      | SelectAll => if sd_locked d then replay_panel d NoClick p w
          else (set_selected (foldl (fun l i => dset (repo, i) true l) (pg_selected p) eps) p, w, true, Hidden)
      | ClearAll => if sd_locked d || bool_decide (selected_indices repo eps p = []) then replay_panel d NoClick p w
          else (clear_selection repo p, w, true, Hidden)
      | DeleteSelected =>
          if sd_locked d || bool_decide (selected_indices repo eps p = []) then replay_panel d NoClick p w
          else (set_pending (Some (repo, Episodes (selected_indices repo eps p))) p, w, true, Hidden)
      | Play i => if bool_decide (i ∈ eps) then (set_replay (Some (repo, i)) (pg_logged p) p, w, true, Hidden) else replay_panel d NoClick p w
      | DeleteOne i =>
          if sd_locked d || negb (bool_decide (i ∈ eps)) then replay_panel d NoClick p w
          else (set_pending (Some (repo, Episodes [i])) p, w, true, Hidden)
      | _ => replay_panel d c p w
      end
    end.

(** [_render_storage_tab], once. *)
Definition storage_tab (d : shown_ds) (result : res (Z -> res episode_data)) (c : click) (p : page) (w : world) :
    page * world * bool * panel :=
  (* a checkbox has its new value before the script runs *)
  let p := match c with
           | Check i on => if sd_locked d then p else set_selected (dset (sd_repo d, i) on (pg_selected p)) p
           | _ => p
           end in
  match pg_pending p with
  | Some (repo, rq) =>
    if String.eqb repo (sd_repo d) then
      if bool_decide (c = Confirm) then
        let '(p, w, again) := do_delete d rq result p w in
        if again then (p, w, true, Hidden) else tab_body d NoClick p w
      else if bool_decide (c = CancelDelete) then (set_pending None p, w, true, Hidden)
      else tab_body d c p w
    else tab_body d c p w
  | None => tab_body d c p w
  end.

(** One interaction: the script, and once more if it asked for it. *)
Definition interact (d d' : shown_ds) (result : res (Z -> res episode_data)) (c : click) (p : page) (w : world) :
    page * world * panel :=
  let '(p, w, again, shown) := storage_tab d result c p w in
  if again then let '(p, w, _, shown) := storage_tab d' result NoClick p w in (p, w, shown) else (p, w, shown).

(** ** Deletions *)

(** The deletion a click asks for, when no collection is running. *)
Definition asked (d : shown_ds) (c : click) (p : page) : list (string * request) :=
  if sd_locked d then []
  else match c with
       | DeleteWhole => [(sd_repo d, WholeDataset)]
       | DeleteOne i => [(sd_repo d, Episodes [i])]
       | DeleteSelected =>
           match sd_episodes d with Ok eps => [(sd_repo d, Episodes (selected_indices (sd_repo d) eps p))] | Raise _ => [] end
       | _ => []
       end.

(** A browser session and the deletions it has asked for. *)
Inductive session (w0 : world) : page -> world -> list (string * request) -> Prop :=
  | SessionNew : session w0 fresh_page w0 []
  | SessionStep p w log d d' result c p' w' out :
      session w0 p w log -> interact d d' result c p w = (p', w', out) -> session w0 p' w' (log ++ asked d c p).

(** The panel changes neither the prompt nor the deletions. *)
Lemma replay_panel_keeps d c p w p' w' a o : replay_panel d c p w = (p', w', a, o) ->
  pg_pending p' = pg_pending p /\ wo_deleted w' = wo_deleted w /\ wo_read w' = wo_read w.
Proof.
  unfold replay_panel. destruct (pg_target p) as [[repo i]|]; [|by intros [= <- <- <- <-]].
  destruct (negb _); [by intros [= <- <- <- <-]|]. destruct (_ <=? _); [by intros [= <- <- <- <-]|].
  destruct (bool_decide _); [by intros [= <- <- <- <-]|].
  destruct (start_replay_viewer _ _ _ _ _) as [[q m]|]; [|by intros [= <- <- <- <-]].
  destruct (bool_decide _); [by intros [= <- <- <- <-]|].
  destruct (log_episode _ _ _ _ _ _ _ _ _ _ _) as [m' [n|e]]; by intros [= <- <- <- <-].
Qed.

(** The body changes the prompt only for a deletion that is asked for. *)
Lemma tab_body_keeps d c p w p' w' a o : tab_body d c p w = (p', w', a, o) ->
  wo_deleted w' = wo_deleted w /\ (pg_pending p' = pg_pending p \/ exists x, pg_pending p' = Some x /\ x ∈ asked d c p).
Proof.
  unfold tab_body, whole_button. intros H.
  assert (forall c, replay_panel d c p w = (p', w', a, o) ->
    wo_deleted w' = wo_deleted w /\ (pg_pending p' = pg_pending p \/ exists x, pg_pending p' = Some x /\ x ∈ asked d c p)) as Hpanel.
  { intros c0 Hc0. apply replay_panel_keeps in Hc0 as (? & ? & _). split; [done|by left]. }
  assert (forall x, (if negb (sd_locked d) && bool_decide (c = DeleteWhole) then (set_pending (Some (sd_repo d, WholeDataset)) p, w, true, Hidden)
    else (p, w, false, Hidden)) = x -> x = (p', w', a, o) ->
    wo_deleted w' = wo_deleted w /\ (pg_pending p' = pg_pending p \/ exists x, pg_pending p' = Some x /\ x ∈ asked d c p)) as Hwhole.
  { intros x <-. destruct (sd_locked d) eqn:El; cbn [negb andb]; [intros [= <- <- <- <-]; split; [done|by left]|].
    case_bool_decide as Ec; intros [= <- <- <- <-]; (split; [done|]); [|by left]. right. eexists. split; [reflexivity|].
    unfold asked. rewrite El, Ec. left. }
  destruct (sd_count d <=? 0); [by eapply Hwhole|]. destruct (sd_episodes d) as [eps|] eqn:Ee; [|by eapply Hwhole].
  assert (forall q, replay_panel d NoClick p w = (p', w', a, o) -> wo_deleted w' = wo_deleted w /\ (pg_pending p' = pg_pending p \/ q)) as Hno.
  { intros q Hc0. apply replay_panel_keeps in Hc0 as (? & ? & _). split; [done|by left]. }
  destruct c; try (by eapply Hpanel); unfold asked; destruct (sd_locked d) eqn:El; cbn [orb] in H; rewrite ?Ee;
    repeat match type of H with (if ?b then _ else _) = _ => destruct b end; try (by apply Hno);
    injection H as <- <- <- <-; (split; [done|]); try (by left); right; eexists; (split; [reflexivity|]); left.
Qed.

(** What one run of the script may do to the prompt and the deletions. *)
Definition prompt_step (d : shown_ds) (c : click) (p : page) (w : world) (p' : page) (w' : world) : Prop :=
  (wo_deleted w' = wo_deleted w /\
     (pg_pending p' = None \/ pg_pending p' = pg_pending p \/ exists x, pg_pending p' = Some x /\ x ∈ asked d c p)) \/
  (exists rq, c = Confirm /\ pg_pending p = Some (sd_repo d, rq) /\ wo_deleted w' = wo_deleted w ++ [(sd_repo d, rq, sd_locked d)] /\
     pg_pending p' = None).

Lemma storage_tab_step d result c p w p' w' a o : storage_tab d result c p w = (p', w', a, o) -> prompt_step d c p w p' w'.
Proof.
  unfold storage_tab. set (p1 := match c with Check i on => _ | _ => p end).
  assert (pg_pending p1 = pg_pending p /\ asked d c p1 = asked d c p) as [H1 H2].
  { unfold p1. destruct c; try done. destruct (sd_locked d) eqn:E; [done|]. unfold asked. by rewrite E. }
  rewrite H1.
  assert (tab_body d c p1 w = (p', w', a, o) -> prompt_step d c p w p' w') as Hbody.
  { intros [Hd Hp]%tab_body_keeps. left. split; [done|]. rewrite H1, H2 in Hp. right. exact Hp. }
  destruct (pg_pending p) as [[repo rq]|] eqn:Ep; [|exact Hbody].
  destruct (String.eqb_spec repo (sd_repo d)) as [->|]; [|exact Hbody].
  case_bool_decide as Ec; [|case_bool_decide; [|exact Hbody]].
  - subst c. change p1 with p. unfold do_delete. destruct result as [after|]; cbv zeta.
    + intros [= <- <- <- <-]. right. exists rq. split_and!; try done. cbn [pg_target clear_selection set_pending set_selected].
      destruct (pg_target p) as [[repo i]|]; [|done]. by destruct (String.eqb _ _).
    + intros [Hd Hp]%tab_body_keeps. left. split; [done|]. right. left. destruct Hp as [->|(x & _ & Hx)]; [done|].
      unfold asked in Hx. destruct (sd_locked d); by apply elem_of_nil in Hx.
  - intros [= <- <- <- <-]. left. split; [done|by left].
Qed.

(** A prompt stands for something the session asked for. *)
Lemma pending_asked w0 p w log : session w0 p w log -> forall x, pg_pending p = Some x -> x ∈ log.
Proof.
  induction 1 as [|p w log d d' result c p' w' out _ IH Hi]; [done|]. intros x Hx.
  assert (forall p1 w1, prompt_step d c p w p1 w1 -> pg_pending p1 = Some x -> x ∈ log ++ asked d c p) as Hfirst.
  { intros p1 w1 [[_ [Hn|[He|(y & Hy & Hin)]]]|(rq & _ & _ & _ & Hn)] H1; try congruence.
    - apply elem_of_app. left. apply IH. congruence.
    - apply elem_of_app. right. congruence. }
  unfold interact in Hi. destruct (storage_tab d result c p w) as [[[p1 w1] a1] o1] eqn:E1. apply storage_tab_step in E1.
  destruct a1; [|injection Hi as <- <- <-; by eapply Hfirst].
  destruct (storage_tab d' result NoClick p1 w1) as [[[p2 w2] a2] o2] eqn:E2. injection Hi as <- <- <-.
  apply storage_tab_step in E2 as [[_ [Hn|[He|(y & _ & Hin)]]]|(rq & ? & _)]; [congruence| | |done].
  - rewrite He in Hx. by eapply Hfirst.
  - unfold asked in Hin. destruct (sd_locked d'); by apply elem_of_nil in Hin.
Qed.

(** C39: Nothing is deleted without being asked for and confirmed.  In any browser session, an
    interaction deletes only when the Confirm button was pressed under a prompt for the dataset on
    show; what is deleted is exactly what that prompt stood for, it had been asked for by an earlier
    click of this session made while no collection was running, and the prompt is gone afterwards. *)
Theorem deletions_confirmed (w0 : world) p w log d d' result c p' w' out :
  session w0 p w log -> interact d d' result c p w = (p', w', out) ->
  wo_deleted w' = wo_deleted w \/
  exists rq, c = Confirm /\ pg_pending p = Some (sd_repo d, rq) /\ (sd_repo d, rq) ∈ log /\
    wo_deleted w' = wo_deleted w ++ [(sd_repo d, rq, sd_locked d)] /\ pg_pending p' = None.
Proof.
  intros Hs Hi. assert (forall x, pg_pending p = Some x -> x ∈ log) as Hlog by (by eapply pending_asked).
  unfold interact in Hi. destruct (storage_tab d result c p w) as [[[p1 w1] a1] o1] eqn:E1.
  apply storage_tab_step in E1. destruct a1.
  - destruct (storage_tab d' result NoClick p1 w1) as [[[p2 w2] a2] o2] eqn:E2. injection Hi as <- <- <-.
    apply storage_tab_step in E2 as [[Hd2 Hp2]|(rq & ? & _)]; [|done].
    destruct E1 as [[Hd1 _]|(rq & -> & Hpend & Hd1 & Hnone)]; [left; congruence|].
    right. exists rq. rewrite Hd2. split_and!; try done; [by apply Hlog|].
    destruct Hp2 as [?|[->|(x & _ & Hx)]]; [done..|]. unfold asked in Hx. destruct (sd_locked d'); by apply elem_of_nil in Hx.
  - injection Hi as <- <- <-. destruct E1 as [[Hd1 _]|(rq & -> & Hpend & Hd1 & Hnone)]; [by left|].
    right. exists rq. split_and!; try done. by apply Hlog.
Qed.

(** The prompt is not disabled while a collection runs: an answer given then deletes from the
    dataset that is being written. *)
Lemma confirm_ignores_lock d after p w rq : pg_pending p = Some (sd_repo d, rq) -> sd_locked d = true ->
  (sd_repo d, rq, true) ∈ wo_deleted (storage_tab d (Ok after) Confirm p w).1.1.2.
Proof.
  intros Hp Hl. unfold storage_tab. rewrite Hp, String.eqb_refl, bool_decide_eq_true_2 by done. cbn.
  rewrite Hl. apply elem_of_app. right. left.
Qed.

(** ** The replay panel *)

(** The replay view holds the episode as it reads now. *)
Definition holds (w : world) (t : string * Z) : Prop :=
  exists frames names v, wo_read w t.1 t.2 = Ok (frames, names) /\ md_view (wo_module w) = Some v /\ rv_frames v = frames.

Record panel_inv (p : page) (w : world) : Prop := {
  pi_port : md_port (wo_module w) = None -> md_view (wo_module w) = None;
  pi_view : md_view (wo_module w) = None -> md_port (wo_module w) = None;
  pi_holds : forall t, pg_logged p = Some t -> holds w t;
}.

(** A target that is not loaded yet is one the panel is about to load. *)
Definition about_to_load (d : shown_ds) (p : page) : Prop :=
  pg_target p = pg_logged p \/
  (exists i, pg_target p = Some (sd_repo d, i)) /\ sd_count d > 0 /\ exists eps, sd_episodes d = Ok eps.

Definition panel_true (d : shown_ds) (p : page) (w : world) (o : panel) : Prop :=
  panel_inv p w /\ pg_target p = pg_logged p /\ forall t, o = Embedded t -> holds w t /\ t.1 = sd_repo d.

Lemma start_keeps (m : @replay_module J) q m' : start_replay_viewer int_of opens None env m = Ok (q, m') ->
  (md_port m = None -> md_view m = None) -> (md_view m = None -> md_port m = None) ->
  (m' = m /\ is_Some (md_view m)) \/ (md_view m = None /\ is_Some (md_port m') /\ is_Some (md_view m')).
Proof.
  intros H H1 H2. unfold start_replay_viewer in H. destruct (md_port m) as [q'|] eqn:E.
  - injection H as <- <-. left. split; [done|]. destruct (md_view m) eqn:Ev; [by eexists|]. by specialize (H2 eq_refl).
  - res_simp. right. split; [by apply H1|]. split; by eexists.
Qed.

Lemma replay_panel_true d c p w p' w' a o : panel_inv p w -> about_to_load d p ->
  replay_panel d c p w = (p', w', a, o) -> o <> Failed -> panel_true d p' w' o.
Proof.
  intros Hinv Hnext. pose proof Hinv as [H1 H2 H3]. unfold replay_panel. destruct (pg_target p) as [[repo i]|] eqn:Et.
  2: { intros [= <- <- <- <-] _. split; [done|]. split; [|done]. destruct Hnext as [?|[(i & ?) _]]; congruence. }
  assert (forall w, panel_inv p w -> panel_true d (set_replay None None p) w Hidden) as Hdrop.
  { intros w1 [? ? _]. by split; [split|]. }
  destruct (String.eqb_spec repo (sd_repo d)) as [->|Hne]; cbn [negb].
  2: { intros [= <- <- <- <-] _. split; [done|]. split; [|done]. destruct Hnext as [?|[(j & ?) _]]; congruence. }
  destruct (_ <=? _); [intros [= <- <- <- <-] _; by eapply Hdrop|]. destruct (bool_decide _); [intros [= <- <- <- <-] _; by eapply Hdrop|].
  destruct (start_replay_viewer _ _ _ _ _) as [[q m]|] eqn:Es; [|by intros [= <- <- <- <-]].
  assert (panel_inv p (set_module m w) /\ is_Some (md_view m) /\ is_Some (md_port m)) as ([H1' H2' H3'] & Hmv & Hmp).
  { apply start_keeps in Es as [[-> Hs]|(Hn & Hp & Hv)]; [| |exact H1|exact H2].
    - split; [by destruct w|]. split; [done|]. destruct (md_port (wo_module w)); [by eexists|]. destruct Hs as [v Hs]. by rewrite H1 in Hs.
    - split; [|done]. destruct Hp as [? Hp], Hv as [? Hv]. split; cbn; [by rewrite Hp|by rewrite Hv|].
      intros t Ht. destruct (H3 t Ht) as (? & ? & v & _ & Hv' & _). by rewrite Hn in Hv'. }
  case_bool_decide as El.
  - intros [= <- <- <- <-] _. split; [by split|]. split; [congruence|]. intros t [= <-]. split; [by apply H3'|done].
  - pose proof (log_episode_holds shape is_file loads chain urdfs pedestal int_of opens env (wo_read w (sd_repo d) i) m H1' H2') as Hl.
    cbn [wo_read set_module wo_module].
    destruct (log_episode _ _ _ _ _ _ _ _ _ _ m) as [m' [n|e]]; [|by intros [= <- <- <- <-]].
    destruct Hl as (frames & names & v & Hr & _ & Hv & Hf & [pt Hpt]). intros [= <- <- <- <-] _.
    assert (holds (set_module m' (set_module m w)) (sd_repo d, i)) as Hh by (by exists frames, names, v).
    split; [split; cbn; [by rewrite Hpt|by rewrite Hv|by intros t [= <-]]|]. split; [done|]. by intros t [= <-].
Qed.

Lemma tab_body_true d c p w p' w' a o : panel_inv p w -> pg_target p = pg_logged p ->
  tab_body d c p w = (p', w', a, o) -> o <> Failed -> (a = false -> panel_true d p' w' o) /\ panel_inv p' w' /\ about_to_load d p'.
Proof.
  intros Hinv Ht H Ho.
  assert (forall c, replay_panel d c p w = (p', w', a, o) -> (a = false -> panel_true d p' w' o) /\ panel_inv p' w' /\ about_to_load d p') as Hpanel.
  { intros c0 Hc0. assert (panel_true d p' w' o) as (? & ? & ?) by (eapply replay_panel_true; [exact Hinv|by left|exact Hc0|done]).
    split; [by split|]. split; [done|by left]. }
  assert (forall p'', pg_logged p'' = pg_logged p -> pg_target p'' = pg_target p -> (p'', w, true, Hidden) = (p', w', a, o) ->
    (a = false -> panel_true d p' w' o) /\ panel_inv p' w' /\ about_to_load d p') as Hset.
  { intros p'' Hl' Ht' [= <- <- <- <-]. split; [done|]. destruct Hinv. split; [split; try done; by rewrite Hl'|left; congruence]. }
  assert ((if negb (sd_locked d) && bool_decide (c = DeleteWhole) then (set_pending (Some (sd_repo d, WholeDataset)) p, w, true, Hidden)
    else (p, w, false, Hidden)) = (p', w', a, o) -> (a = false -> panel_true d p' w' o) /\ panel_inv p' w' /\ about_to_load d p') as Hwhole.
  { destruct (_ && _); [by apply Hset|]. intros [= <- <- <- <-]. split; [by split|]. split; [done|by left]. }
  unfold tab_body, whole_button in H. destruct (sd_count d <=? 0) eqn:Ec; [by apply Hwhole|]. destruct (sd_episodes d) as [eps|] eqn:Ee; [|by apply Hwhole].
  destruct c as [| | | | | | |i on|i|i|]; try (by eapply Hpanel);
    try (destruct (sd_locked d || bool_decide _); [by eapply Hpanel|by eapply Hset; [..|exact H]]);
    try (destruct (sd_locked d || negb _); [by eapply Hpanel|by eapply Hset; [..|exact H]]).
  - destruct (sd_locked d); [by eapply Hpanel|by eapply Hset; [..|exact H]].
  - destruct (bool_decide _); [|by eapply Hpanel]. injection H as <- <- <- <-. split; [done|]. destruct Hinv. split; [by split|].
    right. split; [by exists i|]. split; [lia|by exists eps].
Qed.

Lemma no_click_body d result p w : storage_tab d result NoClick p w = tab_body d NoClick p w.
Proof. unfold storage_tab. destruct (pg_pending p) as [[repo rq]|]; [|done]. by destruct (String.eqb _ _). Qed.

(** Only a click makes the script run again, and a failed load never does. *)
Lemma panel_again d c p w p' w' a o : replay_panel d c p w = (p', w', a, o) -> a = true -> c = CloseReplay /\ o = Hidden.
Proof.
  unfold replay_panel. destruct (pg_target p) as [[repo i]|]; [|by intros [= <- <- <- <-]].
  destruct (negb _); [by intros [= <- <- <- <-]|]. destruct (_ <=? _); [by intros [= <- <- <- <-]|].
  case_bool_decide as E; [by intros [= <- <- <- <-]|].
  destruct (start_replay_viewer _ _ _ _ _) as [[q m]|]; [|by intros [= <- <- <- <-]].
  destruct (bool_decide _); [by intros [= <- <- <- <-]|].
  destruct (log_episode _ _ _ _ _ _ _ _ _ _ _) as [m' [n|e]]; by intros [= <- <- <- <-].
Qed.

Lemma body_again d c p w p' w' a o : tab_body d c p w = (p', w', a, o) -> a = true -> c <> NoClick /\ o = Hidden.
Proof.
  intros H Ha. assert (forall c0, replay_panel d c0 p w = (p', w', a, o) -> c0 = NoClick -> c <> NoClick /\ o = Hidden) as Hno.
  { intros c0 H0 ->. by destruct (panel_again _ _ _ _ _ _ _ _ H0 Ha). }
  assert ((if negb (sd_locked d) && bool_decide (c = DeleteWhole) then (set_pending (Some (sd_repo d, WholeDataset)) p, w, true, Hidden)
    else (p, w, false, Hidden)) = (p', w', a, o) -> c <> NoClick /\ o = Hidden) as Hwhole.
  { destruct (sd_locked d); cbn [negb andb]; [intros [= <- <- <- <-]; done|]. case_bool_decide; intros [= <- <- <- <-]; [|done]. by subst c. }
  unfold tab_body, whole_button in H. destruct (sd_count d <=? 0); [by apply Hwhole|]. destruct (sd_episodes d) as [eps|]; [|by apply Hwhole].
  destruct c; try (by destruct (panel_again _ _ _ _ _ _ _ _ H Ha));
    repeat match type of H with (if ?b then _ else _) = _ => destruct b end; try (by eapply Hno); by injection H as <- <- <- <-.
Qed.

Lemma no_click_stays d p w p' w' a o : tab_body d NoClick p w = (p', w', a, o) -> a = false.
Proof. intros H. destruct a; [|done]. by destruct (body_again _ _ _ _ _ _ _ _ H eq_refl). Qed.

Lemma failed_stays d result c p w p' w' a : storage_tab d result c p w = (p', w', a, Failed) -> a = false.
Proof.
  intros H. destruct a; [|done]. exfalso. unfold storage_tab in H. set (p1 := match c with Check i on => _ | _ => p end) in H.
  assert (forall c p w, tab_body d c p w = (p', w', true, Failed) -> False) as Hb.
  { intros c0 p0 w0 H0. by destruct (body_again _ _ _ _ _ _ _ _ H0 eq_refl). }
  destruct (pg_pending p1) as [[repo rq]|]; [|by eapply Hb]. destruct (String.eqb _ _); [|by eapply Hb].
  case_bool_decide; [|case_bool_decide; [done|by eapply Hb]].
  destruct (do_delete d rq result p1 w) as [[p2 w2] [|]]; [done|by eapply Hb].
Qed.

(** The run after a click loads what the click asked for. *)
Lemma rerun_true d p w p' w' a o : panel_inv p w -> about_to_load d p ->
  tab_body d NoClick p w = (p', w', a, o) -> o <> Failed -> panel_true d p' w' o.
Proof.
  intros Hinv [Ht|(Ht & Hc & eps & He)] H Ho.
  - assert (a = false) as -> by (eapply no_click_stays; exact H).
    by destruct (tab_body_true d NoClick p w p' w' false o Hinv Ht H Ho) as (Hp & _); apply Hp.
  - unfold tab_body, whole_button in H. rewrite He in H. destruct (sd_count d <=? 0) eqn:E; [lia|].
    eapply replay_panel_true; [exact Hinv| |exact H|done]. right. by split_and!; [|lia|exists eps].
Qed.

(** A session none of whose replays failed to load.  Between a click and the run that follows it the
    dataset on show changes only if the click deleted from it. *)
Inductive replaying (w0 : world) : page -> world -> Prop :=
  | ReplayNew : panel_inv fresh_page w0 -> replaying w0 fresh_page w0
  | ReplayStep p w d d' result c p' w' out : replaying w0 p w -> interact d d' result c p w = (p', w', out) ->
      out <> Failed -> (c = Confirm \/ d' = d) -> replaying w0 p' w'.

Lemma deleted_true d rq after p w p1 w1 a : panel_inv p w -> pg_target p = pg_logged p ->
  do_delete d rq (Ok after) p w = (p1, w1, a) -> panel_inv p1 w1 /\ pg_target p1 = pg_logged p1 /\ a = true.
Proof.
  intros [H1 H2 H3] Ht [= <- <- <-]. cbn [pg_target set_pending clear_selection set_selected].
  assert (forall t, pg_logged p = Some t -> String.eqb t.1 (sd_repo d) = false ->
    holds (World (deleted_read (sd_repo d) after w) (wo_module w) (wo_deleted w ++ [(sd_repo d, rq, sd_locked d)])) t) as Hh.
  { intros t Hl Hr. destruct (H3 t Hl) as (frames & names & v & Hrd & Hv & Hf). exists frames, names, v. split_and!; try done.
    cbn. unfold deleted_read. by rewrite Hr. }
  destruct (pg_target p) as [[repo i]|] eqn:Et.
  - destruct (String.eqb repo (sd_repo d)) eqn:Er; [by split_and!; [split|..]|].
    split_and!; [split; [done..|]|cbn; congruence|done]. cbn. intros t Hl. apply Hh; [done|]. rewrite <-Ht in Hl. by injection Hl as <-.
  - split_and!; [split; [done..|]|cbn; congruence|done]. cbn. intros t Hl. congruence.
Qed.

Lemma storage_tab_true d result c p w p' w' a o : panel_inv p w -> pg_target p = pg_logged p ->
  storage_tab d result c p w = (p', w', a, o) -> o <> Failed ->
  (a = false -> panel_true d p' w' o) /\ panel_inv p' w' /\ (about_to_load d p' /\ c <> Confirm \/ pg_target p' = pg_logged p').
Proof.
  intros Hinv Ht H Ho. unfold storage_tab in H. set (p1 := match c with Check i on => _ | _ => p end) in H.
  assert (panel_inv p1 w /\ pg_target p1 = pg_logged p1) as [Hinv1 Ht1].
  { unfold p1. destruct c; try done. destruct (sd_locked d); [done|]. destruct Hinv. by split; [split|]. }
  assert (forall c0, c0 = c \/ c0 = NoClick -> (c0 = c -> c <> Confirm) -> tab_body d c0 p1 w = (p', w', a, o) ->
    (a = false -> panel_true d p' w' o) /\ panel_inv p' w' /\ (about_to_load d p' /\ c <> Confirm \/ pg_target p' = pg_logged p')) as Hb.
  { intros c0 Hc0 Hnc H0. destruct (tab_body_true d c0 p1 w p' w' a o Hinv1 Ht1 H0 Ho) as (A & B & C). split; [done|]. split; [done|].
    destruct a; [|right; by apply A]. left. split; [done|]. destruct Hc0 as [->| ->]; [by apply Hnc|].
    by apply no_click_stays in H0. }
  destruct (decide (c = Confirm)) as [->|Hne].
  2: { rewrite (bool_decide_eq_false_2 (c = Confirm)) in H by done. destruct (pg_pending p1) as [[repo rq]|]; [|eapply Hb; [by left|done|exact H]].
       destruct (String.eqb _ _); [|eapply Hb; [by left|done|exact H]]. case_bool_decide; [|eapply Hb; [by left|done|exact H]].
       injection H as <- <- <- <-. split; [done|]. destruct Hinv1. split; [by split|by right]. }
  assert (forall p0, tab_body d Confirm p0 w = tab_body d NoClick p0 w) as Hconf.
  { intros p0. unfold tab_body, whole_button. rewrite !bool_decide_eq_false_2 by done. destruct (_ <=? 0); [done|]. destruct (sd_episodes d); [|done].
    unfold replay_panel. by rewrite !(bool_decide_eq_false_2 (_ = CloseReplay)) by done. }
  rewrite !Hconf in H. rewrite bool_decide_eq_true_2 in H by done.
  destruct (pg_pending p1) as [[repo rq]|]; [|eapply (Hb NoClick); [by right|done|exact H]].
  destruct (String.eqb _ _); [|eapply (Hb NoClick); [by right|done|exact H]].
  destruct result as [after|]; [|eapply (Hb NoClick); [by right|done|exact H]].
  destruct (do_delete d rq (Ok after) p1 w) as [[p2 w2] b] eqn:E. destruct (deleted_true d rq after p1 w p2 w2 b Hinv1 Ht1 E) as (A & B & ->).
  injection H as <- <- <- <-. split; [done|]. split; [done|by right].
Qed.

Lemma interact_true d d' result c p w p' w' out : panel_inv p w -> pg_target p = pg_logged p ->
  interact d d' result c p w = (p', w', out) -> out <> Failed -> c = Confirm \/ d' = d ->
  exists d1, (d1 = d \/ d1 = d') /\ panel_true d1 p' w' out.
Proof.
  intros Hinv Ht Hi Ho Hd. unfold interact in Hi. destruct (storage_tab d result c p w) as [[[p1 w1] a1] o1] eqn:E1.
  assert ((a1 = false -> panel_true d p1 w1 o1) /\ panel_inv p1 w1 /\ (about_to_load d p1 /\ c <> Confirm \/ pg_target p1 = pg_logged p1)) as (Hf & Hi1 & Hn).
  { destruct (decide (o1 = Failed)) as [->|Ho1].
    { assert (a1 = false) as -> by (eapply failed_stays; exact E1). by injection Hi as <- <- <-. }
    eapply storage_tab_true; [exact Hinv|exact Ht|exact E1|done]. }
  destruct a1.
  - rewrite no_click_body in Hi. destruct (tab_body d' NoClick p1 w1) as [[[p2 w2] a2] o2] eqn:E2. injection Hi as <- <- <-.
    exists d'. split; [by right|]. eapply rerun_true; [exact Hi1| |exact E2|done].
    destruct Hn as [[Hn Hc]|Hn]; [|by left]. destruct Hd as [->| ->]; [done|exact Hn].
  - injection Hi as <- <- <-. exists d. split; [by left|]. by apply Hf.
Qed.

(** The replay panel shows the episode it names.  In a browser session none of whose replays
    failed to load, whatever is selected, played, closed or deleted in whatever order, when the page
    embeds the viewer under "episode i of dataset d" the replay view holds the frames that reading
    episode i of d gives now: deleting from a dataset never leaves a re-indexed episode on show. *)
Theorem replay_panel_names_episode (w0 : world) p w d d' result c p' w' t :
  replaying w0 p w -> interact d d' result c p w = (p', w', Embedded t) -> c = Confirm \/ d' = d ->
  holds w' t /\ (t.1 = sd_repo d \/ t.1 = sd_repo d').
Proof.
  intros Hr Hi Hd. assert (panel_inv p w /\ pg_target p = pg_logged p) as [Hinv Ht].
  { clear -Hr. induction Hr as [|p w d d' result c p' w' out _ [IH1 IH2] Hi Hf Hd]; [done|].
    destruct (interact_true _ _ _ _ _ _ _ _ _ IH1 IH2 Hi Hf Hd) as (d1 & _ & A & B & _). done. }
  destruct (interact_true _ _ _ _ _ _ _ _ _ Hinv Ht Hi ltac:(done) Hd) as (d1 & Hd1 & _ & _ & H).
  destruct (H t eq_refl) as [A ->]. split; [done|]. destruct Hd1 as [->| ->]; auto.
Qed.

(** Resetting the services empties the replay view but not what the page remembers: an open replay is
    then shown as an empty scene, and playing the same episode again does not reload it. *)
Lemma reset_leaves_empty_replay d p w i q : pg_target p = Some (sd_repo d, i) -> pg_logged p = Some (sd_repo d, i) ->
  i < sd_count d -> 0 < sd_count d -> (exists eps, sd_episodes d = Ok eps /\ i ∈ eps) -> env = None -> opens DEFAULT_REPLAY_PORT = Ok q ->
  forall c, c = NoClick \/ c = Play i ->
  exists p' w' v, interact d d (Raise OtherError) c p (set_module (reset_replay (wo_module w)) w) = (p', w', Embedded (sd_repo d, i)) /\
    md_view (wo_module w') = Some v /\ rv_frames v = [].
Proof.
  intros Ht Hl Hi Hc (eps & He & Hin) Henv Ho.
  assert (forall p, pg_target p = Some (sd_repo d, i) -> pg_logged p = Some (sd_repo d, i) ->
    tab_body d NoClick p (set_module (reset_replay (wo_module w)) w) =
      (p, set_module (ReplayModule (Some new_replay_view) (Some DEFAULT_REPLAY_PORT)) w, false, Embedded (sd_repo d, i))) as Hb.
  { intros p0 Ht0 Hl0. unfold tab_body, whole_button. destruct (sd_count d <=? 0) eqn:E; [lia|]. rewrite He. unfold replay_panel.
    rewrite Ht0, String.eqb_refl. cbn [negb]. destruct (_ <=? i) eqn:E'; [lia|]. rewrite bool_decide_eq_false_2 by done.
    unfold start_replay_viewer. rewrite Henv. cbn [wo_module set_module reset_replay md_port from_option res_bind]. rewrite Ho. cbn [res_bind].
    by rewrite bool_decide_eq_true_2 by done. }
  intros c [->| ->]; unfold interact.
  - rewrite no_click_body, Hb by done. by do 3 eexists.
  - assert (storage_tab d (Raise OtherError) (Play i) p (set_module (reset_replay (wo_module w)) w) =
      (set_replay (Some (sd_repo d, i)) (pg_logged p) p, set_module (reset_replay (wo_module w)) w, true, Hidden)) as ->.
    { assert (tab_body d (Play i) p (set_module (reset_replay (wo_module w)) w) = (set_replay (Some (sd_repo d, i)) (pg_logged p) p,
        set_module (reset_replay (wo_module w)) w, true, Hidden)) as Hp.
      { unfold tab_body, whole_button. destruct (sd_count d <=? 0) eqn:E; [lia|]. rewrite He. by rewrite bool_decide_eq_true_2. }
      unfold storage_tab. destruct (pg_pending p) as [[repo rq]|]; [|done]. by destruct (String.eqb _ _). }
    rewrite no_click_body, Hb by done. by do 3 eexists.
Qed.
End tab.

(** ** The teach-and-repeat bar *)

Record skill_bar := SkillBar {
  sb_selected : option string;
  sb_rename : option string;
  sb_delete : option string;
  sb_next : option string;          (* the name to select on the next run *)
}.

Inductive skill_click :=
  | SkillNone | SkillPick (name : string) | SkillRename | SkillDelete
  | RenameTo (name : string) | RenameCancel | DeleteYes | DeleteNo.

Inductive skill_effect := RenameSkill (old new : string) | RemoveSkill (name : string).

(** The selectbox: the kept choice if it still exists, else the first skill. *)
Definition picked (skills : list string) (s : skill_bar) : option string :=
  match sb_selected s with
  | Some n => if bool_decide (n ∈ skills) then Some n else head skills
  | None => head skills
  end.

Definition prompts (rename delete : option string) (s : skill_bar) : skill_bar :=
  SkillBar (sb_selected s) rename delete (sb_next s).

(** A prompt whose skill is gone is dropped. *)
Definition live_prompt (skills : list string) (x : option string) : option string :=
  match x with Some n => if bool_decide (n ∈ skills) then Some n else None | None => None end.

(** The selection and the two buttons that open a prompt. *)
Definition skill_open (skills : list string) (c : skill_click) (s : skill_bar) : skill_bar :=
  let selected := match sb_next s with
                  | Some n => if bool_decide (n ∈ skills) then Some n else sb_selected s
                  | None => sb_selected s
                  end in
  let selected := match c with SkillPick n => Some n | _ => selected end in
  let selected := picked skills (SkillBar selected (sb_rename s) (sb_delete s) None) in
  match c with
  | SkillRename => SkillBar selected selected None None
  | SkillDelete => SkillBar selected None selected None
  | _ => SkillBar selected (sb_rename s) (sb_delete s) None
  end.

(** The answers to the prompts; [renames] is the outcome of the renaming. *)
Definition delete_prompt (skills : list string) (c : skill_click) (s : skill_bar) : skill_bar * list skill_effect :=
  match live_prompt skills (sb_delete s), c with
  | Some n, DeleteYes => (prompts (sb_rename s) None s, [RemoveSkill n])
  | Some _, DeleteNo => (prompts (sb_rename s) None s, [])
  | x, _ => (prompts (sb_rename s) x s, [])
  end.

Definition rename_prompt (skills : list string) (renames : string -> string -> res unit) (c : skill_click) (s : skill_bar) :
    skill_bar * list skill_effect :=
  match live_prompt skills (sb_rename s), c with
  | Some old, RenameTo text =>
      let new := py_strip text in
      match renames old new with
      | Ok _ => (SkillBar (sb_selected s) None (sb_delete s) (Some new), [RenameSkill old new])
      | Raise _ => delete_prompt skills c (prompts (Some old) (sb_delete s) s)
      end
  | Some _, RenameCancel => (prompts None (sb_delete s) s, [])
  | x, _ => delete_prompt skills c (prompts x (sb_delete s) s)
  end.

(** [_render_skill_bar], apart from the launch of a skill. *)
Definition skill_bar_run (skills : list string) (renames : string -> string -> res unit) (c : skill_click) (s : skill_bar) :
    skill_bar * list skill_effect :=
  match skills with
  | [] => (s, [])
  | _ => rename_prompt skills renames c (skill_open skills c s)
  end.

Lemma live_prompt_Some skills x n : live_prompt skills x = Some n -> x = Some n /\ n ∈ skills.
Proof. destruct x as [y|]; [|done]. cbn [live_prompt]. case_bool_decide; [|done]. by intros [= <-]. Qed.

Lemma live_prompt_None skills x : x = None -> live_prompt skills x = None.
Proof. by intros ->. Qed.

(** What the prompts may do. *)
Definition prompts_ok (skills : list string) (c : skill_click) (s : skill_bar) (r : skill_bar * list skill_effect) : Prop :=
  (sb_rename r.1 = None \/ sb_delete r.1 = None) /\
  (r.2 = [] \/ (exists old text, r.2 = [RenameSkill old (py_strip text)] /\ c = RenameTo text /\ sb_rename s = Some old /\ old ∈ skills) \/
   (exists n, r.2 = [RemoveSkill n] /\ c = DeleteYes /\ sb_delete s = Some n /\ n ∈ skills)).

Lemma delete_prompt_ok skills c s : sb_rename s = None \/ sb_delete s = None -> prompts_ok skills c s (delete_prompt skills c s).
Proof.
  intros Hone. unfold delete_prompt. destruct (live_prompt skills (sb_delete s)) as [n|] eqn:E.
  - apply live_prompt_Some in E as [E Hn]. destruct Hone as [Hr|]; [|congruence].
    destruct c; (split; [by auto|]); try (by left). right; right. by exists n.
  - split; [destruct c; by right|]. left. by destruct c.
Qed.

Lemma rename_prompt_ok skills renames c s : sb_rename s = None \/ sb_delete s = None -> prompts_ok skills c s (rename_prompt skills renames c s).
Proof.
  intros Hone. unfold rename_prompt. destruct (live_prompt skills (sb_rename s)) as [old|] eqn:E.
  - apply live_prompt_Some in E as [E Hn]. destruct Hone as [|Hd]; [congruence|].
    assert (forall x, prompts_ok skills c s (delete_prompt skills c (prompts x (sb_delete s) s))) as Hdel.
    { intros x. destruct (delete_prompt_ok skills c (prompts x (sb_delete s) s)) as [A [B|[(? & ? & B & -> & _)|(n & B & -> & Hn' & _)]]];
        [by right|split; [done|by left]| |cbn in Hn'; congruence]. unfold delete_prompt in B. cbn in B. by rewrite Hd in B. }
    destruct c; try (by apply Hdel).
    + destruct (renames old (py_strip name)); [|by apply Hdel]. split; [by left|]. right; left. by exists old, name.
    + split; [by left|by left].
  - assert (prompts_ok skills c s (delete_prompt skills c (prompts None (sb_delete s) s))) as Hdel.
    { destruct (delete_prompt_ok skills c (prompts None (sb_delete s) s)) as [A [B|[(? & ? & B & _ & C & _)|B]]]; [by left|split; [done|by left]|done|].
      split; [done|by right; right]. }
    by destruct c.
Qed.

(** At most one of the two prompts is open, and only the skill it names is renamed or deleted, by its
    own confirmation. *)
Lemma skill_prompts_exclusive skills renames c s : sb_rename s = None \/ sb_delete s = None ->
  prompts_ok skills c (skill_open skills c s) (skill_bar_run skills renames c s) \/ (skills = [] /\ skill_bar_run skills renames c s = (s, [])).
Proof.
  intros Hone. unfold skill_bar_run. destruct skills as [|n l]; [by right|]. left. apply rename_prompt_ok.
  unfold skill_open. destruct c; cbn; auto.
Qed.

(** ** Instances *)

Section instances.
Local Abbreviation interact := (@interact nat (fun _ => (1, 1)%nat) (fun _ => false) (fun _ _ => false) demo_chain (fun _ => None) false (fun _ => Ok 0) (fun _ => Ok tt) None).

Definition demo_shown : shown_ds := ShownDs false "pick" 2 (Ok [0; 1]).
Definition demo_world : @world nat := World (fun _ i => Ok ([], [])) (ReplayModule None None) [].

Lemma deletions_confirmed_witness : exists p w p' w' out,
  interact demo_shown demo_shown (Raise OtherError) (DeleteOne 1) fresh_page demo_world = (p, w, out) /\
  interact demo_shown demo_shown (Ok (fun _ => Raise OtherError)) Confirm p w = (p', w', out) /\
  wo_deleted w' = [("pick", Episodes [1], false)] /\ pg_pending p' = None.
Proof.
  eexists _, _, _, _, _. split; [reflexivity|]. split; [reflexivity|].
  edestruct (deletions_confirmed (fun _ : nat => (1, 1)%nat) (fun _ => false) (fun _ _ => false) demo_chain (fun _ => None) false (fun _ => Ok 0)
    (fun _ => Ok tt) None demo_world) as [H|(rq & _ & Hp & _ & Hd & Hn)].
  - eapply SessionStep; [apply SessionNew|]. exact (eq_refl (interact demo_shown demo_shown (Raise OtherError) (DeleteOne 1) fresh_page demo_world)).
  - exact (eq_refl (interact demo_shown demo_shown (Ok (fun _ => Raise OtherError)) Confirm _ _)).
  - discriminate H.
  - injection Hp as <-. split; [exact Hd|exact Hn].
Defined.

Lemma replay_panel_names_episode_witness : exists p w, interact demo_shown demo_shown (Raise OtherError) (Play 1) fresh_page demo_world = (p, w, Embedded ("pick", 1)) /\
  holds w ("pick", 1).
Proof.
  destruct (interact demo_shown demo_shown (Raise OtherError) (Play 1) fresh_page demo_world) as [[p w] out] eqn:E.
  assert (out = Embedded ("pick", 1)) as -> by (symmetry; exact (f_equal snd E)).
  exists p, w. split; [reflexivity|].
  eapply (replay_panel_names_episode (fun _ : nat => (1, 1)%nat) (fun _ => false) (fun _ _ => false) demo_chain (fun _ => None) false (fun _ => Ok 0)
    (fun _ => Ok tt) None demo_world); [|exact E|by right]. apply ReplayNew. by split.
Defined.
End instances.
