(* ===== verification/CalibPage.v ===== *)
(** * The calibration page

    Models [_render_calibration_controls] of [dashboard/app.py]: the draft of each leader that
    Streamlit keeps (offsets, flips, gripper endpoints, pose samples, the solved fit, the raw capture
    of the model home), the buttons that change it, and Save.  The arithmetic is [Calibration]'s, the
    file [CalibFile]'s; leader readings and the configuration in force are inputs of every click. *)

From Stdlib Require Import SpecFloat Ascii String.
From S2P Require Import Prelude Float64 Text Convention Layout Calibration CalibFile.
Local Open Scope string_scope.
Local Open Scope list_scope.
Local Open Scope Z_scope.

Section page.
Context {fit : Fit f64}.

(** The draft of one leader. *)
Record draft := Draft {
  dr_offsets : list f64;
  dr_flips : list Z;                          (* a set *)
  dr_open : option f64;
  dr_closed : option f64;
  dr_done : list (Z * f64);                   (* joints captured one by one *)
  dr_samples : list (string * list f64);      (* captured poses *)
  dr_fit : option (PoseFit f64);
  dr_home_raw : option (list f64);
}.

(** What the page reads of the configuration of a side. *)
Record calib_conf := CalibConf {
  cf_conv : JointConventionCfg f64;
  cf_dof : nat;                        (* [follower_dof] *)
  cf_signs : res (list f64);           (* [current_model_signs] *)
  cf_home : res (list f64);            (* [factr_model_home] *)
}.

(** The draft seeded from the configuration: [_calib_offsets], [_calib_flips], [_calib_gripper]. *)
Definition seeded (cf : calib_conf) : draft :=
  Draft (padded f0 (cf_dof cf) (offsets_deg (cf_conv cf))) (flip_set (sign_flip_joints (cf_conv cf)))
    (gripper_open (cf_conv cf)) (gripper_closed (cf_conv cf)) [] [] None None.

Definition sorted_flips (d : draft) : list Z := py_sorted Z.leb (dr_flips d).

(** The model home under the values the page holds now. *)
Definition solve_home (cf : calib_conf) (raw : list f64) (d : draft) : res (ModelHomeFit f64) :=
  let? signs := cf_signs cf in
  let? target := cf_home cf in
  solve_model_home raw (dr_offsets d) (sorted_flips d) signs target.

(** [model_home_fit]: recomputed on every run from the raw capture. *)
Definition model_home_fit (cf : calib_conf) (d : draft) : option (ModelHomeFit f64) :=
  match dr_home_raw d with
  | Some raw => match solve_home cf raw d with Ok h => Some h | Raise _ => None end
  | None => None
  end.

(** ** The buttons *)

(** Readings are the leader's raw positions, or how reading them failed. *)
Inductive calib_click :=
  | CapturePose (name : string) (reading : res (list f64))
  | SolvePoses
  | ClearPoses
  | CaptureJoint (j : nat) (reading : res (list f64))
  | FlipJoint (j : nat)
  | CaptureHome (reading : res (list f64))
  | RecordOpen (raw : res f64)
  | RecordClosed (raw : res f64)
  | ResetDraft
  | SaveDraft.

Definition with_fields (offsets : list f64) (flips : list Z) (d : draft) : draft :=
  Draft offsets flips (dr_open d) (dr_closed d) (dr_done d) (dr_samples d) (dr_fit d) (dr_home_raw d).
Definition with_grip (o c : option f64) (d : draft) : draft :=
  Draft (dr_offsets d) (dr_flips d) o c (dr_done d) (dr_samples d) (dr_fit d) (dr_home_raw d).
Definition with_capture (samples : list (string * list f64)) (f : option (PoseFit f64)) (raw : option (list f64)) (d : draft) : draft :=
  Draft (dr_offsets d) (dr_flips d) (dr_open d) (dr_closed d) (dr_done d) samples f raw.
Definition with_done (j : Z) (deg : f64) (d : draft) : draft :=
  Draft (dr_offsets d) (dr_flips d) (dr_open d) (dr_closed d) (dset j deg (dr_done d)) (dr_samples d) (dr_fit d) (dr_home_raw d).

(** [flips.discard(j) if flipped else flips.add(j)]. *)
Definition toggle_flip (j : Z) (flips : list Z) : list Z :=
  if bool_decide (j ∈ flips) then List.filter (fun i => negb (i =? j)) flips else flips ++ [j].

(** The Solve button. *)
Definition solve_draft (cf : calib_conf) (d : draft) : draft :=
  match solve_pose_samples f_of_Z (cf_dof cf) (cf_conv cf) (dr_samples d) with
  | Ok f => with_capture (dr_samples d) (Some f) (dr_home_raw d)
              (with_fields (round_digits 2 <$> fit_offsets f) (flip_set (Z.of_nat <$> fit_flips f)) d)
  | Raise _ => d
  end.

(** What a press changes of the draft; a failed reading is shown and changes nothing. *)
Definition calib_press (cf : calib_conf) (c : calib_click) (d : draft) : draft :=
  match c with
  | CapturePose name (Ok q) =>
      if bool_decide (name ∈ pose_name <$> reference_poses (cf_dof cf))
      then with_capture (dset name (arm_joints_deg q (cf_conv cf)) (dr_samples d)) (dr_fit d) (dr_home_raw d) d else d
  | SolvePoses => if (length (dr_samples d) <? 2)%nat then d else solve_draft cf d
  | ClearPoses => with_capture [] None None d
  | CaptureJoint j (Ok q) =>
      (* a joint of the page whose capture succeeds *)
      match offsets_from_straight_pose q (cf_conv cf) !! j, arm_joints_deg q (cf_conv cf) !! j with
      | Some off, Some deg =>
          if (j <? length (dr_offsets d))%nat
          then with_done (Z.of_nat j) deg (with_fields (<[j := off]> (dr_offsets d)) (dr_flips d) d) else d
      | _, _ => d
      end
  | FlipJoint j => if (j <? length (dr_offsets d))%nat then with_fields (dr_offsets d) (toggle_flip (Z.of_nat j) (dr_flips d)) d else d
  | CaptureHome (Ok q) =>
      let raw := arm_joints_deg q (cf_conv cf) in
      match solve_home cf raw d with Ok _ => with_capture (dr_samples d) (dr_fit d) (Some raw) d | Raise _ => d end
  | RecordOpen (Ok x) => with_grip (Some x) (dr_closed d) d
  | RecordClosed (Ok x) => with_grip (dr_open d) (Some x) d
  | ResetDraft => seeded cf
  | _ => d
  end.

(** Save: disabled until the poses are solved and the model home is known; what it asks for. *)
Definition save_request (cf : calib_conf) (side : string) (d : draft) : option request :=
  match dr_fit d, model_home_fit cf d with
  | Some _, Some h => Some (Request side (dr_offsets d) (sorted_flips d) (dr_open d) (dr_closed d) (Some h))
  | _, _ => None
  end.

(** ** Sessions *)

Record calib_session := CalibSession { cs_drafts : list (string * draft); cs_saved : list request }.

(** One run of the page for a side: the draft is seeded on first use. *)
Definition calib_event (cf : calib_conf) (side : string) (c : calib_click) (s : calib_session) : calib_session :=
  let d := default (seeded cf) (dget side (cs_drafts s)) in
  CalibSession (dset side (calib_press cf c d) (cs_drafts s))
    (cs_saved s ++ match c with SaveDraft => option_list (save_request cf side d) | _ => [] end).

Definition calib_events (l : list (calib_conf * string * calib_click)) (s : calib_session) : calib_session :=
  foldl (fun s x => calib_event x.1.1 x.1.2 x.2 s) s l.

(** ** What is saved *)

Lemma flips_NoDup l : NoDup (flip_set l).
Proof. apply NoDup_remove_dups. Qed.

Lemma toggle_NoDup j l : NoDup l -> NoDup (toggle_flip j l).
Proof.
  intros H. unfold toggle_flip. case_bool_decide as Hin; [by apply NoDup_filter_list|].
  apply NoDup_app. split_and!; [done| |repeat constructor; set_solver]. intros x Hx [->|[]%elem_of_nil]%elem_of_cons. done.
Qed.

(** The presses on the page of one leader, with the configuration then in force. *)
Definition clicks (side : string) (l : list (calib_conf * string * calib_click)) : list (calib_conf * calib_click) :=
  omap (fun x => if bool_decide (x.1.2 = side) then Some (x.1.1, x.2) else None) l.

(** The draft after some presses, for a page drawn under [cf]. *)
Definition draft_after (evs : list (calib_conf * calib_click)) (cf : calib_conf) : draft :=
  match evs with
  | [] => seeded cf
  | x :: _ => foldl (fun d x => calib_press x.1 x.2 d) (seeded x.1) evs
  end.

(** The poses held: every reference pose captured since the last Clear or Reset, with its last
    reading. *)
Definition pose_step (acc : list (string * list f64)) (x : calib_conf * calib_click) : list (string * list f64) :=
  match x.2 with
  | CapturePose name (Ok q) =>
      if bool_decide (name ∈ pose_name <$> reference_poses (cf_dof x.1))
      then dset name (arm_joints_deg q (cf_conv x.1)) acc else acc
  | ClearPoses | ResetDraft => []
  | _ => acc
  end.

Definition poses_of (evs : list (calib_conf * calib_click)) : list (string * list f64) := foldl pose_step [] evs.

(** A press that keeps the fit and the captured home; one that changes offsets or flips by hand. *)
Definition keeps_capture (x : calib_conf * calib_click) : Prop := x.2 <> ClearPoses /\ x.2 <> ResetDraft.
Definition fine_tunes (x : calib_conf * calib_click) : Prop :=
  match x.2 with CaptureJoint _ _ | FlipJoint _ => True | _ => False end.

(** A capture of the model home that succeeded. *)
Definition home_taken (before : list (calib_conf * calib_click)) (x : calib_conf * calib_click) : Prop :=
  match x.2 with
  | CaptureHome (Ok q) => exists h, solve_home x.1 (arm_joints_deg q (cf_conv x.1)) (draft_after before x.1) = Ok h
  | _ => False
  end.

(** [f] solved the poses held when Solve was pressed, nothing was cleared since, and unless a joint
    was tuned by hand since, the offsets and flips are those of [f], the offsets to two decimals. *)
Definition solved_by (evs : list (calib_conf * calib_click)) (f : PoseFit f64) (offsets : list f64) (flips : list Z) : Prop :=
  exists before cs after, evs = before ++ (cs, SolvePoses) :: after /\ Forall keeps_capture after /\
    (2 <= length (poses_of before))%nat /\
    solve_pose_samples f_of_Z (cf_dof cs) (cf_conv cs) (poses_of before) = Ok f /\
    (Forall (fun x => ~ fine_tunes x) after ->
       offsets = (round_digits 2 <$> fit_offsets f) /\ flips = flip_set (Z.of_nat <$> fit_flips f)).

(** [q] is the reading of the last successful capture of the model home, with nothing cleared since. *)
Definition home_from (evs : list (calib_conf * calib_click)) (ch : calib_conf) (q : list f64) : Prop :=
  exists before after, evs = before ++ (ch, CaptureHome (Ok q)) :: after /\ Forall keeps_capture after /\
    home_taken before (ch, CaptureHome (Ok q)) /\
    forall a x b, after = a ++ x :: b -> ~ home_taken (before ++ (ch, CaptureHome (Ok q)) :: a) x.

(** What is known of a draft after the presses of its page. *)
Record draft_ok (evs : list (calib_conf * calib_click)) (d : draft) : Prop := {
  do_flips : NoDup (dr_flips d);
  do_samples : dr_samples d = poses_of evs;
  do_fit : forall f, dr_fit d = Some f -> solved_by evs f (dr_offsets d) (dr_flips d);
  do_home : forall raw, dr_home_raw d = Some raw ->
    exists ch q, home_from evs ch q /\ raw = arm_joints_deg q (cf_conv ch);
}.

Lemma poses_snoc evs x : poses_of (evs ++ [x]) = pose_step (poses_of evs) x.
Proof. unfold poses_of. by rewrite foldl_app. Qed.

Lemma draft_after_snoc evs cf cf' c : draft_after (evs ++ [(cf, c)]) cf' = calib_press cf c (draft_after evs cf).
Proof. destruct evs as [|x evs]; [done|]. unfold draft_after. cbn [app]. rewrite app_comm_cons, foldl_app. done. Qed.

Lemma solved_keeps evs f offs flips offs' flips' cf c : solved_by evs f offs flips -> keeps_capture (cf, c) ->
  (fine_tunes (cf, c) \/ (offs' = offs /\ flips' = flips)) -> solved_by (evs ++ [(cf, c)]) f offs' flips'.
Proof.
  intros (before & cs & after & -> & Hk & Hn & Hs & Hf) Hc Ht. exists before, cs, (after ++ [(cf, c)]).
  rewrite <-(assoc_L app). split; [done|]. split; [by apply Forall_app; split; [|constructor]|]. split; [done|]. split; [done|].
  intros [Ha [Hx _]%Forall_cons]%Forall_app. destruct Ht as [|[-> ->]]; [done|]. by apply Hf.
Qed.

Lemma home_keeps evs ch q cf c : home_from evs ch q -> keeps_capture (cf, c) -> ~ home_taken evs (cf, c) ->
  home_from (evs ++ [(cf, c)]) ch q.
Proof.
  intros (before & after & -> & Hk & Ht & Hl) Hc Hn. exists before, (after ++ [(cf, c)]).
  rewrite <-(assoc_L app). split; [done|]. split; [by apply Forall_app; split; [|constructor]|]. split; [done|].
  intros a x b Heq. destruct b as [|y b _] using rev_ind.
  - apply app_inj_2 in Heq as [-> [= <-]]; [done|done].
  - rewrite app_comm_cons, (assoc_L app) in Heq. apply app_inj_2 in Heq as [-> _]; [|done]. by eapply Hl.
Qed.

(** A press that leaves poses, fit and home alone. *)
Lemma draft_ok_keeps evs d d' cf c : draft_ok evs d -> keeps_capture (cf, c) -> ~ home_taken evs (cf, c) ->
  NoDup (dr_flips d') -> dr_samples d' = pose_step (poses_of evs) (cf, c) -> dr_fit d' = dr_fit d -> dr_home_raw d' = dr_home_raw d ->
  (fine_tunes (cf, c) \/ (dr_offsets d' = dr_offsets d /\ dr_flips d' = dr_flips d)) ->
  draft_ok (evs ++ [(cf, c)]) d'.
Proof.
  intros [H1 H2 H3 H4] Hc Hn Hnd Hs Hf Hh Ht. split; [done|by rewrite poses_snoc| |].
  - intros f. rewrite Hf. intros Hd%H3. by eapply solved_keeps.
  - intros raw. rewrite Hh. intros (ch & q & Hq & ->)%H4. exists ch, q. split; [by apply home_keeps|done].
Qed.

(** Presses that are plainly of the harmless kind. *)
Ltac harmless := first [done | by split | by intros [] | by intros (? & ?)].

Lemma seeded_after evs cf cf0 : draft_ok (evs ++ [(cf, ResetDraft)]) (seeded cf0).
Proof. split; [apply flips_NoDup|by rewrite poses_snoc|done|done]. Qed.

Lemma solve_draft_ok evs cf : draft_ok evs (draft_after evs cf) -> (2 <= length (dr_samples (draft_after evs cf)))%nat ->
  draft_ok (evs ++ [(cf, SolvePoses)]) (solve_draft cf (draft_after evs cf)).
Proof.
  set (d := draft_after evs cf). intros Hd Hn. unfold solve_draft. destruct (solve_pose_samples _ _ _ _) as [f|] eqn:Es.
  - destruct Hd as [H1 H2 H3 H4]. split; cbn; [apply flips_NoDup|by rewrite poses_snoc| |].
    + intros f' [= <-]. exists evs, cf, []. rewrite <-H2. by split_and!.
    + intros raw (ch & q & Hq & ->)%H4. exists ch, q. split; [apply home_keeps; harmless|done].
  - eapply draft_ok_keeps; [exact Hd|harmless|harmless|apply Hd|apply Hd|done|done|by right].
Qed.

Lemma calib_press_ok evs cf c : draft_ok evs (draft_after evs cf) ->
  draft_ok (evs ++ [(cf, c)]) (calib_press cf c (draft_after evs cf)).
Proof.
  intros Hd. pose proof (do_samples _ _ Hd) as Hs. pose proof (do_flips _ _ Hd) as Hnd.
  assert (forall c, keeps_capture (cf, c) -> ~ home_taken evs (cf, c) -> pose_step (poses_of evs) (cf, c) = poses_of evs ->
    draft_ok (evs ++ [(cf, c)]) (draft_after evs cf)) as Hsame.
  { intros c' Hk Hh Hp. eapply draft_ok_keeps; [exact Hd|done|done|done|by rewrite Hp|done|done|by right]. }
  destruct c as [name [q|]| | |j [q|]|j|[q|]|[x|]|[x|]| |]; cbn [calib_press]; try (by apply Hsame; harmless).
  - case_bool_decide as Hn; [|apply Hsame; [harmless|harmless|cbn; by rewrite bool_decide_eq_false_2]].
    eapply draft_ok_keeps; [exact Hd|harmless|harmless|done|cbn; by rewrite bool_decide_eq_true_2, Hs|done|done|by right].
  - destruct (Nat.ltb_spec (length (dr_samples (draft_after evs cf))) 2); [apply Hsame; harmless|]. by apply solve_draft_ok.
  - split; [done|by rewrite poses_snoc|done|done].
  - destruct (_ !! j); [|apply Hsame; harmless]. destruct (_ !! j); [|apply Hsame; harmless]. destruct (_ <? _)%nat; [|apply Hsame; harmless].
    eapply draft_ok_keeps; [exact Hd|harmless|harmless|done|done|done|done|by left].
  - destruct (_ <? _)%nat; [|apply Hsame; harmless].
    eapply draft_ok_keeps; [exact Hd|harmless|harmless|by apply toggle_NoDup|done|done|done|by left].
  - destruct (solve_home _ _ _) as [h|] eqn:Eh; [|apply Hsame; [harmless|intros [h Hh]; cbn in Hh; congruence|done]].
    destruct Hd as [H1 H2 H3 H4]. split; cbn; [done|by rewrite poses_snoc| |].
    + intros f Hf%H3. eapply solved_keeps; [exact Hf|harmless|by right].
    + intros raw [= <-]. exists cf, q. split; [|done]. exists evs, []. split_and!; [done|done|by exists h|].
      by intros [|? a] x b [=].
  - eapply draft_ok_keeps; [exact Hd|harmless|harmless|done|done|done|done|by right].
  - eapply draft_ok_keeps; [exact Hd|harmless|harmless|done|done|done|done|by right].
  - apply seeded_after.
Qed.

Lemma draft_after_ok evs cf : draft_ok evs (draft_after evs cf).
Proof.
  revert cf. induction evs as [|[cf0 c] evs IH] using rev_ind; intros cf; [split; [apply flips_NoDup|done|done|done]|].
  rewrite draft_after_snoc. by apply calib_press_ok.
Qed.

(** What is known of a request saved after the presses [evs] of its page. *)
Record saved_ok (evs : list (calib_conf * calib_click)) (rq : request) : Prop := {
  sa_flips : NoDup (rq_flips rq);
  sa_solved : exists f flips, solved_by evs f (rq_offsets rq) flips /\ rq_flips rq = py_sorted Z.leb flips;
  sa_home : exists ch q h, home_from evs ch q /\ rq_home rq = Some h /\
    convert_factr_to_rizon q (Convention (rq_offsets rq) (rq_flips rq) (drop_trailing (cf_conv ch)) (rq_open rq) (rq_closed rq))
      = Ok (home_q_rad h);
}.

Lemma save_request_ok evs cf side d rq : draft_ok evs d -> save_request cf side d = Some rq -> saved_ok evs rq /\ rq_side rq = side.
Proof.
  intros [H1 _ H3 H4] H. unfold save_request, model_home_fit in H.
  destruct (dr_fit d) as [f|]; [|done]. destruct (dr_home_raw d) as [raw|]; [|done].
  destruct (solve_home cf raw d) as [h|] eqn:Eh; [|done]. injection H as <-.
  assert (NoDup (sorted_flips d)) as Hnd by (unfold sorted_flips; by rewrite py_sorted_perm).
  destruct (H4 raw eq_refl) as (ch & q & Hq & Hraw). split; [|done]. split; [done|by exists f, (dr_flips d); split; [apply H3|]|].
  exists ch, q, h. split_and!; try done. unfold solve_home in Eh. destruct (cf_signs cf) as [signs|]; [|done].
  destruct (cf_home cf) as [target|]; [|done].
  cbn [res_bind] in Eh. by apply (home_converts q raw (dr_offsets d) signs target (sorted_flips d) h).
Qed.

(** The session keeps one draft per leader, that of its own presses. *)
Lemma clicks_snoc side l cf side' c : clicks side (l ++ [(cf, side', c)]) =
  if bool_decide (side' = side) then clicks side l ++ [(cf, c)] else clicks side l.
Proof. unfold clicks. rewrite omap_app. cbn. case_bool_decide; [done|]. by rewrite app_nil_r. Qed.

Lemma session_draft l side cf :
  default (seeded cf) (dget side (cs_drafts (calib_events l (CalibSession [] [])))) = draft_after (clicks side l) cf.
Proof.
  revert cf. induction l as [|[[cf0 side0] c] l IH] using rev_ind; intros cf; [done|].
  unfold calib_events in *. rewrite foldl_app, clicks_snoc. cbn [foldl fst snd calib_event cs_drafts].
  case_bool_decide as He.
  - subst. rewrite dget_dset_eq, draft_after_snoc, <-IH. done.
  - rewrite dget_dset_ne by done. apply IH.
Qed.

(** C37: A calibration sent to be saved is consistent with itself.  Whatever the operator pressed on
    the page, for either leader and in any order: every request handed to the file was made by a press
    of Save on that leader's page; it rests on a successful solve of two or more poses, those captured
    since the last Clear or Reset when Solve was pressed, with nothing cleared since, and unless a
    joint was tuned by hand since, its offsets (to two decimals) and flips are those of that solve; and
    converting the reading of the last successful capture of the model home with the offsets and flips
    of the request gives exactly the home in the request, even when they were changed after the
    capture.  Writing the request rounds offsets to two decimals and the home to ten. *)
Theorem saved_calibration_converts (l : list (calib_conf * string * calib_click)) (rq : request) :
  rq ∈ cs_saved (calib_events l (CalibSession [] [])) ->
  exists before cf after, l = before ++ (cf, rq_side rq, SaveDraft) :: after /\ saved_ok (clicks (rq_side rq) before) rq.
Proof.
  induction l as [|[[cf side] c] l IH] using rev_ind; [by intros ?%elem_of_nil|].
  unfold calib_events in *. rewrite foldl_app. cbn [foldl fst snd calib_event cs_saved]. intros [H%IH|H]%elem_of_app.
  { destruct H as (before & cf' & after & -> & H). exists before, cf', (after ++ [(cf, side, c)]). by rewrite <-(assoc_L app). }
  destruct c; try (by apply elem_of_nil in H). destruct (save_request _ _ _) as [x|] eqn:E; [|by apply elem_of_nil in H].
  apply list_elem_of_singleton in H as ->. exists l, cf, [].
  pose proof (session_draft l side cf) as Hd. unfold calib_events in Hd. rewrite Hd in E.
  apply (save_request_ok (clicks side l)) in E as [Hx Hside]; [|apply draft_after_ok]. rewrite Hside. by split.
Qed.
End page.

(** ** An instance *)

Section instance.
(** Any numerical library will do: the statement does not depend on it. *)
Local Instance demo_fit : Fit f64 := {
  n1 := f1; nmul := fmul; nsin x := x; ncos _ := f1; narctan2 s _ := s; nmean l := default f0 (head l);
  nsqrt x := x; nabs x := x; nleb := fle; nltb := flt; nfinite := is_finite; ntie := f0;
}.

Definition demo_conf : calib_conf := CalibConf (Convention [f0] [] 1 None None) 1 (Ok [f1]) (Ok [f0]).
Definition demo_clicks : list (calib_conf * string * calib_click) :=
  (fun c => (demo_conf, "left", c)) <$>
  [CapturePose (pose_name (default (Pose "" []) (reference_poses 1 !! 0%nat))) (Ok [f1; f0]);
   CapturePose (pose_name (default (Pose "" []) (reference_poses 1 !! 1%nat))) (Ok [f0; f0]);
   SolvePoses; CaptureHome (Ok [f1; f0]); FlipJoint 0; SaveDraft].

Lemma saved_calibration_converts_witness : exists rq,
  cs_saved (calib_events demo_clicks (CalibSession [] [])) = [rq] /\ rq_side rq = "left" /\
  exists before cf after, demo_clicks = before ++ (cf, "left", SaveDraft) :: after /\ saved_ok (clicks "left" before) rq.
Proof.
  destruct (cs_saved (calib_events demo_clicks (CalibSession [] []))) as [|rq [|]] eqn:E;
    [vm_compute in E; discriminate E| |vm_compute in E; discriminate E].
  exists rq. split; [reflexivity|]. assert (rq_side rq = "left") as Hs by (vm_compute in E; by injection E as <-).
  split; [exact Hs|]. rewrite <-Hs. apply (saved_calibration_converts demo_clicks rq). rewrite E. left.
Defined.
End instance.
