(* ===== verification/StatusPage.v ===== *)
(** * The status cards

    Models the read-only half of [dashboard/app.py]: the rows of the arms, leaders and cameras, the
    gain readouts, the banner about missing joint data, the camera picture, the list of logs, and the
    fragment that notices when the session's mode or a run has changed.  A row is the choice the code
    makes between texts, not the text. *)

From Stdlib Require Import SpecFloat Ascii String.
From S2P Require Import Prelude Float64 Ring Streams Text Convention Session Json FactrNode Calibration CalibFile LiveView Storage Operator CameraSource Dashboard ControlPage.
Local Open Scope string_scope.
Local Open Scope list_scope.
Local Open Scope Z_scope.

(** ** Arms *)

Inductive lamp := On | Off | NotKnown.

Definition lamp_of (b : option bool) : lamp := match b with Some true => On | Some false => Off | None => NotKnown end.

(** [_render_arm_row]. *)
Record arm_row := ArmRow {
  ar_connected : bool;         (* the green dot; everything is greyed out otherwise *)
  ar_operation : string;
  ar_controlling : bool;
  ar_estop : lamp;             (* pressed, clear, or a dash *)
  ar_servo : lamp;
  ar_mode : option string;
}.

Definition render_arm_row (s : ArmStatus) : arm_row :=
  let connected := String.eqb (as_source s) "live" in
  ArmRow connected (as_operational_status s) (default false (as_control_active s)) (lamp_of (as_estop_pressed s))
    (lamp_of (as_servo_enabled s)) (if connected then Some (as_mode s) else None).

(** ** Leaders *)

Inductive leader_row :=
  | Booting
  | LeaderRow (live : bool) (calibrated : bool) (detail : option (bool * option (string * string) * nat * option f64)).

(** What the row prints of a gain, from the fields of the status. *)
Definition gain_payload (prefix : string) (en : option bool) (gain target : option f64) : option (list (string * json)) :=
  match en with
  | None => None
  | Some b => Some [(prefix +:+ "_enabled", Scalar (JBool b));
                    (prefix +:+ "_gain", match gain with Some g => jfloat g | None => jnull end);
                    (prefix +:+ "_gain_target", match target with Some g => jfloat g | None => jnull end)]
  end.

Definition render_leader_row (fos : string -> option f64) (s : LeaderStatus) (poll_state : string) (service : option string) : res leader_row :=
  let detail :=
    if ls_reachable s then
      let? gains :=
        if ls_sim s then Ok None
        else
          let? g := grav_comp_display fos (gain_payload "grav_comp" (ls_grav_enabled s) (ls_grav_gain s) (ls_grav_target s)) in
          let? f := force_feedback_display fos (gain_payload "force_feedback" (ls_feedback_enabled s) (ls_feedback_gain s) (ls_feedback_target s)) in
          Ok (Some (g.2, f)) in
      Ok (Some (ls_sim s, gains, ls_dof s, ls_gripper s))
    else Ok None in
  if ls_sim s then let? d := detail in Ok (LeaderRow (ls_reachable s) false d)
  else if ls_reachable s && String.eqb poll_state "configured" then let? d := detail in Ok (LeaderRow true true d)
  else if bool_decide (service = Some "countdown") then Ok Booting
  else let? d := detail in Ok (LeaderRow (ls_reachable s) false d).

(** [_format_factr_gain]: one value per leader, a dash where there is none. *)
Definition gain_value (fos : string -> option f64) (key : string) (status : option (list (string * json))) : res string :=
  let gain := match status with
              | None => Ok None
              | Some p => swallow None (let? v := of_option KeyError (dget key p) in let? g := jfloat_of fos v in Ok (Some g))
              end in
  let? g := gain in
  Ok (match g with Some g => if is_finite g then fmt_fixed 2 g else "—" | None => "—" end).

Definition format_factr_gain (fos : string -> option f64) (sides : list string) (statuses : list (option (list (string * json)))) (key : string) :
    res string :=
  let? values := mapM_res (fun x => gain_value fos key x.2) (imap (fun i side => (side, default None (statuses !! i))) sides) in
  let shown := match sides with
               | [_] => values
               | _ => zip_with (fun side v => str_upper (String.substring 0 1 side) +:+ " " +:+ v) sides values
               end in
  Ok (match shown with [] => "—" | _ => py_join " · " shown end).

(** ** Cameras *)

(** [_render_camera_row]. *)
Definition render_camera_row (s : CameraStatus) : string * option (list string) :=
  (ct_camera s, if detected s then Some (ct_live s) else None).

(** [_camera_feed]: the picture of the chosen view, only when it is live. *)
Inductive picture := NoView | NoSignal (v : CameraView) | Picture (v : CameraView) (pixels : list f64).

Definition camera_feed (frame_of : CameraView -> option (list f64) * string) (chosen : option string) (views : list CameraView) : picture :=
  match views with
  | [] => NoView
  | first :: _ =>
    let key := match chosen with Some ((String _ _) as k) => k | _ => cv_key first end in
    match List.find (fun v => String.eqb (cv_key v) key) (rev views) with   (* a dict keeps the last *)
    | None => NoView
    | Some v =>
      match frame_of v with
      | (Some px, "live") => Picture v px
      | _ => NoSignal v
      end
    end
  end.

(** [_robot_data_status]: the arms without live joint data. *)
Definition missing_arms (read : string -> option (list f64)) (arms : list (string * string)) : list string :=
  snd <$> List.filter (fun a => match read a.1 with None => true | Some _ => false end) arms.

(** ** Logs *)

(** The list of [_render_logs_tab]: the live log first and once. *)
Definition log_list (live : option LogFile) (past : list LogFile) : list LogFile :=
  match live with
  | Some l => l :: List.filter (fun f => negb (String.eqb (lf_path f) (lf_path l))) past
  | None => past
  end.

(** ** The run panel *)

(** What the fragment remembers between its ticks. *)
Record panel_state := PanelState { ps_kept : kept; ps_seen : option string }.

(** [_run_status_panel]'s bookkeeping: whether the whole page is run again. *)
Definition panel_tick (a : option alert) (state : string) (s : panel_state) : panel_state * bool :=
  match a with
  | Some a => (PanelState (file_alert a (ps_kept s)) (ps_seen s), true)       (* [st.rerun] ends the tick *)
  | None =>
    if bool_decide (ps_seen s = Some state) then (s, false)
    else (PanelState (ps_kept s) (Some state), match ps_seen s with Some _ => true | None => false end)
  end.

(** What the panel says when no run is active. *)
Inductive idle_panel := Viewing (cameras arms : list json) | Starting | DaemonDown.

Definition idle_message (v : SessionView) : option idle_panel :=
  if run_active v then None
  else Some (if String.eqb (sv_state v) "viewing" then Viewing (sv_cameras_down v) (sv_arms_down v)
             else if String.eqb (sv_state v) "starting" then Starting else DaemonDown).

(** ** What the rows promise *)

(** C34: An arm's row tells the truth about its E-stop.  From the shared memory to the page: the row
    says "pressed" or "clear" only when some run directory holds a status sample at most two seconds
    old, and then it says what that sample says, as do the servo lamp and the controlling mark; an arm
    without such a sample is shown disconnected with every lamp unknown; and one fresh sample is
    enough for the row to be connected, whatever stale directories hold. *)
Theorem arm_row_fresh (status_name mode_name : Z -> option string) w dirs now_ns side st :
  read_arm_status status_name mode_name w dirs now_ns side = Ok st ->
  let row := render_arm_row st in
  (ar_connected row = true -> exists run v t, run ∈ dirs.*1 /\ published w (STATUS_STREAM side) run v t /\ now_ns - t <= 2000000000 /\
     ar_estop row = lamp_of (bool_of <$> v !! 1%nat) /\ ar_servo row = lamp_of (bool_of <$> v !! 3%nat) /\
     (ar_controlling row = true <-> bool_of <$> v !! 2%nat = Some true)) /\
  (ar_connected row = false -> ar_estop row = NotKnown /\ ar_servo row = NotKnown /\ ar_controlling row = false /\ ar_mode row = None) /\
  ((forall run v t, run ∈ dirs.*1 -> published w (STATUS_STREAM side) run v t -> (2 <= length v)%nat) ->
   (exists run v t, run ∈ dirs.*1 /\ published w (STATUS_STREAM side) run v t /\ now_ns - t <= 2000000000) ->
   ar_connected row = true).
Proof.
  intros H row. destruct (arm_status_sound _ _ _ _ _ _ _ H) as (H1 & H2 & H3). unfold row, render_arm_row. cbn [ar_connected ar_estop ar_servo ar_controlling ar_mode].
  split_and!.
  - intros Hc%String.eqb_eq. destruct (H1 Hc) as (run & v & t & Hr & Hp & Hage & He & Hctl & Hs). exists run, v, t.
    rewrite He, Hctl, Hs. split_and!; try done. destruct (bool_of <$> v !! 2%nat) as [[]|]; done.
  - intros Hc%String.eqb_neq. destruct H2 as [?| ->]; done.
  - intros Hw Hex. apply String.eqb_eq, H3; done.
Qed.

Lemma log_list_once live past : NoDup (lf_path <$> past) -> NoDup (lf_path <$> log_list live past) /\
  (forall l, live = Some l -> head (log_list live past) = Some l) /\ (forall f, f ∈ past -> lf_path f ∈ lf_path <$> log_list live past).
Proof.
  intros Hnd. destruct live as [l|]; cbn [log_list]; [|split_and!; [done|done|]; intros f Hf; by apply list_elem_of_fmap_2].
  split_and!; [|by intros ? [= <-]|].
  - cbn. apply list.NoDup_cons. split.
    + intros (f & Hf & [_ Hn]%list_elem_of_In%filter_In)%list_elem_of_fmap. by rewrite Hf, String.eqb_refl in Hn.
    + clear -Hnd. induction past as [|f past IH]; [done|]. cbn in Hnd |- *. apply list.NoDup_cons in Hnd as [Hf Hnd].
      destruct (negb _); [|by apply IH]. cbn. apply list.NoDup_cons. split; [|by apply IH].
      intros (g & Hg & [Hin _]%list_elem_of_In%filter_In)%list_elem_of_fmap. apply Hf. rewrite Hg. apply list_elem_of_fmap_2. by apply list_elem_of_In.
  - intros f Hf. destruct (String.eqb_spec (lf_path f) (lf_path l)) as [->|Hne]; [left|]. right. apply list_elem_of_fmap_2.
    apply list_elem_of_In, filter_In. split; [by apply list_elem_of_In|]. by rewrite (proj2 (String.eqb_neq _ _) Hne).
Qed.

(** The page follows the session's mode: a tick without an alert runs it again exactly when the mode
    differs from the one last seen, and afterwards that mode is the one seen. *)
Lemma panel_follows_mode state s : let r := panel_tick None state s in
  ps_seen r.1 = Some state /\ (r.2 = true <-> exists old, ps_seen s = Some old /\ old <> state).
Proof.
  unfold panel_tick. case_bool_decide as E; cbn.
  - split; [done|]. split; [done|]. intros (old & Ho & Hne). congruence.
  - split; [done|]. destruct (ps_seen s) as [old|]; split; try done; [|by intros (? & ? & _)].
    intros _. exists old. split; [done|]. congruence.
Qed.

Lemma arm_row_fresh_witness :
  exists st, read_arm_status (fun _ => None) (fun _ => None) live_world live_dirs 10000000000 "left" = Ok st /\
    ar_estop (render_arm_row st) = Off /\
    exists run v t, run ∈ live_dirs.*1 /\ published live_world (STATUS_STREAM "left") run v t /\ 10000000000 - t <= 2000000000.
Proof.
  destruct (read_arm_status (fun _ => None) (fun _ => None) live_world live_dirs 10000000000 "left")
    as [st|] eqn:E; [|vm_compute in E; discriminate E].
  assert (ar_connected (render_arm_row st) = true /\ ar_estop (render_arm_row st) = Off) as [Hs He]
    by (vm_compute in E; injection E as <-; split; reflexivity).
  exists st. split; [reflexivity|]. split; [exact He|].
  destruct (arm_row_fresh _ _ _ _ _ _ _ E) as [Hlive _].
  destruct (Hlive Hs) as (run & v & t & Hr & Hp & Ha & _). exists run, v, t. split; [exact Hr|]. split; [exact Hp|exact Ha].
Defined.
