(* ===== verification/Servers.v ===== *)
(** * Servers

    Models the processes and ports behind the viewers: waiting for a port and [serve_grpc_checked],
    the metrics servers and their teardown ([dashboard/viewer.py]), the server of the Rerun replay
    ([dashboard/replay.py]), the services over the two consumer processes ([viser/service.py],
    [plotly_dash/service.py]) with the roll-over the page makes of them ([_servers] and [_plot_server]
    of [dashboard/app.py]), the state reader of the old viewer ([rerun/service.py]) and opening a file
    in the editor ([dashboard/editor.py]).

    Which port answers when, and what the Rerun library does, is outside: a served recording holds its
    port until it is disconnected or everything is shut down, and a second one cannot bind it, as the
    comments of [viewer.py] say of the library. *)

From Stdlib Require Import Ascii String.
From S2P Require Import Prelude Float64 Text Json Layout Session LiveView Storage Operator Dashboard ViewerScene.
Local Open Scope string_scope.
Local Open Scope list_scope.
Local Open Scope nat_scope.

(** ** Waiting for a port *)

Section ports.
(** Whether the port answers at the n-th look, and the clock then, in milliseconds.  The loop sleeps
    50 ms between two looks. *)
Context (listening : Z -> nat -> bool) (clock : nat -> Z).
Context (Hclock : forall n, (clock n + 50 <= clock (S n))%Z).

Definition PORT_WAIT_MS : Z := 5000.

(** [_await_port]: the answer, and the look it came from. *)
Fixpoint await_port (fuel : nat) (port : Z) (want : bool) (deadline : Z) (n : nat) : option (bool * nat) :=
  match fuel with
  | O => None
  | S fuel =>
    if Bool.eqb (listening port n) want then Some (true, n)
    else if (deadline <=? clock n)%Z then Some (false, n)
    else await_port fuel port want deadline (S n)
  end.

(** Looks in five seconds, and one more. *)
Definition WAIT_FUEL : nat := 101.

Definition wait_port (port : Z) (want : bool) (n : nat) : option (bool * nat) :=
  await_port WAIT_FUEL port want (clock n + PORT_WAIT_MS)%Z n.

(** [serve_grpc_checked]: the previous listener must go and the new one must answer.  The outcome,
    whether [serve] was called, and the look at the end. *)
Definition serve_grpc_checked (uri : string) (port : Z) (n : nat) : option (res string * bool * nat) :=
  match wait_port port false n with
  | None => None
  | Some (false, n) => Some (Raise RuntimeError, false, n)
  | Some (true, n) =>
    match wait_port port true (S n) with
    | None => None
    | Some (false, n) => Some (Raise RuntimeError, true, n)
    | Some (true, n) => Some (Ok uri, true, n)
    end
  end.

Lemma clock_grows n k : (clock n + 50 * Z.of_nat k <= clock (n + k))%Z.
Proof.
  induction k as [|k IH]; [rewrite Nat.add_0_r; lia|]. rewrite Nat.add_succ_r. pose proof (Hclock (n + k)). lia.
Qed.

Lemma await_returns fuel port want deadline n : (deadline <= clock n + 50 * (Z.of_nat fuel - 1))%Z -> 0 < fuel ->
  exists b m, await_port fuel port want deadline n = Some (b, m) /\ n <= m /\ Bool.eqb (listening port m) want = b.
Proof.
  revert n. induction fuel as [|fuel IH]; intros n Hd Hf; [lia|]. cbn [await_port].
  destruct (Bool.eqb (listening port n) want) eqn:E; [by exists true, n|].
  destruct (deadline <=? clock n)%Z eqn:Ed; [by exists false, n|]. pose proof (Hclock n).
  destruct (IH (S n)) as (b & m & -> & Hm & Hb); [lia|destruct fuel; lia|]. exists b, m. split_and!; [done|lia|done].
Qed.

Lemma wait_returns port want n : exists b m, wait_port port want n = Some (b, m) /\ n <= m /\ Bool.eqb (listening port m) want = b.
Proof. apply await_returns; unfold WAIT_FUEL, PORT_WAIT_MS; lia. Qed.

(** A served address is answered.  Serving always returns within the two waits of five seconds;
    when it returns an address, the port was silent at some look before the server was started and
    answered at a later look after it; a port that never falls silent is reported without starting a
    server on it. *)
Theorem serve_checked_answers uri port n :
  exists r called m, serve_grpc_checked uri port n = Some (r, called, m) /\ n <= m /\
    (r = Ok uri \/ r = Raise RuntimeError) /\
    (r = Ok uri -> called = true /\ exists a, n <= a < m /\ listening port a = false /\ listening port m = true) /\
    ((forall k, n <= k -> listening port k = true) -> r = Raise RuntimeError /\ called = false).
Proof.
  unfold serve_grpc_checked. destruct (wait_returns port false n) as ([] & a & -> & Ha & Hla).
  - destruct (wait_returns port true (S a)) as ([] & b & -> & Hb & Hlb).
    + exists (Ok uri), true, b. split; [done|]. split; [lia|]. split; [by left|]. split.
      * intros _. split; [done|]. exists a. split; [lia|]. by destruct (listening port a), (listening port b).
      * intros Hall. rewrite Hall in Hla by done. done.
    + exists (Raise RuntimeError), true, b. split; [done|]. split; [lia|]. split; [by right|]. split; [done|].
      intros Hall. rewrite Hall in Hla by done. done.
  - exists (Raise RuntimeError), false, a. by split_and!; [..|right| |].
Qed.
End ports.

(** ** The metrics and replay servers *)

Inductive recording := Metrics | ReplayHost | Episode (repo : string) (index : nat) (gen : nat).

#[export] Instance recording_eq_dec : EqDecision recording.
Proof. solve_decision. Defined.

Record rerun_state := Rerun {
  re_served : list (Z * recording);          (* ports this process serves *)
  re_web : list Z;                           (* web viewers bound, never released *)
  re_servers : option (Z * Z);               (* [_SERVERS]: gRPC and web port *)
  re_web_port : option Z;                    (* [_WEB_VIEWER_PORT] *)
  re_viewer : bool;                          (* [_VIEWER] of the replay *)
  re_host : option recording;
  re_port : option Z;                        (* [_SERVER_PORT] *)
  re_gen : nat;
}.

Definition rerun0 : rerun_state := Rerun [] [] None None false None None 0.

(** Serving on a port: refused when it is taken, by this process or another, or when the server's
    thread dies. *)
Definition serve (taken dies : bool) (port : Z) (r : recording) (s : list (Z * recording)) : res (list (Z * recording)) :=
  if taken || dies || dmem port s then Raise RuntimeError else Ok (s ++ [(port, r)]).

(** [RecordingStream.disconnect]. *)
Definition disconnect (r : option recording) (s : list (Z * recording)) : list (Z * recording) :=
  List.filter (fun x => negb (bool_decide (Some x.2 = r))) s.

(** [start_servers]. *)
Definition start_servers (taken dies : bool) (grpc web : Z) (s : rerun_state) : rerun_state * res (Z * Z) :=
  match re_servers s with
  | Some p => (s, Ok p)
  | None =>
    match serve taken dies grpc Metrics (re_served s) with
    | Raise e => (s, Raise e)
    | Ok served =>
      let web_port := default web (re_web_port s) in
      (Rerun served (match re_web_port s with None => re_web s ++ [web] | Some _ => re_web s end)
         (Some (grpc, web_port)) (Some web_port) (re_viewer s) (re_host s) (re_port s) (re_gen s), Ok (grpc, web_port))
    end
  end.

(** [teardown], with the [reset] of the replay it is paired with. *)
Definition teardown (s : rerun_state) : rerun_state :=
  Rerun [] (re_web s) None (re_web_port s) (re_viewer s) (re_host s) (re_port s) (re_gen s).
Definition reset_rerun_replay (s : rerun_state) : rerun_state :=
  Rerun (re_served s) (re_web s) (re_servers s) (re_web_port s) false None None (re_gen s).

(** [start_replay_viewer] of [dashboard/replay.py]. *)
Definition start_rerun_replay (taken dies : bool) (port : Z) (s : rerun_state) : rerun_state * res unit :=
  if re_viewer s then (s, Ok tt)
  else
    match serve taken dies port ReplayHost (re_served s) with
    | Raise e => (Rerun (re_served s) (re_web s) (re_servers s) (re_web_port s) false (Some ReplayHost) (Some port) (re_gen s), Raise e)
    | Ok served => (Rerun served (re_web s) (re_servers s) (re_web_port s) true (Some ReplayHost) (Some port) (re_gen s), Ok tt)
    end.

(** [log_episode] of [dashboard/replay.py], after the episode was read: the old server is stopped,
    and the port is bound again with this episode as the only recording. *)
Definition rerun_log_episode (taken dies : bool) (repo : string) (index : nat) (s : rerun_state) : rerun_state * res unit :=
  match re_viewer s, re_host s, re_port s with
  | true, Some host, Some port =>
    let served := disconnect (Some host) (re_served s) in
    let gen := S (re_gen s) in
    let r := Episode repo index gen in
    match serve taken dies port r served with
    | Raise e => (Rerun served (re_web s) (re_servers s) (re_web_port s) true (Some host) (Some port) gen, Raise e)
    | Ok served => (Rerun served (re_web s) (re_servers s) (re_web_port s) true (Some r) (Some port) gen, Ok tt)
    end
  | _, _, _ => (s, Raise RuntimeError)
  end.

Inductive rerun_op :=
  | StartServers (taken dies : bool) (grpc web : Z)
  | ResetAll
  | StartReplay (taken dies : bool) (port : Z)
  | LogEpisode (taken dies : bool) (repo : string) (index : nat).

Definition rerun_step (o : rerun_op) (s : rerun_state) : rerun_state :=
  match o with
  | StartServers t d g w => (start_servers t d g w s).1
  | ResetAll => reset_rerun_replay (teardown s)
  | StartReplay t d p => (start_rerun_replay t d p s).1
  | LogEpisode t d repo i => (rerun_log_episode t d repo i s).1
  end.

(** The invariant: a recording other than the metrics is served only while it is the replay's host. *)
Record rerun_inv (s : rerun_state) : Prop := {
  ri_ports : NoDup (dkeys (re_served s));
  ri_records : NoDup ((re_served s).*2);
  ri_host : forall p r, (p, r) ∈ re_served s -> r = Metrics \/ re_host s = Some r /\ re_port s = Some p /\ re_viewer s = true;
  ri_metrics : forall p, (p, Metrics) ∈ re_served s -> re_servers s <> None;
  ri_gen : forall repo i g, re_host s = Some (Episode repo i g) -> g <= re_gen s;
  ri_not_metrics : re_host s <> Some Metrics;
  ri_web : length (re_web s) <= 1 /\ (re_web_port s = None -> re_web s = []);
}.

Lemma serve_ok t d p r s s' : serve t d p r s = Ok s' -> (p ∉ dkeys s) /\ s' = s ++ [(p, r)].
Proof.
  unfold serve. destruct (t || d) eqn:E; cbn [orb]; [done|]. destruct (dmem p s) eqn:Em; [done|]. intros [= <-].
  split; [|done]. by apply dmem_false in Em.
Qed.

Lemma disconnect_spec r s x : x ∈ disconnect r s <-> x ∈ s /\ Some x.2 <> r.
Proof.
  unfold disconnect. rewrite list_elem_of_In, filter_In, <-list_elem_of_In, negb_true_iff, bool_decide_eq_false. done.
Qed.

Lemma NoDup_snoc_fmap {A B} (f : A -> B) l x : NoDup (f <$> l) -> f x ∉ f <$> l -> NoDup (f <$> (l ++ [x])).
Proof.
  intros H Hx. rewrite fmap_app. apply NoDup_app. split_and!; [done| |repeat constructor; set_solver].
  intros y Hy [->|[]%elem_of_nil]%elem_of_cons. done.
Qed.

Lemma NoDup_disconnect {B} (f : Z * recording -> B) r s : NoDup (f <$> s) -> NoDup (f <$> disconnect r s).
Proof.
  intros H. unfold disconnect. induction s as [|x s IH]; [done|]. cbn in *. apply list.NoDup_cons in H as [Hx H].
  destruct (negb _); [|by apply IH]. cbn. apply list.NoDup_cons. split; [|by apply IH].
  intros (y & Hy & [Hin _]%list_elem_of_In%filter_In)%list_elem_of_fmap. apply Hx. rewrite Hy. apply list_elem_of_fmap_2. by apply list_elem_of_In.
Qed.

Lemma start_servers_inv t d g w s : rerun_inv s -> rerun_inv (start_servers t d g w s).1.
Proof.
  intros H. pose proof H as [H1 H2 H3 H4 H5 H6 [H7 H8]]. unfold start_servers. destruct (re_servers s) as [p|] eqn:Es; [done|].
  destruct (serve t d g Metrics (re_served s)) as [served|] eqn:E; [|done]. apply serve_ok in E as [Hg ->]. split; cbn; try done.
  - by apply NoDup_snoc_fmap.
  - apply NoDup_snoc_fmap; [done|]. intros ([p r] & Hr & Hin)%list_elem_of_fmap. cbn in Hr. subst r. by apply H4 in Hin.
  - intros p r [Hin|[[= -> ->]|[]%elem_of_nil]%elem_of_cons]%elem_of_app; [by apply H3|by left].
  - destruct (re_web_port s); [done|]. rewrite (H8 eq_refl). by split; [cbn; lia|].
Qed.

Lemma replay_quiet s p r : rerun_inv s -> re_viewer s = false -> (p, r) ∈ re_served s -> r = Metrics.
Proof. intros [_ _ H3 _ _ _ _] Hv Hin. destruct (H3 p r Hin) as [?|(_ & _ & ?)]; [done|congruence]. Qed.

Lemma start_replay_inv t d p s : rerun_inv s -> rerun_inv (start_rerun_replay t d p s).1.
Proof.
  intros H. pose proof H as [H1 H2 H3 H4 H5 H6 H7]. unfold start_rerun_replay. destruct (re_viewer s) eqn:Ev; [done|].
  destruct (serve t d p ReplayHost (re_served s)) as [served|] eqn:E.
  - apply serve_ok in E as [Hp ->]. split; cbn; try done.
    + by apply NoDup_snoc_fmap.
    + apply NoDup_snoc_fmap; [done|]. intros ([q r] & Hr & Hin)%list_elem_of_fmap. cbn in Hr. subst r. by apply replay_quiet in Hin.
    + intros q r [Hin|[[= -> ->]|[]%elem_of_nil]%elem_of_cons]%elem_of_app; [left; by eapply replay_quiet|by right].
    + intros q [Hin|[[=]|[]%elem_of_nil]%elem_of_cons]%elem_of_app. by eapply H4.
  - split; cbn; try done. intros q r Hin. left. by eapply replay_quiet.
Qed.

(** After the old host is disconnected only the metrics are served. *)
Lemma disconnected_metrics s host p r : rerun_inv s -> re_host s = Some host -> (p, r) ∈ disconnect (Some host) (re_served s) -> r = Metrics.
Proof.
  intros [_ _ H3 _ _ _ _] Hh [Hin Hne]%disconnect_spec. destruct (H3 p r Hin) as [?|(Hr & _ & _)]; [done|]. cbn in Hne. congruence.
Qed.

Lemma log_episode_inv t d repo i s : rerun_inv s -> rerun_inv (rerun_log_episode t d repo i s).1.
Proof.
  intros H. pose proof H as [H1 H2 H3 H4 H5 H6 H7]. unfold rerun_log_episode.
  destruct (re_viewer s) eqn:Ev; [|done]. destruct (re_host s) as [host|] eqn:Eh; [|done]. destruct (re_port s) as [port|] eqn:Ep; [|done].
  pose proof (disconnected_metrics s host) as Hd.
  assert (forall q, (q, Metrics) ∈ disconnect (Some host) (re_served s) -> re_servers s <> None) as Hm.
  { intros q [Hin _]%disconnect_spec. by eapply H4. }
  destruct (serve t d port _ _) as [served|] eqn:E.
  - apply serve_ok in E as [Hp ->]. split; cbn; try done.
    + apply NoDup_snoc_fmap; [by apply NoDup_disconnect|done].
    + apply NoDup_snoc_fmap; [by apply NoDup_disconnect|]. intros ([q r] & Hr & Hin)%list_elem_of_fmap. cbn in Hr. subst r. by apply Hd in Hin.
    + intros q r [Hin|[[= -> ->]|[]%elem_of_nil]%elem_of_cons]%elem_of_app; [left; by eapply Hd|by right].
    + intros q [Hin|[[=]|[]%elem_of_nil]%elem_of_cons]%elem_of_app. by eapply Hm.
    + by intros ? ? ? [= <- <- <-].
  - split; cbn; try done; try (by apply NoDup_disconnect).
    + intros q r Hin. left. by eapply Hd.
    + intros r j g Hg. specialize (H5 r j g Hg). lia.
Qed.

Lemma rerun_reachable ops : rerun_inv (foldl (fun s o => rerun_step o s) rerun0 ops).
Proof.
  induction ops as [|o ops IH] using rev_ind; [split; cbn; try done; try apply NoDup_nil_2; try (by intros ? ? ?%elem_of_nil);
    try (by intros ? ?%elem_of_nil); split; [lia|done]|]. rewrite foldl_app. cbn [foldl].
  set (s := foldl _ _ ops) in *. clearbody s. destruct o as [t d g w| |t d p|t d repo i]; cbn [rerun_step];
    [by apply start_servers_inv| |by apply start_replay_inv|by apply log_episode_inv].
  destruct IH as [_ _ _ _ _ _ [H7 H8]]. split; cbn; try done; try apply NoDup_nil_2; by intros ? ? ?%elem_of_nil || by intros ? ?%elem_of_nil.
Qed.

(** The replay endpoint exposes one episode.  After any sequence of starts, resets and replays,
    with ports taken by others and servers that fail to come up at any point, a replay that succeeds
    leaves exactly its own recording on the replay port, under a number no earlier replay had, and no
    other episode on any port of this process; and the web viewer, which cannot be released, has been
    bound at most once. *)
Theorem endpoint_serves_one_episode (ops : list rerun_op) (t d : bool) (repo : string) (i : nat) :
  let s := foldl (fun s o => rerun_step o s) rerun0 ops in
  let x := rerun_log_episode t d repo i s in
  x.2 = Ok tt -> exists port, re_port x.1 = Some port /\ (port, Episode repo i (re_gen x.1)) ∈ re_served x.1 /\ re_gen x.1 = S (re_gen s) /\
    (forall p r, (p, r) ∈ re_served x.1 -> r = Metrics \/ (p = port /\ r = Episode repo i (re_gen x.1))) /\
    NoDup (dkeys (re_served x.1)) /\ length (re_web x.1) <= 1.
Proof.
  intros s x Hx. pose proof (rerun_reachable ops) as Hs. pose proof (log_episode_inv t d repo i _ Hs) as Hi. fold s x in Hi.
  destruct Hi as [H1 _ H3 _ _ _ [H7 _]]. fold s in Hs. unfold x in *. clear x. unfold rerun_log_episode in *.
  destruct (re_viewer s) eqn:Ev; [|done]. destruct (re_host s) as [host|] eqn:Eh; [|done]. destruct (re_port s) as [port|] eqn:Ep; [|done].
  destruct (serve t d port _ _) as [served|] eqn:E; [|done]. apply serve_ok in E as [_ ->]. cbn [fst snd re_port re_served re_gen re_web] in *.
  exists port. split; [done|]. split; [apply elem_of_app; right; left|]. split; [done|]. split; [|done].
  intros p r Hin. destruct (H3 p r Hin) as [?|(Hr & Hp & _)]; [by left|]. cbn in Hr, Hp. right. split; congruence.
Qed.

Lemma endpoint_serves_one_episode_witness :
  let s := foldl (fun s o => rerun_step o s) rerun0
    [StartServers false false 9876 9090; StartReplay false false 9880; LogEpisode false false "pick" 3; LogEpisode true false "pick" 4] in
  re_served (rerun_log_episode false false "pick" 5 s).1 = [(9876%Z, Metrics); (9880%Z, Episode "pick" 5 3)] /\
  length (re_web (rerun_log_episode false false "pick" 5 s).1) <= 1.
Proof.
  intros s. split; [reflexivity|].
  destruct (endpoint_serves_one_episode [StartServers false false 9876 9090; StartReplay false false 9880; LogEpisode false false "pick" 3;
    LogEpisode true false "pick" 4] false false "pick" 5 eq_refl) as (port & _ & _ & _ & _ & _ & H). exact H.
Defined.

Lemma serve_checked_answers_witness :
  serve_grpc_checked (fun _ n => 3 <=? n) (fun n => 50 * Z.of_nat n)%Z "uri" 9880 0 = Some (Ok "uri", true, 3) /\
  exists a, 0 <= a < 3 /\ (3 <=? a) = false.
Proof.
  split; [reflexivity|].
  destruct (serve_checked_answers (fun _ n => 3 <=? n) (fun n => 50 * Z.of_nat n)%Z ltac:(intros n; cbv beta; lia) "uri" 9880 0)
    as (r & c & m & E & _ & _ & H & _). vm_compute in E. injection E as <- <- <-.
  destruct (H eq_refl) as (_ & a & Ha & Hl & _). by exists a.
Defined.

(** ** Services *)

Section services.
Context (dies : nat -> exit_on).

(** [_SERVICE] and the processes under it; [viser/service.py] and [plotly_dash/service.py] are the
    same code over their own consumers. *)
Record service_state := ServiceState { sv_service : option vhandle; sv_procs : viewer_procs }.

(** The endpoint: an argument, else the environment's, else the default. *)
Definition service_endpoint (host : option string) (port : option Z) (env_host : option string) (env_port : option Z) (default_port : Z) :
    string * Z :=
  (match host with Some ((String _ _) as h) => h | _ => default "0.0.0.0" env_host end,
   match port with Some p => if (p =? 0)%Z then default default_port env_port else p | None => default default_port env_port end).

(** [start_service]: the running service, or one over a consumer started now. *)
Definition start_service (key : list string * string * Z) (how : startup) (s : service_state) : service_state * outcome vhandle :=
  match sv_service s with
  | Some h =>
    if live (vh_pid h) (sv_procs s) then (s, Returned h)
    else
      match start_consumer dies key how (sv_procs s) with
      | (p, Returned h) => (ServiceState (Some h) p, Returned h)
      | (p, o) => (ServiceState (sv_service s) p, o)
      end
  | None =>
      match start_consumer dies key how (sv_procs s) with
      | (p, Returned h) => (ServiceState (Some h) p, Returned h)
      | (p, o) => (ServiceState None p, o)
      end
  end.

Definition stop_service (s : service_state) : service_state := ServiceState None (stop_consumer dies (sv_procs s)).

Definition restart_service (key : list string * string * Z) (how : startup) (s : service_state) : service_state * outcome vhandle :=
  start_service key how (stop_service s).

(** [web_url]: the public address without its trailing slashes, else the loopback one. *)
Fixpoint strip_slashes (l : list Ascii.ascii) : list Ascii.ascii :=
  match l with "/"%char :: l => strip_slashes l | _ => l end.
Definition web_url (public : option string) (port_text : string) : string :=
  match public with
  | Some ((String _ _) as p) => string_of_list_ascii (rev (strip_slashes (rev (list_ascii_of_string p))))
  | _ => "http://127.0.0.1:" +:+ port_text
  end.

(** A started service has a live consumer, and the same one is returned until it dies. *)
Lemma start_service_live key how s s' h : start_service key how s = (s', Returned h) ->
  live (vh_pid h) (sv_procs s') = true /\ sv_service s' = Some h /\
  forall key' how', start_service key' how' s' = (s', Returned h).
Proof.
  intros H. enough (live (vh_pid h) (sv_procs s') = true /\ sv_service s' = Some h) as [H1 H2].
  { split; [done|]. split; [done|]. intros key' how'. unfold start_service. by rewrite H2, H1. }
  assert (forall p p' h', start_consumer dies key how p = (p', Returned h') -> live (vh_pid h') p' = true) as Hstart.
  { intros p p' h' Hp.
    assert (forall q, launch dies key how q = (p', Returned h') -> live (vh_pid h') p' = true) as Hl.
    { intros q Hq. unfold launch in Hq. destruct how; try done. injection Hq as <- <-. unfold live. cbn. apply bool_decide_eq_true.
      apply elem_of_app. right. left. }
    unfold start_consumer in Hp. destruct (vp_handle p) as [h0|]; [|by eapply Hl]. destruct (live (vh_pid h0) p) eqn:El; [|by eapply Hl].
    case_bool_decide; [by injection Hp as <- <-|by eapply Hl]. }
  unfold start_service in H. destruct (sv_service s) as [h0|] eqn:Es.
  - destruct (live (vh_pid h0) (sv_procs s)) eqn:El; [by injection H as <- <-|].
    destruct (start_consumer _ _ _ _) as [p [h1|e|]] eqn:E; try done. injection H as <- <-. split; [by eapply Hstart|done].
  - destruct (start_consumer _ _ _ _) as [p [h1|e|]] eqn:E; try done. injection H as <- <-. split; [by eapply Hstart|done].
Qed.

(** [plotly_dash/service.py]: the same functions over its own consumer and address. *)
Definition plot_service_endpoint (host : option string) (port : option Z) (env_host : option string) (env_port : option Z) : string * Z :=
  service_endpoint host port env_host env_port 9094.
Definition plot_start_service : list string * string * Z -> startup -> service_state -> service_state * outcome vhandle := start_service.
Definition plot_stop_service : service_state -> service_state := stop_service.
Definition plot_restart_service : list string * string * Z -> startup -> service_state -> service_state * outcome vhandle := restart_service.

(** [endpoint_from_env] of [viser/service.py]: its own port, else the dashboard's web port. *)
Definition viser_endpoint (host : option string) (port : option Z) (env_host : option string) (viser_port web_port : option Z) : string * Z :=
  service_endpoint host port env_host (match viser_port with Some p => Some p | None => web_port end) 9090.

(** [_servers] and [_plot_server] of the page: a service that shows an older layout is replaced. *)
Definition current_service (expected : Z) (revision : vhandle -> Z) (key : list string * string * Z) (first second : startup)
    (s : service_state) : service_state * outcome vhandle :=
  match start_service key first s with
  | (s, Returned h) => if (revision h <? expected)%Z then start_service key second (stop_service s) else (s, Returned h)
  | r => r
  end.

(** The page's service is live, and of its layout unless it was started just now. *)
Lemma current_service_live expected revision key first second s s' h :
  current_service expected revision key first second s = (s', Returned h) ->
  live (vh_pid h) (sv_procs s') = true /\ sv_service s' = Some h /\
  ((expected <= revision h)%Z \/ exists s0, start_service key second (stop_service s0) = (s', Returned h)).
Proof.
  unfold current_service. destruct (start_service key first s) as [s1 [h1|e|]] eqn:E; try done.
  destruct (Z.ltb_spec (revision h1) expected) as [Hr|Hr].
  - intros H. destruct (start_service_live _ _ _ _ _ H) as (? & ? & _). split_and!; [done|done|]. right. by exists s1.
  - intros [= <- <-]. destruct (start_service_live _ _ _ _ _ E) as (? & ? & _). split_and!; [done|done|]. by left.
Qed.
End services.

(** ** What the 3D viewer is started with *)

(** [_viewer_metadata]: the cameras with a colour and a depth image. *)
Definition viewer_cameras (cams : list (string * list string)) : list string :=
  fst <$> List.filter (fun c => bool_decide ("left" ∈ c.2) && bool_decide ("depth" ∈ c.2)) cams.

(** One leader's description, from its configuration file: [arm_teleop.leader_urdf]. *)
Definition leader_urdf (payload : res json) : res json :=
  let? p := payload in
  let? arm := (match py_or p (Obj []) with
               | Obj o => Ok (default (Obj []) (dget "arm_teleop" o))
               | _ => Raise OtherError
               end) in
  jget "leader_urdf" arm.

(** The descriptions found before the first failure. *)
Fixpoint viewer_urdfs (config : string -> res json) (is_file : string -> bool) (path_of : json -> string) (sides : list string) :
    list (string * string) :=
  match sides with
  | [] => []
  | side :: sides =>
    match leader_urdf (config side) with
    | Raise _ => []
    | Ok name =>
      (if Json.truthy name && is_file (path_of name) then [(side, path_of name)] else []) ++ viewer_urdfs config is_file path_of sides
    end
  end.

(** Only files that exist are handed to the viewer, each for a configured side. *)
Lemma viewer_urdfs_exist config is_file path_of sides side path :
  (side, path) ∈ viewer_urdfs config is_file path_of sides -> side ∈ sides /\ is_file path = true.
Proof.
  induction sides as [|x sides IH]; cbn [viewer_urdfs]; [by intros ?%not_elem_of_nil|].
  destruct (leader_urdf _) as [name|]; [|by intros ?%not_elem_of_nil]. rewrite elem_of_app. intros [H|H].
  - destruct (_ && _) eqn:E; [|by apply not_elem_of_nil in H]. apply list_elem_of_singleton in H as [= -> ->].
    apply andb_true_iff in E as [_ E]. split; [left|done].
  - destruct (IH H). split; [by right|done].
Qed.

(** ** The state reader of the old viewer *)

(** [_StateReader.view]: the state file as it is. *)
Definition state_reader_view (raw : option json) : res SessionView :=
  match py_or (default jnull raw) (Obj []) with
  | Obj o =>
    let get k := default jnull (dget k o) in
    let? seq := jint_of (py_or (get "run_seq") (jint 0)) in
    let? cams := tuple_of (get "cameras_down") in
    let? arms := tuple_of (get "arms_down") in
    Ok (Dashboard.View (state_str (py_or (get "state") (jstr "down"))) (get "rig") (get "sim") (get "run_id") (get "task") (get "phase") seq
          (get "run_started_ts") (get "message") (get "last_outcome") cams arms (get "pending") (get "factr_servers"))
  | _ => Raise OtherError
  end.

(** While the daemon is alive and beating, the old viewer and the dashboard see the same session. *)
Lemma state_reader_agrees fos e m pid o v : m_proc m = Some pid -> me_exit e = None -> me_raw e = Some (Obj o) -> o <> [] ->
  pid_matches (default jnull (dget "pid" o)) pid = true -> (exists st, dget "state" o = Some (jstr st) /\ st <> "") ->
  (exists beat, jfloat_of fos (py_or (default jnull (dget "heartbeat_ts" o)) (jint 0)) = Ok beat /\
    flt (fsub (me_wall e) beat) HEARTBEAT_STALE_S = true) ->
  Dashboard.view fos e m = Ok v -> state_reader_view (me_raw e) = Ok v.
Proof.
  intros Hp Hx Hr Hne Hm (st & Hst & Hs) (beat & Hb & Hf) Hv. unfold Dashboard.view in Hv.
  rewrite Hp, Hx, bool_decide_eq_true_2, Hr in Hv by done. change (jget "pid" (Obj o)) with (Ok (default jnull (dget "pid" o))) in Hv.
  cbn [res_bind] in Hv. rewrite Hm in Hv. unfold view_of in Hv. rewrite Hb in Hv. cbn [res_bind] in Hv. rewrite Hf in Hv.
  unfold state_reader_view. rewrite Hr. destruct o as [|x o]; [done|].
  change (py_or (default jnull (Some (Obj (x :: o)))) (Obj [])) with (Obj (x :: o)).
  destruct st as [|c st]; [done|]. rewrite <-Hv. clear Hv. cbv beta iota zeta. rewrite Hst.
  change (state_str (py_or (default jnull (Some (jstr (String c st)))) (jstr "down"))) with (String c st).
  change (state_str (default jnull (Some (jstr (String c st))))) with (String c st). reflexivity.
Qed.

(** A daemon that has died keeps its last state on the old viewer, whose reader looks at neither the
    process nor the heartbeat; the dashboard says it is down. *)
Lemma state_reader_trusts_dead fos e m o st : m_proc m = None -> dget "state" o = Some (jstr st) -> st <> "" ->
  dget "run_seq" o = None -> dget "cameras_down" o = None -> dget "arms_down" o = None ->
  res_map sv_state (Dashboard.view fos e m) = Ok "down" /\ res_map sv_state (state_reader_view (Some (Obj o))) = Ok st.
Proof.
  intros Hp Hst Hne H1 H2 H3. split; [unfold Dashboard.view; by rewrite Hp|]. unfold state_reader_view.
  destruct o as [|x o]; [done|]. change (py_or (default jnull (Some (Obj (x :: o)))) (Obj [])) with (Obj (x :: o)).
  cbv beta iota zeta. rewrite Hst, H1, H2, H3. by destruct st as [|c st].
Qed.

(** ** The editor *)

Inductive open_result := Opened | NotFound | NoCli | NoSocket | EditorTimeout | CannotRun | CliFailed.

(** [_find_code_cli]: the path, else the last match of the first pattern that has one. *)
Definition find_code_cli (on_path : option string) (globs : list (list string)) : option string :=
  match on_path with
  | Some ((String _ _) as p) => Some p
  | _ => foldr (fun hits acc => match list.last (py_sorted str_leb hits) with Some p => Some p | None => acc end) None globs
  end.

(** [_ipc_socket]: the inherited socket if it exists, else the newest. *)
Definition ipc_socket (inherited : option string) (exists_ : string -> bool) (candidates : list (string * Z)) : option string :=
  match inherited with
  | Some p => if negb (String.eqb p "") && exists_ p then Some p
              else fst <$> foldl (fun best c => match best with
                                               | None => Some c
                                               | Some b => if (b.2 <? c.2)%Z then Some c else Some b
                                               end) None candidates
  | None => fst <$> foldl (fun best c => match best with
                                        | None => Some c
                                        | Some b => if (b.2 <? c.2)%Z then Some c else Some b
                                        end) None candidates
  end.

(** [open_in_vscode]; [run] is how the command ended: its exit code, or how it failed. *)
Definition open_in_vscode (file_exists : bool) (code socket inherited : option string) (run : res Z) : open_result :=
  if negb file_exists then NotFound
  else match code with
       | None => NoCli
       | Some _ =>
         match socket, inherited with
         | None, None => NoSocket
         | _, _ =>
           match run with
           | Raise TimeoutExpired => EditorTimeout
           | Raise _ => CannotRun
           | Ok z => if (z =? 0)%Z then Opened else CliFailed
           end
         end
       end.

(** The newest socket is chosen. *)
Lemma newest_socket candidates p t : (p, t) ∈ candidates -> exists q u, ipc_socket None (fun _ => true) candidates = Some q /\
  (q, u) ∈ candidates /\ (t <= u)%Z.
Proof.
  intros Hin. unfold ipc_socket.
  set (f := fun (best : option (string * Z)) c => match best with None => Some c | Some b => if (b.2 <? c.2)%Z then Some c else Some b end).
  assert (forall l best, (forall x, x ∈ l \/ best = Some x -> exists y, foldl f best l = Some y /\ (y ∈ l \/ best = Some y) /\ (x.2 <= y.2)%Z)) as H.
  { induction l as [|c l IH]; intros best x Hx; cbn [foldl].
    - destruct Hx as [[]%elem_of_nil|Hb]. exists x. split; [done|]. split; [by right|lia].
    - assert (exists z, f best c = Some z /\ (z = c \/ best = Some z) /\ (c.2 <= z.2)%Z /\ forall b, best = Some b -> (b.2 <= z.2)%Z)
        as (z & Hz & Hwhere & Hcz & Hbz).
      { unfold f. destruct best as [b|]; [|exists c; split_and!; try done; by left]. destruct (b.2 <? c.2)%Z eqn:E.
        - exists c. split_and!; try done; [by left|]. intros ? [= <-]. lia.
        - exists b. split_and!; try done; [by right|lia|]. by intros ? [= <-]. }
      assert (exists x', (x' ∈ l \/ f best c = Some x') /\ (x.2 <= x'.2)%Z) as (x' & Hx' & Hle).
      { destruct Hx as [[->|Hl]%elem_of_cons|Hb]; [by exists z; split; [right|]|exists x; split; [by left|lia]|by exists z; split; [right|apply Hbz]]. }
      destruct (IH (f best c) x' Hx') as (y & Hy & Hin' & Hxy). exists y. split; [done|]. split; [|lia].
      destruct Hin' as [?|Hy']; [left; by right|]. rewrite Hz in Hy'. injection Hy' as <-.
      destruct Hwhere as [->|?]; [left; left|by right]. }
  destruct (H candidates None (p, t) ltac:(by left)) as ([q u] & Hq & [Hqin|[=]] & Hle). exists q, u. rewrite Hq. done.
Qed.
