(* ===== verification/Facade.v ===== *)
(** * The run facade and the viewers

    Models the rest of [dashboard/runner.py]: what the facade tells the viewers about the commands it
    sends ([_log_event], [reset_viewer]), the deprecated Rerun backend that is loaded on first use
    ([_LazyModule]) with its static styling and texts, and the thread of the session mirror.  The
    commands are those of [Dashboard], the panels those of [Blueprints]. *)

From Stdlib Require Import String Ascii.
From S2P Require Import Prelude Float64 Ring Streams Text Session Json Dashboard Mirror Blueprints.
Local Open Scope string_scope.
Local Open Scope list_scope.

(** ** The viewers *)

(** What an event reports; its text is not kept. *)
Inductive event_kind :=
  | RunEnded (outcome detail : json)
  | Launched (switch : bool) (phase task rig : string) (policy host : option string) (port : option Z)
  | LaunchedSkill (skill rig : string)
  | StopRequested | ReconnectRequested (side : string) | RespawnRequested (name : string)
  | FactrStart | FactrStop | GravComp (enable : bool) | ForceFeedback (enable : bool)
  | ServicesReset | LeadersUnavailable | MirrorDied.

(** Commands to the Viser consumer. *)
Inductive viser_msg := VEvent (k : event_kind) | VReset.

(** Calls to the Rerun module: layouts, texts, static styles. *)
Inductive rerun_call :=
  | RBlueprint (b : blueprint)
  | RText (path : string) (title : option string) (body : string)
  | REvent (path : string) (k : event_kind)
  | RLines (path : string) (names : list string) (colors : list (list Z))
  | RPoints (path : string) (names : list string) (colors : list (list Z)).

(** The consumer's command queue, when the service was started, and the calls made to the Rerun module,
    when it was loaded. *)
Record viewers := Viewers { vw_viser : option (list viser_msg); vw_rerun : option (list rerun_call) }.

Definition tell_viser (m : viser_msg) (v : viewers) : viewers :=
  Viewers ((fun l => l ++ [m]) <$> vw_viser v) (vw_rerun v).

(** A call of the lazy module loads it. *)
Definition call_rerun (c : rerun_call) (v : viewers) : viewers :=
  Viewers (vw_viser v) (Some (default [] (vw_rerun v) ++ [c])).

(** Guarded by [rr._module is not None]. *)
Definition if_loaded (f : viewers -> viewers) (v : viewers) : viewers :=
  match vw_rerun v with Some _ => f v | None => v end.

Definition log_event (k : event_kind) (v : viewers) : viewers :=
  if_loaded (call_rerun (REvent EVENTS k)) (tell_viser (VEvent k) v).

Definition WELCOME : string := "dual-flexiv experiments".
Definition log_welcome (v : viewers) : viewers := call_rerun (RText README None WELCOME) v.

(** [window] is the length of the plots the environment sets. *)
Definition reset_viewer (window : f64) (v : viewers) : viewers :=
  log_event ServicesReset
    (if_loaded (fun v => log_welcome (call_rerun (RBlueprint (welcome_blueprint window)) v)) (tell_viser VReset v)).

(** The modes that have a text of their own. *)
Definition MODE_READMES : list string := ["viewing"; "collection"; "eval"; "skill"; "saving"].

Definition log_mode_readme (state : string) (task : option string) (v : viewers) : viewers :=
  call_rerun (RText README (match task with Some ((String _ _) as t) => Some t | _ => None end)
                (if bool_decide (state ∈ MODE_READMES) then state else "")) v.

Definition EEF_POS_COMPONENTS : list string := ["x"; "y"; "z"].
Definition EEF_POS_COLORS : list (list Z) := [[220; 70; 70]; [70; 200; 70]; [70; 120; 240]]%Z.
Definition POLICY_COMM_COLORS : list (list Z) := [[70; 120; 240]; [70; 200; 70]; [220; 70; 70]; [160; 160; 160]]%Z.

Definition style_eef_pos_series (sides : list string) (v : viewers) : viewers :=
  foldl (fun v side => call_rerun (RLines (proprio_path "eef_pos" side) EEF_POS_COMPONENTS EEF_POS_COLORS) v) v sides.

(** [series.replace("_", "-")]. *)
Fixpoint dashed (s : string) : string :=
  match s with
  | EmptyString => ""
  | String c s => String (if Ascii.eqb c "_" then "-"%char else c) (dashed s)
  end.

Definition style_policy_comm_series (v : viewers) : viewers :=
  call_rerun (RPoints POLICY_LATENCY_PATH ["round trip (ms)"] [[180; 120; 240]%Z])
    (foldl (fun v x => call_rerun (RLines (policy_comm_path x.1) [dashed x.1] [x.2]) v) v
       (zip POLICY_COMM_SERIES POLICY_COMM_COLORS)).

(** ** The facade *)

(** The registry of [Dashboard] and the viewers it tells. *)
Record facade := Facade { fa_runs : runs; fa_viewers : viewers }.

Definition on_runs {A} (m : ST runs A) : ST facade A := fun s =>
  let x := m (fa_runs s) in (Facade x.1 (fa_viewers s), x.2).
Definition tell (k : event_kind) : ST facade unit := st_modify (fun s => Facade (fa_runs s) (log_event k (fa_viewers s))).

(** A request to the daemon, reported when it was sent. *)
Definition ask (m : ST manager bool) (k : event_kind) : ST facade bool :=
  ok ← on_runs (on_manager m);
  if (ok : bool) then tell k;; mret true else mret false.

Definition registry_reconnect_arm (e : menv) (side : string) : ST facade bool := ask (reconnect_arm e side) (ReconnectRequested side).
Definition registry_respawn_camera (e : menv) (name : string) : ST facade bool := ask (respawn_camera_cmd e name) (RespawnRequested name).
Definition start_factr_servers (e : menv) : ST facade bool := ask (start_factr e) FactrStart.
Definition stop_factr_servers (e : menv) : ST facade bool := ask (stop_factr e) FactrStop.
Definition registry_enable_grav_comp (e : menv) : ST facade bool := ask (enable_grav_comp e) (GravComp true).
Definition registry_disable_grav_comp (e : menv) : ST facade bool := ask (disable_grav_comp e) (GravComp false).
Definition registry_enable_force_feedback (e : menv) : ST facade bool := ask (enable_force_feedback e) (ForceFeedback true).
Definition registry_disable_force_feedback (e : menv) : ST facade bool := ask (disable_force_feedback e) (ForceFeedback false).
Definition registry_stop_active (e : menv) : ST facade unit := ask (stop_run_cmd e) StopRequested;; mret tt.

Section launches.
Context (fos : string -> option f64).

Definition registry_launch (e : menv) (task phase rig : string) (policy host : option string) (port : option Z) (switch : bool) :
    ST facade unit :=
  on_runs (dash_launch fos e task phase rig policy host port switch);;
  tell (Launched switch phase task rig policy host port).

Definition registry_launch_skill (e : menv) (skill rig : string) : ST facade unit :=
  on_runs (launch_skill fos e skill rig);; tell (LaunchedSkill skill rig).

Definition registry_take_alert (e : menv) : ST facade (option alert) :=
  a ← on_runs (take_alert fos e);
  match a with
  | Some x => tell (RunEnded (al_outcome x) (al_detail x));; mret (Some x)
  | None => mret None
  end.

Definition registry_reset (e : menv) : ST facade unit := on_runs (reset fos e).
End launches.

(** [activate_metrics_view]: only a loaded backend gets a layout; [layout] is what [_send_layout] sends
    for the view. *)
Definition activate_metrics_view (layout : viewers -> viewers) (v : viewers) : viewers := if_loaded layout v.

(** ** The mirror's thread *)

(** Threads by number: those running, those whose stop event is set, the one [_thread] refers to. *)
Record mirror_threads := Threads {
  mt_live : list nat; mt_stopped : list nat; mt_current : option nat; mt_next : nat;
}.

Definition threads0 : mirror_threads := Threads [] [] None 0.

Definition is_live (t : mirror_threads) (n : nat) : bool := bool_decide (n ∈ mt_live t).

Definition mirror_start (t : mirror_threads) : mirror_threads :=
  match mt_current t with
  | Some n => if is_live t n then t else Threads (mt_live t ++ [mt_next t]) (mt_stopped t) (Some (mt_next t)) (S (mt_next t))
  | None => Threads (mt_live t ++ [mt_next t]) (mt_stopped t) (Some (mt_next t)) (S (mt_next t))
  end.

(** [joined]: the thread ended within the two seconds [join] waits. *)
Definition mirror_stop (joined : bool) (t : mirror_threads) : mirror_threads :=
  match mt_current t with
  | Some n => Threads (if joined then List.filter (fun x => negb (x =? n)%nat) (mt_live t) else mt_live t)
                (n :: mt_stopped t) None (mt_next t)
  | None => t
  end.

Definition mirror_restart (joined : bool) (t : mirror_threads) : mirror_threads := mirror_start (mirror_stop joined t).

(** [_run] ended, by its stop event or by an exception it logged. *)
Definition mirror_ends (n : nat) (t : mirror_threads) : mirror_threads :=
  Threads (List.filter (fun x => negb (x =? n)%nat) (mt_live t)) (mt_stopped t) (mt_current t) (mt_next t).

Inductive thread_op := MStart | MStop (joined : bool) | MRestart (joined : bool) | MEnds (n : nat).

Definition thread_step (t : mirror_threads) (o : thread_op) : mirror_threads :=
  match o with
  | MStart => mirror_start t
  | MStop j => mirror_stop j t
  | MRestart j => mirror_restart j t
  | MEnds n => mirror_ends n t
  end.

(** ** Lemmas *)

(** An event is told exactly when a line was written, and nothing is written or told otherwise. *)
Lemma ask_tells e c k s s' o : ask (send_line e c) k s = (s', o) ->
  (o = Returned true /\ (exists pid, m_proc (ru_manager (fa_runs s)) = Some pid /\
     ru_manager (fa_runs s') = add_line pid c (ru_manager (fa_runs s))) /\
   fa_viewers s' = log_event k (fa_viewers s)) \/
  (o = Returned false /\ s' = s).
Proof.
  unfold ask, on_runs, on_manager, mbind, st_bind. destruct (send_line e c (ru_manager (fa_runs s))) as [m' o'] eqn:E.
  apply send_cases in E as [(-> & _ & pid & Hp & ->)|[-> ->]]; cbn; intros [= <- <-].
  - left. split; [done|]. split; [by exists pid|done].
  - right. split; [done|]. destruct s as [[m h q] v]. done.
Qed.

(** The dashboard never loads the deprecated backend by reporting events or resetting the viewers. *)
Lemma events_keep_backend_out k window v : vw_rerun v = None ->
  vw_rerun (log_event k v) = None /\ vw_rerun (reset_viewer window v) = None.
Proof. intros H. destruct v as [l r]. cbn in H. subst r. done. Qed.

(** What makes a thread an intruder: it runs, nobody asked it to stop, and it is not the current one. *)
Definition threads_ok (t : mirror_threads) : Prop :=
  (forall n, n ∈ mt_live t -> n ∈ mt_stopped t \/ mt_current t = Some n) /\
  (forall n, n ∈ mt_live t -> (n < mt_next t)%nat) /\ NoDup (mt_live t).

Lemma elem_of_filtered n m l : m ∈ List.filter (fun x => negb (x =? n)%nat) l <-> m ∈ l /\ m <> n.
Proof. by rewrite list_elem_of_In, filter_In, <-list_elem_of_In, negb_true_iff, Nat.eqb_neq. Qed.

Lemma NoDup_filtered n l : NoDup l -> NoDup (List.filter (fun x => negb (x =? n)%nat) l).
Proof. rewrite !NoDup_ListNoDup. apply List.NoDup_filter. Qed.

Lemma mirror_start_ok t : threads_ok t -> (forall n, mt_current t = Some n -> n ∈ mt_live t -> False) ->
  threads_ok (Threads (mt_live t ++ [mt_next t]) (mt_stopped t) (Some (mt_next t)) (S (mt_next t))).
Proof.
  intros (H1 & H2 & H3) Hc. split_and!; cbn.
  - intros n [Hn|[->|[]%elem_of_nil]%elem_of_cons]%elem_of_app; [|by right].
    destruct (H1 n Hn) as [?|?]; [by left|]. exfalso. by eapply Hc.
  - intros n [Hn|[->|[]%elem_of_nil]%elem_of_cons]%elem_of_app; [|lia]. specialize (H2 n Hn). lia.
  - apply NoDup_app. split_and!; [done| |repeat constructor; set_solver].
    intros n Hn [->|[]%elem_of_nil]%elem_of_cons. specialize (H2 _ Hn). lia.
Qed.

Lemma thread_step_ok t o : threads_ok t -> threads_ok (thread_step t o).
Proof.
  assert (Hstart : forall t, threads_ok t -> threads_ok (mirror_start t)).
  { intros t' H. unfold mirror_start. destruct (mt_current t') as [n|] eqn:Ec.
    - destruct (is_live t' n) eqn:El; [done|]. apply mirror_start_ok; [done|]. rewrite Ec. intros m [= <-] Hm.
      by apply bool_decide_eq_false in El.
    - apply mirror_start_ok; [done|]. by rewrite Ec. }
  assert (Hstop : forall j t, threads_ok t -> threads_ok (mirror_stop j t)).
  { intros j t' H. unfold mirror_stop. destruct (mt_current t') as [n|] eqn:Ec; [|done]. destruct H as (H1 & H2 & H3).
    split_and!; cbn.
    - intros m Hm. assert (m ∈ mt_live t') as Hl by (destruct j; [by apply elem_of_filtered in Hm as []|done]).
      left. destruct (H1 m Hl) as [?|He]; [by right|]. rewrite Ec in He. injection He as ->. by left.
    - intros m Hm. apply H2. destruct j; [by apply elem_of_filtered in Hm as []|done].
    - destruct j; [by apply NoDup_filtered|done]. }
  intros H. destruct o; cbn; [by apply Hstart|by apply Hstop|by apply Hstart, Hstop|].
  destruct H as (H1 & H2 & H3). split_and!; cbn; [..|by apply NoDup_filtered];
    intros m [Hm _]%elem_of_filtered; [by apply H1|by apply H2].
Qed.

(** However starts, stops, restarts and ends of threads interleave, also when a stop gives up waiting,
    at most one running mirror has not been told to stop, and it is the current one. *)
Lemma one_mirror (l : list thread_op) n : let t := foldl thread_step threads0 l in
  n ∈ mt_live t -> n ∉ mt_stopped t -> mt_current t = Some n.
Proof.
  intros t Hl Hs. enough (threads_ok t) as (H1 & _ & _) by (by destruct (H1 n Hl)). subst t. clear.
  induction l as [|o l IH] using rev_ind; [|rewrite foldl_app; by apply thread_step_ok].
  split_and!; cbn; [by intros ? ?%elem_of_nil|by intros ? ?%elem_of_nil|apply NoDup_nil_2].
Qed.
